(* ===== verification/_CoqProject ===== *)
-Q . S2P
Prelude.v
RbTree.v
IntervalTree.v
Mm.v
MmFacts.v
MmSearch.v
MmOps.v
MmSpec.v
MmTheorems.v
MmScan.v
Rect.v
VmaManager.v
Modes.v
ModeGen.v
Cmdline.v
Bytes.v
Hdmi.v
DpMsg.v
DpReq.v
DpTx.v
DpPayload.v
DpTree.v
Edid.v
EdidCea.v
EdidTables.v
EdidModes.v
EdidHdmi.v
DisplayId.v
EdidAdd.v
Framebuffer.v
Hashtab.v
Lock.v
Vblank.v
VblankFacts.v
Spsc.v
Gem.v
Syncmap.v
TtmLock.v
Fence.v
FenceArray.v
Reservation.v
ReservationRcu.v
Sort.v
