(* ===== verification/Prelude.v ===== *)
(** * Verification of the kms-drm kernel modules

    kms-drm is the port of the Linux graphics drivers to FreeBSD: the DRM core
    under [src/drivers/gpu/drm], drivers for Intel, AMD and VMware devices in its
    subdirectories, headers under [src/include], and [src/linuxkpi], which supplies
    Linux kernel services on FreeBSD.  The development covers the parts of the core
    that compute or coordinate: memory range allocation and the trees it is built on,
    mode and rectangle arithmetic, wire formats (EDID, DisplayID, HDMI, DisplayPort
    sideband), request validation, handles, vertical blank counting, locks, queues,
    fences and the objects that collect them.

    ** Parts and files

    - [Prelude]: machine integers, error values, lemmas on lists and words, counting
      in maps and lists.
    - [RbTree] ([linux_rbtree.c], [rbtree_augmented.h]): the red-black tree as a zipper,
      rebalancing after insertion and erasure case by case, traversal, augmentation.
    - [IntervalTree] ([interval_tree_generic.h]): interval trees over [RbTree].
    - [Mm], [MmFacts], [MmSearch], [MmOps], [MmSpec], [MmTheorems], [MmScan] ([drm_mm.c],
      [drm_mm.h]): the range allocator.  [Mm] has the state ([drm_mm] with its node list,
      hole stack, two hole trees and the interval tree) and every operation; [MmSpec]
      an abstract allocator (a set of placed blocks); the others the invariant, the hole
      searches, each operation, the refinement, and eviction scans.
    - [Rect] ([drm_rect.c]): rectangles with [int] coordinates.
    - [VmaManager] ([drm_vma_manager.c]): the mmap offset space.  Its theorems are
      proved against the class [OffsetSpace], which the range allocator implements.
    - [Modes], [ModeGen], [Cmdline] ([drm_modes.c]): mode lists, comparison, validation, CRTC
      timings, the user-space structure; CVT and GTF generation; command line modes.
    - [Bytes]: byte buffers with bounds; [Hdmi] ([linux_hdmi.c]): HDMI infoframes.
    - [DpMsg], [DpReq], [DpTx], [DpPayload] ([drm_dp_mst_topology.c], [drm_fixed.h]):
      DisplayPort multi-stream transport: sideband headers, CRCs, splitting and
      reassembly; requests, replies, notifications; the transmit queue with its slots
      and message life times, branch devices that come and go included; bandwidth, channel numbers,
      the payload table, and the end of multi-stream operation.
    - [DpTree] ([drm_dp_mst_topology.c]): the tree of branch devices and ports,
      relative addresses and the searches by address, identifier and pointer.
    - [Edid], [EdidCea], [EdidTables], [EdidModes], [EdidHdmi], [DisplayId], [EdidAdd]
      ([drm_edid.c], [drm_displayid.h]): reading and checking EDID blocks; CEA data blocks,
      audio description (ELD) and display information; the tables of standard modes;
      detailed, standard and established timings; CEA and HDMI modes; DisplayID and
      tile groups; [drm_add_edid_modes] as a whole.
    - [Framebuffer] ([drm_fourcc.c], [drm_framebuffer.c], [drm_dumb_buffers.c]): pixel formats, with the
      format hook of i915 ([intel_display.c]), and the checks of framebuffer and dumb buffer requests.
    - [Hashtab] ([drm_hashtab.c], [hash.h]): the open hash table.
    - [Lock] ([drm_lock.c]): the legacy hardware lock.
    - [Vblank], [VblankFacts] ([drm_vblank.c]): vertical blank counters, references, events
      and requests; the second file has the theorems.
    - [Spsc] ([spsc_queue.h]): the job queue of the GPU scheduler.
    - [Gem] ([drm_gem.c]): objects, handles and global names.
    - [Syncmap] ([i915_syncmap.c]): the radix tree of sequence numbers, with the parent
      pointers and cached leaf in explicit memory.
    - [TtmLock] ([ttm_lock.c]): the lock with read, write, terminal and suspend modes.
    - [Fence] ([dma-fence.h]), [FenceArray] ([linux_dmafence.c]): fences with callbacks and
      waiters; arrays of fences, over the contract proved for one.
    - [Reservation], [ReservationRcu] ([linux_reservation.c], [reservation.h]): the fences of
      a buffer, writers as lists of memory accesses; lockless readers between them.
    - [Sort] ([linux_sort.c]): the quicksort of the port.

    ** How code becomes definitions

    A C function is a function of the same name.  State that C reaches through pointers
    is a record passed in and returned; objects are named by identifiers and kept in finite
    maps, so that aliasing is explicit.  Integers are [Z]; [u8] to [s64] below perform the
    conversions of assignments and unsigned arithmetic, and an array access out of bounds, a
    NULL dereference or a division by zero is [None].  Error numbers are values of [result].
    A loop that is not structural takes fuel: the number of nodes (trees, hole searches, offset
    lookup), of table entries (hash table, payload table), the length of the array (quicksort) or
    of the message (sideband reads), the height of the radix tree (at most 17 layers of four bits
    of a 64-bit id), the retries the source itself limits (time stamps, EDID reads).  The theorems
    that such a function returns are about the fuel the caller really passes, so none of them holds
    because fuel ran out.

    Concurrency is interleaving of steps.  Where the source drops a lock inside a function
    ([drm_legacy_lock_free], [drm_legacy_idlelock_take], [drm_dp_mst_handle_down_rep], the tails of
    the GEM handle functions, [dma_fence_signal_locked_sub], the sections of [ttm_lock.c]) the
    function is split there; lock-free code is split at every access to shared memory (job queue,
    fence bits, readers of reservation objects).  A thread is a control point; wait queues, wake-ups
    and signals are steps of their own.  Memory is sequentially consistent.

    ** What the theorems show

    Refinement: red-black and interval trees behave as sorted lists; the range allocator as a set
    of disjoint blocks; hash table and synchronisation map as finite maps; the job queue as a FIFO;
    reservation objects as an exclusive fence and one shared fence per context.  Invariants over all
    runs: allocated blocks never overlap; mutual exclusion of the hardware lock and of the modes of
    the TTM lock; handle, reference and frame counts; queue and slots of the sideband transmitter;
    channel numbers; tile groups; callbacks of fences are called once.  Liveness: no deadlock of the
    TTM lock and of calls on a fence, eviction scans free enough, undisturbed readers return.
    Totality and function of single operations: hole search and insertion, offset lookup, quicksort,
    EDID reading, mode and audio parsing, delivery of events.  Snapshots: a lockless reader returns
    the contents of one moment.  Round trips: insertion and removal, eviction scans, rotation, modes
    to user space and back, command line modes, infoframes, sideband headers, messages and requests,
    the audio description.  Bounds: framebuffer and dumb buffer sizes do not wrap; time slots are
    disjoint; parsed modes are valid.  Error behaviour, and behaviour that differs from what the code
    or its comments intend, is stated in theorems too, e.g. the lost handover of the lock, the reply
    handler that races with a timeout, the uninitialised EDID that is returned, the callback that is
    called after its removal, the references that copying fences leaks.

    ** What callers and devices have to do

    Where the code checks nothing, a theorem says what it needs of the caller, in its statement or in the guards of
    the steps, and its comment repeats it; what happens otherwise is often a lemma of its own.  Clients of the hardware
    lock unlock only what they hold and use contexts below 2^30; user space closes only GEM handles it was given; one caller
    at a time uses the terminal and the suspend mode of the TTM lock; shared fences are added after a slot was reserved; a
    payload is allocated for a port that has none; the hardware frame counter is read before it wraps once and enabling
    its interrupt succeeds; a lockless reader is not overtaken by 2^31 writers; the array of the quicksort has less than 2^31
    bytes; groups of tiles can be allocated; framebuffers are limited to 2^30 pixels in a direction.

    ** Parameters

    Code outside the repository is a parameter with its documented behaviour as hypothesis: the
    digits parser [simple_strtol], [hash32_buf], the host [qsort], driver callbacks (colour adjustment
    of the allocator, format hooks, opening of GEM objects, enabling of interrupts and signalling), the
    hardware frame counter and the clock, AUX and DDC transfers and device answers, the context of a
    fence.  Answers of allocators ([kmalloc], [krealloc], [idr_alloc]), of [schedule_timeout] and of
    [signal_pending] are inputs of the steps.

    ** Not modelled

    Hardware drivers (register programming, generated register headers); atomic mode setting and its
    helpers; PRIME and memory mapping; TTM buffer objects and object files; the threads of the GPU
    scheduler; waits for several fences and the waiting readers of reservation objects; DisplayPort
    link training (register sequences); drivers' use of the core; sysfs, debugfs and logging (output
    only); glue of [linuxkpi] to the host kernel.  These parts call into kernel objects and hardware
    outside the repository more than they compute. *)

From stdpp Require Import base gmap list sets sorting.
From Stdlib Require Import ZArith Lia.

#[local] Set Warnings "-clear-no-such-hyp".

#[global] Open Scope Z_scope.

(** ** Machine integers

    A C integer of width [w] is a [Z] in the range of its type; the functions
    below are the conversions the C standard performs on assignment and after
    each unsigned operation. *)
Definition u8 (x : Z) : Z := x mod 2 ^ 8.
Definition u16 (x : Z) : Z := x mod 2 ^ 16.
Definition u32 (x : Z) : Z := x mod 2 ^ 32.
Definition u64 (x : Z) : Z := x mod 2 ^ 64.
Definition s32 (x : Z) : Z := (x + 2 ^ 31) mod 2 ^ 32 - 2 ^ 31.
Definition s64 (x : Z) : Z := (x + 2 ^ 63) mod 2 ^ 64 - 2 ^ 63.

Definition U64_MAX : Z := 2 ^ 64 - 1.
Definition U32_MAX : Z := 2 ^ 32 - 1.
Definition INT_MAX : Z := 2 ^ 31 - 1.
Definition INT_MIN : Z := - 2 ^ 31.

Definition is_u8 (x : Z) : Prop := 0 <= x < 2 ^ 8.
Definition is_u16 (x : Z) : Prop := 0 <= x < 2 ^ 16.
Definition is_u32 (x : Z) : Prop := 0 <= x < 2 ^ 32.
Definition is_u64 (x : Z) : Prop := 0 <= x < 2 ^ 64.
Definition is_s32 (x : Z) : Prop := - 2 ^ 31 <= x < 2 ^ 31.

(** ** Error values

    The kernel returns [0] or a negated [errno]; the model returns a sum whose
    right side names the error. *)
Inductive errno :=
  EINVAL | ENOSPC | ENOMEM | ENOENT | EACCES | ERANGE | EBUSY | EEXIST | EDEADLK | EOVERFLOW
| ENOSYS | EINTR | EPERM | EAGAIN | EIO | EPROTO | ENOTSUPP | ERESTARTSYS.

#[global] Instance errno_eq_dec : EqDecision errno.
Proof. solve_decision. Defined.

Inductive result (A : Type) :=
| Ok (a : A)
| Err (e : errno).
Arguments Ok {A} _.
Arguments Err {A} _.

Definition is_ok {A} (r : result A) : bool :=
  match r with Ok _ => true | Err _ => false end.

Declare Scope result_scope.
Delimit Scope result_scope with result.
Notation "'let*' x := c 'in' k" :=
  (match c with Ok x => k | Err e => Err e end)
  (at level 10, x pattern, c at level 100, k at level 200) : result_scope.

(** ** Generic list lemmas *)

Lemma list_pair_ind {A} (P : list A -> Prop) :
  P [] -> (forall x, P [x]) -> (forall x y l, P l -> P (x :: y :: l)) -> forall l, P l.
Proof.
  intros H0 H1 H2. enough (forall l, P l /\ forall x, P (x :: l)) as H by (intros l; apply H).
  induction l as [|x l [IHl IHx]]; split; auto.
Qed.

(** Normal form of concatenations: right-nested, with [cons] exposed. *)
Ltac app_norm := repeat (progress (simpl; rewrite <- ?app_assoc, ?app_nil_r)).

(** In a list without duplicates, an element determines its two sides. *)
Lemma nodup_middle_inj {A} (a a' b b' : list A) (k : A) :
  a ++ k :: b = a' ++ k :: b' -> NoDup (a ++ k :: b) -> a = a' /\ b = b'.
Proof.
  revert a'; induction a as [|x a IHa]; intros [|y a'] E Hnd; simplify_eq/=; [done| | |].
  - apply NoDup_cons in Hnd as [Hnd _]. exfalso. apply Hnd. set_solver.
  - apply NoDup_cons in Hnd as [Hnd _]. exfalso. apply Hnd. set_solver.
  - apply NoDup_cons in Hnd as [_ Hnd]. destruct (IHa a') as [-> ->]; auto.
Qed.

Lemma nodup_not_before {A} (x : A) pre l2 : NoDup (pre ++ x :: l2) -> (x ∉ pre) /\ (x ∉ l2).
Proof.
  intros H. apply NoDup_app in H as (_ & Hd & H). apply NoDup_cons in H as [H _].
  split; [|done]. intros Hx. apply (Hd _ Hx). by left.
Qed.

Lemma sorted_sublist {A} (R : A -> A -> Prop) l l' :
  l' `sublist_of` l -> StronglySorted R l -> StronglySorted R l'.
Proof.
  induction 1 as [|x l1 l2 Hs IH|x l1 l2 Hs IH]; intros H; [done| |].
  - apply StronglySorted_inv in H as [H Hx]. constructor; [auto|].
    rewrite Forall_forall in *. intros y Hy. apply Hx. by eapply elem_of_sublist.
  - apply StronglySorted_inv in H as [H _]. auto.
Qed.

(** ** Arithmetic of machine integers *)

(** A literal fits its width. *)
Ltac word_const :=
  clear; unfold is_u8, is_u16, is_u32, is_u64, is_s32, U64_MAX, U32_MAX, INT_MAX, INT_MIN; lia.

Lemma u64_small x : is_u64 x -> u64 x = x.
Proof. intros H. unfold u64, is_u64 in *. by apply Z.mod_small. Qed.

Lemma u32_small x : is_u32 x -> u32 x = x.
Proof. intros H. unfold u32, is_u32 in *. by apply Z.mod_small. Qed.

Lemma u16_small x : is_u16 x -> u16 x = x.
Proof. intros H. unfold u16, is_u16 in *. by apply Z.mod_small. Qed.

Lemma u32_range x : is_u32 (u32 x).
Proof. unfold u32, is_u32. apply Z.mod_pos_bound. lia. Qed.

Lemma u64_range x : is_u64 (u64 x).
Proof. unfold u64, is_u64. apply Z.mod_pos_bound. lia. Qed.

Lemma u64_add_wrap x : 2 ^ 64 <= x < 2 * 2 ^ 64 -> u64 x = x - 2 ^ 64.
Proof.
  intros H. unfold u64. symmetry. apply (Z.mod_unique_pos x (2 ^ 64) 1); lia.
Qed.

Lemma u64_sub_wrap x : - 2 ^ 64 <= x < 0 -> u64 x = x + 2 ^ 64.
Proof.
  intros H. unfold u64. symmetry. apply (Z.mod_unique_pos x (2 ^ 64) (-1)); lia.
Qed.

Lemma s32_small x : is_s32 x -> s32 x = x.
Proof. unfold s32, is_s32. intros H. rewrite Z.mod_small by lia. lia. Qed.

Lemma s64_small x : - 2 ^ 63 <= x < 2 ^ 63 -> s64 x = x.
Proof. unfold s64. intros H. rewrite Z.mod_small by lia. lia. Qed.

Lemma s32_range x : is_s32 (s32 x).
Proof. unfold s32, is_s32. pose proof (Z.mod_pos_bound (x + 2 ^ 31) (2 ^ 32) ltac:(lia)). lia. Qed.

(** The multiples of [a] around [x]. *)
Lemma aligned_ge_next a x s :
  0 < a -> s mod a = 0 -> x <= s -> x mod a <> 0 -> x - x mod a + a <= s.
Proof.
  intros Ha Hs Hx Hn. pose proof (Z.div_mod x a ltac:(lia)).
  pose proof (Z.div_mod s a ltac:(lia)). pose proof (Z.mod_pos_bound x a Ha).
  assert (x / a < s / a) by nia. nia.
Qed.

Lemma aligned_le_prev a x s :
  0 < a -> s mod a = 0 -> s <= x -> s <= x - x mod a.
Proof.
  intros Ha Hs Hx. pose proof (Z.div_mod x a ltac:(lia)).
  pose proof (Z.div_mod s a ltac:(lia)). pose proof (Z.mod_pos_bound x a Ha).
  assert (s / a <= x / a) by (apply Z.div_le_mono; lia). nia.
Qed.

Lemma sub_mod_aligned a x : 0 < a -> (x - x mod a) mod a = 0.
Proof.
  intros Ha. replace (x - x mod a) with (x / a * a) by (pose proof (Z.div_mod x a ltac:(lia)); lia).
  by apply Z.mod_mul; lia.
Qed.

Lemma add_mod_aligned a x : 0 < a -> (x - x mod a + a) mod a = 0.
Proof.
  intros Ha. replace (x - x mod a + a) with (x - x mod a + 1 * a) by lia.
  rewrite Z.mod_add by lia. by apply sub_mod_aligned.
Qed.

(** A positive number that has no bit in common with its predecessor is a power
    of two, and masking with the predecessor is reduction. *)
Lemma land_pred_pow2 n : 0 < n -> Z.land n (n - 1) = 0 -> n = 2 ^ Z.log2 n.
Proof.
  intros Hn H. destruct (Z.log2_spec n Hn) as [Hlo Hhi].
  destruct (decide (n = 2 ^ Z.log2 n)) as [|Hne]; [done|exfalso].
  assert (Z.log2 (n - 1) = Z.log2 n) as E.
  { apply Z.log2_unique; [apply Z.log2_nonneg|]. lia. }
  assert (Z.testbit (Z.land n (n - 1)) (Z.log2 n) = true) as Hb.
  { rewrite Z.land_spec, Z.bit_log2 by lia. rewrite <- E, Z.bit_log2; [done|].
    pose proof (Z.pow_pos_nonneg 2 (Z.log2 n) ltac:(lia) (Z.log2_nonneg n)). lia. }
  by rewrite H, Z.bits_0 in Hb.
Qed.

Lemma land_mask_mod x n : 0 < n -> Z.land n (n - 1) = 0 -> Z.land x (n - 1) = x mod n.
Proof.
  intros Hn H. rewrite (land_pred_pow2 n Hn H) at 1 2.
  replace (2 ^ Z.log2 n - 1) with (Z.ones (Z.log2 n)) by (rewrite Z.ones_equiv; lia).
  rewrite Z.land_ones by apply Z.log2_nonneg. by rewrite <- land_pred_pow2.
Qed.

(** ** Counting in a finite map

    [tally w m] adds the weights of the values of [m]: with weights 0 and 1 it
    counts the threads or objects of a kind. *)
Definition tally {A} (w : A -> Z) (m : gmap nat A) : Z := map_fold (fun _ x n => w x + n) 0 m.

Section Tally.
Context {A : Type}.
Implicit Types (w : A -> Z) (ts : gmap nat A) (p q : A).

Lemma tally_insert w ts t p : ts !! t = None -> tally w (<[t := p]> ts) = w p + tally w ts.
Proof. intros H. unfold tally. rewrite map_fold_insert_L; [done| |done]. intros. lia. Qed.

Lemma tally_set w ts t p p' : ts !! t = Some p -> tally w (<[t := p']> ts) = tally w ts - w p + w p'.
Proof.
  intros H. rewrite <- insert_delete_eq, tally_insert by apply lookup_delete_eq.
  rewrite <- (insert_delete_id ts t p H) at 2. rewrite tally_insert by apply lookup_delete_eq. lia.
Qed.

Lemma tally_ge w ts t p : (forall q, 0 <= w q) -> ts !! t = Some p -> w p <= tally w ts.
Proof.
  intros Hw H. rewrite <- (insert_delete_id ts t p H), tally_insert by apply lookup_delete_eq.
  enough (0 <= tally w (delete t ts)) by lia. unfold tally.
  apply (map_fold_weak_ind (fun n _ => 0 <= n)); [done|]. intros k v m' n _ Hn. specialize (Hw v). lia.
Qed.

Lemma tally_nonneg w ts : (forall q, 0 <= w q) -> 0 <= tally w ts.
Proof. intros Hw. apply (map_fold_weak_ind (fun n _ => 0 <= n)); [done|]. intros k v m' n _ Hn. specialize (Hw v). lia. Qed.

Lemma tally_pos w ts : 0 < tally w ts -> exists t p, ts !! t = Some p /\ 0 < w p.
Proof.
  unfold tally. apply (map_fold_weak_ind (fun n m => 0 < n -> exists t p, m !! t = Some p /\ 0 < w p)); [lia|].
  intros k v m' n Hk IH Hn. destruct (decide (0 < w v)) as [Hv|Hv].
  - exists k, v. by rewrite lookup_insert_eq.
  - destruct IH as (t & p & Ht & Hp); [lia|]. exists t, p. split; [|done].
    rewrite lookup_insert_ne; [done|]. intros ->. congruence.
Qed.

Lemma tally_le_size w ts : (forall q, w q <= 1) -> tally w ts <= Z.of_nat (size ts).
Proof.
  intros Hw. induction ts as [|k v ts Hk IH] using map_ind; [done|].
  rewrite tally_insert, map_size_insert_None by done. specialize (Hw v). lia.
Qed.

Lemma tally_ge2 w ts t t' p p' : (forall q, 0 <= w q) -> t <> t' -> ts !! t = Some p -> ts !! t' = Some p' ->
  w p + w p' <= tally w ts.
Proof.
  intros Hw Hne Ht Ht'. rewrite <- (insert_delete_id ts t p Ht), tally_insert by apply lookup_delete_eq.
  enough (w p' <= tally w (delete t ts)) by lia. apply tally_ge with t'; [done|]. by rewrite lookup_delete_ne.
Qed.

Lemma tally_fmap w (f : A -> A) ts : (forall p, w (f p) = w p) -> tally w (f <$> ts) = tally w ts.
Proof.
  intros Hw. induction ts as [|k v ts Hk IH] using map_ind; [done|].
  rewrite fmap_insert, !tally_insert; [|done|by rewrite lookup_fmap, Hk]. by rewrite Hw, IH.
Qed.

Lemma tally_mono w w' ts : (forall i p, ts !! i = Some p -> w p <= w' p) -> tally w ts <= tally w' ts.
Proof.
  induction ts as [|k v ts Hk IH] using map_ind; [done|]. intros H. rewrite !tally_insert by done.
  pose proof (H k v (lookup_insert_eq _ _ _)). enough (tally w ts <= tally w' ts) by lia. apply IH. intros i p Hi. apply (H i p).
  rewrite lookup_insert_ne; [done|]. intros ->. congruence.
Qed.

Lemma size_insert_le ts t p : (size ts <= size (<[t := p]> ts))%nat.
Proof.
  destruct (ts !! t) as [q|] eqn:E; [rewrite map_size_insert_Some by eauto|rewrite map_size_insert_None by done]; lia.
Qed.
End Tally.

(** ** Counting in lists

    [lsum w l] adds the weights of the elements of [l]; [lsum (one c) l] counts
    the occurrences of [c]. *)
Definition lsum {A} (w : A -> Z) (l : list A) : Z := foldr (fun x n => w x + n) 0 l.

Lemma lsum_app {A} (w : A -> Z) l k : lsum w (l ++ k) = lsum w l + lsum w k.
Proof. induction l as [|x l IH]; simpl; lia. Qed.

Lemma lsum_nonneg {A} (w : A -> Z) l : (forall x, 0 <= w x) -> 0 <= lsum w l.
Proof. intros Hw. induction l as [|x l IH]; simpl; [lia|]. specialize (Hw x). lia. Qed.

Lemma lsum_elem {A} (w : A -> Z) l x : (forall y, 0 <= w y) -> x ∈ l -> w x <= lsum w l.
Proof.
  intros Hw. induction l as [|y l IH]; [by intros ?%elem_of_nil|]. simpl. pose proof (lsum_nonneg w l Hw). specialize (Hw y).
  intros [<-|Hx]%elem_of_cons; [lia|]. specialize (IH Hx). lia.
Qed.

Definition one (c x : nat) : Z := if decide (x = c) then 1 else 0.

Lemma one_ge0 c x : 0 <= one c x.
Proof. unfold one. destruct (decide _); lia. Qed.

Lemma lsum_one c l : 0 <= lsum (one c) l /\ (0 < lsum (one c) l <-> c ∈ l).
Proof.
  induction l as [|x l [IH1 IH2]]; simpl.
  - split; [lia|]. split; [lia|]. by intros ?%elem_of_nil.
  - pose proof (one_ge0 c x). split; [lia|]. rewrite elem_of_cons, <- IH2. unfold one in *. destruct (decide (x = c)); [|split; [intros|intros []]; try congruence]; lia.
Qed.
