(* ===== verification/RbTree.v ===== *)
(** * Red-black trees ([linux_rbtree.c], [rbtree_augmented.h])

    The kernel's intrusive red-black tree, with the augmentation callbacks.
    A tree node carries the identity [K] of the structure that embeds the
    [rb_node] and the augmented value [G] the callbacks maintain ([unit] for a
    plain tree).  A pointer to a node is a zipper position: the subtree at the
    node and the frames up to the root, so that [rb_parent] is the head of the
    path and "[node == parent->rb_left]" is the frame's direction.  A [NULL]
    dereference of the C code is [None].

    Theorems: insertion and erasure keep the in-order sequence, the red-black
    invariants and the augmentation, never dereference [NULL] on a valid tree,
    and [rb_next]/[rb_prev] walk the in-order sequence. *)

From S2P Require Import Prelude.
From stdpp Require Import base list sets sorting.
From Stdlib Require Import ZArith Lia.

#[local] Set Warnings "-clear-no-such-hyp".

#[local] Open Scope Z_scope.

Inductive color := RB_RED | RB_BLACK.

#[global] Instance color_eq_dec : EqDecision color.
Proof. solve_decision. Defined.

Inductive tree (K G : Type) :=
| Leaf
| Node (c : color) (l : tree K G) (k : K) (g : G) (r : tree K G).
Arguments Leaf {K G}.
Arguments Node {K G} _ _ _ _ _.

(** The parent of a position: its colour, key, augmented value and other child. *)
Inductive frame (K G : Type) :=
| InLeft (c : color) (k : K) (g : G) (r : tree K G)
| InRight (c : color) (l : tree K G) (k : K) (g : G).
Arguments InLeft {K G} _ _ _ _.
Arguments InRight {K G} _ _ _ _.

Section RbTree.
Context {K G : Type} `{EqDecision G}.

(** The callback [rbcompute] of [RB_DECLARE_CALLBACKS]: the augmented value of a
    node from its key and its children's augmented values. *)
Variable compute : K -> option G -> option G -> G.

#[local] Abbreviation tree := (tree K G).
#[local] Abbreviation frame := (frame K G).
#[local] Abbreviation path := (list frame).

Definition aug (t : tree) : option G :=
  match t with Leaf => None | Node _ _ _ g _ => Some g end.

Definition is_red (t : tree) : bool :=
  match t with Node RB_RED _ _ _ _ => true | _ => false end.

(** [if (t) rb_set_parent_color(t, _, RB_BLACK)] *)
Definition set_black (t : tree) : tree :=
  match t with Leaf => Leaf | Node _ l k g r => Node RB_BLACK l k g r end.

Definition set_color (c : color) (t : tree) : tree :=
  match t with Leaf => Leaf | Node _ l k g r => Node c l k g r end.

Definition frame_color (f : frame) : color :=
  match f with InLeft c _ _ _ => c | InRight c _ _ _ => c end.

Definition plug (t : tree) (f : frame) : tree :=
  match f with
  | InLeft c k g r => Node c t k g r
  | InRight c l k g => Node c l k g t
  end.

Fixpoint zipup (t : tree) (p : path) : tree :=
  match p with [] => t | f :: p' => zipup (plug t f) p' end.

Fixpoint inorder (t : tree) : list K :=
  match t with Leaf => [] | Node _ l k _ r => inorder l ++ k :: inorder r end.

(** ** Insertion *)

(** [rb_insert_augmented] and [rb_insert_color] after [rb_link_node]: [node] is
    the red node [(l, k, g, r)] at path [p]. *)
Fixpoint __rb_insert (l : tree) (k : K) (g : G) (r : tree) (p : path) : option tree :=
  match p with
  | [] => Some (Node RB_BLACK l k g r)
  | f :: p' =>
    match frame_color f, p' with
    | RB_BLACK, _ => Some (zipup (Node RB_RED l k g r) p)
    | RB_RED, [] => None
    | RB_RED, InLeft gc gk gg u :: p'' =>
      if is_red u then
        (* Case 1 - color flips *)
        __rb_insert (set_black (plug (Node RB_RED l k g r) f)) gk gg (set_black u) p''
      else
        match f with
        | InRight _ pl pk pg =>
          (* Case 2 - left rotate at parent, then Case 3 *)
          let P := Node RB_RED pl pk (compute pk (aug pl) (aug l)) (set_black l) in
          let Gp := Node RB_RED (set_black r) gk (compute gk (aug r) (aug u)) u in
          Some (zipup (Node gc P k gg Gp) p'')
        | InLeft _ pk pg pr =>
          (* Case 3 - right rotate at gparent *)
          let Gp := Node RB_RED (set_black pr) gk (compute gk (aug pr) (aug u)) u in
          Some (zipup (Node gc (Node RB_RED l k g r) pk gg Gp) p'')
        end
    | RB_RED, InRight gc u gk gg :: p'' =>
      if is_red u then
        __rb_insert (set_black u) gk gg (set_black (plug (Node RB_RED l k g r) f)) p''
      else
        match f with
        | InLeft _ pk pg pr =>
          (* Case 2 - right rotate at parent, then Case 3 *)
          let P := Node RB_RED (set_black r) pk (compute pk (aug r) (aug pr)) pr in
          let Gp := Node RB_RED u gk (compute gk (aug u) (aug l)) (set_black l) in
          Some (zipup (Node gc Gp k gg P) p'')
        | InRight _ pl pk pg =>
          (* Case 3 - left rotate at gparent *)
          let Gp := Node RB_RED u gk (compute gk (aug u) (aug pl)) (set_black pl) in
          Some (zipup (Node gc Gp pk gg (Node RB_RED l k g r)) p'')
        end
    end
  end.

(** [rb_link_node(node, parent, link); rb_insert_color(node, root)] *)
Definition rb_insert_at (k : K) (g : G) (p : path) : option tree :=
  __rb_insert Leaf k g Leaf p.

(** ** Erasure *)

(** Cases 2-4 of [____rb_erase_color] when [node] is the left child of a parent
    of colour [pc]; the boolean is [false] when the loop continues at the parent. *)
Definition erase_cases_left (pc : color) (N : tree) (pk : K) (pg : G) (S : tree)
    : option (bool * tree) :=
  match S with
  | Leaf => None
  | Node sc sl sk sg sr =>
    if is_red sr then
      (* Case 4 - left rotate at parent + color flips *)
      Some (true, Node pc (Node RB_BLACK N pk (compute pk (aug N) (aug sl)) sl) sk pg
                       (set_black sr))
    else
      match sl with
      | Node RB_RED sll slk slg slr =>
        (* Case 3 - right rotate at sibling, then Case 4 *)
        let S' := Node RB_BLACK (set_black slr) sk (compute sk (aug slr) (aug sr)) sr in
        let P := Node RB_BLACK N pk (compute pk (aug N) (aug sll)) sll in
        Some (true, Node pc P slk pg S')
      | _ =>
        (* Case 2 - sibling color flip *)
        let t := Node RB_BLACK N pk pg (Node RB_RED sl sk sg sr) in
        Some (match pc with RB_RED => true | RB_BLACK => false end, t)
      end
  end.

Definition erase_cases_right (pc : color) (S : tree) (pk : K) (pg : G) (N : tree)
    : option (bool * tree) :=
  match S with
  | Leaf => None
  | Node sc sl sk sg sr =>
    if is_red sl then
      Some (true, Node pc (set_black sl) sk pg
                       (Node RB_BLACK sr pk (compute pk (aug sr) (aug N)) N))
    else
      match sr with
      | Node RB_RED srl srk srg srr =>
        let S' := Node RB_BLACK sl sk (compute sk (aug sl) (aug srl)) (set_black srl) in
        let P := Node RB_BLACK srr pk (compute pk (aug srr) (aug N)) N in
        Some (true, Node pc S' srk pg P)
      | _ =>
        let t := Node RB_BLACK (Node RB_RED sl sk sg sr) pk pg N in
        Some (match pc with RB_RED => true | RB_BLACK => false end, t)
      end
  end.

(** The loop of [____rb_erase_color]: [N] is the node whose paths are one black
    node short.  After Case 1 the parent is red, so Case 2 does not continue. *)
Fixpoint __rb_erase_color (N : tree) (p : path) : option tree :=
  match p with
  | [] => Some N
  | InLeft pc pk pg Sb :: p' =>
    match Sb with
    | Leaf => None
    | Node RB_RED sl sk sg sr =>
      match sl with
      | Leaf => None
      | _ =>
        (* Case 1 - left rotate at parent *)
        match erase_cases_left RB_RED N pk (compute pk (aug N) (aug sl)) (set_black sl) with
        | Some (_, t) => Some (zipup (Node pc t sk pg sr) p')
        | None => None
        end
      end
    | Node RB_BLACK _ _ _ _ =>
      match erase_cases_left pc N pk pg Sb with
      | Some (true, t) => Some (zipup t p')
      | Some (false, t) => __rb_erase_color t p'
      | None => None
      end
    end
  | InRight pc Sb pk pg :: p' =>
    match Sb with
    | Leaf => None
    | Node RB_RED sl sk sg sr =>
      match sr with
      | Leaf => None
      | _ =>
        (* Case 1 - right rotate at parent *)
        match erase_cases_right RB_RED (set_black sr) pk (compute pk (aug sr) (aug N)) N with
        | Some (_, t) => Some (zipup (Node pc sl sk pg t) p')
        | None => None
        end
      end
    | Node RB_BLACK _ _ _ _ =>
      match erase_cases_right pc Sb pk pg N with
      | Some (true, t) => Some (zipup t p')
      | Some (false, t) => __rb_erase_color t p'
      | None => None
      end
    end
  end.

(** [rbname_propagate(rb, stop)]: recompute the augmented values upwards, until
    one does not change; [o] is the augmented value at the focus. *)
Fixpoint propagate (o : option G) (p : path) : path :=
  match p with
  | [] => []
  | InLeft c k g r :: p' =>
    let g' := compute k o (aug r) in
    if decide (g = g') then p else InLeft c k g' r :: propagate (Some g') p'
  | InRight c l k g :: p' =>
    let g' := compute k (aug l) o in
    if decide (g = g') then p else InRight c l k g' :: propagate (Some g') p'
  end.

(** The leftmost node below [t] (not a leaf): its key, colour, right child and
    the frames from it up to [t]. *)
Fixpoint leftmost_below (c : color) (l : tree) (k : K) (g : G) (r : tree) (p : path)
    : color * K * tree * path :=
  match l with
  | Leaf => (c, k, r, p)
  | Node c' l' k' g' r' => leftmost_below c' l' k' g' r' (InLeft c k g r :: p)
  end.

(** What [__rb_erase_augmented] leaves: the position where rebalancing may start
    and whether the caller must call [____rb_erase_color]. *)
Record erased := { er_focus : tree; er_path : path; er_rebalance : bool }.

Definition is_black (c : color) : bool :=
  match c with RB_RED => false | RB_BLACK => true end.

Definition __rb_erase_augmented (c : color) (l : tree) (k : K) (g : G) (r : tree) (p : path)
    : erased :=
  match l, r with
  | Leaf, Leaf => {| er_focus := Leaf; er_path := propagate None p; er_rebalance := is_black c |}
  | Leaf, Node _ _ _ _ _ =>
    {| er_focus := set_color c r; er_path := propagate (aug r) p; er_rebalance := false |}
  | Node _ _ _ _ _, Leaf =>
    {| er_focus := set_color c l; er_path := propagate (aug l) p; er_rebalance := false |}
  | Node _ _ _ _ _, Node rc rl rk rg rr =>
    match rl with
    | Leaf =>
      (* Case 2: node's successor is its right child *)
      {| er_focus := set_black rr;
         er_path := propagate (aug rr) (InRight c l rk g :: p);
         er_rebalance := match rr with Leaf => is_black rc | _ => false end |}
    | Node _ _ _ _ _ =>
      (* Case 3: node's successor is leftmost under its right child subtree *)
      let '(sc, sk, child2, q) := leftmost_below rc rl rk rg rr [] in
      let q' := propagate (aug child2) q in
      let o := aug (zipup child2 q') in
      {| er_focus := set_black child2;
         er_path := q' ++ propagate o (InRight c l sk g :: p);
         er_rebalance := match child2 with Leaf => is_black sc | _ => false end |}
    end
  end.

(** [rb_erase] / [rb_erase_augmented] of the node at a position. *)
Definition rb_erase (c : color) (l : tree) (k : K) (g : G) (r : tree) (p : path) : option tree :=
  let e := __rb_erase_augmented c l k g r p in
  if er_rebalance e
  then __rb_erase_color (er_focus e) (er_path e)
  else Some (zipup (er_focus e) (er_path e)).

(** ** Traversal *)

Fixpoint rb_first (t : tree) : option K :=
  match t with
  | Leaf => None
  | Node _ Leaf k _ _ => Some k
  | Node _ l _ _ _ => rb_first l
  end.

Fixpoint rb_last (t : tree) : option K :=
  match t with
  | Leaf => None
  | Node _ _ k _ Leaf => Some k
  | Node _ _ _ _ r => rb_last r
  end.

(** Going up while the node is a right child. *)
Fixpoint up_next (p : path) : option K :=
  match p with
  | [] => None
  | InRight _ _ _ _ :: p' => up_next p'
  | InLeft _ k _ _ :: _ => Some k
  end.

Fixpoint up_prev (p : path) : option K :=
  match p with
  | [] => None
  | InLeft _ _ _ _ :: p' => up_prev p'
  | InRight _ _ k _ :: _ => Some k
  end.

Definition rb_next (r : tree) (p : path) : option K :=
  match r with Leaf => up_next p | _ => rb_first r end.

Definition rb_prev (l : tree) (p : path) : option K :=
  match l with Leaf => up_prev p | _ => rb_last l end.

(** The position of the node with a given identity: what the C code holds as a
    pointer. *)
Fixpoint locate (sel : K -> bool) (t : tree) (p : path) : option (tree * path) :=
  match t with
  | Leaf => None
  | Node c l k g r =>
    if sel k then Some (t, p)
    else match locate sel l (InLeft c k g r :: p) with
         | Some z => Some z
         | None => locate sel r (InRight c l k g :: p)
         end
  end.

(** The descent of a search loop: at each node [go] says whether to follow
    [rb_left]; the result is the link where the walk falls off the tree. *)
Fixpoint descend (go_left : K -> bool) (t : tree) (p : path) : path :=
  match t with
  | Leaf => p
  | Node c l k g r =>
    if go_left k then descend go_left l (InLeft c k g r :: p)
    else descend go_left r (InRight c l k g :: p)
  end.

(** [rb_replace_node(victim, new, root)] *)
Fixpoint rb_replace (sel : K -> bool) (k' : K) (t : tree) : tree :=
  match t with
  | Leaf => Leaf
  | Node c l k g r =>
    Node c (rb_replace sel k' l) (if sel k then k' else k) g (rb_replace sel k' r)
  end.

(** ** In-order sequence *)

Fixpoint before (p : path) : list K :=
  match p with
  | [] => []
  | InLeft _ _ _ _ :: p' => before p'
  | InRight _ l k _ :: p' => before p' ++ inorder l ++ [k]
  end.

Fixpoint after (p : path) : list K :=
  match p with
  | [] => []
  | InLeft _ k _ r :: p' => k :: inorder r ++ after p'
  | InRight _ _ _ _ :: p' => after p'
  end.

Lemma inorder_zip t p : inorder (zipup t p) = before p ++ inorder t ++ after p.
Proof.
  revert t; induction p as [|[c k g r|c l k g] p IH]; intros t; app_norm.
  - done.
  - rewrite IH. by app_norm.
  - rewrite IH. by app_norm.
Qed.

Lemma inorder_set_black t : inorder (set_black t) = inorder t.
Proof. by destruct t. Qed.

Lemma inorder_set_color c t : inorder (set_color c t) = inorder t.
Proof. by destruct t. Qed.

Lemma aug_set_black t : aug (set_black t) = aug t.
Proof. by destruct t. Qed.

Lemma aug_set_color c t : aug (set_color c t) = aug t.
Proof. by destruct t. Qed.

Ltac inorder_norm :=
  rewrite ?inorder_zip; cbn [inorder plug set_black before after];
  rewrite ?inorder_set_black, ?inorder_set_color; app_norm;
  rewrite ?inorder_set_black, ?inorder_set_color; app_norm.

Lemma rb_insert_loop_inorder p : forall l k g r t,
  __rb_insert l k g r p = Some t ->
  inorder t = before p ++ inorder l ++ k :: inorder r ++ after p.
Proof.
  induction p as [|f|f f' p IH] using list_pair_ind; intros l k g r t H; cbn in H.
  - simplify_eq. by inorder_norm.
  - destruct (frame_color f); simplify_eq. destruct f; by inorder_norm.
  - destruct (frame_color f) eqn:Ef.
    + destruct f' as [gc gk gg u|gc u gk gg]; destruct (is_red u) eqn:Eu.
      * apply IH in H. rewrite H. destruct f; by inorder_norm.
      * destruct f; simplify_eq; by inorder_norm.
      * apply IH in H. rewrite H. destruct f; by inorder_norm.
      * destruct f; simplify_eq; by inorder_norm.
    + simplify_eq. change (zipup (plug (plug (Node RB_RED l k g r) f) f') p)
        with (zipup (Node RB_RED l k g r) (f :: f' :: p)). rewrite inorder_zip. by app_norm.
Qed.

Lemma rb_insert_at_inorder k g p t :
  rb_insert_at k g p = Some t -> inorder t = before p ++ k :: after p.
Proof. intros H%rb_insert_loop_inorder. done. Qed.

Lemma erase_cases_left_inorder pc N pk pg S b t :
  erase_cases_left pc N pk pg S = Some (b, t) ->
  inorder t = inorder N ++ pk :: inorder S.
Proof.
  destruct S as [|sc sl sk sg sr]; simpl; [done|].
  destruct (is_red sr); intros; simplify_eq; [by inorder_norm|].
  destruct sl as [|[] sll slk slg slr]; simplify_eq; by inorder_norm.
Qed.

Lemma erase_cases_right_inorder pc S pk pg N b t :
  erase_cases_right pc S pk pg N = Some (b, t) ->
  inorder t = inorder S ++ pk :: inorder N.
Proof.
  destruct S as [|sc sl sk sg sr]; simpl; [done|].
  destruct (is_red sl); intros; simplify_eq; [by inorder_norm|].
  destruct sr as [|[] srl srk srg srr]; simplify_eq; by inorder_norm.
Qed.

Lemma rb_erase_color_inorder p : forall N t,
  __rb_erase_color N p = Some t -> inorder t = before p ++ inorder N ++ after p.
Proof.
  induction p as [|[pc pk pg S|pc S pk pg] p IH]; intros N t H; cbn in H.
  - simplify_eq. by inorder_norm.
  - destruct S as [|[] sl sk sg sr]; [done| |].
    + destruct sl as [|slc sll slk slg slr]; [done|].
      destruct (erase_cases_left _ _ _ _ _) as [[b t']|] eqn:E; simplify_eq.
      apply erase_cases_left_inorder in E. inorder_norm. rewrite E. by inorder_norm.
    + destruct (erase_cases_left _ _ _ _ _) as [[[] t']|] eqn:E; simplify_eq;
        apply erase_cases_left_inorder in E; [|apply IH in H; rewrite H];
        inorder_norm; rewrite E; by inorder_norm.
  - destruct S as [|[] sl sk sg sr]; [done| |].
    + destruct sr as [|src srl srk srg srr]; [done|].
      destruct (erase_cases_right _ _ _ _ _) as [[b t']|] eqn:E; simplify_eq.
      apply erase_cases_right_inorder in E. inorder_norm. rewrite E. by inorder_norm.
    + destruct (erase_cases_right _ _ _ _ _) as [[[] t']|] eqn:E; simplify_eq;
        apply erase_cases_right_inorder in E; [|apply IH in H; rewrite H];
        inorder_norm; rewrite E; by inorder_norm.
Qed.

Lemma before_propagate o p : before (propagate o p) = before p.
Proof.
  revert o; induction p as [|[c k g r|c l k g] p IH]; intros o; simpl; [done| |];
    case_decide; simpl; rewrite ?IH; done.
Qed.

Lemma after_propagate o p : after (propagate o p) = after p.
Proof.
  revert o; induction p as [|[c k g r|c l k g] p IH]; intros o; simpl; [done| |];
    case_decide; simpl; rewrite ?IH; done.
Qed.

(** Frames that differ only in the key and the augmented value. *)
Inductive frame_sim : frame -> frame -> Prop :=
| fs_left c k k' g g' r : frame_sim (InLeft c k g r) (InLeft c k' g' r)
| fs_right c l k k' g g' : frame_sim (InRight c l k g) (InRight c l k' g').

#[local] Instance frame_sim_refl : Reflexive frame_sim.
Proof. intros []; constructor. Qed.

#[local] Instance frame_sim_trans : Transitive frame_sim.
Proof. intros a b c [] H; inversion H; subst; constructor. Qed.

Lemma propagate_sim o p : Forall2 frame_sim p (propagate o p).
Proof.
  revert o; induction p as [|[] p IH]; intros o; cbn; [done| |]; case_decide; try done;
    constructor; auto using frame_sim.
Qed.

#[local] Arguments propagate : simpl never.

Lemma before_app q p : before (q ++ p) = before p ++ before q.
Proof. induction q as [|[] q IH]; simpl; rewrite ?app_nil_r, ?IH; by app_norm. Qed.

Lemma after_app q p : after (q ++ p) = after q ++ after p.
Proof. induction q as [|[] q IH]; simpl; rewrite ?IH; by app_norm. Qed.

Lemma leftmost_below_inorder l : forall c k g r p c' k' r' q,
  leftmost_below c l k g r p = (c', k', r', q) ->
  before q = before p /\
  k' :: inorder r' ++ after q = inorder l ++ k :: inorder r ++ after p.
Proof.
  induction l as [|cl ll IHl kl gl rl _]; intros * H; simpl in H; simplify_eq; [done|].
  apply IHl in H as [-> ->]. split; [done|]. by app_norm.
Qed.

Lemma rb_erase_augmented_inorder c l k g r p :
  let e := __rb_erase_augmented c l k g r p in
  before (er_path e) ++ inorder (er_focus e) ++ after (er_path e)
  = before p ++ inorder l ++ inorder r ++ after p.
Proof.
  destruct l as [|lc ll lk lg lr], r as [|rc rl rk rg rr]; simpl.
  1-3: by rewrite before_propagate, after_propagate; app_norm.
  destruct rl as [|rlc rll rlk rlg rlr]; simpl.
  - rewrite before_propagate, after_propagate, inorder_set_black. by app_norm.
  - destruct (leftmost_below _ _ _ _ _ _) as [[[sc sk] child2] q] eqn:E.
    apply leftmost_below_inorder in E as [Hb Ha]. simpl in Hb, Ha.
    cbn [er_path er_focus].
    set (R := propagate _ (InRight c _ sk g :: p)).
    assert (before R = before p ++ inorder ll ++ lk :: inorder lr ++ [sk]) as HR.
    { unfold R. rewrite before_propagate. simpl. by app_norm. }
    assert (after R = after p) as HR' by (unfold R; by rewrite after_propagate).
    rewrite before_app, after_app, HR, HR', before_propagate, after_propagate, Hb, inorder_set_black.
    rewrite app_nil_r in Ha. apply (f_equal (fun s => s ++ after p)) in Ha.
    revert Ha. app_norm. intros ->. done.
Qed.

Lemma rb_erase_inorder c l k g r p t :
  rb_erase c l k g r p = Some t ->
  inorder t = before p ++ inorder l ++ inorder r ++ after p.
Proof.
  unfold rb_erase. rewrite <- (rb_erase_augmented_inorder c l k g r p). simpl.
  destruct (er_rebalance _); intros H.
  - by apply rb_erase_color_inorder in H.
  - simplify_eq. by rewrite inorder_zip.
Qed.

(** ** Red-black invariants

    [rb c n t]: [t] has root colour [c] (leaves are black), no red node has a
    red child, and every path to a leaf has [n] black nodes. *)
Inductive rb : color -> nat -> tree -> Prop :=
| rb_leaf : rb RB_BLACK 0 Leaf
| rb_red n l k g r :
    rb RB_BLACK n l -> rb RB_BLACK n r -> rb RB_RED n (Node RB_RED l k g r)
| rb_black n cl cr l k g r :
    rb cl n l -> rb cr n r -> rb RB_BLACK (S n) (Node RB_BLACK l k g r).

(** [rb_path c n p]: a tree with [rb c n] can be plugged at [p]; the root is
    black. *)
Inductive rb_path : color -> nat -> path -> Prop :=
| rp_top n : rb_path RB_BLACK n []
| rp_left_red n k g r p :
    rb RB_BLACK n r -> rb_path RB_RED n p -> rb_path RB_BLACK n (InLeft RB_RED k g r :: p)
| rp_right_red n l k g p :
    rb RB_BLACK n l -> rb_path RB_RED n p -> rb_path RB_BLACK n (InRight RB_RED l k g :: p)
| rp_left_black n c c' k g r p :
    rb c' n r -> rb_path RB_BLACK (S n) p -> rb_path c n (InLeft RB_BLACK k g r :: p)
| rp_right_black n c c' l k g p :
    rb c' n l -> rb_path RB_BLACK (S n) p -> rb_path c n (InRight RB_BLACK l k g :: p).

(** A whole tree: black root. *)
Definition rb_tree (t : tree) : Prop := exists n, rb RB_BLACK n t.

Create HintDb rb discriminated.
#[local] Hint Constructors rb rb_path : rb.

Ltac inv_rb :=
  repeat match goal with
  | H : rb _ _ (Node _ _ _ _ _) |- _ => inversion H; clear H; subst
  | H : rb _ _ Leaf |- _ => inversion H; clear H; subst
  | H : rb RB_RED _ _ |- _ => inversion H; clear H; subst
  | H : rb_path _ _ (_ :: _) |- _ => inversion H; clear H; subst
  | H : rb_path RB_RED _ [] |- _ => inversion H
  end.

Lemma rb_zip p : forall c n t, rb c n t -> rb_path c n p -> rb_tree (zipup t p).
Proof.
  induction p as [|f p IH]; intros c n t Ht Hp.
  - inversion Hp; subst. by exists n.
  - inversion Hp; subst; simpl; eapply IH; eauto with rb.
Qed.

Lemma rb_zip_inv p : forall t n, rb RB_BLACK n (zipup t p) -> exists c m, rb c m t /\ rb_path c m p.
Proof.
  induction p as [|f p IH]; intros t n H; simpl in H.
  - eauto with rb.
  - apply IH in H as (c & m & Ht & Hp).
    destruct f as [fc k g r|fc l k g]; simpl in Ht; inversion Ht; subst; eauto with rb.
Qed.

Lemma rb_set_black c n t : rb c n t -> exists m, rb RB_BLACK m (set_black t).
Proof. inversion 1; subst; simpl; eauto with rb. Qed.

Lemma rb_set_black_red n t : rb RB_RED n t -> rb RB_BLACK (S n) (set_black t).
Proof. inversion 1; subst; simpl; eauto with rb. Qed.

Lemma rb_set_black_black n t : rb RB_BLACK n t -> set_black t = t.
Proof. by inversion 1. Qed.

Lemma rb_is_red c n t : rb c n t -> is_red t = match c with RB_RED => true | _ => false end.
Proof. by inversion 1. Qed.

Lemma rb_not_red c n t : rb c n t -> is_red t = false -> rb RB_BLACK n t.
Proof. intros H Hr. pose proof (rb_is_red _ _ _ H) as E. rewrite Hr in E. by destruct c. Qed.

Lemma rb_red_intro c n t : rb c n t -> is_red t = true -> rb RB_RED n t.
Proof. intros H Hr. pose proof (rb_is_red _ _ _ H) as E. rewrite Hr in E. by destruct c. Qed.

Lemma rb_insert_loop_rb p : forall l k g r n,
  rb RB_BLACK n l -> rb RB_BLACK n r -> rb_path RB_BLACK n p ->
  exists t, __rb_insert l k g r p = Some t /\ rb_tree t.
Proof.
  induction p as [|f|f f' p IH] using list_pair_ind; intros l k g r n Hl Hr Hp; simpl.
  - eexists; split; [done|]. eexists. eauto with rb.
  - destruct (frame_color f) eqn:Ef; [exfalso; destruct f; simpl in Ef; subst; by inv_rb|].
    eexists; split; [done|].
    destruct f; simpl in Ef; subst; inv_rb; eexists; eauto with rb.
  - destruct (frame_color f) eqn:Ef.
    + assert (rb_path RB_RED n (f' :: p)) as Hp'.
      { destruct f; simpl in Ef; subst; by inversion Hp. }
      assert (rb RB_BLACK (S n) (set_black (plug (Node RB_RED l k g r) f))) as HP.
      { destruct f; simpl in Ef; subst; inv_rb; simpl; eauto with rb. }
      destruct f' as [gc gk gg u|gc u gk gg]; inversion Hp'; subst;
        destruct (is_red u) eqn:Eu.
      * eapply IH; eauto. eapply rb_set_black_red, rb_red_intro; eauto.
      * destruct f; simpl in Ef; subst; inv_rb; eexists; (split; [done|]);
          erewrite ?rb_set_black_black by eauto;
          eapply rb_zip; eauto using rb_not_red with rb.
      * eapply IH; eauto. eapply rb_set_black_red, rb_red_intro; eauto.
      * destruct f; simpl in Ef; subst; inv_rb; eexists; (split; [done|]);
          erewrite ?rb_set_black_black by eauto;
          eapply rb_zip; eauto using rb_not_red with rb.
    + eexists; split; [done|].
      change (rb_tree (zipup (Node RB_RED l k g r) (f :: f' :: p))).
      apply (rb_zip _ RB_RED n); eauto with rb.
      destruct f; simpl in Ef; subst; inversion Hp; subst; eauto with rb.
Qed.

(** The height the parent's subtree had before a black node was removed below it. *)
Definition full_height (pc : color) (n : nat) : nat :=
  match pc with RB_RED => S n | RB_BLACK => S (S n) end.

(** What Cases 2-4 restore: the subtree's height, or one less at a black parent. *)
Definition erase_restores (pc : color) (n : nat) (o : option (bool * tree)) : Prop :=
  match o with
  | None => False
  | Some (true, t) => exists c, rb c (full_height pc n) t /\ (c = RB_RED -> pc = RB_RED)
  | Some (false, t) => pc = RB_BLACK /\ rb RB_BLACK (S n) t
  end.

Lemma rb_path_weaken c n p : rb_path c n p -> rb_path RB_BLACK n p.
Proof. destruct c; [|done]. inversion 1; subst; eauto with rb. Qed.

Lemma rb_path_color c pc n p :
  rb_path pc n p -> (c = RB_RED -> pc = RB_RED) -> rb_path c n p.
Proof. destruct c, pc; intros H Hc; try done; [by specialize (Hc eq_refl)|]. by eapply rb_path_weaken. Qed.

Lemma erase_cases_left_rb pc n N pk pg S :
  rb RB_BLACK n N -> rb RB_BLACK (Datatypes.S n) S ->
  erase_restores pc n (erase_cases_left pc N pk pg S).
Proof.
  intros HN HS. inversion HS as [| |? cl cr sl sk sg sr Hl Hr]; subst. simpl.
  destruct (is_red sr) eqn:Er.
  - pose proof (rb_set_black_red _ _ (rb_red_intro _ _ _ Hr Er)).
    simpl. exists pc. destruct pc; split; eauto with rb.
  - apply rb_not_red in Hr; [|done].
    destruct sl as [|[] sll slk slg slr]; inv_rb; simpl.
    + destruct pc; simpl; eauto 10 with rb.
    + erewrite rb_set_black_black by eauto. exists pc. destruct pc; split; eauto with rb.
    + destruct pc; simpl; eauto 10 with rb.
Qed.

Lemma erase_cases_right_rb pc n N pk pg S :
  rb RB_BLACK n N -> rb RB_BLACK (Datatypes.S n) S ->
  erase_restores pc n (erase_cases_right pc S pk pg N).
Proof.
  intros HN HS. inversion HS as [| |? cl cr sl sk sg sr Hl Hr]; subst. simpl.
  destruct (is_red sl) eqn:El.
  - pose proof (rb_set_black_red _ _ (rb_red_intro _ _ _ Hl El)).
    simpl. exists pc. destruct pc; split; eauto with rb.
  - apply rb_not_red in Hl; [|done].
    destruct sr as [|[] srl srk srg srr]; inv_rb; simpl.
    + destruct pc; simpl; eauto 10 with rb.
    + erewrite rb_set_black_black by eauto. exists pc. destruct pc; split; eauto with rb.
    + destruct pc; simpl; eauto 10 with rb.
Qed.

(** A sibling frame of a deficient node: the parent's path and the sibling. *)
Lemma rb_path_left_inv n pc pk pg S p :
  rb_path RB_BLACK (Datatypes.S n) (InLeft pc pk pg S :: p) ->
  rb_path pc (full_height pc n) p /\
  exists c, rb c (Datatypes.S n) S /\ (pc = RB_RED -> c = RB_BLACK).
Proof. inversion 1; subst; simpl; split; eauto. eexists; split; eauto. done. Qed.

Lemma rb_path_right_inv n pc pk pg S p :
  rb_path RB_BLACK (Datatypes.S n) (InRight pc S pk pg :: p) ->
  rb_path pc (full_height pc n) p /\
  exists c, rb c (Datatypes.S n) S /\ (pc = RB_RED -> c = RB_BLACK).
Proof. inversion 1; subst; simpl; split; eauto. eexists; split; eauto. done. Qed.

Lemma rb_erase_color_rb p : forall N n,
  rb RB_BLACK n N -> rb_path RB_BLACK (S n) p ->
  exists t, __rb_erase_color N p = Some t /\ rb_tree t.
Proof.
  induction p as [|[pc pk pg Sb|pc Sb pk pg] p IH]; intros N n HN Hp; cbn [__rb_erase_color].
  - eexists; split; [done|]. by exists n.
  - apply rb_path_left_inv in Hp as [Hp (c & HS & Hc)].
    inversion HS as [|? sl sk sg sr Hsl Hsr|? ? ? sl sk sg sr Hsl Hsr]; subst.
    + destruct pc; [by specialize (Hc eq_refl)|].
      destruct sl as [|slc sll slk slg slr]; [by inv_rb|].
      erewrite rb_set_black_black by done.
      pose proof (erase_cases_left_rb RB_RED n N pk
        (compute pk (aug N) (aug (Node slc sll slk slg slr))) _ HN Hsl) as H.
      destruct (erase_cases_left _ _ _ _ _) as [[[] t]|]; simpl in H;
        [destruct H as (c & Ht & _)|by destruct H|done].
      eexists; split; [done|]. eapply rb_zip; [|exact Hp]. simpl. eauto with rb.
    + pose proof (erase_cases_left_rb pc n N pk pg _ HN HS) as H.
      destruct (erase_cases_left _ _ _ _ _) as [[[] t]|]; [| |done].
      * destruct H as (c & Ht & Hc'). eexists; split; [done|].
        eapply rb_zip; eauto using rb_path_color.
      * destruct H as [-> Ht]. by eapply IH.
  - apply rb_path_right_inv in Hp as [Hp (c & HS & Hc)].
    inversion HS as [|? sl sk sg sr Hsl Hsr|? ? ? sl sk sg sr Hsl Hsr]; subst.
    + destruct pc; [by specialize (Hc eq_refl)|].
      destruct sr as [|src srl srk srg srr]; [by inv_rb|].
      erewrite rb_set_black_black by done.
      pose proof (erase_cases_right_rb RB_RED n N pk
        (compute pk (aug (Node src srl srk srg srr)) (aug N)) _ HN Hsr) as H.
      destruct (erase_cases_right _ _ _ _ _) as [[[] t]|]; simpl in H;
        [destruct H as (c & Ht & _)|by destruct H|done].
      eexists; split; [done|]. eapply rb_zip; [|exact Hp]. simpl. eauto with rb.
    + pose proof (erase_cases_right_rb pc n N pk pg _ HN HS) as H.
      destruct (erase_cases_right _ _ _ _ _) as [[[] t]|]; [| |done].
      * destruct H as (c & Ht & Hc'). eexists; split; [done|].
        eapply rb_zip; eauto using rb_path_color.
      * destruct H as [-> Ht]. by eapply IH.
Qed.

Lemma rb_path_sim p p' : Forall2 frame_sim p p' -> forall c n, rb_path c n p -> rb_path c n p'.
Proof.
  induction 1 as [|f f' p p' Hf Hp IH]; intros c n H; [done|].
  inversion Hf; subst; inversion H; subst; eauto with rb.
Qed.

(** Going down to a child of a valid position. *)
Lemma rb_down_left c n l k g r p :
  rb c n (Node c l k g r) -> rb_path c n p ->
  exists cl m, rb cl m l /\ rb_path cl m (InLeft c k g r :: p).
Proof. inversion 1; subst; intros; do 2 eexists; split; eauto with rb. Qed.

Lemma rb_down_right c n l k g r p :
  rb c n (Node c l k g r) -> rb_path c n p ->
  exists cr m, rb cr m r /\ rb_path cr m (InRight c l k g :: p).
Proof. inversion 1; subst; intros; do 2 eexists; split; eauto with rb. Qed.

Lemma rb_node_color c n c' l k g r : rb c n (Node c' l k g r) -> c = c'.
Proof. by inversion 1. Qed.

Lemma leftmost_below_rb P l : forall c n k g r q0 c' k' r' q,
  leftmost_below c l k g r q0 = (c', k', r', q) ->
  rb c n (Node c l k g r) -> rb_path c n (q0 ++ P) ->
  exists n' g', rb c' n' (Node c' Leaf k' g' r') /\ rb_path c' n' (q ++ P).
Proof.
  induction l as [|cl ll IHl kl gl rl _]; intros * E H Hp; simpl in E; [simplify_eq; eauto|].
  destruct (rb_down_left _ _ _ _ _ _ _ H Hp) as (cl' & m & Hl & Hpl).
  pose proof (rb_node_color _ _ _ _ _ _ _ Hl) as ->.
  by eapply IHl; [exact E|exact Hl|].
Qed.

(** The position [__rb_erase_augmented] leaves: valid, or one black node short. *)
Definition erased_ok (e : erased) : Prop :=
  if er_rebalance e
  then exists n, rb RB_BLACK n (er_focus e) /\ rb_path RB_BLACK (S n) (er_path e)
  else exists c n, rb c n (er_focus e) /\ rb_path c n (er_path e).

(** Removing the node [(c, Leaf, child)] from a valid position. *)
Lemma erase_spine_ok c n k g child p p' :
  rb c n (Node c Leaf k g child) -> rb_path c n p -> Forall2 frame_sim p p' ->
  erased_ok {| er_focus := set_black child; er_path := p';
               er_rebalance := match child with Leaf => is_black c | _ => false end |}.
Proof.
  intros H Hp Hs. apply (rb_path_sim _ _ Hs) in Hp. unfold erased_ok; simpl.
  inversion H as [|? ? ? ? ? Hl Hc|? ? ? ? ? ? ? Hl Hc]; subst; inversion Hl; subst.
  - inversion Hc; subst; simpl. do 2 eexists. split; [constructor|]. by eapply rb_path_weaken.
  - inversion Hc; subst; simpl; [eauto with rb|]. do 2 eexists; split; eauto with rb.
Qed.

Lemma rb_erase_augmented_ok c n l k g r p :
  rb c n (Node c l k g r) -> rb_path c n p -> erased_ok (__rb_erase_augmented c l k g r p).
Proof.
  intros H Hp.
  destruct l as [|lc ll lk lg lr].
  { destruct r as [|rc rl rk rg rr]; cbn [__rb_erase_augmented].
    - by eapply (erase_spine_ok c n k g Leaf); [| |apply propagate_sim].
    - assert (c = RB_BLACK) as -> by (destruct c; inv_rb; done).
      by apply (erase_spine_ok RB_BLACK n k g (Node rc rl rk rg rr) p); [| |apply propagate_sim]. }
  destruct r as [|rc rl rk rg rr]; cbn [__rb_erase_augmented].
  { assert (c = RB_BLACK) as -> by (destruct c; inv_rb; done).
    apply (erase_spine_ok RB_BLACK n k g (Node lc ll lk lg lr) p); [|done|apply propagate_sim].
    inversion H; subst. eapply rb_black; eauto. }
  assert (exists m, rb rc m (Node rc rl rk rg rr) /\
    rb_path rc m (InRight c (Node lc ll lk lg lr) k g :: p)) as (m & HR & HP).
  { destruct (rb_down_right _ _ _ _ _ _ _ H Hp) as (c' & m & HR & HP).
    pose proof (rb_node_color _ _ _ _ _ _ _ HR) as ->. eauto. }
  destruct rl as [|rlc rll rlk rlg rlr].
  - eapply erase_spine_ok; [exact HR|exact HP|].
    etrans; [|apply propagate_sim]. constructor; [constructor|done].
  - destruct (leftmost_below _ _ _ _ _ _) as [[[sc sk] child2] q] eqn:E.
    eapply (leftmost_below_rb (_ :: p)) in E as (n' & g' & H' & Hp'); [|exact HR|exact HP].
    eapply erase_spine_ok; [exact H'|exact Hp'|].
    apply Forall2_app; [apply propagate_sim|].
    etrans; [|apply propagate_sim]. constructor; [constructor|done].
Qed.

Lemma rb_erase_rb c n l k g r p :
  rb c n (Node c l k g r) -> rb_path c n p ->
  exists t, rb_erase c l k g r p = Some t /\ rb_tree t.
Proof.
  intros H Hp. pose proof (rb_erase_augmented_ok _ _ _ _ _ _ _ H Hp) as He.
  unfold erased_ok, rb_erase in *. destruct (er_rebalance _).
  - destruct He as (m & Hf & Hpath). by eapply rb_erase_color_rb.
  - destruct He as (c' & m & Hf & Hpath). eexists; split; [done|]. by eapply rb_zip.
Qed.

(** ** Traversal and search *)

Lemma rb_first_inorder t : rb_first t = head (inorder t).
Proof.
  induction t as [|c l IHl k g r _]; [done|]. simpl. destruct l as [|lc ll lk lg lr]; [done|].
  rewrite IHl. simpl. by destruct (inorder ll).
Qed.

Lemma rb_last_inorder t : rb_last t = last (inorder t).
Proof.
  induction t as [|c l _ k g r IHr]; [done|]. cbn [rb_last inorder].
  rewrite last_app_cons. destruct r as [|rc rl rk rg rr]; [done|].
  rewrite IHr. simpl. by destruct (inorder rl).
Qed.

Lemma up_next_after p : up_next p = head (after p).
Proof. induction p as [|[] p IH]; done. Qed.

Lemma up_prev_before p : up_prev p = last (before p).
Proof.
  induction p as [|[] p IH]; simpl; [done|done|].
  by rewrite app_assoc, last_snoc.
Qed.

Lemma rb_next_spec r p : rb_next r p = head (inorder r ++ after p).
Proof.
  unfold rb_next. destruct r as [|c l k g r]; [apply up_next_after|].
  rewrite rb_first_inorder. simpl. by destruct (inorder l).
Qed.

Lemma rb_prev_spec l p : rb_prev l p = last (before p ++ inorder l).
Proof.
  unfold rb_prev. destruct l as [|c l k g r].
  - simpl. by rewrite app_nil_r, up_prev_before.
  - rewrite rb_last_inorder. simpl. by rewrite app_assoc, !last_app_cons.
Qed.

Lemma locate_zip sel t : forall p t' p',
  locate sel t p = Some (t', p') -> zipup t' p' = zipup t p.
Proof.
  induction t as [|c l IHl k g r IHr]; intros p t' p' H; simpl in H; [done|].
  destruct (sel k); [by simplify_eq|].
  destruct (locate sel l _) as [[tl pl]|] eqn:E; simplify_eq.
  - apply IHl in E. done.
  - apply IHr in H. done.
Qed.

Lemma locate_node sel t : forall p t' p',
  locate sel t p = Some (t', p') -> exists c l k g r, t' = Node c l k g r /\ sel k = true.
Proof.
  induction t as [|c l IHl k g r IHr]; intros p t' p' H; simpl in H; [done|].
  destruct (sel k) eqn:Es; [simplify_eq; eauto 10|].
  destruct (locate sel l _) as [[tl pl]|] eqn:E; simplify_eq; eauto.
Qed.

Lemma locate_None sel t : forall p, locate sel t p = None -> Forall (fun k => sel k = false) (inorder t).
Proof.
  induction t as [|c l IHl k g r IHr]; intros p H; simpl in *; [constructor|].
  destruct (sel k) eqn:Es; [done|].
  destruct (locate sel l _) as [[tl pl]|] eqn:E; [done|].
  apply Forall_app; split; eauto.
Qed.

(** A node of the tree is located, at a position with its neighbours around it. *)
Lemma locate_elem sel t k :
  k ∈ inorder t -> sel k = true ->
  exists c l k' g r p, locate sel t [] = Some (Node c l k' g r, p) /\ sel k' = true /\
    zipup (Node c l k' g r) p = t.
Proof.
  intros Hk Hs. destruct (locate sel t []) as [[t' p]|] eqn:E.
  - destruct (locate_node _ _ _ _ _ E) as (c & l & k' & g & r & -> & ?).
    apply locate_zip in E. eauto 12.
  - apply locate_None in E. rewrite Forall_forall in E. rewrite (E k) in Hs; done.
Qed.

Lemma descend_zip go t : forall p, zipup Leaf (descend go t p) = zipup t p.
Proof.
  induction t as [|c l IHl k g r IHr]; intros p; simpl; [done|].
  destruct (go k); [by rewrite IHl|by rewrite IHr].
Qed.

Lemma descend_app go t : forall p q, descend go t (p ++ q) = descend go t p ++ q.
Proof.
  induction t as [|c l IHl k g r IHr]; intros p q; simpl; [done|].
  destruct (go k); [apply (IHl (_ :: p))|apply (IHr (_ :: p))].
Qed.

(** When the keys that send the walk left are a suffix of the in-order sequence,
    the walk ends between the two parts. *)
Lemma descend_split go t : forall p a b,
  inorder t = a ++ b -> Forall (fun k => go k = false) a -> Forall (fun k => go k = true) b ->
  before (descend go t p) = before p ++ a /\ after (descend go t p) = b ++ after p.
Proof.
  induction t as [|c l IHl k g r IHr]; intros p a b H Ha Hb; simpl in *.
  - symmetry in H. apply app_nil in H as [-> ->]. by rewrite app_nil_r.
  - apply app_eq_inv in H as [(x & Ea & ->)|(x & -> & Eb)].
    + apply Forall_app in Hb as [Hx Hb]. apply Forall_cons in Hb as [Hk Hb]. rewrite Hk.
      destruct (IHl (InLeft c k g r :: p) a x) as [-> ->]; auto. split; [done|]. by app_norm.
    + apply Forall_app in Ha as [Hl Ha]. destruct x as [|y x]; simplify_eq/=.
      * apply Forall_cons in Hb as [Hk Hb]. rewrite Hk.
        destruct (IHl (InLeft c k g r :: p) (inorder l) []) as [-> ->];
          auto using app_nil_r, eq_sym.
        by app_norm.
      * apply Forall_cons in Ha as [Hk Ha]. rewrite Hk.
        destruct (IHr (InRight c l y g :: p) x b) as [-> ->]; auto. split; [|done]. by app_norm.
Qed.

(** ** Height *)

Fixpoint height (t : tree) : nat :=
  match t with Leaf => 0 | Node _ l _ _ r => S (Nat.max (height l) (height r)) end.

Lemma rb_height c n t :
  rb c n t -> (height t <= 2 * n + match c with RB_RED => 1 | RB_BLACK => 0 end)%nat.
Proof. induction 1; simpl in *; repeat case_match; lia. Qed.

Lemma rb_size c n t : rb c n t -> (2 ^ n <= length (inorder t) + 1)%nat.
Proof. induction 1; simpl in *; rewrite ?length_app; simpl; lia. Qed.

Lemma rb_tree_height t :
  rb_tree t -> (height t <= 2 * Nat.log2 (length (inorder t) + 1))%nat.
Proof.
  intros [n H]. apply rb_height in H as Hh. apply rb_size in H.
  apply Nat.log2_le_mono in H. rewrite Nat.log2_pow2 in H by lia. lia.
Qed.

(** ** Augmentation

    Every node's augmented value is the callback's value on its children. *)
Fixpoint aug_ok (t : tree) : Prop :=
  match t with
  | Leaf => True
  | Node _ l k g r => g = compute k (aug l) (aug r) /\ aug_ok l /\ aug_ok r
  end.

(** The frames are right when the focus has augmented value [o]. *)
Fixpoint aug_path (o : option G) (p : path) : Prop :=
  match p with
  | [] => True
  | InLeft _ k g r :: p' => g = compute k o (aug r) /\ aug_ok r /\ aug_path (Some g) p'
  | InRight _ l k g :: p' => g = compute k (aug l) o /\ aug_ok l /\ aug_path (Some g) p'
  end.

Lemma aug_ok_zip p : forall t, aug_ok t -> aug_path (aug t) p -> aug_ok (zipup t p).
Proof.
  induction p as [|[c k g r|c l k g] p IH]; intros t Ht Hp; simpl in *; [done| |];
    destruct_and!; apply IH; simpl; auto.
Qed.

Lemma aug_ok_zip_inv p : forall t, aug_ok (zipup t p) -> aug_ok t /\ aug_path (aug t) p.
Proof.
  induction p as [|[c k g r|c l k g] p IH]; intros t H; simpl in *; [done| |];
    apply IH in H as [Ht Hp]; simpl in Ht; destruct_and!; auto.
Qed.

Lemma aug_ok_set_black t : aug_ok (set_black t) <-> aug_ok t.
Proof. by destruct t. Qed.

Lemma aug_ok_set_color c t : aug_ok (set_color c t) <-> aug_ok t.
Proof. by destruct t. Qed.

(** A rotation leaves the subtree's value: the condition on the callback under
    which "[new->augmented = old->augmented]" is right. *)
Hypothesis compute_rotate : forall ko kn a b c,
  compute kn (Some (compute ko a b)) c = compute ko a (Some (compute kn b c)).

Ltac aug_solve :=
  simpl in *; rewrite ?aug_set_black, ?aug_set_color in *; destruct_and?;
  rewrite ?aug_ok_set_black, ?aug_ok_set_color;
  subst; rewrite ?compute_rotate in *; eauto 12.

Lemma rb_insert_loop_aug p : forall l k g r t,
  __rb_insert l k g r p = Some t ->
  aug_ok (Node RB_RED l k g r) -> aug_path (Some g) p -> aug_ok t.
Proof.
  induction p as [|f|f f' p IH] using list_pair_ind; intros l k g r t H Hn Hp; cbn in H.
  - simplify_eq. done.
  - destruct (frame_color f); simplify_eq. destruct f; aug_solve.
  - destruct (frame_color f) eqn:Ef; [|simplify_eq; by apply (aug_ok_zip (f :: f' :: p))].
    destruct f' as [gc gk gg u|gc u gk gg]; destruct (is_red u) eqn:Eu.
    + eapply IH; [done|..]; destruct f; aug_solve.
    + destruct f; simplify_eq; apply aug_ok_zip; aug_solve.
    + eapply IH; [done|..]; destruct f; aug_solve.
    + destruct f; simplify_eq; apply aug_ok_zip; aug_solve.
Qed.

Lemma erase_cases_left_aug pc N pk pg S b t :
  erase_cases_left pc N pk pg S = Some (b, t) ->
  aug_ok N -> aug_ok S -> pg = compute pk (aug N) (aug S) -> aug_ok t /\ aug t = Some pg.
Proof.
  destruct S as [|sc sl sk sg sr]; simpl; [done|].
  destruct (is_red sr); intros; simplify_eq; [by aug_solve|].
  destruct sl as [|[] sll slk slg slr]; simplify_eq; aug_solve.
Qed.

Lemma erase_cases_right_aug pc N pk pg S b t :
  erase_cases_right pc S pk pg N = Some (b, t) ->
  aug_ok N -> aug_ok S -> pg = compute pk (aug S) (aug N) -> aug_ok t /\ aug t = Some pg.
Proof.
  destruct S as [|sc sl sk sg sr]; simpl; [done|].
  destruct (is_red sl); intros; simplify_eq; [by aug_solve|].
  destruct sr as [|[] srl srk srg srr]; simplify_eq; aug_solve.
Qed.

Lemma rb_erase_color_aug p : forall N t,
  __rb_erase_color N p = Some t -> aug_ok N -> aug_path (aug N) p -> aug_ok t.
Proof.
  induction p as [|[pc pk pg S|pc S pk pg] p IH]; intros N t H HN Hp; cbn in H.
  - by simplify_eq.
  - destruct Hp as (-> & HS & Hp). destruct S as [|[] sl sk sg sr]; [done| |].
    + destruct sl as [|slc sll slk slg slr]; [done|].
      destruct (erase_cases_left _ _ _ _ _) as [[b t']|] eqn:E; simplify_eq.
      apply erase_cases_left_aug in E as [Ht Ha]; [|by aug_solve..].
      apply aug_ok_zip; [|by aug_solve]. simpl. rewrite Ha. aug_solve.
    + destruct (erase_cases_left _ _ _ _ _) as [[[] t']|] eqn:E; [| |done];
        apply erase_cases_left_aug in E as [Ht Ha]; try done; simplify_eq;
        [apply aug_ok_zip|eapply IH]; eauto; by rewrite Ha.
  - destruct Hp as (-> & HS & Hp). destruct S as [|[] sl sk sg sr]; [done| |].
    + destruct sr as [|src srl srk srg srr]; [done|].
      destruct (erase_cases_right _ _ _ _ _) as [[b t']|] eqn:E; simplify_eq.
      apply erase_cases_right_aug in E as [Ht Ha]; [|by aug_solve..].
      apply aug_ok_zip; [|by aug_solve]. simpl. rewrite Ha. aug_solve.
    + destruct (erase_cases_right _ _ _ _ _) as [[[] t']|] eqn:E; [| |done];
        apply erase_cases_right_aug in E as [Ht Ha]; try done; simplify_eq;
        [apply aug_ok_zip|eapply IH]; eauto; by rewrite Ha.
Qed.

Lemma propagate_aug p : forall o o', aug_path o p -> aug_path o' (propagate o' p).
Proof.
  induction p as [|[c k g r|c l k g] p IH]; intros o o' H; [done| |];
    unfold propagate; fold propagate; destruct H as (Hg & Hr & Hp);
    case_decide as E; simpl; (split; [|split]); auto;
    by eapply IH.
Qed.

Lemma propagate_copied_aug c l k g p o :
  aug_ok l -> aug_path (Some g) p -> aug_path o (propagate o (InRight c l k g :: p)).
Proof.
  intros Hl Hp. unfold propagate; fold propagate. case_decide; simpl; eauto using propagate_aug.
Qed.

Lemma aug_path_app q : forall t p,
  aug_path (aug t) q -> aug_path (aug (zipup t q)) p -> aug_path (aug t) (q ++ p).
Proof.
  induction q as [|[c k g r|c l k g] q IH]; intros t p H Hp; simpl in *; [done| |];
    destruct_and!; split_and!; auto.
  - apply (IH (Node c t k g r)); auto.
  - apply (IH (Node c l k g t)); auto.
Qed.

Lemma leftmost_below_zip l : forall c k g r q0 c' k' r' q,
  leftmost_below c l k g r q0 = (c', k', r', q) ->
  exists g', zipup (Node c' Leaf k' g' r') q = zipup (Node c l k g r) q0.
Proof.
  induction l as [|cl ll IHl kl gl rl _]; intros * E; simpl in E; simplify_eq; eauto.
  apply IHl in E as [g' E]. eauto.
Qed.

Lemma rb_erase_augmented_aug c l k g r p :
  aug_ok (Node c l k g r) -> aug_path (Some g) p ->
  let e := __rb_erase_augmented c l k g r p in
  aug_ok (er_focus e) /\ aug_path (aug (er_focus e)) (er_path e).
Proof.
  intros (-> & Hl & Hr) Hp.
  destruct l as [|lc ll lk lg lr], r as [|rc rl rk rg rr]; cbn [__rb_erase_augmented].
  1-3: split; [by aug_solve|]; eapply propagate_aug; eauto.
  destruct rl as [|rlc rll rlk rlg rlr].
  - cbn [er_focus er_path]. rewrite aug_ok_set_black, aug_set_black.
    split; [by aug_solve|]. by apply propagate_copied_aug.
  - destruct (leftmost_below _ _ _ _ _ _) as [[[sc sk] child2] q] eqn:E.
    apply leftmost_below_zip in E as [sg E]. simpl in E. rewrite <- E in Hr.
    apply aug_ok_zip_inv in Hr as [(Hsg & _ & Hc2) Hq].
    cbn [er_focus er_path]. rewrite aug_ok_set_black, aug_set_black.
    split; [done|]. apply aug_path_app; [by eapply propagate_aug|].
    by apply propagate_copied_aug.
Qed.

Lemma rb_erase_aug c l k g r p t :
  rb_erase c l k g r p = Some t ->
  aug_ok (Node c l k g r) -> aug_path (Some g) p -> aug_ok t.
Proof.
  intros H Ht Hp. pose proof (rb_erase_augmented_aug _ _ _ _ _ _ Ht Hp) as [He He'].
  unfold rb_erase in H. destruct (er_rebalance _).
  - by eapply rb_erase_color_aug.
  - simplify_eq. by apply aug_ok_zip.
Qed.

End RbTree.

(** ** Plain trees keyed by an integer

    The users of [rb_insert_color] and [rb_erase]: identities [K] ordered by a
    field [key] of the embedding structure. *)
Section Keyed.
Context {K : Type} `{EqDecision K}.

Definition plain_tree := tree K unit.

(** [dummy_callbacks] *)
Definition dummy_compute (k : K) (l r : option unit) : unit := tt.

Definition same (k k' : K) : bool := bool_decide (k' = k).

(** The macro [RB_INSERT] of [drm_mm.c]: walk down comparing with [expr], link
    the node, rebalance. *)
Definition RB_INSERT (expr : K -> Z) (node : K) (root : plain_tree) : option plain_tree :=
  rb_insert_at dummy_compute node tt (descend (fun k => expr node <? expr k) root []).

(** [rb_erase(node, root)] for a node of the tree. *)
Definition rb_erase_node (node : K) (root : plain_tree) : option plain_tree :=
  match locate (same node) root [] with
  | Some (Node c l k g r, p) => rb_erase dummy_compute c l k g r p
  | _ => None
  end.

Definition rb_next_node (node : K) (root : plain_tree) : option K :=
  match locate (same node) root [] with
  | Some (Node c l k g r, p) => rb_next r p
  | _ => None
  end.

Definition rb_prev_node (node : K) (root : plain_tree) : option K :=
  match locate (same node) root [] with
  | Some (Node c l k g r, p) => rb_prev l p
  | _ => None
  end.

(** The abstract sequence: [insert_by key k s] puts [k] after every element whose
    key is at most its own. *)
Fixpoint insert_by (key : K -> Z) (k : K) (s : list K) : list K :=
  match s with
  | [] => [k]
  | k' :: s' => if key k <? key k' then k :: s else k' :: insert_by key k s'
  end.

Definition key_sorted (key : K -> Z) (s : list K) : Prop :=
  StronglySorted (fun a b => key a <= key b) s.

Fixpoint remove_one (k : K) (s : list K) : list K :=
  match s with
  | [] => []
  | k' :: s' => if decide (k' = k) then s' else k' :: remove_one k s'
  end.

Lemma locate_same {G} (k : K) (t : tree K G) :
  k ∈ inorder t -> exists c l g r p, locate (same k) t [] = Some (Node c l k g r, p) /\
    zipup (Node c l k g r) p = t.
Proof.
  intros Hk. destruct (locate_elem (same k) t k) as (c & l & k' & g & r & p & E & Es & Hz);
    [done|by apply bool_decide_eq_true|].
  apply bool_decide_eq_true in Es as ->. eauto 10.
Qed.

Section Facts.
Variable key : K -> Z.

Lemma insert_by_split k s :
  key_sorted key s ->
  exists a b, s = a ++ b /\ insert_by key k s = a ++ k :: b /\
    Forall (fun k' => (key k <? key k') = false) a /\ Forall (fun k' => (key k <? key k') = true) b.
Proof.
  induction s as [|k' s IH]; intros Hs; simpl.
  - exists [], []. auto.
  - apply StronglySorted_inv in Hs as [Hs Hk'].
    destruct (key k <? key k') eqn:E.
    + exists [], (k' :: s). split_and!; auto. constructor; [done|].
      eapply Forall_impl; [exact Hk'|]. intros x Hx. simpl in Hx. lia.
    + destruct (IH Hs) as (a & b & -> & -> & Ha & Hb).
      exists (k' :: a), b. split_and!; auto.
Qed.

Lemma insert_by_perm k s : insert_by key k s ≡ₚ k :: s.
Proof.
  induction s as [|k' s IH]; simpl; [done|]. case_match; [done|].
  rewrite IH. apply Permutation_swap.
Qed.

Lemma insert_by_sorted k s : key_sorted key s -> key_sorted key (insert_by key k s).
Proof.
  induction s as [|k' s IH]; intros Hs; simpl; [repeat constructor|].
  apply StronglySorted_inv in Hs as [Hs Hk']. case_match eqn:E.
  - constructor; [by constructor|]. constructor; [lia|].
    eapply Forall_impl; [exact Hk'|]. intros x Hx. simpl in Hx. lia.
  - constructor; [by apply IH|]. rewrite insert_by_perm. constructor; [lia|done].
Qed.

Lemma remove_one_middle k a b : k ∉ a -> remove_one k (a ++ k :: b) = a ++ b.
Proof.
  induction a as [|x a IH]; simpl; intros Hk; [by rewrite decide_True|].
  apply not_elem_of_cons in Hk as [? ?]. rewrite decide_False, IH; auto.
Qed.

Lemma remove_one_sublist k s : remove_one k s `sublist_of` s.
Proof. induction s as [|x s IH]; simpl; [done|]. case_decide; by constructor. Qed.

Lemma key_sorted_sublist s s' : s' `sublist_of` s -> key_sorted key s -> key_sorted key s'.
Proof.
  unfold key_sorted. induction 1 as [|x l1 l2 Hsub IH|x l1 l2 Hsub IH]; intros Hs; [done| |].
  - apply StronglySorted_inv in Hs as [Hs Hx]. constructor; [auto|].
    rewrite Forall_forall in *. intros y Hy. apply Hx. by eapply elem_of_sublist.
  - apply StronglySorted_inv in Hs as [Hs _]. auto.
Qed.

Lemma insert_by_between k a b :
  Forall (fun x => key x <= key k) a -> Forall (fun x => key k < key x) b ->
  insert_by key k (a ++ b) = a ++ k :: b.
Proof.
  intros Ha Hb. induction Ha as [|x a Hx Ha IH]; simpl.
  - destruct Hb as [|y b Hy Hb]; simpl; [done|]. by replace (key k <? key y) with true by lia.
  - replace (key k <? key x) with false by lia. by rewrite IH.
Qed.

Lemma RB_INSERT_spec k t :
  rb_tree t -> key_sorted key (inorder t) ->
  exists t', RB_INSERT key k t = Some t' /\ rb_tree t' /\ inorder t' = insert_by key k (inorder t).
Proof.
  intros [n Ht] Hs. unfold RB_INSERT.
  set (p := descend _ t []).
  assert (zipup Leaf p = t) as Hz by (unfold p; by rewrite descend_zip).
  rewrite <- Hz in Ht. apply rb_zip_inv in Ht as (c & m & Hl & Hp).
  inversion Hl; subst c m.
  destruct (rb_insert_loop_rb dummy_compute p Leaf k tt Leaf 0) as (t' & E & Ht'); auto.
  exists t'. split_and!; auto.
  apply rb_insert_at_inorder in E. rewrite E.
  destruct (insert_by_split k _ Hs) as (a & b & Hab & -> & Ha & Hb).
  destruct (descend_split (fun k0 => key k <? key k0) t [] a b) as [Hb1 Ha1]; auto.
  fold p in Hb1, Ha1. rewrite Hb1, Ha1. simpl. by rewrite app_nil_r.
Qed.

Lemma rb_erase_node_spec k t :
  rb_tree t -> NoDup (inorder t) -> k ∈ inorder t ->
  exists t', rb_erase_node k t = Some t' /\ rb_tree t' /\ inorder t' = remove_one k (inorder t).
Proof.
  intros [n Ht] Hnd Hk. unfold rb_erase_node.
  destruct (locate_same k t Hk) as (c & l & g & r & p & -> & Hz).
  rewrite <- Hz in Ht. apply rb_zip_inv in Ht as (c' & m & Hn & Hp).
  pose proof (rb_node_color _ _ _ _ _ _ _ Hn) as ->.
  destruct (rb_erase_rb dummy_compute _ _ _ _ _ _ _ Hn Hp) as (t' & E & Ht').
  exists t'. split_and!; auto.
  apply rb_erase_inorder in E. rewrite E, <- Hz.
  rewrite <- Hz, inorder_zip in Hnd. rewrite inorder_zip. simpl in *.
  revert Hnd. rewrite <- !app_assoc. simpl. rewrite !app_assoc. intros Hnd.
  rewrite remove_one_middle; [by rewrite <- ?app_assoc|].
  apply NoDup_app in Hnd as (_ & Hd & _). intros Hin. apply (Hd _ Hin). by left.
Qed.

Lemma rb_neighbours_spec k t a b :
  inorder t = a ++ k :: b -> NoDup (inorder t) ->
  rb_next_node k t = head b /\ rb_prev_node k t = last a.
Proof.
  intros Hab Hnd. unfold rb_next_node, rb_prev_node.
  destruct (locate_same k t) as (c & l & g & r & p & -> & Hz);
    [rewrite Hab; set_solver|].
  rewrite rb_next_spec, rb_prev_spec.
  assert ((before p ++ inorder l) ++ k :: (inorder r ++ after p) = a ++ k :: b) as E.
  { rewrite <- Hab, <- Hz, inorder_zip. by app_norm. }
  rewrite Hab, <- E in Hnd.
  destruct (nodup_middle_inj _ _ _ _ _ E Hnd) as [-> ->]. done.
Qed.

End Facts.

Lemma key_sorted_ext (f g : K -> Z) s :
  (forall k, k ∈ s -> f k = g k) -> key_sorted f s -> key_sorted g s.
Proof.
  intros H Hs. induction Hs as [|x s Hs IH Hx]; constructor.
  - apply IH. intros k Hk. apply H. by right.
  - rewrite Forall_forall in *. intros y Hy. rewrite <- !H by set_solver. by apply Hx.
Qed.

End Keyed.

(** ** Sequences of operations

    A tree driven through insertions and erasures refines the sorted list driven
    through [insert_by] and [remove_one]. *)
Inductive rb_op (K : Type) :=
| OpInsert (k : K)
| OpErase (k : K).
Arguments OpInsert {K} _.
Arguments OpErase {K} _.

Section Refinement.
Context {K : Type} `{EqDecision K}.
Variable key : K -> Z.

Definition rb_step (o : rb_op K) (t : plain_tree) : option (plain_tree (K := K)) :=
  match o with OpInsert k => RB_INSERT key k t | OpErase k => rb_erase_node k t end.

Fixpoint rb_run (ops : list (rb_op K)) (t : plain_tree) : option plain_tree :=
  match ops with
  | [] => Some t
  | o :: ops' => match rb_step o t with Some t' => rb_run ops' t' | None => None end
  end.

Definition seq_step (o : rb_op K) (s : list K) : list K :=
  match o with OpInsert k => insert_by key k s | OpErase k => remove_one k s end.

(** What the callers promise: a node is linked only when it is not in the tree
    and erased only when it is. *)
Fixpoint ops_ok (ops : list (rb_op K)) (s : list K) : bool :=
  match ops with
  | [] => true
  | o :: ops' =>
    match o with
    | OpInsert k => negb (bool_decide (k ∈ s))
    | OpErase k => bool_decide (k ∈ s)
    end && ops_ok ops' (seq_step o s)
  end.

Lemma rb_step_refines o t :
  rb_tree t -> key_sorted key (inorder t) -> NoDup (inorder t) -> ops_ok [o] (inorder t) = true ->
  exists t', rb_step o t = Some t' /\ rb_tree t' /\ inorder t' = seq_step o (inorder t) /\
    key_sorted key (inorder t') /\ NoDup (inorder t').
Proof.
  intros Ht Hs Hnd Hok. destruct o as [k|k]; simpl in *; rewrite andb_true_r in Hok.
  - apply negb_true_iff, bool_decide_eq_false in Hok.
    destruct (RB_INSERT_spec key k t Ht Hs) as (t' & E & Ht' & Hi).
    exists t'. rewrite Hi. split_and!; auto using insert_by_sorted.
    rewrite insert_by_perm. by constructor.
  - apply bool_decide_eq_true in Hok.
    destruct (rb_erase_node_spec k t Ht Hnd Hok) as (t' & E & Ht' & Hi).
    exists t'. rewrite Hi. split_and!; auto.
    + eapply key_sorted_sublist; eauto using remove_one_sublist.
    + eapply sublist_NoDup; eauto using remove_one_sublist.
Qed.

Lemma rb_run_refines ops : forall t,
  rb_tree t -> key_sorted key (inorder t) -> NoDup (inorder t) -> ops_ok ops (inorder t) = true ->
  exists t', rb_run ops t = Some t' /\ rb_tree t' /\
    inorder t' = foldl (fun s o => seq_step o s) (inorder t) ops /\
    key_sorted key (inorder t') /\ NoDup (inorder t').
Proof.
  induction ops as [|o ops IH]; intros t Ht Hs Hnd Hok; simpl in *; [eauto 10|].
  apply andb_true_iff in Hok as [Ho Hok].
  destruct (rb_step_refines o t Ht Hs Hnd) as (t' & -> & Ht' & Hi & Hs' & Hnd').
  { simpl. by rewrite andb_true_r. }
  rewrite <- Hi in Hok. destruct (IH t' Ht' Hs' Hnd' Hok) as (t'' & ? & ? & Hi' & ? & ?).
  exists t''. split_and!; auto. by rewrite Hi', Hi.
Qed.

Lemma rb_tree_leaf : rb_tree (K := K) (G := unit) Leaf.
Proof. exists 0%nat. constructor. Qed.

End Refinement.

(** C3: every sequence of insertions and erasures that links each node at most
    once and erases only linked nodes runs to completion on the rebalancing code
    (no [NULL] is dereferenced), refines the sorted list, and leaves a red-black
    tree whose height is at most twice the logarithm of its size; [rb_first] and
    [rb_last] give the ends of that list, and [rb_next] and [rb_prev] of a linked
    node its neighbours there, [NULL] at the ends. *)
Theorem rbtree_refines_sorted_list (key : nat -> Z) (ops : list (rb_op nat)) :
  ops_ok key ops [] = true ->
  exists t, rb_run key ops Leaf = Some t /\
    inorder t = foldl (fun s o => seq_step key o s) [] ops /\
    key_sorted key (inorder t) /\
    rb_tree t /\ (height t <= 2 * Nat.log2 (length (inorder t) + 1))%nat /\
    rb_first t = head (inorder t) /\ rb_last t = last (inorder t) /\
    (forall a k b, inorder t = a ++ k :: b ->
       rb_next_node k t = head b /\ rb_prev_node k t = last a).
Proof.
  intros Hok. destruct (rb_run_refines key ops Leaf) as (t & E & Ht & Hi & Hs & Hnd);
    eauto using rb_tree_leaf; try constructor.
  exists t. split_and!; auto using rb_tree_height, rb_first_inorder, rb_last_inorder.
  intros a k b Hab. by apply rb_neighbours_spec.
Qed.

Definition example_ops : list (rb_op nat) :=
  [OpInsert 5; OpInsert 2; OpInsert 8; OpInsert 1; OpInsert 9; OpInsert 4; OpInsert 7;
   OpErase 5; OpInsert 3; OpErase 1; OpErase 8; OpInsert 6; OpErase 2]%nat.

Lemma rbtree_refines_sorted_list_witness :
  exists t, rb_run Z.of_nat example_ops Leaf = Some t /\ inorder t = [3; 4; 6; 7; 9]%nat /\
    rb_next_node 6%nat t = Some 7%nat /\ rb_prev_node 3%nat t = None.
Proof.
  destruct (rbtree_refines_sorted_list Z.of_nat example_ops) as (t & E & Hi & _ & _ & _ & _ & _ & Hn).
  { vm_compute. reflexivity. }
  assert (inorder t = [3; 4; 6; 7; 9]%nat) as Ht by (rewrite Hi; vm_compute; reflexivity).
  exists t. split; [exact E|]. split; [exact Ht|]. split.
  - exact (proj1 (Hn [3; 4]%nat 6%nat [7; 9]%nat Ht)).
  - exact (proj2 (Hn [] 3%nat [4; 6; 7; 9]%nat Ht)).
Defined.
