(* ===== verification/IntervalTree.v ===== *)
(** * Interval trees ([interval_tree_generic.h])

    [INTERVAL_TREE_DEFINE]: an augmented red-black tree of closed intervals
    ordered by start, each node caching the largest end below it, with the
    leftmost node cached in the root.  The parameters of the macro are the
    section variables [ITSTART] and [ITLAST].

    Theorems: insertion and removal keep the tree, augmentation and leftmost
    invariants; [iter_first] followed by [iter_next] enumerates exactly the
    intervals that intersect the query, in order. *)

From S2P Require Import Prelude RbTree.
From stdpp Require Import base list sets sorting.
From Stdlib Require Import ZArith Lia.

#[local] Set Warnings "-clear-no-such-hyp".

#[local] Open Scope Z_scope.

Record rb_root_cached (K : Type) := {
  rb_root : tree K Z;
  rb_leftmost : option K;
}.
Arguments rb_root {K} _.
Arguments rb_leftmost {K} _.

Definition RB_ROOT_CACHED {K} : rb_root_cached K := {| rb_root := Leaf; rb_leftmost := None |}.

Section IntervalTree.
Context {K : Type} `{EqDecision K}.
Variables ITSTART ITLAST : K -> Z.

#[local] Abbreviation itree := (tree K Z).
#[local] Abbreviation ipath := (list (frame K Z)).

Definition compute_subtree_last (k : K) (l r : option Z) : Z :=
  let max := ITLAST k in
  let max := match l with Some s => if max <? s then s else max | None => max end in
  match r with Some s => if max <? s then s else max | None => max end.

(** "[if (parent->ITSUBTREE < last) parent->ITSUBTREE = last]" *)
Definition bump_frame (last : Z) (f : frame K Z) : frame K Z :=
  match f with
  | InLeft c k g r => InLeft c k (if g <? last then last else g) r
  | InRight c l k g => InRight c l k (if g <? last then last else g)
  end.

(** The walk of [_insert] from the root: the visited nodes are updated on the way. *)
Definition insert_walk (start last : Z) (t : itree) (p : ipath) : ipath :=
  map (bump_frame last) (descend (fun k => start <? ITSTART k) t []) ++ p.

(** [leftmost] after the walk: no right link was followed. *)
Definition all_left (p : ipath) : bool :=
  forallb (fun f => match f with InLeft _ _ _ _ => true | InRight _ _ _ _ => false end) p.

(** [rb_insert_augmented_cached(node, root, newleft, augment)] at link [p] *)
Definition rb_insert_augmented_cached (node : K) (p : ipath) (newleft : bool)
    (root : rb_root_cached K) : option (rb_root_cached K) :=
  match rb_insert_at compute_subtree_last node (ITLAST node) p with
  | Some t => Some {| rb_root := t;
                      rb_leftmost := if newleft then Some node else rb_leftmost root |}
  | None => None
  end.

(** [ITPREFIX_insert] *)
Definition it_insert (node : K) (root : rb_root_cached K) : option (rb_root_cached K) :=
  let p := insert_walk (ITSTART node) (ITLAST node) (rb_root root) [] in
  rb_insert_augmented_cached node p (all_left p) root.

(** [ITPREFIX_remove]: [rb_erase_augmented_cached] *)
Definition it_remove (node : K) (root : rb_root_cached K) : option (rb_root_cached K) :=
  match locate (same node) (rb_root root) [] with
  | Some (Node c l k g r, p) =>
    let leftmost :=
      if decide (rb_leftmost root = Some node) then rb_next r p else rb_leftmost root in
    match rb_erase compute_subtree_last c l k g r p with
    | Some t => Some {| rb_root := t; rb_leftmost := leftmost |}
    | None => None
    end
  | _ => None
  end.

(** "[x && start <= x->ITSUBTREE]" *)
Definition reaches (start : Z) (t : itree) : bool :=
  match aug t with Some g => start <=? g | None => false end.

(** [ITPREFIX_subtree_search] *)
Fixpoint subtree_search (start last : Z) (t : itree) : option K :=
  match t with
  | Leaf => None
  | Node _ l k _ r =>
    if reaches start l then subtree_search start last l
    else if ITSTART k <=? last then
      if start <=? ITLAST k then Some k
      else if reaches start r then subtree_search start last r else None
    else None
  end.

(** [ITPREFIX_iter_first] *)
Definition iter_first (root : rb_root_cached K) (start last : Z) : option K :=
  match rb_root root with
  | Leaf => None
  | Node _ _ _ g _ =>
    if g <? start then None
    else match rb_leftmost root with
         | Some k => if last <? ITSTART k then None
                     else subtree_search start last (rb_root root)
         | None => None
         end
  end.

(** [ITPREFIX_iter_next] at a node with right child [rb] and path [p]. *)
Fixpoint iter_next_up (start last : Z) (rb : itree) (p : ipath) : option K :=
  if reaches start rb then subtree_search start last rb
  else match p with
       | [] => None
       | InRight _ _ _ _ :: p' => iter_next_up start last Leaf p'
       | InLeft _ k _ r :: p' =>
         if last <? ITSTART k then None
         else if start <=? ITLAST k then Some k
         else iter_next_up start last r p'
       end.

Definition iter_next (node : K) (start last : Z) (root : rb_root_cached K) : option K :=
  match locate (same node) (rb_root root) [] with
  | Some (Node c l k g r, p) => iter_next_up start last r p
  | _ => None
  end.

(** ** Facts *)

Definition omax (o : option Z) (x : Z) : Z :=
  match o with Some s => Z.max s x | None => x end.

Lemma compute_subtree_last_max k l r : compute_subtree_last k l r = omax l (omax r (ITLAST k)).
Proof. unfold compute_subtree_last, omax. destruct l, r; simpl; repeat case_match; lia. Qed.

Lemma compute_rotate_max ko kn a b c :
  compute_subtree_last kn (Some (compute_subtree_last ko a b)) c
  = compute_subtree_last ko a (Some (compute_subtree_last kn b c)).
Proof. rewrite !compute_subtree_last_max. destruct a, b, c; simpl; lia. Qed.

#[local] Arguments compute_subtree_last : simpl never.

Lemma bump_max g last : (if g <? last then last else g) = Z.max g last.
Proof. case_match; lia. Qed.

Lemma bump_path_aug last p : forall o,
  aug_path compute_subtree_last o p ->
  aug_path compute_subtree_last (Some (omax o last)) (map (bump_frame last) p).
Proof.
  induction p as [|[c k g r|c l k g] p IH]; intros o H; simpl in *; [done| |];
    destruct H as (-> & Hr & Hp); apply IH in Hp; rewrite bump_max;
    (split_and!; [|done|exact Hp]); rewrite !compute_subtree_last_max; simpl.
  - destruct o; simpl; lia.
  - destruct o, (aug l); simpl; lia.
Qed.

Lemma aug_None (t : itree) : aug t = None -> inorder t = [].
Proof. by destruct t. Qed.

(** The augmented value bounds every end below it. *)
Lemma aug_upper t : aug_ok compute_subtree_last t ->
  forall g, aug t = Some g -> Forall (fun k => ITLAST k <= g) (inorder t).
Proof.
  induction t as [|c l IHl k g0 r IHr]; simpl; [done|].
  intros (-> & Hl & Hr) g [= <-]. rewrite compute_subtree_last_max.
  apply Forall_app; split; [|constructor].
  - destruct (aug l) as [gl|] eqn:El; [|by rewrite aug_None].
    eapply Forall_impl; [by apply IHl|]. simpl. lia.
  - destruct (aug l), (aug r); simpl; lia.
  - destruct (aug r) as [gr|] eqn:Er; [|by rewrite aug_None].
    eapply Forall_impl; [by apply IHr|]. intros x Hx. simpl in Hx. destruct (aug l); simpl; lia.
Qed.

(** ... and is the end of some node. *)
Lemma aug_reached t : aug_ok compute_subtree_last t ->
  forall g, aug t = Some g -> exists k, k ∈ inorder t /\ ITLAST k = g.
Proof.
  induction t as [|c l IHl k g0 r IHr]; simpl; [done|].
  intros (-> & Hl & Hr) g [= <-]. rewrite compute_subtree_last_max.
  assert (omax (aug r) (ITLAST k) = ITLAST k \/
    exists k', k' ∈ inorder r /\ ITLAST k' = omax (aug r) (ITLAST k)) as Er.
  { destruct (aug r) as [gr|]; [|by left]. destruct (IHr Hr gr eq_refl) as (k' & Hk' & <-).
    simpl. destruct (Z.max_spec (ITLAST k') (ITLAST k)) as [[_ ->]|[_ ->]]; eauto. }
  setoid_rewrite elem_of_app. setoid_rewrite elem_of_cons.
  destruct (aug l) as [gl|]; simpl.
  - destruct (IHl Hl gl eq_refl) as (k' & Hk' & <-).
    destruct (Z.max_spec (ITLAST k') (omax (aug r) (ITLAST k))) as [[_ ->]|[_ ->]]; [|by eauto].
    destruct Er as [->|(k'' & ? & <-)]; eauto.
  - destruct Er as [->|(k'' & ? & <-)]; eauto.
Qed.

Lemma reaches_spec start t : aug_ok compute_subtree_last t ->
  reaches start t = true <-> exists k, k ∈ inorder t /\ start <= ITLAST k.
Proof.
  intros Ht. unfold reaches. destruct (aug t) as [g|] eqn:E.
  - pose proof (aug_upper t Ht g E) as F. rewrite Forall_forall in F.
    destruct (aug_reached t Ht g E) as (k & Hk & Eg).
    rewrite Z.leb_le. split.
    + intros. exists k. split; [done|lia].
    + intros (k' & Hk' & ?). specialize (F _ Hk'). lia.
  - destruct t; [|done]. simpl. split; [done|]. intros (k & Hk & _). by apply elem_of_nil in Hk.
Qed.

(** ** Queries *)

(** The intervals of a sequence that intersect [[start, last]]. *)
Definition hits (start last : Z) (s : list K) : list K :=
  filter (fun k => ITSTART k <= last /\ start <= ITLAST k) s.

Lemma hits_app start last a b : hits start last (a ++ b) = hits start last a ++ hits start last b.
Proof. apply filter_app. Qed.

Lemma hits_nil start last s :
  hits start last s = [] <-> forall k, k ∈ s -> last < ITSTART k \/ ITLAST k < start.
Proof.
  unfold hits. split.
  - intros H k Hk. destruct (decide (ITSTART k <= last /\ start <= ITLAST k)); [|lia].
    assert (k ∈ (@nil K)) as Hn by (rewrite <- H; by apply list_elem_of_filter).
    by apply elem_of_nil in Hn.
  - intros H. apply elem_of_nil_inv. intros k Hk.
    apply list_elem_of_filter in Hk as [? Hk]. specialize (H k Hk). lia.
Qed.

(** Beyond an interval that starts after [last] nothing intersects. *)
Lemma hits_beyond start last a b k :
  key_sorted ITSTART (a ++ b) -> k ∈ a -> last < ITSTART k -> hits start last b = [].
Proof.
  intros Hs Hk Hl. apply hits_nil. intros k' Hk'. left.
  assert (ITSTART k <= ITSTART k'); [|lia].
  revert Hs. unfold key_sorted. apply list_elem_of_split in Hk as (a1 & a2 & ->).
  rewrite <- app_assoc. simpl. intros Hs.
  apply StronglySorted_app in Hs as (_ & _ & Hs). apply StronglySorted_inv in Hs as [_ Hs].
  rewrite Forall_forall in Hs. apply Hs. set_solver.
Qed.

(** If some interval of [a] reaches [start] and none intersects, none of [b] does. *)
Lemma hits_cut start last a b k :
  key_sorted ITSTART (a ++ b) -> k ∈ a -> start <= ITLAST k ->
  hits start last a = [] -> hits start last b = [].
Proof.
  intros Hs Hk Hl Ha. rewrite hits_nil in Ha. specialize (Ha k Hk).
  eapply hits_beyond; eauto. lia.
Qed.

Lemma key_sorted_app_inv (a b : list K) :
  key_sorted ITSTART (a ++ b) -> key_sorted ITSTART a /\ key_sorted ITSTART b.
Proof. unfold key_sorted. intros H. apply StronglySorted_app in H. tauto. Qed.

Lemma not_reaches_hits start last t :
  aug_ok compute_subtree_last t -> reaches start t = false -> hits start last (inorder t) = [].
Proof.
  intros Ht Hr. apply hits_nil. intros k Hk. right. apply Z.nle_gt. intros Hl.
  assert (reaches start t = true) by (apply reaches_spec; eauto). congruence.
Qed.

Lemma hits_cons start last k s :
  hits start last (k :: s) =
  if (ITSTART k <=? last) && (start <=? ITLAST k) then k :: hits start last s else hits start last s.
Proof. unfold hits. rewrite filter_cons. repeat case_decide; repeat case_match; try done; lia. Qed.

(** A search that succeeds or fails in [a] alone, when [a] reaches [start]. *)
Lemma head_hits_reached start last a b t :
  aug_ok compute_subtree_last t -> a = inorder t -> reaches start t = true ->
  key_sorted ITSTART (a ++ b) ->
  head (hits start last (a ++ b)) = head (hits start last a).
Proof.
  intros Ht -> Hr Hs. apply (reaches_spec start t Ht) in Hr as (k & Hk & Hl).
  rewrite hits_app. destruct (hits start last (inorder t)) eqn:E; [|done].
  by rewrite (hits_cut _ _ _ _ _ Hs Hk Hl E).
Qed.

Lemma subtree_search_spec start last t :
  aug_ok compute_subtree_last t -> key_sorted ITSTART (inorder t) ->
  subtree_search start last t = head (hits start last (inorder t)).
Proof.
  induction t as [|c l IHl k g r IHr]; intros Ht Hs; [done|].
  cbn [subtree_search inorder] in *. destruct Ht as (_ & Hl & Hr).
  destruct (reaches start l) eqn:El.
  - rewrite (head_hits_reached _ _ _ _ l); auto. apply IHl; [done|].
    by apply key_sorted_app_inv in Hs as [? _].
  - rewrite hits_app, (not_reaches_hits _ _ _ Hl El), hits_cons. simpl.
    destruct (ITSTART k <=? last) eqn:E1; simpl.
    + destruct (start <=? ITLAST k) eqn:E2; [done|].
      destruct (reaches start r) eqn:Er; [|by rewrite (not_reaches_hits _ _ _ Hr Er)].
      apply IHr; [done|]. apply key_sorted_app_inv in Hs as [_ Hs].
      by apply (key_sorted_app_inv [k]) in Hs as [_ ?].
    + apply key_sorted_app_inv in Hs as [_ Hs].
      rewrite (hits_beyond _ _ [k] (inorder r) k Hs); [done|set_solver|lia].
Qed.

Lemma iter_next_up_spec start last p : forall (t rb : itree),
  aug_ok compute_subtree_last rb -> aug_path compute_subtree_last (aug t) p ->
  key_sorted ITSTART (inorder rb ++ after p) ->
  iter_next_up start last rb p = head (hits start last (inorder rb ++ after p)).
Proof.
  induction p as [|[c k g r|c l k g] p IH]; intros t rb Hrb Hp Hs; cbn [iter_next_up].
  - simpl in *. rewrite app_nil_r in *. destruct (reaches start rb) eqn:Er.
    + by apply subtree_search_spec.
    + by rewrite not_reaches_hits.
  - destruct Hp as (_ & Hr & Hp). simpl in Hs.
    apply key_sorted_app_inv in Hs as Hs'. destruct Hs' as [Hs1 Hs2].
    destruct (reaches start rb) eqn:Er.
    + simpl. rewrite (head_hits_reached _ _ _ _ rb); auto. by apply subtree_search_spec.
    + rewrite hits_app, (not_reaches_hits _ _ rb) by done. simpl.
      rewrite hits_cons. destruct (last <? ITSTART k) eqn:E1.
      * replace (ITSTART k <=? last) with false by lia. simpl.
        rewrite (hits_beyond _ _ [k] (inorder r ++ after p) k Hs2); [done|set_solver|lia].
      * replace (ITSTART k <=? last) with true by lia. simpl.
        destruct (start <=? ITLAST k); [done|].
        apply (IH (Node c t k g r)); auto. by apply (key_sorted_app_inv [k]) in Hs2 as [_ ?].
  - destruct Hp as (_ & Hl & Hp). simpl in Hs. destruct (reaches start rb) eqn:Er.
    + simpl. rewrite (head_hits_reached _ _ _ _ rb); auto.
      apply subtree_search_spec; auto. by apply key_sorted_app_inv in Hs as [? _].
    + rewrite hits_app, (not_reaches_hits _ _ rb) by done. simpl.
      apply (IH (Node c l k g t) Leaf); [done|done|]. by apply key_sorted_app_inv in Hs as [_ ?].
Qed.

(** ** The invariant of a cached root *)

Record it_ok (root : rb_root_cached K) : Prop := {
  it_rb : rb_tree (rb_root root);
  it_aug : aug_ok compute_subtree_last (rb_root root);
  it_sorted : key_sorted ITSTART (inorder (rb_root root));
  it_nodup : NoDup (inorder (rb_root root));
  it_leftmost : rb_leftmost root = head (inorder (rb_root root));
}.

Lemma iter_first_spec root start last :
  it_ok root -> iter_first root start last = head (hits start last (inorder (rb_root root))).
Proof.
  intros [Hrb Haug Hs Hnd Hlm]. unfold iter_first.
  destruct (rb_root root) as [|c l k g r] eqn:E; [done|].
  destruct (g <? start) eqn:E1.
  - rewrite not_reaches_hits; [done|done|]. unfold reaches; simpl. lia.
  - destruct (rb_leftmost root) as [k0|] eqn:E2.
    + destruct (last <? ITSTART k0) eqn:E3; [|by apply subtree_search_spec].
      symmetry in Hlm. destruct (inorder (Node c l k g r)) as [|k1 s] eqn:E4; [done|].
      simplify_eq/=. rewrite hits_cons. replace (ITSTART k0 <=? last) with false by lia. simpl.
      rewrite (hits_beyond _ _ [k0] s k0 Hs); [done|set_solver|lia].
    + simpl in Hlm. by destruct (inorder l).
Qed.

Lemma iter_next_spec root start last k a b :
  it_ok root -> inorder (rb_root root) = a ++ k :: b ->
  iter_next k start last root = head (hits start last b).
Proof.
  intros [Hrb Haug Hs Hnd _] Hab. unfold iter_next.
  destruct (locate_same k (rb_root root)) as (c & l & g & r & p & -> & Hz); [rewrite Hab; set_solver|].
  rewrite <- Hz in Haug. apply aug_ok_zip_inv in Haug as [(_ & Hl & Hr) Hp].
  assert ((before p ++ inorder l) ++ k :: (inorder r ++ after p) = a ++ k :: b) as E.
  { rewrite <- Hab, <- Hz, inorder_zip. by app_norm. }
  assert (inorder r ++ after p = b) as Eb.
  { rewrite Hab, <- E in Hnd. by destruct (nodup_middle_inj _ _ _ _ _ E Hnd). }
  rewrite <- Eb. eapply (iter_next_up_spec _ _ _ (Node c l k g r)); eauto.
  rewrite Hab, <- E in Hs. apply key_sorted_app_inv in Hs as [_ Hs].
  by apply (key_sorted_app_inv [k]) in Hs as [_ ?].
Qed.

(** ** Insertion *)

Lemma bump_sim last p : Forall2 frame_sim p (map (bump_frame last) p).
Proof. induction p as [|[] p IH]; simpl; constructor; auto using frame_sim. Qed.

Lemma bump_before last p : before (map (bump_frame last) p) = before p.
Proof. induction p as [|[] p IH]; simpl; rewrite ?IH; done. Qed.

Lemma bump_after last p : after (map (bump_frame last) p) = after p.
Proof. induction p as [|[] p IH]; simpl; rewrite ?IH; done. Qed.

Lemma all_left_before p : all_left p = true <-> before p = [].
Proof.
  induction p as [|[] p IH]; simpl; [done|done|]. split; [done|].
  intros [_ [_ ?]%app_nil]%app_nil. done.
Qed.

(** Linking a node at a valid position whose path is already augmented. *)
Lemma rb_insert_augmented_cached_ok node (p : ipath) (newleft : bool) root :
  rb_path RB_BLACK 0 p -> aug_path compute_subtree_last (Some (ITLAST node)) p ->
  key_sorted ITSTART (before p ++ node :: after p) -> NoDup (before p ++ node :: after p) ->
  (if newleft then before p = [] else rb_leftmost root = head (before p) /\ before p <> []) ->
  exists root', rb_insert_augmented_cached node p newleft root = Some root' /\ it_ok root' /\
    inorder (rb_root root') = before p ++ node :: after p.
Proof.
  intros Hrb Haug Hs Hnd Hlm. unfold rb_insert_augmented_cached, rb_insert_at.
  destruct (rb_insert_loop_rb compute_subtree_last p Leaf node (ITLAST node) Leaf 0)
    as (t & E & Ht); [constructor|constructor|done|].
  rewrite E. eexists; split; [done|].
  apply rb_insert_loop_inorder in E as Hi. simpl in Hi.
  apply rb_insert_loop_aug in E; [|exact compute_rotate_max|done|done].
  split; [|done]. constructor; simpl; rewrite ?Hi; auto.
  destruct newleft; [by rewrite Hlm|]. destruct Hlm as [-> Hne]. by destruct (before p).
Qed.

Lemma it_insert_ok node root :
  it_ok root -> node ∉ inorder (rb_root root) ->
  exists root', it_insert node root = Some root' /\ it_ok root' /\
    inorder (rb_root root') = insert_by ITSTART node (inorder (rb_root root)).
Proof.
  intros [[n Hrb] Haug Hs Hnd Hlm] Hn. unfold it_insert, insert_walk.
  rewrite app_nil_r. set (q := descend _ (rb_root root) []).
  assert (zipup Leaf q = rb_root root) as Hz by (unfold q; by rewrite descend_zip).
  destruct (insert_by_split ITSTART node _ Hs) as (a & b & Hab & Hins & Ha & Hb).
  destruct (descend_split (fun k => ITSTART node <? ITSTART k) (rb_root root) [] a b)
    as [Hqa Hqb]; auto. fold q in Hqa, Hqb. simpl in Hqa, Hqb. rewrite app_nil_r in Hqb.
  rewrite <- Hz in Hrb. apply rb_zip_inv in Hrb as (c & m & Hl & Hp). inversion Hl; subst c m.
  rewrite <- Hz in Haug. apply aug_ok_zip_inv in Haug as [_ Haug].
  edestruct (rb_insert_augmented_cached_ok node (map (bump_frame (ITLAST node)) q))
    with (newleft := all_left (map (bump_frame (ITLAST node)) q)) (root := root)
    as (root' & E & Hok & Hi).
  - eapply rb_path_sim; [apply bump_sim|done].
  - by apply (bump_path_aug _ _ None).
  - rewrite bump_before, bump_after, Hqa, Hqb, <- Hins. by apply insert_by_sorted.
  - rewrite bump_before, bump_after, Hqa, Hqb, <- Hins, insert_by_perm. by constructor.
  - rewrite bump_before, Hqa. destruct (all_left _) eqn:El.
    + apply all_left_before in El. by rewrite bump_before, Hqa in El.
    + rewrite Hlm, Hab. destruct a as [|x a]; [|done].
      rewrite (proj2 (all_left_before _)) in El; [done|]. by rewrite bump_before.
  - exists root'. rewrite bump_before, bump_after, Hqa, Hqb in Hi. by rewrite Hins.
Qed.

(** ** Removal *)

Lemma it_remove_ok node root :
  it_ok root -> node ∈ inorder (rb_root root) ->
  exists root', it_remove node root = Some root' /\ it_ok root' /\
    inorder (rb_root root') = remove_one node (inorder (rb_root root)).
Proof.
  intros [[n Hrb] Haug Hs Hnd Hlm] Hn. unfold it_remove.
  destruct (locate_same node (rb_root root) Hn) as (c & l & g & r & p & -> & Hz).
  rewrite <- Hz in Hrb. apply rb_zip_inv in Hrb as (c' & m & Hnode & Hp).
  pose proof (rb_node_color _ _ _ _ _ _ _ Hnode) as ->.
  destruct (rb_erase_rb compute_subtree_last _ _ _ _ _ _ _ Hnode Hp) as (t & E & Ht).
  rewrite E. eexists; split; [done|].
  rewrite <- Hz in Haug. apply aug_ok_zip_inv in Haug as [Hna Hpa].
  apply rb_erase_inorder in E as Hi.
  apply rb_erase_aug in E; [|exact compute_rotate_max|done|done].
  assert (inorder (rb_root root) = (before p ++ inorder l) ++ node :: inorder r ++ after p) as Hin.
  { rewrite <- Hz, inorder_zip. by app_norm. }
  rewrite Hin in *. rewrite remove_one_middle.
  2:{ apply NoDup_app in Hnd as (_ & Hd & _). intros Hx. apply (Hd _ Hx). by left. }
  rewrite app_assoc in Hi. split; [|done].
  assert ((before p ++ inorder l) ++ inorder r ++ after p `sublist_of`
          (before p ++ inorder l) ++ node :: inorder r ++ after p) as Hsub.
  { apply sublist_app; [done|]. by constructor. }
  constructor; simpl; rewrite ?Hi; auto.
  - eapply key_sorted_sublist; eauto.
  - eapply sublist_NoDup; eauto.
  - rewrite Hlm. destruct (before p ++ inorder l) as [|x s] eqn:Es; simpl.
    + rewrite decide_True by done. apply rb_next_spec.
    + rewrite decide_False; [done|]. intros [= ->]. apply NoDup_cons in Hnd as [Hnd _]. set_solver.
Qed.

(** ** Iteration: [for (n = iter_first(..); n; n = iter_next(n, ..))]

    [None] means that [fuel] calls of [iter_next] did not reach the [NULL] that
    ends the loop. *)

Fixpoint it_walk (fuel : nat) (start last : Z) (root : rb_root_cached K) (node : option K)
    : option (list K) :=
  match node with
  | None => Some []
  | Some k =>
      match fuel with
      | S fuel' =>
          cons k <$> it_walk fuel' start last root (iter_next k start last root)
      | O => None
      end
  end.

Lemma hits_head_split start last b k h :
  hits start last b = k :: h ->
  exists b1 b2, b = b1 ++ k :: b2 /\ hits start last b2 = h.
Proof.
  induction b as [|x b IHb]; [done|]. rewrite hits_cons. case_match; intros E.
  - simplify_eq. by exists [], b.
  - apply IHb in E as (b1 & b2 & -> & Hh). by exists (x :: b1), b2.
Qed.

Lemma it_walk_spec start last root : it_ok root -> forall fuel a b,
  inorder (rb_root root) = a ++ b -> (length b <= fuel)%nat ->
  it_walk fuel start last root (head (hits start last b)) = Some (hits start last b).
Proof.
  intros Hok. induction fuel as [|fuel IHf]; intros a b Hab Hlen.
  - destruct b; simpl in *; [done|lia].
  - destruct (hits start last b) as [|k h] eqn:E; [done|]. simpl.
    apply hits_head_split in E as (b1 & b2 & -> & Hh).
    rewrite (iter_next_spec root start last k (a ++ b1) b2 Hok) by (by rewrite Hab, app_assoc).
    rewrite <- Hh, (IHf (a ++ b1 ++ [k])); [done|..].
    + rewrite Hab. by app_norm.
    + rewrite length_app in Hlen. simpl in Hlen. lia.
Qed.

Definition it_step (o : rb_op K) (root : rb_root_cached K) : option (rb_root_cached K) :=
  match o with OpInsert k => it_insert k root | OpErase k => it_remove k root end.

Fixpoint it_run (ops : list (rb_op K)) (root : rb_root_cached K) : option (rb_root_cached K) :=
  match ops with
  | [] => Some root
  | o :: ops' => match it_step o root with Some root' => it_run ops' root' | None => None end
  end.

Lemma it_run_ok ops : forall root,
  it_ok root -> ops_ok ITSTART ops (inorder (rb_root root)) = true ->
  exists root', it_run ops root = Some root' /\ it_ok root' /\
    inorder (rb_root root') = foldl (fun s o => seq_step ITSTART o s) (inorder (rb_root root)) ops.
Proof.
  induction ops as [|o ops IHo]; intros root Hok H; simpl in *; [eauto|].
  apply andb_true_iff in H as [Ho H].
  assert (exists root', it_step o root = Some root' /\ it_ok root' /\
    inorder (rb_root root') = seq_step ITSTART o (inorder (rb_root root))) as (r1 & -> & Hok1 & Hi).
  { destruct o as [k|k]; simpl.
    - apply it_insert_ok; [done|]. by apply negb_true_iff, bool_decide_eq_false in Ho.
    - apply it_remove_ok; [done|]. by apply bool_decide_eq_true in Ho. }
  rewrite <- Hi in *. by apply IHo.
Qed.

Lemma it_ok_empty : it_ok RB_ROOT_CACHED.
Proof. constructor; simpl; [exists 0%nat; constructor|..]; try constructor; done. Qed.

End IntervalTree.

#[global] Arguments compute_subtree_last : simpl never.

(** The invariant depends on the endpoints of the linked intervals only. *)
Lemma aug_ok_ext {K} (f g : K -> Z) (t : tree K Z) :
  (forall k, k ∈ inorder t -> f k = g k) ->
  aug_ok (compute_subtree_last f) t -> aug_ok (compute_subtree_last g) t.
Proof.
  induction t as [|c l IHl k x r IHr]; simpl; intros H Ht; [done|].
  destruct Ht as (-> & Hl & Hr). split_and!.
  - unfold compute_subtree_last. by rewrite H by set_solver.
  - apply IHl; [|done]. set_solver.
  - apply IHr; [|done]. set_solver.
Qed.

Lemma it_ok_ext {K} `{EqDecision K} (s s' l l' : K -> Z) (root : rb_root_cached K) :
  (forall k, k ∈ inorder (rb_root root) -> s k = s' k /\ l k = l' k) ->
  it_ok s l root -> it_ok s' l' root.
Proof.
  intros H [Hrb Haug Hs Hnd Hlm]. constructor; auto.
  - eapply aug_ok_ext; [|done]. intros k Hk. by apply H.
  - eapply key_sorted_ext; [|done]. intros k Hk. by apply H.
Qed.

(** C4: whatever intervals were inserted and removed (each linked at most once,
    removed only when linked), iterating [iter_first]/[iter_next] over a query
    range visits exactly the linked intervals that intersect it, in order of
    start, and ends: [iter_next] of the last one returns [NULL], after at most as
    many calls as there are intervals. *)
Theorem interval_tree_enumerates (ITSTART ITLAST : nat -> Z) (ops : list (rb_op nat)) :
  ops_ok ITSTART ops [] = true ->
  exists root, it_run ITSTART ITLAST ops RB_ROOT_CACHED = Some root /\
    forall start last,
      it_walk ITSTART ITLAST (length (inorder (rb_root root))) start last root
        (iter_first ITSTART ITLAST root start last)
      = Some (filter (fun k => ITSTART k <= last /\ start <= ITLAST k)
          (foldl (fun s o => seq_step ITSTART o s) [] ops)).
Proof.
  intros H. destruct (it_run_ok ITSTART ITLAST ops RB_ROOT_CACHED) as (root & E & Hok & Hi);
    [apply it_ok_empty|done|].
  exists root. split; [done|]. intros start last.
  rewrite (iter_first_spec _ _ _ _ _ Hok).
  rewrite (it_walk_spec _ _ _ _ _ Hok _ [] (inorder (rb_root root))) by done.
  unfold hits. by rewrite Hi.
Qed.

Lemma interval_tree_enumerates_witness :
  exists root, it_run (fun k => Z.of_nat k * 10) (fun k => Z.of_nat k * 12 + 3)
      [OpInsert 3; OpInsert 1; OpInsert 7; OpInsert 2; OpErase 7; OpInsert 5; OpInsert 4]%nat
      RB_ROOT_CACHED = Some root /\
    it_walk (fun k => Z.of_nat k * 10) (fun k => Z.of_nat k * 12 + 3)
      (length (inorder (rb_root root))) 35 45 root
      (iter_first (fun k => Z.of_nat k * 10) (fun k => Z.of_nat k * 12 + 3) root 35 45)
    = Some [3; 4]%nat.
Proof.
  destruct (interval_tree_enumerates (fun k => Z.of_nat k * 10) (fun k => Z.of_nat k * 12 + 3)
    [OpInsert 3; OpInsert 1; OpInsert 7; OpInsert 2; OpErase 7; OpInsert 5; OpInsert 4]%nat)
    as (root & E & H).
  { vm_compute. reflexivity. }
  exists root. split; [exact E|]. rewrite H. vm_compute. reflexivity.
Defined.
