(* ===== verification/Mm.v ===== *)
(** * The range allocator ([drm_mm.c], [drm_mm.h]): data and operations

    The state of one [struct drm_mm] and of the [struct drm_mm_node]s its callers
    embed.  Nodes live in a store [mm_nodes] and are named by an identifier (a C
    pointer); [HEAD] names the embedded [head_node].  [mm_node_list] is the
    circular list [head_node.node_list] (without the head), [mm_hole_stack] the
    list [hole_stack], [mm_holes_size]/[mm_holes_addr] and [mm_interval_tree] the
    red-black trees of [RbTree.v] and [IntervalTree.v].  All [u64] arithmetic
    wraps.  An operation returns [None] where the C code would follow a [NULL] or
    stale link; the theorems of [MmFacts.v] show that it does not on a state that
    satisfies the allocator's invariant.  [DRM_MM_BUG_ON] is compiled out in the
    configuration modelled here, so it checks nothing; what it asserts appears as
    a hypothesis of the theorems. *)

From S2P Require Import Prelude RbTree IntervalTree.
From stdpp Require Import base gmap list option sets sorting.
From Stdlib Require Import ZArith Lia.

#[local] Set Warnings "-clear-no-such-hyp".

#[local] Open Scope Z_scope.

Inductive drm_mm_insert_mode :=
  DRM_MM_INSERT_BEST | DRM_MM_INSERT_LOW | DRM_MM_INSERT_HIGH | DRM_MM_INSERT_EVICT.

#[global] Instance drm_mm_insert_mode_eq_dec : EqDecision drm_mm_insert_mode.
Proof. solve_decision. Defined.

(** [struct drm_mm_node]: [nd_prev] is [node_list.prev] of a node that is not
    linked (for a linked node the pointer is its neighbour in the list). *)
Record drm_mm_node := {
  nd_color : Z;
  nd_start : Z;
  nd_size : Z;
  nd_hole_size : Z;
  nd_allocated : bool;
  nd_scanned_block : bool;
  nd_prev : nat;
}.

Definition node_zero : drm_mm_node :=
  {| nd_color := 0; nd_start := 0; nd_size := 0; nd_hole_size := 0;
     nd_allocated := false; nd_scanned_block := false; nd_prev := 0 |}.

(** The driver callback: the node before the hole, the node after it, the colour
    and the bounds it adjusts. *)
Definition color_adjust_fn := drm_mm_node -> drm_mm_node -> Z -> Z * Z -> Z * Z.

(** [struct drm_mm] *)
Record drm_mm := {
  mm_color_adjust : option color_adjust_fn;
  mm_hole_stack : list nat;
  mm_nodes : gmap nat drm_mm_node;
  mm_node_list : list nat;
  mm_interval_tree : rb_root_cached nat;
  mm_holes_size : plain_tree (K := nat);
  mm_holes_addr : plain_tree (K := nat);
  mm_scan_active : Z;
}.

(** [&mm->head_node] *)
Definition HEAD : nat := 0.

(** ** Field access *)

Definition node_of (mm : drm_mm) (i : nat) : drm_mm_node := default node_zero (mm_nodes mm !! i).

Definition set_nodes (mm : drm_mm) (ns : gmap nat drm_mm_node) : drm_mm :=
  {| mm_color_adjust := mm_color_adjust mm; mm_hole_stack := mm_hole_stack mm; mm_nodes := ns;
     mm_node_list := mm_node_list mm; mm_interval_tree := mm_interval_tree mm;
     mm_holes_size := mm_holes_size mm; mm_holes_addr := mm_holes_addr mm;
     mm_scan_active := mm_scan_active mm |}.

Definition set_node (i : nat) (n : drm_mm_node) (mm : drm_mm) : drm_mm :=
  set_nodes mm (<[i := n]> (mm_nodes mm)).

Definition set_node_list (l : list nat) (mm : drm_mm) : drm_mm :=
  {| mm_color_adjust := mm_color_adjust mm; mm_hole_stack := mm_hole_stack mm;
     mm_nodes := mm_nodes mm; mm_node_list := l; mm_interval_tree := mm_interval_tree mm;
     mm_holes_size := mm_holes_size mm; mm_holes_addr := mm_holes_addr mm;
     mm_scan_active := mm_scan_active mm |}.

Definition set_interval_tree (t : rb_root_cached nat) (mm : drm_mm) : drm_mm :=
  {| mm_color_adjust := mm_color_adjust mm; mm_hole_stack := mm_hole_stack mm;
     mm_nodes := mm_nodes mm; mm_node_list := mm_node_list mm; mm_interval_tree := t;
     mm_holes_size := mm_holes_size mm; mm_holes_addr := mm_holes_addr mm;
     mm_scan_active := mm_scan_active mm |}.

Definition set_holes (hs ha : plain_tree (K := nat)) (stack : list nat) (mm : drm_mm) : drm_mm :=
  {| mm_color_adjust := mm_color_adjust mm; mm_hole_stack := stack;
     mm_nodes := mm_nodes mm; mm_node_list := mm_node_list mm;
     mm_interval_tree := mm_interval_tree mm; mm_holes_size := hs; mm_holes_addr := ha;
     mm_scan_active := mm_scan_active mm |}.

Definition set_scan_active (n : Z) (mm : drm_mm) : drm_mm :=
  {| mm_color_adjust := mm_color_adjust mm; mm_hole_stack := mm_hole_stack mm;
     mm_nodes := mm_nodes mm; mm_node_list := mm_node_list mm;
     mm_interval_tree := mm_interval_tree mm; mm_holes_size := mm_holes_size mm;
     mm_holes_addr := mm_holes_addr mm; mm_scan_active := n |}.

Definition with_hole_size (h : Z) (n : drm_mm_node) : drm_mm_node :=
  {| nd_color := nd_color n; nd_start := nd_start n; nd_size := nd_size n; nd_hole_size := h;
     nd_allocated := nd_allocated n; nd_scanned_block := nd_scanned_block n; nd_prev := nd_prev n |}.

Definition with_allocated (b : bool) (n : drm_mm_node) : drm_mm_node :=
  {| nd_color := nd_color n; nd_start := nd_start n; nd_size := nd_size n;
     nd_hole_size := nd_hole_size n; nd_allocated := b;
     nd_scanned_block := nd_scanned_block n; nd_prev := nd_prev n |}.

Definition with_scanned (b : bool) (n : drm_mm_node) : drm_mm_node :=
  {| nd_color := nd_color n; nd_start := nd_start n; nd_size := nd_size n;
     nd_hole_size := nd_hole_size n; nd_allocated := nd_allocated n;
     nd_scanned_block := b; nd_prev := nd_prev n |}.

Definition with_prev (p : nat) (n : drm_mm_node) : drm_mm_node :=
  {| nd_color := nd_color n; nd_start := nd_start n; nd_size := nd_size n;
     nd_hole_size := nd_hole_size n; nd_allocated := nd_allocated n;
     nd_scanned_block := nd_scanned_block n; nd_prev := p |}.

(** ** The circular list [node_list] *)

(** The list from the head, and back to it. *)
Definition ring (mm : drm_mm) : list nat := HEAD :: mm_node_list mm.

Fixpoint succ_in (i : nat) (l : list nat) : nat :=
  match l with
  | [] => HEAD
  | x :: l' => if decide (x = i) then hd HEAD l' else succ_in i l'
  end.

Fixpoint pred_in (i : nat) (prev : nat) (l : list nat) : nat :=
  match l with
  | [] => HEAD
  | x :: l' => if decide (x = i) then prev else pred_in i x l'
  end.

Fixpoint insert_after (i new : nat) (l : list nat) : list nat :=
  match l with
  | [] => []
  | x :: l' => if decide (x = i) then x :: new :: l' else x :: insert_after i new l'
  end.

(** [list_next_entry(node, node_list)] *)
Definition list_next_entry (mm : drm_mm) (i : nat) : nat := succ_in i (ring mm).

(** [list_prev_entry(node, node_list)]: a decoupled node keeps its old pointer. *)
Definition list_prev_entry (mm : drm_mm) (i : nat) : nat :=
  if decide (i ∈ mm_node_list mm) then pred_in i HEAD (mm_node_list mm)
  else nd_prev (node_of mm i).

(** [list_add(&new->node_list, &prev->node_list)] *)
Definition list_add_node (new prev : nat) (mm : drm_mm) : drm_mm :=
  set_node_list (tail (insert_after prev new (ring mm))) mm.

(** [list_del(&node->node_list)] *)
Definition list_del_node (i : nat) (mm : drm_mm) : drm_mm :=
  set_node_list (remove_one i (mm_node_list mm)) mm.

(** ** Holes *)

Definition drm_mm_hole_follows (mm : drm_mm) (i : nat) : bool :=
  negb (nd_hole_size (node_of mm i) =? 0).

Definition __drm_mm_hole_node_start (mm : drm_mm) (i : nat) : Z :=
  u64 (nd_start (node_of mm i) + nd_size (node_of mm i)).

Definition __drm_mm_hole_node_end (mm : drm_mm) (i : nat) : Z :=
  nd_start (node_of mm (list_next_entry mm i)).

Definition HOLE_SIZE (mm : drm_mm) (i : nat) : Z := nd_hole_size (node_of mm i).
Definition HOLE_ADDR (mm : drm_mm) (i : nat) : Z := __drm_mm_hole_node_start mm i.

(** [START] and [LAST] of the interval tree *)
Definition START (mm : drm_mm) (i : nat) : Z := nd_start (node_of mm i).
Definition LAST (mm : drm_mm) (i : nat) : Z :=
  u64 (nd_start (node_of mm i) + nd_size (node_of mm i) - 1).

Definition add_hole (node : nat) (mm : drm_mm) : option drm_mm :=
  let hs := u64 (__drm_mm_hole_node_end mm node - __drm_mm_hole_node_start mm node) in
  let mm := set_node node (with_hole_size hs (node_of mm node)) mm in
  s ← RB_INSERT (HOLE_SIZE mm) node (mm_holes_size mm);
  a ← RB_INSERT (HOLE_ADDR mm) node (mm_holes_addr mm);
  Some (set_holes s a (node :: mm_hole_stack mm) mm).

Definition rm_hole (node : nat) (mm : drm_mm) : option drm_mm :=
  s ← rb_erase_node node (mm_holes_size mm);
  a ← rb_erase_node node (mm_holes_addr mm);
  let mm := set_holes s a (remove_one node (mm_hole_stack mm)) mm in
  Some (set_node node (with_hole_size 0 (node_of mm node)) mm).

(** ** Searching *)

Fixpoint best_hole_walk (mm : drm_mm) (size : Z) (t : plain_tree (K := nat)) (best : option nat)
    : option nat :=
  match t with
  | Leaf => best
  | Node _ l k _ r =>
    if size <=? HOLE_SIZE mm k then best_hole_walk mm size l (Some k)
    else best_hole_walk mm size r best
  end.

Definition best_hole (mm : drm_mm) (size : Z) : option nat :=
  best_hole_walk mm size (mm_holes_size mm) None.

Fixpoint find_hole_walk (mm : drm_mm) (addr : Z) (t : plain_tree (K := nat)) (node : option nat)
    : option nat :=
  match t with
  | Leaf => node
  | Node _ l k _ r =>
    let hole_start := __drm_mm_hole_node_start mm k in
    if addr <? hole_start then find_hole_walk mm addr l (Some k)
    else if u64 (hole_start + HOLE_SIZE mm k) <? addr then find_hole_walk mm addr r (Some k)
    else Some k
  end.

Definition find_hole (mm : drm_mm) (addr : Z) : option nat :=
  find_hole_walk mm addr (mm_holes_addr mm) None.

Definition first_hole (mm : drm_mm) (start end_ size : Z) (mode : drm_mm_insert_mode)
    : option nat :=
  match mm_holes_size mm with
  | Leaf => None
  | _ =>
    match mode with
    | DRM_MM_INSERT_BEST => best_hole mm size
    | DRM_MM_INSERT_LOW => find_hole mm start
    | DRM_MM_INSERT_HIGH => find_hole mm end_
    | DRM_MM_INSERT_EVICT => head (mm_hole_stack mm)
    end
  end.

(** [list_next_entry(node, hole_stack)], [NULL] at the list head *)
Fixpoint next_in_stack (node : nat) (l : list nat) : option nat :=
  match l with
  | [] => None
  | x :: l' => if decide (x = node) then head l' else next_in_stack node l'
  end.

Definition next_hole (mm : drm_mm) (node : nat) (mode : drm_mm_insert_mode) : option nat :=
  match mode with
  | DRM_MM_INSERT_BEST => rb_next_node node (mm_holes_size mm)
  | DRM_MM_INSERT_LOW => rb_next_node node (mm_holes_addr mm)
  | DRM_MM_INSERT_HIGH => rb_prev_node node (mm_holes_addr mm)
  | DRM_MM_INSERT_EVICT => next_in_stack node (mm_hole_stack mm)
  end.

(** ** Insertion *)

(** [drm_mm_interval_tree_add_node]: the climb from the hole's node stops at the
    first ancestor that already reaches [last] ... *)
Fixpoint raise_path (last : Z) (p : list (frame nat Z)) : list (frame nat Z) :=
  match p with
  | [] => []
  | f :: p' =>
    let g := match f with InLeft _ _ g _ => g | InRight _ _ _ g => g end in
    if last <=? g then p else bump_frame last f :: raise_path last p'
  end.

(** ... the walk then goes down from the hole's right child, or from the root. *)
Definition drm_mm_interval_tree_add_node (hole_node node : nat) (mm : drm_mm)
    : option (rb_root_cached nat) :=
  let last := LAST mm node in
  let start := START mm node in
  let it := mm_interval_tree mm in
  if nd_allocated (node_of mm hole_node) then
    match locate (same hole_node) (rb_root it) [] with
    | Some (Node c l k g r, p) =>
      let up := raise_path last (InRight c l k g :: p) in
      let q := insert_walk (START mm) start last r [] in
      rb_insert_augmented_cached (LAST mm) node (q ++ up) (negb (all_left q)) it
    | _ => None
    end
  else
    let q := insert_walk (START mm) start last (rb_root it) [] in
    rb_insert_augmented_cached (LAST mm) node q true it.

(** The common tail of [drm_mm_reserve_node] and [drm_mm_insert_node_in_range]:
    link [node] after [hole], mark it allocated, split the hole. *)
Definition link_node (hole node : nat) (hole_start hole_end : Z) (mm : drm_mm) : option drm_mm :=
  let mm := list_add_node node hole mm in
  t ← drm_mm_interval_tree_add_node hole node mm;
  let mm := set_interval_tree t mm in
  let mm := set_node node (with_hole_size 0 (with_allocated true (node_of mm node))) mm in
  let start := nd_start (node_of mm node) in
  let end_ := u64 (start + nd_size (node_of mm node)) in
  mm ← rm_hole hole mm;
  mm ← (if hole_start <? start then add_hole hole mm else Some mm);
  if end_ <? hole_end then add_hole node mm else Some mm.

Definition color_bounds (mm : drm_mm) (hole : nat) (color : Z) (b : Z * Z) : Z * Z :=
  match mm_color_adjust mm with
  | Some f => f (node_of mm hole) (node_of mm (list_next_entry mm hole)) color b
  | None => b
  end.

(** [drm_mm_reserve_node]: start, size and color of [node] are set by the caller. *)
Definition drm_mm_reserve_node (node : nat) (mm : drm_mm) : option (result drm_mm) :=
  let start := nd_start (node_of mm node) in
  let end_ := u64 (start + nd_size (node_of mm node)) in
  if end_ <=? start then Some (Err ENOSPC)
  else match find_hole mm start with
  | None => Some (Err ENOSPC)
  | Some hole =>
    let hole_start := __drm_mm_hole_node_start mm hole in
    let hole_end := u64 (hole_start + HOLE_SIZE mm hole) in
    let '(adj_start, adj_end) :=
      color_bounds mm hole (nd_color (node_of mm node)) (hole_start, hole_end) in
    if (start <? adj_start) || (adj_end <? end_) then Some (Err ENOSPC)
    else mm' ← link_node hole node hole_start hole_end mm; Some (Ok mm')
  end.

(** [is_power_of_2] ([linux/log2.h]) *)
Definition is_power_of_2 (n : Z) : bool := negb (n =? 0) && (Z.land n (n - 1) =? 0).

(** What one iteration of a search decides about a hole. *)
Inductive verdict := Break | Continue | Fit (start : Z).

(** The placement of [size] bytes in [[col_start, col_end)] cut by the range: the
    code shared by [drm_mm_insert_node_in_range] and [drm_mm_scan_add_block]. *)
Definition place_in (col_start col_end range_start range_end size alignment remainder_mask : Z)
    (high : bool) : option Z :=
  let adj_start := Z.max col_start range_start in
  let adj_end := Z.min col_end range_end in
  if (adj_end <=? adj_start) || (u64 (adj_end - adj_start) <? size) then None
  else
    let adj_start := if high then u64 (adj_end - size) else adj_start in
    if alignment =? 0 then Some adj_start
    else
      let rem := if remainder_mask =? 0 then adj_start mod alignment
                 else Z.land adj_start remainder_mask in
      if rem =? 0 then Some adj_start
      else
        let adj_start := u64 (adj_start - rem) in
        let adj_start := if high then adj_start else u64 (adj_start + alignment) in
        if (adj_start <? Z.max col_start range_start)
           || (u64 (Z.min col_end range_end - adj_start) <? size) then None
        else if (adj_end <=? adj_start) || (u64 (adj_end - adj_start) <? size) then None
        else Some adj_start.

Definition try_hole (mm : drm_mm) (hole : nat) (size alignment remainder_mask color : Z)
    (range_start range_end : Z) (mode : drm_mm_insert_mode) : verdict :=
  let hole_start := __drm_mm_hole_node_start mm hole in
  let hole_end := u64 (hole_start + HOLE_SIZE mm hole) in
  if bool_decide (mode = DRM_MM_INSERT_LOW) && (range_end <=? hole_start) then Break
  else if bool_decide (mode = DRM_MM_INSERT_HIGH) && (hole_end <=? range_start) then Break
  else
    let '(col_start, col_end) := color_bounds mm hole color (hole_start, hole_end) in
    match place_in col_start col_end range_start range_end size alignment remainder_mask
            (bool_decide (mode = DRM_MM_INSERT_HIGH)) with
    | Some s => Fit s
    | None => Continue
    end.

(** The [for] loop over holes; [fuel] bounds the number of holes visited. *)
Fixpoint insert_loop (fuel : nat) (mm : drm_mm) (hole : option nat) (node : nat)
    (size alignment remainder_mask color range_start range_end : Z) (mode : drm_mm_insert_mode)
    : option (result drm_mm) :=
  match hole with
  | None => Some (Err ENOSPC)
  | Some h =>
    match fuel with
    | O => None
    | S fuel' =>
      match try_hole mm h size alignment remainder_mask color range_start range_end mode with
      | Break => Some (Err ENOSPC)
      | Continue =>
        insert_loop fuel' mm (next_hole mm h mode) node size alignment remainder_mask color
          range_start range_end mode
      | Fit adj_start =>
        let hole_start := __drm_mm_hole_node_start mm h in
        let hole_end := u64 (hole_start + HOLE_SIZE mm h) in
        let n := node_of mm node in
        let n := {| nd_color := color; nd_start := adj_start; nd_size := size; nd_hole_size := 0;
                    nd_allocated := nd_allocated n; nd_scanned_block := nd_scanned_block n;
                    nd_prev := nd_prev n |} in
        mm' ← link_node h node hole_start hole_end (set_node node n mm); Some (Ok mm')
      end
    end
  end.

Definition drm_mm_insert_node_in_range (node : nat) (size alignment color : Z)
    (range_start range_end : Z) (mode : drm_mm_insert_mode) (mm : drm_mm)
    : option (result drm_mm) :=
  if (size =? 0) || (u64 (range_end - range_start) <? size) then Some (Err ENOSPC)
  else
    let alignment := if alignment <=? 1 then 0 else alignment in
    let remainder_mask := if is_power_of_2 alignment then alignment - 1 else 0 in
    insert_loop (length (mm_hole_stack mm)) mm (first_hole mm range_start range_end size mode)
      node size alignment remainder_mask color range_start range_end mode.

Definition drm_mm_insert_node_generic (node : nat) (size alignment color : Z)
    (mode : drm_mm_insert_mode) (mm : drm_mm) : option (result drm_mm) :=
  drm_mm_insert_node_in_range node size alignment color 0 U64_MAX mode mm.

Definition drm_mm_insert_node (node : nat) (size : Z) (mm : drm_mm) : option (result drm_mm) :=
  drm_mm_insert_node_generic node size 0 0 DRM_MM_INSERT_BEST mm.

(** ** Removal and replacement *)

Definition drm_mm_remove_node (node : nat) (mm : drm_mm) : option drm_mm :=
  let prev_node := list_prev_entry mm node in
  mm ← (if drm_mm_hole_follows mm node then rm_hole node mm else Some mm);
  t ← it_remove (LAST mm) node (mm_interval_tree mm);
  let mm := set_interval_tree t mm in
  let mm := list_del_node node mm in
  let mm := set_node node (with_allocated false (node_of mm node)) mm in
  mm ← (if drm_mm_hole_follows mm prev_node then rm_hole prev_node mm else Some mm);
  add_hole prev_node mm.

Definition replace_in (old new : nat) (l : list nat) : list nat :=
  map (fun x => if decide (x = old) then new else x) l.

Definition drm_mm_replace_node (old new : nat) (mm : drm_mm) : drm_mm :=
  let o := node_of mm old in
  let mm := set_node new o mm in
  let mm := set_node_list (replace_in old new (mm_node_list mm)) mm in
  let it := mm_interval_tree mm in
  let mm := set_interval_tree
    {| rb_root := rb_replace (same old) new (rb_root it);
       rb_leftmost := if decide (rb_leftmost it = Some old) then Some new else rb_leftmost it |} mm in
  let mm := if nd_hole_size o =? 0 then mm
            else set_holes (rb_replace (same old) new (mm_holes_size mm))
                           (rb_replace (same old) new (mm_holes_addr mm))
                           (replace_in old new (mm_hole_stack mm)) mm in
  let mm := set_node old (with_allocated false (node_of mm old)) mm in
  set_node new (with_allocated true (node_of mm new)) mm.

(** ** Eviction scan *)

(** [struct drm_mm_scan] *)
Record drm_mm_scan := {
  sc_size : Z; sc_alignment : Z; sc_remainder_mask : Z;
  sc_range_start : Z; sc_range_end : Z;
  sc_hit_start : Z; sc_hit_end : Z;
  sc_color : Z; sc_mode : drm_mm_insert_mode;
}.

Definition drm_mm_scan_init_with_range (size alignment color start end_ : Z)
    (mode : drm_mm_insert_mode) : drm_mm_scan :=
  let alignment := if alignment <=? 1 then 0 else alignment in
  {| sc_size := size; sc_alignment := alignment;
     sc_remainder_mask := if is_power_of_2 alignment then alignment - 1 else 0;
     sc_range_start := start; sc_range_end := end_;
     sc_hit_start := U64_MAX; sc_hit_end := 0;
     sc_color := color; sc_mode := mode |}.

Definition set_hit (s e : Z) (scan : drm_mm_scan) : drm_mm_scan :=
  {| sc_size := sc_size scan; sc_alignment := sc_alignment scan;
     sc_remainder_mask := sc_remainder_mask scan; sc_range_start := sc_range_start scan;
     sc_range_end := sc_range_end scan; sc_hit_start := s; sc_hit_end := e;
     sc_color := sc_color scan; sc_mode := sc_mode scan |}.

(** [drm_mm_scan_add_block]: the node is decoupled with its pointers left intact. *)
Definition drm_mm_scan_add_block (scan : drm_mm_scan) (node : nat) (mm : drm_mm)
    : bool * drm_mm_scan * drm_mm :=
  let hole := list_prev_entry mm node in
  let mm := set_scan_active (u64 (mm_scan_active mm + 1)) mm in
  let mm := set_node node (with_prev hole (with_scanned true (node_of mm node))) mm in
  let mm := list_del_node node mm in
  let hole_start := __drm_mm_hole_node_start mm hole in
  let hole_end := __drm_mm_hole_node_end mm hole in
  let '(col_start, col_end) := color_bounds mm hole (sc_color scan) (hole_start, hole_end) in
  match place_in col_start col_end (sc_range_start scan) (sc_range_end scan) (sc_size scan)
          (sc_alignment scan) (sc_remainder_mask scan)
          (bool_decide (sc_mode scan = DRM_MM_INSERT_HIGH)) with
  | Some s => (true, set_hit s (u64 (s + sc_size scan)) scan, mm)
  | None => (false, scan, mm)
  end.

Definition drm_mm_scan_remove_block (scan : drm_mm_scan) (node : nat) (mm : drm_mm)
    : bool * drm_mm :=
  let mm := set_node node (with_scanned false (node_of mm node)) mm in
  let mm := set_scan_active (u64 (mm_scan_active mm - 1)) mm in
  let prev_node := list_prev_entry mm node in
  let mm := list_add_node node prev_node mm in
  let n := node_of mm node in
  ((sc_hit_start scan <? u64 (nd_start n + nd_size n)) && (nd_start n <? sc_hit_end scan), mm).

(** The hole of the stack that contains the hit. *)
Fixpoint find_hit_hole (mm : drm_mm) (scan : drm_mm_scan) (l : list nat) : option nat :=
  match l with
  | [] => None
  | h :: l' =>
    let hole_start := __drm_mm_hole_node_start mm h in
    let hole_end := u64 (hole_start + HOLE_SIZE mm h) in
    if (hole_start <=? sc_hit_start scan) && (sc_hit_end scan <=? hole_end) then Some h
    else find_hit_hole mm scan l'
  end.

Definition drm_mm_scan_color_evict (scan : drm_mm_scan) (mm : drm_mm) : option nat :=
  match mm_color_adjust mm with
  | None => None
  | Some _ =>
    match find_hit_hole mm scan (mm_hole_stack mm) with
    | None => None
    | Some hole =>
      let hole_start := __drm_mm_hole_node_start mm hole in
      let hole_end := u64 (hole_start + HOLE_SIZE mm hole) in
      let '(hole_start, hole_end) :=
        color_bounds mm hole (sc_color scan) (hole_start, hole_end) in
      if sc_hit_start scan <? hole_start then Some hole
      else if hole_end <? sc_hit_end scan then Some (list_next_entry mm hole)
      else None
    end
  end.

(** ** Set-up, queries *)

Definition mm_zero : drm_mm :=
  {| mm_color_adjust := None; mm_hole_stack := []; mm_nodes := ∅; mm_node_list := [];
     mm_interval_tree := RB_ROOT_CACHED; mm_holes_size := Leaf; mm_holes_addr := Leaf;
     mm_scan_active := 0 |}.

Definition drm_mm_init (start size : Z) : option drm_mm :=
  let head := {| nd_color := 0; nd_start := u64 (start + size); nd_size := u64 (- size);
                 nd_hole_size := 0; nd_allocated := false; nd_scanned_block := false;
                 nd_prev := HEAD |} in
  add_hole HEAD (set_node HEAD head mm_zero).

Definition drm_mm_clean (mm : drm_mm) : bool :=
  match mm_node_list mm with [] => true | _ => false end.

(** [__drm_mm_interval_first] *)
Definition drm_mm_interval_first (mm : drm_mm) (start last : Z) : nat :=
  default HEAD (iter_first (START mm) (LAST mm) (mm_interval_tree mm) start last).

(** The totals [drm_mm_print] reports: (total, used, free). *)
Definition drm_mm_print_totals (mm : drm_mm) : Z * Z * Z :=
  let free := foldl (fun acc i => u64 (acc + HOLE_SIZE mm i)) (HOLE_SIZE mm HEAD) (mm_node_list mm) in
  let used := foldl (fun acc i => u64 (acc + nd_size (node_of mm i))) 0 (mm_node_list mm) in
  (u64 (free + used), used, free).
