(* ===== verification/MmFacts.v ===== *)
(** * The range allocator: invariant and operations

    [mm_ok]: the nodes of the list are disjoint, in address order and inside the
    managed range; each records the size of the hole behind it; the two hole
    trees and the hole stack hold exactly the nodes with a hole; the interval
    tree holds exactly the nodes of the list.  Every operation of [Mm.v] keeps it
    and does what it documents. *)

From S2P Require Import Prelude RbTree IntervalTree Mm.
From stdpp Require Import base gmap list option sets sorting.
From Stdlib Require Import ZArith Lia.

#[local] Set Warnings "-clear-no-such-hyp".

#[local] Open Scope Z_scope.

(** ** Placement in one hole *)

(** The start of an allocation is aligned; [0] asks for no alignment. *)
Definition aligned (alignment s : Z) : Prop := alignment = 0 \/ s mod alignment = 0.

Record align_ok (alignment mask : Z) : Prop := {
  ao_range : alignment = 0 \/ 1 < alignment < 2 ^ 64;
  ao_mask : mask = 0 \/ (0 < alignment /\ forall x, Z.land x mask = x mod alignment);
}.

Definition norm_align (alignment : Z) : Z := if alignment <=? 1 then 0 else alignment.
Definition norm_mask (alignment : Z) : Z :=
  if is_power_of_2 alignment then alignment - 1 else 0.

Lemma align_ok_norm a : is_u64 a -> align_ok (norm_align a) (norm_mask (norm_align a)).
Proof.
  intros [H1 H2]. unfold norm_align. destruct (a <=? 1) eqn:E.
  - constructor; by left.
  - constructor; [right; lia|]. unfold norm_mask, is_power_of_2.
    destruct (negb (a =? 0) && (Z.land a (a - 1) =? 0)) eqn:Ep; [|by left].
    right. apply andb_true_iff in Ep as [_ Ep]. apply Z.eqb_eq in Ep.
    split; [lia|]. intros x. apply land_mask_mod; lia.
Qed.

Section Place.
Context (cs ce rs re size alignment mask : Z).
Hypothesis Hcs : is_u64 cs.
Hypothesis Hce : is_u64 ce.
Hypothesis Hrs : is_u64 rs.
Hypothesis Hre : is_u64 re.
Hypothesis Hsize : 0 < size < 2 ^ 64.
Hypothesis Halign : align_ok alignment mask.

(** A start that fits both the hole and the range. *)
Definition fits (s : Z) : Prop :=
  Z.max cs rs <= s /\ s + size <= Z.min ce re /\ aligned alignment s.

Lemma rem_is_mod a :
  alignment <> 0 -> (if mask =? 0 then a mod alignment else Z.land a mask) = a mod alignment.
Proof.
  intros Ha. destruct (mask =? 0) eqn:E; [done|].
  destruct (ao_mask _ _ Halign) as [|[_ Hm]]; [lia|apply Hm].
Qed.

Lemma place_in_low_spec :
  match place_in cs ce rs re size alignment mask false with
  | Some s => fits s /\ forall s', fits s' -> s <= s'
  | None => forall s, ~ fits s
  end.
Proof.
  unfold place_in, fits, is_u64 in *. set (lo := Z.max cs rs) in *. set (hi := Z.min ce re) in *.
  assert (0 <= lo < 2 ^ 64 /\ 0 <= hi < 2 ^ 64) as [Hlo Hhi] by lia.
  destruct (hi <=? lo) eqn:E1; simpl; [intros s; lia|].
  rewrite (u64_small (hi - lo)) by (unfold is_u64; lia).
  destruct (hi - lo <? size) eqn:E2; [intros s; lia|].
  destruct (alignment =? 0) eqn:Ea; [split; [unfold aligned; lia|intros s' (? & ? & _); lia]|].
  assert (1 < alignment < 2 ^ 64) as HA by (destruct (ao_range _ _ Halign); lia).
  rewrite rem_is_mod by lia. pose proof (Z.mod_pos_bound lo alignment ltac:(lia)) as Hrem.
  pose proof (Z.mod_le lo alignment ltac:(lia) ltac:(lia)) as Hle.
  destruct (lo mod alignment =? 0) eqn:Er; [split; [unfold aligned; lia|intros s' (? & ? & _); lia]|].
  rewrite (u64_small (lo - _)) by (unfold is_u64; lia).
  set (s0 := lo - lo mod alignment + alignment).
  assert (forall s, fits s -> s0 <= s) as Hnext.
  { intros s (H1 & H2 & [|H3]); [lia|]. apply aligned_ge_next; fold lo in H1; lia. }
  assert (forall s, fits s -> s + size <= hi) as Hend by (intros s (_ & ? & _); done).
  destruct (decide (s0 < 2 ^ 64)) as [Hs0|Hs0].
  - rewrite (u64_small s0) by (unfold is_u64, s0 in *; lia).
    replace (s0 <? lo) with false by (unfold s0; lia). simpl.
    destruct (decide (s0 <= hi)) as [Hsh|Hsh].
    + rewrite (u64_small (hi - s0)) by (unfold is_u64; lia).
      destruct (hi - s0 <? size) eqn:E3.
      * intros s Hs. specialize (Hnext s Hs). specialize (Hend s Hs). lia.
      * replace (hi <=? s0) with false by lia. simpl.
        split; [|exact Hnext].
        split_and!; [unfold s0; lia|lia|]. right. by apply add_mod_aligned; lia.
    + replace (hi <=? s0) with true by lia. simpl.
      destruct (u64 (hi - s0) <? size); intros s Hs; specialize (Hnext s Hs);
        specialize (Hend s Hs); lia.
  - rewrite (u64_add_wrap s0) by (unfold s0 in *; lia).
    replace (s0 - 2 ^ 64 <? lo) with true by (unfold s0; lia). simpl.
    intros s Hs. specialize (Hnext s Hs). specialize (Hend s Hs). lia.
Qed.

Lemma place_in_high_spec :
  match place_in cs ce rs re size alignment mask true with
  | Some s => fits s /\ forall s', fits s' -> s' <= s
  | None => forall s, ~ fits s
  end.
Proof.
  unfold place_in, fits, is_u64 in *. set (lo := Z.max cs rs) in *. set (hi := Z.min ce re) in *.
  assert (0 <= lo < 2 ^ 64 /\ 0 <= hi < 2 ^ 64) as [Hlo Hhi] by lia.
  destruct (hi <=? lo) eqn:E1; simpl; [intros s; lia|].
  rewrite (u64_small (hi - lo)) by (unfold is_u64; lia).
  destruct (hi - lo <? size) eqn:E2; [intros s; lia|].
  rewrite (u64_small (hi - size)) by (unfold is_u64; lia).
  destruct (alignment =? 0) eqn:Ea; [split; [unfold aligned; lia|intros s' (? & ? & _); lia]|].
  assert (1 < alignment < 2 ^ 64) as HA by (destruct (ao_range _ _ Halign); lia).
  set (top := hi - size) in *. assert (top = hi - size) as Htop by done.
  rewrite rem_is_mod by lia. pose proof (Z.mod_pos_bound top alignment ltac:(lia)) as Hrem.
  pose proof (Z.mod_le top alignment ltac:(lia) ltac:(lia)) as Hle.
  destruct (top mod alignment =? 0) eqn:Er; [split; [unfold aligned; lia|intros s' (? & ? & _); lia]|].
  rewrite (u64_small (top - _)) by (unfold is_u64; lia).
  set (s0 := top - top mod alignment).
  assert (forall s, fits s -> s <= s0) as Hprev.
  { intros s (H1 & H2 & [|H3]); [lia|]. apply aligned_le_prev; lia. }
  destruct (s0 <? lo) eqn:E3; simpl.
  { intros s Hs. specialize (Hprev s Hs). destruct Hs as (? & _). fold lo in H. lia. }
  rewrite !(u64_small (hi - s0)) by (unfold is_u64, s0 in *; lia).
  replace (hi - s0 <? size) with false by (unfold s0; lia).
  replace (hi <=? s0) with false by (unfold s0; lia). simpl.
  split; [|exact Hprev].
  split_and!; [lia|unfold s0; lia|]. right. by apply sub_mod_aligned; lia.
Qed.

Lemma place_in_spec high :
  match place_in cs ce rs re size alignment mask high with
  | Some s => fits s /\ forall s', fits s' -> if high then s' <= s else s <= s'
  | None => forall s, ~ fits s
  end.
Proof. destruct high; [apply place_in_high_spec|apply place_in_low_spec]. Qed.

End Place.

(** ** The circular list *)

(** [R] holds between neighbours of the sequence [l] that ends at [e]. *)
Fixpoint chain (R : nat -> nat -> Prop) (l : list nat) (e : nat) : Prop :=
  match l with
  | [] => True
  | x :: l' => R x (hd e l') /\ chain R l' e
  end.

Lemma hd_app (e : nat) a b : hd e (a ++ b) = hd (hd e b) a.
Proof. by destruct a. Qed.

Lemma chain_app R a b e : chain R (a ++ b) e <-> chain R a (hd e b) /\ chain R b e.
Proof.
  induction a as [|x a IHa]; simpl; [tauto|]. rewrite IHa, hd_app. tauto.
Qed.

Lemma chain_impl (R R' : nat -> nat -> Prop) l e :
  (forall x y, x ∈ l -> y ∈ l ++ [e] -> R x y -> R' x y) -> chain R l e -> chain R' l e.
Proof.
  induction l as [|x l IHl]; simpl; intros H Hc; [done|]. destruct Hc as [H1 H2]. split.
  - apply H; [set_solver| |done]. destruct l; set_solver.
  - apply IHl; [|done]. intros a b Ha Hb. apply H; set_solver.
Qed.

Lemma succ_in_middle x pre l2 : x ∉ pre -> succ_in x (pre ++ x :: l2) = hd HEAD l2.
Proof.
  induction pre as [|y pre IHp]; simpl; intros Hx.
  - by rewrite decide_True.
  - apply not_elem_of_cons in Hx as [? ?]. rewrite decide_False by done. by apply IHp.
Qed.

Lemma insert_after_middle x n pre l2 :
  x ∉ pre -> insert_after x n (pre ++ x :: l2) = pre ++ x :: n :: l2.
Proof.
  induction pre as [|y pre IHp]; simpl; intros Hx.
  - by rewrite decide_True.
  - apply not_elem_of_cons in Hx as [? ?]. rewrite decide_False by done. by rewrite IHp.
Qed.

Lemma pred_in_middle x y prev pre l2 :
  x ∉ pre ++ [y] -> pred_in x prev (pre ++ y :: x :: l2) = y.
Proof.
  revert prev. induction pre as [|z pre IHp]; simpl; intros prev Hx.
  - rewrite decide_False, decide_True by set_solver. done.
  - rewrite decide_False by set_solver. apply IHp. set_solver.
Qed.

Lemma remove_one_notin (x : nat) l : x ∉ l -> remove_one x l = l.
Proof.
  induction l as [|y l IHl]; simpl; intros Hx; [done|].
  apply not_elem_of_cons in Hx as [? ?]. rewrite decide_False, IHl; auto.
Qed.

(** The ring around one of its nodes. *)
Lemma ring_split mm h : h ∈ ring mm -> exists pre l2, ring mm = pre ++ h :: l2.
Proof. apply list_elem_of_split. Qed.

Lemma NoDup_insert_after (h n : nat) pre l2 :
  NoDup (pre ++ h :: l2) -> n ∉ pre ++ h :: l2 -> NoDup (pre ++ h :: n :: l2).
Proof.
  intros Hnd Hn. assert (pre ++ h :: n :: l2 ≡ₚ n :: pre ++ h :: l2) as ->.
  { rewrite (Permutation_swap n h l2). by rewrite <- Permutation_middle. }
  by constructor.
Qed.

Lemma list_next_entry_split mm h pre l2 :
  NoDup (ring mm) -> ring mm = pre ++ h :: l2 -> list_next_entry mm h = hd HEAD l2.
Proof.
  intros Hnd Hr. unfold list_next_entry. rewrite Hr in *.
  apply nodup_not_before in Hnd as [Hnd _]. by apply succ_in_middle.
Qed.

Lemma ring_list_add mm n h pre l2 :
  NoDup (ring mm) -> ring mm = pre ++ h :: l2 ->
  ring (list_add_node n h mm) = pre ++ h :: n :: l2.
Proof.
  intros Hnd Hr. change (HEAD :: tail (insert_after h n (ring mm)) = pre ++ h :: n :: l2).
  rewrite Hr in Hnd |- *.
  apply nodup_not_before in Hnd as [Hnd _]. rewrite insert_after_middle by done.
  unfold ring in Hr. destruct pre; simpl in *; by simplify_eq.
Qed.

(** ** Store updates *)

Lemma node_of_set_node i n mm j :
  node_of (set_node i n mm) j = if decide (i = j) then n else node_of mm j.
Proof.
  unfold node_of, set_node. simpl. rewrite lookup_insert. by case_decide.
Qed.

Lemma node_of_set_node_eq i n mm : node_of (set_node i n mm) i = n.
Proof. rewrite node_of_set_node. by rewrite decide_True. Qed.

Lemma node_of_set_node_ne i n mm j : i <> j -> node_of (set_node i n mm) j = node_of mm j.
Proof. intros. rewrite node_of_set_node. by rewrite decide_False. Qed.

(** ** Hole bookkeeping *)

(** The hole trees and the stack hold exactly the sequence [S], in address order. *)
Record holes_ok (mm : drm_mm) (S : list nat) : Prop := {
  ho_addr_rb : rb_tree (mm_holes_addr mm);
  ho_addr : inorder (mm_holes_addr mm) = S;
  ho_size_rb : rb_tree (mm_holes_size mm);
  ho_size_sorted : key_sorted (HOLE_SIZE mm) (inorder (mm_holes_size mm));
  ho_size : inorder (mm_holes_size mm) ≡ₚ S;
  ho_stack : mm_hole_stack mm ≡ₚ S;
}.

Definition addr_sorted (mm : drm_mm) (l : list nat) : Prop :=
  StronglySorted (fun a b => HOLE_ADDR mm a < HOLE_ADDR mm b) l.

Lemma addr_sorted_key mm l : addr_sorted mm l -> key_sorted (HOLE_ADDR mm) l.
Proof.
  induction 1 as [|x l Hs IH Hx]; constructor; [done|].
  eapply Forall_impl; [exact Hx|]. simpl. lia.
Qed.

Lemma addr_sorted_NoDup mm l : addr_sorted mm l -> NoDup l.
Proof.
  induction 1 as [|x l Hs IH Hx]; constructor; [|done].
  intros Hin. rewrite Forall_forall in Hx. specialize (Hx x Hin). lia.
Qed.

Lemma addr_sorted_app mm a b :
  addr_sorted mm (a ++ b) <->
  addr_sorted mm a /\ addr_sorted mm b /\
  forall x y, x ∈ a -> y ∈ b -> HOLE_ADDR mm x < HOLE_ADDR mm y.
Proof. unfold addr_sorted. rewrite StronglySorted_app. naive_solver. Qed.

Lemma addr_sorted_cons_inv mm x l :
  addr_sorted mm (x :: l) -> addr_sorted mm l /\ Forall (fun y => HOLE_ADDR mm x < HOLE_ADDR mm y) l.
Proof. apply StronglySorted_inv. Qed.

Lemma addr_sorted_sublist mm l l' : l' `sublist_of` l -> addr_sorted mm l -> addr_sorted mm l'.
Proof.
  unfold addr_sorted. induction 1 as [|x l1 l2 Hsub IH|x l1 l2 Hsub IH]; intros Hs; [done| |].
  - apply StronglySorted_inv in Hs as [Hs Hx]. constructor; [auto|].
    rewrite Forall_forall in *. intros y Hy. apply Hx. by eapply elem_of_sublist.
  - apply StronglySorted_inv in Hs as [Hs _]. auto.
Qed.

Lemma addr_sorted_ext mm mm' l :
  (forall i, i ∈ l -> HOLE_ADDR mm i = HOLE_ADDR mm' i) -> addr_sorted mm l -> addr_sorted mm' l.
Proof.
  intros H Hs. induction Hs as [|x s Hs IH Hx]; constructor.
  - apply IH. intros k Hk. apply H. by right.
  - rewrite Forall_forall in *. intros y Hy. rewrite <- !H by set_solver. by apply Hx.
Qed.

(** Changing only [hole_size] keeps the addresses. *)
Lemma HOLE_ADDR_set_hole_size mm i h j :
  HOLE_ADDR (set_node i (with_hole_size h (node_of mm i)) mm) j = HOLE_ADDR mm j.
Proof.
  unfold HOLE_ADDR, __drm_mm_hole_node_start. rewrite node_of_set_node. by case_decide; subst.
Qed.

Lemma add_hole_ok mm h a b :
  holes_ok mm (a ++ b) -> addr_sorted mm (a ++ h :: b) ->
  let hs := u64 (__drm_mm_hole_node_end mm h - __drm_mm_hole_node_start mm h) in
  exists s t st, let mm' := set_holes s t st (set_node h (with_hole_size hs (node_of mm h)) mm) in
    add_hole h mm = Some mm' /\ holes_ok mm' (a ++ h :: b).
Proof.
  intros [H1 H2 H3 H4 H5 H6] Hs hs. unfold add_hole. fold hs.
  set (mm1 := set_node h (with_hole_size hs (node_of mm h)) mm).
  apply addr_sorted_NoDup in Hs as Hnd. apply nodup_not_before in Hnd as [Hna Hnb].
  apply addr_sorted_app in Hs as (Ha & Hb & Hab).
  apply addr_sorted_cons_inv in Hb as [Hb Hhb].
  assert (forall i, HOLE_ADDR mm1 i = HOLE_ADDR mm i) as HA
    by (intros; apply HOLE_ADDR_set_hole_size).
  assert (forall i, i ∈ inorder (mm_holes_size mm) -> HOLE_SIZE mm i = HOLE_SIZE mm1 i) as HS.
  { intros i Hi. rewrite H5 in Hi. unfold HOLE_SIZE, mm1.
    rewrite node_of_set_node_ne by set_solver. done. }
  change (mm_holes_size mm1) with (mm_holes_size mm).
  change (mm_holes_addr mm1) with (mm_holes_addr mm).
  destruct (RB_INSERT_spec (HOLE_SIZE mm1) h (mm_holes_size mm)) as (s & -> & Hs1 & Hs2);
    [done|by eapply key_sorted_ext|].
  destruct (RB_INSERT_spec (HOLE_ADDR mm1) h (mm_holes_addr mm)) as (t & -> & Ht1 & Ht2); [done| |].
  { rewrite H2. apply (key_sorted_ext (HOLE_ADDR mm)); [done|]. apply addr_sorted_key.
    apply addr_sorted_app. split_and!; auto. intros x y Hx Hy. apply Hab; set_solver. }
  exists s, t, (h :: mm_hole_stack mm). split; [done|].
  constructor; simpl; auto.
  - rewrite Ht2, H2. apply insert_by_between.
    + apply Forall_forall. intros x Hx. rewrite !HA. specialize (Hab x h Hx). set_solver by lia.
    + eapply Forall_impl; [exact Hhb|]. intros x Hx. by rewrite !HA.
  - change (key_sorted (HOLE_SIZE mm1) (inorder s)). rewrite Hs2.
    apply insert_by_sorted. by eapply key_sorted_ext.
  - rewrite Hs2, insert_by_perm, H5. by rewrite Permutation_middle.
  - rewrite H6. by rewrite Permutation_middle.
Qed.

Lemma remove_one_perm (x : nat) l a b : l ≡ₚ a ++ x :: b -> remove_one x l ≡ₚ a ++ b.
Proof.
  intros H. assert (x ∈ l) as Hx by (rewrite H; set_solver).
  apply list_elem_of_split_l in Hx as (l1 & l2 & -> & Hl1).
  rewrite remove_one_middle by done.
  apply (Permutation_cons_inv (a := x)). by rewrite !Permutation_middle.
Qed.

Lemma rm_hole_ok mm h a b :
  holes_ok mm (a ++ h :: b) -> NoDup (a ++ h :: b) ->
  exists s t st, let mm' := set_node h (with_hole_size 0 (node_of mm h)) (set_holes s t st mm) in
    rm_hole h mm = Some mm' /\ holes_ok mm' (a ++ b).
Proof.
  intros [H1 H2 H3 H4 H5 H6] Hnd. unfold rm_hole.
  destruct (rb_erase_node_spec h (mm_holes_size mm)) as (s & -> & Hs1 & Hs2);
    [done|by rewrite H5|rewrite H5; set_solver|].
  destruct (rb_erase_node_spec h (mm_holes_addr mm)) as (t & -> & Ht1 & Ht2);
    [done|by rewrite H2|rewrite H2; set_solver|].
  exists s, t, (remove_one h (mm_hole_stack mm)). split; [done|].
  apply nodup_not_before in Hnd as [Hna Hnb].
  assert (inorder s ≡ₚ a ++ b) as Hperm by (rewrite Hs2; by apply remove_one_perm).
  constructor; simpl; auto.
  - rewrite Ht2, H2. by apply remove_one_middle.
  - eapply (key_sorted_ext (HOLE_SIZE mm)).
    + intros k Hk. rewrite Hperm in Hk. unfold HOLE_SIZE.
      rewrite node_of_set_node_ne by set_solver. done.
    + rewrite Hs2. eapply key_sorted_sublist; [apply remove_one_sublist|done].
  - by apply remove_one_perm.
Qed.

(** ** Changing the hole of one node *)

(** [mm'] is [mm] with the recorded hole size of [h] set to [d]; the hole trees
    and the stack are free to change. *)
Record upd_hole (mm mm' : drm_mm) (h : nat) (d : Z) : Prop := {
  uh_node j : node_of mm' j = if decide (h = j) then with_hole_size d (node_of mm h) else node_of mm j;
  uh_list : mm_node_list mm' = mm_node_list mm;
  uh_it : mm_interval_tree mm' = mm_interval_tree mm;
  uh_color : mm_color_adjust mm' = mm_color_adjust mm;
  uh_scan : mm_scan_active mm' = mm_scan_active mm;
}.

(** What no change of hole sizes touches. *)
Record same_layout (mm mm' : drm_mm) : Prop := {
  sl_start i : START mm' i = START mm i;
  sl_size i : nd_size (node_of mm' i) = nd_size (node_of mm i);
  sl_color i : nd_color (node_of mm' i) = nd_color (node_of mm i);
  sl_scanned i : nd_scanned_block (node_of mm' i) = nd_scanned_block (node_of mm i);
}.

#[global] Instance same_layout_preorder : PreOrder same_layout.
Proof.
  split; [by constructor|]. intros a b c [] []. constructor; intros i; etrans; eauto.
Qed.

Lemma upd_hole_layout mm mm' h d : upd_hole mm mm' h d -> same_layout mm mm'.
Proof.
  intros H. constructor; intros i; unfold START; rewrite (uh_node _ _ _ _ H); by case_decide; subst.
Qed.

Lemma upd_hole_allocated mm mm' h d i :
  upd_hole mm mm' h d -> nd_allocated (node_of mm' i) = nd_allocated (node_of mm i).
Proof. intros H. rewrite (uh_node _ _ _ _ H). by case_decide; subst. Qed.

Lemma upd_hole_size mm mm' h d i :
  upd_hole mm mm' h d -> HOLE_SIZE mm' i = if decide (h = i) then d else HOLE_SIZE mm i.
Proof. intros H. unfold HOLE_SIZE. rewrite (uh_node _ _ _ _ H). by case_decide. Qed.

Lemma layout_HOLE_ADDR mm mm' i : same_layout mm mm' -> HOLE_ADDR mm' i = HOLE_ADDR mm i.
Proof.
  intros H. unfold HOLE_ADDR, __drm_mm_hole_node_start.
  change (nd_start (node_of mm' i)) with (START mm' i). by rewrite (sl_start _ _ H), (sl_size _ _ H).
Qed.

Lemma layout_LAST mm mm' i : same_layout mm mm' -> LAST mm' i = LAST mm i.
Proof.
  intros H. unfold LAST. change (nd_start (node_of mm' i)) with (START mm' i).
  by rewrite (sl_start _ _ H), (sl_size _ _ H).
Qed.

Lemma layout_addr_sorted mm mm' l : same_layout mm mm' -> addr_sorted mm l -> addr_sorted mm' l.
Proof. intros H. apply addr_sorted_ext. intros i _. by rewrite (layout_HOLE_ADDR mm mm'). Qed.

Lemma upd_hole_ring mm mm' h d : upd_hole mm mm' h d -> ring mm' = ring mm.
Proof. intros H. unfold ring. by rewrite (uh_list _ _ _ _ H). Qed.

Lemma upd_hole_end mm mm' h d i :
  upd_hole mm mm' h d -> __drm_mm_hole_node_end mm' i = __drm_mm_hole_node_end mm i.
Proof.
  intros H. unfold __drm_mm_hole_node_end, list_next_entry.
  rewrite (upd_hole_ring _ _ _ _ H).
  apply (sl_start _ _ (upd_hole_layout _ _ _ _ H)).
Qed.

Lemma rm_hole_upd mm h a b :
  holes_ok mm (a ++ h :: b) -> NoDup (a ++ h :: b) ->
  exists mm', rm_hole h mm = Some mm' /\ upd_hole mm mm' h 0 /\ holes_ok mm' (a ++ b).
Proof.
  intros H Hnd. destruct (rm_hole_ok mm h a b H Hnd) as (s & t & st & E & Hok).
  eexists; split_and!; [exact E| |exact Hok].
  constructor; try done. intros j. by rewrite node_of_set_node.
Qed.

Lemma add_hole_upd mm h a b d :
  holes_ok mm (a ++ b) -> addr_sorted mm (a ++ h :: b) ->
  d = u64 (__drm_mm_hole_node_end mm h - __drm_mm_hole_node_start mm h) ->
  exists mm', add_hole h mm = Some mm' /\ upd_hole mm mm' h d /\ holes_ok mm' (a ++ h :: b).
Proof.
  intros H Hs ->. destruct (add_hole_ok mm h a b H Hs) as (s & t & st & E & Hok).
  eexists; split_and!; [exact E| |exact Hok].
  constructor; try done. intros j.
  change (node_of (set_holes s t st ?m) j) with (node_of m j). by rewrite node_of_set_node.
Qed.

(** [if (0 < d) add_hole(h)]: a node whose hole is recorded exactly when it is
    not empty. *)
Definition hole_seg (h : nat) (d : Z) : list nat := if 0 <? d then [h] else [].

Lemma opt_add_hole_upd mm h a b d (c : bool) :
  holes_ok mm (a ++ b) -> addr_sorted mm (a ++ h :: b) -> HOLE_SIZE mm h = 0 ->
  d = __drm_mm_hole_node_end mm h - __drm_mm_hole_node_start mm h -> 0 <= d < 2 ^ 64 ->
  c = (0 <? d) ->
  exists mm', (if c then add_hole h mm else Some mm) = Some mm' /\ upd_hole mm mm' h d /\
    holes_ok mm' (a ++ hole_seg h d ++ b).
Proof.
  intros H Hs H0 Hd Hr ->. unfold hole_seg. destruct (0 <? d) eqn:E.
  - apply add_hole_upd; auto. rewrite <- Hd. by rewrite u64_small.
  - exists mm. split_and!; [done| |done]. assert (d = 0) as -> by lia.
    constructor; try done. intros j. case_decide; [|done]. subst j.
    unfold HOLE_SIZE in H0. destruct (node_of mm h). simpl in *. by subst.
Qed.

(** ** The invariant *)

Definition link (mm : drm_mm) (a b : nat) : Prop :=
  HOLE_ADDR mm a <= START mm b /\ HOLE_SIZE mm a = START mm b - HOLE_ADDR mm a.

Record node_ok (mm : drm_mm) (i : nat) : Prop := {
  no_allocated : nd_allocated (node_of mm i) = true;
  no_scanned : nd_scanned_block (node_of mm i) = false;
  no_start : 0 <= START mm i;
  no_size : 0 < nd_size (node_of mm i);
  no_end : START mm i + nd_size (node_of mm i) <= START mm HEAD;
}.

(** The nodes with a hole behind them, in address order. *)
Definition holes (mm : drm_mm) : list nat := filter (fun i => 0 < HOLE_SIZE mm i) (ring mm).

Record mm_ok (mm : drm_mm) : Prop := {
  ok_head : nd_allocated (node_of mm HEAD) = false;
  ok_limit : is_u64 (START mm HEAD);
  ok_node i : i ∈ mm_node_list mm -> node_ok mm i;
  ok_nodup : NoDup (ring mm);
  ok_chain : chain (link mm) (ring mm) HEAD;
  ok_holes : holes_ok mm (holes mm);
  ok_it : it_ok (START mm) (LAST mm) (mm_interval_tree mm);
  ok_it_list : inorder (rb_root (mm_interval_tree mm)) = mm_node_list mm;
  ok_scan : mm_scan_active mm = 0;
}.

Lemma HOLE_ADDR_node mm i :
  is_u64 (START mm HEAD) -> node_ok mm i -> HOLE_ADDR mm i = START mm i + nd_size (node_of mm i).
Proof.
  intros HL [_ _ ? ? ?]. unfold HOLE_ADDR, __drm_mm_hole_node_start. fold (START mm i).
  apply u64_small. unfold is_u64 in *. lia.
Qed.

Lemma HOLE_ADDR_range mm i : 0 <= HOLE_ADDR mm i < 2 ^ 64.
Proof. apply u64_range. Qed.

(** Along the chain the addresses grow. *)
Lemma chain_starts mm l : forall x,
  is_u64 (START mm HEAD) -> chain (link mm) (x :: l) HEAD -> (forall i, i ∈ l -> node_ok mm i) ->
  forall y, y ∈ l ++ [HEAD] -> HOLE_ADDR mm x <= START mm y.
Proof.
  induction l as [|z l IHl]; intros x HL Hc Hok y Hy; simpl in *.
  - apply list_elem_of_singleton in Hy as ->. by destruct Hc as [[? _] _].
  - destruct Hc as [[Hxz _] Hc]. apply elem_of_cons in Hy as [->|Hy]; [done|].
    specialize (IHl z HL Hc ltac:(set_solver) y Hy).
    rewrite (HOLE_ADDR_node mm z HL) in IHl by set_solver.
    destruct (Hok z ltac:(set_solver)). lia.
Qed.

Lemma chain_addr_sorted mm l : forall x,
  is_u64 (START mm HEAD) -> chain (link mm) (x :: l) HEAD -> (forall i, i ∈ l -> node_ok mm i) ->
  addr_sorted mm (x :: l).
Proof.
  induction l as [|z l IHl]; intros x HL Hc Hok; [repeat constructor|].
  assert (addr_sorted mm (z :: l)) as Hz.
  { apply IHl; [done|by destruct Hc|set_solver]. }
  constructor; [done|]. apply Forall_forall. intros y Hy.
  pose proof (chain_starts mm (z :: l) x HL Hc Hok y ltac:(set_solver)) as Hxy.
  rewrite (HOLE_ADDR_node mm y HL) by auto. destruct (Hok y Hy). lia.
Qed.

(** ** A valid state around one node *)

Section Around.
Context (mm : drm_mm) (Hok : mm_ok mm) (h : nat) (pre l2 : list nat).
Hypothesis Hring : ring mm = pre ++ h :: l2.

Lemma around_tail i : i ∈ l2 -> i ∈ mm_node_list mm.
Proof.
  intros Hi. unfold ring in Hring. destruct pre as [|x pre']; injection Hring as _ ->; set_solver.
Qed.

Lemma around_nodup : (h ∉ pre) /\ (h ∉ l2).
Proof. pose proof (ok_nodup _ Hok) as H. rewrite Hring in H. by apply nodup_not_before in H. Qed.

Lemma around_next : list_next_entry mm h = hd HEAD l2.
Proof. apply (list_next_entry_split mm h pre l2); [apply Hok|done]. Qed.

Lemma around_chain :
  chain (link mm) pre h /\ link mm h (hd HEAD l2) /\ chain (link mm) l2 HEAD.
Proof.
  pose proof (ok_chain _ Hok) as H. rewrite Hring in H. apply chain_app in H as [H1 H2].
  simpl in *. tauto.
Qed.

Lemma around_hole :
  0 <= HOLE_SIZE mm h /\ HOLE_ADDR mm h + HOLE_SIZE mm h = START mm (hd HEAD l2) /\
  __drm_mm_hole_node_end mm h = HOLE_ADDR mm h + HOLE_SIZE mm h.
Proof.
  destruct around_chain as (_ & [H1 H2] & _).
  unfold __drm_mm_hole_node_end. rewrite around_next. fold (START mm (hd HEAD l2)). lia.
Qed.

Lemma around_after y : y ∈ l2 ++ [HEAD] -> HOLE_ADDR mm h + HOLE_SIZE mm h <= START mm y.
Proof.
  intros Hy. destruct around_hole as (_ & -> & _). destruct around_chain as (_ & _ & Hc).
  assert (forall i, i ∈ l2 -> node_ok mm i) as Hl2 by (intros; apply Hok, around_tail; done).
  destruct l2 as [|z l]; simpl in *; [apply list_elem_of_singleton in Hy as ->; lia|].
  apply elem_of_cons in Hy as [->|Hy]; [lia|].
  pose proof (chain_starts mm l z (ok_limit _ Hok) Hc ltac:(set_solver) y Hy) as Hz.
  destruct (Hl2 z ltac:(set_solver)).
  rewrite (HOLE_ADDR_node mm z (ok_limit _ Hok)) in Hz by set_solver. lia.
Qed.

Lemma around_limit : HOLE_ADDR mm h + HOLE_SIZE mm h <= START mm HEAD < 2 ^ 64.
Proof. split; [apply around_after; set_solver|]. apply Hok. Qed.

Lemma around_end_u64 :
  u64 (HOLE_ADDR mm h + HOLE_SIZE mm h) = HOLE_ADDR mm h + HOLE_SIZE mm h.
Proof.
  apply u64_small. pose proof around_limit. pose proof (HOLE_ADDR_range mm h).
  destruct around_hole as (? & _). unfold is_u64. lia.
Qed.

Lemma around_holes :
  0 < HOLE_SIZE mm h ->
  holes mm = filter (fun i => 0 < HOLE_SIZE mm i) pre ++ h :: filter (fun i => 0 < HOLE_SIZE mm i) l2.
Proof. intros H. unfold holes. rewrite Hring, filter_app, filter_cons_True; done. Qed.

End Around.

Lemma mm_addr_sorted mm : mm_ok mm -> addr_sorted mm (ring mm).
Proof. intros [? ? ? ? ? ? ? ? ?]. by apply chain_addr_sorted. Qed.

(** ** Linking into the interval tree *)

Section Raise.
Variable it_last : nat -> Z.

Lemma bump_path_id last p : forall g,
  aug_path (compute_subtree_last it_last) (Some g) p -> last <= g ->
  map (bump_frame last) p = p.
Proof.
  induction p as [|[c k x r|c l k x] p IHp]; intros g H Hg; simpl in *; [done| |];
    destruct H as (-> & Hr & Hp); rewrite compute_subtree_last_max in *.
  - assert (last <= omax (Some g) (omax (aug r) (it_last k))) as Hle by (simpl; lia).
    rewrite bump_max, Z.max_l by done. f_equal. by eapply IHp.
  - assert (last <= omax (aug l) (omax (Some g) (it_last k))) as Hle
      by (destruct (aug l); simpl; lia).
    rewrite bump_max, Z.max_l by done. f_equal. by eapply IHp.
Qed.

(** Stopping early changes nothing: an ancestor that reaches [last] has ancestors
    that do. *)
Lemma raise_path_bump last p : forall o,
  aug_path (compute_subtree_last it_last) o p -> raise_path last p = map (bump_frame last) p.
Proof.
  induction p as [|[c k g r|c l k g] p IHp]; intros o H; [done| |];
    cbn [raise_path map bump_frame]; destruct H as (_ & _ & Hp); rewrite bump_max;
    destruct (last <=? g) eqn:E.
  1,3: by rewrite (bump_path_id last p _ Hp), Z.max_l by lia.
  all: by erewrite IHp.
Qed.

End Raise.

(** The interval tree after linking [n] behind [h]. *)
Lemma interval_tree_add_ok mm h n pre l2 :
  mm_ok mm -> ring mm = pre ++ h :: l2 -> n ∉ ring mm ->
  (forall i, i ∈ l2 -> START mm n < START mm i) ->
  (forall i, i ∈ mm_node_list mm -> i ∈ pre ++ [h] -> START mm i <= START mm n) ->
  exists t, drm_mm_interval_tree_add_node h n (list_add_node n h mm) = Some t /\
    it_ok (START mm) (LAST mm) t /\ HEAD :: inorder (rb_root t) = pre ++ h :: n :: l2.
Proof.
  intros Hok Hr Hn Hafter Hbefore. pose proof (ok_it _ Hok) as Hit.
  pose proof (ok_it_list _ Hok) as Hil. pose proof (around_tail mm Hok h pre l2 Hr) as Htail.
  pose proof (ok_nodup _ Hok) as Hnd. rewrite Hr in Hnd, Hn.
  destruct Hit as [[m Hrb] Haug Hs Hitnd Hlm].
  set (go := fun k => START mm n <? START mm k).
  (* what linking at a bumped path gives *)
  assert (forall (P : list (frame nat Z)) (nl : bool),
    zipup Leaf P = rb_root (mm_interval_tree mm) ->
    HEAD :: before P = pre ++ [h] -> after P = l2 -> nl = bool_decide (before P = []) ->
    exists t, rb_insert_augmented_cached (LAST mm) n (map (bump_frame (LAST mm n)) P) nl
                (mm_interval_tree mm) = Some t /\
      it_ok (START mm) (LAST mm) t /\ HEAD :: inorder (rb_root t) = pre ++ h :: n :: l2) as Hmain.
  { intros P nl Hz Hb Ha Hnl.
    assert (HEAD :: before P ++ n :: after P = pre ++ h :: n :: l2) as Hseq.
    { rewrite app_comm_cons, Hb, Ha. by app_norm. }
    assert (mm_node_list mm = before P ++ after P) as Hlist.
    { rewrite <- Hil, <- Hz, inorder_zip. done. }
    rewrite <- Hz in Hrb, Haug. apply rb_zip_inv in Hrb as (c & m' & Hl & Hp).
    inversion Hl; subst c m'. apply aug_ok_zip_inv in Haug as [_ Haug].
    edestruct (rb_insert_augmented_cached_ok (START mm) (LAST mm) n
      (map (bump_frame (LAST mm n)) P) nl (mm_interval_tree mm)) as (t & E & Hokt & Hi).
    - eapply rb_path_sim; [apply bump_sim|done].
    - by apply (bump_path_aug _ _ _ None).
    - rewrite bump_before, bump_after.
      rewrite Hil, Hlist in Hs. apply key_sorted_app_inv in Hs as Hs'. destruct Hs' as [Hs1 Hs2].
      rewrite <- (insert_by_between (START mm)).
      + by apply insert_by_sorted.
      + apply Forall_forall. intros i Hi. apply Hbefore; [rewrite Hlist; apply elem_of_app; by left|].
        rewrite <- Hb. by right.
      + apply Forall_forall. intros i Hi. apply Hafter. by rewrite <- Ha.
    - rewrite bump_before, bump_after.
      assert (NoDup (HEAD :: before P ++ n :: after P)) as Hnd'.
      { rewrite Hseq. by apply NoDup_insert_after. }
      by apply NoDup_cons in Hnd' as [_ ?].
    - rewrite bump_before, Hnl, Hlm, Hil, Hlist. case_bool_decide; [done|].
      split; [|done]. by destruct (before P).
    - exists t. rewrite bump_before, bump_after in Hi. split_and!; [done|done|].
      by rewrite Hi, Hseq. }
  unfold drm_mm_interval_tree_add_node, insert_walk.
  change (node_of (list_add_node n h mm)) with (node_of mm).
  change (LAST (list_add_node n h mm)) with (LAST mm).
  change (START (list_add_node n h mm)) with (START mm).
  change (mm_interval_tree (list_add_node n h mm)) with (mm_interval_tree mm).
  fold go.
  assert (h ∈ mm_node_list mm \/ h = HEAD) as [Hh| ->].
  { assert (h ∈ ring mm) as Hh by (rewrite Hr; apply elem_of_app; right; by left).
    apply elem_of_cons in Hh. tauto. }
  - rewrite (no_allocated _ _ (ok_node _ Hok h Hh)).
    destruct (locate_same h (rb_root (mm_interval_tree mm))) as (c & l & g & r & p & -> & Hz);
      [by rewrite Hil|].
    assert (pre ++ h :: l2 = (HEAD :: before p ++ inorder l) ++ h :: inorder r ++ after p) as Hsplit.
    { rewrite <- Hr. unfold ring. rewrite <- Hil, <- Hz, inorder_zip. by app_norm. }
    destruct (nodup_middle_inj _ _ _ _ _ Hsplit Hnd) as [Hpre Hl2].
    assert (Forall (fun k => go k = true) (inorder r)) as Hgo.
    { apply Forall_forall. intros k Hk. unfold go. apply Z.ltb_lt, Hafter. rewrite Hl2.
      apply elem_of_app. by left. }
    destruct (descend_split go r [] [] (inorder r)) as [Hdb Hda]; [done|constructor|done|].
    destruct (descend_split go r (InRight c l h g :: p) [] (inorder r)) as [Hdb' Hda'];
      [done|constructor|done|].
    rewrite !app_nil_r, (proj2 (all_left_before _)) by (by rewrite bump_before, Hdb).
    rewrite raise_path_bump with (it_last := LAST mm) (o := aug r).
    2:{ rewrite <- Hz in Haug. apply aug_ok_zip_inv in Haug as [(? & ? & ?) ?]. simpl. auto. }
    rewrite <- map_app, <- descend_app. simpl.
    apply Hmain.
    + by rewrite descend_zip.
    + rewrite Hdb', Hpre. simpl. by app_norm.
    + by rewrite Hda', Hl2.
    + rewrite bool_decide_eq_false_2; [done|]. rewrite Hdb'. simpl. rewrite app_nil_r.
      intros [_ [_ ?]%app_nil]%app_nil. done.
  - rewrite (ok_head _ Hok).
    assert (pre = [] /\ l2 = mm_node_list mm) as [-> ->].
    { destruct pre as [|x pre']; [unfold ring in Hr; by simplify_eq/=|].
      exfalso. unfold ring in Hr. simplify_eq/=. apply NoDup_cons in Hnd as [Hnd _]. apply Hnd.
      apply elem_of_app. right. by left. }
    destruct (descend_split go (rb_root (mm_interval_tree mm)) [] [] (mm_node_list mm)) as [Hdb Hda];
      [done|constructor|by apply Forall_forall; intros; apply Z.ltb_lt, Hafter|].
    simpl in Hdb. rewrite app_nil_r in Hda. rewrite app_nil_r.
    apply Hmain; [by rewrite descend_zip|by rewrite Hdb|done|by rewrite Hdb].
Qed.

(** ** Linking a node: the state after each step *)

Lemma filter_iff_in {A} (P Q : A -> Prop) `{!forall x, Decision (P x)} `{!forall x, Decision (Q x)} (l : list A) :
  (forall x, x ∈ l -> P x <-> Q x) -> filter P l = filter Q l.
Proof.
  induction l as [|x l IHl]; intros HPQ; [done|].
  rewrite !filter_cons, IHl by (intros; apply HPQ; by right).
  specialize (HPQ x ltac:(by left)). repeat case_decide; tauto.
Qed.

Lemma holes_ok_ext mm mm' S :
  mm_holes_addr mm' = mm_holes_addr mm -> mm_holes_size mm' = mm_holes_size mm ->
  mm_hole_stack mm' = mm_hole_stack mm ->
  (forall i, i ∈ S -> HOLE_SIZE mm' i = HOLE_SIZE mm i) -> holes_ok mm S -> holes_ok mm' S.
Proof.
  intros Ea Es Ek Hsz [H1 H2 H3 H4 H5 H6].
  constructor; rewrite ?Ea, ?Es, ?Ek; auto.
  eapply key_sorted_ext; [|exact H4]. intros k Hk. symmetry. apply Hsz. by rewrite <- H5.
Qed.

Lemma hole_seg_filter (mm : drm_mm) h :
  filter (fun i => 0 < HOLE_SIZE mm i) [h] = hole_seg h (HOLE_SIZE mm h).
Proof.
  unfold hole_seg. rewrite filter_cons, filter_nil. case_decide; case_match; try done; lia.
Qed.

Lemma addr_sorted_insert mm pre h n l2 :
  addr_sorted mm (pre ++ h :: l2) -> HOLE_ADDR mm h < HOLE_ADDR mm n ->
  (forall y, y ∈ l2 -> HOLE_ADDR mm n < HOLE_ADDR mm y) -> addr_sorted mm (pre ++ h :: n :: l2).
Proof.
  intros Hs Hn Hl. apply addr_sorted_app in Hs as (H1 & H2 & H3).
  apply addr_sorted_cons_inv in H2 as [H2 Hh].
  apply addr_sorted_app. split_and!; [done| |].
  - constructor; [constructor; [done|by apply Forall_forall]|]. constructor; [done|done].
  - intros x y Hx Hy. assert (HOLE_ADDR mm x < HOLE_ADDR mm h) by (apply H3; [done|by left]).
    apply elem_of_cons in Hy as [->|[->|Hy]%elem_of_cons]; [lia|lia|].
    apply H3; [done|by right].
Qed.

(** The state once [n] is in the list and the interval tree, before the holes are
    updated. *)
Section LinkNode.
Context (mm : drm_mm) (Hok : mm_ok mm) (h n : nat) (pre l2 : list nat).
Hypothesis Hring : ring mm = pre ++ h :: l2.
Hypothesis Hn : n ∉ ring mm.
Hypothesis Hhole : 0 < HOLE_SIZE mm h.
Hypothesis Hsize : 0 < nd_size (node_of mm n).
Hypothesis Hlo : HOLE_ADDR mm h <= START mm n.
Hypothesis Hhi : START mm n + nd_size (node_of mm n) <= HOLE_ADDR mm h + HOLE_SIZE mm h.
Hypothesis Hscan : nd_scanned_block (node_of mm n) = false.


Lemma link_addr_n : HOLE_ADDR mm n = START mm n + nd_size (node_of mm n).
Proof.
  unfold HOLE_ADDR, __drm_mm_hole_node_start. fold (START mm n). apply u64_small.
  pose proof (around_limit mm Hok h pre l2 Hring). pose proof (HOLE_ADDR_range mm h).
  unfold is_u64. lia.
Qed.

Lemma link_after y : y ∈ l2 -> START mm n < START mm y /\ HOLE_ADDR mm n < HOLE_ADDR mm y.
Proof.
  intros Hy.
  pose proof (around_after mm Hok h pre l2 Hring y ltac:(apply elem_of_app; by left)).
  assert (node_ok mm y) as Hy' by (apply Hok; by apply (around_tail mm Hok h pre l2 Hring)).
  rewrite (HOLE_ADDR_node mm y (ok_limit _ Hok) Hy'), link_addr_n. destruct Hy'. lia.
Qed.

Lemma link_before i : i ∈ mm_node_list mm -> i ∈ pre ++ [h] -> START mm i <= START mm n.
Proof.
  intros Hi Hp. pose proof (ok_node _ Hok i Hi) as Hni.
  pose proof (HOLE_ADDR_node mm i (ok_limit _ Hok) Hni) as Hai. destruct Hni.
  pose proof (mm_addr_sorted mm Hok) as Hs. rewrite Hring in Hs.
  apply addr_sorted_app in Hs as (_ & _ & Hs).
  apply elem_of_app in Hp as [Hp|Hp%list_elem_of_singleton].
  - specialize (Hs i h Hp ltac:(by left)). lia.
  - subst. lia.
Qed.

Lemma link_sorted : addr_sorted mm (pre ++ h :: n :: l2).
Proof.
  apply addr_sorted_insert.
  - rewrite <- Hring. by apply mm_addr_sorted.
  - rewrite link_addr_n. lia.
  - intros y Hy. by apply link_after.
Qed.

Lemma link_ne : n <> h /\ (n ∉ pre) /\ (n ∉ l2).
Proof.
  rewrite Hring in Hn. apply not_elem_of_app in Hn as [? Hx].
  apply not_elem_of_cons in Hx as [? ?]. done.
Qed.

(** The three hole updates of [link_node] on any state with the new list. *)
Lemma link_holes mm3 :
  same_layout mm mm3 -> ring mm3 = pre ++ h :: n :: l2 ->
  (forall i, i <> n -> HOLE_SIZE mm3 i = HOLE_SIZE mm i) -> HOLE_SIZE mm3 n = 0 ->
  mm_holes_addr mm3 = mm_holes_addr mm -> mm_holes_size mm3 = mm_holes_size mm ->
  mm_hole_stack mm3 = mm_hole_stack mm ->
  exists mm4 mm5 mm6,
    rm_hole h mm3 = Some mm4 /\
    (if HOLE_ADDR mm h <? START mm n then add_hole h mm4 else Some mm4) = Some mm5 /\
    (if HOLE_ADDR mm n <? HOLE_ADDR mm h + HOLE_SIZE mm h then add_hole n mm5 else Some mm5)
      = Some mm6 /\
    upd_hole mm3 mm4 h 0 /\ upd_hole mm4 mm5 h (START mm n - HOLE_ADDR mm h) /\
    upd_hole mm5 mm6 n (HOLE_ADDR mm h + HOLE_SIZE mm h - HOLE_ADDR mm n) /\
    holes_ok mm6 (filter (fun i => 0 < HOLE_SIZE mm i) pre ++ hole_seg h (START mm n - HOLE_ADDR mm h) ++
                  hole_seg n (HOLE_ADDR mm h + HOLE_SIZE mm h - HOLE_ADDR mm n) ++ filter (fun i => 0 < HOLE_SIZE mm i) l2).
Proof.
  intros Hlay Hr3 Hsz Hszn Ea Es Ek.
  destruct link_ne as (Hnh & Hnp & Hnl).
  destruct (around_nodup mm Hok h pre l2 Hring) as [Hhp Hhl].
  pose proof (around_limit mm Hok h pre l2 Hring) as Hlim.
  pose proof (HOLE_ADDR_range mm h) as Hrange. pose proof link_addr_n as Han.
  pose proof link_sorted as Hsort.
  set (P := filter (fun i => 0 < HOLE_SIZE mm i) pre). set (L := filter (fun i => 0 < HOLE_SIZE mm i) l2).
  assert (P `sublist_of` pre) as HP by apply sublist_filter.
  assert (L `sublist_of` l2) as HL by apply sublist_filter.
  assert (NoDup (ring mm3)) as Hnd3.
  { rewrite Hr3. by eapply addr_sorted_NoDup. }
  assert (holes_ok mm3 (P ++ h :: L)) as H3.
  { apply (holes_ok_ext mm mm3); auto.
    - intros i Hi. apply Hsz. intros ->. apply elem_of_app in Hi as [Hi|[->|Hi]%elem_of_cons]; [| done |].
      + by eapply Hnp, elem_of_sublist.
      + by eapply Hnl, elem_of_sublist.
    - unfold P, L. rewrite <- (around_holes mm h pre l2 Hring Hhole). apply Hok. }
  assert (addr_sorted mm (P ++ h :: n :: L)) as HsortPL.
  { eapply addr_sorted_sublist; [|exact Hsort]. apply sublist_app; [done|]. by do 2 constructor. }
  destruct (rm_hole_upd mm3 h P L H3) as (mm4 & E4 & U4 & H4).
  { eapply addr_sorted_NoDup, addr_sorted_sublist; [|exact HsortPL].
    apply sublist_app; [done|]. constructor. by constructor. }
  assert (ring mm4 = pre ++ h :: n :: l2) as Hr4 by (by rewrite (upd_hole_ring _ _ _ _ U4)).
  assert (same_layout mm mm4) as Hlay4 by (etrans; [exact Hlay|by eapply upd_hole_layout]).
  destruct (opt_add_hole_upd mm4 h P L (START mm n - HOLE_ADDR mm h)
    (HOLE_ADDR mm h <? START mm n)) as (mm5 & E5 & U5 & H5).
  { done. }
  { eapply (layout_addr_sorted mm); [done|]. eapply addr_sorted_sublist; [|exact HsortPL].
    apply sublist_app; [done|]. constructor. by constructor. }
  { rewrite (upd_hole_size _ _ _ _ h U4). by rewrite decide_True. }
  { fold (HOLE_ADDR mm4 h). rewrite (layout_HOLE_ADDR mm mm4) by done.
    rewrite (upd_hole_end _ _ _ _ h U4). unfold __drm_mm_hole_node_end.
    rewrite (list_next_entry_split mm3 h pre (n :: l2)) by done. simpl.
    fold (START mm3 n). by rewrite (sl_start _ _ Hlay). }
  { lia. }
  { destruct (HOLE_ADDR mm h <? START mm n) eqn:?; lia. }
  assert (same_layout mm mm5) as Hlay5 by (etrans; [exact Hlay4|by eapply upd_hole_layout]).
  assert (HOLE_SIZE mm5 n = 0) as Hz5.
  { rewrite (upd_hole_size _ _ _ _ n U5), decide_False by done.
    rewrite (upd_hole_size _ _ _ _ n U4), decide_False by done. done. }
  destruct (around_hole mm Hok h pre l2 Hring) as (_ & Hend & _).
  rewrite app_assoc in H5.
  destruct (opt_add_hole_upd mm5 n (P ++ hole_seg h (START mm n - HOLE_ADDR mm h)) L
    (HOLE_ADDR mm h + HOLE_SIZE mm h - HOLE_ADDR mm n)
    (HOLE_ADDR mm n <? HOLE_ADDR mm h + HOLE_SIZE mm h)) as (mm6 & E6 & U6 & H6); auto.
  { eapply (layout_addr_sorted mm); [done|]. eapply addr_sorted_sublist; [|exact HsortPL].
    rewrite <- app_assoc. apply sublist_app; [done|].
    unfold hole_seg. destruct (0 <? _); simpl; [reflexivity|]. apply sublist_cons. reflexivity. }
  { fold (HOLE_ADDR mm5 n). rewrite (layout_HOLE_ADDR mm mm5), Hend by done. f_equal.
    unfold __drm_mm_hole_node_end.
    rewrite (list_next_entry_split mm5 n (pre ++ [h]) l2).
    - by rewrite <- (sl_start _ _ Hlay5).
    - rewrite (upd_hole_ring _ _ _ _ U5), Hr4. by eapply addr_sorted_NoDup.
    - rewrite (upd_hole_ring _ _ _ _ U5), Hr4. by app_norm. }
  { lia. }
  { destruct (HOLE_ADDR mm n <? _) eqn:?; lia. }
  exists mm4, mm5, mm6. split_and!; auto. by rewrite <- app_assoc in H6.
Qed.

(** The state just before the holes are updated. *)
Definition linked (t : rb_root_cached nat) : drm_mm :=
  set_node n (with_hole_size 0 (with_allocated true (node_of mm n)))
    (set_interval_tree t (list_add_node n h mm)).

Lemma linked_node t i :
  node_of (linked t) i =
  if decide (n = i) then with_hole_size 0 (with_allocated true (node_of mm n)) else node_of mm i.
Proof. unfold linked. by rewrite node_of_set_node. Qed.

Lemma linked_layout t : same_layout mm (linked t).
Proof. constructor; intros i; unfold START; rewrite linked_node; by case_decide; subst. Qed.

(** A state with the list, the interval tree and the holes updated is valid. *)
Lemma link_mm_ok t mm' :
  it_ok (START mm) (LAST mm) t -> HEAD :: inorder (rb_root t) = pre ++ h :: n :: l2 ->
  same_layout mm mm' -> ring mm' = pre ++ h :: n :: l2 -> mm_interval_tree mm' = t ->
  mm_scan_active mm' = 0 ->
  (forall i, nd_allocated (node_of mm' i) = if decide (n = i) then true else nd_allocated (node_of mm i)) ->
  (forall i, i <> n -> i <> h -> HOLE_SIZE mm' i = HOLE_SIZE mm i) ->
  HOLE_SIZE mm' h = START mm n - HOLE_ADDR mm h ->
  HOLE_SIZE mm' n = HOLE_ADDR mm h + HOLE_SIZE mm h - HOLE_ADDR mm n ->
  holes_ok mm' (filter (fun i => 0 < HOLE_SIZE mm i) pre ++ hole_seg h (HOLE_SIZE mm' h) ++
                hole_seg n (HOLE_SIZE mm' n) ++ filter (fun i => 0 < HOLE_SIZE mm i) l2) ->
  mm_ok mm'.
Proof.
  intros Hit Htl Hlay Hr Et Hsc Hal Hsz Hszh Hszn Hho.
  destruct link_ne as (Hnh & Hnp & Hnl).
  destruct (around_nodup mm Hok h pre l2 Hring) as [Hhp Hhl].
  pose proof (around_limit mm Hok h pre l2 Hring) as Hlim. pose proof link_addr_n as Han.
  pose proof (HOLE_ADDR_range mm h) as Hrange.
  assert (HEAD <> n) as HnH by (intros <-; apply Hn; by left).
  assert (forall i, i ∈ pre \/ i ∈ l2 -> HOLE_SIZE mm' i = HOLE_SIZE mm i) as Hsz'.
  { intros i [Hi|Hi]; apply Hsz; intros ->; done. }
  assert (forall i, i ∈ pre \/ i ∈ l2 -> forall j, link mm i j -> link mm' i j) as Hlink.
  { intros i Hi j [? ?]. unfold link.
    rewrite (layout_HOLE_ADDR mm mm'), (sl_start _ _ Hlay), Hsz' by done. done. }
  destruct (around_chain mm Hok h pre l2 Hring) as (Hc1 & [Hc2 Hc2'] & Hc3).
  constructor.
  - rewrite Hal, decide_False by done. apply Hok.
  - rewrite (sl_start _ _ Hlay). apply Hok.
  - intros i Hi. assert (i ∈ pre ++ h :: n :: l2) as Hi' by (rewrite <- Hr; by right).
    destruct (decide (n = i)) as [<-|Hni].
    + constructor; rewrite ?Hal, ?(sl_scanned _ _ Hlay), ?(sl_start _ _ Hlay), ?(sl_size _ _ Hlay);
        [by rewrite decide_True|done|lia|done|lia].
    + assert (i ∈ mm_node_list mm) as Him.
      { assert (i ∈ ring mm) as Hir.
        { rewrite Hring. apply elem_of_app in Hi' as [?|[->|[->|?]%elem_of_cons]%elem_of_cons];
            [apply elem_of_app; by left|apply elem_of_app; right; by left|done|].
          apply elem_of_app; right; by right. }
        apply elem_of_cons in Hir as [->|?]; [|done]. exfalso.
        assert (NoDup (ring mm')) as Hnd by (rewrite Hr; eapply addr_sorted_NoDup, link_sorted).
        apply NoDup_cons in Hnd as [Hnd _]. done. }
      destruct (ok_node _ Hok i Him).
      constructor; rewrite ?Hal, ?(sl_scanned _ _ Hlay), ?(sl_start _ _ Hlay), ?(sl_size _ _ Hlay);
        rewrite ?decide_False by done; done.
  - rewrite Hr. eapply addr_sorted_NoDup, link_sorted.
  - rewrite Hr. apply chain_app. split; [|split; [|split]].
    + eapply chain_impl; [|exact Hc1]. intros x y Hx _. apply Hlink. by left.
    + unfold link. simpl. rewrite (layout_HOLE_ADDR mm mm'), (sl_start _ _ Hlay), Hszh by done. lia.
    + unfold link. rewrite (layout_HOLE_ADDR mm mm'), (sl_start _ _ Hlay), Hszn by done. lia.
    + eapply chain_impl; [|exact Hc3]. intros x y Hx _. apply Hlink. by right.
  - unfold holes. rewrite Hr.
    replace (pre ++ h :: n :: l2) with (pre ++ [h] ++ [n] ++ l2) by done.
    rewrite !filter_app, !hole_seg_filter.
    rewrite (filter_iff_in _ (fun i => 0 < HOLE_SIZE mm i) pre) by (intros; rewrite Hsz'; tauto).
    rewrite (filter_iff_in _ (fun i => 0 < HOLE_SIZE mm i) l2) by (intros; rewrite Hsz'; tauto).
    done.
  - rewrite Et. eapply it_ok_ext; [|exact Hit]. intros k _.
    by rewrite (sl_start _ _ Hlay), (layout_LAST mm mm').
  - rewrite Et. rewrite <- Hr in Htl. by injection Htl.
  - done.
Qed.

Lemma link_node_ok :
  exists mm', link_node h n (HOLE_ADDR mm h) (HOLE_ADDR mm h + HOLE_SIZE mm h) mm = Some mm' /\
    mm_ok mm' /\ ring mm' = pre ++ h :: n :: l2 /\ same_layout mm mm' /\
    mm_color_adjust mm' = mm_color_adjust mm /\
    (forall i, nd_allocated (node_of mm' i) = if decide (n = i) then true else nd_allocated (node_of mm i)).
Proof.
  destruct (interval_tree_add_ok mm h n pre l2 Hok Hring Hn) as (t & Et & Hit & Htl).
  { intros i Hi. by apply link_after. }
  { apply link_before. }
  destruct link_ne as (Hnh & Hnp & Hnl).
  assert (ring (linked t) = pre ++ h :: n :: l2) as Hr3.
  { change (ring (linked t)) with (ring (list_add_node n h mm)).
    apply ring_list_add; [apply Hok|done]. }
  destruct (link_holes (linked t)) as (mm4 & mm5 & mm6 & E4 & E5 & E6 & U4 & U5 & U6 & H6);
    try done.
  { apply linked_layout. }
  { intros i Hi. unfold HOLE_SIZE. by rewrite linked_node, decide_False. }
  { unfold HOLE_SIZE. by rewrite linked_node, decide_True. }
  assert (same_layout mm mm6) as Hlay6.
  { etrans; [apply (linked_layout t)|]. etrans; [eapply upd_hole_layout; exact U4|].
    etrans; eapply upd_hole_layout; eassumption. }
  assert (forall i, HOLE_SIZE mm6 i =
    if decide (n = i) then HOLE_ADDR mm h + HOLE_SIZE mm h - HOLE_ADDR mm n
    else if decide (h = i) then START mm n - HOLE_ADDR mm h else HOLE_SIZE mm i) as Hsz6.
  { intros i. rewrite (upd_hole_size _ _ _ _ i U6). case_decide as Hi; [done|].
    rewrite (upd_hole_size _ _ _ _ i U5). case_decide; [done|].
    rewrite (upd_hole_size _ _ _ _ i U4), decide_False by done.
    unfold HOLE_SIZE. by rewrite linked_node, decide_False. }
  assert (ring mm6 = pre ++ h :: n :: l2) as Hr6.
  { by rewrite (upd_hole_ring _ _ _ _ U6), (upd_hole_ring _ _ _ _ U5), (upd_hole_ring _ _ _ _ U4). }
  assert (forall i, nd_allocated (node_of mm6 i) =
    if decide (n = i) then true else nd_allocated (node_of mm i)) as Hal6.
  { intros i. rewrite (upd_hole_allocated _ _ _ _ i U6), (upd_hole_allocated _ _ _ _ i U5),
      (upd_hole_allocated _ _ _ _ i U4), linked_node. by case_decide. }
  exists mm6. split_and!; auto.
  - unfold link_node. rewrite Et. cbn [mbind option_bind].
    change (set_node n _ (set_interval_tree t (list_add_node n h mm))) with (linked t).
    assert (nd_start (node_of (linked t) n) = START mm n) as -> by apply (sl_start _ _ (linked_layout t)).
    rewrite (sl_size _ _ (linked_layout t)).
    change (u64 (START mm n + nd_size (node_of mm n))) with (HOLE_ADDR mm n).
    rewrite E4. cbn [mbind option_bind]. rewrite E5. cbn [mbind option_bind]. exact E6.
  - apply (link_mm_ok t); auto.
    + by rewrite (uh_it _ _ _ _ U6), (uh_it _ _ _ _ U5), (uh_it _ _ _ _ U4).
    + rewrite (uh_scan _ _ _ _ U6), (uh_scan _ _ _ _ U5), (uh_scan _ _ _ _ U4). apply Hok.
    + intros i ? ?. by rewrite Hsz6, !decide_False.
    + by rewrite Hsz6, decide_False, decide_True.
    + by rewrite Hsz6, decide_True.
    + rewrite !Hsz6, decide_False, !decide_True by done. done.
  - by rewrite (uh_color _ _ _ _ U6), (uh_color _ _ _ _ U5), (uh_color _ _ _ _ U4).
Qed.

End LinkNode.
