(* ===== verification/MmSearch.v ===== *)
(** * The range allocator: how the searches enumerate holes

    [first_hole]/[next_hole] walk one of three structures, depending on the mode.
    This file shows that each walk visits a duplicate-free sequence of recorded
    holes and that every hole it leaves out is useless to the search, so that the
    loops of [drm_mm.c] can be reasoned about as recursion over a list. *)

From S2P Require Import Prelude RbTree IntervalTree Mm MmFacts.
From stdpp Require Import base gmap list option sets sorting.
From Stdlib Require Import ZArith Lia.

#[local] Set Warnings "-clear-no-such-hyp".
#[local] Open Scope Z_scope.

(** ** Best fit: the first hole of the size tree that is large enough *)

Lemma best_hole_walk_spec mm size t : forall best,
  key_sorted (HOLE_SIZE mm) (inorder t) ->
  exists a b, inorder t = a ++ b /\ (forall x, x ∈ a -> HOLE_SIZE mm x < size) /\
    (forall x, x ∈ b -> size <= HOLE_SIZE mm x) /\
    best_hole_walk mm size t best = match head b with Some x => Some x | None => best end.
Proof.
  induction t as [|c l IHl k g r IHr]; intros best Hs; simpl.
  { exists [], []. split_and!; try done; intros x Hx; inversion Hx. }
  simpl in Hs. apply StronglySorted_app in Hs as (Hlk & Hl & Hr).
  apply StronglySorted_inv in Hr as [Hr Hk]. rewrite Forall_forall in Hk.
  destruct (size <=? HOLE_SIZE mm k) eqn:E.
  - destruct (IHl (Some k) Hl) as (a & b & Hab & Ha & Hb & ->).
    exists a, (b ++ k :: inorder r). rewrite Hab. split_and!; [by app_norm|done| |].
    + intros x [Hx|[->|Hx]%elem_of_cons]%elem_of_app; [auto|lia|]. specialize (Hk x Hx). lia.
    + destruct b; done.
  - destruct (IHr best Hr) as (a & b & Hab & Ha & Hb & ->).
    exists (inorder l ++ k :: a), b. rewrite Hab. split_and!; [by app_norm| |done|done].
    intros x [Hx|[->|Hx]%elem_of_cons]%elem_of_app; [|lia|auto].
    specialize (Hlk x k Hx ltac:(by left)). simpl in Hlk. lia.
Qed.

(** ** By address: the last node [find_hole] visits separates the holes *)

Lemma find_hole_walk_spec mm addr t : forall node A B,
  (forall x, x ∈ A -> u64 (HOLE_ADDR mm x + HOLE_SIZE mm x) < addr) ->
  (forall x, x ∈ B -> addr < HOLE_ADDR mm x) ->
  addr_sorted mm (inorder t) ->
  (forall x y, x ∈ inorder t -> y ∈ inorder t -> HOLE_ADDR mm x < HOLE_ADDR mm y ->
     u64 (HOLE_ADDR mm x + HOLE_SIZE mm x) < HOLE_ADDR mm y) ->
  (forall x, x ∈ inorder t -> HOLE_ADDR mm x <= u64 (HOLE_ADDR mm x + HOLE_SIZE mm x)) ->
  match node with
  | Some k => last A = Some k \/ head B = Some k
  | None => A = [] /\ B = []
  end ->
  match find_hole_walk mm addr t node with
  | Some k => exists a b, A ++ inorder t ++ B = a ++ k :: b /\
      (forall x, x ∈ a -> u64 (HOLE_ADDR mm x + HOLE_SIZE mm x) < addr) /\
      (forall x, x ∈ b -> addr < HOLE_ADDR mm x)
  | None => A ++ inorder t ++ B = []
  end.
Proof.
  induction t as [|c l IHl k g r IHr]; intros node A B HA HB Hs Hd Hpos Hnode; simpl.
  - destruct node as [k|]; [|by destruct Hnode as [-> ->]]. destruct Hnode as [HlA|HhB].
    + apply last_Some in HlA as [A' ->]. exists A', B. split_and!; [by app_norm| |done].
      intros x Hx. apply HA. apply elem_of_app. by left.
    + destruct B as [|k' B]; [done|]. simplify_eq/=. exists A, B. split_and!; [done|done|].
      intros x Hx. apply HB. by right.
  - simpl in Hs. fold (HOLE_ADDR mm k). simpl in Hd, Hpos.
    apply addr_sorted_app in Hs as (Hl & Hr & Hlk). apply addr_sorted_cons_inv in Hr as [Hr Hk].
    rewrite Forall_forall in Hk.
    assert (forall x, x ∈ inorder l -> u64 (HOLE_ADDR mm x + HOLE_SIZE mm x) < HOLE_ADDR mm k) as Hdl.
    { intros x Hx. apply Hd; [apply elem_of_app; by left|apply elem_of_app; right; by left|].
      apply Hlk; [done|by left]. }
    assert (forall x, x ∈ inorder r -> u64 (HOLE_ADDR mm k + HOLE_SIZE mm k) < HOLE_ADDR mm x) as Hdr.
    { intros x Hx. apply Hd; [apply elem_of_app; right; by left|apply elem_of_app; right; by right|].
      by apply Hk. }
    assert (HOLE_ADDR mm k <= u64 (HOLE_ADDR mm k + HOLE_SIZE mm k)) as Hpk
      by (apply Hpos, elem_of_app; right; by left).
    assert (forall x, x ∈ inorder l -> x ∈ inorder l ++ k :: inorder r) as Hinl
      by (intros; apply elem_of_app; by left).
    assert (forall x, x ∈ inorder r -> x ∈ inorder l ++ k :: inorder r) as Hinr
      by (intros; apply elem_of_app; right; by right).
    destruct (addr <? HOLE_ADDR mm k) eqn:E1; [|destruct (u64 _ <? addr) eqn:E2].
    + specialize (IHl (Some k) A (k :: inorder r ++ B)). app_norm. apply IHl; auto.
      intros x [->|[Hx|Hx]%elem_of_app]%elem_of_cons; [lia| |auto].
      specialize (Hk x Hx). simpl in Hk. lia.
    + specialize (IHr (Some k) (A ++ inorder l ++ [k]) B).
      replace (A ++ (inorder l ++ k :: inorder r) ++ B)
        with ((A ++ inorder l ++ [k]) ++ inorder r ++ B) by by app_norm.
      apply IHr; auto.
      * intros x [Hx|[Hx| ->%list_elem_of_singleton]%elem_of_app]%elem_of_app; [auto| |lia].
        specialize (Hdl x Hx). lia.
      * left. by rewrite app_assoc, last_snoc.
    + exists (A ++ inorder l), (inorder r ++ B). split_and!; [by app_norm| |].
      * intros x [Hx|Hx]%elem_of_app; [auto|]. specialize (Hdl x Hx). lia.
      * intros x [Hx|Hx]%elem_of_app; [|auto]. specialize (Hdr x Hx). lia.
Qed.

Section Search.
Context (mm : drm_mm) (Hok : mm_ok mm).

Lemma holes_elem h : h ∈ holes mm <-> h ∈ ring mm /\ 0 < HOLE_SIZE mm h.
Proof. unfold holes. rewrite list_elem_of_filter. tauto. Qed.

(** The end of a recorded hole does not wrap. *)
Definition hole_end (h : nat) : Z := HOLE_ADDR mm h + HOLE_SIZE mm h.

Lemma hole_end_u64 h :
  h ∈ holes mm -> u64 (HOLE_ADDR mm h + HOLE_SIZE mm h) = hole_end h /\ HOLE_ADDR mm h < hole_end h.
Proof.
  intros [Hh Hp]%holes_elem. destruct (ring_split mm h Hh) as (pre & l2 & Hr).
  rewrite (around_end_u64 mm Hok h pre l2 Hr). unfold hole_end. lia.
Qed.

Lemma holes_sorted : addr_sorted mm (holes mm).
Proof. eapply addr_sorted_sublist; [apply sublist_filter|by apply mm_addr_sorted]. Qed.

(** Two holes are separated by at least one allocated byte. *)
Lemma holes_apart x y :
  x ∈ holes mm -> y ∈ holes mm -> HOLE_ADDR mm x < HOLE_ADDR mm y -> hole_end x < HOLE_ADDR mm y.
Proof.
  intros [Hx Hpx]%holes_elem [Hy Hpy]%holes_elem Hlt.
  destruct (ring_split mm x Hx) as (pre & l2 & Hr).
  pose proof (mm_addr_sorted mm Hok) as Hs. rewrite Hr in Hs.
  apply addr_sorted_app in Hs as (_ & Hs & Hb).
  rewrite Hr in Hy. apply elem_of_app in Hy as [Hy|[->|Hy]%elem_of_cons]; [|lia|].
  - specialize (Hb y x Hy ltac:(by left)). lia.
  - pose proof (around_after mm Hok x pre l2 Hr y ltac:(apply elem_of_app; by left)) as Ha.
    pose proof (around_tail mm Hok x pre l2 Hr y Hy) as Hin.
    rewrite (HOLE_ADDR_node mm y (ok_limit _ Hok) (ok_node _ Hok y Hin)).
    destruct (ok_node _ Hok y Hin). unfold hole_end. lia.
Qed.

Lemma find_hole_spec addr :
  match find_hole mm addr with
  | Some k => exists a b, holes mm = a ++ k :: b /\
      (forall x, x ∈ a -> hole_end x < addr) /\ (forall x, x ∈ b -> addr < HOLE_ADDR mm x)
  | None => holes mm = []
  end.
Proof.
  pose proof (ho_addr _ _ (ok_holes _ Hok)) as E. unfold find_hole.
  pose proof (find_hole_walk_spec mm addr (mm_holes_addr mm) None [] []) as H. rewrite E in H.
  simpl in H. rewrite app_nil_r in H.
  destruct (find_hole_walk mm addr (mm_holes_addr mm) None) as [k|].
  - destruct H as (a & b & Hab & Ha & Hb).
    + intros x Hx; inversion Hx.
    + intros x Hx; inversion Hx.
    + apply holes_sorted.
    + intros x y Hx Hy ?. rewrite (proj1 (hole_end_u64 x Hx)). by apply holes_apart.
    + intros x Hx. destruct (hole_end_u64 x Hx) as [-> ?]. lia.
    + done.
    + exists a, b. split_and!; [done| |done]. intros x Hx.
      rewrite <- (proj1 (hole_end_u64 x ltac:(rewrite Hab; apply elem_of_app; by left))). auto.
  - apply H; auto; try (intros x Hx; by inversion Hx).
    + apply holes_sorted.
    + intros x y Hx Hy ?. rewrite (proj1 (hole_end_u64 x Hx)). by apply holes_apart.
    + intros x Hx. destruct (hole_end_u64 x Hx) as [-> ?]. lia.
Qed.

(** ** The sequence of holes a search visits *)

Record visits (mode : drm_mm_insert_mode) (start end_ size : Z) (seq : list nat) : Prop := {
  vi_first : first_hole mm start end_ size mode = head seq;
  vi_next a h b : seq = a ++ h :: b -> next_hole mm h mode = head b;
  vi_nodup : NoDup seq;
  vi_holes h : h ∈ seq -> h ∈ holes mm;
  vi_complete h : h ∈ holes mm -> h ∉ seq ->
    HOLE_SIZE mm h < size \/ hole_end h < start \/ end_ < HOLE_ADDR mm h;
  vi_low a h b : mode = DRM_MM_INSERT_LOW -> seq = a ++ h :: b ->
    forall x, x ∈ b -> HOLE_ADDR mm h < HOLE_ADDR mm x;
  vi_high a h b : mode = DRM_MM_INSERT_HIGH -> seq = a ++ h :: b ->
    forall x, x ∈ b -> hole_end x < HOLE_ADDR mm h;
}.

Lemma holes_nodup : NoDup (holes mm).
Proof. eapply addr_sorted_NoDup, holes_sorted. Qed.

Lemma first_hole_nonempty start end_ size mode :
  first_hole mm start end_ size mode =
  match mode with
  | DRM_MM_INSERT_BEST => best_hole mm size
  | DRM_MM_INSERT_LOW => find_hole mm start
  | DRM_MM_INSERT_HIGH => find_hole mm end_
  | DRM_MM_INSERT_EVICT => head (mm_hole_stack mm)
  end.
Proof.
  unfold first_hole. destruct (mm_holes_size mm) eqn:E; [|done].
  destruct (ok_holes _ Hok) as [_ Ha _ _ Hsz Hst]. rewrite E in Hsz. simpl in Hsz.
  symmetry in Hsz. apply Permutation_nil_r in Hsz. rewrite Hsz in Ha, Hst.
  apply Permutation_nil_r in Hst. rewrite Hst. destruct (mm_holes_addr mm) eqn:Et; simpl in *.
  - unfold best_hole, find_hole. rewrite E, Et. by destruct mode.
  - by apply app_eq_nil in Ha as [_ ?].
Qed.

Lemma visits_best start end_ size : exists seq, visits DRM_MM_INSERT_BEST start end_ size seq.
Proof.
  destruct (ok_holes _ Hok) as [_ _ Hrb Hs Hsz _].
  destruct (best_hole_walk_spec mm size (mm_holes_size mm) None Hs) as (a & b & Hab & Ha & Hb & Hw).
  assert (NoDup (inorder (mm_holes_size mm))) as Hnd by (rewrite Hsz; apply holes_nodup).
  exists b. constructor; try done.
  - rewrite first_hole_nonempty. unfold best_hole. rewrite Hw. by destruct (head b).
  - intros a' h b' ->. simpl.
    eapply (rb_neighbours_spec (HOLE_ADDR mm) h (mm_holes_size mm) (a ++ a') b'); [|done].
    rewrite Hab. by app_norm.
  - rewrite Hab in Hnd. apply NoDup_app in Hnd. tauto.
  - intros h Hh. rewrite <- Hsz, Hab. apply elem_of_app. by right.
  - intros h Hh Hn. rewrite <- Hsz, Hab in Hh. apply elem_of_app in Hh as [Hh|Hh]; [|done].
    left. auto.
Qed.

Lemma next_in_stack_middle h a b : h ∉ a -> next_in_stack h (a ++ h :: b) = head b.
Proof.
  induction a as [|x a IHa]; intros Hn; simpl; [by rewrite decide_True|].
  apply not_elem_of_cons in Hn as [? ?]. rewrite decide_False by done. auto.
Qed.

Lemma visits_evict start end_ size : exists seq, visits DRM_MM_INSERT_EVICT start end_ size seq.
Proof.
  destruct (ok_holes _ Hok) as [_ _ _ _ _ Hst].
  assert (NoDup (mm_hole_stack mm)) as Hnd by (rewrite Hst; apply holes_nodup).
  exists (mm_hole_stack mm). constructor; try done.
  - by rewrite first_hole_nonempty.
  - intros a h b E. simpl. rewrite E in *. apply next_in_stack_middle.
    by apply nodup_not_before in Hnd as [? _].
  - intros h Hh. by rewrite <- Hst.
  - intros h Hh Hn. rewrite <- Hst in Hh. done.
Qed.

Lemma visits_low start end_ size : exists seq, visits DRM_MM_INSERT_LOW start end_ size seq.
Proof.
  destruct (ok_holes _ Hok) as [_ Hin _ _ _ _]. pose proof (find_hole_spec start) as Hf.
  pose proof holes_nodup as Hnd. pose proof holes_sorted as Hsrt.
  destruct (find_hole mm start) as [k|] eqn:E.
  - destruct Hf as (a & b & Hab & Ha & Hb). exists (k :: b). constructor; try done.
    + by rewrite first_hole_nonempty, E.
    + intros a' h b' Hk. simpl. eapply (rb_neighbours_spec (HOLE_ADDR mm) h _ (a ++ a') b'); rewrite Hin; [|done].
      rewrite Hab, Hk. by app_norm.
    + rewrite Hab in Hnd. apply NoDup_app in Hnd. tauto.
    + intros h Hh. rewrite Hab. apply elem_of_app. by right.
    + intros h Hh Hn. rewrite Hab in Hh. apply elem_of_app in Hh as [Hh|Hh]; [|done]. auto.
    + intros a' h b' _ Hk x Hx. rewrite Hab, Hk in Hsrt.
      apply addr_sorted_app in Hsrt as (_ & Hsrt & _). apply addr_sorted_app in Hsrt as (_ & Hsrt & _).
      apply addr_sorted_cons_inv in Hsrt as [_ Hf]. rewrite Forall_forall in Hf. by apply Hf.
  - exists []. constructor; try done; try (by intros [|]; intros).
    + by rewrite first_hole_nonempty, E.
    + constructor.
    + intros h Hh. inversion Hh.
    + intros h Hh. rewrite Hf in Hh. inversion Hh.
Qed.

Lemma visits_high start end_ size : exists seq, visits DRM_MM_INSERT_HIGH start end_ size seq.
Proof.
  destruct (ok_holes _ Hok) as [_ Hin _ _ _ _]. pose proof (find_hole_spec end_) as Hf.
  pose proof holes_nodup as Hnd. pose proof holes_sorted as Hsrt.
  destruct (find_hole mm end_) as [k|] eqn:E.
  - destruct Hf as (a & b & Hab & Ha & Hb).
    assert (forall a' h b', reverse (a ++ [k]) = a' ++ h :: b' ->
      holes mm = (reverse b' ++ h :: reverse a') ++ b) as Hrev.
    { intros a' h b' Hk. apply (f_equal reverse) in Hk.
      rewrite reverse_involutive, reverse_app, reverse_cons in Hk. rewrite Hab.
      replace (a ++ k :: b) with ((a ++ [k]) ++ b) by by app_norm. rewrite Hk. by app_norm. }
    assert (forall h, h ∈ reverse (a ++ [k]) <-> h ∈ a ++ [k]) as Hel by (intros; apply elem_of_reverse).
    exists (reverse (a ++ [k])). constructor; try done.
    + rewrite first_hole_nonempty, E, reverse_app. done.
    + intros a' h b' Hk. simpl. specialize (Hrev _ _ _ Hk).
      destruct (rb_neighbours_spec (HOLE_ADDR mm) h (mm_holes_addr mm) (reverse b') (reverse a' ++ b)) as [_ ->].
      * rewrite Hin, Hrev. by app_norm.
      * by rewrite Hin.
      * destruct b' as [|z b']; [done|]. by rewrite reverse_cons, last_snoc.
    + rewrite reverse_Permutation. rewrite Hab in Hnd.
      replace (a ++ k :: b) with ((a ++ [k]) ++ b) in Hnd by by app_norm.
      apply NoDup_app in Hnd. tauto.
    + intros h Hh. rewrite Hab. apply Hel in Hh. set_solver.
    + intros h Hh Hn. rewrite Hel in Hn. rewrite Hab in Hh. right; right. apply Hb. set_solver.
    + intros a' h b' _ Hk x Hx. specialize (Hrev _ _ _ Hk).
      assert (h ∈ holes mm) as Hh by (rewrite Hrev; set_solver).
      assert (x ∈ holes mm) as Hxh.
      { rewrite Hrev. apply elem_of_app; left. apply elem_of_app; left. by apply elem_of_reverse. }
      apply holes_apart; auto. rewrite Hrev in Hsrt.
      apply addr_sorted_app in Hsrt as (Hsrt & _). apply addr_sorted_app in Hsrt as (_ & _ & Hlt').
      apply Hlt'; [by apply elem_of_reverse|by left].
  - exists []. constructor; try done; try (by intros [|]; intros).
    + by rewrite first_hole_nonempty, E.
    + constructor.
    + intros h Hh. inversion Hh.
    + intros h Hh. rewrite Hf in Hh. inversion Hh.
Qed.

Lemma visits_exists mode start end_ size : exists seq, visits mode start end_ size seq.
Proof. destruct mode; auto using visits_best, visits_low, visits_high, visits_evict. Qed.

Lemma visits_length mode start end_ size seq :
  visits mode start end_ size seq -> (length seq <= length (mm_hole_stack mm))%nat.
Proof.
  intros Hv. destruct (ok_holes _ Hok) as [_ _ _ _ _ ->]. apply submseteq_length.
  apply NoDup_submseteq; [apply Hv|]. intros h. apply Hv.
Qed.

End Search.
