(* ===== verification/MmOps.v ===== *)
(** * The range allocator: what its operations guarantee

    Insertion, reservation, removal and replacement of nodes in [drm_mm.c],
    proved against the allocator's invariant [mm_ok] of [MmFacts.v]. *)

From S2P Require Import Prelude RbTree IntervalTree Mm MmFacts MmSearch.
From stdpp Require Import base gmap list option sets sorting.
From Stdlib Require Import ZArith Lia.

#[local] Set Warnings "-clear-no-such-hyp".
#[local] Open Scope Z_scope.

(** ** The invariant reads only the linked nodes, and not their stale links *)

(** Equal but for [node_list.prev], which only a decoupled node keeps. *)
Definition same_node (a b : drm_mm_node) : Prop := with_prev 0 a = with_prev 0 b.

Lemma same_node_fields a b : same_node a b ->
  nd_color a = nd_color b /\ nd_start a = nd_start b /\ nd_size a = nd_size b /\
  nd_hole_size a = nd_hole_size b /\ nd_allocated a = nd_allocated b /\
  nd_scanned_block a = nd_scanned_block b.
Proof. unfold same_node, with_prev. intros H. by inversion H. Qed.

Record agree (mm mm' : drm_mm) : Prop := {
  ag_node i : i ∈ ring mm -> same_node (node_of mm' i) (node_of mm i);
  ag_list : mm_node_list mm' = mm_node_list mm;
  ag_stack : mm_hole_stack mm' = mm_hole_stack mm;
  ag_it : mm_interval_tree mm' = mm_interval_tree mm;
  ag_size : mm_holes_size mm' = mm_holes_size mm;
  ag_addr : mm_holes_addr mm' = mm_holes_addr mm;
  ag_scan : mm_scan_active mm' = mm_scan_active mm;
  ag_color : mm_color_adjust mm' = mm_color_adjust mm;
}.

Section Agree.
Context (mm mm' : drm_mm) (Hag : agree mm mm').

Lemma agree_ring : ring mm' = ring mm.
Proof. unfold ring. by rewrite (ag_list _ _ Hag). Qed.

Lemma agree_node i : i ∈ ring mm ->
  nd_size (node_of mm' i) = nd_size (node_of mm i) /\
  nd_allocated (node_of mm' i) = nd_allocated (node_of mm i) /\
  nd_scanned_block (node_of mm' i) = nd_scanned_block (node_of mm i).
Proof. intros Hi. pose proof (same_node_fields _ _ (ag_node _ _ Hag i Hi)). tauto. Qed.

Lemma agree_fields i : i ∈ ring mm ->
  START mm' i = START mm i /\ HOLE_SIZE mm' i = HOLE_SIZE mm i /\
  HOLE_ADDR mm' i = HOLE_ADDR mm i /\ LAST mm' i = LAST mm i.
Proof.
  intros Hi. unfold START, HOLE_SIZE, HOLE_ADDR, __drm_mm_hole_node_start, LAST.
  destruct (same_node_fields _ _ (ag_node _ _ Hag i Hi)) as (_ & -> & -> & -> & _). done.
Qed.

Lemma agree_holes : holes mm' = holes mm.
Proof.
  unfold holes. rewrite agree_ring. apply filter_iff_in. intros i Hi.
  by rewrite (proj1 (proj2 (agree_fields i Hi))).
Qed.

Lemma agree_ok : mm_ok mm -> mm_ok mm'.
Proof.
  intros Hok. assert (HEAD ∈ ring mm) as HH by by left.
  constructor.
  - rewrite (proj1 (proj2 (agree_node HEAD HH))). apply Hok.
  - rewrite (proj1 (agree_fields HEAD HH)). apply Hok.
  - rewrite (ag_list _ _ Hag). intros i Hi. destruct (ok_node _ Hok i Hi).
    assert (i ∈ ring mm) as Hi' by by right. destruct (agree_fields i Hi') as (E & _ & _ & _).
    destruct (agree_node i Hi') as (E1 & E2 & E3).
    constructor; rewrite ?E1, ?E2, ?E3, ?E, ?(proj1 (agree_fields HEAD HH)); done.
  - rewrite agree_ring. apply Hok.
  - rewrite agree_ring. eapply chain_impl; [|apply Hok]. intros a b Ha Hb [H1 H2].
    assert (b ∈ ring mm) as Hb'.
    { apply elem_of_app in Hb as [?| ->%list_elem_of_singleton]; done. }
    unfold link.
    destruct (agree_fields a Ha) as (_ & -> & -> & _), (agree_fields b Hb') as (-> & _). done.
  - rewrite agree_holes. eapply holes_ok_ext; [| | | |apply Hok]; try apply Hag.
    intros i Hi. apply holes_elem in Hi as [Hi _]. apply (agree_fields i Hi).
  - rewrite (ag_it _ _ Hag). eapply it_ok_ext; [|apply Hok].
    rewrite (ok_it_list _ Hok). intros k Hk.
    destruct (agree_fields k ltac:(by right)) as (-> & _ & _ & ->). done.
  - rewrite (ag_it _ _ Hag), (ag_list _ _ Hag). apply Hok.
  - rewrite (ag_scan _ _ Hag). apply Hok.
Qed.

End Agree.

Lemma agree_set_node mm n d : n ∉ ring mm -> agree mm (set_node n d mm).
Proof.
  intros Hn. constructor; try done. intros i Hi. by rewrite node_of_set_node_ne by (by intros ->).
Qed.

(** ** What the callers see *)

(** The bounds a search works with inside hole [h]. *)
Definition bounds (mm : drm_mm) (color : Z) (h : nat) : Z * Z :=
  color_bounds mm h color (HOLE_ADDR mm h, hole_end mm h).

(** What [drm_mm.h] asks of the driver's [color_adjust]: it restricts the hole. *)
Definition color_ok (mm : drm_mm) : Prop :=
  forall h color, h ∈ holes mm ->
    HOLE_ADDR mm h <= (bounds mm color h).1 /\ is_u64 (bounds mm color h).1 /\
    (bounds mm color h).2 <= hole_end mm h /\ is_u64 (bounds mm color h).2.

(** [s] is a placement for a block of [size] bytes in hole [h]. *)
Definition candidate (mm : drm_mm) (size alignment color rs re : Z) (h : nat) (s : Z) : Prop :=
  h ∈ holes mm /\ fits (bounds mm color h).1 (bounds mm color h).2 rs re size (norm_align alignment) s.

(** [mm'] is [mm] with [node] allocated at [[s, s + size)]. *)
Record inserted (mm mm' : drm_mm) (node : nat) (s size color : Z) : Prop := {
  in_ok : mm_ok mm';
  in_ring : exists pre h l2, ring mm = pre ++ h :: l2 /\ ring mm' = pre ++ h :: node :: l2;
  in_start : START mm' node = s;
  in_size : nd_size (node_of mm' node) = size;
  in_color : nd_color (node_of mm' node) = color;
  in_others i : i <> node -> START mm' i = START mm i /\
    nd_size (node_of mm' i) = nd_size (node_of mm i) /\ nd_color (node_of mm' i) = nd_color (node_of mm i) /\
    nd_scanned_block (node_of mm' i) = nd_scanned_block (node_of mm i) /\
    nd_allocated (node_of mm' i) = nd_allocated (node_of mm i);
  in_adjust : mm_color_adjust mm' = mm_color_adjust mm;
}.

Lemma in_list mm mm' node s size color :
  inserted mm mm' node s size color -> mm_node_list mm' ≡ₚ node :: mm_node_list mm.
Proof.
  intros H. destruct (in_ring _ _ _ _ _ _ H) as (pre & h & l2 & Hr & Hr').
  unfold ring in Hr, Hr'. destruct pre as [|x pre]; injection Hr as Hr0 Hr; injection Hr' as _ Hr';
    rewrite Hr, Hr'; [done|solve_Permutation].
Qed.

Definition disjoint_from (mm : drm_mm) (s e : Z) (i : nat) : Prop :=
  e <= START mm i \/ START mm i + nd_size (node_of mm i) <= s.

(** A placement inside a hole meets no allocated node. *)
Lemma hole_disjoint mm h s e i :
  mm_ok mm -> h ∈ ring mm -> HOLE_ADDR mm h <= s -> e <= hole_end mm h -> i ∈ mm_node_list mm ->
  disjoint_from mm s e i.
Proof.
  intros Hok Hh Hs He Hi. destruct (ring_split mm h Hh) as (pre & l2 & Hr).
  assert (i ∈ pre ++ h :: l2) as Hi' by (rewrite <- Hr; by right). unfold disjoint_from.
  pose proof (HOLE_ADDR_node mm i (ok_limit _ Hok) (ok_node _ Hok i Hi)) as Hai.
  pose proof (mm_addr_sorted mm Hok) as Hsrt. rewrite Hr in Hsrt.
  apply addr_sorted_app in Hsrt as (_ & _ & Hb).
  apply elem_of_app in Hi' as [Hi'|[->|Hi']%elem_of_cons].
  - right. specialize (Hb i h Hi' ltac:(by left)). lia.
  - right. lia.
  - left. pose proof (around_after mm Hok h pre l2 Hr i ltac:(apply elem_of_app; by left)).
    unfold hole_end in He. lia.
Qed.

Section Link.
Context (mm : drm_mm) (Hok : mm_ok mm) (node : nat) (mm0 : drm_mm).
Hypothesis Hnode : node ∉ ring mm.
Hypothesis Hag : agree mm mm0.
Hypothesis Hrest : forall i, i <> node -> node_of mm0 i = node_of mm i.

(** Linking [node], whose record [mm0] sets up, behind the hole [h]. *)
Lemma link_fresh h :
  h ∈ holes mm -> nd_scanned_block (node_of mm0 node) = false -> 0 < nd_size (node_of mm0 node) ->
  HOLE_ADDR mm h <= START mm0 node -> START mm0 node + nd_size (node_of mm0 node) <= hole_end mm h ->
  exists mm', link_node h node (__drm_mm_hole_node_start mm h)
      (u64 (__drm_mm_hole_node_start mm h + HOLE_SIZE mm h)) mm0 = Some mm' /\
    inserted mm mm' node (START mm0 node) (nd_size (node_of mm0 node)) (nd_color (node_of mm0 node)).
Proof.
  intros Hh Hscan Hsz Hlo Hhi. destruct (hole_end_u64 mm Hok h Hh) as [Eu Hlt].
  fold (HOLE_ADDR mm h). rewrite Eu. apply holes_elem in Hh as [Hh Hp].
  destruct (agree_fields _ _ Hag h Hh) as (_ & Es & Ea & _).
  pose proof (agree_ring _ _ Hag) as Er.
  destruct (ring_split mm h Hh) as (pre & l2 & Hr).
  destruct (link_node_ok mm0 (agree_ok _ _ Hag Hok) h node pre l2)
    as (mm' & E & Hok' & Hr' & Hlay & Hc & Hal); rewrite ?Er, ?Es, ?Ea; auto.
  rewrite Ea, Es in E. exists mm'. split; [done|]. constructor; auto.
  - by exists pre, h, l2.
  - by rewrite (sl_start _ _ Hlay).
  - by rewrite (sl_size _ _ Hlay).
  - by rewrite (sl_color _ _ Hlay).
  - intros i Hi. rewrite (sl_start _ _ Hlay), (sl_size _ _ Hlay), (sl_color _ _ Hlay), (sl_scanned _ _ Hlay).
    unfold START. by rewrite Hal, Hrest, decide_False.
  - rewrite Hc. apply Hag.
Qed.

End Link.

(** ** The search loop as a walk over the visited holes *)

Section Insert.
Context (mm : drm_mm) (Hok : mm_ok mm) (Hcol : color_ok mm).
Context (size alignment color rs re : Z) (mode : drm_mm_insert_mode).
Hypothesis Hsize : 0 < size < 2 ^ 64.
Hypothesis Halign : is_u64 alignment.
Hypothesis Hrs : is_u64 rs.
Hypothesis Hre : is_u64 re.

#[local] Abbreviation try h :=
  (try_hole mm h size (norm_align alignment) (norm_mask (norm_align alignment)) color rs re mode).
#[local] Abbreviation cand h s := (candidate mm size alignment color rs re h s).

Fixpoint pick (seq : list nat) : option (nat * Z) :=
  match seq with
  | [] => None
  | h :: t => match try h with Break => None | Continue => pick t | Fit s => Some (h, s) end
  end.

Definition fresh_node (node : nat) (s : Z) : drm_mm_node :=
  {| nd_color := color; nd_start := s; nd_size := size; nd_hole_size := 0;
     nd_allocated := nd_allocated (node_of mm node);
     nd_scanned_block := nd_scanned_block (node_of mm node); nd_prev := nd_prev (node_of mm node) |}.

Lemma insert_loop_pick node : forall fuel seq,
  (length seq <= fuel)%nat ->
  (forall a h b, seq = a ++ h :: b -> next_hole mm h mode = head b) ->
  insert_loop fuel mm (head seq) node size (norm_align alignment)
    (norm_mask (norm_align alignment)) color rs re mode =
  match pick seq with
  | None => Some (Err ENOSPC)
  | Some (h, s) =>
    mm' ← link_node h node (__drm_mm_hole_node_start mm h)
      (u64 (__drm_mm_hole_node_start mm h + HOLE_SIZE mm h)) (set_node node (fresh_node node s) mm);
    Some (Ok mm')
  end.
Proof.
  induction fuel as [|fuel IH]; intros [|h seq] Hlen Hnext; simpl in *; try done; try lia.
  destruct (try h); [done| |done].
  rewrite (Hnext [] h seq eq_refl). apply IH; [lia|].
  intros a x b ->. by apply (Hnext (h :: a)).
Qed.

Lemma try_unfold h : h ∈ holes mm ->
  try h =
  if bool_decide (mode = DRM_MM_INSERT_LOW) && (re <=? HOLE_ADDR mm h) then Break
  else if bool_decide (mode = DRM_MM_INSERT_HIGH) && (hole_end mm h <=? rs) then Break
  else match place_in (bounds mm color h).1 (bounds mm color h).2 rs re size
               (norm_align alignment) (norm_mask (norm_align alignment))
               (bool_decide (mode = DRM_MM_INSERT_HIGH)) with
       | Some s => Fit s
       | None => Continue
       end.
Proof.
  intros Hh. unfold try_hole, bounds. fold (HOLE_ADDR mm h).
  rewrite (proj1 (hole_end_u64 mm Hok h Hh)). by destruct (color_bounds _ _ _ _).
Qed.

Lemma try_spec h : h ∈ holes mm ->
  match try h with
  | Fit s => cand h s /\ (mode = DRM_MM_INSERT_LOW -> forall s', cand h s' -> s <= s') /\
             (mode = DRM_MM_INSERT_HIGH -> forall s', cand h s' -> s' <= s)
  | Continue => forall s, ~ cand h s
  | Break => (mode = DRM_MM_INSERT_LOW /\ re <= HOLE_ADDR mm h) \/
             (mode = DRM_MM_INSERT_HIGH /\ hole_end mm h <= rs)
  end.
Proof.
  intros Hh. rewrite try_unfold by done.
  destruct (bool_decide (mode = DRM_MM_INSERT_LOW) && (re <=? HOLE_ADDR mm h)) eqn:E1.
  { apply andb_prop in E1 as [?%bool_decide_eq_true ?]. left. split; [done|lia]. }
  destruct (bool_decide (mode = DRM_MM_INSERT_HIGH) && (hole_end mm h <=? rs)) eqn:E2.
  { apply andb_prop in E2 as [?%bool_decide_eq_true ?]. right. split; [done|lia]. }
  destruct (Hcol h color Hh) as (_ & Hu1 & _ & Hu2).
  pose proof (place_in_spec _ _ rs re size _ _ Hu1 Hu2 Hrs Hre Hsize (align_ok_norm alignment Halign)
    (bool_decide (mode = DRM_MM_INSERT_HIGH))) as Hp.
  destruct (place_in _ _ _ _ _ _ _ _) as [s|]; unfold candidate; [|intros s [_ Hs]; by eapply Hp].
  destruct Hp as [Hf Hopt]. split_and!; [done|done| |].
  - intros -> s' [_ Hs']. by apply Hopt in Hs'.
  - intros -> s' [_ Hs']. by apply Hopt in Hs'.
Qed.

Lemma cand_in_hole h s : cand h s ->
  h ∈ holes mm /\ HOLE_ADDR mm h <= s /\ s + size <= hole_end mm h /\ rs <= s /\ s + size <= re /\
  aligned (norm_align alignment) s.
Proof.
  intros [Hh (H1 & H2 & H3)]. destruct (Hcol h color Hh) as (? & _ & ? & _).
  split_and!; [done|lia|lia|lia|lia|done].
Qed.

(** A break ends the search: no later hole can hold the block. *)
Lemma break_rest seq a h b :
  visits mm mode rs re size seq -> seq = a ++ h :: b -> try h = Break ->
  forall x s, x ∈ h :: b -> ~ cand x s.
Proof.
  intros Hv Hs Hb x s Hx Hc. apply cand_in_hole in Hc as (Hxh & H1 & H2 & H3 & H4 & _).
  assert (h ∈ holes mm) as Hh by (apply (vi_holes _ _ _ _ _ _ Hv); rewrite Hs; set_solver).
  pose proof (try_spec h Hh) as Ht. rewrite Hb in Ht.
  destruct Ht as [[Hm Ht]|[Hm Ht]]; apply elem_of_cons in Hx as [->|Hx]; try lia.
  - pose proof (vi_low _ _ _ _ _ _ Hv a h b Hm Hs x Hx). lia.
  - pose proof (vi_high _ _ _ _ _ _ Hv a h b Hm Hs x Hx).
    destruct (hole_end_u64 mm Hok h Hh). lia.
Qed.

Lemma pick_none seq : visits mm mode rs re size seq -> pick seq = None ->
  forall x s, x ∈ seq -> ~ cand x s.
Proof.
  intros Hv. assert (forall a b, seq = a ++ b -> pick b = None -> forall x s, x ∈ b -> ~ cand x s) as H.
  { intros a b; revert a. induction b as [|h b IHb]; intros a Hs Hp x s Hx; [inversion Hx|].
    assert (h ∈ holes mm) as Hh by (apply (vi_holes _ _ _ _ _ _ Hv); rewrite Hs; set_solver).
    simpl in Hp. pose proof (try_spec h Hh) as Ht. destruct (try h) eqn:E; [| |done].
    - eapply break_rest; eauto.
    - apply elem_of_cons in Hx as [->|Hx]; [apply Ht|].
      eapply (IHb (a ++ [h])); auto. rewrite Hs. by app_norm. }
  intros Hp. by apply (H []).
Qed.

Lemma pick_some seq h s : pick seq = Some (h, s) ->
  exists a b, seq = a ++ h :: b /\ try h = Fit s /\ forall x, x ∈ a -> try x = Continue.
Proof.
  induction seq as [|x seq IH]; simpl; intros Hp; [done|].
  destruct (try x) eqn:E; [done| |].
  - destruct (IH Hp) as (a & b & -> & Ht & Ha). exists (x :: a), b. split_and!; auto.
    intros y [->|Hy]%elem_of_cons; auto.
  - simplify_eq. exists [], seq. split_and!; auto. intros y Hy; inversion Hy.
Qed.

Lemma visits_all seq : visits mm mode rs re size seq -> forall x s, cand x s -> x ∈ seq.
Proof.
  intros Hv x s Hc. apply cand_in_hole in Hc as (Hx & ? & ? & ? & ? & _).
  destruct (decide (x ∈ seq)) as [|Hn]; [done|].
  pose proof (vi_complete _ _ _ _ _ _ Hv x Hx Hn) as Hv'. unfold hole_end in *. lia.
Qed.

(** Of all placements, [LOW] takes the lowest and [HIGH] the highest. *)
Lemma pick_extreme seq h s : visits mm mode rs re size seq -> pick seq = Some (h, s) ->
  cand h s /\ (mode = DRM_MM_INSERT_LOW -> forall x s', cand x s' -> s <= s') /\
  (mode = DRM_MM_INSERT_HIGH -> forall x s', cand x s' -> s' <= s).
Proof.
  intros Hv Hp. apply pick_some in Hp as (a & b & Hs & Ht & Ha).
  assert (h ∈ holes mm) as Hh by (apply (vi_holes _ _ _ _ _ _ Hv); rewrite Hs; set_solver).
  pose proof (try_spec h Hh) as Hf. rewrite Ht in Hf. destruct Hf as (Hc & Hlo & Hhi).
  assert (forall x s', cand x s' -> x ∈ h :: b) as Hin.
  { intros x s' Hx. pose proof (visits_all seq Hv x s' Hx) as Hxs. rewrite Hs in Hxs.
    apply elem_of_app in Hxs as [Hxs|?]; [|done]. exfalso.
    pose proof (try_spec x (proj1 Hx)) as Htx. rewrite (Ha x Hxs) in Htx. by eapply Htx. }
  apply cand_in_hole in Hc as Hc'. destruct Hc' as (_ & ? & ? & _).
  split_and!; [done| |]; intros Hm x s' Hx; specialize (Hin x s' Hx);
    apply elem_of_cons in Hin as [->|Hxb]; auto; apply cand_in_hole in Hx as (Hxh & ? & ? & _).
  - pose proof (vi_low _ _ _ _ _ _ Hv a h b Hm Hs x Hxb) as Hl.
    pose proof (holes_apart mm Hok h x Hh Hxh Hl). lia.
  - pose proof (vi_high _ _ _ _ _ _ Hv a h b Hm Hs x Hxb) as Hl.
    lia.
Qed.

(** The whole of [drm_mm_insert_node_in_range] past its first guard. *)
Lemma insert_search node :
  node ∉ ring mm -> nd_scanned_block (node_of mm node) = false ->
  exists r, insert_loop (length (mm_hole_stack mm)) mm (first_hole mm rs re size mode) node size
      (norm_align alignment) (norm_mask (norm_align alignment)) color rs re mode = Some r /\
    match r with
    | Ok mm' => exists h s, cand h s /\ inserted mm mm' node s size color /\
        (mode = DRM_MM_INSERT_LOW -> forall x s', cand x s' -> s <= s') /\
        (mode = DRM_MM_INSERT_HIGH -> forall x s', cand x s' -> s' <= s)
    | Err e => e = ENOSPC /\ forall h s, ~ cand h s
    end.
Proof.
  intros Hn Hsc. destruct (visits_exists mm Hok mode rs re size) as [seq Hv].
  rewrite (vi_first _ _ _ _ _ _ Hv).
  rewrite (insert_loop_pick node _ seq (visits_length mm Hok _ _ _ _ _ Hv) (vi_next _ _ _ _ _ _ Hv)).
  destruct (pick seq) as [[h s]|] eqn:E.
  - destruct (pick_extreme seq h s Hv E) as (Hc & Hlo & Hhi).
    pose proof (cand_in_hole h s Hc) as (Hh & ? & ? & _).
    set (mm0 := set_node node (fresh_node node s) mm).
    assert (node_of mm0 node = fresh_node node s) as E0 by apply node_of_set_node_eq.
    assert (START mm0 node = s) as Es by (unfold START; by rewrite E0).
    destruct (link_fresh mm Hok node mm0 Hn (agree_set_node _ _ _ Hn)) with (h := h)
      as (mm' & -> & Hins); rewrite ?E0, ?Es; simpl; try done; try lia.
    { intros i Hi. by apply node_of_set_node_ne. }
    rewrite E0, Es in Hins. eexists; split; [done|]. by exists h, s.
  - eexists; split; [done|]. split; [done|]. intros h s Hc.
    eapply pick_none; eauto using visits_all.
Qed.

End Insert.

(** ** Free space, seen from the outside *)

(** [[s, e)] lies in the managed range and meets no allocated node. *)
Definition free_range (mm : drm_mm) (s e : Z) : Prop :=
  HOLE_ADDR mm HEAD <= s /\ e <= START mm HEAD /\ forall i, i ∈ mm_node_list mm -> disjoint_from mm s e i.

Lemma hole_containing mm s e :
  mm_ok mm -> s < e -> free_range mm s e ->
  exists h, h ∈ holes mm /\ HOLE_ADDR mm h <= s /\ e <= hole_end mm h.
Proof.
  intros Hok Hse (Hlo & Hhi & Hd).
  assert (forall l pre x, ring mm = pre ++ x :: l -> HOLE_ADDR mm x <= s ->
    exists h, h ∈ holes mm /\ HOLE_ADDR mm h <= s /\ e <= hole_end mm h) as H.
  { induction l as [|y l IHl]; intros pre x Hr Hx;
      destruct (around_hole mm Hok x pre _ Hr) as (Hsz & He & _); simpl in He.
    - exists x. rewrite holes_elem. unfold hole_end. split_and!; [rewrite Hr; set_solver|lia..].
    - assert (y ∈ mm_node_list mm) as Hy by (apply (around_tail mm Hok x pre (y :: l) Hr); by left).
      destruct (Hd y Hy) as [Hy'|Hy'].
      + exists x. rewrite holes_elem. unfold hole_end. split_and!; [rewrite Hr; set_solver|lia..].
      + apply (IHl (pre ++ [x]) y); [rewrite Hr; by app_norm|].
        by rewrite (HOLE_ADDR_node mm y (ok_limit _ Hok) (ok_node _ Hok y Hy)). }
  by apply (H (mm_node_list mm) [] HEAD).
Qed.

Lemma head_lowest mm h : mm_ok mm -> h ∈ ring mm -> HOLE_ADDR mm HEAD <= HOLE_ADDR mm h.
Proof.
  intros Hok Hh. pose proof (mm_addr_sorted mm Hok) as Hs. apply elem_of_cons in Hh as [->|Hh]; [lia|].
  apply addr_sorted_cons_inv in Hs as [_ Hs]. rewrite Forall_forall in Hs. specialize (Hs h Hh).
  simpl in Hs. lia.
Qed.

Lemma hole_free mm h s e :
  mm_ok mm -> h ∈ holes mm -> HOLE_ADDR mm h <= s -> e <= hole_end mm h -> free_range mm s e.
Proof.
  intros Hok [Hh _]%holes_elem Hs He. destruct (ring_split mm h Hh) as (pre & l2 & Hr).
  pose proof (around_limit mm Hok h pre l2 Hr). pose proof (head_lowest mm h Hok Hh).
  split_and!; [lia|unfold hole_end in He; lia|]. intros i Hi. by eapply hole_disjoint.
Qed.

Lemma no_callback_bounds mm color h :
  mm_color_adjust mm = None -> bounds mm color h = (HOLE_ADDR mm h, hole_end mm h).
Proof. intros E. unfold bounds, color_bounds. by rewrite E. Qed.

Lemma no_callback_color_ok mm : mm_ok mm -> mm_color_adjust mm = None -> color_ok mm.
Proof.
  intros Hok E h color Hh. rewrite no_callback_bounds by done. simpl.
  pose proof (HOLE_ADDR_range mm h). pose proof (u64_range (HOLE_ADDR mm h + HOLE_SIZE mm h)) as Hu.
  rewrite (proj1 (hole_end_u64 mm Hok h Hh)) in Hu. unfold is_u64 in *. lia.
Qed.

(** Without a callback a placement is just a free aligned range. *)
Lemma candidate_free mm size alignment color rs re s :
  mm_ok mm -> mm_color_adjust mm = None -> 0 < size ->
  (exists h, candidate mm size alignment color rs re h s) <->
  free_range mm s (s + size) /\ rs <= s /\ s + size <= re /\ aligned (norm_align alignment) s.
Proof.
  intros Hok E Hsz. unfold candidate, fits. setoid_rewrite no_callback_bounds; [|done..]. simpl. split.
  - intros (h & Hh & H1 & H2 & H3). split_and!; [|lia|lia|done].
    apply (hole_free mm h); auto; lia.
  - intros (Hf & H1 & H2 & H3).
    destruct (hole_containing mm s (s + size) Hok ltac:(lia) Hf) as (h & Hh & ? & ?).
    exists h. split_and!; [done|lia|lia|done].
Qed.

(** ** Insertion and reservation *)

Lemma insert_in_range_spec mm node size alignment color rs re mode :
  mm_ok mm -> color_ok mm -> node ∉ ring mm -> nd_scanned_block (node_of mm node) = false ->
  is_u64 size -> is_u64 alignment -> is_u64 rs -> is_u64 re ->
  exists r, drm_mm_insert_node_in_range node size alignment color rs re mode mm = Some r /\
    match r with
    | Ok mm' => 0 < size /\ exists h s, candidate mm size alignment color rs re h s /\
        inserted mm mm' node s size color /\
        (mode = DRM_MM_INSERT_LOW -> forall x s', candidate mm size alignment color rs re x s' -> s <= s') /\
        (mode = DRM_MM_INSERT_HIGH -> forall x s', candidate mm size alignment color rs re x s' -> s' <= s)
    | Err e => e = ENOSPC /\ (size = 0 \/ forall h s, ~ candidate mm size alignment color rs re h s)
    end.
Proof.
  intros Hok Hcol Hn Hsc Hsize Ha Hrs Hre. unfold drm_mm_insert_node_in_range, is_u64 in *.
  destruct (size =? 0) eqn:E0; simpl; [exists (Err ENOSPC); split_and!; auto; lia|].
  destruct (u64 (re - rs) <? size) eqn:E1.
  - exists (Err ENOSPC). split_and!; auto. right. intros h s (_ & H1 & H2 & _).
    rewrite u64_small in E1 by (unfold is_u64; lia). lia.
  - destruct (insert_search mm Hok Hcol size alignment color rs re mode ltac:(lia) Ha Hrs Hre node Hn Hsc)
      as (r & E & Hr).
    exists r. split; [exact E|]. destruct r as [mm'|e]; [split; [lia|exact Hr]|]. naive_solver.
Qed.

Lemma reserve_spec mm node :
  mm_ok mm -> color_ok mm -> node ∉ ring mm -> nd_scanned_block (node_of mm node) = false ->
  is_u64 (START mm node) -> is_u64 (nd_size (node_of mm node)) ->
  let s := START mm node in let size := nd_size (node_of mm node) in
  let color := nd_color (node_of mm node) in
  exists r, drm_mm_reserve_node node mm = Some r /\
    match r with
    | Ok mm' => 0 < size /\ inserted mm mm' node s size color /\
        exists h, candidate mm size 0 color 0 U64_MAX h s
    | Err e => e = ENOSPC /\ (size = 0 \/ forall h, ~ candidate mm size 0 color 0 U64_MAX h s)
    end.
Proof.
  intros Hok Hcol Hn Hsc Hs Hsz s size color. unfold drm_mm_reserve_node.
  fold (START mm node) s size color. fold s size in Hs, Hsz. unfold is_u64 in Hs, Hsz.
  destruct (u64 (s + size) <=? s) eqn:E0.
  { exists (Err ENOSPC). split_and!; auto. destruct (decide (size = 0)) as [|Hz]; [by left|right].
    intros h [Hh (_ & H2 & _)]. destruct (Hcol h color Hh) as (_ & _ & _ & Hu).
    unfold is_u64, U64_MAX in *. rewrite u64_small in E0 by (unfold is_u64; lia). lia. }
  assert (0 < size /\ s + size < 2 ^ 64) as [Hpos Hend].
  { destruct (decide (s + size < 2 ^ 64)) as [Hlt|Hge].
    - rewrite u64_small in E0 by (unfold is_u64; lia). lia.
    - rewrite u64_add_wrap in E0 by lia. lia. }
  rewrite (u64_small (s + size)) by (unfold is_u64; lia).
  assert (forall h, candidate mm size 0 color 0 U64_MAX h s <->
    h ∈ holes mm /\ (bounds mm color h).1 <= s /\ s + size <= (bounds mm color h).2) as Hcand.
  { intros h. unfold candidate, fits, U64_MAX. split; [intros (? & ? & ? & _)|intros (Hh & ? & ?)];
      split_and!; auto; try lia; try (by left); destruct (Hcol h color Hh) as (_ & ? & _);
      unfold is_u64 in *; lia. }
  pose proof (find_hole_spec mm Hok s) as Hf. destruct (find_hole mm s) as [k|].
  2: { exists (Err ENOSPC). split_and!; auto. right. intros h [Hh _]. rewrite Hf in Hh. inversion Hh. }
  destruct Hf as (a & b & Hab & Hfa & Hfb).
  assert (k ∈ holes mm) as Hk by (rewrite Hab; set_solver).
  destruct (Hcol k color Hk) as (Hb1 & Hu1 & Hb2 & Hu2).
  fold (HOLE_ADDR mm k). rewrite (proj1 (hole_end_u64 mm Hok k Hk)). fold (bounds mm color k).
  destruct (bounds mm color k) as [adj_start adj_end] eqn:Eb. simpl in *.
  destruct ((s <? adj_start) || (adj_end <? s + size)) eqn:Efit.
  - exists (Err ENOSPC). split_and!; auto. right. intros h Hc. apply Hcand in Hc as (Hh & H1 & H2).
    destruct (Hcol h color Hh) as (? & _ & ? & _). rewrite Hab in Hh.
    apply elem_of_app in Hh as [Hh|[->|Hh]%elem_of_cons].
    + specialize (Hfa h Hh). lia.
    + rewrite Eb in *. simpl in *. apply orb_prop in Efit. lia.
    + specialize (Hfb h Hh). lia.
  - apply orb_false_elim in Efit as [? ?].
    destruct (link_fresh mm Hok node mm Hn) with (h := k) as (mm' & E & Hins);
      try done; try (fold s size; lia).
    fold (HOLE_ADDR mm k) in E. rewrite (proj1 (hole_end_u64 mm Hok k Hk)) in E. rewrite E.
    exists (Ok mm'). split_and!; auto. exists k. apply Hcand. rewrite Eb. simpl. split_and!; auto; lia.
Qed.

(** ** Removal *)

Lemma opt_rm_hole_upd mm h a b :
  holes_ok mm (a ++ hole_seg h (HOLE_SIZE mm h) ++ b) -> NoDup (a ++ h :: b) -> 0 <= HOLE_SIZE mm h ->
  exists mm', (if drm_mm_hole_follows mm h then rm_hole h mm else Some mm) = Some mm' /\
    upd_hole mm mm' h 0 /\ holes_ok mm' (a ++ b).
Proof.
  intros H Hnd Hp. unfold drm_mm_hole_follows. fold (HOLE_SIZE mm h). unfold hole_seg in H.
  destruct (HOLE_SIZE mm h =? 0) eqn:E; simpl.
  - replace (0 <? HOLE_SIZE mm h) with false in H by lia. exists mm. split_and!; [done| |done].
    constructor; try done. intros j. case_decide; [|done]. subst j.
    unfold HOLE_SIZE in E. destruct (node_of mm h). simpl in *. by replace nd_hole_size with 0 by lia.
  - replace (0 <? HOLE_SIZE mm h) with true in H by lia. by apply rm_hole_upd.
Qed.

Lemma hole_seg_elem i h d : i ∈ hole_seg h d -> i = h.
Proof. unfold hole_seg. destruct (0 <? d); [apply list_elem_of_singleton|inversion 1]. Qed.

(** ** A node and its predecessor in the list *)

Lemma pair_split mm n l1 l2 :
  mm_node_list mm = l1 ++ n :: l2 -> exists pre p, ring mm = pre ++ p :: n :: l2.
Proof.
  intros El. unfold ring. rewrite El. destruct l1 as [|x l1] using rev_ind; [by exists [], HEAD|].
  exists (HEAD :: l1), x. by app_norm.
Qed.

Section Pair.
Context (mm : drm_mm) (Hnodup : NoDup (ring mm)) (p node : nat) (pre l2 : list nat).
Hypothesis Hring : ring mm = pre ++ p :: node :: l2.

Lemma pair_ring' : ring mm = (pre ++ [p]) ++ node :: l2.
Proof. rewrite Hring. by app_norm. Qed.

Lemma pair_nodup :
  NoDup (pre ++ p :: node :: l2) /\ NoDup (pre ++ p :: l2) /\
  (node ∉ pre ++ p :: l2) /\ (p ∉ pre) /\ (p ∉ l2) /\ p <> node.
Proof.
  pose proof Hnodup as Hnd. rewrite Hring in Hnd.
  assert (pre ++ p :: node :: l2 ≡ₚ node :: pre ++ p :: l2) as E by solve_Permutation.
  pose proof Hnd as Hnd'. rewrite E in Hnd'. apply NoDup_cons in Hnd' as [Hn Hnd2].
  pose proof (nodup_not_before _ _ _ Hnd2) as [? ?]. split_and!; auto. set_solver.
Qed.

Lemma pair_in : node ∈ mm_node_list mm.
Proof.
  unfold ring in Hring. destruct pre as [|x pre']; injection Hring as _ ->; [by left|].
  apply elem_of_app. right. right. by left.
Qed.

Lemma pair_not_head : HEAD <> node.
Proof.
  intros E. pose proof Hnodup as H. apply NoDup_cons in H as [H _]. apply H. rewrite E. apply pair_in.
Qed.

Lemma pair_prev : list_prev_entry mm node = p.
Proof.
  unfold list_prev_entry. rewrite decide_True by apply pair_in.
  destruct pair_nodup as (_ & _ & Hn & _). apply not_elem_of_app in Hn as [Hn1 Hn2].
  apply not_elem_of_cons in Hn2 as [Hn2 _]. unfold ring in Hring.
  destruct pre as [|x pre']; injection Hring as E1 E2; rewrite E2; simpl.
  - by rewrite decide_True.
  - apply pred_in_middle. set_solver.
Qed.

Lemma pair_del : HEAD :: remove_one node (mm_node_list mm) = pre ++ p :: l2.
Proof.
  destruct pair_nodup as (_ & _ & Hn & _).
  assert (remove_one node (ring mm) = (pre ++ [p]) ++ l2) as E.
  { rewrite pair_ring'. apply remove_one_middle. set_solver. }
  rewrite <- app_assoc in E. simpl in E. rewrite <- E. unfold ring. simpl.
  by rewrite decide_False by apply pair_not_head.
Qed.

End Pair.

Section Remove.
Context (mm : drm_mm) (Hok : mm_ok mm) (p node : nat) (pre l2 : list nat).
Hypothesis Hring : ring mm = pre ++ p :: node :: l2.

#[local] Abbreviation remove_in := (pair_in mm p node pre l2 Hring).
#[local] Abbreviation remove_ring' := (pair_ring' mm p node pre l2 Hring).
#[local] Abbreviation remove_nodup := (pair_nodup mm (ok_nodup _ Hok) p node pre l2 Hring).
#[local] Abbreviation remove_not_head := (pair_not_head mm (ok_nodup _ Hok) p node pre l2 Hring).
#[local] Abbreviation remove_prev := (pair_prev mm (ok_nodup _ Hok) p node pre l2 Hring).
#[local] Abbreviation remove_ring_list := (pair_del mm (ok_nodup _ Hok) p node pre l2 Hring).

#[local] Abbreviation hfilter l := (filter (fun i => 0 < HOLE_SIZE mm i) l).

Lemma remove_holes : holes_ok mm
  ((hfilter pre ++ hole_seg p (HOLE_SIZE mm p)) ++ hole_seg node (HOLE_SIZE mm node) ++ hfilter l2).
Proof.
  pose proof (ok_holes _ Hok) as H. unfold holes in H. rewrite Hring in H.
  replace (pre ++ p :: node :: l2) with (pre ++ [p] ++ [node] ++ l2) in H by done.
  rewrite !filter_app, !hole_seg_filter in H. by rewrite <- app_assoc.
Qed.

(** The state between taking the node out and fixing its predecessor's hole. *)
Lemma remove_first_half :
  exists mm1 t, (if drm_mm_hole_follows mm node then rm_hole node mm else Some mm) = Some mm1 /\
    it_remove (LAST mm1) node (mm_interval_tree mm1) = Some t /\
    upd_hole mm mm1 node 0 /\ holes_ok mm1 (hfilter pre ++ hole_seg p (HOLE_SIZE mm p) ++ hfilter l2) /\
    it_ok (START mm) (LAST mm) t /\ HEAD :: inorder (rb_root t) = pre ++ p :: l2.
Proof.
  destruct remove_nodup as (Hnd & Hnd2 & Hn & Hp1 & Hp2 & Hpn).
  destruct (opt_rm_hole_upd mm node _ _ remove_holes) as (mm1 & E1 & U1 & H1).
  { eapply sublist_NoDup; [exact Hnd|].
    replace (pre ++ p :: node :: l2) with ((pre ++ [p]) ++ node :: l2) by by app_norm.
    apply sublist_app; [apply sublist_app; [apply sublist_filter|]|apply sublist_skip, sublist_filter].
    unfold hole_seg. destruct (0 <? _); [done|apply sublist_nil_l]. }
  { apply (around_hole mm Hok node _ l2 remove_ring'). }
  destruct (it_remove_ok (START mm1) (LAST mm1) node (mm_interval_tree mm1)) as (t & E2 & Ht & Hin).
  { rewrite (uh_it _ _ _ _ U1). eapply it_ok_ext; [|apply Hok]. intros k _.
    rewrite (sl_start _ _ (upd_hole_layout _ _ _ _ U1)).
    by rewrite (layout_LAST mm mm1) by (eapply upd_hole_layout; eauto). }
  { rewrite (uh_it _ _ _ _ U1), (ok_it_list _ Hok). apply remove_in. }
  exists mm1, t. rewrite <- app_assoc in H1. split_and!; auto.
  - eapply it_ok_ext; [|exact Ht]. intros k _.
    rewrite (sl_start _ _ (upd_hole_layout _ _ _ _ U1)).
    by rewrite (layout_LAST mm mm1) by (eapply upd_hole_layout; eauto).
  - rewrite Hin, (uh_it _ _ _ _ U1), (ok_it_list _ Hok).
    apply remove_ring_list.
Qed.

(** Removal merges the node's hole, its space and its predecessor's hole. *)
Lemma remove_mm_ok t mm' :
  it_ok (START mm) (LAST mm) t -> HEAD :: inorder (rb_root t) = pre ++ p :: l2 ->
  same_layout mm mm' -> ring mm' = pre ++ p :: l2 -> mm_interval_tree mm' = t ->
  mm_scan_active mm' = 0 ->
  (forall i, i <> node -> nd_allocated (node_of mm' i) = nd_allocated (node_of mm i)) ->
  (forall i, i <> node -> i <> p -> HOLE_SIZE mm' i = HOLE_SIZE mm i) ->
  HOLE_SIZE mm' p = START mm (hd HEAD l2) - HOLE_ADDR mm p -> 0 < HOLE_SIZE mm' p ->
  holes_ok mm' (hfilter pre ++ p :: hfilter l2) ->
  mm_ok mm'.
Proof.
  intros Hit Htl Hlay Hr Et Hsc Hal Hsz Hszp Hpos Hho.
  destruct remove_nodup as (Hnd & Hnd2 & Hn & Hp1 & Hp2 & Hpn).
  apply not_elem_of_app in Hn as [Hn1 Hn2]. apply not_elem_of_cons in Hn2 as [Hn2 Hn3].
  assert (forall i, i ∈ pre \/ i ∈ l2 -> HOLE_SIZE mm' i = HOLE_SIZE mm i) as Hsz'.
  { intros i Hi. apply Hsz; intros ->; tauto. }
  assert (forall i, i ∈ pre \/ i ∈ l2 -> forall j, link mm i j -> link mm' i j) as Hlink.
  { intros i Hi j [? ?]. unfold link.
    rewrite (layout_HOLE_ADDR mm mm'), (sl_start _ _ Hlay), Hsz' by done. done. }
  destruct (around_chain mm Hok p pre _ Hring) as (Hc1 & [Hc2 Hc2'] & Hc3). simpl in Hc3.
  assert (forall i, i ∈ mm_node_list mm' -> i ∈ mm_node_list mm /\ i <> node) as Hsub.
  { intros i Hi. assert (i ∈ pre ++ p :: l2) as Hi' by (rewrite <- Hr; by right).
    assert (i ∈ ring mm) as Hi2 by (rewrite Hring; set_solver). split; [|set_solver].
    apply elem_of_cons in Hi2 as [->|?]; [|done]. exfalso.
    assert (NoDup (ring mm')) as Hndr by by rewrite Hr. by apply NoDup_cons in Hndr as [? _]. }
  pose proof remove_not_head as HnH.
  constructor.
  - rewrite Hal by done. apply Hok.
  - rewrite (sl_start _ _ Hlay). apply Hok.
  - intros i Hi. destruct (Hsub i Hi) as [Hi1 Hi2]. destruct (ok_node _ Hok i Hi1).
    constructor; rewrite ?Hal, ?(sl_scanned _ _ Hlay), ?(sl_start _ _ Hlay), ?(sl_size _ _ Hlay); done.
  - by rewrite Hr.
  - rewrite Hr. apply chain_app. split; [|split].
    + eapply chain_impl; [|exact Hc1]. intros x y Hx _. apply Hlink. by left.
    + unfold link. rewrite (layout_HOLE_ADDR mm mm'), (sl_start _ _ Hlay) by done. lia.
    + eapply chain_impl; [|apply Hc3]. intros x y Hx _. apply Hlink. by right.
  - unfold holes. rewrite Hr, filter_app, filter_cons_True by done.
    rewrite (filter_iff_in _ (fun i => 0 < HOLE_SIZE mm i) pre) by (intros; rewrite Hsz'; tauto).
    rewrite (filter_iff_in _ (fun i => 0 < HOLE_SIZE mm i) l2) by (intros; rewrite Hsz'; tauto).
    done.
  - rewrite Et. eapply it_ok_ext; [|exact Hit]. intros k _.
    by rewrite (sl_start _ _ Hlay), (layout_LAST mm mm').
  - rewrite Et. rewrite <- Hr in Htl. by injection Htl.
  - done.
Qed.

Definition taken (mm1 : drm_mm) (t : rb_root_cached nat) : drm_mm :=
  let mm := list_del_node node (set_interval_tree t mm1) in
  set_node node (with_allocated false (node_of mm node)) mm.

Lemma taken_node mm1 t i :
  node_of (taken mm1 t) i = if decide (node = i) then with_allocated false (node_of mm1 node) else node_of mm1 i.
Proof. unfold taken. by rewrite node_of_set_node. Qed.

Lemma taken_layout mm1 t : same_layout mm1 (taken mm1 t).
Proof. constructor; intros i; unfold START; rewrite taken_node; by case_decide; subst. Qed.

Lemma remove_ok :
  exists mm', drm_mm_remove_node node mm = Some mm' /\ mm_ok mm' /\ ring mm' = pre ++ p :: l2 /\
    same_layout mm mm' /\ mm_color_adjust mm' = mm_color_adjust mm /\
    (forall i, nd_allocated (node_of mm' i) =
       if decide (node = i) then false else nd_allocated (node_of mm i)).
Proof.
  destruct remove_first_half as (mm1 & t & E1 & Et & U1 & H1 & Hit & Htl).
  destruct remove_nodup as (Hnd & Hnd2 & Hn & Hp1 & Hp2 & Hpn).
  apply not_elem_of_app in Hn as [Hn1 Hn2]. apply not_elem_of_cons in Hn2 as [Hn2 Hn3].
  pose proof (upd_hole_layout _ _ _ _ U1) as L1. pose proof (taken_layout mm1 t) as L2.
  assert (same_layout mm (taken mm1 t)) as L12 by (by etrans).
  assert (ring (taken mm1 t) = pre ++ p :: l2) as Hr2.
  { unfold ring. simpl. rewrite (uh_list _ _ _ _ U1), <- (ok_it_list _ Hok).
    rewrite (ok_it_list _ Hok). apply remove_ring_list. }
  assert (forall i, i <> node -> HOLE_SIZE (taken mm1 t) i = HOLE_SIZE mm i) as Hsz2.
  { intros i Hi. unfold HOLE_SIZE at 1. rewrite taken_node, decide_False by done.
    change (HOLE_SIZE mm1 i = HOLE_SIZE mm i). by rewrite (upd_hole_size _ _ _ _ i U1), decide_False. }
  destruct (opt_rm_hole_upd (taken mm1 t) p (hfilter pre) (hfilter l2)) as (mm3 & E3 & U3 & H3).
  { rewrite Hsz2 by done. eapply holes_ok_ext; [| | | |exact H1]; try done.
    intros i Hi. unfold HOLE_SIZE. rewrite taken_node, decide_False; [done|]. intros <-.
    apply elem_of_app in Hi as [[_ Hi]%list_elem_of_filter|[Hi%hole_seg_elem|[_ Hi]%list_elem_of_filter]%elem_of_app];
      done. }
  { eapply sublist_NoDup; [exact Hnd2|].
    apply sublist_app; [apply sublist_filter|apply sublist_skip, sublist_filter]. }
  { rewrite Hsz2 by done. apply (around_hole mm Hok p pre _ Hring). }
  pose proof (upd_hole_layout _ _ _ _ U3) as L3. assert (same_layout mm mm3) as L13 by (by etrans).
  destruct (around_hole mm Hok p pre _ Hring) as (_ & Hend & _). simpl in Hend.
  destruct (around_hole mm Hok node _ l2 remove_ring') as (Hszn & Hendn & _).
  pose proof (around_limit mm Hok node _ l2 remove_ring') as Hlim.
  pose proof (HOLE_ADDR_node mm node (ok_limit _ Hok) (ok_node _ Hok node remove_in)) as Han.
  pose proof (no_size _ _ (ok_node _ Hok node remove_in)) as Hns.
  pose proof (HOLE_ADDR_range mm p) as Hrp.
  assert (0 <= HOLE_SIZE mm p) as Hszp by apply (around_hole mm Hok p pre _ Hring).
  assert (ring mm3 = pre ++ p :: l2) as Hr3 by by rewrite (upd_hole_ring _ _ _ _ U3).
  destruct (add_hole_upd mm3 p (hfilter pre) (hfilter l2) (START mm (hd HEAD l2) - HOLE_ADDR mm p))
    as (mm4 & E4 & U4 & H4); [done| | |].
  { eapply layout_addr_sorted; [exact L13|]. eapply addr_sorted_sublist; [|by apply mm_addr_sorted].
    rewrite Hring. apply sublist_app; [apply sublist_filter|]. apply sublist_skip, sublist_cons, sublist_filter. }
  { unfold __drm_mm_hole_node_end, list_next_entry. rewrite Hr3, succ_in_middle by done.
    fold (START mm3 (hd HEAD l2)) (HOLE_ADDR mm3 p).
    rewrite (sl_start _ _ L13), (layout_HOLE_ADDR mm mm3 p L13). symmetry. apply u64_small.
    unfold is_u64. lia. }
  pose proof (upd_hole_layout _ _ _ _ U4) as L4. assert (same_layout mm mm4) as L14 by (by etrans).
  assert (forall i, i <> node -> i <> p -> HOLE_SIZE mm4 i = HOLE_SIZE mm i) as Hsz4.
  { intros i ? ?. rewrite (upd_hole_size _ _ _ _ i U4), decide_False by done.
    rewrite (upd_hole_size _ _ _ _ i U3), decide_False by done. auto. }
  assert (HOLE_SIZE mm4 p = START mm (hd HEAD l2) - HOLE_ADDR mm p) as Hsz4p
    by (by rewrite (upd_hole_size _ _ _ _ p U4), decide_True).
  assert (forall i, nd_allocated (node_of mm4 i) = if decide (node = i) then false else nd_allocated (node_of mm i)) as Hal4.
  { intros i. rewrite (upd_hole_allocated _ _ _ _ i U4), (upd_hole_allocated _ _ _ _ i U3), taken_node.
    case_decide; [done|]. by apply (upd_hole_allocated _ _ _ _ i U1). }
  assert (ring mm4 = pre ++ p :: l2) as Hr4 by by rewrite (upd_hole_ring _ _ _ _ U4).
  exists mm4. split_and!; auto.
  - unfold drm_mm_remove_node. rewrite remove_prev, E1. cbn [mbind option_bind]. rewrite Et.
    cbn [mbind option_bind]. fold (taken mm1 t). rewrite E3. cbn [mbind option_bind]. exact E4.
  - apply (remove_mm_ok t); auto.
    + by rewrite (uh_it _ _ _ _ U4), (uh_it _ _ _ _ U3).
    + rewrite (uh_scan _ _ _ _ U4), (uh_scan _ _ _ _ U3). simpl. rewrite (uh_scan _ _ _ _ U1). apply Hok.
    + intros i Hi. by rewrite Hal4, decide_False.
    + lia.
  - rewrite (uh_color _ _ _ _ U4), (uh_color _ _ _ _ U3). simpl. apply (uh_color _ _ _ _ U1).
Qed.

End Remove.

(** ** Set-up *)

Lemma init_ok start size :
  is_u64 start -> 0 < size -> start + size < 2 ^ 64 ->
  exists mm, drm_mm_init start size = Some mm /\ mm_ok mm /\ mm_node_list mm = [] /\
    HOLE_ADDR mm HEAD = start /\ START mm HEAD = start + size /\ mm_color_adjust mm = None /\
    (forall i, nd_scanned_block (node_of mm i) = false) /\
    (forall i, nd_allocated (node_of mm i) = false).
Proof.
  intros Hs Hz He. unfold is_u64 in *. unfold drm_mm_init. rewrite u64_small by (unfold is_u64; lia).
  set (d := {| nd_color := 0 |}). set (mm0 := set_node HEAD d mm_zero).
  assert (node_of mm0 HEAD = d) as Ed by apply node_of_set_node_eq.
  assert (HOLE_ADDR mm0 HEAD = start) as Ea.
  { unfold HOLE_ADDR, __drm_mm_hole_node_start. rewrite Ed. simpl.
    rewrite (u64_sub_wrap (- size)) by lia. rewrite u64_add_wrap by lia. lia. }
  destruct (add_hole_upd mm0 HEAD [] [] size) as (mm & E & U & Hh).
  { constructor; simpl; try done; try (exists 0%nat; constructor); constructor. }
  { repeat constructor. }
  { unfold __drm_mm_hole_node_end. change (list_next_entry mm0 HEAD) with HEAD. rewrite Ed.
    fold (HOLE_ADDR mm0 HEAD). rewrite Ea. simpl. rewrite u64_small; [lia|unfold is_u64; lia]. }
  pose proof (upd_hole_layout _ _ _ _ U) as L.
  assert (START mm HEAD = start + size) as Est by (rewrite (sl_start _ _ L); unfold START; by rewrite Ed).
  assert (HOLE_ADDR mm HEAD = start) as Ea' by by rewrite (layout_HOLE_ADDR mm0 mm).
  assert (HOLE_SIZE mm HEAD = size) as Esz by by rewrite (upd_hole_size _ _ _ _ HEAD U), decide_True.
  pose proof (upd_hole_ring _ _ _ _ U) as Er. pose proof (uh_list _ _ _ _ U) as El.
  exists mm. split_and!; auto.
  - constructor; auto.
    + rewrite (upd_hole_allocated _ _ _ _ HEAD U), Ed. done.
    + rewrite Est. unfold is_u64. lia.
    + rewrite El. simpl. intros i Hi. inversion Hi.
    + rewrite Er. constructor; [inversion 1|constructor].
    + rewrite Er. simpl. unfold link. rewrite Est, Ea', Esz. lia.
    + unfold holes. rewrite Er. unfold ring. rewrite filter_cons_True by lia. exact Hh.
    + rewrite (uh_it _ _ _ _ U). constructor; simpl; try done; try constructor. exists 0%nat. constructor.
    + by rewrite (uh_it _ _ _ _ U), El.
    + apply (uh_scan _ _ _ _ U).
  - apply (uh_color _ _ _ _ U).
  - intros i. rewrite (sl_scanned _ _ L). unfold mm0. rewrite node_of_set_node. by case_decide.
  - intros i. rewrite (upd_hole_allocated _ _ _ _ i U). unfold mm0. rewrite node_of_set_node. by case_decide.
Qed.
