(* ===== verification/MmSpec.v ===== *)
(** * The range allocator: abstract specification and refinement

    Callers of [drm_mm.c] see a set of disjoint blocks in a managed range.  [spec_step]
    says what each call may do to it; [drm_mm_refines_spec] shows that the code, with its
    trees, lists and wrapping arithmetic, does only that, and always returns. *)

From S2P Require Import Prelude RbTree IntervalTree Mm MmFacts MmSearch MmOps.
From stdpp Require Import base gmap list option sets sorting.
From Stdlib Require Import ZArith Lia.

#[local] Set Warnings "-clear-no-such-hyp".
#[local] Open Scope Z_scope.

(** ** The abstract allocator *)

(** The managed range and the block (start, size) of every allocated node. *)
Record spec_state := { sp_lo : Z; sp_hi : Z; sp_blocks : gmap nat (Z * Z) }.

Definition spec_free (A : spec_state) (s e : Z) : Prop :=
  sp_lo A <= s /\ e <= sp_hi A /\
  forall i s' z, sp_blocks A !! i = Some (s', z) -> e <= s' \/ s' + z <= s.

Definition spec_set (n : nat) (b : Z * Z) (A : spec_state) : spec_state :=
  {| sp_lo := sp_lo A; sp_hi := sp_hi A; sp_blocks := <[n := b]> (sp_blocks A) |}.

Definition spec_unset (n : nat) (A : spec_state) : spec_state :=
  {| sp_lo := sp_lo A; sp_hi := sp_hi A; sp_blocks := delete n (sp_blocks A) |}.

(** The calls. *)
Inductive mm_op :=
| OpInsert (n : nat) (size alignment color rs re : Z) (mode : drm_mm_insert_mode)
| OpReserve (n : nat) (start size color : Z)
| OpRemove (n : nat).

(** [s] may hold a new block of an insert call. *)
Definition spec_place (A : spec_state) (size alignment rs re s : Z) : Prop :=
  spec_free A s (s + size) /\ rs <= s /\ s + size <= re /\ aligned (norm_align alignment) s.

Inductive spec_step : mm_op -> spec_state -> result spec_state -> Prop :=
| spec_insert n size al c rs re mode s A :
    0 < size -> spec_place A size al rs re s ->
    (mode = DRM_MM_INSERT_LOW -> forall s', spec_place A size al rs re s' -> s <= s') ->
    (mode = DRM_MM_INSERT_HIGH -> forall s', spec_place A size al rs re s' -> s' <= s) ->
    spec_step (OpInsert n size al c rs re mode) A (Ok (spec_set n (s, size) A))
| spec_insert_full n size al c rs re mode A :
    (size = 0 \/ forall s, ~ spec_place A size al rs re s) ->
    spec_step (OpInsert n size al c rs re mode) A (Err ENOSPC)
| spec_reserve n s size c A :
    0 < size -> spec_free A s (s + size) ->
    spec_step (OpReserve n s size c) A (Ok (spec_set n (s, size) A))
| spec_reserve_full n s size c A :
    (size = 0 \/ ~ spec_free A s (s + size)) ->
    spec_step (OpReserve n s size c) A (Err ENOSPC)
| spec_remove n A : spec_step (OpRemove n) A (Ok (spec_unset n A)).

(** What a caller owes: nodes are inserted when they are free (and not the
    allocator's own head), removed when they are allocated, numbers are 64-bit. *)
Definition op_ok (A : spec_state) (o : mm_op) : Prop :=
  match o with
  | OpInsert n size al _ rs re _ =>
    n <> HEAD /\ sp_blocks A !! n = None /\ is_u64 size /\ is_u64 al /\ is_u64 rs /\ is_u64 re
  | OpReserve n s size _ => n <> HEAD /\ sp_blocks A !! n = None /\ is_u64 s /\ is_u64 size
  | OpRemove n => is_Some (sp_blocks A !! n)
  end.

(** ** The code *)

(** A reservation first sets up the node, all other fields cleared. *)
Definition reserve_setup (n : nat) (start size color : Z) (mm : drm_mm) : drm_mm :=
  set_node n {| nd_color := color; nd_start := start; nd_size := size; nd_hole_size := 0;
                nd_allocated := false; nd_scanned_block := false; nd_prev := 0 |} mm.

Definition mm_exec (o : mm_op) (mm : drm_mm) : option (result drm_mm) :=
  match o with
  | OpInsert n size al c rs re mode => drm_mm_insert_node_in_range n size al c rs re mode mm
  | OpReserve n s size c => drm_mm_reserve_node n (reserve_setup n s size c mm)
  | OpRemove n => mm' ← drm_mm_remove_node n mm; Some (Ok mm')
  end.

(** ** Abstraction relation *)

Record mm_rel (mm : drm_mm) (A : spec_state) : Prop := {
  mr_ok : mm_ok mm;
  mr_lo : HOLE_ADDR mm HEAD = sp_lo A;
  mr_hi : START mm HEAD = sp_hi A;
  mr_blocks i : sp_blocks A !! i =
    if decide (i ∈ mm_node_list mm) then Some (START mm i, nd_size (node_of mm i)) else None;
  mr_adjust : mm_color_adjust mm = None;
  mr_scanned i : nd_scanned_block (node_of mm i) = false;
}.

Lemma mr_free mm A s e : mm_rel mm A -> free_range mm s e <-> spec_free A s e.
Proof.
  intros [Hok Hlo Hhi Hb _ _]. unfold free_range, spec_free, disjoint_from. rewrite Hlo, Hhi.
  split; intros (? & ? & H); split_and!; auto.
  - intros i s' z Hi. rewrite Hb in Hi. case_decide; simplify_eq. auto.
  - intros i Hi. apply (H i). by rewrite Hb, decide_True.
Qed.

Lemma mr_place mm A size al c rs re s : mm_rel mm A -> 0 < size ->
  (exists h, candidate mm size al c rs re h s) <-> spec_place A size al rs re s.
Proof.
  intros HR Hz. rewrite candidate_free; [|apply HR|apply HR|done]. unfold spec_place.
  by rewrite (mr_free mm A).
Qed.

Lemma mr_unlinked mm A n : mm_rel mm A -> n <> HEAD -> sp_blocks A !! n = None -> n ∉ ring mm.
Proof.
  intros HR Hn Hb [->|Hi]%elem_of_cons; [done|]. rewrite (mr_blocks _ _ HR) in Hb.
  by rewrite decide_True in Hb.
Qed.

(** An inserted node is one more block. *)
Lemma mr_inserted mm mm' A n s size c :
  mm_rel mm A -> n <> HEAD -> inserted mm mm' n s size c -> mm_rel mm' (spec_set n (s, size) A).
Proof.
  intros [Hok Hlo Hhi Hb Hadj Hsc] Hn Hins. pose proof (in_list _ _ _ _ _ _ Hins) as Hl.
  destruct Hins as [Hok' _ Hs Hz _ Ho Ha].
  destruct (Ho HEAD ltac:(done)) as (E1 & E2 & _).
  constructor; simpl; auto.
  - rewrite <- Hlo. unfold HOLE_ADDR, __drm_mm_hole_node_start.
    fold (START mm' HEAD) (START mm HEAD). by rewrite E1, E2.
  - by rewrite E1.
  - intros i. destruct (decide (n = i)) as [<-|Hi].
    + rewrite lookup_insert_eq, decide_True by (rewrite Hl; by left). by rewrite Hs, Hz.
    + rewrite lookup_insert_ne, Hb by done. destruct (Ho i ltac:(done)) as (-> & -> & _).
      assert (i ∈ mm_node_list mm' <-> i ∈ mm_node_list mm) as Hel by (rewrite Hl; set_solver).
      repeat case_decide; tauto.
  - by rewrite Ha.
  - intros i. destruct (decide (i = n)) as [->|Hi]; [|by destruct (Ho i Hi) as (_ & _ & _ & -> & _)].
    apply (ok_node _ Hok'). rewrite Hl. by left.
Qed.

Lemma mr_setup mm A n s size c :
  mm_rel mm A -> n ∉ ring mm -> mm_rel (reserve_setup n s size c mm) A.
Proof.
  intros [Hok Hlo Hhi Hb Hadj Hsc] Hn.
  pose proof (agree_set_node mm n {| nd_color := c; nd_start := s; nd_size := size; nd_hole_size := 0;
    nd_allocated := false; nd_scanned_block := false; nd_prev := 0 |} Hn) as Hag.
  fold (reserve_setup n s size c mm) in Hag.
  destruct (agree_fields _ _ Hag HEAD ltac:(by left)) as (E1 & _ & E2 & _).
  constructor; rewrite ?E1, ?E2; auto.
  - by eapply agree_ok.
  - intros i. change (mm_node_list (reserve_setup n s size c mm)) with (mm_node_list mm). rewrite Hb.
    case_decide as Hi; [|done]. assert (i ∈ ring mm) as Hi' by by right.
    by rewrite (proj1 (agree_fields _ _ Hag i Hi')), (proj1 (agree_node _ _ Hag i Hi')).
  - intros i. unfold reserve_setup. rewrite node_of_set_node. by case_decide.
Qed.

Lemma mr_removed mm A n :
  mm_rel mm A -> is_Some (sp_blocks A !! n) ->
  exists mm', drm_mm_remove_node n mm = Some mm' /\ mm_rel mm' (spec_unset n A).
Proof.
  intros [Hok Hlo Hhi Hb Hadj Hsc] [b Hn]. rewrite Hb in Hn. case_decide as Hin; [|done].
  apply list_elem_of_split in Hin as (l1 & l2 & El).
  destruct (pair_split mm n l1 l2 El) as (pre & p & Hr).
  destruct (remove_ok mm Hok p n pre l2 Hr) as (mm' & E & Hok' & Hr' & L & Ha & _).
  exists mm'. split; [done|].
  destruct (pair_nodup mm (ok_nodup _ Hok) p n pre l2 Hr) as (_ & Hnd & Hnn & _).
  assert (forall i, i ∈ mm_node_list mm' <-> i ∈ mm_node_list mm /\ i <> n) as Hel.
  { intros i. pose proof (ok_nodup _ Hok) as Hd. pose proof (ok_nodup _ Hok') as Hd'.
    apply NoDup_cons in Hd as [Hd _]. apply NoDup_cons in Hd' as [Hd' _].
    assert (i ∈ ring mm' <-> i ∈ ring mm /\ i <> n) as H by (rewrite Hr, Hr'; set_solver).
    unfold ring in H. rewrite !elem_of_cons in H. set_solver. }
  constructor; simpl; auto.
  - by rewrite (layout_HOLE_ADDR mm mm').
  - by rewrite (sl_start _ _ L).
  - intros i. rewrite (sl_start _ _ L), (sl_size _ _ L). destruct (decide (n = i)) as [<-|Hi].
    + rewrite lookup_delete_eq, decide_False; [done|]. rewrite Hel. naive_solver.
    + rewrite lookup_delete_ne, Hb by done. repeat case_decide; rewrite Hel in *; naive_solver.
  - by rewrite Ha.
  - intros i. by rewrite (sl_scanned _ _ L).
Qed.

(** ** Every call refines the specification *)

Lemma exec_refines o mm A :
  mm_rel mm A -> op_ok A o ->
  exists r, mm_exec o mm = Some r /\
    match r with
    | Ok mm' => exists A', spec_step o A (Ok A') /\ mm_rel mm' A'
    | Err e => spec_step o A (Err e)
    end.
Proof.
  intros HR Hop. destruct o as [n size al c rs re mode|n s size c|n]; simpl in *.
  - destruct Hop as (Hn & Hb & Hz & Ha & Hrs & Hre).
    pose proof (mr_unlinked mm A n HR Hn Hb) as Hu.
    destruct (insert_in_range_spec mm n size al c rs re mode) as (r & E & Hr); auto; try exact (mr_ok _ _ HR); try exact (mr_scanned _ _ HR _).
    { apply no_callback_color_ok; apply HR. }
    exists r. split; [done|]. destruct r as [mm'|e].
    + destruct Hr as (Hpos & h & s & Hc & Hins & Hlo & Hhi).
      exists (spec_set n (s, size) A). split; [|by eapply mr_inserted].
      constructor; [done|by apply (mr_place mm A size al c rs re s HR Hpos); eauto| |];
        intros Hm s' Hs'; apply (mr_place mm A size al c rs re s' HR Hpos) in Hs' as [h' Hc']; eauto.
    + destruct Hr as [-> Hr]. constructor. destruct Hr as [|Hr]; [by left|].
      destruct (decide (size = 0)); [by left|right]. unfold is_u64 in Hz. intros s Hs.
      apply (mr_place mm A size al c rs re s HR ltac:(lia)) in Hs as [h Hc]. by eapply Hr.
  - destruct Hop as (Hn & Hb & Hs & Hz). pose proof (mr_unlinked mm A n HR Hn Hb) as Hu.
    pose proof (mr_setup mm A n s size c HR Hu) as HR'. set (mm0 := reserve_setup n s size c mm) in *.
    assert (node_of mm0 n = {| nd_color := c; nd_start := s; nd_size := size; nd_hole_size := 0;
      nd_allocated := false; nd_scanned_block := false; nd_prev := 0 |}) as E0 by apply node_of_set_node_eq.
    assert (n ∉ ring mm0) as Hu' by done.
    destruct (reserve_spec mm0 n) as (r & E & Hr); auto; try exact (mr_ok _ _ HR'); try exact (mr_scanned _ _ HR' _).
    { apply no_callback_color_ok; apply HR'. }
    { unfold START. by rewrite E0. }
    { by rewrite E0. }
    unfold START in Hr. rewrite E0 in Hr. simpl in Hr. unfold is_u64 in Hs, Hz.
    exists r. split; [done|]. destruct r as [mm'|e].
    + destruct Hr as (Hpos & Hins & h & Hc). exists (spec_set n (s, size) A).
      split; [|by eapply mr_inserted]. constructor; [done|].
      apply (mr_free mm0 A s (s + size) HR'). unfold candidate in Hc.
      rewrite no_callback_bounds in Hc by apply HR'. destruct Hc as (Hh & H1 & H2 & _). simpl in *.
      apply (hole_free mm0 h); auto; try apply HR'; lia.
    + destruct Hr as [-> Hr]. constructor. destruct Hr as [|Hr]; [by left|].
      destruct (decide (size = 0)); [by left|right]. intros Hf.
      apply (mr_free mm0 A s (s + size) HR') in Hf.
      destruct (hole_containing mm0 s (s + size)) as (h & Hh & ? & ?); [apply HR'|lia|done|].
      apply (Hr h). unfold candidate. rewrite no_callback_bounds by apply HR'. split; [done|].
      pose proof (u64_range (HOLE_ADDR mm0 h + HOLE_SIZE mm0 h)) as Hu64.
      rewrite (proj1 (hole_end_u64 mm0 (mr_ok _ _ HR') h Hh)) in Hu64. unfold is_u64, U64_MAX in *.
      split_and!; simpl; [lia|lia|by left].
  - destruct (mr_removed mm A n HR Hop) as (mm' & E & HR'). rewrite E.
    eexists; split; [done|]. eexists; split; [constructor|done].
Qed.

(** ** Sequences of calls *)

Definition u64b (x : Z) : bool := (0 <=? x) && (x <? 2 ^ 64).

Lemma u64b_true x : u64b x = true <-> is_u64 x.
Proof. unfold u64b, is_u64. lia. Qed.

(** [op_ok] as the caller can check it. *)
Definition op_pre (mm : drm_mm) (o : mm_op) : bool :=
  match o with
  | OpInsert n size al _ rs re _ =>
    bool_decide (n ∉ ring mm) && u64b size && u64b al && u64b rs && u64b re
  | OpReserve n s size _ => bool_decide (n ∉ ring mm) && u64b s && u64b size
  | OpRemove n => bool_decide (n ∈ mm_node_list mm)
  end.

Lemma op_pre_ok mm A o : mm_rel mm A -> op_pre mm o = true -> op_ok A o.
Proof.
  intros HR. assert (forall n, n ∉ ring mm -> n <> HEAD /\ sp_blocks A !! n = None) as Hu.
  { intros n Hn. unfold ring in Hn. apply not_elem_of_cons in Hn as [? ?].
    by rewrite (mr_blocks _ _ HR), decide_False. }
  destruct o; simpl; rewrite ?andb_true_iff, ?bool_decide_eq_true, ?u64b_true.
  - intros [[[[? ?] ?] ?] ?]. destruct (Hu n); [done|by split_and!].
  - intros [[? ?] ?]. destruct (Hu n); [done|by split_and!].
  - intros Hn. rewrite (mr_blocks _ _ HR), decide_True by done. eauto.
Qed.

(** The state a failed call leaves: a node set up for a reservation stays set up. *)
Definition after_failure (o : mm_op) (mm : drm_mm) : drm_mm :=
  match o with OpReserve n s size c => reserve_setup n s size c mm | _ => mm end.

(** Runs a sequence of calls, with the error of each; [None] if a call breaks. *)
Fixpoint mm_run (ops : list mm_op) (mm : drm_mm) : option (drm_mm * list (option errno)) :=
  match ops with
  | [] => Some (mm, [])
  | o :: ops =>
    match mm_exec o mm with
    | None => None
    | Some (Ok mm') => '(m, outs) ← mm_run ops mm'; Some (m, None :: outs)
    | Some (Err e) => '(m, outs) ← mm_run ops (after_failure o mm); Some (m, Some e :: outs)
    end
  end.

Fixpoint calls_ok (ops : list mm_op) (mm : drm_mm) : bool :=
  match ops with
  | [] => true
  | o :: ops => op_pre mm o &&
    match mm_exec o mm with
    | None => true
    | Some (Ok mm') => calls_ok ops mm'
    | Some (Err _) => calls_ok ops (after_failure o mm)
    end
  end.

Inductive spec_run : list mm_op -> spec_state -> list (option errno) -> spec_state -> Prop :=
| spec_run_nil A : spec_run [] A [] A
| spec_run_ok o ops A A' A'' outs :
    spec_step o A (Ok A') -> spec_run ops A' outs A'' -> spec_run (o :: ops) A (None :: outs) A''
| spec_run_err o ops A A'' e outs :
    spec_step o A (Err e) -> spec_run ops A outs A'' -> spec_run (o :: ops) A (Some e :: outs) A''.

Lemma run_refines ops : forall mm A,
  mm_rel mm A -> calls_ok ops mm = true ->
  exists mm' outs A', mm_run ops mm = Some (mm', outs) /\ spec_run ops A outs A' /\ mm_rel mm' A'.
Proof.
  induction ops as [|o ops IH]; intros mm A HR Hc; simpl in *.
  { exists mm, [], A. split_and!; [done|constructor|done]. }
  apply andb_prop in Hc as [Hp Hc].
  destruct (exec_refines o mm A HR (op_pre_ok mm A o HR Hp)) as (r & E & Hr). rewrite E in *.
  destruct r as [mm1|e].
  - destruct Hr as (A1 & Hs & HR1). destruct (IH mm1 A1 HR1 Hc) as (mm' & outs & A' & -> & Hrun & HR').
    exists mm', (None :: outs), A'. split_and!; [done|by econstructor|done].
  - assert (mm_rel (after_failure o mm) A) as HR1.
    { destruct o; simpl in *; auto. apply mr_setup; [done|].
      rewrite !andb_true_iff, bool_decide_eq_true in Hp. tauto. }
    destruct (IH _ A HR1 Hc) as (mm' & outs & A' & -> & Hrun & HR').
    exists mm', (Some e :: outs), A'. split_and!; [done|by econstructor|done].
Qed.

(** The blocks of an abstract state are pairwise disjoint and inside the range. *)
Lemma mr_disjoint mm A i j si zi sj zj :
  mm_rel mm A -> sp_blocks A !! i = Some (si, zi) -> sp_blocks A !! j = Some (sj, zj) ->
  0 < zi /\ sp_lo A <= si /\ si + zi <= sp_hi A /\ (i <> j -> si + zi <= sj \/ sj + zj <= si).
Proof.
  intros HR Hi Hj. pose proof (mr_ok _ _ HR) as Hok. rewrite (mr_blocks _ _ HR) in Hi, Hj.
  do 2 (case_decide; [|done]). simplify_eq. rewrite <- (mr_lo _ _ HR), <- (mr_hi _ _ HR).
  pose proof (ok_node _ Hok i ltac:(done)) as [_ _ Hi0 Hiz Hie].
  pose proof (ok_node _ Hok j ltac:(done)) as [_ _ Hj0 Hjz Hje].
  destruct (ring_split mm i ltac:(by right)) as (pre & l2 & Hr).
  assert (HOLE_ADDR mm HEAD <= START mm i) as Hlow.
  { destruct pre as [|x pre] using rev_ind.
    - exfalso. unfold ring in Hr. injection Hr as <- _.
      pose proof (ok_nodup _ Hok) as Hnd. by apply NoDup_cons in Hnd as [? _].
    - pose proof (head_lowest mm x Hok) as Hx. specialize (Hx ltac:(rewrite Hr; set_solver)).
      rewrite <- app_assoc in Hr. simpl in Hr.
      pose proof (around_after mm Hok x pre (i :: l2) Hr i ltac:(set_solver)).
      destruct (around_hole mm Hok x pre (i :: l2) Hr). lia. }
  split_and!; auto. intros Hne.
  assert (j ∈ pre \/ j ∈ l2) as Hjp.
  { assert (j ∈ ring mm) as Hjr by by right. rewrite Hr in Hjr. set_solver. }
  destruct Hjp as [Hjp|Hjp].
  - right. apply list_elem_of_split in Hjp as (pj & lj & ->).
    assert (ring mm = pj ++ j :: lj ++ i :: l2) as Hrj by (rewrite Hr; by app_norm).
    pose proof (around_after mm Hok j pj _ Hrj i ltac:(set_solver)) as Ha.
    destruct (around_hole mm Hok j pj _ Hrj) as (? & _).
    rewrite (HOLE_ADDR_node mm j (ok_limit _ Hok) (ok_node _ Hok j ltac:(done))) in Ha. lia.
  - left. pose proof (around_after mm Hok i pre l2 Hr j ltac:(set_solver)) as Ha.
    destruct (around_hole mm Hok i pre l2 Hr) as (? & _).
    rewrite (HOLE_ADDR_node mm i (ok_limit _ Hok) (ok_node _ Hok i ltac:(done))) in Ha. lia.
Qed.
