(* ===== verification/MmTheorems.v ===== *)
(** * The range allocator: main theorems

    The guarantees of [drm_mm.c] for its callers, each with an instance evaluated on a
    concrete allocator. *)

From S2P Require Import Prelude RbTree IntervalTree Mm MmFacts MmSearch MmOps MmSpec.
From stdpp Require Import base gmap list option sets sorting.
From Stdlib Require Import ZArith Lia.

#[local] Set Warnings "-clear-no-such-hyp".
#[local] Open Scope Z_scope.

(** ** Concrete allocators for the instances *)

(** [drm_mm_init(start, size)] followed by calls that all return. *)
Definition sample (start size : Z) (ops : list mm_op) : drm_mm :=
  match drm_mm_init start size with
  | Some mm => match mm_run ops mm with Some (mm', _) => mm' | None => mm_zero end
  | None => mm_zero
  end.

Lemma sample_rel start size ops :
  is_u64 start -> 0 < size -> start + size < 2 ^ 64 ->
  match drm_mm_init start size with Some mm => calls_ok ops mm | None => false end = true ->
  exists A, mm_rel (sample start size ops) A.
Proof.
  intros H1 H2 H3 H4. unfold sample.
  destruct (init_ok start size H1 H2 H3) as (mm & E & Hok & Hl & Hlo & Hhi & Ha & Hsc & _). rewrite E in *.
  destruct (run_refines ops mm {| sp_lo := start; sp_hi := start + size; sp_blocks := ∅ |})
    as (mm' & outs & A' & -> & _ & HR); [|done|by exists A'].
  constructor; auto. intros i. simpl. by rewrite lookup_empty, Hl, decide_False by (inversion 1).
Qed.

(** Three nodes, the middle one removed again: nodes 1 and 3 with a hole between them. *)
Definition sample_ops : list mm_op :=
  [OpInsert 1 4096 0 0 0 U64_MAX DRM_MM_INSERT_LOW;
   OpReserve 2 8192 8192 0;
   OpInsert 3 4096 4096 0 0 U64_MAX DRM_MM_INSERT_HIGH;
   OpInsert 4 1048576 0 0 0 U64_MAX DRM_MM_INSERT_BEST;
   OpRemove 2; OpInsert 2 100 12 7 0 65536 DRM_MM_INSERT_EVICT; OpRemove 2].

Definition sample_mm : drm_mm := sample 4096 65536 sample_ops.

Lemma sample_mm_rel : exists A, mm_rel sample_mm A.
Proof. apply sample_rel; [done..|vm_compute; reflexivity]. Qed.

Lemma sample_mm_ok : mm_ok sample_mm.
Proof. destruct sample_mm_rel as [A HR]. apply HR. Qed.

(** ** Refinement *)

(** C1: starting from [drm_mm_init], every sequence of insert (all four modes), reserve and
    remove calls whose callers respect the API (a node is inserted while unlinked and removed
    while linked) runs without ever following a null or stale link or looping, and does
    exactly what the abstract allocator allows: an insertion succeeds with an aligned free
    block of the requested range (the lowest one in LOW mode, the highest in HIGH mode) or
    fails with ENOSPC when no such block exists; a reservation succeeds exactly when its range
    is free; a removal frees exactly the node's block. *)
Theorem drm_mm_refines_spec start size ops mm0 :
  is_u64 start -> 0 < size -> start + size < 2 ^ 64 ->
  drm_mm_init start size = Some mm0 -> calls_ok ops mm0 = true ->
  exists mm outs A, mm_run ops mm0 = Some (mm, outs) /\
    spec_run ops {| sp_lo := start; sp_hi := start + size; sp_blocks := ∅ |} outs A /\ mm_rel mm A.
Proof.
  intros H1 H2 H3 E Hc.
  destruct (init_ok start size H1 H2 H3) as (mm & E' & Hok & Hl & Hlo & Hhi & Ha & Hsc & _). simplify_eq.
  apply run_refines; [|done]. constructor; auto.
  intros i. simpl. by rewrite lookup_empty, Hl, decide_False by (inversion 1).
Qed.

Lemma drm_mm_refines_spec_witness :
  exists mm0, drm_mm_init 4096 65536 = Some mm0 /\
  exists mm outs A, mm_run sample_ops mm0 = Some (mm, outs) /\
    spec_run sample_ops {| sp_lo := 4096; sp_hi := 4096 + 65536; sp_blocks := ∅ |} outs A /\
    mm_rel mm A.
Proof.
  destruct (drm_mm_init 4096 65536) as [mm0|] eqn:E; [|vm_compute in E; discriminate].
  exists mm0. split; [done|].
  apply (drm_mm_refines_spec 4096 65536 sample_ops mm0); [word_const|lia|lia|exact E|].
  assert (match drm_mm_init 4096 65536 with Some mm => calls_ok sample_ops mm | None => false end = true)
    as H by (vm_compute; reflexivity).
  rewrite E in H. exact H.
Defined.

(** C5: in every state the allocator can reach, allocated nodes are non-empty, lie inside the
    managed range and never overlap. *)
Theorem drm_mm_blocks_disjoint start size ops mm0 mm outs :
  is_u64 start -> 0 < size -> start + size < 2 ^ 64 ->
  drm_mm_init start size = Some mm0 -> calls_ok ops mm0 = true -> mm_run ops mm0 = Some (mm, outs) ->
  forall i j, i ∈ mm_node_list mm -> j ∈ mm_node_list mm ->
    0 < nd_size (node_of mm i) /\ start <= nd_start (node_of mm i) /\
    nd_start (node_of mm i) + nd_size (node_of mm i) <= start + size /\
    (i <> j -> nd_start (node_of mm i) + nd_size (node_of mm i) <= nd_start (node_of mm j) \/
               nd_start (node_of mm j) + nd_size (node_of mm j) <= nd_start (node_of mm i)).
Proof.
  intros H1 H2 H3 E Hc Hrun i j Hi Hj.
  destruct (init_ok start size H1 H2 H3) as (mm' & E' & Hok & Hl & Hlo & Hhi & Ha & Hsc & _). simplify_eq.
  destruct (run_refines ops mm' {| sp_lo := START mm' HEAD - size; sp_hi := START mm' HEAD; sp_blocks := ∅ |})
    as (m & o & A & E1 & Hsp & HR); [|done|].
  { constructor; simpl; auto; [lia|]. intros k. by rewrite lookup_empty, Hl, decide_False by (inversion 1). }
  rewrite E1 in Hrun. simplify_eq.
  assert (sp_lo A = START mm' HEAD - size /\ sp_hi A = START mm' HEAD) as [Elo Ehi].
  { assert (forall os B os' B', spec_run os B os' B' -> sp_lo B' = sp_lo B /\ sp_hi B' = sp_hi B) as Hrange.
    { induction 1 as [|o B B1 B2 os os' Hs _ IH|o B B2 e os os' Hs _ IH]; auto.
      destruct IH as [-> ->]. by inversion Hs. }
    apply Hrange in Hsp. exact Hsp. }
  pose proof (mr_blocks _ _ HR i) as Bi. rewrite decide_True in Bi by done.
  pose proof (mr_blocks _ _ HR j) as Bj. rewrite decide_True in Bj by done.
  pose proof (mr_disjoint mm A i j _ _ _ _ HR Bi Bj) as Hd. rewrite Elo, Ehi in Hd.
  unfold START in *. rewrite Hhi in Hd. destruct Hd as (? & ? & ? & ?). split_and!; auto; lia.
Qed.

Lemma drm_mm_blocks_disjoint_witness :
  exists mm0 mm outs, drm_mm_init 4096 65536 = Some mm0 /\ mm_run sample_ops mm0 = Some (mm, outs) /\
    mm_node_list mm = [1; 3]%nat /\
    (nd_start (node_of mm 1) + nd_size (node_of mm 1) <= nd_start (node_of mm 3) \/
     nd_start (node_of mm 3) + nd_size (node_of mm 3) <= nd_start (node_of mm 1)).
Proof.
  destruct (drm_mm_init 4096 65536) as [mm0|] eqn:E; [|vm_compute in E; discriminate].
  assert (match drm_mm_init 4096 65536 with
    | Some mm => calls_ok sample_ops mm &&
        match mm_run sample_ops mm with Some (m, _) => bool_decide (mm_node_list m = [1; 3]%nat) | None => false end
    | None => false end = true) as H by (vm_compute; reflexivity).
  rewrite E in H. apply andb_prop in H as [Hc H].
  destruct (mm_run sample_ops mm0) as [[mm outs]|] eqn:Er; [|done]. apply bool_decide_eq_true in H.
  exists mm0, mm, outs. split_and!; auto.
  apply (drm_mm_blocks_disjoint 4096 65536 sample_ops mm0 mm outs) with (i := 1%nat) (j := 3%nat);
    [word_const|lia|lia|exact E|exact Hc|exact Er|rewrite H; by left|rewrite H; right; by left|done].
Defined.

(** ** Insertion with a driver callback *)

(** The start found by an insert call, as the caller reads it from the node. *)
Definition placed (mm' : drm_mm) (node : nat) : Z := nd_start (node_of mm' node).

(** C2: [drm_mm_insert_node_in_range] always returns.  On success the node is linked inside the
    bounds [color_adjust] left of one hole, inside the range, aligned, over no allocated
    node, and every other node is untouched; it fails only with ENOSPC, and only if the size
    is zero or no hole has room within the adjusted bounds. *)
Theorem drm_mm_insert_node_in_range_correct mm node size alignment color rs re mode :
  mm_ok mm -> color_ok mm -> node ∉ ring mm -> nd_scanned_block (node_of mm node) = false ->
  is_u64 size -> is_u64 alignment -> is_u64 rs -> is_u64 re ->
  (exists mm', drm_mm_insert_node_in_range node size alignment color rs re mode mm = Some (Ok mm') /\
     0 < size /\ (exists h, candidate mm size alignment color rs re h (placed mm' node)) /\
     rs <= placed mm' node /\ placed mm' node + size <= re /\
     (forall i, i ∈ mm_node_list mm -> disjoint_from mm (placed mm' node) (placed mm' node + size) i) /\
     inserted mm mm' node (placed mm' node) size color) \/
  (drm_mm_insert_node_in_range node size alignment color rs re mode mm = Some (Err ENOSPC) /\
     (size = 0 \/ forall h s, ~ candidate mm size alignment color rs re h s)).
Proof.
  intros Hok Hcol Hn Hsc Hz Ha Hrs Hre.
  destruct (insert_in_range_spec mm node size alignment color rs re mode) as (r & E & Hr); auto.
  destruct r as [mm'|e]; [left|right; by destruct Hr as [-> Hr]].
  destruct Hr as (Hpos & h & s & Hc & Hins & _). exists mm'. unfold placed.
  pose proof (in_start _ _ _ _ _ _ Hins) as Es. unfold START in Es. rewrite Es.
  destruct (cand_in_hole mm Hcol size alignment color rs re h s Hc) as (Hh & ? & ? & ? & ? & _).
  split_and!; eauto. intros i Hi. apply holes_elem in Hh as [Hh _]. by eapply hole_disjoint.
Qed.

Lemma insert_color_witness_pre : color_ok sample_mm.
Proof. apply no_callback_color_ok; [apply sample_mm_ok|reflexivity]. Qed.

Lemma drm_mm_insert_node_in_range_correct_witness :
  exists mm', drm_mm_insert_node_in_range 5 5000 3 0 0 65536 DRM_MM_INSERT_BEST sample_mm = Some (Ok mm') /\
    placed mm' 5 = 8193 /\ inserted sample_mm mm' 5 8193 5000 0.
Proof.
  destruct (drm_mm_insert_node_in_range_correct sample_mm 5 5000 3 0 0 65536 DRM_MM_INSERT_BEST)
    as [(mm' & E & _ & _ & _ & _ & _ & Hins)|[E _]].
  - apply sample_mm_ok.
  - apply insert_color_witness_pre.
  - apply (bool_decide_unpack _). vm_compute. exact I.
  - reflexivity.
  - word_const.
  - word_const.
  - word_const.
  - word_const.
  - exists mm'. assert (placed mm' 5 = 8193) as Hp.
    { assert (match drm_mm_insert_node_in_range 5 5000 3 0 0 65536 DRM_MM_INSERT_BEST sample_mm with
        | Some (Ok m) => placed m 5 =? 8193 | _ => false end = true) as H by (vm_compute; reflexivity).
      rewrite E in H. lia. }
    rewrite Hp in Hins. split_and!; [exact E|exact Hp|exact Hins].
  - exfalso. assert (match drm_mm_insert_node_in_range 5 5000 3 0 0 65536 DRM_MM_INSERT_BEST sample_mm with
      | Some (Ok m) => true | _ => false end = true) as H by (vm_compute; reflexivity).
    rewrite E in H. discriminate.
Defined.

(** The layout of a correct state determines its holes. *)
Lemma layout_holes mm mm' :
  mm_ok mm -> mm_ok mm' -> ring mm' = ring mm ->
  (forall i, i ∈ ring mm -> START mm' i = START mm i /\ nd_size (node_of mm' i) = nd_size (node_of mm i)) ->
  (forall i, i ∈ ring mm -> HOLE_SIZE mm' i = HOLE_SIZE mm i) /\ holes mm' = holes mm.
Proof.
  intros Hok Hok' Hr Hs. assert (forall i, i ∈ ring mm -> HOLE_SIZE mm' i = HOLE_SIZE mm i) as H.
  { intros i Hi. destruct (ring_split mm i Hi) as (pre & l2 & E).
    destruct (around_hole mm Hok i pre l2 E) as (_ & H1 & _).
    destruct (around_hole mm' Hok' i pre l2 ltac:(by rewrite Hr)) as (_ & H2 & _).
    assert (hd HEAD l2 ∈ ring mm) as Hn.
    { rewrite E. destruct l2 as [|y l2]; simpl; [|set_solver]. rewrite <- E. by left. }
    assert (HOLE_ADDR mm' i = HOLE_ADDR mm i) as Ea.
    { unfold HOLE_ADDR, __drm_mm_hole_node_start. fold (START mm' i) (START mm i).
      by destruct (Hs i Hi) as [-> ->]. }
    destruct (Hs _ Hn) as [E3 _]. rewrite E3, Ea in H2. lia. }
  split; [done|]. unfold holes. rewrite Hr. apply filter_iff_in. intros i Hi. by rewrite H.
Qed.

(** Removing a node right after a successful insertion always works and brings back the
    list of nodes, every node's record of the hole behind it, and the free holes. *)
Theorem drm_mm_insert_remove_round_trip mm node size alignment color rs re mode mm' :
  mm_ok mm -> color_ok mm -> node ∉ ring mm -> nd_scanned_block (node_of mm node) = false ->
  is_u64 size -> is_u64 alignment -> is_u64 rs -> is_u64 re ->
  drm_mm_insert_node_in_range node size alignment color rs re mode mm = Some (Ok mm') ->
  exists mm'', drm_mm_remove_node node mm' = Some mm'' /\ mm_ok mm'' /\
    mm_node_list mm'' = mm_node_list mm /\ holes mm'' = holes mm /\
    forall i, i ∈ ring mm -> START mm'' i = START mm i /\
      nd_size (node_of mm'' i) = nd_size (node_of mm i) /\ HOLE_SIZE mm'' i = HOLE_SIZE mm i.
Proof.
  intros Hok Hcol Hn Hsc Hz Ha Hrs Hre E.
  destruct (insert_in_range_spec mm node size alignment color rs re mode) as (r & E' & Hr); auto.
  rewrite E in E'. simplify_eq. destruct Hr as (Hpos & h & s & _ & Hins & _).
  destruct (in_ring _ _ _ _ _ _ Hins) as (pre & p & l2 & Hr1 & Hr2).
  destruct (remove_ok mm' (in_ok _ _ _ _ _ _ Hins) p node pre l2 Hr2)
    as (mm'' & Erm & Hok'' & Hr'' & L & _).
  assert (forall i, i ∈ ring mm -> START mm'' i = START mm i /\
    nd_size (node_of mm'' i) = nd_size (node_of mm i)) as Hlay.
  { intros i Hi. assert (i <> node) as Hne by (by intros ->).
    destruct (in_others _ _ _ _ _ _ Hins i Hne) as (E1 & E2 & _).
    by rewrite (sl_start _ _ L), (sl_size _ _ L), E1, E2. }
  assert (ring mm'' = ring mm) as Hrr by by rewrite Hr'', Hr1.
  destruct (layout_holes mm mm'' Hok Hok'' Hrr Hlay) as [Hh1 Hh2].
  exists mm''. split_and!; auto; [by injection Hrr|].
  intros i Hi. destruct (Hlay i Hi). auto.
Qed.

Lemma drm_mm_insert_remove_round_trip_witness :
  exists mm' mm'', drm_mm_insert_node_in_range 5 5000 3 0 0 65536 DRM_MM_INSERT_HIGH sample_mm = Some (Ok mm') /\
    drm_mm_remove_node 5 mm' = Some mm'' /\ holes mm'' = holes sample_mm.
Proof.
  destruct (drm_mm_insert_node_in_range 5 5000 3 0 0 65536 DRM_MM_INSERT_HIGH sample_mm) as [[mm'|e]|] eqn:E;
    [|exfalso; vm_compute in E; discriminate..].
  destruct (drm_mm_insert_remove_round_trip sample_mm 5 5000 3 0 0 65536 DRM_MM_INSERT_HIGH mm')
    as (mm'' & E2 & _ & _ & Hh & _).
  - apply sample_mm_ok.
  - apply insert_color_witness_pre.
  - apply (bool_decide_unpack _). vm_compute. exact I.
  - reflexivity.
  - word_const.
  - word_const.
  - word_const.
  - word_const.
  - exact E.
  - exists mm', mm''. split_and!; [exact eq_refl|exact E2|exact Hh].
Defined.

(** ** Queries *)

(** [__drm_mm_interval_first] (the start of [drm_mm_for_each_node_in_range]) returns the
    lowest allocated node that meets [[start, last]], and the head only if there is none. *)
Theorem drm_mm_interval_first_lowest mm start last :
  mm_ok mm ->
  let i := drm_mm_interval_first mm start last in
  let meets j := START mm j <= last /\ start < START mm j + nd_size (node_of mm j) in
  (i = HEAD /\ forall j, j ∈ mm_node_list mm -> ~ meets j) \/
  (i ∈ mm_node_list mm /\ meets i /\
   forall j, j ∈ mm_node_list mm -> meets j -> START mm i <= START mm j).
Proof.
  intros Hok. unfold drm_mm_interval_first. rewrite iter_first_spec by apply Hok.
  rewrite (ok_it_list _ Hok).
  assert (forall j, j ∈ mm_node_list mm -> LAST mm j = START mm j + nd_size (node_of mm j) - 1) as Hlast.
  { intros j Hj. destruct (ok_node _ Hok j Hj). pose proof (ok_limit _ Hok) as HL.
    unfold LAST. fold (START mm j). apply u64_small. unfold is_u64 in *. lia. }
  assert (key_sorted (START mm) (mm_node_list mm)) as Hs.
  { rewrite <- (ok_it_list _ Hok). apply (it_sorted _ _ _ (ok_it _ Hok)). }
  unfold hits. induction (mm_node_list mm) as [|x l IH]; simpl.
  { left. split; [done|]. intros j Hj. inversion Hj. }
  apply StronglySorted_inv in Hs as [Hs Hx]. rewrite Forall_forall in Hx.
  pose proof (Hlast x ltac:(by left)) as Ex.
  rewrite filter_cons. case_decide as Hd; simpl.
  - right. split_and!; [by left|lia|lia|].
    intros j [->|Hj]%elem_of_cons _; [lia|]. by apply Hx.
  - destruct IH as [[-> Hn]|(Hi & Hm & Hlow)]; auto.
    { intros j Hj. apply Hlast. by right. }
    + left. split; [done|]. intros j [->|Hj]%elem_of_cons; [lia|auto].
    + right. split_and!; [by right|lia|lia|].
      intros j [->|Hj]%elem_of_cons Hmj; [lia|auto].
Qed.

Lemma drm_mm_interval_first_lowest_witness :
  drm_mm_interval_first sample_mm 8192 U64_MAX = 3%nat /\
  START sample_mm 3 <= U64_MAX.
Proof.
  assert (drm_mm_interval_first sample_mm 8192 U64_MAX = 3%nat) as E by (vm_compute; reflexivity).
  split; [exact E|].
  pose proof (drm_mm_interval_first_lowest sample_mm 8192 U64_MAX sample_mm_ok) as H.
  cbv zeta beta in H. rewrite E in H. destruct H as [[H _]|(_ & [H _] & _)]; [inversion H|exact H].
Defined.

(** Sums over the list, as [drm_mm_print] accumulates them. *)
Definition sum_over (f : nat -> Z) (l : list nat) : Z := foldr (fun i acc => f i + acc) 0 l.

Lemma foldl_u64 (f : nat -> Z) l : forall acc,
  foldl (fun acc i => u64 (acc + f i)) (u64 acc) l = u64 (acc + sum_over f l).
Proof.
  induction l as [|x l IH]; intros acc; simpl; [by rewrite Z.add_0_r|].
  replace (u64 (u64 acc + f x)) with (u64 (acc + f x)) by (unfold u64; by rewrite Zplus_mod_idemp_l).
  rewrite IH. f_equal. lia.
Qed.

Lemma sum_over_nonneg f l : (forall i, i ∈ l -> 0 <= f i) -> 0 <= sum_over f l.
Proof.
  induction l as [|x l IH]; simpl; intros H; [lia|].
  pose proof (H x ltac:(by left)). pose proof (IH ltac:(intros; apply H; by right)). lia.
Qed.

Lemma used_and_free mm : mm_ok mm -> forall l x pre, ring mm = pre ++ x :: l ->
  HOLE_SIZE mm x + sum_over (HOLE_SIZE mm) l + sum_over (fun i => nd_size (node_of mm i)) l
  = START mm HEAD - HOLE_ADDR mm x.
Proof.
  intros Hok. induction l as [|y l IH]; intros x pre Hr;
    destruct (around_hole mm Hok x pre _ Hr) as (_ & He & _); simpl in *; [lia|].
  specialize (IH y (pre ++ [x]) ltac:(rewrite Hr; by app_norm)).
  assert (y ∈ mm_node_list mm) as Hy by (apply (around_tail mm Hok x pre _ Hr); by left).
  rewrite (HOLE_ADDR_node mm y (ok_limit _ Hok) (ok_node _ Hok y Hy)) in IH. lia.
Qed.

(** The totals [drm_mm_print] reports never wrap and account for every byte: used is the
    sum of the node sizes, free the sum of the holes, and total the managed range. *)
Theorem drm_mm_print_accounts mm :
  mm_ok mm ->
  drm_mm_print_totals mm =
    (START mm HEAD - HOLE_ADDR mm HEAD,
     sum_over (fun i => nd_size (node_of mm i)) (mm_node_list mm),
     sum_over (HOLE_SIZE mm) (ring mm)).
Proof.
  intros Hok. unfold drm_mm_print_totals.
  pose proof (used_and_free mm Hok (mm_node_list mm) HEAD [] eq_refl) as Hsum.
  assert (forall i, i ∈ ring mm -> 0 <= HOLE_SIZE mm i) as Hh.
  { intros i Hi. destruct (ring_split mm i Hi) as (pre & l2 & Hr).
    apply (around_hole mm Hok i pre l2 Hr). }
  assert (0 <= sum_over (HOLE_SIZE mm) (mm_node_list mm)) as H1.
  { apply sum_over_nonneg. intros i Hi. apply Hh. by right. }
  assert (0 <= sum_over (fun i => nd_size (node_of mm i)) (mm_node_list mm)) as H2.
  { apply sum_over_nonneg. intros i Hi. destruct (ok_node _ Hok i Hi). lia. }
  pose proof (Hh HEAD ltac:(by left)) as H0. pose proof (ok_limit _ Hok) as HL.
  pose proof (HOLE_ADDR_range mm HEAD) as HR. unfold is_u64 in HL.
  rewrite <- (u64_small (HOLE_SIZE mm HEAD)) at 1 2 by (unfold is_u64; lia).
  change 0 with (u64 0) at 1 2.
  rewrite (foldl_u64 (HOLE_SIZE mm)), (foldl_u64 (fun i => nd_size (node_of mm i))).
  simpl sum_over. rewrite !u64_small by (unfold is_u64; rewrite ?u64_small by (unfold is_u64; lia); lia).
  repeat f_equal; lia.
Qed.

Lemma drm_mm_print_accounts_witness : drm_mm_print_totals sample_mm = (65536, 8192, 57344).
Proof. rewrite (drm_mm_print_accounts sample_mm sample_mm_ok). vm_compute. reflexivity. Defined.
