(* ===== verification/MmScan.v ===== *)
(** * The range allocator: eviction scans

    A driver that finds no room adds nodes, one by one, to a scan
    ([drm_mm_scan_add_block]) until one call reports a hole, then walks the same nodes
    backwards ([drm_mm_scan_remove_block]) and evicts those the second walk selects.  This
    file shows that the backward walk restores the allocator and that evicting the
    selected nodes frees the reported block. *)

From S2P Require Import Prelude RbTree IntervalTree Mm MmFacts MmSearch MmOps MmSpec MmTheorems.
From stdpp Require Import base gmap list option sets sorting.
From Stdlib Require Import ZArith Lia.

#[local] Set Warnings "-clear-no-such-hyp".
#[local] Open Scope Z_scope.

(** ** The protocol of a scan *)

(** Add nodes until a hole is found; the nodes added, in order. *)
Fixpoint scan_add_all (scan : drm_mm_scan) (ns : list nat) (mm : drm_mm)
    : bool * list nat * drm_mm_scan * drm_mm :=
  match ns with
  | [] => (false, [], scan, mm)
  | n :: ns =>
    let '(hit, scan, mm) := drm_mm_scan_add_block scan n mm in
    if hit then (true, [n], scan, mm)
    else let '(found, added, scan, mm) := scan_add_all scan ns mm in (found, n :: added, scan, mm)
  end.

(** Take the added nodes back, last first; the nodes selected for eviction. *)
Fixpoint scan_remove_all (scan : drm_mm_scan) (added : list nat) (mm : drm_mm) : list nat * drm_mm :=
  match added with
  | [] => ([], mm)
  | n :: rest =>
    let '(evict, mm) := scan_remove_all scan rest mm in
    let '(b, mm) := drm_mm_scan_remove_block scan n mm in
    ((if b then n :: evict else evict), mm)
  end.

(** Evict the selected nodes. *)
Fixpoint remove_all (ns : list nat) (mm : drm_mm) : option drm_mm :=
  match ns with
  | [] => Some mm
  | n :: ns => mm ← drm_mm_remove_node n mm; remove_all ns mm
  end.

(** ** The backward walk restores the allocator *)

(** [mm'] is [mm] but for the stale links of the nodes [ns]. *)
Record restored (ns : list nat) (mm mm' : drm_mm) : Prop := {
  rs_other i : i ∉ ns -> node_of mm' i = node_of mm i;
  rs_node i : same_node (node_of mm' i) (node_of mm i);
  rs_list : mm_node_list mm' = mm_node_list mm;
  rs_stack : mm_hole_stack mm' = mm_hole_stack mm;
  rs_it : mm_interval_tree mm' = mm_interval_tree mm;
  rs_size : mm_holes_size mm' = mm_holes_size mm;
  rs_addr : mm_holes_addr mm' = mm_holes_addr mm;
  rs_active : mm_scan_active mm' = mm_scan_active mm;
  rs_color : mm_color_adjust mm' = mm_color_adjust mm;
}.

Lemma restored_agree ns mm mm' : restored ns mm mm' -> agree mm mm'.
Proof. intros []. constructor; auto. Qed.

Lemma scan_add_mm scan n mm :
  (drm_mm_scan_add_block scan n mm).2 =
  list_del_node n (set_node n (with_prev (list_prev_entry mm n) (with_scanned true (node_of mm n)))
    (set_scan_active (u64 (mm_scan_active mm + 1)) mm)).
Proof.
  unfold drm_mm_scan_add_block. destruct (color_bounds _ _ _ _) as [cs ce].
  by destruct (place_in _ _ _ _ _ _ _ _).
Qed.

(** One decoupled node. *)
Lemma scan_add_state scan n mm pre p l2 hit scan' mm1 :
  NoDup (ring mm) -> ring mm = pre ++ p :: n :: l2 ->
  drm_mm_scan_add_block scan n mm = (hit, scan', mm1) ->
  ring mm1 = pre ++ p :: l2 /\
  (forall i, node_of mm1 i =
     if decide (n = i) then with_prev p (with_scanned true (node_of mm n)) else node_of mm i) /\
  mm_hole_stack mm1 = mm_hole_stack mm /\ mm_interval_tree mm1 = mm_interval_tree mm /\
  mm_holes_size mm1 = mm_holes_size mm /\ mm_holes_addr mm1 = mm_holes_addr mm /\
  mm_scan_active mm1 = u64 (mm_scan_active mm + 1) /\ mm_color_adjust mm1 = mm_color_adjust mm.
Proof.
  intros Hnd Hr E. pose proof (scan_add_mm scan n mm) as Em. rewrite E in Em. simpl in Em. subst mm1.
  rewrite (pair_prev mm Hnd p n pre l2 Hr). set (mm0 := list_del_node n _).
  split_and!; try done.
  - apply (pair_del mm Hnd p n pre l2 Hr).
  - intros i. unfold mm0. change (node_of (list_del_node n ?m) i) with (node_of m i).
    by rewrite node_of_set_node.
Qed.

(** Adding a node, anything that restores the state, and taking the node back. *)
Lemma scan_remove_restores scan n mm mm1 mm2 pre p l2 rest hit scan1 b mm3 :
  NoDup (ring mm) -> ring mm = pre ++ p :: n :: l2 -> n ∉ rest ->
  nd_scanned_block (node_of mm n) = false -> 0 <= mm_scan_active mm < 2 ^ 64 - 1 ->
  drm_mm_scan_add_block scan n mm = (hit, scan1, mm1) -> restored rest mm1 mm2 ->
  drm_mm_scan_remove_block scan n mm2 = (b, mm3) -> restored (n :: rest) mm mm3.
Proof.
  intros Hnd Hr Hn Hsc Hact Hadd HR Hrem.
  destruct (scan_add_state scan n mm pre p l2 hit scan1 mm1 Hnd Hr Hadd)
    as (Hr1 & Hnodes & Es & Ei & Eh & Ea & Eact & Ec).
  destruct (pair_nodup mm Hnd p n pre l2 Hr) as (_ & Hnd1 & Hnn & Hpp & _ & _).
  unfold drm_mm_scan_remove_block in Hrem. simplify_eq.
  set (mmx := set_scan_active _ _).
  assert (node_of mm2 n = with_prev p (with_scanned true (node_of mm n))) as En.
  { rewrite (rs_other _ _ _ HR n Hn), Hnodes. by rewrite decide_True. }
  assert (forall i, node_of mmx i = if decide (n = i) then with_prev p (node_of mm n) else node_of mm2 i) as Hx.
  { intros i. unfold mmx. change (node_of (set_scan_active ?a ?m) i) with (node_of m i).
    rewrite node_of_set_node, En. case_decide; [|done]. destruct (node_of mm n). simpl in *. by subst. }
  assert (ring mmx = pre ++ p :: l2) as Hrx.
  { unfold ring. simpl. rewrite (rs_list _ _ _ HR). exact Hr1. }
  assert (list_prev_entry mmx n = p) as ->.
  { unfold list_prev_entry. rewrite decide_False.
    - by rewrite Hx, decide_True by done.
    - intros Hin. apply Hnn. rewrite <- Hrx. by right. }
  assert (ring (list_add_node n p mmx) = ring mm) as Hfinal.
  { rewrite Hr. apply ring_list_add; [by rewrite Hrx|done]. }
  constructor; simpl; rewrite ?(rs_stack _ _ _ HR), ?(rs_it _ _ _ HR), ?(rs_size _ _ _ HR),
    ?(rs_addr _ _ _ HR), ?(rs_color _ _ _ HR); auto.
  - intros i [Hi1 Hi2]%not_elem_of_cons.
    change (node_of (list_add_node n p mmx) i) with (node_of mmx i).
    rewrite Hx, decide_False, (rs_other _ _ _ HR i Hi2), Hnodes, decide_False by done. done.
  - intros i. change (node_of (list_add_node n p mmx) i) with (node_of mmx i).
    rewrite Hx. case_decide as Hi; [by subst i|].
    pose proof (rs_node _ _ _ HR i) as H. rewrite Hnodes, decide_False in H by done. exact H.
  - by injection Hfinal.
  - rewrite (rs_active _ _ _ HR), Eact, (u64_small (mm_scan_active mm + 1)) by (unfold is_u64; lia).
    rewrite u64_small by (unfold is_u64; lia). lia.
Qed.

Lemma scan_restores ns : forall scan mm,
  NoDup (ring mm) -> NoDup ns -> (forall n, n ∈ ns -> n ∈ mm_node_list mm) ->
  (forall n, n ∈ ns -> nd_scanned_block (node_of mm n) = false) ->
  0 <= mm_scan_active mm -> mm_scan_active mm + Z.of_nat (length ns) < 2 ^ 64 ->
  forall found added scan' mm1, scan_add_all scan ns mm = (found, added, scan', mm1) ->
  forall scan2 evict mm2, scan_remove_all scan2 added mm1 = (evict, mm2) ->
  restored added mm mm2 /\ added `prefix_of` ns.
Proof.
  induction ns as [|n ns IH]; intros scan mm Hnd Hns Hin Hsc Ha0 Ha1 found added scan' mm1 E scan2 evict mm2 E2.
  { simpl in E. simplify_eq/=. split; [by constructor|done]. }
  apply NoDup_cons in Hns as [Hn Hns]. simpl in E.
  pose proof (Hin n ltac:(by left)) as Hnl. apply list_elem_of_split in Hnl as (a & l2 & El).
  destruct (pair_split mm n a l2 El) as (pre & p & Hr).
  assert (nd_scanned_block (node_of mm n) = false) as Hscn by (apply Hsc; by left).
  simpl in Ha1.
  destruct (drm_mm_scan_add_block scan n mm) as [[hit scan1] mm0] eqn:Eadd.
  destruct (scan_add_state scan n mm pre p l2 hit scan1 mm0 Hnd Hr Eadd)
    as (Hr1 & Hnodes & _ & _ & _ & _ & Eact & _).
  destruct (pair_nodup mm Hnd p n pre l2 Hr) as (_ & Hnd1 & Hnn & _).
  assert (forall sc m, drm_mm_scan_remove_block sc n m =
    (fst (drm_mm_scan_remove_block sc n m), snd (drm_mm_scan_remove_block scan n m))) as Hsnd by done.
  destruct hit; simplify_eq/=.
  - destruct (drm_mm_scan_remove_block scan2 n mm1) as [b mm3] eqn:Erem. simplify_eq/=.
    rewrite Hsnd in Erem. injection Erem as _ Erem.
    split; [|by apply prefix_cons, prefix_nil].
    eapply (scan_remove_restores scan n mm mm1 mm1 pre p l2 []); eauto; try lia.
    { by inversion 1. }
    { by constructor. }
  - destruct (scan_add_all scan1 ns mm0) as [[[f ad] s] m] eqn:Eall. simplify_eq/=.
    destruct (scan_remove_all scan2 ad mm1) as [ev mmr] eqn:Eremall.
    destruct (drm_mm_scan_remove_block scan2 n mmr) as [b mm3] eqn:Erem. simplify_eq/=.
    rewrite Hsnd in Erem. injection Erem as _ Erem.
    destruct (IH scan1 mm0) with (found := found) (added := ad) (scan' := scan') (mm1 := mm1)
      (scan2 := scan2) (evict := ev) (mm2 := mmr) as [HR Hpre]; auto.
    { by rewrite Hr1. }
    { intros x Hx. assert (x ∈ ring mm0) as Hxr.
      { assert (x ∈ ring mm) as Hxr by (right; apply Hin; by right).
        rewrite Hr1. rewrite Hr in Hxr. set_solver. }
      apply elem_of_cons in Hxr as [->|?]; [|done]. exfalso.
      apply NoDup_cons in Hnd as [Hnd _]. apply Hnd, Hin. by right. }
    { intros x Hx. rewrite Hnodes, decide_False by (by intros ->). apply Hsc. by right. }
    { rewrite Eact. apply u64_range. }
    { rewrite Eact, u64_small by (unfold is_u64; lia). lia. }
    split; [|by apply prefix_cons].
    eapply (scan_remove_restores scan n mm mm0 mmr pre p l2 ad); eauto; try lia.
    { intros Hc. apply Hn. destruct Hpre as [k ->]. apply elem_of_app. by left. }
Qed.

(** ** What a hit means *)

(** Each node ends before every later one starts. *)
Lemma starts_sorted mm : mm_ok mm ->
  StronglySorted (fun a b => HOLE_ADDR mm a <= START mm b) (ring mm).
Proof.
  intros Hok. assert (forall l pre, ring mm = pre ++ l ->
    StronglySorted (fun a b => HOLE_ADDR mm a <= START mm b) l) as H; [|by apply (H _ [])].
  induction l as [|x l IHl]; intros pre Hr; constructor.
  - apply (IHl (pre ++ [x])). rewrite Hr. by app_norm.
  - apply Forall_forall. intros y Hy.
    pose proof (around_after mm Hok x pre l Hr y ltac:(apply elem_of_app; by left)).
    destruct (around_hole mm Hok x pre l Hr). lia.
Qed.

(** Nodes that stayed in the list around a gap do not reach into it. *)
Lemma gap_disjoint mm pre p l2 s e i :
  mm_ok mm -> pre ++ p :: l2 `sublist_of` ring mm ->
  HOLE_ADDR mm p <= s -> e <= START mm (hd HEAD l2) ->
  i ∈ pre ++ p :: l2 -> i ∈ mm_node_list mm -> disjoint_from mm s e i.
Proof.
  intros Hok Hsub Hs He Hi Hin. unfold disjoint_from.
  pose proof (HOLE_ADDR_node mm i (ok_limit _ Hok) (ok_node _ Hok i Hin)) as Ha.
  pose proof (addr_sorted_sublist mm _ _ Hsub (mm_addr_sorted mm Hok)) as Hadr.
  pose proof (sorted_sublist _ _ _ Hsub (starts_sorted mm Hok)) as Hst.
  apply addr_sorted_app in Hadr as (_ & Hadr2 & Hb).
  apply elem_of_app in Hi as [Hi|[->|Hi]%elem_of_cons].
  - right. specialize (Hb i p Hi ltac:(by left)). lia.
  - right. lia.
  - left. destruct l2 as [|y l2]; [inversion Hi|]. simpl in He.
    apply elem_of_cons in Hi as [->|Hi]; [done|].
    apply StronglySorted_app in Hst as (_ & _ & Hst).
    apply StronglySorted_inv in Hst as [Hst _]. apply StronglySorted_inv in Hst as [_ Hst].
    rewrite Forall_forall in Hst. specialize (Hst i Hi). simpl in Hst.
    assert (y ∈ mm_node_list mm) as Hy.
    { assert (y ∈ ring mm) as Hyr by (eapply elem_of_sublist; [|exact Hsub]; set_solver).
      apply elem_of_cons in Hyr as [->|?]; [|done]. exfalso.
      pose proof (head_lowest mm p Hok ltac:(eapply elem_of_sublist; [|exact Hsub]; set_solver)).
      apply addr_sorted_cons_inv in Hadr2 as [_ Hf]. rewrite Forall_forall in Hf.
      specialize (Hf HEAD ltac:(by left)). simpl in Hf. lia. }
    pose proof (HOLE_ADDR_node mm y (ok_limit _ Hok) (ok_node _ Hok y Hy)).
    destruct (ok_node _ Hok y Hy). lia.
Qed.

(** The hole a scan reports lies between two nodes that are still listed. *)
Lemma scan_found ns size alignment color rs re mode : forall scan mm,
  NoDup (ring mm) -> NoDup ns -> (forall n, n ∈ ns -> n ∈ mm_node_list mm) ->
  mm_color_adjust mm = None -> (forall i, i ∈ ring mm -> is_u64 (START mm i)) ->
  0 < size < 2 ^ 64 -> is_u64 alignment -> is_u64 rs -> is_u64 re ->
  (scan = drm_mm_scan_init_with_range size alignment color rs re mode) ->
  forall added scan' mm1, scan_add_all scan ns mm = (true, added, scan', mm1) ->
  exists pre p l2, ring mm1 = pre ++ p :: l2 /\ pre ++ p :: l2 `sublist_of` ring mm /\
    fits (HOLE_ADDR mm p) (START mm (hd HEAD l2)) rs re size (norm_align alignment) (sc_hit_start scan') /\
    sc_hit_end scan' = sc_hit_start scan' + size /\
    (forall i, i ∈ ring mm -> i ∈ added \/ i ∈ pre ++ p :: l2).
Proof.
  induction ns as [|n ns IH];
    intros scan mm Hnd Hns Hin Hc Hst Hsz Hal Hrs Hre Hscan added scan' mm1 E; simpl in E; [done|].
  apply NoDup_cons in Hns as [Hn Hns].
  pose proof (Hin n ltac:(by left)) as Hnl. apply list_elem_of_split in Hnl as (a & l2 & El).
  destruct (pair_split mm n a l2 El) as (pre & p & Hr).
  destruct (drm_mm_scan_add_block scan n mm) as [[hit scan1] mm0] eqn:Eadd.
  destruct (scan_add_state scan n mm pre p l2 hit scan1 mm0 Hnd Hr Eadd)
    as (Hr1 & Hnodes & _ & _ & _ & _ & _ & Ec).
  destruct (pair_nodup mm Hnd p n pre l2 Hr) as (_ & Hnd1 & Hnn & Hpp & Hpl & Hpn).
  assert (forall i, START mm0 i = START mm i /\ nd_size (node_of mm0 i) = nd_size (node_of mm i)) as Hlay.
  { intros i. unfold START. rewrite Hnodes. by case_decide; subst. }
  assert (pre ++ p :: l2 `sublist_of` ring mm) as Hsub.
  { rewrite Hr. apply sublist_app; [done|]. apply sublist_skip, sublist_cons. done. }
  assert (forall i, HOLE_ADDR mm0 i = HOLE_ADDR mm i) as Haddr.
  { intros i. unfold HOLE_ADDR, __drm_mm_hole_node_start. fold (START mm0 i) (START mm i).
    by destruct (Hlay i) as [-> ->]. }
  pose proof (scan_add_mm scan n mm) as Em. rewrite Eadd in Em. simpl in Em.
  unfold drm_mm_scan_add_block in Eadd. change (set_node n _ _) with
    (set_node n (with_prev (list_prev_entry mm n) (with_scanned true (node_of mm n)))
      (set_scan_active (u64 (mm_scan_active mm + 1)) mm)) in Eadd.
  rewrite <- Em, (pair_prev mm Hnd p n pre l2 Hr) in Eadd. clear Em.
  unfold color_bounds in Eadd. rewrite Ec, Hc in Eadd. fold (HOLE_ADDR mm0 p) in Eadd.
  rewrite Haddr in Eadd.
  assert (__drm_mm_hole_node_end mm0 p = START mm (hd HEAD l2)) as Eend.
  { unfold __drm_mm_hole_node_end, list_next_entry. rewrite Hr1, succ_in_middle by done. apply Hlay. }
  rewrite Eend in Eadd.
  assert (is_u64 (START mm (hd HEAD l2))) as Hnext.
  { apply Hst. destruct l2 as [|y l2]; [by left|]. rewrite Hr. set_solver. }
  pose proof (place_in_spec (HOLE_ADDR mm p) (START mm (hd HEAD l2)) rs re size (norm_align alignment)
    (norm_mask (norm_align alignment)) (HOLE_ADDR_range mm p) Hnext Hrs Hre Hsz
    (align_ok_norm alignment Hal) (bool_decide (mode = DRM_MM_INSERT_HIGH))) as Hp.
  rewrite Hscan in Eadd. simpl in Eadd. fold (norm_align alignment) in Eadd.
  fold (norm_mask (norm_align alignment)) in Eadd.
  destruct (place_in _ _ _ _ _ _ _ _) as [s|]; simplify_eq/=.
  - destruct Hp as [Hp _]. exists pre, p, l2. split_and!; auto.
    + destruct Hp as (? & ? & _). unfold is_u64 in *. pose proof (HOLE_ADDR_range mm p).
      apply u64_small. unfold is_u64. lia.
    + intros i Hi. rewrite Hr in Hi. set_solver.
  - destruct (scan_add_all _ ns mm0) as [[[f ad] sc] m] eqn:Eall. simplify_eq/=.
    destruct (IH (drm_mm_scan_init_with_range size alignment color rs re mode) mm0) with (added := ad) (scan' := scan') (mm1 := mm1)
      as (pre' & p' & l' & Hr' & Hsub' & Hf & Hhe & Hcov); auto.
    { by rewrite Hr1. }
    { intros x Hx. assert (x ∈ ring mm0) as Hxr.
      { assert (x ∈ ring mm) as Hxr by (right; apply Hin; by right).
        rewrite Hr1. rewrite Hr in Hxr. set_solver. }
      apply elem_of_cons in Hxr as [->|?]; [|done]. exfalso.
      apply NoDup_cons in Hnd as [Hnd _]. apply Hnd, Hin. by right. }
    { by rewrite Ec. }
    { intros i Hi. destruct (Hlay i) as [-> _]. apply Hst. rewrite Hr1 in Hi. by eapply elem_of_sublist. }
    exists pre', p', l'. rewrite Haddr, (proj1 (Hlay _)) in Hf. split_and!; auto.
    + etrans; [exact Hsub'|]. by rewrite Hr1.
    + intros i Hi. destruct (decide (i = n)) as [->|Hi']; [left; by left|].
      destruct (Hcov i) as [?|?]; [rewrite Hr1; rewrite Hr in Hi; set_solver|left; by right|by right].
Qed.

(** ** Evicting the selection *)

Definition overlaps (mm : drm_mm) (scan : drm_mm_scan) (i : nat) : Prop :=
  sc_hit_start scan < u64 (START mm i + nd_size (node_of mm i)) /\ START mm i < sc_hit_end scan.

#[global] Instance overlaps_dec mm scan i : Decision (overlaps mm scan i).
Proof. unfold overlaps. apply _. Defined.

Lemma scan_remove_layout scan added : forall mm evict mm',
  scan_remove_all scan added mm = (evict, mm') ->
  (forall i, START mm' i = START mm i /\ nd_size (node_of mm' i) = nd_size (node_of mm i)) /\
  evict = filter (fun i => overlaps mm scan i) added.
Proof.
  induction added as [|n added IH]; intros mm evict mm' E; simpl in E; [by simplify_eq|].
  destruct (scan_remove_all scan added mm) as [ev mm1] eqn:E1. destruct (IH _ _ _ E1) as [Hl ->].
  unfold drm_mm_scan_remove_block in E. simplify_eq.
  set (mmx := set_scan_active _ _).
  assert (forall i, START mmx i = START mm1 i /\ nd_size (node_of mmx i) = nd_size (node_of mm1 i)) as Hx.
  { intros i. unfold START, mmx. change (node_of (set_scan_active ?a ?m) i) with (node_of m i).
    rewrite node_of_set_node. by case_decide; subst. }
  split.
  - intros i. change (START (list_add_node ?a ?b mmx) i) with (START mmx i).
    change (node_of (list_add_node ?a ?b mmx) i) with (node_of mmx i).
    destruct (Hx i) as [-> ->]. apply Hl.
  - change (node_of (list_add_node ?a ?b mmx) n) with (node_of mmx n). fold (START mmx n).
    destruct (Hx n) as [-> ->], (Hl n) as [-> ->]. rewrite filter_cons.
    case_decide as Hd; unfold overlaps in Hd; destruct (_ && _) eqn:Eb; try done; exfalso.
    + apply andb_false_iff in Eb. lia.
    + apply andb_prop in Eb as [? ?]. lia.
Qed.

Lemma scan_add_layout ns : forall scan mm found added scan' mm1,
  scan_add_all scan ns mm = (found, added, scan', mm1) ->
  forall i, START mm1 i = START mm i /\ nd_size (node_of mm1 i) = nd_size (node_of mm i).
Proof.
  induction ns as [|n ns IH]; intros scan mm found added scan' mm1 E i; simpl in E; [by simplify_eq|].
  destruct (drm_mm_scan_add_block scan n mm) as [[hit scan1] mm0] eqn:Eadd.
  assert (forall j, START mm0 j = START mm j /\ nd_size (node_of mm0 j) = nd_size (node_of mm j)) as H0.
  { intros j. pose proof (scan_add_mm scan n mm) as Em. rewrite Eadd in Em. simpl in Em. subst mm0.
    unfold START. change (node_of (list_del_node n ?m) j) with (node_of m j).
    rewrite node_of_set_node. by case_decide; subst. }
  destruct hit; simplify_eq; [apply H0|].
  destruct (scan_add_all scan1 ns mm0) as [[[f ad] s] m] eqn:Eall. simplify_eq.
  destruct (IH _ _ _ _ _ _ Eall i) as [-> ->]. apply H0.
Qed.

Lemma remove_all_ok ns : forall mm,
  mm_ok mm -> NoDup ns -> (forall n, n ∈ ns -> n ∈ mm_node_list mm) ->
  exists mm', remove_all ns mm = Some mm' /\ mm_ok mm' /\ same_layout mm mm' /\
    mm_color_adjust mm' = mm_color_adjust mm /\
    forall i, i ∈ mm_node_list mm' <-> i ∈ mm_node_list mm /\ i ∉ ns.
Proof.
  induction ns as [|n ns IH]; intros mm Hok Hns Hin; simpl.
  { exists mm. split_and!; auto; [done|]. intros i. split; [intros; split; [done|inversion 1]|tauto]. }
  apply NoDup_cons in Hns as [Hn Hns].
  pose proof (Hin n ltac:(by left)) as Hnl. apply list_elem_of_split in Hnl as (a & l2 & El).
  destruct (pair_split mm n a l2 El) as (pre & p & Hr).
  destruct (remove_ok mm Hok p n pre l2 Hr) as (mm1 & -> & Hok1 & Hr1 & L1 & Hc1 & _). simpl.
  destruct (pair_nodup mm (ok_nodup _ Hok) p n pre l2 Hr) as (_ & _ & Hnn & _).
  assert (forall i, i ∈ mm_node_list mm1 <-> i ∈ mm_node_list mm /\ i <> n) as Hel.
  { intros i. assert (i ∈ ring mm1 <-> i ∈ ring mm /\ i <> n) as H by (rewrite Hr, Hr1; set_solver).
    pose proof (ok_nodup _ Hok) as Hd. pose proof (ok_nodup _ Hok1) as Hd1.
    apply NoDup_cons in Hd as [Hd _]. apply NoDup_cons in Hd1 as [Hd1 _].
    unfold ring in H. rewrite !elem_of_cons in H. set_solver. }
  destruct (IH mm1 Hok1 Hns) as (mm' & E & Hok' & L' & Hc' & Hel').
  { intros x Hx. apply Hel. split; [apply Hin; by right|]. by intros ->. }
  exists mm'. split_and!; auto; [by etrans|by rewrite Hc'|].
  intros i. rewrite Hel', Hel, not_elem_of_cons. tauto.
Qed.

(** A scan that found a hole, walked back. *)
Section Evict.
Context (mm : drm_mm) (Hok : mm_ok mm) (Hc : mm_color_adjust mm = None) (ns : list nat).
Context (size alignment color rs re : Z) (mode : drm_mm_insert_mode).
Hypothesis Hns : NoDup ns.
Hypothesis Hin : forall n, n ∈ ns -> n ∈ mm_node_list mm.
Hypothesis Hlen : Z.of_nat (length ns) < 2 ^ 64.
Hypothesis Hsz : 0 < size < 2 ^ 64.
Hypothesis Hal : is_u64 alignment.
Hypothesis Hrs : is_u64 rs.
Hypothesis Hre : is_u64 re.
Context (added : list nat) (scan' : drm_mm_scan) (mm1 : drm_mm) (evict : list nat) (mm2 : drm_mm).
Hypothesis E1 : scan_add_all (drm_mm_scan_init_with_range size alignment color rs re mode) ns mm
                = (true, added, scan', mm1).
Hypothesis E2 : scan_remove_all scan' added mm1 = (evict, mm2).

Lemma evict_restored : restored added mm mm2 /\ added `prefix_of` ns.
Proof.
  eapply (scan_restores ns _ mm); eauto; [apply Hok|intros n Hn; apply (ok_node _ Hok n); auto|
    by rewrite (ok_scan _ Hok)|by rewrite (ok_scan _ Hok)].
Qed.

Lemma evict_scanned n : n ∈ evict -> n ∈ added /\ n ∈ ns.
Proof.
  intros Hn. destruct (scan_remove_layout _ _ _ _ _ E2) as [_ Hev]. rewrite Hev in Hn.
  apply list_elem_of_filter in Hn as [_ Hn]. split; [done|].
  destruct evict_restored as [_ [k ->]]. apply elem_of_app. by left.
Qed.

Lemma evict_removed :
  exists mm3, remove_all evict mm2 = Some mm3 /\ mm_ok mm3 /\ mm_color_adjust mm3 = None /\
    (forall i, START mm3 i = START mm i /\ nd_size (node_of mm3 i) = nd_size (node_of mm i) /\
       nd_scanned_block (node_of mm3 i) = nd_scanned_block (node_of mm i)) /\
    (forall i, i ∈ mm_node_list mm3 <-> i ∈ mm_node_list mm /\ i ∉ evict).
Proof.
  destruct evict_restored as [HR Hpre].
  pose proof (agree_ok _ _ (restored_agree _ _ _ HR) Hok) as Hok2.
  destruct (scan_remove_layout _ _ _ _ _ E2) as [_ Hev].
  destruct (remove_all_ok evict mm2 Hok2) as (mm3 & E3 & Hok3 & L3 & Hc3 & Hel3).
  { rewrite Hev. apply NoDup_filter. destruct Hpre as [k Hk]. rewrite Hk in Hns.
    apply NoDup_app in Hns. tauto. }
  { intros n Hn. rewrite (rs_list _ _ _ HR). by apply Hin, evict_scanned. }
  exists mm3. rewrite (rs_list _ _ _ HR) in Hel3. split_and!; auto.
  - by rewrite Hc3, (rs_color _ _ _ HR).
  - intros i. unfold START. fold (START mm3 i).
    rewrite (sl_start _ _ L3), (sl_size _ _ L3), (sl_scanned _ _ L3). unfold START.
    destruct (same_node_fields _ _ (rs_node _ _ _ HR i)) as (_ & -> & -> & _ & _ & ->). done.
Qed.

Lemma evict_gap :
  fits (HOLE_ADDR mm HEAD) (START mm HEAD) rs re size (norm_align alignment) (sc_hit_start scan') /\
  forall i, i ∈ mm_node_list mm -> i ∉ evict ->
    disjoint_from mm (sc_hit_start scan') (sc_hit_start scan' + size) i.
Proof.
  destruct (scan_found ns size alignment color rs re mode
    (drm_mm_scan_init_with_range size alignment color rs re mode) mm) with (added := added)
    (scan' := scan') (mm1 := mm1)
    as (pre & p & l2 & Hr1 & Hsub & (Hf1 & Hf2 & Hf3) & Hhe & Hcov); auto; [apply Hok| |].
  { intros i Hi. pose proof (ok_limit _ Hok) as HL. apply elem_of_cons in Hi as [->|Hi]; [apply Hok|].
    destruct (ok_node _ Hok i Hi). unfold is_u64 in *. lia. }
  assert (p ∈ ring mm) as Hp by (eapply elem_of_sublist; [|exact Hsub]; set_solver).
  pose proof (head_lowest mm p Hok Hp) as Hlow.
  assert (START mm (hd HEAD l2) <= START mm HEAD) as Hhigh.
  { destruct l2 as [|y l2]; simpl; [lia|].
    assert (y ∈ ring mm) as Hy by (eapply elem_of_sublist; [|exact Hsub]; set_solver).
    apply elem_of_cons in Hy as [->|Hy]; [lia|]. destruct (ok_node _ Hok y Hy). lia. }
  split; [split_and!; [lia|lia|done]|]. intros i Hi Hni.
  destruct (Hcov i ltac:(by right)) as [Ha|Hk]; [|by eapply (gap_disjoint mm pre p l2); eauto; lia].
  destruct (scan_remove_layout _ _ _ _ _ E2) as [_ Hev].
  assert (~ overlaps mm1 scan' i) as Hno.
  { intros Ho. apply Hni. rewrite Hev. by apply list_elem_of_filter. }
  unfold overlaps in Hno. destruct (scan_add_layout _ _ _ _ _ _ _ E1 i) as [E4 E5].
  rewrite E4, E5, Hhe in Hno.
  pose proof (HOLE_ADDR_node mm i (ok_limit _ Hok) (ok_node _ Hok i Hi)) as Ei.
  unfold HOLE_ADDR, __drm_mm_hole_node_start in Ei. fold (START mm i) in Ei.
  unfold disjoint_from. lia.
Qed.

End Evict.

(** Adding any nodes to a scan and taking them back in reverse order restores the
    allocator: the node list, the hole trees and the stack, the interval tree, the scan
    counter and every node but for stale links, and the invariant still holds. *)
Theorem drm_mm_scan_round_trip mm ns scan found added scan' mm1 evict mm2 :
  mm_ok mm -> NoDup ns -> (forall n, n ∈ ns -> n ∈ mm_node_list mm) ->
  Z.of_nat (length ns) < 2 ^ 64 ->
  scan_add_all scan ns mm = (found, added, scan', mm1) ->
  scan_remove_all scan' added mm1 = (evict, mm2) ->
  restored added mm mm2 /\ mm_ok mm2 /\ added `prefix_of` ns.
Proof.
  intros Hok Hns Hin Hlen E1 E2.
  destruct (scan_restores ns scan mm) with (found := found) (added := added) (scan' := scan')
    (mm1 := mm1) (scan2 := scan') (evict := evict) (mm2 := mm2) as [HR Hpre]; auto.
  - apply Hok.
  - intros n Hn. apply (ok_node _ Hok n). auto.
  - by rewrite (ok_scan _ Hok).
  - by rewrite (ok_scan _ Hok).
  - split_and!; auto. eapply agree_ok; [by eapply restored_agree|done].
Qed.

(** C6: for an allocator without [color_adjust] callback, when a scan over distinct allocated
    nodes reports a hole, evicting the
    nodes that the backward walk selects, all of them scanned nodes, frees the reported
    block, which is aligned and inside the requested range; so an insertion with the same
    parameters then succeeds, whatever its mode. *)
Theorem drm_mm_scan_evicts_enough mm ns size alignment color rs re mode added scan' mm1 evict mm2 node mode' :
  mm_ok mm -> mm_color_adjust mm = None -> NoDup ns -> (forall n, n ∈ ns -> n ∈ mm_node_list mm) ->
  Z.of_nat (length ns) < 2 ^ 64 ->
  0 < size < 2 ^ 64 -> is_u64 alignment -> is_u64 rs -> is_u64 re ->
  node ∉ ring mm -> nd_scanned_block (node_of mm node) = false ->
  scan_add_all (drm_mm_scan_init_with_range size alignment color rs re mode) ns mm = (true, added, scan', mm1) ->
  scan_remove_all scan' added mm1 = (evict, mm2) ->
  exists mm3, remove_all evict mm2 = Some mm3 /\ mm_ok mm3 /\ (forall n, n ∈ evict -> n ∈ ns) /\
    free_range mm3 (sc_hit_start scan') (sc_hit_start scan' + size) /\
    rs <= sc_hit_start scan' /\ sc_hit_start scan' + size <= re /\
    aligned (norm_align alignment) (sc_hit_start scan') /\
    exists mm4, drm_mm_insert_node_in_range node size alignment color rs re mode' mm3 = Some (Ok mm4).
Proof.
  intros Hok Hc Hns Hin Hlen Hsz Hal Hrs Hre Hnode Hsc E1 E2.
  destruct (evict_removed mm Hok Hc ns size alignment color rs re mode Hns Hin Hlen Hsz
    added scan' mm1 evict mm2 E1 E2) as (mm3 & E3 & Hok3 & Hc3 & Hl3 & Hel3).
  destruct (evict_gap mm Hok Hc ns size alignment color rs re mode Hns Hin Hlen Hsz Hal Hrs Hre
    added scan' mm1 evict mm2 E1 E2) as [(Hf1 & Hf2 & Hf3) Hgap].
  set (s := sc_hit_start scan') in *.
  assert (free_range mm3 s (s + size)) as Hfree.
  { unfold free_range, HOLE_ADDR, __drm_mm_hole_node_start. fold (START mm3 HEAD).
    destruct (Hl3 HEAD) as (-> & -> & _).
    change (u64 (START mm HEAD + nd_size (node_of mm HEAD))) with (HOLE_ADDR mm HEAD).
    split_and!; [lia|lia|]. intros i Hi. apply Hel3 in Hi as [Hi Hni].
    unfold disjoint_from. destruct (Hl3 i) as (-> & -> & _). by apply Hgap. }
  exists mm3. split_and!; auto; try lia.
  { intros n Hn. eapply (evict_scanned mm Hok ns); eauto. }
  destruct (insert_in_range_spec mm3 node size alignment color rs re mode') as (r & Er & Hres); auto.
  { by apply no_callback_color_ok. }
  { intros [->|Hi]%elem_of_cons; [apply Hnode; by left|]. apply Hel3 in Hi as [Hi _].
    apply Hnode. by right. }
  { destruct (Hl3 node) as (_ & _ & ->). done. }
  { unfold is_u64. lia. }
  destruct r as [mm4|e]; [by exists mm4|]. exfalso. destruct Hres as [_ [?|Hres]]; [lia|].
  destruct (proj2 (candidate_free mm3 size alignment color rs re s Hok3 Hc3 ltac:(lia))) as [h Hcand].
  { split_and!; auto; lia. }
  by eapply Hres.
Qed.

Definition sample_scan : drm_mm_scan :=
  drm_mm_scan_init_with_range 65000 8 0 0 U64_MAX DRM_MM_INSERT_BEST.

Lemma drm_mm_scan_round_trip_witness :
  exists found added scan' mm1 evict mm2,
    scan_add_all sample_scan [3; 1]%nat sample_mm = (found, added, scan', mm1) /\
    scan_remove_all scan' added mm1 = (evict, mm2) /\ restored added sample_mm mm2 /\ mm_ok mm2.
Proof.
  destruct (scan_add_all sample_scan [3; 1]%nat sample_mm) as [[[f ad] s] m1] eqn:E1.
  destruct (scan_remove_all s ad m1) as [ev m2] eqn:E2.
  destruct (drm_mm_scan_round_trip sample_mm [3; 1]%nat sample_scan f ad s m1 ev m2) as (H1 & H2 & _).
  - apply sample_mm_ok.
  - apply (bool_decide_unpack _). vm_compute. exact I.
  - intros n Hn. apply (bool_decide_unpack (n ∈ mm_node_list sample_mm)).
    apply elem_of_cons in Hn as [->|Hn]; [vm_compute; exact I|].
    apply list_elem_of_singleton in Hn as ->. vm_compute. exact I.
  - reflexivity.
  - exact E1.
  - exact E2.
  - exists f, ad, s, m1, ev, m2. split_and!; [reflexivity|exact E2|exact H1|exact H2].
Defined.

Lemma drm_mm_scan_evicts_enough_witness :
  exists added scan' mm1 evict mm2 mm3,
    scan_add_all sample_scan [3; 1]%nat sample_mm = (true, added, scan', mm1) /\
    scan_remove_all scan' added mm1 = (evict, mm2) /\ remove_all evict mm2 = Some mm3 /\
    free_range mm3 (sc_hit_start scan') (sc_hit_start scan' + 65000).
Proof.
  destruct (scan_add_all sample_scan [3; 1]%nat sample_mm) as [[[f ad] s] m1] eqn:E1.
  assert ((scan_add_all sample_scan [3; 1]%nat sample_mm).1.1.1 = true) as Ef by (vm_compute; reflexivity).
  rewrite E1 in Ef. simpl in Ef. subst f.
  destruct (scan_remove_all s ad m1) as [ev m2] eqn:E2.
  destruct (drm_mm_scan_evicts_enough sample_mm [3; 1]%nat 65000 8 0 0 U64_MAX DRM_MM_INSERT_BEST
    ad s m1 ev m2 7 DRM_MM_INSERT_LOW) as (mm3 & E3 & _ & _ & Hf & _).
  - apply sample_mm_ok.
  - reflexivity.
  - apply (bool_decide_unpack _). vm_compute. exact I.
  - intros n Hn. apply (bool_decide_unpack (n ∈ mm_node_list sample_mm)).
    apply elem_of_cons in Hn as [->|Hn]; [vm_compute; exact I|].
    apply list_elem_of_singleton in Hn as ->. vm_compute. exact I.
  - reflexivity.
  - word_const.
  - word_const.
  - word_const.
  - word_const.
  - apply (bool_decide_unpack _). vm_compute. exact I.
  - reflexivity.
  - exact E1.
  - exact E2.
  - exists ad, s, m1, ev, m2, mm3. split_and!; [reflexivity|exact E2|exact E3|exact Hf].
Defined.
