(* ===== verification/Rect.v ===== *)
(** * Rectangles ([drm_rect.c], [drm_rect.h])

    Clipping, scaling and rotation of [struct drm_rect].  Coordinates are C [int]s; the
    kernel is built with wrapping signed arithmetic, so every sum, difference and product
    is reduced with [s32].  Functions that write through a pointer return the new
    rectangle. *)

From S2P Require Import Prelude.
From stdpp Require Import base list option.
From Stdlib Require Import ZArith Lia.

#[local] Open Scope Z_scope.

(** [struct drm_rect]: the points [x1 <= x < x2], [y1 <= y < y2]. *)
Record drm_rect := { x1 : Z; y1 : Z; x2 : Z; y2 : Z }.

#[global] Instance drm_rect_eq_dec : EqDecision drm_rect.
Proof. solve_decision. Defined.

Definition rect_ok (r : drm_rect) : Prop :=
  is_s32 (x1 r) /\ is_s32 (y1 r) /\ is_s32 (x2 r) /\ is_s32 (y2 r).

(** ** Inline helpers *)

Definition drm_rect_adjust_size (r : drm_rect) (dw dh : Z) : drm_rect :=
  {| x1 := s32 (x1 r - Z.shiftr dw 1); y1 := s32 (y1 r - Z.shiftr dh 1);
     x2 := s32 (x2 r + Z.shiftr (s32 (dw + 1)) 1); y2 := s32 (y2 r + Z.shiftr (s32 (dh + 1)) 1) |}.

Definition drm_rect_translate (r : drm_rect) (dx dy : Z) : drm_rect :=
  {| x1 := s32 (x1 r + dx); y1 := s32 (y1 r + dy); x2 := s32 (x2 r + dx); y2 := s32 (y2 r + dy) |}.

Definition drm_rect_downscale (r : drm_rect) (horz vert : Z) : drm_rect :=
  {| x1 := Z.quot (x1 r) horz; y1 := Z.quot (y1 r) vert;
     x2 := Z.quot (x2 r) horz; y2 := Z.quot (y2 r) vert |}.

Definition drm_rect_width (r : drm_rect) : Z := s32 (x2 r - x1 r).
Definition drm_rect_height (r : drm_rect) : Z := s32 (y2 r - y1 r).

Definition drm_rect_visible (r : drm_rect) : bool :=
  (0 <? drm_rect_width r) && (0 <? drm_rect_height r).

Definition drm_rect_equals (r1 r2 : drm_rect) : bool :=
  (x1 r1 =? x1 r2) && (x2 r1 =? x2 r2) && (y1 r1 =? y1 r2) && (y2 r1 =? y2 r2).

(** ** Clipping *)

Definition drm_rect_intersect (r1 r2 : drm_rect) : bool * drm_rect :=
  let r := {| x1 := Z.max (x1 r1) (x1 r2); y1 := Z.max (y1 r1) (y1 r2);
              x2 := Z.min (x2 r1) (x2 r2); y2 := Z.min (y2 r1) (y2 r2) |} in
  (drm_rect_visible r, r).

(** [clamp_t(int64_t, tmp, INT_MIN, INT_MAX)] *)
Definition clamp_int (tmp : Z) : Z := Z.min (Z.max tmp INT_MIN) INT_MAX.

(** Source and destination after the clip, and whether the destination is visible. *)
Definition drm_rect_clip_scaled (src dst clip : drm_rect) (hscale vscale : Z)
    : bool * drm_rect * drm_rect :=
  let diff := s32 (x1 clip - x1 dst) in
  let sx1 := if 0 <? diff then clamp_int (s64 (x1 src + s64 (diff * hscale))) else x1 src in
  let diff := s32 (y1 clip - y1 dst) in
  let sy1 := if 0 <? diff then clamp_int (s64 (y1 src + s64 (diff * vscale))) else y1 src in
  let diff := s32 (x2 dst - x2 clip) in
  let sx2 := if 0 <? diff then clamp_int (s64 (x2 src - s64 (diff * hscale))) else x2 src in
  let diff := s32 (y2 dst - y2 clip) in
  let sy2 := if 0 <? diff then clamp_int (s64 (y2 src - s64 (diff * vscale))) else y2 src in
  let src := {| x1 := sx1; y1 := sy1; x2 := sx2; y2 := sy2 |} in
  let '(vis, dst) := drm_rect_intersect dst clip in (vis, src, dst).

(** ** Scaling factors *)

Definition drm_calc_scale (src dst : Z) : result Z :=
  if (src <? 0) || (dst <? 0) then Err EINVAL
  else if dst =? 0 then Ok 0
  else Ok (Z.quot src dst).

Definition drm_rect_calc_hscale (src dst : drm_rect) (min_hscale max_hscale : Z) : result Z :=
  let src_w := drm_rect_width src in
  let dst_w := drm_rect_width dst in
  match drm_calc_scale src_w dst_w with
  | Err e => Err e
  | Ok hscale =>
    if dst_w =? 0 then Ok hscale
    else if (hscale <? min_hscale) || (max_hscale <? hscale) then Err ERANGE
    else Ok hscale
  end.

Definition drm_rect_calc_vscale (src dst : drm_rect) (min_vscale max_vscale : Z) : result Z :=
  let src_h := drm_rect_height src in
  let dst_h := drm_rect_height dst in
  match drm_calc_scale src_h dst_h with
  | Err e => Err e
  | Ok vscale =>
    if dst_h =? 0 then Ok vscale
    else if (vscale <? min_vscale) || (max_vscale <? vscale) then Err ERANGE
    else Ok vscale
  end.

(** The factor with the rectangles the function may have shrunk. *)
Definition drm_rect_calc_hscale_relaxed (src dst : drm_rect) (min_hscale max_hscale : Z)
    : result Z * drm_rect * drm_rect :=
  let src_w := drm_rect_width src in
  let dst_w := drm_rect_width dst in
  match drm_calc_scale src_w dst_w with
  | Err e => (Err e, src, dst)
  | Ok hscale =>
    if dst_w =? 0 then (Ok hscale, src, dst)
    else if hscale <? min_hscale then
      let max_dst_w := Z.quot src_w min_hscale in
      (Ok min_hscale, src, drm_rect_adjust_size dst (s32 (max_dst_w - dst_w)) 0)
    else if max_hscale <? hscale then
      let max_src_w := s32 (dst_w * max_hscale) in
      (Ok max_hscale, drm_rect_adjust_size src (s32 (max_src_w - src_w)) 0, dst)
    else (Ok hscale, src, dst)
  end.

Definition drm_rect_calc_vscale_relaxed (src dst : drm_rect) (min_vscale max_vscale : Z)
    : result Z * drm_rect * drm_rect :=
  let src_h := drm_rect_height src in
  let dst_h := drm_rect_height dst in
  match drm_calc_scale src_h dst_h with
  | Err e => (Err e, src, dst)
  | Ok vscale =>
    if dst_h =? 0 then (Ok vscale, src, dst)
    else if vscale <? min_vscale then
      let max_dst_h := Z.quot src_h min_vscale in
      (Ok min_vscale, src, drm_rect_adjust_size dst 0 (s32 (max_dst_h - dst_h)))
    else if max_vscale <? vscale then
      let max_src_h := s32 (dst_h * max_vscale) in
      (Ok max_vscale, drm_rect_adjust_size src 0 (s32 (max_src_h - src_h)), dst)
    else (Ok vscale, src, dst)
  end.

(** ** Rotation *)

Definition DRM_MODE_ROTATE_0 : Z := Z.shiftl 1 0.
Definition DRM_MODE_ROTATE_90 : Z := Z.shiftl 1 1.
Definition DRM_MODE_ROTATE_180 : Z := Z.shiftl 1 2.
Definition DRM_MODE_ROTATE_270 : Z := Z.shiftl 1 3.
Definition DRM_MODE_ROTATE_MASK : Z :=
  Z.lor (Z.lor (Z.lor DRM_MODE_ROTATE_0 DRM_MODE_ROTATE_90) DRM_MODE_ROTATE_180) DRM_MODE_ROTATE_270.
Definition DRM_MODE_REFLECT_X : Z := Z.shiftl 1 4.
Definition DRM_MODE_REFLECT_Y : Z := Z.shiftl 1 5.

Definition has_flag (v flag : Z) : bool := negb (Z.land v flag =? 0).

(** The reflection block both rotations share. *)
Definition reflect (r : drm_rect) (width height rotation : Z) : drm_rect :=
  if has_flag rotation (Z.lor DRM_MODE_REFLECT_X DRM_MODE_REFLECT_Y) then
    let tmp := r in
    let r := if has_flag rotation DRM_MODE_REFLECT_X
             then {| x1 := s32 (width - x2 tmp); y1 := y1 r; x2 := s32 (width - x1 tmp); y2 := y2 r |}
             else r in
    if has_flag rotation DRM_MODE_REFLECT_Y
    then {| x1 := x1 r; y1 := s32 (height - y2 tmp); x2 := x2 r; y2 := s32 (height - y1 tmp) |}
    else r
  else r.

Definition drm_rect_rotate (r : drm_rect) (width height rotation : Z) : drm_rect :=
  let r := reflect r width height rotation in
  let rot := Z.land rotation DRM_MODE_ROTATE_MASK in
  if rot =? DRM_MODE_ROTATE_0 then r
  else if rot =? DRM_MODE_ROTATE_90 then
    {| x1 := y1 r; x2 := y2 r; y1 := s32 (width - x2 r); y2 := s32 (width - x1 r) |}
  else if rot =? DRM_MODE_ROTATE_180 then
    {| x1 := s32 (width - x2 r); x2 := s32 (width - x1 r);
       y1 := s32 (height - y2 r); y2 := s32 (height - y1 r) |}
  else if rot =? DRM_MODE_ROTATE_270 then
    {| x1 := s32 (height - y2 r); x2 := s32 (height - y1 r); y1 := x1 r; y2 := x2 r |}
  else r.

Definition drm_rect_rotate_inv (r : drm_rect) (width height rotation : Z) : drm_rect :=
  let rot := Z.land rotation DRM_MODE_ROTATE_MASK in
  let r :=
    if rot =? DRM_MODE_ROTATE_0 then r
    else if rot =? DRM_MODE_ROTATE_90 then
      {| x1 := s32 (width - y2 r); x2 := s32 (width - y1 r); y1 := x1 r; y2 := x2 r |}
    else if rot =? DRM_MODE_ROTATE_180 then
      {| x1 := s32 (width - x2 r); x2 := s32 (width - x1 r);
         y1 := s32 (height - y2 r); y2 := s32 (height - y1 r) |}
    else if rot =? DRM_MODE_ROTATE_270 then
      {| x1 := y1 r; x2 := y2 r; y1 := s32 (height - x2 r); y2 := s32 (height - x1 r) |}
    else r in
  reflect r width height rotation.

(** ** Facts about [int] arithmetic *)

Create HintDb rect.
Create Rewrite HintDb rect.

(** Subtracting twice from the same number is the identity, also when it wraps. *)
Lemma s32_sub_sub w x : is_s32 x -> s32 (w - s32 (w - x)) = x.
Proof.
  intros H. rewrite <- (s32_small x H) at 2. unfold s32.
  set (m := (w - x + 2 ^ 31) mod 2 ^ 32).
  replace (w - (m - 2 ^ 31) + 2 ^ 31) with ((w + 2 ^ 32) - m) by lia.
  unfold m. rewrite Zminus_mod_idemp_r. f_equal.
  replace (w + 2 ^ 32 - (w - x + 2 ^ 31)) with (x + 2 ^ 31) by lia. done.
Qed.
#[export] Hint Resolve s32_range : rect.
#[export] Hint Rewrite s32_sub_sub using (auto with rect) : rect.

Lemma reflect_ok r w h rot : rect_ok r -> rect_ok (reflect r w h rot).
Proof.
  intros (? & ? & ? & ?). unfold reflect, rect_ok.
  destruct (has_flag rot (Z.lor _ _)), (has_flag rot DRM_MODE_REFLECT_X), (has_flag rot DRM_MODE_REFLECT_Y);
    simpl; auto with rect.
Qed.

Lemma reflect_reflect r w h rot : rect_ok r -> reflect (reflect r w h rot) w h rot = r.
Proof.
  intros (? & ? & ? & ?). unfold reflect.
  destruct (has_flag rot (Z.lor _ _)), (has_flag rot DRM_MODE_REFLECT_X), (has_flag rot DRM_MODE_REFLECT_Y);
    simpl; destruct r; simpl in *; autorewrite with rect; done.
Qed.

Ltac rect_cases rot :=
  destruct (Z.land rot DRM_MODE_ROTATE_MASK =? DRM_MODE_ROTATE_0),
    (Z.land rot DRM_MODE_ROTATE_MASK =? DRM_MODE_ROTATE_90),
    (Z.land rot DRM_MODE_ROTATE_MASK =? DRM_MODE_ROTATE_180),
    (Z.land rot DRM_MODE_ROTATE_MASK =? DRM_MODE_ROTATE_270).

(** For every rectangle, coordinate space and rotation (with any reflection bits, and even
    when coordinates wrap), [drm_rect_rotate_inv] undoes [drm_rect_rotate] and conversely. *)
Theorem drm_rect_rotate_round_trip r width height rotation :
  rect_ok r ->
  drm_rect_rotate_inv (drm_rect_rotate r width height rotation) width height rotation = r /\
  drm_rect_rotate (drm_rect_rotate_inv r width height rotation) width height rotation = r.
Proof.
  intros Hr. unfold drm_rect_rotate, drm_rect_rotate_inv. split.
  - pose proof (reflect_ok r width height rotation Hr) as (? & ? & ? & ?).
    etrans; [|exact (reflect_reflect r width height rotation Hr)]. f_equal.
    set (q := reflect r width height rotation) in *. clearbody q. destruct q.
    rect_cases rotation; simpl in *; autorewrite with rect; done.
  - rewrite reflect_reflect.
    + destruct Hr as (? & ? & ? & ?). destruct r.
      rect_cases rotation; simpl in *; autorewrite with rect; done.
    + destruct Hr as (? & ? & ? & ?).
      rect_cases rotation; unfold rect_ok; simpl; auto with rect.
Qed.

Lemma drm_rect_rotate_round_trip_witness :
  let r := {| x1 := -5; y1 := 7; x2 := 100; y2 := 2 ^ 31 - 1 |} in
  let rot := Z.lor DRM_MODE_ROTATE_90 DRM_MODE_REFLECT_Y in
  drm_rect_rotate r 1920 1080 rot <> r /\
  drm_rect_rotate_inv (drm_rect_rotate r 1920 1080 rot) 1920 1080 rot = r.
Proof.
  split; [vm_compute; discriminate|].
  apply drm_rect_rotate_round_trip. unfold rect_ok, is_s32; simpl; lia.
Defined.

(** The size of the space after a rotation. *)
Definition rotated_size (width height rotation : Z) : Z * Z :=
  let rot := Z.land rotation DRM_MODE_ROTATE_MASK in
  if (rot =? DRM_MODE_ROTATE_90) || (rot =? DRM_MODE_ROTATE_270) then (height, width)
  else (width, height).

Definition inside (r : drm_rect) (size : Z * Z) : Prop :=
  0 <= x1 r <= x2 r /\ x2 r <= size.1 /\ 0 <= y1 r <= y2 r /\ y2 r <= size.2.

Lemma reflect_inside r w h rot :
  is_s32 w -> is_s32 h -> inside r (w, h) ->
  inside (reflect r w h rot) (w, h) /\
  x2 (reflect r w h rot) - x1 (reflect r w h rot) = x2 r - x1 r /\
  y2 (reflect r w h rot) - y1 (reflect r w h rot) = y2 r - y1 r.
Proof.
  unfold inside, reflect, is_s32. simpl. intros Hw Hh H.
  destruct (has_flag rot (Z.lor _ _)), (has_flag rot DRM_MODE_REFLECT_X), (has_flag rot DRM_MODE_REFLECT_Y);
    simpl; rewrite ?s32_small by (unfold is_s32; lia); lia.
Qed.

(** Rotating a rectangle that lies inside the coordinate space gives a rectangle inside
    the rotated space (its sides swapped by quarter turns), of the same size up to that
    swap; no coordinate overflows. *)
Theorem drm_rect_rotate_inside r width height rotation :
  is_s32 width -> is_s32 height -> inside r (width, height) ->
  let r' := drm_rect_rotate r width height rotation in
  inside r' (rotated_size width height rotation) /\
  (x2 r' - x1 r', y2 r' - y1 r') = rotated_size (x2 r - x1 r) (y2 r - y1 r) rotation.
Proof.
  intros Hw Hh Hin. destruct (reflect_inside r width height rotation Hw Hh Hin) as (Hi & Ew & Eh).
  unfold drm_rect_rotate, rotated_size. rewrite <- Ew, <- Eh.
  set (q := reflect r width height rotation) in *. clearbody q. clear Hin Ew Eh r.
  unfold inside, is_s32 in *. simpl in *.
  destruct (Z.land rotation DRM_MODE_ROTATE_MASK =? DRM_MODE_ROTATE_0) eqn:E0;
  destruct (Z.land rotation DRM_MODE_ROTATE_MASK =? DRM_MODE_ROTATE_90) eqn:E1;
  destruct (Z.land rotation DRM_MODE_ROTATE_MASK =? DRM_MODE_ROTATE_180) eqn:E2;
  destruct (Z.land rotation DRM_MODE_ROTATE_MASK =? DRM_MODE_ROTATE_270) eqn:E3;
    try (exfalso; apply Z.eqb_eq in E0, E1; rewrite E0 in E1; discriminate);
    try (exfalso; apply Z.eqb_eq in E0, E3; rewrite E0 in E3; discriminate);
    try (exfalso; apply Z.eqb_eq in E2, E3; rewrite E2 in E3; discriminate);
    simpl; rewrite ?s32_small by (unfold is_s32; lia); split; try lia; f_equal; lia.
Qed.

Lemma drm_rect_rotate_inside_witness :
  let r' := drm_rect_rotate {| x1 := 10; y1 := 20; x2 := 110; y2 := 70 |} 1920 1080
              (Z.lor DRM_MODE_ROTATE_270 DRM_MODE_REFLECT_X) in
  inside r' (1080, 1920) /\ (x2 r' - x1 r', y2 r' - y1 r') = (50, 100).
Proof.
  apply (drm_rect_rotate_inside {| x1 := 10; y1 := 20; x2 := 110; y2 := 70 |} 1920 1080
    (Z.lor DRM_MODE_ROTATE_270 DRM_MODE_REFLECT_X)); [word_const|word_const|].
  unfold inside; simpl; lia.
Defined.

(** ** Clipping *)

Definition covers (r : drm_rect) (x y : Z) : Prop := x1 r <= x < x2 r /\ y1 r <= y < y2 r.

(** Coordinates whose differences do not overflow. *)
Definition small (r : drm_rect) : Prop :=
  - 2 ^ 30 <= x1 r < 2 ^ 30 /\ - 2 ^ 30 <= y1 r < 2 ^ 30 /\
  - 2 ^ 30 <= x2 r < 2 ^ 30 /\ - 2 ^ 30 <= y2 r < 2 ^ 30.

(** [drm_rect_intersect] computes the set of common points, and reports it visible
    exactly when there is one. *)
Theorem drm_rect_intersect_points r1 r2 :
  small r1 -> small r2 ->
  let '(visible, r) := drm_rect_intersect r1 r2 in
  (forall x y, covers r x y <-> covers r1 x y /\ covers r2 x y) /\
  (visible = true <-> exists x y, covers r1 x y /\ covers r2 x y).
Proof.
  unfold small, drm_rect_intersect, covers, drm_rect_visible, drm_rect_width, drm_rect_height. simpl.
  intros H1 H2. split; [lia|]. rewrite andb_true_iff, !Z.ltb_lt.
  rewrite !s32_small by (unfold is_s32; lia). split.
  - intros [? ?]. exists (Z.max (x1 r1) (x1 r2)), (Z.max (y1 r1) (y1 r2)). lia.
  - intros (x & y & ? & ?). lia.
Qed.

Lemma drm_rect_intersect_points_witness :
  let '(visible, r) := drm_rect_intersect {| x1 := 0; y1 := 0; x2 := 10; y2 := 10 |}
                         {| x1 := 5; y1 := -5; x2 := 20; y2 := 8 |} in
  visible = true /\ forall x y, covers r x y -> covers {| x1 := 0; y1 := 0; x2 := 10; y2 := 10 |} x y.
Proof.
  pose proof (drm_rect_intersect_points {| x1 := 0; y1 := 0; x2 := 10; y2 := 10 |}
    {| x1 := 5; y1 := -5; x2 := 20; y2 := 8 |} ltac:(unfold small; simpl; lia)
    ltac:(unfold small; simpl; lia)) as H.
  simpl in *. destruct H as [H _]. split; [reflexivity|]. intros x y Hc. apply H in Hc. apply Hc.
Defined.

(** One edge of the clip, when nothing overflows. *)
Lemma clip_low_edge s d c k :
  - 2 ^ 30 <= d < 2 ^ 30 -> - 2 ^ 30 <= c < 2 ^ 30 ->
  - 2 ^ 31 <= s -> 0 <= (Z.max d c - d) * k -> s + (Z.max d c - d) * k < 2 ^ 31 ->
  (if 0 <? s32 (c - d) then clamp_int (s64 (s + s64 (s32 (c - d) * k))) else s)
  = s + (Z.max d c - d) * k.
Proof.
  intros Hd Hc Hs Hp Hb. rewrite (s32_small (c - d)) by (unfold is_s32; lia).
  destruct (0 <? c - d) eqn:E; [|replace (Z.max d c - d) with 0 by lia; lia].
  replace (Z.max d c - d) with (c - d) in * by lia. unfold clamp_int, INT_MIN, INT_MAX.
  rewrite !s64_small; rewrite ?s64_small; lia.
Qed.

Lemma clip_high_edge s d c k :
  - 2 ^ 30 <= d < 2 ^ 30 -> - 2 ^ 30 <= c < 2 ^ 30 ->
  s < 2 ^ 31 -> 0 <= (d - Z.min d c) * k -> - 2 ^ 31 <= s - (d - Z.min d c) * k ->
  (if 0 <? s32 (d - c) then clamp_int (s64 (s - s64 (s32 (d - c) * k))) else s)
  = s - (d - Z.min d c) * k.
Proof.
  intros Hd Hc Hs Hp Hb. rewrite (s32_small (d - c)) by (unfold is_s32; lia).
  destruct (0 <? d - c) eqn:E; [|replace (d - Z.min d c) with 0 by lia; lia].
  replace (d - Z.min d c) with (d - c) in * by lia. unfold clamp_int, INT_MIN, INT_MAX.
  rewrite !s64_small; rewrite ?s64_small; lia.
Qed.

(** [drm_rect_clip_scaled] keeps the scaling exact: if the source is the destination
    scaled by whole factors and nothing overflows, then after clipping the destination is its
    intersection with the clip rectangle and the source has shrunk by exactly the scaled
    amounts, so a still visible destination keeps the same factors. *)
Theorem drm_rect_clip_scaled_exact src dst clip hscale vscale :
  small src -> small dst -> small clip ->
  x1 dst <= x2 dst -> y1 dst <= y2 dst ->
  0 <= hscale -> 0 <= vscale ->
  x2 src - x1 src = (x2 dst - x1 dst) * hscale -> y2 src - y1 src = (y2 dst - y1 dst) * vscale ->
  let '(visible, src', dst') := drm_rect_clip_scaled src dst clip hscale vscale in
  (visible, dst') = drm_rect_intersect dst clip /\
  (visible = true ->
   x1 src' = x1 src + (x1 dst' - x1 dst) * hscale /\ x2 src' = x2 src - (x2 dst - x2 dst') * hscale /\
   y1 src' = y1 src + (y1 dst' - y1 dst) * vscale /\ y2 src' = y2 src - (y2 dst - y2 dst') * vscale /\
   x2 src' - x1 src' = (x2 dst' - x1 dst') * hscale /\ y2 src' - y1 src' = (y2 dst' - y1 dst') * vscale).
Proof.
  unfold small. intros Hs Hd Hc Hdx Hdy Hh Hv Ew Eh.
  unfold drm_rect_clip_scaled, drm_rect_intersect. cbn [x1 x2 y1 y2]. split; [done|].
  unfold drm_rect_visible, drm_rect_width, drm_rect_height. cbn [x1 x2 y1 y2].
  intros Hvis. rewrite andb_true_iff, !Z.ltb_lt in Hvis.
  rewrite !s32_small in Hvis by (unfold is_s32; lia). destruct Hvis as [Hvx Hvy].
  set (cx1 := Z.max (x1 dst) (x1 clip)) in *. set (cx2 := Z.min (x2 dst) (x2 clip)) in *.
  set (cy1 := Z.max (y1 dst) (y1 clip)) in *. set (cy2 := Z.min (y2 dst) (y2 clip)) in *.
  assert (forall a k b, 0 <= a <= b -> 0 <= k -> 0 <= a * k <= b * k) as Hmul.
  { intros a k b ? ?. split; [apply Z.mul_nonneg_nonneg; lia|apply Z.mul_le_mono_nonneg_r; lia]. }
  pose proof (Hmul (cx1 - x1 dst) hscale (x2 dst - x1 dst) ltac:(lia) Hh) as P1.
  pose proof (Hmul (x2 dst - cx2) hscale (x2 dst - x1 dst) ltac:(lia) Hh) as P2.
  pose proof (Hmul (cy1 - y1 dst) vscale (y2 dst - y1 dst) ltac:(lia) Hv) as P3.
  pose proof (Hmul (y2 dst - cy2) vscale (y2 dst - y1 dst) ltac:(lia) Hv) as P4.
  rewrite !clip_low_edge, !clip_high_edge by (fold cx1 cx2 cy1 cy2; lia).
  fold cx1 cx2 cy1 cy2. split_and!; lia.
Qed.

Lemma drm_rect_clip_scaled_exact_witness :
  let src := {| x1 := 0; y1 := 0; x2 := 200; y2 := 300 |} in
  let dst := {| x1 := -10; y1 := 0; x2 := 90; y2 := 100 |} in
  let clip := {| x1 := 0; y1 := 0; x2 := 64; y2 := 480 |} in
  drm_rect_clip_scaled src dst clip 2 3 =
    (true, {| x1 := 20; y1 := 0; x2 := 148; y2 := 300 |}, {| x1 := 0; y1 := 0; x2 := 64; y2 := 100 |}) /\
  148 - 20 = (64 - 0) * 2.
Proof.
  set (src := {| x1 := 0; y1 := 0; x2 := 200; y2 := 300 |}).
  set (dst := {| x1 := -10; y1 := 0; x2 := 90; y2 := 100 |}).
  set (clip := {| x1 := 0; y1 := 0; x2 := 64; y2 := 480 |}).
  split; [reflexivity|].
  pose proof (drm_rect_clip_scaled_exact src dst clip 2 3 ltac:(unfold small; simpl; lia)
    ltac:(unfold small; simpl; lia) ltac:(unfold small; simpl; lia) ltac:(simpl; lia) ltac:(simpl; lia)
    ltac:(lia) ltac:(lia) ltac:(simpl; lia) ltac:(simpl; lia)) as H.
  vm_compute in H. destruct H as [_ H]. destruct (H eq_refl) as (_ & _ & _ & _ & E & _). exact E.
Defined.

(** ** Scaling factors *)

(** [drm_rect_adjust_size] changes the width by exactly [dw], moving the centre by less
    than one unit. *)
Lemma half_sum d : Z.shiftr d 1 + Z.shiftr (d + 1) 1 = d.
Proof. rewrite !Z.shiftr_div_pow2 by lia. change (2 ^ 1) with 2. Z.div_mod_to_equations. lia. Qed.

Lemma shiftr1_bounds d : 2 * Z.shiftr d 1 <= d < 2 * Z.shiftr d 1 + 2.
Proof. rewrite Z.shiftr_div_pow2 by lia. change (2 ^ 1) with 2. Z.div_mod_to_equations. lia. Qed.

Lemma adjust_width r dw :
  small r -> - 2 ^ 31 <= dw < 2 ^ 30 ->
  drm_rect_width (drm_rect_adjust_size r dw 0) = s32 (x2 r - x1 r + dw) /\
  drm_rect_height (drm_rect_adjust_size r dw 0) = drm_rect_height r.
Proof.
  unfold small, drm_rect_width, drm_rect_height, drm_rect_adjust_size. simpl. intros Hs Hd.
  rewrite (s32_small (dw + 1)) by (unfold is_s32; lia).
  pose proof (half_sum dw) as Hh. pose proof (shiftr1_bounds dw). pose proof (shiftr1_bounds (dw + 1)).
  rewrite (s32_small (x2 r + _)) by (unfold is_s32; lia).
  rewrite (s32_small (x1 r - _)) by (unfold is_s32; lia).
  change (Z.shiftr (s32 (0 + 1)) 1) with 0. change (Z.shiftr 0 1) with 0.
  rewrite !Z.add_0_r, !Z.sub_0_r, !(s32_small (y2 r)), !(s32_small (y1 r)) by (unfold is_s32; lia).
  split; [f_equal; lia|done].
Qed.

Lemma calc_scale_ok src dst : 0 <= src -> 0 < dst ->
  drm_calc_scale src dst = Ok (src / dst).
Proof.
  intros Hs Hd. unfold drm_calc_scale. replace (src <? 0) with false by lia.
  replace (dst <? 0) with false by lia. replace (dst =? 0) with false by lia. simpl.
  by rewrite Z.quot_div_nonneg by lia.
Qed.

(** [drm_rect_calc_hscale_relaxed] always ends within the limits: for visible rectangles it
    returns a factor in [[min, max]], never enlarges a rectangle, keeps heights, and the
    rectangles it leaves behind have exactly that factor or, when the destination was shrunk,
    at least it; it agrees with [drm_rect_calc_hscale] whenever that one succeeds. *)
Theorem drm_rect_calc_hscale_relaxed_in_range src dst min_h max_h :
  small src -> small dst -> x1 src <= x2 src -> x1 dst < x2 dst ->
  0 <= min_h <= max_h -> min_h <= x2 src - x1 src -> is_s32 max_h ->
  exists s src' dst', drm_rect_calc_hscale_relaxed src dst min_h max_h = (Ok s, src', dst') /\
    min_h <= s <= max_h /\
    drm_rect_width src' <= drm_rect_width src /\ drm_rect_width dst' <= drm_rect_width dst /\
    0 < drm_rect_width dst' /\
    drm_rect_height src' = drm_rect_height src /\ drm_rect_height dst' = drm_rect_height dst /\
    s <= drm_rect_width src' / drm_rect_width dst' /\
    (forall t, drm_rect_calc_hscale src dst min_h max_h = Ok t ->
       s = t /\ src' = src /\ dst' = dst).
Proof.
  intros Hs Hd Hsx Hdx Hm Hmin Hmax. unfold drm_rect_calc_hscale_relaxed, drm_rect_calc_hscale.
  assert (drm_rect_width src = x2 src - x1 src) as Ew
    by (unfold drm_rect_width, small in *; rewrite s32_small; [done|unfold is_s32; lia]).
  assert (drm_rect_width dst = x2 dst - x1 dst) as Ed
    by (unfold drm_rect_width, small in *; rewrite s32_small; [done|unfold is_s32; lia]).
  unfold small, is_s32 in *.
  set (w := x2 src - x1 src) in *. set (d := x2 dst - x1 dst) in *. rewrite Ew, Ed.
  rewrite calc_scale_ok by lia. replace (d =? 0) with false by lia.
  pose proof (Z.div_mod w d ltac:(lia)) as Hdm. pose proof (Z.mod_pos_bound w d ltac:(lia)).
  destruct (w / d <? min_h) eqn:E1; [|destruct (max_h <? w / d) eqn:E2].
  - pose proof (Z.div_pos w d ltac:(lia) ltac:(lia)).
    rewrite Z.quot_div_nonneg by lia. set (m := w / min_h).
    assert (1 <= m) as Hm1 by (apply Z.div_le_lower_bound; lia).
    pose proof (Z.mul_div_le w min_h ltac:(lia)) as Hmm. fold m in Hmm.
    assert (m <= d) as Hmd. { destruct (decide (m <= d)); [done|]. nia. }
    rewrite (s32_small (m - d)) by (unfold is_s32; lia).
    destruct (adjust_width dst (m - d)) as [Aw Ah]; [unfold small; lia|lia|].
    rewrite s32_small in Aw by (unfold is_s32; lia).
    eexists _, _, _. split; [done|]. rewrite Aw, Ah, Ew. fold d.
    replace (d + (m - d)) with m by lia. simpl.
    split_and!; try lia; try done.
    apply Z.div_le_lower_bound; lia.
  - set (p := d * max_h). assert (0 <= p <= w) as Hp by (unfold p; nia).
    rewrite (s32_small p) by (unfold is_s32; lia). rewrite (s32_small (p - w)) by (unfold is_s32; lia).
    destruct (adjust_width src (p - w)) as [Aw Ah]; [unfold small; lia|lia|].
    rewrite s32_small in Aw by (unfold is_s32; lia).
    eexists _, _, _. split; [done|]. rewrite Aw, Ah, Ed. fold w.
    replace (w + (p - w)) with p by lia. rewrite orb_true_r.
    split_and!; try lia; try done.
    unfold p. rewrite (Z.mul_comm d). by rewrite Z.div_mul by lia.
  - eexists _, _, _. split; [done|]. rewrite Ew, Ed. simpl. split_and!; try lia; try done.
    intros t [= <-]. done.
Qed.

Lemma drm_rect_calc_hscale_relaxed_in_range_witness :
  exists src' dst', drm_rect_calc_hscale_relaxed {| x1 := 0; y1 := 0; x2 := 100; y2 := 10 |}
      {| x1 := 0; y1 := 0; x2 := 40; y2 := 10 |} 4 8 = (Ok 4, src', dst') /\
    drm_rect_width dst' = 25 /\ 4 <= drm_rect_width src' / drm_rect_width dst'.
Proof.
  destruct (drm_rect_calc_hscale_relaxed_in_range {| x1 := 0; y1 := 0; x2 := 100; y2 := 10 |}
    {| x1 := 0; y1 := 0; x2 := 40; y2 := 10 |} 4 8) as (s & src' & dst' & E & H);
    [unfold small; simpl; lia|unfold small; simpl; lia|simpl; lia|simpl; lia|lia|simpl; lia|word_const|].
  vm_compute in E. injection E as <- <- <-. eexists _, _. split; [reflexivity|].
  split; [reflexivity|]. destruct H as (_ & _ & _ & _ & _ & _ & Hs & _). exact Hs.
Defined.
