(* ===== verification/VmaManager.v ===== *)
(** * The mmap offset manager ([drm_vma_manager.c], [drm_vma_manager.h])

    Hands out fake mmap offsets for buffer objects, finds the object behind an offset and
    keeps, per object, the reference-counted set of open files that may map it.  It is a
    client of the range allocator: what it needs of it is the class [OffsetSpace], whose
    instance for [drm_mm.c] is proved below; the manager's theorems use only the class. *)

From S2P Require Import Prelude RbTree IntervalTree Mm MmFacts MmSearch MmOps MmSpec MmTheorems.
From stdpp Require Import base gmap list option sets sorting.
From Stdlib Require Import ZArith Lia.

#[local] Set Warnings "-clear-no-such-hyp".
#[local] Open Scope Z_scope.

(** ** What the manager needs of the allocator *)

Class OffsetSpace (M : Type) := {
  os_ok : M -> Prop;
  os_nodes : M -> list nat;
  os_start : M -> nat -> Z;
  os_size : M -> nat -> Z;
  (** [drm_mm_node_allocated] *)
  os_allocated : M -> nat -> bool;
  (** [interval_tree.rb_root] *)
  os_root : M -> tree nat Z;
  (** [drm_mm_insert_node], [drm_mm_remove_node] and [memset(node, 0)] *)
  os_insert : nat -> Z -> M -> option (result M);
  os_remove : nat -> M -> option M;
  os_clear : nat -> M -> M;
  os_root_nodes m : os_ok m -> inorder (os_root m) = os_nodes m;
  os_disjoint m : os_ok m ->
    StronglySorted (fun a b => os_start m a + os_size m a <= os_start m b) (os_nodes m);
  os_bounds m i : os_ok m -> i ∈ os_nodes m ->
    0 <= os_start m i /\ 0 < os_size m i /\ os_start m i + os_size m i < 2 ^ 64;
  os_allocated_spec m i : os_ok m -> os_allocated m i = true <-> i ∈ os_nodes m;
  os_insert_spec m i size : os_ok m -> i <> HEAD -> i ∉ os_nodes m -> is_u64 size ->
    exists r, os_insert i size m = Some r /\
      match r with
      | Ok m' => os_ok m' /\ os_nodes m' ≡ₚ i :: os_nodes m /\ os_size m' i = size /\
          (forall j, j <> i -> os_start m' j = os_start m j /\ os_size m' j = os_size m j)
      | Err e => e = ENOSPC
      end;
  os_remove_spec m i : os_ok m -> i ∈ os_nodes m ->
    exists m', os_remove i m = Some m' /\ os_ok m' /\
      (forall j, j ∈ os_nodes m' <-> j ∈ os_nodes m /\ j <> i) /\
      (forall j, os_start m' j = os_start m j /\ os_size m' j = os_size m j);
  os_clear_spec m i : os_ok m -> i <> HEAD -> i ∉ os_nodes m ->
    os_ok (os_clear i m) /\ os_nodes (os_clear i m) = os_nodes m /\
    os_start (os_clear i m) i = 0 /\ os_size (os_clear i m) i = 0 /\
    (forall j, j <> i -> os_start (os_clear i m) j = os_start m j /\ os_size (os_clear i m) j = os_size m j);
}.

(** ** Offsets *)

Section Offsets.
Context {M : Type} `{OffsetSpace M}.

(** The descent: the last node at or below [start]. *)
Fixpoint lookup_walk (m : M) (start : Z) (t : tree nat Z) (best : option nat) : option nat :=
  match t with
  | Leaf => best
  | Node _ l k _ r =>
    let offset := os_start m k in
    if offset <=? start then
      if start =? offset then Some k else lookup_walk m start r (Some k)
    else lookup_walk m start l best
  end.

Definition drm_vma_offset_lookup_locked (m : M) (start pages : Z) : option nat :=
  match lookup_walk m start (os_root m) None with
  | Some best =>
    let offset := u64 (os_start m best + os_size m best) in
    if offset <? u64 (start + pages) then None else Some best
  | None => None
  end.

Definition drm_vma_offset_exact_lookup_locked (m : M) (start pages : Z) : option nat :=
  match drm_vma_offset_lookup_locked m start pages with
  | Some node => if os_start m node =? start then Some node else None
  | None => None
  end.

Definition drm_vma_offset_add (node : nat) (pages : Z) (m : M) : option (result M) :=
  if os_allocated m node then Some (Ok m) else os_insert node pages m.

Definition drm_vma_offset_remove (node : nat) (m : M) : option M :=
  if os_allocated m node then m ← os_remove node m; Some (os_clear node m) else Some m.

Definition PAGE_SHIFT : Z := 12.

Definition drm_vma_node_start (m : M) (node : nat) : Z := os_start m node.
Definition drm_vma_node_size (m : M) (node : nat) : Z := os_size m node.
Definition drm_vma_node_offset_addr (m : M) (node : nat) : Z :=
  u64 (Z.shiftl (os_start m node) PAGE_SHIFT).

(** The walk returns the last node of the list that starts at or below [start]. *)
Lemma lookup_walk_spec m start t : forall best,
  StronglySorted (fun a b => os_start m a < os_start m b) (inorder t) ->
  exists a b, inorder t = a ++ b /\ (forall x, x ∈ a -> os_start m x <= start) /\
    (forall x, x ∈ b -> start < os_start m x) /\
    lookup_walk m start t best = match last a with Some x => Some x | None => best end.
Proof.
  induction t as [|c l IHl k g r IHr]; intros best Hs; simpl.
  { exists [], []. split_and!; try done; intros x Hx; inversion Hx. }
  simpl in Hs. apply StronglySorted_app in Hs as (Hlk & Hl & Hr).
  apply StronglySorted_inv in Hr as [Hr Hk]. rewrite Forall_forall in Hk.
  assert (forall x, x ∈ inorder l -> os_start m x < os_start m k) as Hlk'
    by (intros x Hx; apply Hlk; [done|by left]).
  destruct (os_start m k <=? start) eqn:E; [destruct (start =? os_start m k) eqn:E2|].
  - exists (inorder l ++ [k]), (inorder r). split_and!; [by app_norm| | |by rewrite last_snoc].
    + intros x [Hx| ->%list_elem_of_singleton]%elem_of_app; [|lia]. specialize (Hlk' x Hx). lia.
    + intros x Hx. specialize (Hk x Hx). simpl in Hk. lia.
  - destruct (IHr (Some k) Hr) as (a & b & Hab & Ha & Hb & ->).
    exists (inorder l ++ k :: a), b. rewrite Hab. split_and!; [by app_norm| |done|].
    + intros x [Hx|[->|Hx]%elem_of_cons]%elem_of_app; [|lia|auto]. specialize (Hlk' x Hx). lia.
    + rewrite last_app_cons, last_cons. by destruct (last a).
  - destruct (IHl best Hl) as (a & b & Hab & Ha & Hb & ->).
    exists a, (b ++ k :: inorder r). rewrite Hab. split_and!; [by app_norm|done| |done].
    intros x [Hx|[->|Hx]%elem_of_cons]%elem_of_app; [auto|lia|]. specialize (Hk x Hx). simpl in Hk. lia.
Qed.

Lemma os_starts_sorted m : os_ok m -> StronglySorted (fun a b => os_start m a < os_start m b) (os_nodes m).
Proof.
  intros Hok. pose proof (os_disjoint m Hok) as Hs.
  assert (forall i, i ∈ os_nodes m -> 0 < os_size m i) as Hb by (intros i Hi; by apply os_bounds).
  induction Hs as [|x l Hs IH Hx]; constructor; [apply IH; intros; apply Hb; by right|].
  rewrite Forall_forall in *. intros y Hy. specialize (Hx y Hy). specialize (Hb x ltac:(by left)). lia.
Qed.

(** [[s, e)] lies inside the area of [i]. *)
Definition spans (m : M) (i : nat) (s e : Z) : Prop :=
  i ∈ os_nodes m /\ os_start m i <= s /\ e <= os_start m i + os_size m i.

Lemma lookup_spec m start pages n :
  os_ok m -> 0 <= start -> 0 < pages -> start + pages < 2 ^ 64 ->
  drm_vma_offset_lookup_locked m start pages = Some n <-> spans m n start (start + pages).
Proof.
  intros Hok Hs Hp Hlt. unfold drm_vma_offset_lookup_locked, spans.
  pose proof (os_starts_sorted m Hok) as Hsort. rewrite <- (os_root_nodes m Hok) in *.
  destruct (lookup_walk_spec m start (os_root m) None Hsort) as (a & b & Hab & Ha & Hb & ->).
  rewrite (u64_small (start + pages)) by (unfold is_u64; lia).
  assert (forall i, i ∈ a ++ b -> 0 <= os_start m i /\ 0 < os_size m i /\
    os_start m i + os_size m i < 2 ^ 64) as Hbd.
  { intros i Hi. apply os_bounds; [done|]. rewrite <- (os_root_nodes m Hok), Hab. done. }
  rewrite Hab. destruct (last a) as [x|] eqn:El.
  - apply last_Some in El as [a' ->].
    assert (x ∈ (a' ++ [x]) ++ b) as Hxin by (apply elem_of_app; left; apply elem_of_app; right; by left).
    destruct (Hbd x Hxin) as (? & ? & ?). rewrite (u64_small (os_start m x + _)) by (unfold is_u64; lia).
    assert (os_start m x <= start) by (apply Ha; apply elem_of_app; right; by left).
    split.
    + destruct (_ <? _) eqn:E; [done|]. intros [= ->]. split_and!; [done|done|lia].
    + intros (Hn & Hge & Hle). assert (n = x) as ->; [|by replace (_ <? _) with false by lia].
      apply elem_of_app in Hn as [[Hn| ->%list_elem_of_singleton]%elem_of_app|Hn]; [|done|].
      * exfalso. pose proof (os_disjoint m Hok) as Hd. rewrite <- (os_root_nodes m Hok), Hab in Hd.
        rewrite <- app_assoc in Hd. apply StronglySorted_app in Hd as (Hd & _ & _).
        specialize (Hd n x Hn ltac:(by left)). simpl in Hd. lia.
      * specialize (Hb n Hn). lia.
  - apply last_None in El as ->. split; [done|]. intros (Hn & Hge & _). specialize (Hb n Hn). lia.
Qed.

(** C7: [drm_vma_offset_lookup_locked] (the lookup behind every mmap of a buffer) returns a
    node exactly when that node's area contains the whole requested page range; so it never
    returns a wrong object and never misses one. *)
Theorem drm_vma_offset_lookup_correct m start pages n :
  os_ok m -> 0 <= start -> 0 < pages -> start + pages < 2 ^ 64 ->
  (drm_vma_offset_lookup_locked m start pages = Some n <->
   n ∈ os_nodes m /\ os_start m n <= start /\ start + pages <= os_start m n + os_size m n) /\
  (drm_vma_offset_exact_lookup_locked m start pages = Some n <->
   n ∈ os_nodes m /\ os_start m n = start /\ pages <= os_size m n).
Proof.
  intros Hok Hs Hp Hlt. pose proof (fun k => lookup_spec m start pages k Hok Hs Hp Hlt) as Hl.
  split; [apply Hl|]. unfold drm_vma_offset_exact_lookup_locked.
  destruct (drm_vma_offset_lookup_locked m start pages) as [k|].
  - destruct (proj1 (Hl k) eq_refl) as (Hk & Hk1 & Hk2). split.
    + destruct (os_start m k =? start) eqn:E; [|done]. intros [= <-]. split_and!; [done|lia|lia].
    + intros (Hn & Hn1 & Hn2). assert (Some k = Some n) as [= ->] by (apply Hl; split_and!; [done|lia|lia]).
      by rewrite Hn1, Z.eqb_refl.
  - split; [done|]. intros (Hn & Hn1 & Hn2). apply Hl. split_and!; [done|lia|lia].
Qed.

(** [drm_vma_offset_add] is total and idempotent, keeps every other object's offset, and
    after it succeeds every page range inside the object's area is found;
    [drm_vma_offset_remove] undoes it: the offset and size read as zero, no lookup returns
    the object any more, and the other objects keep their offsets. *)
Theorem drm_vma_offset_add_remove m node pages :
  os_ok m -> node <> HEAD -> is_u64 pages ->
  (os_allocated m node = true -> drm_vma_offset_add node pages m = Some (Ok m)) /\
  exists r, drm_vma_offset_add node pages m = Some r /\
    match r with
    | Err e => e = ENOSPC
    | Ok m' =>
      os_ok m' /\ node ∈ os_nodes m' /\ (node ∉ os_nodes m -> drm_vma_node_size m' node = pages) /\
      (forall i, i <> node -> drm_vma_node_start m' i = drm_vma_node_start m i) /\
      (forall s p, drm_vma_node_start m' node <= s -> 0 < p ->
         s + p <= drm_vma_node_start m' node + drm_vma_node_size m' node ->
         drm_vma_offset_lookup_locked m' s p = Some node) /\
      exists m'', drm_vma_offset_remove node m' = Some m'' /\ os_ok m'' /\
        drm_vma_node_start m'' node = 0 /\ drm_vma_node_size m'' node = 0 /\
        (forall i, i <> node -> drm_vma_node_start m'' i = drm_vma_node_start m i) /\
        (forall s p, 0 <= s -> 0 < p -> s + p < 2 ^ 64 ->
           drm_vma_offset_lookup_locked m'' s p <> Some node)
    end.
Proof.
  intros Hok Hnode Hpg. unfold drm_vma_offset_add, drm_vma_node_start, drm_vma_node_size.
  split; [by intros ->|].
  assert (exists r, (if os_allocated m node then Some (Ok m) else os_insert node pages m) = Some r /\
    match r with
    | Ok m' => os_ok m' /\ node ∈ os_nodes m' /\ (node ∉ os_nodes m -> os_size m' node = pages) /\
        (forall i, i <> node -> os_start m' i = os_start m i)
    | Err e => e = ENOSPC
    end) as (r & E & Hr).
  { destruct (os_allocated m node) eqn:Ea.
    - exists (Ok m). apply os_allocated_spec in Ea; [|done]. by split_and!.
    - assert (node ∉ os_nodes m) as Hn.
      { intros Hn. apply os_allocated_spec in Hn; [|done]. congruence. }
      destruct (os_insert_spec m node pages Hok Hnode Hn Hpg) as (r & E & Hr).
      exists r. split; [done|]. destruct r as [m'|e]; [|done].
      destruct Hr as (Hok' & Hl & Hz & Ho). split_and!; auto.
      + rewrite Hl. by left.
      + intros i Hi. by apply Ho. }
  exists r. split; [done|]. destruct r as [m'|e]; [|done].
  destruct Hr as (Hok' & Hin & Hz & Ho). split_and!; auto.
  - intros s p Hs Hp Hle. destruct (os_bounds m' node Hok' Hin) as (? & ? & ?).
    apply lookup_spec; [done|lia|done|lia|]. split_and!; [done|done|lia].
  - unfold drm_vma_offset_remove.
    rewrite (proj2 (os_allocated_spec m' node Hok') Hin).
    destruct (os_remove_spec m' node Hok' Hin) as (m1 & -> & Hok1 & Hel & Hlay). simpl.
    assert (node ∉ os_nodes m1) as Hn1 by (rewrite Hel; naive_solver).
    destruct (os_clear_spec m1 node Hok1 Hnode Hn1) as (Hok2 & Hl2 & Hs2 & Hz2 & Ho2).
    exists (os_clear node m1). split_and!; auto.
    + intros i Hi. destruct (Ho2 i Hi) as [-> _]. destruct (Hlay i) as [-> _]. auto.
    + intros s p Hs Hp Hlt Hl. apply lookup_spec in Hl as [Hl _]; [|done..]. by rewrite Hl2 in Hl.
Qed.

End Offsets.

(** ** The range allocator provides an offset space *)

Record mm_space (mm : drm_mm) : Prop := {
  ms_ok : mm_ok mm;
  ms_color : mm_color_adjust mm = None;
  ms_scanned i : nd_scanned_block (node_of mm i) = false;
  ms_unlinked i : i ∉ mm_node_list mm -> nd_allocated (node_of mm i) = false;
}.

Lemma mm_space_sorted mm : mm_space mm ->
  StronglySorted (fun a b => START mm a + nd_size (node_of mm a) <= START mm b) (mm_node_list mm).
Proof.
  intros [Hok _ _ _]. assert (forall l pre, ring mm = pre ++ l -> (forall i, i ∈ l -> i ∈ mm_node_list mm) ->
    StronglySorted (fun a b => START mm a + nd_size (node_of mm a) <= START mm b) l) as H;
    [|by apply (H _ [HEAD])].
  induction l as [|x l IHl]; intros pre Hr Hin; constructor.
  - apply (IHl (pre ++ [x])); [rewrite Hr; by app_norm|]. intros i Hi. apply Hin. by right.
  - apply Forall_forall. intros y Hy.
    pose proof (around_after mm Hok x pre l Hr y ltac:(apply elem_of_app; by left)).
    destruct (around_hole mm Hok x pre l Hr) as [? _].
    rewrite (HOLE_ADDR_node mm x (ok_limit _ Hok)) in *; [lia|].
    apply (ok_node _ Hok), Hin. by left.
Qed.

Lemma mm_space_insert mm i size : mm_space mm -> i <> HEAD -> i ∉ mm_node_list mm -> is_u64 size ->
  exists r, drm_mm_insert_node i size mm = Some r /\
    match r with
    | Ok m' => mm_space m' /\ mm_node_list m' ≡ₚ i :: mm_node_list mm /\ nd_size (node_of m' i) = size /\
        (forall j, j <> i -> START m' j = START mm j /\ nd_size (node_of m' j) = nd_size (node_of mm j))
    | Err e => e = ENOSPC
    end.
Proof.
  intros [Hok Hc Hsc Hul] Hh Hn Hz.
  destruct (insert_in_range_spec mm i size 0 0 0 U64_MAX DRM_MM_INSERT_BEST) as (r & E & Hr);
    auto; try word_const.
  { by apply no_callback_color_ok. }
  { by apply not_elem_of_cons. }
  exists r. split; [exact E|]. destruct r as [m'|e]; [|apply Hr].
  destruct Hr as (_ & h & s & _ & Hins & _). pose proof (in_list _ _ _ _ _ _ Hins) as Hl.
  destruct Hins as [Hok' _ Hs Hz' _ Ho Ha]. split_and!; auto.
  - constructor; [done|by rewrite Ha| |].
    + intros j. destruct (decide (j = i)) as [->|Hj]; [apply (ok_node _ Hok'); rewrite Hl; by left|].
      by destruct (Ho j Hj) as (_ & _ & _ & -> & _).
    + intros j Hj. rewrite Hl in Hj. apply not_elem_of_cons in Hj as [Hj1 Hj2].
      destruct (Ho j Hj1) as (_ & _ & _ & _ & ->). auto.
  - intros j Hj. by destruct (Ho j Hj) as (-> & -> & _).
Qed.

Lemma mm_space_remove mm i : mm_space mm -> i ∈ mm_node_list mm ->
  exists m', drm_mm_remove_node i mm = Some m' /\ mm_space m' /\
    (forall j, j ∈ mm_node_list m' <-> j ∈ mm_node_list mm /\ j <> i) /\
    (forall j, START m' j = START mm j /\ nd_size (node_of m' j) = nd_size (node_of mm j)).
Proof.
  intros [Hok Hc Hsc Hul] Hi. apply list_elem_of_split in Hi as (l1 & l2 & El).
  destruct (pair_split mm i l1 l2 El) as (pre & p & Hr).
  destruct (remove_ok mm Hok p i pre l2 Hr) as (m' & E & Hok' & Hr' & L & Hc' & Hal).
  destruct (pair_nodup mm (ok_nodup _ Hok) p i pre l2 Hr) as (_ & _ & Hnn & _).
  assert (forall j, j ∈ mm_node_list m' <-> j ∈ mm_node_list mm /\ j <> i) as Hel.
  { intros j. assert (j ∈ ring m' <-> j ∈ ring mm /\ j <> i) as Hj by (rewrite Hr, Hr'; set_solver).
    pose proof (ok_nodup _ Hok) as Hd. pose proof (ok_nodup _ Hok') as Hd'.
    apply NoDup_cons in Hd as [Hd _]. apply NoDup_cons in Hd' as [Hd' _].
    unfold ring in Hj. rewrite !elem_of_cons in Hj. set_solver. }
  exists m'. split_and!; auto.
  - constructor; [done|by rewrite Hc'| |].
    + intros j. by rewrite (sl_scanned _ _ L).
    + intros j Hj. rewrite Hal. case_decide; [done|]. apply Hul. rewrite Hel in Hj. naive_solver.
  - intros j. by rewrite (sl_start _ _ L), (sl_size _ _ L).
Qed.

Lemma mm_space_clear mm i : mm_space mm -> i <> HEAD -> i ∉ mm_node_list mm ->
  mm_space (set_node i node_zero mm).
Proof.
  intros [Hok Hc Hsc Hul] Hh Hn.
  pose proof (agree_set_node mm i node_zero ltac:(by apply not_elem_of_cons)) as Hag.
  constructor; auto.
  - by eapply agree_ok.
  - intros j. rewrite node_of_set_node. by case_decide.
  - intros j Hj. rewrite node_of_set_node. case_decide; [done|auto].
Qed.

#[global] Program Instance drm_mm_offset_space : OffsetSpace drm_mm := {|
  os_ok := mm_space; os_nodes := mm_node_list; os_start := START;
  os_size := fun mm i => nd_size (node_of mm i);
  os_allocated := fun mm i => nd_allocated (node_of mm i);
  os_root := fun mm => rb_root (mm_interval_tree mm);
  os_insert := drm_mm_insert_node; os_remove := drm_mm_remove_node;
  os_clear := fun i mm => set_node i node_zero mm |}.
Next Obligation. intros m H. apply (ok_it_list _ (ms_ok _ H)). Qed.
Next Obligation. apply mm_space_sorted. Qed.
Next Obligation.
  intros m i H Hi. destruct (ok_node _ (ms_ok _ H) i Hi). pose proof (ok_limit _ (ms_ok _ H)) as HL.
  unfold is_u64 in HL. lia.
Qed.
Next Obligation.
  intros m i H. split.
  - intros Ha. destruct (decide (i ∈ mm_node_list m)); [done|]. by rewrite (ms_unlinked _ H) in Ha.
  - intros Hi. apply (ok_node _ (ms_ok _ H) i Hi).
Qed.
Next Obligation. apply mm_space_insert. Qed.
Next Obligation. apply mm_space_remove. Qed.
Next Obligation.
  intros m i H Hh Hn. split_and!; [by apply mm_space_clear|done| | |].
  - unfold START. by rewrite node_of_set_node_eq.
  - by rewrite node_of_set_node_eq.
  - intros j Hj. unfold START. by rewrite node_of_set_node_ne.
Qed.

Definition drm_vma_offset_manager_init (page_offset size : Z) : option drm_mm :=
  drm_mm_init page_offset size.

Lemma manager_init_space page_offset size :
  is_u64 page_offset -> 0 < size -> page_offset + size < 2 ^ 64 ->
  exists mm, drm_vma_offset_manager_init page_offset size = Some mm /\ mm_space mm.
Proof.
  intros H1 H2 H3. destruct (init_ok page_offset size H1 H2 H3) as (mm & E & Hok & Hl & _ & _ & Hc & Hs & Ha).
  exists mm. split; [done|]. by constructor.
Qed.

(** A manager with two objects, for the instances below. *)
Definition vma_sample : drm_mm :=
  default mm_zero (
    m ← drm_vma_offset_manager_init 1048576 4096;
    r ← drm_vma_offset_add 1 16 m;
    match r with
    | Ok m => r ← drm_vma_offset_add 2 3 m; match r with Ok m => Some m | Err _ => None end
    | Err _ => None
    end).

Lemma vma_sample_space : os_ok vma_sample.
Proof.
  destruct (manager_init_space 1048576 4096 ltac:(word_const) ltac:(lia) ltac:(lia)) as (m & E & Hm).
  assert (match drm_vma_offset_manager_init 1048576 4096 with
    | Some m => match drm_vma_offset_add 1 16 m with
        | Some (Ok m1) => match drm_vma_offset_add 2 3 m1 with Some (Ok _) => true | _ => false end
        | _ => false end
    | None => false end = true) as Hc by (vm_compute; reflexivity).
  assert (os_ok m) as Hok by exact Hm. unfold vma_sample. rewrite E in *. cbn [mbind option_bind].
  destruct (drm_vma_offset_add_remove m 1 16 Hok ltac:(done) ltac:(word_const)) as (_ & r & E1 & H1).
  rewrite E1 in *. destruct r as [m1|]; [|done]. cbn [mbind option_bind].
  destruct (drm_vma_offset_add_remove m1 2 3 (proj1 H1) ltac:(done) ltac:(word_const)) as (_ & r & E2 & H2).
  rewrite E2 in *. destruct r as [m2|]; [|done]. simpl. apply H2.
Qed.

Lemma drm_vma_offset_lookup_correct_witness :
  drm_vma_offset_lookup_locked vma_sample 1048580 4 = Some 1%nat /\
  (1%nat ∈ os_nodes vma_sample /\ os_start vma_sample 1 <= 1048580 /\
   1048580 + 4 <= os_start vma_sample 1 + os_size vma_sample 1).
Proof.
  assert (drm_vma_offset_lookup_locked vma_sample 1048580 4 = Some 1%nat) as E by (vm_compute; reflexivity).
  split; [exact E|].
  apply (drm_vma_offset_lookup_correct vma_sample 1048580 4 1 vma_sample_space); [lia|lia|lia|exact E].
Defined.

Lemma drm_vma_offset_add_remove_witness :
  exists m', drm_vma_offset_add 3 40 vma_sample = Some (Ok m') /\ drm_vma_node_size m' 3 = 40 /\
    exists m'', drm_vma_offset_remove 3 m' = Some m'' /\ drm_vma_node_size m'' 3 = 0.
Proof.
  destruct (drm_vma_offset_add_remove vma_sample 3 40 vma_sample_space ltac:(discriminate) ltac:(word_const))
    as (_ & r & E & Hr).
  assert (match drm_vma_offset_add 3 40 vma_sample with Some (Ok _) => true | _ => false end = true)
    as Hc by (vm_compute; reflexivity).
  rewrite E in Hc. destruct r as [m'|e]; [|discriminate].
  destruct Hr as (_ & _ & Hz & _ & _ & m'' & E2 & _ & _ & Hz2 & _).
  exists m'. split; [exact E|]. split.
  - apply Hz. apply (bool_decide_unpack _). vm_compute. exact I.
  - exists m''. split; [exact E2|exact Hz2].
Defined.

(** ** Access control *)

(** [struct drm_vma_offset_node], the part that [vm_lock] protects: the red-black tree of
    open files and, per entry, its reference count. *)
Record vm_access := {
  vm_files : plain_tree (K := Z);
  vm_count : gmap Z Z;
}.

(** [drm_vma_node_reset] *)
Definition drm_vma_node_reset : vm_access := {| vm_files := Leaf; vm_count := ∅ |}.

(** The search both list walks share: is there an entry for [tag]? *)
Fixpoint find_tag (tag : Z) (t : plain_tree (K := Z)) : bool :=
  match t with
  | Leaf => false
  | Node _ l k _ r =>
    if tag =? k then true else if k <? tag then find_tag tag r else find_tag tag l
  end.

(** [oom]: the preallocation of the new entry failed. *)
Definition drm_vma_node_allow (oom : bool) (tag : Z) (n : vm_access) : option (result vm_access) :=
  if find_tag tag (vm_files n) then
    Some (Ok {| vm_files := vm_files n;
                vm_count := <[tag := u64 (default 0 (vm_count n !! tag) + 1)]> (vm_count n) |})
  else if oom then Some (Err ENOMEM)
  else
    t ← RB_INSERT (fun k => k) tag (vm_files n);
    Some (Ok {| vm_files := t; vm_count := <[tag := 1]> (vm_count n) |}).

Definition drm_vma_node_revoke (tag : Z) (n : vm_access) : option vm_access :=
  if find_tag tag (vm_files n) then
    let c := u64 (default 0 (vm_count n !! tag) - 1) in
    if c =? 0 then
      t ← rb_erase_node tag (vm_files n);
      Some {| vm_files := t; vm_count := delete tag (vm_count n) |}
    else Some {| vm_files := vm_files n; vm_count := <[tag := c]> (vm_count n) |}
  else Some n.

Definition drm_vma_node_is_allowed (tag : Z) (n : vm_access) : bool := find_tag tag (vm_files n).

Definition drm_vma_node_verify_access (tag : Z) (n : vm_access) : result unit :=
  if drm_vma_node_is_allowed tag n then Ok tt else Err EACCES.

(** The tree holds exactly the tags with a positive count, in order. *)
Record access_ok (n : vm_access) : Prop := {
  ac_rb : rb_tree (vm_files n);
  ac_sorted : StronglySorted Z.lt (inorder (vm_files n));
  ac_count tag : (tag ∈ inorder (vm_files n) <-> is_Some (vm_count n !! tag));
  ac_pos tag c : vm_count n !! tag = Some c -> 0 < c < 2 ^ 64;
}.

Lemma node_reset_ok : access_ok drm_vma_node_reset.
Proof.
  constructor; simpl; [exists 0%nat; constructor|constructor| |].
  - intros t. rewrite lookup_empty. split; [inversion 1|by intros [? ?]].
  - intros t c Hc. by rewrite lookup_empty in Hc.
Qed.

Lemma find_tag_spec tag t : StronglySorted Z.lt (inorder t) -> find_tag tag t = true <-> tag ∈ inorder t.
Proof.
  induction t as [|c l IHl k g r IHr]; intros Hs; simpl; [split; [done|inversion 1]|].
  simpl in Hs. apply StronglySorted_app in Hs as (Hlk & Hl & Hr).
  apply StronglySorted_inv in Hr as [Hr Hk]. rewrite Forall_forall in Hk.
  rewrite elem_of_app, elem_of_cons.
  destruct (tag =? k) eqn:E1; [|destruct (k <? tag) eqn:E2].
  - split; [|done]. intros _. right; left. lia.
  - rewrite (IHr Hr). split; [tauto|]. intros [Hi|[->|Hi]]; [|lia|done].
    specialize (Hlk tag k Hi ltac:(by left)). lia.
  - rewrite (IHl Hl). split; [tauto|]. intros [Hi|[->|Hi]]; [done|lia|]. specialize (Hk tag Hi). lia.
Qed.

Lemma sorted_lt_key s : StronglySorted Z.lt s -> key_sorted (fun k : Z => k) s /\ NoDup s.
Proof.
  induction 1 as [|x s Hs [IH1 IH2] Hx]; split; constructor; auto.
  - eapply Forall_impl; [exact Hx|]. simpl. lia.
  - intros Hin. rewrite Forall_forall in Hx. specialize (Hx x Hin). lia.
Qed.

Lemma key_sorted_nodup_lt s : key_sorted (fun k : Z => k) s -> NoDup s -> StronglySorted Z.lt s.
Proof.
  induction 1 as [|x s Hs IH Hx]; intros Hnd; constructor.
  - apply IH. by apply NoDup_cons in Hnd as [_ ?].
  - apply NoDup_cons in Hnd as [Hn _]. rewrite Forall_forall in *. intros y Hy.
    specialize (Hx y Hy). simpl in Hx. assert (x <> y) by (by intros ->). lia.
Qed.

(** The references [tag] holds. *)
Definition refs (n : vm_access) (tag : Z) : Z := default 0 (vm_count n !! tag).

Lemma refs_allowed n tag : access_ok n -> drm_vma_node_is_allowed tag n = true <-> 0 < refs n tag.
Proof.
  intros Hok. unfold drm_vma_node_is_allowed, refs. rewrite find_tag_spec by apply Hok.
  rewrite (ac_count _ Hok). split.
  - intros [c Hc]. rewrite Hc. by destruct (ac_pos _ Hok tag c Hc).
  - destruct (vm_count n !! tag); simpl; [eauto|lia].
Qed.

Lemma allow_ok n tag : access_ok n -> refs n tag + 1 < 2 ^ 64 ->
  exists n', drm_vma_node_allow false tag n = Some (Ok n') /\ access_ok n' /\
    forall t, refs n' t = refs n t + if decide (t = tag) then 1 else 0.
Proof.
  intros Hok Hlt. destruct Hok as [Hrb Hs Hc Hp]. unfold drm_vma_node_allow, refs in *.
  destruct (find_tag tag (vm_files n)) eqn:E.
  - apply find_tag_spec in E; [|done]. apply Hc in E as [c Ec]. rewrite Ec in *. simpl in *.
    specialize (Hp tag c Ec) as Hpc. rewrite u64_small by (unfold is_u64; lia).
    eexists; split; [done|]. split.
    + constructor; simpl; auto.
      * intros t. rewrite Hc. destruct (decide (tag = t)) as [<-|Ht];
          [rewrite lookup_insert_eq, Ec; split; eauto|by rewrite lookup_insert_ne].
      * intros t c' Hc'. destruct (decide (tag = t)) as [<-|Ht];
          [rewrite lookup_insert_eq in Hc'; simplify_eq; lia|].
        rewrite lookup_insert_ne in Hc' by done. by eapply Hp.
    + intros t. simpl. case_decide as Ht; [subst t; by rewrite lookup_insert_eq, Ec|].
      rewrite lookup_insert_ne by done. lia.
  - assert (tag ∉ inorder (vm_files n)) as Hn.
    { intros Hn. apply find_tag_spec in Hn; [|done]. congruence. }
    destruct (sorted_lt_key _ Hs) as [Hks Hnd].
    destruct (RB_INSERT_spec (fun k => k) tag (vm_files n) Hrb Hks) as (t & -> & Ht & Hin). simpl.
    pose proof (insert_by_perm (fun k => k) tag (inorder (vm_files n))) as Hperm.
    assert (vm_count n !! tag = None) as En.
    { destruct (vm_count n !! tag) eqn:Et; [|done]. exfalso. apply Hn, Hc. rewrite Et. eauto. }
    eexists; split; [done|]. split.
    + constructor; simpl; auto.
      * rewrite Hin. apply key_sorted_nodup_lt; [by apply insert_by_sorted|].
        rewrite Hperm. by constructor.
      * intros t'. rewrite Hin, Hperm, elem_of_cons, Hc. destruct (decide (tag = t')) as [<-|Ht'].
        -- rewrite lookup_insert_eq. split; eauto.
        -- rewrite lookup_insert_ne by done. naive_solver.
      * intros t' c' Hc'. destruct (decide (tag = t')) as [<-|Ht'];
          [rewrite lookup_insert_eq in Hc'; simplify_eq; lia|].
        rewrite lookup_insert_ne in Hc' by done. by eapply Hp.
    + intros t'. simpl. case_decide as Ht'; [subst t'; by rewrite lookup_insert_eq, En|].
      rewrite lookup_insert_ne by done. lia.
Qed.

Lemma revoke_ok n tag : access_ok n ->
  exists n', drm_vma_node_revoke tag n = Some n' /\ access_ok n' /\
    forall t, refs n' t = if decide (t = tag) then Z.max 0 (refs n t - 1) else refs n t.
Proof.
  intros Hok. pose proof Hok as [Hrb Hs Hc Hp]. unfold drm_vma_node_revoke, refs in *.
  destruct (find_tag tag (vm_files n)) eqn:E.
  - apply find_tag_spec in E as Hin; [|done]. apply Hc in Hin as [c Ec]. rewrite Ec in *. simpl in *.
    specialize (Hp tag c Ec) as Hpc. rewrite u64_small by (unfold is_u64; lia).
    destruct (c - 1 =? 0) eqn:E0.
    + destruct (sorted_lt_key _ Hs) as [Hks Hnd]. apply find_tag_spec in E; [|done].
      destruct (rb_erase_node_spec tag (vm_files n) Hrb Hnd E) as (t & -> & Ht & Hin'). simpl.
      pose proof (remove_one_sublist tag (inorder (vm_files n))) as Hsub.
      assert (forall x, x ∈ remove_one tag (inorder (vm_files n)) <-> x ∈ inorder (vm_files n) /\ x <> tag) as Hel.
      { apply list_elem_of_split in E as (a & b & Eab). intros x. rewrite Eab in *.
        pose proof (nodup_not_before tag a b Hnd) as [? ?].
        rewrite remove_one_middle by done. set_solver. }
      eexists; split; [done|]. split.
      * constructor; simpl; auto.
        -- rewrite Hin'. eapply sorted_sublist; eauto.
        -- intros t'. rewrite Hin', Hel, Hc. destruct (decide (tag = t')) as [<-|Ht'].
           ++ rewrite lookup_delete_eq. split; [naive_solver|by intros [? ?]].
           ++ rewrite lookup_delete_ne by done. naive_solver.
        -- intros t' c' Hc'. apply lookup_delete_Some in Hc' as [_ Hc']. by eapply Hp.
      * intros t'. simpl. case_decide as Ht'; [subst t'; rewrite lookup_delete_eq, Ec; simpl; lia|].
        by rewrite lookup_delete_ne.
    + eexists; split; [done|]. split.
      * constructor; simpl; auto.
        -- intros t'. rewrite Hc. destruct (decide (tag = t')) as [<-|Ht'];
             [rewrite lookup_insert_eq, Ec; split; eauto|by rewrite lookup_insert_ne].
        -- intros t' c' Hc'. destruct (decide (tag = t')) as [<-|Ht'];
             [rewrite lookup_insert_eq in Hc'; simplify_eq; lia|].
           rewrite lookup_insert_ne in Hc' by done. by eapply Hp.
      * intros t'. simpl. case_decide as Ht'; [subst t'; rewrite lookup_insert_eq, Ec; simpl; lia|].
        by rewrite lookup_insert_ne.
  - exists n. split_and!; auto. intros t. case_decide as Ht; [|done]. subst t.
    destruct (vm_count n !! tag) as [c|] eqn:Ec; [|done]. exfalso.
    assert (tag ∈ inorder (vm_files n)) as Hin by (apply Hc; eauto).
    apply find_tag_spec in Hin; [|done]. congruence.
Qed.

(** Calls on one object, by any open files. *)
Inductive access_op := Allow (tag : Z) | Revoke (tag : Z).

Definition access_step (o : access_op) (n : vm_access) : option vm_access :=
  match o with
  | Allow tag => r ← drm_vma_node_allow false tag n; match r with Ok n' => Some n' | Err _ => None end
  | Revoke tag => drm_vma_node_revoke tag n
  end.

Fixpoint access_run (ops : list access_op) (n : vm_access) : option vm_access :=
  match ops with [] => Some n | o :: ops => n ← access_step o n; access_run ops n end.

(** The references a file holds after a sequence of calls: grants less revocations, never
    below zero. *)
Fixpoint granted (ops : list access_op) (tag : Z) (c : Z) : Z :=
  match ops with
  | [] => c
  | Allow t :: ops => granted ops tag (if decide (tag = t) then c + 1 else c)
  | Revoke t :: ops => granted ops tag (if decide (tag = t) then Z.max 0 (c - 1) else c)
  end.

Lemma access_run_ok ops : forall n b,
  access_ok n -> (forall t, refs n t <= b) -> b + Z.of_nat (length ops) < 2 ^ 64 ->
  exists n', access_run ops n = Some n' /\ access_ok n' /\
    forall tag, refs n' tag = granted ops tag (refs n tag).
Proof.
  induction ops as [|o ops IH]; intros n b Hok Hb Hlen; [by exists n|].
  cbn [length] in Hlen. rewrite Nat2Z.inj_succ in Hlen. simpl.
  destruct o as [t|t]; simpl.
  - destruct (allow_ok n t Hok) as (n1 & -> & Hok1 & Hr1); [specialize (Hb t); lia|]. simpl.
    destruct (IH n1 (b + 1) Hok1) as (n' & E & Hok' & Hr').
    + intros x. rewrite Hr1. specialize (Hb x). case_decide; lia.
    + lia.
    + exists n'. split_and!; auto. intros x. rewrite Hr', Hr1. case_decide; [done|by rewrite Z.add_0_r].
  - destruct (revoke_ok n t Hok) as (n1 & -> & Hok1 & Hr1). simpl.
    destruct (IH n1 b Hok1) as (n' & E & Hok' & Hr').
    + intros x. rewrite Hr1. pose proof (Hb x). case_decide; [|lia].
      assert (0 <= refs n x); [|lia]. unfold refs. destruct (vm_count n !! x) eqn:Ex; simpl; [|lia].
      destruct (ac_pos _ Hok _ _ Ex). lia.
    + lia.
    + exists n'. split_and!; auto. intros x. rewrite Hr', Hr1. by case_decide.
Qed.

(** From a reset node, after any sequence of allow and revoke calls (memory permitting), an
    open file may map the object exactly when it has been allowed more often than revoked
    (revocations without a reference do nothing); every call returns, and files do not
    influence each other. *)
Theorem drm_vma_node_access_counts ops tag :
  Z.of_nat (length ops) < 2 ^ 64 ->
  exists n, access_run ops drm_vma_node_reset = Some n /\ access_ok n /\
    (drm_vma_node_is_allowed tag n = true <-> 0 < granted ops tag 0) /\
    (drm_vma_node_verify_access tag n = Err EACCES <-> granted ops tag 0 = 0).
Proof.
  intros Hlen. destruct (access_run_ok ops drm_vma_node_reset 0) as (n & E & Hok & Hr).
  { apply node_reset_ok. }
  { intros t. unfold refs. simpl. by rewrite lookup_empty. }
  { lia. }
  exists n. pose proof (refs_allowed n tag Hok) as Ha. rewrite Hr in Ha.
  assert (refs drm_vma_node_reset tag = 0) as E0 by (unfold refs; simpl; by rewrite lookup_empty).
  rewrite E0 in Ha. split_and!; auto.
  assert (0 <= granted ops tag 0) as Hpos.
  { pose proof (Hr tag) as Hrt. rewrite E0 in Hrt. rewrite <- Hrt. unfold refs. destruct (vm_count n !! tag) eqn:Ex; simpl; [|lia].
    destruct (ac_pos _ Hok _ _ Ex). lia. }
  unfold drm_vma_node_verify_access. destruct (drm_vma_node_is_allowed tag n) eqn:El.
  - split; [done|]. intros Hz. apply proj1 in Ha. specialize (Ha eq_refl). lia.
  - split; [|done]. intros _. destruct (decide (granted ops tag 0 = 0)); [done|].
    exfalso. assert (false = true) by (apply Ha; lia). done.
Qed.

Lemma drm_vma_node_access_counts_witness :
  exists n, access_run [Allow 7; Allow 9; Allow 7; Revoke 9; Revoke 7; Revoke 9] drm_vma_node_reset = Some n /\
    (drm_vma_node_is_allowed 7 n = true <-> 0 < 1) /\ (drm_vma_node_verify_access 9 n = Err EACCES).
Proof.
  set (ops := [Allow 7; Allow 9; Allow 7; Revoke 9; Revoke 7; Revoke 9]).
  destruct (drm_vma_node_access_counts ops 7 ltac:(reflexivity)) as (n & E & _ & H & _).
  destruct (drm_vma_node_access_counts ops 9 ltac:(reflexivity)) as (n2 & E2 & _ & _ & H2).
  rewrite E in E2. injection E2 as <-. exists n. split; [exact E|]. split; [exact H|].
  apply H2. reflexivity.
Defined.
