(* ===== verification/Modes.v ===== *)
(** * Display modes ([drm_modes.c], [drm_modes.h])

    Timings of a [struct drm_display_mode], their validation, comparison and conversion to
    and from the user-space structure, the CRTC timings derived from them, and the upkeep of
    a connector's mode list.  The CRTC fields of the C structure are grouped in
    [crtc_timings].  [int] arithmetic wraps ([s32]); a division by zero, which traps, gives
    [None]. *)

From S2P Require Import Prelude Rect.
From stdpp Require Import base gmap list option sets sorting.
From Stdlib Require Import ZArith Lia.

#[local] Set Warnings "-clear-no-such-hyp".
#[local] Open Scope Z_scope.

Definition DRM_MODE_TYPE_BUILTIN : Z := Z.shiftl 1 0.
Definition DRM_MODE_TYPE_CRTC_C : Z := Z.lor (Z.shiftl 1 2) DRM_MODE_TYPE_BUILTIN.
Definition DRM_MODE_TYPE_PREFERRED : Z := Z.shiftl 1 3.
Definition DRM_MODE_TYPE_USERDEF : Z := Z.shiftl 1 5.

Definition DRM_MODE_FLAG_PHSYNC : Z := Z.shiftl 1 0.
Definition DRM_MODE_FLAG_NHSYNC : Z := Z.shiftl 1 1.
Definition DRM_MODE_FLAG_PVSYNC : Z := Z.shiftl 1 2.
Definition DRM_MODE_FLAG_NVSYNC : Z := Z.shiftl 1 3.
Definition DRM_MODE_FLAG_INTERLACE : Z := Z.shiftl 1 4.
Definition DRM_MODE_FLAG_DBLSCAN : Z := Z.shiftl 1 5.
Definition DRM_MODE_FLAG_3D_MASK : Z := Z.shiftl 31 14.
Definition DRM_MODE_FLAG_3D_FRAME_PACKING : Z := Z.shiftl 1 14.
Definition DRM_MODE_FLAG_3D_SIDE_BY_SIDE_HALF : Z := Z.shiftl 8 14.
Definition DRM_MODE_FLAG_3D_MAX : Z := DRM_MODE_FLAG_3D_SIDE_BY_SIDE_HALF.

Definition CRTC_INTERLACE_HALVE_V : Z := Z.shiftl 1 0.
Definition CRTC_STEREO_DOUBLE : Z := Z.shiftl 1 1.
Definition CRTC_NO_DBLSCAN : Z := Z.shiftl 1 2.
Definition CRTC_NO_VSCAN : Z := Z.shiftl 1 3.
Definition CRTC_STEREO_DOUBLE_ONLY : Z :=
  Z.lor (Z.lor CRTC_STEREO_DOUBLE CRTC_NO_DBLSCAN) CRTC_NO_VSCAN.

Definition DRM_DISPLAY_MODE_LEN : nat := 32.

(** The statuses the core itself assigns. *)
Inductive drm_mode_status :=
  MODE_OK | MODE_H_ILLEGAL | MODE_V_ILLEGAL | MODE_VIRTUAL_X | MODE_VIRTUAL_Y | MODE_CLOCK_LOW |
  MODE_STALE.

#[global] Instance drm_mode_status_eq_dec : EqDecision drm_mode_status.
Proof. solve_decision. Defined.

Record crtc_timings := {
  crtc_clock : Z;
  crtc_hdisplay : Z; crtc_hblank_start : Z; crtc_hblank_end : Z;
  crtc_hsync_start : Z; crtc_hsync_end : Z; crtc_htotal : Z; crtc_hskew : Z;
  crtc_vdisplay : Z; crtc_vblank_start : Z; crtc_vblank_end : Z;
  crtc_vsync_start : Z; crtc_vsync_end : Z; crtc_vtotal : Z;
}.

Record drm_display_mode := {
  name : list Z;
  status : drm_mode_status;
  type_ : Z;
  clock : Z;
  hdisplay : Z; hsync_start : Z; hsync_end : Z; htotal : Z; hskew : Z;
  vdisplay : Z; vsync_start : Z; vsync_end : Z; vtotal : Z; vscan : Z;
  flags : Z;
  vrefresh : Z;
  hsync : Z;
  crtc : crtc_timings;
}.

(** ** Names *)

Fixpoint dec_digits (fuel : nat) (n : Z) (acc : list Z) : list Z :=
  match fuel with
  | O => acc
  | S fuel => let acc := (48 + n mod 10) :: acc in
              if n / 10 =? 0 then acc else dec_digits fuel (n / 10) acc
  end.

(** [%d]; an [int] has at most ten digits. *)
Definition print_int (n : Z) : list Z :=
  if n <? 0 then 45 :: dec_digits 10 (- n) [] else dec_digits 10 n [].

(** [snprintf(name, DRM_DISPLAY_MODE_LEN, "%dx%d%s", ...)] *)
Definition mode_name (h v : Z) (interlaced : bool) : list Z :=
  take (DRM_DISPLAY_MODE_LEN - 1) (print_int h ++ [120] ++ print_int v ++ (if interlaced then [105] else [])).

Definition with_name (n : list Z) (p : drm_display_mode) : drm_display_mode :=
  {| name := n; status := status p; type_ := type_ p; clock := clock p;
     hdisplay := hdisplay p; hsync_start := hsync_start p; hsync_end := hsync_end p;
     htotal := htotal p; hskew := hskew p; vdisplay := vdisplay p; vsync_start := vsync_start p;
     vsync_end := vsync_end p; vtotal := vtotal p; vscan := vscan p; flags := flags p;
     vrefresh := vrefresh p; hsync := hsync p; crtc := crtc p |}.

Definition drm_mode_set_name (mode : drm_display_mode) : drm_display_mode :=
  with_name (mode_name (hdisplay mode) (vdisplay mode) (has_flag (flags mode) DRM_MODE_FLAG_INTERLACE)) mode.

(** ** Derived rates *)

(** Hertz rounded to kilohertz; a mode without [htotal] traps. *)
Definition drm_mode_hsync (mode : drm_display_mode) : option Z :=
  if negb (hsync mode =? 0) then Some (hsync mode)
  else if htotal mode <? 0 then Some 0
  else if htotal mode =? 0 then None
  else
    let calc_val := u32 (Z.quot (s32 (clock mode * 1000)) (htotal mode)) in
    let calc_val := u32 (calc_val + 500) in
    Some (s32 (calc_val / 1000)).

Definition drm_mode_vrefresh (mode : drm_display_mode) : Z :=
  if 0 <? vrefresh mode then vrefresh mode
  else if (0 <? htotal mode) && (0 <? vtotal mode) then
    let calc_val := u32 (clock mode * 1000) in
    let calc_val := calc_val / htotal mode in
    let refresh := s32 (u32 (calc_val + Z.quot (vtotal mode) 2) / vtotal mode) in
    let refresh := if has_flag (flags mode) DRM_MODE_FLAG_INTERLACE then s32 (refresh * 2) else refresh in
    let refresh := if has_flag (flags mode) DRM_MODE_FLAG_DBLSCAN then Z.quot refresh 2 else refresh in
    if 1 <? vscan mode then Z.quot refresh (vscan mode) else refresh
  else 0.

(** ** CRTC timings *)

(** The four vertical timings, as they are scaled together. *)
Definition vtimes : Type := Z * Z * Z * Z.

Definition map_vtimes (f : Z -> Z) (v : vtimes) : vtimes :=
  let '(d, s, e, t) := v in (f d, f s, f e, f t).

Definition with_crtc (c : crtc_timings) (p : drm_display_mode) : drm_display_mode :=
  {| name := name p; status := status p; type_ := type_ p; clock := clock p;
     hdisplay := hdisplay p; hsync_start := hsync_start p; hsync_end := hsync_end p;
     htotal := htotal p; hskew := hskew p; vdisplay := vdisplay p; vsync_start := vsync_start p;
     vsync_end := vsync_end p; vtotal := vtotal p; vscan := vscan p; flags := flags p;
     vrefresh := vrefresh p; hsync := hsync p; crtc := c |}.

Definition drm_mode_set_crtcinfo (p : drm_display_mode) (adjust_flags : Z) : drm_display_mode :=
  if Z.land (type_ p) DRM_MODE_TYPE_CRTC_C =? DRM_MODE_TYPE_BUILTIN then p
  else
    let v : vtimes := (vdisplay p, vsync_start p, vsync_end p, vtotal p) in
    let v := if has_flag (flags p) DRM_MODE_FLAG_INTERLACE && has_flag adjust_flags CRTC_INTERLACE_HALVE_V
             then map_vtimes (fun x => Z.quot x 2) v else v in
    let v := if negb (has_flag adjust_flags CRTC_NO_DBLSCAN) && has_flag (flags p) DRM_MODE_FLAG_DBLSCAN
             then map_vtimes (fun x => s32 (x * 2)) v else v in
    let v := if negb (has_flag adjust_flags CRTC_NO_VSCAN) && (1 <? vscan p)
             then map_vtimes (fun x => s32 (x * vscan p)) v else v in
    let packed := has_flag adjust_flags CRTC_STEREO_DOUBLE &&
                  (Z.land (flags p) DRM_MODE_FLAG_3D_MASK =? DRM_MODE_FLAG_3D_FRAME_PACKING) in
    let c := if packed then s32 (clock p * 2) else clock p in
    let v := if packed then let '(_, _, _, t) := v in map_vtimes (fun x => s32 (x + t)) v else v in
    let '(vd, vs, ve, vt) := v in
    with_crtc
      {| crtc_clock := c;
         crtc_hdisplay := hdisplay p; crtc_hsync_start := hsync_start p;
         crtc_hsync_end := hsync_end p; crtc_htotal := htotal p; crtc_hskew := hskew p;
         crtc_vdisplay := vd; crtc_vsync_start := vs; crtc_vsync_end := ve; crtc_vtotal := vt;
         crtc_vblank_start := Z.min vs vd; crtc_vblank_end := Z.max ve vt;
         crtc_hblank_start := Z.min (hsync_start p) (hdisplay p);
         crtc_hblank_end := Z.max (hsync_end p) (htotal p) |} p.

Definition drm_mode_get_hv_timing (mode : drm_display_mode) : Z * Z :=
  let adjusted := drm_mode_set_crtcinfo mode CRTC_STEREO_DOUBLE_ONLY in
  (crtc_hdisplay (crtc adjusted), crtc_vdisplay (crtc adjusted)).

(** ** Comparison *)

Definition KHZ2PICOS (a : Z) : Z := 1000000000 / a.

Definition drm_mode_equal_no_clocks_no_stereo (mode1 mode2 : drm_display_mode) : bool :=
  (hdisplay mode1 =? hdisplay mode2) && (hsync_start mode1 =? hsync_start mode2) &&
  (hsync_end mode1 =? hsync_end mode2) && (htotal mode1 =? htotal mode2) &&
  (hskew mode1 =? hskew mode2) && (vdisplay mode1 =? vdisplay mode2) &&
  (vsync_start mode1 =? vsync_start mode2) && (vsync_end mode1 =? vsync_end mode2) &&
  (vtotal mode1 =? vtotal mode2) && (vscan mode1 =? vscan mode2) &&
  (Z.ldiff (flags mode1) DRM_MODE_FLAG_3D_MASK =? Z.ldiff (flags mode2) DRM_MODE_FLAG_3D_MASK).

Definition drm_mode_equal_no_clocks (mode1 mode2 : drm_display_mode) : bool :=
  if negb (Z.land (flags mode1) DRM_MODE_FLAG_3D_MASK =? Z.land (flags mode2) DRM_MODE_FLAG_3D_MASK)
  then false
  else drm_mode_equal_no_clocks_no_stereo mode1 mode2.

(** Both modes exist. A pixel clock is unsigned when it is converted to picoseconds. *)
Definition drm_mode_equal (mode1 mode2 : drm_display_mode) : bool :=
  if negb (clock mode1 =? 0) && negb (clock mode2 =? 0) then
    if negb (KHZ2PICOS (u64 (clock mode1)) =? KHZ2PICOS (u64 (clock mode2))) then false
    else drm_mode_equal_no_clocks mode1 mode2
  else if negb (clock mode1 =? clock mode2) then false
  else drm_mode_equal_no_clocks mode1 mode2.

Definition b2z (b : bool) : Z := if b then 1 else 0.

(** Negative if [a] is better than [b]. *)
Definition drm_mode_compare (a b : drm_display_mode) : Z :=
  let diff := b2z (has_flag (type_ b) DRM_MODE_TYPE_PREFERRED)
              - b2z (has_flag (type_ a) DRM_MODE_TYPE_PREFERRED) in
  if negb (diff =? 0) then diff
  else
    let diff := s32 (s32 (hdisplay b * vdisplay b) - s32 (hdisplay a * vdisplay a)) in
    if negb (diff =? 0) then diff
    else
      let diff := s32 (vrefresh b - vrefresh a) in
      if negb (diff =? 0) then diff
      else s32 (clock b - clock a).

(** ** Validation *)

Definition drm_mode_validate_basic (mode : drm_display_mode) : drm_mode_status :=
  if clock mode =? 0 then MODE_CLOCK_LOW
  else if (hdisplay mode =? 0) || (hsync_start mode <? hdisplay mode) ||
          (hsync_end mode <? hsync_start mode) || (htotal mode <? hsync_end mode)
  then MODE_H_ILLEGAL
  else if (vdisplay mode =? 0) || (vsync_start mode <? vdisplay mode) ||
          (vsync_end mode <? vsync_start mode) || (vtotal mode <? vsync_end mode)
  then MODE_V_ILLEGAL
  else MODE_OK.

Definition drm_mode_validate_size (mode : drm_display_mode) (maxX maxY : Z) : drm_mode_status :=
  if (0 <? maxX) && (maxX <? hdisplay mode) then MODE_VIRTUAL_X
  else if (0 <? maxY) && (maxY <? vdisplay mode) then MODE_VIRTUAL_Y
  else MODE_OK.

Definition drm_mode_prune_invalid (mode_list : list drm_display_mode) : list drm_display_mode :=
  filter (fun mode => status mode = MODE_OK) mode_list.

(** ** The user-space structure *)

(** [struct drm_mode_modeinfo]: timings are 16 bits wide. *)
Record drm_mode_modeinfo := {
  u_clock : Z;
  u_hdisplay : Z; u_hsync_start : Z; u_hsync_end : Z; u_htotal : Z; u_hskew : Z;
  u_vdisplay : Z; u_vsync_start : Z; u_vsync_end : Z; u_vtotal : Z; u_vscan : Z;
  u_vrefresh : Z;
  u_flags : Z; u_type : Z;
  u_name : list Z;
}.

(** [strncpy] and the terminator. *)
Definition copy_name (n : list Z) : list Z := take (DRM_DISPLAY_MODE_LEN - 1) n.

Definition drm_mode_convert_to_umode (m : drm_display_mode) : drm_mode_modeinfo :=
  {| u_clock := u32 (clock m);
     u_hdisplay := u16 (hdisplay m); u_hsync_start := u16 (hsync_start m);
     u_hsync_end := u16 (hsync_end m); u_htotal := u16 (htotal m); u_hskew := u16 (hskew m);
     u_vdisplay := u16 (vdisplay m); u_vsync_start := u16 (vsync_start m);
     u_vsync_end := u16 (vsync_end m); u_vtotal := u16 (vtotal m); u_vscan := u16 (vscan m);
     u_vrefresh := u32 (vrefresh m); u_flags := flags m; u_type := type_ m;
     u_name := copy_name (name m) |}.

(** [out] is the mode the caller passes; fields it keeps on an error stay as they are. *)
Definition drm_mode_convert_umode (out : drm_display_mode) (i : drm_mode_modeinfo)
    : result unit * drm_display_mode :=
  if (INT_MAX <? u_clock i) || (INT_MAX <? u_vrefresh i) then (Err ERANGE, out)
  else if DRM_MODE_FLAG_3D_MAX <? Z.land (u_flags i) DRM_MODE_FLAG_3D_MASK then (Err EINVAL, out)
  else
    let m := {| name := copy_name (u_name i); status := status out; type_ := u_type i;
                clock := u_clock i;
                hdisplay := u_hdisplay i; hsync_start := u_hsync_start i;
                hsync_end := u_hsync_end i; htotal := u_htotal i; hskew := u_hskew i;
                vdisplay := u_vdisplay i; vsync_start := u_vsync_start i;
                vsync_end := u_vsync_end i; vtotal := u_vtotal i; vscan := u_vscan i;
                flags := u_flags i; vrefresh := u_vrefresh i; hsync := hsync out;
                crtc := crtc out |} in
    let st := drm_mode_validate_basic m in
    let m := {| name := name m; status := st; type_ := type_ m; clock := clock m;
                hdisplay := hdisplay m; hsync_start := hsync_start m; hsync_end := hsync_end m;
                htotal := htotal m; hskew := hskew m; vdisplay := vdisplay m;
                vsync_start := vsync_start m; vsync_end := vsync_end m; vtotal := vtotal m;
                vscan := vscan m; flags := flags m; vrefresh := vrefresh m; hsync := hsync m;
                crtc := crtc m |} in
    match st with
    | MODE_OK => (Ok tt, drm_mode_set_crtcinfo m CRTC_INTERLACE_HALVE_V)
    | _ => (Err EINVAL, m)
    end.

(** ** The connector's mode list *)

Definition with_type (t : Z) (p : drm_display_mode) : drm_display_mode :=
  {| name := name p; status := status p; type_ := t; clock := clock p;
     hdisplay := hdisplay p; hsync_start := hsync_start p; hsync_end := hsync_end p;
     htotal := htotal p; hskew := hskew p; vdisplay := vdisplay p; vsync_start := vsync_start p;
     vsync_end := vsync_end p; vtotal := vtotal p; vscan := vscan p; flags := flags p;
     vrefresh := vrefresh p; hsync := hsync p; crtc := crtc p |}.

(** What happens to the first listed mode that equals the probed one. *)
Definition merge_mode (pmode mode : drm_display_mode) : drm_display_mode :=
  if decide (status mode = MODE_STALE) then pmode
  else if negb (has_flag (type_ mode) DRM_MODE_TYPE_PREFERRED)
          && has_flag (type_ pmode) DRM_MODE_TYPE_PREFERRED
  then with_type (Z.lor (type_ pmode) (type_ mode)) pmode
  else with_type (Z.lor (type_ mode) (type_ pmode)) mode.

(** One probed mode: merged into the list, or appended. *)
Fixpoint list_update_one (pmode : drm_display_mode) (modes : list drm_display_mode)
    : list drm_display_mode :=
  match modes with
  | [] => [pmode]
  | mode :: rest =>
    if drm_mode_equal pmode mode then merge_mode pmode mode :: rest
    else mode :: list_update_one pmode rest
  end.

Definition drm_mode_connector_list_update (probed_modes modes : list drm_display_mode)
    : list drm_display_mode :=
  foldl (fun modes pmode => list_update_one pmode modes) modes probed_modes.

(** ** Equality is equality of a key *)

Definition mode_key (m : drm_display_mode) : option Z * list Z :=
  (if clock m =? 0 then None else Some (KHZ2PICOS (u64 (clock m))),
   [hdisplay m; hsync_start m; hsync_end m; htotal m; hskew m;
    vdisplay m; vsync_start m; vsync_end m; vtotal m; vscan m; flags m]).

Lemma land_ldiff_inj a b m : Z.land a m = Z.land b m -> Z.ldiff a m = Z.ldiff b m -> a = b.
Proof.
  intros H1 H2. apply Z.bits_inj'. intros n Hn.
  apply (f_equal (fun x => Z.testbit x n)) in H1, H2. rewrite !Z.land_spec in H1.
  rewrite !Z.ldiff_spec in H2. destruct (Z.testbit a n), (Z.testbit b n), (Z.testbit m n); simpl in *; congruence.
Qed.

Lemma equal_no_clocks_key a b :
  drm_mode_equal_no_clocks a b = true <-> (mode_key a).2 = (mode_key b).2.
Proof.
  unfold drm_mode_equal_no_clocks, drm_mode_equal_no_clocks_no_stereo, mode_key. simpl. split.
  - destruct (Z.land (flags a) _ =? Z.land (flags b) _) eqn:E; simpl; [|done].
    rewrite !andb_true_iff, !Z.eqb_eq. intros [H Hf]. apply Z.eqb_eq in E.
    pose proof (land_ldiff_inj _ _ _ E Hf) as Hflags. destruct_and!. congruence.
  - intros [= -> -> -> -> -> -> -> -> -> -> ->]. by rewrite !Z.eqb_refl.
Qed.

Lemma drm_mode_equal_key a b : drm_mode_equal a b = true <-> mode_key a = mode_key b.
Proof.
  pose proof (equal_no_clocks_key a b) as Hk.
  assert (forall x y : option Z * list Z, x = y <-> x.1 = y.1 /\ x.2 = y.2) as Hpair.
  { intros [] []. simpl. naive_solver. }
  rewrite Hpair, <- Hk. unfold drm_mode_equal. simpl.
  destruct (clock a =? 0) eqn:Ea, (clock b =? 0) eqn:Eb; simpl.
  - replace (clock a =? clock b) with true by lia. simpl. tauto.
  - replace (clock a =? clock b) with false by lia. simpl. split; [done|]. by intros [? _].
  - replace (clock a =? clock b) with false by lia. simpl. split; [done|]. by intros [? _].
  - destruct (KHZ2PICOS _ =? KHZ2PICOS _) eqn:E; simpl.
    + apply Z.eqb_eq in E. rewrite E. tauto.
    + apply Z.eqb_neq in E. split; [done|]. intros [[= ?] _]. done.
Qed.

Lemma merge_key p m : drm_mode_equal p m = true -> mode_key (merge_mode p m) = mode_key m.
Proof.
  intros H%drm_mode_equal_key. unfold merge_mode. case_decide; [done|].
  by destruct (negb _ && _); [rewrite <- H|].
Qed.

Lemma list_update_one_keys p modes :
  mode_key <$> list_update_one p modes =
  if decide (mode_key p ∈ mode_key <$> modes) then mode_key <$> modes
  else (mode_key <$> modes) ++ [mode_key p].
Proof.
  induction modes as [|m modes IH].
  { case_decide as Hin; [inversion Hin|done]. }
  cbn [list_update_one]. destruct (drm_mode_equal p m) eqn:E; rewrite !fmap_cons.
  - rewrite (merge_key _ _ E). apply drm_mode_equal_key in E. rewrite decide_True; [done|].
    rewrite E. by left.
  - rewrite IH. assert (mode_key p <> mode_key m) as Hne
      by (intros H; apply drm_mode_equal_key in H; congruence).
    destruct (decide (mode_key p ∈ mode_key <$> modes)) as [Hin|Hin].
    + rewrite decide_True; [done|]. by right.
    + rewrite decide_False; [done|]. apply not_elem_of_cons. done.
Qed.

(** [drm_mode_connector_list_update] keeps the connector's list free of duplicates (modes that
    [drm_mode_equal] identifies), keeps the modes already listed, in order and in place,
    and adds exactly the probed modes that were not listed. *)
Theorem drm_mode_connector_list_update_merges probed modes :
  NoDup (mode_key <$> modes) ->
  let out := drm_mode_connector_list_update probed modes in
  NoDup (mode_key <$> out) /\
  (forall a b, drm_mode_equal a b = true <-> mode_key a = mode_key b) /\
  (mode_key <$> modes) `prefix_of` (mode_key <$> out) /\
  (forall p, p ∈ probed -> exists m, m ∈ out /\ drm_mode_equal p m = true) /\
  (forall m, m ∈ out -> exists m', m' ∈ modes ++ probed /\ drm_mode_equal m m' = true).
Proof.
  intros Hnd. cbv zeta.
  assert (forall ps ms, NoDup (mode_key <$> ms) ->
    NoDup (mode_key <$> drm_mode_connector_list_update ps ms) /\
    (mode_key <$> ms) `prefix_of` (mode_key <$> drm_mode_connector_list_update ps ms) /\
    (forall k, k ∈ mode_key <$> drm_mode_connector_list_update ps ms <->
       k ∈ mode_key <$> ms \/ k ∈ mode_key <$> ps)) as H.
  { induction ps as [|p ps IH]; intros ms Hms; simpl.
    { split_and!; [done|done|]. intros k. split; [tauto|]. intros [?|Hk]; [done|inversion Hk]. }
    pose proof (list_update_one_keys p ms) as Hone.
    assert (NoDup (mode_key <$> list_update_one p ms)) as Hn1.
    { rewrite Hone. case_decide as Hin; [done|]. apply NoDup_app. split_and!; [done| |apply NoDup_singleton].
      intros x Hx ->%list_elem_of_singleton. done. }
    destruct (IH (list_update_one p ms) Hn1) as (I1 & I2 & I3). split_and!; [done| |].
    - etrans; [|exact I2]. rewrite Hone. case_decide; [done|by eexists].
    - intros k. rewrite I3, Hone, elem_of_cons. case_decide as Hin;
        [|rewrite elem_of_app, list_elem_of_singleton]; split; naive_solver. }
  destruct (H probed modes Hnd) as (H1 & H2 & H3). split_and!; auto.
  - apply drm_mode_equal_key.
  - intros p Hp. assert (mode_key p ∈ mode_key <$> drm_mode_connector_list_update probed modes) as Hk
      by (apply H3; right; by apply list_elem_of_fmap_2).
    apply list_elem_of_fmap in Hk as (m & Hm & Hin). exists m. split; [done|]. by apply drm_mode_equal_key.
  - intros m Hm. assert (mode_key m ∈ mode_key <$> modes \/ mode_key m ∈ mode_key <$> probed) as Hk
      by (apply H3; by apply list_elem_of_fmap_2).
    destruct Hk as [Hk|Hk]; apply list_elem_of_fmap in Hk as (m' & Hm' & Hin); exists m';
      (split; [apply elem_of_app; tauto|by apply drm_mode_equal_key]).
Qed.

Definition sample_mode : drm_display_mode :=
  {| name := [49; 57; 50; 48]; status := MODE_OK; type_ := 0; clock := 148500;
     hdisplay := 1920; hsync_start := 2008; hsync_end := 2052; htotal := 2200; hskew := 0;
     vdisplay := 1080; vsync_start := 1084; vsync_end := 1089; vtotal := 1125; vscan := 0;
     flags := Z.lor DRM_MODE_FLAG_PHSYNC DRM_MODE_FLAG_PVSYNC; vrefresh := 60; hsync := 0;
     crtc := {| crtc_clock := 0; crtc_hdisplay := 0; crtc_hblank_start := 0; crtc_hblank_end := 0;
                crtc_hsync_start := 0; crtc_hsync_end := 0; crtc_htotal := 0; crtc_hskew := 0;
                crtc_vdisplay := 0; crtc_vblank_start := 0; crtc_vblank_end := 0;
                crtc_vsync_start := 0; crtc_vsync_end := 0; crtc_vtotal := 0 |} |}.

Lemma drm_mode_connector_list_update_merges_witness :
  let pref := with_type DRM_MODE_TYPE_PREFERRED sample_mode in
  let out := drm_mode_connector_list_update [pref; sample_mode] [sample_mode] in
  out = [with_type DRM_MODE_TYPE_PREFERRED sample_mode] /\ NoDup (mode_key <$> out).
Proof.
  split; [reflexivity|].
  apply (drm_mode_connector_list_update_merges
    [with_type DRM_MODE_TYPE_PREFERRED sample_mode; sample_mode] [sample_mode]).
  apply NoDup_singleton.
Defined.

(** ** Preference order *)

(** Sizes and rates small enough that the comparison does not overflow. *)
Definition rankable (m : drm_display_mode) : Prop :=
  0 <= hdisplay m /\ 0 <= vdisplay m /\ hdisplay m * vdisplay m < 2 ^ 31 /\
  0 <= vrefresh m < 2 ^ 31 /\ 0 <= clock m < 2 ^ 31.

(** Preferred modes first, then larger, then faster, then higher clock. *)
Definition rank (m : drm_display_mode) : Z :=
  ((b2z (has_flag (type_ m) DRM_MODE_TYPE_PREFERRED) * 2 ^ 31 + hdisplay m * vdisplay m) * 2 ^ 31
   + vrefresh m) * 2 ^ 31 + clock m.

(** [drm_mode_compare] orders modes by one rank (preferred before others, then by area, refresh
    rate and clock): it is negative exactly when the first mode ranks higher and zero
    exactly when they rank the same; so it is a total preorder and sorting by it is well
    defined. *)
Theorem drm_mode_compare_ranks a b :
  rankable a -> rankable b ->
  (drm_mode_compare a b < 0 <-> rank b < rank a) /\
  (drm_mode_compare a b = 0 <-> rank a = rank b) /\
  (0 < drm_mode_compare a b <-> rank a < rank b).
Proof.
  intros (? & ? & Ha & ? & ?) (? & ? & Hb & ? & ?). unfold drm_mode_compare, rank.
  pose proof (Z.mul_nonneg_nonneg (hdisplay a) (vdisplay a) ltac:(lia) ltac:(lia)).
  pose proof (Z.mul_nonneg_nonneg (hdisplay b) (vdisplay b) ltac:(lia) ltac:(lia)).
  rewrite !(s32_small (hdisplay a * _)), !(s32_small (hdisplay b * _)) by (unfold is_s32; lia).
  rewrite !s32_small by (unfold is_s32; lia).
  generalize dependent (hdisplay a * vdisplay a). generalize dependent (hdisplay b * vdisplay b).
  intros y Hy Hy0 x Hx Hx0. unfold b2z.
  destruct (has_flag (type_ a) _), (has_flag (type_ b) _);
    change (1 - 1) with 0; change (0 - 0) with 0; change (1 - 0) with 1; change (0 - 1) with (-1);
    change (0 =? 0) with true; change (1 =? 0) with false; change (-1 =? 0) with false; cbn [negb];
    destruct (y - x =? 0) eqn:?, (vrefresh b - vrefresh a =? 0) eqn:?; cbn [negb]; lia.
Qed.

Lemma drm_mode_compare_ranks_witness :
  drm_mode_compare (with_type DRM_MODE_TYPE_PREFERRED sample_mode) sample_mode < 0 /\
  rank sample_mode < rank (with_type DRM_MODE_TYPE_PREFERRED sample_mode).
Proof.
  split; [reflexivity|].
  apply (drm_mode_compare_ranks (with_type DRM_MODE_TYPE_PREFERRED sample_mode) sample_mode);
    [unfold rankable; simpl; lia|unfold rankable; simpl; lia|reflexivity].
Defined.

(** ** CRTC timings of a valid mode *)

Lemma validate_basic_ok m :
  drm_mode_validate_basic m = MODE_OK <->
  clock m <> 0 /\ hdisplay m <> 0 /\ hdisplay m <= hsync_start m <= hsync_end m /\
  hsync_end m <= htotal m /\ vdisplay m <> 0 /\ vdisplay m <= vsync_start m <= vsync_end m /\
  vsync_end m <= vtotal m.
Proof.
  unfold drm_mode_validate_basic. destruct (clock m =? 0) eqn:E0; [split; [done|lia]|].
  destruct (_ || _ || _ || _) eqn:E1; [split; [done|]; rewrite !orb_true_iff in E1; lia|].
  destruct (_ || _ || _ || _) eqn:E2 in |- *; [split; [done|]; rewrite !orb_true_iff in E2; lia|].
  rewrite !orb_false_iff in E1, E2. split; [lia|done].
Qed.

(** The vertical timings in order, none above [B]. *)
Definition ordered (v : vtimes) (B : Z) : Prop :=
  let '(d, s, e, t) := v in 0 <= d <= s /\ s <= e <= t /\ t <= B.

Lemma ordered_map f v B B' :
  ordered v B -> (forall x y, 0 <= x <= y -> y <= B -> 0 <= f x <= f y) -> (forall x, 0 <= x <= B -> f x <= B') ->
  ordered (map_vtimes f v) B'.
Proof.
  destruct v as [[[d s] e] t]. simpl. intros (? & ? & ?) Hf HB.
  pose proof (Hf d s ltac:(lia) ltac:(lia)). pose proof (Hf s e ltac:(lia) ltac:(lia)).
  pose proof (Hf e t ltac:(lia) ltac:(lia)). pose proof (HB t ltac:(lia)). lia.
Qed.

Lemma ordered_if (b : bool) f v B B' :
  ordered v B -> B <= B' ->
  (b = true -> (forall x y, 0 <= x <= y -> y <= B -> 0 <= f x <= f y) /\ (forall x, 0 <= x <= B -> f x <= B')) ->
  ordered (if b then map_vtimes f v else v) B'.
Proof.
  intros Hv HB Hf. destruct b; [destruct (Hf eq_refl); by eapply ordered_map|].
  destruct v as [[[d s] e] t]. simpl in *. lia.
Qed.

Lemma s32_mul_mono k B : 0 <= k -> B * k < 2 ^ 31 ->
  (forall x y, 0 <= x <= y -> y <= B -> 0 <= s32 (x * k) <= s32 (y * k)) /\
  (forall x, 0 <= x <= B -> s32 (x * k) <= B * k).
Proof.
  intros Hk HB. assert (forall x, 0 <= x <= B -> s32 (x * k) = x * k) as Hs.
  { intros x Hx. apply s32_small. unfold is_s32. pose proof (Z.mul_le_mono_nonneg_r x B k Hk ltac:(lia)).
    pose proof (Z.mul_nonneg_nonneg x k). lia. }
  split; intros; rewrite !Hs by lia.
  - pose proof (Z.mul_le_mono_nonneg_r x y k Hk ltac:(lia)). pose proof (Z.mul_nonneg_nonneg x k). lia.
  - apply Z.mul_le_mono_nonneg_r; lia.
Qed.

(** For a mode that passed [drm_mode_validate_basic] and whose scaled height fits an [int],
    [drm_mode_set_crtcinfo] derives, for every combination of adjustment flags, CRTC timings
    that are still in order; vertical blanking therefore runs from the end of the display
    to the total, as does horizontal blanking, and horizontal timings are unchanged. *)
Theorem drm_mode_set_crtcinfo_ordered p adjust :
  drm_mode_validate_basic p = MODE_OK -> 0 < vdisplay p ->
  vtotal p * 4 * Z.max 1 (vscan p) < 2 ^ 31 ->
  Z.land (type_ p) DRM_MODE_TYPE_CRTC_C <> DRM_MODE_TYPE_BUILTIN ->
  let c := crtc (drm_mode_set_crtcinfo p adjust) in
  0 <= crtc_vdisplay c <= crtc_vsync_start c /\ crtc_vsync_start c <= crtc_vsync_end c <= crtc_vtotal c /\
  crtc_vblank_start c = crtc_vdisplay c /\ crtc_vblank_end c = crtc_vtotal c /\
  crtc_hblank_start c = hdisplay p /\ crtc_hblank_end c = htotal p /\
  crtc_hdisplay c = hdisplay p /\ crtc_hsync_start c = hsync_start p /\
  crtc_hsync_end c = hsync_end p /\ crtc_htotal c = htotal p.
Proof.
  intros (_ & _ & Hh1 & Hh2 & _ & Hv1 & Hv2)%validate_basic_ok Hpos HB Hty.
  unfold drm_mode_set_crtcinfo. apply Z.eqb_neq in Hty. rewrite Hty.
  set (B := vtotal p) in *. set (k := Z.max 1 (vscan p)) in *.
  set (v0 := (vdisplay p, vsync_start p, vsync_end p, B)).
  assert (ordered v0 B) as H0 by (unfold v0; simpl; lia).
  set (v1 := if has_flag (flags p) DRM_MODE_FLAG_INTERLACE && has_flag adjust CRTC_INTERLACE_HALVE_V
             then map_vtimes (fun x => Z.quot x 2) v0 else v0).
  assert (ordered v1 B) as H1.
  { apply (ordered_if _ _ _ B B H0); [lia|]. intros _. split; intros;
      rewrite ?Z.quot_div_nonneg by lia; Z.div_mod_to_equations; lia. }
  set (v2 := if negb (has_flag adjust CRTC_NO_DBLSCAN) && has_flag (flags p) DRM_MODE_FLAG_DBLSCAN
             then map_vtimes (fun x => s32 (x * 2)) v1 else v1).
  assert (ordered v2 (B * 2)) as H2.
  { apply (ordered_if _ _ _ B (B * 2) H1); [lia|]. intros _. apply s32_mul_mono; [lia|]. nia. }
  set (v3 := if negb (has_flag adjust CRTC_NO_VSCAN) && (1 <? vscan p)
             then map_vtimes (fun x => s32 (x * vscan p)) v2 else v2).
  assert (ordered v3 (B * 2 * k)) as H3.
  { apply (ordered_if _ _ _ (B * 2) (B * 2 * k) H2); [nia|]. intros Hb.
    apply andb_prop in Hb as [_ Hb]. replace (vscan p) with k by (unfold k; lia).
    apply s32_mul_mono; lia. }
  cbv zeta. fold v0. fold v1. fold v2. fold v3. clearbody v3. clear H0 H1 H2 v0 v1 v2.
  destruct v3 as [[[d s] e] t]. simpl in H3.
  assert (forall x, 0 <= x <= t -> s32 (x + t) = x + t) as Hs by (intros; apply s32_small; unfold is_s32; lia).
  destruct (has_flag adjust CRTC_STEREO_DOUBLE && _); simpl; rewrite ?Hs by lia; split_and!; lia.
Qed.

Lemma drm_mode_set_crtcinfo_ordered_witness :
  let c := crtc (drm_mode_set_crtcinfo sample_mode CRTC_INTERLACE_HALVE_V) in
  crtc_vblank_start c = crtc_vdisplay c /\ crtc_vblank_end c = 1125.
Proof.
  pose proof (drm_mode_set_crtcinfo_ordered sample_mode CRTC_INTERLACE_HALVE_V eq_refl
    ltac:(simpl; lia) ltac:(simpl; lia) ltac:(vm_compute; discriminate)) as H.
  cbv zeta in H. destruct H as (_ & _ & H & H' & _). split; [exact H|]. rewrite H'. reflexivity.
Defined.

(** ** User-space conversion *)

(** What [struct drm_mode_modeinfo] can carry. *)
Definition representable (m : drm_display_mode) : Prop :=
  is_u16 (hdisplay m) /\ is_u16 (hsync_start m) /\ is_u16 (hsync_end m) /\ is_u16 (htotal m) /\
  is_u16 (hskew m) /\ is_u16 (vdisplay m) /\ is_u16 (vsync_start m) /\ is_u16 (vsync_end m) /\
  is_u16 (vtotal m) /\ is_u16 (vscan m) /\ 0 <= clock m < 2 ^ 31 /\ 0 <= vrefresh m < 2 ^ 31 /\
  (length (name m) < DRM_DISPLAY_MODE_LEN)%nat /\
  Z.land (flags m) DRM_MODE_FLAG_3D_MASK <= DRM_MODE_FLAG_3D_MAX.

(** A valid mode survives the trip to user space and back: [drm_mode_convert_umode] accepts
    what [drm_mode_convert_to_umode] produced and rebuilds every user-visible field, the
    status MODE_OK and the CRTC timings. *)
Theorem drm_mode_umode_round_trip m out :
  representable m -> drm_mode_validate_basic m = MODE_OK -> status m = MODE_OK -> hsync m = hsync out ->
  drm_mode_convert_umode out (drm_mode_convert_to_umode m) =
    (Ok tt, drm_mode_set_crtcinfo (with_crtc (crtc out) m) CRTC_INTERLACE_HALVE_V).
Proof.
  intros (? & ? & ? & ? & ? & ? & ? & ? & ? & ? & ? & ? & Hn & H3) Hv Hst Hhs.
  unfold drm_mode_convert_umode, drm_mode_convert_to_umode. simpl.
  rewrite !u32_small, !u16_small by (unfold is_u32; try done; lia).
  replace (INT_MAX <? clock m) with false by (unfold INT_MAX; lia).
  replace (INT_MAX <? vrefresh m) with false by (unfold INT_MAX; lia). cbn [orb].
  replace (DRM_MODE_FLAG_3D_MAX <? _) with false by lia.
  unfold copy_name. rewrite !take_ge by (rewrite ?length_take; unfold DRM_DISPLAY_MODE_LEN in *; lia).
  set (m' := {| name := _ |}).
  assert (drm_mode_validate_basic m' = MODE_OK) as E by exact Hv.
  rewrite E. unfold m'. f_equal. f_equal. unfold with_crtc. rewrite Hst, Hhs. done.
Qed.

Lemma drm_mode_umode_round_trip_witness :
  exists m', drm_mode_convert_umode sample_mode (drm_mode_convert_to_umode sample_mode) = (Ok tt, m') /\
    hdisplay m' = 1920 /\ crtc_vtotal (crtc m') = 1125.
Proof.
  eexists. split.
  - apply (drm_mode_umode_round_trip sample_mode sample_mode); [|reflexivity|reflexivity|reflexivity].
    unfold representable, is_u16, DRM_DISPLAY_MODE_LEN. cbn [sample_mode hdisplay hsync_start hsync_end
      htotal hskew vdisplay vsync_start vsync_end vtotal vscan clock vrefresh name flags length].
    split_and!; try lia. vm_compute. discriminate.
  - split; reflexivity.
Defined.

(** [drm_mode_convert_umode] rejects user input exactly as it should: ERANGE for a clock or
    refresh rate beyond [int] (the mode is then untouched), EINVAL for an unknown stereo
    layout or illegal timings, and success leaves a mode that passed validation. *)
Theorem drm_mode_convert_umode_errors out i :
  let '(r, m) := drm_mode_convert_umode out i in
  match r with
  | Ok _ => drm_mode_validate_basic m = MODE_OK /\ status m = MODE_OK /\
      u_clock i <= INT_MAX /\ u_vrefresh i <= INT_MAX /\
      Z.land (u_flags i) DRM_MODE_FLAG_3D_MASK <= DRM_MODE_FLAG_3D_MAX
  | Err e =>
      (e = ERANGE /\ m = out /\ (INT_MAX < u_clock i \/ INT_MAX < u_vrefresh i)) \/
      (e = EINVAL /\ u_clock i <= INT_MAX /\ u_vrefresh i <= INT_MAX /\
       (DRM_MODE_FLAG_3D_MAX < Z.land (u_flags i) DRM_MODE_FLAG_3D_MASK \/
        drm_mode_validate_basic m <> MODE_OK /\ status m = drm_mode_validate_basic m))
  end.
Proof.
  unfold drm_mode_convert_umode.
  destruct ((INT_MAX <? u_clock i) || (INT_MAX <? u_vrefresh i)) eqn:E1.
  { left. split_and!; [done|done|]. apply orb_prop in E1. lia. }
  apply orb_false_elim in E1 as [? ?].
  destruct (DRM_MODE_FLAG_3D_MAX <? _) eqn:E2; [right; split_and!; try done; lia|].
  set (m0 := {| name := copy_name _ |}). cbv zeta.
  assert (forall st, drm_mode_validate_basic
    {| name := name m0; status := st; type_ := type_ m0; clock := clock m0; hdisplay := hdisplay m0;
       hsync_start := hsync_start m0; hsync_end := hsync_end m0; htotal := htotal m0; hskew := hskew m0;
       vdisplay := vdisplay m0; vsync_start := vsync_start m0; vsync_end := vsync_end m0;
       vtotal := vtotal m0; vscan := vscan m0; flags := flags m0; vrefresh := vrefresh m0;
       hsync := hsync m0; crtc := crtc m0 |} = drm_mode_validate_basic m0) as Hv by done.
  assert (forall q a, drm_mode_validate_basic (drm_mode_set_crtcinfo q a) = drm_mode_validate_basic q /\
    status (drm_mode_set_crtcinfo q a) = status q) as Hset.
  { intros q a. unfold drm_mode_set_crtcinfo. destruct (Z.land (type_ q) _ =? _); [done|].
    by repeat case_match. }
  destruct (drm_mode_validate_basic m0) eqn:E3; try (right; split_and!; try done; try lia; right; by rewrite Hv).
  destruct (Hset {| name := name m0; status := MODE_OK; type_ := type_ m0; clock := clock m0; hdisplay := hdisplay m0;
       hsync_start := hsync_start m0; hsync_end := hsync_end m0; htotal := htotal m0; hskew := hskew m0;
       vdisplay := vdisplay m0; vsync_start := vsync_start m0; vsync_end := vsync_end m0;
       vtotal := vtotal m0; vscan := vscan m0; flags := flags m0; vrefresh := vrefresh m0;
       hsync := hsync m0; crtc := crtc m0 |} CRTC_INTERLACE_HALVE_V) as [-> ->].
  rewrite Hv. split_and!; try done; lia.
Qed.
