(* ===== verification/ModeGen.v ===== *)
(** * Mode generation ([drm_cvt_mode] and [drm_gtf_mode] of [drm_modes.c])

    The CVT and GTF formulas compute a full set of timings from a resolution and a refresh
    rate in integer arithmetic.  The C types matter: [vfieldrate] and [hperiod] are
    [unsigned int], so products with them are reduced with [u32].  A division by zero gives
    [None].  [drm_mode_create] is taken to succeed. *)

From S2P Require Import Prelude Rect Modes.
From stdpp Require Import base gmap list option sets sorting.
From Stdlib Require Import ZArith Lia.

#[local] Set Warnings "-clear-no-such-hyp".
#[local] Open Scope Z_scope.

Declare Scope cint_scope.
Delimit Scope cint_scope with cint.

(** [int] and [unsigned int] operators *)
Notation "a +i b" := (s32 (a + b)) (at level 50, left associativity) : cint_scope.
Notation "a -i b" := (s32 (a - b)) (at level 50, left associativity) : cint_scope.
Notation "a *i b" := (s32 (a * b)) (at level 40, left associativity) : cint_scope.
Notation "a /i b" := (Z.quot a b) (at level 40, left associativity) : cint_scope.
Notation "a %i b" := (Z.rem a b) (at level 40, left associativity) : cint_scope.
Notation "a +u b" := (u32 (a + b)) (at level 50, left associativity) : cint_scope.
Notation "a -u b" := (u32 (a - b)) (at level 50, left associativity) : cint_scope.
Notation "a *u b" := (u32 (a * b)) (at level 40, left associativity) : cint_scope.
#[local] Open Scope cint_scope.

(** Unsigned division; a zero divisor traps. *)
Definition div_u (a b : Z) : option Z := if b =? 0 then None else Some (a / b).

(** A mode from [drm_mode_create] with the fields the generators fill in; the name is set
    while only the interlace flag may be present. *)
Definition new_mode (interlaced : bool) (hd hss hse ht vd vss vse vt clk fl : Z) : drm_display_mode :=
  {| name := mode_name hd vd interlaced; status := MODE_OK; type_ := 0; clock := clk;
     hdisplay := hd; hsync_start := hss; hsync_end := hse; htotal := ht; hskew := 0;
     vdisplay := vd; vsync_start := vss; vsync_end := vse; vtotal := vt; vscan := 0;
     flags := fl; vrefresh := 0; hsync := 0;
     crtc := {| crtc_clock := 0; crtc_hdisplay := 0; crtc_hblank_start := 0; crtc_hblank_end := 0;
                crtc_hsync_start := 0; crtc_hsync_end := 0; crtc_htotal := 0; crtc_hskew := 0;
                crtc_vdisplay := 0; crtc_vblank_start := 0; crtc_vblank_end := 0;
                crtc_vsync_start := 0; crtc_vsync_end := 0; crtc_vtotal := 0 |} |}.

(** ** CVT *)

Definition HV_FACTOR : Z := 1000.
Definition CVT_MARGIN_PERCENTAGE : Z := 18.
Definition CVT_H_GRANULARITY : Z := 8.
Definition CVT_MIN_V_PORCH : Z := 3.
Definition CVT_MIN_V_BPORCH : Z := 6.
Definition CVT_CLOCK_STEP : Z := 250.
Definition CVT_MIN_VSYNC_BP : Z := 550.
Definition CVT_HSYNC_PERCENTAGE : Z := 8.
Definition CVT_M_PRIME : Z := 600 * 128 / 256.
Definition CVT_C_PRIME : Z := (40 - 20) * 128 / 256 + 20.
Definition CVT_RB_MIN_VBLANK : Z := 460.
Definition CVT_RB_H_SYNC : Z := 32.
Definition CVT_RB_H_BLANK : Z := 160.
Definition CVT_RB_VFPORCH : Z := 3.

(** VSync width from the aspect ratio *)
Definition cvt_vsync (hdisplay vdisplay : Z) : Z :=
  if (vdisplay %i 3 =? 0) && ((vdisplay *i 4) /i 3 =? hdisplay) then 4
  else if (vdisplay %i 9 =? 0) && ((vdisplay *i 16) /i 9 =? hdisplay) then 5
  else if (vdisplay %i 10 =? 0) && ((vdisplay *i 16) /i 10 =? hdisplay) then 6
  else if (vdisplay %i 4 =? 0) && ((vdisplay *i 5) /i 4 =? hdisplay) then 7
  else if (vdisplay %i 9 =? 0) && ((vdisplay *i 15) /i 9 =? hdisplay) then 7
  else 10.

(** The timings of one branch: (hperiod, vtotal, htotal, hsync_start, hsync_end, vsync_start,
    vsync_end), from the mode's display size, lines per field, margin, sync width and rate. *)
Definition cvt_timings : Type := Z * Z * Z * Z * Z * Z * Z.

Definition cvt_full_blanking (hd vd vdisplay_rnd vmargin vsync interlace vfieldrate : Z)
    : option cvt_timings :=
  let tmp1 := s32 (HV_FACTOR * 1000000 -u (CVT_MIN_VSYNC_BP * HV_FACTOR) *u vfieldrate) in
  let tmp2 := (vdisplay_rnd +i 2 *i vmargin +i CVT_MIN_V_PORCH) *i 2 +i interlace in
  hperiod ← div_u (u32 (tmp1 *i 2)) (tmp2 *u vfieldrate);
  q ← div_u (CVT_MIN_VSYNC_BP * HV_FACTOR) hperiod;
  let tmp1 := s32 (q +u 1) in
  let vsyncandback_porch :=
    if tmp1 <? vsync +i CVT_MIN_V_PORCH then vsync +i CVT_MIN_V_PORCH else tmp1 in
  let vt := vdisplay_rnd +i 2 *i vmargin +i vsyncandback_porch +i CVT_MIN_V_PORCH in
  let hblank_percentage := CVT_C_PRIME * HV_FACTOR -u (CVT_M_PRIME *u hperiod) / 1000 in
  let hblank_percentage :=
    if hblank_percentage <? 20 * HV_FACTOR then 20 * HV_FACTOR else hblank_percentage in
  hblank ← div_u (hd *u hblank_percentage) (100 * HV_FACTOR -u hblank_percentage);
  let hblank := s32 hblank in
  let hblank := hblank -i hblank %i (2 * CVT_H_GRANULARITY) in
  let ht := hd +i hblank in
  let hse := hd +i hblank /i 2 in
  let hss := hse -i (ht *i CVT_HSYNC_PERCENTAGE) /i 100 in
  let hss := hss +i (CVT_H_GRANULARITY -i hss %i CVT_H_GRANULARITY) in
  let vss := vd +i CVT_MIN_V_PORCH in
  Some (hperiod, vt, ht, hss, hse, vss, vss +i vsync).

Definition cvt_reduced_blanking (hd vd vdisplay_rnd vmargin vsync vfieldrate : Z) : option cvt_timings :=
  let tmp1 := s32 (HV_FACTOR * 1000000 -u (CVT_RB_MIN_VBLANK * HV_FACTOR) *u vfieldrate) in
  let tmp2 := vdisplay_rnd +i 2 *i vmargin in
  hperiod ← div_u (u32 tmp1) (tmp2 *u vfieldrate);
  q ← div_u (CVT_RB_MIN_VBLANK * HV_FACTOR) hperiod;
  let vbilines := s32 (q +u 1) in
  let vbilines := if vbilines <? CVT_RB_VFPORCH +i vsync +i CVT_MIN_V_BPORCH
                  then CVT_RB_VFPORCH +i vsync +i CVT_MIN_V_BPORCH else vbilines in
  let vt := vdisplay_rnd +i 2 *i vmargin +i vbilines in
  let ht := hd +i CVT_RB_H_BLANK in
  let hse := hd +i CVT_RB_H_BLANK / 2 in
  let hss := hse -i CVT_RB_H_SYNC in
  let vss := vd +i CVT_RB_VFPORCH in
  Some (hperiod, vt, ht, hss, hse, vss, vss +i vsync).

Definition drm_cvt_mode (hdisplay vdisplay vrefresh : Z) (reduced interlaced margins : bool)
    : option drm_display_mode :=
  let vrefresh := if vrefresh =? 0 then 60 else vrefresh in
  let vfieldrate := if interlaced then u32 (vrefresh *i 2) else u32 vrefresh in
  let hdisplay_rnd := hdisplay -i hdisplay %i CVT_H_GRANULARITY in
  let hmargin :=
    if margins then
      let h := (hdisplay_rnd *i CVT_MARGIN_PERCENTAGE) /i 1000 in h -i h %i CVT_H_GRANULARITY
    else 0 in
  let hd := hdisplay_rnd +i 2 *i hmargin in
  let vdisplay_rnd := if interlaced then vdisplay /i 2 else vdisplay in
  let vmargin := if margins then (vdisplay_rnd *i CVT_MARGIN_PERCENTAGE) /i 1000 else 0 in
  let vd := vdisplay +i 2 *i vmargin in
  let interlace := if interlaced then 1 else 0 in
  let vsync := cvt_vsync hdisplay vdisplay in
  timings ← (if reduced then cvt_reduced_blanking hd vd vdisplay_rnd vmargin vsync vfieldrate
             else cvt_full_blanking hd vd vdisplay_rnd vmargin vsync interlace vfieldrate);
  let '(hperiod, vt, ht, hss, hse, vss, vse) := timings in
  let tmp := u64 ht in
  let tmp := u64 (tmp * (HV_FACTOR * 1000)) in
  tmp ← div_u tmp hperiod;
  let tmp := u64 (tmp - 0 %i CVT_CLOCK_STEP) in
  let clk := s32 tmp in
  let vt := if interlaced then vt *i 2 else vt in
  let fl := if interlaced then DRM_MODE_FLAG_INTERLACE else 0 in
  let fl := if reduced then Z.lor fl (Z.lor DRM_MODE_FLAG_PHSYNC DRM_MODE_FLAG_NVSYNC)
            else Z.lor fl (Z.lor DRM_MODE_FLAG_PVSYNC DRM_MODE_FLAG_NHSYNC) in
  Some (new_mode interlaced hd hss hse ht vd vss vse vt clk fl).

(** ** GTF *)

Definition GTF_MARGIN_PERCENTAGE : Z := 18.
Definition GTF_CELL_GRAN : Z := 8.
Definition GTF_MIN_V_PORCH : Z := 1.
Definition V_SYNC_RQD : Z := 3.
Definition H_SYNC_PERCENT : Z := 8.
Definition MIN_VSYNC_PLUS_BP : Z := 550.

Definition drm_gtf_mode_complex (hdisplay vdisplay vrefresh : Z) (interlaced : bool) (margins : Z)
    (GTF_M GTF_2C GTF_K GTF_2J : Z) : option drm_display_mode :=
  let GTF_C_PRIME := ((((GTF_2C -i GTF_2J) *i GTF_K) /i 256) +i GTF_2J) /i 2 in
  let GTF_M_PRIME := (GTF_K *i GTF_M) /i 256 in
  let hdisplay_rnd := u32 ((hdisplay +i GTF_CELL_GRAN / 2) /i GTF_CELL_GRAN) in
  let hdisplay_rnd := hdisplay_rnd *u GTF_CELL_GRAN in
  let vdisplay_rnd := u32 (if interlaced then vdisplay /i 2 else vdisplay) in
  let vfieldrate_rqd := u32 (if interlaced then vrefresh *i 2 else vrefresh) in
  let top_margin :=
    if negb (margins =? 0) then s32 ((vdisplay_rnd *u GTF_MARGIN_PERCENTAGE +u 500) / 1000) else 0 in
  let bottom_margin := top_margin in
  let interlace := if interlaced then 1 else 0 in
  let tmp1 := (1000000 -u MIN_VSYNC_PLUS_BP *u vfieldrate_rqd) / 500 in
  let tmp2 := (vdisplay_rnd +u 2 *i top_margin +u GTF_MIN_V_PORCH) *u 2 +u interlace in
  hfreq_est ← div_u (tmp2 *u 1000 *u vfieldrate_rqd) tmp1;
  let vsync_plus_bp := s32 ((MIN_VSYNC_PLUS_BP *u hfreq_est) / 1000) in
  let vsync_plus_bp := (vsync_plus_bp +i 500) /i 1000 in
  let vtotal_lines :=
    vdisplay_rnd +u top_margin +u bottom_margin +u vsync_plus_bp +u GTF_MIN_V_PORCH in
  _ ← div_u hfreq_est vtotal_lines;
  _ ← div_u 1000000 (vfieldrate_rqd *u vtotal_lines);
  let left_margin :=
    if negb (margins =? 0) then s32 ((hdisplay_rnd *u GTF_MARGIN_PERCENTAGE +u 500) / 1000) else 0 in
  let right_margin := left_margin in
  let total_active_pixels := hdisplay_rnd +u left_margin +u right_margin in
  q ← div_u (u32 (GTF_M_PRIME *i 1000000)) hfreq_est;
  let ideal_duty_cycle := u32 (GTF_C_PRIME *i 1000 - q) in
  hblank ← div_u (total_active_pixels *u ideal_duty_cycle) (100000 -u ideal_duty_cycle);
  let hblank := (hblank +u GTF_CELL_GRAN) / (2 * GTF_CELL_GRAN) in
  let hblank := hblank *u 2 *u GTF_CELL_GRAN in
  let total_pixels := total_active_pixels +u hblank in
  let pixel_freq := (total_pixels *u hfreq_est) / 1000 in
  let hsync := s32 ((H_SYNC_PERCENT *u total_pixels) / 100) in
  let hsync := (hsync +i GTF_CELL_GRAN / 2) /i GTF_CELL_GRAN in
  let hsync := hsync *i GTF_CELL_GRAN in
  let hfront_porch := s32 (hblank / 2 -u hsync) in
  let vodd_front_porch_lines := GTF_MIN_V_PORCH in
  let hd := s32 hdisplay_rnd in
  let hss := s32 (hdisplay_rnd +u hfront_porch) in
  let hse := hss +i hsync in
  let ht := s32 total_pixels in
  let vd := s32 vdisplay_rnd in
  let vss := s32 (vdisplay_rnd +u vodd_front_porch_lines) in
  let vse := vss +i V_SYNC_RQD in
  let vt := s32 vtotal_lines in
  let clk := s32 pixel_freq in
  let vt := if interlaced then vt *i 2 else vt in
  let fl := if (GTF_M =? 600) && (GTF_2C =? 80) && (GTF_K =? 128) && (GTF_2J =? 40)
            then Z.lor DRM_MODE_FLAG_NHSYNC DRM_MODE_FLAG_PVSYNC
            else Z.lor DRM_MODE_FLAG_PHSYNC DRM_MODE_FLAG_NVSYNC in
  Some (new_mode interlaced hd hss hse ht vd vss vse vt clk fl).

Definition drm_gtf_mode (hdisplay vdisplay vrefresh : Z) (interlaced : bool) (margins : Z)
    : option drm_display_mode :=
  drm_gtf_mode_complex hdisplay vdisplay vrefresh interlaced margins 600 (40 * 2) 128 (20 * 2).

(** ** Arithmetic *)

Ltac cint := rewrite ?s32_small, ?u32_small by (unfold is_s32, is_u32; lia).

Lemma rem_pos a b : 0 <= a -> 0 < b -> Z.rem a b = a mod b.
Proof. intros. by rewrite Z.rem_mod_nonneg by lia. Qed.

Lemma quot_pos a b : 0 <= a -> 0 < b -> Z.quot a b = a / b.
Proof. intros. by rewrite Z.quot_div_nonneg by lia. Qed.

Lemma cvt_vsync_range h v : 4 <= cvt_vsync h v <= 10.
Proof. unfold cvt_vsync. repeat case_match; lia. Qed.

Lemma div_u_ok a b : b <> 0 -> div_u a b = Some (a / b).
Proof. intros Hb. unfold div_u. by replace (b =? 0) with false by lia. Qed.

(** A quotient between bounds of its dividend. *)
Lemma div_bounds a b lo hi : 0 < b -> lo * b <= a -> a < (hi + 1) * b -> lo <= a / b <= hi.
Proof.
  intros Hb Hlo Hhi. split; [apply Z.div_le_lower_bound; lia|].
  assert (a / b < hi + 1); [apply Z.div_lt_upper_bound; lia|lia].
Qed.

(** Requests a display can make sense of. *)
Definition sane_request (h v r : Z) : Prop := 320 <= h <= 8192 /\ 200 <= v <= 8192 /\ 50 <= r <= 240.

Section Cvt.
Context (hd vd vrnd vmargin vsync F : Z).
Hypothesis Hhd : 320 <= hd <= 8600.
Hypothesis Hvs : 4 <= vsync <= 10.
Hypothesis Hvm : 0 <= vmargin <= 150.
Hypothesis Hvrnd : 100 <= vrnd <= 8192.
Hypothesis HF : 50 <= F <= 480.
Hypothesis Hlines : 10000 <= vrnd * F.

(** What the caller needs of the timings of either branch. *)
Definition timings_ok (t : cvt_timings) : Prop :=
  let '(hperiod, vt, ht, hss, hse, vss, vse) := t in
  100 <= hperiod <= 100000 /\ vrnd + 2 * vmargin + vsync + 6 <= vt <= 20000 /\
  hd <= hss <= hse /\ hse <= ht <= 20000 /\ vss = vd + 3 /\ vse = vd + 3 + vsync.

Lemma cvt_reduced_ok : 0 <= vd <= 8600 ->
  exists t, cvt_reduced_blanking hd vd vrnd vmargin vsync F = Some t /\ timings_ok t.
Proof.
  intros Hvd. unfold cvt_reduced_blanking, HV_FACTOR, CVT_RB_MIN_VBLANK, CVT_RB_VFPORCH, CVT_MIN_V_BPORCH,
    CVT_RB_H_BLANK, CVT_RB_H_SYNC.
  change (460 * 1000) with 460000. change (1000 * 1000000) with 1000000000. change (160 / 2) with 80.
  rewrite (u32_small (460000 * F)) by (unfold is_u32; lia).
  rewrite (u32_small (1000000000 - 460000 * F)) by (unfold is_u32; lia).
  rewrite (s32_small (1000000000 - 460000 * F)) by (unfold is_s32; lia).
  rewrite (u32_small (1000000000 - 460000 * F)) by (unfold is_u32; lia).
  rewrite (s32_small (2 * vmargin)) by (unfold is_s32; lia).
  rewrite (s32_small (vrnd + 2 * vmargin)) by (unfold is_s32; lia).
  set (L := vrnd + 2 * vmargin).
  assert (10000 <= L * F <= 8500 * 480) as HLF by (unfold L; nia).
  rewrite (u32_small (L * F)) by (unfold is_u32; lia).
  rewrite div_u_ok by lia. cbn [mbind option_bind].
  set (hp := (1000000000 - 460000 * F) / (L * F)).
  assert (100 <= hp <= 100000) as Hhp by (apply div_bounds; nia).
  rewrite div_u_ok by lia. cbn [mbind option_bind].
  pose proof (div_bounds 460000 hp 4 4600 ltac:(lia) ltac:(lia) ltac:(lia)) as Hq.
  set (q := 460000 / hp) in *.
  rewrite (u32_small (q + 1)) by (unfold is_u32; lia). rewrite (s32_small (q + 1)) by (unfold is_s32; lia).
  rewrite (s32_small (3 + vsync)) by (unfold is_s32; lia).
  rewrite (s32_small (3 + vsync + 6)) by (unfold is_s32; lia).
  set (vb := if q + 1 <? 3 + vsync + 6 then 3 + vsync + 6 else q + 1).
  assert (3 + vsync + 6 <= vb <= 4601) as Hvb by (unfold vb; case_match; lia).
  eexists; split; [done|]. unfold timings_ok.
  rewrite (s32_small (L + vb)) by (unfold is_s32, L in *; lia).
  rewrite !(s32_small (hd + _)) by (unfold is_s32; lia). rewrite (s32_small (hd + 80 - 32)) by (unfold is_s32; lia).
  rewrite (s32_small (vd + 3)) by (unfold is_s32; lia). rewrite (s32_small (vd + 3 + vsync)) by (unfold is_s32; lia).
  unfold L in *. split_and!; lia.
Qed.

(** Horizontal blanking of the full formula: from a quarter to half of the active pixels. *)
Lemma hblank_range p : 20000 <= p <= 30000 ->
  hd / 4 - 1 <= hd * p / (100000 - p) <= hd / 2.
Proof.
  intros Hp. pose proof (Z.div_mod hd 4 ltac:(lia)). pose proof (Z.mod_pos_bound hd 4 ltac:(lia)).
  pose proof (Z.div_mod hd 2 ltac:(lia)). pose proof (Z.mod_pos_bound hd 2 ltac:(lia)).
  apply div_bounds; nia.
Qed.

Lemma cvt_hsync_ok hblank0 : hd / 4 - 1 <= hblank0 <= hd / 2 ->
  let hblank := hblank0 - hblank0 mod 16 in
  let ht := hd + hblank in
  let hse := hd + hblank / 2 in
  let hss := hse - ht * 8 / 100 in
  let hss' := hss + (8 - hss mod 8) in
  hd <= hss' <= hse /\ hse <= ht <= 20000 /\ 0 <= hss /\ hd - 1 <= hss.
Proof. intros H. cbv zeta. Z.div_mod_to_equations. lia. Qed.

Lemma cvt_full_ok interlace : 0 <= vd <= 8600 -> 0 <= interlace <= 1 ->
  exists t, cvt_full_blanking hd vd vrnd vmargin vsync interlace F = Some t /\ timings_ok t.
Proof.
  intros Hvd Hi. unfold cvt_full_blanking, HV_FACTOR, CVT_MIN_VSYNC_BP, CVT_MIN_V_PORCH,
    CVT_H_GRANULARITY, CVT_HSYNC_PERCENTAGE, CVT_C_PRIME, CVT_M_PRIME.
  change (550 * 1000) with 550000. change (1000 * 1000000) with 1000000000.
  change ((40 - 20) * 128 / 256 + 20) with 30. change (600 * 128 / 256) with 300.
  change (30 * 1000) with 30000. change (20 * 1000) with 20000. change (100 * 1000) with 100000.
  change (2 * 8) with 16.
  rewrite (u32_small (550000 * F)) by (unfold is_u32; lia).
  rewrite (u32_small (1000000000 - 550000 * F)) by (unfold is_u32; lia).
  set (T := 1000000000 - 550000 * F). assert (736000000 <= T <= 972500000) as HT by (unfold T; lia). clearbody T.
  rewrite (s32_small T) by (unfold is_s32; lia).
  rewrite (s32_small (T * 2)) by (unfold is_s32; lia). rewrite (u32_small (T * 2)) by (unfold is_u32; lia).
  rewrite (s32_small (2 * vmargin)) by (unfold is_s32; lia).
  rewrite (s32_small (vrnd + 2 * vmargin)) by (unfold is_s32; lia).
  set (L := vrnd + 2 * vmargin) in *. assert (100 <= L <= 8500) as HL by (unfold L; lia).
  assert (10000 <= L * F <= 8500 * 480) as HLF by (unfold L; nia).
  rewrite (s32_small (L + 3)) by (unfold is_s32; lia).
  rewrite (s32_small ((L + 3) * 2)) by (unfold is_s32; lia).
  rewrite (s32_small ((L + 3) * 2 + interlace)) by (unfold is_s32; lia).
  set (D := ((L + 3) * 2 + interlace) * F).
  assert (20000 <= D <= 8168000) as HD by (unfold D; nia). clearbody D.
  rewrite (u32_small D) by (unfold is_u32; lia).
  rewrite div_u_ok by lia. cbn [mbind option_bind].
  set (hp := T * 2 / D). assert (100 <= hp <= 100000) as Hhp by (apply div_bounds; lia).
  clearbody hp.
  rewrite (div_u_ok 550000 hp) by lia. cbn [mbind option_bind].
  pose proof (div_bounds 550000 hp 5 5500 ltac:(lia) ltac:(lia) ltac:(lia)) as Hq.
  set (q := 550000 / hp) in *. clearbody q.
  rewrite (u32_small (q + 1)) by (unfold is_u32; lia). rewrite (s32_small (q + 1)) by (unfold is_s32; lia).
  rewrite (s32_small (vsync + 3)) by (unfold is_s32; lia).
  set (vb := if q + 1 <? vsync + 3 then vsync + 3 else q + 1).
  assert (vsync + 3 <= vb <= 5501) as Hvb by (unfold vb; case_match; lia). clearbody vb.
  rewrite (u32_small (300 * hp)) by (unfold is_u32; lia).
  pose proof (div_bounds (300 * hp) 1000 30 30000 ltac:(lia) ltac:(lia) ltac:(lia)) as Hm.
  rewrite (u32_small (30000 - _)) by (unfold is_u32; lia).
  set (p := if 30000 - 300 * hp / 1000 <? 20000 then 20000 else 30000 - 300 * hp / 1000).
  assert (20000 <= p <= 30000) as Hp by (unfold p; case_match; lia). clearbody p.
  rewrite (u32_small (100000 - p)) by (unfold is_u32; lia).
  rewrite (u32_small (hd * p)) by (unfold is_u32; nia).
  rewrite div_u_ok by lia. cbn [mbind option_bind].
  pose proof (hblank_range p Hp) as Hb0. set (b0 := hd * p / (100000 - p)) in *. clearbody b0.
  destruct (cvt_hsync_ok b0 Hb0) as (Hs1 & Hs2 & Hs3 & Hs4).
  assert (0 <= b0 - b0 mod 16 <= 4300) as Hb by (Z.div_mod_to_equations; lia).
  rewrite (s32_small b0) by (unfold is_s32; Z.div_mod_to_equations; lia).
  rewrite (rem_pos b0 16) by (Z.div_mod_to_equations; lia).
  rewrite (s32_small (b0 - b0 mod 16)) by (unfold is_s32; lia).
  set (hb := b0 - b0 mod 16) in *. rewrite (quot_pos hb 2) by lia.
  rewrite !(s32_small (hd + _)) by (unfold is_s32; Z.div_mod_to_equations; lia).
  rewrite (s32_small ((hd + hb) * 8)) by (unfold is_s32; lia). rewrite quot_pos by lia.
  set (hs := hd + hb / 2 - (hd + hb) * 8 / 100) in *.
  pose proof (Z.mod_pos_bound hs 8 ltac:(lia)). clearbody hs.
  rewrite (s32_small hs) by (unfold is_s32; lia). rewrite (rem_pos hs 8) by lia.
  rewrite (s32_small (8 - hs mod 8)) by (unfold is_s32; lia).
  rewrite (s32_small (hs + (8 - hs mod 8))) by (unfold is_s32; lia).
  rewrite (s32_small (L + vb)) by (unfold is_s32; lia). rewrite (s32_small (L + vb + 3)) by (unfold is_s32; lia).
  rewrite (s32_small (vd + 3)) by (unfold is_s32; lia). rewrite (s32_small (vd + 3 + vsync)) by (unfold is_s32; lia).
  eexists; split; [done|]. unfold timings_ok, L in *. split_and!; lia.
Qed.

End Cvt.

(** For every sane request (320 to 8192 pixels by 200 to 8192 lines at 50 to 240 Hz), with
    any choice of reduced blanking, interlacing and margins, [drm_cvt_mode] never divides by
    zero and produces a mode that [drm_mode_validate_basic] accepts: the sync pulses lie
    between display and total, the clock is positive, the width is a multiple of the
    character cell. *)
Theorem drm_cvt_mode_valid h v r (reduced interlaced margins : bool) :
  sane_request h v r ->
  exists m, drm_cvt_mode h v r reduced interlaced margins = Some m /\
    drm_mode_validate_basic m = MODE_OK /\ 0 < clock m /\
    hdisplay m mod CVT_H_GRANULARITY = 0 /\ h - 7 <= hdisplay m /\ v <= vdisplay m /\
    has_flag (flags m) DRM_MODE_FLAG_INTERLACE = interlaced.
Proof.
  intros (Hh & Hv & Hr). unfold drm_cvt_mode. cbv zeta.
  replace (r =? 0) with false by lia.
  set (F := if interlaced then _ else u32 r).
  assert (F = if interlaced then r * 2 else r) as EF.
  { unfold F. destruct interlaced; [rewrite s32_small by (unfold is_s32; lia)|]; apply u32_small; unfold is_u32; lia. }
  set (vrnd := if interlaced then v /i 2 else v).
  assert (vrnd = if interlaced then v / 2 else v) as Ev.
  { unfold vrnd. destruct interlaced; [apply quot_pos; lia|done]. }
  assert (50 <= F <= 480 /\ 100 <= vrnd <= 8192 /\ 10000 <= vrnd * F /\ v - 1 <= (if interlaced then 2 else 1) * vrnd)
    as (HF & Hvr & HvF & Hvv).
  { rewrite EF, Ev. destruct interlaced; [|split_and!; nia].
    pose proof (Z.div_mod v 2 ltac:(lia)). pose proof (Z.mod_pos_bound v 2 ltac:(lia)). split_and!; nia. }
  clearbody F vrnd. clear EF Ev. unfold CVT_H_GRANULARITY, CVT_MARGIN_PERCENTAGE.
  rewrite (rem_pos h 8) by lia. rewrite (s32_small (h - h mod 8)) by (unfold is_s32; Z.div_mod_to_equations; lia).
  set (hr := h - h mod 8).
  assert (313 <= hr <= 8192 /\ h - 7 <= hr /\ hr mod 8 = 0) as (Hhr & Hhr2 & Hhr8)
    by (unfold hr; Z.div_mod_to_equations; lia).
  clearbody hr.
  set (hm := if margins then _ else 0).
  assert (0 <= hm <= 150 /\ hm mod 8 = 0) as (Hhm & Hhm8).
  { unfold hm. destruct margins; [|done]. rewrite (s32_small (hr * 18)) by (unfold is_s32; lia).
    rewrite (quot_pos (hr * 18)) by lia. rewrite rem_pos by (try apply Z.div_pos; lia).
    rewrite s32_small by (unfold is_s32; Z.div_mod_to_equations; lia). Z.div_mod_to_equations; lia. }
  clearbody hm. rewrite (s32_small (2 * hm)) by (unfold is_s32; lia).
  rewrite (s32_small (hr + 2 * hm)) by (unfold is_s32; lia).
  set (hd := hr + 2 * hm).
  assert (320 <= hd <= 8600 /\ hd mod 8 = 0 /\ h - 7 <= hd) as (Hhd & Hhd8 & Hhd7)
    by (unfold hd; Z.div_mod_to_equations; lia).
  clearbody hd. clear Hhr Hhr2 Hhr8 Hhm Hhm8 hr hm.
  set (vm := if margins then _ else 0).
  assert (0 <= vm <= 150) as Hvm.
  { unfold vm. destruct margins; [|lia]. rewrite (s32_small (vrnd * 18)) by (unfold is_s32; lia).
    rewrite quot_pos by lia. apply div_bounds; lia. }
  clearbody vm. rewrite (s32_small (2 * vm)) by (unfold is_s32; lia).
  rewrite (s32_small (v + 2 * vm)) by (unfold is_s32; lia).
  set (vd := v + 2 * vm). assert (200 <= vd <= 8600 /\ v <= vd) as [Hvd Hvd2] by (unfold vd; lia).
  pose proof (cvt_vsync_range h v) as Hvs. set (vs := cvt_vsync h v) in *. clearbody vs.
  match goal with |- context [?x ≫= _] =>
    assert (exists t, x = Some t /\ timings_ok hd vd vrnd vm vs t) as (t & Et & Ht) end.
  { destruct reduced; [apply cvt_reduced_ok; auto; lia|].
    apply cvt_full_ok; auto; try lia. destruct interlaced; lia. }
  rewrite Et. clear Et.
  destruct t as [[[[[[hp vt] ht] hss] hse] vss] vse]. cbn [mbind option_bind].
  destruct Ht as (Hhp & Hvt & Hh1 & Hh2 & Evss & Evse).
  rewrite (u64_small ht) by (unfold is_u64; lia). unfold HV_FACTOR. change (1000 * 1000) with 1000000.
  rewrite (u64_small (ht * 1000000)) by (unfold is_u64; lia).
  rewrite div_u_ok by lia. cbn [mbind option_bind].
  pose proof (div_bounds (ht * 1000000) hp 3000 200000000 ltac:(lia) ltac:(lia) ltac:(lia)) as Hc.
  change (0 %i CVT_CLOCK_STEP) with 0. rewrite Z.sub_0_r.
  rewrite (u64_small (_ / hp)) by (unfold is_u64; lia). rewrite (s32_small (_ / hp)) by (unfold is_s32; lia).
  set (vt' := if interlaced then vt *i 2 else vt).
  assert (vse <= vt') as Hvt'.
  { unfold vt'. destruct interlaced; [rewrite s32_small by (unfold is_s32; lia)|]; unfold vd in *; lia. }
  eexists; split; [done|]. split_and!; try done; [| |destruct interlaced, reduced; reflexivity].
  - apply validate_basic_ok. simpl. split_and!; lia.
  - simpl. lia.
Qed.

Lemma drm_cvt_mode_valid_witness :
  exists m, drm_cvt_mode 1366 768 60 false true true = Some m /\ drm_mode_validate_basic m = MODE_OK /\
    hdisplay m = 1408.
Proof.
  destruct (drm_cvt_mode_valid 1366 768 60 false true true ltac:(unfold sane_request; lia)) as (m & E & H & _).
  exists m. split; [exact E|]. split; [exact H|]. vm_compute in E. injection E as <-. reflexivity.
Defined.

(** The CVT pixel clock is not rounded down to the 250 kHz step the standard and the
    code's own step 15 call for: the remainder is taken of the mode's clock field, which is
    still zero, so the generated clock is exactly the unrounded quotient; 1920x1080 at 60 Hz
    gets 173106 kHz instead of 173000. *)
Theorem drm_cvt_mode_clock_unrounded h v r reduced interlaced margins m :
  drm_cvt_mode h v r reduced interlaced margins = Some m ->
  (exists hperiod, clock m = s32 (u64 (u64 (u64 (htotal m) * 1000000) / hperiod))) /\
  (exists m', drm_cvt_mode 1920 1080 60 false false false = Some m' /\ clock m' = 173106 /\
     clock m' mod CVT_CLOCK_STEP <> 0).
Proof.
  unfold drm_cvt_mode. intros E. split.
  - cbv zeta in E. match type of E with (?x ≫= _) = _ => destruct x as [[[[[[[hp vt] ht] hss] hse] vss] vse]|] end;
      [|done].
    cbn [mbind option_bind] in E. destruct (div_u _ hp) as [t|] eqn:Ed; [|done].
    cbn [mbind option_bind] in E. injection E as <-. simpl.
    unfold div_u in Ed. destruct (hp =? 0); [done|]. injection Ed as <-.
    exists hp. change (Z.rem 0 CVT_CLOCK_STEP) with 0. rewrite Z.sub_0_r. done.
  - eexists. split; [vm_compute; reflexivity|]. split; [reflexivity|]. vm_compute. discriminate.
Qed.

Lemma drm_cvt_mode_clock_unrounded_witness :
  exists m, drm_cvt_mode 1280 720 60 true false false = Some m /\
    exists hperiod, clock m = s32 (u64 (u64 (u64 (htotal m) * 1000000) / hperiod)).
Proof.
  destruct (drm_cvt_mode 1280 720 60 true false false) as [m|] eqn:E; [|exfalso; vm_compute in E; discriminate].
  exists m. split; [reflexivity|].
  exact (proj1 (drm_cvt_mode_clock_unrounded 1280 720 60 true false false m E)).
Defined.

(** An interlaced GTF mode is not marked interlaced: the sync polarity overwrites the
    flags after the interlace flag was set, although the vertical total is that of the two
    fields. *)
Theorem drm_gtf_mode_drops_interlace h v r interlaced margins m :
  drm_gtf_mode h v r interlaced margins = Some m ->
  has_flag (flags m) DRM_MODE_FLAG_INTERLACE = false /\
  flags m = Z.lor DRM_MODE_FLAG_NHSYNC DRM_MODE_FLAG_PVSYNC.
Proof.
  unfold drm_gtf_mode, drm_gtf_mode_complex. intros E.
  repeat match type of E with (?x ≫= _) = _ => destruct x; [|done]; cbn [mbind option_bind] in E end.
  injection E as <-. done.
Qed.

Lemma drm_gtf_mode_drops_interlace_witness :
  exists m, drm_gtf_mode 1024 768 60 true 0 = Some m /\ vtotal m = 824 /\
    has_flag (flags m) DRM_MODE_FLAG_INTERLACE = false.
Proof.
  destruct (drm_gtf_mode 1024 768 60 true 0) as [m|] eqn:E; [|exfalso; vm_compute in E; discriminate].
  exists m. split; [reflexivity|].
  assert (vtotal m = 824) as Ev by (vm_compute in E; injection E as <-; reflexivity).
  split; [exact Ev|]. exact (proj1 (drm_gtf_mode_drops_interlace 1024 768 60 true 0 m E)).
Defined.

(** ** Requests of any size *)

(** The blanking percentage is never 100, even when it wraps around. *)
Lemma blanking_nonzero p : 0 <= p <= 4294967 -> u32 (100000 - u32 (30000 - p)) <> 0.
Proof.
  intros Hp. unfold u32. destruct (Z.le_gt_cases p 30000).
  - rewrite (Z.mod_small (30000 - p)), Z.mod_small by lia. lia.
  - replace ((30000 - p) mod 2 ^ 32) with (2 ^ 32 + 30000 - p) by (apply Z.mod_unique with (-1); lia).
    replace (100000 - (2 ^ 32 + 30000 - p)) with (70000 + p + (-1) * 2 ^ 32) by lia. rewrite Z.mod_add, Z.mod_small by lia. lia.
Qed.

(** CVT and GTF answer requests of any size that an EDID can make, though not always with a sensible mode. *)
Lemma drm_cvt_mode_total h v r reduced : 0 <= h <= 16384 -> 1 <= v <= 8192 -> 50 <= r <= 255 ->
  exists m, drm_cvt_mode h v r reduced false false = Some m.
Proof.
  intros Hh Hv Hr. unfold drm_cvt_mode. cbv zeta. replace (r =? 0) with false by lia. rewrite (u32_small r) by (unfold is_u32; lia).
  generalize (cvt_vsync h v). intros vs. match goal with |- context [cvt_reduced_blanking ?a ?b _ _ _ _] => generalize a, b end. intros hd vd.
  match goal with |- context [?x ≫= _] => assert (exists t, x = Some t /\ t.1.1.1.1.1.1 <> 0) as (t & -> & Hne) end.
  { destruct reduced.
    - unfold cvt_reduced_blanking. cbv zeta. change (s32 (2 * 0)) with 0. unfold CVT_RB_MIN_VBLANK, HV_FACTOR.
      change (460 * 1000) with 460000. change (1000 * 1000000) with 1000000000. rewrite Z.add_0_r.
      assert (v * r <= 8192 * 255 /\ 0 < v * r) as [Hm H0] by nia.
      rewrite (u32_small (460000 * r)), (u32_small (1000000000 - 460000 * r)), (s32_small (1000000000 - 460000 * r)),
        (u32_small (1000000000 - 460000 * r)), (s32_small v), (u32_small (v * r)) by (unfold is_u32, is_s32; lia).
      pose proof (div_bounds (1000000000 - 460000 * r) (v * r) 400 1000000000 ltac:(lia) ltac:(nia) ltac:(nia)) as Hq.
      rewrite div_u_ok by lia. cbn [mbind option_bind]. rewrite div_u_ok by lia. cbn [mbind option_bind]. eexists. split; [done|]. cbn [fst]. lia.
    - unfold cvt_full_blanking. cbv zeta. change (s32 (2 * 0)) with 0. unfold CVT_MIN_VSYNC_BP, CVT_MIN_V_PORCH, HV_FACTOR.
      change (CVT_C_PRIME * 1000) with 30000. change CVT_M_PRIME with 300.
      change (550 * 1000) with 550000. change (1000 * 1000000) with 1000000000. change (100 * 1000) with 100000. change (20 * 1000) with 20000.
      rewrite Z.add_0_r. assert ((v + 3) * 2 * r <= 8195 * 2 * 255 /\ 0 < (v + 3) * 2 * r) as [Hm H0] by nia.
      rewrite (u32_small (550000 * r)), (u32_small (1000000000 - 550000 * r)), (s32_small (1000000000 - 550000 * r)) by (unfold is_u32, is_s32; lia).
      rewrite (s32_small ((1000000000 - 550000 * r) * 2)), (u32_small ((1000000000 - 550000 * r) * 2)) by (unfold is_u32, is_s32; lia).
      rewrite (s32_small v), (s32_small (v + 3)), (s32_small ((v + 3) * 2)), Z.add_0_r, (s32_small ((v + 3) * 2)), (u32_small ((v + 3) * 2 * r))
        by (unfold is_u32, is_s32; lia).
      pose proof (div_bounds ((1000000000 - 550000 * r) * 2) ((v + 3) * 2 * r) 400 2000000000 ltac:(lia) ltac:(nia) ltac:(nia)) as Hq.
      rewrite div_u_ok by lia. cbn [mbind option_bind]. set (hp := (1000000000 - 550000 * r) * 2 / _) in *. clearbody hp.
      rewrite (div_u_ok 550000 hp) by lia. cbn [mbind option_bind]. set (p := u32 (300 * hp) / 1000).
      assert (0 <= p <= 4294967) as Hp by (pose proof (u32_range (300 * hp)) as Hu; unfold is_u32 in Hu; apply div_bounds; lia).
      pose proof (blanking_nonzero p Hp) as Hnz.
      assert (u32 (100000 - (if u32 (30000 - p) <? 20000 then 20000 else u32 (30000 - p))) <> 0) as Hd
        by (destruct (u32 (30000 - p) <? 20000); [done|exact Hnz]).
      rewrite div_u_ok by exact Hd. cbn [mbind option_bind]. eexists. split; [done|]. cbn [fst]. lia. }
  destruct t as [[[[[[hp vt] ht] hss] hse] vss] vse]. cbn [mbind option_bind fst] in *. rewrite div_u_ok by done. cbn [mbind option_bind]. by eexists.
Qed.

Lemma drm_gtf_mode_total h v r : 1 <= v <= 8192 -> 50 <= r <= 255 -> exists m, drm_gtf_mode h v r false 0 = Some m.
Proof.
  intros Hv Hr. unfold drm_gtf_mode, drm_gtf_mode_complex. cbv zeta.
  change (((((40 * 2 -i 20 * 2) *i 128) /i 256) +i 20 * 2) /i 2) with 30. change ((128 *i 600) /i 256) with 300. change (negb (0 =? 0)) with false.
  change (s32 (300 * 1000000)) with 300000000. change (u32 300000000) with 300000000. change (s32 (30 * 1000)) with 30000. change (s32 (2 * 0)) with 0.
  unfold MIN_VSYNC_PLUS_BP, GTF_MIN_V_PORCH. rewrite (u32_small v), (u32_small r) by (unfold is_u32; lia).
  rewrite (u32_small (550 * r)), (u32_small (1000000 - 550 * r)) by (unfold is_u32; lia).
  pose proof (div_bounds (1000000 - 550 * r) 500 1719 2000 ltac:(lia) ltac:(lia) ltac:(lia)) as Ht. set (tmp1 := _ / 500) in *. clearbody tmp1.
  rewrite !Z.add_0_r, (u32_small v), (u32_small (v + 1)), (u32_small ((v + 1) * 2)) by (unfold is_u32; lia).
  rewrite (u32_small ((v + 1) * 2)), (u32_small ((v + 1) * 2 * 1000)) by (unfold is_u32; lia).
  assert (200000 <= (v + 1) * 2 * 1000 * r <= 8193 * 2 * 1000 * 255) as Hp by nia. rewrite (u32_small ((v + 1) * 2 * 1000 * r)) by (unfold is_u32; lia).
  pose proof (div_bounds ((v + 1) * 2 * 1000 * r) tmp1 100 2431000 ltac:(lia) ltac:(lia) ltac:(lia)) as Hf.
  rewrite div_u_ok by lia. cbn [mbind option_bind]. set (hf := _ / tmp1) in *. clearbody hf.
  rewrite (u32_small (550 * hf)) by (unfold is_u32; lia). pose proof (div_bounds (550 * hf) 1000 0 1337050 ltac:(lia) ltac:(lia) ltac:(lia)) as Hb.
  set (bp := 550 * hf / 1000) in *. clearbody bp. rewrite (s32_small bp), (s32_small (bp + 500)), (quot_pos (bp + 500) 1000) by (unfold is_s32; lia).
  pose proof (div_bounds (bp + 500) 1000 0 1338 ltac:(lia) ltac:(lia) ltac:(lia)) as Hb2. set (b2 := (bp + 500) / 1000) in *. clearbody b2.
  rewrite ?(u32_small v), (u32_small (v + b2)), (u32_small (v + b2 + 1)) by (unfold is_u32; lia).
  assert (2 <= v + b2 + 1 <= 9531) as Hvt by lia. set (vt := v + b2 + 1) in *. clearbody vt.
  assert (100 <= r * vt <= 255 * 9531) as Hrv by nia.
  rewrite (div_u_ok hf vt) by lia. cbn [mbind option_bind]. rewrite (u32_small (r * vt)) by (unfold is_u32; lia).
  rewrite (div_u_ok 1000000 (r * vt)) by lia. cbn [mbind option_bind]. rewrite (div_u_ok 300000000 hf) by lia. cbn [mbind option_bind].
  pose proof (div_bounds 300000000 hf 0 3000000 ltac:(lia) ltac:(lia) ltac:(lia)) as Hq.
  rewrite div_u_ok by (apply blanking_nonzero; lia). cbn [mbind option_bind]. by eexists.
Qed.

(** Below about 160 lines the percentage of blanking is negative, wraps around and is not raised to the minimum: the mode for 256x144 at 60 Hz
    has a line of 41984 pixels and a clock of 383 MHz. *)
Lemma drm_cvt_mode_small_wraps : exists m, drm_cvt_mode 256 144 60 false false false = Some m /\ htotal m = 41984 /\ clock m = 382936.
Proof. eexists. split; [vm_compute; reflexivity|]. split; reflexivity. Qed.
