(* ===== verification/Cmdline.v ===== *)
(** * The [video=] command line ([drm_mode_parse_command_line_for_connector])

    The parser walks the option string from its last character to its first with a set of
    flags that say which parts it has seen.  Characters are their codes.  [simple_strtol] is
    the C library's, outside this repository: it is a parameter, with the part of its
    documented behaviour the parser relies on as a hypothesis. *)

From S2P Require Import Prelude Rect Modes ModeGen.
From stdpp Require Import base gmap list option sets sorting.
From Stdlib Require Import ZArith Lia.

#[local] Set Warnings "-clear-no-such-hyp".
#[local] Open Scope Z_scope.

Inductive drm_connector_force :=
  DRM_FORCE_UNSPECIFIED | DRM_FORCE_OFF | DRM_FORCE_ON | DRM_FORCE_ON_DIGITAL.

#[global] Instance drm_connector_force_eq_dec : EqDecision drm_connector_force.
Proof. solve_decision. Defined.

(** [struct drm_cmdline_mode] *)
Record drm_cmdline_mode := {
  specified : bool; refresh_specified : bool; bpp_specified : bool;
  xres : Z; yres : Z; bpp : Z; refresh : Z;
  rb : bool; interlace : bool; cvt : bool; margins : bool;
  force : drm_connector_force;
}.

(** The parser's local variables. *)
Record scan := {
  s_bpp_specified : bool; s_refresh_specified : bool; s_yres_specified : bool;
  s_yres : Z; s_bpp : Z; s_refresh : Z;
  s_cvt : bool; s_rb : bool; s_interlace : bool; s_margins : bool; s_was_digit : bool;
  s_force : drm_connector_force;
}.

Definition scan_init : scan :=
  {| s_bpp_specified := false; s_refresh_specified := false; s_yres_specified := false;
     s_yres := 0; s_bpp := 32; s_refresh := 0; s_cvt := false; s_rb := false;
     s_interlace := false; s_margins := false; s_was_digit := false;
     s_force := DRM_FORCE_UNSPECIFIED |}.

Definition is_digit (c : Z) : bool := (48 <=? c) && (c <=? 57).

(** Character codes *)
Definition c_at : Z := 64.
Definition c_minus : Z := 45.
Definition c_x : Z := 120.
Definition c_M : Z := 77.
Definition c_R : Z := 82.
Definition c_m : Z := 109.
Definition c_i : Z := 105.
Definition c_e : Z := 101.
Definition c_D : Z := 68.
Definition c_d : Z := 100.

Section Parser.
(** The number at the start of a string, and the rest of the string. *)
Variable simple_strtol : list Z -> Z * list Z.

(** The force options share their guard. *)
Definition force_guard (st : scan) : bool :=
  s_yres_specified st || s_bpp_specified st || s_refresh_specified st || s_was_digit st ||
  negb (bool_decide (s_force st = DRM_FORCE_UNSPECIFIED)).

Definition set_force (f : drm_connector_force) (st : scan) : scan :=
  {| s_bpp_specified := s_bpp_specified st; s_refresh_specified := s_refresh_specified st;
     s_yres_specified := s_yres_specified st; s_yres := s_yres st; s_bpp := s_bpp st;
     s_refresh := s_refresh st; s_cvt := s_cvt st; s_rb := s_rb st; s_interlace := s_interlace st;
     s_margins := s_margins st; s_was_digit := s_was_digit st; s_force := f |}.

Definition set_bits (cvt' rb' interlace' margins' digit' : bool) (st : scan) : scan :=
  {| s_bpp_specified := s_bpp_specified st; s_refresh_specified := s_refresh_specified st;
     s_yres_specified := s_yres_specified st; s_yres := s_yres st; s_bpp := s_bpp st;
     s_refresh := s_refresh st; s_cvt := cvt'; s_rb := rb'; s_interlace := interlace';
     s_margins := margins'; s_was_digit := digit'; s_force := s_force st |}.

Definition set_refresh (r : Z) (st : scan) : scan :=
  {| s_bpp_specified := s_bpp_specified st; s_refresh_specified := true;
     s_yres_specified := s_yres_specified st; s_yres := s_yres st; s_bpp := s_bpp st;
     s_refresh := r; s_cvt := s_cvt st; s_rb := s_rb st; s_interlace := s_interlace st;
     s_margins := s_margins st; s_was_digit := false; s_force := s_force st |}.

Definition set_bpp (b : Z) (st : scan) : scan :=
  {| s_bpp_specified := true; s_refresh_specified := s_refresh_specified st;
     s_yres_specified := s_yres_specified st; s_yres := s_yres st; s_bpp := b;
     s_refresh := s_refresh st; s_cvt := s_cvt st; s_rb := s_rb st; s_interlace := s_interlace st;
     s_margins := s_margins st; s_was_digit := false; s_force := s_force st |}.

Definition set_yres (y : Z) (st : scan) : scan :=
  {| s_bpp_specified := s_bpp_specified st; s_refresh_specified := s_refresh_specified st;
     s_yres_specified := true; s_yres := y; s_bpp := s_bpp st;
     s_refresh := s_refresh st; s_cvt := s_cvt st; s_rb := s_rb st; s_interlace := s_interlace st;
     s_margins := s_margins st; s_was_digit := false; s_force := s_force st |}.

(** One character [c] with the string [suf] after it; [None] is [goto done]. [digital] says
    whether the connector is DVI-I or HDMI-B. *)
Definition scan_char (digital : bool) (c : Z) (suf : list Z) (st : scan) : option scan :=
  if c =? c_at then
    if negb (s_refresh_specified st) && negb (s_bpp_specified st) && negb (s_yres_specified st)
       && negb (s_cvt st) && negb (s_rb st) && s_was_digit st
    then Some (set_refresh (u32 (simple_strtol suf).1) st) else None
  else if c =? c_minus then
    if negb (s_bpp_specified st) && negb (s_yres_specified st) && negb (s_cvt st)
       && negb (s_rb st) && s_was_digit st
    then Some (set_bpp (u32 (simple_strtol suf).1) st) else None
  else if c =? c_x then
    if negb (s_yres_specified st) && s_was_digit st
    then Some (set_yres (u32 (simple_strtol suf).1) st) else None
  else if is_digit c then
    Some (set_bits (s_cvt st) (s_rb st) (s_interlace st) (s_margins st) true st)
  else if c =? c_M then
    if s_yres_specified st || s_cvt st || s_was_digit st then None
    else Some (set_bits true (s_rb st) (s_interlace st) (s_margins st) (s_was_digit st) st)
  else if c =? c_R then
    if s_yres_specified st || s_cvt st || s_rb st || s_was_digit st then None
    else Some (set_bits (s_cvt st) true (s_interlace st) (s_margins st) (s_was_digit st) st)
  else if c =? c_m then
    if s_cvt st || s_yres_specified st || s_was_digit st then None
    else Some (set_bits (s_cvt st) (s_rb st) (s_interlace st) true (s_was_digit st) st)
  else if c =? c_i then
    if s_cvt st || s_yres_specified st || s_was_digit st then None
    else Some (set_bits (s_cvt st) (s_rb st) true (s_margins st) (s_was_digit st) st)
  else if c =? c_e then
    if force_guard st then None else Some (set_force DRM_FORCE_ON st)
  else if c =? c_D then
    if force_guard st then None
    else Some (set_force (if digital then DRM_FORCE_ON_DIGITAL else DRM_FORCE_ON) st)
  else if c =? c_d then
    if force_guard st then None else Some (set_force DRM_FORCE_OFF st)
  else None.

(** The [for] loop, over the characters in reverse. *)
Fixpoint scan_loop (digital : bool) (rname : list Z) (suf : list Z) (st : scan) : option scan :=
  match rname with
  | [] => Some st
  | c :: rname => st ← scan_char digital c suf st; scan_loop digital rname (c :: suf) st
  end.

Definition not_specified (mode : drm_cmdline_mode) : drm_cmdline_mode :=
  {| specified := false; refresh_specified := refresh_specified mode;
     bpp_specified := bpp_specified mode; xres := xres mode; yres := yres mode; bpp := bpp mode;
     refresh := refresh mode; rb := rb mode; interlace := interlace mode; cvt := cvt mode;
     margins := margins mode; force := force mode |}.

(** What a successful parse stores. *)
Definition fill (res : option Z) (st : scan) (mode : drm_cmdline_mode) : drm_cmdline_mode :=
  {| specified := match res with Some _ => true | None => specified mode end;
     refresh_specified := s_refresh_specified st || refresh_specified mode;
     bpp_specified := s_bpp_specified st || bpp_specified mode;
     xres := match res with Some x => s32 x | None => xres mode end;
     yres := match res with Some _ => s32 (s_yres st) | None => yres mode end;
     bpp := if s_bpp_specified st then s32 (s_bpp st) else bpp mode;
     refresh := if s_refresh_specified st then s32 (s_refresh st) else refresh mode;
     rb := s_rb st; interlace := s_interlace st; cvt := s_cvt st; margins := s_margins st;
     force := s_force st |}.

Definition drm_mode_parse_command_line_for_connector (mode_option : option (list Z)) (digital : bool)
    (mode : drm_cmdline_mode) : bool * drm_cmdline_mode :=
  match mode_option with
  | None => (false, not_specified mode)
  | Some name =>
    match scan_loop digital (reverse name) [] scan_init with
    | None => (false, not_specified mode)
    | Some st =>
      if s_yres_specified st then
        let '(x, ch) := simple_strtol name in
        match ch with
        | c :: _ => if c =? c_x then (true, fill (Some (u32 x)) st mode) else (false, not_specified mode)
        | [] => (false, not_specified mode)
        end
      else if s_was_digit st then (false, not_specified mode)
      else (true, fill None st mode)
    end
  end.

(** ** Printing *)

Definition opt (b : bool) (l : list Z) : list Z := if b then l else [].

Definition print_force (f : drm_connector_force) : list Z :=
  match f with
  | DRM_FORCE_UNSPECIFIED => []
  | DRM_FORCE_OFF => [c_d]
  | DRM_FORCE_ON => [c_e]
  | DRM_FORCE_ON_DIGITAL => [c_D]
  end.

(** <xres>x<yres>[M][R][-<bpp>][@<refresh>][i][m][eDd] *)
Definition print_cmdline (m : drm_cmdline_mode) : list Z :=
  print_int (xres m) ++ [c_x] ++ print_int (yres m) ++
  opt (cvt m) [c_M] ++ opt (rb m) [c_R] ++
  opt (bpp_specified m) (c_minus :: print_int (bpp m)) ++
  opt (refresh_specified m) (c_at :: print_int (refresh m)) ++
  opt (interlace m) [c_i] ++ opt (margins m) [c_m] ++ print_force (force m).

(** A blank mode, and the modes the notation can express. *)
Definition cmdline_blank : drm_cmdline_mode :=
  {| specified := false; refresh_specified := false; bpp_specified := false; xres := 0; yres := 0;
     bpp := 0; refresh := 0; rb := false; interlace := false; cvt := false; margins := false;
     force := DRM_FORCE_UNSPECIFIED |}.

Definition expressible (digital : bool) (m : drm_cmdline_mode) : Prop :=
  specified m = true /\ 0 <= xres m < 2 ^ 31 /\ 0 <= yres m < 2 ^ 31 /\
  (if bpp_specified m then 0 <= bpp m < 2 ^ 31 else bpp m = 0) /\
  (if refresh_specified m then 0 <= refresh m < 2 ^ 31 else refresh m = 0) /\
  (force m = DRM_FORCE_ON_DIGITAL -> digital = true).

(** What is used of [strtol]: it reads a decimal number up to the first other character. *)
Definition no_digit (rest : list Z) : Prop := match rest with [] => True | c :: _ => is_digit c = false end.

Hypothesis strtol_reads : forall n rest,
  0 <= n < 2 ^ 31 -> no_digit rest -> simple_strtol (print_int n ++ rest) = (n, rest).

(** ** Scanning a segment *)

Definition run (digital : bool) (seg suf : list Z) (st : scan) : option scan :=
  scan_loop digital (reverse seg) suf st.

Lemma scan_loop_app digital r1 : forall r2 suf st,
  scan_loop digital (r1 ++ r2) suf st = st' ← scan_loop digital r1 suf st; scan_loop digital r2 (reverse r1 ++ suf) st'.
Proof.
  induction r1 as [|c r1 IH]; intros r2 suf st; simpl; [done|].
  destruct (scan_char digital c suf st); simpl; [|done]. rewrite IH.
  by rewrite reverse_cons, <- app_assoc.
Qed.

Lemma run_app digital a b suf st :
  run digital (a ++ b) suf st = st' ← run digital b suf st; run digital a (b ++ suf) st'.
Proof. unfold run. rewrite reverse_app, scan_loop_app. by rewrite reverse_involutive. Qed.

Lemma run_one digital c suf st : run digital [c] suf st = scan_char digital c suf st.
Proof. unfold run. simpl. by destruct (scan_char digital c suf st). Qed.

Definition digits (l : list Z) : Prop := l <> [] /\ Forall (fun c => is_digit c = true) l.

Lemma scan_digit digital c suf st : is_digit c = true ->
  scan_char digital c suf st = Some (set_bits (s_cvt st) (s_rb st) (s_interlace st) (s_margins st) true st).
Proof.
  intros Hc. unfold scan_char. rewrite Hc. unfold is_digit in Hc.
  replace (c =? c_at) with false by (unfold c_at; lia).
  replace (c =? c_minus) with false by (unfold c_minus; lia).
  by replace (c =? c_x) with false by (unfold c_x; lia).
Qed.

Lemma run_digits digital l : digits l -> forall suf st,
  run digital l suf st = Some (set_bits (s_cvt st) (s_rb st) (s_interlace st) (s_margins st) true st).
Proof.
  intros [Hn Hd]. induction l as [|c l IH] using rev_ind; [done|].
  intros suf st. apply Forall_app in Hd as [Hl Hc]. inversion Hc; subst.
  rewrite run_app, run_one, scan_digit by done. simpl.
  destruct l as [|d l]; [done|]. rewrite IH; [done|done|done].
Qed.

Lemma dec_digits_all fuel : forall n acc, 0 <= n -> Forall (fun c => is_digit c = true) acc ->
  Forall (fun c => is_digit c = true) (dec_digits fuel n acc) /\ (acc <> [] -> dec_digits fuel n acc <> []).
Proof.
  induction fuel as [|fuel IH]; intros n acc Hn Ha; simpl; [done|].
  pose proof (Z.mod_pos_bound n 10 ltac:(lia)) as Hm.
  assert (Forall (fun c => is_digit c = true) ((48 + n mod 10) :: acc)) as Ha'.
  { constructor; [unfold is_digit; lia|done]. }
  destruct (n / 10 =? 0); [done|].
  destruct (IH (n / 10) _ ltac:(apply Z.div_pos; lia) Ha') as [H1 H2]. split; [done|].
  intros _. by apply H2.
Qed.

Lemma print_int_digits n : 0 <= n -> digits (print_int n).
Proof.
  intros Hn. unfold print_int. replace (n <? 0) with false by lia.
  change (dec_digits 10 n []) with
    (if n / 10 =? 0 then [48 + n mod 10] else dec_digits 9 (n / 10) [48 + n mod 10]).
  pose proof (Z.mod_pos_bound n 10 ltac:(lia)).
  assert (Forall (fun c => is_digit c = true) [48 + n mod 10]) as Ha.
  { constructor; [unfold is_digit; lia|constructor]. }
  destruct (n / 10 =? 0); [by split|].
  destruct (dec_digits_all 9 (n / 10) [48 + n mod 10]) as [H1 H2]; [apply Z.div_pos; lia|done|].
  split; [by apply H2|done].
Qed.

(** The suffixes that follow a number do not start with a digit. *)
Lemma no_digit_opt b c l rest : is_digit c = false -> no_digit rest -> no_digit (opt b (c :: l) ++ rest).
Proof. destruct b; done. Qed.

Lemma no_digit_force f : no_digit (print_force f).
Proof. by destruct f. Qed.

Hint Resolve no_digit_opt no_digit_force : core.

#[local] Abbreviation mk bs rs ys yv bv rv c r i m dg f :=
  {| s_bpp_specified := bs; s_refresh_specified := rs; s_yres_specified := ys; s_yres := yv;
     s_bpp := bv; s_refresh := rv; s_cvt := c; s_rb := r; s_interlace := i; s_margins := m;
     s_was_digit := dg; s_force := f |}.

Lemma run_force digital f suf : (f = DRM_FORCE_ON_DIGITAL -> digital = true) ->
  run digital (print_force f) suf scan_init = Some (mk false false false 0 32 0 false false false false false f).
Proof. intros H. destruct f; try done. rewrite H by done. done. Qed.

Lemma run_margins digital b suf f :
  run digital (opt b [c_m]) suf (mk false false false 0 32 0 false false false false false f) =
  Some (mk false false false 0 32 0 false false false b false f).
Proof. by destruct b. Qed.

Lemma run_interlace digital b suf m f :
  run digital (opt b [c_i]) suf (mk false false false 0 32 0 false false false m false f) =
  Some (mk false false false 0 32 0 false false b m false f).
Proof. by destruct b. Qed.

Lemma run_refresh digital b n suf i m f : no_digit suf -> (b = true -> 0 <= n < 2 ^ 31) ->
  run digital (opt b (c_at :: print_int n)) suf (mk false false false 0 32 0 false false i m false f) =
  Some (mk false b false 0 32 (if b then n else 0) false false i m false f).
Proof.
  intros Hs Hn. destruct b; [|done]. specialize (Hn eq_refl). simpl opt.
  change (c_at :: print_int n) with ([c_at] ++ print_int n).
  rewrite run_app, run_digits by (apply print_int_digits; lia). simpl. rewrite run_one.
  unfold scan_char. simpl. rewrite strtol_reads by done. simpl. by rewrite u32_small by (unfold is_u32; lia).
Qed.

Lemma run_bpp digital b n suf rs rv i m f : no_digit suf -> (b = true -> 0 <= n < 2 ^ 31) ->
  run digital (opt b (c_minus :: print_int n)) suf (mk false rs false 0 32 rv false false i m false f) =
  Some (mk b rs false 0 (if b then n else 32) rv false false i m false f).
Proof.
  intros Hs Hn. destruct b; [|done]. specialize (Hn eq_refl). simpl opt.
  change (c_minus :: print_int n) with ([c_minus] ++ print_int n).
  rewrite run_app, run_digits by (apply print_int_digits; lia). simpl. rewrite run_one.
  unfold scan_char. simpl. rewrite strtol_reads by done. simpl. by rewrite u32_small by (unfold is_u32; lia).
Qed.

Lemma run_rb digital b suf bs rs bv rv i m f :
  run digital (opt b [c_R]) suf (mk bs rs false 0 bv rv false false i m false f) =
  Some (mk bs rs false 0 bv rv false b i m false f).
Proof. by destruct b. Qed.

Lemma run_cvt digital b suf bs rs bv rv r i m f :
  run digital (opt b [c_M]) suf (mk bs rs false 0 bv rv false r i m false f) =
  Some (mk bs rs false 0 bv rv b r i m false f).
Proof. by destruct b. Qed.

Lemma run_yres digital n suf bs rs bv rv c r i m f : no_digit suf -> 0 <= n < 2 ^ 31 ->
  run digital ([c_x] ++ print_int n) suf (mk bs rs false 0 bv rv c r i m false f) =
  Some (mk bs rs true n bv rv c r i m false f).
Proof.
  intros Hs Hn. rewrite run_app, run_digits by (apply print_int_digits; lia). simpl. rewrite run_one.
  unfold scan_char. simpl. rewrite strtol_reads by done. simpl. by rewrite u32_small by (unfold is_u32; lia).
Qed.

(** The parser reads back what the documented notation
    <xres>x<yres>[M][R][-<bpp>][@<refresh>][i][m][eDd] says: for every mode the notation can
    express, parsing its printed form succeeds and returns exactly that mode. *)
Theorem cmdline_parse_print digital m :
  expressible digital m ->
  drm_mode_parse_command_line_for_connector (Some (print_cmdline m)) digital cmdline_blank = (true, m).
Proof.
  intros (Hsp & Hx & Hy & Hb & Hr & Hf).
  unfold drm_mode_parse_command_line_for_connector.
  change (scan_loop digital (reverse (print_cmdline m)) [] scan_init) with
    (run digital (print_cmdline m) [] scan_init).
  unfold print_cmdline. set (tl := opt (margins m) [c_m] ++ print_force (force m)).
  assert (no_digit tl) as Htl by (unfold tl; auto).
  assert (no_digit (opt (interlace m) [c_i] ++ tl)) as Htl2 by auto.
  set (tl2 := opt (interlace m) [c_i] ++ tl) in *.
  set (tl3 := opt (refresh_specified m) _ ++ tl2). assert (no_digit tl3) as Htl3 by (unfold tl3; auto).
  set (tl4 := opt (bpp_specified m) _ ++ tl3). assert (no_digit tl4) as Htl4 by (unfold tl4; auto).
  set (tl5 := opt (rb m) _ ++ tl4). assert (no_digit tl5) as Htl5 by (unfold tl5; auto).
  set (tl6 := opt (cvt m) _ ++ tl5). assert (no_digit tl6) as Htl6 by (unfold tl6; auto).
  assert (run digital tl [] scan_init = Some (mk false false false 0 32 0 false false false (margins m) false (force m))) as E1
    by (unfold tl; rewrite run_app, run_force by done; apply run_margins).
  assert (run digital tl2 [] scan_init = Some (mk false false false 0 32 0 false false (interlace m) (margins m) false (force m))) as E2
    by (unfold tl2; rewrite run_app, E1; apply run_interlace).
  assert (run digital tl3 [] scan_init = Some (mk false (refresh_specified m) false 0 32 (if refresh_specified m then refresh m else 0)
    false false (interlace m) (margins m) false (force m))) as E3.
  { unfold tl3. rewrite run_app, E2. apply run_refresh; [by rewrite app_nil_r|]. intros Eb. by rewrite Eb in Hr. }
  assert (run digital tl4 [] scan_init = Some (mk (bpp_specified m) (refresh_specified m) false 0 (if bpp_specified m then bpp m else 32)
    (if refresh_specified m then refresh m else 0) false false (interlace m) (margins m) false (force m))) as E4.
  { unfold tl4. rewrite run_app, E3. apply run_bpp; [by rewrite app_nil_r|]. intros Eb. by rewrite Eb in Hb. }
  assert (run digital tl5 [] scan_init = Some (mk (bpp_specified m) (refresh_specified m) false 0 (if bpp_specified m then bpp m else 32)
    (if refresh_specified m then refresh m else 0) false (rb m) (interlace m) (margins m) false (force m))) as E5
    by (unfold tl5; rewrite run_app, E4; apply run_rb).
  assert (run digital tl6 [] scan_init = Some (mk (bpp_specified m) (refresh_specified m) false 0 (if bpp_specified m then bpp m else 32)
    (if refresh_specified m then refresh m else 0) (cvt m) (rb m) (interlace m) (margins m) false (force m))) as E6
    by (unfold tl6; rewrite run_app, E5; apply run_cvt).
  rewrite run_app, (app_assoc [c_x]), run_app, E6. cbn [mbind option_bind].
  rewrite run_yres by (rewrite ?app_nil_r; done). cbn [mbind option_bind].
  rewrite run_digits by (apply print_int_digits; lia). cbn [s_yres_specified set_bits].
  rewrite strtol_reads by done. simpl.
  unfold fill. cbn. destruct m. simpl in *. subst.
  rewrite !s32_small, !u32_small by (unfold is_u32, is_s32; try rewrite u32_small by (unfold is_u32; lia); lia).
  f_equal. rewrite !orb_false_r.
  destruct bpp_specified0, refresh_specified0; subst; f_equal; rewrite ?s32_small by (unfold is_s32; lia); done.
Qed.

(** A string without a width is accepted: ["x480"] parses as a specified mode of width
    zero, since the parser only checks that the number before the [x], read by a routine
    that accepts no digits at all, ends at the [x]. *)
Theorem cmdline_accepts_missing_width digital y :
  0 <= y < 2 ^ 31 -> simple_strtol ([c_x] ++ print_int y) = (0, [c_x] ++ print_int y) ->
  exists m, drm_mode_parse_command_line_for_connector (Some ([c_x] ++ print_int y)) digital cmdline_blank = (true, m) /\
    specified m = true /\ xres m = 0 /\ yres m = y.
Proof.
  intros Hy Hs. unfold drm_mode_parse_command_line_for_connector.
  change (scan_loop digital (reverse ([c_x] ++ print_int y)) [] scan_init) with
    (run digital ([c_x] ++ print_int y) [] scan_init).
  unfold scan_init. rewrite run_yres by done. rewrite Hs. cbn [s_yres_specified app].
  rewrite Z.eqb_refl. eexists; split; [done|]. simpl. split_and!; [done|done|].
  by rewrite s32_small by (unfold is_s32; lia).
Qed.

End Parser.

(** ** A [strtol] for the instances *)

Fixpoint read_digits (l : list Z) (acc : Z) : Z * list Z :=
  match l with
  | c :: l' => if is_digit c then read_digits l' (acc * 10 + (c - 48)) else (acc, l)
  | [] => (acc, [])
  end.

Definition strtol10 (l : list Z) : Z * list Z := read_digits l 0.

Lemma read_digits_app l acc rest :
  Forall (fun c => is_digit c = true) l -> no_digit rest ->
  read_digits (l ++ rest) acc = (foldl (fun a c => a * 10 + (c - 48)) acc l, rest).
Proof.
  intros Hl Hr. revert acc. induction Hl as [|c l Hc Hl IH]; intros acc; simpl.
  - destruct rest as [|c rest]; [done|]. simpl in *. by rewrite Hr.
  - rewrite Hc. apply IH.
Qed.

(** The digits of [n] before [acc] shift what is read so far and add [n]. *)
Lemma dec_digits_value fuel : forall n acc,
  0 <= n < 10 ^ Z.of_nat (S fuel) ->
  exists l, dec_digits (S fuel) n acc = l ++ acc /\ Forall (fun c => is_digit c = true) l /\
    forall v, foldl (fun a c => a * 10 + (c - 48)) v l = v * 10 ^ Z.of_nat (length l) + n.
Proof.
  induction fuel as [|fuel IH]; intros n acc Hn.
  - exists [48 + n mod 10]. simpl. change (10 ^ Z.of_nat 1) with 10 in Hn.
    rewrite (Z.mod_small n 10) by lia. rewrite (Z.div_small n 10) by lia. simpl. split; [done|]. split.
    + constructor; [unfold is_digit; lia|constructor].
    + intros v. change (10 ^ 1) with 10. lia.
  - pose proof (Z.mod_pos_bound n 10 ltac:(lia)) as Hm. pose proof (Z.div_mod n 10 ltac:(lia)) as Hd.
    change (dec_digits (S (S fuel)) n acc) with
      (if n / 10 =? 0 then (48 + n mod 10) :: acc else dec_digits (S fuel) (n / 10) ((48 + n mod 10) :: acc)).
    destruct (n / 10 =? 0) eqn:E.
    + exists [48 + n mod 10]. simpl. split; [done|]. split; [constructor; [unfold is_digit; lia|constructor]|].
      intros v. change (10 ^ 1) with 10. lia.
    + rewrite Nat2Z.inj_succ, Z.pow_succ_r in Hn by lia.
      destruct (IH (n / 10) ((48 + n mod 10) :: acc)) as (l & El & Hl & Hv).
      { split; [apply Z.div_pos; lia|apply Z.div_lt_upper_bound; lia]. }
      exists (l ++ [48 + n mod 10]). rewrite El. split; [by app_norm|]. split.
      * apply Forall_app. split; [done|]. constructor; [unfold is_digit; lia|constructor].
      * intros v. rewrite foldl_app, Hv, length_app. simpl.
        rewrite Nat2Z.inj_add, Z.pow_add_r by lia. change (10 ^ Z.of_nat 1) with 10. lia.
Qed.

Lemma strtol10_reads n rest :
  0 <= n < 2 ^ 31 -> no_digit rest -> strtol10 (print_int n ++ rest) = (n, rest).
Proof.
  intros Hn Hr. unfold strtol10, print_int. replace (n <? 0) with false by lia.
  destruct (dec_digits_value 9 n []) as (l & -> & Hl & Hv).
  { change (10 ^ Z.of_nat 10) with 10000000000. lia. }
  rewrite app_nil_r, read_digits_app by done. f_equal. rewrite Hv. lia.
Qed.

Definition sample_cmdline : drm_cmdline_mode :=
  {| specified := true; refresh_specified := true; bpp_specified := true; xres := 1920; yres := 1080;
     bpp := 24; refresh := 60; rb := true; interlace := false; cvt := true; margins := true;
     force := DRM_FORCE_ON_DIGITAL |}.

Lemma cmdline_parse_print_witness :
  drm_mode_parse_command_line_for_connector strtol10 (Some (print_cmdline sample_cmdline)) true cmdline_blank
  = (true, sample_cmdline).
Proof.
  apply (cmdline_parse_print strtol10 strtol10_reads true sample_cmdline).
  unfold expressible. simpl. split_and!; try lia; done.
Defined.

Lemma cmdline_accepts_missing_width_witness :
  exists m, drm_mode_parse_command_line_for_connector strtol10 (Some [120; 52; 56; 48]) false cmdline_blank = (true, m) /\
    specified m = true /\ xres m = 0 /\ yres m = 480.
Proof.
  apply (cmdline_accepts_missing_width strtol10 strtol10_reads false 480); [lia|reflexivity].
Defined.
