(* ===== verification/Bytes.v ===== *)
(** * Byte buffers

    Buffers of bytes as the packing and parsing routines of the drivers use
    them: a store or load outside the buffer is [None].  The lemmas execute
    sequences of stores symbolically and decide facts about small bit fields by
    evaluation. *)

From S2P Require Import Prelude.
From stdpp Require Import base gmap list option sets.
From Stdlib Require Import ZArith Lia.

#[local] Set Warnings "-clear-no-such-hyp".

#[local] Open Scope Z_scope.

(** ** Byte buffers *)

(** A buffer is the list of its bytes. *)
Abbreviation buf := (list Z).

Definition put (i : nat) (v : Z) (b : buf) : option buf :=
  match b !! i with Some _ => Some (<[i := u8 v]> b) | None => None end.

(** [ptr[i] |= v] *)
Definition put_or (i : nat) (v : Z) (b : buf) : option buf :=
  match b !! i with Some x => Some (<[i := u8 (Z.lor x v)]> b) | None => None end.

Definition put_or_if (c : bool) (i : nat) (v : Z) (b : buf) : option buf :=
  if c then put_or i v b else Some b.

(** Assignments to consecutive bytes from [ptr[i]] on, and [memcpy]. *)
Fixpoint puts (i : nat) (vs : list Z) (b : buf) : option buf :=
  match vs with
  | [] => Some b
  | v :: vs' => b ← put i v b; puts (S i) vs' b
  end.

(** [memcpy] from [src + i]. *)
Definition bytes_at (i n : nat) (src : list Z) : option (list Z) :=
  if (i + n <=? length src)%nat then Some (take n (drop i src)) else None.

(** [memset(buffer, 0, size)] *)
Definition memset0 (size : nat) (b : buf) : option buf :=
  if (size <=? length b)%nat then Some (replicate size 0 ++ drop size b) else None.

(** ** Stores *)

Lemma memset0_prefix k size b : (k <= size <= length b)%nat ->
  memset0 size b = Some (replicate k 0 ++ replicate (size - k) 0 ++ drop size b).
Proof.
  intros Hk. unfold memset0. rewrite (proj2 (Nat.leb_le _ _)) by lia.
  rewrite app_assoc, <- replicate_add. do 3 f_equal. lia.
Qed.

Lemma puts_app vs : forall i pre mid post, length pre = i -> length mid = length vs ->
  puts i vs (pre ++ mid ++ post) = Some (pre ++ map u8 vs ++ post).
Proof.
  induction vs as [|v vs IH]; intros i pre [|m mid] post Hp Hm; simplify_eq/=; [done|].
  unfold put. rewrite list_lookup_middle by done. cbn [mbind option_bind].
  rewrite insert_app_r_alt, Nat.sub_diag by lia. cbn [insert list_insert].
  replace (pre ++ u8 v :: mid ++ post) with ((pre ++ [u8 v]) ++ mid ++ post) by by app_norm.
  rewrite IH; [by app_norm|rewrite length_app; simpl; lia|done].
Qed.

Lemma put_app i v pre x post : length pre = i -> put i v (pre ++ x :: post) = Some (pre ++ u8 v :: post).
Proof.
  intros <-. unfold put. rewrite list_lookup_middle by done.
  by rewrite insert_app_r_alt, Nat.sub_diag by lia.
Qed.

Lemma put_or_app i v pre x post : length pre = i ->
  put_or i v (pre ++ x :: post) = Some (pre ++ u8 (Z.lor x v) :: post).
Proof.
  intros <-. unfold put_or. rewrite list_lookup_middle by done.
  by rewrite insert_app_r_alt, Nat.sub_diag by lia.
Qed.

Lemma u8_0 : u8 0 = 0.
Proof. done. Qed.

Lemma bind_some {A B} (x : A) (k : A -> option B) : (Some x ≫= k) = k x.
Proof. done. Qed.

Lemma put_bind {A} i v b x (k : buf -> option A) :
  b !! i = Some x -> (put i v b ≫= k) = k (<[i := u8 v]> b).
Proof. intros H. unfold put. by rewrite H. Qed.

Lemma put_or_bind {A} i v b x (k : buf -> option A) :
  b !! i = Some x -> (put_or i v b ≫= k) = k (<[i := u8 (Z.lor x v)]> b).
Proof. intros H. unfold put_or. by rewrite H. Qed.

Lemma puts_cons_bind {A} i v vs b x (k : buf -> option A) :
  b !! i = Some x -> (puts i (v :: vs) b ≫= k) = (puts (S i) vs (<[i := u8 v]> b) ≫= k).
Proof. intros H. cbn [puts]. unfold put. by rewrite H. Qed.

Lemma puts_nil_bind {A} i b (k : buf -> option A) : (puts i [] b ≫= k) = k b.
Proof. done. Qed.

Lemma put_or_true_bind {A} i v b x (k : buf -> option A) :
  b !! i = Some x -> (put_or_if true i v b ≫= k) = k (<[i := u8 (Z.lor x v)]> b).
Proof. apply put_or_bind. Qed.

Lemma put_or_false_bind {A} i v b (k : buf -> option A) : (put_or_if false i v b ≫= k) = k b.
Proof. done. Qed.

(** Symbolic execution of the byte stores at literal indices, one by one. *)
Ltac run_puts :=
  repeat (first [ rewrite bind_some | rewrite puts_nil_bind | rewrite put_or_false_bind
                | erewrite puts_cons_bind by reflexivity
                | erewrite put_bind by reflexivity
                | erewrite put_or_true_bind by reflexivity ];
          cbv beta; cbn [insert list_insert]).

(** ** Bit fields *)

(** A decidable fact about all numbers below [n], by evaluation. *)
Definition below (n : nat) (P : Z -> bool) : bool := forallb P (map Z.of_nat (seq 0 n)).

Lemma below_spec n P : below n P = true -> forall x, 0 <= x < Z.of_nat n -> P x = true.
Proof.
  intros H x Hx. unfold below in H. rewrite forallb_forall in H. apply H.
  apply in_map_iff. exists (Z.to_nat x). split; [lia|]. apply in_seq. lia.
Qed.

Ltac eval_bits := vm_compute; reflexivity.

Lemma land_below x n : 0 <= n -> 0 <= x < 2 ^ n -> Z.land x (Z.ones n) = x.
Proof. intros Hn Hx. rewrite Z.land_ones by lia. by apply Z.mod_small. Qed.

Lemma lor_shiftl x y n : 0 <= n -> 0 <= x < 2 ^ n -> Z.lor x (Z.shiftl y n) = x + y * 2 ^ n.
Proof.
  intros Hn Hx. assert (Z.land x (Z.shiftl y n) = 0) as H0.
  { apply Z.bits_inj'. intros k Hk. rewrite Z.land_spec, Z.bits_0, Z.shiftl_spec by done.
    destruct (Z.lt_ge_cases k n) as [Hkn|Hkn]; [by rewrite (Z.testbit_neg_r y) by lia; rewrite andb_false_r|].
    rewrite <- (Z.mod_small x (2 ^ n)) by done. by rewrite Z.mod_pow2_bits_high by lia. }
  pose proof (Z.add_lor_land x (Z.shiftl y n)) as E. rewrite H0, Z.add_0_r in E. rewrite E, Z.shiftl_mul_pow2 by lia. done.
Qed.

Lemma u8_range x : is_u8 (u8 x).
Proof. unfold u8, is_u8. apply Z.mod_pos_bound. lia. Qed.

Lemma u8_small x : is_u8 x -> u8 x = x.
Proof. intros H. unfold u8, is_u8 in *. by apply Z.mod_small. Qed.

Lemma map_u8_small l : Forall is_u8 l -> map u8 l = l.
Proof. induction 1 as [|x l Hx Hl IH]; [done|]. simpl. by rewrite u8_small, IH. Qed.

(** ** Sums of bytes *)

Definition sum (l : list Z) : Z := foldr Z.add 0 l.

Lemma foldl_u8_sum l : forall acc, foldl (fun csum x => u8 (csum + x)) (u8 acc) l = u8 (acc + sum l).
Proof.
  induction l as [|x l IH]; intros acc; simpl; [f_equal; lia|].
  replace (u8 (u8 acc + x)) with (u8 (acc + x)) by (unfold u8; by rewrite Zplus_mod_idemp_l).
  rewrite IH. f_equal. lia.
Qed.
