(* ===== verification/Hdmi.v ===== *)
(** * HDMI infoframes ([linux_hdmi.c], [linux/hdmi.h])

    Packing of AVI, SPD, audio and vendor infoframes into a byte buffer and
    their unpacking.  A buffer is the list of its bytes; a write or a read
    outside it is [None], so "the result is [Some]" says that the C code stays
    inside the buffer.  Enumeration fields hold their C value.

    Theorems: a packed frame has a zero checksum and touches nothing after its
    buffer; SPD and vendor frames come back unchanged; an AVI frame comes back
    with its bar positions byte-swapped and an audio frame with one channel
    less, which is what the two disagreeing routines of the code do. *)

From S2P Require Import Prelude Bytes.
From stdpp Require Import base gmap list option sets sorting.
From Stdlib Require Import ZArith Lia.

#[local] Set Warnings "-clear-no-such-hyp".

#[local] Open Scope Z_scope.

Definition BIT (n : Z) : Z := Z.shiftl 1 n.

Definition hdmi_infoframe_checksum (ptr : buf) (size : nat) : option Z :=
  if (size <=? length ptr)%nat
  then Some (u8 (256 - foldl (fun csum x => u8 (csum + x)) 0 (take size ptr)))
  else None.

Definition hdmi_infoframe_set_checksum (buffer : buf) (size : nat) : option buf :=
  c ← hdmi_infoframe_checksum buffer size; put 3 c buffer.

(** ** Frames *)

Definition HDMI_INFOFRAME_TYPE_VENDOR : Z := 0x81.
Definition HDMI_INFOFRAME_TYPE_AVI : Z := 0x82.
Definition HDMI_INFOFRAME_TYPE_SPD : Z := 0x83.
Definition HDMI_INFOFRAME_TYPE_AUDIO : Z := 0x84.
Definition HDMI_IEEE_OUI : Z := 0x000c03.
Definition HDMI_INFOFRAME_HEADER_SIZE : nat := 4.
Definition HDMI_AVI_INFOFRAME_SIZE : Z := 13.
Definition HDMI_SPD_INFOFRAME_SIZE : Z := 25.
Definition HDMI_AUDIO_INFOFRAME_SIZE : Z := 10.
Definition HDMI_3D_STRUCTURE_INVALID : Z := -1.
Definition HDMI_3D_STRUCTURE_SIDE_BY_SIDE_HALF : Z := 8.

Record hdmi_avi_infoframe := {
  avi_type : Z; avi_version : Z; avi_length : Z;
  colorspace : Z; scan_mode : Z; colorimetry : Z; picture_aspect : Z; active_aspect : Z;
  itc : bool; extended_colorimetry : Z; quantization_range : Z; nups : Z; video_code : Z;
  ycc_quantization_range : Z; content_type : Z; pixel_repeat : Z;
  top_bar : Z; bottom_bar : Z; left_bar : Z; right_bar : Z;
}.

(** [char] arrays are lists of bytes. *)
Record hdmi_spd_infoframe := {
  spd_type : Z; spd_version : Z; spd_length : Z;
  vendor : list Z; product : list Z; sdi : Z;
}.

Record hdmi_audio_infoframe := {
  aud_type : Z; aud_version : Z; aud_length : Z;
  channels : Z; coding_type : Z; sample_size : Z; sample_frequency : Z; coding_type_ext : Z;
  channel_allocation : Z; level_shift_value : Z; downmix_inhibit : bool;
}.

Record hdmi_vendor_infoframe := {
  ven_type : Z; ven_version : Z; ven_length : Z;
  oui : Z; vic : Z; s3d_struct : Z; s3d_ext_data : Z;
}.

Definition hdmi_avi_infoframe_init : hdmi_avi_infoframe :=
  {| avi_type := HDMI_INFOFRAME_TYPE_AVI; avi_version := 2; avi_length := HDMI_AVI_INFOFRAME_SIZE;
     colorspace := 0; scan_mode := 0; colorimetry := 0; picture_aspect := 0; active_aspect := 0;
     itc := false; extended_colorimetry := 0; quantization_range := 0; nups := 0; video_code := 0;
     ycc_quantization_range := 0; content_type := 0; pixel_repeat := 0;
     top_bar := 0; bottom_bar := 0; left_bar := 0; right_bar := 0 |}.

(** [strncpy(dst, src, n)]: up to the first NUL of [src], padded with NULs.  The
    end of the list is the NUL that ends a C string. *)
Fixpoint strncpy (src : list Z) (n : nat) {struct n} : list Z :=
  match n with
  | O => []
  | S n' => match src with
            | [] => replicate n 0
            | c :: src' => if c =? 0 then replicate n 0 else c :: strncpy src' n'
            end
  end.

Definition hdmi_spd_infoframe_init (vendor' product' : list Z) : hdmi_spd_infoframe :=
  {| spd_type := HDMI_INFOFRAME_TYPE_SPD; spd_version := 1; spd_length := HDMI_SPD_INFOFRAME_SIZE;
     vendor := strncpy vendor' 8; product := strncpy product' 16; sdi := 0 |}.

Definition hdmi_audio_infoframe_init : hdmi_audio_infoframe :=
  {| aud_type := HDMI_INFOFRAME_TYPE_AUDIO; aud_version := 1;
     aud_length := HDMI_AUDIO_INFOFRAME_SIZE; channels := 0; coding_type := 0; sample_size := 0;
     sample_frequency := 0; coding_type_ext := 0; channel_allocation := 0; level_shift_value := 0;
     downmix_inhibit := false |}.

Definition hdmi_vendor_infoframe_init : hdmi_vendor_infoframe :=
  {| ven_type := HDMI_INFOFRAME_TYPE_VENDOR; ven_version := 1; ven_length := 0;
     oui := HDMI_IEEE_OUI; vic := 0; s3d_struct := HDMI_3D_STRUCTURE_INVALID; s3d_ext_data := 0 |}.

(** ** Packing

    The result is the number of bytes packed and the buffer. *)

Definition nonzero (x : Z) : bool := negb (x =? 0).

Definition hdmi_avi_infoframe_pack (frame : hdmi_avi_infoframe) (buffer : buf) (size : nat)
    : option (result (nat * buf)) :=
  let length := (HDMI_INFOFRAME_HEADER_SIZE + Z.to_nat (avi_length frame))%nat in
  if (size <? length)%nat then Some (Err ENOSPC)
  else
    b ← memset0 size buffer;
    b ← puts 0 [avi_type frame; avi_version frame; avi_length frame; 0] b;
    b ← put 4 (Z.lor (Z.shiftl (Z.land (colorspace frame) 0x3) 5) (Z.land (scan_mode frame) 0x3)) b;
    b ← put_or_if (nonzero (Z.land (active_aspect frame) 0xf)) 4 (BIT 4) b;
    b ← put_or_if (nonzero (top_bar frame) || nonzero (bottom_bar frame)) 4 (BIT 3) b;
    b ← put_or_if (nonzero (left_bar frame) || nonzero (right_bar frame)) 4 (BIT 2) b;
    b ← put 5 (Z.lor (Z.lor (Z.shiftl (Z.land (colorimetry frame) 0x3) 6)
                            (Z.shiftl (Z.land (picture_aspect frame) 0x3) 4))
                     (Z.land (active_aspect frame) 0xf)) b;
    b ← put 6 (Z.lor (Z.lor (Z.shiftl (Z.land (extended_colorimetry frame) 0x7) 4)
                            (Z.shiftl (Z.land (quantization_range frame) 0x3) 2))
                     (Z.land (nups frame) 0x3)) b;
    b ← put_or_if (itc frame) 6 (BIT 7) b;
    b ← put 7 (Z.land (video_code frame) 0x7f) b;
    b ← put 8 (Z.lor (Z.lor (Z.shiftl (Z.land (ycc_quantization_range frame) 0x3) 6)
                            (Z.shiftl (Z.land (content_type frame) 0x3) 4))
                     (Z.land (pixel_repeat frame) 0xf)) b;
    b ← puts 9 [Z.land (top_bar frame) 0xff; Z.land (Z.shiftr (top_bar frame) 8) 0xff;
                Z.land (bottom_bar frame) 0xff; Z.land (Z.shiftr (bottom_bar frame) 8) 0xff;
                Z.land (left_bar frame) 0xff; Z.land (Z.shiftr (left_bar frame) 8) 0xff;
                Z.land (right_bar frame) 0xff; Z.land (Z.shiftr (right_bar frame) 8) 0xff] b;
    b ← hdmi_infoframe_set_checksum b length;
    Some (Ok (length, b)).

Definition hdmi_spd_infoframe_pack (frame : hdmi_spd_infoframe) (buffer : buf) (size : nat)
    : option (result (nat * buf)) :=
  let length := (HDMI_INFOFRAME_HEADER_SIZE + Z.to_nat (spd_length frame))%nat in
  if (size <? length)%nat then Some (Err ENOSPC)
  else
    b ← memset0 size buffer;
    b ← puts 0 [spd_type frame; spd_version frame; spd_length frame; 0] b;
    b ← puts 4 (vendor frame) b;
    b ← puts (4 + 8) (product frame) b;
    b ← put (4 + 24) (sdi frame) b;
    b ← hdmi_infoframe_set_checksum b length;
    Some (Ok (length, b)).

Definition hdmi_audio_infoframe_pack (frame : hdmi_audio_infoframe) (buffer : buf) (size : nat)
    : option (result (nat * buf)) :=
  let length := (HDMI_INFOFRAME_HEADER_SIZE + Z.to_nat (aud_length frame))%nat in
  if (size <? length)%nat then Some (Err ENOSPC)
  else
    b ← memset0 size buffer;
    let chan := if 2 <=? channels frame then channels frame - 1 else 0 in
    b ← puts 0 [aud_type frame; aud_version frame; aud_length frame; 0] b;
    b ← puts 4 [Z.lor (Z.shiftl (Z.land (coding_type frame) 0xf) 4) (Z.land chan 0x7);
                Z.lor (Z.shiftl (Z.land (sample_frequency frame) 0x7) 2)
                      (Z.land (sample_size frame) 0x3);
                Z.land (coding_type_ext frame) 0x1f;
                channel_allocation frame;
                Z.shiftl (Z.land (level_shift_value frame) 0xf) 3] b;
    b ← put_or_if (downmix_inhibit frame) 8 (BIT 7) b;
    b ← hdmi_infoframe_set_checksum b length;
    Some (Ok (length, b)).

(** The code stores the payload length in the frame before it packs. *)
Definition hdmi_vendor_infoframe_pack (frame : hdmi_vendor_infoframe) (buffer : buf) (size : nat)
    : option (result (nat * buf)) :=
  if (vic frame =? 0) && (s3d_struct frame =? HDMI_3D_STRUCTURE_INVALID) then Some (Err EINVAL)
  else if nonzero (vic frame) && negb (s3d_struct frame =? HDMI_3D_STRUCTURE_INVALID)
  then Some (Err EINVAL)
  else
    let flength := if HDMI_3D_STRUCTURE_SIDE_BY_SIDE_HALF <=? s3d_struct frame then 6 else 5 in
    let length := (HDMI_INFOFRAME_HEADER_SIZE + Z.to_nat flength)%nat in
    if (size <? length)%nat then Some (Err ENOSPC)
    else
      b ← memset0 size buffer;
      b ← puts 0 [ven_type frame; ven_version frame; flength; 0] b;
      b ← puts 4 [0x03; 0x0c; 0x00] b;
      b ← (if nonzero (vic frame) then puts 7 [Z.shiftl 0x1 5; vic frame] b
           else
             b ← puts 7 [Z.shiftl 0x2 5; Z.shiftl (Z.land (s3d_struct frame) 0xf) 4] b;
             if HDMI_3D_STRUCTURE_SIDE_BY_SIDE_HALF <=? s3d_struct frame
             then put 9 (Z.shiftl (Z.land (s3d_ext_data frame) 0xf) 4) b else Some b);
      b ← hdmi_infoframe_set_checksum b length;
      Some (Ok (length, b)).

Definition hdmi_vendor_any_infoframe_pack (frame : hdmi_vendor_infoframe) (buffer : buf) (size : nat)
    : option (result (nat * buf)) :=
  if negb (oui frame =? HDMI_IEEE_OUI) then Some (Err EINVAL)
  else hdmi_vendor_infoframe_pack frame buffer size.

(** [union hdmi_infoframe]: the member last written. *)
Inductive hdmi_infoframe :=
| Avi (f : hdmi_avi_infoframe)
| Spd (f : hdmi_spd_infoframe)
| Vendor (f : hdmi_vendor_infoframe)
| Audio (f : hdmi_audio_infoframe).

(** [frame->any.type], [frame->any.length] *)
Definition any_type (frame : hdmi_infoframe) : Z :=
  match frame with
  | Avi f => avi_type f | Spd f => spd_type f | Vendor f => ven_type f | Audio f => aud_type f
  end.

(** The dispatch on [frame->any.type]; reading another member of the union than
    the one last written is outside the model. *)
Definition hdmi_infoframe_pack (frame : hdmi_infoframe) (buffer : buf) (size : nat)
    : option (result (nat * buf)) :=
  let t := any_type frame in
  if t =? HDMI_INFOFRAME_TYPE_AVI then
    match frame with Avi f => hdmi_avi_infoframe_pack f buffer size | _ => None end
  else if t =? HDMI_INFOFRAME_TYPE_SPD then
    match frame with Spd f => hdmi_spd_infoframe_pack f buffer size | _ => None end
  else if t =? HDMI_INFOFRAME_TYPE_AUDIO then
    match frame with Audio f => hdmi_audio_infoframe_pack f buffer size | _ => None end
  else if t =? HDMI_INFOFRAME_TYPE_VENDOR then
    match frame with Vendor f => hdmi_vendor_any_infoframe_pack f buffer size | _ => None end
  else Some (Err EINVAL).

(** ** Unpacking

    The C functions take no size: the caller's buffer is the whole list. *)

Definition hdmi_avi_infoframe_unpack (buffer : buf) : option (result hdmi_avi_infoframe) :=
  p0 ← buffer !! 0%nat; p1 ← buffer !! 1%nat; p2 ← buffer !! 2%nat;
  if negb (p0 =? HDMI_INFOFRAME_TYPE_AVI) || negb (p1 =? 2) || negb (p2 =? HDMI_AVI_INFOFRAME_SIZE)
  then Some (Err EINVAL)
  else
    c ← hdmi_infoframe_checksum buffer
          (HDMI_INFOFRAME_HEADER_SIZE + Z.to_nat HDMI_AVI_INFOFRAME_SIZE);
    if negb (c =? 0) then Some (Err EINVAL)
    else
      match drop 4 buffer with
      | b0 :: b1 :: b2 :: b3 :: b4 :: b5 :: b6 :: b7 :: b8 :: b9 :: b10 :: b11 :: b12 :: _ =>
        let vbars := nonzero (Z.land b0 0x8) in
        let hbars := nonzero (Z.land b0 0x4) in
        Some (Ok
          {| avi_type := HDMI_INFOFRAME_TYPE_AVI; avi_version := 2;
             avi_length := HDMI_AVI_INFOFRAME_SIZE;
             colorspace := Z.land (Z.shiftr b0 5) 0x3;
             scan_mode := Z.land b0 0x3;
             colorimetry := Z.land (Z.shiftr b1 6) 0x3;
             picture_aspect := Z.land (Z.shiftr b1 4) 0x3;
             active_aspect := Z.land b1 0xf;
             itc := nonzero (Z.land b2 0x80);
             extended_colorimetry := Z.land (Z.shiftr b2 4) 0x7;
             quantization_range := Z.land (Z.shiftr b2 2) 0x3;
             nups := Z.land b2 0x3;
             video_code := Z.land b3 0x7f;
             ycc_quantization_range := Z.land (Z.shiftr b4 6) 0x3;
             content_type := Z.land (Z.shiftr b4 4) 0x3;
             pixel_repeat := Z.land b4 0xf;
             top_bar := if vbars then u16 (Z.shiftl b5 8 + b6) else 0;
             bottom_bar := if vbars then u16 (Z.shiftl b7 8 + b8) else 0;
             left_bar := if hbars then u16 (Z.shiftl b9 8 + b10) else 0;
             right_bar := if hbars then u16 (Z.shiftl b11 8 + b12) else 0 |})
      | _ => None
      end.

Definition hdmi_spd_infoframe_unpack (buffer : buf) : option (result hdmi_spd_infoframe) :=
  p0 ← buffer !! 0%nat; p1 ← buffer !! 1%nat; p2 ← buffer !! 2%nat;
  if negb (p0 =? HDMI_INFOFRAME_TYPE_SPD) || negb (p1 =? 1) || negb (p2 =? HDMI_SPD_INFOFRAME_SIZE)
  then Some (Err EINVAL)
  else
    c ← hdmi_infoframe_checksum buffer
          (HDMI_INFOFRAME_HEADER_SIZE + Z.to_nat HDMI_SPD_INFOFRAME_SIZE);
    if negb (c =? 0) then Some (Err EINVAL)
    else
      let ptr := drop 4 buffer in
      let f := hdmi_spd_infoframe_init ptr (drop 8 ptr) in
      p24 ← ptr !! 24%nat;
      Some (Ok {| spd_type := spd_type f; spd_version := spd_version f; spd_length := spd_length f;
                  vendor := vendor f; product := product f; sdi := p24 |}).

Definition hdmi_audio_infoframe_unpack (buffer : buf) : option (result hdmi_audio_infoframe) :=
  p0 ← buffer !! 0%nat; p1 ← buffer !! 1%nat; p2 ← buffer !! 2%nat;
  if negb (p0 =? HDMI_INFOFRAME_TYPE_AUDIO) || negb (p1 =? 1)
     || negb (p2 =? HDMI_AUDIO_INFOFRAME_SIZE)
  then Some (Err EINVAL)
  else
    c ← hdmi_infoframe_checksum buffer
          (HDMI_INFOFRAME_HEADER_SIZE + Z.to_nat HDMI_AUDIO_INFOFRAME_SIZE);
    if negb (c =? 0) then Some (Err EINVAL)
    else
      match drop 4 buffer with
      | b0 :: b1 :: b2 :: b3 :: b4 :: _ =>
        Some (Ok
          {| aud_type := HDMI_INFOFRAME_TYPE_AUDIO; aud_version := 1;
             aud_length := HDMI_AUDIO_INFOFRAME_SIZE;
             channels := Z.land b0 0x7;
             coding_type := Z.land (Z.shiftr b0 4) 0xf;
             sample_size := Z.land b1 0x3;
             sample_frequency := Z.land (Z.shiftr b1 2) 0x7;
             coding_type_ext := Z.land b2 0x1f;
             channel_allocation := b3;
             level_shift_value := Z.land (Z.shiftr b4 3) 0xf;
             downmix_inhibit := nonzero (Z.land b4 0x80) |})
      | _ => None
      end.

Definition with_vendor (length' vic' s3d ext : Z) : hdmi_vendor_infoframe :=
  let f := hdmi_vendor_infoframe_init in
  {| ven_type := ven_type f; ven_version := ven_version f; ven_length := length'; oui := oui f;
     vic := vic'; s3d_struct := s3d; s3d_ext_data := ext |}.

Definition hdmi_vendor_any_infoframe_unpack (buffer : buf) : option (result hdmi_vendor_infoframe) :=
  p0 ← buffer !! 0%nat; p1 ← buffer !! 1%nat; p2 ← buffer !! 2%nat;
  if negb (p0 =? HDMI_INFOFRAME_TYPE_VENDOR) || negb (p1 =? 1)
     || (negb (p2 =? 5) && negb (p2 =? 6))
  then Some (Err EINVAL)
  else
    c ← hdmi_infoframe_checksum buffer (HDMI_INFOFRAME_HEADER_SIZE + Z.to_nat p2);
    if negb (c =? 0) then Some (Err EINVAL)
    else
      let ptr := drop 4 buffer in
      b0 ← ptr !! 0%nat; b1 ← ptr !! 1%nat; b2 ← ptr !! 2%nat;
      if negb (b0 =? 0x03) || negb (b1 =? 0x0c) || negb (b2 =? 0x00) then Some (Err EINVAL)
      else
        b3 ← ptr !! 3%nat;
        let hdmi_video_format := Z.shiftr b3 5 in
        if 0x2 <? hdmi_video_format then Some (Err EINVAL)
        else
          b4 ← ptr !! 4%nat;
          if hdmi_video_format =? 0x1 then
            Some (Ok (with_vendor p2 b4 HDMI_3D_STRUCTURE_INVALID 0))
          else if hdmi_video_format =? 0x2 then
            let s3d := Z.shiftr b4 4 in
            if HDMI_3D_STRUCTURE_SIDE_BY_SIDE_HALF <=? s3d then
              if p2 =? 6 then
                b5 ← ptr !! 5%nat; Some (Ok (with_vendor p2 0 s3d (Z.shiftr b5 4)))
              else Some (Err EINVAL)
            else Some (Ok (with_vendor p2 0 s3d 0))
          else Some (Ok (with_vendor p2 0 HDMI_3D_STRUCTURE_INVALID 0)).

Definition fmap_ok {A B} (f : A -> B) (r : option (result A)) : option (result B) :=
  match r with Some (Ok a) => Some (Ok (f a)) | Some (Err e) => Some (Err e) | None => None end.

Definition hdmi_infoframe_unpack (buffer : buf) : option (result hdmi_infoframe) :=
  p0 ← buffer !! 0%nat;
  if p0 =? HDMI_INFOFRAME_TYPE_AVI then fmap_ok Avi (hdmi_avi_infoframe_unpack buffer)
  else if p0 =? HDMI_INFOFRAME_TYPE_SPD then fmap_ok Spd (hdmi_spd_infoframe_unpack buffer)
  else if p0 =? HDMI_INFOFRAME_TYPE_AUDIO then fmap_ok Audio (hdmi_audio_infoframe_unpack buffer)
  else if p0 =? HDMI_INFOFRAME_TYPE_VENDOR then fmap_ok Vendor (hdmi_vendor_any_infoframe_unpack buffer)
  else Some (Err EINVAL).

(** ** The checksum *)

Lemma checksum_eq b n : (n <= length b)%nat ->
  hdmi_infoframe_checksum b n = Some (u8 (256 - u8 (sum (take n b)))).
Proof.
  intros Hn. unfold hdmi_infoframe_checksum. rewrite (proj2 (Nat.leb_le _ _) Hn).
  change 0 with (u8 0) at 1. by rewrite foldl_u8_sum.
Qed.

Lemma sum_take_insert i v n : forall b, (i < n)%nat -> b !! i = Some 0 ->
  sum (take n (<[i := v]> b)) = sum (take n b) + v.
Proof.
  revert n. induction i as [|i IH]; intros [|n] [|x b] Hi Hb; simpl in *; try lia; try done.
  - simplify_eq. lia.
  - rewrite IH by (done || lia). lia.
Qed.

(** What [hdmi_infoframe_set_checksum] does to a buffer whose checksum byte is
    still zero. *)
Lemma set_checksum_spec b n : (3 < n <= length b)%nat -> b !! 3%nat = Some 0 ->
  exists c, hdmi_infoframe_set_checksum b n = Some (<[3%nat := c]> b) /\ is_u8 c /\
    hdmi_infoframe_checksum (<[3%nat := c]> b) n = Some 0.
Proof.
  intros Hn Hb. unfold hdmi_infoframe_set_checksum. rewrite checksum_eq by lia. cbn [mbind option_bind].
  unfold put. rewrite Hb. eexists; split; [done|]. split.
  { apply Z.mod_pos_bound. lia. }
  rewrite checksum_eq by (rewrite length_insert; lia). rewrite sum_take_insert by (done || lia).
  f_equal. unfold u8. change (2 ^ 8) with 256.
  rewrite Zmod_mod, Zplus_mod_idemp_r, <- (Zplus_mod_idemp_l (sum _)).
  pose proof (Z.mod_pos_bound (sum (take n b)) 256 ltac:(lia)) as Hm.
  set (m := sum (take n b) mod 256) in *. replace (m + (256 - m)) with 256 by lia. done.
Qed.

(** ** What packing writes *)

Lemma pack_finish bytes tail n : length bytes = n -> (3 < n)%nat -> bytes !! 3%nat = Some 0 ->
  exists c, hdmi_infoframe_set_checksum (bytes ++ tail) n = Some (<[3%nat := c]> bytes ++ tail) /\
    is_u8 c /\ hdmi_infoframe_checksum (<[3%nat := c]> bytes ++ tail) n = Some 0.
Proof.
  intros Hl Hn Hb. destruct (set_checksum_spec (bytes ++ tail) n) as (c & Hs & Hc & Hz).
  { rewrite length_app. lia. }
  { rewrite lookup_app_l by lia. done. }
  exists c. rewrite insert_app_l in Hs, Hz by lia. done.
Qed.

(** The bytes an AVI frame is packed to, the checksum byte left zero. *)
Definition avi_byte1 (cs sm : Z) (aspect vbars hbars : bool) : Z :=
  let b := u8 (Z.lor (Z.shiftl (Z.land cs 0x3) 5) (Z.land sm 0x3)) in
  let b := if aspect then u8 (Z.lor b (BIT 4)) else b in
  let b := if vbars then u8 (Z.lor b (BIT 3)) else b in
  if hbars then u8 (Z.lor b (BIT 2)) else b.

Definition avi_byte3 (ec q n : Z) (i : bool) : Z :=
  let b := u8 (Z.lor (Z.lor (Z.shiftl (Z.land ec 0x7) 4) (Z.shiftl (Z.land q 0x3) 2)) (Z.land n 0x3)) in
  if i then u8 (Z.lor b (BIT 7)) else b.

Definition two_two_four (a b c : Z) : Z :=
  u8 (Z.lor (Z.lor (Z.shiftl (Z.land a 0x3) 6) (Z.shiftl (Z.land b 0x3) 4)) (Z.land c 0xf)).

Definition bar_bytes (x : Z) : list Z := [u8 (Z.land x 0xff); u8 (Z.land (Z.shiftr x 8) 0xff)].

Definition avi_bytes (f : hdmi_avi_infoframe) : list Z :=
  [u8 (avi_type f); u8 (avi_version f); u8 (avi_length f); 0;
   avi_byte1 (colorspace f) (scan_mode f) (nonzero (Z.land (active_aspect f) 0xf))
     (nonzero (top_bar f) || nonzero (bottom_bar f)) (nonzero (left_bar f) || nonzero (right_bar f));
   two_two_four (colorimetry f) (picture_aspect f) (active_aspect f);
   avi_byte3 (extended_colorimetry f) (quantization_range f) (nups f) (itc f);
   u8 (Z.land (video_code f) 0x7f);
   two_two_four (ycc_quantization_range f) (content_type f) (pixel_repeat f)]
  ++ bar_bytes (top_bar f) ++ bar_bytes (bottom_bar f) ++ bar_bytes (left_bar f) ++ bar_bytes (right_bar f).

(** The rest of the destination: zeroed up to [size], untouched after it. *)
Definition pack_tail (len size : nat) (b : buf) : buf := replicate (size - len) 0 ++ drop size b.

Definition packs_to (r : option (result (nat * buf))) (bytes : list Z) (tail : buf) : Prop :=
  exists c, r = Some (Ok (length bytes, <[3%nat := c]> bytes ++ tail)) /\ is_u8 c /\
    hdmi_infoframe_checksum (<[3%nat := c]> bytes ++ tail) (length bytes) = Some 0.

Lemma packs_to_intro bytes tail n : length bytes = n -> (3 < n)%nat -> bytes !! 3%nat = Some 0 ->
  packs_to (b ← hdmi_infoframe_set_checksum (bytes ++ tail) n; Some (Ok (n, b))) bytes tail.
Proof.
  intros Hl Hn Hb. destruct (pack_finish bytes tail n Hl Hn Hb) as (c & -> & Hc & Hz).
  exists c. cbn [mbind option_bind]. by rewrite Hl.
Qed.

Lemma avi_pack_eq f b size :
  avi_length f = HDMI_AVI_INFOFRAME_SIZE -> (17 <= size <= length b)%nat ->
  packs_to (hdmi_avi_infoframe_pack f b size) (avi_bytes f) (pack_tail 17 size b).
Proof.
  intros Hl Hs. unfold hdmi_avi_infoframe_pack. rewrite Hl.
  change (HDMI_INFOFRAME_HEADER_SIZE + Z.to_nat HDMI_AVI_INFOFRAME_SIZE)%nat with 17%nat.
  rewrite (proj2 (Nat.ltb_ge _ _)) by lia. rewrite (memset0_prefix 17) by lia. fold (pack_tail 17 size b).
  cbn [replicate app].
  generalize (pack_tail 17 size b). intros tail. rewrite <- Hl.
  pose proof (packs_to_intro (avi_bytes f) tail 17 eq_refl ltac:(lia) eq_refl) as H. revert H.
  unfold avi_bytes, avi_byte1, avi_byte3, two_two_four, bar_bytes. cbn [app].
  destruct (nonzero (Z.land (active_aspect f) 15)), (nonzero (top_bar f) || nonzero (bottom_bar f)),
    (nonzero (left_bar f) || nonzero (right_bar f)), (itc f); run_puts; rewrite ?u8_0; exact id.
Qed.

Definition audio_byte1 (ct ch : Z) : Z := u8 (Z.lor (Z.shiftl (Z.land ct 0xf) 4) (Z.land ch 0x7)).
Definition audio_byte2 (sf ss : Z) : Z := u8 (Z.lor (Z.shiftl (Z.land sf 0x7) 2) (Z.land ss 0x3)).
Definition audio_byte5 (lsv : Z) (dm : bool) : Z :=
  let b := u8 (Z.shiftl (Z.land lsv 0xf) 3) in if dm then u8 (Z.lor b (BIT 7)) else b.

(** The channel count as the frame carries it: one less than the number of channels. *)
Definition sent_channels (ch : Z) : Z := if 2 <=? ch then ch - 1 else 0.

Definition audio_bytes (f : hdmi_audio_infoframe) : list Z :=
  [u8 (aud_type f); u8 (aud_version f); u8 (aud_length f); 0;
   audio_byte1 (coding_type f) (sent_channels (channels f));
   audio_byte2 (sample_frequency f) (sample_size f);
   u8 (Z.land (coding_type_ext f) 0x1f); u8 (channel_allocation f);
   audio_byte5 (level_shift_value f) (downmix_inhibit f); 0; 0; 0; 0; 0].

Lemma audio_pack_eq f b size :
  aud_length f = HDMI_AUDIO_INFOFRAME_SIZE -> (14 <= size <= length b)%nat ->
  packs_to (hdmi_audio_infoframe_pack f b size) (audio_bytes f) (pack_tail 14 size b).
Proof.
  intros Hl Hs. unfold hdmi_audio_infoframe_pack. rewrite Hl.
  change (HDMI_INFOFRAME_HEADER_SIZE + Z.to_nat HDMI_AUDIO_INFOFRAME_SIZE)%nat with 14%nat.
  rewrite (proj2 (Nat.ltb_ge _ _)) by lia. rewrite (memset0_prefix 14) by lia. fold (pack_tail 14 size b).
  cbn [replicate app]. generalize (pack_tail 14 size b). intros tail. rewrite <- Hl.
  pose proof (packs_to_intro (audio_bytes f) tail 14 eq_refl ltac:(lia) eq_refl) as H. revert H.
  unfold audio_bytes, audio_byte1, audio_byte2, audio_byte5, sent_channels. cbn [app].
  destruct (downmix_inhibit f); run_puts; rewrite ?u8_0; exact id.
Qed.

(** The bytes of an SPD frame: two fixed-size character arrays and the device code. *)
Definition spd_bytes (f : hdmi_spd_infoframe) : list Z :=
  [u8 (spd_type f); u8 (spd_version f); u8 (spd_length f); 0]
  ++ map u8 (vendor f) ++ map u8 (product f) ++ [u8 (sdi f)].

Lemma spd_pack_eq f b size :
  spd_length f = HDMI_SPD_INFOFRAME_SIZE -> length (vendor f) = 8%nat -> length (product f) = 16%nat ->
  (29 <= size <= length b)%nat ->
  packs_to (hdmi_spd_infoframe_pack f b size) (spd_bytes f) (pack_tail 29 size b).
Proof.
  intros Hl Hv Hp Hs. unfold hdmi_spd_infoframe_pack. rewrite Hl.
  change (HDMI_INFOFRAME_HEADER_SIZE + Z.to_nat HDMI_SPD_INFOFRAME_SIZE)%nat with 29%nat.
  rewrite (proj2 (Nat.ltb_ge _ _)) by lia. rewrite (memset0_prefix 29) by lia. fold (pack_tail 29 size b).
  generalize (pack_tail 29 size b). intros tail. rewrite <- Hl, bind_some.
  change (replicate 29 0 ++ tail)
    with ([] ++ replicate 4 0 ++ (replicate 8 0 ++ replicate 16 0 ++ [0] ++ tail)).
  rewrite puts_app, bind_some by done. cbn [app map]. rewrite u8_0.
  set (hdr := [u8 (spd_type f); u8 (spd_version f); u8 (spd_length f); 0]).
  change (u8 (spd_type f) :: u8 (spd_version f) :: u8 (spd_length f) :: 0 :: ?l) with (hdr ++ l).
  rewrite puts_app, bind_some by (done || by rewrite Hv). rewrite app_assoc.
  rewrite puts_app, bind_some by
    (rewrite ?length_app, ?length_map, ?Hv, ?Hp; done).
  rewrite (put_bind _ _ _ 0), insert_app_r_alt; cycle 1.
  { rewrite ?length_app, ?length_map, ?Hv. simpl. lia. }
  { rewrite lookup_app_r; rewrite ?length_app, ?length_map, ?Hv; simpl; [|lia].
    rewrite lookup_app_r; rewrite ?length_map, ?Hp; [done|lia]. }
  assert (length (spd_bytes f) = 29%nat) as Hlen.
  { unfold spd_bytes. rewrite !length_app, !length_map, Hv, Hp. done. }
  pose proof (packs_to_intro (spd_bytes f) tail 29 Hlen ltac:(lia) eq_refl) as H.
  replace ((hdr ++ map u8 (vendor f)) ++ _) with (spd_bytes f ++ tail); [exact H|].
  rewrite length_app, length_map, Hv, insert_app_r_alt; rewrite length_map, Hp; [|simpl; lia].
  unfold spd_bytes. cbn. by app_norm.
Qed.

Definition flength (f : hdmi_vendor_infoframe) : Z :=
  if HDMI_3D_STRUCTURE_SIDE_BY_SIDE_HALF <=? s3d_struct f then 6 else 5.

Definition vendor_bytes (f : hdmi_vendor_infoframe) : list Z :=
  [u8 (ven_type f); u8 (ven_version f); u8 (flength f); 0; u8 0x03; u8 0x0c; u8 0x00]
  ++ (if nonzero (vic f) then [u8 (Z.shiftl 0x1 5); u8 (vic f)]
      else [u8 (Z.shiftl 0x2 5); u8 (Z.shiftl (Z.land (s3d_struct f) 0xf) 4)])
  ++ (if HDMI_3D_STRUCTURE_SIDE_BY_SIDE_HALF <=? s3d_struct f
      then [u8 (Z.shiftl (Z.land (s3d_ext_data f) 0xf) 4)] else []).

(** A vendor frame carries a video code or a 3D structure, not both and not neither. *)
Definition vendor_payload (f : hdmi_vendor_infoframe) : Prop :=
  vic f <> 0 /\ s3d_struct f = HDMI_3D_STRUCTURE_INVALID \/
  vic f = 0 /\ s3d_struct f <> HDMI_3D_STRUCTURE_INVALID.

Lemma vendor_pack_eq f b size :
  vendor_payload f -> (4 + Z.to_nat (flength f) <= size <= length b)%nat ->
  packs_to (hdmi_vendor_infoframe_pack f b size) (vendor_bytes f)
    (pack_tail (4 + Z.to_nat (flength f)) size b).
Proof.
  intros Hpl Hs. unfold hdmi_vendor_infoframe_pack, vendor_payload, vendor_bytes, flength in *. unfold nonzero in *.
  change HDMI_3D_STRUCTURE_INVALID with (-1) in *. change HDMI_3D_STRUCTURE_SIDE_BY_SIDE_HALF with 8 in *.
  assert ((vic f =? 0) && (s3d_struct f =? -1) = false) as -> by lia.
  assert (negb (vic f =? 0) && negb (s3d_struct f =? -1) = false) as -> by lia.
  destruct (8 <=? s3d_struct f) eqn:E8; cbn [Z.to_nat Pos.to_nat] in *.
  - assert ((vic f =? 0) = true) as -> by lia. cbn [negb].
    change (HDMI_INFOFRAME_HEADER_SIZE + Z.to_nat 6)%nat with 10%nat.
    change (4 + Z.to_nat 6)%nat with 10%nat in *.
    rewrite (proj2 (Nat.ltb_ge _ _)) by lia. rewrite (memset0_prefix 10) by lia. fold (pack_tail 10 size b).
    cbn [replicate app]. generalize (pack_tail 10 size b). intros tail.
    match goal with |- packs_to _ ?l _ => pose proof (packs_to_intro l tail 10 eq_refl ltac:(lia) eq_refl) as H end.
    revert H. cbn [app]. run_puts; rewrite ?u8_0; exact id.
  - change (HDMI_INFOFRAME_HEADER_SIZE + Z.to_nat 5)%nat with 9%nat.
    change (4 + Z.to_nat 5)%nat with 9%nat in *.
    rewrite (proj2 (Nat.ltb_ge _ _)) by lia. rewrite (memset0_prefix 9) by lia. fold (pack_tail 9 size b).
    generalize (pack_tail 9 size b). intros tail.
    destruct (vic f =? 0) eqn:Ev; cbn [negb replicate app];
    match goal with |- packs_to _ ?l _ => pose proof (packs_to_intro l tail 9 eq_refl ltac:(lia) eq_refl) as H end;
    revert H; cbn [app]; run_puts; rewrite ?u8_0; exact id.
Qed.

(** ** Reading the bytes back *)

Lemma byte1_fields cs sm a v h : 0 <= cs < 4 -> 0 <= sm < 4 ->
  let b := avi_byte1 cs sm a v h in
  Z.land (Z.shiftr b 5) 0x3 = cs /\ Z.land b 0x3 = sm /\
  nonzero (Z.land b 0x8) = v /\ nonzero (Z.land b 0x4) = h.
Proof.
  intros Hc Hs b.
  enough ((Z.land (Z.shiftr b 5) 0x3 =? cs) && (Z.land b 0x3 =? sm) &&
          eqb (nonzero (Z.land b 0x8)) v && eqb (nonzero (Z.land b 0x4)) h = true) as H.
  { rewrite !andb_true_iff, !Z.eqb_eq, !eqb_true_iff in H. tauto. }
  subst b. revert sm Hs. apply (below_spec 4). revert cs Hc. apply (below_spec 4).
  destruct a, v, h; eval_bits.
Qed.

Lemma two_two_four_fields x y z : 0 <= x < 4 -> 0 <= y < 4 -> 0 <= z < 16 ->
  let b := two_two_four x y z in
  Z.land (Z.shiftr b 6) 0x3 = x /\ Z.land (Z.shiftr b 4) 0x3 = y /\ Z.land b 0xf = z.
Proof.
  intros Hx Hy Hz b.
  enough ((Z.land (Z.shiftr b 6) 0x3 =? x) && (Z.land (Z.shiftr b 4) 0x3 =? y) &&
          (Z.land b 0xf =? z) = true) as H.
  { rewrite !andb_true_iff, !Z.eqb_eq in H. tauto. }
  subst b. revert z Hz. apply (below_spec 16). revert y Hy. apply (below_spec 4).
  revert x Hx. apply (below_spec 4). eval_bits.
Qed.

Lemma byte3_fields ec q n i : 0 <= ec < 8 -> 0 <= q < 4 -> 0 <= n < 4 ->
  let b := avi_byte3 ec q n i in
  Z.land (Z.shiftr b 4) 0x7 = ec /\ Z.land (Z.shiftr b 2) 0x3 = q /\ Z.land b 0x3 = n /\
  nonzero (Z.land b 0x80) = i.
Proof.
  intros He Hq Hn b.
  enough ((Z.land (Z.shiftr b 4) 0x7 =? ec) && (Z.land (Z.shiftr b 2) 0x3 =? q) &&
          (Z.land b 0x3 =? n) && eqb (nonzero (Z.land b 0x80)) i = true) as H.
  { rewrite !andb_true_iff, !Z.eqb_eq, !eqb_true_iff in H. tauto. }
  subst b. revert n Hn. apply (below_spec 4). revert q Hq. apply (below_spec 4).
  revert ec He. apply (below_spec 8). destruct i; eval_bits.
Qed.

Lemma audio_byte1_fields ct ch : 0 <= ct < 16 -> 0 <= ch < 8 ->
  Z.land (audio_byte1 ct ch) 0x7 = ch /\ Z.land (Z.shiftr (audio_byte1 ct ch) 4) 0xf = ct.
Proof.
  intros Hc Hh.
  enough ((Z.land (audio_byte1 ct ch) 0x7 =? ch) && (Z.land (Z.shiftr (audio_byte1 ct ch) 4) 0xf =? ct) = true) as H.
  { rewrite andb_true_iff, !Z.eqb_eq in H. done. }
  revert ch Hh. apply (below_spec 8). revert ct Hc. apply (below_spec 16). eval_bits.
Qed.

Lemma audio_byte2_fields sf ss : 0 <= sf < 8 -> 0 <= ss < 4 ->
  Z.land (audio_byte2 sf ss) 0x3 = ss /\ Z.land (Z.shiftr (audio_byte2 sf ss) 2) 0x7 = sf.
Proof.
  intros Hc Hh.
  enough ((Z.land (audio_byte2 sf ss) 0x3 =? ss) && (Z.land (Z.shiftr (audio_byte2 sf ss) 2) 0x7 =? sf) = true) as H.
  { rewrite andb_true_iff, !Z.eqb_eq in H. done. }
  revert ss Hh. apply (below_spec 4). revert sf Hc. apply (below_spec 8). eval_bits.
Qed.

Lemma audio_byte5_fields lsv dm : 0 <= lsv < 16 ->
  Z.land (Z.shiftr (audio_byte5 lsv dm) 3) 0xf = lsv /\ nonzero (Z.land (audio_byte5 lsv dm) 0x80) = dm.
Proof.
  intros Hl.
  enough ((Z.land (Z.shiftr (audio_byte5 lsv dm) 3) 0xf =? lsv) &&
          eqb (nonzero (Z.land (audio_byte5 lsv dm) 0x80)) dm = true) as H.
  { rewrite andb_true_iff, Z.eqb_eq, eqb_true_iff in H. done. }
  revert lsv Hl. apply (below_spec 16). destruct dm; eval_bits.
Qed.

Lemma nibble_high x : 0 <= x < 16 -> Z.shiftr (u8 (Z.shiftl (Z.land x 0xf) 4)) 4 = x.
Proof.
  intros Hx. apply Z.eqb_eq. revert x Hx. apply (below_spec 16). eval_bits.
Qed.

(** The two bytes of a 16-bit word exchanged. *)
Definition swab16 (x : Z) : Z := x mod 256 * 256 + x / 256.

Lemma bar_bytes_swapped x : is_u16 x ->
  u16 (Z.shiftl (u8 (Z.land x 0xff)) 8 + u8 (Z.land (Z.shiftr x 8) 0xff)) = swab16 x.
Proof.
  intros Hx. unfold is_u16 in Hx. change 0xff with (Z.ones 8).
  rewrite !Z.land_ones, Z.shiftr_div_pow2, Z.shiftl_mul_pow2 by lia.
  unfold u8, swab16. rewrite !Zmod_mod. change (2 ^ 8) with 256 in *.
  rewrite (Z.mod_small (x / 256) 256) by (Z.div_mod_to_equations; lia).
  apply u16_small. unfold is_u16. Z.div_mod_to_equations; lia.
Qed.

(** The frames whose fields fit the bits they are packed to, as the initialisers and the
    enumerations of [hdmi.h] make them. *)
Record avi_ok (f : hdmi_avi_infoframe) : Prop := {
  ao_type : avi_type f = HDMI_INFOFRAME_TYPE_AVI; ao_version : avi_version f = 2;
  ao_length : avi_length f = HDMI_AVI_INFOFRAME_SIZE;
  ao_cs : 0 <= colorspace f < 4; ao_sm : 0 <= scan_mode f < 4; ao_co : 0 <= colorimetry f < 4;
  ao_pa : 0 <= picture_aspect f < 4; ao_aa : 0 <= active_aspect f < 16;
  ao_ec : 0 <= extended_colorimetry f < 8; ao_qr : 0 <= quantization_range f < 4;
  ao_nu : 0 <= nups f < 4; ao_vc : 0 <= video_code f < 128;
  ao_yq : 0 <= ycc_quantization_range f < 4; ao_ct : 0 <= content_type f < 4;
  ao_pr : 0 <= pixel_repeat f < 16;
  ao_tb : is_u16 (top_bar f); ao_bb : is_u16 (bottom_bar f);
  ao_lb : is_u16 (left_bar f); ao_rb : is_u16 (right_bar f);
}.

Definition swap_bars (f : hdmi_avi_infoframe) : hdmi_avi_infoframe :=
  {| avi_type := avi_type f; avi_version := avi_version f; avi_length := avi_length f;
     colorspace := colorspace f; scan_mode := scan_mode f; colorimetry := colorimetry f;
     picture_aspect := picture_aspect f; active_aspect := active_aspect f; itc := itc f;
     extended_colorimetry := extended_colorimetry f; quantization_range := quantization_range f;
     nups := nups f; video_code := video_code f;
     ycc_quantization_range := ycc_quantization_range f; content_type := content_type f;
     pixel_repeat := pixel_repeat f;
     top_bar := swab16 (top_bar f); bottom_bar := swab16 (bottom_bar f);
     left_bar := swab16 (left_bar f); right_bar := swab16 (right_bar f) |}.

(** Bars that are both zero are not transmitted; read as zero they are themselves. *)
Lemma bars_read x y : is_u16 x -> is_u16 y -> forall z, z = x \/ z = y ->
  (if nonzero x || nonzero y
   then u16 (Z.shiftl (u8 (Z.land z 0xff)) 8 + u8 (Z.land (Z.shiftr z 8) 0xff)) else 0) = swab16 z.
Proof.
  intros Hx Hy z Hz. rewrite bar_bytes_swapped by (destruct Hz; by subst).
  unfold nonzero. destruct (x =? 0) eqn:Ex, (y =? 0) eqn:Ey; simpl; try done.
  assert (z = 0) as -> by lia. done.
Qed.

Lemma avi_unpack_eq f c tail : avi_ok f ->
  hdmi_infoframe_checksum (<[3%nat := c]> (avi_bytes f) ++ tail) 17 = Some 0 ->
  hdmi_avi_infoframe_unpack (<[3%nat := c]> (avi_bytes f) ++ tail) = Some (Ok (swap_bars f)).
Proof.
  intros [] Hz. unfold hdmi_avi_infoframe_unpack, avi_bytes, bar_bytes in *.
  change (HDMI_INFOFRAME_HEADER_SIZE + Z.to_nat HDMI_AVI_INFOFRAME_SIZE)%nat with 17%nat.
  rewrite Hz. cbn [insert list_insert app lookup list_lookup drop]. rewrite !bind_some.
  rewrite ao_type0, ao_version0, ao_length0.
  change (u8 HDMI_INFOFRAME_TYPE_AVI) with HDMI_INFOFRAME_TYPE_AVI.
  change (u8 HDMI_AVI_INFOFRAME_SIZE) with HDMI_AVI_INFOFRAME_SIZE. change (u8 2) with 2.
  rewrite !Z.eqb_refl. cbn [negb orb]. change 0x7f with (Z.ones 7).
  destruct (byte1_fields (colorspace f) (scan_mode f) (nonzero (Z.land (active_aspect f) 15))
    (nonzero (top_bar f) || nonzero (bottom_bar f)) (nonzero (left_bar f) || nonzero (right_bar f)))
    as (-> & -> & -> & ->); [done..|].
  destruct (two_two_four_fields (colorimetry f) (picture_aspect f) (active_aspect f)) as (-> & -> & ->); [done..|].
  destruct (byte3_fields (extended_colorimetry f) (quantization_range f) (nups f) (itc f)) as (-> & -> & -> & ->); [done..|].
  destruct (two_two_four_fields (ycc_quantization_range f) (content_type f) (pixel_repeat f)) as (-> & -> & ->); [done..|].
  rewrite (land_below (video_code f)), (u8_small (video_code f)), (land_below (video_code f)) by (unfold is_u8; lia).
  rewrite (bars_read (top_bar f) (bottom_bar f)) by auto. rewrite (bars_read (top_bar f) (bottom_bar f)) by auto.
  rewrite (bars_read (left_bar f) (right_bar f)) by auto. rewrite (bars_read (left_bar f) (right_bar f)) by auto.
  unfold swap_bars. by rewrite ao_type0, ao_version0, ao_length0.
Qed.

Record audio_ok (f : hdmi_audio_infoframe) : Prop := {
  ad_type : aud_type f = HDMI_INFOFRAME_TYPE_AUDIO; ad_version : aud_version f = 1;
  ad_length : aud_length f = HDMI_AUDIO_INFOFRAME_SIZE;
  ad_ch : 0 <= channels f <= 8; ad_ct : 0 <= coding_type f < 16; ad_ss : 0 <= sample_size f < 4;
  ad_sf : 0 <= sample_frequency f < 8; ad_ce : 0 <= coding_type_ext f < 32;
  ad_ca : is_u8 (channel_allocation f); ad_ls : 0 <= level_shift_value f < 16;
}.

Definition with_channels (ch : Z) (f : hdmi_audio_infoframe) : hdmi_audio_infoframe :=
  {| aud_type := aud_type f; aud_version := aud_version f; aud_length := aud_length f;
     channels := ch; coding_type := coding_type f; sample_size := sample_size f;
     sample_frequency := sample_frequency f; coding_type_ext := coding_type_ext f;
     channel_allocation := channel_allocation f; level_shift_value := level_shift_value f;
     downmix_inhibit := downmix_inhibit f |}.

Lemma audio_unpack_eq f c tail : audio_ok f ->
  hdmi_infoframe_checksum (<[3%nat := c]> (audio_bytes f) ++ tail) 14 = Some 0 ->
  hdmi_audio_infoframe_unpack (<[3%nat := c]> (audio_bytes f) ++ tail)
  = Some (Ok (with_channels (sent_channels (channels f)) f)).
Proof.
  intros [] Hz. unfold hdmi_audio_infoframe_unpack, audio_bytes in *.
  change (HDMI_INFOFRAME_HEADER_SIZE + Z.to_nat HDMI_AUDIO_INFOFRAME_SIZE)%nat with 14%nat.
  rewrite Hz. cbn [insert list_insert app lookup list_lookup drop]. rewrite !bind_some.
  rewrite ad_type0, ad_version0, ad_length0.
  change (u8 HDMI_INFOFRAME_TYPE_AUDIO) with HDMI_INFOFRAME_TYPE_AUDIO.
  change (u8 HDMI_AUDIO_INFOFRAME_SIZE) with HDMI_AUDIO_INFOFRAME_SIZE. change (u8 1) with 1.
  rewrite !Z.eqb_refl. cbn [negb orb]. change 0x1f with (Z.ones 5).
  destruct (audio_byte1_fields (coding_type f) (sent_channels (channels f))) as [-> ->];
    [done|unfold sent_channels; destruct (2 <=? channels f) eqn:E; lia|].
  destruct (audio_byte2_fields (sample_frequency f) (sample_size f)) as [-> ->]; [done..|].
  destruct (audio_byte5_fields (level_shift_value f) (downmix_inhibit f)) as [-> ->]; [done|].
  rewrite (land_below (coding_type_ext f)), (u8_small (coding_type_ext f)),
    (land_below (coding_type_ext f)) by (unfold is_u8; lia).
  rewrite (u8_small (channel_allocation f)) by done.
  unfold with_channels. by rewrite ad_type0, ad_version0, ad_length0.
Qed.

Lemma strncpy_length src n : length (strncpy src n) = n.
Proof.
  revert src. induction n as [|n IH]; intros [|c src]; simpl; [done..| |].
  - by rewrite length_replicate.
  - destruct (c =? 0); simpl; [by rewrite length_replicate|by rewrite IH].
Qed.

(** Copying again what was copied, with anything after it, changes nothing. *)
Lemma strncpy_idem src n : forall rest, strncpy (strncpy src n ++ rest) n = strncpy src n.
Proof.
  assert (forall n rest, strncpy (replicate n 0 ++ rest) n = replicate n 0) as Hz.
  { intros [|m] rest; reflexivity. }
  revert src. induction n as [|n IH]; intros [|c src] rest; [done..| |].
  - exact (Hz (S n) rest).
  - cbn [strncpy]. destruct (c =? 0) eqn:E; [exact (Hz (S n) rest)|].
    cbn [app strncpy]. by rewrite E, IH.
Qed.

Lemma strncpy_bytes src n : Forall is_u8 src -> Forall is_u8 (strncpy src n).
Proof.
  assert (is_u8 0) as H0 by (unfold is_u8; lia).
  revert src. induction n as [|n IH]; intros [|c src] H; simpl; try done.
  - constructor; [done|]. by apply Forall_replicate.
  - apply Forall_cons in H as [Hc H]. destruct (c =? 0); constructor; auto. by apply Forall_replicate.
Qed.

(** The SPD frames that [hdmi_spd_infoframe_init] makes, with a device code. *)
Definition spd_frame (v p : list Z) (code : Z) : hdmi_spd_infoframe :=
  let f := hdmi_spd_infoframe_init v p in
  {| spd_type := spd_type f; spd_version := spd_version f; spd_length := spd_length f;
     vendor := vendor f; product := product f; sdi := code |}.

Lemma spd_unpack_eq v p code c tail : Forall is_u8 v -> Forall is_u8 p -> is_u8 code ->
  let f := spd_frame v p code in
  hdmi_infoframe_checksum (<[3%nat := c]> (spd_bytes f) ++ tail) 29 = Some 0 ->
  hdmi_spd_infoframe_unpack (<[3%nat := c]> (spd_bytes f) ++ tail) = Some (Ok f).
Proof.
  intros Hv Hp Hc f Hz. unfold hdmi_spd_infoframe_unpack.
  change (HDMI_INFOFRAME_HEADER_SIZE + Z.to_nat HDMI_SPD_INFOFRAME_SIZE)%nat with 29%nat.
  rewrite Hz. clear Hz. subst f. cbv beta iota zeta delta
    [spd_bytes spd_frame hdmi_spd_infoframe_init vendor product sdi spd_type spd_version spd_length].
  rewrite !map_u8_small, (u8_small code) by auto using strncpy_bytes.
  cbn [insert list_insert app lookup list_lookup drop]. rewrite !bind_some.
  change (u8 HDMI_INFOFRAME_TYPE_SPD) with HDMI_INFOFRAME_TYPE_SPD.
  change (u8 HDMI_SPD_INFOFRAME_SIZE) with HDMI_SPD_INFOFRAME_SIZE. change (u8 1) with 1.
  rewrite !Z.eqb_refl. cbn [negb orb]. rewrite <- !app_assoc, !drop_0.
  rewrite drop_app_length' by (by rewrite strncpy_length). rewrite !strncpy_idem.
  change ([code] ++ tail) with (code :: tail).
  rewrite app_assoc, list_lookup_middle, bind_some by (by rewrite length_app, !strncpy_length). done.
Qed.

Record vendor_ok (f : hdmi_vendor_infoframe) : Prop := {
  vo_type : ven_type f = HDMI_INFOFRAME_TYPE_VENDOR; vo_version : ven_version f = 1;
  vo_oui : oui f = HDMI_IEEE_OUI; vo_payload : vendor_payload f;
  vo_vic : is_u8 (vic f); vo_s3d : -1 <= s3d_struct f < 16;
  vo_ext : if 8 <=? s3d_struct f then 0 <= s3d_ext_data f < 16 else s3d_ext_data f = 0;
}.

(** The frame with the length [hdmi_vendor_infoframe_pack] stores in it. *)
Definition with_length (f : hdmi_vendor_infoframe) : hdmi_vendor_infoframe :=
  with_vendor (flength f) (vic f) (s3d_struct f) (s3d_ext_data f).

Lemma vendor_unpack_eq f c tail : vendor_ok f ->
  hdmi_infoframe_checksum (<[3%nat := c]> (vendor_bytes f) ++ tail) (4 + Z.to_nat (flength f)) = Some 0 ->
  hdmi_vendor_any_infoframe_unpack (<[3%nat := c]> (vendor_bytes f) ++ tail) = Some (Ok (with_length f)).
Proof.
  intros [Ht Hv Ho Hpl Hvic Hs He] Hz. unfold hdmi_vendor_any_infoframe_unpack, with_length.
  unfold vendor_payload, vendor_bytes in *. change HDMI_3D_STRUCTURE_SIDE_BY_SIDE_HALF with 8 in *.
  change HDMI_3D_STRUCTURE_INVALID with (-1) in *. unfold nonzero in *.
  rewrite Ht, Hv in *. cbn [insert list_insert app lookup list_lookup drop] in *. rewrite !bind_some.
  assert (u8 (flength f) = flength f) as Efl
    by (unfold flength; change HDMI_3D_STRUCTURE_SIDE_BY_SIDE_HALF with 8; by destruct (8 <=? s3d_struct f)).
  rewrite Efl in *. change HDMI_INFOFRAME_HEADER_SIZE with 4%nat. rewrite Hz. clear Hz Efl.
  change (u8 HDMI_INFOFRAME_TYPE_VENDOR) with HDMI_INFOFRAME_TYPE_VENDOR. change (u8 1) with 1.
  rewrite !Z.eqb_refl. unfold flength. change HDMI_3D_STRUCTURE_SIDE_BY_SIDE_HALF with 8.
  destruct (vic f =? 0) eqn:Ev; cbn [negb].
  - assert (vic f = 0 /\ s3d_struct f <> -1) as [Ev0 Es] by lia. rewrite Ev0.
    pose proof (nibble_high (s3d_struct f) ltac:(lia)) as Hn.
    destruct (8 <=? s3d_struct f) eqn:E8; simpl; change (u8 64 ≫ 5) with 2; simpl; rewrite Hn, E8; simpl.
    + rewrite nibble_high by done. done.
    + by rewrite He.
  - assert (s3d_struct f = -1) as Es by lia. rewrite Es in *. simpl in He |- *.
    rewrite (u8_small (vic f)) by done. by rewrite He.
Qed.

(** ** All frame types *)

Definition frame_ok (frame : hdmi_infoframe) : Prop :=
  match frame with
  | Avi f => avi_ok f
  | Spd f => exists v p code, f = spd_frame v p code /\ Forall is_u8 v /\ Forall is_u8 p /\ is_u8 code
  | Vendor f => vendor_ok f
  | Audio f => audio_ok f
  end.

Definition frame_length (frame : hdmi_infoframe) : nat :=
  match frame with Avi _ => 17 | Spd _ => 29 | Vendor f => 4 + Z.to_nat (flength f) | Audio _ => 14 end.

Definition frame_bytes (frame : hdmi_infoframe) : list Z :=
  match frame with
  | Avi f => avi_bytes f | Spd f => spd_bytes f | Vendor f => vendor_bytes f | Audio f => audio_bytes f
  end.

(** What a receiver that uses [hdmi_infoframe_unpack] sees of a frame. *)
Definition reread (frame : hdmi_infoframe) : hdmi_infoframe :=
  match frame with
  | Avi f => Avi (swap_bars f)
  | Spd f => Spd f
  | Vendor f => Vendor (with_length f)
  | Audio f => Audio (with_channels (sent_channels (channels f)) f)
  end.

Lemma frame_bytes_length frame : frame_ok frame -> length (frame_bytes frame) = frame_length frame.
Proof.
  destruct frame as [f|f|f|f]; simpl; try done.
  - intros (v & p & code & -> & _). unfold spd_bytes. rewrite !length_app, !length_map.
    cbv beta zeta iota delta [spd_frame hdmi_spd_infoframe_init vendor product].
    by rewrite !strncpy_length.
  - intros _. unfold flength. destruct (_ <=? s3d_struct f), (nonzero (vic f)); done.
Qed.

Lemma infoframe_pack_eq frame b size :
  frame_ok frame -> (frame_length frame <= size <= length b)%nat ->
  packs_to (hdmi_infoframe_pack frame b size) (frame_bytes frame) (pack_tail (frame_length frame) size b).
Proof.
  intros Hok Hs. unfold hdmi_infoframe_pack.
  destruct frame as [f|f|f|f]; cbn [frame_ok frame_length frame_bytes any_type] in *.
  - rewrite (ao_type f Hok). simpl. apply avi_pack_eq; [apply Hok|done].
  - destruct Hok as (v & p & code & -> & _).
    apply spd_pack_eq; [done|apply (strncpy_length v)|apply (strncpy_length p)|done].
  - rewrite (vo_type f Hok). simpl. unfold hdmi_vendor_any_infoframe_pack. rewrite (vo_oui f Hok). simpl.
    apply vendor_pack_eq; [apply Hok|done].
  - rewrite (ad_type f Hok). simpl. apply audio_pack_eq; [apply Hok|done].
Qed.

Lemma infoframe_pack_short frame b size :
  frame_ok frame -> (size < frame_length frame)%nat -> hdmi_infoframe_pack frame b size = Some (Err ENOSPC).
Proof.
  intros Hok Hs. unfold hdmi_infoframe_pack. pose proof (proj2 (Nat.ltb_lt _ _) Hs) as E.
  destruct frame as [f|f|f|f]; cbn [frame_ok frame_length any_type] in *.
  - rewrite (ao_type f Hok). simpl. unfold hdmi_avi_infoframe_pack. rewrite (ao_length f Hok).
    by change (HDMI_INFOFRAME_HEADER_SIZE + _)%nat with 17%nat; rewrite E.
  - destruct Hok as (v & p & code & -> & _). change (hdmi_spd_infoframe_pack (spd_frame v p code) b size = Some (Err ENOSPC)).
    unfold hdmi_spd_infoframe_pack. cbn [spd_frame spd_length].
    by change (HDMI_INFOFRAME_HEADER_SIZE + _)%nat with 29%nat; rewrite E.
  - rewrite (vo_type f Hok). simpl. unfold hdmi_vendor_any_infoframe_pack. rewrite (vo_oui f Hok). simpl.
    pose proof (vo_payload f Hok) as Hpl. unfold hdmi_vendor_infoframe_pack, vendor_payload, nonzero in *.
    fold (flength f). change HDMI_3D_STRUCTURE_INVALID with (-1) in *.
    assert ((vic f =? 0) && (s3d_struct f =? -1) = false) as -> by lia.
    assert (negb (vic f =? 0) && negb (s3d_struct f =? -1) = false) as -> by lia.
    change HDMI_INFOFRAME_HEADER_SIZE with 4%nat. by rewrite E.
  - rewrite (ad_type f Hok). simpl. unfold hdmi_audio_infoframe_pack. rewrite (ad_length f Hok).
    by change (HDMI_INFOFRAME_HEADER_SIZE + _)%nat with 14%nat; rewrite E.
Qed.

(** [hdmi_infoframe_pack] of a well-formed frame of any type fails with ENOSPC exactly
    when the buffer is too short, and otherwise writes only inside the buffer: the bytes of
    the frame sum to zero, the rest of the buffer is zeroed and what follows it untouched. *)
Theorem hdmi_infoframe_pack_correct frame buffer size :
  frame_ok frame -> (size <= length buffer)%nat ->
  if (size <? frame_length frame)%nat then hdmi_infoframe_pack frame buffer size = Some (Err ENOSPC)
  else exists b, hdmi_infoframe_pack frame buffer size = Some (Ok (frame_length frame, b)) /\
    hdmi_infoframe_checksum b (frame_length frame) = Some 0 /\
    length b = length buffer /\ drop size b = drop size buffer /\
    drop (frame_length frame) (take size b) = replicate (size - frame_length frame) 0.
Proof.
  intros Hok Hs. destruct (size <? frame_length frame)%nat eqn:E.
  { apply infoframe_pack_short; [done|by apply Nat.ltb_lt]. }
  apply Nat.ltb_ge in E. destruct (infoframe_pack_eq frame buffer size Hok) as (c & Hp & _ & Hz); [lia|].
  pose proof (frame_bytes_length frame Hok) as Hl. rewrite Hl in *.
  assert (length (<[3%nat := c]> (frame_bytes frame)) = frame_length frame) as Hi by by rewrite length_insert.
  eexists; split; [exact Hp|]. split; [done|]. unfold pack_tail. split.
  { rewrite !length_app, Hi, length_replicate, length_drop. lia. }
  rewrite app_assoc. split.
  - rewrite drop_app_length'; [done|]. rewrite length_app, Hi, length_replicate. lia.
  - rewrite take_app_length' by (rewrite length_app, Hi, length_replicate; lia).
    by rewrite drop_app_length' by done.
Qed.

(** Unpacking a packed frame gives the frame back, up to the two places where the two
    directions of the code disagree: the bar positions of an AVI frame come back with their
    bytes exchanged (packed low byte first, read high byte first), and the channel count of an
    audio frame comes back one too small. *)
Theorem hdmi_infoframe_round_trip frame buffer size n b :
  frame_ok frame -> (size <= length buffer)%nat ->
  hdmi_infoframe_pack frame buffer size = Some (Ok (n, b)) ->
  hdmi_infoframe_unpack b = Some (Ok (reread frame)).
Proof.
  intros Hok Hs Hp. destruct (Nat.lt_ge_cases size (frame_length frame)) as [Hlt|Hge].
  { by rewrite infoframe_pack_short in Hp. }
  destruct (infoframe_pack_eq frame buffer size Hok) as (c & Hp' & _ & Hz); [lia|].
  rewrite Hp' in Hp. injection Hp as <- <-. rewrite (frame_bytes_length frame Hok) in Hz.
  unfold hdmi_infoframe_unpack.
  destruct frame as [f|f|f|f]; cbn [frame_ok frame_length frame_bytes reread] in *.
  - rewrite (avi_unpack_eq f c _ Hok Hz). cbn. by rewrite (ao_type f Hok).
  - destruct Hok as (v & p & code & -> & Hv & Hpr & Hc). by rewrite (spd_unpack_eq v p code c _ Hv Hpr Hc Hz).
  - rewrite (vendor_unpack_eq f c _ Hok Hz). cbn. by rewrite (vo_type f Hok).
  - rewrite (audio_unpack_eq f c _ Hok Hz). cbn. by rewrite (ad_type f Hok).
Qed.

(** ** Instances *)

Definition sample_avi : hdmi_avi_infoframe :=
  {| avi_type := HDMI_INFOFRAME_TYPE_AVI; avi_version := 2; avi_length := HDMI_AVI_INFOFRAME_SIZE;
     colorspace := 2; scan_mode := 1; colorimetry := 2; picture_aspect := 2; active_aspect := 8;
     itc := true; extended_colorimetry := 4; quantization_range := 2; nups := 3; video_code := 16;
     ycc_quantization_range := 1; content_type := 3; pixel_repeat := 0;
     top_bar := 0x0102; bottom_bar := 0; left_bar := 0; right_bar := 0 |}.

Lemma sample_avi_ok : avi_ok sample_avi.
Proof. by split; try word_const; unfold sample_avi; cbn; try lia; word_const. Qed.

Lemma hdmi_infoframe_pack_correct_witness :
  exists b, hdmi_infoframe_pack (Avi sample_avi) (replicate 20 7) 18 = Some (Ok (17%nat, b)) /\
    hdmi_infoframe_checksum b 17 = Some 0 /\ drop 18 b = [7; 7].
Proof.
  destruct (hdmi_infoframe_pack_correct (Avi sample_avi) (replicate 20 7) 18 sample_avi_ok
    (le_S _ _ (le_S _ _ (le_n 18)))) as (b & Hp & Hz & _ & Hd & _).
  exists b. split; [exact Hp|]. split; [exact Hz|]. exact Hd.
Defined.

Lemma hdmi_infoframe_round_trip_witness :
  exists n b f, hdmi_infoframe_pack (Avi sample_avi) (replicate 20 7) 18 = Some (Ok (n, b)) /\
    hdmi_infoframe_unpack b = Some (Ok (Avi f)) /\ top_bar f = 0x0201.
Proof.
  eexists _, _, _. split; [vm_compute; reflexivity|]. split.
  - apply (hdmi_infoframe_round_trip (Avi sample_avi) (replicate 20 7) 18 17 _ sample_avi_ok
      (le_S _ _ (le_S _ _ (le_n 18)))). vm_compute. reflexivity.
  - vm_compute. reflexivity.
Defined.
