(* ===== verification/DpMsg.v ===== *)
(** * DisplayPort MST sideband messages ([drm_dp_mst_topology.c])

    Messages to and from branch devices travel in chunks of at most 48 bytes: a
    header protected by a 4-bit CRC, then data followed by an 8-bit CRC.  This
    file holds the CRCs, the header, the splitting of a message into chunks and
    its reassembly.  Bytes are [Z]s, a C array is the list of its elements; an
    access outside an array, or a [memcpy] of negative size, is [None].  The bytes
    of [rad] that decoding a header leaves unset are not part of the list. *)

From S2P Require Import Prelude Bytes.
From stdpp Require Import base gmap list option sets.
From Stdlib Require Import ZArith Lia.

#[local] Set Warnings "-clear-no-such-hyp".

#[local] Open Scope Z_scope.

(** ** The CRCs *)

(** The variables of the bit loops of [drm_dp_msg_header_crc4] and
    [drm_dp_msg_data_crc4]. *)
Record crc_state := { bitmask : Z; bitshift : Z; array_index : nat; remainder : Z }.

(** One turn of the first loop; [wrap] is the type of [remainder]. *)
Definition crc_data_bit (wrap : Z -> Z) (top poly : Z) (data : buf) (s : crc_state)
    : option crc_state :=
  d ← data !! array_index s;
  let rem := wrap (Z.shiftl (remainder s) 1) in
  let rem := wrap (Z.lor rem (Z.shiftr (Z.land d (bitmask s)) (bitshift s))) in
  let mask := Z.shiftr (bitmask s) 1 in
  let shift := u8 (bitshift s - 1) in
  let '(mask, shift, index) :=
    if mask =? 0 then (0x80, 7, S (array_index s)) else (mask, shift, array_index s) in
  let rem := if Z.land rem top =? top then Z.lxor rem poly else rem in
  Some {| bitmask := mask; bitshift := shift; array_index := index; remainder := rem |}.

Fixpoint crc_data_bits (wrap : Z -> Z) (top poly : Z) (data : buf) (number_of_bits : nat)
    (s : crc_state) : option crc_state :=
  match number_of_bits with
  | O => Some s
  | S n => s ← crc_data_bit wrap top poly data s; crc_data_bits wrap top poly data n s
  end.

(** The second loop: as many zero bits as the CRC is wide. *)
Fixpoint crc_zero_bits (wrap : Z -> Z) (top poly : Z) (number_of_bits : nat) (rem : Z) : Z :=
  match number_of_bits with
  | O => rem
  | S n =>
    let rem := wrap (Z.shiftl rem 1) in
    crc_zero_bits wrap top poly n (if negb (Z.land rem top =? 0) then Z.lxor rem poly else rem)
  end.

Definition crc_start : crc_state :=
  {| bitmask := 0x80; bitshift := 7; array_index := 0; remainder := 0 |}.

Definition drm_dp_msg_header_crc4 (data : buf) (num_nibbles : nat) : option Z :=
  s ← crc_data_bits u8 0x10 0x13 data (num_nibbles * 4) crc_start;
  Some (crc_zero_bits u8 0x10 0x13 4 (remainder s)).

Definition drm_dp_msg_data_crc4 (data : buf) (number_of_bytes : nat) : option Z :=
  s ← crc_data_bits u16 0x100 0xd5 data (number_of_bytes * 8) crc_start;
  Some (Z.land (crc_zero_bits u16 0x100 0xd5 8 (remainder s)) 0xff).

(** ** Headers *)

Record drm_dp_sideband_msg_hdr := {
  lct : Z; lcr : Z; rad : list Z; broadcast : bool; path_msg : bool; msg_len : Z;
  somt : bool; eomt : bool; seqno : bool
}.

Definition drm_dp_calc_sb_hdr_size (hdr : drm_dp_sideband_msg_hdr) : Z := u8 (3 + lct hdr / 2).

Definition drm_dp_encode_sideband_msg_hdr (hdr : drm_dp_sideband_msg_hdr) (b : buf)
    : option (buf * nat) :=
  let nrad := Z.to_nat (lct hdr / 2) in
  b ← put 0 (Z.lor (Z.shiftl (Z.land (lct hdr) 0xf) 4) (Z.land (lcr hdr) 0xf)) b;
  r ← bytes_at 0 nrad (rad hdr);
  b ← puts 1 r b;
  b ← put (1 + nrad) (Z.lor (Z.lor (Z.shiftl (Z.b2z (broadcast hdr)) 7) (Z.shiftl (Z.b2z (path_msg hdr)) 6))
                            (Z.land (msg_len hdr) 0x3f)) b;
  b ← put (2 + nrad) (Z.lor (Z.lor (Z.shiftl (Z.b2z (somt hdr)) 7) (Z.shiftl (Z.b2z (eomt hdr)) 6))
                            (Z.shiftl (Z.b2z (seqno hdr)) 4)) b;
  let idx := (3 + nrad)%nat in
  crc4 ← drm_dp_msg_header_crc4 b (idx * 2 - 1);
  b ← put_or (idx - 1) (Z.land crc4 0xf) b;
  Some (b, idx).

(** [Some None]: the function returns [false]. *)
Definition drm_dp_decode_sideband_msg_hdr (b : buf) (buflen : nat)
    : option (option (drm_dp_sideband_msg_hdr * nat)) :=
  b0 ← b !! 0%nat;
  if b0 =? 0 then Some None
  else
    let n := Z.to_nat (Z.shiftr (Z.land b0 0xf0) 4 / 2) in
    let len := (3 + n)%nat in
    if (buflen <? len)%nat then Some None
    else
      crc4 ← drm_dp_msg_header_crc4 b (len * 2 - 1);
      last ← b !! (len - 1)%nat;
      if negb (Z.land crc4 0xf =? Z.land last 0xf) then Some None
      else
        r ← bytes_at 1 n b;
        x ← b !! (1 + n)%nat;
        y ← b !! (2 + n)%nat;
        Some (Some ({| lct := Z.shiftr (Z.land b0 0xf0) 4; lcr := Z.land b0 0xf; rad := r;
                       broadcast := Z.testbit x 7; path_msg := Z.testbit x 6; msg_len := Z.land x 0x3f;
                       somt := Z.testbit y 7; eomt := Z.testbit y 6; seqno := Z.testbit y 4 |}, len)).

(** ** Sending: one chunk of a message *)

(** [drm_dp_crc_sideband_chunk_req(&chunk[idx], len)] *)
Definition drm_dp_crc_sideband_chunk_req (idx len : nat) (chunk : buf) : option buf :=
  crc4 ← drm_dp_msg_data_crc4 (drop idx chunk) len;
  put (idx + len) crc4 chunk.

(** The part of [process_single_tx_qlock] that fills [chunk], for the header
    fields set from the destination; returns the bytes to send and how many of the
    message they carry.  [msg], [cur_len] and [cur_offset] are those of [txmsg]. *)
Definition build_chunk (chunk : buf) (hdr : drm_dp_sideband_msg_hdr) (msg : list Z) (cur_len cur_offset : Z)
    : option (list Z * Z) :=
  let len := cur_len - cur_offset in
  let space := 48 - 1 - drm_dp_calc_sb_hdr_size hdr in
  let tosend := Z.min len space in
  let hdr := {| lct := lct hdr; lcr := lcr hdr; rad := rad hdr; broadcast := broadcast hdr;
                path_msg := path_msg hdr; msg_len := u8 (tosend + 1);
                somt := len =? cur_len; eomt := len <=? space; seqno := seqno hdr |} in
  '(chunk, idx) ← drm_dp_encode_sideband_msg_hdr hdr chunk;
  data ← (if tosend <? 0 then None else bytes_at (Z.to_nat cur_offset) (Z.to_nat tosend) msg);
  chunk ← puts idx data chunk;
  chunk ← drm_dp_crc_sideband_chunk_req idx (Z.to_nat tosend) chunk;
  Some (take (idx + Z.to_nat tosend + 1) chunk, tosend).

(** ** Receiving *)

Record drm_dp_sideband_msg_rx := {
  rx_chunk : buf; rx_msg : buf; curchunk_len : Z; curchunk_idx : Z; curchunk_hdrlen : Z; curlen : Z;
  have_somt : bool; have_eomt : bool; initial_hdr : option drm_dp_sideband_msg_hdr
}.

(** [memset(msg, 0, sizeof(struct drm_dp_sideband_msg_rx))]; no header yet is [None]. *)
Definition rx_zero : drm_dp_sideband_msg_rx :=
  {| rx_chunk := replicate 48 0; rx_msg := replicate 256 0; curchunk_len := 0; curchunk_idx := 0;
     curchunk_hdrlen := 0; curlen := 0; have_somt := false; have_eomt := false; initial_hdr := None |}.

(** The end of [drm_dp_sideband_msg_build]: a complete chunk is appended to the
    message.  The CRC is computed and not used. *)
Definition finish_chunk (m : drm_dp_sideband_msg_rx) : option drm_dp_sideband_msg_rx :=
  if curchunk_len m <=? curchunk_idx m then
    let n := curchunk_len m - 1 in
    _ ← drm_dp_msg_data_crc4 (rx_chunk m) (Z.to_nat (u8 n));
    data ← (if n <? 0 then None else bytes_at 0 (Z.to_nat n) (rx_chunk m));
    msg ← puts (Z.to_nat (curlen m)) data (rx_msg m);
    Some {| rx_chunk := rx_chunk m; rx_msg := msg; curchunk_len := curchunk_len m;
            curchunk_idx := curchunk_idx m; curchunk_hdrlen := curchunk_hdrlen m;
            curlen := u8 (curlen m + n); have_somt := have_somt m; have_eomt := have_eomt m;
            initial_hdr := initial_hdr m |}
  else Some m.

(** The branch for the first piece of a chunk, which starts with a header. *)
Definition build_first (m : drm_dp_sideband_msg_rx) (replybuf : buf) (replybuflen : nat)
    : option (bool * drm_dp_sideband_msg_rx) :=
  d ← drm_dp_decode_sideband_msg_hdr replybuf replybuflen;
  match d with
  | None => Some (false, m)
  | Some (h, hdrlen) =>
    if negb (somt h) && negb (have_somt m) then Some (false, m)
    else
      let clen := msg_len h in
      if somt h && have_somt m then
        Some (false, {| rx_chunk := rx_chunk m; rx_msg := rx_msg m; curchunk_len := clen;
                        curchunk_idx := curchunk_idx m; curchunk_hdrlen := Z.of_nat hdrlen;
                        curlen := curlen m; have_somt := have_somt m; have_eomt := have_eomt m;
                        initial_hdr := initial_hdr m |})
      else
        let idx := Z.min clen (u8 (Z.of_nat replybuflen - Z.of_nat hdrlen)) in
        data ← bytes_at hdrlen (Z.to_nat idx) replybuf;
        chunk ← puts 0 data (rx_chunk m);
        m ← finish_chunk
              {| rx_chunk := chunk; rx_msg := rx_msg m; curchunk_len := clen; curchunk_idx := idx;
                 curchunk_hdrlen := Z.of_nat hdrlen; curlen := curlen m;
                 have_somt := somt h || have_somt m; have_eomt := eomt h || have_eomt m;
                 initial_hdr := if somt h then Some h else initial_hdr m |};
        Some (true, m)
  end.

(** The branch for the following pieces. *)
Definition build_next (m : drm_dp_sideband_msg_rx) (replybuf : buf) (replybuflen : nat)
    : option (bool * drm_dp_sideband_msg_rx) :=
  data ← bytes_at 0 replybuflen replybuf;
  chunk ← puts (Z.to_nat (curchunk_idx m)) data (rx_chunk m);
  m ← finish_chunk
        {| rx_chunk := chunk; rx_msg := rx_msg m; curchunk_len := curchunk_len m;
           curchunk_idx := u8 (curchunk_idx m + Z.of_nat replybuflen);
           curchunk_hdrlen := curchunk_hdrlen m; curlen := curlen m; have_somt := have_somt m;
           have_eomt := have_eomt m; initial_hdr := initial_hdr m |};
  Some (true, m).

Definition drm_dp_sideband_msg_build (m : drm_dp_sideband_msg_rx) (replybuf : buf) (replybuflen : nat)
    (hdr : bool) : option (bool * drm_dp_sideband_msg_rx) :=
  if hdr then build_first m replybuf replybuflen else build_next m replybuf replybuflen.

(** [drm_dp_dpcd_read(aux, basereg + offset, buffer, len)] of the message area of
    the device; [None] is a failed or short read. *)
Section Receive.

Variable max_dpcd_transaction_bytes : Z.
Variable dpcd_read : Z -> Z -> option (list Z).

(** The [while (replylen > 0)] loop; [Some None] is a failed read. *)
Fixpoint read_rest (fuel : nat) (m : drm_dp_sideband_msg_rx) (curreply replylen : Z)
    : option (bool * drm_dp_sideband_msg_rx) :=
  if 0 <? replylen then
    match fuel with
    | O => None
    | S fuel' =>
      let len := Z.min (Z.min replylen max_dpcd_transaction_bytes) 16 in
      match dpcd_read curreply len with
      | None => Some (false, m)
      | Some replyblock =>
        '(ok, m) ← drm_dp_sideband_msg_build m replyblock (Z.to_nat len) false;
        if negb ok then Some (false, m)
        else read_rest fuel' m (curreply + len) (replylen - len)
      end
    end
  else Some (true, m).

Definition drm_dp_get_one_sb_msg (m : drm_dp_sideband_msg_rx) : option (bool * drm_dp_sideband_msg_rx) :=
  let len := Z.min max_dpcd_transaction_bytes 16 in
  match dpcd_read 0 len with
  | None => Some (false, m)
  | Some replyblock =>
    '(ok, m) ← drm_dp_sideband_msg_build m replyblock (Z.to_nat len) true;
    if negb ok then Some (false, m)
    else
      let replylen := curchunk_len m + curchunk_hdrlen m in
      read_rest (Z.to_nat replylen) m len (replylen - len)
  end.

End Receive.

(** ** The CRCs compute the remainder of the bit string *)

(** The bits of a byte string, most significant first. *)
Definition byte_bits (d : Z) : list bool := map (fun j => Z.testbit d (7 - Z.of_nat j)) (seq 0 8).
Definition bits (data : list Z) : list bool := data ≫= byte_bits.

(** One step of the division by [2^w + poly] over GF(2), on a [w]-bit remainder. *)
Definition crc_step (w poly : Z) (r : Z) (b : bool) : Z :=
  let x := 2 * r + Z.b2z b in
  if 2 ^ w <=? x then Z.lxor (x - 2 ^ w) poly else x.

Definition crc_of (w : nat) (poly : Z) (bs : list bool) : Z :=
  foldl (crc_step (Z.of_nat w) poly) 0 (bs ++ replicate w false).

Lemma lxor_mod a b w : 0 <= w -> Z.lxor a b mod 2 ^ w = Z.lxor (a mod 2 ^ w) (b mod 2 ^ w).
Proof.
  intros Hw. apply Z.bits_inj'. intros n Hn. rewrite Z.lxor_spec.
  destruct (Z.lt_ge_cases n w); [rewrite !Z.mod_pow2_bits_low, Z.lxor_spec by lia; done|].
  rewrite !Z.mod_pow2_bits_high by lia. done.
Qed.

Lemma crc_step_range w poly r b : 0 < w -> 0 <= poly < 2 ^ w -> 0 <= r < 2 ^ w -> 0 <= crc_step w poly r b < 2 ^ w.
Proof.
  intros Hw Hp Hr. unfold crc_step. assert (0 <= Z.b2z b <= 1) as Hb by by destruct b.
  destruct (Z.leb_spec (2 ^ w) (2 * r + Z.b2z b)); [|lia].
  assert (forall z, 0 <= z < 2 ^ w -> z = z mod 2 ^ w) as Hm by (intros; symmetry; by apply Z.mod_small).
  rewrite (Hm _ Hp), (Hm (2 * r + Z.b2z b - 2 ^ w)) by lia.
  rewrite <- lxor_mod by lia. apply Z.mod_pos_bound. lia.
Qed.

Lemma lor_even_bit x b : Z.lor (2 * x) (Z.b2z b) = 2 * x + Z.b2z b.
Proof.
  destruct b; simpl Z.b2z; [|by rewrite Z.lor_0_r, Z.add_0_r].
  assert (Z.land (2 * x) 1 = 0) as H.
  { change 1 with (Z.ones 1). rewrite Z.land_ones by lia. change (2 ^ 1) with 2.
    rewrite Z.mul_comm. by apply Z.mod_mul. }
  by rewrite Z.add_nocarry_lxor, Z.lxor_lor.
Qed.

Lemma masked_bit d n : 0 <= n -> Z.shiftr (Z.land d (2 ^ n)) n = Z.b2z (Z.testbit d n).
Proof.
  intros Hn. rewrite Z.shiftr_land, (Z.shiftr_div_pow2 (2 ^ n)), Z.div_same by lia.
  change 1 with (Z.ones 1). rewrite Z.land_ones, Z.shiftr_div_pow2, Z.testbit_spec' by lia. done.
Qed.

Lemma land_pow2_test x n : 0 <= n -> Z.land x (2 ^ n) = if Z.testbit x n then 2 ^ n else 0.
Proof.
  intros Hn. apply Z.bits_inj'. intros k Hk. rewrite Z.land_spec, Z.pow2_bits_eqb by lia.
  destruct (Z.eqb_spec n k) as [<-|Hne].
  - rewrite andb_true_r. destruct (Z.testbit x n); [by rewrite Z.pow2_bits_true by lia|by rewrite Z.bits_0].
  - rewrite andb_false_r. destruct (Z.testbit x n); [by rewrite Z.pow2_bits_false by lia|by rewrite Z.bits_0].
Qed.

(** A step of the code, whose register is wider than the remainder. *)
Lemma code_step w wid poly' poly R r b : 0 < w < wid -> poly' mod 2 ^ w = poly -> R mod 2 ^ w = r ->
  let x := (Z.lor ((Z.shiftl R 1) mod 2 ^ wid) (Z.b2z b)) mod 2 ^ wid in
  (if Z.land x (2 ^ w) =? 2 ^ w then Z.lxor x poly' else x) mod 2 ^ w = crc_step w poly r b.
Proof.
  intros Hw Hp Hr. cbv zeta.
  assert (0 <= Z.b2z b <= 1) as Hb by by destruct b.
  pose proof (Z.pow_pos_nonneg 2 w ltac:(lia) ltac:(lia)) as Hpw.
  assert (2 ^ wid = 2 * (2 ^ (wid - 1))) as E1 by (rewrite <- Z.pow_succ_r by lia; f_equal; lia).
  assert (2 ^ w = 2 * (2 ^ (w - 1))) as E2 by (rewrite <- Z.pow_succ_r by lia; f_equal; lia).
  rewrite Z.shiftl_mul_pow2 by lia. change (2 ^ 1) with 2. rewrite (Z.mul_comm R 2), E1.
  rewrite Zmult_mod_distr_l, lor_even_bit, <- E1.
  set (y := R mod 2 ^ (wid - 1)).
  assert (0 <= y < 2 ^ (wid - 1)) as Hy by (apply Z.mod_pos_bound; lia).
  rewrite (Z.mod_small (2 * y + Z.b2z b)) by lia.
  assert (y mod 2 ^ w = r) as Hyr.
  { unfold y. rewrite <- Hr. rewrite <- !Z.land_ones, <- Z.land_assoc, <- (Z.land_comm (Z.ones w)) by lia.
    f_equal. rewrite Z.land_ones by lia. apply Z.mod_small. rewrite Z.ones_equiv.
    pose proof (Z.pow_le_mono_r 2 w (wid - 1) ltac:(lia) ltac:(lia)). lia. }
  assert (Z.testbit (2 * y + Z.b2z b) w = (2 ^ w <=? 2 * r + Z.b2z b)) as Ht.
  { rewrite <- (Z.mod_pow2_bits_low _ (Z.succ w)) by lia. rewrite Z.pow_succ_r by lia.
    assert ((2 * y + Z.b2z b) mod (2 * 2 ^ w) = 2 * r + Z.b2z b) as ->.
    { rewrite <- Hyr. symmetry. apply (Z.mod_unique_pos _ _ (y / 2 ^ w)).
      - pose proof (Z.mod_pos_bound y (2 ^ w) Hpw). lia.
      - pose proof (Z.div_mod y (2 ^ w) ltac:(lia)). lia. }
    assert (0 <= r < 2 ^ w) by (rewrite <- Hyr; by apply Z.mod_pos_bound).
    rewrite Z.testbit_eqb by lia. destruct (Z.leb_spec (2 ^ w) (2 * r + Z.b2z b)) as [Hge|Hlt].
    - rewrite <- (Z.div_unique_pos (2 * r + Z.b2z b) (2 ^ w) 1 (2 * r + Z.b2z b - 2 ^ w)) by lia. done.
    - by rewrite Z.div_small by lia. }
  rewrite land_pow2_test, Ht by lia. unfold crc_step.
  assert (0 <= r < 2 ^ w) by (rewrite <- Hyr; by apply Z.mod_pos_bound).
  assert ((2 * y + Z.b2z b) mod 2 ^ w = (2 * r + Z.b2z b) mod 2 ^ w) as Hx.
  { rewrite <- Hyr. pose proof (Z.div_mod y (2 ^ w) ltac:(lia)) as Ed.
    replace (2 * y + Z.b2z b) with (2 * (y mod 2 ^ w) + Z.b2z b + 2 * (y / 2 ^ w) * 2 ^ w) by lia.
    apply Z.mod_add. lia. }
  destruct (Z.leb_spec (2 ^ w) (2 * r + Z.b2z b)) as [Hge|Hlt].
  - rewrite Z.eqb_refl, lxor_mod, Hx, Hp by lia. f_equal.
    rewrite (Z.mod_eq _ (2 ^ w)) by lia.
    rewrite <- (Z.div_unique_pos (2 * r + Z.b2z b) (2 ^ w) 1 (2 * r + Z.b2z b - 2 ^ w)) by lia. lia.
  - rewrite (proj2 (Z.eqb_neq 0 (2 ^ w))) by lia. rewrite Hx. by apply Z.mod_small; lia.
Qed.

Lemma crc_zero_bits_eq w wid poly' poly n : 0 < w < wid -> poly' mod 2 ^ w = poly ->
  forall R r, R mod 2 ^ w = r ->
  crc_zero_bits (fun x => x mod 2 ^ wid) (2 ^ w) poly' n R mod 2 ^ w =
  foldl (crc_step w poly) r (replicate n false).
Proof.
  intros Hw Hp. induction n as [|n IH]; intros R r HR; [done|]. cbn [crc_zero_bits replicate foldl].
  apply IH. rewrite <- (code_step w wid poly' poly R r false Hw Hp HR). cbv zeta. simpl Z.b2z.
  rewrite Z.lor_0_r, Z.mod_mod by lia. rewrite land_pow2_test by lia.
  pose proof (Z.pow_pos_nonneg 2 w ltac:(lia) ltac:(lia)).
  destruct (Z.testbit _ w); [|by rewrite (proj2 (Z.eqb_neq 0 (2 ^ w))) by lia].
  by rewrite Z.eqb_refl, (proj2 (Z.eqb_neq (2 ^ w) 0)) by lia.
Qed.

(** The loop variables after [p] bits. *)
Definition at_bit (p : nat) (s : crc_state) : Prop :=
  array_index s = (p / 8)%nat /\ bitshift s = 7 - Z.of_nat (p mod 8) /\ bitmask s = 2 ^ bitshift s.

Lemma bits_lookup data p d : data !! (p / 8)%nat = Some d ->
  bits data !! p = Some (Z.testbit d (7 - Z.of_nat (p mod 8))).
Proof.
  unfold bits. revert p. induction data as [|x data IH]; intros p H; [done|]. cbn [mbind list_bind].
  destruct (Nat.lt_ge_cases p 8) as [Hp|Hp].
  - rewrite Nat.div_small in H by done. injection H as ->. rewrite Nat.mod_small by done.
    rewrite lookup_app_l by done. unfold byte_bits. rewrite list_lookup_fmap, lookup_seq_lt by done. done.
  - rewrite lookup_app_r by done. change (length (byte_bits x)) with 8%nat.
    replace p with (p - 8 + 1 * 8)%nat in H |- * by lia. rewrite Nat.div_add in H by lia.
    rewrite Nat.add_1_r in H. rewrite Nat.Div0.mod_add.
    replace (p - 8 + 1 * 8 - 8)%nat with (p - 8)%nat by lia. by apply IH.
Qed.

Lemma crc_data_bit_eq w wid poly' poly data p s d r : 0 < w < wid -> poly' mod 2 ^ w = poly ->
  at_bit p s -> data !! (p / 8)%nat = Some d -> remainder s mod 2 ^ w = r ->
  exists s', crc_data_bit (fun x => x mod 2 ^ wid) (2 ^ w) poly' data s = Some s' /\ at_bit (S p) s' /\
    remainder s' mod 2 ^ w = crc_step w poly r (Z.testbit d (7 - Z.of_nat (p mod 8))).
Proof.
  intros Hw Hp (Hi & Hs & Hm) Hd Hr. unfold crc_data_bit. rewrite Hi, Hd. cbn [mbind option_bind].
  pose proof (Nat.mod_upper_bound p 8 ltac:(lia)) as Hlt. pose proof (Nat.div_mod_eq p 8) as Hdm.
  pose proof (code_step w wid poly' poly (remainder s) r (Z.testbit d (bitshift s)) Hw Hp Hr) as Hstep.
  cbv zeta in Hstep. rewrite Hm, masked_bit by lia. rewrite Z.shiftr_div_pow2 by lia. change (2 ^ 1) with 2.
  destruct (decide (p mod 8 = 7)%nat) as [E7|E7].
  - replace (2 ^ bitshift s / 2 =? 0) with true by (rewrite Hs, E7; done).
    eexists. split; [reflexivity|]. split; [|cbn [remainder]; by rewrite Hstep, Hs].
    unfold at_bit. cbn [array_index bitshift bitmask].
    assert (S p = (p / 8 + 1) * 8)%nat as -> by lia. rewrite Nat.div_mul, Nat.Div0.mod_mul by lia. split_and!; [lia|lia|done].
  - assert (2 ^ bitshift s / 2 = 2 ^ (bitshift s - 1)) as E.
    { replace (bitshift s) with (Z.succ (bitshift s - 1)) at 1 by lia. rewrite Z.pow_succ_r by lia.
      rewrite Z.mul_comm. by apply Z.div_mul. }
    rewrite E. pose proof (Z.pow_pos_nonneg 2 (bitshift s - 1) ltac:(lia) ltac:(lia)).
    rewrite (proj2 (Z.eqb_neq (2 ^ (bitshift s - 1)) 0)) by lia.
    eexists. split; [reflexivity|]. split; [|cbn [remainder]; by rewrite Hstep, Hs].
    unfold at_bit. cbn [array_index bitshift bitmask].
    assert (S p = S (p mod 8) + (p / 8) * 8)%nat as -> by lia.
    rewrite Nat.div_add, Nat.Div0.mod_add, (Nat.div_small (S (p mod 8)) 8), (Nat.mod_small (S (p mod 8)) 8) by lia.
    rewrite u8_small by (unfold is_u8; lia). split_and!; [lia|lia|done].
Qed.

Lemma crc_data_bits_eq w wid poly' poly data n : 0 < w < wid -> poly' mod 2 ^ w = poly ->
  forall p s r, at_bit p s -> (p + n <= 8 * length data)%nat -> remainder s mod 2 ^ w = r ->
  exists s', crc_data_bits (fun x => x mod 2 ^ wid) (2 ^ w) poly' data n s = Some s' /\
    remainder s' mod 2 ^ w = foldl (crc_step w poly) r (take n (drop p (bits data))).
Proof.
  intros Hw Hp. induction n as [|n IH]; intros p s r Hs Hn Hr; [by exists s|]. cbn [crc_data_bits].
  destruct (lookup_lt_is_Some_2 data (p / 8)) as [d Hd].
  { apply Nat.Div0.div_lt_upper_bound. lia. }
  destruct (crc_data_bit_eq w wid poly' poly data p s d r Hw Hp Hs Hd Hr) as (s1 & -> & Hs1 & Hr1).
  cbn [mbind option_bind]. destruct (IH (S p) s1 _ Hs1 ltac:(lia) Hr1) as (s2 & -> & Hr2).
  exists s2. split; [done|]. rewrite Hr2. by rewrite (drop_S _ _ _ (bits_lookup data p d Hd)).
Qed.

Lemma crc_eq w wid poly' poly data n k : 0 < w < wid -> poly' mod 2 ^ w = poly -> (n <= 8 * length data)%nat ->
  exists s', crc_data_bits (fun x => x mod 2 ^ wid) (2 ^ w) poly' data n crc_start = Some s' /\
    crc_zero_bits (fun x => x mod 2 ^ wid) (2 ^ w) poly' k (remainder s') mod 2 ^ w =
    foldl (crc_step w poly) 0 (take n (bits data) ++ replicate k false).
Proof.
  intros Hw Hp Hn. destruct (crc_data_bits_eq w wid poly' poly data n Hw Hp 0 crc_start 0) as (s & E & Hr);
    [done|lia|by apply Z.mod_0_l; lia|].
  exists s. split; [done|]. rewrite (crc_zero_bits_eq w wid poly' poly k Hw Hp _ _ Hr).
  by rewrite foldl_app, drop_0.
Qed.

Lemma header_crc4_eq data k : (k * 4 <= 8 * length data)%nat ->
  exists c, drm_dp_msg_header_crc4 data k = Some c /\ Z.land c 0xf = crc_of 4 3 (take (k * 4) (bits data)).
Proof.
  intros Hk. destruct (crc_eq 4 8 0x13 3 data (k * 4) 4 ltac:(lia) eq_refl Hk) as (s & E & H).
  change (fun x => x mod 2 ^ 8) with u8 in *. change (2 ^ 4) with 0x10 in *.
  exists (crc_zero_bits u8 0x10 0x13 4 (remainder s)). unfold drm_dp_msg_header_crc4. rewrite E. split; [done|].
  change 0xf with (Z.ones 4). rewrite Z.land_ones by lia. exact H.
Qed.

Lemma data_crc4_eq data k : (k <= length data)%nat ->
  drm_dp_msg_data_crc4 data k = Some (crc_of 8 0xd5 (take (k * 8) (bits data))).
Proof.
  intros Hk. destruct (crc_eq 8 16 0xd5 0xd5 data (k * 8) 8 ltac:(lia) eq_refl ltac:(lia)) as (s & E & H).
  change (fun x => x mod 2 ^ 16) with u16 in *. change (2 ^ 8) with 0x100 in *.
  unfold drm_dp_msg_data_crc4. rewrite E. cbn [mbind option_bind]. f_equal.
  change 0xff with (Z.ones 8). rewrite Z.land_ones by lia. exact H.
Qed.

(** ** Headers come back *)

Definition hdr_ok (h : drm_dp_sideband_msg_hdr) : Prop :=
  1 <= lct h <= 15 /\ 0 <= lcr h <= 15 /\ length (rad h) = Z.to_nat (lct h / 2) /\ Forall is_u8 (rad h) /\
  0 <= msg_len h < 64.

Definition hdr_byte0 (h : drm_dp_sideband_msg_hdr) : Z := Z.lor (Z.shiftl (lct h) 4) (lcr h).
Definition hdr_byte1 (h : drm_dp_sideband_msg_hdr) : Z :=
  Z.lor (Z.lor (Z.shiftl (Z.b2z (broadcast h)) 7) (Z.shiftl (Z.b2z (path_msg h)) 6)) (msg_len h).
Definition hdr_byte2 (h : drm_dp_sideband_msg_hdr) : Z :=
  Z.lor (Z.lor (Z.shiftl (Z.b2z (somt h)) 7) (Z.shiftl (Z.b2z (eomt h)) 6)) (Z.shiftl (Z.b2z (seqno h)) 4).

(** The protected bits of a header and the bytes on the wire. *)
Definition hdr_bits (h : drm_dp_sideband_msg_hdr) : list bool :=
  bits (hdr_byte0 h :: rad h ++ [hdr_byte1 h]) ++ take 4 (byte_bits (hdr_byte2 h)).
Definition hdr_bytes (h : drm_dp_sideband_msg_hdr) : list Z :=
  hdr_byte0 h :: rad h ++ [hdr_byte1 h; Z.lor (hdr_byte2 h) (crc_of 4 3 (hdr_bits h))].

Lemma crc_of_range w poly bs : (0 < w)%nat -> 0 <= poly < 2 ^ Z.of_nat w -> 0 <= crc_of w poly bs < 2 ^ Z.of_nat w.
Proof.
  intros Hw Hp. unfold crc_of. set (l := bs ++ _). clearbody l.
  assert (forall r, 0 <= r < 2 ^ Z.of_nat w -> 0 <= foldl (crc_step (Z.of_nat w) poly) r l < 2 ^ Z.of_nat w) as H.
  { induction l as [|b l IH]; intros r Hr; [done|]. apply IH, crc_step_range; lia. }
  apply H. lia.
Qed.

Lemma bits_app a b : bits (a ++ b) = bits a ++ bits b.
Proof. unfold bits. apply bind_app. Qed.

Lemma bits_length a : length (bits a) = (8 * length a)%nat.
Proof. unfold bits. induction a as [|x a IH]; [done|]. cbn [mbind list_bind]. rewrite length_app. simpl in *. lia. Qed.

(** All but the last nibble of a byte string. *)
Lemma bits_but_nibble a x : take ((length (a ++ [x]) * 2 - 1) * 4) (bits (a ++ [x])) = bits a ++ take 4 (byte_bits x).
Proof.
  rewrite bits_app. rewrite take_app_ge by (rewrite length_app, bits_length; simpl; lia).
  f_equal. rewrite bits_length, length_app. simpl length.
  replace (((length a + 1) * 2 - 1) * 4 - 8 * length a)%nat with 4%nat by lia. done.
Qed.

Lemma byte0_fields l c : 0 <= l < 16 -> 0 <= c < 16 ->
  let b := Z.lor (Z.shiftl l 4) c in
  u8 (Z.lor (Z.shiftl (Z.land l 0xf) 4) (Z.land c 0xf)) = b /\ (b =? 0) = (l =? 0) && (c =? 0) /\
  Z.shiftr (Z.land b 0xf0) 4 = l /\ Z.land b 0xf = c /\ (16 <=? b) = (0 <? l).
Proof.
  intros Hl Hc b.
  enough ((u8 (Z.lor (Z.shiftl (Z.land l 0xf) 4) (Z.land c 0xf)) =? b) && eqb (b =? 0) ((l =? 0) && (c =? 0)) &&
          (Z.shiftr (Z.land b 0xf0) 4 =? l) && (Z.land b 0xf =? c) && eqb (16 <=? b) (0 <? l) = true) as H.
  { rewrite !andb_true_iff, !Z.eqb_eq, !eqb_true_iff in H. tauto. }
  subst b. revert c Hc. apply (below_spec 16). revert l Hl. apply (below_spec 16). eval_bits.
Qed.

Lemma byte1_bits x y m : 0 <= m < 64 ->
  let b := Z.lor (Z.lor (Z.shiftl (Z.b2z x) 7) (Z.shiftl (Z.b2z y) 6)) m in
  u8 (Z.lor (Z.lor (Z.shiftl (Z.b2z x) 7) (Z.shiftl (Z.b2z y) 6)) (Z.land m 0x3f)) = b /\
  Z.testbit b 7 = x /\ Z.testbit b 6 = y /\ Z.land b 0x3f = m.
Proof.
  intros Hm b.
  enough ((u8 (Z.lor (Z.lor (Z.shiftl (Z.b2z x) 7) (Z.shiftl (Z.b2z y) 6)) (Z.land m 0x3f)) =? b) &&
          eqb (Z.testbit b 7) x && eqb (Z.testbit b 6) y && (Z.land b 0x3f =? m) = true) as H.
  { rewrite !andb_true_iff, !Z.eqb_eq, !eqb_true_iff in H. tauto. }
  subst b. revert m Hm. apply (below_spec 64). destruct x, y; eval_bits.
Qed.

Lemma byte2_bits x y z c : 0 <= c < 16 ->
  let b := Z.lor (Z.lor (Z.shiftl (Z.b2z x) 7) (Z.shiftl (Z.b2z y) 6)) (Z.shiftl (Z.b2z z) 4) in
  u8 b = b /\ u8 (Z.lor b c) = Z.lor b c /\ Z.testbit (Z.lor b c) 7 = x /\ Z.testbit (Z.lor b c) 6 = y /\
  Z.testbit (Z.lor b c) 4 = z /\ Z.land (Z.lor b c) 0xf = c /\
  take 4 (byte_bits (Z.lor b c)) = take 4 (byte_bits b).
Proof.
  intros Hc b.
  enough ((u8 b =? b) && (u8 (Z.lor b c) =? Z.lor b c) && eqb (Z.testbit (Z.lor b c) 7) x &&
          eqb (Z.testbit (Z.lor b c) 6) y && eqb (Z.testbit (Z.lor b c) 4) z && (Z.land (Z.lor b c) 0xf =? c) &&
          bool_decide (take 4 (byte_bits (Z.lor b c)) = take 4 (byte_bits b)) = true) as H.
  { rewrite !andb_true_iff, !Z.eqb_eq, !eqb_true_iff, bool_decide_eq_true in H. tauto. }
  subst b. revert c Hc. apply (below_spec 16). destruct x, y, z; eval_bits.
Qed.

Lemma hdr_crc_range h : 0 <= crc_of 4 3 (hdr_bits h) < 16.
Proof. apply (crc_of_range 4 3); lia. Qed.

Lemma hdr_bytes_length h : hdr_ok h -> length (hdr_bytes h) = (3 + Z.to_nat (lct h / 2))%nat.
Proof. intros (_ & _ & Hr & _). unfold hdr_bytes. simpl. rewrite length_app, Hr. simpl. lia. Qed.

Lemma bytes_at_app n pre l post : length pre = n -> bytes_at n (length l) (pre ++ l ++ post) = Some l.
Proof.
  intros <-. unfold bytes_at. rewrite (proj2 (Nat.leb_le _ _)) by (rewrite !length_app; lia).
  by rewrite drop_app_length, take_app_length.
Qed.

Lemma crc_nibble pre x post : exists c, drm_dp_msg_header_crc4 (pre ++ x :: post) (length (pre ++ [x]) * 2 - 1) = Some c /\
  Z.land c 0xf = crc_of 4 3 (bits pre ++ take 4 (byte_bits x)).
Proof.
  destruct (header_crc4_eq (pre ++ x :: post) (length (pre ++ [x]) * 2 - 1)) as (c & E & Hc).
  { rewrite !length_app. simpl. lia. }
  exists c. split; [done|]. rewrite Hc. f_equal.
  replace (pre ++ x :: post) with ((pre ++ [x]) ++ post) by by app_norm.
  rewrite bits_app, take_app_le; [apply bits_but_nibble|]. rewrite bits_length, length_app. simpl. lia.
Qed.

Lemma encode_hdr_eq h b : hdr_ok h -> (3 + Z.to_nat (lct h / 2) <= length b)%nat ->
  drm_dp_encode_sideband_msg_hdr h b =
  Some (hdr_bytes h ++ drop (3 + Z.to_nat (lct h / 2)) b, (3 + Z.to_nat (lct h / 2))%nat).
Proof.
  intros (Hl & Hc & Hr & Hb & Hm) Hlen. unfold drm_dp_encode_sideband_msg_hdr.
  set (n := Z.to_nat (lct h / 2)) in *.
  destruct (byte0_fields (lct h) (lcr h) ltac:(lia) ltac:(lia)) as (E0 & _).
  destruct (byte1_bits (broadcast h) (path_msg h) (msg_len h) Hm) as (E1 & _).
  destruct (byte2_bits (somt h) (eomt h) (seqno h) 0 ltac:(lia)) as (E2 & _).
  destruct b as [|x0 b]; [simpl in Hlen; lia|]. simpl in Hlen.
  rewrite (put_app 0 _ [] x0 b eq_refl), bind_some, E0. cbn [app].
  pose proof (bytes_at_app 0 [] (rad h) [] eq_refl) as Er. cbn [app] in Er. rewrite app_nil_r, Hr in Er.
  rewrite Er, bind_some.
  assert (exists R x1 x2 tl, b = R ++ x1 :: x2 :: tl /\ length R = n) as (R & x1 & x2 & tl & -> & HR).
  { exists (take n b). destruct (drop n b) as [|x1 [|x2 tl]] eqn:E; apply (f_equal length) in E as E';
      rewrite length_drop in E'; simpl in E'; [lia..|].
    exists x1, x2, tl. rewrite <- E, take_drop, length_take. split; [done|lia]. }
  fold (hdr_byte0 h). change (hdr_byte0 h :: R ++ x1 :: x2 :: tl) with ([hdr_byte0 h] ++ R ++ x1 :: x2 :: tl).
  rewrite (puts_app (rad h) 1 [hdr_byte0 h] R (x1 :: x2 :: tl)), bind_some, map_u8_small by (done || congruence).
  replace ([hdr_byte0 h] ++ rad h ++ x1 :: x2 :: tl) with ((hdr_byte0 h :: rad h) ++ x1 :: x2 :: tl) by by app_norm.
  rewrite (put_app (1 + n)), bind_some, E1 by (simpl; lia). fold (hdr_byte1 h).
  replace ((hdr_byte0 h :: rad h) ++ hdr_byte1 h :: x2 :: tl) with ((hdr_byte0 h :: rad h ++ [hdr_byte1 h]) ++ x2 :: tl) by by app_norm.
  rewrite (put_app (2 + n)), bind_some, E2 by (simpl; rewrite length_app; simpl; lia). fold (hdr_byte2 h).
  destruct (crc_nibble (hdr_byte0 h :: rad h ++ [hdr_byte1 h]) (hdr_byte2 h) tl) as (c & Ec & Hcrc).
  replace (length ((hdr_byte0 h :: rad h ++ [hdr_byte1 h]) ++ [hdr_byte2 h])) with (3 + n)%nat in Ec
    by (simpl; rewrite !length_app; simpl; lia).
  rewrite Ec, bind_some, Hcrc.
  rewrite (put_or_app (3 + n - 1)), bind_some by (simpl; rewrite length_app; simpl; lia).
  destruct (byte2_bits (somt h) (eomt h) (seqno h) _ (hdr_crc_range h)) as (_ & E3 & _).
  fold (hdr_byte2 h) in E3. fold (hdr_bits h). rewrite E3. do 2 f_equal.
  unfold hdr_bytes. rewrite <- app_comm_cons. simpl. f_equal. app_norm. f_equal. f_equal. f_equal.
  replace (S (S n)) with (length (R ++ [x1; x2])) by (rewrite length_app; simpl; lia).
  replace (R ++ x1 :: x2 :: tl) with ((R ++ [x1; x2]) ++ tl) by by app_norm.
  by rewrite drop_app_length.
Qed.

Lemma decode_hdr_eq h tail buflen : hdr_ok h -> (length (hdr_bytes h) <= buflen)%nat ->
  drm_dp_decode_sideband_msg_hdr (hdr_bytes h ++ tail) buflen = Some (Some (h, length (hdr_bytes h))).
Proof.
  intros Hok Hlen. rewrite hdr_bytes_length in * by done. destruct Hok as (Hl & Hc & Hr & Hb & Hm).
  unfold drm_dp_decode_sideband_msg_hdr. set (n := Z.to_nat (lct h / 2)) in *.
  destruct (byte0_fields (lct h) (lcr h) ltac:(lia) ltac:(lia)) as (_ & E0 & E0l & E0c & _).
  destruct (byte1_bits (broadcast h) (path_msg h) (msg_len h) Hm) as (_ & E17 & E16 & E1m).
  destruct (byte2_bits (somt h) (eomt h) (seqno h) _ (hdr_crc_range h)) as (_ & _ & E27 & E26 & E24 & E2c & E2n).
  fold (hdr_byte0 h) in E0, E0l, E0c. fold (hdr_byte1 h) in E17, E16, E1m.
  fold (hdr_byte2 h) in E27, E26, E24, E2c, E2n. cbv zeta in *.
  set (y := Z.lor (hdr_byte2 h) (crc_of 4 3 (hdr_bits h))) in *.
  change ((hdr_bytes h ++ tail) !! 0%nat) with (Some (hdr_byte0 h)). rewrite bind_some, E0.
  replace ((lct h =? 0) && (lcr h =? 0)) with false by lia. rewrite E0l. fold n.
  rewrite (proj2 (Nat.ltb_ge _ _)) by lia.
  assert (hdr_bytes h ++ tail = (hdr_byte0 h :: rad h ++ [hdr_byte1 h]) ++ y :: tail) as -> by (unfold hdr_bytes; by app_norm).
  destruct (crc_nibble (hdr_byte0 h :: rad h ++ [hdr_byte1 h]) y tail) as (c & Ec & Hcrc).
  replace (length ((hdr_byte0 h :: rad h ++ [hdr_byte1 h]) ++ [y])) with (3 + n)%nat in Ec
    by (simpl; rewrite !length_app; simpl; lia).
  assert (length (hdr_byte0 h :: rad h ++ [hdr_byte1 h]) = 2 + n)%nat as Hpre by (simpl; rewrite length_app; simpl; lia).
  rewrite Ec, bind_some. change (3 + n - 1)%nat with (2 + n)%nat.
  rewrite !(list_lookup_middle _ _ y (2 + n)) by lia. rewrite bind_some.
  rewrite Hcrc, E2n, E2c. fold (hdr_bits h). rewrite Z.eqb_refl. cbn [negb].
  pose proof (bytes_at_app 1 [hdr_byte0 h] (rad h) (hdr_byte1 h :: y :: tail) eq_refl) as Er. rewrite Hr in Er.
  replace ((hdr_byte0 h :: rad h ++ [hdr_byte1 h]) ++ y :: tail) with ([hdr_byte0 h] ++ rad h ++ hdr_byte1 h :: y :: tail) by by app_norm.
  rewrite Er, bind_some.
  replace ([hdr_byte0 h] ++ rad h ++ hdr_byte1 h :: y :: tail) with ((hdr_byte0 h :: rad h) ++ hdr_byte1 h :: y :: tail) by by app_norm.
  rewrite (list_lookup_middle _ _ (hdr_byte1 h) (1 + n)) by (simpl; lia). rewrite bind_some.
  rewrite bind_some, E0c, E17, E16, E1m, E27, E26, E24. by destruct h.
Qed.

(** ** Single-bit errors in a header are noticed *)

Definition flip_bit (p : nat) (l : list Z) : list Z :=
  alter (fun x => Z.lxor x (2 ^ (7 - Z.of_nat (p mod 8)))) (p / 8)%nat l.

Lemma crc4_step_inj b r1 r2 : 0 <= r1 < 16 -> 0 <= r2 < 16 -> crc_step 4 3 r1 b = crc_step 4 3 r2 b -> r1 = r2.
Proof.
  intros H1 H2 E. apply Z.eqb_eq. enough (implb (crc_step 4 3 r1 b =? crc_step 4 3 r2 b) (r1 =? r2) = true) as H.
  { by rewrite E, Z.eqb_refl in H. }
  clear E. revert r2 H2. apply (below_spec 16). revert r1 H1. apply (below_spec 16). destruct b; eval_bits.
Qed.

Lemma crc4_step_bit r b : 0 <= r < 16 -> crc_step 4 3 r (negb b) <> crc_step 4 3 r b.
Proof.
  intros H. apply Z.eqb_neq. apply negb_true_iff. revert r H. apply (below_spec 16). destruct b; eval_bits.
Qed.

Lemma crc4_fold_range bs : forall r, 0 <= r < 16 -> 0 <= foldl (crc_step 4 3) r bs < 16.
Proof. induction bs as [|b bs IH]; intros r Hr; [done|]. apply IH, (crc_step_range 4 3); lia. Qed.

Lemma crc4_fold_inj bs : forall r1 r2, 0 <= r1 < 16 -> 0 <= r2 < 16 ->
  foldl (crc_step 4 3) r1 bs = foldl (crc_step 4 3) r2 bs -> r1 = r2.
Proof.
  induction bs as [|b bs IH]; intros r1 r2 H1 H2 E; [done|]. simpl in E.
  apply IH in E; [by apply crc4_step_inj in E|apply (crc_step_range 4 3); lia..].
Qed.

Lemma crc4_flip bs p : (p < length bs)%nat -> crc_of 4 3 (alter negb p bs) <> crc_of 4 3 bs.
Proof.
  intros Hp E. destruct (lookup_lt_is_Some_2 bs p Hp) as [b Hb].
  apply list_elem_of_split_length in Hb as (a & c & -> & ->). unfold crc_of in E.
  change (Z.of_nat 4) with 4 in E.
  rewrite alter_app_r_alt, Nat.sub_diag in E by lia. simpl in E.
  rewrite <- !app_assoc, !foldl_app in E. simpl in E.
  pose proof (crc4_fold_range a 0 ltac:(lia)) as Hr.
  apply (crc4_fold_inj [false; false; false; false]) in E; [|apply crc4_fold_range, (crc_step_range 4 3); lia..].
  apply crc4_fold_inj in E; [|apply (crc_step_range 4 3); lia..].
  by apply crc4_step_bit in E.
Qed.

Lemma byte_bits_flip x j : (j < 8)%nat -> byte_bits (Z.lxor x (2 ^ (7 - Z.of_nat j))) = alter negb j (byte_bits x).
Proof.
  intros Hj. apply list_eq. intros i. unfold byte_bits. destruct (decide (i < 8)%nat) as [Hi|Hi].
  - rewrite list_lookup_fmap, lookup_seq_lt by done. cbn [fmap option_fmap option_map].
    rewrite Z.lxor_spec, Z.pow2_bits_eqb by lia. destruct (decide (i = j)) as [->|Hne].
    + rewrite list_lookup_alter_eq, list_lookup_fmap, lookup_seq_lt by done.
      cbn [fmap option_fmap option_map]. by rewrite Z.eqb_refl, xorb_true_r.
    + rewrite list_lookup_alter_ne, list_lookup_fmap, lookup_seq_lt by done.
      cbn [fmap option_fmap option_map]. by rewrite (proj2 (Z.eqb_neq _ _)), xorb_false_r by lia.
  - rewrite !lookup_ge_None_2; [done| |]; rewrite ?length_alter, length_fmap, length_seq; lia.
Qed.

Lemma bits_flip p l : bits (flip_bit p l) = alter negb p (bits l).
Proof.
  unfold flip_bit. revert p. induction l as [|x l IH]; intros p; [done|].
  destruct (Nat.lt_ge_cases p 8) as [Hp|Hp].
  - rewrite Nat.div_small, Nat.mod_small by done. cbn [alter list_alter bits mbind list_bind]. unfold bits. cbn [mbind list_bind].
    rewrite byte_bits_flip, alter_app_l by done. done.
  - assert (p = p - 8 + 1 * 8)%nat as Ep by lia.
    assert (p / 8 = S ((p - 8) / 8))%nat as -> by (rewrite Ep at 1; rewrite Nat.div_add by lia; lia).
    assert (p mod 8 = (p - 8) mod 8)%nat as -> by (rewrite Ep at 1; by rewrite Nat.Div0.mod_add).
    cbn [alter list_alter]. unfold bits in *. cbn [mbind list_bind]. rewrite IH.
    by rewrite alter_app_r_alt by done.
Qed.

Lemma decode_crc_mismatch b0 pre y tail buflen n : b0 <> 0 ->
  n = Z.to_nat (Z.shiftr (Z.land b0 0xf0) 4 / 2) -> length pre = (1 + n)%nat -> (3 + n <= buflen)%nat ->
  Z.land y 0xf <> crc_of 4 3 (bits (b0 :: pre) ++ take 4 (byte_bits y)) ->
  drm_dp_decode_sideband_msg_hdr ((b0 :: pre) ++ y :: tail) buflen = Some None.
Proof.
  intros H0 Hn Hpre Hlen Hy. unfold drm_dp_decode_sideband_msg_hdr.
  change (((b0 :: pre) ++ y :: tail) !! 0%nat) with (Some b0). rewrite bind_some, (proj2 (Z.eqb_neq _ _)) by done.
  rewrite <- Hn, (proj2 (Nat.ltb_ge _ _)) by lia.
  destruct (crc_nibble (b0 :: pre) y tail) as (c & Ec & Hcrc).
  replace (length ((b0 :: pre) ++ [y])) with (3 + n)%nat in Ec by (rewrite length_app; simpl; lia).
  rewrite Ec, bind_some. change (3 + n - 1)%nat with (2 + n)%nat.
  rewrite (list_lookup_middle _ _ y (2 + n)) by (simpl; lia). rewrite bind_some, Hcrc.
  rewrite (proj2 (Z.eqb_neq _ _)) by congruence. done.
Qed.

(** Bits of a header, cut before its last nibble. *)
Lemma header_split (b0 : Z) mid y : length (bits (b0 :: mid)) = (8 * length (b0 :: mid))%nat /\
  take (8 * length (b0 :: mid) + 4) (bits ((b0 :: mid) ++ [y])) = bits (b0 :: mid) ++ take 4 (byte_bits y).
Proof.
  split; [apply bits_length|]. rewrite <- bits_but_nibble. f_equal. rewrite length_app. simpl. lia.
Qed.

Lemma low_nibble_flip y j : 0 <= y < 256 -> (j < 8)%nat ->
  Z.land (Z.lxor y (2 ^ (7 - Z.of_nat j))) 0xf =
  Z.lxor (Z.land y 0xf) (if (j <? 4)%nat then 0 else 2 ^ (7 - Z.of_nat j)).
Proof.
  intros Hy Hj. apply Z.eqb_eq. revert y Hy. apply (below_spec 256).
  do 8 (destruct j as [|j]; [eval_bits|]). lia.
Qed.

Lemma byte0_flip b0 p : 16 <= b0 < 256 -> (4 <= p < 8)%nat ->
  Z.lxor b0 (2 ^ (7 - Z.of_nat p)) <> 0 /\ Z.land (Z.lxor b0 (2 ^ (7 - Z.of_nat p))) 0xf0 = Z.land b0 0xf0.
Proof.
  intros Hb Hp.
  enough (implb (16 <=? b0) (negb (Z.lxor b0 (2 ^ (7 - Z.of_nat p)) =? 0) &&
          (Z.land (Z.lxor b0 (2 ^ (7 - Z.of_nat p))) 0xf0 =? Z.land b0 0xf0)) = true) as H.
  { rewrite (proj2 (Z.leb_le 16 b0)) in H by lia. simpl in H. rewrite andb_true_iff, negb_true_iff, Z.eqb_neq, Z.eqb_eq in H. done. }
  assert (0 <= b0 < 256) as Hb' by lia. clear Hb. revert b0 Hb'. apply (below_spec 256).
  do 8 (destruct p as [|p]; [try lia; eval_bits|]). lia.
Qed.

(** The bytes before the last one: any flip outside the first nibble is noticed. *)
Lemma decode_flip_front b0 mid y tail p buflen n : 16 <= b0 < 256 ->
  n = Z.to_nat (Z.shiftr (Z.land b0 0xf0) 4 / 2) -> length mid = (1 + n)%nat -> (3 + n <= buflen)%nat ->
  Z.land y 0xf = crc_of 4 3 (bits (b0 :: mid) ++ take 4 (byte_bits y)) ->
  (4 <= p < 8 * length (b0 :: mid))%nat ->
  drm_dp_decode_sideband_msg_hdr (flip_bit p (b0 :: mid) ++ y :: tail) buflen = Some None.
Proof.
  intros Hb0 Hn Hmid Hlen Hy Hp.
  assert (Z.land y 0xf <> crc_of 4 3 (bits (flip_bit p (b0 :: mid)) ++ take 4 (byte_bits y))) as Hne.
  { rewrite Hy, bits_flip, <- alter_app_l by (rewrite bits_length; lia).
    intros E. symmetry in E. apply crc4_flip in E; [done|]. rewrite length_app, bits_length. lia. }
  unfold flip_bit in *. destruct (Nat.lt_ge_cases p 8) as [H8|H8].
  - rewrite Nat.div_small, Nat.mod_small in * by lia. cbn [alter list_alter] in *.
    destruct (byte0_flip b0 p Hb0 ltac:(lia)) as [Hz Hl].
    eapply decode_crc_mismatch; [done|by rewrite Hl|done|done|done].
  - destruct (p / 8)%nat as [|i] eqn:Ei; [apply Nat.div_small_iff in Ei; lia|]. cbn [alter list_alter] in *.
    eapply decode_crc_mismatch; [lia|done|by rewrite length_alter|done|done].
Qed.

Lemma decode_flip_last b0 mid y tail j buflen n : b0 <> 0 -> 0 <= y < 256 ->
  n = Z.to_nat (Z.shiftr (Z.land b0 0xf0) 4 / 2) -> length mid = (1 + n)%nat -> (3 + n <= buflen)%nat ->
  Z.land y 0xf = crc_of 4 3 (bits (b0 :: mid) ++ take 4 (byte_bits y)) -> (j < 8)%nat ->
  drm_dp_decode_sideband_msg_hdr ((b0 :: mid) ++ Z.lxor y (2 ^ (7 - Z.of_nat j)) :: tail) buflen = Some None.
Proof.
  intros Hb0 Hy255 Hn Hmid Hlen Hy Hj. eapply decode_crc_mismatch; [done|done|done|done|].
  rewrite low_nibble_flip, byte_bits_flip by done. destruct (Nat.ltb_spec j 4) as [H4|H4].
  - rewrite Z.lxor_0_r, Hy, take_alter, decide_True by done. intros E. symmetry in E.
    rewrite <- alter_app_r in E.
    apply crc4_flip in E; [done|]. rewrite length_app. change (length (take 4 (byte_bits y))) with 4%nat. lia.
  - rewrite take_alter, decide_False, <- Hy by lia. intros E.
    assert (2 ^ (7 - Z.of_nat j) = 0) as E'.
    { apply (f_equal (Z.lxor (Z.land y 15))) in E. by rewrite <- Z.lxor_assoc, !Z.lxor_nilpotent, Z.lxor_0_l in E. }
    pose proof (Z.pow_pos_nonneg 2 (7 - Z.of_nat j) ltac:(lia) ltac:(lia)). lia.
Qed.

(** A header in which one bit other than those of the first nibble, which holds
    its length, is flipped is rejected. *)
Lemma decode_flipped h p tail buflen : hdr_ok h -> (4 <= p < 8 * length (hdr_bytes h))%nat ->
  (length (hdr_bytes h) <= buflen)%nat ->
  drm_dp_decode_sideband_msg_hdr (flip_bit p (hdr_bytes h) ++ tail) buflen = Some None.
Proof.
  intros Hok Hp Hlen. pose proof (hdr_bytes_length h Hok) as HL. rewrite HL in Hlen.
  destruct Hok as (Hl & Hc & Hr & Hb & Hm). set (n := Z.to_nat (lct h / 2)) in *.
  destruct (byte0_fields (lct h) (lcr h) ltac:(lia) ltac:(lia)) as (E0 & _ & E0l & _ & E16).
  destruct (byte2_bits (somt h) (eomt h) (seqno h) _ (hdr_crc_range h)) as (_ & Ey & _ & _ & _ & E2c & E2n).
  fold (hdr_byte0 h) in E0, E0l. fold (hdr_byte2 h) in Ey, E2c, E2n. cbv zeta in *.
  set (y := Z.lor (hdr_byte2 h) (crc_of 4 3 (hdr_bits h))) in *.
  assert (16 <= hdr_byte0 h < 256) as Hb0.
  { pose proof (u8_range (Z.lor (Z.shiftl (Z.land (lct h) 0xf) 4) (Z.land (lcr h) 0xf))) as H8. rewrite E0 in H8.
    unfold is_u8 in H8. fold (hdr_byte0 h) in E16. lia. }
  assert (0 <= y < 256) as Hy by (rewrite <- Ey; apply u8_range).
  assert (Z.land y 0xf = crc_of 4 3 (bits (hdr_byte0 h :: rad h ++ [hdr_byte1 h]) ++ take 4 (byte_bits y))) as Hcrc.
  { rewrite E2c, E2n. done. }
  assert (hdr_bytes h = (hdr_byte0 h :: rad h ++ [hdr_byte1 h]) ++ [y]) as Eh by (unfold hdr_bytes; by app_norm).
  assert (length (rad h ++ [hdr_byte1 h]) = 1 + n)%nat as Hmid by (rewrite length_app; simpl; lia).
  rewrite Eh. destruct (Nat.lt_ge_cases p (8 * length (hdr_byte0 h :: rad h ++ [hdr_byte1 h]))) as [Hf|Hf].
  - unfold flip_bit. rewrite alter_app_l by (apply Nat.Div0.div_lt_upper_bound; lia). rewrite <- app_assoc.
    apply (decode_flip_front _ _ _ _ p _ n); [done|by rewrite E0l|done|done|done|lia].
  - unfold flip_bit. rewrite alter_app_r_alt by (apply Nat.div_le_lower_bound; lia).
    rewrite HL in Hp. simpl length in Hf. rewrite Hmid in Hf.
    assert (p / 8 = 2 + n)%nat as ->.
    { symmetry. apply (Nat.div_unique _ _ _ (p - 8 * (2 + n))); lia. }
    simpl length. rewrite Hmid. replace (2 + n - S (1 + n))%nat with 0%nat by lia. cbn [alter list_alter].
    rewrite <- app_assoc. cbn [app]. rewrite app_comm_cons.
    apply (decode_flip_last _ _ _ _ _ _ n); [lia|done|by rewrite E0l|done|done|done|].
    apply Nat.mod_upper_bound. lia.
Qed.

(** ** A chunk, from the sender to the receiver's buffer *)

Definition crc8 (data : list Z) : Z := crc_of 8 0xd5 (bits data).

(** The destination part of a header. *)
Definition dst_ok (h : drm_dp_sideband_msg_hdr) : Prop :=
  1 <= lct h <= 15 /\ 0 <= lcr h <= 15 /\ length (rad h) = Z.to_nat (lct h / 2) /\ Forall is_u8 (rad h).

(** The header of a chunk that carries [tosend] bytes. *)
Definition chunk_hdr (h : drm_dp_sideband_msg_hdr) (tosend : Z) (first final : bool) : drm_dp_sideband_msg_hdr :=
  {| lct := lct h; lcr := lcr h; rad := rad h; broadcast := broadcast h; path_msg := path_msg h;
     msg_len := tosend + 1; somt := first; eomt := final; seqno := seqno h |}.

Definition chunk_bytes (h : drm_dp_sideband_msg_hdr) (data : list Z) : list Z :=
  hdr_bytes h ++ data ++ [crc8 data].

Lemma half_lct l : 1 <= l <= 15 -> 0 <= l / 2 <= 7.
Proof. intros H. split; [apply Z.div_pos; lia|]. apply Z.lt_succ_r, Z.div_lt_upper_bound; lia. Qed.

Lemma hdr_size_eq h : dst_ok h -> drm_dp_calc_sb_hdr_size h = 3 + lct h / 2.
Proof. intros (Hl & _). pose proof (half_lct _ Hl). apply u8_small. unfold is_u8. lia. Qed.

Lemma crc8_range data : is_u8 (crc8 data).
Proof. unfold is_u8, crc8. apply (crc_of_range 8 0xd5); lia. Qed.

Lemma data_crc_prefix data rest : drm_dp_msg_data_crc4 (data ++ rest) (length data) = Some (crc8 data).
Proof.
  rewrite data_crc4_eq by (rewrite length_app; lia). rewrite bits_app, take_app_le by (rewrite bits_length; lia).
  by rewrite take_ge by (rewrite bits_length; lia).
Qed.

Lemma chunk_hdr_ok h n first final : dst_ok h -> 0 <= n < 63 -> hdr_ok (chunk_hdr h n first final).
Proof. intros (Hl & Hc & Hr & Hb) Hn. repeat split; simpl; try done; lia. Qed.

(** The bytes of the next chunk. *)
Lemma build_chunk_eq chunk h pre data post cur_len :
  length chunk = 48%nat -> dst_ok h -> Forall is_u8 data ->
  let len := cur_len - Z.of_nat (length pre) in
  let space := 44 - lct h / 2 in
  0 <= len -> Z.of_nat (length data) = Z.min len space ->
  build_chunk chunk h (pre ++ data ++ post) cur_len (Z.of_nat (length pre)) =
  Some (chunk_bytes (chunk_hdr h (Z.of_nat (length data)) (len =? cur_len) (len <=? space)) data, Z.of_nat (length data)).
Proof.
  intros Hch Hok Hdata len space Hlen Hd. unfold build_chunk. fold len.
  destruct (Hok) as (Hl & _). pose proof (half_lct _ Hl) as Hh.
  rewrite (hdr_size_eq h Hok). replace (48 - 1 - (3 + lct h / 2)) with space by (unfold space; lia).
  rewrite <- Hd. set (n := length data) in *. rewrite u8_small by (unfold is_u8, space in *; lia).
  fold (chunk_hdr h (Z.of_nat n) (len =? cur_len) (len <=? space)).
  set (h' := chunk_hdr h (Z.of_nat n) (len =? cur_len) (len <=? space)).
  assert (hdr_ok h') as Hok' by (apply chunk_hdr_ok; [done|unfold space in *; lia]).
  set (hl := (3 + Z.to_nat (lct h / 2))%nat).
  rewrite (encode_hdr_eq h' chunk Hok') by (simpl; lia). rewrite bind_some. cbv beta iota.
  change (3 + Z.to_nat (lct h' / 2))%nat with hl.
  rewrite (proj2 (Z.ltb_ge _ _)) by lia. rewrite !Nat2Z.id.
  pose proof (bytes_at_app (length pre) pre data post eq_refl : bytes_at _ n _ = _) as Eb. rewrite Eb, bind_some.
  pose proof (hdr_bytes_length h' Hok') as HL. change (3 + Z.to_nat (lct h' / 2))%nat with hl in HL.
  assert (hl + n + 1 <= 48)%nat as Hfit by (unfold hl, space in *; lia).
  assert (exists mid x tl, drop hl chunk = mid ++ x :: tl /\ length mid = n) as (mid & x & tl & E & Hmid).
  { exists (take n (drop hl chunk)).
    destruct (drop n (drop hl chunk)) as [|x tl] eqn:E; apply (f_equal length) in E as E';
      rewrite !length_drop in E'; simpl in E'; [lia|].
    exists x, tl. rewrite <- E, take_drop. split; [done|]. rewrite length_take, length_drop. lia. }
  rewrite E, (puts_app data hl (hdr_bytes h') mid (x :: tl)), bind_some, map_u8_small by (done || congruence).
  unfold drm_dp_crc_sideband_chunk_req. rewrite <- HL at 1. rewrite drop_app_length.
  pose proof (data_crc_prefix data (x :: tl) : drm_dp_msg_data_crc4 _ n = _) as Ec. rewrite Ec, bind_some, app_assoc.
  rewrite (put_app (hl + n)), bind_some by (rewrite length_app; lia).
  rewrite u8_small by apply crc8_range. f_equal. f_equal. unfold chunk_bytes.
  replace ((hdr_bytes h' ++ data) ++ crc8 data :: tl) with ((hdr_bytes h' ++ data ++ [crc8 data]) ++ tl) by by app_norm.
  replace (hl + n + 1)%nat with (length (hdr_bytes h' ++ data ++ [crc8 data])) by (rewrite !length_app, HL; simpl; fold n; lia).
  by rewrite take_app_length.
Qed.

(** The receiver after a complete chunk. *)
Definition append_data (data : list Z) (m : drm_dp_sideband_msg_rx) : drm_dp_sideband_msg_rx :=
  let c := Z.to_nat (curlen m) in
  {| rx_chunk := rx_chunk m; rx_msg := take c (rx_msg m) ++ data ++ drop (c + length data) (rx_msg m);
     curchunk_len := curchunk_len m; curchunk_idx := curchunk_idx m; curchunk_hdrlen := curchunk_hdrlen m;
     curlen := curlen m + Z.of_nat (length data); have_somt := have_somt m; have_eomt := have_eomt m;
     initial_hdr := initial_hdr m |}.

(** There is room for [n] more bytes. *)
Definition room (m : drm_dp_sideband_msg_rx) (n : nat) : Prop :=
  length (rx_chunk m) = 48%nat /\ length (rx_msg m) = 256%nat /\ 0 <= curlen m /\ curlen m + Z.of_nat n <= 255.

Lemma finish_chunk_done m data c rest :
  rx_chunk m = data ++ c :: rest -> curchunk_len m = Z.of_nat (length data) + 1 ->
  curchunk_idx m = curchunk_len m -> room m (length data) -> Forall is_u8 data ->
  finish_chunk m = Some (append_data data m).
Proof.
  intros Ech Hcl Hci (Hlc & Hlm & Hc0 & Hc) Hb. unfold finish_chunk.
  rewrite Hci, Z.leb_refl, Hcl. replace (Z.of_nat (length data) + 1 - 1) with (Z.of_nat (length data)) by lia.
  assert (length data <= 47)%nat as Hd by (rewrite Ech, length_app in Hlc; simpl in Hlc; lia).
  rewrite (u8_small (Z.of_nat _)) by (unfold is_u8; lia). rewrite Nat2Z.id, Ech, data_crc_prefix, bind_some.
  rewrite (proj2 (Z.ltb_ge _ _)) by lia.
  rewrite (bytes_at_app 0 [] data (c :: rest) eq_refl : bytes_at 0 _ (data ++ c :: rest) = _), bind_some.
  set (k := Z.to_nat (curlen m)).
  assert (rx_msg m = take k (rx_msg m) ++ take (length data) (drop k (rx_msg m)) ++ drop (k + length data) (rx_msg m)) as Em.
  { rewrite <- drop_drop, take_drop, take_drop. done. }
  rewrite Em at 1. rewrite (puts_app data k); [|rewrite length_take; unfold k; lia|rewrite length_take, length_drop; unfold k; lia].
  rewrite bind_some, map_u8_small by done. unfold append_data. fold k. f_equal.
  rewrite u8_small by (unfold is_u8; lia). by rewrite <- Ech, Hcl, Hci, Hcl.
Qed.

Lemma finish_chunk_more m : curchunk_idx m < curchunk_len m -> finish_chunk m = Some m.
Proof. intros H. unfold finish_chunk. by rewrite (proj2 (Z.leb_gt _ _)). Qed.

(** The receiver with the first [idx] bytes of the chunk's payload stored. *)
Definition partial (m : drm_dp_sideband_msg_rx) (payload : list Z) (idx : nat) : Prop :=
  curchunk_len m = Z.of_nat (length payload) /\ curchunk_idx m = Z.of_nat idx /\
  take idx (rx_chunk m) = take idx payload.

(** [m'] is [m] with [data] appended to the message, whatever its chunk buffer holds. *)
Definition received (data : list Z) (m m' : drm_dp_sideband_msg_rx) : Prop :=
  rx_msg m' = rx_msg (append_data data m) /\ curlen m' = curlen m + Z.of_nat (length data) /\
  have_somt m' = have_somt m /\ have_eomt m' = have_eomt m /\ initial_hdr m' = initial_hdr m /\
  length (rx_chunk m') = 48%nat.

Lemma puts_block k block (chunk : list Z) : (k + length block <= length chunk)%nat -> Forall is_u8 block ->
  puts k block chunk = Some (take k chunk ++ block ++ drop (k + length block) chunk).
Proof.
  intros Hk Hb.
  assert (chunk = take k chunk ++ take (length block) (drop k chunk) ++ drop (k + length block) chunk) as E.
  { by rewrite <- drop_drop, take_drop, take_drop. }
  rewrite E at 1. rewrite puts_app; [by rewrite map_u8_small|rewrite length_take; lia|rewrite length_take, length_drop; lia].
Qed.

Lemma bytes_at_sub i n pre l post : (i + n <= length l)%nat ->
  bytes_at (length pre + i) n (pre ++ l ++ post) = Some (take n (drop i l)).
Proof.
  intros H. unfold bytes_at. rewrite (proj2 (Nat.leb_le _ _)) by (rewrite !length_app; lia).
  f_equal. rewrite <- drop_drop, drop_app_length, drop_app_le by lia.
  by rewrite take_app_le by (rewrite length_drop; lia).
Qed.

(** One more piece: the next [len] bytes of the payload. *)
Lemma build_next_ok m data c idx len : room m (length data) -> Forall is_u8 (data ++ [c]) ->
  partial m (data ++ [c]) idx -> (0 < len)%nat -> (idx + len <= length (data ++ [c]))%nat -> (length data <= 47)%nat ->
  exists m', build_next m (take len (drop idx (data ++ [c]))) len = Some (true, m') /\
    if (idx + len =? length (data ++ [c]))%nat then received data m m' 
    else room m' (length data) /\ partial m' (data ++ [c]) (idx + len) /\ rx_msg m' = rx_msg m /\ curlen m' = curlen m /\
         have_somt m' = have_somt m /\ have_eomt m' = have_eomt m /\ initial_hdr m' = initial_hdr m.
Proof.
  intros Hroom Hb (Hcl & Hci & Hch) Hlen Hle Hd. set (payload := data ++ [c]) in *.
  assert (length payload = S (length data)) as HP by (unfold payload; rewrite length_app; simpl; lia).
  set (block := take len (drop idx payload)).
  assert (length block = len) as Hbl by (unfold block; rewrite length_take, length_drop; lia).
  unfold build_next.
  assert (bytes_at 0 len block = Some block) as ->.
  { rewrite <- Hbl. rewrite <- (app_nil_r block) at 2. by apply (bytes_at_app 0 [] block []). }
  destruct Hroom as (Hlc & Hlm & Hc0 & Hc).
  assert (Forall is_u8 block) as Hbb by (unfold block; by apply Forall_take, Forall_drop).
  rewrite bind_some, Hci, Nat2Z.id, puts_block, bind_some by (done || lia).
  rewrite Hbl, Hch. unfold block. rewrite app_assoc, take_take_drop.
  rewrite u8_small by (unfold is_u8; lia).
  set (chunk' := take (idx + len) payload ++ drop (idx + len) (rx_chunk m)).
  assert (length chunk' = 48%nat) as Hch' by (unfold chunk'; rewrite length_app, length_take, length_drop; lia).
  match goal with |- context [finish_chunk ?x] => set (m1 := x) end.
  destruct (Nat.eqb_spec (idx + len) (length payload)) as [E|E].
  - assert (rx_chunk m1 = data ++ c :: drop (idx + len) (rx_chunk m)) as Ech.
    { simpl. unfold chunk'. rewrite take_ge by lia. unfold payload. by app_norm. }
    rewrite (finish_chunk_done m1 data c _ Ech), bind_some; simpl.
    + eexists. split; [reflexivity|]. done.
    + lia.
    + lia.
    + done.
    + by apply Forall_app in Hb as [? _].
  - rewrite finish_chunk_more, bind_some by (simpl; lia). exists m1. split; [done|]. split; [done|].
    split; [|done]. split_and!; [done|simpl; lia|]. simpl. unfold chunk'.
    rewrite take_app_le by (rewrite length_take; lia). by rewrite take_take, Nat.min_id.
Qed.

Lemma received_trans data m m1 m' : room m (length data) ->
  rx_msg m1 = rx_msg m -> curlen m1 = curlen m -> have_somt m1 = have_somt m -> have_eomt m1 = have_eomt m ->
  initial_hdr m1 = initial_hdr m -> received data m1 m' -> received data m m'.
Proof. unfold received, append_data. simpl. intros _ E1 E2 E3 E4 E5. by rewrite E1, E2, E3, E4, E5. Qed.

(** The message area of a device. *)
Definition area_read (area : list Z) (offset len : Z) : option (list Z) :=
  bytes_at (Z.to_nat offset) (Z.to_nat len) area.

Lemma read_rest_ok mtb hdr data c pad fuel : 1 <= mtb -> Forall is_u8 (data ++ [c]) -> (length data <= 47)%nat ->
  forall m idx, room m (length data) -> partial m (data ++ [c]) idx -> (idx < length (data ++ [c]) <= idx + fuel)%nat ->
  exists m', read_rest mtb (area_read (hdr ++ (data ++ [c]) ++ pad)) fuel m (Z.of_nat (length hdr + idx))
               (Z.of_nat (length (data ++ [c])) - Z.of_nat idx) = Some (true, m') /\ received data m m'.
Proof.
  intros Hmtb Hb Hd. induction fuel as [|fuel IH]; intros m idx Hroom Hpart Hidx; [lia|].
  set (payload := data ++ [c]) in *. cbn [read_rest].
  rewrite (proj2 (Z.ltb_lt _ _)) by lia.
  set (lenz := Z.min (Z.min (Z.of_nat (length payload) - Z.of_nat idx) mtb) 16).
  assert (1 <= lenz <= Z.of_nat (length payload) - Z.of_nat idx) as Hlen by (unfold lenz; lia).
  unfold area_read at 1. rewrite Nat2Z.id, bytes_at_sub by lia.
  unfold drm_dp_sideband_msg_build.
  destruct (build_next_ok m data c idx (Z.to_nat lenz) Hroom Hb Hpart ltac:(lia)) as (m1 & Eb & Hm1); [fold payload; lia|done|].
  fold payload in Eb, Hm1. rewrite Eb, bind_some. cbn [negb].
  replace (Z.of_nat (length hdr + idx) + lenz) with (Z.of_nat (length hdr + (idx + Z.to_nat lenz))) by lia.
  replace (Z.of_nat (length payload) - Z.of_nat idx - lenz)
    with (Z.of_nat (length payload) - Z.of_nat (idx + Z.to_nat lenz)) by lia.
  destruct (Nat.eqb_spec (idx + Z.to_nat lenz) (length payload)) as [E|E].
  - exists m1. split; [|done]. rewrite E, Z.sub_diag. by destruct fuel.
  - destruct Hm1 as (Hroom1 & Hpart1 & E1 & E2 & E3 & E4 & E5).
    destruct (IH m1 (idx + Z.to_nat lenz)%nat Hroom1 Hpart1 ltac:(lia)) as (m' & -> & Hrec).
    exists m'. split; [done|]. by apply (received_trans data m m1).
Qed.

Lemma read_rest_done mtb read fuel m cur n : n <= 0 -> read_rest mtb read fuel m cur n = Some (true, m).
Proof. intros H. destruct fuel; cbn [read_rest]; by rewrite (proj2 (Z.ltb_ge _ _)). Qed.

(** The first piece. *)
Lemma build_first_ok m h data c len0 pad : hdr_ok h -> room m (length data) -> Forall is_u8 (data ++ [c]) ->
  (length data <= 47)%nat -> msg_len h = Z.of_nat (length (data ++ [c])) -> have_somt m = negb (somt h) ->
  (length (hdr_bytes h) <= len0 <= 16)%nat -> (len0 <= length (hdr_bytes h ++ (data ++ [c]) ++ pad))%nat ->
  let m0 := {| rx_chunk := rx_chunk m; rx_msg := rx_msg m; curchunk_len := curchunk_len m; curchunk_idx := curchunk_idx m;
               curchunk_hdrlen := curchunk_hdrlen m; curlen := curlen m; have_somt := true;
               have_eomt := eomt h || have_eomt m; initial_hdr := if somt h then Some h else initial_hdr m |} in
  let idx := Nat.min (length (data ++ [c])) (len0 - length (hdr_bytes h)) in
  exists m', build_first m (take len0 (hdr_bytes h ++ (data ++ [c]) ++ pad)) len0 = Some (true, m') /\
    curchunk_len m' = msg_len h /\ curchunk_hdrlen m' = Z.of_nat (length (hdr_bytes h)) /\
    if (idx =? length (data ++ [c]))%nat then received data m0 m'
    else room m' (length data) /\ partial m' (data ++ [c]) idx /\ rx_msg m' = rx_msg m0 /\ curlen m' = curlen m0 /\
         have_somt m' = have_somt m0 /\ have_eomt m' = have_eomt m0 /\ initial_hdr m' = initial_hdr m0.
Proof.
  intros Hok Hroom Hb Hd Hml Hsomt Hlen0 Harea m0 idx. set (payload := data ++ [c]) in *.
  assert (length payload = S (length data)) as HP by (unfold payload; rewrite length_app; simpl; lia).
  set (hl := length (hdr_bytes h)) in *.
  unfold build_first. rewrite take_app_ge by (fold hl; lia). fold hl.
  rewrite decode_hdr_eq, bind_some by (done || lia). fold hl. cbv beta iota.
  rewrite Hsomt, negb_involutive, andb_negb_l, andb_negb_r.
  replace (u8 (Z.of_nat len0 - Z.of_nat hl)) with (Z.of_nat (len0 - hl)) by (rewrite u8_small; [lia|unfold is_u8; lia]).
  rewrite Hml. replace (Z.min (Z.of_nat (length payload)) (Z.of_nat (len0 - hl))) with (Z.of_nat idx) by (unfold idx; lia).
  rewrite Nat2Z.id.
  assert (bytes_at hl idx (hdr_bytes h ++ take (len0 - hl) (payload ++ pad)) = Some (take idx payload)) as ->.
  { replace (take (len0 - hl) (payload ++ pad)) with (take idx payload ++ drop idx (take (len0 - hl) (payload ++ pad))).
    - replace idx with (length (take idx payload)) at 1 by (rewrite length_take; unfold idx; lia). by apply bytes_at_app.
    - rewrite <- (take_drop idx (take (len0 - hl) (payload ++ pad))) at 2. f_equal.
      rewrite take_take, Nat.min_l by (unfold idx; lia). rewrite take_app_le by (unfold idx; lia). done. }
  destruct Hroom as (Hlc & Hlm & Hc0 & Hc).
  rewrite bind_some, puts_block, bind_some; [|rewrite length_take; lia|by apply Forall_take].
  rewrite take_0. cbn [app]. replace (0 + length (take idx payload))%nat with idx by (rewrite length_take; unfold idx; lia).
  set (chunk' := take idx payload ++ drop idx (rx_chunk m)).
  assert (length chunk' = 48%nat) as Hch' by (unfold chunk'; rewrite length_app, length_take, length_drop; unfold idx; lia).
  replace (somt h || negb (somt h)) with true by by destruct (somt h).
  match goal with |- context [finish_chunk ?x] => set (m1 := x) end.
  destruct (Nat.eqb_spec idx (length payload)) as [E|E].
  - assert (rx_chunk m1 = data ++ c :: drop idx (rx_chunk m)) as Ech.
    { simpl. unfold chunk'. rewrite take_ge by lia. unfold payload. by app_norm. }
    rewrite (finish_chunk_done m1 data c _ Ech), bind_some; [|simpl; lia|simpl; lia|done|by apply Forall_app in Hb as [? _]].
    eexists. split_and!; [reflexivity|done..].
  - assert (idx <= length payload)%nat by (unfold idx; lia).
    rewrite finish_chunk_more, bind_some by (simpl; lia). exists m1. split_and!; try done.
    split_and!; [done|done|]. simpl. unfold chunk'. rewrite take_app_le by (rewrite length_take; lia). by rewrite take_take, Nat.min_id.
Qed.

(** One call of [drm_dp_get_one_sb_msg] takes in one chunk, whatever its
    last byte, the CRC, is. *)
Lemma get_one_sb_msg_any_crc mtb m h data c pad : is_u8 c -> 10 <= mtb -> dst_ok h -> room m (length data) -> Forall is_u8 data ->
  (length data <= 44 - Z.to_nat (lct h / 2))%nat -> have_somt m = negb (somt h) -> (16 <= length pad)%nat ->
  msg_len h = Z.of_nat (length data) + 1 ->
  exists m', drm_dp_get_one_sb_msg mtb (area_read (hdr_bytes h ++ data ++ c :: pad)) m = Some (true, m') /\
    room m' 0 /\ curlen m' = curlen m + Z.of_nat (length data) /\
    rx_msg m' = take (Z.to_nat (curlen m)) (rx_msg m) ++ data ++ drop (Z.to_nat (curlen m) + length data) (rx_msg m) /\
    have_somt m' = true /\ have_eomt m' = eomt h || have_eomt m /\
    initial_hdr m' = if somt h then Some h else initial_hdr m.
Proof.
  intros Hcb Hmtb Hdst Hroom Hb Hd Hsomt Hpad Hml. destruct Hdst as (Hl & Hc & Hr & Hrb). pose proof (half_lct _ Hl) as Hh.
  assert (hdr_ok h) as Hok by (repeat split; try done; lia).
  pose proof (hdr_bytes_length h Hok) as HL. set (payload := data ++ [c]).
  assert (Forall is_u8 payload) as Hbp by (apply Forall_app; split; [done|]; constructor; [done|done]).
  assert (length payload = S (length data)) as HP by (unfold payload; rewrite length_app; simpl; lia).
  assert (hdr_bytes h ++ data ++ c :: pad = hdr_bytes h ++ payload ++ pad) as Ea by (unfold payload; by app_norm).
  rewrite Ea. unfold drm_dp_get_one_sb_msg. set (lenz := Z.min mtb 16). set (len0 := Z.to_nat lenz).
  assert (length (hdr_bytes h) <= len0 <= 16)%nat as Hlen0 by (unfold len0, lenz; lia).
  assert (len0 <= length (hdr_bytes h ++ payload ++ pad))%nat as Harea by (rewrite !length_app; lia).
  unfold area_read at 1. fold len0. change (Z.to_nat 0) with 0%nat. unfold bytes_at at 1.
  rewrite (proj2 (Nat.leb_le _ _)) by lia. rewrite drop_0. unfold drm_dp_sideband_msg_build at 1.
  destruct (build_first_ok m h data c len0 pad Hok Hroom Hbp ltac:(lia) ltac:(fold payload; lia) Hsomt Hlen0 Harea)
    as (m1 & Eb & Ecl & Ehl & Hm1). fold payload in Eb, Hm1. rewrite Eb, bind_some. cbn [negb]. rewrite Ecl, Ehl.
  set (m0 := Build_drm_dp_sideband_msg_rx _ _ _ _ _ _ _ _ _) in Hm1.
  set (idx := Nat.min (length payload) (len0 - length (hdr_bytes h))) in Hm1.
  assert (exists m', read_rest mtb (area_read (hdr_bytes h ++ payload ++ pad)) (Z.to_nat (msg_len h + Z.of_nat (length (hdr_bytes h)))) m1 lenz
            (msg_len h + Z.of_nat (length (hdr_bytes h)) - lenz) = Some (true, m') /\ received data m0 m') as (m' & E & Hrec).
  { destruct (Nat.eqb_spec idx (length payload)) as [E|E].
    - exists m1. split; [|done]. apply read_rest_done. unfold idx, len0 in *. lia.
    - destruct Hm1 as (Hroom1 & Hpart1 & E1 & E2 & E3 & E4 & E5).
      destruct (read_rest_ok mtb (hdr_bytes h) data c pad (Z.to_nat (msg_len h + Z.of_nat (length (hdr_bytes h)))) ltac:(lia) Hbp ltac:(lia)
        m1 idx Hroom1 Hpart1) as (m' & Er & Hrec); [fold payload; unfold idx in *; lia|]. fold payload in Er.
      exists m'. split.
      + rewrite <- Er. f_equal; unfold idx, len0 in *; lia.
      + apply (received_trans data m0 m1); try done. }
  exists m'. split; [done|]. destruct Hrec as (R1 & R2 & R3 & R4 & R5 & R6). simpl in *.
  destruct Hroom as (Hlc & Hlm & Hc0 & Hcc).
  split_and!; try done. split_and!; [done| |lia|lia]. rewrite R1, !length_app, length_take, length_drop. lia.
Qed.

Lemma get_one_sb_msg_ok mtb m h data pad : 10 <= mtb -> dst_ok h -> room m (length data) -> Forall is_u8 data ->
  (length data <= 44 - Z.to_nat (lct h / 2))%nat -> have_somt m = negb (somt h) -> (16 <= length pad)%nat ->
  msg_len h = Z.of_nat (length data) + 1 ->
  exists m', drm_dp_get_one_sb_msg mtb (area_read (chunk_bytes h data ++ pad)) m = Some (true, m') /\
    room m' 0 /\ curlen m' = curlen m + Z.of_nat (length data) /\
    rx_msg m' = take (Z.to_nat (curlen m)) (rx_msg m) ++ data ++ drop (Z.to_nat (curlen m) + length data) (rx_msg m) /\
    have_somt m' = true /\ have_eomt m' = eomt h || have_eomt m /\
    initial_hdr m' = if somt h then Some h else initial_hdr m.
Proof.
  intros. unfold chunk_bytes. rewrite <- !app_assoc. apply get_one_sb_msg_any_crc; [apply crc8_range|done..].
Qed.

(** ** Whole messages *)

(** The chunks of a message, from offset [cur_offset] on: [process_single_tx_qlock]
    until the message is sent.  [chunk] is what the stack holds before a chunk is
    filled in. *)
Fixpoint send_chunks (fuel : nat) (chunk : buf) (hdr : drm_dp_sideband_msg_hdr) (msg : list Z) (cur_len cur_offset : Z)
    : option (list (list Z)) :=
  match fuel with
  | O => None
  | S fuel' =>
    '(c, tosend) ← build_chunk chunk hdr msg cur_len cur_offset;
    let cur_offset := u8 (cur_offset + tosend) in
    if cur_offset =? cur_len then Some [c]
    else cs ← send_chunks fuel' chunk hdr msg cur_len cur_offset; Some (c :: cs)
  end.

(** The receiver, chunk by chunk; the end of the message is seen with the last
    chunk and not before. *)
Fixpoint receive_chunks (mtb : Z) (pad : list Z) (chunks : list (list Z)) (m : drm_dp_sideband_msg_rx)
    : option drm_dp_sideband_msg_rx :=
  match chunks with
  | [] => Some m
  | c :: cs =>
    '(ok, m) ← drm_dp_get_one_sb_msg mtb (area_read (c ++ pad)) m;
    if ok && eqb (have_eomt m) (bool_decide (cs = [])) then receive_chunks mtb pad cs m else None
  end.

Lemma send_receive mtb pad chunk h msg junk fuel : 10 <= mtb -> (16 <= length pad)%nat -> length chunk = 48%nat ->
  dst_ok h -> Forall is_u8 msg -> (0 < length msg <= 255)%nat ->
  forall off m, (off < length msg <= off + fuel)%nat ->
  room m (length msg - off) -> curlen m = Z.of_nat off -> take off (rx_msg m) = take off msg ->
  have_somt m = bool_decide (off <> 0%nat) -> have_eomt m = false ->
  exists chunks m', send_chunks fuel chunk h (msg ++ junk) (Z.of_nat (length msg)) (Z.of_nat off) = Some chunks /\
    Forall (fun c => (length c <= 48)%nat) chunks /\
    receive_chunks mtb pad chunks m = Some m' /\ have_eomt m' = true /\ curlen m' = Z.of_nat (length msg) /\
    take (length msg) (rx_msg m') = msg /\
    (off <> 0%nat -> initial_hdr m' = initial_hdr m) /\
    (off = 0%nat -> exists n final, initial_hdr m' = Some (chunk_hdr h n true final)).
Proof.
  intros Hmtb Hpad Hchunk Hdst Hb Hlen. induction fuel as [|fuel IH]; intros off m Hoff Hroom Hcur Hmsg Hs He; [lia|].
  destruct (Hdst) as (Hl & _). pose proof (half_lct _ Hl) as Hh.
  set (space := (44 - Z.to_nat (lct h / 2))%nat). set (data := take space (drop off msg)).
  assert (length data = Nat.min space (length msg - off)) as Hd by (unfold data; rewrite length_take, length_drop; lia).
  assert (Forall is_u8 data) as Hbd by by apply Forall_take, Forall_drop.
  assert (length (take off msg) = off) as Hpre by (rewrite length_take; lia).
  pose proof (build_chunk_eq chunk h (take off msg) data (drop (off + length data) msg ++ junk) (Z.of_nat (length msg)) Hchunk Hdst Hbd) as Ec.
  cbv zeta in Ec. rewrite Hpre in Ec. specialize (Ec ltac:(lia) ltac:(lia)).
  replace (take off msg ++ data ++ drop (off + length data) msg ++ junk) with (msg ++ junk) in Ec.
  2: { unfold data at 1. rewrite Hd. rewrite !app_assoc. f_equal.
       destruct (Nat.le_ge_cases space (length msg - off)) as [H|H].
       - rewrite Nat.min_l by lia. rewrite <- (take_drop off msg) at 1. rewrite <- app_assoc. f_equal.
         by rewrite <- drop_drop, take_drop.
       - rewrite Nat.min_r by lia. rewrite (drop_ge msg (off + (length msg - off))), app_nil_r by lia. rewrite (take_ge (drop off msg) space) by (rewrite length_drop; lia). by rewrite take_drop. }
  cbn [send_chunks]. rewrite Ec, bind_some. cbv beta iota. rewrite u8_small by (unfold is_u8; lia).
  set (first := Z.of_nat (length msg) - Z.of_nat off =? Z.of_nat (length msg)) in *.
  set (final := Z.of_nat (length msg) - Z.of_nat off <=? 44 - lct h / 2) in *.
  set (h' := chunk_hdr h (Z.of_nat (length data)) first final) in *.
  assert (first = bool_decide (off = 0%nat)) as Hfirst.
  { unfold first. destruct (Z.eqb_spec (Z.of_nat (length msg) - Z.of_nat off) (Z.of_nat (length msg))); symmetry;
      [apply bool_decide_eq_true|apply bool_decide_eq_false]; lia. }
  destruct (get_one_sb_msg_ok mtb m h' data pad Hmtb) as (m1 & Eg & Hroom1 & Hc1 & Hm1 & Hs1 & He1 & Hi1); [done| |done| | |done|done|].
  { destruct Hroom as (? & ? & ? & ?). repeat split; try done; lia. }
  { simpl. lia. }
  { simpl. rewrite Hs, Hfirst. by repeat case_bool_decide. }
  simpl in He1, Hi1. rewrite He, orb_false_r in He1.
  assert (length (chunk_bytes h' data) <= 48)%nat as Hcl.
  { unfold chunk_bytes. rewrite !length_app, hdr_bytes_length by (apply chunk_hdr_ok; [done|lia]). simpl. lia. }
  assert (take (off + length data) (rx_msg m1) = take (off + length data) msg) as Htake.
  { rewrite Hm1, Hcur, Nat2Z.id, Hmsg, app_assoc.
    rewrite take_app_le by (rewrite length_app, Hpre; lia). rewrite take_ge by (rewrite length_app, Hpre; lia).
    unfold data at 1. rewrite Hd. destruct (Nat.le_ge_cases space (length msg - off)) as [H|H].
    - rewrite Nat.min_l by lia. apply take_take_drop.
    - rewrite Nat.min_r by lia. rewrite (take_ge (drop off msg)) by (rewrite length_drop; lia). rewrite take_drop.
      by rewrite take_ge by lia. }
  destruct final eqn:Efin.
  - assert (off + length data = length msg)%nat as Ef by (apply Z.leb_le in Efin; lia).
    rewrite (proj2 (Z.eqb_eq _ _)) by lia. exists [chunk_bytes h' data], m1. split; [done|].
    split; [by constructor; [|constructor]|]. cbn [receive_chunks]. rewrite Eg, bind_some, He1. cbn [andb eqb].
    rewrite bool_decide_true by done. split_and!; [done|done|lia| | |].
    + rewrite <- Ef, Htake, Ef. by apply take_ge.
    + intros Hne. rewrite Hi1, Hfirst, bool_decide_false by done. done.
    + intros Heq. unfold h' in Hi1. rewrite Hfirst, bool_decide_true in Hi1 by done. eauto.
  - assert (off + length data < length msg)%nat as Ef by (apply Z.leb_gt in Efin; lia).
    rewrite (proj2 (Z.eqb_neq _ _)) by lia.
    assert (0 < length data)%nat as Hd0 by lia.
    destruct (IH (off + length data)%nat m1) as (cs & m' & Es & Hcs & Hr & He' & Hc' & Ht' & Hi' & _).
    { lia. }
    { destruct Hroom as (? & ? & ? & ?), Hroom1 as (? & ? & ? & ?). split_and!; try done; lia. }
    { lia. }
    { done. }
    { rewrite Hs1. symmetry. apply bool_decide_eq_true. lia. }
    { done. }
    rewrite Nat2Z.inj_add in Es. rewrite Es, bind_some. exists (chunk_bytes h' data :: cs), m'. split; [done|].
    split; [by constructor|]. cbn [receive_chunks]. rewrite Eg, bind_some, He1. cbn [andb eqb].
    assert (cs <> []) as Hne by (intros ->; simpl in Hr; congruence).
    rewrite bool_decide_false by done. cbn [negb]. specialize (Hi' ltac:(lia)).
    split_and!; [done..| |].
    + intros Ho. rewrite Hi', Hi1, Hfirst, bool_decide_false by done. done.
    + intros Ho. unfold h' in Hi1. rewrite Hfirst, bool_decide_true in Hi1 by done. rewrite Hi', Hi1. eauto.
Qed.

(** ** Theorems *)

(** A sideband header that [drm_dp_encode_sideband_msg_hdr] writes is read back
    unchanged by [drm_dp_decode_sideband_msg_hdr], and the CRC works: the same
    header with any single bit flipped, outside the nibble that determines its
    length, is rejected. *)
Theorem drm_dp_sideband_hdr_protected h b tail buflen : hdr_ok h -> (10 <= length b)%nat -> (10 <= buflen)%nat ->
  exists w rest len, drm_dp_encode_sideband_msg_hdr h b = Some (w ++ rest, len) /\ len = length w /\
    drm_dp_decode_sideband_msg_hdr (w ++ tail) buflen = Some (Some (h, len)) /\
    forall p, (4 <= p < 8 * len)%nat -> drm_dp_decode_sideband_msg_hdr (flip_bit p w ++ tail) buflen = Some None.
Proof.
  intros Hok Hb Hbuf. pose proof (hdr_bytes_length h Hok) as HL.
  destruct (Hok) as (Hl & _). pose proof (half_lct _ Hl) as Hh.
  exists (hdr_bytes h), (drop (3 + Z.to_nat (lct h / 2)) b), (3 + Z.to_nat (lct h / 2))%nat.
  rewrite encode_hdr_eq by (done || lia). split_and!; [done|done| |].
  - rewrite <- HL. apply decode_hdr_eq; [done|lia].
  - intros p Hp. apply decode_flipped; [done|lia|lia].
Qed.

(** C8: a message of up to 255 bytes, split into chunks of at most 48 bytes for any
    destination, is put together again by the receiver, for every transfer size
    from ten bytes on: the end of the message is seen with its last chunk and not
    before, the bytes are the same and the header names the sender. *)
Theorem drm_dp_sideband_round_trip mtb pad chunk h msg junk :
  10 <= mtb -> (16 <= length pad)%nat -> length chunk = 48%nat -> dst_ok h -> Forall is_u8 msg ->
  (0 < length msg <= 255)%nat ->
  exists chunks m hdr, send_chunks (length msg) chunk h (msg ++ junk) (Z.of_nat (length msg)) 0 = Some chunks /\
    Forall (fun c => (length c <= 48)%nat) chunks /\ receive_chunks mtb pad chunks rx_zero = Some m /\
    have_eomt m = true /\ take (Z.to_nat (curlen m)) (rx_msg m) = msg /\ initial_hdr m = Some hdr /\
    lct hdr = lct h /\ rad hdr = rad h /\ seqno hdr = seqno h /\ broadcast hdr = broadcast h.
Proof.
  intros Hmtb Hpad Hch Hdst Hb Hlen.
  destruct (send_receive mtb pad chunk h msg junk (length msg) Hmtb Hpad Hch Hdst Hb Hlen 0 rx_zero)
    as (cs & m & Es & Hcs & Hr & He & Hc & Ht & _ & Hi); [lia| |done..|].
  { split_and!; [done|done|simpl; lia|simpl; lia]. }
  destruct (Hi eq_refl) as (n & final & Eh). exists cs, m, (chunk_hdr h n true final).
  rewrite Hc, Nat2Z.id. done.
Qed.

(** The receiver does not check the CRC of the data: a chunk is accepted, and its
    data stored, for every value of the CRC byte. *)
Theorem drm_dp_data_crc_ignored mtb m h data c pad :
  is_u8 c -> 10 <= mtb -> dst_ok h -> room m (length data) -> Forall is_u8 data ->
  (length data <= 44 - Z.to_nat (lct h / 2))%nat -> have_somt m = negb (somt h) -> (16 <= length pad)%nat ->
  msg_len h = Z.of_nat (length data) + 1 ->
  exists m', drm_dp_get_one_sb_msg mtb (area_read (hdr_bytes h ++ data ++ c :: pad)) m = Some (true, m') /\
    rx_msg m' = take (Z.to_nat (curlen m)) (rx_msg m) ++ data ++ drop (Z.to_nat (curlen m) + length data) (rx_msg m).
Proof.
  intros. destruct (get_one_sb_msg_any_crc mtb m h data c pad) as (m' & E & _ & _ & Em & _); try done. eauto.
Qed.

Definition sample_hdr : drm_dp_sideband_msg_hdr :=
  {| lct := 3; lcr := 2; rad := [0x21]; broadcast := false; path_msg := true; msg_len := 5;
     somt := true; eomt := true; seqno := true |}.

Definition sample_msg : list Z := map Z.of_nat (seq 1 100).

Lemma sample_hdr_ok : hdr_ok sample_hdr.
Proof. repeat split; simpl; try lia. repeat constructor; lia. Qed.

Lemma drm_dp_sideband_hdr_protected_witness :
  exists w rest len, drm_dp_encode_sideband_msg_hdr sample_hdr (replicate 48 0) = Some (w ++ rest, len) /\ len = length w /\
    drm_dp_decode_sideband_msg_hdr (w ++ []) 16 = Some (Some (sample_hdr, len)) /\
    forall p, (4 <= p < 8 * len)%nat -> drm_dp_decode_sideband_msg_hdr (flip_bit p w ++ []) 16 = Some None.
Proof.
  apply (drm_dp_sideband_hdr_protected sample_hdr (replicate 48 0) [] 16); [apply sample_hdr_ok|simpl; lia..].
Defined.

Lemma drm_dp_sideband_round_trip_witness :
  exists chunks m hdr, send_chunks 100 (replicate 48 0) sample_hdr (sample_msg ++ []) 100 0 = Some chunks /\
    Forall (fun c => (length c <= 48)%nat) chunks /\ receive_chunks 16 (replicate 16 0) chunks rx_zero = Some m /\
    have_eomt m = true /\ take (Z.to_nat (curlen m)) (rx_msg m) = sample_msg /\ initial_hdr m = Some hdr /\
    lct hdr = 3 /\ rad hdr = [0x21] /\ seqno hdr = true /\ broadcast hdr = false.
Proof.
  apply (drm_dp_sideband_round_trip 16 (replicate 16 0) (replicate 48 0) sample_hdr sample_msg []);
    [lia|simpl; lia|done|destruct sample_hdr_ok as (? & ? & ? & ? & _); done| |simpl; lia].
  apply Forall_forall. intros x Hx. apply list_elem_of_fmap in Hx as (k & -> & Hk). apply elem_of_seq in Hk. unfold is_u8. lia.
Defined.

Lemma drm_dp_data_crc_ignored_witness :
  exists m', drm_dp_get_one_sb_msg 16 (area_read (hdr_bytes sample_hdr ++ [1; 2; 3; 4] ++ 0 :: replicate 16 0)) rx_zero = Some (true, m') /\
    rx_msg m' = take 0 (rx_msg rx_zero) ++ [1; 2; 3; 4] ++ drop 4 (rx_msg rx_zero).
Proof.
  apply (drm_dp_data_crc_ignored 16 rx_zero sample_hdr [1; 2; 3; 4] 0 (replicate 16 0));
    [unfold is_u8; lia|lia|destruct sample_hdr_ok as (? & ? & ? & ? & _); done|split_and!; simpl; lia|
     repeat constructor; lia|simpl; lia|done|simpl; lia|done].
Defined.
