(* ===== verification/DpReq.v ===== *)
(** * DisplayPort MST requests and replies ([drm_dp_mst_topology.c])

    The bodies of the sideband messages: requests the driver encodes, replies and
    notifications it parses.  The union of a body is an inductive type whose
    constructors are the members the code selects by [req_type].  The buffers are
    the 256 bytes of [drm_dp_sideband_msg_tx.msg] and [drm_dp_sideband_msg_rx.msg];
    an access outside them is [None].

    Theorems: every request that fits is read back from its encoding; the parsers
    of replies invert the wire format, except the two that do not; a list of four
    I2C transactions is sent as an empty one. *)

From S2P Require Import Prelude Bytes DpMsg.
From stdpp Require Import base gmap list option sets.
From Stdlib Require Import ZArith Lia.

#[local] Set Warnings "-clear-no-such-hyp".

#[local] Open Scope Z_scope.

(** ** Requests *)

Definition DP_LINK_ADDRESS : Z := 0x01.
Definition DP_CONNECTION_STATUS_NOTIFY : Z := 0x02.
Definition DP_ENUM_PATH_RESOURCES : Z := 0x10.
Definition DP_ALLOCATE_PAYLOAD : Z := 0x11.
Definition DP_QUERY_PAYLOAD : Z := 0x12.
Definition DP_RESOURCE_STATUS_NOTIFY : Z := 0x13.
Definition DP_REMOTE_DPCD_READ : Z := 0x20.
Definition DP_REMOTE_DPCD_WRITE : Z := 0x21.
Definition DP_REMOTE_I2C_READ : Z := 0x22.
Definition DP_REMOTE_I2C_WRITE : Z := 0x23.
Definition DP_POWER_UP_PHY : Z := 0x24.
Definition DP_POWER_DOWN_PHY : Z := 0x25.

Record i2c_transaction := {
  i2c_dev_id : Z; i2c_num_bytes : Z; i2c_bytes : list Z; no_stop_bit : Z; i2c_transaction_delay : Z
}.

Inductive drm_dp_sideband_msg_req_body :=
| req_link_address
| req_enum_path_resources (port_number : Z)
| req_allocate_payload (port_number number_sdp_streams vcpi pbn : Z) (sdp_stream_sink : list Z)
| req_query_payload (port_number vcpi : Z)
| req_dpcd_read (port_number dpcd_address num_bytes : Z)
| req_dpcd_write (port_number dpcd_address num_bytes : Z) (bytes : list Z)
| req_i2c_read (num_transactions port_number : Z) (transactions : list i2c_transaction)
    (read_i2c_device_id num_bytes_read : Z)
| req_i2c_write (port_number write_i2c_device_id num_bytes : Z) (bytes : list Z)
| req_power_down_phy (port_number : Z)
| req_power_up_phy (port_number : Z).

Definition req_type (req : drm_dp_sideband_msg_req_body) : Z :=
  match req with
  | req_link_address => DP_LINK_ADDRESS
  | req_enum_path_resources _ => DP_ENUM_PATH_RESOURCES
  | req_allocate_payload _ _ _ _ _ => DP_ALLOCATE_PAYLOAD
  | req_query_payload _ _ => DP_QUERY_PAYLOAD
  | req_dpcd_read _ _ _ => DP_REMOTE_DPCD_READ
  | req_dpcd_write _ _ _ _ => DP_REMOTE_DPCD_WRITE
  | req_i2c_read _ _ _ _ _ => DP_REMOTE_I2C_READ
  | req_i2c_write _ _ _ _ => DP_REMOTE_I2C_WRITE
  | req_power_down_phy _ => DP_POWER_DOWN_PHY
  | req_power_up_phy _ => DP_POWER_UP_PHY
  end.

(** [buf[idx++] = v] for a sequence of values. *)
Definition emit (vs : list Z) (s : buf * nat) : option (buf * nat) :=
  b ← puts s.2 vs s.1; Some (b, (s.2 + length vs)%nat).

Definition port_nibble (port_number : Z) : Z := Z.shiftl (Z.land port_number 0xf) 4.

(** The loop over pairs of stream sinks, and the odd last one. *)
Fixpoint emit_sink_pairs (i n : nat) (sink : list Z) (s : buf * nat) : option (buf * nat) :=
  match n with
  | O => Some s
  | S n' =>
    x ← sink !! (i * 2)%nat; y ← sink !! (i * 2 + 1)%nat;
    s ← emit [Z.lor (Z.shiftl (Z.land x 0xf) 4) (Z.land y 0xf)] s;
    emit_sink_pairs (S i) n' sink s
  end.

Definition emit_sinks (n : Z) (sink : list Z) (s : buf * nat) : option (buf * nat) :=
  s ← emit_sink_pairs 0 (Z.to_nat (n / 2)) sink s;
  if negb (Z.land n 1 =? 0) then
    x ← sink !! Z.to_nat (n - 1); emit [Z.shiftl (Z.land x 0xf) 4] s
  else Some s.

(** The three bytes of a DPCD address, the first shared with the port number. *)
Definition address_bytes (port_number address : Z) : list Z :=
  [Z.lor (port_nibble port_number) (Z.land (Z.shiftr (Z.land address 0xf0000) 16) 0xf);
   Z.shiftr (Z.land address 0xff00) 8; Z.land address 0xff].

Fixpoint emit_transactions (i n : nat) (ts : list i2c_transaction) (s : buf * nat) : option (buf * nat) :=
  match n with
  | O => Some s
  | S n' =>
    t ← ts !! i;
    s ← emit [Z.land (i2c_dev_id t) 0x7f; i2c_num_bytes t] s;
    bs ← bytes_at 0 (Z.to_nat (i2c_num_bytes t)) (i2c_bytes t);
    s ← emit bs s;
    s ← emit [Z.lor (Z.shiftl (Z.land (no_stop_bit t) 0x1) 5) (Z.land (i2c_transaction_delay t) 0xf)] s;
    emit_transactions (S i) n' ts s
  end.

(** Returns [raw->msg] and [raw->cur_len]. *)
Definition drm_dp_encode_sideband_req (req : drm_dp_sideband_msg_req_body) (msg : buf) : option (buf * Z) :=
  s ← emit [Z.land (req_type req) 0x7f] (msg, 0%nat);
  s ← match req with
      | req_link_address => Some s
      | req_enum_path_resources port => emit [port_nibble port] s
      | req_allocate_payload port n vcpi pbn sink =>
        s ← emit [Z.lor (port_nibble port) (Z.land n 0xf); Z.land vcpi 0x7f; Z.shiftr pbn 8; Z.land pbn 0xff] s;
        emit_sinks n sink s
      | req_query_payload port vcpi => emit [port_nibble port; Z.land vcpi 0x7f] s
      | req_dpcd_read port addr n => emit (address_bytes port addr ++ [n]) s
      | req_dpcd_write port addr n bytes =>
        s ← emit (address_bytes port addr ++ [n]) s;
        bs ← bytes_at 0 (Z.to_nat n) bytes;
        emit bs s
      | req_i2c_read n port ts dev nread =>
        s ← emit [Z.lor (port_nibble port) (Z.land n 0x3)] s;
        s ← emit_transactions 0 (Z.to_nat (Z.land n 0x3)) ts s;
        emit [Z.land dev 0x7f; nread] s
      | req_i2c_write port dev n bytes =>
        s ← emit [port_nibble port; Z.land dev 0x7f; n] s;
        bs ← bytes_at 0 (Z.to_nat n) bytes;
        emit bs s
      | req_power_down_phy port => emit [port_nibble port] s
      | req_power_up_phy port => emit [port_nibble port] s
      end;
  Some (s.1, u8 (Z.of_nat s.2)).

(** ** Replies *)

Record drm_dp_link_addr_reply_port := {
  input_port : bool; peer_device_type : Z; port_number : Z; mcs : bool; ddps : bool;
  legacy_device_plug_status : bool; dpcd_revision : Z; peer_guid : list Z; num_sdp_streams : Z;
  num_sdp_stream_sinks : Z
}.

Definition port_zero : drm_dp_link_addr_reply_port :=
  {| input_port := false; peer_device_type := 0; port_number := 0; mcs := false; ddps := false;
     legacy_device_plug_status := false; dpcd_revision := 0; peer_guid := replicate 16 0;
     num_sdp_streams := 0; num_sdp_stream_sinks := 0 |}.

Inductive drm_dp_sideband_msg_reply_body :=
| rep_none
| rep_nak (guid : list Z) (reason nak_data : Z)
| rep_link_addr (guid : list Z) (nports : Z) (ports : list drm_dp_link_addr_reply_port)
| rep_remote_dpcd_read (port_number num_bytes : Z) (bytes : list Z)
| rep_remote_dpcd_write (port_number : Z)
| rep_remote_i2c_read (port_number num_bytes : Z) (bytes : list Z)
| rep_path_resources (port_number full_payload_bw_number avail_payload_bw_number : Z)
| rep_allocate_payload (port_number vcpi allocated_pbn : Z)
| rep_query_payload (port_number allocated_pbn : Z)
| rep_port_number (port_number : Z).

(** A parser sees [raw->msg] and [raw->curlen] and returns the value of the C
    function with the body as far as it was filled in. *)
Section Parse.

Variable msg : buf.
Variable clen : Z.

(** [idx > raw->curlen] *)
Definition past (idx : nat) : bool := clen <? Z.of_nat idx.

Definition parse_port (idx : nat) : option (bool * nat * drm_dp_link_addr_reply_port) :=
  b ← msg !! idx;
  let p := {| input_port := Z.testbit b 7; peer_device_type := Z.land (Z.shiftr b 4) 0x7;
              port_number := Z.land b 0xf; mcs := false; ddps := false; legacy_device_plug_status := false;
              dpcd_revision := 0; peer_guid := replicate 16 0; num_sdp_streams := 0; num_sdp_stream_sinks := 0 |} in
  if past (idx + 1) then Some (false, idx + 1, p)%nat else
  b ← msg !! (idx + 1)%nat;
  let p := {| input_port := input_port p; peer_device_type := peer_device_type p; port_number := port_number p;
              mcs := Z.testbit b 7; ddps := Z.testbit b 6;
              legacy_device_plug_status := if input_port p then false else Z.testbit b 5;
              dpcd_revision := 0; peer_guid := replicate 16 0; num_sdp_streams := 0; num_sdp_stream_sinks := 0 |} in
  if past (idx + 2) then Some (false, idx + 2, p)%nat else
  if input_port p then Some (true, idx + 2, p)%nat else
  rev ← msg !! (idx + 2)%nat;
  let p := {| input_port := input_port p; peer_device_type := peer_device_type p; port_number := port_number p;
              mcs := mcs p; ddps := ddps p; legacy_device_plug_status := legacy_device_plug_status p;
              dpcd_revision := rev; peer_guid := replicate 16 0; num_sdp_streams := 0; num_sdp_stream_sinks := 0 |} in
  if past (idx + 3) then Some (false, idx + 3, p)%nat else
  g ← bytes_at (idx + 3) 16 msg;
  let p := {| input_port := input_port p; peer_device_type := peer_device_type p; port_number := port_number p;
              mcs := mcs p; ddps := ddps p; legacy_device_plug_status := legacy_device_plug_status p;
              dpcd_revision := rev; peer_guid := g; num_sdp_streams := 0; num_sdp_stream_sinks := 0 |} in
  if past (idx + 19) then Some (false, idx + 19, p)%nat else
  b ← msg !! (idx + 19)%nat;
  let p := {| input_port := input_port p; peer_device_type := peer_device_type p; port_number := port_number p;
              mcs := mcs p; ddps := ddps p; legacy_device_plug_status := legacy_device_plug_status p;
              dpcd_revision := rev; peer_guid := g; num_sdp_streams := Z.land (Z.shiftr b 4) 0xf;
              num_sdp_stream_sinks := Z.land b 0xf |} in
  Some (negb (past (idx + 20)), idx + 20, p)%nat.

(** The loop over the ports; [ports] is the array of the reply. *)
Fixpoint parse_ports (k i idx : nat) (ports : list drm_dp_link_addr_reply_port)
    : option (bool * list drm_dp_link_addr_reply_port) :=
  match k with
  | O => Some (true, ports)
  | S k' =>
    '(ok, idx, p) ← parse_port idx;
    let ports := <[i := p]> ports in
    if negb ok then Some (false, ports) else parse_ports k' (S i) idx ports
  end.

Definition drm_dp_sideband_parse_link_address : option (bool * drm_dp_sideband_msg_reply_body) :=
  guid ← bytes_at 1 16 msg;
  b ← msg !! 17%nat;
  let nports := Z.land b 0xf in
  if past 18 then Some (false, rep_link_addr guid nports (replicate 16 port_zero)) else
  '(ok, ports) ← parse_ports (Z.to_nat nports) 0 18 (replicate 16 port_zero);
  Some (ok, rep_link_addr guid nports ports).

(** [idx] is not advanced past the length byte before the data is copied. *)
Definition drm_dp_sideband_parse_remote_dpcd_read : option (bool * drm_dp_sideband_msg_reply_body) :=
  b ← msg !! 1%nat;
  let port := Z.land b 0xf in
  if past 2 then Some (false, rep_remote_dpcd_read port 0 []) else
  n ← msg !! 2%nat;
  if past 2 then Some (false, rep_remote_dpcd_read port n []) else
  bs ← bytes_at 2 (Z.to_nat n) msg;
  Some (true, rep_remote_dpcd_read port n bs).

Definition drm_dp_sideband_parse_remote_dpcd_write : option (bool * drm_dp_sideband_msg_reply_body) :=
  b ← msg !! 1%nat;
  Some (negb (past 2), rep_remote_dpcd_write (Z.land b 0xf)).

Definition drm_dp_sideband_parse_remote_i2c_read_ack : option (bool * drm_dp_sideband_msg_reply_body) :=
  b ← msg !! 1%nat;
  let port := Z.land b 0xf in
  if past 2 then Some (false, rep_remote_i2c_read port 0 []) else
  n ← msg !! 2%nat;
  bs ← bytes_at 3 (Z.to_nat n) msg;
  Some (true, rep_remote_i2c_read port n bs).

(** A big-endian 16-bit word. *)
Definition word_at (i : nat) : option Z :=
  x ← msg !! i; y ← msg !! (i + 1)%nat; Some (u16 (Z.lor (Z.shiftl x 8) y)).

Definition drm_dp_sideband_parse_enum_path_resources_ack : option (bool * drm_dp_sideband_msg_reply_body) :=
  b ← msg !! 1%nat;
  let port := Z.land (Z.shiftr b 4) 0xf in
  if past 2 then Some (false, rep_path_resources port 0 0) else
  full ← word_at 2;
  if past 4 then Some (false, rep_path_resources port full 0) else
  avail ← word_at 4;
  Some (negb (past 6), rep_path_resources port full avail).

Definition drm_dp_sideband_parse_allocate_payload_ack : option (bool * drm_dp_sideband_msg_reply_body) :=
  b ← msg !! 1%nat;
  let port := Z.land (Z.shiftr b 4) 0xf in
  if past 2 then Some (false, rep_allocate_payload port 0 0) else
  vcpi ← msg !! 2%nat;
  if past 3 then Some (false, rep_allocate_payload port vcpi 0) else
  pbn ← word_at 3;
  Some (negb (past 5), rep_allocate_payload port vcpi pbn).

(** [allocated_pbn] of this reply is a [u8]. *)
Definition drm_dp_sideband_parse_query_payload_ack : option (bool * drm_dp_sideband_msg_reply_body) :=
  b ← msg !! 1%nat;
  let port := Z.land (Z.shiftr b 4) 0xf in
  if past 2 then Some (false, rep_query_payload port 0) else
  pbn ← word_at 2;
  Some (negb (past 4), rep_query_payload port (u8 pbn)).

Definition drm_dp_sideband_parse_power_updown_phy_ack : option (bool * drm_dp_sideband_msg_reply_body) :=
  b ← msg !! 1%nat;
  Some (negb (past 2), rep_port_number (Z.land (Z.shiftr b 4) 0xf)).

(** Returns the reply and request type, the C result and the body. *)
Definition drm_dp_sideband_parse_reply : option (Z * Z * (bool * drm_dp_sideband_msg_reply_body)) :=
  b ← msg !! 0%nat;
  let reply_type := Z.shiftr (Z.land b 0x80) 7 in
  let type := Z.land b 0x7f in
  r ← (if negb (reply_type =? 0) then
         guid ← bytes_at 1 16 msg; reason ← msg !! 17%nat; data ← msg !! 18%nat;
         Some (false, rep_nak guid reason data)
       else if type =? DP_LINK_ADDRESS then drm_dp_sideband_parse_link_address
       else if type =? DP_QUERY_PAYLOAD then drm_dp_sideband_parse_query_payload_ack
       else if type =? DP_REMOTE_DPCD_READ then drm_dp_sideband_parse_remote_dpcd_read
       else if type =? DP_REMOTE_DPCD_WRITE then drm_dp_sideband_parse_remote_dpcd_write
       else if type =? DP_REMOTE_I2C_READ then drm_dp_sideband_parse_remote_i2c_read_ack
       else if type =? DP_ENUM_PATH_RESOURCES then drm_dp_sideband_parse_enum_path_resources_ack
       else if type =? DP_ALLOCATE_PAYLOAD then drm_dp_sideband_parse_allocate_payload_ack
       else if (type =? DP_POWER_DOWN_PHY) || (type =? DP_POWER_UP_PHY) then drm_dp_sideband_parse_power_updown_phy_ack
       else Some (false, rep_none));
  Some (reply_type, type, r).

(** ** Notifications *)

Inductive drm_dp_notification :=
| conn_stat (port_number : Z) (guid : list Z) (ldps dps mcs input : bool) (peer_device_type : Z)
| resource_stat (port_number : Z) (guid : list Z) (available_pbn : Z)
| notify_none.

Definition drm_dp_sideband_parse_connection_status_notify : option (bool * drm_dp_notification) :=
  b ← msg !! 1%nat;
  let port := Z.shiftr (Z.land b 0xf0) 4 in
  if past 2 then Some (false, conn_stat port (replicate 16 0) false false false false 0) else
  guid ← bytes_at 2 16 msg;
  if past 18 then Some (false, conn_stat port guid false false false false 0) else
  b ← msg !! 18%nat;
  Some (true, conn_stat port guid (Z.testbit b 6) (Z.testbit b 5) (Z.testbit b 4) (Z.testbit b 3) (Z.land b 0x7)).

Definition drm_dp_sideband_parse_resource_status_notify : option (bool * drm_dp_notification) :=
  b ← msg !! 1%nat;
  let port := Z.shiftr (Z.land b 0xf0) 4 in
  if past 2 then Some (false, resource_stat port (replicate 16 0) 0) else
  guid ← bytes_at 2 16 msg;
  if past 18 then Some (false, resource_stat port guid 0) else
  pbn ← word_at 18;
  Some (true, resource_stat port guid pbn).

Definition drm_dp_sideband_parse_req : option (Z * (bool * drm_dp_notification)) :=
  b ← msg !! 0%nat;
  let type := Z.land b 0x7f in
  r ← (if type =? DP_CONNECTION_STATUS_NOTIFY then drm_dp_sideband_parse_connection_status_notify
       else if type =? DP_RESOURCE_STATUS_NOTIFY then drm_dp_sideband_parse_resource_status_notify
       else Some (false, notify_none));
  Some (type, r).

End Parse.

(** ** Requests come back *)

(** The buffer starts with the bytes [w] and the next one goes behind them. *)
Definition wrote (w : list Z) (s : buf * nat) : Prop :=
  exists rest, s.1 = w ++ rest /\ s.2 = length w /\ length s.1 = 256%nat.

Lemma emit_wrote vs w s : wrote w s -> (length w + length vs <= 256)%nat ->
  exists s', emit vs s = Some s' /\ wrote (w ++ map u8 vs) s'.
Proof.
  intros (rest & E1 & E2 & HL) Hfit. destruct s as [b i]. simpl in *. subst i.
  rewrite E1, length_app in HL.
  unfold emit. simpl. rewrite E1, <- (take_drop (length vs) rest).
  rewrite puts_app, bind_some by (try done; rewrite length_take; lia).
  eexists. split; [done|]. exists (drop (length vs) rest). simpl.
  split_and!; [by app_norm|by rewrite length_app, length_map|].
  rewrite !length_app, length_map, length_drop. lia.
Qed.

(** What a branch device reads. *)
Definition nibbles (bs : list Z) : list Z := bs ≫= fun b => [Z.shiftr b 4; Z.land b 0xf].

Fixpoint read_transactions (n : nat) (l : list Z) : option (list i2c_transaction * list Z) :=
  match n with
  | O => Some ([], l)
  | S n' =>
    match l with
    | dev :: len :: l =>
      let k := Z.to_nat len in
      match drop k l with
      | x :: l' =>
        '(ts, l'') ← read_transactions n' l';
        Some ({| i2c_dev_id := dev; i2c_num_bytes := len; i2c_bytes := take k l;
                 no_stop_bit := Z.land (Z.shiftr x 5) 0x1; i2c_transaction_delay := Z.land x 0xf |} :: ts, l'')
      | [] => None
      end
    | _ => None
    end
  end.

Definition address_of (a b c : Z) : Z := Z.land a 0xf * 65536 + b * 256 + c.

Definition read_req (l : list Z) : option drm_dp_sideband_msg_req_body :=
  match l with
  | [] => None
  | t :: l =>
    if t =? DP_LINK_ADDRESS then Some req_link_address
    else if t =? DP_ENUM_PATH_RESOURCES then match l with [p] => Some (req_enum_path_resources (Z.shiftr p 4)) | _ => None end
    else if t =? DP_POWER_DOWN_PHY then match l with [p] => Some (req_power_down_phy (Z.shiftr p 4)) | _ => None end
    else if t =? DP_POWER_UP_PHY then match l with [p] => Some (req_power_up_phy (Z.shiftr p 4)) | _ => None end
    else if t =? DP_ALLOCATE_PAYLOAD then
      match l with
      | p :: v :: hi :: lo :: sinks =>
        let n := Z.land p 0xf in
        Some (req_allocate_payload (Z.shiftr p 4) n v (hi * 256 + lo) (take (Z.to_nat n) (nibbles sinks)))
      | _ => None
      end
    else if t =? DP_QUERY_PAYLOAD then
      match l with [p; v] => Some (req_query_payload (Z.shiftr p 4) v) | _ => None end
    else if t =? DP_REMOTE_DPCD_READ then
      match l with [a; b; c; n] => Some (req_dpcd_read (Z.shiftr a 4) (address_of a b c) n) | _ => None end
    else if t =? DP_REMOTE_DPCD_WRITE then
      match l with a :: b :: c :: n :: bs => Some (req_dpcd_write (Z.shiftr a 4) (address_of a b c) n bs) | _ => None end
    else if t =? DP_REMOTE_I2C_READ then
      match l with
      | p :: l =>
        '(ts, l) ← read_transactions (Z.to_nat (Z.land p 0x3)) l;
        match l with [dev; n] => Some (req_i2c_read (Z.land p 0x3) (Z.shiftr p 4) ts dev n) | _ => None end
      | _ => None
      end
    else if t =? DP_REMOTE_I2C_WRITE then
      match l with p :: dev :: n :: bs => Some (req_i2c_write (Z.shiftr p 4) dev n bs) | _ => None end
    else None
  end.

Definition transaction_ok (t : i2c_transaction) : Prop :=
  0 <= i2c_dev_id t < 128 /\ i2c_num_bytes t = Z.of_nat (length (i2c_bytes t)) /\ Forall is_u8 (i2c_bytes t) /\
  is_u8 (i2c_num_bytes t) /\ 0 <= no_stop_bit t <= 1 /\ 0 <= i2c_transaction_delay t < 16.

Definition nibble (x : Z) : Prop := 0 <= x < 16.

(** Fields within their width on the wire, arrays as long as their counts say. *)
Definition req_ok (req : drm_dp_sideband_msg_req_body) : Prop :=
  match req with
  | req_link_address => True
  | req_enum_path_resources p | req_power_down_phy p | req_power_up_phy p => nibble p
  | req_allocate_payload p n v pbn sink =>
    nibble p /\ nibble n /\ 0 <= v < 128 /\ is_u16 pbn /\ n = Z.of_nat (length sink) /\ Forall nibble sink
  | req_query_payload p v => nibble p /\ 0 <= v < 128
  | req_dpcd_read p a n => nibble p /\ 0 <= a < 2 ^ 20 /\ is_u8 n
  | req_dpcd_write p a n bs => nibble p /\ 0 <= a < 2 ^ 20 /\ n = Z.of_nat (length bs) /\ 0 <= n <= 250 /\ Forall is_u8 bs
  | req_i2c_read n p ts dev nread =>
    nibble p /\ n = Z.of_nat (length ts) /\ n <= 3 /\ Forall transaction_ok ts /\ 0 <= dev < 128 /\ is_u8 nread /\
    Z.of_nat (sum_list_with (fun t => length (i2c_bytes t) + 3)%nat ts) <= 251
  | req_i2c_write p dev n bs => nibble p /\ 0 <= dev < 128 /\ n = Z.of_nat (length bs) /\ 0 <= n <= 251 /\ Forall is_u8 bs
  end.

Lemma port_byte p : nibble p -> let b := u8 (port_nibble p) in Z.shiftr b 4 = p.
Proof. intros Hp b. apply Z.eqb_eq. subst b. revert p Hp. apply (below_spec 16). eval_bits. Qed.

Lemma two_nibbles x y : nibble x -> nibble y ->
  let b := u8 (Z.lor (port_nibble x) (Z.land y 0xf)) in Z.shiftr b 4 = x /\ Z.land b 0xf = y.
Proof.
  intros Hx Hy b. enough ((Z.shiftr b 4 =? x) && (Z.land b 0xf =? y) = true) as H.
  { rewrite andb_true_iff, !Z.eqb_eq in H. done. }
  subst b. revert y Hy. apply (below_spec 16). revert x Hx. apply (below_spec 16). eval_bits.
Qed.

Lemma nibble_two_bits x y : nibble x -> 0 <= y < 4 ->
  let b := u8 (Z.lor (port_nibble x) (Z.land y 0x3)) in Z.shiftr b 4 = x /\ Z.land b 0x3 = y.
Proof.
  intros Hx Hy b. enough ((Z.shiftr b 4 =? x) && (Z.land b 0x3 =? y) = true) as H.
  { rewrite andb_true_iff, !Z.eqb_eq in H. done. }
  subst b. revert y Hy. apply (below_spec 4). revert x Hx. apply (below_spec 16). eval_bits.
Qed.

Lemma seven_bits v : 0 <= v < 128 -> u8 (Z.land v 0x7f) = v.
Proof. intros Hv. apply Z.eqb_eq. revert v Hv. apply (below_spec 128). eval_bits. Qed.

Lemma flags_byte s d : 0 <= s <= 1 -> 0 <= d < 16 ->
  let b := u8 (Z.lor (Z.shiftl (Z.land s 0x1) 5) (Z.land d 0xf)) in Z.land (Z.shiftr b 5) 0x1 = s /\ Z.land b 0xf = d.
Proof.
  intros Hs Hd b. enough ((Z.land (Z.shiftr b 5) 0x1 =? s) && (Z.land b 0xf =? d) = true) as H.
  { rewrite andb_true_iff, !Z.eqb_eq in H. done. }
  subst b. revert d Hd. apply (below_spec 16). assert (0 <= s < 2) as Hs' by lia. clear Hs.
  revert s Hs'. apply (below_spec 2). eval_bits.
Qed.

Lemma low_byte x : Z.land x 0xff = x mod 256.
Proof. change 0xff with (Z.ones 8). by rewrite Z.land_ones by lia. Qed.

Lemma word_bytes x : is_u16 x -> u8 (Z.shiftr x 8) * 256 + u8 (Z.land x 0xff) = x.
Proof.
  unfold is_u16. intros Hx. rewrite low_byte, Z.shiftr_div_pow2 by lia. change (2 ^ 8) with 256.
  pose proof (Z.div_mod x 256 ltac:(lia)). pose proof (Z.mod_pos_bound x 256 ltac:(lia)).
  assert (0 <= x / 256 < 256) by (split; [apply Z.div_pos; lia|apply Z.div_lt_upper_bound; lia]).
  rewrite !u8_small by (unfold is_u8; lia). lia.
Qed.

Lemma address_back p a : nibble p -> 0 <= a < 2 ^ 20 ->
  exists x y z, map u8 (address_bytes p a) = [x; y; z] /\ Z.shiftr x 4 = p /\ address_of x y z = a.
Proof.
  intros Hp Ha. unfold address_bytes. cbn [map].
  set (t := Z.land (Z.shiftr (Z.land a 0xf0000) 16) 0xf).
  assert (t = Z.land (a / 65536) 0xf /\ 0 <= a / 65536 < 16) as [Et Ht].
  { split; [|split; [apply Z.div_pos; lia|apply Z.div_lt_upper_bound; lia]].
    unfold t. rewrite Z.shiftr_land, <- Z.land_assoc. change (Z.land (Z.shiftr 0xf0000 16) 0xf) with 0xf.
    by rewrite Z.shiftr_div_pow2 by lia. }
  rewrite Et. destruct (two_nibbles p (a / 65536) Hp Ht) as [E1 E2].
  assert (Z.shiftr (Z.land a 0xff00) 8 = (a / 256) mod 256) as E3.
  { rewrite Z.shiftr_land. change (Z.shiftr 0xff00 8) with 0xff. by rewrite low_byte, Z.shiftr_div_pow2 by lia. }
  eexists _, _, _. split; [done|]. split; [exact E1|]. unfold address_of. rewrite E2, E3, low_byte.
  pose proof (Z.mod_pos_bound a 256 ltac:(lia)). pose proof (Z.mod_pos_bound (a / 256) 256 ltac:(lia)).
  rewrite !u8_small by (unfold is_u8; lia).
  pose proof (Z.div_mod a 256 ltac:(lia)). pose proof (Z.div_mod (a / 256) 256 ltac:(lia)) as Hq.
  rewrite Z.div_div in Hq by lia. change (256 * 256) with 65536 in Hq. lia.
Qed.

Lemma emit_sink_pairs_ok sink n : forall i w s, wrote w s -> Forall nibble sink -> (2 * (i + n) <= length sink)%nat ->
  (length w + n <= 256)%nat ->
  exists s' bs, emit_sink_pairs i n sink s = Some s' /\ wrote (w ++ bs) s' /\ length bs = n /\
    nibbles bs = take (2 * n) (drop (2 * i) sink).
Proof.
  induction n as [|n IH]; intros i w s Hw Hs Hlen Hfit.
  { exists s, []. rewrite app_nil_r. done. }
  cbn [emit_sink_pairs].
  destruct (lookup_lt_is_Some_2 sink (i * 2)) as [x Ex]; [lia|].
  destruct (lookup_lt_is_Some_2 sink (i * 2 + 1)) as [y Ey]; [lia|].
  rewrite Ex, Ey, !bind_some.
  destruct (emit_wrote [Z.lor (Z.shiftl (Z.land x 0xf) 4) (Z.land y 0xf)] w s Hw) as (s1 & -> & Hw1); [simpl; lia|].
  rewrite bind_some.
  destruct (IH (S i) _ s1 Hw1 Hs) as (s2 & bs & -> & Hw2 & Hbl & Hbn); [lia|rewrite length_app; simpl; lia|].
  eexists s2, (_ :: bs). split; [done|]. split; [rewrite <- app_assoc in Hw2; exact Hw2|].
  split; [simpl; lia|]. cbn [nibbles mbind list_bind]. fold (nibbles bs).
  destruct (two_nibbles x y) as [E1 E2].
  { rewrite Forall_forall in Hs. apply Hs. by eapply list_elem_of_lookup_2. }
  { rewrite Forall_forall in Hs. apply Hs. by eapply list_elem_of_lookup_2. }
  unfold port_nibble in E1, E2. unfold nibbles in *. cbn [mbind list_bind app]. rewrite E1, E2, Hbn.
  replace (2 * i)%nat with (i * 2)%nat by lia.
  rewrite (drop_S sink x (i * 2) Ex). rewrite Nat.add_1_r in Ey. rewrite (drop_S sink y (S (i * 2)) Ey).
  replace (2 * S n)%nat with (S (S (2 * n))) by lia. cbn [take]. do 4 f_equal. lia.
Qed.

Lemma emit_sinks_ok sink w s : wrote w s -> Forall nibble sink -> (length sink < 16)%nat -> (length w + 8 <= 256)%nat ->
  exists s' bs, emit_sinks (Z.of_nat (length sink)) sink s = Some s' /\ wrote (w ++ bs) s' /\
    (length bs <= 8)%nat /\ take (length sink) (nibbles bs) = sink.
Proof.
  intros Hw Hs Hlen Hfit. unfold emit_sinks.
  pose proof (Nat.div_mod_eq (length sink) 2) as Hdm. pose proof (Nat.mod_upper_bound (length sink) 2 ltac:(lia)) as Hm.
  replace (Z.to_nat (Z.of_nat (length sink) / 2)) with (length sink / 2)%nat by (rewrite <- (Nat2Z.inj_div _ 2), Nat2Z.id; done).
  set (q := (length sink / 2)%nat) in *.
  destruct (emit_sink_pairs_ok sink q 0 w s Hw Hs) as (s1 & bs & -> & Hw1 & Hbl & Hbn); [lia|lia|].
  rewrite bind_some. rewrite drop_0 in Hbn.
  replace (Z.land (Z.of_nat (length sink)) 1) with (Z.of_nat (length sink mod 2)).
  2: { change 1 with (Z.ones 1). rewrite Z.land_ones by lia. by rewrite Nat2Z.inj_mod. }
  destruct (length sink mod 2)%nat as [|k] eqn:Ek; cbn [negb].
  - exists s1, bs. split; [done|]. split; [done|]. split; [lia|].
    rewrite Hbn. rewrite (take_ge sink) by lia. by rewrite take_ge by lia.
  - assert (k = 0%nat) as -> by lia. change (Z.of_nat 1 =? 0) with false. cbn [negb].
    destruct (lookup_lt_is_Some_2 sink (length sink - 1)) as [x Ex]; [lia|].
    replace (Z.to_nat (Z.of_nat (length sink) - 1)) with (length sink - 1)%nat by lia. rewrite Ex, bind_some.
    destruct (emit_wrote [port_nibble x] (w ++ bs) s1 Hw1) as (s2 & E2 & Hw2); [rewrite length_app; simpl; lia|].
    unfold port_nibble in E2. rewrite E2. exists s2, (bs ++ map u8 [port_nibble x]). split; [done|].
    split; [by rewrite app_assoc|]. split; [rewrite length_app; simpl; lia|].
    assert (nibble x) as Hx by (rewrite Forall_forall in Hs; apply Hs; by eapply list_elem_of_lookup_2).
    unfold nibbles in *. rewrite bind_app, Hbn. cbn [map mbind list_bind app]. rewrite (port_byte x Hx).
    replace (length sink) with (2 * q + 1)%nat at 1 by lia.
    assert (length (take (2 * q) sink) = 2 * q)%nat as Hl by (rewrite length_take; lia).
    rewrite take_app_ge by lia. rewrite Hl. replace (2 * q + 1 - 2 * q)%nat with 1%nat by lia. cbn [take].
    rewrite <- (take_drop (2 * q) sink) at 2. f_equal.
    replace (2 * q)%nat with (length sink - 1)%nat by lia. rewrite (drop_S sink x _ Ex).
    by rewrite drop_ge by lia.
Qed.

Lemma bytes_at_all l : bytes_at 0 (length l) l = Some l.
Proof. rewrite <- (app_nil_r l) at 2. by apply (bytes_at_app 0 [] l []). Qed.

Lemma emit_bytes bs w s : wrote w s -> Forall is_u8 bs -> (length w + length bs <= 256)%nat ->
  exists s', emit bs s = Some s' /\ wrote (w ++ bs) s'.
Proof. intros Hw Hb Hfit. destruct (emit_wrote bs w s Hw Hfit) as (s' & E & Hw'). rewrite map_u8_small in Hw' by done. eauto. Qed.

Lemma emit_transactions_ok ts : Forall transaction_ok ts -> forall k i w s, (i + k = length ts)%nat -> wrote w s ->
  (length w + sum_list_with (fun t => length (i2c_bytes t) + 3) (drop i ts) <= 256)%nat ->
  exists s' bs, emit_transactions i k ts s = Some s' /\ wrote (w ++ bs) s' /\
    length bs = sum_list_with (fun t => length (i2c_bytes t) + 3)%nat (drop i ts) /\
    forall tl, read_transactions k (bs ++ tl) = Some (drop i ts, tl).
Proof.
  intros Hok. induction k as [|k IH]; intros i w s Hk Hw Hfit.
  { exists s, []. rewrite app_nil_r, drop_ge by lia. done. }
  destruct (lookup_lt_is_Some_2 ts i) as [t Et]; [lia|]. cbn [emit_transactions]. rewrite Et, bind_some.
  rewrite (drop_S ts t i Et) in *. cbn [sum_list_with] in *.
  assert (transaction_ok t) as (Hdev & Hn & Hb & Hn8 & Hst & Hdl).
  { rewrite Forall_forall in Hok. apply Hok. by eapply list_elem_of_lookup_2. }
  destruct (emit_wrote [Z.land (i2c_dev_id t) 0x7f; i2c_num_bytes t] w s Hw) as (s1 & -> & Hw1); [simpl; lia|].
  rewrite bind_some. cbn [map] in Hw1. rewrite seven_bits, (u8_small (i2c_num_bytes t)) in Hw1 by done.
  assert (Z.to_nat (i2c_num_bytes t) = length (i2c_bytes t)) as Hnn by lia. rewrite Hnn, bytes_at_all, bind_some.
  destruct (emit_bytes (i2c_bytes t) _ s1 Hw1 Hb) as (s2 & -> & Hw2); [rewrite length_app; simpl; lia|]. rewrite bind_some.
  destruct (flags_byte (no_stop_bit t) (i2c_transaction_delay t) Hst Hdl) as [F1 F2].
  match goal with |- context [emit [?x] s2] => set (f := x) in *; destruct (emit_wrote [f] _ s2 Hw2) as (s3 & -> & Hw3) end.
  { rewrite !length_app. simpl. lia. }
  rewrite bind_some. cbn [map] in Hw3.
  destruct (IH (S i) _ s3 ltac:(lia) Hw3) as (s4 & bs & -> & Hw4 & Hbl & Hread).
  { rewrite !length_app. simpl. lia. }
  exists s4, ([i2c_dev_id t; i2c_num_bytes t] ++ i2c_bytes t ++ [u8 f] ++ bs). split; [done|]. split.
  { rewrite <- !app_assoc in Hw4. exact Hw4. }
  split; [rewrite !length_app; simpl; lia|]. intros tl. cbn [app read_transactions].
  rewrite <- app_assoc. rewrite Hnn, drop_app_length. cbn [app]. rewrite Hread, bind_some.
  rewrite take_app_length, F1, F2. by destruct t.
Qed.

(** The last step: the buffer and its length. *)
Lemma wrote_result w s req : wrote w s -> (length w <= 255)%nat -> read_req w = Some req ->
  exists msg n, Some (s.1, u8 (Z.of_nat s.2)) = Some (msg, n) /\ read_req (take (Z.to_nat n) msg) = Some req.
Proof.
  intros (rest & E1 & E2 & _) Hlen Hr. eexists _, _. split; [done|].
  rewrite E2, u8_small, Nat2Z.id, E1, take_app_length by (unfold is_u8; lia). done.
Qed.

Lemma req_type_byte req : u8 (Z.land (req_type req) 0x7f) = req_type req.
Proof. by destruct req. Qed.

(** One [emit] of a list of bytes. *)
Ltac step_emit vs :=
  match goal with Hw : wrote ?w ?s |- context [emit vs ?s] =>
    let s' := fresh "s" in let Hw' := fresh "Hw" in
    destruct (emit_wrote vs w s Hw ltac:(rewrite ?length_app; simpl; lia)) as (s' & -> & Hw');
    rewrite ?bind_some; clear Hw s; rename Hw' into Hw; rename s' into s; cbn [map] in Hw; cbn [app] in Hw
  end.
Ltac step_emit_bind := match goal with |- context [emit ?vs ?s ≫= _] => step_emit vs end.

(** Every request whose fields fit the wire format is encoded inside its buffer,
    and the first [cur_len] bytes determine it: a reader of the DisplayPort format
    gets the request back. *)
Theorem drm_dp_encode_sideband_req_unambiguous req msg : req_ok req -> length msg = 256%nat ->
  exists msg' cur_len, drm_dp_encode_sideband_req req msg = Some (msg', cur_len) /\
    read_req (take (Z.to_nat cur_len) msg') = Some req.
Proof.
  intros Hok Hlen. unfold drm_dp_encode_sideband_req.
  destruct (emit_wrote [Z.land (req_type req) 0x7f] [] (msg, 0%nat)) as (s & -> & Hw); [by exists msg|simpl; lia|].
  rewrite bind_some. cbn [map app] in Hw. rewrite req_type_byte in Hw.
  destruct req as [|p|p n v pbn sink|p v|p a n|p a n bs|n p ts dev nread|p dev n bs|p|p];
    cbn [req_type] in Hw; cbn [req_ok] in Hok.
  - by eapply wrote_result; [exact Hw|simpl; lia|].
  - step_emit [port_nibble p]. eapply wrote_result; [exact Hw|simpl; lia|]. simpl. by rewrite port_byte.
  - destruct Hok as (Hp & Hn & Hv & Hpbn & -> & Hs). step_emit_bind.
    unfold nibble in Hn. destruct (emit_sinks_ok sink _ s Hw Hs ltac:(lia) ltac:(simpl; lia)) as (s' & bs & -> & Hw' & Hbl & Hbs).
    rewrite bind_some. eapply wrote_result; [exact Hw'|rewrite length_app; simpl; lia|]. simpl.
    destruct (two_nibbles p (Z.of_nat (length sink)) Hp Hn) as [E1 E2].
    by rewrite (seven_bits v Hv), E1, E2, word_bytes, Nat2Z.id, Hbs by done.
  - destruct Hok as (Hp & Hv). step_emit_bind. eapply wrote_result; [exact Hw|simpl; lia|]. simpl.
    by rewrite port_byte, seven_bits by done.
  - destruct Hok as (Hp & Ha & Hn). step_emit_bind. eapply wrote_result; [exact Hw|simpl; lia|].
    destruct (address_back p a Hp Ha) as (x & y & z & Em & E1 & E2).
    change (map u8 (address_bytes p a ++ [n])) with (map u8 (address_bytes p a) ++ [u8 n]). rewrite Em. simpl.
    by rewrite E1, E2, u8_small by done.
  - destruct Hok as (Hp & Ha & Hn & Hn' & Hb). step_emit_bind.
    assert (Z.to_nat n = length bs) as -> by lia. rewrite bytes_at_all, bind_some.
    destruct (emit_bytes bs _ s Hw Hb) as (s' & -> & Hw'); [rewrite ?length_app; simpl; lia|]. rewrite bind_some.
    eapply wrote_result; [exact Hw'|rewrite ?length_app; simpl; lia|].
    destruct (address_back p a Hp Ha) as (x & y & z & Em & E1 & E2).
    change (map u8 (address_bytes p a ++ [n])) with (map u8 (address_bytes p a) ++ [u8 n]). rewrite Em. simpl.
    by rewrite E1, E2, u8_small by (unfold is_u8; lia).
  - destruct Hok as (Hp & Hn & Hn3 & Hts & Hdev & Hnr & Hsum). step_emit_bind.
    destruct (nibble_two_bits p n Hp ltac:(lia)) as [E1 E2].
    assert (Z.land n 0x3 = n) as En by (change 0x3 with (Z.ones 2); rewrite Z.land_ones by lia; apply Z.mod_small; lia).
    rewrite En in *. destruct (emit_transactions_ok ts Hts (Z.to_nat n) 0 _ s ltac:(lia) Hw) as (s' & bs & -> & Hw' & Hbl & Hread);
      [rewrite drop_0; simpl; lia|]. rewrite bind_some. rewrite drop_0 in *.
    destruct (emit_wrote [Z.land dev 0x7f; nread] _ s' Hw') as (s2 & -> & Hw2); [rewrite !length_app; simpl; lia|].
    rewrite bind_some. eapply wrote_result; [exact Hw2|rewrite !length_app; simpl; lia|]. simpl.
    rewrite E1, E2, Hread, bind_some. by rewrite (seven_bits dev Hdev), (u8_small nread Hnr).
  - destruct Hok as (Hp & Hdev & Hn & Hn' & Hb). step_emit_bind.
    assert (Z.to_nat n = length bs) as -> by lia. rewrite bytes_at_all, bind_some.
    destruct (emit_bytes bs _ s Hw Hb) as (s' & -> & Hw'); [rewrite ?length_app; simpl; lia|]. rewrite bind_some.
    eapply wrote_result; [exact Hw'|rewrite ?length_app; simpl; lia|]. simpl.
    by rewrite port_byte, seven_bits, u8_small by (done || unfold is_u8; lia).
  - step_emit [port_nibble p]. eapply wrote_result; [exact Hw|simpl; lia|]. simpl. by rewrite port_byte.
  - step_emit [port_nibble p]. eapply wrote_result; [exact Hw|simpl; lia|]. simpl. by rewrite port_byte.
Qed.

(** ** Replies are understood *)

Definition port_byte0 (p : drm_dp_link_addr_reply_port) : Z :=
  Z.b2z (input_port p) * 128 + peer_device_type p * 16 + port_number p.
Definition port_byte1 (p : drm_dp_link_addr_reply_port) : Z :=
  Z.b2z (mcs p) * 128 + Z.b2z (ddps p) * 64 + Z.b2z (legacy_device_plug_status p) * 32.

(** A port in a link address reply. *)
Definition port_wire (p : drm_dp_link_addr_reply_port) : list Z :=
  port_byte0 p :: port_byte1 p ::
  if input_port p then []
  else dpcd_revision p :: peer_guid p ++ [num_sdp_streams p * 16 + num_sdp_stream_sinks p].

(** An input port has none of the fields that describe what is plugged in. *)
Definition port_ok (p : drm_dp_link_addr_reply_port) : Prop :=
  0 <= peer_device_type p < 8 /\ nibble (port_number p) /\ nibble (num_sdp_streams p) /\ nibble (num_sdp_stream_sinks p) /\
  length (peer_guid p) = 16%nat /\
  (input_port p = true -> legacy_device_plug_status p = false /\ dpcd_revision p = 0 /\ peer_guid p = replicate 16 0 /\
     num_sdp_streams p = 0 /\ num_sdp_stream_sinks p = 0).

Definition word_wire (x : Z) : list Z := [x / 256; x mod 256].

(** The bytes of a reply. *)
Definition reply_wire (rep : drm_dp_sideband_msg_reply_body) : list Z :=
  match rep with
  | rep_link_addr guid nports ports =>
    DP_LINK_ADDRESS :: guid ++ nports :: (take (Z.to_nat nports) ports ≫= port_wire)
  | rep_path_resources p full avail => DP_ENUM_PATH_RESOURCES :: p * 16 :: word_wire full ++ word_wire avail
  | rep_allocate_payload p vcpi pbn => DP_ALLOCATE_PAYLOAD :: p * 16 :: vcpi :: word_wire pbn
  | rep_query_payload p pbn => DP_QUERY_PAYLOAD :: p * 16 :: word_wire pbn
  | rep_remote_dpcd_read p n bs => DP_REMOTE_DPCD_READ :: p :: n :: bs
  | rep_remote_dpcd_write p => [DP_REMOTE_DPCD_WRITE; p]
  | rep_remote_i2c_read p n bs => DP_REMOTE_I2C_READ :: p :: n :: bs
  | rep_port_number p => [DP_POWER_UP_PHY; p * 16]
  | rep_nak _ _ _ | rep_none => []
  end.

(** Replies other than those [drm_dp_remote_dpcd_read_shifted] and
    [drm_dp_query_payload_truncated] are about. *)
Definition reply_ok (rep : drm_dp_sideband_msg_reply_body) : Prop :=
  match rep with
  | rep_link_addr guid nports ports =>
    length guid = 16%nat /\ nibble nports /\ length ports = 16%nat /\ Forall port_ok (take (Z.to_nat nports) ports) /\
    drop (Z.to_nat nports) ports = replicate (16 - Z.to_nat nports) port_zero
  | rep_path_resources p full avail => nibble p /\ is_u16 full /\ is_u16 avail
  | rep_allocate_payload p vcpi pbn => nibble p /\ is_u8 vcpi /\ is_u16 pbn
  | rep_query_payload p pbn => nibble p /\ is_u8 pbn
  | rep_remote_dpcd_write p => nibble p
  | rep_remote_i2c_read p n bs => nibble p /\ is_u8 n /\ n = Z.of_nat (length bs)
  | rep_port_number p => nibble p
  | rep_remote_dpcd_read _ _ _ | rep_nak _ _ _ | rep_none => False
  end.

Lemma lookup_in {A} (pre l post : list A) k x : l !! k = Some x -> (pre ++ l ++ post) !! (length pre + k)%nat = Some x.
Proof.
  intros H. rewrite lookup_app_r by lia. replace (length pre + k - length pre)%nat with k by lia.
  by apply lookup_app_l_Some.
Qed.

Lemma port_byte0_fields i d n : 0 <= d < 8 -> nibble n -> let b := Z.b2z i * 128 + d * 16 + n in
  Z.testbit b 7 = i /\ Z.land (Z.shiftr b 4) 0x7 = d /\ Z.land b 0xf = n.
Proof.
  intros Hd Hn b. enough (eqb (Z.testbit b 7) i && (Z.land (Z.shiftr b 4) 0x7 =? d) && (Z.land b 0xf =? n) = true) as H.
  { rewrite !andb_true_iff, !Z.eqb_eq, eqb_true_iff in H. tauto. }
  subst b. revert n Hn. apply (below_spec 16). revert d Hd. apply (below_spec 8). destruct i; eval_bits.
Qed.

Lemma port_byte1_fields x y z : let b := Z.b2z x * 128 + Z.b2z y * 64 + Z.b2z z * 32 in
  Z.testbit b 7 = x /\ Z.testbit b 6 = y /\ Z.testbit b 5 = z.
Proof. by destruct x, y, z. Qed.

Lemma nibble_pair x y : nibble x -> nibble y -> Z.land (Z.shiftr (x * 16 + y) 4) 0xf = x /\ Z.land (x * 16 + y) 0xf = y.
Proof.
  intros Hx Hy. enough ((Z.land (Z.shiftr (x * 16 + y) 4) 0xf =? x) && (Z.land (x * 16 + y) 0xf =? y) = true) as H.
  { rewrite andb_true_iff, !Z.eqb_eq in H. done. }
  revert y Hy. apply (below_spec 16). revert x Hx. apply (below_spec 16). eval_bits.
Qed.

Lemma parse_port_ok p pre post clen : port_ok p -> Z.of_nat (length pre + length (port_wire p)) <= clen ->
  parse_port (pre ++ port_wire p ++ post) clen (length pre) = Some (true, (length pre + length (port_wire p))%nat, p).
Proof.
  intros (Hd & Hn & Hs & Hk & Hg & Hin) Hlen.
  destruct (port_byte0_fields (input_port p) _ _ Hd Hn) as (E1 & E2 & E3).
  destruct (port_byte1_fields (mcs p) (ddps p) (legacy_device_plug_status p)) as (F1 & F2 & F3).
  destruct (nibble_pair _ _ Hs Hk) as (G1 & G2). fold (port_byte0 p) in E1, E2, E3. fold (port_byte1 p) in F1, F2, F3. cbv zeta in *.
  assert (forall k, Z.of_nat (length pre + k) <= clen -> past clen (length pre + k) = false) as Hpast.
  { intros k Hk'. unfold past. by apply Z.ltb_ge. }
  unfold parse_port. rewrite <- (Nat.add_0_r (length pre)) at 1.
  rewrite (lookup_in pre (port_wire p) post 0 (port_byte0 p)) by done. rewrite bind_some. cbn [input_port peer_device_type port_number].
  rewrite (lookup_in pre (port_wire p) post 1 (port_byte1 p)) by done.
  rewrite E1, E2, E3. destruct (input_port p) eqn:Ei.
  - assert (length (port_wire p) = 2)%nat as HL by (unfold port_wire; by rewrite Ei). rewrite HL in *.
    rewrite !Hpast by lia. rewrite bind_some, F1, F2. cbn [mcs ddps]. do 3 f_equal.
    destruct (Hin eq_refl) as (I1 & I2 & I3 & I4 & I5). destruct p; simpl in *; congruence.
  - assert (port_wire p = [port_byte0 p; port_byte1 p; dpcd_revision p] ++ peer_guid p ++ [num_sdp_streams p * 16 + num_sdp_stream_sinks p]) as Ew
      by (unfold port_wire; by rewrite Ei).
    assert (length (port_wire p) = 20)%nat as HL by (rewrite Ew, !length_app, Hg; done). rewrite HL in *.
    rewrite !Hpast by lia. rewrite bind_some.
    rewrite (lookup_in pre (port_wire p) post 2 (dpcd_revision p)) by (rewrite Ew; done). rewrite bind_some.
    assert (bytes_at (length pre + 3) 16 (pre ++ port_wire p ++ post) = Some (peer_guid p)) as ->.
    { rewrite bytes_at_sub by lia. rewrite Ew. f_equal. cbn [app drop]. rewrite drop_0, take_app_le, take_ge by lia. done. }
    rewrite bind_some. rewrite (lookup_in pre (port_wire p) post 19 (num_sdp_streams p * 16 + num_sdp_stream_sinks p)).
    2: { rewrite Ew, lookup_app_r by (simpl; lia). simpl length. rewrite lookup_app_r by lia. by rewrite Hg. }
    rewrite bind_some, F1, F2, F3, G1, G2. cbn. do 3 f_equal. by destruct p; simpl in *; subst.
Qed.

Lemma parse_ports_ok ps : Forall port_ok ps -> forall pre done_ rest post clen, (length done_ + length ps + length rest = 16)%nat ->
  Z.of_nat (length pre + length (ps ≫= port_wire)) <= clen ->
  parse_ports (pre ++ (ps ≫= port_wire) ++ post) clen (length ps) (length done_) (length pre) (done_ ++ replicate (length ps) port_zero ++ rest) =
  Some (true, done_ ++ ps ++ rest).
Proof.
  induction 1 as [|p ps Hp Hps IH]; intros pre done_ rest post clen Hl Hc; [done|].
  cbn [mbind list_bind length parse_ports replicate] in *.
  replace (pre ++ (port_wire p ++ (ps ≫= port_wire)) ++ post) with (pre ++ port_wire p ++ (ps ≫= port_wire) ++ post) by by app_norm.
  rewrite length_app in Hc. rewrite parse_port_ok, bind_some by (done || lia). cbv beta iota. cbn [negb].
  rewrite insert_app_r_alt, Nat.sub_diag by lia. cbn [app]. 
  specialize (IH (pre ++ port_wire p) (done_ ++ [p]) rest post clen).
  rewrite !length_app in IH. change (length [p]) with 1%nat in IH. rewrite Nat.add_1_r in IH.
  replace (done_ ++ <[0%nat:=p]> (port_zero :: replicate (length ps) port_zero ++ rest))
    with ((done_ ++ [p]) ++ replicate (length ps) port_zero ++ rest) by by app_norm.
  rewrite app_assoc. rewrite IH by lia. by app_norm.
Qed.

Lemma word_back x : is_u16 x -> u16 (Z.lor (Z.shiftl (x / 256) 8) (x mod 256)) = x.
Proof.
  intros Hx. rewrite Z.shiftl_mul_pow2 by lia.
  assert (Z.lor (x / 256 * 2 ^ 8) (x mod 256) = x) as ->.
  { rewrite <- Z.lxor_lor, <- Z.add_nocarry_lxor.
    - pose proof (Z.div_mod x 256 ltac:(lia)). change (2 ^ 8) with 256. lia.
    - apply Z.bits_inj'. intros n Hn. rewrite Z.land_spec, Z.bits_0. change 256 with (2 ^ 8) at 2.
      destruct (Z.lt_ge_cases n 8); [by rewrite Z.mul_pow2_bits_low|by rewrite Z.mod_pow2_bits_high, andb_false_r by lia].
    - apply Z.bits_inj'. intros n Hn. rewrite Z.land_spec, Z.bits_0. change 256 with (2 ^ 8) at 2.
      destruct (Z.lt_ge_cases n 8); [by rewrite Z.mul_pow2_bits_low|by rewrite Z.mod_pow2_bits_high, andb_false_r by lia]. }
  by apply u16_small.
Qed.

Lemma nibble_land x : nibble x -> Z.land x 0xf = x.
Proof. intros Hx. change 0xf with (Z.ones 4). rewrite Z.land_ones by lia. by apply Z.mod_small. Qed.

Lemma nibble_high16 x : nibble x -> Z.land (Z.shiftr (x * 16) 4) 0xf = x.
Proof. intros Hx. rewrite <- (Z.add_0_r (x * 16)). apply nibble_pair; [done|]. unfold nibble. lia. Qed.

Definition reply_req_type (rep : drm_dp_sideband_msg_reply_body) : Z := default 0 (head (reply_wire rep)).

Lemma link_address_reply guid nports ports junk : reply_ok (rep_link_addr guid nports ports) ->
  let w := reply_wire (rep_link_addr guid nports ports) in
  drm_dp_sideband_parse_link_address (w ++ junk) (Z.of_nat (length w)) = Some (true, rep_link_addr guid nports ports).
Proof.
  intros (Hg & Hn & Hp & Hps & Hrest) w. unfold nibble in Hn.
  set (ps := take (Z.to_nat nports) ports) in *.
  assert (length ps = Z.to_nat nports) as Hl by (unfold ps; rewrite length_take; lia).
  assert (w = (DP_LINK_ADDRESS :: guid ++ [nports]) ++ (ps ≫= port_wire)) as Ew by (unfold w; simpl; by app_norm).
  assert (length (DP_LINK_ADDRESS :: guid ++ [nports]) = 18)%nat as H18 by (simpl; rewrite length_app, Hg; done).
  unfold drm_dp_sideband_parse_link_address.
  assert (bytes_at 1 16 (w ++ junk) = Some guid) as ->.
  { rewrite <- Hg. change (w ++ junk) with ([DP_LINK_ADDRESS] ++ (guid ++ nports :: (ps ≫= port_wire)) ++ junk).
    rewrite <- app_assoc. by apply bytes_at_app. }
  assert ((w ++ junk) !! 17%nat = Some nports) as ->.
  { rewrite Ew, <- app_assoc. change (DP_LINK_ADDRESS :: guid ++ [nports]) with ((DP_LINK_ADDRESS :: guid) ++ [nports]).
    rewrite <- app_assoc. apply list_lookup_middle. simpl. lia. }
  rewrite !bind_some.
  assert (Z.land nports 0xf = nports) as ->.
  { change 0xf with (Z.ones 4). rewrite Z.land_ones by lia. apply Z.mod_small. lia. }
  unfold past. rewrite (proj2 (Z.ltb_ge _ _)) by (rewrite Ew, length_app, H18; lia).
  rewrite Ew, <- app_assoc, <- Hl.
  pose proof (parse_ports_ok ps Hps (DP_LINK_ADDRESS :: guid ++ [nports]) [] (replicate (16 - length ps) port_zero) junk
    (Z.of_nat (length ((DP_LINK_ADDRESS :: guid ++ [nports]) ++ (ps ≫= port_wire))))) as E.
  rewrite H18, length_replicate, length_app, H18 in E.
  change (@length drm_dp_link_addr_reply_port []) with 0%nat in E. rewrite !app_nil_l in E.
  rewrite <- replicate_add in E. replace (length ps + (16 - length ps))%nat with 16%nat in E by lia.
  rewrite length_app, H18, E by lia. rewrite bind_some. do 3 f_equal.
  rewrite Hl, <- Hrest. apply take_drop.
Qed.

Lemma past_false clen k : Z.of_nat k <= clen -> past clen k = false.
Proof. intros H. unfold past. by apply Z.ltb_ge. Qed.

Lemma word_at_eq msg i x : msg !! i = Some (x / 256) -> msg !! (i + 1)%nat = Some (x mod 256) -> is_u16 x -> word_at msg i = Some x.
Proof. intros E1 E2 Hx. unfold word_at. by rewrite E1, E2, !bind_some, word_back. Qed.

Lemma i2c_read_reply t p bs junk clen : nibble p -> 2 <= clen ->
  drm_dp_sideband_parse_remote_i2c_read_ack (t :: p :: Z.of_nat (length bs) :: bs ++ junk) clen =
  Some (true, rep_remote_i2c_read p (Z.of_nat (length bs)) bs).
Proof.
  intros Hp Hc. unfold drm_dp_sideband_parse_remote_i2c_read_ack. set (msg := t :: _).
  change (msg !! 1%nat) with (Some p). change (msg !! 2%nat) with (Some (Z.of_nat (length bs))).
  rewrite !bind_some, past_false, Nat2Z.id, nibble_land by (done || lia).
  unfold msg. by rewrite (bytes_at_app 3 [t; p; Z.of_nat (length bs)] bs junk eq_refl
    : bytes_at 3 _ (t :: p :: Z.of_nat (length bs) :: bs ++ junk) = _).
Qed.

Lemma path_resources_reply t p full avail junk clen : nibble p -> is_u16 full -> is_u16 avail -> 6 <= clen ->
  drm_dp_sideband_parse_enum_path_resources_ack (t :: p * 16 :: word_wire full ++ word_wire avail ++ junk) clen =
  Some (true, rep_path_resources p full avail).
Proof.
  intros Hp Hf Ha Hc. unfold drm_dp_sideband_parse_enum_path_resources_ack. set (msg := t :: _).
  change (msg !! 1%nat) with (Some (p * 16)). rewrite bind_some, !past_false, nibble_high16 by (done || lia).
  rewrite (word_at_eq msg 2 full), bind_some by done. by rewrite (word_at_eq msg 4 avail) by done.
Qed.

Lemma allocate_payload_reply t p vcpi pbn junk clen : nibble p -> is_u16 pbn -> 5 <= clen ->
  drm_dp_sideband_parse_allocate_payload_ack (t :: p * 16 :: vcpi :: word_wire pbn ++ junk) clen =
  Some (true, rep_allocate_payload p vcpi pbn).
Proof.
  intros Hp Ha Hc. unfold drm_dp_sideband_parse_allocate_payload_ack. set (msg := t :: _).
  change (msg !! 1%nat) with (Some (p * 16)). change (msg !! 2%nat) with (Some vcpi).
  rewrite !bind_some, !past_false, nibble_high16 by (done || lia). by rewrite (word_at_eq msg 3 pbn) by done.
Qed.

Lemma query_payload_reply t p pbn junk clen : nibble p -> is_u16 pbn -> 4 <= clen ->
  drm_dp_sideband_parse_query_payload_ack (t :: p * 16 :: word_wire pbn ++ junk) clen =
  Some (true, rep_query_payload p (u8 pbn)).
Proof.
  intros Hp Ha Hc. unfold drm_dp_sideband_parse_query_payload_ack. set (msg := t :: _).
  change (msg !! 1%nat) with (Some (p * 16)). rewrite !bind_some, !past_false, nibble_high16 by (done || lia).
  by rewrite (word_at_eq msg 2 pbn) by done.
Qed.

Lemma dpcd_read_reply t p bs junk clen : nibble p -> 2 <= clen ->
  drm_dp_sideband_parse_remote_dpcd_read (t :: p :: Z.of_nat (length bs) :: bs ++ junk) clen =
  Some (true, rep_remote_dpcd_read p (Z.of_nat (length bs)) (take (length bs) (Z.of_nat (length bs) :: bs))).
Proof.
  intros Hp Hc. unfold drm_dp_sideband_parse_remote_dpcd_read. set (msg := t :: _).
  change (msg !! 1%nat) with (Some p). change (msg !! 2%nat) with (Some (Z.of_nat (length bs))).
  rewrite !bind_some, !past_false, Nat2Z.id, nibble_land by (done || lia).
  unfold msg. pose proof (bytes_at_sub 0 (length bs) [t; p] (Z.of_nat (length bs) :: bs) junk) as E.
  simpl app in E. rewrite Nat.add_0_r, drop_0 in E. simpl length in E. rewrite E by lia. done.
Qed.

(** The reply is an acknowledgement of a known type. *)
Lemma parse_reply_ack t l junk clen : 0 < t < 128 ->
  drm_dp_sideband_parse_reply ((t :: l) ++ junk) clen =
  (r ← (let msg := (t :: l) ++ junk in
        if t =? DP_LINK_ADDRESS then drm_dp_sideband_parse_link_address msg clen
        else if t =? DP_QUERY_PAYLOAD then drm_dp_sideband_parse_query_payload_ack msg clen
        else if t =? DP_REMOTE_DPCD_READ then drm_dp_sideband_parse_remote_dpcd_read msg clen
        else if t =? DP_REMOTE_DPCD_WRITE then drm_dp_sideband_parse_remote_dpcd_write msg clen
        else if t =? DP_REMOTE_I2C_READ then drm_dp_sideband_parse_remote_i2c_read_ack msg clen
        else if t =? DP_ENUM_PATH_RESOURCES then drm_dp_sideband_parse_enum_path_resources_ack msg clen
        else if t =? DP_ALLOCATE_PAYLOAD then drm_dp_sideband_parse_allocate_payload_ack msg clen
        else if (t =? DP_POWER_DOWN_PHY) || (t =? DP_POWER_UP_PHY) then drm_dp_sideband_parse_power_updown_phy_ack msg clen
        else Some (false, rep_none));
   Some (0, t, r)).
Proof.
  intros Ht. unfold drm_dp_sideband_parse_reply. set (msg := (t :: l) ++ junk).
  change (msg !! 0%nat) with (Some t). rewrite bind_some.
  assert (Z.land t 0x7f = t) as -> by (change 0x7f with (Z.ones 7); rewrite Z.land_ones by lia; apply Z.mod_small; lia).
  assert (Z.shiftr (Z.land t 0x80) 7 = 0) as ->; [|done].
  rewrite Z.shiftr_land. change (Z.shiftr 0x80 7) with 1.
  rewrite Z.shiftr_div_pow2, Z.div_small by lia. done.
Qed.

(** The parser the type byte selects. *)
Ltac dispatch f :=
  match goal with |- context [f ?m ?c] =>
    match goal with |- (_ ≫= ?k) = _ => transitivity (f m c ≫= k); [reflexivity|] end
  end.

(** A reply in the DisplayPort wire format is parsed into its fields: link
    address (all ports), path resources, allocated and queried payload (below 256
    PBN), remote writes, remote I2C reads and power control. *)
Theorem drm_dp_sideband_parse_reply_correct rep junk : reply_ok rep ->
  drm_dp_sideband_parse_reply (reply_wire rep ++ junk) (Z.of_nat (length (reply_wire rep))) =
  Some (0, reply_req_type rep, (true, rep)).
Proof.
  intros Hok. destruct rep as [| |guid nports ports| |p|p n bs|p full avail|p vcpi pbn|p pbn|p]; try done;
    unfold reply_wire at 1; rewrite parse_reply_ack by done; cbn [reply_ok] in Hok; cbv zeta.
  - dispatch drm_dp_sideband_parse_link_address.
    pose proof (link_address_reply guid nports ports junk Hok) as E. cbv zeta in E. cbn [reply_wire] in E |- *. rewrite E. done.
  - dispatch drm_dp_sideband_parse_remote_dpcd_write.
    unfold drm_dp_sideband_parse_remote_dpcd_write.
    match goal with |- context [?m !! 1%nat] => change (m !! 1%nat) with (Some p) end.
    rewrite !bind_some, nibble_land by done. done.
  - destruct Hok as (Hp & Hn & ->). dispatch drm_dp_sideband_parse_remote_i2c_read_ack.
    cbn [reply_wire app]. rewrite i2c_read_reply; [done|done|simpl; lia].
  - destruct Hok as (Hp & Hf & Ha). dispatch drm_dp_sideband_parse_enum_path_resources_ack.
    cbn [reply_wire app]. rewrite <- app_assoc, path_resources_reply; [done..|simpl; lia].
  - destruct Hok as (Hp & Hv & Hpb). dispatch drm_dp_sideband_parse_allocate_payload_ack.
    cbn [reply_wire app]. rewrite allocate_payload_reply; [done..|simpl; lia].
  - destruct Hok as (Hp & Hpb). dispatch drm_dp_sideband_parse_query_payload_ack.
    cbn [reply_wire app]. rewrite query_payload_reply, u8_small; [done..|unfold is_u16, is_u8 in *; lia|simpl; lia].
  - dispatch drm_dp_sideband_parse_power_updown_phy_ack. unfold drm_dp_sideband_parse_power_updown_phy_ack.
    match goal with |- context [?m !! 1%nat] => change (m !! 1%nat) with (Some (p * 16)) end.
    rewrite !bind_some, nibble_high16 by done. done.
Qed.

(** Two replies are not read as they are sent.  The data of a remote DPCD read
    comes back shifted by one byte, with its length in front and its last byte
    lost; the bandwidth of a queried payload comes back modulo 256.  And of a
    remote I2C read with four write transactions, which [drm_dp_mst_i2c_xfer] lets
    through, none is sent. *)
Theorem drm_dp_sideband_misread :
  (forall p bs junk, nibble p -> is_u8 (Z.of_nat (length bs)) ->
   let rep := rep_remote_dpcd_read p (Z.of_nat (length bs)) bs in
   drm_dp_sideband_parse_reply (reply_wire rep ++ junk) (Z.of_nat (length (reply_wire rep))) =
   Some (0, DP_REMOTE_DPCD_READ,
         (true, rep_remote_dpcd_read p (Z.of_nat (length bs)) (take (length bs) (Z.of_nat (length bs) :: bs))))) /\
  (forall p pbn junk, nibble p -> is_u16 pbn ->
   let rep := rep_query_payload p pbn in
   drm_dp_sideband_parse_reply (reply_wire rep ++ junk) (Z.of_nat (length (reply_wire rep))) =
   Some (0, DP_QUERY_PAYLOAD, (true, rep_query_payload p (u8 pbn)))) /\
  (forall p ts dev n msg, 
   drm_dp_encode_sideband_req (req_i2c_read 4 p ts dev n) msg = drm_dp_encode_sideband_req (req_i2c_read 0 p [] dev n) msg).
Proof.
  split_and!.
  - intros p bs junk Hp Hn rep. unfold rep. unfold reply_wire at 1. rewrite parse_reply_ack by done. cbv zeta.
    dispatch drm_dp_sideband_parse_remote_dpcd_read. cbn [reply_wire app]. rewrite dpcd_read_reply; [done|done|simpl; lia].
  - intros p pbn junk Hp Hn rep. unfold rep. unfold reply_wire at 1. rewrite parse_reply_ack by done. cbv zeta.
    dispatch drm_dp_sideband_parse_query_payload_ack. cbn [reply_wire app]. rewrite query_payload_reply; [done|done|done|simpl; lia].
  - done.
Qed.

(** ** Instances *)

Definition sample_req : drm_dp_sideband_msg_req_body :=
  req_i2c_read 2 3
    [{| i2c_dev_id := 0x30; i2c_num_bytes := 1; i2c_bytes := [1]; no_stop_bit := 1; i2c_transaction_delay := 2 |};
     {| i2c_dev_id := 0x50; i2c_num_bytes := 1; i2c_bytes := [0]; no_stop_bit := 0; i2c_transaction_delay := 0 |}]
    0x50 128.

Definition sample_reply : drm_dp_sideband_msg_reply_body :=
  rep_link_addr (map Z.of_nat (seq 1 16)) 2
    ({| input_port := true; peer_device_type := 1; port_number := 0; mcs := true; ddps := true;
        legacy_device_plug_status := false; dpcd_revision := 0; peer_guid := replicate 16 0;
        num_sdp_streams := 0; num_sdp_stream_sinks := 0 |} ::
     {| input_port := false; peer_device_type := 3; port_number := 8; mcs := false; ddps := true;
        legacy_device_plug_status := true; dpcd_revision := 0x12; peer_guid := map Z.of_nat (seq 5 16);
        num_sdp_streams := 1; num_sdp_stream_sinks := 2 |} :: replicate 14 port_zero).

Lemma drm_dp_encode_sideband_req_unambiguous_witness :
  exists msg' cur_len, drm_dp_encode_sideband_req sample_req (replicate 256 0) = Some (msg', cur_len) /\
    read_req (take (Z.to_nat cur_len) msg') = Some sample_req.
Proof.
  apply (drm_dp_encode_sideband_req_unambiguous sample_req (replicate 256 0)); [|done].
  cbn [req_ok sample_req]. unfold nibble, is_u8. split_and!; try (simpl; lia).
  repeat constructor; simpl; try lia.
Defined.

Lemma drm_dp_sideband_parse_reply_correct_witness :
  drm_dp_sideband_parse_reply (reply_wire sample_reply ++ replicate 200 0) (Z.of_nat (length (reply_wire sample_reply))) =
  Some (0, reply_req_type sample_reply, (true, sample_reply)).
Proof.
  apply (drm_dp_sideband_parse_reply_correct sample_reply (replicate 200 0)).
  cbn [reply_ok sample_reply]. unfold nibble. split_and!; try done; try (simpl; lia).
  change (Z.to_nat 2) with 2%nat. cbn [take]. unfold port_ok, nibble.
  repeat constructor; simpl; try lia; try done.
Defined.
