(* ===== verification/DpTx.v ===== *)
(** * Transmission of DisplayPort MST messages ([drm_dp_mst_topology.c])

    Senders queue messages; under [qlock] the head of the queue is sent chunk by
    chunk, occupying one of the two reply slots of its branch device; a reply
    completes the message in the slot its header names; a sender that waits too
    long takes its message out and frees it.  Messages and branch devices live in
    stores and are named by identifiers (C pointers); a freed message is absent, so
    [None] is a use after free (or an access outside [tx_slots]).  Each operation
    below is one critical section of [qlock]; [drm_dp_mst_handle_down_rep] has two.

    Theorems: as long as a device answers only what was sent and a reply is handled
    before its message times out, no operation touches freed memory and the slots
    and queue hold exactly the messages in flight; without the first or the second
    condition freed memory is reached, as it is when a branch device is destroyed
    while a message to it is partly sent; an acknowledgement of a request from a device
    whose slots are taken writes outside the slots. *)

From S2P Require Import Prelude Bytes DpMsg DpReq.
From stdpp Require Import base gmap list option sets.
From Stdlib Require Import ZArith Lia.

#[local] Set Warnings "-clear-no-such-hyp".

#[local] Open Scope Z_scope.

Inductive tx_state :=
  DRM_DP_SIDEBAND_TX_QUEUED | DRM_DP_SIDEBAND_TX_START_SEND | DRM_DP_SIDEBAND_TX_SENT
| DRM_DP_SIDEBAND_TX_RX | DRM_DP_SIDEBAND_TX_TIMEOUT.

#[global] Instance tx_state_eq_dec : EqDecision tx_state.
Proof. solve_decision. Defined.

Record drm_dp_sideband_msg_tx := {
  tx_msg : list Z; cur_offset : Z; cur_len : Z; tx_dst : nat; tx_seqno : Z; state : tx_state; tx_path_msg : bool
}.

Record drm_dp_mst_branch := { mb_rad : list Z; mb_lct : Z; tx_slot0 : option nat; tx_slot1 : option nat; last_seqno : Z }.

(** The part of [drm_dp_mst_topology_mgr] under [qlock]. *)
Record mgr := { msgs : gmap nat drm_dp_sideband_msg_tx; mstbs : gmap nat drm_dp_mst_branch; tx_msg_downq : list nat }.

Definition set_msg (m : nat) (t : drm_dp_sideband_msg_tx) (s : mgr) : mgr :=
  {| msgs := <[m := t]> (msgs s); mstbs := mstbs s; tx_msg_downq := tx_msg_downq s |}.
Definition set_mstb (b : nat) (x : drm_dp_mst_branch) (s : mgr) : mgr :=
  {| msgs := msgs s; mstbs := <[b := x]> (mstbs s); tx_msg_downq := tx_msg_downq s |}.
Definition set_downq (q : list nat) (s : mgr) : mgr :=
  {| msgs := msgs s; mstbs := mstbs s; tx_msg_downq := q |}.
Definition free_msg (m : nat) (s : mgr) : mgr :=
  {| msgs := delete m (msgs s); mstbs := mstbs s; tx_msg_downq := tx_msg_downq s |}.

Definition with_seqno (n : Z) (t : drm_dp_sideband_msg_tx) : drm_dp_sideband_msg_tx :=
  {| tx_msg := tx_msg t; cur_offset := cur_offset t; cur_len := cur_len t; tx_dst := tx_dst t; tx_seqno := n;
     state := state t; tx_path_msg := tx_path_msg t |}.
Definition with_state (st : tx_state) (t : drm_dp_sideband_msg_tx) : drm_dp_sideband_msg_tx :=
  {| tx_msg := tx_msg t; cur_offset := cur_offset t; cur_len := cur_len t; tx_dst := tx_dst t; tx_seqno := tx_seqno t;
     state := st; tx_path_msg := tx_path_msg t |}.
Definition with_offset (n : Z) (t : drm_dp_sideband_msg_tx) : drm_dp_sideband_msg_tx :=
  {| tx_msg := tx_msg t; cur_offset := n; cur_len := cur_len t; tx_dst := tx_dst t; tx_seqno := tx_seqno t;
     state := state t; tx_path_msg := tx_path_msg t |}.

(** [mstb->tx_slots[i]]; [None] outside the array. *)
Definition get_slot (i : Z) (x : drm_dp_mst_branch) : option (option nat) :=
  if i =? 0 then Some (tx_slot0 x) else if i =? 1 then Some (tx_slot1 x) else None.

Definition set_slot (i : Z) (v : option nat) (x : drm_dp_mst_branch) : option drm_dp_mst_branch :=
  if i =? 0 then Some {| mb_rad := mb_rad x; mb_lct := mb_lct x; tx_slot0 := v; tx_slot1 := tx_slot1 x; last_seqno := last_seqno x |}
  else if i =? 1 then Some {| mb_rad := mb_rad x; mb_lct := mb_lct x; tx_slot0 := tx_slot0 x; tx_slot1 := v; last_seqno := last_seqno x |}
  else None.

Definition with_last_seqno (n : Z) (x : drm_dp_mst_branch) : drm_dp_mst_branch :=
  {| mb_rad := mb_rad x; mb_lct := mb_lct x; tx_slot0 := tx_slot0 x; tx_slot1 := tx_slot1 x; last_seqno := n |}.

(** A header for the destination of [m], with the number of a free slot. *)
Definition set_hdr_from_dst_qlock (m : nat) (s : mgr) : option (result drm_dp_sideband_msg_hdr * mgr) :=
  t ← msgs s !! m;
  x ← mstbs s !! tx_dst t;
  let busy (o : option nat) := bool_decide (is_Some o) in
  if (tx_seqno t =? -1) && busy (tx_slot0 x) && busy (tx_slot1 x) then Some (Err EAGAIN, s)
  else
    '(t, x) ← (if tx_seqno t =? -1 then
                 let '(n, x) :=
                   if negb (busy (tx_slot0 x)) && negb (busy (tx_slot1 x))
                   then (last_seqno x, with_last_seqno (Z.lxor (last_seqno x) 1) x)
                   else if negb (busy (tx_slot0 x)) then (0, x) else (1, x) in
                 x ← set_slot n (Some m) x; Some (with_seqno n t, x)
               else Some (t, x));
    b0 ← tx_msg t !! 0%nat;
    let type := Z.land b0 0x7f in
    r ← (if 1 <? mb_lct x then bytes_at 0 (Z.to_nat (mb_lct x / 2)) (mb_rad x) else Some []);
    Some (Ok {| lct := mb_lct x; lcr := u8 (mb_lct x - 1); rad := r;
                broadcast := (type =? DP_CONNECTION_STATUS_NOTIFY) || (type =? DP_RESOURCE_STATUS_NOTIFY);
                path_msg := tx_path_msg t; msg_len := 0; somt := false; eomt := false;
                seqno := negb (tx_seqno t =? 0) |},
          set_mstb (tx_dst t) x (set_msg m t s)).

(** [send]: the outcome of [drm_dp_send_sideband_msg] for the bytes of a chunk,
    [true] when the device took them. *)
Section Send.

Variable send : list Z -> bool.

(** What the stack holds before a chunk is built. *)
Variable chunk0 : buf.

Definition process_single_tx_qlock (m : nat) (s : mgr) : option (result bool * mgr) :=
  t ← msgs s !! m;
  let t := if bool_decide (state t = DRM_DP_SIDEBAND_TX_QUEUED)
           then with_state DRM_DP_SIDEBAND_TX_START_SEND (with_seqno (-1) t) else t in
  '(ret, s) ← set_hdr_from_dst_qlock m (set_msg m t s);
  match ret with
  | Err e => Some (Err e, s)
  | Ok hdr =>
    t ← msgs s !! m;
    '(bytes, tosend) ← build_chunk chunk0 hdr (tx_msg t) (cur_len t) (cur_offset t);
    if negb (send bytes) then Some (Err EIO, s)
    else
      let t := with_offset (u8 (cur_offset t + tosend)) t in
      if cur_offset t =? cur_len t
      then Some (Ok true, set_msg m (with_state DRM_DP_SIDEBAND_TX_SENT t) s)
      else Some (Ok false, set_msg m t s)
  end.

(** [list_del] *)
Definition list_del (m : nat) (q : list nat) : list nat := filter (fun k => k <> m) q.

Definition process_single_down_tx_qlock (s : mgr) : option mgr :=
  match tx_msg_downq s with
  | [] => Some s
  | m :: _ =>
    '(ret, s) ← process_single_tx_qlock m s;
    match ret with
    | Ok true => Some (set_downq (list_del m (tx_msg_downq s)) s)
    | Ok false => Some s
    | Err _ =>
      let s := set_downq (list_del m (tx_msg_downq s)) s in
      t ← msgs s !! m;
      s ← (if negb (tx_seqno t =? -1) then
             x ← mstbs s !! tx_dst t; x ← set_slot (tx_seqno t) None x; Some (set_mstb (tx_dst t) x s)
           else Some s);
      Some (set_msg m (with_state DRM_DP_SIDEBAND_TX_TIMEOUT t) s)
    end
  end.

(** A sender hands over a message it has just allocated. *)
Definition drm_dp_queue_down_tx (m : nat) (t : drm_dp_sideband_msg_tx) (s : mgr) : option mgr :=
  let s := set_downq (tx_msg_downq s ++ [m]) (set_msg m t s) in
  if bool_decide (length (tx_msg_downq s) = 1%nat) then process_single_down_tx_qlock s else Some s.

Definition drm_dp_tx_work (s : mgr) : option mgr := process_single_down_tx_qlock s.

(** [drm_dp_mst_wait_tx_reply] when its wait ends, and the [kfree] of its caller.
    [timedout] is a wait that ends without [check_txmsg_state]. *)
Definition drm_dp_mst_wait_tx_reply (m : nat) (timedout : bool) (s : mgr) : option mgr :=
  t ← msgs s !! m;
  if negb timedout then Some (free_msg m s)
  else
    let s := if bool_decide (state t = DRM_DP_SIDEBAND_TX_QUEUED \/ state t = DRM_DP_SIDEBAND_TX_START_SEND)
             then set_downq (list_del m (tx_msg_downq s)) s else s in
    s ← (if bool_decide (state t = DRM_DP_SIDEBAND_TX_START_SEND \/ state t = DRM_DP_SIDEBAND_TX_SENT)
         then x ← mstbs s !! tx_dst t; x ← set_slot (tx_seqno t) None x; Some (set_mstb (tx_dst t) x s)
         else Some s);
    Some (free_msg m s).

(** The first critical section of [drm_dp_mst_handle_down_rep]: the message in the
    slot that the header of the reply names. *)
Definition down_rep_find (b : nat) (slot : bool) (s : mgr) : option (option nat) :=
  x ← mstbs s !! b; get_slot (Z.b2z slot) x.

(** The reply is stored in the message, then the second critical section. *)
Definition down_rep_finish (b : nat) (slot : bool) (m : nat) (s : mgr) : option mgr :=
  t ← msgs s !! m;
  let s := set_msg m (with_state DRM_DP_SIDEBAND_TX_RX t) s in
  x ← mstbs s !! b; x ← set_slot (Z.b2z slot) None x;
  Some (set_mstb b x s).

(** [process_single_up_tx_qlock] *)
Definition process_single_up_tx_qlock (m : nat) (s : mgr) : option mgr :=
  '(_, s) ← process_single_tx_qlock m s;
  t ← msgs s !! m;
  x ← mstbs s !! tx_dst t; x ← set_slot (tx_seqno t) None x;
  Some (set_mstb (tx_dst t) x s).

(** [m] is the message the function allocates and frees. *)
Definition drm_dp_send_up_ack_reply (m b : nat) (type : Z) (seq : bool) (s : mgr) : option mgr :=
  let t := {| tx_msg := Z.land type 0x7f :: replicate 255 0; cur_offset := 0; cur_len := 1; tx_dst := b;
              tx_seqno := Z.b2z seq; state := DRM_DP_SIDEBAND_TX_QUEUED; tx_path_msg := false |} in
  s ← process_single_up_tx_qlock m (set_msg m t s);
  Some (free_msg m s).

(** [drm_dp_add_mst_branch_device]: a zeroed structure with the address copied. *)
Definition add_mstb (b : nat) (lct : Z) (rad : list Z) (s : mgr) : option mgr :=
  let n := if 1 <? lct then Z.to_nat (lct / 2) else 0%nat in
  addr ← bytes_at 0 n rad;
  Some (set_mstb b {| mb_rad := addr ++ replicate (8 - n) 0; mb_lct := lct; tx_slot0 := None; tx_slot1 := None; last_seqno := 0 |} s).

(** [drm_dp_destroy_mst_branch_device], its section under [qlock]: the messages in
    the slots are dropped and their senders woken. *)
Definition drop_slot (b : nat) (i : bool) (s : mgr) : option mgr :=
  x ← mstbs s !! b;
  o ← get_slot (Z.b2z i) x;
  match o with
  | Some m =>
    t ← msgs s !! m;
    x ← set_slot (Z.b2z i) None x;
    Some (set_mstb b x (set_msg m (with_state DRM_DP_SIDEBAND_TX_TIMEOUT t) s))
  | None => Some s
  end.

Definition destroy_tx_slots (b : nat) (s : mgr) : option mgr :=
  s ← drop_slot b false s; drop_slot b true s.

(** [drm_dp_free_mst_branch_device]: [kfree(mstb)] when its last port is gone. *)
Definition free_mstb (b : nat) (s : mgr) : option mgr :=
  Some {| msgs := msgs s; mstbs := delete b (mstbs s); tx_msg_downq := tx_msg_downq s |}.

(** ** What can happen *)

Inductive tx_op :=
| OpQueue (m : nat) (t : drm_dp_sideband_msg_tx)
| OpWork
| OpWait (m : nat) (timedout : bool)
| OpReply (b : nat) (slot : bool)
| OpUpAck (m b : nat) (type : Z) (seq : bool)
| OpAddMstb (b : nat) (lct : Z) (rad : list Z)
| OpDestroyMstb (b : nat)
| OpFreeMstb (b : nat).

(** A reply is handled without a timeout between its two critical sections. *)
Definition run_op (op : tx_op) (s : mgr) : option mgr :=
  match op with
  | OpQueue m t => drm_dp_queue_down_tx m t s
  | OpWork => drm_dp_tx_work s
  | OpWait m timedout => drm_dp_mst_wait_tx_reply m timedout s
  | OpReply b slot =>
    o ← down_rep_find b slot s;
    match o with Some m => down_rep_finish b slot m s | None => Some s end
  | OpUpAck m b type seq => drm_dp_send_up_ack_reply m b type seq s
  | OpAddMstb b lct rad => add_mstb b lct rad s
  | OpDestroyMstb b => destroy_tx_slots b s
  | OpFreeMstb b => free_mstb b s
  end.

Fixpoint run_ops (ops : list tx_op) (s : mgr) : option mgr :=
  match ops with [] => Some s | op :: ops' => s ← run_op op s; run_ops ops' s end.

(** ** The invariant *)

Definition mstb_ok (x : drm_dp_mst_branch) : Prop :=
  1 <= mb_lct x <= 15 /\ length (mb_rad x) = 8%nat /\ Forall is_u8 (mb_rad x) /\ (last_seqno x = 0 \/ last_seqno x = 1).

(** The message is in the queue. *)
Definition sending (t : drm_dp_sideband_msg_tx) : Prop :=
  state t = DRM_DP_SIDEBAND_TX_QUEUED \/ state t = DRM_DP_SIDEBAND_TX_START_SEND.

(** The message occupies slot [i]. *)
Definition occupies (t : drm_dp_sideband_msg_tx) (i : bool) : Prop :=
  (state t = DRM_DP_SIDEBAND_TX_START_SEND \/ state t = DRM_DP_SIDEBAND_TX_SENT) /\ tx_seqno t = Z.b2z i.

Definition slot (i : bool) (x : drm_dp_mst_branch) : option nat := if i then tx_slot1 x else tx_slot0 x.

Record msg_ok (t : drm_dp_sideband_msg_tx) : Prop := {
  mo_bytes : Forall is_u8 (tx_msg t);
  mo_size : length (tx_msg t) = 256%nat;
  mo_off : 0 <= cur_offset t <= cur_len t;
  mo_len : 0 < cur_len t <= 255;
  mo_more : sending t -> cur_offset t < cur_len t;
  mo_seq : state t = DRM_DP_SIDEBAND_TX_START_SEND \/ state t = DRM_DP_SIDEBAND_TX_SENT -> exists i, tx_seqno t = Z.b2z i
}.

Record inv (s : mgr) : Prop := {
  inv_mstb : forall b x, mstbs s !! b = Some x -> mstb_ok x;
  inv_msg : forall m t, msgs s !! m = Some t -> msg_ok t /\ is_Some (mstbs s !! tx_dst t);
  inv_nodup : NoDup (tx_msg_downq s);
  inv_queue : forall m, m ∈ tx_msg_downq s <-> exists t, msgs s !! m = Some t /\ sending t;
  inv_slots : forall b x i m, mstbs s !! b = Some x ->
    slot i x = Some m <-> exists t, msgs s !! m = Some t /\ tx_dst t = b /\ occupies t i
}.

(** Which operations a device and its users perform: a fresh message is queued with
    its whole body to send; a sender waits for its own message; a reply answers a
    message that was sent; an acknowledgement finds a free slot; a branch device has
    a link count of at most 15, is destroyed when no message to it is partly sent
    and freed when none names it. *)
Definition allowed (op : tx_op) (s : mgr) : Prop :=
  match op with
  | OpQueue m t => msgs s !! m = None /\ state t = DRM_DP_SIDEBAND_TX_QUEUED /\ msg_ok t /\ is_Some (mstbs s !! tx_dst t)
  | OpWork => True
  | OpWait m timedout =>
    exists t, msgs s !! m = Some t /\
      (timedout = false -> state t = DRM_DP_SIDEBAND_TX_RX \/ state t = DRM_DP_SIDEBAND_TX_TIMEOUT)
  | OpReply b i =>
    exists x, mstbs s !! b = Some x /\
      forall m t, slot i x = Some m -> msgs s !! m = Some t -> state t = DRM_DP_SIDEBAND_TX_SENT
  | OpUpAck m b _ _ =>
    msgs s !! m = None /\ exists x, mstbs s !! b = Some x /\ (tx_slot0 x = None \/ tx_slot1 x = None)
  | OpAddMstb b lct rad =>
    mstbs s !! b = None /\ 1 <= lct <= 15 /\ length rad = 8%nat /\ Forall is_u8 rad
  | OpDestroyMstb b =>
    exists x, mstbs s !! b = Some x /\
      forall i m t, slot i x = Some m -> msgs s !! m = Some t -> state t = DRM_DP_SIDEBAND_TX_SENT
  | OpFreeMstb b => forall m t, msgs s !! m = Some t -> tx_dst t <> b
  end.

(** ** Changing one message *)

(** The slots of [x'] are those of [x], except that [m] is in slot [i] exactly if [P i]. *)
Definition reslot (m : nat) (P : bool -> Prop) (x x' : drm_dp_mst_branch) : Prop :=
  mstb_ok x' /\ (forall i, P i -> slot i x = None \/ slot i x = Some m) /\
  forall i k, slot i x' = Some k <-> (k = m /\ P i) \/ (k <> m /\ slot i x = Some k /\ ~ P i).

Definition requeue (m : nat) (P : Prop) (q q' : list nat) : Prop :=
  NoDup q' /\ forall k, k ∈ q' <-> (k = m /\ P) \/ (k <> m /\ k ∈ q).

Lemma inv_put s m t b x x' q : inv s -> msg_ok t -> tx_dst t = b -> mstbs s !! b = Some x ->
  (forall u, msgs s !! m = Some u -> tx_dst u = b) -> reslot m (occupies t) x x' -> requeue m (sending t) (tx_msg_downq s) q ->
  inv {| msgs := <[m := t]> (msgs s); mstbs := <[b := x']> (mstbs s); tx_msg_downq := q |}.
Proof.
  intros [I1 I2 I3 I4 I5] Ht Hb Hx Hd (R1 & R2 & R3) (Q1 & Q2). split; cbn [msgs mstbs tx_msg_downq].
  - intros b' y Hy. apply lookup_insert_Some in Hy as [[<- <-]|[_ Hy]]; [done|by apply (I1 b')].
  - intros k u Hu. apply lookup_insert_Some in Hu as [[<- <-]|[_ Hu]].
    + split; [done|]. rewrite Hb, lookup_insert_eq. done.
    + destruct (I2 k u Hu) as [Hk [y Hy]]. split; [done|].
      destruct (decide (tx_dst u = b)) as [->|Hne]; [rewrite lookup_insert_eq; done|rewrite lookup_insert_ne by done; by exists y].
  - done.
  - intros k. rewrite Q2, I4. destruct (decide (k = m)) as [->|Hne].
    + split; [intros [[_ HP]|[? _]]; [exists t; by rewrite lookup_insert_eq|done]|].
      intros (u & Hu & Hs). rewrite lookup_insert_eq in Hu. simplify_eq. auto.
    + split; [intros [[? _]|[_ (u & Hu & Hs)]]; [done|exists u; by rewrite lookup_insert_ne]|].
      intros (u & Hu & Hs). rewrite lookup_insert_ne in Hu by done. eauto 10.
  - intros b' y i k Hy. apply lookup_insert_Some in Hy as [[<- <-]|[Hne Hy]].
    + rewrite R3. destruct (decide (k = m)) as [->|Hk].
      * split; [intros [[_ HP]|[? _]]; [exists t; by rewrite lookup_insert_eq|done]|].
        intros (u & Hu & _ & Ho). rewrite lookup_insert_eq in Hu. simplify_eq. auto.
      * rewrite lookup_insert_ne by done. rewrite <- (I5 b x i k Hx). split; [intros [[? _]|(_ & ? & _)]; done|].
        intros Hs. right. split_and!; [done|done|]. intros HP. destruct (R2 i HP); congruence.
    + rewrite (I5 b' y i k Hy). split; intros (u & Hu & Hdst & Ho); exists u.
      * rewrite lookup_insert_ne; [done|]. intros <-. apply Hne. rewrite <- (Hd u Hu). done.
      * apply lookup_insert_Some in Hu as [[<- <-]|[_ Hu]]; [congruence|done].
Qed.

Lemma tx_inv_free s m b x x' q : inv s -> mstbs s !! b = Some x ->
  (forall u, msgs s !! m = Some u -> tx_dst u = b) -> reslot m (fun _ => False) x x' -> requeue m False (tx_msg_downq s) q ->
  inv {| msgs := delete m (msgs s); mstbs := <[b := x']> (mstbs s); tx_msg_downq := q |}.
Proof.
  intros [I1 I2 I3 I4 I5] Hx Hd (R1 & _ & R3) (Q1 & Q2). split; cbn [msgs mstbs tx_msg_downq].
  - intros b' y Hy. apply lookup_insert_Some in Hy as [[<- <-]|[_ Hy]]; [done|by apply (I1 b')].
  - intros k u Hu. apply lookup_delete_Some in Hu as [_ Hu]. destruct (I2 k u Hu) as [Hk [y Hy]]. split; [done|].
    destruct (decide (tx_dst u = b)) as [->|Hne]; [rewrite lookup_insert_eq; done|rewrite lookup_insert_ne by done; by exists y].
  - done.
  - intros k. rewrite Q2, I4. split; [intros [[_ []]|[Hk (u & Hu & Hs)]]; exists u; by rewrite lookup_delete_ne|].
    intros (u & Hu & Hs). apply lookup_delete_Some in Hu as [Hk Hu]. right. split; [done|eauto].
  - intros b' y i k Hy. apply lookup_insert_Some in Hy as [[<- <-]|[Hne Hy]].
    + rewrite R3, (I5 b x i k Hx). split; [intros [[_ []]|(Hk & (u & Hu & Hr) & _)]; exists u; by rewrite lookup_delete_ne|].
      intros (u & Hu & Hr). apply lookup_delete_Some in Hu as [Hk Hu]. right. split_and!; [done|eauto|tauto].
    + rewrite (I5 b' y i k Hy). split; intros (u & Hu & Hdst & Ho); exists u.
      * rewrite lookup_delete_ne; [done|]. intros <-. apply Hne. rewrite <- (Hd u Hu). done.
      * apply lookup_delete_Some in Hu as [_ Hu]. done.
Qed.

(** ** Slots and chunks *)

Lemma set_slot_spec i v x : exists x', set_slot (Z.b2z i) v x = Some x' /\ slot i x' = v /\
  slot (negb i) x' = slot (negb i) x /\ (mstb_ok x -> mstb_ok x').
Proof. destruct i; eexists; (split; [reflexivity|]); done. Qed.

Lemma reslot_intro m (P : bool -> Prop) x x' : mstb_ok x' ->
  (forall i, (P i /\ slot i x' = Some m /\ (slot i x = None \/ slot i x = Some m)) \/
             (~ P i /\ slot i x' = slot i x /\ slot i x <> Some m) \/
             (~ P i /\ slot i x' = None /\ slot i x = Some m)) -> reslot m P x x'.
Proof.
  intros Hok H. split; [done|]. split.
  - intros i HP. destruct (H i) as [(_ & _ & ?)|[(? & _)|(? & _)]]; done.
  - intros i k. destruct (H i) as [(HP & E & E')|[(HP & E & E')|(HP & E & E')]]; rewrite E; naive_solver.
Qed.

(** [m] takes slot [i] of [x], or keeps it. *)
Lemma reslot_take m i x x' (P : bool -> Prop) : (forall j, P j <-> j = i) -> mstb_ok x' -> slot i x = None \/ slot i x = Some m ->
  slot (negb i) x <> Some m -> slot i x' = Some m -> slot (negb i) x' = slot (negb i) x -> reslot m P x x'.
Proof.
  intros HP Hok Hi Hni Hi' Hni'. apply reslot_intro; [done|]. intros j. rewrite HP.
  destruct (decide (j = i)) as [->|Hne]; [auto|]. right. left.
  assert (j = negb i) as -> by by destruct i, j. done.
Qed.

Lemma reslot_drop m i x x' (P : bool -> Prop) : (forall j, ~ P j) -> mstb_ok x' -> slot i x = None \/ slot i x = Some m ->
  slot (negb i) x <> Some m -> slot i x' = None -> slot (negb i) x' = slot (negb i) x -> reslot m P x x'.
Proof.
  intros HP Hok Hi Hni Hi' Hni'. apply reslot_intro; [done|]. intros j. specialize (HP j).
  destruct (decide (j = i)) as [->|Hne].
  - destruct Hi as [Hi|Hi]; [|auto]. right. left. split_and!; [done|by rewrite Hi'|by rewrite Hi].
  - right. left. assert (j = negb i) as -> by by destruct i, j. done.
Qed.

Lemma reslot_same m x (P : bool -> Prop) : (forall j, ~ P j) -> mstb_ok x -> (forall j, slot j x <> Some m) -> reslot m P x x.
Proof. intros HP Hok Hs. apply reslot_intro; [done|]. intros j. specialize (HP j). specialize (Hs j). auto. Qed.

Lemma list_del_spec m q (P : Prop) : NoDup q -> ~ P -> requeue m P q (list_del m q).
Proof.
  intros Hq HP. split; [by apply NoDup_filter|]. intros k. unfold list_del. rewrite list_elem_of_filter. tauto.
Qed.

Lemma requeue_same m q (P : Prop) : NoDup q -> P -> m ∈ q -> requeue m P q q.
Proof. intros Hq HP Hm. split; [done|]. intros k. destruct (decide (k = m)) as [->|Hne]; tauto. Qed.

Lemma requeue_out m q (P : Prop) : NoDup q -> ~ P -> m ∉ q -> requeue m P q q.
Proof. intros Hq HP Hm. split; [done|]. intros k. destruct (decide (k = m)) as [->|Hne]; tauto. Qed.

Lemma build_chunk_some h t : length chunk0 = 48%nat -> dst_ok h -> msg_ok t -> cur_offset t < cur_len t ->
  exists bytes n, build_chunk chunk0 h (tx_msg t) (cur_len t) (cur_offset t) = Some (bytes, n) /\
    0 < n <= cur_len t - cur_offset t.
Proof.
  intros Hch Hh [Hb Hs Hoff Hlen _ _] Hlt. destruct (Hh) as (Hl & _). pose proof (half_lct _ Hl) as Hhalf.
  set (off := Z.to_nat (cur_offset t)). set (n := Z.to_nat (Z.min (cur_len t - cur_offset t) (44 - lct h / 2))).
  pose proof (build_chunk_eq chunk0 h (take off (tx_msg t)) (take n (drop off (tx_msg t))) (drop n (drop off (tx_msg t)))
    (cur_len t) Hch Hh) as E. cbv zeta in E.
  rewrite !length_take, length_drop, take_drop, take_drop in E.
  replace (Z.of_nat (off `min` length (tx_msg t))) with (cur_offset t) in E by (unfold off; lia).
  replace (n `min` (length (tx_msg t) - off))%nat with n in E by (unfold n, off; lia).
  eexists _, _. split; [apply E; [by apply Forall_take, Forall_drop|lia|unfold n; lia]|]. unfold n. lia.
Qed.

(** The header for a branch device. *)
Lemma hdr_tail t x : mstb_ok x -> length (tx_msg t) = 256%nat ->
  exists b0 r, tx_msg t !! 0%nat = Some b0 /\
    (if 1 <? mb_lct x then bytes_at 0 (Z.to_nat (mb_lct x / 2)) (mb_rad x) else Some []) = Some r /\
    forall br pm ml so eo sq, dst_ok {| lct := mb_lct x; lcr := u8 (mb_lct x - 1); rad := r; broadcast := br; path_msg := pm;
                                        msg_len := ml; somt := so; eomt := eo; seqno := sq |}.
Proof.
  intros (Hl & Hr & Hb & _) Hlen. pose proof (half_lct _ Hl) as Hh.
  destruct (lookup_lt_is_Some_2 (tx_msg t) 0) as [b0 E0]; [lia|].
  assert (u8 (mb_lct x - 1) = mb_lct x - 1) as Eu by (apply u8_small; unfold is_u8; lia).
  exists b0. destruct (Z.ltb_spec 1 (mb_lct x)) as [H1|H1].
  - exists (take (Z.to_nat (mb_lct x / 2)) (mb_rad x)). split; [done|]. split.
    + unfold bytes_at. rewrite (proj2 (Nat.leb_le _ _)) by lia. by rewrite drop_0.
    + intros. split_and!; cbn [lct lcr rad]; rewrite ?Eu, ?length_take; try lia. by apply Forall_take.
  - exists []. assert (mb_lct x = 1) as -> by lia. split_and!; done.
Qed.

Lemma set_hdr_keep s m t x i : msgs s !! m = Some t -> mstbs s !! tx_dst t = Some x -> mstb_ok x ->
  length (tx_msg t) = 256%nat -> tx_seqno t = Z.b2z i ->
  exists hdr, set_hdr_from_dst_qlock m s = Some (Ok hdr, set_mstb (tx_dst t) x (set_msg m t s)) /\ dst_ok hdr.
Proof.
  intros Em Ex Hx Hlen Hs. unfold set_hdr_from_dst_qlock. rewrite Em, bind_some, Ex, bind_some.
  rewrite (proj2 (Z.eqb_neq (tx_seqno t) (-1))) by (rewrite Hs; by destruct i). cbn [andb]. rewrite bind_some. cbv beta iota.
  destruct (hdr_tail t x Hx Hlen) as (b0 & r & -> & Er & Hd). rewrite bind_some. rewrite Er, bind_some. eauto.
Qed.

Lemma set_hdr_new s m t x : msgs s !! m = Some t -> mstbs s !! tx_dst t = Some x -> mstb_ok x ->
  length (tx_msg t) = 256%nat -> tx_seqno t = -1 ->
  (is_Some (tx_slot0 x) /\ is_Some (tx_slot1 x) /\ set_hdr_from_dst_qlock m s = Some (Err EAGAIN, s)) \/
  exists i x' hdr, slot i x = None /\ slot i x' = Some m /\ slot (negb i) x' = slot (negb i) x /\ mstb_ok x' /\ dst_ok hdr /\
    set_hdr_from_dst_qlock m s = Some (Ok hdr, set_mstb (tx_dst t) x' (set_msg m (with_seqno (Z.b2z i) t) s)).
Proof.
  intros Em Ex Hx Hlen Hs. unfold set_hdr_from_dst_qlock. rewrite Em, bind_some, Ex, bind_some, Hs, Z.eqb_refl. cbn [andb].
  destruct (hdr_tail t x Hx Hlen) as (b0 & r & Eb & Er & Hd). destruct (Hx) as (Hl & Hr & Hb & Hq).
  destruct (tx_slot0 x) as [k0|] eqn:E0, (tx_slot1 x) as [k1|] eqn:E1.
  - left. rewrite !bool_decide_true by done. done.
  - right. rewrite (bool_decide_true (is_Some (Some k0))), (bool_decide_false (is_Some (@None nat))) by (done || by intros [? ?]).
    cbn [andb negb]. destruct (set_slot_spec true (Some m) x) as (x' & Esl & F1 & F2 & F3). change (Z.b2z true) with 1 in Esl.
    rewrite Esl, !bind_some. cbv beta iota. cbn [tx_msg with_seqno]. rewrite Eb, bind_some.
    destruct x' as [rad' lct' s0' s1' ls']. unfold set_slot in Esl. simpl in Esl. simplify_eq. cbn [mb_lct mb_rad]. rewrite Er, bind_some.
    exists true. eexists _, _. split_and!; [| | | | |reflexivity]; [done|done|done|by apply F3|apply Hd].
  - right. rewrite (bool_decide_true (is_Some (Some k1))), (bool_decide_false (is_Some (@None nat))) by (done || by intros [? ?]).
    cbn [andb negb]. destruct (set_slot_spec false (Some m) x) as (x' & Esl & F1 & F2 & F3). change (Z.b2z false) with 0 in Esl.
    rewrite Esl, !bind_some. cbv beta iota. cbn [tx_msg with_seqno]. rewrite Eb, bind_some.
    destruct x' as [rad' lct' s0' s1' ls']. unfold set_slot in Esl. simpl in Esl. simplify_eq. cbn [mb_lct mb_rad]. rewrite Er, bind_some.
    exists false. eexists _, _. split_and!; [| | | | |reflexivity]; [done|done|done|by apply F3|apply Hd].
  - right. rewrite !bool_decide_false by by intros [? ?]. cbn [andb negb]. 
    destruct Hq as [Hq|Hq]; rewrite Hq; unfold set_slot, with_last_seqno; cbn; rewrite Eb; cbn; rewrite Er; cbn.
    + exists false. eexists _, _. split_and!; [| | | | |reflexivity]; [done|done|done|unfold mstb_ok; simpl; auto|apply Hd].
    + exists true. eexists _, _. split_and!; [| | | | |reflexivity]; [done|done|done|unfold mstb_ok; simpl; auto|apply Hd].
Qed.

(** Where a message that is to be sent can be. *)
Definition placed (m : nat) (t : drm_dp_sideband_msg_tx) (x : drm_dp_mst_branch) : Prop :=
  (state t = DRM_DP_SIDEBAND_TX_QUEUED /\ forall j, slot j x <> Some m) \/
  (state t = DRM_DP_SIDEBAND_TX_START_SEND /\ exists i, tx_seqno t = Z.b2z i /\ slot i x = Some m /\ slot (negb i) x <> Some m).

(** [m] holds slot [i] of [x'], which was free in [x] or its own. *)
Definition holds (m : nat) (i : bool) (x x' : drm_dp_mst_branch) : Prop :=
  (slot i x = None \/ slot i x = Some m) /\ slot (negb i) x <> Some m /\ slot i x' = Some m /\
  slot (negb i) x' = slot (negb i) x /\ mstb_ok x'.

(** The state with one message and its branch device changed. *)
Definition updated (m : nat) (t : drm_dp_sideband_msg_tx) (b : nat) (x : drm_dp_mst_branch) (s : mgr) : mgr :=
  {| msgs := <[m := t]> (msgs s); mstbs := <[b := x]> (mstbs s); tx_msg_downq := tx_msg_downq s |}.

(** Sending the next chunk, once the slot is there. *)
Lemma send_chunk_ok s m t b x i hdr : length chunk0 = 48%nat -> dst_ok hdr -> msg_ok t -> tx_dst t = b ->
  state t = DRM_DP_SIDEBAND_TX_START_SEND -> tx_seqno t = Z.b2z i ->
  exists r t', (u ← msgs (updated m t b x s) !! m;
     '(bytes, tosend) ← build_chunk chunk0 hdr (tx_msg u) (cur_len u) (cur_offset u);
     if negb (send bytes) then Some (Err EIO, updated m t b x s)
     else
       let u := with_offset (u8 (cur_offset u + tosend)) u in
       if cur_offset u =? cur_len u
       then Some (Ok true, set_msg m (with_state DRM_DP_SIDEBAND_TX_SENT u) (updated m t b x s))
       else Some (Ok false, set_msg m u (updated m t b x s))) = Some (r, updated m t' b x s) /\
    tx_seqno t' = Z.b2z i /\ tx_dst t' = b /\ msg_ok t' /\
    state t' = match r with Ok true => DRM_DP_SIDEBAND_TX_SENT | _ => DRM_DP_SIDEBAND_TX_START_SEND end.
Proof.
  intros Hch Hh Ht Hb Hst Hsq. destruct (Ht) as [O1 O2 O3 O4 O5 O6].
  assert (sending t) as Hse by by right. specialize (O5 Hse).
  cbn [msgs updated]. rewrite lookup_insert_eq, bind_some.
  destruct (build_chunk_some hdr t Hch Hh Ht O5) as (bytes & n & -> & Hn). rewrite bind_some. cbv beta iota.
  assert (forall v, set_msg m v (updated m t b x s) = updated m v b x s) as Hset.
  { intros v. unfold set_msg, updated. cbn [msgs mstbs tx_msg_downq]. by rewrite insert_insert_eq. }
  destruct (send bytes); cbn [negb]; [|by exists (Err EIO), t].
  rewrite u8_small by (unfold is_u8; lia). cbn [cur_offset with_offset cur_len].
  destruct (Z.eqb_spec (cur_offset t + n) (cur_len t)) as [E|E]; rewrite Hset; eexists _, _; (split; [reflexivity|]);
    cbn; split_and!; try done.
  - split; cbn; [done|done|lia|lia|intros [H|H]; discriminate H|intros _; by exists i].
  - split; cbn; [done|done|lia|lia|lia|intros _; by exists i].
Qed.

Lemma process_single_tx_ok s m t x : length chunk0 = 48%nat -> msgs s !! m = Some t -> mstbs s !! tx_dst t = Some x ->
  mstb_ok x -> msg_ok t -> placed m t x ->
  (state t = DRM_DP_SIDEBAND_TX_QUEUED /\ is_Some (tx_slot0 x) /\ is_Some (tx_slot1 x) /\
   process_single_tx_qlock m s =
     Some (Err EAGAIN, set_msg m (with_state DRM_DP_SIDEBAND_TX_START_SEND (with_seqno (-1) t)) s)) \/
  exists i x' t' r, holds m i x x' /\
    process_single_tx_qlock m s = Some (r, updated m t' (tx_dst t) x' s) /\
    tx_seqno t' = Z.b2z i /\ tx_dst t' = tx_dst t /\ msg_ok t' /\
    state t' = match r with Ok true => DRM_DP_SIDEBAND_TX_SENT | _ => DRM_DP_SIDEBAND_TX_START_SEND end.
Proof.
  intros Hch Em Ex Hx Ht Hpl. destruct (Ht) as [O1 O2 O3 O4 O5 O6].
  unfold process_single_tx_qlock. rewrite Em, bind_some.
  destruct Hpl as [[Hst Hno]|[Hst (i & Hsq & Hsl & Hns)]].
  - rewrite bool_decide_true by done.
    set (t1 := with_state DRM_DP_SIDEBAND_TX_START_SEND (with_seqno (-1) t)).
    destruct (set_hdr_new (set_msg m t1 s) m t1 x) as [(B0 & B1 & E)|(i & x' & hdr & F1 & F2 & F3 & F4 & F5 & E)];
      [cbn; apply lookup_insert_eq|done|done|done|done| |].
    + left. rewrite E, bind_some. done.
    + right. rewrite E, bind_some.
      assert (set_mstb (tx_dst t1) x' (set_msg m (with_seqno (Z.b2z i) t1) (set_msg m t1 s)) =
              updated m (with_seqno (Z.b2z i) t1) (tx_dst t) x' s) as ->.
      { unfold set_mstb, set_msg, updated. cbn [msgs mstbs tx_msg_downq]. by rewrite insert_insert_eq. }
      assert (msg_ok (with_seqno (Z.b2z i) t1)) as Ht1.
      { split; cbn; try done; [|intros _; by exists i]. intros _. apply O5. by left. }
      destruct (send_chunk_ok s m (with_seqno (Z.b2z i) t1) (tx_dst t) x' i hdr Hch F5 Ht1 eq_refl eq_refl eq_refl)
        as (r & t' & E' & G1 & G2 & G3 & G4).
      exists i, x', t', r. split; [split_and!; try done; by left|]. split; [exact E'|done].
  - right. rewrite bool_decide_false by by rewrite Hst.
    destruct (set_hdr_keep (set_msg m t s) m t x i) as (hdr & E & Hd); [cbn; apply lookup_insert_eq|done..|].
    rewrite E, bind_some.
    assert (set_mstb (tx_dst t) x (set_msg m t (set_msg m t s)) = updated m t (tx_dst t) x s) as ->.
    { unfold set_mstb, set_msg, updated. cbn [msgs mstbs tx_msg_downq]. by rewrite insert_insert_eq. }
    destruct (send_chunk_ok s m t (tx_dst t) x i hdr Hch Hd Ht eq_refl Hst Hsq) as (r & t' & E' & G1 & G2 & G3 & G4).
    exists i, x, t', r. split; [split_and!; try done; by right|]. split; [exact E'|done].
Qed.

(** ** Every operation keeps the invariant *)

Lemma b2z_inj i j : Z.b2z i = Z.b2z j -> i = j.
Proof. by destruct i, j. Qed.

Lemma occupies_iff t i : state t = DRM_DP_SIDEBAND_TX_START_SEND \/ state t = DRM_DP_SIDEBAND_TX_SENT ->
  tx_seqno t = Z.b2z i -> forall j, occupies t j <-> j = i.
Proof.
  intros Hs Hq j. unfold occupies. rewrite Hq. split; [intros [_ H]; symmetry; by apply b2z_inj|intros ->; done].
Qed.

Lemma placed_inv s m t x : inv s -> msgs s !! m = Some t -> sending t -> mstbs s !! tx_dst t = Some x -> placed m t x.
Proof.
  intros [I1 I2 I3 I4 I5] Em Hs Ex. destruct (I2 m t Em) as [[_ _ _ _ _ O6] _].
  assert (forall j, slot j x = Some m <-> occupies t j) as Hsl.
  { intros j. rewrite (I5 (tx_dst t) x j m Ex). split; [intros (u & Hu & _ & Ho); congruence|eauto]. }
  destruct Hs as [Hs|Hs].
  - left. split; [done|]. intros j. rewrite Hsl. unfold occupies. rewrite Hs. intros [[?|?] _]; done.
  - right. split; [done|]. destruct (O6 (or_introl Hs)) as [i Hi]. exists i.
    pose proof (occupies_iff t i (or_introl Hs) Hi) as Ho. split; [done|]. rewrite !Hsl, !Ho. by destruct i.
Qed.

Lemma holds_take m i x x' t : holds m i x x' -> state t = DRM_DP_SIDEBAND_TX_START_SEND \/ state t = DRM_DP_SIDEBAND_TX_SENT ->
  tx_seqno t = Z.b2z i -> reslot m (occupies t) x x'.
Proof. intros (H1 & H2 & H3 & H4 & H5) Hs Hq. apply (reslot_take m i); [by apply occupies_iff|done..]. Qed.

Lemma holds_drop m i x x' (P : bool -> Prop) : holds m i x x' -> (forall j, ~ P j) ->
  exists x'', set_slot (Z.b2z i) None x' = Some x'' /\ reslot m P x x''.
Proof.
  intros (H1 & H2 & H3 & H4 & H5) HP. destruct (set_slot_spec i None x') as (x'' & E & F1 & F2 & F3).
  exists x''. split; [done|]. apply (reslot_drop m i); [done|by apply F3|done..|congruence].
Qed.

(** A message that has left queue and slots. *)
Lemma msg_ok_over t u : msg_ok t -> tx_msg u = tx_msg t -> cur_offset u = cur_offset t -> cur_len u = cur_len t ->
  state u = DRM_DP_SIDEBAND_TX_RX \/ state u = DRM_DP_SIDEBAND_TX_TIMEOUT -> msg_ok u.
Proof.
  intros [O1 O2 O3 O4 O5 O6] E1 E2 E3 Hst.
  split; rewrite ?E1, ?E2, ?E3; try done; unfold sending; intros [H|H]; destruct Hst; congruence.
Qed.

Lemma not_occupies_over t st j : st = DRM_DP_SIDEBAND_TX_RX \/ st = DRM_DP_SIDEBAND_TX_TIMEOUT -> ~ occupies (with_state st t) j.
Proof. intros Hst [[H|H] _]; cbn in H; destruct Hst; congruence. Qed.

Lemma not_sending_over t st : st = DRM_DP_SIDEBAND_TX_RX \/ st = DRM_DP_SIDEBAND_TX_TIMEOUT -> ~ sending (with_state st t).
Proof. intros Hst [H|H]; cbn in H; destruct Hst; congruence. Qed.

Lemma down_tx_ok s : length chunk0 = 48%nat -> inv s -> exists s', process_single_down_tx_qlock s = Some s' /\ inv s'.
Proof.
  intros Hch Hinv. destruct (Hinv) as [I1 I2 I3 I4 I5]. unfold process_single_down_tx_qlock.
  destruct (tx_msg_downq s) as [|m q] eqn:Eq; [by exists s|].
  destruct (proj1 (I4 m)) as (t & Em & Hse); [left|].
  destruct (I2 m t Em) as [Ht [x Ex]]. pose proof (I1 _ _ Ex) as Hx.
  pose proof (placed_inv s m t x Hinv Em Hse Ex) as Hpl.
  assert (forall u, msgs s !! m = Some u -> tx_dst u = tx_dst t) as Hdst by (intros; congruence).
  destruct (process_single_tx_ok s m t x Hch Em Ex Hx Ht Hpl) as [(Hst & B0 & B1 & E)|(i & x' & t' & r & Hh & E & G1 & G2 & G3 & G4)];
    rewrite E, bind_some; cbv beta iota.
  - cbn [msgs set_downq set_msg tx_msg_downq mstbs]. rewrite lookup_insert_eq, bind_some. cbn [tx_seqno with_state with_seqno].
    rewrite Z.eqb_refl. cbn [negb]. rewrite bind_some. eexists. split; [reflexivity|]. unfold set_msg, set_downq. cbn [msgs mstbs tx_msg_downq].
    rewrite insert_insert_eq. rewrite <- (insert_id (mstbs s) (tx_dst t) x Ex).
    destruct Hpl as [[_ Hno]|[Hst' _]]; [|congruence].
    eapply inv_put; [done| |reflexivity|exact Ex|done| |].
    + apply (msg_ok_over t); try done. by right.
    + apply reslot_same; [intros j; apply not_occupies_over; by right|done|done].
    + apply list_del_spec; [by rewrite Eq|]. apply not_sending_over. by right.
  - destruct r as [[|]|e].
    + eexists. split; [reflexivity|]. unfold set_downq, updated. cbn [msgs mstbs tx_msg_downq].
      eapply inv_put; [done|done|done|exact Ex|done|apply (holds_take m i); [done|by right|done]|].
      apply list_del_spec; [by rewrite Eq|]. unfold sending. rewrite G4. by intros [|].
    + eexists. split; [reflexivity|]. unfold updated.
      eapply inv_put; [done|done|done|exact Ex|done|apply (holds_take m i); [done|by left|done]|].
      apply requeue_same; [by rewrite Eq|by right|rewrite Eq; by left].
    + cbn [msgs set_downq updated tx_msg_downq mstbs]. rewrite lookup_insert_eq, bind_some.
      rewrite (proj2 (Z.eqb_neq (tx_seqno t') (-1))) by (rewrite G1; by destruct i). cbn [negb]. rewrite G2, lookup_insert_eq, bind_some, G1.
      destruct (holds_drop m i x x' (occupies (with_state DRM_DP_SIDEBAND_TX_TIMEOUT t')) Hh) as (x'' & -> & Hre);
        [intros j; apply not_occupies_over; by right|]. rewrite !bind_some. eexists. split; [reflexivity|].
      unfold set_msg, set_mstb, set_downq, updated. cbn [msgs mstbs tx_msg_downq]. rewrite !insert_insert_eq.
      eapply inv_put; [done| |exact G2|exact Ex|done|exact Hre|].
      * apply (msg_ok_over t'); try done. by right.
      * apply list_del_spec; [by rewrite Eq|]. apply not_sending_over. by right.
Qed.

Lemma slot_live s b x i m : inv s -> mstbs s !! b = Some x -> slot i x = Some m -> exists t, msgs s !! m = Some t /\ tx_dst t = b /\ occupies t i.
Proof. intros Hinv Ex Hs. by apply (inv_slots s Hinv b x). Qed.

Lemma queue_ok s m t : length chunk0 = 48%nat -> inv s -> allowed (OpQueue m t) s ->
  exists s', drm_dp_queue_down_tx m t s = Some s' /\ inv s'.
Proof.
  intros Hch Hinv (Em & Hst & Ht & [x Ex]). unfold drm_dp_queue_down_tx.
  set (s0 := set_downq (tx_msg_downq s ++ [m]) (set_msg m t s)).
  assert (inv s0) as Hinv0.
  { unfold s0, set_downq, set_msg. cbn [msgs mstbs tx_msg_downq]. rewrite <- (insert_id (mstbs s) (tx_dst t) x Ex).
    eapply inv_put; [done|done|reflexivity|exact Ex|intros u Hu; congruence| |].
    - apply reslot_same; [|by apply (inv_mstb s Hinv _ _ Ex)|].
      + intros j [[H|H] _]; congruence.
      + intros j Hs. destruct (slot_live s _ x j m Hinv Ex Hs) as (u & Hu & _). congruence.
    - assert (m ∉ tx_msg_downq s) as Hm.
      { intros H. apply (inv_queue s Hinv) in H as (u & Hu & _). congruence. }
      split.
      + apply NoDup_app. split; [apply (inv_nodup s Hinv)|]. split; [|apply NoDup_singleton]. set_solver.
      + intros k. rewrite elem_of_app, list_elem_of_singleton. unfold sending. rewrite Hst.
        destruct (decide (k = m)) as [->|]; tauto. }
  case_bool_decide; [by apply down_tx_ok|eauto].
Qed.

Lemma not_in_queue s m t : inv s -> msgs s !! m = Some t -> ~ sending t -> m ∉ tx_msg_downq s.
Proof. intros Hinv Em Hs H. apply (inv_queue s Hinv) in H as (u & Hu & Hse). congruence. Qed.

Lemma not_in_slot s m t x : inv s -> msgs s !! m = Some t -> mstbs s !! tx_dst t = Some x ->
  (forall j, ~ occupies t j) -> forall j, slot j x <> Some m.
Proof.
  intros Hinv Em Ex Ho j Hs. destruct (slot_live s _ x j m Hinv Ex Hs) as (u & Hu & _ & Hoc).
  assert (u = t) as -> by congruence. by apply (Ho j).
Qed.

Lemma in_slot s m t x i : inv s -> msgs s !! m = Some t -> mstbs s !! tx_dst t = Some x -> occupies t i ->
  slot i x = Some m /\ slot (negb i) x <> Some m.
Proof.
  intros Hinv Em Ex Ho. split; [apply (inv_slots s Hinv _ _ i m Ex); eauto|].
  intros Hs. destruct (slot_live s _ x _ m Hinv Ex Hs) as (u & Hu & _ & [_ Hq]).
  assert (u = t) as -> by congruence. destruct Ho as [_ Hq']. rewrite Hq' in Hq. apply b2z_inj in Hq. by destruct i.
Qed.

Lemma wait_ok s m timedout : inv s -> allowed (OpWait m timedout) s ->
  exists s', drm_dp_mst_wait_tx_reply m timedout s = Some s' /\ inv s'.
Proof.
  intros Hinv (t & Em & Hdone). destruct (inv_msg s Hinv m t Em) as [Ht [x Ex]].
  pose proof (inv_mstb s Hinv _ _ Ex) as Hx.
  assert (forall u, msgs s !! m = Some u -> tx_dst u = tx_dst t) as Hdst by (intros; congruence).
  unfold drm_dp_mst_wait_tx_reply. rewrite Em, bind_some.
  (* nothing to take out of slots or queue *)
  assert (state t = DRM_DP_SIDEBAND_TX_RX \/ state t = DRM_DP_SIDEBAND_TX_TIMEOUT -> inv (free_msg m s)) as Hover.
  { intros Hst. assert (~ sending t) as Hs by (intros [H|H]; destruct Hst; congruence).
    assert (forall j, ~ occupies t j) as Ho by (intros j [[H|H] _]; destruct Hst; congruence).
    unfold free_msg. rewrite <- (insert_id (mstbs s) (tx_dst t) x Ex).
    eapply tx_inv_free; [done|exact Ex|done|apply reslot_same; [tauto|done|by eapply not_in_slot]|].
    apply requeue_out; [apply (inv_nodup s Hinv)|tauto|by eapply not_in_queue]. }
  destruct timedout; cbn [negb]; [|specialize (Hdone eq_refl); eauto].
  destruct (state t) eqn:Est; try (rewrite !bool_decide_false by (by intros [|]); rewrite bind_some; eauto; fail).
  - rewrite bool_decide_false, bool_decide_true, bind_some by first [by auto | by intros [|]]. eexists. split; [reflexivity|].
    unfold free_msg, set_downq. cbn [msgs mstbs tx_msg_downq]. rewrite <- (insert_id (mstbs s) (tx_dst t) x Ex).
    eapply tx_inv_free; [done|exact Ex|done| |apply list_del_spec; [apply (inv_nodup s Hinv)|tauto]].
    apply reslot_same; [tauto|done|]. eapply not_in_slot; [done..|]. intros j [[H|H] _]; congruence.
  - destruct (mo_seq t Ht (or_introl Est)) as [i Hi].
    destruct (in_slot s m t x i Hinv Em Ex) as [S1 S2]; [split; [by left|done]|].
    rewrite !bool_decide_true by auto. cbn [mstbs set_downq]. rewrite Ex, bind_some, Hi.
    destruct (set_slot_spec i None x) as (x' & -> & F1 & F2 & F3). rewrite !bind_some. eexists. split; [reflexivity|].
    unfold free_msg, set_mstb, set_downq. cbn [msgs mstbs tx_msg_downq].
    eapply tx_inv_free; [done|exact Ex|done| |apply list_del_spec; [apply (inv_nodup s Hinv)|tauto]].
    apply (reslot_drop m i); [tauto|by apply F3|by right|done..].
  - destruct (mo_seq t Ht (or_intror Est)) as [i Hi].
    destruct (in_slot s m t x i Hinv Em Ex) as [S1 S2]; [split; [by right|done]|].
    rewrite bool_decide_true, bool_decide_false by first [by auto | by intros [|]]. rewrite Ex, bind_some, Hi.
    destruct (set_slot_spec i None x) as (x' & -> & F1 & F2 & F3). rewrite !bind_some. eexists. split; [reflexivity|].
    unfold free_msg, set_mstb. cbn [msgs mstbs tx_msg_downq].
    eapply tx_inv_free; [done|exact Ex|done| |apply requeue_out; [apply (inv_nodup s Hinv)|tauto|]].
    + apply (reslot_drop m i); [tauto|by apply F3|by right|done..].
    + eapply not_in_queue; [done..|]. intros [H|H]; congruence.
Qed.

(** A sent message leaves its slot, answered or given up. *)
Lemma leave_slot_ok s b x i m t st : inv s -> mstbs s !! b = Some x -> slot i x = Some m -> msgs s !! m = Some t ->
  state t = DRM_DP_SIDEBAND_TX_SENT -> st = DRM_DP_SIDEBAND_TX_RX \/ st = DRM_DP_SIDEBAND_TX_TIMEOUT ->
  exists x', set_slot (Z.b2z i) None x = Some x' /\ slot (negb i) x' = slot (negb i) x /\ slot i x' = None /\
    inv (set_mstb b x' (set_msg m (with_state st t) s)).
Proof.
  intros Hinv Ex Es Em Hsent Hst.
  destruct (slot_live s b x i m Hinv Ex Es) as (t' & Em' & Hd & Ho). assert (t' = t) as -> by congruence.
  destruct (inv_msg s Hinv m t Em) as [Ht _]. subst b.
  destruct (in_slot s m t x i Hinv Em Ex Ho) as [S1 S2].
  destruct (set_slot_spec i None x) as (x' & -> & F1 & F2 & F3). exists x'. split_and!; try done.
  unfold set_mstb, set_msg. cbn [msgs mstbs tx_msg_downq].
  eapply inv_put; [done| |reflexivity|exact Ex|intros u Hu; congruence| |].
  - by apply (msg_ok_over t).
  - apply (reslot_drop m i); [intros j; by apply not_occupies_over| |by right|done..].
    apply F3, (inv_mstb s Hinv _ _ Ex).
  - apply requeue_out; [apply (inv_nodup s Hinv)|by apply not_sending_over|].
    eapply not_in_queue; [done..|]. intros [H|H]; congruence.
Qed.

Lemma get_slot_b2z i x : get_slot (Z.b2z i) x = Some (slot i x).
Proof. by destruct i. Qed.

Lemma reply_step_ok s b i : inv s -> allowed (OpReply b i) s -> exists s', run_op (OpReply b i) s = Some s' /\ inv s'.
Proof.
  intros Hinv (x & Ex & Hsent). cbn [run_op]. unfold down_rep_find. rewrite Ex, bind_some, get_slot_b2z, bind_some.
  destruct (slot i x) as [m|] eqn:Es; [|by exists s].
  destruct (slot_live s b x i m Hinv Ex Es) as (t & Em & _). specialize (Hsent m t eq_refl Em).
  destruct (leave_slot_ok s b x i m t DRM_DP_SIDEBAND_TX_RX Hinv Ex Es Em Hsent (or_introl eq_refl)) as (x' & E & _ & _ & Hi).
  unfold down_rep_finish. rewrite Em, bind_some. cbn [mstbs set_msg]. rewrite Ex, bind_some, E, bind_some. eauto.
Qed.

Lemma drop_slot_ok s b x i : inv s -> mstbs s !! b = Some x ->
  (forall m t, slot i x = Some m -> msgs s !! m = Some t -> state t = DRM_DP_SIDEBAND_TX_SENT) ->
  exists s' x', drop_slot b i s = Some s' /\ inv s' /\ mstbs s' !! b = Some x' /\ slot i x' = None /\
    slot (negb i) x' = slot (negb i) x /\
    (forall k, slot i x <> Some k -> msgs s' !! k = msgs s !! k) /\ tx_msg_downq s' = tx_msg_downq s.
Proof.
  intros Hinv Ex Hsent. unfold drop_slot. rewrite Ex, bind_some, get_slot_b2z, bind_some.
  destruct (slot i x) as [m|] eqn:Es; [|by exists s, x].
  destruct (slot_live s b x i m Hinv Ex Es) as (t & Em & _). specialize (Hsent m t eq_refl Em).
  destruct (leave_slot_ok s b x i m t DRM_DP_SIDEBAND_TX_TIMEOUT Hinv Ex Es Em Hsent (or_intror eq_refl)) as (x' & E & E1 & E2 & Hi).
  rewrite Em, bind_some, E, bind_some. eexists _, x'. split_and!; [reflexivity|done| |done|done| |done].
  - cbn. by rewrite lookup_insert_eq.
  - intros k Hk. cbn. rewrite lookup_insert_ne; [done|congruence].
Qed.

Lemma slots_differ s b x i m : inv s -> mstbs s !! b = Some x -> slot (negb i) x = Some m -> slot i x <> Some m.
Proof.
  intros Hinv Ex Hs Hs'. destruct (slot_live s b x _ m Hinv Ex Hs) as (t & Em & _ & _ & H1).
  destruct (slot_live s b x _ m Hinv Ex Hs') as (t' & Em' & _ & _ & H2).
  assert (t' = t) as -> by congruence. rewrite H2 in H1. apply b2z_inj in H1. by destruct i.
Qed.

Lemma destroy_ok s b : inv s -> allowed (OpDestroyMstb b) s -> exists s', destroy_tx_slots b s = Some s' /\ inv s'.
Proof.
  intros Hinv (x & Ex & Hsent). unfold destroy_tx_slots.
  destruct (drop_slot_ok s b x false Hinv Ex (Hsent false)) as (s1 & x1 & -> & H1 & Ex1 & _ & Es1 & Hk & _).
  rewrite bind_some. destruct (drop_slot_ok s1 b x1 true H1 Ex1) as (s2 & x2 & -> & H2 & _); [|eauto].
  intros m t Hs Hm. change true with (negb false) in Hs. rewrite Es1 in Hs.
  apply (Hsent true m t Hs). rewrite <- Hk; [done|]. by eapply (slots_differ s b x false).
Qed.

Lemma add_mstb_ok s b lct rad : inv s -> allowed (OpAddMstb b lct rad) s -> exists s', add_mstb b lct rad s = Some s' /\ inv s'.
Proof.
  intros Hinv (Eb & Hl & Hr & Hu). unfold add_mstb. set (n := if 1 <? lct then _ else _).
  assert (n <= 7)%nat as Hn by (unfold n; case_match; [|lia]; assert (lct / 2 < 8) by (apply Z.div_lt_upper_bound; lia); lia).
  unfold bytes_at. rewrite drop_0, (proj2 (Nat.leb_le _ _)), bind_some by lia. eexists. split; [reflexivity|].
  destruct Hinv as [I1 I2 I3 I4 I5]. split; cbn [set_mstb msgs mstbs tx_msg_downq]; try done.
  - intros b' y Hy. apply lookup_insert_Some in Hy as [[<- <-]|[_ Hy]]; [|by apply (I1 b')].
    split_and!; cbn; [lia|lia|rewrite length_app, length_take, length_replicate; lia| |by left].
    apply Forall_app. split; [by apply Forall_take|apply Forall_replicate; unfold is_u8; lia].
  - intros m t Hm. destruct (I2 m t Hm) as [? [y Hy]]. split; [done|]. rewrite lookup_insert_ne by congruence. by exists y.
  - intros b' y i m Hy. apply lookup_insert_Some in Hy as [[<- <-]|[_ Hy]]; [|by apply I5].
    split; [by destruct i|]. intros (t & Hm & Hd & _). destruct (I2 m t Hm) as [_ [y Hy]]. congruence.
Qed.

Lemma free_mstb_ok s b : inv s -> allowed (OpFreeMstb b) s -> exists s', free_mstb b s = Some s' /\ inv s'.
Proof.
  intros [I1 I2 I3 I4 I5] Ha. eexists. split; [reflexivity|]. split; cbn [msgs mstbs tx_msg_downq]; try done.
  - intros b' y Hy. apply lookup_delete_Some in Hy as [_ Hy]. by apply (I1 b').
  - intros m t Hm. destruct (I2 m t Hm) as [? [y Hy]]. split; [done|]. rewrite lookup_delete_ne; [by exists y|].
    intros E. by apply (Ha m t Hm).
  - intros b' y i m Hy. apply lookup_delete_Some in Hy as [_ Hy]. by apply I5.
Qed.

Lemma up_ack_ok s m b type seq : length chunk0 = 48%nat -> inv s -> allowed (OpUpAck m b type seq) s ->
  exists s', drm_dp_send_up_ack_reply m b type seq s = Some s' /\ inv s'.
Proof.
  intros Hch Hinv (Em & x & Ex & Hfree). pose proof (inv_mstb s Hinv _ _ Ex) as Hx.
  unfold drm_dp_send_up_ack_reply. set (t := Build_drm_dp_sideband_msg_tx _ _ _ _ _ _ _).
  assert (msg_ok t) as Ht.
  { split; cbn [tx_msg cur_offset cur_len state tx_seqno t]; try done; try lia.
    - constructor; [|by apply Forall_replicate; unfold is_u8; lia]. unfold is_u8.
      change 0x7f with (Z.ones 7). rewrite Z.land_ones by lia. pose proof (Z.mod_pos_bound type (2 ^ 7) ltac:(lia)). lia.
    - intros [H|H]; discriminate H. }
  assert (forall j, slot j x <> Some m) as Hno.
  { intros j Hs. destruct (slot_live s b x j m Hinv Ex Hs) as (u & Hu & _). congruence. }
  unfold process_single_up_tx_qlock.
  destruct (process_single_tx_ok (set_msg m t s) m t x Hch) as [(_ & B0 & B1 & _)|(i & x' & t' & r & Hh & E & G1 & G2 & _)];
    [apply lookup_insert_eq|exact Ex|done|done|by left| |].
  { destruct Hfree as [H|H]; rewrite H in *; [by destruct B0|by destruct B1]. }
  rewrite E, !bind_some. cbv beta iota. cbn [updated msgs mstbs set_msg]. rewrite lookup_insert_eq, bind_some.
  rewrite G2. cbn [tx_dst t]. rewrite lookup_insert_eq, bind_some, G1.
  destruct (holds_drop m i x x' (fun _ => False) Hh) as (x'' & -> & Hre); [tauto|].
  rewrite !bind_some. eexists. split; [reflexivity|].
  unfold free_msg, set_mstb, updated, set_msg. cbn [msgs mstbs tx_msg_downq].
  rewrite !insert_insert_eq, delete_insert_eq.
  apply (tx_inv_free s m b x x''); [done|exact Ex|intros u Hu; congruence|done|].
  apply requeue_out; [apply (inv_nodup s Hinv)|tauto|]. intros H. apply (inv_queue s Hinv) in H as (u & Hu & _). congruence.
Qed.

Lemma run_op_ok s op : length chunk0 = 48%nat -> inv s -> allowed op s -> exists s', run_op op s = Some s' /\ inv s'.
Proof.
  intros Hch Hinv Ha. destruct op;
    eauto using queue_ok, down_tx_ok, wait_ok, reply_step_ok, up_ack_ok, add_mstb_ok, destroy_ok, free_mstb_ok.
Qed.

(** The states that operations which respect the protocol lead to. *)
Inductive reachable (s0 : mgr) : mgr -> Prop :=
| reachable_start : reachable s0 s0
| reachable_step s s' op : reachable s0 s -> allowed op s -> run_op op s = Some s' -> reachable s0 s'.

Lemma tx_reachable_inv s0 s : length chunk0 = 48%nat -> inv s0 -> reachable s0 s -> inv s.
Proof.
  intros Hch H0. induction 1 as [|s s' op Hr IH Ha E]; [done|].
  destruct (run_op_ok s op Hch IH Ha) as (s1 & E1 & H1). congruence.
Qed.

End Send.

(** Branch devices with empty slots and no messages. *)
Definition start (bs : gmap nat drm_dp_mst_branch) : mgr := {| msgs := ∅; mstbs := bs; tx_msg_downq := [] |}.

Definition idle (bs : gmap nat drm_dp_mst_branch) : Prop :=
  map_Forall (fun _ x => mstb_ok x /\ tx_slot0 x = None /\ tx_slot1 x = None) bs.

Lemma start_inv bs : idle bs -> inv (start bs).
Proof.
  intros Hb. split; cbn.
  - intros b x Hx. by apply (Hb b x).
  - intros m t Ht. by rewrite lookup_empty in Ht.
  - constructor.
  - intros m. split; [by intros ?%elem_of_nil|intros (t & Ht & _); by rewrite lookup_empty in Ht].
  - intros b x i m Hx. destruct (Hb b x Hx) as (_ & E0 & E1). split; [destruct i; cbn; congruence|].
    intros (t & Ht & _). by rewrite lookup_empty in Ht.
Qed.

(** C9: whatever the devices take or refuse, as long as they answer only messages that
    were sent and answers are handled in time, senders, the transmit work, timeouts,
    replies, acknowledgements, and the addition, destruction and release of branch
    devices never touch a freed message: every operation runs.  A sender queues a
    fresh message of 1 to 255 bytes and frees it after its own wait; an
    acknowledgement needs a free slot of its device; a device has a link count of at
    most 15, is destroyed only when no message to it is partly sent and freed only
    when no message names it ([allowed]).
    In every state the queue holds each message that waits to be sent exactly once,
    and a slot of a branch device names a message exactly if that message was
    started or sent to this device under the slot's number, and was not answered. *)
Theorem drm_dp_tx_safe send chunk0 bs s :
  length chunk0 = 48%nat -> idle bs -> reachable send chunk0 (start bs) s ->
  (forall op, allowed op s -> exists s', run_op send chunk0 op s = Some s') /\
  NoDup (tx_msg_downq s) /\
  (forall m, m ∈ tx_msg_downq s <-> exists t, msgs s !! m = Some t /\ sending t) /\
  (forall b x i m, mstbs s !! b = Some x ->
     slot i x = Some m <-> exists t, msgs s !! m = Some t /\ tx_dst t = b /\ occupies t i).
Proof.
  intros Hch Hb Hr. pose proof (tx_reachable_inv send chunk0 _ s Hch (start_inv bs Hb) Hr) as Hinv. split.
  - intros op Ha. destruct (run_op_ok send chunk0 s op Hch Hinv Ha) as (s' & E & _). eauto.
  - destruct Hinv. done.
Qed.

(** The two conditions are needed.  In any reachable state with a message in a
    slot: if its sender gives up between the two critical sections of the reply
    handler, the handler writes to the freed message; and if the message is only
    partly sent when an answer for its slot arrives, it is completed and freed while
    it is still at the head of the queue, and the next transmission reads it. *)
Theorem drm_dp_tx_races send chunk0 bs s b x i m :
  length chunk0 = 48%nat -> idle bs -> reachable send chunk0 (start bs) s ->
  mstbs s !! b = Some x -> slot i x = Some m ->
  (exists s1, drm_dp_mst_wait_tx_reply m true s = Some s1 /\ down_rep_finish b i m s1 = None) /\
  (head (tx_msg_downq s) = Some m ->
   exists s1 s2, run_op send chunk0 (OpReply b i) s = Some s1 /\ drm_dp_mst_wait_tx_reply m false s1 = Some s2 /\
     drm_dp_tx_work send chunk0 s2 = None).
Proof.
  intros Hch Hb Hr Ex Hs. pose proof (tx_reachable_inv send chunk0 _ s Hch (start_inv bs Hb) Hr) as Hinv.
  destruct (slot_live s b x i m Hinv Ex Hs) as (t & Em & Hd & Ho). split.
  - destruct (wait_ok send chunk0 s m true Hinv) as (s1 & E & _); [exists t; done|]. exists s1. split; [done|].
    assert (msgs s1 !! m = None) as Hn.
    { unfold drm_dp_mst_wait_tx_reply in E. rewrite Em, bind_some in E. cbn [negb] in E.
      apply bind_Some in E as (s' & _ & [= <-]). cbn. apply lookup_delete_eq. }
    unfold down_rep_finish. by rewrite Hn.
  - intros Hq. cbn [run_op]. unfold down_rep_find. rewrite Ex, bind_some.
    assert (get_slot (Z.b2z i) x = Some (slot i x)) as -> by by destruct i. rewrite bind_some, Hs.
    unfold down_rep_finish. rewrite Em, bind_some. cbn [mstbs set_msg]. rewrite Ex, bind_some.
    destruct (set_slot_spec i None x) as (x' & -> & _). rewrite bind_some. eexists _, _. split; [reflexivity|].
    unfold drm_dp_mst_wait_tx_reply. cbn [msgs set_mstb set_msg]. rewrite lookup_insert_eq, bind_some. cbn [negb]. split; [reflexivity|].
    unfold drm_dp_tx_work, process_single_down_tx_qlock. cbn [free_msg tx_msg_downq set_mstb set_msg].
    destruct (tx_msg_downq s) as [|k q]; simplify_eq/=.
    unfold process_single_tx_qlock. cbn [free_msg msgs]. by rewrite lookup_delete_eq.
Qed.

Lemma drop_slot_runs s b x i : mstbs s !! b = Some x -> (forall m, slot i x = Some m -> is_Some (msgs s !! m)) ->
  exists s' x', drop_slot b i s = Some s' /\ mstbs s' !! b = Some x' /\ slot (negb i) x' = slot (negb i) x /\
    (forall k, is_Some (msgs s !! k) -> is_Some (msgs s' !! k)) /\ tx_msg_downq s' = tx_msg_downq s.
Proof.
  intros Ex Hl. unfold drop_slot. rewrite Ex, bind_some, get_slot_b2z, bind_some.
  destruct (slot i x) as [m|]; [|by exists s, x]. destruct (Hl m eq_refl) as [t Em].
  destruct (set_slot_spec i None x) as (x' & E & _ & E2 & _). rewrite Em, bind_some, E, bind_some.
  eexists _, x'. split_and!; [reflexivity|by cbn; rewrite lookup_insert_eq|done| |done].
  intros k Hk. cbn. destruct (decide (k = m)) as [->|Hne]; [by rewrite lookup_insert_eq|by rewrite lookup_insert_ne].
Qed.

(** Nor may a branch device be destroyed while a message to it is partly sent: the
    message is given up but stays at the head of the queue, its sender frees it and
    the next transmission reads it. *)
Theorem drm_dp_destroy_partly_sent send chunk0 bs s b x i m :
  length chunk0 = 48%nat -> idle bs -> reachable send chunk0 (start bs) s ->
  mstbs s !! b = Some x -> slot i x = Some m -> head (tx_msg_downq s) = Some m ->
  exists s1 s2, destroy_tx_slots b s = Some s1 /\ drm_dp_mst_wait_tx_reply m false s1 = Some s2 /\
    drm_dp_tx_work send chunk0 s2 = None.
Proof.
  intros Hch Hb Hr Ex _ Hq. pose proof (tx_reachable_inv send chunk0 _ s Hch (start_inv bs Hb) Hr) as Hinv.
  assert (forall j k, slot j x = Some k -> is_Some (msgs s !! k)) as Hl.
  { intros j k Hk. destruct (slot_live s b x j k Hinv Ex Hk) as (t & -> & _). by eexists. }
  unfold destroy_tx_slots. destruct (drop_slot_runs s b x false Ex (Hl false)) as (s1 & x1 & -> & Ex1 & E1 & L1 & Q1).
  rewrite bind_some. destruct (drop_slot_runs s1 b x1 true Ex1) as (s2 & x2 & -> & _ & _ & L2 & Q2).
  { intros k Hk. change true with (negb false) in Hk. rewrite E1 in Hk. by apply L1, (Hl true). }
  destruct (tx_msg_downq s) as [|k q] eqn:Eq; simplify_eq/=.
  assert (is_Some (msgs s2 !! m)) as [t Em].
  { apply L2, L1. destruct (proj1 (inv_queue s Hinv m)) as (t & Em & _); [rewrite Eq; by left|by exists t]. }
  eexists s2, _. split; [done|]. unfold drm_dp_mst_wait_tx_reply. rewrite Em, bind_some. cbn [negb]. split; [reflexivity|].
  unfold drm_dp_tx_work, process_single_down_tx_qlock. cbn [free_msg tx_msg_downq]. rewrite Q2, Q1.
  unfold process_single_tx_qlock. cbn [free_msg msgs]. by rewrite lookup_delete_eq.
Qed.

(** [drm_dp_send_up_ack_reply] does not use the sequence number it is given,
    although the reply should carry that of the request; and with both slots of the
    device taken it writes outside [tx_slots]. *)
Theorem drm_dp_up_ack_slots send chunk0 bs s m b x type : length chunk0 = 48%nat -> idle bs ->
  reachable send chunk0 (start bs) s -> msgs s !! m = None -> mstbs s !! b = Some x ->
  drm_dp_send_up_ack_reply send chunk0 m b type true s = drm_dp_send_up_ack_reply send chunk0 m b type false s /\
  (is_Some (tx_slot0 x) -> is_Some (tx_slot1 x) -> forall seq, drm_dp_send_up_ack_reply send chunk0 m b type seq s = None).
Proof.
  intros Hch Hb Hr Em Ex. pose proof (tx_reachable_inv send chunk0 _ s Hch (start_inv bs Hb) Hr) as Hinv.
  unfold drm_dp_send_up_ack_reply, process_single_up_tx_qlock, process_single_tx_qlock, set_msg.
  cbn [msgs mstbs tx_msg_downq]. rewrite !lookup_insert_eq, !bind_some. cbn [state]. rewrite !bool_decide_true by done.
  rewrite !insert_insert_eq. cbn [with_state with_seqno tx_msg cur_offset cur_len tx_dst tx_path_msg]. split; [done|].
  intros [k0 E0] [k1 E1] seq. rewrite lookup_insert_eq, bind_some. cbn [state]. rewrite bool_decide_true by done. rewrite insert_insert_eq.
  unfold set_hdr_from_dst_qlock. cbn [msgs mstbs]. rewrite lookup_insert_eq, bind_some.
  cbn [with_state with_seqno tx_msg cur_offset cur_len tx_dst tx_path_msg tx_seqno]. rewrite Ex, bind_some, E0, E1.
  rewrite !bool_decide_true by done. cbn. rewrite lookup_insert_eq. cbn. by rewrite Ex.
Qed.

(** ** Instances *)

Definition sample_mstbs : gmap nat drm_dp_mst_branch :=
  {[1%nat := {| mb_rad := replicate 8 0; mb_lct := 1; tx_slot0 := None; tx_slot1 := None; last_seqno := 0 |}]}.

Definition sample_tx (len : Z) : drm_dp_sideband_msg_tx :=
  {| tx_msg := replicate 256 1; cur_offset := 0; cur_len := len; tx_dst := 1; tx_seqno := 0;
     state := DRM_DP_SIDEBAND_TX_QUEUED; tx_path_msg := false |}.

Definition sample_start : mgr := start sample_mstbs.
Definition accept (_ : list Z) : bool := true.
Definition stack : buf := replicate 48 0.

Definition after (ops : list tx_op) : mgr := default sample_start (run_ops accept stack ops sample_start).

Lemma sample_idle : idle sample_mstbs.
Proof.
  intros b x Hx. unfold sample_mstbs in Hx. apply lookup_singleton_Some in Hx as [_ <-]. split; [|done]. unfold mstb_ok. cbn [mb_lct mb_rad last_seqno].
  split_and!; [lia|lia|done|apply Forall_replicate; unfold is_u8; lia|by left].
Qed.

Lemma sample_tx_ok len : 0 < len <= 255 -> msg_ok (sample_tx len).
Proof.
  intros Hl. split; cbn [sample_tx tx_msg cur_offset cur_len state tx_seqno]; try lia; try done.
  - apply Forall_replicate. unfold is_u8. lia.
  - intros [H|H]; discriminate H.
Qed.

Lemma queue_allowed s m len : 0 < len <= 255 -> msgs s !! m = None -> is_Some (mstbs s !! 1%nat) ->
  allowed (OpQueue m (sample_tx len)) s.
Proof. intros Hl Hm Hb. split_and!; [done|done|by apply sample_tx_ok|done]. Qed.

(** One message of 100 bytes, the first chunk of which is sent. *)
Lemma sample_partial : reachable accept stack sample_start (after [OpQueue 7 (sample_tx 100)]).
Proof.
  eapply (reachable_step _ _ _ sample_start _ (OpQueue 7 (sample_tx 100))); [constructor|apply queue_allowed; [lia|done|by eexists]|].
  by vm_compute.
Qed.

(** Two messages, one in each slot. *)
Lemma sample_full : reachable accept stack sample_start (after [OpQueue 7 (sample_tx 3); OpQueue 8 (sample_tx 3)]).
Proof.
  eapply (reachable_step _ _ _ (after [OpQueue 7 (sample_tx 3)]) _ (OpQueue 8 (sample_tx 3))); [|apply queue_allowed; [lia|by vm_compute|by vm_compute; eexists]|by vm_compute].
  eapply (reachable_step _ _ _ sample_start _ (OpQueue 7 (sample_tx 3))); [constructor|apply queue_allowed; [lia|done|by eexists]|].
  by vm_compute.
Qed.

Lemma drm_dp_tx_safe_witness :
  let s := after [OpQueue 7 (sample_tx 100)] in
  (forall op, allowed op s -> exists s', run_op accept stack op s = Some s') /\
  NoDup (tx_msg_downq s) /\
  (forall m, m ∈ tx_msg_downq s <-> exists t, msgs s !! m = Some t /\ sending t) /\
  (forall b x i m, mstbs s !! b = Some x ->
     slot i x = Some m <-> exists t, msgs s !! m = Some t /\ tx_dst t = b /\ occupies t i).
Proof. apply (drm_dp_tx_safe accept stack sample_mstbs); [done|apply sample_idle|apply sample_partial]. Defined.

Lemma drm_dp_tx_races_witness :
  let s := after [OpQueue 7 (sample_tx 100)] in
  (exists s1, drm_dp_mst_wait_tx_reply 7 true s = Some s1 /\ down_rep_finish 1 false 7 s1 = None) /\
  (head (tx_msg_downq s) = Some 7%nat ->
   exists s1 s2, run_op accept stack (OpReply 1 false) s = Some s1 /\ drm_dp_mst_wait_tx_reply 7 false s1 = Some s2 /\
     drm_dp_tx_work accept stack s2 = None).
Proof.
  eapply (drm_dp_tx_races accept stack sample_mstbs); [done|apply sample_idle|apply sample_partial|by vm_compute|done].
Defined.

Lemma drm_dp_up_ack_slots_witness :
  let s := after [OpQueue 7 (sample_tx 3); OpQueue 8 (sample_tx 3)] in
  drm_dp_send_up_ack_reply accept stack 9 1 DP_CONNECTION_STATUS_NOTIFY true s =
    drm_dp_send_up_ack_reply accept stack 9 1 DP_CONNECTION_STATUS_NOTIFY false s /\
  forall seq, drm_dp_send_up_ack_reply accept stack 9 1 DP_CONNECTION_STATUS_NOTIFY seq s = None.
Proof.
  edestruct (drm_dp_up_ack_slots accept stack sample_mstbs (after [OpQueue 7 (sample_tx 3); OpQueue 8 (sample_tx 3)]) 9 1) as [H1 H2];
    [done|apply sample_idle|apply sample_full|by vm_compute|by vm_compute|].
  split; [apply H1|]. intros seq. apply H2; by eexists.
Defined.
