(* ===== verification/DpPayload.v ===== *)
(** * DisplayPort MST bandwidth ([drm_dp_mst_topology.c], [drm_fixed.h])

    A stream to an MST port occupies time slots of the link.  The manager hands out
    payload and virtual channel numbers from two bit masks, keeps the wanted
    channels in [proposed_vcpis] and what the hardware was told in [payloads].
    Ports are named by identifiers; [proposed_vcpis[i]], a pointer to the [vcpi] of a
    port, is the port.  Hardware and message results are parameters.  [None] is an
    access outside an array.

    Theorems: the bandwidth computation rounds up exactly; channel numbers are
    distinct and the masks say which are taken; after an update the time slots of
    all payloads are contiguous and disjoint; an update that ends two neighbouring
    channels forgets to remove one; asking again with another bandwidth leaks the
    old channel number; switching MST off while a port holds a channel lets the
    same number be given out again. *)

From S2P Require Import Prelude Bytes.
From stdpp Require Import base gmap list option sets.
From Stdlib Require Import ZArith Lia ZifyBool.

#[local] Set Warnings "-clear-no-such-hyp".

#[local] Open Scope Z_scope.

(** ** Bandwidth *)

(** The [do ... while (--i != 0)] loop of [drm_fixp_from_fraction], on
    [res_abs] and [rem]. *)
Fixpoint fraction_bits (i : nat) (b_abs res_abs rem : Z) : Z * Z :=
  match i with
  | O => (res_abs, rem)
  | S i' =>
    let rem := u64 (Z.shiftl rem 1) in
    let res_abs := u64 (Z.shiftl res_abs 1) in
    if b_abs <=? rem then fraction_bits i' b_abs (Z.lor res_abs 1) (u64 (rem - b_abs))
    else fraction_bits i' b_abs res_abs rem
  end.

Definition DRM_FIXED_POINT : nat := 32.
Definition DRM_FIXED_ALMOST_ONE : Z := 2 ^ 32 - 1.

(** [None] is a division by zero. *)
Definition drm_fixp_from_fraction (a b : Z) : option Z :=
  let a_neg := a <? 0 in
  let b_neg := b <? 0 in
  let a_abs := u64 (if a_neg then - a else a) in
  let b_abs := u64 (if b_neg then - b else b) in
  if b_abs =? 0 then None
  else
    let '(res_abs, rem) := fraction_bits DRM_FIXED_POINT b_abs (a_abs / b_abs) (a_abs mod b_abs) in
    let res_abs := u64 (res_abs + (if b_abs <=? u64 (Z.shiftl rem 1) then 1 else 0)) in
    let res := s64 res_abs in
    Some (if xorb a_neg b_neg then s64 (- res) else res).

Definition drm_fixp2int (a : Z) : Z := s32 (Z.shiftr a 32).

Definition drm_fixp2int_ceil (a : Z) : Z :=
  if 0 <? a then drm_fixp2int (s64 (a + DRM_FIXED_ALMOST_ONE))
  else drm_fixp2int (s64 (a - DRM_FIXED_ALMOST_ONE)).

Definition drm_dp_calc_pbn_mode (clock bpp : Z) : option Z :=
  let kbps := u64 (s32 (clock * bpp)) in
  let numerator := 64 * 1006 in
  let denominator := 54 * 8 * 1000 * 1000 in
  let kbps := u64 (kbps * numerator) in
  peak_kbps ← drm_fixp_from_fraction (s64 kbps) denominator;
  Some (drm_fixp2int_ceil peak_kbps).

Definition DP_LINK_BW_1_62 : Z := 0x06.
Definition DP_LINK_BW_2_7 : Z := 0x0a.
Definition DP_LINK_BW_5_4 : Z := 0x14.

Definition drm_dp_get_vc_payload_bw (dp_link_bw dp_link_count : Z) : option Z :=
  if dp_link_bw =? DP_LINK_BW_1_62 then Some (3 * dp_link_count)
  else if dp_link_bw =? DP_LINK_BW_2_7 then Some (5 * dp_link_count)
  else if dp_link_bw =? DP_LINK_BW_5_4 then Some (10 * dp_link_count)
  else None.

(** ** The manager *)

Record drm_dp_vcpi := { vcpi : Z; pbn : Z; aligned_pbn : Z; num_slots : Z }.

Inductive payload_state := PAYLOAD_NONE | DP_PAYLOAD_LOCAL | DP_PAYLOAD_REMOTE | DP_PAYLOAD_DELETE_LOCAL.

#[global] Instance payload_state_eq_dec : EqDecision payload_state.
Proof. solve_decision. Defined.

Record drm_dp_payload := { pl_state : payload_state; pl_start_slot : Z; pl_num_slots : Z; pl_vcpi : Z }.

Definition payload_zero : drm_dp_payload :=
  {| pl_state := PAYLOAD_NONE; pl_start_slot := 0; pl_num_slots := 0; pl_vcpi := 0 |}.

Record payload_mgr := {
  max_payloads : nat; pbn_div : Z; payload_mask : Z; vcpi_mask : Z;
  proposed_vcpis : list (option nat); payloads : list drm_dp_payload; ports : gmap nat drm_dp_vcpi
}.

Definition set_masks (p v : Z) (s : payload_mgr) : payload_mgr :=
  {| max_payloads := max_payloads s; pbn_div := pbn_div s; payload_mask := p; vcpi_mask := v;
     proposed_vcpis := proposed_vcpis s; payloads := payloads s; ports := ports s |}.
Definition set_proposed (l : list (option nat)) (s : payload_mgr) : payload_mgr :=
  {| max_payloads := max_payloads s; pbn_div := pbn_div s; payload_mask := payload_mask s; vcpi_mask := vcpi_mask s;
     proposed_vcpis := l; payloads := payloads s; ports := ports s |}.
Definition set_payloads (l : list drm_dp_payload) (s : payload_mgr) : payload_mgr :=
  {| max_payloads := max_payloads s; pbn_div := pbn_div s; payload_mask := payload_mask s; vcpi_mask := vcpi_mask s;
     proposed_vcpis := proposed_vcpis s; payloads := l; ports := ports s |}.
Definition set_port (p : nat) (v : drm_dp_vcpi) (s : payload_mgr) : payload_mgr :=
  {| max_payloads := max_payloads s; pbn_div := pbn_div s; payload_mask := payload_mask s; vcpi_mask := vcpi_mask s;
     proposed_vcpis := proposed_vcpis s; payloads := payloads s; ports := <[p := v]> (ports s) |}.

(** [drm_dp_mst_topology_mgr_init] *)
Definition drm_dp_mst_topology_mgr_init (max : nat) (div : Z) (ps : gmap nat drm_dp_vcpi) : result payload_mgr :=
  if (64 <? max + 1)%nat then Err EINVAL
  else Ok {| max_payloads := max; pbn_div := div; payload_mask := Z.setbit 0 0; vcpi_mask := 0;
             proposed_vcpis := replicate max None; payloads := replicate max payload_zero; ports := ps |}.

(** The first zero bit below [size], or [size]. *)
Fixpoint first_zero_from (mask : Z) (i : Z) (fuel : nat) : Z :=
  match fuel with
  | O => i
  | S fuel' => if Z.testbit mask i then first_zero_from mask (i + 1) fuel' else i
  end.
Definition find_first_zero_bit (mask : Z) (size : nat) : Z := first_zero_from mask 0 size.

Definition drm_dp_mst_assign_payload_id (port : nat) (s : payload_mgr) : option (result Z * payload_mgr) :=
  let max := Z.of_nat (max_payloads s) in
  let ret := find_first_zero_bit (payload_mask s) (max_payloads s + 1) in
  if max <? ret then Some (Err EINVAL, s)
  else
    let vcpi_ret := find_first_zero_bit (vcpi_mask s) (max_payloads s + 1) in
    if max <? vcpi_ret then Some (Err EINVAL, s)
    else
      let s := set_masks (Z.setbit (payload_mask s) ret) (Z.setbit (vcpi_mask s) vcpi_ret) s in
      v ← ports s !! port;
      let s := set_port port {| vcpi := vcpi_ret + 1; pbn := pbn v; aligned_pbn := aligned_pbn v; num_slots := num_slots v |} s in
      _ ← (if ret <? 1 then None else proposed_vcpis s !! Z.to_nat (ret - 1));
      Some (Ok ret, set_proposed (<[Z.to_nat (ret - 1) := Some port]> (proposed_vcpis s)) s).

(** The loop over [proposed_vcpis] of [drm_dp_mst_put_payload_id]. *)
Fixpoint put_loop (v : Z) (ps : gmap nat drm_dp_vcpi) (i : nat) (l : list (option nat)) (mask : Z) : list (option nat) * Z :=
  match l with
  | [] => ([], mask)
  | o :: l' =>
    let hit := match o with Some p => bool_decide ((vcpi <$> ps !! p) = Some v) | None => false end in
    let mask := if hit then Z.clearbit mask (Z.of_nat i + 1) else mask in
    let '(l', mask) := put_loop v ps (S i) l' mask in
    ((if hit then None else o) :: l', mask)
  end.

Definition drm_dp_mst_put_payload_id (v : Z) (s : payload_mgr) : payload_mgr :=
  if v =? 0 then s
  else
    let '(l, mask) := put_loop v (ports s) 0 (proposed_vcpis s) (payload_mask s) in
    set_proposed l (set_masks mask (Z.clearbit (vcpi_mask s) (v - 1)) s).

(** [DIV_ROUND_UP] of the host kernel headers; [None] is a division by zero. *)
Definition DIV_ROUND_UP (n d : Z) : option Z :=
  if d =? 0 then None else Some (Z.quot (s32 (n + (d - 1))) d).

Definition drm_dp_find_vcpi_slots (pbn : Z) (s : payload_mgr) : option (result Z) :=
  n ← DIV_ROUND_UP pbn (pbn_div s);
  Some (if 63 <? n then Err ENOSPC else Ok n).

(** The slots left in the atomic state; [validated] as in [drm_dp_mst_allocate_vcpi]
    below, the state lookup succeeds. *)
Definition drm_dp_atomic_find_vcpi_slots (validated : bool) (pbn avail_slots : Z) (s : payload_mgr)
    : option (result Z * Z) :=
  if negb validated then Some (Err EINVAL, avail_slots)
  else
    req_slots ← DIV_ROUND_UP pbn (pbn_div s);
    Some (if avail_slots <? req_slots then (Err ENOSPC, avail_slots)
          else (Ok req_slots, s32 (avail_slots - req_slots))).

Definition drm_dp_atomic_release_vcpi_slots (slots avail_slots : Z) : Z := s32 (avail_slots + slots).

Definition drm_dp_mst_get_vcpi_slots (validated : bool) (port : nat) (s : payload_mgr) : option Z :=
  if negb validated then Some 0 else v ← ports s !! port; Some (num_slots v).

Definition drm_dp_init_vcpi (port : nat) (pbn slots : Z) (s : payload_mgr) : option (result unit * payload_mgr) :=
  if 63 <? slots then Some (Err ENOSPC, s)
  else
    v ← ports s !! port;
    let s := set_port port {| vcpi := vcpi v; pbn := pbn; aligned_pbn := s32 (slots * pbn_div s); num_slots := slots |} s in
    '(ret, s) ← drm_dp_mst_assign_payload_id port s;
    Some (match ret with Ok _ => Ok tt | Err e => Err e end, s).

(** [validated]: whether [drm_dp_get_validated_port_ref] still finds the port. *)
Definition drm_dp_mst_allocate_vcpi (validated : bool) (port : nat) (pbn_ slots : Z) (s : payload_mgr) : option (bool * payload_mgr) :=
  if negb validated then Some (false, s)
  else if slots <? 0 then Some (false, s)
  else
    v ← ports s !! port;
    if (0 <? vcpi v) && (pbn_ =? pbn v) then Some (true, s)
    else
      '(ret, s) ← drm_dp_init_vcpi port pbn_ slots s;
      Some (is_ok ret, s).

Definition drm_dp_mst_reset_vcpi_slots (validated : bool) (port : nat) (s : payload_mgr) : option payload_mgr :=
  if negb validated then Some s
  else
    v ← ports s !! port;
    Some (set_port port {| vcpi := vcpi v; pbn := pbn v; aligned_pbn := aligned_pbn v; num_slots := 0 |} s).

Definition drm_dp_mst_deallocate_vcpi (validated : bool) (port : nat) (s : payload_mgr) : option payload_mgr :=
  if negb validated then Some s
  else
    v ← ports s !! port;
    let s := drm_dp_mst_put_payload_id (vcpi v) s in
    Some (set_port port {| vcpi := 0; pbn := 0; aligned_pbn := 0; num_slots := 0 |} s).

(** ** Updating the payload table *)

Section Update.

(** Results of the hardware and of messages: whether the table entry of channel
    [id] could be written, whether a port is still there, what
    [drm_dp_payload_send_msg] returned. *)
Variable write_ok : Z -> bool.
Variable validated : nat -> bool.
Variable send_msg : nat -> Z -> result unit.

(** [drm_dp_create_payload_step1], the new [payload_state]. *)
Definition drm_dp_create_payload_step1 (id : Z) : payload_state :=
  if write_ok id then DP_PAYLOAD_LOCAL else PAYLOAD_NONE.

(** [drm_dp_destroy_payload_step1]; it is okay for its calls to fail. *)
Definition drm_dp_destroy_payload_step1 : payload_state := DP_PAYLOAD_DELETE_LOCAL.

(** One turn of the first loop: the entry, what is proposed for it and the first
    free slot; returns the entry and the slots it takes. [None]: the function
    returns [-EINVAL]. *)
Definition update_payload (cur_slots : Z) (p : drm_dp_payload) (prop : option (bool * drm_dp_vcpi))
    : option (drm_dp_payload * Z) :=
  match prop with
  | Some (false, _) => None
  | _ =>
    let '(req_slots, req_vcpi) := match prop with Some (_, v) => (num_slots v, vcpi v) | None => (0, 0) end in
    let p := {| pl_state := pl_state p; pl_start_slot := cur_slots; pl_num_slots := pl_num_slots p; pl_vcpi := pl_vcpi p |} in
    Some (if negb (pl_num_slots p =? req_slots) then
            if negb (req_slots =? 0) then
              {| pl_state := drm_dp_create_payload_step1 req_vcpi; pl_start_slot := cur_slots;
                 pl_num_slots := req_slots; pl_vcpi := req_vcpi |}
            else
              {| pl_state := drm_dp_destroy_payload_step1; pl_start_slot := 0; pl_num_slots := 0; pl_vcpi := pl_vcpi p |}
          else p, req_slots)
  end.

(** The first loop from entry [i] on; the flag says that it ran to its end. *)
Fixpoint update_loop (cur_slots : Z) (ps : list drm_dp_payload) (props : list (option (bool * drm_dp_vcpi)))
    : bool * list drm_dp_payload :=
  match ps, props with
  | p :: ps', o :: props' =>
    match update_payload cur_slots p o with
    | None => (false, ps)
    | Some (p, n) => let '(ok, ps') := update_loop (s32 (cur_slots + n)) ps' props' in (ok, p :: ps')
    end
  | _, _ => (true, ps)
  end.

(** The inner loop of the removal of entry [i]: the masks of the entries that move. *)
Fixpoint shift_mask (vs : gmap nat drm_dp_vcpi) (j : nat) (l : list (option nat)) (mask : Z) : Z :=
  match l with
  | [] => mask
  | o :: l' =>
    let used := match o with
                | Some p => match vs !! p with Some v => negb (num_slots v =? 0) | None => false end
                | None => false
                end in
    shift_mask vs (S j) l' (if used then Z.setbit mask (Z.of_nat j + 1) else Z.clearbit mask (Z.of_nat j + 1))
  end.

Definition remove_payload (i : nat) (s : payload_mgr) : payload_mgr :=
  let moved := drop (S i) (proposed_vcpis s) in
  let mask := shift_mask (ports s) i moved (payload_mask s) in
  {| max_payloads := max_payloads s; pbn_div := pbn_div s;
     payload_mask := Z.clearbit mask (Z.of_nat (max_payloads s)); vcpi_mask := vcpi_mask s;
     proposed_vcpis := take i (proposed_vcpis s) ++ moved ++ [None];
     payloads := take i (payloads s) ++ drop (S i) (payloads s) ++ [payload_zero]; ports := ports s |}.

(** The second loop; [k] entries from [i] on. *)
Fixpoint remove_loop (k i : nat) (s : payload_mgr) : payload_mgr :=
  match k with
  | O => s
  | S k' =>
    let s := match payloads s !! i with
             | Some p => if decide (pl_state p = DP_PAYLOAD_DELETE_LOCAL) then remove_payload i s else s
             | None => s
             end in
    remove_loop k' (S i) s
  end.

(** What is proposed for each entry, and whether its port is still there. *)
Definition proposals (s : payload_mgr) : list (option (bool * drm_dp_vcpi)) :=
  (fun o => p ← o; v ← ports s !! p; Some (validated p, v)) <$> proposed_vcpis s.

Definition drm_dp_update_payload_part1 (s : payload_mgr) : result unit * payload_mgr :=
  let '(ok, ps) := update_loop 1 (payloads s) (proposals s) in
  let s := set_payloads ps s in
  if negb ok then (Err EINVAL, s) else (Ok tt, remove_loop (max_payloads s) 0 s).

(** The call for one entry ([drm_dp_create_payload_step2],
    [drm_dp_destroy_payload_step2]): its result and the new [payload_state]. *)
Definition payload_step2 (port : nat) (pbn_ : Z) (st : payload_state) : result unit * payload_state :=
  match st with
  | DP_PAYLOAD_LOCAL =>
    match send_msg port pbn_ with
    | Ok _ => (Ok tt, DP_PAYLOAD_REMOTE)
    | Err e => (Err e, DP_PAYLOAD_LOCAL)
    end
  | DP_PAYLOAD_DELETE_LOCAL => (Ok tt, PAYLOAD_NONE)
  | st => (Ok tt, st)
  end.

(** The loop of part 2 from entry [i] on. *)
Fixpoint part2_loop (i : nat) (props : list (option nat)) (s : payload_mgr) : option (result unit * payload_mgr) :=
  match props with
  | [] => Some (Ok tt, s)
  | None :: props' => part2_loop (S i) props' s
  | Some port :: props' =>
    v ← ports s !! port;
    p ← payloads s !! i;
    let '(ret, st) := payload_step2 port (pbn v) (pl_state p) in
    let s := set_payloads (<[i := {| pl_state := st; pl_start_slot := pl_start_slot p; pl_num_slots := pl_num_slots p;
                                     pl_vcpi := pl_vcpi p |}]> (payloads s)) s in
    match ret with
    | Ok _ => part2_loop (S i) props' s
    | Err e => Some (Err e, s)
    end
  end.

Definition drm_dp_update_payload_part2 (s : payload_mgr) : option (result unit * payload_mgr) :=
  part2_loop 0 (proposed_vcpis s) s.

End Update.

(** ** Ports that come and go *)

(** [drm_dp_add_port]: the [vcpi] of a port is zeroed when it is allocated. *)
Definition port_idle : drm_dp_vcpi := {| vcpi := 0; pbn := 0; aligned_pbn := 0; num_slots := 0 |}.
Definition add_port (p : nat) (s : payload_mgr) : payload_mgr := set_port p port_idle s.

(** [drm_dp_destroy_port] of an output port, when its last reference is dropped. *)
Definition destroy_port (p : nat) (s : payload_mgr) : option payload_mgr :=
  v ← ports s !! p;
  Some (set_port p {| vcpi := vcpi v; pbn := pbn v; aligned_pbn := aligned_pbn v; num_slots := 0 |} s).

(** [drm_dp_free_mst_port]: [kfree(port)]. *)
Definition free_port (p : nat) (s : payload_mgr) : payload_mgr :=
  {| max_payloads := max_payloads s; pbn_div := pbn_div s; payload_mask := payload_mask s; vcpi_mask := vcpi_mask s;
     proposed_vcpis := proposed_vcpis s; payloads := payloads s; ports := delete p (ports s) |}.

(** One turn of [drm_dp_destroy_connector_work]: the channel of an output port is
    given back before the port is freed. *)
Definition destroy_connector_port (write_ok : Z -> bool) (validated : nat -> bool) (p : nat) (s : payload_mgr)
    : option payload_mgr :=
  v ← ports s !! p;
  s ← (if 0 <? vcpi v then
         s ← drm_dp_mst_reset_vcpi_slots (validated p) p s;
         let '(_, s) := drm_dp_update_payload_part1 write_ok validated s in
         v ← ports s !! p;
         Some (drm_dp_mst_put_payload_id (vcpi v) s)
       else Some s);
  Some (free_port p s).

(** [drm_dp_mst_topology_mgr_set_mst(mgr, false)]: the table and both masks start
    anew; the proposals and the ports stay. *)
Definition set_mst_off (s : payload_mgr) : payload_mgr :=
  set_masks (Z.setbit 0 0) 0 (set_payloads (replicate (max_payloads s) payload_zero) s).

(** ** The bandwidth computation is exact *)

Lemma lor_one_even x : 0 <= x -> Z.lor (2 * x) 1 = 2 * x + 1.
Proof. destruct x; [reflexivity..|lia]. Qed.

(** The loop appends [i] binary digits to the quotient. *)
Lemma fraction_bits_spec i b res rem :
  0 < b < 2 ^ 63 -> 0 <= rem < b -> 0 <= res -> res * 2 ^ Z.of_nat i + 2 ^ Z.of_nat i <= 2 ^ 64 ->
  let '(res', rem') := fraction_bits i b res rem in
  res' * b + rem' = (res * b + rem) * 2 ^ Z.of_nat i /\ 0 <= rem' < b.
Proof.
  intros Hb. revert res rem. induction i as [|i IH]; intros res rem Hr H0 Hs.
  - simpl in *. lia.
  - rewrite Nat2Z.inj_succ, Z.pow_succ_r in * by lia.
    pose proof (Z.pow_pos_nonneg 2 (Z.of_nat i) ltac:(lia) ltac:(lia)).
    assert (2 * res + 2 <= 2 ^ 64) by nia.
    cbn [fraction_bits]. rewrite !Z.shiftl_mul_pow2 by lia. change (2 ^ 1) with 2.
    rewrite !u64_small by (unfold is_u64; lia).
    rewrite (Z.mul_comm res 2), (Z.mul_comm rem 2).
    destruct (b <=? 2 * rem) eqn:E.
    + rewrite lor_one_even, (u64_small (2 * rem - b)) by (unfold is_u64; lia).
      specialize (IH (2 * res + 1) (2 * rem - b) ltac:(lia) ltac:(lia) ltac:(nia)).
      destruct (fraction_bits _ _ _ _) as [res' rem']. split; [|lia].
      destruct IH as [-> _]. ring.
    + specialize (IH (2 * res) (2 * rem) ltac:(lia) ltac:(lia) ltac:(nia)).
      destruct (fraction_bits _ _ _ _) as [res' rem']. split; [|lia].
      destruct IH as [-> _]. ring.
Qed.

(** [a / b] rounded to the nearest multiple of [2 ^ -32]. *)
Lemma drm_fixp_from_fraction_spec a b :
  0 <= a -> 0 < b < 2 ^ 63 -> a / b < 2 ^ 30 -> a < 2 ^ 63 ->
  exists x, drm_fixp_from_fraction a b = Some x /\ 2 * a * 2 ^ 32 - b < 2 * x * b <= 2 * a * 2 ^ 32 + b.
Proof.
  intros Ha Hb Hq Ha'. pose proof (Z.div_pos a b ltac:(lia) ltac:(lia)).
  pose proof (Z.mod_pos_bound a b ltac:(lia)). pose proof (Z.div_mod a b ltac:(lia)) as Hd.
  unfold drm_fixp_from_fraction, DRM_FIXED_POINT.
  rewrite (proj2 (Z.ltb_ge a 0)), (proj2 (Z.ltb_ge b 0)), !(u64_small a), !(u64_small b) by (unfold is_u64; lia).
  rewrite (proj2 (Z.eqb_neq b 0)) by lia.
  pose proof (fraction_bits_spec 32 b (a / b) (a mod b) Hb ltac:(lia) ltac:(lia) ltac:(lia)) as Hs.
  destruct (fraction_bits _ _ _ _) as [r m]. destruct Hs as [E Hm]. change (Z.of_nat 32) with 32 in E.
  assert (r * b + m = a * 2 ^ 32) as E' by (rewrite E; f_equal; lia). clear E.
  assert (0 <= r < 2 ^ 62) by nia.
  rewrite Z.shiftl_mul_pow2, (u64_small (m * 2 ^ 1)) by (unfold is_u64; lia).
  cbn [xorb]. eexists. split; [reflexivity|].
  rewrite u64_small, s64_small by (unfold is_u64; case_match; lia).
  case_match; nia.
Qed.

(** The least integer not below the fixed point number. *)
Lemma drm_fixp2int_ceil_spec x q :
  0 < x < 2 ^ 62 -> - 2 ^ 31 <= q < 2 ^ 31 -> (q - 1) * 2 ^ 32 < x <= q * 2 ^ 32 -> drm_fixp2int_ceil x = q.
Proof.
  intros Hx Hq H. unfold drm_fixp2int_ceil, drm_fixp2int, DRM_FIXED_ALMOST_ONE.
  rewrite (proj2 (Z.ltb_lt 0 x)), s64_small, Z.shiftr_div_pow2 by lia.
  replace ((x + (2 ^ 32 - 1)) / 2 ^ 32) with q; [apply s32_small; unfold is_s32; lia|].
  apply Z.div_unique_pos with (x + (2 ^ 32 - 1) - 2 ^ 32 * q); lia.
Qed.

(** For a mode whose data rate is positive and fits an [int], the number of
    bandwidth units (54/64 MByte/s each) returned is the least one that carries the
    rate with the margin of 0.6%: the fixed point rounding never changes the result. *)
Theorem drm_dp_calc_pbn_mode_least clock bpp :
  0 < clock * bpp < 2 ^ 31 ->
  exists n, drm_dp_calc_pbn_mode clock bpp = Some n /\
    clock * bpp * 1006 * 64 <= n * (54 * 8 * 1000 * 1000) /\
    (n - 1) * (54 * 8 * 1000 * 1000) < clock * bpp * 1006 * 64.
Proof.
  intros H. unfold drm_dp_calc_pbn_mode. set (r := clock * bpp) in *.
  rewrite s32_small, (u64_small r), u64_small, s64_small by (unfold is_s32, is_u64; lia).
  set (a := r * (64 * 1006)). set (b := 54 * 8 * 1000 * 1000).
  destruct (drm_fixp_from_fraction_spec a b) as (x & -> & Hx);
    [lia|lia|apply Z.div_lt_upper_bound; lia|lia|].
  rewrite bind_some. set (q := (a + b - 1) / b).
  pose proof (Z.div_mod (a + b - 1) b ltac:(lia)) as Hd.
  pose proof (Z.mod_pos_bound (a + b - 1) b ltac:(lia)). fold q in Hd.
  exists q. split; [f_equal|lia].
  apply drm_fixp2int_ceil_spec; lia.
Qed.

Lemma drm_dp_calc_pbn_mode_least_witness :
  0 < 154000 * 30 < 2 ^ 31 /\ drm_dp_calc_pbn_mode 154000 30 = Some 689 /\
  exists n, drm_dp_calc_pbn_mode 154000 30 = Some n /\
    154000 * 30 * 1006 * 64 <= n * (54 * 8 * 1000 * 1000) /\
    (n - 1) * (54 * 8 * 1000 * 1000) < 154000 * 30 * 1006 * 64.
Proof. split; [lia|]. split; [reflexivity|]. apply (drm_dp_calc_pbn_mode_least 154000 30). lia. Defined.

(** ** Channel numbers *)

(** [vcpi_mask] holds exactly the channel numbers ports own, no two ports own the
    same one; a proposed port owns one and is proposed once; the payload number of
    a proposed port that wants slots is taken, and a taken one is proposed. *)
Record payload_ok (s : payload_mgr) : Prop := {
  ok_max : (max_payloads s <= 63)%nat;
  ok_proposed_len : length (proposed_vcpis s) = max_payloads s;
  ok_payloads_len : length (payloads s) = max_payloads s;
  ok_zero : Z.testbit (payload_mask s) 0 = true;
  ok_slots : forall p v, ports s !! p = Some v -> 0 <= num_slots v <= 63;
  ok_owned : forall p v, ports s !! p = Some v -> vcpi v <> 0 ->
    0 < vcpi v /\ Z.testbit (vcpi_mask s) (vcpi v - 1) = true;
  ok_taken : forall n, Z.testbit (vcpi_mask s) n = true ->
    exists p v, ports s !! p = Some v /\ vcpi v = n + 1;
  ok_distinct : forall p q v w, ports s !! p = Some v -> ports s !! q = Some w ->
    vcpi v = vcpi w -> vcpi v <> 0 -> p = q;
  ok_proposed : forall i p, proposed_vcpis s !! i = Some (Some p) ->
    exists v, ports s !! p = Some v /\ vcpi v <> 0;
  ok_once : forall i j p, proposed_vcpis s !! i = Some (Some p) -> proposed_vcpis s !! j = Some (Some p) -> i = j;
  ok_masked : forall i p v, proposed_vcpis s !! i = Some (Some p) -> ports s !! p = Some v ->
    num_slots v <> 0 -> Z.testbit (payload_mask s) (Z.of_nat i + 1) = true;
  ok_mask : forall i, (i < max_payloads s)%nat -> Z.testbit (payload_mask s) (Z.of_nat i + 1) = true ->
    exists p, proposed_vcpis s !! i = Some (Some p);
  ok_deleted : forall i p, payloads s !! i = Some p -> pl_state p = DP_PAYLOAD_DELETE_LOCAL -> pl_num_slots p = 0
}.

Lemma first_zero_from_spec mask i fuel :
  0 <= i ->
  let r := first_zero_from mask i fuel in
  i <= r <= i + Z.of_nat fuel /\ (forall k, i <= k < r -> Z.testbit mask k = true) /\
  (r < i + Z.of_nat fuel -> Z.testbit mask r = false).
Proof.
  revert i. induction fuel as [|fuel IH]; intros i Hi; cbn [first_zero_from].
  - split_and!; [lia..|lia].
  - destruct (Z.testbit mask i) eqn:E; [|split_and!; [lia..|done]].
    destruct (IH (i + 1) ltac:(lia)) as (H1 & H2 & H3). split_and!; [lia..| |].
    + intros k Hk. destruct (decide (k = i)) as [->|]; [done|]. apply H2. lia.
    + intros H. apply H3. lia.
Qed.

(** The least clear bit not above [max], if there is one. *)
Lemma find_first_zero_bit_spec mask max :
  let r := find_first_zero_bit mask (max + 1) in
  0 <= r /\ (forall k, 0 <= k < r -> Z.testbit mask k = true) /\
  (r <= Z.of_nat max -> Z.testbit mask r = false).
Proof.
  destruct (first_zero_from_spec mask 0 (max + 1) ltac:(lia)) as (H1 & H2 & H3).
  unfold find_first_zero_bit. split_and!; [lia|done|]. intros H. apply H3. lia.
Qed.

Ltac mgr_simpl :=
  cbn [set_proposed set_masks set_port set_payloads max_payloads pbn_div payload_mask vcpi_mask
       proposed_vcpis payloads ports].

(** Changing a port that keeps its channel number; slots may appear only on a port
    that is not proposed or already had some. *)
Lemma set_port_ok s p v v' :
  payload_ok s -> ports s !! p = Some v -> vcpi v' = vcpi v -> 0 <= num_slots v' <= 63 ->
  (vcpi v = 0 \/ num_slots v <> 0 \/ num_slots v' = 0) -> payload_ok (set_port p v' s).
Proof.
  intros H Hp Hv Hn Hs.
  assert (forall q w, ports (set_port p v' s) !! q = Some w ->
    exists w0, ports s !! q = Some w0 /\ vcpi w0 = vcpi w /\ 0 <= num_slots w <= 63 /\
      (vcpi w0 = 0 \/ num_slots w0 <> 0 \/ num_slots w = 0)) as Hback.
  { intros q w. simpl. rewrite lookup_insert_Some. intros [[<- <-]|[? Hq]]; [by eauto 6|].
    exists w. split; [done|]. split; [done|]. split; [apply (ok_slots s H q w Hq)|].
    destruct (decide (num_slots w = 0)); auto. }
  split; simpl; try apply H.
  - intros q w Hq. by destruct (Hback _ _ Hq) as (? & ? & ? & ? & ?).
  - intros q w Hq. destruct (Hback _ _ Hq) as (w0 & Hq0 & <- & _). by apply (ok_owned s H q).
  - intros n Hb. destruct (ok_taken s H n Hb) as (q & w & Hq & Hw).
    destruct (decide (q = p)) as [->|Hne]; simplify_eq.
    + exists p, v'. by rewrite lookup_insert_eq, Hv.
    + exists q, w. by rewrite lookup_insert_ne.
  - intros q q' w w' Hq Hq'. destruct (Hback _ _ Hq) as (? & ? & <- & _), (Hback _ _ Hq') as (? & ? & <- & _).
    by eapply (ok_distinct s H).
  - intros i q Hi. destruct (ok_proposed s H i q Hi) as (w & Hq & Hw).
    destruct (decide (q = p)) as [->|Hne]; simplify_eq.
    + exists v'. by rewrite lookup_insert_eq, Hv.
    + exists w. by rewrite lookup_insert_ne.
  - intros i q w Hi Hq Hw. destruct (Hback _ _ Hq) as (w0 & Hq0 & _ & _ & Hc).
    apply (ok_masked s H i q w0 Hi Hq0).
    destruct (ok_proposed s H i q Hi) as (? & ? & ?). simplify_eq. naive_solver.
Qed.

(** A fresh payload and channel number. *)
Lemma assign_ok s p v ret s' :
  payload_ok s -> ports s !! p = Some v -> vcpi v = 0 ->
  drm_dp_mst_assign_payload_id p s = Some (ret, s') ->
  payload_ok s' /\ (forall e, ret = Err e -> s' = s).
Proof.
  intros H Hp Hv. unfold drm_dp_mst_assign_payload_id.
  destruct (find_first_zero_bit_spec (payload_mask s) (max_payloads s)) as (Hr0 & _ & Hr).
  destruct (find_first_zero_bit_spec (vcpi_mask s) (max_payloads s)) as (Hc0 & _ & Hc).
  set (r := find_first_zero_bit (payload_mask s) _) in *.
  set (c := find_first_zero_bit (vcpi_mask s) _) in *.
  case_match eqn:E1; [by intros; simplify_eq|]. case_match eqn:E2; [by intros; simplify_eq|].
  mgr_simpl. rewrite Hp, bind_some. mgr_simpl.
  specialize (Hr ltac:(lia)). specialize (Hc ltac:(lia)).
  assert (r <> 0) by (intros E; rewrite E, (ok_zero s H) in Hr; done).
  case_match eqn:E3; [done|]. destruct (proposed_vcpis s !! Z.to_nat (r - 1)) as [o|] eqn:Ho; [|done].
  rewrite bind_some. intros [= <- <-]. split; [|done].
  assert (forall q w, ports s !! q = Some w -> vcpi w <> c + 1) as Hfresh.
  { intros q w Hq Hw. destruct (ok_owned s H q w Hq ltac:(lia)) as [_ Hb].
    rewrite Hw, Z.add_simpl_r, Hc in Hb. done. }
  assert (forall i, proposed_vcpis s !! i <> Some (Some p)) as Hnp.
  { intros i Hi. destruct (ok_proposed s H i p Hi) as (? & ? & ?). by simplify_eq. }
  split; mgr_simpl.
  - apply H.
  - rewrite length_insert. apply H.
  - apply H.
  - rewrite Z.setbit_neq by lia. apply H.
  - intros q w. rewrite lookup_insert_Some. intros [[<- <-]|[_ Hq]]; [|by apply (ok_slots s H q)].
    apply (ok_slots s H p v Hp).
  - intros q w. rewrite lookup_insert_Some. intros [[<- <-]|[_ Hq]] Hw; simpl in *.
    + rewrite Z.add_simpl_r, Z.setbit_eq by lia. lia.
    + destruct (ok_owned s H q w Hq Hw). by rewrite Z.setbit_iff by lia; auto.
  - intros n. rewrite Z.setbit_iff by lia. intros [<-|Hb].
    + eexists p, _. rewrite lookup_insert_eq. eauto.
    + destruct (ok_taken s H n Hb) as (q & w & Hq & Hw). exists q, w. rewrite lookup_insert_ne; [done|].
      intros <-. simplify_eq. by rewrite Z.testbit_neg_r in Hb by lia.
  - intros q q' w w'. rewrite !lookup_insert_Some.
    intros [[<- <-]|[Hn Hq]] [[<- <-]|[Hn' Hq']] E Hw; simpl in *; [done| | |].
    + by destruct (Hfresh _ _ Hq').
    + by destruct (Hfresh _ _ Hq).
    + by apply (ok_distinct s H q q' w w').
  - intros i q. rewrite list_lookup_insert_Some. intros [(_ & [= <-] & _)|[_ Hi]].
    + eexists. rewrite lookup_insert_eq. split; [done|]. simpl. lia.
    + destruct (ok_proposed s H i q Hi) as (w & Hq & Hw). exists w. rewrite lookup_insert_ne; [done|].
      intros <-. by apply (Hnp i).
  - intros i j q. rewrite !list_lookup_insert_Some. 
    intros [(<- & [= <-] & _)|[Hn Hi]] [(<- & E & _)|[Hn' Hj]]; [done| | |by apply (ok_once s H i j q)].
    + by destruct (Hnp j).
    + simplify_eq. by destruct (Hnp i).
  - intros i q w. rewrite list_lookup_insert_Some, lookup_insert_Some, Z.setbit_iff by lia.
    intros [(<- & _ & _)|[Hne Hi]] Hq Hw; [left; lia|right].
    apply (ok_masked s H i q w Hi); [|done]. destruct Hq as [[<- _]|[_ ?]]; [by destruct (Hnp i)|done].
  - intros i Hi. rewrite Z.setbit_iff by lia. intros Hb.
    destruct (decide (i = Z.to_nat (r - 1))) as [->|Hne].
    + exists p. apply list_lookup_insert_eq. by eapply lookup_lt_Some.
    + rewrite list_lookup_insert_ne by done. apply (ok_mask s H i Hi). destruct Hb; [lia|done].
  - apply H.
Qed.

(** Whether [proposed_vcpis[i]] points at channel [v]. *)
Definition put_hit (v : Z) (ps : gmap nat drm_dp_vcpi) (o : option nat) : bool :=
  match o with Some p => bool_decide ((vcpi <$> ps !! p) = Some v) | None => false end.

Lemma put_loop_spec v ps i l mask :
  let '(l', mask') := put_loop v ps i l mask in
  l' = (fun o => if put_hit v ps o then None else o) <$> l /\
  forall n, Z.testbit mask' n = true <->
    Z.testbit mask n = true /\ forall k o, l !! k = Some o -> put_hit v ps o = true -> n <> Z.of_nat (i + k) + 1.
Proof.
  revert i mask. induction l as [|o l IH]; intros i mask; cbn [put_loop].
  - split; [done|]. intros n. split; [|by intros [? _]]. intros H. by split.
  - fold (put_hit v ps o). set (m := if put_hit v ps o then _ else _).
    specialize (IH (S i) m). destruct (put_loop v ps (S i) l m) as [l' mask']. destruct IH as [-> IH].
    split; [done|]. intros n. rewrite IH. subst m. split.
    + intros [Hm Hk]. split.
      * destruct (put_hit v ps o); [|done]. rewrite Z.clearbit_iff in Hm by lia. by destruct Hm.
      * intros [|k] o' Ho Hh; simplify_eq/=.
        -- rewrite Hh, Z.clearbit_iff in Hm by lia. destruct Hm as [_ Hm]. rewrite Nat.add_0_r. congruence.
        -- specialize (Hk k o' Ho Hh). by rewrite <- plus_n_Sm.
    + intros [Hm Hk]. split.
      * destruct (put_hit v ps o) eqn:Hh; [|done]. apply Z.clearbit_iff. split; [done|].
        intros E. apply (Hk 0%nat o eq_refl Hh). lia.
      * intros k o' Ho Hh. rewrite Nat.add_succ_comm. by apply (Hk (S k) o').
Qed.

(** Only pointers at the port that owns the channel are hit. *)
Lemma put_hit_owner s p v o :
  payload_ok s -> ports s !! p = Some v -> vcpi v <> 0 ->
  put_hit (vcpi v) (ports s) o = bool_decide (o = Some p).
Proof.
  intros H Hp Hv. destruct o as [q|]; simpl; [|done].
  apply bool_decide_ext. rewrite fmap_Some. split; [|intros [= ->]; eauto].
  intros (w & Hq & Hw). f_equal. eapply (ok_distinct s H q p); [done..|lia].
Qed.

Lemma deallocate_ok s validated p s' :
  payload_ok s -> drm_dp_mst_deallocate_vcpi validated p s = Some s' -> payload_ok s'.
Proof.
  intros H. unfold drm_dp_mst_deallocate_vcpi. destruct validated; [|by intros; simplify_eq/=].
  cbn [negb]. destruct (ports s !! p) as [v|] eqn:Hp; [|done]. rewrite bind_some. intros [= <-].
  unfold drm_dp_mst_put_payload_id. case_match eqn:E.
  { eapply set_port_ok; [done|done|simpl; lia..|by auto]. }
  pose proof (put_loop_spec (vcpi v) (ports s) 0 (proposed_vcpis s) (payload_mask s)) as Hs.
  destruct (put_loop _ _ _ _ _) as [l m]. destruct Hs as [-> Hm].
  destruct (ok_owned s H p v Hp ltac:(lia)) as [Hv _].
  pose proof (fun o => put_hit_owner s p v o H Hp ltac:(lia)) as Hhit.
  assert (forall i q, ((fun o => if put_hit (vcpi v) (ports s) o then None else o) <$> proposed_vcpis s) !! i
    = Some (Some q) <-> proposed_vcpis s !! i = Some (Some q) /\ q <> p) as Hl.
  { intros i q. rewrite list_lookup_fmap, fmap_Some. setoid_rewrite Hhit. split.
    - intros (o & Ho & Eo). case_bool_decide; [done|]. by split; congruence.
    - intros [Ho Hne]. exists (Some q). by rewrite bool_decide_eq_false_2 by congruence. }
  split; mgr_simpl.
  - apply H.
  - rewrite length_fmap. apply H.
  - apply H.
  - apply Hm. split; [apply H|lia].
  - intros q w. rewrite lookup_insert_Some. intros [[<- <-]|[_ Hq]]; [simpl; lia|by apply (ok_slots s H q)].
  - intros q w. rewrite lookup_insert_Some. intros [[<- <-]|[Hne Hq]] Hw; [done|].
    destruct (ok_owned s H q w Hq Hw). split; [done|]. apply Z.clearbit_iff. split; [done|].
    intros Eb. apply Hne. eapply (ok_distinct s H p q); [done..|lia|lia].
  - intros n. rewrite Z.clearbit_iff. intros [Hb Hn].
    destruct (ok_taken s H n Hb) as (q & w & Hq & Hw). exists q, w. rewrite lookup_insert_ne; [done|].
    intros <-. simplify_eq. lia.
  - intros q q' w w'. rewrite !lookup_insert_Some. intros [[<- <-]|[Hn Hq]] [[<- <-]|[Hn' Hq']] Ew Hw; try done.
    by apply (ok_distinct s H q q' w w').
  - intros i q. rewrite Hl. intros [Hi Hne]. rewrite lookup_insert_ne by done. by apply (ok_proposed s H i).
  - intros i j q. rewrite !Hl. intros [? _] [? _]. by eapply (ok_once s H).
  - intros i q w. rewrite Hl. intros [Hi Hne]. rewrite lookup_insert_ne by done. intros Hq Hw.
    apply Hm. split; [by apply (ok_masked s H i q w)|]. intros k o Ho Hh En.
    assert (k = i) as -> by lia. rewrite Ho in Hi. injection Hi as ->.
    rewrite Hhit, bool_decide_eq_true in Hh. congruence.
  - intros i Hi Hb. apply Hm in Hb as [Hb Hk]. destruct (ok_mask s H i Hi Hb) as (q & Hq).
    exists q. apply Hl. split; [done|]. intros ->. apply (Hk i (Some p) Hq); [|done].
    by rewrite Hhit, bool_decide_eq_true.
  - apply H.
Qed.

Lemma reset_ok s validated p s' :
  payload_ok s -> drm_dp_mst_reset_vcpi_slots validated p s = Some s' -> payload_ok s'.
Proof.
  intros H. unfold drm_dp_mst_reset_vcpi_slots. destruct validated; [|by intros; simplify_eq/=].
  cbn [negb]. destruct (ports s !! p) as [v|] eqn:Hp; [|done]. rewrite bind_some. intros [= <-].
  eapply set_port_ok; [done|done|done|simpl; lia|by auto].
Qed.

(** A port asks for bandwidth only when it has none, or repeats its request. *)
Definition allocate_guard (p : nat) (pbn_ : Z) (s : payload_mgr) : Prop :=
  exists v, ports s !! p = Some v /\ (vcpi v = 0 \/ pbn_ = pbn v).

Lemma allocate_ok s validated p pbn_ slots ret s' :
  payload_ok s -> allocate_guard p pbn_ s ->
  drm_dp_mst_allocate_vcpi validated p pbn_ slots s = Some (ret, s') -> payload_ok s'.
Proof.
  intros H (v & Hp & Hg). unfold drm_dp_mst_allocate_vcpi, drm_dp_init_vcpi.
  destruct validated; [|by intros; simplify_eq/=]. cbn [negb].
  case_match eqn:E; [by intros; simplify_eq/=|]. rewrite Hp, bind_some.
  case_match eqn:E1; [by intros; simplify_eq/=|].
  case_match eqn:E2; [by intros; simplify_eq/=|]. rewrite bind_some.
  assert (vcpi v = 0) as Hv.
  { apply andb_false_iff in E1. destruct Hg; [done|]. destruct E1; [|lia].
    destruct (decide (vcpi v = 0)); [done|]. destruct (ok_owned s H p v Hp); [done|lia]. }
  set (v' := Build_drm_dp_vcpi _ _ _ _).
  assert (payload_ok (set_port p v' s)) as H' by (eapply set_port_ok; [done|done|done|simpl; lia|by auto]).
  destruct (drm_dp_mst_assign_payload_id p _) as [[r s1]|] eqn:Ea; [|done]. rewrite bind_some. simpl.
  intros [= <- <-]. eapply (assign_ok _ p v'); [done| |done|done]. mgr_simpl. by rewrite lookup_insert_eq.
Qed.

(** The bits that the entries from [j] on get when they move. *)
Definition moved_bit (vs : gmap nat drm_dp_vcpi) (o : option nat) : bool :=
  match o with
  | Some p => match vs !! p with Some v => negb (num_slots v =? 0) | None => false end
  | None => false
  end.

Lemma shift_mask_spec vs j l mask n :
  Z.testbit (shift_mask vs j l mask) n =
  if (Z.of_nat j <? n) && (n <=? Z.of_nat (j + length l))
  then match l !! Z.to_nat (n - Z.of_nat j - 1) with Some o => moved_bit vs o | None => false end
  else Z.testbit mask n.
Proof.
  revert j mask. induction l as [|o l IH]; intros j mask; cbn [shift_mask length].
  - destruct (_ && _) eqn:E; [exfalso; lia|done].
  - fold (moved_bit vs o). rewrite IH. set (m := if moved_bit vs o then _ else _).
    destruct (decide (n = Z.of_nat j + 1)) as [->|Hne].
    + destruct (_ && _) eqn:E; [exfalso; lia|]. clear E. destruct (_ && _) eqn:E; [|exfalso; lia].
      replace (Z.to_nat _) with 0%nat by lia. simpl. subst m.
      destruct (moved_bit vs o); [by rewrite Z.setbit_eq by lia|apply Z.clearbit_eq].
    + assert (Z.testbit m n = Z.testbit mask n) as ->.
      { subst m. destruct (moved_bit vs o); [by rewrite Z.setbit_neq by lia|by rewrite Z.clearbit_neq by lia]. }
      replace ((Z.of_nat (S j) <? n) && (n <=? Z.of_nat (S j + length l)))
        with ((Z.of_nat j <? n) && (n <=? Z.of_nat (j + S (length l)))) by lia.
      destruct (_ && _) eqn:E; [|done]. by replace (Z.to_nat (n - Z.of_nat j - 1)) with (S (Z.to_nat (n - Z.of_nat (S j) - 1))) by lia.
Qed.

(** The entries above [i] move down by one, [d] is put at the end. *)
Lemma lookup_removed {A} (l : list A) i d k :
  (i < length l)%nat ->
  (take i l ++ drop (S i) l ++ [d]) !! k =
  if decide (k < i)%nat then l !! k
  else if decide (S k < length l)%nat then l !! S k
  else if decide (S k = length l) then Some d else None.
Proof.
  intros Hi. destruct (decide (k < i)%nat) as [Hk|Hk].
  - rewrite lookup_app_l by (rewrite length_take; lia). by rewrite lookup_take_lt.
  - rewrite lookup_app_r by (rewrite length_take; lia). rewrite length_take, Nat.min_l by lia.
    destruct (decide (S k < length l)%nat).
    + rewrite lookup_app_l by (rewrite length_drop; lia). rewrite lookup_drop. f_equal. lia.
    + rewrite lookup_app_r, length_drop by (rewrite length_drop; lia).
      destruct (decide (S k = length l)).
      * by replace (k - i - (length l - S i))%nat with 0%nat by lia.
      * apply lookup_ge_None_2. simpl. lia.
Qed.

(** The bits of the payload mask after the removal of entry [i]. *)
Lemma remove_payload_mask s i k :
  payload_ok s -> (i < max_payloads s)%nat -> (k < max_payloads s)%nat ->
  Z.testbit (payload_mask (remove_payload i s)) (Z.of_nat k + 1) =
  if decide (k < i)%nat then Z.testbit (payload_mask s) (Z.of_nat k + 1)
  else match proposed_vcpis (remove_payload i s) !! k with Some o => moved_bit (ports s) o | None => false end.
Proof.
  intros H Hi Hk. unfold remove_payload. mgr_simpl. pose proof (ok_proposed_len s H) as Hl.
  rewrite lookup_removed, Hl by lia. destruct (decide (S k = max_payloads s)) as [E|E].
  - replace (Z.of_nat k + 1) with (Z.of_nat (max_payloads s)) by lia. rewrite Z.clearbit_eq.
    by repeat case_decide; try lia.
  - rewrite Z.clearbit_neq, shift_mask_spec, length_drop, Hl by lia.
    case_decide as Hki.
    + destruct (_ && _) eqn:E1; [exfalso; lia|done].
    + destruct (_ && _) eqn:E1; [|exfalso; lia]. rewrite lookup_drop.
      case_decide; [|lia]. by replace (S i + Z.to_nat (Z.of_nat k + 1 - Z.of_nat i - 1))%nat with (S k) by lia.
Qed.

Lemma remove_payload_ok s i : payload_ok s -> (i < max_payloads s)%nat -> payload_ok (remove_payload i s).
Proof.
  intros H Hi. pose proof (ok_proposed_len s H) as Hl. pose proof (ok_payloads_len s H) as Hp.
  assert (forall k q, proposed_vcpis (remove_payload i s) !! k = Some (Some q) ->
    (k < max_payloads s)%nat /\ exists k', proposed_vcpis s !! k' = Some (Some q) /\
    (k' = if decide (k < i)%nat then k else S k)) as Hback.
  { intros k q. unfold remove_payload. mgr_simpl. rewrite lookup_removed by lia. case_decide.
    - intros Hk. split; [lia|eauto].
    - repeat case_decide; [|done..]. intros Hk. split; [lia|eauto]. }
  pose proof (fun k => remove_payload_mask s i k H Hi) as Hm.
  split; try (apply H).
  - simpl. rewrite !length_app, length_take, length_drop. simpl. lia.
  - simpl. rewrite !length_app, length_take, length_drop. simpl. lia.
  - unfold remove_payload. mgr_simpl. rewrite Z.clearbit_neq, shift_mask_spec by lia. destruct (_ && _) eqn:E; [exfalso; lia|apply H].
  - intros k q Hk. destruct (Hback k q Hk) as (_ & k' & Hk' & _). by apply (ok_proposed s H k').
  - intros k j q Hk Hj. destruct (Hback k q Hk) as (_ & k' & Hk' & Ek), (Hback j q Hj) as (_ & j' & Hj' & Ej).
    pose proof (ok_once s H k' j' q Hk' Hj'). repeat case_decide; lia.
  - intros k q v Hk Hq Hv. destruct (Hback k q Hk) as (Hkm & k' & Hk' & Ek). rewrite Hm, Hk by done.
    case_decide; subst k'; [by apply (ok_masked s H k q v)|]. simpl in *. rewrite Hq. lia.
  - intros k Hk. change (max_payloads (remove_payload i s)) with (max_payloads s) in Hk.
    rewrite Hm by done. case_decide as Hki.
    + intros Hb. destruct (ok_mask s H k Hk Hb) as (q & Hq). exists q.
      unfold remove_payload. mgr_simpl. rewrite lookup_removed by lia. by case_decide.
    + destruct (proposed_vcpis (remove_payload i s) !! k) as [[q|]|]; [eauto|done..].
  - intros k p. simpl. rewrite lookup_removed by lia. repeat case_decide; [by apply (ok_deleted s H)..| |done].
    by intros [= <-].
Qed.

(** ** Time slots *)

(** Slots asked for by what is proposed. *)
Definition wanted (vs : gmap nat drm_dp_vcpi) (o : option nat) : Z :=
  match o with
  | Some p => match vs !! p with Some v => num_slots v | None => 0 end
  | None => 0
  end.

Fixpoint total_slots (ps : list drm_dp_payload) : Z :=
  match ps with [] => 0 | p :: ps' => pl_num_slots p + total_slots ps' end.

(** Every payload that has slots starts where the ones before it end. *)
Fixpoint packed (c : Z) (ps : list drm_dp_payload) : Prop :=
  match ps with
  | [] => True
  | p :: ps' => 0 <= pl_num_slots p /\ (pl_num_slots p <> 0 -> pl_start_slot p = c) /\ packed (c + pl_num_slots p) ps'
  end.

Lemma total_app a b : total_slots (a ++ b) = total_slots a + total_slots b.
Proof. induction a; simpl; lia. Qed.

Lemma packed_app c a b : packed c (a ++ b) <-> packed c a /\ packed (c + total_slots a) b.
Proof.
  revert c. induction a as [|p a IH]; intros c; simpl; [rewrite Z.add_0_r; tauto|].
  rewrite IH, Z.add_assoc. tauto.
Qed.

Lemma packed_lookup c ps i p :
  packed c ps -> ps !! i = Some p ->
  pl_num_slots p <> 0 -> pl_start_slot p = c + total_slots (take i ps).
Proof.
  revert c i. induction ps as [|q ps IH]; intros c [|i] H Hp Hn; simplify_eq/=.
  - destruct H as (? & ? & _). rewrite Z.add_0_r. auto.
  - destruct H as (? & _ & H). rewrite (IH _ i H Hp Hn). lia.
Qed.

Lemma packed_nonneg c ps : packed c ps -> Forall (fun p => 0 <= pl_num_slots p) ps.
Proof. revert c. induction ps as [|p ps IH]; intros c; constructor; simpl in *; naive_solver. Qed.

Lemma total_nonneg ps : Forall (fun p => 0 <= pl_num_slots p) ps -> 0 <= total_slots ps.
Proof. induction 1; simpl; lia. Qed.

Lemma packed_disjoint c ps i j p q :
  packed c ps -> (i < j)%nat -> ps !! i = Some p -> ps !! j = Some q ->
  pl_num_slots p <> 0 -> pl_num_slots q <> 0 -> pl_start_slot p + pl_num_slots p <= pl_start_slot q.
Proof.
  intros H Hij Hp Hq Np Nq. rewrite (packed_lookup c ps i p), (packed_lookup c ps j q) by done.
  rewrite <- (take_drop (S i) (take j ps)), total_app, take_take, Nat.min_l by lia.
  rewrite (take_S_r _ _ _ Hp), total_app. simpl.
  pose proof (total_nonneg (drop (S i) (take j ps))). pose proof (packed_nonneg c ps H).
  assert (0 <= total_slots (drop (S i) (take j ps))) by auto using Forall_drop, Forall_take. lia.
Qed.

Section UpdateFacts.
Context (write_ok : Z -> bool) (validated : nat -> bool) (send_msg : nat -> Z -> result unit).

Definition deleted_empty (ps : list drm_dp_payload) : Prop :=
  Forall (fun p => pl_state p = DP_PAYLOAD_DELETE_LOCAL -> pl_num_slots p = 0) ps.

Definition prop_slots (o : option (bool * drm_dp_vcpi)) : Z :=
  match o with Some (_, v) => num_slots v | None => 0 end.

Lemma update_payload_spec c p o q n :
  (pl_state p = DP_PAYLOAD_DELETE_LOCAL -> pl_num_slots p = 0) ->
  update_payload write_ok c p o = Some (q, n) ->
  n = prop_slots o /\ pl_num_slots q = n /\ (n <> 0 -> pl_start_slot q = c) /\
  (pl_state q = DP_PAYLOAD_DELETE_LOCAL -> pl_num_slots q = 0).
Proof.
  intros Hd. unfold update_payload, drm_dp_create_payload_step1, drm_dp_destroy_payload_step1, prop_slots.
  destruct o as [[[] v]|]; [|done|]; simpl.
  - intros [= <- <-]. repeat case_match; simpl in *; split_and!; try done; try lia.
  - intros [= <- <-]. repeat case_match; simpl in *; split_and!; try done; try lia.
Qed.

Lemma update_loop_spec c ps props ok ps' :
  deleted_empty ps -> length props = length ps -> 0 <= c -> c + 63 * Z.of_nat (length ps) < 2 ^ 31 ->
  Forall (fun o => 0 <= prop_slots o <= 63) props ->
  update_loop write_ok c ps props = (ok, ps') ->
  length ps' = length ps /\ deleted_empty ps' /\
  (ok = true -> packed c ps' /\ Forall2 (fun p o => pl_num_slots p = prop_slots o) ps' props).
Proof.
  intros Hd. revert c props ps'. induction Hd as [|p ps Hp Hd IH]; intros c [|o props] ps' Hl Hc Hb Hn; try done.
  { simpl. intros [= <- <-]. split; [done|]. split; constructor; done. }
  apply Forall_cons in Hn as [Ho Hn]. cbn [update_loop length] in *.
  destruct (update_payload write_ok c p o) as [[q n]|] eqn:E.
  - destruct (update_payload_spec _ _ _ _ _ Hp E) as (-> & Hq & Hs & Hdq).
    rewrite s32_small by (unfold is_s32; lia).
    destruct (update_loop _ _ _ _) as [ok' ps1] eqn:E1. intros [= <- <-].
    apply IH in E1 as (Hl1 & Hd1 & Hok); [|lia..|done].
    split; [simpl; lia|]. split; [by constructor|]. intros Ht. destruct (Hok Ht) as [Hpk Hf].
    split; [|by constructor]. simpl. rewrite Hq. split_and!; [lia|done|done].
  - intros [= <- <-]. split; [done|]. split; [by constructor|done].
Qed.

(** The table follows the proposals and is packed. *)
Definition table_ok (s : payload_mgr) : Prop :=
  packed 1 (payloads s) /\ Forall2 (fun p o => pl_num_slots p = wanted (ports s) o) (payloads s) (proposed_vcpis s).

Lemma remove_payload_table s i p :
  table_ok s -> payloads s !! i = Some p -> pl_num_slots p = 0 -> table_ok (remove_payload i s).
Proof.
  intros [Hp Hf] Hi H0. unfold remove_payload. split; mgr_simpl.
  - rewrite <- (take_drop_middle _ _ _ Hi), packed_app in Hp. destruct Hp as [Ha Hb]. simpl in Hb.
    rewrite H0, Z.add_0_r in Hb. rewrite !packed_app. split; [done|]. split; [by apply Hb|]. simpl.
    by split_and!.
  - repeat apply Forall2_app; [by apply Forall2_take|by apply Forall2_drop|by repeat constructor].
Qed.

Lemma remove_loop_ok k i s :
  payload_ok s -> (i + k <= max_payloads s)%nat ->
  payload_ok (remove_loop k i s) /\ (table_ok s -> table_ok (remove_loop k i s)).
Proof.
  revert i s. induction k as [|k IH]; intros i s H Hk; cbn [remove_loop]; [done|].
  destruct (payloads s !! i) as [p|] eqn:Hp; [|apply IH; [done|lia]].
  case_decide as Hd; [|apply IH; [done|lia]].
  destruct (IH (S i) (remove_payload i s)) as [H1 H2].
  - apply remove_payload_ok; [done|lia].
  - simpl. lia.
  - split; [done|]. intros Ht. apply H2. eapply remove_payload_table; [done..|]. by apply (ok_deleted s H i).
Qed.

Lemma proposals_ok s :
  payload_ok s -> Forall (fun o => 0 <= prop_slots o <= 63) (proposals validated s).
Proof.
  intros H. unfold proposals. apply Forall_fmap, Forall_forall. intros [p|] _; simpl; [|lia].
  destruct (ports s !! p) as [v|] eqn:Hp; simpl; [|lia]. by apply (ok_slots s H p).
Qed.

Lemma set_payloads_ok s ps :
  payload_ok s -> length ps = length (payloads s) -> deleted_empty ps -> payload_ok (set_payloads ps s).
Proof.
  intros H Hl Hd. split; mgr_simpl; try apply H.
  - rewrite Hl. apply H.
  - intros i p Hi. by apply (Forall_lookup_1 _ _ _ _ Hd Hi).
Qed.

Lemma deleted_empty_ok s : payload_ok s -> deleted_empty (payloads s).
Proof. intros H. apply Forall_lookup. intros i p. apply (ok_deleted s H). Qed.

Lemma part1_ok s r s' :
  payload_ok s -> drm_dp_update_payload_part1 write_ok validated s = (r, s') ->
  payload_ok s' /\ (r = Ok tt -> table_ok s').
Proof.
  intros H. unfold drm_dp_update_payload_part1.
  destruct (update_loop write_ok 1 (payloads s) (proposals validated s)) as [ok ps] eqn:E.
  pose proof (ok_max s H). pose proof (ok_payloads_len s H). pose proof (ok_proposed_len s H).
  apply update_loop_spec in E as (Hl & Hd & Hok);
    [|by apply deleted_empty_ok|unfold proposals; rewrite length_fmap; lia|lia|lia|by apply proposals_ok].
  pose proof (set_payloads_ok s ps H Hl Hd) as Hs. destruct ok; cbn [negb]; intros [= <- <-]; [|done].
  destruct (remove_loop_ok (max_payloads s) 0 (set_payloads ps s) Hs ltac:(done)) as [Hr Ht].
  split; [done|]. intros _. apply Ht. destruct (Hok eq_refl) as [Hp Hf]. split; [done|]. mgr_simpl.
  unfold proposals in Hf. rewrite Forall2_fmap_r in Hf. eapply Forall2_impl; [done|]. simpl.
  intros p [q|] ->; simpl; [|done]. by destruct (ports s !! q).
Qed.

Lemma part2_loop_ok i props s r s' :
  payload_ok s -> part2_loop send_msg i props s = Some (r, s') -> payload_ok s'.
Proof.
  revert i s. induction props as [|[port|] props IH]; intros i s H; cbn [part2_loop].
  - by intros [= <- <-].
  - destruct (ports s !! port) as [v|]; [|done]. rewrite bind_some.
    destruct (payloads s !! i) as [p|] eqn:Hp; [|done]. rewrite bind_some.
    assert ((payload_step2 send_msg port (pbn v) (pl_state p)).2 <> DP_PAYLOAD_DELETE_LOCAL) as Hn.
    { unfold payload_step2. by repeat case_match. }
    destruct (payload_step2 _ _ _ _) as [ret st]. set (s1 := set_payloads _ s).
    assert (payload_ok s1) as H1.
    { apply set_payloads_ok; [done|by rewrite length_insert|]. apply Forall_insert; [by apply deleted_empty_ok|].
      done. }
    destruct ret; [by apply IH|]. by intros [= <- <-].
  - by apply IH.
Qed.

End UpdateFacts.

Lemma mgr_init_ok max div ps s :
  (forall p v, ps !! p = Some v -> vcpi v = 0 /\ num_slots v = 0) ->
  drm_dp_mst_topology_mgr_init max div ps = Ok s -> payload_ok s.
Proof.
  intros Hps. unfold drm_dp_mst_topology_mgr_init. case_match eqn:E; [done|]. intros [= <-].
  split; mgr_simpl.
  - lia.
  - apply length_replicate.
  - apply length_replicate.
  - done.
  - intros p v Hp. destruct (Hps p v Hp). lia.
  - intros p v Hp Hv. by destruct (Hps p v Hp).
  - intros n. by rewrite Z.bits_0.
  - intros p q v w Hp _ _ Hv. by destruct (Hps p v Hp).
  - intros i p Hi. by apply lookup_replicate in Hi as [? _].
  - intros i j p Hi. by apply lookup_replicate in Hi as [? _].
  - intros i p v Hi. by apply lookup_replicate in Hi as [? _].
  - intros i Hi. by rewrite Z.setbit_neq, Z.bits_0 by lia.
  - intros i p Hi. apply lookup_replicate in Hi as [-> _]. done.
Qed.

Lemma remove_loop_ports k i s : ports (remove_loop k i s) = ports s.
Proof. revert i s. induction k as [|k IH]; intros i s; cbn [remove_loop]; [done|]. rewrite IH. by repeat case_match. Qed.

Lemma part1_ports write_ok validated s : ports (drm_dp_update_payload_part1 write_ok validated s).2 = ports s.
Proof.
  unfold drm_dp_update_payload_part1. destruct (update_loop _ _ _ _) as [ok ps].
  destruct ok; cbn [negb snd]; [by rewrite remove_loop_ports|done].
Qed.

(** A port without channel may appear and disappear. *)
Lemma add_port_ok s p : payload_ok s -> ports s !! p = None -> payload_ok (add_port p s).
Proof.
  intros H Hp. assert (forall i q, proposed_vcpis s !! i = Some (Some q) -> q <> p) as Hne.
  { intros i q Hi ->. destruct (ok_proposed s H i p Hi) as (v & Hv & _). congruence. }
  split; mgr_simpl; cbn [add_port set_port ports]; try apply H.
  - intros q v [[<- <-]|[_ Hq]]%lookup_insert_Some; [cbn; lia|by apply (ok_slots s H q)].
  - intros q v [[<- <-]|[_ Hq]]%lookup_insert_Some; [done|by apply (ok_owned s H q)].
  - intros n Hn. destruct (ok_taken s H n Hn) as (q & v & Hq & Hv). exists q, v. rewrite lookup_insert_ne; [done|congruence].
  - intros q q' v v' [[<- <-]|[_ Hq]]%lookup_insert_Some [[<- <-]|[_ Hq']]%lookup_insert_Some Ev Hv; try done; cbn in *; try congruence.
    by apply (ok_distinct s H q q' v v').
  - intros i q Hi. rewrite lookup_insert_ne by (symmetry; by eapply Hne). by apply (ok_proposed s H i).
  - intros i q v Hi. rewrite lookup_insert_ne by (symmetry; by eapply Hne). by apply (ok_masked s H i).
Qed.

Lemma free_port_ok s p v : payload_ok s -> ports s !! p = Some v -> vcpi v = 0 -> payload_ok (free_port p s).
Proof.
  intros H Hp Hv. assert (forall i q, proposed_vcpis s !! i = Some (Some q) -> q <> p) as Hne.
  { intros i q Hi ->. destruct (ok_proposed s H i p Hi) as (w & Hw & ?). congruence. }
  split; mgr_simpl; cbn [free_port max_payloads proposed_vcpis payloads payload_mask vcpi_mask ports]; try apply H.
  - intros q w [_ Hq]%lookup_delete_Some. by apply (ok_slots s H q).
  - intros q w [_ Hq]%lookup_delete_Some. by apply (ok_owned s H q).
  - intros n Hn. destruct (ok_taken s H n Hn) as (q & w & Hq & Hw). exists q, w. split; [|done].
    rewrite lookup_delete_ne; [done|]. intros <-. simplify_eq.
    destruct (decide (n < 0)); [by rewrite Z.testbit_neg_r in Hn by lia|lia].
  - intros q q' w w' [_ Hq]%lookup_delete_Some [_ Hq']%lookup_delete_Some. by apply (ok_distinct s H).
  - intros i q Hi. rewrite lookup_delete_ne by (symmetry; by eapply Hne). by apply (ok_proposed s H i).
  - intros i q w Hi. rewrite lookup_delete_ne by (symmetry; by eapply Hne). by apply (ok_masked s H i).
Qed.

Lemma destroy_port_ok s p s' : payload_ok s -> destroy_port p s = Some s' -> payload_ok s'.
Proof.
  intros H. unfold destroy_port. destruct (ports s !! p) as [v|] eqn:Hp; [|done]. rewrite bind_some. intros [= <-].
  eapply set_port_ok; [done|done|done|simpl; lia|by auto].
Qed.

Lemma destroy_connector_ok write_ok validated s p s' :
  payload_ok s -> destroy_connector_port write_ok validated p s = Some s' -> payload_ok s'.
Proof.
  intros H. unfold destroy_connector_port. destruct (ports s !! p) as [v|] eqn:Hp; [|done]. rewrite bind_some.
  destruct (0 <? vcpi v) eqn:Ev.
  - destruct (drm_dp_mst_reset_vcpi_slots (validated p) p s) as [s1|] eqn:E1; [|done]. rewrite bind_some.
    pose proof (reset_ok _ _ _ _ H E1) as H1.
    pose proof (part1_ports write_ok validated s1) as Hps.
    destruct (drm_dp_update_payload_part1 write_ok validated s1) as [r s2] eqn:E2. cbn [snd] in Hps.
    destruct (part1_ok _ _ _ _ _ H1 E2) as [H2 _].
    destruct (ports s2 !! p) as [w|] eqn:Hw; [|done]. rewrite !bind_some. intros [= <-].
    assert (payload_ok (set_port p port_idle (drm_dp_mst_put_payload_id (vcpi w) s2))) as H3.
    { apply (deallocate_ok s2 true p); [done|]. unfold drm_dp_mst_deallocate_vcpi. cbn [negb]. by rewrite Hw. }
    replace (free_port p _) with (free_port p (set_port p port_idle (drm_dp_mst_put_payload_id (vcpi w) s2))).
    + eapply free_port_ok; [done|cbn; apply lookup_insert_eq|done].
    + unfold free_port. mgr_simpl. by rewrite delete_insert_eq.
  - rewrite bind_some. intros [= <-]. eapply free_port_ok; [done..|].
    destruct (decide (vcpi v = 0)); [done|]. destruct (ok_owned s H p v Hp); [done|lia].
Qed.

(** No port holds a channel. *)
Definition off_guard (s : payload_mgr) : Prop := forall p v, ports s !! p = Some v -> vcpi v = 0.

Lemma set_mst_off_ok s : payload_ok s -> off_guard s -> payload_ok (set_mst_off s).
Proof.
  intros H Ho. assert (forall i p, proposed_vcpis s !! i <> Some (Some p)) as Hn.
  { intros i p Hi. destruct (ok_proposed s H i p Hi) as (v & Hp & Hv). by apply Hv, (Ho p). }
  unfold set_mst_off. split; mgr_simpl; try apply H.
  - apply length_replicate.
  - done.
  - intros p v Hp Hv. by destruct Hv, (Ho p v Hp).
  - intros n. by rewrite Z.bits_0.
  - intros i p v Hi. by destruct (Hn i p).
  - intros i Hi. by rewrite Z.setbit_neq, Z.bits_0 by lia.
  - intros i p Hi. by apply lookup_replicate in Hi as [-> _].
Qed.

(** What happens to a manager, in any order: the calls of drivers, ports that appear
    and are destroyed, MST switched off.  A port asks for bandwidth only when it has
    none or repeats its request ([allocate_guard]); MST is switched off when no port
    holds a channel ([off_guard]). *)
Inductive payload_step : payload_mgr -> payload_mgr -> Prop :=
| step_allocate s valid p pbn_ slots ret s' :
    allocate_guard p pbn_ s ->
    drm_dp_mst_allocate_vcpi valid p pbn_ slots s = Some (ret, s') -> payload_step s s'
| step_reset s valid p s' : drm_dp_mst_reset_vcpi_slots valid p s = Some s' -> payload_step s s'
| step_deallocate s valid p s' : drm_dp_mst_deallocate_vcpi valid p s = Some s' -> payload_step s s'
| step_part1 write_ok validated s r s' : drm_dp_update_payload_part1 write_ok validated s = (r, s') -> payload_step s s'
| step_part2 send_msg s r s' : drm_dp_update_payload_part2 send_msg s = Some (r, s') -> payload_step s s'
| step_add_port s p : ports s !! p = None -> payload_step s (add_port p s)
| step_destroy_port s p s' : destroy_port p s = Some s' -> payload_step s s'
| step_destroy_connector write_ok validated s p s' :
    destroy_connector_port write_ok validated p s = Some s' -> payload_step s s'
| step_set_mst_off s : off_guard s -> payload_step s (set_mst_off s).

Lemma payload_step_ok s s' : payload_ok s -> payload_step s s' -> payload_ok s'.
Proof.
  intros H Hs. destruct Hs.
  - by eapply allocate_ok.
  - by eapply reset_ok.
  - by eapply deallocate_ok.
  - by eapply part1_ok.
  - by eapply part2_loop_ok.
  - by apply add_port_ok.
  - by eapply destroy_port_ok.
  - by eapply destroy_connector_ok.
  - by apply set_mst_off_ok.
Qed.

Lemma payload_steps_ok s s' : payload_ok s -> rtc payload_step s s' -> payload_ok s'.
Proof. intros H Hs. induction Hs; [done|]. eauto using payload_step_ok. Qed.

(** C10: from a fresh manager, whatever sequence of allocations, resets, releases, table
    updates, port additions and destructions and switching off of MST is run, and
    whatever hardware and messages answer, provided a port asks for bandwidth only
    when it has no channel or repeats its request and MST is switched off only when
    no port holds a channel: no two ports
    hold the same virtual channel number, a number is marked taken exactly when
    a port holds it, and no port is proposed twice. *)
Theorem drm_dp_vcpi_unique max div ps s0 s :
  (forall p v, ps !! p = Some v -> vcpi v = 0 /\ num_slots v = 0) ->
  drm_dp_mst_topology_mgr_init max div ps = Ok s0 -> rtc payload_step s0 s ->
  (forall p q v w, ports s !! p = Some v -> ports s !! q = Some w -> vcpi v = vcpi w -> vcpi v <> 0 -> p = q) /\
  (forall n, 0 <= n -> Z.testbit (vcpi_mask s) n = true <-> exists p v, ports s !! p = Some v /\ vcpi v = n + 1) /\
  (forall i j p, proposed_vcpis s !! i = Some (Some p) -> proposed_vcpis s !! j = Some (Some p) -> i = j).
Proof.
  intros Hps Hi Hr. assert (payload_ok s) as H by eauto using payload_steps_ok, mgr_init_ok.
  split; [apply H|]. split; [|apply H]. intros n Hn. split; [apply H|].
  intros (p & v & Hp & Hv). destruct (ok_owned s H p v Hp ltac:(lia)) as [_ Hb].
  by rewrite Hv, Z.add_simpl_r in Hb.
Qed.

(** C11: in a state reached from a fresh manager under the two conditions of the
    theorem above (ports without channel, or the same request again, ask for
    bandwidth; MST is switched off when no port holds a channel) a table update that succeeds leaves every table entry
    with the slots its port asked for, and the slots of the active entries follow
    one another from slot 1 on without overlapping. *)
Theorem drm_dp_update_payload_part1_slots write_ok validated max div ps s0 s s' :
  (forall p v, ps !! p = Some v -> vcpi v = 0 /\ num_slots v = 0) ->
  drm_dp_mst_topology_mgr_init max div ps = Ok s0 -> rtc payload_step s0 s ->
  drm_dp_update_payload_part1 write_ok validated s = (Ok tt, s') ->
  (forall i p, payloads s' !! i = Some p ->
     (exists o, proposed_vcpis s' !! i = Some o /\ pl_num_slots p = wanted (ports s') o) /\
     (pl_num_slots p <> 0 -> pl_start_slot p = 1 + total_slots (take i (payloads s')))) /\
  (forall i j p q, (i < j)%nat -> payloads s' !! i = Some p -> payloads s' !! j = Some q ->
     pl_num_slots p <> 0 -> pl_num_slots q <> 0 -> pl_start_slot p + pl_num_slots p <= pl_start_slot q).
Proof.
  intros Hps Hi Hr Hu. assert (payload_ok s) as H by eauto using payload_steps_ok, mgr_init_ok.
  destruct (part1_ok _ _ _ _ _ H Hu) as [_ [Hp Hf]]; [done|]. split.
  - intros i p Hl. split; [|by eapply packed_lookup].
    destruct (Forall2_lookup_l _ _ _ _ _ Hf Hl) as (o & Ho & E). eauto.
  - intros i j p q. by eapply packed_disjoint.
Qed.

(** *** A concrete run: two ports get bandwidth and the table is written. *)

Definition sample_ports : gmap nat drm_dp_vcpi := {[ 1%nat := port_idle; 2%nat := port_idle ]}.
Definition sample_init : payload_mgr :=
  match drm_dp_mst_topology_mgr_init 3 1 sample_ports with
  | Ok s => s
  | Err _ => {| max_payloads := 0; pbn_div := 0; payload_mask := 0; vcpi_mask := 0; proposed_vcpis := [];
                payloads := []; ports := ∅ |}
  end.
Definition or_init (o : option payload_mgr) : payload_mgr := default sample_init o.
Definition allocate_step (p : nat) (n : Z) (s : payload_mgr) : payload_mgr :=
  or_init (snd <$> drm_dp_mst_allocate_vcpi true p n n s).
Definition part1_all (s : payload_mgr) : result unit * payload_mgr :=
  drm_dp_update_payload_part1 (fun _ => true) (fun _ => true) s.
Definition sample_allocated : payload_mgr := allocate_step 2 7 (allocate_step 1 5 sample_init).

Lemma sample_ports_idle p v : sample_ports !! p = Some v -> vcpi v = 0 /\ num_slots v = 0.
Proof.
  unfold sample_ports. rewrite lookup_insert_Some, lookup_singleton_Some.
  by intros [[_ <-]|[_ [_ <-]]].
Qed.

Lemma sample_allocated_reachable : rtc payload_step sample_init sample_allocated.
Proof.
  eapply rtc_l; [|eapply rtc_l; [|apply rtc_refl]].
  - apply (step_allocate sample_init true 1 5 5 true).
    + eexists. split; [reflexivity|by left].
    + reflexivity.
  - apply (step_allocate _ true 2 7 7 true).
    + eexists. split; [reflexivity|by left].
    + reflexivity.
Qed.

Lemma drm_dp_vcpi_unique_witness :
  vcpi_mask sample_allocated = 3 /\
  forall i j p, proposed_vcpis sample_allocated !! i = Some (Some p) ->
    proposed_vcpis sample_allocated !! j = Some (Some p) -> i = j.
Proof.
  split; [reflexivity|].
  apply (drm_dp_vcpi_unique 3 1 sample_ports sample_init sample_allocated
           sample_ports_idle eq_refl sample_allocated_reachable).
Defined.

Lemma drm_dp_update_payload_part1_slots_witness :
  (part1_all sample_allocated).1 = Ok tt /\
  (pl_start_slot <$> payloads (part1_all sample_allocated).2) = [1; 6; 13] /\
  forall i j p q, (i < j)%nat -> payloads (part1_all sample_allocated).2 !! i = Some p ->
    payloads (part1_all sample_allocated).2 !! j = Some q ->
    pl_num_slots p <> 0 -> pl_num_slots q <> 0 -> pl_start_slot p + pl_num_slots p <= pl_start_slot q.
Proof.
  split; [reflexivity|]. split; [reflexivity|].
  apply (drm_dp_update_payload_part1_slots (fun _ => true) (fun _ => true) 3 1 sample_ports sample_init
           sample_allocated _ sample_ports_idle eq_refl sample_allocated_reachable eq_refl).
Defined.

(** ** What goes wrong *)

(** When the streams of two neighbouring table entries end before one update, the
    update removes only the first: the loop that compacts the table steps over
    the entry that has just moved into the freed place, and leaves its port proposed
    in an entry marked for deletion. *)
Theorem drm_dp_update_payload_part1_skips :
  let s := (part1_all sample_allocated).2 in
  let s := or_init (drm_dp_mst_reset_vcpi_slots true 1 s) in
  let s := or_init (drm_dp_mst_reset_vcpi_slots true 2 s) in
  let '(r, s') := part1_all s in
  r = Ok tt /\ proposed_vcpis s' = [Some 2%nat; None; None] /\
  (pl_state <$> payloads s') = [DP_PAYLOAD_DELETE_LOCAL; PAYLOAD_NONE; PAYLOAD_NONE] /\
  Z.testbit (payload_mask s') 1 = false.
Proof. vm_compute. by split_and!. Qed.

(** A port that owns a channel and asks again with another bandwidth gets a second
    channel number; the first stays marked taken although no port owns it, so
    that releasing the port does not give it back. *)
Theorem drm_dp_mst_allocate_vcpi_leaks s p v pbn_ slots s' :
  payload_ok s -> ports s !! p = Some v -> vcpi v <> 0 -> pbn_ <> pbn v ->
  drm_dp_mst_allocate_vcpi true p pbn_ slots s = Some (true, s') ->
  Z.testbit (vcpi_mask s') (vcpi v - 1) = true /\
  (forall q w, ports s' !! q = Some w -> vcpi w <> vcpi v).
Proof.
  intros H Hp Hv Hn. destruct (ok_owned s H p v Hp Hv) as [_ Hb].
  unfold drm_dp_mst_allocate_vcpi, drm_dp_init_vcpi, drm_dp_mst_assign_payload_id. cbn [negb].
  case_match eqn:E; [done|]. rewrite Hp, bind_some. case_match eqn:E1; [lia|].
  case_match eqn:E2; [done|]. rewrite bind_some. mgr_simpl.
  destruct (find_first_zero_bit_spec (vcpi_mask s) (max_payloads s)) as (Hc0 & _ & Hc).
  set (c := find_first_zero_bit (vcpi_mask s) _) in *.
  case_match eqn:E3; [done|]. case_match eqn:E4; [done|]. specialize (Hc ltac:(lia)).
  rewrite lookup_insert_eq, bind_some. mgr_simpl. case_match eqn:E5; [done|].
  destruct (proposed_vcpis s !! _); [|done]. rewrite !bind_some. intros [= <-]. mgr_simpl.
  split; [apply Z.setbit_iff; auto|].
  intros q w. rewrite insert_insert_eq, lookup_insert_Some. intros [[<- <-]|[Hne Hq]]; simpl.
  - intros Ec. rewrite <- Ec, Z.add_simpl_r in Hb. congruence.
  - intros Ew. apply Hne. symmetry.
    by eapply (ok_distinct s H q p); [done|done|done|lia].
Qed.

(** Switching MST off while a port holds channel 1 forgets it: the next port that
    asks for bandwidth is given the same number. *)
Theorem drm_dp_set_mst_off_reissues s p v q w pbn_ slots :
  payload_ok s -> ports s !! p = Some v -> vcpi v = 1 -> ports s !! q = Some w -> vcpi w = 0 ->
  0 <= slots <= 63 -> (0 < max_payloads s)%nat ->
  exists s' w', drm_dp_mst_allocate_vcpi true q pbn_ slots (set_mst_off s) = Some (true, s') /\
    ports s' !! q = Some w' /\ vcpi w' = 1 /\ ports s' !! p = Some v.
Proof.
  intros H Hp Hv Hq Hw Hs Hm. assert (p <> q) as Hne by congruence.
  unfold drm_dp_mst_allocate_vcpi, drm_dp_init_vcpi, drm_dp_mst_assign_payload_id, set_mst_off. mgr_simpl. cbn [negb].
  rewrite (proj2 (Z.ltb_ge slots 0)), Hq, bind_some, Hw, (proj2 (Z.ltb_ge 63 slots)) by lia. cbn [andb Z.ltb Z.compare].
  rewrite bind_some. destruct (max_payloads s) as [|n] eqn:En; [lia|].
  assert (find_first_zero_bit (Z.setbit 0 0) (S n + 1) = 1) as -> by by rewrite Nat.add_1_r.
  assert (find_first_zero_bit 0 (S n + 1) = 0) as -> by done.
  rewrite !(proj2 (Z.ltb_ge (Z.of_nat (S n)) _)) by lia. mgr_simpl. rewrite lookup_insert_eq, bind_some. mgr_simpl.
  destruct (lookup_lt_is_Some_2 (proposed_vcpis s) 0) as [o Eo]; [rewrite (ok_proposed_len s H); lia|].
  change (Z.to_nat (1 - 1)) with 0%nat. change (1 <? 1) with false. cbv iota. rewrite Eo, !bind_some. eexists _, _. split; [reflexivity|]. mgr_simpl.
  rewrite insert_insert_eq, lookup_insert_eq, lookup_insert_ne by done. done.
Qed.

Lemma drm_dp_mst_allocate_vcpi_leaks_witness :
  let s' := allocate_step 1 9 sample_allocated in
  (vcpi <$> ports s' !! 1%nat) = Some 3 /\ Z.testbit (vcpi_mask s') 0 = true /\
  vcpi_mask (or_init (drm_dp_mst_deallocate_vcpi true 1 s')) = 3 /\
  forall q w, ports s' !! q = Some w -> vcpi w <> 1.
Proof.
  split; [reflexivity|]. split; [reflexivity|]. split; [reflexivity|].
  apply (drm_dp_mst_allocate_vcpi_leaks sample_allocated 1
           {| vcpi := 1; pbn := 5; aligned_pbn := 5; num_slots := 5 |} 9 9).
  - exact (payload_steps_ok _ _ (mgr_init_ok 3 1 sample_ports sample_init sample_ports_idle eq_refl)
             sample_allocated_reachable).
  - reflexivity.
  - discriminate.
  - discriminate.
  - reflexivity.
Defined.
