(* ===== verification/DpTree.v ===== *)
(** * The DisplayPort MST topology ([drm_dp_mst_topology.c])

    Branch devices and ports form a tree below the primary branch device.  A branch
    device carries its relative address: the port numbers on the way to it, one
    nibble each, in [rad], and their number plus one in [lct].

    Branch devices and ports are objects of a heap, named by identifiers; links
    are identifiers.  Memory given back to the allocator stays in the heap
    unlinked, as reference counts are not modelled.  The identifier of a new object
    is an argument of the operations ([None]: the allocation failed), as are answers
    to messages and results of callbacks.  [None] as a result is an access
    through a NULL pointer or outside an array.

    Theorems: the address stored in every device of the tree leads to it; the
    recursive searches end and find exactly what the tree holds; a notification
    updates the port of the device that sent it.  Addresses that lead nowhere,
    and the ways devices can make the code fault, are shown too. *)

From S2P Require Import Prelude Bytes DpMsg DpReq.
From stdpp Require Import base gmap list option sets.
From Stdlib Require Import ZArith Lia ZifyBool ZifyNat.

#[local] Set Warnings "-clear-no-such-hyp".

#[local] Open Scope Z_scope.

Definition DP_PEER_DEVICE_NONE : Z := 0x0.
Definition DP_PEER_DEVICE_MST_BRANCHING : Z := 0x2.
Definition DP_PEER_DEVICE_SST_SINK : Z := 0x3.
Definition DP_PEER_DEVICE_DP_LEGACY_CONV : Z := 0x4.

(** [struct drm_dp_mst_port] *)
Record topo_port := {
  tp_num : Z; tp_input : bool; tp_mcs : bool; tp_ddps : bool; tp_pdt : Z; tp_ldps : bool; tp_dpcd_rev : Z;
  tp_num_sdp_streams : Z; tp_num_sdp_stream_sinks : Z; tp_available_pbn : Z; tp_mstb : option nat;
  tp_parent : nat
}.

(** [struct drm_dp_mst_branch], without its message slots *)
Record topo_branch := {
  tb_lct : Z; tb_rad : list Z; tb_ports : list nat; tb_port_parent : option nat; tb_guid : list Z
}.

Record topology := {
  branches : gmap nat topo_branch; tports : gmap nat topo_port; mst_primary : option nat
}.

Definition put_branch (m : nat) (b : topo_branch) (t : topology) : topology :=
  {| branches := <[m := b]> (branches t); tports := tports t; mst_primary := mst_primary t |}.
Definition put_tport (p : nat) (x : topo_port) (t : topology) : topology :=
  {| branches := branches t; tports := <[p := x]> (tports t); mst_primary := mst_primary t |}.
Definition with_mstb (m : option nat) (x : topo_port) : topo_port :=
  {| tp_num := tp_num x; tp_input := tp_input x; tp_mcs := tp_mcs x; tp_ddps := tp_ddps x; tp_pdt := tp_pdt x;
     tp_ldps := tp_ldps x; tp_dpcd_rev := tp_dpcd_rev x; tp_num_sdp_streams := tp_num_sdp_streams x;
     tp_num_sdp_stream_sinks := tp_num_sdp_stream_sinks x; tp_available_pbn := tp_available_pbn x;
     tp_mstb := m; tp_parent := tp_parent x |}.
Definition with_ports (l : list nat) (b : topo_branch) : topo_branch :=
  {| tb_lct := tb_lct b; tb_rad := tb_rad b; tb_ports := l; tb_port_parent := tb_port_parent b; tb_guid := tb_guid b |}.
Definition with_available_pbn (n : Z) (x : topo_port) : topo_port :=
  {| tp_num := tp_num x; tp_input := tp_input x; tp_mcs := tp_mcs x; tp_ddps := tp_ddps x; tp_pdt := tp_pdt x;
     tp_ldps := tp_ldps x; tp_dpcd_rev := tp_dpcd_rev x; tp_num_sdp_streams := tp_num_sdp_streams x;
     tp_num_sdp_stream_sinks := tp_num_sdp_stream_sinks x; tp_available_pbn := n;
     tp_mstb := tp_mstb x; tp_parent := tp_parent x |}.

(** ** Searches *)

(** The first result of [f] along a list of ports. *)
Fixpoint search {A} (f : nat -> option (option A)) (l : list nat) : option (option A) :=
  match l with
  | [] => Some None
  | p :: l' =>
    r ← f p;
    match r with Some a => Some (Some a) | None => search f l' end
  end.

(** [drm_dp_mst_get_validated_mstb_ref_locked] *)
Fixpoint get_validated_mstb_ref (fuel : nat) (t : topology) (mstb to_find : nat) : option (option nat) :=
  match fuel with
  | O => None
  | S fuel' =>
    if decide (to_find = mstb) then Some (Some mstb)
    else
      b ← branches t !! mstb;
      search (fun p => x ← tports t !! p;
                match tp_mstb x with Some m => get_validated_mstb_ref fuel' t m to_find | None => Some None end)
             (tb_ports b)
  end.

(** [drm_dp_mst_get_port_ref_locked] *)
Fixpoint get_port_ref (fuel : nat) (t : topology) (mstb to_find : nat) : option (option nat) :=
  match fuel with
  | O => None
  | S fuel' =>
    b ← branches t !! mstb;
    search (fun p => if decide (p = to_find) then Some (Some p)
              else x ← tports t !! p;
                match tp_mstb x with Some m => get_port_ref fuel' t m to_find | None => Some None end)
           (tb_ports b)
  end.

(** [get_mst_branch_device_by_guid_helper] *)
Fixpoint get_by_guid (fuel : nat) (t : topology) (mstb : nat) (guid : list Z) : option (option nat) :=
  match fuel with
  | O => None
  | S fuel' =>
    b ← branches t !! mstb;
    if decide (tb_guid b = guid) then Some (Some mstb)
    else
      search (fun p => x ← tports t !! p;
                match tp_mstb x with Some m => get_by_guid fuel' t m guid | None => Some None end)
             (tb_ports b)
  end.

(** [drm_dp_get_last_connected_port_to_mstb] *)
Fixpoint get_last_connected_port (fuel : nat) (t : topology) (mstb : nat) : option (option nat) :=
  match fuel with
  | O => None
  | S fuel' =>
    b ← branches t !! mstb;
    match tb_port_parent b with
    | None => Some None
    | Some p =>
      x ← tports t !! p;
      if decide (tp_mstb x = Some mstb) then get_last_connected_port fuel' t (tp_parent x) else Some (Some p)
    end
  end.

(** An address has at most fifteen levels. *)
Definition max_depth : nat := 16.

Definition drm_dp_get_validated_mstb_ref (t : topology) (mstb : nat) : option (option nat) :=
  match mst_primary t with Some m => get_validated_mstb_ref max_depth t m mstb | None => Some None end.

Definition drm_dp_get_validated_port_ref (t : topology) (port : nat) : option (option nat) :=
  match mst_primary t with Some m => get_port_ref max_depth t m port | None => Some None end.

Definition drm_dp_get_mst_branch_device_by_guid (t : topology) (guid : list Z) : option (option nat) :=
  m ← mst_primary t; get_by_guid max_depth t m guid.

Definition drm_dp_get_last_connected_port_and_mstb (t : topology) (mstb : nat) : option (option (nat * Z)) :=
  match mst_primary t with
  | None => Some None
  | Some _ =>
    r ← get_last_connected_port max_depth t mstb;
    match r with
    | None => Some None
    | Some p => x ← tports t !! p; Some (Some (tp_parent x, tp_num x))
    end
  end.

(** [drm_dp_get_port] *)
Definition drm_dp_get_port (t : topology) (ports : list nat) (port_num : Z) : option (option nat) :=
  search (fun p => x ← tports t !! p; Some (if tp_num x =? port_num then Some p else None)) ports.

(** Nibble [i] of an address. *)
Definition rad_nibble (rad : list Z) (i : nat) : option Z :=
  r ← rad !! (i / 2)%nat;
  let shift := if Nat.even i then 4 else 0 in
  Some (Z.land (Z.shiftr r shift) 0xf).

(** The loop of [drm_dp_get_mst_branch_device], [k] turns from [i] on; a port
    number that the device does not have leaves [mstb] as it is. *)
Fixpoint walk_rad (k i : nat) (t : topology) (rad : list Z) (mstb : nat) : option (option nat) :=
  match k with
  | O => Some (Some mstb)
  | S k' =>
    port_num ← rad_nibble rad i;
    b ← branches t !! mstb;
    r ← drm_dp_get_port t (tb_ports b) port_num;
    match r with
    | None => walk_rad k' (S i) t rad mstb
    | Some p =>
      x ← tports t !! p;
      match tp_mstb x with None => Some None | Some m => walk_rad k' (S i) t rad m end
    end
  end.

Definition drm_dp_get_mst_branch_device (t : topology) (lct : Z) (rad : list Z) : option (option nat) :=
  m ← mst_primary t; walk_rad (Z.to_nat (lct - 1)) 0 t rad m.

(** ** Growing and cutting the tree *)

(** [drm_dp_calculate_rad]; [rad] is the array of the caller. *)
Definition drm_dp_calculate_rad (port_num parent_lct : Z) (parent_rad rad : list Z) : option (Z * list Z) :=
  let idx := Z.to_nat ((parent_lct - 1) / 2) in
  '(shift, rad) ←
    (if 1 <? parent_lct then
       bs ← bytes_at 0 (idx + 1) parent_rad;
       rad ← puts 0 bs rad;
       Some (if negb (parent_lct mod 2 =? 0) then 4 else 0, rad)
     else rad ← put 0 0 rad; Some (4, rad));
  rad ← put_or idx (Z.shiftl port_num shift) rad;
  Some (u8 (parent_lct + 1), rad).

(** [drm_dp_add_mst_branch_device] *)
Definition drm_dp_add_mst_branch_device (lct : Z) (rad : list Z) : option topo_branch :=
  r ← (if 1 <? lct then bs ← bytes_at 0 (Z.to_nat (lct / 2)) rad; puts 0 bs (replicate 8 0)
       else Some (replicate 8 0));
  Some {| tb_lct := lct; tb_rad := r; tb_ports := []; tb_port_parent := None; tb_guid := replicate 16 0 |}.

(** [drm_dp_port_teardown_pdt]: a branch device loses the reference of its port. *)
Definition drm_dp_port_teardown_pdt (p : nat) (old_pdt : Z) (t : topology) : option topology :=
  x ← tports t !! p;
  if old_pdt =? DP_PEER_DEVICE_MST_BRANCHING then
    _ ← tp_mstb x;
    Some (put_tport p (with_mstb None x) t)
  else Some t.

(** [drm_dp_port_setup_pdt]; [junk]: what the array [u8 rad[6]] holds, [new]: the
    new branch device. *)
Definition drm_dp_port_setup_pdt (p : nat) (junk : list Z) (new : option nat) (t : topology)
    : option (bool * topology) :=
  x ← tports t !! p;
  if tp_pdt x =? DP_PEER_DEVICE_MST_BRANCHING then
    parent ← branches t !! tp_parent x;
    '(lct, rad) ← drm_dp_calculate_rad (tp_num x) (tb_lct parent) (tb_rad parent) junk;
    b ← drm_dp_add_mst_branch_device lct rad;
    m ← new;
    let b := {| tb_lct := tb_lct b; tb_rad := tb_rad b; tb_ports := tb_ports b; tb_port_parent := Some p;
                tb_guid := tb_guid b |} in
    Some (true, put_branch m b (put_tport p (with_mstb (Some m) x) t))
  else Some (false, t).

(** What an addition gets from outside: memory for a port and for a branch device,
    the bandwidth the path resources message returned if it was answered, the old contents
    of the stack. *)
Record port_env := {
  new_port : option nat; new_branch : option nat; path_pbn : option Z; stack_rad : list Z
}.

(** The fields that a link address reply sets. *)
Definition from_reply (msg : drm_dp_link_addr_reply_port) (x : topo_port) : topo_port :=
  {| tp_num := tp_num x; tp_input := input_port msg; tp_mcs := mcs msg; tp_ddps := ddps msg;
     tp_pdt := peer_device_type msg; tp_ldps := legacy_device_plug_status msg; tp_dpcd_rev := dpcd_revision msg;
     tp_num_sdp_streams := num_sdp_streams msg; tp_num_sdp_stream_sinks := num_sdp_stream_sinks msg;
     tp_available_pbn := tp_available_pbn x; tp_mstb := tp_mstb x; tp_parent := tp_parent x |}.

(** A port fresh from [kzalloc]. *)
Definition fresh_port (num : Z) (parent : nat) : topo_port :=
  {| tp_num := num; tp_input := false; tp_mcs := false; tp_ddps := false; tp_pdt := 0; tp_ldps := false;
     tp_dpcd_rev := 0; tp_num_sdp_streams := 0; tp_num_sdp_stream_sinks := 0; tp_available_pbn := 0;
     tp_mstb := None; tp_parent := parent |}.

(** The change of the plug status: path resources are asked for, or bandwidth is gone. *)
Definition replug (ask : bool) (path_pbn : option Z) (old_ddps : bool) (x : topo_port) : topo_port :=
  if eqb old_ddps (tp_ddps x) then x
  else if tp_ddps x then
    (if ask then match path_pbn with Some n => with_available_pbn n x | None => x end else x)
  else with_available_pbn 0 x.

(** The change of the peer device type: the old device goes, a new one comes. *)
Definition change_pdt (p : nat) (old_pdt : Z) (junk : list Z) (new : option nat) (t : topology)
    : option (bool * topology) :=
  x ← tports t !! p;
  if negb (old_pdt =? tp_pdt x) && negb (tp_input x) then
    t ← drm_dp_port_teardown_pdt p old_pdt t;
    drm_dp_port_setup_pdt p junk new t
  else Some (false, t).

(** [drm_dp_add_port] up to the link address message to a new branch device.  Returns
    the port, whether it was created and whether that message is sent; [None]
    inside: no memory for the port. *)
Definition add_port_begin (mstb : nat) (msg : drm_dp_link_addr_reply_port) (e : port_env) (t : topology)
    : option (option (nat * bool * bool) * topology) :=
  b ← branches t !! mstb;
  r ← drm_dp_get_port t (tb_ports b) (port_number msg);
  match match r with Some p => Some p | None => new_port e end with
  | None => Some (None, t)
  | Some p =>
    let created := match r with Some _ => false | None => true end in
    x ← (if created then Some (fresh_port (port_number msg) mstb) else tports t !! p);
    let '(old_pdt, old_ddps) := (tp_pdt x, tp_ddps x) in
    let x := from_reply msg x in
    let t := if created then put_branch mstb (with_ports (p :: tb_ports b) b) t else t in
    let x := replug (negb (tp_input x)) (path_pbn e) old_ddps x in
    '(send_link, t) ← change_pdt p old_pdt (stack_rad e) (new_branch e) (put_tport p x t);
    Some (Some (p, created, send_link), t)
  end.

(** The rest: the driver makes a connector for a new output port, or the port is taken off
    the list again. *)
Definition add_port_end (mstb p : nat) (created connector : bool) (t : topology) : option topology :=
  x ← tports t !! p;
  if created && negb (tp_input x) && negb connector then
    b ← branches t !! mstb;
    Some (put_branch mstb (with_ports (filter (fun q => q <> p) (tb_ports b)) b) t)
  else Some t.

(** [drm_dp_update_port]: the work it schedules and the topology. *)
Definition drm_dp_update_port (mstb : nat) (n : drm_dp_notification) (junk : list Z) (new : option nat) (t : topology)
    : option (bool * topology) :=
  match n with
  | conn_stat port_number _ ldps dps mcs _ peer =>
    b ← branches t !! mstb;
    r ← drm_dp_get_port t (tb_ports b) port_number;
    match r with
    | None => Some (false, t)
    | Some p =>
      x ← tports t !! p;
      let y := {| tp_num := tp_num x; tp_input := tp_input x; tp_mcs := mcs; tp_ddps := dps; tp_pdt := peer;
                  tp_ldps := ldps; tp_dpcd_rev := tp_dpcd_rev x; tp_num_sdp_streams := tp_num_sdp_streams x;
                  tp_num_sdp_stream_sinks := tp_num_sdp_stream_sinks x; tp_available_pbn := tp_available_pbn x;
                  tp_mstb := tp_mstb x; tp_parent := tp_parent x |} in
      let plugged := negb (eqb (tp_ddps x) dps) && dps in
      '(send_link, t) ← change_pdt p (tp_pdt x) junk new (put_tport p (replug false None (tp_ddps x) y) t);
      Some (plugged || send_link, t)
    end
  | _ => Some (false, t)
  end.

(** [drm_dp_mst_handle_up_req] for a whole message [msg] of [clen] bytes received with
    header [hdr]; the acknowledgement is sent by [DpTx]. *)
Definition up_req_dispatch (hdr : drm_dp_sideband_msg_hdr) (msg : list Z) (clen : Z) (junk : list Z) (new : option nat)
    (t : topology) : option (bool * topology) :=
  mstb ← (if broadcast hdr then Some None else drm_dp_get_mst_branch_device t (lct hdr) (rad hdr));
  if negb (broadcast hdr) && bool_decide (mstb = None) then Some (false, t)
  else
    '(type, (_, n)) ← drm_dp_sideband_parse_req msg clen;
    match n with
    | conn_stat _ guid _ _ _ _ _ =>
      mstb ← (match mstb with Some m => Some (Some m) | None => drm_dp_get_mst_branch_device_by_guid t guid end);
      match mstb with
      | None => Some (false, t)
      | Some m => drm_dp_update_port m n junk new t
      end
    | _ => Some (false, t)
    end.

(** [drm_dp_validate_guid]: a zero identifier is replaced by the time, twice; [salt]: the eight
    bytes of the time. *)
Definition drm_dp_validate_guid (salt guid : list Z) : bool * list Z :=
  if forallb (fun x => x =? 0) guid then (false, salt ++ salt) else (true, guid).

(** [drm_dp_check_mstb_guid]; a replaced identifier is also written to the device. *)
Definition drm_dp_check_mstb_guid (mstb : nat) (salt guid : list Z) (t : topology) : option topology :=
  b ← branches t !! mstb;
  Some (put_branch mstb {| tb_lct := tb_lct b; tb_rad := tb_rad b; tb_ports := tb_ports b;
                           tb_port_parent := tb_port_parent b; tb_guid := (drm_dp_validate_guid salt guid).2 |} t).

(** The primary branch device that [drm_dp_mst_topology_mgr_set_mst] makes. *)
Definition topology_start (m : nat) : option topology :=
  b ← drm_dp_add_mst_branch_device 1 [];
  Some {| branches := {[ m := b ]}; tports := ∅; mst_primary := Some m |}.

(** ** Addresses *)

(** [lia] with divisions by constants. *)
Ltac lia_div := zify; Z.to_euclidean_division_equations; lia.

(** A device address: at most twelve port numbers, zero behind the last. *)
Record addr_ok (b : topo_branch) : Prop := {
  ao_lct : 1 <= tb_lct b <= 13;
  ao_len : length (tb_rad b) = 8%nat;
  ao_u8 : Forall is_u8 (tb_rad b);
  ao_zero : forall i, (Z.to_nat (tb_lct b - 1) <= i < 16)%nat -> rad_nibble (tb_rad b) i = Some 0
}.

(** The port numbers of an address. *)
Definition path_of (b : topo_branch) : list Z :=
  map (fun i => default 0 (rad_nibble (tb_rad b) i)) (seq 0 (Z.to_nat (tb_lct b - 1))).

Definition hi (x : Z) : Z := Z.land (Z.shiftr x 4) 0xf.
Definition lo (x : Z) : Z := Z.land (Z.shiftr x 0) 0xf.

Lemma byte_new n : 0 <= n < 16 -> hi (u8 (Z.lor 0 (Z.shiftl n 4))) = n /\ lo (u8 (Z.lor 0 (Z.shiftl n 4))) = 0.
Proof.
  intros Hn. pose proof (below_spec 16 (fun n => (hi (u8 (Z.lor 0 (Z.shiftl n 4))) =? n) &&
    (lo (u8 (Z.lor 0 (Z.shiftl n 4))) =? 0)) eq_refl n Hn). lia.
Qed.

Lemma byte_add r n : is_u8 r -> lo r = 0 -> 0 <= n < 16 ->
  hi (u8 (Z.lor r (Z.shiftl n 0))) = hi r /\ lo (u8 (Z.lor r (Z.shiftl n 0))) = n.
Proof.
  intros Hr Hl Hn.
  pose proof (below_spec 256 (fun r => negb (lo r =? 0) || below 16 (fun n =>
    (hi (u8 (Z.lor r (Z.shiftl n 0))) =? hi r) && (lo (u8 (Z.lor r (Z.shiftl n 0))) =? n))) ltac:(vm_compute; reflexivity) r Hr) as H.
  apply orb_true_iff in H as [H|H]; [lia|]. pose proof (below_spec 16 _ H n Hn). lia.
Qed.

Lemma byte_zero r : is_u8 r -> hi r = 0 -> lo r = 0 -> r = 0.
Proof.
  intros Hr H1 H2.
  pose proof (below_spec 256 (fun r => negb ((hi r =? 0) && (lo r =? 0)) || (r =? 0)) ltac:(vm_compute; reflexivity) r Hr). lia.
Qed.

Lemma rad_nibble_bytes R j x : R !! j = Some x ->
  rad_nibble R (2 * j) = Some (hi x) /\ rad_nibble R (2 * j + 1) = Some (lo x).
Proof.
  intros H. unfold rad_nibble. split.
  - rewrite (Nat.mul_comm 2 j), Nat.div_mul, H, bind_some by lia. by rewrite Nat.even_mul, orb_comm.
  - replace ((2 * j + 1) / 2)%nat with j by (rewrite Nat.mul_comm, Nat.div_add_l; simpl; lia).
    rewrite H, bind_some, Nat.even_add, Nat.even_mul. done.
Qed.

(** The bytes behind an address are zero. *)
Lemma addr_tail b j : addr_ok b -> (Z.to_nat (tb_lct b) <= 2 * j + 1)%nat -> (j < 8)%nat -> tb_rad b !! j = Some 0.
Proof.
  intros [Hl Hn Hu Hz] Hj Hj8. destruct (lookup_lt_is_Some_2 (tb_rad b) j ltac:(lia)) as [x Hx]. rewrite Hx.
  destruct (rad_nibble_bytes _ _ _ Hx) as [E1 E2].
  rewrite Hz in E1, E2 by lia. injection E1 as E1. injection E2 as E2. f_equal.
  apply byte_zero; [by eapply Forall_lookup_1|done|done].
Qed.

(** The byte that gets the next port number, and where it goes. *)
Definition next_byte (b : topo_branch) : nat := Z.to_nat ((tb_lct b - 1) / 2).
Definition next_shift (b : topo_branch) : Z := if negb (tb_lct b mod 2 =? 0) then 4 else 0.
Definition child_rad (b : topo_branch) (num : Z) : list Z :=
  let x := default 0 (tb_rad b !! next_byte b) in
  <[next_byte b := u8 (Z.lor x (Z.shiftl num (next_shift b)))]> (tb_rad b).

Lemma puts_prefix bs rest : Forall is_u8 bs -> forall mid, length mid = length bs ->
  puts 0 bs (mid ++ rest) = Some (bs ++ rest).
Proof.
  intros Hb mid Hl. pose proof (puts_app bs 0 [] mid rest eq_refl Hl) as H. simpl in H.
  by rewrite H, map_u8_small.
Qed.

Lemma calculate_rad_ok b num junk :
  addr_ok b -> tb_lct b <= 12 -> length junk = 6%nat ->
  drm_dp_calculate_rad num (tb_lct b) (tb_rad b) junk =
  Some (tb_lct b + 1, take (next_byte b + 1) (child_rad b num) ++ drop (next_byte b + 1) junk).
Proof.
  intros Hok Hk Hj. destruct Hok as [Hl Hn Hu Hz] eqn:Eok. clear Eok. fold (next_byte b).
  assert (next_byte b <= 5)%nat as Hi by (unfold next_byte; lia_div).
  destruct (lookup_lt_is_Some_2 (tb_rad b) (next_byte b) ltac:(lia)) as [x Hx].
  unfold drm_dp_calculate_rad, child_rad. fold (next_byte b). fold (next_shift b). rewrite Hx. simpl default.
  set (i := next_byte b) in *.
  assert (forall s, put_or i (Z.shiftl num s) (take (i + 1) (tb_rad b) ++ drop (i + 1) junk)
    = Some (take (i + 1) (<[i := u8 (Z.lor x (Z.shiftl num s))]> (tb_rad b)) ++ drop (i + 1) junk)) as Hput.
  { intros s. unfold put_or. rewrite lookup_app_l by (rewrite length_take; lia).
    rewrite lookup_take_lt, Hx by lia. rewrite insert_app_l by (rewrite length_take; lia).
    by rewrite take_insert_lt by lia. }
  destruct (1 <? tb_lct b) eqn:E.
  - unfold bytes_at. destruct (Nat.leb_spec (0 + (i + 1)) (length (tb_rad b))); [|lia]. rewrite bind_some, drop_0.
    rewrite <- (take_drop (i + 1) junk) at 1.
    rewrite puts_prefix, !bind_some; [|by apply Forall_take|rewrite !length_take; lia].
    rewrite Hput, bind_some. by rewrite u8_small by (unfold is_u8; lia).
  - assert (tb_lct b = 1) as E1 by lia. unfold next_shift in *.
    assert (i = 0%nat) as Ei by (subst i; unfold next_byte; by rewrite E1).
    assert (put 0 0 junk = Some (take (i + 1) (tb_rad b) ++ drop (i + 1) junk)) as Hz0.
    { rewrite Ei. pose proof (addr_tail b 0 Hok ltac:(lia) ltac:(lia)) as H0.
      destruct (tb_rad b), junk; [done..|]. simpl in H0. by injection H0 as ->. }
    rewrite Hz0, !bind_some, E1, Hput, bind_some. done.
Qed.

(** The new device: its address is the parent's with the port number at the end. *)
Lemma new_branch_ok b num junk :
  addr_ok b -> tb_lct b <= 12 -> length junk = 6%nat -> 0 <= num < 16 ->
  exists rad c, drm_dp_calculate_rad num (tb_lct b) (tb_rad b) junk = Some (tb_lct b + 1, rad) /\
    drm_dp_add_mst_branch_device (tb_lct b + 1) rad = Some c /\ tb_lct c = tb_lct b + 1 /\ tb_ports c = [] /\
    tb_rad c = child_rad b num.
Proof.
  intros Hok Hk Hj Hnum. eexists _, _. split; [by apply calculate_rad_ok|].
  unfold drm_dp_add_mst_branch_device. pose proof (ao_lct b Hok). pose proof (ao_len b Hok) as Hlen.
  destruct (Z.ltb_spec 1 (tb_lct b + 1)); [|lia].
  replace (Z.to_nat ((tb_lct b + 1) / 2)) with (next_byte b + 1)%nat by (unfold next_byte; lia_div).
  assert (next_byte b <= 5)%nat as Hi by (unfold next_byte; lia_div).
  assert (length (child_rad b num) = 8%nat) as Hcl by (unfold child_rad; by rewrite length_insert).
  unfold bytes_at. rewrite length_app, length_take, length_drop. destruct (Nat.leb_spec (0 + (next_byte b + 1))
    ((next_byte b + 1) `min` length (child_rad b num) + (length junk - (next_byte b + 1)))); [|lia].
  rewrite drop_0, take_app_length', bind_some by (rewrite length_take; lia).
  replace (replicate 8 0) with (replicate (next_byte b + 1) 0 ++ replicate (7 - next_byte b) 0)
    by (rewrite <- replicate_add; f_equal; lia).
  rewrite puts_prefix.
  - rewrite bind_some. split; [reflexivity|]. simpl. split_and!; [done|done|].
    rewrite <- (take_drop (next_byte b + 1) (child_rad b num)) at 2. f_equal.
    apply replicate_as_elem_of. split; [rewrite length_drop; lia|]. intros y Hy.
    apply list_elem_of_lookup in Hy as [j Hj']. rewrite lookup_drop in Hj'. unfold child_rad in Hj'.
    rewrite list_lookup_insert_ne in Hj' by lia. pose proof (lookup_lt_Some _ _ _ Hj').
    rewrite (addr_tail b) in Hj' by (done || unfold next_byte in *; lia_div). by injection Hj'.
  - apply Forall_take. unfold child_rad. apply Forall_insert; [apply Hok|apply u8_range].
  - rewrite length_replicate, length_take. lia.
Qed.

Lemma child_nibble b num i :
  addr_ok b -> tb_lct b <= 12 -> 0 <= num < 16 -> (i < 16)%nat ->
  rad_nibble (child_rad b num) i = if decide (Z.of_nat i = tb_lct b - 1) then Some num else rad_nibble (tb_rad b) i.
Proof.
  intros Hok Hk Hnum Hi. pose proof (ao_lct b Hok). pose proof (ao_len b Hok) as Hlen.
  assert (next_byte b <= 5)%nat by (unfold next_byte; lia_div).
  destruct (decide (i / 2 = next_byte b)%nat) as [E|E].
  2:{ unfold rad_nibble, child_rad. rewrite list_lookup_insert_ne by done.
      rewrite decide_False; [done|]. unfold next_byte in E. intros Ei. apply E. lia_div. }
  destruct (lookup_lt_is_Some_2 (tb_rad b) (next_byte b) ltac:(lia)) as [x Hx].
  set (y := u8 (Z.lor x (Z.shiftl num (next_shift b)))).
  assert (child_rad b num !! next_byte b = Some y) as Hy.
  { unfold child_rad. rewrite Hx. apply list_lookup_insert_eq. lia. }
  destruct (rad_nibble_bytes _ _ _ Hx) as [X1 X2], (rad_nibble_bytes _ _ _ Hy) as [Y1 Y2].
  assert (is_u8 x) as Hu by (eapply Forall_lookup_1; [apply Hok|done]).
  destruct (decide (tb_lct b mod 2 = 0)) as [Ev|Od].
  - (* the byte already has one port number *)
    assert (next_shift b = 0) as Es by (unfold next_shift; destruct (Z.eqb_spec (tb_lct b mod 2) 0); done).
    assert (lo x = 0) as Hl by (rewrite (ao_zero b Hok) in X2 by (unfold next_byte; lia_div); by injection X2).
    destruct (byte_add x num Hu Hl Hnum) as [B1 B2]. subst y. rewrite Es in Y1, Y2.
    assert (i = (2 * next_byte b)%nat \/ i = (2 * next_byte b + 1)%nat) as [->| ->] by lia_div.
    + rewrite decide_False by (unfold next_byte; lia_div). by rewrite Y1, X1, B1.
    + rewrite decide_True by (unfold next_byte; lia_div). by rewrite Y2, B2.
  - assert (next_shift b = 4) as Es by (unfold next_shift; destruct (Z.eqb_spec (tb_lct b mod 2) 0); done).
    assert (x = 0) as ->.
    { rewrite (addr_tail b) in Hx by (done || unfold next_byte; lia_div). by injection Hx. }
    destruct (byte_new num Hnum) as [B1 B2]. subst y. rewrite Es in Y1, Y2.
    assert (i = (2 * next_byte b)%nat \/ i = (2 * next_byte b + 1)%nat) as [->| ->] by lia_div.
    + rewrite decide_True by (unfold next_byte; lia_div). by rewrite Y1, B1.
    + rewrite decide_False by (unfold next_byte; lia_div). by rewrite Y2, X2, B2.
Qed.

Lemma child_addr_ok b c num :
  addr_ok b -> tb_lct b <= 12 -> 0 <= num < 16 -> tb_lct c = tb_lct b + 1 -> tb_rad c = child_rad b num ->
  addr_ok c /\ path_of c = path_of b ++ [num].
Proof.
  intros Hok Hk Hnum Hl Hr. pose proof (ao_lct b Hok). split.
  - split; rewrite ?Hl, ?Hr.
    + lia.
    + unfold child_rad. rewrite length_insert. apply Hok.
    + unfold child_rad. apply Forall_insert; [apply Hok|apply u8_range].
    + intros i Hi. rewrite child_nibble by (done || lia). rewrite decide_False by lia. apply Hok. lia.
  - unfold path_of. rewrite Hl, Hr.
    replace (Z.to_nat (tb_lct b + 1 - 1)) with (S (Z.to_nat (tb_lct b - 1))) by lia.
    rewrite seq_S, map_app. f_equal.
    + apply map_ext_in. intros i Hi. apply in_seq in Hi. rewrite child_nibble by (done || lia).
      by rewrite decide_False by lia.
    + simpl. rewrite child_nibble by (done || lia). by rewrite decide_True by lia.
Qed.

(** ** The shape of the tree *)

Record topo_ok (t : topology) : Prop := {
  tk_addr : forall m b, branches t !! m = Some b -> addr_ok b;
  tk_ports : forall m b p, branches t !! m = Some b -> p ∈ tb_ports b ->
    exists x, tports t !! p = Some x /\ tp_parent x = m;
  tk_nums : forall m b p q x y, branches t !! m = Some b -> p ∈ tb_ports b -> q ∈ tb_ports b ->
    tports t !! p = Some x -> tports t !! q = Some y -> tp_num x = tp_num y -> p = q;
  tk_num : forall p x, tports t !! p = Some x -> 0 <= tp_num x < 16;
  tk_parent : forall p x, tports t !! p = Some x -> is_Some (branches t !! tp_parent x);
  tk_child : forall p x c b, tports t !! p = Some x -> tp_mstb x = Some c -> branches t !! tp_parent x = Some b ->
    exists d, branches t !! c = Some d /\ tb_lct d = tb_lct b + 1 /\ path_of d = path_of b ++ [tp_num x];
  tk_up : forall m d p, branches t !! m = Some d -> tb_port_parent d = Some p ->
    exists x b, tports t !! p = Some x /\ branches t !! tp_parent x = Some b /\ tb_lct d = tb_lct b + 1;
  tk_primary : forall m, mst_primary t = Some m -> exists b, branches t !! m = Some b /\ tb_lct b = 1
}.

(** The ports [l] lead from branch device [m] down to [d]. *)
Inductive path_to (t : topology) : nat -> list Z -> nat -> Prop :=
| path_here m : path_to t m [] m
| path_down m b p x c l d :
    branches t !! m = Some b -> p ∈ tb_ports b -> tports t !! p = Some x -> tp_mstb x = Some c ->
    path_to t c l d -> path_to t m (tp_num x :: l) d.

(** A search came to an end with an answer that satisfies [Q], or there is none. *)
Definition found {A} (o : option (option A)) (Q : A -> Prop) : Prop :=
  exists r, o = Some r /\ match r with Some a => Q a | None => forall a, ~ Q a end.

Lemma found_equiv {A} (o : option (option A)) (Q Q' : A -> Prop) :
  found o Q -> (forall a, Q a <-> Q' a) -> found o Q'.
Proof.
  intros (r & E & H) HQ. exists r. split; [done|]. destruct r as [a|]; [by apply HQ|].
  intros a Ha. by apply (H a), HQ.
Qed.

Lemma found_none {A} (Q : A -> Prop) : (forall a, ~ Q a) -> found (Some None) Q.
Proof. intros H. by exists None. Qed.

Lemma found_some {A} (a : A) (Q : A -> Prop) : Q a -> found (Some (Some a)) Q.
Proof. intros H. by exists (Some a). Qed.

Lemma search_found {A} (f : nat -> option (option A)) l (Q : nat -> A -> Prop) :
  (forall p, p ∈ l -> found (f p) (Q p)) -> found (search f l) (fun a => exists p, p ∈ l /\ Q p a).
Proof.
  induction l as [|p l IH]; intros H; cbn [search].
  - apply found_none. intros a (p & Hp & _). by apply elem_of_nil in Hp.
  - destruct (H p) as (r & E & Hr); [by left|]. rewrite E, bind_some. destruct r as [a|].
    + apply found_some. exists p. split; [by left|done].
    + eapply found_equiv; [apply IH; intros q Hq; apply H; by right|]. intros a. split.
      * intros (q & Hq & Ha). exists q. split; [by right|done].
      * intros (q & Hq & Ha). apply elem_of_cons in Hq as [->|Hq]; [by destruct (Hr a)|eauto].
Qed.

(** ** Searches find what is there *)

Section Searches.
Context (t : topology) (Ht : topo_ok t).

Lemma path_cons_inv m l d b :
  branches t !! m = Some b -> path_to t m l d ->
  (l = [] /\ d = m) \/ exists p x c l', l = tp_num x :: l' /\ p ∈ tb_ports b /\ tports t !! p = Some x /\
    tp_mstb x = Some c /\ path_to t c l' d.
Proof.
  intros Hb H. destruct H as [|m b' p x c l d Hb' Hp Hx Hc Hl]; [by left|]. simplify_eq. right. eauto 10.
Qed.

Lemma get_port_found m b n :
  branches t !! m = Some b ->
  found (drm_dp_get_port t (tb_ports b) n)
        (fun p => p ∈ tb_ports b /\ exists x, tports t !! p = Some x /\ tp_num x = n).
Proof.
  intros Hb. unfold drm_dp_get_port.
  eapply found_equiv; [apply (search_found _ _ (fun p q => q = p /\ exists x, tports t !! p = Some x /\ tp_num x = n))|].
  - intros p Hp. destruct (tk_ports t Ht m b p Hb Hp) as (x & Hx & _). rewrite Hx, bind_some.
    destruct (Z.eqb_spec (tp_num x) n); [apply found_some; eauto|apply found_none]. naive_solver.
  - intros p. naive_solver.
Qed.

(** The searches down the tree pass from a port to the device behind it. *)
Lemma below_found {A} (f : nat -> option (option A)) p x (Q : nat -> A -> Prop) :
  tports t !! p = Some x ->
  (forall c, tp_mstb x = Some c -> found (f c) (Q c)) ->
  found (x ← tports t !! p; match tp_mstb x with Some m => f m | None => Some None end)
        (fun a => exists c, tp_mstb x = Some c /\ Q c a).
Proof.
  intros Hx Hf. rewrite Hx, bind_some. destruct (tp_mstb x) as [c|] eqn:Hc.
  - eapply found_equiv; [by apply Hf|]. naive_solver.
  - apply found_none. naive_solver.
Qed.

Lemma child_lct m b p x c :
  branches t !! m = Some b -> p ∈ tb_ports b -> tports t !! p = Some x -> tp_mstb x = Some c ->
  exists d, branches t !! c = Some d /\ tb_lct d = tb_lct b + 1.
Proof.
  intros Hb Hp Hx Hc. destruct (tk_ports t Ht m b p Hb Hp) as (x' & Hx' & Em). simplify_eq.
  destruct (tk_child t Ht p x c b Hx Hc Hb) as (d & Hd & Hl & _). eauto.
Qed.

Lemma get_validated_mstb_found fuel m b f :
  branches t !! m = Some b -> 13 - tb_lct b < Z.of_nat fuel ->
  found (get_validated_mstb_ref fuel t m f) (fun a => a = f /\ exists l, path_to t m l a).
Proof.
  revert m b. induction fuel as [|fuel IH]; intros m b Hb Hf.
  { pose proof (ao_lct b (tk_addr t Ht m b Hb)). lia. }
  cbn [get_validated_mstb_ref]. destruct (decide (f = m)) as [->|Hne].
  { apply found_some. split; [done|]. exists []. constructor. }
  rewrite Hb, bind_some. eapply found_equiv.
  - eapply (search_found _ _ (fun p a => exists x c, tports t !! p = Some x /\ tp_mstb x = Some c /\
      a = f /\ exists l, path_to t c l a)). intros p Hp.
    destruct (tk_ports t Ht m b p Hb Hp) as (x & Hx & _).
    eapply found_equiv; [apply (below_found _ p x (fun c a => a = f /\ exists l, path_to t c l a) Hx)|].
    + intros c Hc. destruct (child_lct m b p x c Hb Hp Hx Hc) as (d & Hd & Hl). eapply IH; [done|lia].
    + naive_solver.
  - intros a. split.
    + intros (p & Hp & x & c & Hx & Hc & -> & l & Hl). split; [done|]. eexists. by econstructor.
    + intros (-> & l & Hl). destruct (path_cons_inv m l f b Hb Hl) as [[_ ?]|(p & x & c & l' & -> & Hp & Hx & Hc & Hl')];
        [done|]. eauto 10.
Qed.

Lemma get_port_ref_found fuel m b f :
  branches t !! m = Some b -> 13 - tb_lct b < Z.of_nat fuel ->
  found (get_port_ref fuel t m f)
        (fun a => a = f /\ exists l d b', path_to t m l d /\ branches t !! d = Some b' /\ a ∈ tb_ports b').
Proof.
  revert m b. induction fuel as [|fuel IH]; intros m b Hb Hf.
  { pose proof (ao_lct b (tk_addr t Ht m b Hb)). lia. }
  cbn [get_port_ref]. rewrite Hb, bind_some. eapply found_equiv.
  - eapply (search_found _ _ (fun p a => a = f /\ (p = f \/ exists x c, tports t !! p = Some x /\ tp_mstb x = Some c /\
      exists l d b', path_to t c l d /\ branches t !! d = Some b' /\ a ∈ tb_ports b'))). intros p Hp.
    destruct (tk_ports t Ht m b p Hb Hp) as (x & Hx & _).
    destruct (decide (p = f)) as [->|Hne]; [apply found_some; eauto|].
    eapply found_equiv; [apply (below_found _ p x (fun c a => a = f /\ exists l d b', path_to t c l d /\
      branches t !! d = Some b' /\ a ∈ tb_ports b') Hx)|].
    + intros c Hc. destruct (child_lct m b p x c Hb Hp Hx Hc) as (d & Hd & Hl). eapply IH; [done|lia].
    + naive_solver.
  - intros a. split.
    + intros (p & Hp & -> & [->|(x & c & Hx & Hc & l & d & b' & Hl & Hd & Ha)]); split; try done.
      * exists [], m, b. split; [constructor|done].
      * eexists _, d, b'. split; [by econstructor|done].
    + intros (-> & l & d & b' & Hl & Hd & Ha).
      destruct (path_cons_inv m l d b Hb Hl) as [[-> ->]|(p & x & c & l' & -> & Hp & Hx & Hc & Hl')].
      * simplify_eq. eauto 10.
      * exists p. eauto 15.
Qed.

Lemma get_by_guid_found fuel m b g :
  branches t !! m = Some b -> 13 - tb_lct b < Z.of_nat fuel ->
  exists r, get_by_guid fuel t m g = Some r /\
    match r with
    | Some a => exists l b', path_to t m l a /\ branches t !! a = Some b' /\ tb_guid b' = g
    | None => forall l a b', path_to t m l a -> branches t !! a = Some b' -> tb_guid b' <> g
    end.
Proof.
  intros Hb Hf.
  assert (found (get_by_guid fuel t m g) (fun a => exists l b', path_to t m l a /\ branches t !! a = Some b' /\ tb_guid b' = g))
    as (r & E & Hr).
  2:{ exists r. split; [done|]. destruct r; [done|]. intros l a b' H1 H2 H3. eapply Hr. eauto. }
  revert m b Hb Hf. induction fuel as [|fuel IH]; intros m b Hb Hf.
  { pose proof (ao_lct b (tk_addr t Ht m b Hb)). lia. }
  cbn [get_by_guid]. rewrite Hb, bind_some. destruct (decide (tb_guid b = g)) as [Hg|Hg].
  { apply found_some. exists [], b. split; [constructor|done]. }
  eapply found_equiv.
  - eapply (search_found _ _ (fun p a => exists x c, tports t !! p = Some x /\ tp_mstb x = Some c /\
      exists l b', path_to t c l a /\ branches t !! a = Some b' /\ tb_guid b' = g)). intros p Hp.
    destruct (tk_ports t Ht m b p Hb Hp) as (x & Hx & _).
    eapply found_equiv; [apply (below_found _ p x (fun c a => exists l b', path_to t c l a /\
      branches t !! a = Some b' /\ tb_guid b' = g) Hx)|].
    + intros c Hc. destruct (child_lct m b p x c Hb Hp Hx Hc) as (d & Hd & Hl). eapply IH; [done|lia].
    + naive_solver.
  - intros a. split.
    + intros (p & Hp & x & c & Hx & Hc & l & b' & Hl & Hd & Ha). eexists _, b'. split; [by econstructor|done].
    + intros (l & b' & Hl & Hd & Ha).
      destruct (path_cons_inv m l a b Hb Hl) as [[-> ->]|(p & x & c & l' & -> & Hp & Hx & Hc & Hl')]; [by simplify_eq|].
      exists p. eauto 15.
Qed.

Lemma get_last_connected_total fuel m b :
  branches t !! m = Some b -> tb_lct b <= Z.of_nat fuel -> is_Some (get_last_connected_port fuel t m).
Proof.
  revert m b. induction fuel as [|fuel IH]; intros m b Hb Hf.
  { pose proof (ao_lct b (tk_addr t Ht m b Hb)). lia. }
  cbn [get_last_connected_port]. rewrite Hb, bind_some. destruct (tb_port_parent b) as [p|] eqn:Hp; [|eauto].
  destruct (tk_up t Ht m b p Hb Hp) as (x & q & Hx & Hq & Hl). rewrite Hx, bind_some.
  case_decide; [|eauto]. eapply IH; [done|lia].
Qed.

End Searches.

(** ** Addresses lead to their device *)

Lemma path_of_path t m l d b c :
  topo_ok t -> path_to t m l d -> branches t !! m = Some b -> branches t !! d = Some c ->
  path_of c = path_of b ++ l.
Proof.
  intros Ht H. revert b. induction H as [m|m b' p x e l d Hb Hp Hx Hc Hl IH]; intros b Hm Hd.
  - simplify_eq. by rewrite app_nil_r.
  - rewrite Hb in Hm. injection Hm as <-.
    destruct (tk_ports t Ht m b' p Hb Hp) as (x' & Hx' & Em). simplify_eq.
    destruct (tk_child t Ht p x e b' Hx Hc Hb) as (f & Hf & _ & Ep).
    rewrite (IH f Hf Hd), Ep, <- app_assoc. done.
Qed.

Lemma path_of_nibble b j n : addr_ok b -> path_of b !! j = Some n -> rad_nibble (tb_rad b) j = Some n.
Proof.
  intros Hok. unfold path_of. rewrite list_lookup_fmap, fmap_Some. intros (i & Hi & ->).
  pose proof (ao_lct b Hok). apply lookup_seq in Hi as [-> Hi]. simpl.
  destruct (lookup_lt_is_Some_2 (tb_rad b) (j / 2)) as [x Hx].
  { rewrite (ao_len b Hok). lia_div. }
  unfold rad_nibble. by rewrite Hx, bind_some.
Qed.

Lemma path_of_length b : addr_ok b -> length (path_of b) = Z.to_nat (tb_lct b - 1).
Proof. intros _. unfold path_of. by rewrite length_map, length_seq. Qed.

Lemma walk_rad_path t m l d rad i :
  topo_ok t -> path_to t m l d -> (forall j n, l !! j = Some n -> rad_nibble rad (i + j) = Some n) ->
  walk_rad (length l) i t rad m = Some (Some d).
Proof.
  intros Ht H. revert i. induction H as [m|m b p x c l d Hb Hp Hx Hc Hl IH]; intros i Hr; [done|].
  cbn [length walk_rad]. pose proof (Hr 0%nat (tp_num x) eq_refl) as H0. rewrite Nat.add_0_r in H0.
  rewrite H0, bind_some, Hb, bind_some.
  destruct (get_port_found t Ht m b (tp_num x) Hb) as (r & -> & Hq). rewrite bind_some. destruct r as [q|].
  - destruct Hq as (Hq & y & Hy & En). assert (q = p) as -> by (eapply (tk_nums t Ht); done).
    rewrite Hx, bind_some, Hc. apply IH. intros j n Hj.
    replace (S i + j)%nat with (i + S j)%nat by lia. by apply Hr.
  - exfalso. eapply Hq. eauto.
Qed.

Lemma primary_path_of t m b : topo_ok t -> branches t !! m = Some b -> tb_lct b = 1 -> path_of b = [].
Proof. intros Ht Hb Hl. unfold path_of. by rewrite Hl. Qed.

Lemma own_address t m d l b :
  topo_ok t -> mst_primary t = Some m -> path_to t m l d -> branches t !! d = Some b ->
  drm_dp_get_mst_branch_device t (tb_lct b) (tb_rad b) = Some (Some d) /\ path_of b = l.
Proof.
  intros Ht Hm Hl Hb. destruct (tk_primary t Ht m Hm) as (a & Ha & Hla).
  pose proof (tk_addr t Ht d b Hb) as Hok.
  pose proof (path_of_path t m l d a b Ht Hl Ha Hb) as Ep. rewrite (primary_path_of t m a Ht Ha Hla) in Ep.
  simpl in Ep. split; [|done]. unfold drm_dp_get_mst_branch_device. rewrite Hm, bind_some.
  rewrite <- (path_of_length b Hok), Ep. eapply walk_rad_path; [done|done|].
  intros j n Hj. apply path_of_nibble; [done|]. by rewrite Ep.
Qed.

(** ** The operations keep the tree *)

(** Replacing a port by one with the same number, parent and device. *)
Lemma put_tport_ok t p x y :
  topo_ok t -> tports t !! p = Some x -> tp_num y = tp_num x -> tp_parent y = tp_parent x ->
  (tp_mstb y = tp_mstb x \/ tp_mstb y = None) -> topo_ok (put_tport p y t).
Proof.
  intros Ht Hp En Ep Em.
  assert (forall q z, tports (put_tport p y t) !! q = Some z -> exists z', tports t !! q = Some z' /\
    tp_num z = tp_num z' /\ tp_parent z = tp_parent z' /\ (tp_mstb z = tp_mstb z' \/ tp_mstb z = None)) as Hback.
  { intros q z. simpl. rewrite lookup_insert_Some. intros [[<- <-]|[_ Hq]]; eauto 6. }
  assert (forall q z, tports t !! q = Some z -> exists z', tports (put_tport p y t) !! q = Some z' /\
    tp_num z' = tp_num z /\ tp_parent z' = tp_parent z) as Hforw.
  { intros q z Hq. simpl. destruct (decide (p = q)) as [->|]; [rewrite lookup_insert_eq|rewrite lookup_insert_ne by done];
      simplify_eq; eauto. }
  split; try apply Ht.
  - intros m b q Hb Hq. destruct (tk_ports t Ht m b q Hb Hq) as (z & Hz & <-).
    destruct (Hforw q z Hz) as (z' & Hz' & _ & <-). eauto.
  - intros m b q r z w Hb Hq Hr Hz Hw E. destruct (Hback q z Hz) as (z' & Hz' & E1 & _), (Hback r w Hw) as (w' & Hw' & E2 & _).
    eapply (tk_nums t Ht); [done..|congruence].
  - intros q z Hz. destruct (Hback q z Hz) as (z' & Hz' & -> & _). by eapply (tk_num t Ht).
  - intros q z Hz. destruct (Hback q z Hz) as (z' & Hz' & _ & -> & _). by eapply (tk_parent t Ht).
  - intros q z c b Hz Hc Hb. destruct (Hback q z Hz) as (z' & Hz' & -> & E2 & E3). rewrite E2 in Hb.
    apply (tk_child t Ht q z' c b Hz'); [|done]. destruct E3; congruence.
  - intros m d q Hd Hq. destruct (tk_up t Ht m d q Hd Hq) as (z & b & Hz & Hb & E).
    destruct (Hforw q z Hz) as (z' & Hz' & _ & E'). exists z', b. by rewrite E'.
Qed.

(** Hanging a new branch device below a port. *)
Lemma attach_ok t p x b m c :
  topo_ok t -> tports t !! p = Some x -> branches t !! tp_parent x = Some b -> branches t !! m = None ->
  tb_lct b <= 12 -> tb_lct c = tb_lct b + 1 -> tb_rad c = child_rad b (tp_num x) -> tb_ports c = [] ->
  tb_port_parent c = Some p ->
  topo_ok (put_branch m c (put_tport p (with_mstb (Some m) x) t)).
Proof.
  intros Ht Hp Hb Hm Hk Hl Hr Hc Hpp.
  destruct (child_addr_ok b c (tp_num x)) as [Hac Hpc]; [by eapply (tk_addr t Ht)|done|by eapply (tk_num t Ht)|done|done|].
  assert (forall q z, tports (put_tport p (with_mstb (Some m) x) t) !! q = Some z -> exists z', tports t !! q = Some z' /\
    tp_num z = tp_num z' /\ tp_parent z = tp_parent z' /\ (tp_mstb z = tp_mstb z' \/ q = p /\ tp_mstb z = Some m)) as Hback.
  { intros q z. simpl. rewrite lookup_insert_Some. intros [[<- <-]|[_ Hq]]; eauto 8. }
  assert (forall q z, tports t !! q = Some z -> exists z', <[p := with_mstb (Some m) x]> (tports t) !! q = Some z' /\
    tp_num z' = tp_num z /\ tp_parent z' = tp_parent z) as Hforw.
  { intros q z Hq. destruct (decide (p = q)) as [->|]; [rewrite lookup_insert_eq|rewrite lookup_insert_ne by done];
      simplify_eq; eauto. }
  assert (forall k a, branches t !! k = Some a -> <[m := c]> (branches t) !! k = Some a) as Hold.
  { intros k a Hk'. rewrite lookup_insert_ne; [done|congruence]. }
  split; simpl.
  - intros k a. rewrite lookup_insert_Some. intros [[<- <-]|[_ Hk']]; [done|by eapply (tk_addr t Ht)].
  - intros k a q. rewrite lookup_insert_Some. intros [[<- <-]|[_ Hk']] Hq; [rewrite Hc in Hq; by apply elem_of_nil in Hq|].
    destruct (tk_ports t Ht k a q Hk' Hq) as (z & Hz & <-). destruct (Hforw q z Hz) as (z' & Hz' & _ & <-). eauto.
  - intros k a q r z w. rewrite lookup_insert_Some. intros [[<- <-]|[_ Hk']] Hq Hr' Hz Hw E;
      [rewrite Hc in Hq; by apply elem_of_nil in Hq|].
    destruct (Hback q z Hz) as (z' & Hz' & E1 & _), (Hback r w Hw) as (w' & Hw' & E2 & _).
    eapply (tk_nums t Ht); [done..|congruence].
  - intros q z Hz. destruct (Hback q z Hz) as (z' & Hz' & -> & _). by eapply (tk_num t Ht).
  - intros q z Hz. destruct (Hback q z Hz) as (z' & Hz' & _ & -> & _).
    destruct (tk_parent t Ht q z' Hz') as [a Ha]. eauto.
  - intros q z k a Hz Hk' Ha. destruct (Hback q z Hz) as (z' & Hz' & -> & E2 & E3). rewrite E2 in Ha.
    assert (branches t !! tp_parent z' = Some a) as Ha'.
    { destruct (tk_parent t Ht q z' Hz') as [a' Ha']. rewrite (Hold _ _ Ha') in Ha. congruence. }
    destruct E3 as [E3|[-> E3]].
    + destruct (tk_child t Ht q z' k a Hz') as (d & Hd & ?); [congruence|done|]. eauto.
    + rewrite Hp in Hz'. injection Hz' as <-. rewrite E3 in Hk'. injection Hk' as <-.
      rewrite Hb in Ha'. injection Ha' as <-. exists c. by rewrite lookup_insert_eq.
  - intros k d q. rewrite lookup_insert_Some. intros [[<- <-]|[_ Hk']] Hq.
    + simplify_eq. exists (with_mstb (Some m) x), b. rewrite lookup_insert_eq. eauto.
    + destruct (tk_up t Ht k d q Hk' Hq) as (z & a & Hz & Ha & E).
      destruct (Hforw q z Hz) as (z' & Hz' & _ & E'). exists z', a. rewrite E'. eauto.
  - intros k Hk'. destruct (tk_primary t Ht k Hk') as (a & Ha & E). eauto.
Qed.

(** A new port that no list holds yet. *)
Lemma fresh_tport_ok t p x :
  topo_ok t -> tports t !! p = None -> is_Some (branches t !! tp_parent x) -> tp_mstb x = None ->
  0 <= tp_num x < 16 -> topo_ok (put_tport p x t).
Proof.
  intros Ht Hp Hm Hc Hn.
  assert (forall q z, tports t !! q = Some z -> <[p := x]> (tports t) !! q = Some z) as Hold.
  { intros q z Hq. rewrite lookup_insert_ne; [done|congruence]. }
  assert (forall k a q z, branches t !! k = Some a -> q ∈ tb_ports a -> <[p := x]> (tports t) !! q = Some z ->
    tports t !! q = Some z) as Hlisted.
  { intros k a q z Hk Hq Hz. destruct (tk_ports t Ht k a q Hk Hq) as (z' & Hz' & _).
    rewrite (Hold q z' Hz') in Hz. congruence. }
  split; simpl; try apply Ht.
  - intros k a q Hk Hq. destruct (tk_ports t Ht k a q Hk Hq) as (z & Hz & E). eauto.
  - intros k a q r y z Hk Hq Hr Hy Hz E. eapply (tk_nums t Ht); eauto.
  - intros q z. rewrite lookup_insert_Some. intros [[<- <-]|[_ Hq]]; [done|by eapply (tk_num t Ht)].
  - intros q z. rewrite lookup_insert_Some. intros [[<- <-]|[_ Hq]]; [done|by eapply (tk_parent t Ht)].
  - intros q z c a. rewrite lookup_insert_Some. intros [[<- <-]|[_ Hq]] Hz Ha; [congruence|by eapply (tk_child t Ht)].
  - intros k d q Hk Hq. destruct (tk_up t Ht k d q Hk Hq) as (z & a & Hz & Ha & E). eauto 8.
Qed.

(** A device changes but for its address and its parent; its list of ports has its own
    ports, with different numbers. *)
Lemma put_branch_ok t m b b' :
  topo_ok t -> branches t !! m = Some b ->
  tb_lct b' = tb_lct b -> tb_rad b' = tb_rad b -> tb_port_parent b' = tb_port_parent b ->
  (forall q, q ∈ tb_ports b' -> exists x, tports t !! q = Some x /\ tp_parent x = m) ->
  (forall q r y z, q ∈ tb_ports b' -> r ∈ tb_ports b' -> tports t !! q = Some y -> tports t !! r = Some z ->
    tp_num y = tp_num z -> q = r) ->
  topo_ok (put_branch m b' t).
Proof.
  intros Ht Hb El Er Ep Hl Hd. assert (path_of b' = path_of b) as Epath by (unfold path_of; by rewrite El, Er).
  assert (forall k a, <[m := b']> (branches t) !! k = Some a ->
    exists a', branches t !! k = Some a' /\ tb_lct a = tb_lct a' /\ tb_rad a = tb_rad a' /\ path_of a = path_of a' /\
      tb_port_parent a = tb_port_parent a' /\ (tb_ports a = tb_ports a' \/ k = m /\ tb_ports a = tb_ports b')) as Hback.
  { intros k a. rewrite lookup_insert_Some. intros [[<- <-]|[_ Hk]]; eauto 10. }
  assert (forall k a, branches t !! k = Some a -> exists a', <[m := b']> (branches t) !! k = Some a' /\
    tb_lct a' = tb_lct a /\ path_of a' = path_of a) as Hforw.
  { intros k a Hk. destruct (decide (m = k)) as [->|]; [rewrite lookup_insert_eq|rewrite lookup_insert_ne by done];
      simplify_eq; eauto. }
  split; simpl.
  - intros k a Hk. destruct (Hback k a Hk) as (a' & Hk' & E1 & E2 & _). pose proof (tk_addr t Ht k a' Hk') as [].
    split; rewrite ?E1, ?E2; done.
  - intros k a q Hk Hq. destruct (Hback k a Hk) as (a' & Hk' & _ & _ & _ & _ & [E|[-> E]]); rewrite E in Hq; [|by apply Hl].
    by eapply (tk_ports t Ht).
  - intros k a q r y z Hk Hq Hr Hy Hz En. destruct (Hback k a Hk) as (a' & Hk' & _ & _ & _ & _ & [E|[-> E]]);
      rewrite E in Hq, Hr; [by eapply (tk_nums t Ht)|by eapply Hd].
  - apply Ht.
  - intros q z Hq. destruct (tk_parent t Ht q z Hq) as [a Ha]. destruct (Hforw _ a Ha) as (a' & Ha' & _). eauto.
  - intros q z c a Hq Hz Ha. destruct (Hback _ a Ha) as (a' & Ha' & E1 & _ & E2 & _).
    destruct (tk_child t Ht q z c a' Hq Hz Ha') as (d & Hd' & E3 & E4). destruct (Hforw c d Hd') as (d' & Hd'' & E5 & E6).
    exists d'. by rewrite E1, E2, E5, E6.
  - intros k d q Hk Hq. destruct (Hback k d Hk) as (d' & Hk' & E1 & _ & _ & E2 & _). rewrite E2 in Hq.
    destruct (tk_up t Ht k d' q Hk' Hq) as (z & a & Hz & Ha & E). destruct (Hforw _ a Ha) as (a' & Ha' & E' & _).
    exists z, a'. by rewrite E1, E'.
  - intros k Hk. destruct (tk_primary t Ht k Hk) as (a & Ha & E). destruct (Hforw _ a Ha) as (a' & Ha' & E' & _).
    exists a'. by rewrite E'.
Qed.

Lemma puts_room vs : forall i b b', puts i vs b = Some b' -> vs <> [] -> (i + length vs <= length b)%nat.
Proof.
  induction vs as [|v vs IH]; intros i b b' H Hn; [done|]. cbn [puts] in H. unfold put in H.
  destruct (b !! i) as [x|] eqn:E; [|done]. rewrite bind_some in H. apply lookup_lt_Some in E.
  destruct vs as [|w vs]; [simpl; lia|]. apply IH in H; [|done]. rewrite length_insert in H. simpl in *. lia.
Qed.

(** [u8 rad[6]] has room for twelve levels. *)
Lemma calculate_rad_room b num junk r :
  addr_ok b -> length junk = 6%nat -> drm_dp_calculate_rad num (tb_lct b) (tb_rad b) junk = Some r -> tb_lct b <= 12.
Proof.
  intros Hok Hj H. pose proof (ao_lct b Hok). destruct (decide (tb_lct b = 13)) as [E|]; [|lia]. exfalso.
  unfold drm_dp_calculate_rad, bytes_at in H. rewrite E, (ao_len b Hok) in H.
  change (1 <? 13) with true in H. change (Z.to_nat ((13 - 1) / 2)) with 6%nat in H.
  change (0 + (6 + 1) <=? 8)%nat with true in H. cbv iota in H. rewrite bind_some in H.
  change (6 + 1)%nat with 7%nat in H.
  destruct (puts 0 (take 7 (drop 0 (tb_rad b))) junk) as [q|] eqn:Eq; [|done].
  pose proof (ao_len b Hok). destruct (tb_rad b) as [|x l] eqn:Er; [done|].
  pose proof (puts_room _ _ _ _ Eq ltac:(done)) as Hroom. rewrite drop_0, length_take in Hroom. lia.
Qed.

Lemma teardown_ok t p old t' :
  topo_ok t -> drm_dp_port_teardown_pdt p old t = Some t' ->
  topo_ok t' /\ branches t' = branches t.
Proof.
  intros Ht. unfold drm_dp_port_teardown_pdt. destruct (tports t !! p) as [x|] eqn:Hp; [|done]. rewrite bind_some.
  case_match; [|by intros [= <-]]. destruct (tp_mstb x); [|done]. rewrite bind_some. intros [= <-].
  split; [|done]. eapply put_tport_ok; [done|done|done|done|by right].
Qed.

Lemma setup_ok t p junk new r t' :
  topo_ok t -> length junk = 6%nat -> (forall m, new = Some m -> branches t !! m = None) ->
  drm_dp_port_setup_pdt p junk new t = Some (r, t') -> topo_ok t'.
Proof.
  intros Ht Hj Hn. unfold drm_dp_port_setup_pdt. destruct (tports t !! p) as [x|] eqn:Hp; [|done]. rewrite bind_some.
  case_match; [|by intros [= <- <-]]. destruct (branches t !! tp_parent x) as [b|] eqn:Hb; [|done]. rewrite bind_some.
  pose proof (tk_addr t Ht _ b Hb) as Hok. destruct (drm_dp_calculate_rad _ _ _ _) as [lr|] eqn:El; [|done].
  pose proof (calculate_rad_room b _ _ _ Hok Hj El) as Hk.
  destruct (new_branch_ok b (tp_num x) junk Hok Hk Hj (tk_num t Ht p x Hp)) as (rad & c & E1 & E2 & Hl & Hc & Hr).
  rewrite El in E1. injection E1 as ->. rewrite bind_some, E2, bind_some.
  destruct new as [m|] eqn:En; [|done]. rewrite bind_some. intros [= <- <-].
  eapply attach_ok; simpl; eauto.
Qed.

Lemma change_pdt_ok t p old junk new r t' :
  topo_ok t -> length junk = 6%nat -> (forall m, new = Some m -> branches t !! m = None) ->
  change_pdt p old junk new t = Some (r, t') -> topo_ok t'.
Proof.
  intros Ht Hj Hn. unfold change_pdt. destruct (tports t !! p) as [x|] eqn:Hp; [|done]. rewrite bind_some.
  case_match; [|by intros [= <- <-]]. destruct (drm_dp_port_teardown_pdt p old t) as [t1|] eqn:E; [|done]. rewrite bind_some.
  destruct (teardown_ok t p old t1 Ht E) as [Ht1 Eb]. intros Hs. eapply setup_ok; [done|done| |done]. by rewrite Eb.
Qed.

Lemma replug_same ask pbn old x :
  let y := replug ask pbn old x in tp_num y = tp_num x /\ tp_parent y = tp_parent x /\ tp_mstb y = tp_mstb x.
Proof. unfold replug. by repeat case_match. Qed.

Lemma add_port_begin_ok t mstb msg e r t' :
  topo_ok t -> length (stack_rad e) = 6%nat -> 0 <= port_number msg < 16 ->
  (forall m, new_branch e = Some m -> branches t !! m = None) -> (forall p, new_port e = Some p -> tports t !! p = None) ->
  add_port_begin mstb msg e t = Some (r, t') -> topo_ok t'.
Proof.
  intros Ht Hj Hnum Hnb Hnp. unfold add_port_begin. destruct (branches t !! mstb) as [b|] eqn:Hb; [|done]. rewrite bind_some.
  destruct (get_port_found t Ht mstb b (port_number msg) Hb) as (o & -> & Ho). rewrite bind_some. destruct o as [p|].
  - destruct Ho as (_ & x & Hx & _). rewrite Hx, bind_some.
    destruct (replug_same (negb (tp_input (from_reply msg x))) (path_pbn e) (tp_ddps x) (from_reply msg x)) as (E1 & E2 & E3).
    destruct (change_pdt _ _ _ _ _) as [[s t1]|] eqn:E; [|done]. rewrite bind_some. intros [= <- <-].
    eapply change_pdt_ok; [|done| |exact E]; [|done].
    eapply put_tport_ok; [done|done|by rewrite E1|by rewrite E2|by left; rewrite E3].
  - destruct (new_port e) as [p|] eqn:Ep; [|by intros [= <- <-]]. rewrite bind_some.
    set (x := from_reply msg (fresh_port (port_number msg) mstb)). cbn [tp_pdt tp_ddps fresh_port].
    destruct (replug_same (negb (tp_input x)) (path_pbn e) false x) as (E1 & E2 & E3). set (y := replug _ _ _ x) in *.
    destruct (change_pdt _ _ _ _ _) as [[s t1]|] eqn:E; [|done]. rewrite bind_some. intros [= <- <-].
    eapply change_pdt_ok; [|done| |exact E].
    + change (topo_ok (put_branch mstb (with_ports (p :: tb_ports b) b) (put_tport p y t))).
      assert (topo_ok (put_tport p y t)) as Ht1.
      { apply fresh_tport_ok; [done|by apply Hnp|rewrite E2; simpl; eauto|by rewrite E3|by rewrite E1]. }
      apply (put_branch_ok _ _ b); [done..| |].
      * intros q Hq. apply elem_of_cons in Hq as [->|Hq]; [exists y; simpl; by rewrite lookup_insert_eq|].
        by eapply (tk_ports _ Ht1).
      * assert (forall q z, q ∈ tb_ports b -> tports (put_tport p y t) !! q = Some z -> tp_num z <> tp_num y) as Hd.
        { intros q z Hq Hz Ez. destruct (tk_ports t Ht mstb b q Hb Hq) as (z' & Hz' & _). simpl in Hz.
          rewrite lookup_insert_ne in Hz by (intros <-; specialize (Hnp p eq_refl); congruence).
          apply (Ho q). split; [done|]. exists z. split; [done|]. rewrite Ez, E1. done. }
        intros q k z w Hq Hk Hz Hw En.
        apply elem_of_cons in Hq as [->|Hq]; apply elem_of_cons in Hk as [->|Hk]; [done| | |].
        -- simpl in Hz. rewrite lookup_insert_eq in Hz. injection Hz as <-. by destruct (Hd k w Hk Hw).
        -- simpl in Hw. rewrite lookup_insert_eq in Hw. injection Hw as <-. by destruct (Hd q z Hq Hz).
        -- by eapply (tk_nums _ Ht1 mstb b).
    + intros m Hm. simpl. rewrite lookup_insert_ne; [by apply Hnb|]. intros <-. rewrite Hnb in Hb; done.
Qed.

Lemma add_port_end_ok t mstb p created conn t' :
  topo_ok t -> add_port_end mstb p created conn t = Some t' -> topo_ok t'.
Proof.
  intros Ht. unfold add_port_end. destruct (tports t !! p) as [x|]; [|done]. rewrite bind_some.
  case_match; [|by intros [= <-]]. destruct (branches t !! mstb) as [b|] eqn:Hb; [|done]. rewrite bind_some. intros [= <-].
  apply (put_branch_ok _ _ b); [done..| |].
  - intros q Hq. apply list_elem_of_filter in Hq as [_ Hq]. by eapply (tk_ports t Ht).
  - intros q r y z Hq Hr. apply list_elem_of_filter in Hq as [_ Hq], Hr as [_ Hr]. by eapply (tk_nums t Ht).
Qed.

Lemma update_port_ok t mstb n junk new r t' :
  topo_ok t -> length junk = 6%nat -> (forall m, new = Some m -> branches t !! m = None) ->
  drm_dp_update_port mstb n junk new t = Some (r, t') -> topo_ok t'.
Proof.
  intros Ht Hj Hn. unfold drm_dp_update_port. destruct n as [k g l d mc i pt| |]; [|by intros [= <- <-]..].
  destruct (branches t !! mstb) as [b|] eqn:Hb; [|done]. rewrite bind_some.
  destruct (get_port_found t Ht mstb b k Hb) as (o & -> & Ho). rewrite bind_some.
  destruct o as [p|]; [|by intros [= <- <-]]. destruct Ho as (_ & x & Hx & _). rewrite Hx, bind_some.
  set (y := Build_topo_port _ _ _ _ _ _ _ _ _ _ _ _).
  destruct (replug_same false None (tp_ddps x) y) as (E1 & E2 & E3).
  destruct (change_pdt _ _ _ _ _) as [[s t1]|] eqn:E; [|done]. rewrite bind_some. intros [= <- <-].
  eapply change_pdt_ok; [|done| |exact E]; [|done].
  eapply put_tport_ok; [done|done|by rewrite E1|by rewrite E2|by left; rewrite E3].
Qed.

Lemma up_req_ok t hdr msg clen junk new r t' :
  topo_ok t -> length junk = 6%nat -> (forall m, new = Some m -> branches t !! m = None) ->
  up_req_dispatch hdr msg clen junk new t = Some (r, t') -> topo_ok t'.
Proof.
  intros Ht Hj Hn. unfold up_req_dispatch. destruct (if broadcast hdr then _ else _) as [o|]; [|done]. rewrite bind_some.
  case_match; [by intros [= <- <-]|]. destruct (drm_dp_sideband_parse_req msg clen) as [[type [ok n]]|]; [|done].
  rewrite bind_some. destruct n as [a g l d m i pt| |]; [|by intros [= <- <-]..].
  destruct (match o with Some m => _ | None => _ end) as [[k|]|]; [| |done]; rewrite bind_some; [|by intros [= <- <-]].
  by apply update_port_ok.
Qed.

Lemma check_guid_ok t mstb salt guid t' :
  topo_ok t -> drm_dp_check_mstb_guid mstb salt guid t = Some t' -> topo_ok t'.
Proof.
  intros Ht. unfold drm_dp_check_mstb_guid. destruct (branches t !! mstb) as [b|] eqn:Hb; [|done]. rewrite bind_some.
  intros [= <-]. apply (put_branch_ok _ _ b); [done..| |].
  - intros q. by apply (tk_ports t Ht mstb b).
  - intros q r y z. by apply (tk_nums t Ht mstb b).
Qed.

Lemma topology_start_ok m t : topology_start m = Some t -> topo_ok t /\ mst_primary t = Some m.
Proof.
  unfold topology_start, drm_dp_add_mst_branch_device. cbn [Z.ltb Z.compare Pos.compare Pos.compare_cont].
  rewrite !bind_some. intros [= <-]. split; [|done].
  split; simpl; try (intros p x Hp; by rewrite lookup_empty in Hp).
  - intros k b. rewrite lookup_singleton_Some. intros [<- <-]. split; simpl; [lia|done| |].
    + repeat constructor; unfold is_u8; lia.
    + intros i Hi. unfold rad_nibble. assert (i / 2 < 8)%nat by lia_div.
      destruct (i / 2)%nat as [|[|[|[|[|[|[|[|j]]]]]]]]; simpl; [by destruct (Nat.even i)..|lia].
  - intros k b p. rewrite lookup_singleton_Some. intros [<- <-] Hp. simpl in Hp. by apply elem_of_nil in Hp.
  - intros k b p q x y. rewrite lookup_singleton_Some. intros [<- <-] Hp. simpl in Hp. by apply elem_of_nil in Hp.
  - intros p x c b Hp. by rewrite lookup_empty in Hp.
  - intros k d p. rewrite lookup_singleton_Some. by intros [<- <-].
  - intros k [= <-]. eexists. rewrite lookup_singleton_eq. done.
Qed.

(** ** Runs *)

(** What happens to the topology: parts of link address replies are taken in, by
    several threads, and notifications arrive.  Memory is fresh; port numbers have four bits
    because [drm_dp_sideband_parse_link_address] masks them. *)
Inductive topo_step : topology -> topology -> Prop :=
| ts_begin mstb msg e r t t' :
    length (stack_rad e) = 6%nat -> 0 <= port_number msg < 16 ->
    (forall m, new_branch e = Some m -> branches t !! m = None) -> (forall p, new_port e = Some p -> tports t !! p = None) ->
    add_port_begin mstb msg e t = Some (r, t') -> topo_step t t'
| ts_end mstb p created conn t t' : add_port_end mstb p created conn t = Some t' -> topo_step t t'
| ts_guid mstb salt guid t t' : drm_dp_check_mstb_guid mstb salt guid t = Some t' -> topo_step t t'
| ts_up hdr msg clen junk new r t t' :
    length junk = 6%nat -> (forall m, new = Some m -> branches t !! m = None) ->
    up_req_dispatch hdr msg clen junk new t = Some (r, t') -> topo_step t t'.

Lemma topo_step_ok t t' : topo_ok t -> topo_step t t' -> topo_ok t'.
Proof.
  intros Ht Hs. destruct Hs.
  - by eapply add_port_begin_ok.
  - by eapply add_port_end_ok.
  - by eapply check_guid_ok.
  - by eapply up_req_ok.
Qed.

Lemma topo_steps_ok t t' : topo_ok t -> rtc topo_step t t' -> topo_ok t'.
Proof. intros Ht Hs. induction Hs; eauto using topo_step_ok. Qed.

(** C12: whatever devices report, in every topology that grows from the primary branch
    device the address that a device carries leads to it: the port numbers in it
    are those on the way to the device, and [drm_dp_get_mst_branch_device] with this
    address returns the device itself. *)
Theorem drm_dp_address_leads_home m t0 t d l b :
  topology_start m = Some t0 -> rtc topo_step t0 t -> mst_primary t = Some m ->
  path_to t m l d -> branches t !! d = Some b ->
  path_of b = l /\ drm_dp_get_mst_branch_device t (tb_lct b) (tb_rad b) = Some (Some d).
Proof.
  intros H0 Hs Hm Hl Hb. destruct (topology_start_ok m t0 H0) as [Ht0 _].
  destruct (own_address t m d l b (topo_steps_ok t0 t Ht0 Hs) Hm Hl Hb). done.
Qed.

(** C28: in every topology that grows from the primary branch device the recursive searches
    end.  A branch device or a port is validated exactly if it is still linked below
    the primary device; the search by identifier finds a linked device that has it, or there is
    none; and the way up from any device ends at the last port that is connected. *)
Theorem drm_dp_searches_decide m t0 t :
  topology_start m = Some t0 -> rtc topo_step t0 t -> mst_primary t = Some m ->
  (forall f, found (drm_dp_get_validated_mstb_ref t f) (fun a => a = f /\ exists l, path_to t m l a)) /\
  (forall f, found (drm_dp_get_validated_port_ref t f)
     (fun a => a = f /\ exists l d b, path_to t m l d /\ branches t !! d = Some b /\ a ∈ tb_ports b)) /\
  (forall g, found (drm_dp_get_mst_branch_device_by_guid t g)
     (fun a => exists l b, path_to t m l a /\ branches t !! a = Some b /\ tb_guid b = g)) /\
  (forall d b, branches t !! d = Some b -> is_Some (get_last_connected_port max_depth t d)).
Proof.
  intros H0 Hs Hm. destruct (topology_start_ok m t0 H0) as [Ht0 _].
  pose proof (topo_steps_ok t0 t Ht0 Hs) as Ht. destruct (tk_primary t Ht m Hm) as (b & Hb & Hl).
  unfold drm_dp_get_validated_mstb_ref, drm_dp_get_validated_port_ref, drm_dp_get_mst_branch_device_by_guid, max_depth.
  rewrite Hm. split_and!; intros f; rewrite ?bind_some.
  - eapply get_validated_mstb_found; [done|done|lia].
  - eapply get_port_ref_found; [done|done|lia].
  - destruct (get_by_guid_found t Ht 16 m b f Hb ltac:(lia)) as (r & E & Hr). exists r. split; [done|].
    destruct r as [a|]; [done|]. intros a (l & b' & H1 & H2 & H3). by eapply Hr.
  - intros c Hc. pose proof (ao_lct c (tk_addr t Ht f c Hc)). eapply get_last_connected_total; [done|done|lia].
Qed.

(** A connection status notification on the wire. *)
Definition notify_wire (num : Z) (guid : list Z) (ldps dps mcs_ inp : bool) (pt : Z) : list Z :=
  [DP_CONNECTION_STATUS_NOTIFY; Z.shiftl num 4] ++ guid ++
  [Z.b2z ldps * 64 + Z.b2z dps * 32 + Z.b2z mcs_ * 16 + Z.b2z inp * 8 + pt].

Lemma parse_notify num guid ldps dps mcs_ inp pt rest clen :
  0 <= num < 16 -> length guid = 16%nat -> 0 <= pt < 8 -> 18 <= clen ->
  drm_dp_sideband_parse_req (notify_wire num guid ldps dps mcs_ inp pt ++ rest) clen =
  Some (DP_CONNECTION_STATUS_NOTIFY, (true, conn_stat num guid ldps dps mcs_ inp pt)).
Proof.
  intros Hn Hg Hp Hc. unfold drm_dp_sideband_parse_req, notify_wire, drm_dp_sideband_parse_connection_status_notify, past.
  destruct (Z.ltb_spec clen (Z.of_nat 2)); [lia|]. destruct (Z.ltb_spec clen (Z.of_nat 18)); [lia|].
  do 16 (destruct guid as [|? guid]; [done|]). destruct guid; [|done].
  set (w := Z.b2z ldps * 64 + _ + _ + _ + _).
  assert (Z.testbit w 6 = ldps /\ Z.testbit w 5 = dps /\ Z.testbit w 4 = mcs_ /\ Z.testbit w 3 = inp /\ Z.land w 7 = pt)
    as (W6 & W5 & W4 & W3 & W0).
  { subst w. assert (pt = 0 \/ pt = 1 \/ pt = 2 \/ pt = 3 \/ pt = 4 \/ pt = 5 \/ pt = 6 \/ pt = 7) as Hc8 by lia.
    destruct Hc8 as [->|[->|[->|[->|[->|[->|[->| ->]]]]]]], ldps, dps, mcs_, inp; by split_and!. }
  assert (Z.shiftr (Z.land (Z.shiftl num 4) 0xf0) 4 = num) as Hnum.
  { pose proof (below_spec 16 (fun n => Z.shiftr (Z.land (Z.shiftl n 4) 0xf0) 4 =? n) eq_refl num Hn). lia. }
  cbn [app lookup list_lookup]. rewrite bind_some. cbn [app lookup list_lookup].
  change (Z.land DP_CONNECTION_STATUS_NOTIFY 127) with DP_CONNECTION_STATUS_NOTIFY. rewrite Z.eqb_refl.
  unfold bytes_at. cbn [length Nat.leb Nat.add]. rewrite !bind_some. cbn [drop take]. rewrite Hnum.
  by rewrite W6, W5, W4, W3, W0.
Qed.

Lemma change_pdt_effect t p x old junk new s t' :
  tports t !! p = Some x -> change_pdt p old junk new t = Some (s, t') ->
  (exists c, tports t' !! p = Some (with_mstb c x)) /\ (forall q, q <> p -> tports t' !! q = tports t !! q).
Proof.
  intros Hx. unfold change_pdt, drm_dp_port_teardown_pdt. rewrite Hx, !bind_some.
  assert (x = with_mstb (tp_mstb x) x) as Esame by (by destruct x).
  case_match; [|intros [= <- <-]; split; [exists (tp_mstb x); by rewrite <- Esame|done]].
  assert (forall t1 c1, tports t1 !! p = Some (with_mstb c1 x) -> (forall q, q <> p -> tports t1 !! q = tports t !! q) ->
    drm_dp_port_setup_pdt p junk new t1 = Some (s, t') ->
    (exists c, tports t' !! p = Some (with_mstb c x)) /\ (forall q, q <> p -> tports t' !! q = tports t !! q)) as Hsetup.
  { intros t1 c1 H1 H2. unfold drm_dp_port_setup_pdt. rewrite H1, bind_some.
    case_match; [|by intros [= <- <-]; eauto].
    destruct (branches t1 !! _); [|done]. rewrite bind_some. destruct (drm_dp_calculate_rad _ _ _ _) as [[? ?]|]; [|done].
    rewrite bind_some. destruct (drm_dp_add_mst_branch_device _ _); [|done]. rewrite bind_some.
    destruct new as [k|]; [|done]. rewrite bind_some. intros [= <- <-]. simpl. split.
    - exists (Some k). by rewrite lookup_insert_eq.
    - intros q Hq. rewrite lookup_insert_ne by done. by apply H2. }
  destruct (old =? DP_PEER_DEVICE_MST_BRANCHING).
  - destruct (tp_mstb x); [|intros [=]]. rewrite !bind_some. apply Hsetup with None; simpl; [by rewrite lookup_insert_eq|].
    intros q Hq. by rewrite lookup_insert_ne.
  - rewrite bind_some. apply Hsetup with (tp_mstb x); [by rewrite <- Esame|done].
Qed.

(** A connection status notification that a device of the tree sends about one of its ports,
    under its own address, changes that port and no other: the plug states and the
    type are the ones in the message. *)
Theorem drm_dp_notification_reaches_port m t0 t d l b p x hdr g ldps dps mcs_ inp pt rest clen junk new r t' :
  topology_start m = Some t0 -> rtc topo_step t0 t -> mst_primary t = Some m ->
  path_to t m l d -> branches t !! d = Some b -> p ∈ tb_ports b -> tports t !! p = Some x ->
  broadcast hdr = false -> lct hdr = tb_lct b -> rad hdr = tb_rad b ->
  length g = 16%nat -> 0 <= pt < 8 -> 18 <= clen ->
  up_req_dispatch hdr (notify_wire (tp_num x) g ldps dps mcs_ inp pt ++ rest) clen junk new t = Some (r, t') ->
  (exists y, tports t' !! p = Some y /\ tp_num y = tp_num x /\ tp_parent y = d /\
     tp_ddps y = dps /\ tp_ldps y = ldps /\ tp_mcs y = mcs_ /\ tp_pdt y = pt) /\
  (forall q, q <> p -> tports t' !! q = tports t !! q).
Proof.
  intros H0 Hs Hm Hl Hb Hp Hx Hbr Hlct Hrad Hg Hpt Hc. destruct (topology_start_ok m t0 H0) as [Ht0 _].
  pose proof (topo_steps_ok t0 t Ht0 Hs) as Ht. destruct (own_address t m d l b Ht Hm Hl Hb) as [Ha _].
  unfold up_req_dispatch. rewrite Hbr, Hlct, Hrad, Ha, bind_some. cbn [negb andb].
  rewrite bool_decide_eq_false_2 by done. rewrite parse_notify by (done || by eapply (tk_num t Ht)).
  rewrite !bind_some. unfold drm_dp_update_port. rewrite Hb, bind_some.
  destruct (get_port_found t Ht d b (tp_num x) Hb) as (o & -> & Ho). rewrite bind_some.
  destruct o as [q|]; [|exfalso; eapply Ho; eauto]. destruct Ho as (Hq & y & Hy & En).
  assert (q = p) as -> by (by eapply (tk_nums t Ht d b)). rewrite Hx, bind_some.
  destruct (tk_ports t Ht d b p Hb Hp) as (x' & Hx' & Ex). simplify_eq.
  destruct (change_pdt _ _ _ _ _) as [[s t1]|] eqn:E; [|done]. rewrite bind_some. intros [= <- <-].
  eapply change_pdt_effect in E as [(c & Hc') Hother]; [|by apply lookup_insert_eq].
  split.
  - eexists. split; [exact Hc'|]. unfold replug. by repeat case_match.
  - intros q Hq'. rewrite Hother by done. simpl. by rewrite lookup_insert_ne.
Qed.

(** ** A concrete run: a hub on port 1 of the primary device, a monitor on port 5 of the hub *)

Definition report (num pdt : Z) (inp : bool) : drm_dp_link_addr_reply_port :=
  {| input_port := inp; peer_device_type := pdt; port_number := num; mcs := true; ddps := true;
     legacy_device_plug_status := false; dpcd_revision := 0x12; peer_guid := replicate 16 0; num_sdp_streams := 1;
     num_sdp_stream_sinks := 1 |}.
Definition env_of (p m : nat) : port_env :=
  {| new_port := Some p; new_branch := Some m; path_pbn := Some 2560; stack_rad := replicate 6 0xa5 |}.
Definition empty_topology : topology := {| branches := ∅; tports := ∅; mst_primary := None |}.
Definition or_empty (o : option topology) : topology := default empty_topology o.
Definition report_on (m : nat) (num pdt : Z) (inp : bool) (p c : nat) (t : topology) : topology :=
  or_empty (snd <$> add_port_begin m (report num pdt inp) (env_of p c) t).
Definition sample_topology0 : topology := or_empty (topology_start 0).
Definition sample_topology1 : topology := report_on 0 1 DP_PEER_DEVICE_MST_BRANCHING false 10 20 sample_topology0.
Definition sample_topology : topology := report_on 20 5 DP_PEER_DEVICE_SST_SINK false 11 21 sample_topology1.

Lemma sample_topology_runs : rtc topo_step sample_topology0 sample_topology.
Proof.
  eapply rtc_l; [|eapply rtc_l; [|apply rtc_refl]].
  - apply (ts_begin 0 (report 1 DP_PEER_DEVICE_MST_BRANCHING false) (env_of 10 20) (Some (10%nat, true, true)));
      [done|simpl; lia|by intros m [= <-]|by intros p [= <-]|vm_compute; reflexivity].
  - apply (ts_begin 20 (report 5 DP_PEER_DEVICE_SST_SINK false) (env_of 11 21) (Some (11%nat, true, false)));
      [done|simpl; lia|by intros m [= <-]|by intros p [= <-]|vm_compute; reflexivity].
Qed.

Definition sample_hub : topo_branch :=
  {| tb_lct := 2; tb_rad := [0x10; 0; 0; 0; 0; 0; 0; 0]; tb_ports := [11%nat]; tb_port_parent := Some 10%nat;
     tb_guid := replicate 16 0 |}.

Lemma sample_path : path_to sample_topology 0 [1] 20.
Proof.
  change [1] with [tp_num (default (fresh_port 0 0) (tports sample_topology !! 10%nat))].
  eapply (path_down _ 0 _ 10); [vm_compute; reflexivity|by left|vm_compute; reflexivity|vm_compute; reflexivity|constructor].
Qed.

Lemma drm_dp_address_leads_home_witness :
  path_of sample_hub = [1] /\ drm_dp_get_mst_branch_device sample_topology 2 [0x10; 0; 0; 0; 0; 0; 0; 0] = Some (Some 20%nat).
Proof.
  apply (drm_dp_address_leads_home 0 sample_topology0 sample_topology 20 [1] sample_hub).
  - vm_compute. reflexivity.
  - exact sample_topology_runs.
  - vm_compute. reflexivity.
  - exact sample_path.
  - vm_compute. reflexivity.
Defined.

Lemma drm_dp_searches_decide_witness :
  drm_dp_get_validated_port_ref sample_topology 11 = Some (Some 11%nat) /\
  drm_dp_get_validated_port_ref sample_topology 12 = Some None /\
  forall f, found (drm_dp_get_validated_mstb_ref sample_topology f) (fun a => a = f /\ exists l, path_to sample_topology 0 l a).
Proof.
  split; [vm_compute; reflexivity|]. split; [vm_compute; reflexivity|].
  apply (drm_dp_searches_decide 0 sample_topology0 sample_topology); [vm_compute; reflexivity|exact sample_topology_runs|vm_compute; reflexivity].
Defined.

Definition sample_notify_hdr : drm_dp_sideband_msg_hdr :=
  {| lct := 2; lcr := 1; rad := [0x10; 0; 0; 0; 0; 0; 0; 0]; broadcast := false; path_msg := false; msg_len := 20;
     somt := true; eomt := true; seqno := false |}.
Definition sample_notify : list Z := notify_wire 5 (replicate 16 0) false false true false DP_PEER_DEVICE_NONE.
Definition sample_unplugged : topology :=
  or_empty (snd <$> up_req_dispatch sample_notify_hdr (sample_notify ++ []) 19 (replicate 6 0) None sample_topology).

Definition sample_monitor : topo_port :=
  {| tp_num := 5; tp_input := false; tp_mcs := true; tp_ddps := true; tp_pdt := DP_PEER_DEVICE_SST_SINK; tp_ldps := false;
     tp_dpcd_rev := 0x12; tp_num_sdp_streams := 1; tp_num_sdp_stream_sinks := 1; tp_available_pbn := 2560;
     tp_mstb := None; tp_parent := 20%nat |}.

Lemma drm_dp_notification_reaches_port_witness :
  (tp_ddps <$> tports sample_topology !! 11%nat) = Some true /\
  (exists y, tports sample_unplugged !! 11%nat = Some y /\ tp_num y = 5 /\ tp_parent y = 20%nat /\ tp_ddps y = false /\
     tp_ldps y = false /\ tp_mcs y = true /\ tp_pdt y = DP_PEER_DEVICE_NONE) /\
  (forall q, q <> 11%nat -> tports sample_unplugged !! q = tports sample_topology !! q).
Proof.
  split; [vm_compute; reflexivity|].
  apply (drm_dp_notification_reaches_port 0 sample_topology0 sample_topology 20 [1] sample_hub 11
    sample_monitor sample_notify_hdr (replicate 16 0) false false true false
    DP_PEER_DEVICE_NONE [] 19 (replicate 6 0) None false sample_unplugged).
  - vm_compute. reflexivity.
  - exact sample_topology_runs.
  - vm_compute. reflexivity.
  - exact sample_path.
  - vm_compute. reflexivity.
  - by left.
  - vm_compute. reflexivity.
  - reflexivity.
  - reflexivity.
  - reflexivity.
  - reflexivity.
  - unfold DP_PEER_DEVICE_NONE. lia.
  - lia.
  - vm_compute. reflexivity.
Defined.

(** ** What devices can make go wrong *)

(** An address that leads nowhere is not refused: port numbers a device does not have are
    skipped, so below a device without ports every address yields the device itself.  A port
    first reported as an input with a branch device behind it and then as an output without
    one makes the code follow a NULL pointer.  A thirteenth level of branch devices writes
    behind the six bytes [drm_dp_port_setup_pdt] keeps for the address. *)
Theorem drm_dp_topology_faults :
  (forall lct rad, length rad = 8%nat -> lct <= 17 ->
     drm_dp_get_mst_branch_device sample_topology0 lct rad = Some (Some 0%nat)) /\
  (let t := report_on 0 1 DP_PEER_DEVICE_MST_BRANCHING true 10 20 sample_topology0 in
   branches t !! 0%nat <> None /\
   add_port_begin 0 (report 1 DP_PEER_DEVICE_SST_SINK false) (env_of 11 21) t = None) /\
  (forall t p x b junk new, topo_ok t -> tports t !! p = Some x -> tp_pdt x = DP_PEER_DEVICE_MST_BRANCHING ->
     branches t !! tp_parent x = Some b -> tb_lct b = 13 -> length junk = 6%nat ->
     drm_dp_port_setup_pdt p junk new t = None).
Proof.
  split; [|split].
  - intros lct rad Hr Hl. unfold drm_dp_get_mst_branch_device.
    change (mst_primary sample_topology0) with (Some 0%nat). rewrite bind_some.
    assert (forall k i, (i + k <= 16)%nat -> walk_rad k i sample_topology0 rad 0 = Some (Some 0%nat)) as Hw.
    { induction k as [|k IH]; intros i Hi; [done|]. cbn [walk_rad].
      destruct (lookup_lt_is_Some_2 rad (i / 2)) as [x Hx]; [rewrite Hr; lia_div|].
      unfold rad_nibble. rewrite Hx, !bind_some. change (branches sample_topology0 !! 0%nat) with
        (Some {| tb_lct := 1; tb_rad := replicate 8 0; tb_ports := []; tb_port_parent := None; tb_guid := replicate 16 0 |}).
      rewrite bind_some. simpl. apply IH. lia. }
    apply Hw. lia.
  - split; [vm_compute; done|vm_compute; reflexivity].
  - intros t p x b junk new Ht Hp Hpd Hb Hl Hj. unfold drm_dp_port_setup_pdt. rewrite Hp, bind_some, Hpd.
    change (DP_PEER_DEVICE_MST_BRANCHING =? DP_PEER_DEVICE_MST_BRANCHING) with true. cbv iota. rewrite Hb, bind_some.
    destruct (drm_dp_calculate_rad _ _ _ _) as [r|] eqn:E; [|done].
    pose proof (calculate_rad_room b _ _ _ (tk_addr t Ht _ b Hb) Hj E). lia.
Qed.
