(* ===== verification/Edid.v ===== *)
(** * Reading and checking EDIDs ([drm_edid.c])

    A monitor describes itself in an EDID: a base block and extension blocks of 128
    bytes each.  The kernel reads the blocks, up to four times each, checks and repairs
    them, drops what stays broken, and walks over the detailed timings.

    An EDID is the list of its bytes; [None] is an access outside of it.  Reading a block,
    allocation and the contents of fresh memory are parameters.

    Theorems: the block check accepts exactly what its description says and repairs
    headers; the EDID that [drm_do_get_edid] returns is valid if the broken extensions
    come last; if not, valid blocks are lost and uninitialised memory is returned; the walk
    over detailed timings stays inside the EDID. *)

From S2P Require Import Prelude Bytes.
From stdpp Require Import base gmap list option.
From Stdlib Require Import ZArith Lia ZifyBool.

#[local] Set Warnings "-clear-no-such-hyp".

#[local] Open Scope Z_scope.

Definition EDID_LENGTH : nat := 128.
Definition CEA_EXT : Z := 0x02.
Definition VTB_EXT : Z := 0x10.
Definition EDID_DETAILED_TIMINGS : nat := 4.

(** What to work around in certain monitors. *)
Definition EDID_QUIRK_PREFER_LARGE_60 : Z := Z.shiftl 1 0.
Definition EDID_QUIRK_135_CLOCK_TOO_HIGH : Z := Z.shiftl 1 1.
Definition EDID_QUIRK_PREFER_LARGE_75 : Z := Z.shiftl 1 2.
Definition EDID_QUIRK_DETAILED_IN_CM : Z := Z.shiftl 1 3.
Definition EDID_QUIRK_DETAILED_USE_MAXIMUM_SIZE : Z := Z.shiftl 1 4.
Definition EDID_QUIRK_FIRST_DETAILED_PREFERRED : Z := Z.shiftl 1 5.
Definition EDID_QUIRK_DETAILED_SYNC_PP : Z := Z.shiftl 1 6.
Definition EDID_QUIRK_FORCE_REDUCED_BLANKING : Z := Z.shiftl 1 7.
Definition EDID_QUIRK_FORCE_8BPC : Z := Z.shiftl 1 8.
Definition EDID_QUIRK_FORCE_12BPC : Z := Z.shiftl 1 9.
Definition EDID_QUIRK_FORCE_6BPC : Z := Z.shiftl 1 10.
Definition EDID_QUIRK_FORCE_10BPC : Z := Z.shiftl 1 11.
Definition EDID_QUIRK_NON_DESKTOP : Z := Z.shiftl 1 12.

Definition edid_header : list Z := [0x00; 0xff; 0xff; 0xff; 0xff; 0xff; 0xff; 0x00].

(** ** Checking a block *)

(** The loop of [drm_edid_header_is_valid]. *)
Fixpoint header_score (raw header : list Z) : option Z :=
  match header with
  | [] => Some 0
  | h :: header' =>
    match raw with
    | [] => None
    | x :: raw' => s ← header_score raw' header'; Some (if x =? h then s + 1 else s)
    end
  end.

Definition drm_edid_header_is_valid (raw_edid : list Z) : option Z := header_score raw_edid edid_header.

Definition drm_edid_block_checksum (raw_edid : list Z) : option Z :=
  bs ← bytes_at 0 EDID_LENGTH raw_edid;
  Some (foldl (fun csum x => u8 (csum + x)) 0 bs).

Definition drm_edid_is_zero (in_edid : list Z) (length : nat) : option bool :=
  bs ← bytes_at 0 length in_edid;
  Some (forallb (fun x => x =? 0) bs).

Section Edid.

(** The module parameter. *)
Variable edid_fixup : Z.

Definition fixup_limit : Z := if (8 <? edid_fixup) || (edid_fixup <? 0) then 6 else edid_fixup.

(** Returns the verdict, the block, whose header may have been repaired, and what is
    written to [*edid_corrupt]. *)
Definition drm_edid_block_valid (raw_edid : list Z) (block : nat) : option (bool * list Z * option bool) :=
  '(go, raw_edid, corrupt) ←
    (match block with
     | O =>
       score ← drm_edid_header_is_valid raw_edid;
       Some (if score =? 8 then (true, raw_edid, Some false)
             else if fixup_limit <=? score then (true, edid_header ++ drop 8 raw_edid, Some true)
             else (false, raw_edid, Some true))
     | S _ => Some (true, raw_edid, None)
     end);
  if negb go then Some (false, raw_edid, corrupt)
  else
    csum ← drm_edid_block_checksum raw_edid;
    b0 ← raw_edid !! 0%nat;
    let corrupt := if negb (csum =? 0) then Some true else corrupt in
    if negb (csum =? 0) && negb (b0 =? CEA_EXT) then Some (false, raw_edid, corrupt)
    else
      version ← raw_edid !! 18%nat;
      Some (if (b0 =? 0) && negb (version =? 1) then (false, raw_edid, corrupt) else (true, raw_edid, corrupt)).

(** The loop of [drm_edid_is_valid], [k] blocks from [i] on. *)
Fixpoint valid_loop (k i : nat) (edid : list Z) : option (bool * list Z) :=
  match k with
  | O => Some (true, edid)
  | S k' =>
    r ← drm_edid_block_valid (drop (i * EDID_LENGTH)%nat edid) i;
    let '(ok, raw, _) := (r : bool * list Z * option bool) in
    let edid := take (i * EDID_LENGTH)%nat edid ++ raw in
    if ok then valid_loop k' (S i) edid else Some (false, edid)
  end.

Definition drm_edid_is_valid (edid : list Z) : option (bool * list Z) :=
  extensions ← edid !! 0x7e%nat;
  valid_loop (Z.to_nat extensions + 1)%nat 0 edid.

(** ** Reading all blocks *)

(** Attempt [i] to read a block: the bytes, or the read failed. *)
Variable get_edid_block : nat -> nat -> option (list Z).

(** Whether the allocations of the function succeed, and what fresh memory of a size contains. *)
Variable mem : nat -> bool.
Variable junk : nat -> list Z.

Inductive fetched :=
| Fetched (b : list Z)
| Exhausted (b : list Z)
| NullBlock (b : list Z)
| ReadError.

(** The attempts at one block, [k] of them from [i] on; [last]: what the buffer holds,
    [corrupt]: [connector->edid_corrupt]. *)
Fixpoint fetch_block (k i block : nat) (last : list Z) (corrupt : bool) : option (fetched * bool) :=
  match k with
  | O => Some (Exhausted last, corrupt)
  | S k' =>
    match get_edid_block block i with
    | None => Some (ReadError, corrupt)
    | Some bs =>
      r ← drm_edid_block_valid bs block;
      let '(ok, bs, c) := (r : bool * list Z * option bool) in
      let corrupt := match block with O => default corrupt c | S _ => corrupt end in
      if ok then Some (Fetched bs, corrupt)
      else
        zero ← drm_edid_is_zero bs EDID_LENGTH;
        if bool_decide (block = O) && bool_decide (i = O) && zero then Some (NullBlock bs, corrupt)
        else fetch_block k' (S i) block bs corrupt
    end
  end.

(** The loop over the extensions [j] to [j + k - 1]: the blocks and whether each is
    valid; [None] inside: a read failed. *)
Fixpoint fetch_exts (k j : nat) : option (option (list (bool * list Z))) :=
  match k with
  | O => Some (Some [])
  | S k' =>
    f ← fetch_block 4 0 j [] false;
    match f.1 with
    | Fetched b => r ← fetch_exts k' (S j); Some (option_map (cons (true, b)) r)
    | Exhausted b => r ← fetch_exts k' (S j); Some (option_map (cons (false, b)) r)
    | _ => Some None
    end
  end.

(** The loop that copies blocks into the new buffer, over the given blocks. *)
Fixpoint copy_valid (i : nat) (blocks : list (list Z)) : option (list (list Z)) :=
  match blocks with
  | [] => Some []
  | b :: blocks' =>
    v ← drm_edid_block_valid b i;
    let '(ok, b, _) := (v : bool * list Z * option bool) in
    r ← copy_valid (S i) blocks';
    Some (if ok then b :: r else r)
  end.

(** The counters and the flag of the connector. *)
Record edid_state := { edid_corrupt : bool; null_edid_counter : Z; bad_edid_counter : Z }.

Definition count_bad (c : bool) (s : edid_state) : edid_state :=
  {| edid_corrupt := c; null_edid_counter := null_edid_counter s; bad_edid_counter := u32 (bad_edid_counter s + 1) |}.
Definition count_null (c : bool) (s : edid_state) : edid_state :=
  {| edid_corrupt := c; null_edid_counter := s32 (null_edid_counter s + 1);
     bad_edid_counter := u32 (bad_edid_counter s + 1) |}.
Definition set_corrupt (c : bool) (s : edid_state) : edid_state :=
  {| edid_corrupt := c; null_edid_counter := null_edid_counter s; bad_edid_counter := bad_edid_counter s |}.

(** The part of [drm_do_get_edid] that removes broken extensions: [edid] is the base block, [exts]
    the extensions. *)
Definition drop_broken (base : list Z) (exts : list (bool * list Z)) : option (option (list Z)) :=
  n ← base !! 0x7e%nat;
  c ← base !! 0x7f%nat;
  let valid_extensions := Z.of_nat (length (filter (fun e => e.1 = true) exts)) in
  if valid_extensions =? n then Some (Some (base ++ concat exts.*2))
  else
    base ← put 0x7f (c + (n - valid_extensions)) base;
    base ← put 0x7e valid_extensions base;
    if negb (mem 2) then Some None
    else
      copied ← copy_valid 0 (take (Z.to_nat valid_extensions + 1)%nat (base :: exts.*2));
      Some (Some (concat copied ++
        drop (length (concat copied)) (junk ((Z.to_nat valid_extensions + 1) * EDID_LENGTH)%nat))).

(** [override]: the EDID given by the user or as firmware. *)
Definition drm_do_get_edid (override : option (list Z)) (s : edid_state) : option (option (list Z) * edid_state) :=
  match override with
  | Some e => Some (Some e, s)
  | None =>
    if negb (mem 0) then Some (None, s)
    else
      f ← fetch_block 4 0 0 [] (edid_corrupt s);
      let c := f.2 in
      match f.1 with
      | ReadError => Some (None, set_corrupt c s)
      | NullBlock _ => Some (None, count_null c s)
      | Exhausted _ => Some (None, count_bad c s)
      | Fetched base =>
        n ← base !! 0x7e%nat;
        if n =? 0 then Some (Some base, set_corrupt c s)
        else if negb (mem 1) then Some (None, set_corrupt c s)
        else
          e ← fetch_exts (Z.to_nat n) 1;
          match e with
          | None => Some (None, set_corrupt c s)
          | Some exts =>
            r ← drop_broken base exts;
            Some (r, if forallb fst exts then set_corrupt c s else count_bad c s)
          end
      end
  end.

End Edid.

(** ** The walk over the detailed timings *)

(** A walk is the list of the timings that the callback gets, each as its place and its 18 bytes. *)
Definition timing_at (edid : list Z) (off : nat) : option (nat * list Z) :=
  t ← bytes_at off 18 edid; Some (off, t).

Definition each_timing (edid : list Z) (det_base n : nat) : option (list (nat * list Z)) :=
  mapM (fun i => timing_at edid (det_base + 18 * i)%nat) (seq 0 n).

(** [ext]: the place of the extension. *)
Definition cea_for_each_detailed_block (edid : list Z) (ext : nat) : option (list (nat * list Z)) :=
  d ← edid !! (ext + 0x02)%nat;
  each_timing edid (ext + Z.to_nat d)%nat (Z.to_nat (Z.quot (127 - d) 18)).

Definition vtb_for_each_detailed_block (edid : list Z) (ext : nat) : option (list (nat * list Z)) :=
  k ← edid !! (ext + 0x02)%nat;
  version ← edid !! (ext + 0x01)%nat;
  if negb (version =? 1) then Some []
  else each_timing edid (ext + 5)%nat (Z.to_nat (Z.min k 6)).

Fixpoint for_each_extension (k i : nat) (edid : list Z) : option (list (nat * list Z)) :=
  match k with
  | O => Some []
  | S k' =>
    let ext := (i * EDID_LENGTH)%nat in
    tag ← edid !! ext;
    ts ← (if tag =? CEA_EXT then cea_for_each_detailed_block edid ext
          else if tag =? VTB_EXT then vtb_for_each_detailed_block edid ext
          else Some []);
    ts' ← for_each_extension k' (S i) edid;
    Some (ts ++ ts')
  end.

Definition drm_for_each_detailed_block (edid : list Z) : option (list (nat * list Z)) :=
  ts ← each_timing edid 54 EDID_DETAILED_TIMINGS;
  n ← edid !! 0x7e%nat;
  ts' ← for_each_extension (Z.to_nat n) 1 edid;
  Some (ts ++ ts').

(** ** What the check accepts *)

Lemma sum_app a b : sum (a ++ b) = sum a + sum b.
Proof. induction a; simpl; [done|]. unfold sum in *. simpl. lia. Qed.

Lemma sum_insert l i x v : l !! i = Some x -> sum (<[i := v]> l) = sum l - x + v.
Proof.
  intros H. rewrite <- (take_drop_middle l i x H) at 2. apply lookup_lt_Some in H.
  rewrite insert_take_drop by done. rewrite !sum_app. unfold sum. simpl. lia.
Qed.

(** The score counts the bytes that agree; it is perfect only for the header itself. *)
Lemma header_score_spec header : forall raw, (length header <= length raw)%nat ->
  exists s, header_score raw header = Some s /\ 0 <= s <= Z.of_nat (length header) /\
    (s = Z.of_nat (length header) <-> take (length header) raw = header).
Proof.
  induction header as [|h header IH]; intros raw Hl.
  - exists 0. split; [by destruct raw|]. split; [simpl; lia|]. by destruct raw.
  - destruct raw as [|x raw]; simpl in *; [lia|]. destruct (IH raw ltac:(lia)) as (s & -> & Hs & He). rewrite bind_some. eexists. split; [done|].
    destruct (Z.eqb_spec x h) as [->|Hne].
    + split; [lia|]. split; [|intros [= E]; apply He in E; lia]. intros E. f_equal. apply He. lia.
    + split; [lia|]. split; [lia|]. intros [= ? ?]. done.
Qed.

Section Checks.
Context (edid_fixup : Z).

(** A perfect base block. *)
Record base_ok (b : list Z) : Prop := {
  bo_length : length b = EDID_LENGTH;
  bo_header : take 8 b = edid_header;
  bo_sum : u8 (sum b) = 0;
  bo_version : b !! 18%nat = Some 1
}.

Lemma checksum_block b : length b = EDID_LENGTH -> forall rest, drm_edid_block_checksum (b ++ rest) = Some (u8 (sum b)).
Proof.
  intros Hl rest. unfold drm_edid_block_checksum, bytes_at. rewrite length_app, Hl.
  destruct (Nat.leb_spec (0 + EDID_LENGTH) (EDID_LENGTH + length rest)); [|lia]. rewrite bind_some, drop_0.
  rewrite take_app_length' by done. change 0 with (u8 0) at 1. by rewrite foldl_u8_sum.
Qed.

Lemma base_head b : take 8 b = edid_header -> (8 <= length b)%nat -> b !! 0%nat = Some 0 /\ edid_header ++ drop 8 b = b.
Proof.
  intros H Hl. split; [|by rewrite <- H, take_drop].
  pose proof (lookup_take_lt b 8 0 ltac:(lia)) as E. rewrite H in E. by rewrite <- E.
Qed.

Lemma header_exact raw rest : length raw = EDID_LENGTH ->
  exists s, drm_edid_header_is_valid (raw ++ rest) = Some s /\ (s = 8 <-> take 8 raw = edid_header).
Proof.
  intros Hl. unfold EDID_LENGTH in Hl.
  destruct (header_score_spec edid_header (raw ++ rest)) as (s & E & _ & He); [rewrite length_app; simpl; lia|].
  exists s. split; [done|]. simpl in He. rewrite take_app_le in He by lia. exact He.
Qed.

Lemma base_ok_valid b rest : base_ok b -> drm_edid_block_valid edid_fixup (b ++ rest) 0 = Some (true, b ++ rest, Some false).
Proof.
  intros [Hl Hh Hs Hv]. unfold drm_edid_block_valid.
  destruct (header_exact b rest Hl) as (s & -> & He). rewrite (proj2 He Hh). rewrite !bind_some. simpl.
  destruct (base_head b Hh) as [H0 _]; [unfold EDID_LENGTH in Hl; lia|].
  rewrite checksum_block, Hs, bind_some by done.
  rewrite !lookup_app_l by (unfold EDID_LENGTH in Hl; lia). rewrite H0, Hv, !bind_some. done.
Qed.

(** The check of a base block accepts only what is then a perfect block. *)
Lemma valid_base raw b c :
  length raw = EDID_LENGTH -> drm_edid_block_valid edid_fixup raw 0 = Some (true, b, c) -> base_ok b.
Proof.
  intros Hl. unfold drm_edid_block_valid.
  destruct (header_exact raw [] Hl) as (s & Es & He). rewrite app_nil_r in Es. rewrite Es, bind_some.
  set (raw' := if s =? 8 then raw else edid_header ++ drop 8 raw).
  assert (length raw' = EDID_LENGTH /\ take 8 raw' = edid_header) as [Hl' Hh'].
  { subst raw'. unfold EDID_LENGTH in *. destruct (Z.eqb_spec s 8) as [E|]; [by apply He in E|].
    split; [rewrite length_app, length_drop; simpl; lia|done]. }
  destruct (base_head raw' Hh') as [H0 _]; [unfold EDID_LENGTH in Hl'; lia|].
  assert (forall c', (if negb true then Some (false, raw', c')
    else csum ← drm_edid_block_checksum raw'; b0 ← raw' !! 0%nat;
      (if negb (csum =? 0) && negb (b0 =? CEA_EXT) then Some (false, raw', if negb (csum =? 0) then Some true else c')
       else version ← raw' !! 18%nat;
         Some (if (b0 =? 0) && negb (version =? 1) then (false, raw', if negb (csum =? 0) then Some true else c')
               else (true, raw', if negb (csum =? 0) then Some true else c')))) = Some (true, b, c) -> base_ok b) as Hgo.
  { intros c'. cbn [negb]. pose proof (checksum_block raw' Hl' []) as Ec. rewrite app_nil_r in Ec. rewrite Ec, bind_some, H0, bind_some.
    destruct (Z.eqb_spec (u8 (sum raw')) 0) as [Ez|]; [|done]. cbn [negb andb].
    destruct (raw' !! 18%nat) as [v|] eqn:Hv; [|done]. rewrite bind_some. simpl.
    destruct (Z.eqb_spec v 1) as [->|]; [|done]. intros [= <- _]. by split. }
  subst raw'. destruct (Z.eqb_spec s 8); [rewrite bind_some; apply Hgo|].
  destruct (fixup_limit edid_fixup <=? s); rewrite bind_some; [apply Hgo|done].
Qed.

(** A block that passes the check, unchanged, whatever follows it. *)
Definition block_ok (i : nat) (b : list Z) : Prop :=
  length b = EDID_LENGTH /\ Forall is_u8 b /\
  forall rest, exists c, drm_edid_block_valid edid_fixup (b ++ rest) i = Some (true, b ++ rest, c).

Lemma base_block_ok b : base_ok b -> Forall is_u8 b -> block_ok 0 b.
Proof. intros Hb Hu. split; [apply Hb|]. split; [done|]. intros rest. eexists. by apply base_ok_valid. Qed.

Lemma fetched_base b : block_ok 0 b -> base_ok b.
Proof.
  intros (Hl & _ & Hv). destruct (Hv []) as [c E]. rewrite app_nil_r in E. exact (valid_base b b c Hl E).
Qed.

(** The check of an extension reads the block and leaves it alone. *)
Lemma valid_ext b rest i : length b = EDID_LENGTH ->
  exists ok c, drm_edid_block_valid edid_fixup (b ++ rest) (S i) = Some (ok, b ++ rest, c) /\
    drm_edid_block_valid edid_fixup b (S i) = Some (ok, b, c).
Proof.
  intros Hl. unfold drm_edid_block_valid. rewrite !bind_some. cbn [negb].
  pose proof (checksum_block b Hl []) as Ec. rewrite app_nil_r in Ec. rewrite checksum_block, Ec, !bind_some by done.
  unfold EDID_LENGTH in Hl. rewrite !lookup_app_l by lia.
  destruct (lookup_lt_is_Some_2 b 0) as [b0 ->]; [lia|]. destruct (lookup_lt_is_Some_2 b 18) as [v ->]; [lia|].
  rewrite !bind_some. repeat case_match; simplify_eq; eauto.
Qed.

(** Every check of a block of 128 bytes has a verdict and keeps the size. *)
Lemma block_valid_total b i : length b = EDID_LENGTH -> Forall is_u8 b ->
  exists ok b' c, drm_edid_block_valid edid_fixup b i = Some (ok, b', c) /\ length b' = EDID_LENGTH /\
    Forall is_u8 b' /\ (ok = true -> block_ok i b').
Proof.
  intros Hl Hu. destruct i as [|i].
  - assert (exists ok b' c, drm_edid_block_valid edid_fixup b 0 = Some (ok, b', c) /\ length b' = EDID_LENGTH /\
      Forall is_u8 b') as (ok & b' & c & E & Hl' & Hu').
    { unfold drm_edid_block_valid. destruct (header_exact b [] Hl) as (s & Es & _). rewrite app_nil_r in Es. rewrite Es, bind_some.
      assert (forall raw, length raw = EDID_LENGTH -> Forall is_u8 raw -> exists csum b0 v,
        drm_edid_block_checksum raw = Some csum /\ raw !! 0%nat = Some b0 /\ raw !! 18%nat = Some v) as Hread.
      { intros raw Hr _. pose proof (checksum_block raw Hr []) as Ec. rewrite app_nil_r in Ec. unfold EDID_LENGTH in Hr.
        destruct (lookup_lt_is_Some_2 raw 0) as [b0 E0]; [lia|]. destruct (lookup_lt_is_Some_2 raw 18) as [v Ev]; [lia|]. eauto 6. }
      assert (length (edid_header ++ drop 8 b) = EDID_LENGTH /\ Forall is_u8 (edid_header ++ drop 8 b)) as [Hlh Huh].
      { unfold EDID_LENGTH in *. split; [rewrite length_app, length_drop; simpl; lia|].
        apply Forall_app. split; [repeat constructor; unfold is_u8; lia|by apply Forall_drop]. }
      destruct (Hread b Hl Hu) as (x1 & x2 & x3 & E1 & E2 & E3).
      destruct (Hread _ Hlh Huh) as (y1 & y2 & y3 & F1 & F2 & F3).
      destruct (s =? 8); [|destruct (fixup_limit edid_fixup <=? s)]; rewrite bind_some; cbn [negb];
        [rewrite E1, E2, E3|rewrite F1, F2, F3|]; rewrite ?bind_some; repeat case_match; simplify_eq; eauto 8. }
    exists ok, b', c. split; [done|]. split; [done|]. split; [done|]. intros ->. apply base_block_ok; [|done]. exact (valid_base b b' c Hl E).
  - destruct (valid_ext b [] i Hl) as (ok & c & _ & E). exists ok, b, c. split; [done|]. split; [done|]. split; [done|].
    intros ->. split; [done|]. split; [done|]. intros rest. destruct (valid_ext b rest i Hl) as (ok' & c' & E' & E2).
    rewrite E in E2. simplify_eq. eauto.
Qed.

(** ** Whole EDIDs *)

Lemma valid_loop_ok bs : forall i pre, length pre = (i * EDID_LENGTH)%nat ->
  (forall k b, bs !! k = Some b -> block_ok (i + k) b) ->
  valid_loop edid_fixup (length bs) i (pre ++ concat bs) = Some (true, pre ++ concat bs).
Proof.
  induction bs as [|b bs IH]; intros i pre Hp Hbs; [done|]. cbn [length valid_loop concat].
  destruct (Hbs 0%nat b eq_refl) as (Hl & _ & Hv). rewrite Nat.add_0_r in Hv.
  rewrite <- Hp, drop_app_length, take_app_length. destruct (Hv (concat bs)) as [c ->]. rewrite bind_some.
  rewrite app_assoc. apply IH; [rewrite length_app; unfold EDID_LENGTH in *; lia|].
  intros k b' Hk. replace (S i + k)%nat with (i + S k)%nat by lia. by apply Hbs.
Qed.

End Checks.

(** ** Reading an EDID *)

Section Reading.
Context (edid_fixup : Z) (get_edid_block : nat -> nat -> option (list Z)).

(** What [get_edid_block] does when it succeeds: it fills the buffer with 128 bytes. *)
Hypothesis get_bytes : forall block i bs, get_edid_block block i = Some bs -> length bs = EDID_LENGTH /\ Forall is_u8 bs.

(** Whether a block can be read and passes the check within four attempts. *)
Definition readable (block : nat) : bool :=
  match fetch_block edid_fixup get_edid_block 4 0 block [] false with Some (Fetched _, _) => true | _ => false end.

Lemma fetch_block_total k : forall i block last corrupt, (k = 0%nat -> length last = EDID_LENGTH /\ Forall is_u8 last) ->
  exists f c, fetch_block edid_fixup get_edid_block k i block last corrupt = Some (f, c) /\
    match f with
    | Fetched b => block_ok edid_fixup block b
    | Exhausted b | NullBlock b => length b = EDID_LENGTH /\ Forall is_u8 b
    | ReadError => True
    end.
Proof.
  induction k as [|k IH]; intros i block last corrupt Hk; cbn [fetch_block]; [eexists _, _; split; [done|]; by apply Hk|].
  destruct (get_edid_block block i) as [bs|] eqn:Hg; [|eexists _, _; by split].
  destruct (get_bytes _ _ _ Hg) as [Hl Hu].
  destruct (block_valid_total edid_fixup bs block Hl Hu) as (ok & b & c & -> & Hb & Hub & Hok). rewrite bind_some.
  destruct ok; [eexists _, _; split; [done|]; by apply Hok|].
  unfold drm_edid_is_zero, bytes_at. rewrite Hb. cbn [Nat.leb Nat.add EDID_LENGTH mbind option_bind].
  destruct (_ && _); [eexists _, _; split; [done|]; by split|]. by apply IH.
Qed.

(** The block that [fetch_block] ends with. *)
Definition fetches (block : nat) (b : list Z) : Prop :=
  exists c, fetch_block edid_fixup get_edid_block 4 0 block [] false = Some (Fetched b, c).

Lemma fetches_ok block b : fetches block b -> block_ok edid_fixup block b.
Proof.
  intros [c E]. destruct (fetch_block_total 4 0 block [] false) as (f & c' & E' & Hf); [done|].
  rewrite E in E'. by simplify_eq.
Qed.

Lemma fetch_exts_total k : forall j, exists e, fetch_exts edid_fixup get_edid_block k j = Some e /\
  forall exts, e = Some exts -> length exts = k /\
    forall i x, exts !! i = Some x -> length x.2 = EDID_LENGTH /\ Forall is_u8 x.2 /\
      x.1 = readable (j + i) /\ (x.1 = true -> fetches (j + i) x.2).
Proof.
  induction k as [|k IH]; intros j; cbn [fetch_exts].
  { eexists. split; [done|]. intros ? [= <-]. split; [done|]. intros i x Hi. by rewrite lookup_nil in Hi. }
  destruct (fetch_block_total 4 0 j [] false) as (f & c & E & Hf); [done|].
  destruct (IH (S j)) as (e & -> & He).
  assert (forall flag b, length b = EDID_LENGTH -> Forall is_u8 b -> flag = readable j ->
    (flag = true -> fetches j b) -> forall exts, option_map (cons (flag, b)) e = Some exts ->
    length exts = S k /\ forall i x, exts !! i = Some x -> length x.2 = EDID_LENGTH /\ Forall is_u8 x.2 /\
      x.1 = readable (j + i) /\ (x.1 = true -> fetches (j + i) x.2)) as Hcons.
  { intros flag b Hl Hu Hr Hok exts Hx. destruct e as [exts'|]; [|done]. injection Hx as <-.
    destruct (He exts' eq_refl) as [Hlen Hin]. split; [simpl; lia|]. intros [|i] x Hi; simpl in Hi.
    - injection Hi as <-. rewrite Nat.add_0_r. do 3 (split; [done|]). done.
    - replace (j + S i)%nat with (S j + i)%nat by lia. by apply Hin. }
  assert (readable j = match f with Fetched _ => true | _ => false end) as Hr by (unfold readable; by rewrite E).
  rewrite E, bind_some. destruct f as [b|b|b|]; cbn [fst] in *; rewrite ?bind_some; (eexists; split; [done|]); [..|done].
  - destruct Hf as (Hl & Hu & Hv). apply Hcons; [done|done|by rewrite Hr|by exists c].
  - destruct Hf as [Hl Hu]. apply Hcons; [done|done|by rewrite Hr|done].
  - done.
Qed.

(** Adding what is taken from the number of extensions keeps the checksum. *)
Lemma base_adjust b n c v : base_ok b -> Forall is_u8 b -> b !! 0x7e%nat = Some n -> b !! 0x7f%nat = Some c -> is_u8 v ->
  base_ok (<[0x7e%nat := v]> (<[0x7f%nat := u8 (c + (n - v))]> b)) /\
  Forall is_u8 (<[0x7e%nat := v]> (<[0x7f%nat := u8 (c + (n - v))]> b)).
Proof.
  intros [Hl Hh Hs Hv] Hu Hn Hc Huv. split; [split|].
  - by rewrite !length_insert.
  - by rewrite !take_insert_ge by lia.
  - rewrite sum_insert with (x := n) by by rewrite list_lookup_insert_ne by lia.
    rewrite (sum_insert _ _ c) by done. unfold u8 in *.
    rewrite <- Hs. replace (sum b - c + (c + (n - v)) mod 2 ^ 8 - n + v) with ((c + (n - v)) mod 2 ^ 8 + (sum b - c - n + v)) by lia.
    rewrite Zplus_mod_idemp_l. f_equal. lia.
  - by rewrite !list_lookup_insert_ne by lia.
  - apply Forall_insert; [|done]. apply Forall_insert; [done|]. apply u8_range.
Qed.

Context (mem : nat -> bool) (junk : nat -> list Z).

(** A complete EDID: one base block and as many extensions as it announces, all valid. *)
Definition edid_ok (e : list Z) : Prop :=
  exists n, e !! 0x7e%nat = Some n /\ is_u8 n /\ length e = ((Z.to_nat n + 1) * EDID_LENGTH)%nat /\ Forall is_u8 e /\
    drm_edid_is_valid edid_fixup e = Some (true, e).

Lemma concat_length (bs : list (list Z)) : (forall k b, bs !! k = Some b -> length b = EDID_LENGTH) ->
  length (concat bs) = (length bs * EDID_LENGTH)%nat.
Proof.
  induction bs as [|b bs IH]; intros H; [done|]. cbn [concat]. rewrite length_app, IH, (H 0%nat b eq_refl); [simpl; lia|].
  intros k b' Hk. by apply (H (S k)).
Qed.

Lemma edid_ok_blocks base exts n : base_ok base -> Forall is_u8 base -> base !! 0x7e%nat = Some n -> length exts = Z.to_nat n ->
  (forall i b, exts !! i = Some b -> block_ok edid_fixup (1 + i) b) -> edid_ok (base ++ concat exts).
Proof.
  intros Hb Hu Hn Hlen He. pose proof (bo_length _ Hb) as Hl. exists n.
  assert (forall i b, (base :: exts) !! i = Some b -> block_ok edid_fixup (0 + i) b) as Hall.
  { intros [|i] b Hi; simpl in Hi; [injection Hi as <-; by apply base_block_ok|]. by apply He. }
  assert ((base ++ concat exts) !! 0x7e%nat = Some n) as Hn'
    by (rewrite lookup_app_l; [done|unfold EDID_LENGTH in Hl; lia]).
  split; [done|]. split; [exact (proj1 (Forall_lookup _ _) Hu _ _ Hn)|]. split; [|split].
  - rewrite length_app, concat_length, Hl, Hlen; [lia|]. intros k b Hk. apply (He k b Hk).
  - apply Forall_app. split; [done|]. apply Forall_concat, Forall_lookup. intros i b Hi. apply (He i b Hi).
  - unfold drm_edid_is_valid. rewrite Hn', bind_some. rewrite <- Hlen. replace (length exts + 1)%nat with (length (base :: exts)) by (simpl; lia).
    exact (valid_loop_ok edid_fixup (base :: exts) 0 [] eq_refl Hall).
Qed.

(** What the last attempt at an extension left, when all failed, does not pass the check. *)
Lemma exhausted_invalid k : forall i j last corrupt b c,
  (k = 0%nat -> exists c0, drm_edid_block_valid edid_fixup last (S j) = Some (false, last, c0)) ->
  fetch_block edid_fixup get_edid_block k i (S j) last corrupt = Some (Exhausted b, c) ->
  exists c0, drm_edid_block_valid edid_fixup b (S j) = Some (false, b, c0).
Proof.
  induction k as [|k IH]; intros i j last corrupt b c Hk; cbn [fetch_block]; [intros [= <- _]; by apply Hk|].
  destruct (get_edid_block (S j) i) as [bs|] eqn:Hg; [|done]. destruct (get_bytes _ _ _ Hg) as [Hl _].
  destruct (valid_ext edid_fixup bs [] j Hl) as (ok & c1 & _ & E). rewrite E, bind_some. destruct ok; [done|].
  destruct (drm_edid_is_zero bs EDID_LENGTH) as [z|]; [|done]. rewrite bind_some. cbn [bool_decide andb].
  apply IH. intros _. eauto.
Qed.

Lemma fetch_exts_broken k : forall j exts, fetch_exts edid_fixup get_edid_block k (S j) = Some (Some exts) ->
  forall i x, exts !! i = Some x -> x.1 = false -> exists c, drm_edid_block_valid edid_fixup x.2 (S j + i) = Some (false, x.2, c).
Proof.
  induction k as [|k IH]; intros j exts; cbn [fetch_exts].
  { intros [= <-] i x Hi. by rewrite lookup_nil in Hi. }
  intros ([f c] & E & H)%bind_Some. cbn [fst] in H.
  assert (forall y, (y.1 = false -> exists c, drm_edid_block_valid edid_fixup y.2 (S j) = Some (false, y.2, c)) ->
    (r ← fetch_exts edid_fixup get_edid_block k (S (S j)); Some (option_map (cons y) r)) = Some (Some exts) ->
    forall i x, exts !! i = Some x -> x.1 = false -> exists c, drm_edid_block_valid edid_fixup x.2 (S j + i) = Some (false, x.2, c)) as Hcons.
  { intros y Hy (r & Er & [= Hr])%bind_Some. destruct r as [r|]; [|done]. injection Hr as <-.
    intros [|i] x Hi Hx; cbn in Hi; [injection Hi as <-; rewrite Nat.add_0_r; auto|].
    replace (S j + S i)%nat with (S (S j) + i)%nat by lia. by apply (IH _ _ Er i x). }
  destruct f as [b0|b0|b0|]; try done; (eapply Hcons; [|exact H]); [done|]. intros _. cbn [snd].
  by apply (exhausted_invalid 4 0 j [] false b0 c).
Qed.

(** The blocks that passed. *)
Definition kept (exts : list (bool * list Z)) : list (list Z) := (filter (fun e : bool * list Z => e.1 = true) exts).*2.

Lemma copy_valid_kept exts : forall i,
  (forall k x, exts !! k = Some x -> x.1 = true -> block_ok edid_fixup (i + k) x.2) ->
  (forall k x, exts !! k = Some x -> x.1 = false -> exists c, drm_edid_block_valid edid_fixup x.2 (i + k) = Some (false, x.2, c)) ->
  copy_valid edid_fixup i exts.*2 = Some (kept exts).
Proof.
  induction exts as [|x exts IH]; intros i Ht Hf; [done|]. unfold kept. cbn [fmap list_fmap copy_valid]. rewrite filter_cons.
  assert (copy_valid edid_fixup (S i) exts.*2 = Some (kept exts)) as E.
  { apply IH; intros k y Hk Hy; replace (S i + k)%nat with (i + S k)%nat by lia; [by apply Ht|by apply Hf]. }
  specialize (Ht 0%nat x eq_refl). specialize (Hf 0%nat x eq_refl). rewrite Nat.add_0_r in Ht, Hf.
  destruct (decide (x.1 = true)) as [Hx|Hx].
  - destruct (Ht Hx) as (_ & _ & Hv). destruct (Hv []) as [c Ev]. rewrite app_nil_r in Ev. by rewrite Ev, bind_some, E.
  - destruct (Hf (not_true_is_false _ Hx)) as [c Ev]. by rewrite Ev, bind_some, E.
Qed.

(** The base block after the number of extensions was changed to [v]. *)
Definition renumbered (base : list Z) (n v : Z) : list Z :=
  if v =? n then base else <[0x7e%nat := v]> (<[0x7f%nat := u8 (default 0 (base !! 0x7f%nat) + (n - v))]> base).

(** What is returned: as many blocks as extensions passed; those that passed among the first of them, and what the
    memory held before for the rest. *)
Definition returned (base : list Z) (n : Z) (exts : list (bool * list Z)) : list Z :=
  let v := length (kept exts) in
  let blocks := kept (take v exts) in
  renumbered base n (Z.of_nat v) ++ concat blocks ++ drop ((length blocks + 1) * EDID_LENGTH)%nat (junk ((v + 1) * EDID_LENGTH)%nat).

Lemma kept_length_le exts : (length (kept exts) <= length exts)%nat.
Proof. unfold kept. rewrite length_fmap. apply length_filter. Qed.

(** If as many extensions passed as there are, all did. *)
Lemma kept_all exts : length (kept exts) = length exts -> kept exts = exts.*2 /\ Forall (fun e : bool * list Z => e.1 = true) exts.
Proof.
  unfold kept. rewrite length_fmap. induction exts as [|x exts IH]; [done|]. rewrite filter_cons. case_decide as Hx.
  - cbn [length fmap list_fmap]. intros [= H]. destruct (IH H) as [E Hf]. split; [by f_equal|by constructor].
  - intros H. pose proof (length_filter (fun e : bool * list Z => e.1 = true) exts). cbn in H. lia.
Qed.

Lemma kept_app l l' : kept (l ++ l') = kept l ++ kept l'.
Proof. unfold kept. by rewrite list.filter_app, fmap_app. Qed.

(** The number of extensions that passed also bounds the search for them: nothing is lost exactly if those come first. *)
Lemma kept_prefix exts : let v := length (kept exts) in
  length (kept (take v exts)) = v <-> forall i k x y, (i <= k)%nat -> exts !! i = Some x -> exts !! k = Some y -> y.1 = true -> x.1 = true.
Proof.
  cbv zeta. set (v := length (kept exts)). assert (v <= length exts)%nat as Hv by apply kept_length_le.
  assert (v = (length (kept (take v exts)) + length (kept (drop v exts)))%nat) as Hsum.
  { unfold v at 1. rewrite <- length_app, <- kept_app. by rewrite take_drop. }
  split.
  - intros E i k x y Hik Hi Hk Hy. destruct (kept_all (take v exts)) as [_ Hall]; [rewrite length_take; lia|].
    destruct (decide (k < v)%nat) as [Hkv|Hkv]; [apply (proj1 (Forall_lookup _ _) Hall i); by rewrite lookup_take_lt by lia|].
    exfalso. assert (kept (drop v exts) = []) as Hnil by (apply length_zero_iff_nil; lia).
    assert (y.2 ∈ kept (drop v exts)) as Hin; [|rewrite Hnil in Hin; by apply elem_of_nil in Hin].
    unfold kept. apply list_elem_of_fmap_2, list_elem_of_filter. split; [done|]. apply list_elem_of_lookup. exists (k - v)%nat.
    rewrite lookup_drop. by replace (v + (k - v))%nat with k by lia.
  - intros Hord. destruct (decide (length (kept (drop v exts)) = 0%nat)) as [E|E]; [lia|]. exfalso.
    destruct (kept (drop v exts)) as [|b bs] eqn:Ek; [done|].
    assert (b ∈ kept (drop v exts)) as Hin by (rewrite Ek; left). unfold kept in Hin.
    apply list_elem_of_fmap in Hin as (y & -> & [Hy Hin]%list_elem_of_filter). apply list_elem_of_lookup in Hin as [k Hk].
    rewrite lookup_drop in Hk.
    assert (Forall (fun e : bool * list Z => e.1 = true) (take v exts)) as Hall.
    { apply Forall_lookup. intros i x Hi. apply lookup_take_Some in Hi as [Hi Hiv]. by apply (Hord i (v + k)%nat x y ltac:(lia)). }
    assert (length (kept (take v exts)) = v) as El; [|rewrite El in Hsum; cbn in Hsum; lia].
    unfold kept. rewrite length_fmap. assert (filter (fun e : bool * list Z => e.1 = true) (take v exts) = take v exts) as ->.
    { clear -Hall. induction Hall as [|x l Hx _ IH]; [done|]. rewrite filter_cons, decide_True by done. by f_equal. }
    rewrite length_take. lia.
Qed.

Hypothesis junk_size : forall n, length (junk n) = n.

Definition prefix_readable (n : nat) : Prop :=
  forall i k, (1 <= i <= k)%nat -> (k <= n)%nat -> readable k = true -> readable i = true.

Section Exts.
Context (base : list Z) (n : Z) (exts : list (bool * list Z)).
Context (Hb : base_ok base) (Hu : Forall is_u8 base) (Hn : base !! 0x7e%nat = Some n).
Context (Hx : fetch_exts edid_fixup get_edid_block (Z.to_nat n) 1 = Some (Some exts)).

Lemma exts_facts : length exts = Z.to_nat n /\ forall i x, exts !! i = Some x -> length x.2 = EDID_LENGTH /\ Forall is_u8 x.2 /\
  x.1 = readable (1 + i) /\ (x.1 = true -> fetches (1 + i) x.2).
Proof. destruct (fetch_exts_total (Z.to_nat n) 1%nat) as (e & E & He). rewrite Hx in E. injection E as <-. by apply He. Qed.

(** The number of extensions that passed fits the byte that announces it. *)
Lemma kept_range : is_u8 n /\ 0 <= Z.of_nat (length (kept exts)) <= n.
Proof.
  pose proof (proj1 (Forall_lookup _ _) Hu _ _ Hn) as Hun. unfold is_u8 in *. destruct exts_facts as [Hlen _].
  pose proof (kept_length_le exts). split; lia.
Qed.

Lemma kept_blocks m i b : kept (take m exts) !! i = Some b -> length b = EDID_LENGTH /\ Forall is_u8 b.
Proof.
  intros Hi. apply list_elem_of_lookup_2 in Hi. unfold kept in Hi. apply list_elem_of_fmap in Hi as (x & -> & [_ Hi]%list_elem_of_filter).
  apply list_elem_of_lookup in Hi as [k Hk]. apply lookup_take_Some in Hk as [Hk _]. destruct exts_facts as [_ Hf]. by destruct (Hf k x Hk) as (? & ? & _).
Qed.

Lemma renumbered_ok : let v := Z.of_nat (length (kept exts)) in
  base_ok (renumbered base n v) /\ Forall is_u8 (renumbered base n v) /\ renumbered base n v !! 0x7e%nat = Some v.
Proof.
  cbv zeta. destruct kept_range as [Hun Hr]. unfold renumbered. destruct (Z.eqb_spec (Z.of_nat (length (kept exts))) n) as [->|]; [done|].
  pose proof (bo_length _ Hb) as Hl. unfold EDID_LENGTH in Hl. destruct (lookup_lt_is_Some_2 base 127) as [c Hc]; [lia|]. rewrite Hc. cbn [default].
  destruct (base_adjust base n c (Z.of_nat (length (kept exts)))) as [H1 H2]; [done..|unfold is_u8 in *; lia|].
  split_and!; [done|done|]. apply list_lookup_insert_eq. rewrite length_insert. lia.
Qed.

Lemma drop_broken_exact :
  drop_broken edid_fixup mem junk base exts =
  Some (if (Z.of_nat (length (kept exts)) =? n) || mem 2%nat then Some (returned base n exts) else None).
Proof.
  pose proof (bo_length _ Hb) as Hl. unfold EDID_LENGTH in Hl. destruct exts_facts as [Hlen Hf]. destruct kept_range as [Hun Hr].
  destruct (lookup_lt_is_Some_2 base 127) as [c Hc]; [lia|]. unfold drop_broken. rewrite Hn, Hc, !bind_some.
  replace (length (filter (fun e : bool * list Z => e.1 = true) exts)) with (length (kept exts)) by (unfold kept; by rewrite length_fmap).
  destruct renumbered_ok as (Hb' & Hu' & Hn'). unfold returned. set (v := length (kept exts)) in *. unfold renumbered in *.
  destruct (Z.eqb_spec (Z.of_nat v) n) as [Hvn|Hvn]; cbn [orb].
  - do 2 f_equal. rewrite take_ge by lia. destruct (kept_all exts) as [-> _]; [unfold v in *; lia|]. f_equal. rewrite drop_ge, app_nil_r; [done|].
    rewrite junk_size, length_fmap. lia.
  - rewrite Hc in *. cbn [default] in *. rewrite (put_bind _ _ _ c) by done. rewrite (put_bind _ _ _ n) by by rewrite list_lookup_insert_ne by lia.
    rewrite (u8_small (Z.of_nat v)) by (unfold is_u8 in *; lia). set (base' := <[126%nat:=_]> _) in *.
    destruct (mem 2%nat); cbn [negb]; [|done]. rewrite Nat2Z.id, Nat.add_1_r. cbn [take copy_valid].
    destruct (base_block_ok edid_fixup base' Hb' Hu') as (Hl' & _ & Hv'). destruct (Hv' []) as [c' Ev]. rewrite app_nil_r in Ev. rewrite Ev, bind_some.
    rewrite <- fmap_take, copy_valid_kept.
    + rewrite !bind_some. cbn [concat]. rewrite <- app_assoc. do 3 f_equal. rewrite length_app, Hl'.
      f_equal. rewrite concat_length by (intros k b Hk; by apply (kept_blocks v k b Hk)). unfold EDID_LENGTH. f_equal. lia.
    + intros k x Hk Ht. apply lookup_take_Some in Hk as [Hk _]. apply fetches_ok. by apply (Hf k x Hk).
    + intros k x Hk Ht. apply lookup_take_Some in Hk as [Hk _]. by apply (fetch_exts_broken (Z.to_nat n) 0 exts Hx k x Hk).
Qed.

Lemma prefix_order : prefix_readable (Z.to_nat n) ->
  forall i k x y, (i <= k)%nat -> exts !! i = Some x -> exts !! k = Some y -> y.1 = true -> x.1 = true.
Proof.
  intros Hp i k x y Hik Hi Hk Hy. destruct exts_facts as [Hlen Hf]. destruct (Hf _ _ Hi) as (_ & _ & -> & _). destruct (Hf _ _ Hk) as (_ & _ & Hyr & _).
  apply lookup_lt_Some in Hk. apply (Hp (1 + i)%nat (1 + k)%nat); [lia|lia|congruence].
Qed.

(** When nothing is lost. *)
Lemma returned_ok : prefix_readable (Z.to_nat n) ->
  returned base n exts = renumbered base n (Z.of_nat (length (kept exts))) ++ concat (kept exts) /\ edid_ok (returned base n exts).
Proof.
  intros Hp. pose proof (prefix_order Hp) as Hord. pose proof (proj2 (kept_prefix exts) Hord) as Hk. cbv zeta in Hk.
  assert (kept (take (length (kept exts)) exts) = kept exts) as Hke.
  { assert (kept exts = kept (take (length (kept exts)) exts) ++ kept (drop (length (kept exts)) exts)) as E by (by rewrite <- kept_app, take_drop).
    destruct (kept (drop (length (kept exts)) exts)) as [|b bs] eqn:Ek; [by rewrite app_nil_r in E|].
    apply (f_equal length) in E. rewrite length_app in E. cbn in E. lia. }
  assert (returned base n exts = renumbered base n (Z.of_nat (length (kept exts))) ++ concat (kept exts)) as E.
  { unfold returned. rewrite Hke. f_equal. rewrite drop_ge, app_nil_r; [done|]. by rewrite junk_size. }
  split; [done|]. rewrite E. destruct renumbered_ok as (Hb' & Hu' & Hn'). eapply edid_ok_blocks; [done..|by rewrite Nat2Z.id|].
  destruct (kept_all (take (length (kept exts)) exts)) as [Ea Hall]; [rewrite Hk, length_take; pose proof (kept_length_le exts); lia|].
  rewrite <- Hke, Ea. intros i b Hi. rewrite list_lookup_fmap in Hi. destruct (take (length (kept exts)) exts !! i) as [x|] eqn:Ei; [|done].
  injection Hi as <-. pose proof (proj1 (Forall_lookup _ _) Hall i x Ei) as Ht. apply lookup_take_Some in Ei as [Ei _].
  apply fetches_ok. destruct exts_facts as [_ Hf]. by apply (Hf i x Ei).
Qed.

End Exts.

(** All ways of the function; [r] is what it returns. *)
Lemma get_edid_exact s : exists r s', drm_do_get_edid edid_fixup get_edid_block mem junk None s = Some (r, s') /\
  (forall e, r = Some e -> exists base c n exts,
     fetch_block edid_fixup get_edid_block 4 0 0 [] (edid_corrupt s) = Some (Fetched base, c) /\ base !! 0x7e%nat = Some n /\
     fetch_exts edid_fixup get_edid_block (Z.to_nat n) 1 = Some (Some exts) /\ e = returned base n exts) /\
  (forall base c n exts, (forall i, mem i = true) ->
     fetch_block edid_fixup get_edid_block 4 0 0 [] (edid_corrupt s) = Some (Fetched base, c) -> base !! 0x7e%nat = Some n ->
     fetch_exts edid_fixup get_edid_block (Z.to_nat n) 1 = Some (Some exts) -> r = Some (returned base n exts)).
Proof.
  unfold drm_do_get_edid. destruct (mem 0%nat) eqn:E0; cbn [negb]; [|eexists _, _; split_and!; [done|done|intros * Hm; by rewrite Hm in E0]].
  destruct (fetch_block_total 4 0 0 [] (edid_corrupt s)) as (f & c & Ef & Hf); [done|].
  rewrite Ef, bind_some. destruct f as [base|b|b|]; [|eexists _, _; split_and!; [done|done|intros; congruence]..].
  pose proof (fetched_base _ _ Hf) as Hb. destruct Hf as (Hl & Hu & _). unfold EDID_LENGTH in Hl. cbn [fst snd].
  destruct (lookup_lt_is_Some_2 base 0x7e) as [n Hn]; [lia|]. rewrite Hn, bind_some.
  destruct (Z.eqb_spec n 0) as [->|Hn0].
  { assert (returned base 0 [] = base) as Eb.
    { unfold returned, renumbered. cbn [kept take length]. cbn. rewrite drop_ge, app_nil_r; [done|]. rewrite junk_size. done. }
    eexists _, _. split_and!; [done| |].
    - intros e [= <-]. exists base, c, 0, []. by rewrite Eb.
    - intros base' c' n' exts _ [= <- <-] Hn'. rewrite Hn in Hn'. injection Hn' as <-. cbn. intros [= <-]. by rewrite Eb. }
  destruct (mem 1%nat) eqn:E1; cbn [negb]; [|eexists _, _; split_and!; [done|done|intros * Hm; by rewrite Hm in E1]].
  destruct (fetch_exts_total (Z.to_nat n) 1%nat) as (e & Ee & _). rewrite Ee, bind_some.
  destruct e as [exts|]; [|eexists _, _; split_and!; [done|done|intros; congruence]].
  rewrite (drop_broken_exact base n exts Hb Hu Hn Ee), bind_some. eexists _, _. split_and!; [done| |].
  - intros e. destruct (_ || _); [|done]. intros [= <-]. exists base, c, n, exts. done.
  - intros base' c' n' exts' Hm [= <- <-] Hn' Hx'. rewrite Hn in Hn'. injection Hn' as <-. rewrite Ee in Hx'. injection Hx' as <-.
    by rewrite (Hm 2%nat), orb_true_r.
Qed.

End Reading.

(** C27: reading an EDID always ends with a result, whatever the monitor sends (blocks of 128 bytes or read errors) and
    whichever allocations fail.  When an EDID is returned, it is exactly determined by the base block and the extensions that were read: it is the
    base block, with the number of extensions that passed their check and the checksum adjusted to it, then the extensions that passed
    among as many first ones as passed in all, then what fresh memory held.  When those
    that passed come before those that did not, it is the base block and all extensions that passed, has as many
    blocks as it announces and passes [drm_edid_is_valid] without further repair.  And when the base block passes, no read fails and allocations succeed, one
    is returned. *)
Theorem drm_do_get_edid_valid edid_fixup get mem junk s :
  (forall block i bs, get block i = Some bs -> length bs = EDID_LENGTH /\ Forall is_u8 bs) ->
  (forall n, length (junk n) = n) ->
  exists r s', drm_do_get_edid edid_fixup get mem junk None s = Some (r, s') /\
    (forall e, r = Some e -> exists base c n exts,
      fetch_block edid_fixup get 4 0 0 [] (edid_corrupt s) = Some (Fetched base, c) /\ base !! 0x7e%nat = Some n /\
      fetch_exts edid_fixup get (Z.to_nat n) 1 = Some (Some exts) /\ e = returned junk base n exts /\
      (prefix_readable edid_fixup get (Z.to_nat n) ->
       e = renumbered base n (Z.of_nat (length (kept exts))) ++ concat (kept exts) /\ edid_ok edid_fixup e)) /\
    (forall base c n exts, (forall i, mem i = true) ->
      fetch_block edid_fixup get 4 0 0 [] (edid_corrupt s) = Some (Fetched base, c) -> base !! 0x7e%nat = Some n ->
      fetch_exts edid_fixup get (Z.to_nat n) 1 = Some (Some exts) -> r = Some (returned junk base n exts)).
Proof.
  intros Hget Hjunk. destruct (get_edid_exact edid_fixup get Hget mem junk Hjunk s) as (r & s' & E & H1 & H2).
  exists r, s'. split_and!; [done| |done]. intros e Er. destruct (H1 e Er) as (base & c & n & exts & Ef & Hn & Hx & ->).
  exists base, c, n, exts. split_and!; [done..|]. intros Hp.
  destruct (fetch_block_total edid_fixup get Hget 4 0 0 [] (edid_corrupt s)) as (f & c' & Ef' & Hf); [done|].
  rewrite Ef in Ef'. injection Ef' as <- <-. pose proof (fetched_base _ _ Hf) as Hb. destruct Hf as (_ & Hu & _).
  by apply (returned_ok edid_fixup get Hget junk Hjunk base n exts Hb Hu Hn Hx).
Qed.

(** A monitor that sends given blocks. *)
Definition sends (blocks : list (list Z)) (block i : nat) : option (list Z) := blocks !! block.

(** A base block with [n] extensions, and extensions of type 0x40 and content [x]; the
    last byte makes the sum 0. *)
Definition with_checksum (b : list Z) : list Z := b ++ [u8 (- sum b)].
Definition sample_base (n : Z) : list Z := with_checksum (edid_header ++ replicate 10 0 ++ [1; 3] ++ replicate 106 0 ++ [n]).
Definition sample_ext (x : Z) : list Z := with_checksum ([0x40; x] ++ replicate 125 0).
Definition sample_bad : list Z := replicate 128 1.

Definition boot : edid_state := {| edid_corrupt := false; null_edid_counter := 0; bad_edid_counter := 0 |}.
Definition plenty (_ : nat) : bool := true.

(** Two good extensions before a broken one. *)
Definition good_first : list (list Z) := [sample_base 3; sample_ext 7; sample_ext 8; sample_bad].


Lemma sends_bytes blocks : forallb (fun b => bool_decide (length b = EDID_LENGTH) && forallb (fun x => (0 <=? x) && (x <? 256)) b) blocks = true ->
  forall block i bs, sends blocks block i = Some bs -> length bs = EDID_LENGTH /\ Forall is_u8 bs.
Proof.
  intros H block i bs Hb. rewrite forallb_forall in H. unfold sends in Hb.
  specialize (H bs (proj1 (list_elem_of_In _ _) (list_elem_of_lookup_2 _ _ _ Hb))). apply andb_prop in H as [Hl Hx].
  split; [by apply bool_decide_eq_true in Hl|]. apply Forall_forall. intros x Hi. rewrite forallb_forall in Hx.
  specialize (Hx x Hi). unfold is_u8. lia.
Qed.



Lemma good_first_prefix : prefix_readable 6 (sends good_first) 3.
Proof.
  intros i k Hi Hk Hr. destruct k as [|[|[|[|k]]]]; try lia; destruct i as [|[|[|i]]]; try lia; try (vm_compute; reflexivity).
  all: vm_compute in Hr; discriminate.
Qed.

Lemma drm_do_get_edid_valid_witness :
  exists e s', drm_do_get_edid 6 (sends good_first) plenty (fun n => replicate n 0) None boot = Some (Some e, s') /\
    length e = 384%nat /\ edid_ok 6 e.
Proof.
  destruct (drm_do_get_edid_valid 6 (sends good_first) plenty (fun n => replicate n 0) boot) as (r & s' & E & Hr).
  - apply sends_bytes. vm_compute. reflexivity.
  - intros n. apply length_replicate.
  - destruct r as [e|]; [|vm_compute in E; discriminate]. exists e, s'. split; [exact E|]. split.
    + assert (option_map (fun p => option_map length (fst p)) (drm_do_get_edid 6 (sends good_first) plenty (fun n => replicate n 0) None boot)
        = Some (Some 384%nat)) as El by (vm_compute; reflexivity).
      rewrite E in El. simpl in El. by injection El.
    + destruct (proj1 Hr e eq_refl) as (base & c & n & exts & Eb & En & _ & _ & H). apply H.
      replace n with 3; [exact good_first_prefix|].
      assert (match fetch_block 6 (sends good_first) 4 0 0 [] (edid_corrupt boot) with Some (Fetched b, _) => b !! 126%nat | _ => None end
        = Some 3) as E3 by (vm_compute; reflexivity).
      rewrite Eb, En in E3. by injection E3.
Defined.

(** ** The walk stays inside the blocks *)

(** The bytes of a block for timings: before the checksum, and in the base block before the number of extensions. *)
Definition timing_area (block : nat) : nat := match block with O => 126 | S _ => 127 end.

(** A timing of 18 bytes inside one block. *)
Definition inside (edid : list Z) (t : nat * list Z) : Prop :=
  exists block o, t.1 = (block * EDID_LENGTH + o)%nat /\ (o + 18 <= timing_area block)%nat /\
    ((block + 1) * EDID_LENGTH <= length edid)%nat /\ t.2 = take 18 (drop t.1 edid) /\ length t.2 = 18%nat.

Lemma each_timing_ok edid block o n : (o + 18 * n <= timing_area block)%nat -> ((block + 1) * EDID_LENGTH <= length edid)%nat ->
  exists ts, each_timing edid (block * EDID_LENGTH + o)%nat n = Some ts /\ Forall (inside edid) ts /\ length ts = n.
Proof.
  intros Ho Hb. unfold each_timing. assert (timing_area block <= 127)%nat as Ha by (destruct block; simpl; lia).
  set (f i := ((block * EDID_LENGTH + o + 18 * i)%nat, take 18 (drop (block * EDID_LENGTH + o + 18 * i) edid))).
  exists (map f (seq 0 n)). split; [|split; [|by rewrite length_map, length_seq]].
  - apply mapM_Some. change (map f (seq 0 n)) with (f <$> seq 0 n). apply Forall2_fmap_r, Forall_Forall2_diag, Stdlib.Lists.List.Forall_forall.
    intros i Hi. apply in_seq in Hi. unfold timing_at, bytes_at, EDID_LENGTH in *.
    destruct (Nat.leb_spec (block * 128 + o + 18 * i + 18) (length edid)); [done|lia].
  - apply Forall_map, Stdlib.Lists.List.Forall_forall. intros i Hi. apply in_seq in Hi.
    exists block, (o + 18 * i)%nat. unfold f. cbn [fst snd]. rewrite length_take, length_drop. unfold EDID_LENGTH in *.
    do 3 (split; [lia|]). split; [done|lia].
Qed.

Lemma for_each_extension_ok edid : Forall is_u8 edid -> forall k i, (1 <= i)%nat -> ((i + k) * EDID_LENGTH <= length edid)%nat ->
  exists ts, for_each_extension k i edid = Some ts /\ Forall (inside edid) ts /\ (length ts <= 7 * k)%nat.
Proof.
  intros Hu. induction k as [|k IH]; intros i Hi1 Hi; [by eexists|]. cbn [for_each_extension].
  assert (timing_area i = 127%nat) as Harea by (destruct i; [lia|done]).
  destruct (IH (S i)) as (ts' & -> & Hts' & Hn'); [lia|unfold EDID_LENGTH in *; lia|].
  assert (forall o, (o < 128)%nat -> exists x, edid !! (i * EDID_LENGTH + o)%nat = Some x /\ is_u8 x) as Hget.
  { intros o Ho. destruct (lookup_lt_is_Some_2 edid (i * EDID_LENGTH + o)) as [x Hx]; [unfold EDID_LENGTH in *; lia|].
    exists x. split; [done|]. by apply (proj1 (Forall_lookup _ _) Hu _ _ Hx). }
  assert (((i + 1) * EDID_LENGTH <= length edid)%nat) as Hin by (unfold EDID_LENGTH in *; lia).
  assert (forall r, (exists ts, r = Some ts /\ Forall (inside edid) ts /\ (length ts <= 7)%nat) ->
    exists ts, (ts0 ← r; ts'0 ← Some ts'; Some (ts0 ++ ts'0)) = Some ts /\ Forall (inside edid) ts /\ (length ts <= 7 * S k)%nat) as Hseq.
  { intros r (ts & -> & Hts & Hn). exists (ts ++ ts'). split; [done|]. rewrite Forall_app, length_app. split; [done|lia]. }
  assert (exists ts : list (nat * list Z), Some [] = Some ts /\ Forall (inside edid) ts /\ (length ts <= 7)%nat) as Hnone
    by (exists []; split; [done|]; split; [done|simpl; lia]).
  destruct (Hget 0%nat) as (tag & Et & _); [lia|]. rewrite Nat.add_0_r in Et. rewrite Et, bind_some. apply Hseq.
  destruct (Hget 2%nat) as (d & Ed & Hd); [lia|]. destruct (Hget 1%nat) as (v & Ev & _); [lia|]. unfold is_u8 in Hd.
  destruct (tag =? CEA_EXT); [|destruct (tag =? VTB_EXT); [|exact Hnone]].
  - unfold cea_for_each_detailed_block. rewrite Ed, bind_some.
    pose proof (Z.quot_le_upper_bound (127 - d) 18). destruct (Z.le_gt_cases d 127) as [Hle|Hgt].
    + assert (0 <= Z.quot (127 - d) 18 /\ 18 * Z.quot (127 - d) 18 <= 127 - d) as [Hq0 Hq].
      { rewrite Z.quot_div_nonneg by lia. pose proof (Z.mul_div_le (127 - d) 18). pose proof (Z.div_pos (127 - d) 18). lia. }
      destruct (each_timing_ok edid i (Z.to_nat d) (Z.to_nat (Z.quot (127 - d) 18))) as (ts & -> & Hts & Hn); [lia|done|].
      exists ts. split; [done|]. split; [done|lia].
    + assert (Z.quot (127 - d) 18 <= 0) as Hq by (apply Z.quot_le_upper_bound; lia).
      replace (Z.to_nat (Z.quot (127 - d) 18)) with 0%nat by lia. exact Hnone.
  - unfold vtb_for_each_detailed_block. rewrite Ed, Ev, !bind_some. destruct (negb _); [exact Hnone|].
    destruct (each_timing_ok edid i 5 (Z.to_nat (Z.min d 6))) as (ts & -> & Hts & Hn); [lia|done|].
    exists ts. split; [done|]. split; [done|lia].
Qed.

Lemma walk_inside edid n :
  edid !! 0x7e%nat = Some n -> length edid = ((Z.to_nat n + 1) * EDID_LENGTH)%nat -> Forall is_u8 edid ->
  exists ts, drm_for_each_detailed_block edid = Some ts /\ Forall (inside edid) ts /\
    (4 <= length ts <= 4 + 7 * Z.to_nat n)%nat.
Proof.
  intros Hn Hl Hu. unfold drm_for_each_detailed_block.
  destruct (each_timing_ok edid 0 54 EDID_DETAILED_TIMINGS) as (ts & E & Hts & Hlen); [unfold EDID_DETAILED_TIMINGS, timing_area; lia|lia|].
  change (0 * EDID_LENGTH + 54)%nat with 54%nat in E. rewrite E, Hn, !bind_some.
  destruct (for_each_extension_ok edid Hu (Z.to_nat n) 1) as (ts' & -> & Hts' & Hlen'); [lia..|].
  exists (ts ++ ts'). split; [done|]. rewrite Forall_app, length_app, Hlen. unfold EDID_DETAILED_TIMINGS. split; [done|lia].
Qed.

(** In an EDID with as many blocks as it announces, the walk over the detailed timings hands out
    at most seven timings per extension and four of the base block, every one of 18 bytes
    inside a single block, before the checksum of the block and, in the base block, before the number of extensions, whatever the offsets in the extensions. *)
Theorem drm_for_each_detailed_block_inside edid n :
  edid !! 0x7e%nat = Some n -> length edid = ((Z.to_nat n + 1) * EDID_LENGTH)%nat -> Forall is_u8 edid ->
  exists ts, drm_for_each_detailed_block edid = Some ts /\ Forall (inside edid) ts /\
    (4 <= length ts <= 4 + 7 * Z.to_nat n)%nat.
Proof.
  intros Hn Hl Hu. destruct (walk_inside edid n Hn Hl Hu) as (ts & E & Hts & Hlen).
  exists ts. by repeat split; [| |lia..].
Qed.

(** The timings of the walk are bytes. *)
Lemma timings_bytes edid n :
  edid !! 0x7e%nat = Some n -> length edid = ((Z.to_nat n + 1) * EDID_LENGTH)%nat -> Forall is_u8 edid ->
  exists ts, drm_for_each_detailed_block edid = Some ts /\ Forall (fun t => length t.2 = 18%nat /\ Forall is_u8 t.2) ts.
Proof.
  intros Hn Hl Hu. destruct (walk_inside edid n Hn Hl Hu) as (ts & E & Hts & _). exists ts. split; [done|].
  revert Hts. apply Forall_impl. intros t (block & o & _ & _ & _ & -> & Hlen). split; [done|]. by apply Forall_take, Forall_drop.
Qed.

(** An EDID whose first extension is a CEA block with the given offset of its timings. *)
Definition sample_cea (d : Z) : list Z := with_checksum ([0x02; 3; d; 0x71] ++ map Z.of_nat (seq 4 123)).

Lemma drm_for_each_detailed_block_inside_witness :
  exists ts, drm_for_each_detailed_block (sample_base 1 ++ sample_cea 91) = Some ts /\
    Forall (inside (sample_base 1 ++ sample_cea 91)) ts /\ (4 <= length ts <= 11)%nat.
Proof.
  apply (drm_for_each_detailed_block_inside (sample_base 1 ++ sample_cea 91) 1).
  - vm_compute. reflexivity.
  - vm_compute. reflexivity.
  - apply Forall_app. split; vm_compute; repeat constructor; discriminate.
Defined.

(** An offset below 4 is taken too: the header of the extension is read as a timing. *)
Theorem cea_timings_overlap_header :
  option_map (fun ts => option_map fst (ts !! 4%nat)) (drm_for_each_detailed_block (sample_base 1 ++ sample_cea 0))
    = Some (Some EDID_LENGTH).
Proof. vm_compute. reflexivity. Qed.
