(* ===== verification/EdidCea.v ===== *)
(** * CEA extensions of EDIDs ([drm_edid.c], [drm_edid.h])

    A CEA extension holds data blocks: a byte with the type and the number of bytes that follow.
    The functions below find audio formats, speakers, latencies, colour formats and clocks in
    them, for the display information of a connector and for its ELD, the summary for the sound driver.

    An extension is the list of bytes from its start to the end of the EDID; a data block is its place in
    the extension; [None] is an access behind the EDID.

    Theorems: the walk over data blocks ends, stays inside the extension and visits exactly the
    blocks of the format; the ELD stays inside its 128 bytes and reads back as the name, the audio formats,
    the speakers and the connection of the monitor; the display information is
    determined by the EDID alone, but for the deep colour modes, which keep those of the monitors before. *)

From S2P Require Import Prelude Bytes Edid.
From stdpp Require Import base gmap list option strings.
From Stdlib Require Import ZArith Lia ZifyBool ZifyNat Ascii.

#[local] Set Warnings "-clear-no-such-hyp".

#[local] Open Scope Z_scope.

Definition AUDIO_BLOCK : Z := 0x01.
Definition VENDOR_BLOCK : Z := 0x03.
Definition SPEAKER_BLOCK : Z := 0x04.
Definition USE_EXTENDED_TAG : Z := 0x07.
Definition EXT_VIDEO_CAPABILITY_BLOCK : Z := 0x00.
Definition EXT_VIDEO_DATA_BLOCK_420 : Z := 0x0e.
Definition EXT_VIDEO_CAP_BLOCK_Y420CMDB : Z := 0x0f.
Definition HDMI_IEEE_OUI : Z := 0x000c03.
Definition HDMI_FORUM_IEEE_OUI : Z := 0xc45dd8.

(** ** Finding an extension *)

(** The loop of [drm_find_edid_extension], [k] extensions from [i] on. *)
Fixpoint find_extension (k i : nat) (edid : list Z) (ext_id : Z) : option (option (list Z)) :=
  match k with
  | O => Some None
  | S k' =>
    let edid_ext := drop (EDID_LENGTH * (i + 1)) edid in
    b ← edid_ext !! 0%nat;
    if b =? ext_id then Some (Some edid_ext) else find_extension k' (S i) edid ext_id
  end.

Definition drm_find_edid_extension (edid : option (list Z)) (ext_id : Z) : option (option (list Z)) :=
  match edid with
  | None => Some None
  | Some edid =>
    extensions ← edid !! 0x7e%nat;
    if extensions =? 0 then Some None else find_extension (Z.to_nat extensions) 0 edid ext_id
  end.

Definition drm_find_cea_extension (edid : option (list Z)) : option (option (list Z)) :=
  drm_find_edid_extension edid CEA_EXT.

(** ** Data blocks *)

Definition cea_db_payload_len (cea : list Z) (db : nat) : option Z :=
  b ← cea !! db; Some (Z.land b 0x1f).

Definition cea_db_extended_tag (cea : list Z) (db : nat) : option Z := cea !! (db + 1)%nat.

Definition cea_db_tag (cea : list Z) (db : nat) : option Z :=
  b ← cea !! db; Some (Z.shiftr b 5).

Definition cea_revision (cea : list Z) : option Z := cea !! 1%nat.

(** Inside: [None] is [-ERANGE]. *)
Definition cea_db_offsets (cea : list Z) : option (option (nat * nat)) :=
  e ← cea !! 2%nat;
  let e := if e =? 0 then 127 else e in
  Some (if (e <? 4) || (127 <? e) then None else Some (4%nat, Z.to_nat e)).

Definition cea_db_is_hdmi_vsdb (cea : list Z) (db : nat) : option bool :=
  tag ← cea_db_tag cea db;
  if negb (tag =? VENDOR_BLOCK) then Some false
  else
    len ← cea_db_payload_len cea db;
    if len <? 5 then Some false
    else
      b1 ← cea !! (db + 1)%nat; b2 ← cea !! (db + 2)%nat; b3 ← cea !! (db + 3)%nat;
      Some (Z.lor (Z.lor b1 (Z.shiftl b2 8)) (Z.shiftl b3 16) =? HDMI_IEEE_OUI).

Definition cea_db_is_hdmi_forum_vsdb (cea : list Z) (db : nat) : option bool :=
  tag ← cea_db_tag cea db;
  if negb (tag =? VENDOR_BLOCK) then Some false
  else
    len ← cea_db_payload_len cea db;
    if len <? 7 then Some false
    else
      b1 ← cea !! (db + 1)%nat; b2 ← cea !! (db + 2)%nat; b3 ← cea !! (db + 3)%nat;
      Some (Z.lor (Z.lor (Z.shiftl b3 16) (Z.shiftl b2 8)) b1 =? HDMI_FORUM_IEEE_OUI).

Definition cea_db_is_y420cmdb (cea : list Z) (db : nat) : option bool :=
  tag ← cea_db_tag cea db;
  if negb (tag =? USE_EXTENDED_TAG) then Some false
  else
    len ← cea_db_payload_len cea db;
    if len =? 0 then Some false
    else ext ← cea_db_extended_tag cea db; Some (ext =? EXT_VIDEO_CAP_BLOCK_Y420CMDB).

Definition cea_db_is_y420vdb (cea : list Z) (db : nat) : option bool :=
  tag ← cea_db_tag cea db;
  if negb (tag =? USE_EXTENDED_TAG) then Some false
  else
    len ← cea_db_payload_len cea db;
    if len =? 0 then Some false
    else ext ← cea_db_extended_tag cea db; Some (ext =? EXT_VIDEO_DATA_BLOCK_420).

(** [for_each_cea_db]: the body gets the place of a data block and the variables of the
    loop and tells whether to leave the loop.  The place grows with each turn and the end is at
    most 127, so that 128 turns are enough. *)
Fixpoint cea_db_loop {A} (fuel : nat) (cea : list Z) (i end_ : nat) (body : nat -> A -> option (bool * A)) (s : A) : option A :=
  match fuel with
  | O => None
  | S fuel' =>
    if (i <? end_)%nat then
      len ← cea_db_payload_len cea i;
      if (i + Z.to_nat len <? end_)%nat then
        r ← body i s;
        let '(stop, s) := (r : bool * A) in
        if stop then Some s else cea_db_loop fuel' cea (i + (Z.to_nat len + 1))%nat end_ body s
      else Some s
    else Some s
  end.

Definition for_each_cea_db {A} (cea : list Z) (range : nat * nat) (body : nat -> A -> option (bool * A)) (s : A) : option A :=
  cea_db_loop 128 cea range.1 range.2 body s.

(** ** Queries *)

Definition drm_detect_hdmi_monitor (edid : option (list Z)) : option bool :=
  ext ← drm_find_cea_extension edid;
  match ext with
  | None => Some false
  | Some edid_ext =>
    o ← cea_db_offsets edid_ext;
    match o with
    | None => Some false
    | Some range =>
      for_each_cea_db edid_ext range (fun i found => b ← cea_db_is_hdmi_vsdb edid_ext i; Some (b, b)) false
    end
  end.

Definition drm_detect_monitor_audio (edid : option (list Z)) : option bool :=
  ext ← drm_find_cea_extension edid;
  match ext with
  | None => Some false
  | Some edid_ext =>
    b3 ← edid_ext !! 3%nat;
    if negb (Z.land b3 (Z.shiftl 1 6) =? 0) then Some true
    else
      o ← cea_db_offsets edid_ext;
      match o with
      | None => Some false
      | Some range =>
        for_each_cea_db edid_ext range
          (fun i has_audio => tag ← cea_db_tag edid_ext i; Some (if tag =? AUDIO_BLOCK then (true, true) else (false, has_audio))) false
      end
  end.

Definition drm_rgb_quant_range_selectable (edid : option (list Z)) : option bool :=
  ext ← drm_find_cea_extension edid;
  match ext with
  | None => Some false
  | Some edid_ext =>
    o ← cea_db_offsets edid_ext;
    match o with
    | None => Some false
    | Some range =>
      for_each_cea_db edid_ext range
        (fun i r =>
           tag ← cea_db_tag edid_ext i;
           if negb (tag =? USE_EXTENDED_TAG) then Some (false, r)
           else
             len ← cea_db_payload_len edid_ext i;
             if negb (len =? 2) then Some (false, r)
             else
               e ← cea_db_extended_tag edid_ext i;
               if negb (e =? EXT_VIDEO_CAPABILITY_BLOCK) then Some (false, r)
               else b2 ← edid_ext !! (i + 2)%nat; Some (true, negb (Z.land b2 (Z.shiftl 1 6) =? 0))) false
    end
  end.

(** ** Audio formats and speakers *)

(** [struct cea_sad] *)
Record cea_sad := { format : Z; channels : Z; freq : Z; byte2 : Z }.

Fixpoint read_sads (n : nat) (cea : list Z) (sad : nat) : option (list cea_sad) :=
  match n with
  | O => Some []
  | S n' =>
    b0 ← cea !! sad; b1 ← cea !! (sad + 1)%nat; b2 ← cea !! (sad + 2)%nat;
    r ← read_sads n' cea (sad + 3)%nat;
    Some ({| format := Z.shiftr (Z.land b0 0x78) 3; channels := Z.land b0 0x7; freq := Z.land b1 0x7f; byte2 := b2 |} :: r)
  end.

(** What is stored in [*sads]; the code returns the number of them or an error.  [mem]: the
    allocation succeeds. *)
Definition drm_edid_to_sad (mem : bool) (edid : option (list Z)) : option (result (list cea_sad)) :=
  ext ← drm_find_cea_extension edid;
  match ext with
  | None => Some (Err ENOENT)
  | Some cea =>
    rev ← cea_revision cea;
    if rev <? 3 then Some (Err ENOTSUPP)
    else
      o ← cea_db_offsets cea;
      match o with
      | None => Some (Err EPROTO)
      | Some range =>
        for_each_cea_db cea range
          (fun i r =>
             tag ← cea_db_tag cea i;
             if negb (tag =? AUDIO_BLOCK) then Some (false, r)
             else
               dbl ← cea_db_payload_len cea i;
               if negb mem then Some (true, Err ENOMEM)
               else sads ← read_sads (Z.to_nat (dbl / 3)) cea (i + 1)%nat; Some (true, Ok sads)) (Ok [])
      end
  end.

Definition drm_edid_to_speaker_allocation (mem : bool) (edid : option (list Z)) : option (result (list Z)) :=
  ext ← drm_find_cea_extension edid;
  match ext with
  | None => Some (Err ENOENT)
  | Some cea =>
    rev ← cea_revision cea;
    if rev <? 3 then Some (Err ENOTSUPP)
    else
      o ← cea_db_offsets cea;
      match o with
      | None => Some (Err EPROTO)
      | Some range =>
        for_each_cea_db cea range
          (fun i r =>
             tag ← cea_db_tag cea i;
             if negb (tag =? SPEAKER_BLOCK) then Some (false, r)
             else
               dbl ← cea_db_payload_len cea i;
               if negb (dbl =? 3) then Some (false, r)
               else if negb mem then Some (true, Err ENOMEM)
               else bs ← bytes_at (i + 1)%nat (Z.to_nat dbl) cea; Some (true, Ok bs)) (Ok [])
      end
  end.

(** ** The name of the monitor *)

Definition EDID_DETAIL_MONITOR_NAME : Z := 0xfc.

(** The callback [monitor_name]: the last timing that names the monitor wins. *)
Definition monitor_name (t : nat * list Z) (data : option (list Z)) : option (list Z) :=
  match t.2 !! 3%nat with
  | Some type => if type =? EDID_DETAIL_MONITOR_NAME then Some (drop 5 t.2) else data
  | None => data
  end.

(** The loop of [get_monitor_name]. *)
Fixpoint until_newline (k : nat) (edid_name : list Z) : option (list Z) :=
  match k with
  | O => Some []
  | S k' =>
    match edid_name with
    | [] => None
    | c :: edid_name' => if c =? 0x0a then Some [] else r ← until_newline k' edid_name'; Some (c :: r)
    end
  end.

(** What is written to [name]; the code returns its length. *)
Definition get_monitor_name (edid : list Z) : option (list Z) :=
  ts ← drm_for_each_detailed_block edid;
  match foldl (fun data t => monitor_name t data) None ts with
  | None => Some []
  | Some edid_name => until_newline 13 edid_name
  end.

Definition drm_edid_get_monitor_name (edid : option (list Z)) (name : list Z) (bufsize : Z) : option (list Z) :=
  if bufsize <=? 0 then Some name
  else
    buf ← (match edid with None => Some [] | Some edid => get_monitor_name edid end);
    puts 0 (take (Z.to_nat (bufsize - 1)) buf ++ [0]) name.

(** ** The ELD *)

Definition MAX_ELD_BYTES : nat := 128.
Definition DRM_ELD_VER : nat := 0.
Definition DRM_ELD_VER_CEA861D : Z := Z.shiftl 2 3.
Definition DRM_ELD_BASELINE_ELD_LEN : nat := 2.
Definition DRM_ELD_CEA_EDID_VER_MNL : nat := 4.
Definition DRM_ELD_CEA_EDID_VER_SHIFT : Z := 5.
Definition DRM_ELD_SAD_COUNT_CONN_TYPE : nat := 5.
Definition DRM_ELD_SAD_COUNT_SHIFT : Z := 4.
Definition DRM_ELD_CONN_TYPE_HDMI : Z := Z.shiftl 0 2.
Definition DRM_ELD_CONN_TYPE_DP : Z := Z.shiftl 1 2.
Definition DRM_ELD_SUPPORTS_AI : Z := Z.shiftl 1 1.
Definition DRM_ELD_SPEAKER : nat := 7.
Definition DRM_ELD_MANUFACTURER_NAME0 : nat := 16.
Definition DRM_ELD_MONITOR_NAME_STRING : nat := 20.
Definition DRM_ELD_CEA_SAD (mnl sad : nat) : nat := (20 + mnl + 3 * sad)%nat.
Definition DRM_MODE_CONNECTOR_DisplayPort : Z := 10.
Definition DRM_MODE_CONNECTOR_eDP : Z := 14.

Definition drm_eld_mnl (eld : list Z) : option Z :=
  b ← eld !! DRM_ELD_CEA_EDID_VER_MNL; Some (Z.shiftr (Z.land b 0x1f) 0).

(** The place of the audio formats. *)
Definition drm_eld_sad (eld : list Z) : option (option nat) :=
  b ← eld !! DRM_ELD_VER;
  let ver := Z.shiftr (Z.land b 0xf8) 3 in
  if negb (ver =? 2) && negb (ver =? 31) then Some None
  else
    mnl ← drm_eld_mnl eld;
    if 16 <? mnl then Some None else Some (Some (DRM_ELD_CEA_SAD (Z.to_nat mnl) 0)).

Definition drm_eld_sad_count (eld : list Z) : option Z :=
  b ← eld !! DRM_ELD_SAD_COUNT_CONN_TYPE; Some (Z.shiftr (Z.land b 0xf0) DRM_ELD_SAD_COUNT_SHIFT).

Definition drm_eld_calc_baseline_block_size (eld : list Z) : option Z :=
  mnl ← drm_eld_mnl eld; n ← drm_eld_sad_count eld; Some (20 - 4 + mnl + n * 3).

Definition drm_eld_size (eld : list Z) : option Z :=
  b ← eld !! DRM_ELD_BASELINE_ELD_LEN; Some (4 + b * 4).

Definition drm_eld_get_spk_alloc (eld : list Z) : option Z :=
  b ← eld !! DRM_ELD_SPEAKER; Some (Z.land b 0x7f).

Definition drm_eld_get_conn_type (eld : list Z) : option Z :=
  b ← eld !! DRM_ELD_SAD_COUNT_CONN_TYPE; Some (Z.land b (Z.shiftl 3 2)).

(** The fields of [struct drm_connector] for the sound driver; latencies for progressive
    and for interlaced modes. *)
Record drm_av := {
  eld : list Z; latency_present0 : bool; latency_present1 : bool;
  video_latency0 : Z; audio_latency0 : Z; video_latency1 : Z; audio_latency1 : Z
}.

Definition clear_eld : drm_av :=
  {| eld := replicate MAX_ELD_BYTES 0; latency_present0 := false; latency_present1 := false;
     video_latency0 := 0; audio_latency0 := 0; video_latency1 := 0; audio_latency1 := 0 |}.

Definition set_eld (e : list Z) (c : drm_av) : drm_av :=
  {| eld := e; latency_present0 := latency_present0 c; latency_present1 := latency_present1 c;
     video_latency0 := video_latency0 c; audio_latency0 := audio_latency0 c;
     video_latency1 := video_latency1 c; audio_latency1 := audio_latency1 c |}.

Definition drm_parse_hdmi_vsdb_audio (cea : list Z) (db : nat) (c : drm_av) : option drm_av :=
  len ← cea_db_payload_len cea db;
  ai ← (if 6 <=? len then b ← cea !! (db + 6)%nat; Some (negb (Z.land b (Z.shiftl 1 7) =? 0)) else Some false);
  e ← put_or_if ai DRM_ELD_SAD_COUNT_CONN_TYPE DRM_ELD_SUPPORTS_AI (eld c);
  p ← (if 8 <=? len
       then b ← cea !! (db + 8)%nat; Some (negb (Z.shiftr b 7 =? 0), negb (Z.land (Z.shiftr b 6) 1 =? 0))
       else Some (latency_present0 c, latency_present1 c));
  v0 ← (if 9 <=? len then cea !! (db + 9)%nat else Some (video_latency0 c));
  a0 ← (if 10 <=? len then cea !! (db + 10)%nat else Some (audio_latency0 c));
  v1 ← (if 11 <=? len then cea !! (db + 11)%nat else Some (video_latency1 c));
  a1 ← (if 12 <=? len then cea !! (db + 12)%nat else Some (audio_latency1 c));
  Some {| eld := e; latency_present0 := p.1; latency_present1 := p.2;
          video_latency0 := v0; audio_latency0 := a0; video_latency1 := v1; audio_latency1 := a1 |}.

(** One data block in the loop of [drm_edid_to_eld]; the state holds [total_sad_count]. *)
Definition eld_block (cea : list Z) (mnl : nat) (i : nat) (s : drm_av * nat) : option (bool * (drm_av * nat)) :=
  let '(c, total_sad_count) := s in
  tag ← cea_db_tag cea i;
  dbl ← cea_db_payload_len cea i;
  if tag =? AUDIO_BLOCK then
    let sad_count := Nat.min (Z.to_nat dbl / 3) (15 - total_sad_count) in
    e ← (if (1 <=? sad_count)%nat
         then bs ← bytes_at (i + 1) (sad_count * 3) cea; puts (DRM_ELD_CEA_SAD mnl total_sad_count) bs (eld c)
         else Some (eld c));
    Some (false, (set_eld e c, (total_sad_count + sad_count)%nat))
  else if tag =? SPEAKER_BLOCK then
    e ← (if 1 <=? dbl then b ← cea !! (i + 1)%nat; put DRM_ELD_SPEAKER b (eld c) else Some (eld c));
    Some (false, (set_eld e c, total_sad_count))
  else if tag =? VENDOR_BLOCK then
    h ← cea_db_is_hdmi_vsdb cea i;
    if negb h then Some (false, s)
    else c ← drm_parse_hdmi_vsdb_audio cea i c; Some (false, (c, total_sad_count))
  else Some (false, s).

Definition drm_edid_to_eld (connector_type : Z) (edid : option (list Z)) : option drm_av :=
  match edid with
  | None => Some clear_eld
  | Some raw =>
    ext ← drm_find_cea_extension edid;
    match ext with
    | None => Some clear_eld
    | Some cea =>
      let c := clear_eld in
      name ← get_monitor_name raw;
      e ← puts DRM_ELD_MONITOR_NAME_STRING name (eld c);
      let mnl := length name in
      rev ← cea_revision cea;
      e ← put DRM_ELD_CEA_EDID_VER_MNL (Z.shiftl rev DRM_ELD_CEA_EDID_VER_SHIFT) e;
      e ← put_or DRM_ELD_CEA_EDID_VER_MNL (Z.of_nat mnl) e;
      e ← put DRM_ELD_VER DRM_ELD_VER_CEA861D e;
      ids ← bytes_at 8 4 raw;
      e ← puts DRM_ELD_MANUFACTURER_NAME0 ids e;
      r ← (if 3 <=? rev then
             o ← cea_db_offsets cea;
             for_each_cea_db cea (default (0, 0)%nat o) (eld_block cea mnl) (set_eld e c, 0%nat)
           else Some (set_eld e c, 0%nat));
      let '(c, total_sad_count) := (r : drm_av * nat) in
      e ← put_or DRM_ELD_SAD_COUNT_CONN_TYPE (Z.shiftl (Z.of_nat total_sad_count) DRM_ELD_SAD_COUNT_SHIFT) (eld c);
      e ← put_or DRM_ELD_SAD_COUNT_CONN_TYPE
            (if (connector_type =? DRM_MODE_CONNECTOR_DisplayPort) || (connector_type =? DRM_MODE_CONNECTOR_eDP)
             then DRM_ELD_CONN_TYPE_DP else DRM_ELD_CONN_TYPE_HDMI) e;
      n ← drm_eld_calc_baseline_block_size e;
      e ← put DRM_ELD_BASELINE_ELD_LEN ((n + 4 - 1) / 4) e;
      Some (set_eld e c)
    end
  end.

(** [interlaced]: [DRM_MODE_FLAG_INTERLACE] is set in the mode. *)
Definition drm_av_sync_delay (c : drm_av) (interlaced : bool) : Z :=
  if negb (latency_present0 c) then 0
  else
    let i := interlaced && latency_present1 c in
    let a := if i then audio_latency1 c else audio_latency0 c in
    let v := if i then video_latency1 c else video_latency0 c in
    if (a =? 255) || (v =? 255) then 0
    else
      let a := if negb (a =? 0) then Z.min (2 * (a - 1)) 500 else a in
      let v := if negb (v =? 0) then Z.min (2 * (v - 1)) 500 else v in
      Z.max (v - a) 0.

(** ** Display information *)

Record edid_quirk := { vendor : list Z; product_id : Z; quirks : Z }.

Definition quirk (v : string) (id q : Z) : edid_quirk :=
  {| vendor := map (fun a => Z.of_N (N_of_ascii a)) (String.list_ascii_of_string v); product_id := id; quirks := q |}.

Definition edid_quirk_list : list edid_quirk := [
  quirk "ACR" 44358 EDID_QUIRK_PREFER_LARGE_60;
  quirk "API" 0x7602 EDID_QUIRK_PREFER_LARGE_60;
  quirk "ACR" 2423 EDID_QUIRK_FIRST_DETAILED_PREFERRED;
  quirk "AEO" 0 EDID_QUIRK_FORCE_6BPC;
  quirk "CPT" 0x17df EDID_QUIRK_FORCE_6BPC;
  quirk "MAX" 1516 EDID_QUIRK_PREFER_LARGE_60;
  quirk "MAX" 0x77e EDID_QUIRK_PREFER_LARGE_60;
  quirk "EPI" 59264 EDID_QUIRK_135_CLOCK_TOO_HIGH;
  quirk "EPI" 8232 EDID_QUIRK_PREFER_LARGE_60;
  quirk "FCM" 13600 (Z.lor EDID_QUIRK_PREFER_LARGE_75 EDID_QUIRK_DETAILED_IN_CM);
  quirk "LGD" 764 EDID_QUIRK_FORCE_10BPC;
  quirk "LPL" 0 EDID_QUIRK_DETAILED_USE_MAXIMUM_SIZE;
  quirk "LPL" 0x2a00 EDID_QUIRK_DETAILED_USE_MAXIMUM_SIZE;
  quirk "PHL" 57364 EDID_QUIRK_FIRST_DETAILED_PREFERRED;
  quirk "PTS" 765 EDID_QUIRK_FIRST_DETAILED_PREFERRED;
  quirk "SAM" 541 EDID_QUIRK_DETAILED_SYNC_PP;
  quirk "SAM" 596 EDID_QUIRK_PREFER_LARGE_60;
  quirk "SAM" 638 EDID_QUIRK_PREFER_LARGE_60;
  quirk "SNY" 0x2541 EDID_QUIRK_FORCE_12BPC;
  quirk "VSC" 5020 EDID_QUIRK_FORCE_REDUCED_BLANKING;
  quirk "MED" 0x7b8 EDID_QUIRK_PREFER_LARGE_75;
  quirk "SEC" 0xd033 EDID_QUIRK_FORCE_8BPC;
  quirk "ETR" 13896 EDID_QUIRK_FORCE_8BPC;
  quirk "HVR" 0xaa01 EDID_QUIRK_NON_DESKTOP;
  quirk "OVR" 0x0001 EDID_QUIRK_NON_DESKTOP;
  quirk "OVR" 0x0003 EDID_QUIRK_NON_DESKTOP;
  quirk "OVR" 0x0004 EDID_QUIRK_NON_DESKTOP;
  quirk "ACR" 0x7fce EDID_QUIRK_NON_DESKTOP;
  quirk "HPN" 0x3515 EDID_QUIRK_NON_DESKTOP;
  quirk "LEN" 0x0408 EDID_QUIRK_NON_DESKTOP;
  quirk "LEN" 0xb800 EDID_QUIRK_NON_DESKTOP;
  quirk "FUJ" 0x1970 EDID_QUIRK_NON_DESKTOP;
  quirk "DEL" 0x7fce EDID_QUIRK_NON_DESKTOP;
  quirk "SEC" 0x144a EDID_QUIRK_NON_DESKTOP;
  quirk "AUS" 0xc102 EDID_QUIRK_NON_DESKTOP;
  quirk "SNY" 0x0704 EDID_QUIRK_NON_DESKTOP].

Definition edid_vendor (edid : list Z) (vendor : list Z) : option bool :=
  m0 ← edid !! 8%nat; m1 ← edid !! 9%nat;
  Some (bool_decide ([Z.shiftr (Z.land m0 0x7c) 2 + 64;
                      Z.lor (Z.shiftl (Z.land m0 0x3) 3) (Z.shiftr (Z.land m1 0xe0) 5) + 64;
                      Z.land m1 0x1f + 64] = vendor)).

Definition EDID_PRODUCT_ID (edid : list Z) : option Z :=
  p0 ← edid !! 10%nat; p1 ← edid !! 11%nat; Some (Z.lor p0 (Z.shiftl p1 8)).

Fixpoint find_quirk (edid : list Z) (l : list edid_quirk) : option Z :=
  match l with
  | [] => Some 0
  | q :: l' =>
    v ← edid_vendor edid (vendor q);
    id ← EDID_PRODUCT_ID edid;
    if v && (id =? product_id q) then Some (quirks q) else find_quirk edid l'
  end.

Definition edid_get_quirks (edid : list Z) : option Z := find_quirk edid edid_quirk_list.

(** [struct drm_display_info] and [struct drm_hdmi_info], the fields that EDIDs set. *)
Record drm_display_info := {
  width_mm : Z; height_mm : Z; bpc : Z; color_formats : Z; cea_rev : Z; max_tmds_clock : Z;
  dvi_dual : bool; has_hdmi_infoframe : bool; edid_hdmi_dc_modes : Z;
  scdc_supported : bool; read_request : bool; scrambling_supported : bool; low_rates : bool;
  y420_dc_modes : Z; y420_cmdb_map : Z; non_desktop : bool
}.

Definition drm_reset_display_info (info : drm_display_info) : drm_display_info :=
  {| width_mm := 0; height_mm := 0; bpc := 0; color_formats := 0; cea_rev := 0; max_tmds_clock := 0;
     dvi_dual := false; has_hdmi_infoframe := false; edid_hdmi_dc_modes := edid_hdmi_dc_modes info;
     scdc_supported := false; read_request := false; scrambling_supported := false; low_rates := false;
     y420_dc_modes := 0; y420_cmdb_map := 0; non_desktop := false |}.

(** Assignments to single fields. *)
Definition set_width_mm (v : Z) (i : drm_display_info) : drm_display_info :=
  Build_drm_display_info v (height_mm i) (bpc i) (color_formats i) (cea_rev i) (max_tmds_clock i) (dvi_dual i) (has_hdmi_infoframe i)
    (edid_hdmi_dc_modes i) (scdc_supported i) (read_request i) (scrambling_supported i) (low_rates i) (y420_dc_modes i) (y420_cmdb_map i) (non_desktop i).
Definition set_height_mm (v : Z) (i : drm_display_info) : drm_display_info :=
  Build_drm_display_info (width_mm i) v (bpc i) (color_formats i) (cea_rev i) (max_tmds_clock i) (dvi_dual i) (has_hdmi_infoframe i) (edid_hdmi_dc_modes i)
    (scdc_supported i) (read_request i) (scrambling_supported i) (low_rates i) (y420_dc_modes i) (y420_cmdb_map i) (non_desktop i).
Definition set_bpc (v : Z) (i : drm_display_info) : drm_display_info :=
  Build_drm_display_info (width_mm i) (height_mm i) v (color_formats i) (cea_rev i) (max_tmds_clock i) (dvi_dual i) (has_hdmi_infoframe i) (edid_hdmi_dc_modes i)
    (scdc_supported i) (read_request i) (scrambling_supported i) (low_rates i) (y420_dc_modes i) (y420_cmdb_map i) (non_desktop i).
Definition set_color_formats (v : Z) (i : drm_display_info) : drm_display_info :=
  Build_drm_display_info (width_mm i) (height_mm i) (bpc i) v (cea_rev i) (max_tmds_clock i) (dvi_dual i) (has_hdmi_infoframe i) (edid_hdmi_dc_modes i)
    (scdc_supported i) (read_request i) (scrambling_supported i) (low_rates i) (y420_dc_modes i) (y420_cmdb_map i) (non_desktop i).
Definition set_cea_rev (v : Z) (i : drm_display_info) : drm_display_info :=
  Build_drm_display_info (width_mm i) (height_mm i) (bpc i) (color_formats i) v (max_tmds_clock i) (dvi_dual i) (has_hdmi_infoframe i) (edid_hdmi_dc_modes i)
    (scdc_supported i) (read_request i) (scrambling_supported i) (low_rates i) (y420_dc_modes i) (y420_cmdb_map i) (non_desktop i).
Definition set_max_tmds_clock (v : Z) (i : drm_display_info) : drm_display_info :=
  Build_drm_display_info (width_mm i) (height_mm i) (bpc i) (color_formats i) (cea_rev i) v (dvi_dual i) (has_hdmi_infoframe i) (edid_hdmi_dc_modes i)
    (scdc_supported i) (read_request i) (scrambling_supported i) (low_rates i) (y420_dc_modes i) (y420_cmdb_map i) (non_desktop i).
Definition set_dvi_dual (v : bool) (i : drm_display_info) : drm_display_info :=
  Build_drm_display_info (width_mm i) (height_mm i) (bpc i) (color_formats i) (cea_rev i) (max_tmds_clock i) v (has_hdmi_infoframe i) (edid_hdmi_dc_modes i)
    (scdc_supported i) (read_request i) (scrambling_supported i) (low_rates i) (y420_dc_modes i) (y420_cmdb_map i) (non_desktop i).
Definition set_has_hdmi_infoframe (v : bool) (i : drm_display_info) : drm_display_info :=
  Build_drm_display_info (width_mm i) (height_mm i) (bpc i) (color_formats i) (cea_rev i) (max_tmds_clock i) (dvi_dual i) v (edid_hdmi_dc_modes i)
    (scdc_supported i) (read_request i) (scrambling_supported i) (low_rates i) (y420_dc_modes i) (y420_cmdb_map i) (non_desktop i).
Definition set_edid_hdmi_dc_modes (v : Z) (i : drm_display_info) : drm_display_info :=
  Build_drm_display_info (width_mm i) (height_mm i) (bpc i) (color_formats i) (cea_rev i) (max_tmds_clock i) (dvi_dual i) (has_hdmi_infoframe i) v
    (scdc_supported i) (read_request i) (scrambling_supported i) (low_rates i) (y420_dc_modes i) (y420_cmdb_map i) (non_desktop i).
Definition set_scdc_supported (v : bool) (i : drm_display_info) : drm_display_info :=
  Build_drm_display_info (width_mm i) (height_mm i) (bpc i) (color_formats i) (cea_rev i) (max_tmds_clock i) (dvi_dual i) (has_hdmi_infoframe i)
    (edid_hdmi_dc_modes i) v (read_request i) (scrambling_supported i) (low_rates i) (y420_dc_modes i) (y420_cmdb_map i) (non_desktop i).
Definition set_read_request (v : bool) (i : drm_display_info) : drm_display_info :=
  Build_drm_display_info (width_mm i) (height_mm i) (bpc i) (color_formats i) (cea_rev i) (max_tmds_clock i) (dvi_dual i) (has_hdmi_infoframe i)
    (edid_hdmi_dc_modes i) (scdc_supported i) v (scrambling_supported i) (low_rates i) (y420_dc_modes i) (y420_cmdb_map i) (non_desktop i).
Definition set_scrambling_supported (v : bool) (i : drm_display_info) : drm_display_info :=
  Build_drm_display_info (width_mm i) (height_mm i) (bpc i) (color_formats i) (cea_rev i) (max_tmds_clock i) (dvi_dual i) (has_hdmi_infoframe i)
    (edid_hdmi_dc_modes i) (scdc_supported i) (read_request i) v (low_rates i) (y420_dc_modes i) (y420_cmdb_map i) (non_desktop i).
Definition set_low_rates (v : bool) (i : drm_display_info) : drm_display_info :=
  Build_drm_display_info (width_mm i) (height_mm i) (bpc i) (color_formats i) (cea_rev i) (max_tmds_clock i) (dvi_dual i) (has_hdmi_infoframe i)
    (edid_hdmi_dc_modes i) (scdc_supported i) (read_request i) (scrambling_supported i) v (y420_dc_modes i) (y420_cmdb_map i) (non_desktop i).
Definition set_y420_dc_modes (v : Z) (i : drm_display_info) : drm_display_info :=
  Build_drm_display_info (width_mm i) (height_mm i) (bpc i) (color_formats i) (cea_rev i) (max_tmds_clock i) (dvi_dual i) (has_hdmi_infoframe i)
    (edid_hdmi_dc_modes i) (scdc_supported i) (read_request i) (scrambling_supported i) (low_rates i) v (y420_cmdb_map i) (non_desktop i).
Definition set_y420_cmdb_map (v : Z) (i : drm_display_info) : drm_display_info :=
  Build_drm_display_info (width_mm i) (height_mm i) (bpc i) (color_formats i) (cea_rev i) (max_tmds_clock i) (dvi_dual i) (has_hdmi_infoframe i)
    (edid_hdmi_dc_modes i) (scdc_supported i) (read_request i) (scrambling_supported i) (low_rates i) (y420_dc_modes i) v (non_desktop i).
Definition set_non_desktop (v : bool) (i : drm_display_info) : drm_display_info :=
  Build_drm_display_info (width_mm i) (height_mm i) (bpc i) (color_formats i) (cea_rev i) (max_tmds_clock i) (dvi_dual i) (has_hdmi_infoframe i)
    (edid_hdmi_dc_modes i) (scdc_supported i) (read_request i) (scrambling_supported i) (low_rates i) (y420_dc_modes i) (y420_cmdb_map i) v.

Definition DRM_COLOR_FORMAT_RGB444 : Z := Z.shiftl 1 0.
Definition DRM_COLOR_FORMAT_YCRCB444 : Z := Z.shiftl 1 1.
Definition DRM_COLOR_FORMAT_YCRCB422 : Z := Z.shiftl 1 2.
Definition DRM_COLOR_FORMAT_YCRCB420 : Z := Z.shiftl 1 3.
Definition DRM_EDID_HDMI_DC_48 : Z := Z.shiftl 1 6.
Definition DRM_EDID_HDMI_DC_36 : Z := Z.shiftl 1 5.
Definition DRM_EDID_HDMI_DC_30 : Z := Z.shiftl 1 4.
Definition DRM_EDID_HDMI_DC_Y444 : Z := Z.shiftl 1 3.
Definition DRM_EDID_YCBCR420_DC_MASK : Z := 0x70.

(** [x & mask] as a condition *)
Definition has (x mask : Z) : bool := negb (Z.land x mask =? 0).

Definition add_color (c : Z) (info : drm_display_info) : drm_display_info :=
  set_color_formats (Z.lor (color_formats info) c) info.

(** The bytes of the map, from byte [count] on. *)
Fixpoint read_map (n : nat) (cea : list Z) (p count : nat) (map : Z) : option Z :=
  match n with
  | O => Some map
  | S n' => b ← cea !! (p + count)%nat; read_map n' cea p (S count) (Z.lor map (Z.shiftl b (8 * Z.of_nat count)))
  end.

Definition drm_parse_y420cmdb_bitmap (cea : list Z) (db : nat) (info : drm_display_info) : option drm_display_info :=
  len ← cea_db_payload_len cea db;
  let map_len := u8 (len - 1) in
  if map_len =? 0 then Some (add_color DRM_COLOR_FORMAT_YCRCB420 (set_y420_cmdb_map (2 ^ 64 - 1) info))
  else
    let map_len := if 8 <? map_len then 8 else map_len in
    map ← read_map (Z.to_nat map_len) cea (db + 2) 0 0;
    let info := if negb (map =? 0) then add_color DRM_COLOR_FORMAT_YCRCB420 info else info in
    Some (set_y420_cmdb_map map info).

Definition drm_parse_ycbcr420_deep_color_info (cea : list Z) (db : nat) (info : drm_display_info) : option drm_display_info :=
  b7 ← cea !! (db + 7)%nat;
  Some (set_y420_dc_modes (Z.lor (y420_dc_modes info) (Z.land b7 DRM_EDID_YCBCR420_DC_MASK)) info).

Definition drm_parse_hdmi_forum_vsdb (cea : list Z) (hf_vsdb : nat) (info : drm_display_info) : option drm_display_info :=
  let info := set_has_hdmi_infoframe true info in
  b6 ← cea !! (hf_vsdb + 6)%nat;
  let info :=
    if has b6 0x80 then
      let info := set_scdc_supported true info in
      if has b6 0x40 then set_read_request true info else info
    else info in
  b5 ← cea !! (hf_vsdb + 5)%nat;
  let info :=
    if negb (b5 =? 0) then
      let max := b5 * 5000 in
      let info := if 340000 <? max then set_max_tmds_clock max info else info in
      if scdc_supported info then
        let info := set_scrambling_supported true info in
        if has b6 0x8 then set_low_rates true info else info
      else info
    else info in
  drm_parse_ycbcr420_deep_color_info cea hf_vsdb info.

Definition add_dc (m : Z) (info : drm_display_info) : drm_display_info :=
  set_edid_hdmi_dc_modes (Z.lor (edid_hdmi_dc_modes info) m) info.

Definition drm_parse_hdmi_deep_color_info (cea : list Z) (hdmi : nat) (info : drm_display_info) : option drm_display_info :=
  let info := set_bpc 8 info in
  len ← cea_db_payload_len cea hdmi;
  if len <? 6 then Some info
  else
    b6 ← cea !! (hdmi + 6)%nat;
    let dc_bpc := 0 in
    let '(dc_bpc, info) := if has b6 DRM_EDID_HDMI_DC_30 then (10, add_dc DRM_EDID_HDMI_DC_30 info) else (dc_bpc, info) in
    let '(dc_bpc, info) := if has b6 DRM_EDID_HDMI_DC_36 then (12, add_dc DRM_EDID_HDMI_DC_36 info) else (dc_bpc, info) in
    let '(dc_bpc, info) := if has b6 DRM_EDID_HDMI_DC_48 then (16, add_dc DRM_EDID_HDMI_DC_48 info) else (dc_bpc, info) in
    if dc_bpc =? 0 then Some info
    else
      let info := set_color_formats DRM_COLOR_FORMAT_RGB444 (set_bpc dc_bpc info) in
      Some (if has b6 DRM_EDID_HDMI_DC_Y444 then add_color DRM_COLOR_FORMAT_YCRCB444 info else info).

Definition drm_parse_hdmi_vsdb_video (cea : list Z) (db : nat) (info : drm_display_info) : option drm_display_info :=
  len ← cea_db_payload_len cea db;
  info ← (if 6 <=? len then b ← cea !! (db + 6)%nat; Some (set_dvi_dual (has b 1) info) else Some info);
  info ← (if 7 <=? len then b ← cea !! (db + 7)%nat; Some (set_max_tmds_clock (b * 5000) info) else Some info);
  drm_parse_hdmi_deep_color_info cea db info.

(** The body of the loop of [drm_parse_cea_ext]. *)
Definition parse_cea_block (cea : list Z) (db : nat) (info : drm_display_info) : option (bool * drm_display_info) :=
  h ← cea_db_is_hdmi_vsdb cea db;
  info ← (if (h : bool) then drm_parse_hdmi_vsdb_video cea db info else Some info);
  f ← cea_db_is_hdmi_forum_vsdb cea db;
  info ← (if (f : bool) then drm_parse_hdmi_forum_vsdb cea db info else Some info);
  y ← cea_db_is_y420cmdb cea db;
  info ← (if (y : bool) then drm_parse_y420cmdb_bitmap cea db info else Some info);
  Some (false, info).

Definition drm_parse_cea_ext (edid : list Z) (info : drm_display_info) : option drm_display_info :=
  ext ← drm_find_cea_extension (Some edid);
  match ext with
  | None => Some info
  | Some edid_ext =>
    rev ← edid_ext !! 1%nat;
    b3 ← edid_ext !! 3%nat;
    let info := set_color_formats DRM_COLOR_FORMAT_RGB444 (set_cea_rev rev info) in
    let info := if has b3 (Z.shiftl 1 5) then add_color DRM_COLOR_FORMAT_YCRCB444 info else info in
    let info := if has b3 (Z.shiftl 1 4) then add_color DRM_COLOR_FORMAT_YCRCB422 info else info in
    o ← cea_db_offsets edid_ext;
    match o with
    | None => Some info
    | Some range => for_each_cea_db edid_ext range (parse_cea_block edid_ext) info
    end
  end.

(** The colour depth of an EDID 1.4. *)
Definition digital_depth (input : Z) : Z :=
  let d := Z.land input (Z.shiftl 7 4) in
  if d =? Z.shiftl 1 4 then 6 else if d =? Z.shiftl 2 4 then 8 else if d =? Z.shiftl 3 4 then 10
  else if d =? Z.shiftl 4 4 then 12 else if d =? Z.shiftl 5 4 then 14 else if d =? Z.shiftl 6 4 then 16 else 0.

Definition drm_add_display_info (edid : list Z) (info : drm_display_info) : option (Z * drm_display_info) :=
  quirks ← edid_get_quirks edid;
  let info := drm_reset_display_info info in
  w ← edid !! 21%nat; h ← edid !! 22%nat;
  let info := set_non_desktop (has quirks EDID_QUIRK_NON_DESKTOP) (set_height_mm (h * 10) (set_width_mm (w * 10) info)) in
  revision ← edid !! 19%nat;
  input ← edid !! 20%nat;
  features ← edid !! 24%nat;
  if revision <? 3 then Some (quirks, info)
  else if negb (has input (Z.shiftl 1 7)) then Some (quirks, info)
  else
    info ← drm_parse_cea_ext edid info;
    let info := if (bpc info =? 0) && (revision <? 4) && has input 1 then set_bpc 8 info else info in
    if revision <? 4 then Some (quirks, info)
    else
      let info := add_color DRM_COLOR_FORMAT_RGB444 (set_bpc (digital_depth input) info) in
      let info := if has features (Z.shiftl 1 3) then add_color DRM_COLOR_FORMAT_YCRCB444 info else info in
      let info := if has features (Z.shiftl 2 3) then add_color DRM_COLOR_FORMAT_YCRCB422 info else info in
      Some (quirks, info).

(** ** The data blocks of an extension *)

(** The blocks in a range of bytes, as types and payloads: a block that does not fit ends the list. *)
Fixpoint data_blocks (fuel : nat) (bytes : list Z) : list (Z * list Z) :=
  match fuel, bytes with
  | S fuel', h :: rest =>
    let len := Z.to_nat (Z.land h 0x1f) in
    if (len <=? length rest)%nat then (Z.shiftr h 5, take len rest) :: data_blocks fuel' (drop len rest) else []
  | _, _ => []
  end.

(** The format of a block. *)
Definition encode_block (b : Z * list Z) : list Z := Z.lor (Z.shiftl b.1 5) (Z.of_nat (length b.2)) :: b.2.

Definition valid_block (b : Z * list Z) : Prop := 0 <= b.1 < 8 /\ (length b.2 < 32)%nat.

Lemma block_head tag len : 0 <= tag < 8 -> 0 <= len < 32 ->
  Z.land (Z.lor (Z.shiftl tag 5) len) 0x1f = len /\ Z.shiftr (Z.lor (Z.shiftl tag 5) len) 5 = tag.
Proof.
  intros Ht Hl.
  assert (below 8 (fun t => below 32 (fun l => (Z.land (Z.lor (Z.shiftl t 5) l) 0x1f =? l) &&
    (Z.shiftr (Z.lor (Z.shiftl t 5) l) 5 =? t))) = true) as H by eval_bits.
  apply below_spec with (x := tag) in H; [|lia]. apply below_spec with (x := len) in H; [|lia]. lia.
Qed.

(** The blocks of a range that was built from blocks are those blocks. *)
Lemma data_blocks_encode bs : Forall valid_block bs -> forall fuel, (length (concat (map encode_block bs)) <= fuel)%nat ->
  data_blocks fuel (concat (map encode_block bs)) = bs.
Proof.
  induction 1 as [|[tag p] bs [Ht Hp] Hbs IH]; intros fuel Hf; [by destruct fuel|].
  cbn [map concat] in *. unfold encode_block at 1 in Hf. rewrite length_app in Hf. cbn [length fst snd] in *.
  destruct fuel as [|fuel]; [lia|]. unfold encode_block at 1. cbn [data_blocks fst snd app].
  destruct (block_head tag (Z.of_nat (length p))) as [-> ->]; [done|lia|]. rewrite Nat2Z.id.
  rewrite (proj2 (Nat.leb_le _ _)) by (rewrite length_app; lia).
  rewrite take_app_length, drop_app_length, IH by lia. done.
Qed.

(** More fuel than bytes changes nothing. *)
Lemma data_blocks_fuel k : forall n m bytes, (length bytes <= k)%nat -> (k <= n)%nat -> (k <= m)%nat -> data_blocks n bytes = data_blocks m bytes.
Proof.
  induction k as [|k IH]; intros n m [|h rest] Hk Hn Hm; simpl in *; try lia; [by destruct n, m..|].
  destruct n as [|n], m as [|m]; [lia..|]. cbn [data_blocks]. destruct (_ <=? _)%nat; [|done].
  f_equal. apply IH; [rewrite length_drop; lia|lia|lia].
Qed.

Lemma data_blocks_u8 fuel : forall bytes, Forall is_u8 bytes -> Forall (fun b => Forall is_u8 b.2) (data_blocks fuel bytes).
Proof.
  induction fuel as [|fuel IH]; intros [|h rest] Hu; [done..|]. cbn [data_blocks]. inversion_clear Hu as [|? ? Hh Hr].
  destruct (_ <=? _)%nat; [|done]. constructor; [by apply Forall_take|by apply IH, Forall_drop].
Qed.

(** A loop over blocks that may be left early. *)
Fixpoint run_blocks {A} (f : Z * list Z -> A -> bool * A) (bs : list (Z * list Z)) (s : A) : A :=
  match bs with
  | [] => s
  | b :: bs' => let r := f b s in if r.1 then r.2 else run_blocks f bs' r.2
  end.

(** The block [b] at place [i] of an extension. *)
Record block_at (cea : list Z) (i : nat) (b : Z * list Z) : Prop := {
  ba_tag : cea_db_tag cea i = Some b.1;
  ba_len : cea_db_payload_len cea i = Some (Z.of_nat (length b.2));
  ba_short : (length b.2 < 32)%nat;
  ba_bytes : forall k, (k < length b.2)%nat -> cea !! (i + 1 + k)%nat = b.2 !! k;
  ba_u8 : Forall is_u8 b.2
}.

Lemma land31 x : is_u8 x -> 0 <= Z.land x 0x1f < 32.
Proof.
  intros Hx. assert (below 256 (fun x => (0 <=? Z.land x 0x1f) && (Z.land x 0x1f <? 32)) = true) as H by eval_bits.
  apply below_spec with (x := x) in H; [lia|]. unfold is_u8 in Hx. lia.
Qed.

Definition cea_ok (cea : list Z) : Prop := (128 <= length cea)%nat /\ Forall is_u8 cea.

(** A byte whose payload ends before the end of the range starts a block. *)
Lemma block_here cea i end_ h n : cea_ok cea -> cea !! i = Some h -> (end_ <= 127)%nat -> (i + Z.to_nat (Z.land h 0x1f) < end_)%nat ->
  (end_ - i = S n)%nat -> block_at cea i (Z.shiftr h 5, take (Z.to_nat (Z.land h 0x1f)) (take n (drop (S i) cea))).
Proof.
  intros [Hlen Hu] Hh He Hin Hn. pose proof (proj1 (Forall_lookup _ _) Hu _ _ Hh) as Hhu. pose proof (land31 h Hhu) as Hl31.
  set (len := Z.to_nat (Z.land h 0x1f)) in *.
  assert (length (take len (take n (drop (S i) cea))) = len) as Elen by (rewrite !length_take, length_drop; lia). split; cbn [fst snd].
  - unfold cea_db_tag. by rewrite Hh.
  - unfold cea_db_payload_len. rewrite Hh, Elen. simpl. f_equal. lia.
  - rewrite Elen. lia.
  - rewrite Elen. intros k Hk. rewrite !lookup_take_lt, lookup_drop by lia. f_equal. lia.
  - apply Forall_take, Forall_take, Forall_drop. done.
Qed.

(** The blocks from place [i] on. *)
Definition blocks_from (cea : list Z) (i end_ : nat) : list (Z * list Z) :=
  data_blocks (end_ - i) (take (end_ - i) (drop i cea)).

Section Walk.
Context {A : Type} (cea : list Z) (end_ : nat) (Hcea : cea_ok cea) (Hend : (end_ <= 127)%nat).

(** The loop is at its end, or it is at a block and goes on behind it. *)
Lemma cea_db_loop_cases i :
  (blocks_from cea i end_ = [] /\ forall fuel (body : nat -> A -> option (bool * A)) s, cea_db_loop (S fuel) cea i end_ body s = Some s) \/
  (exists b i', block_at cea i b /\ (i < i')%nat /\ (i < end_)%nat /\ blocks_from cea i end_ = b :: blocks_from cea i' end_ /\
    forall fuel (body : nat -> A -> option (bool * A)) s, cea_db_loop (S fuel) cea i end_ body s =
      r ← body i s; if r.1 : bool then Some r.2 else cea_db_loop fuel cea i' end_ body r.2).
Proof.
  destruct Hcea as [Hlen Hu]. unfold blocks_from.
  destruct (Nat.ltb_spec i end_) as [Hi|Hi].
  2:{ left. replace (end_ - i)%nat with 0%nat by lia. split; [done|]. intros fuel body s. cbn [cea_db_loop].
      by destruct (Nat.ltb_spec i end_); [lia|]. }
  destruct (lookup_lt_is_Some_2 cea i) as [h Hh]; [lia|]. pose proof (land31 h (proj1 (Forall_lookup _ _) Hu _ _ Hh)) as Hl31.
  set (len := Z.to_nat (Z.land h 0x1f)). rewrite (drop_S _ _ _ Hh).
  destruct (end_ - i)%nat as [|n] eqn:En; [lia|]. cbn [take data_blocks]. fold len. rewrite length_take, length_drop.
  destruct (Nat.leb_spec len (n `min` (length cea - S i))) as [Hle|Hle]; [right|left].
  - exists (Z.shiftr h 5, take len (take n (drop (S i) cea))), (i + (len + 1))%nat.
    pose proof (block_here cea i end_ h n Hcea Hh ltac:(lia) ltac:(lia) ltac:(lia)) as Hb. fold len in Hb.
    do 3 (split; [done||lia|]). split.
    + f_equal. replace (drop len (take n (drop (S i) cea))) with (take (end_ - (i + (len + 1))) (drop (i + (len + 1)) cea)).
      2:{ replace n with (len + (end_ - (i + (len + 1))))%nat by lia. rewrite <- take_drop_commute, drop_drop. do 2 f_equal. lia. }
      eapply data_blocks_fuel; [reflexivity|..]; rewrite length_take; lia.
    + intros fuel body s. cbn [cea_db_loop]. unfold cea_db_payload_len. rewrite Hh, !bind_some. fold len.
      destruct (Nat.ltb_spec i end_), (Nat.ltb_spec (i + len) end_); [|lia..]. by destruct (body i s) as [[stop s']|].
  - split; [done|]. intros fuel body s. cbn [cea_db_loop]. unfold cea_db_payload_len. rewrite Hh, !bind_some. fold len.
    by destruct (Nat.ltb_spec i end_), (Nat.ltb_spec (i + len) end_); [lia|..].
Qed.

(** A loop that runs over all blocks: an invariant of the blocks so far and of the variables. *)
Lemma cea_db_loop_history (Inv : list (Z * list Z) -> A -> Prop) body :
  (forall i b l s, block_at cea i b -> Inv l s -> exists s', body i s = Some (false, s') /\ Inv (l ++ [b]) s') ->
  forall fuel i l s, (end_ - i < fuel)%nat -> Inv l s ->
  exists s', cea_db_loop fuel cea i end_ body s = Some s' /\ Inv (l ++ blocks_from cea i end_) s'.
Proof.
  intros Hbody. induction fuel as [|fuel IH]; intros i l s Hf HI; [lia|].
  destruct (cea_db_loop_cases i) as [[-> ->]|(b & i' & Hb & Hi & Hie & -> & ->)]; [exists s; by rewrite app_nil_r|].
  destruct (Hbody i b l s Hb HI) as (s' & -> & HI'). rewrite bind_some. cbn [fst snd].
  destruct (IH i' (l ++ [b]) s') as (s'' & -> & HI''); [lia|done|]. exists s''. by rewrite <- app_assoc in HI''.
Qed.

(** A loop whose body works on every block comes to an end. *)
Lemma cea_db_loop_total (body : nat -> A -> option (bool * A)) : (forall i b s, block_at cea i b -> exists r, body i s = Some r) ->
  forall fuel i s, (end_ - i < fuel)%nat -> exists r, cea_db_loop fuel cea i end_ body s = Some r.
Proof.
  intros Hbody. induction fuel as [|fuel IH]; intros i s Hf; [lia|].
  destruct (cea_db_loop_cases i) as [[_ ->]|(b & i' & Hb & Hi & Hie & _ & ->)]; [by eexists|].
  destruct (Hbody i b s Hb) as [[[] s'] ->]; rewrite bind_some; cbn [fst snd]; [by eexists|]. apply IH. lia.
Qed.

(** The variables of the loop stand for an abstract state, which [f] changes block by block. *)
Lemma cea_db_loop_blocks {B} (conc : B -> A) (Inv : B -> Prop) body (f : Z * list Z -> B -> bool * B) :
  (forall i b s, block_at cea i b -> Inv s -> body i (conc s) = Some ((f b s).1, conc (f b s).2) /\ Inv (f b s).2) ->
  forall fuel i s, (end_ - i < fuel)%nat -> Inv s ->
  cea_db_loop fuel cea i end_ body (conc s) = Some (conc (run_blocks f (blocks_from cea i end_) s)) /\
  Inv (run_blocks f (blocks_from cea i end_) s).
Proof.
  intros Hbody. induction fuel as [|fuel IH]; intros i s Hf HI; [lia|].
  destruct (cea_db_loop_cases i) as [[-> ->]|(b & i' & Hb & Hi & Hie & -> & ->)]; [done|].
  destruct (Hbody i b s Hb HI) as [-> HI']. rewrite bind_some. cbn [run_blocks fst snd].
  destruct (f b s) as [[] s']; [done|]. apply IH; [lia|done].
Qed.

End Walk.

(** ** Extensions of an EDID *)

(** An EDID with as many blocks as it announces. *)
Definition edid_blocks (edid : list Z) : Prop :=
  Forall is_u8 edid /\ exists n, edid !! 0x7e%nat = Some n /\ length edid = ((Z.to_nat n + 1) * EDID_LENGTH)%nat.

Lemma find_extension_ok edid id : Forall is_u8 edid -> forall k i, ((i + k + 1) * EDID_LENGTH <= length edid)%nat ->
  exists r, find_extension k i edid id = Some r /\ forall ext, r = Some ext -> cea_ok ext /\ ext !! 0%nat = Some id.
Proof.
  intros Hu. induction k as [|k IH]; intros i Hl; cbn [find_extension]; [by eexists|]. unfold EDID_LENGTH in *.
  assert (128 <= length (drop (128 * (i + 1)) edid))%nat as Hd by (rewrite length_drop; lia).
  destruct (lookup_lt_is_Some_2 (drop (128 * (i + 1)) edid) 0) as [b Hb]; [lia|]. rewrite Hb, bind_some.
  destruct (Z.eqb_spec b id) as [->|]; [|apply IH; lia].
  eexists. split; [done|]. intros ext [= <-]. split; [split; [done|by apply Forall_drop]|done].
Qed.

Lemma find_cea_ok edid : edid_blocks edid ->
  exists r, drm_find_cea_extension (Some edid) = Some r /\ forall ext, r = Some ext -> cea_ok ext /\ ext !! 0%nat = Some CEA_EXT.
Proof.
  intros (Hu & n & Hn & Hl). unfold drm_find_cea_extension, drm_find_edid_extension. rewrite Hn, bind_some.
  destruct (n =? 0); [by eexists|]. apply find_extension_ok; [done|]. unfold EDID_LENGTH in *. lia.
Qed.

Lemma cea_offsets_ok cea : cea_ok cea -> exists r, cea_db_offsets cea = Some r /\
  forall s e, r = Some (s, e) -> s = 4%nat /\ (4 <= e <= 127)%nat.
Proof.
  intros [Hl Hu]. unfold cea_db_offsets. destruct (lookup_lt_is_Some_2 cea 2) as [e He]; [lia|]. rewrite He, bind_some.
  eexists. split; [done|]. intros s e'. repeat case_match; intros [= <- <-]; split; lia.
Qed.

(** The data blocks of an extension. *)
Definition blocks_of (cea : list Z) : list (Z * list Z) :=
  match cea_db_offsets cea with
  | Some (Some (s, e)) => blocks_from cea s e
  | _ => []
  end.

Lemma for_each_blocks {A B} (conc : B -> A) (Inv : B -> Prop) cea range body f (s : B) :
  cea_ok cea -> cea_db_offsets cea = Some (Some range) ->
  (forall i b s, block_at cea i b -> Inv s -> body i (conc s) = Some ((f b s).1, conc (f b s).2) /\ Inv (f b s).2) -> Inv s ->
  for_each_cea_db cea range body (conc s) = Some (conc (run_blocks f (blocks_of cea) s)) /\ Inv (run_blocks f (blocks_of cea) s).
Proof.
  intros Hc Ho Hb HI. destruct range as [st e]. destruct (cea_offsets_ok cea Hc) as (r & Er & Hr). rewrite Ho in Er. simplify_eq.
  destruct (Hr st e eq_refl) as [-> He]. unfold for_each_cea_db, blocks_of. rewrite Ho. cbn [fst snd].
  apply (cea_db_loop_blocks cea e Hc ltac:(lia) conc Inv body f Hb); [lia|done].
Qed.

Lemma for_each_history {A} cea range (Inv : list (Z * list Z) -> A -> Prop) body s :
  cea_ok cea -> cea_db_offsets cea = Some (Some range) ->
  (forall i b l s, block_at cea i b -> Inv l s -> exists s', body i s = Some (false, s') /\ Inv (l ++ [b]) s') -> Inv [] s ->
  exists s', for_each_cea_db cea range body s = Some s' /\ Inv (blocks_of cea) s'.
Proof.
  intros Hc Ho Hb HI. destruct range as [st e]. destruct (cea_offsets_ok cea Hc) as (r & Er & Hr). rewrite Ho in Er. simplify_eq.
  destruct (Hr st e eq_refl) as [-> He]. unfold for_each_cea_db, blocks_of. rewrite Ho. cbn [fst snd].
  apply (cea_db_loop_history cea e Hc ltac:(lia) Inv body Hb 128 4 [] s); [lia|done].
Qed.

Lemma for_each_block {A} cea range body f (s : A) : cea_ok cea -> cea_db_offsets cea = Some (Some range) ->
  (forall i b s, block_at cea i b -> body i s = Some (f b s)) ->
  for_each_cea_db cea range body s = Some (run_blocks f (blocks_of cea) s).
Proof.
  intros Hc Ho Hb. apply (for_each_blocks (fun s => s) (fun _ => True)); [done..| |done].
  intros i b s' Hib _. rewrite (Hb i b s' Hib). split; [by destruct (f b s')|done].
Qed.

(** The blocks of an extension in the format. *)
Lemma blocks_of_format cea s e bs : cea_db_offsets cea = Some (Some (s, e)) -> Forall valid_block bs ->
  take (e - s) (drop s cea) = concat (map encode_block bs) -> blocks_of cea = bs.
Proof.
  intros Ho Hv E. unfold blocks_of, blocks_from. rewrite Ho, E. apply data_blocks_encode; [done|]. rewrite <- E, length_take. lia.
Qed.

Lemma blocks_of_u8 cea : cea_ok cea -> Forall (fun b => Forall is_u8 b.2) (blocks_of cea).
Proof.
  intros [_ Hu]. unfold blocks_of. destruct (cea_db_offsets cea) as [[[s e]|]|]; [|done..].
  unfold blocks_from. by apply data_blocks_u8, Forall_take, Forall_drop.
Qed.

(** Reading in a block. *)
Lemma ba_get cea i b k : block_at cea i b -> (k < length b.2)%nat -> cea !! (i + S k)%nat = b.2 !! k.
Proof. intros Hb Hk. rewrite <- (ba_bytes _ _ _ Hb k Hk). f_equal. lia. Qed.

Lemma ba_get1 cea i b k : block_at cea i b -> (k < length b.2)%nat ->
  exists x, cea !! (i + S k)%nat = Some x /\ b.2 !! k = Some x /\ is_u8 x.
Proof.
  intros Hb Hk. destruct (lookup_lt_is_Some_2 b.2 k Hk) as [x Hx]. exists x.
  rewrite (ba_get _ _ _ _ Hb Hk). split; [done|]. split; [done|]. exact (proj1 (Forall_lookup _ _) (ba_u8 _ _ _ Hb) _ _ Hx).
Qed.

Lemma block_bytes_prefix cea i b n : block_at cea i b -> (n <= length b.2)%nat -> bytes_at (i + 1)%nat n cea = Some (take n b.2).
Proof.
  intros Hb Hn. unfold bytes_at.
  assert (i + 1 + n <= length cea)%nat as Hl.
  { destruct n as [|n]; [|destruct (ba_get1 _ _ _ n Hb ltac:(lia)) as (x & Hx & _); apply lookup_lt_Some in Hx; lia].
    pose proof (ba_tag _ _ _ Hb) as Ht. unfold cea_db_tag in Ht. destruct (cea !! i) eqn:E; [|done]. apply lookup_lt_Some in E. lia. }
  rewrite (proj2 (Nat.leb_le _ _)) by done. f_equal. apply list_eq. intros k. destruct (Nat.lt_ge_cases k n) as [Hk|Hk].
  - rewrite !lookup_take_lt, lookup_drop by done. rewrite (ba_bytes _ _ _ Hb) by lia. done.
  - by rewrite !lookup_take_ge.
Qed.

Lemma block_bytes cea i b : block_at cea i b -> bytes_at (i + 1)%nat (Z.to_nat (Z.of_nat (length b.2))) cea = Some b.2.
Proof. intros Hb. rewrite Nat2Z.id, (block_bytes_prefix _ _ b) by done. by rewrite firstn_all. Qed.

(** ** Queries over the blocks *)

Lemma run_find {A} (sel : Z * list Z -> bool) (g : Z * list Z -> A) f bs : forall s,
  (forall b s, f b s = if sel b then (true, g b) else (false, s)) ->
  run_blocks f bs s = match find sel bs with Some b => g b | None => s end.
Proof.
  induction bs as [|b bs IH]; intros s Hf; [done|]. cbn [run_blocks find]. rewrite Hf.
  destruct (sel b); [done|]. cbn [fst snd]. by apply IH.
Qed.

Lemma oui_bytes b1 b2 b3 : is_u8 b1 -> is_u8 b2 -> is_u8 b3 ->
  Z.lor (Z.lor b1 (Z.shiftl b2 8)) (Z.shiftl b3 16) = b1 + 256 * b2 + 65536 * b3.
Proof. unfold is_u8. intros H1 H2 H3. rewrite (lor_shiftl b1), lor_shiftl by lia. lia. Qed.

(** The blocks that the functions look for. *)
Definition hdmi_block (b : Z * list Z) : bool :=
  (b.1 =? VENDOR_BLOCK) && (5 <=? length b.2)%nat && bool_decide (take 3 b.2 = [0x03; 0x0c; 0x00]).
Definition forum_block (b : Z * list Z) : bool :=
  (b.1 =? VENDOR_BLOCK) && (7 <=? length b.2)%nat && bool_decide (take 3 b.2 = [0xd8; 0x5d; 0xc4]).
Definition extended_block (e : Z) (b : Z * list Z) : bool := (b.1 =? USE_EXTENDED_TAG) && bool_decide (head b.2 = Some e).

Lemma vendor_bytes cea i b o1 o2 o3 : block_at cea i b -> (3 <= length b.2)%nat -> is_u8 o1 -> is_u8 o2 -> is_u8 o3 ->
  exists x1 x2 x3, cea !! (i + 1)%nat = Some x1 /\ cea !! (i + 2)%nat = Some x2 /\ cea !! (i + 3)%nat = Some x3 /\
    is_u8 x1 /\ is_u8 x2 /\ is_u8 x3 /\
    (x1 + 256 * x2 + 65536 * x3 =? o1 + 256 * o2 + 65536 * o3) = bool_decide (take 3 b.2 = [o1; o2; o3]).
Proof.
  intros Hb Hl U1 U2 U3.
  destruct (ba_get1 _ _ _ 0 Hb) as (x1 & R1 & E1 & V1); [lia|]. destruct (ba_get1 _ _ _ 1 Hb) as (x2 & R2 & E2 & V2); [lia|].
  destruct (ba_get1 _ _ _ 2 Hb) as (x3 & R3 & E3 & V3); [lia|]. exists x1, x2, x3. do 6 (split; [done|]).
  destruct (b.2) as [|y1 [|y2 [|y3 p]]]; simplify_eq/=. unfold is_u8 in *.
  apply Bool.eq_iff_eq_true. rewrite Z.eqb_eq, bool_decide_eq_true.
  split; [intros E; assert (x1 = o1 /\ x2 = o2 /\ x3 = o3) by lia; naive_solver|by intros [= -> -> ->]].
Qed.

Lemma hdmi_block_ok cea i b : block_at cea i b -> cea_db_is_hdmi_vsdb cea i = Some (hdmi_block b).
Proof.
  intros Hb. unfold cea_db_is_hdmi_vsdb, hdmi_block. rewrite (ba_tag _ _ _ Hb), bind_some.
  destruct (b.1 =? VENDOR_BLOCK); [|done]. cbn [negb andb]. rewrite (ba_len _ _ _ Hb), bind_some.
  destruct (Z.ltb_spec (Z.of_nat (length b.2)) 5), (Nat.leb_spec 5 (length b.2)); [lia|done| |lia].
  destruct (vendor_bytes cea i b 0x03 0x0c 0x00 Hb) as (x1 & x2 & x3 & -> & -> & -> & U1 & U2 & U3 & E); [lia|unfold is_u8; lia..|].
  rewrite !bind_some, oui_bytes by done. cbn [andb]. f_equal. exact E.
Qed.

Lemma forum_block_ok cea i b : block_at cea i b -> cea_db_is_hdmi_forum_vsdb cea i = Some (forum_block b).
Proof.
  intros Hb. unfold cea_db_is_hdmi_forum_vsdb, forum_block. rewrite (ba_tag _ _ _ Hb), bind_some.
  destruct (b.1 =? VENDOR_BLOCK); [|done]. cbn [negb andb]. rewrite (ba_len _ _ _ Hb), bind_some.
  destruct (Z.ltb_spec (Z.of_nat (length b.2)) 7), (Nat.leb_spec 7 (length b.2)); [lia|done| |lia].
  destruct (vendor_bytes cea i b 0xd8 0x5d 0xc4 Hb) as (x1 & x2 & x3 & -> & -> & -> & U1 & U2 & U3 & E); [lia|unfold is_u8; lia..|].
  rewrite !bind_some, (Z.lor_comm _ x1), (Z.lor_comm (Z.shiftl x3 16)), Z.lor_assoc, oui_bytes by done. cbn [andb]. f_equal. exact E.
Qed.

(** The test for a block with an extended tag. *)
Lemma extended_block_ok cea i b e : block_at cea i b ->
  (tag ← cea_db_tag cea i;
   if negb (tag =? USE_EXTENDED_TAG) then Some false
   else
     len ← cea_db_payload_len cea i;
     if len =? 0 then Some false else ext ← cea_db_extended_tag cea i; Some (ext =? e)) = Some (extended_block e b).
Proof.
  intros Hb. unfold extended_block. rewrite (ba_tag _ _ _ Hb), bind_some.
  destruct (b.1 =? USE_EXTENDED_TAG); [|done]. cbn [negb andb]. rewrite (ba_len _ _ _ Hb), bind_some.
  destruct (b.2) as [|x p] eqn:Ep; [done|]. destruct (Z.eqb_spec (Z.of_nat (length (x :: p))) 0) as [E|_]; [simpl in E; lia|].
  unfold cea_db_extended_tag. rewrite (ba_get cea i b 0 Hb), Ep by (rewrite Ep; simpl; lia). simpl. f_equal.
  apply Bool.eq_iff_eq_true. rewrite Z.eqb_eq, bool_decide_eq_true. naive_solver.
Qed.

Lemma y420cmdb_block_ok cea i b : block_at cea i b ->
  cea_db_is_y420cmdb cea i = Some (extended_block EXT_VIDEO_CAP_BLOCK_Y420CMDB b).
Proof. intros Hb. by apply extended_block_ok. Qed.

Lemma y420vdb_block_ok cea i b : block_at cea i b ->
  cea_db_is_y420vdb cea i = Some (extended_block EXT_VIDEO_DATA_BLOCK_420 b).
Proof. intros Hb. by apply extended_block_ok. Qed.

(** The audio formats of a payload. *)
Fixpoint sads_of (p : list Z) : list cea_sad :=
  match p with
  | a :: b :: c :: p' => {| format := a / 8 mod 16; channels := a mod 8; freq := b mod 128; byte2 := c |} :: sads_of p'
  | _ => []
  end.

Lemma sad_bits a b : is_u8 a -> is_u8 b ->
  Z.shiftr (Z.land a 0x78) 3 = a / 8 mod 16 /\ Z.land a 0x7 = a mod 8 /\ Z.land b 0x7f = b mod 128.
Proof.
  intros Ha Hb. unfold is_u8 in *.
  assert (below 256 (fun a => (Z.shiftr (Z.land a 0x78) 3 =? a / 8 mod 16) && (Z.land a 0x7 =? a mod 8) && (Z.land a 0x7f =? a mod 128)) = true)
    as H by eval_bits.
  pose proof (below_spec _ _ H a ltac:(lia)) as H1. pose proof (below_spec _ _ H b ltac:(lia)) as H2. lia.
Qed.

Lemma read_sads_ok cea n : forall i p, (n * 3 <= length p < n * 3 + 3)%nat -> Forall is_u8 p ->
  (forall k, (k < length p)%nat -> cea !! (i + k)%nat = p !! k) -> read_sads n cea i = Some (sads_of p).
Proof.
  induction n as [|n IH]; intros i p Hl Hu Hr; cbn [read_sads].
  - destruct p as [|a [|b [|c p]]]; simpl in *; [done..|lia].
  - destruct p as [|a [|b [|c p]]]; simpl in Hl; try lia.
    pose proof (Hr 0%nat ltac:(simpl; lia)) as R0. pose proof (Hr 1%nat ltac:(simpl; lia)) as R1. pose proof (Hr 2%nat ltac:(simpl; lia)) as R2.
    rewrite Nat.add_0_r in R0. rewrite R0, R1, R2. simpl. inversion_clear Hu as [|? ? Ua Hu1]. inversion_clear Hu1 as [|? ? Ub Hu2]. inversion_clear Hu2 as [|? ? Uc Hu3].
    rewrite (IH (i + 3)%nat p); [|lia|done|].
    + simpl. by destruct (sad_bits a b Ua Ub) as (-> & -> & ->).
    + intros k Hk. specialize (Hr (3 + k)%nat ltac:(simpl; lia)). replace (i + 3 + k)%nat with (i + (3 + k))%nat by lia. done.
Qed.

Lemma run_exists (sel : Z * list Z -> bool) f bs : (forall b, f b false = (sel b, sel b)) ->
  run_blocks f bs false = existsb sel bs.
Proof.
  intros Hf. induction bs as [|b bs IH]; [done|]. cbn [run_blocks existsb]. rewrite Hf. cbn [fst snd]. by destruct (sel b).
Qed.

Lemma bit6 b : is_u8 b -> negb (Z.land b (Z.shiftl 1 6) =? 0) = Z.testbit b 6.
Proof.
  intros Hb. assert (below 256 (fun b => Bool.eqb (negb (Z.land b (Z.shiftl 1 6) =? 0)) (Z.testbit b 6)) = true) as H by eval_bits.
  apply Bool.eqb_prop. apply (below_spec _ _ H). exact Hb.
Qed.

Definition quant_block (b : Z * list Z) : bool :=
  (b.1 =? USE_EXTENDED_TAG) && (length b.2 =? 2)%nat && bool_decide (head b.2 = Some 0).
Definition speaker_block (b : Z * list Z) : bool := (b.1 =? SPEAKER_BLOCK) && (length b.2 =? 3)%nat.

Section Queries.
Context (cea : list Z) (range : nat * nat) (Hc : cea_ok cea) (Ho : cea_db_offsets cea = Some (Some range)).

(** A search for a block: the body looks at one block and stops there with a result. *)
Lemma search_blocks {A} (sel : Z * list Z -> bool) (g : Z * list Z -> A) body s :
  (forall i b s, block_at cea i b -> body i s = Some (if sel b then (true, g b) else (false, s))) ->
  for_each_cea_db cea range body s = Some (match find sel (blocks_of cea) with Some b => g b | None => s end).
Proof.
  intros Hb. rewrite (for_each_block cea range body (fun b s => if sel b then (true, g b) else (false, s)) s) by done.
  f_equal. by apply run_find.
Qed.

Lemma hdmi_search : for_each_cea_db cea range (fun i found => b ← cea_db_is_hdmi_vsdb cea i; Some (b, b)) false
  = Some (existsb hdmi_block (blocks_of cea)).
Proof.
  rewrite (for_each_block cea range _ (fun b _ => (hdmi_block b, hdmi_block b)) false) by
    (first [done|intros i b s Hb; by rewrite (hdmi_block_ok _ _ _ Hb)]).
  f_equal. by apply run_exists.
Qed.

Lemma audio_search : for_each_cea_db cea range
    (fun i has_audio => tag ← cea_db_tag cea i; Some (if tag =? AUDIO_BLOCK then (true, true) else (false, has_audio))) false
  = Some (existsb (fun b => b.1 =? AUDIO_BLOCK) (blocks_of cea)).
Proof.
  rewrite (for_each_block cea range _ (fun b has_audio => if b.1 =? AUDIO_BLOCK then (true, true) else (false, has_audio)) false) by
    (first [done|intros i b s Hb; by rewrite (ba_tag _ _ _ Hb)]).
  f_equal. apply run_exists. intros b. by destruct (b.1 =? AUDIO_BLOCK).
Qed.

Lemma quant_search : for_each_cea_db cea range
    (fun i r =>
       tag ← cea_db_tag cea i;
       if negb (tag =? USE_EXTENDED_TAG) then Some (false, r)
       else
         len ← cea_db_payload_len cea i;
         if negb (len =? 2) then Some (false, r)
         else
           e ← cea_db_extended_tag cea i;
           if negb (e =? EXT_VIDEO_CAPABILITY_BLOCK) then Some (false, r)
           else b2 ← cea !! (i + 2)%nat; Some (true, negb (Z.land b2 (Z.shiftl 1 6) =? 0))) false
  = Some (match find quant_block (blocks_of cea) with Some b => Z.testbit (nth 1 b.2 0) 6 | None => false end).
Proof.
  apply search_blocks. intros i b s Hb. rewrite (ba_tag _ _ _ Hb), bind_some. unfold quant_block.
  destruct (b.1 =? USE_EXTENDED_TAG); [|done]. rewrite (ba_len _ _ _ Hb), bind_some. cbn [negb andb].
  destruct (Z.eqb_spec (Z.of_nat (length b.2)) 2), (Nat.eqb_spec (length b.2) 2) as [El|]; [|lia|lia|done]. cbn [negb andb].
  destruct (ba_get1 _ _ _ 0 Hb) as (x1 & R1 & E1 & U1); [lia|]. destruct (ba_get1 _ _ _ 1 Hb) as (x2 & R2 & E2 & U2); [lia|].
  unfold cea_db_extended_tag. rewrite R1, R2, !bind_some, bit6 by done.
  destruct (b.2) as [|y1 [|y2 p]]; simplify_eq/=. unfold EXT_VIDEO_CAPABILITY_BLOCK.
  destruct (Z.eqb_spec x1 0) as [->|]; [by rewrite bool_decide_true|rewrite bool_decide_false; [done|congruence]].
Qed.

Lemma sad_search : for_each_cea_db cea range
    (fun i r =>
       tag ← cea_db_tag cea i;
       if negb (tag =? AUDIO_BLOCK) then Some (false, r)
       else
         dbl ← cea_db_payload_len cea i;
         if negb true then Some (true, Err ENOMEM)
         else sads ← read_sads (Z.to_nat (dbl / 3)) cea (i + 1)%nat; Some (true, Ok sads)) (Ok [])
  = Some (match find (fun b => b.1 =? AUDIO_BLOCK) (blocks_of cea) with Some b => Ok (sads_of b.2) | None => Ok [] end).
Proof.
  apply (search_blocks (fun b => b.1 =? AUDIO_BLOCK) (fun b => Ok (sads_of b.2))).
  intros i b s Hb. rewrite (ba_tag _ _ _ Hb), bind_some.
  destruct (b.1 =? AUDIO_BLOCK); [|done]. rewrite (ba_len _ _ _ Hb), bind_some. cbn [negb].
  rewrite (read_sads_ok cea _ (i + 1) b.2); [done| |apply Hb|apply Hb].
  replace (Z.to_nat (Z.of_nat (length b.2) / 3)) with (length b.2 / 3)%nat by lia. lia.
Qed.

Lemma speaker_search : for_each_cea_db cea range
    (fun i r =>
       tag ← cea_db_tag cea i;
       if negb (tag =? SPEAKER_BLOCK) then Some (false, r)
       else
         dbl ← cea_db_payload_len cea i;
         if negb (dbl =? 3) then Some (false, r)
         else if negb true then Some (true, Err ENOMEM)
         else bs ← bytes_at (i + 1)%nat (Z.to_nat dbl) cea; Some (true, Ok bs)) (Ok [])
  = Some (match find speaker_block (blocks_of cea) with Some b => Ok b.2 | None => Ok [] end).
Proof.
  apply (search_blocks speaker_block (fun b => Ok b.2)). intros i b s Hb. rewrite (ba_tag _ _ _ Hb), bind_some. unfold speaker_block.
  destruct (b.1 =? SPEAKER_BLOCK); [|done]. rewrite (ba_len _ _ _ Hb), bind_some. cbn [negb andb].
  destruct (Z.eqb_spec (Z.of_nat (length b.2)) 3), (Nat.eqb_spec (length b.2) 3) as [El|]; [|lia|lia|done]. cbn [negb].
  by rewrite (block_bytes _ _ _ Hb), bind_some.
Qed.

End Queries.

(** The functions that search a CEA extension for audio formats, speakers, the HDMI
    identifier, audio support and the colour range option always return, read only inside the data blocks,
    and answer from the blocks of the extension: those of the format, if it is in the format. *)
Theorem cea_queries_read_blocks edid cea range :
  edid_blocks edid -> drm_find_cea_extension (Some edid) = Some (Some cea) -> cea_db_offsets cea = Some (Some range) ->
  drm_detect_hdmi_monitor (Some edid) = Some (existsb hdmi_block (blocks_of cea)) /\
  drm_detect_monitor_audio (Some edid) =
    Some (match cea !! 3%nat with Some b => Z.testbit b 6 | None => false end || existsb (fun b => b.1 =? AUDIO_BLOCK) (blocks_of cea)) /\
  drm_rgb_quant_range_selectable (Some edid) =
    Some (match find quant_block (blocks_of cea) with Some b => Z.testbit (nth 1 b.2 0) 6 | None => false end) /\
  (forall rev, cea_revision cea = Some rev -> 3 <= rev ->
   drm_edid_to_sad true (Some edid) =
     Some (match find (fun b => b.1 =? AUDIO_BLOCK) (blocks_of cea) with Some b => Ok (sads_of b.2) | None => Ok [] end) /\
   drm_edid_to_speaker_allocation true (Some edid) =
     Some (match find speaker_block (blocks_of cea) with Some b => Ok b.2 | None => Ok [] end)) /\
  (forall bs, Forall valid_block bs -> take (range.2 - range.1) (drop range.1 cea) = concat (map encode_block bs) -> blocks_of cea = bs).
Proof.
  intros He Hf Ho. destruct (find_cea_ok edid He) as (r & Er & Hr). rewrite Hf in Er. simplify_eq.
  destruct (Hr cea eq_refl) as [Hc _]. split; [|split; [|split; [|split]]].
  - unfold drm_detect_hdmi_monitor. rewrite Hf, bind_some, Ho, bind_some. by apply hdmi_search.
  - unfold drm_detect_monitor_audio. rewrite Hf, bind_some. destruct Hc as [Hl Hu].
    destruct (lookup_lt_is_Some_2 cea 3) as [b3 E3]; [lia|]. rewrite E3, !bind_some, bit6 by exact (proj1 (Forall_lookup _ _) Hu _ _ E3).
    destruct (Z.testbit b3 6); [done|]. rewrite Ho, bind_some. cbn [orb]. by apply audio_search.
  - unfold drm_rgb_quant_range_selectable. rewrite Hf, bind_some, Ho, bind_some. by apply quant_search.
  - intros rev Hrev H3. unfold drm_edid_to_sad, drm_edid_to_speaker_allocation. rewrite Hf, !bind_some, Hrev, !bind_some, Ho, !bind_some.
    destruct (Z.ltb_spec rev 3); [lia|]. split; [by apply sad_search|by apply speaker_search].
  - destruct range as [st e]. intros bs Hv E. exact (blocks_of_format _ _ _ _ Ho Hv E).
Qed.

(** ** The name of the monitor *)

Lemma until_newline_ok k : forall p, (k <= length p)%nat -> Forall is_u8 p ->
  exists r, until_newline k p = Some r /\ (length r <= k)%nat /\ Forall is_u8 r /\ Forall (fun c => c <> 0x0a) r /\
    take (length r) p = r /\ (length r = k \/ p !! length r = Some 0x0a).
Proof.
  induction k as [|k IH]; intros p Hl Hu; cbn [until_newline].
  - exists []. split; [done|]. split; [simpl; lia|]. do 3 (split; [done|]). by left.
  - destruct p as [|c p]; simpl in Hl; [lia|]. inversion_clear Hu as [|? ? Uc Hu']. destruct (Z.eqb_spec c 0x0a) as [->|Hc].
    + exists []. split; [done|]. split; [simpl; lia|]. do 3 (split; [done|]). by right.
    + destruct (IH p ltac:(lia) Hu') as (r & -> & Hr & Ur & Nr & Er & Hend). exists (c :: r). rewrite bind_some. split; [done|].
      split; [simpl; lia|]. split; [by constructor|]. split; [by constructor|]. cbn [length take lookup list_lookup]. split; [by rewrite Er|].
      destruct Hend as [->|Hend]; [by left|by right].
Qed.

Lemma name_found ts : forall d0, (forall d, d0 = Some d -> length d = 13%nat /\ Forall is_u8 d) ->
  Forall (fun t => length t.2 = 18%nat /\ Forall is_u8 t.2) ts ->
  forall d, foldl (fun data t => monitor_name t data) d0 ts = Some d -> length d = 13%nat /\ Forall is_u8 d.
Proof.
  induction ts as [|t ts IH]; intros d0 Hd0 Hts d; simpl; [apply Hd0|]. inversion_clear Hts as [|? ? [Hl Hu] Hts'].
  apply IH; [|done]. intros d' Hd'. unfold monitor_name in Hd'. destruct (t.2 !! 3%nat) as [ty|]; [|by apply Hd0].
  destruct (ty =? EDID_DETAIL_MONITOR_NAME); [|by apply Hd0]. injection Hd' as <-.
  split; [rewrite length_drop; lia|by apply Forall_drop].
Qed.

Lemma get_monitor_name_ok edid : edid_blocks edid ->
  exists name, get_monitor_name edid = Some name /\ (length name <= 13)%nat /\ Forall is_u8 name.
Proof.
  intros (Hu & n & Hn & Hl). unfold get_monitor_name.
  destruct (timings_bytes edid n Hn Hl Hu) as (ts & -> & Hts). rewrite bind_some.
  destruct (foldl _ None ts) as [d|] eqn:Ef; [|exists []; split; [done|split; [simpl; lia|done]]].
  destruct (name_found ts None) with (d := d) as [Hd Ud]; [done..|].
  destruct (until_newline_ok 13 d ltac:(lia) Ud) as (r & E & Hr & Ur & _). by exists r.
Qed.

(** ** The ELD *)

(** What the loop over the blocks collects: latencies, the byte with the audio flags, the
    speakers, the bytes of audio formats and their number. *)
Record eld_parts := { ep_av : drm_av; ep_flags : Z; ep_spk : Z; ep_sads : list Z; ep_count : nat }.

Definition eld_bytes (mnl_byte flags spk : Z) (ids name sads : list Z) : list Z :=
  [DRM_ELD_VER_CEA861D; 0; 0; 0; mnl_byte; flags; 0; spk; 0; 0; 0; 0; 0; 0; 0; 0] ++ ids ++ name ++ sads ++
  replicate (108 - length name - length sads) 0.

(** The latencies in a block. *)
Definition latencies (b : Z * list Z) (c : drm_av) : drm_av :=
  let n := length b.2 in let at_ k := nth k b.2 0 in
  {| eld := eld c;
     latency_present0 := if (8 <=? n)%nat then negb (Z.shiftr (at_ 7%nat) 7 =? 0) else latency_present0 c;
     latency_present1 := if (8 <=? n)%nat then negb (Z.land (Z.shiftr (at_ 7%nat) 6) 1 =? 0) else latency_present1 c;
     video_latency0 := if (9 <=? n)%nat then at_ 8%nat else video_latency0 c;
     audio_latency0 := if (10 <=? n)%nat then at_ 9%nat else audio_latency0 c;
     video_latency1 := if (11 <=? n)%nat then at_ 10%nat else video_latency1 c;
     audio_latency1 := if (12 <=? n)%nat then at_ 11%nat else audio_latency1 c |}.

(** A block with the flag for additional audio information. *)
Definition ai_block (b : Z * list Z) : bool := (6 <=? length b.2)%nat && negb (Z.land (nth 5 b.2 0) (Z.shiftl 1 7) =? 0).

Definition collect (b : Z * list Z) (s : eld_parts) : bool * eld_parts :=
  (false,
   if b.1 =? AUDIO_BLOCK then
     let m := Nat.min (length b.2 / 3) (15 - ep_count s) in
     {| ep_av := ep_av s; ep_flags := ep_flags s; ep_spk := ep_spk s; ep_sads := ep_sads s ++ take (m * 3) b.2; ep_count := ep_count s + m |}
   else if b.1 =? SPEAKER_BLOCK then
     {| ep_av := ep_av s; ep_flags := ep_flags s; ep_spk := hd (ep_spk s) b.2; ep_sads := ep_sads s; ep_count := ep_count s |}
   else if hdmi_block b then
     {| ep_av := latencies b (ep_av s); ep_flags := if ai_block b then 2 else ep_flags s; ep_spk := ep_spk s; ep_sads := ep_sads s;
        ep_count := ep_count s |}
   else s).

Record parts_ok (s : eld_parts) : Prop := {
  po_flags : ep_flags s = 0 \/ ep_flags s = 2;
  po_spk : is_u8 (ep_spk s);
  po_len : length (ep_sads s) = (3 * ep_count s)%nat;
  po_count : (ep_count s <= 15)%nat;
  po_u8 : Forall is_u8 (ep_sads s)
}.

Lemma collect_ok b s : Forall is_u8 b.2 -> parts_ok s -> parts_ok (collect b s).2.
Proof.
  intros Hu Hs. pose proof (po_len _ Hs) as Hlen. pose proof (po_count _ Hs) as Hcnt. unfold collect. cbn [snd].
  destruct (b.1 =? AUDIO_BLOCK); [|destruct (b.1 =? SPEAKER_BLOCK); [|destruct (hdmi_block b); [|done]]];
    split; cbn [ep_av ep_flags ep_spk ep_sads ep_count]; try apply Hs.
  - rewrite length_app, length_take. lia.
  - lia.
  - apply Forall_app. split; [apply Hs|by apply Forall_take].
  - destruct (b.2); [apply Hs|by inversion Hu].
  - destruct (ai_block b); [by right|apply Hs].
Qed.

Section Eld.
Context (mnl_byte : Z) (ids name : list Z) (Hids : length ids = 4%nat) (Hname : (length name <= 13)%nat).

Definition to_av (s : eld_parts) : drm_av * nat :=
  (set_eld (eld_bytes mnl_byte (ep_flags s) (ep_spk s) ids name (ep_sads s)) (ep_av s), ep_count s).

Lemma eld_bytes_length f k sads : (length sads <= 45)%nat -> length (eld_bytes mnl_byte f k ids name sads) = MAX_ELD_BYTES.
Proof. intros H. unfold eld_bytes. rewrite !length_app, length_replicate, Hids. unfold MAX_ELD_BYTES. simpl. lia. Qed.

(** Audio formats go behind those that are there. *)
Lemma eld_put_sads f k sads bs : (length sads + length bs <= 45)%nat -> Forall is_u8 bs ->
  puts (20 + length name + length sads) bs (eld_bytes mnl_byte f k ids name sads) = Some (eld_bytes mnl_byte f k ids name (sads ++ bs)).
Proof.
  intros Hl Hu. unfold eld_bytes. set (h := [DRM_ELD_VER_CEA861D; _; _; _; _; _; _; _; _; _; _; _; _; _; _; _]).
  assert (length h = 16%nat) as Hh by done. clearbody h.
  replace (h ++ ids ++ name ++ sads ++ replicate (108 - length name - length sads) 0) with
    ((h ++ ids ++ name ++ sads) ++ replicate (length bs) 0 ++ replicate (108 - length name - length (sads ++ bs)) 0).
  - rewrite puts_app; [|rewrite !length_app; lia|by rewrite length_replicate].
    rewrite map_u8_small by done. by app_norm.
  - app_norm. do 4 f_equal. rewrite <- replicate_add. f_equal. rewrite length_app. lia.
Qed.

Lemma set_eld_eta c : set_eld (eld c) c = c.
Proof. by destruct c. Qed.

(** The audio part of an HDMI block. *)
Lemma vsdb_audio_ok cea i b s : block_at cea i b -> hdmi_block b = true -> parts_ok s ->
  drm_parse_hdmi_vsdb_audio cea i (to_av s).1 =
  Some (to_av {| ep_av := latencies b (ep_av s); ep_flags := if ai_block b then 2 else ep_flags s; ep_spk := ep_spk s;
                 ep_sads := ep_sads s; ep_count := ep_count s |}).1.
Proof.
  intros Hb Hh Hs. unfold drm_parse_hdmi_vsdb_audio. rewrite (ba_len _ _ _ Hb), bind_some.
  assert (forall k (d : Z), (if Z.of_nat (S k) <=? Z.of_nat (length b.2) then cea !! (i + S k)%nat else Some d)
    = Some (if (S k <=? length b.2)%nat then nth k b.2 0 else d)) as Hread.
  { intros k d. destruct (Z.leb_spec (Z.of_nat (S k)) (Z.of_nat (length b.2))), (Nat.leb_spec (S k) (length b.2)) as [Hk|]; [|lia|lia|done].
    destruct (ba_get1 _ _ _ k Hb) as (x & -> & Ex & _); [lia|]. by rewrite (nth_lookup_Some _ _ _ _ Ex). }
  assert ((if 6 <=? Z.of_nat (length b.2) then b0 ← cea !! (i + 6)%nat; Some (negb (Z.land b0 (Z.shiftl 1 7) =? 0)) else Some false) = Some (ai_block b)) as ->.
  { unfold ai_block. destruct (Z.leb_spec 6 (Z.of_nat (length b.2))), (Nat.leb_spec 6 (length b.2)); [|lia|lia|done].
    destruct (ba_get1 _ _ _ 5 Hb) as (x & -> & Ex & _); [lia|]. rewrite bind_some. by rewrite (nth_lookup_Some _ _ _ _ Ex). }
  rewrite bind_some.
  assert (put_or_if (ai_block b) DRM_ELD_SAD_COUNT_CONN_TYPE DRM_ELD_SUPPORTS_AI (eld (to_av s).1) =
    Some (eld_bytes mnl_byte (if ai_block b then 2 else ep_flags s) (ep_spk s) ids name (ep_sads s))) as ->.
  { destruct (ai_block b); [|done]. cbn. by destruct (po_flags _ Hs) as [-> | ->]. }
  rewrite bind_some.
  assert ((if 8 <=? Z.of_nat (length b.2) then b0 ← cea !! (i + 8)%nat; Some (negb (Z.shiftr b0 7 =? 0), negb (Z.land (Z.shiftr b0 6) 1 =? 0))
    else Some (latency_present0 (to_av s).1, latency_present1 (to_av s).1)) =
    Some (latency_present0 (latencies b (ep_av s)), latency_present1 (latencies b (ep_av s)))) as ->.
  { cbn [latencies latency_present0 latency_present1].
    destruct (Z.leb_spec 8 (Z.of_nat (length b.2))), (Nat.leb_spec 8 (length b.2)); [|lia|lia|done].
    destruct (ba_get1 _ _ _ 7 Hb) as (x & -> & Ex & _); [lia|]. rewrite bind_some. by rewrite (nth_lookup_Some _ _ _ _ Ex). }
  rewrite bind_some. rewrite (Hread 8%nat), (Hread 9%nat), (Hread 10%nat), (Hread 11%nat). done.
Qed.

Lemma eld_block_ok cea i b s : block_at cea i b -> parts_ok s ->
  eld_block cea (length name) i (to_av s) = Some ((collect b s).1, to_av (collect b s).2).
Proof.
  intros Hb Hs. unfold eld_block, collect. change (to_av s) with ((to_av s).1, ep_count s). cbn beta iota. cbn [fst snd].
  rewrite (ba_tag _ _ _ Hb), bind_some, (ba_len _ _ _ Hb), bind_some.
  destruct (b.1 =? AUDIO_BLOCK); [|destruct (b.1 =? SPEAKER_BLOCK) eqn:Esp; [|destruct (b.1 =? VENDOR_BLOCK) eqn:Ev]].
  - rewrite Nat2Z.id. set (m := Nat.min (length b.2 / 3) (15 - ep_count s)).
    assert (m * 3 <= length b.2)%nat as Hm by lia. pose proof (po_len _ Hs) as Hlen. pose proof (po_count _ Hs) as Hcnt.
    assert (length (take (m * 3) b.2) = (m * 3)%nat) as Hlt by (rewrite length_take; lia).
    assert (Forall is_u8 (take (m * 3) b.2)) as Hut by (apply Forall_take; apply Hb).
    assert ((if (1 <=? m)%nat then bs ← bytes_at (i + 1) (m * 3) cea; puts (DRM_ELD_CEA_SAD (length name) (ep_count s)) bs (eld (to_av s).1)
      else Some (eld (to_av s).1)) = Some (eld_bytes mnl_byte (ep_flags s) (ep_spk s) ids name (ep_sads s ++ take (m * 3) b.2))) as ->; [|done].
    destruct (Nat.leb_spec 1 m) as [H1|H1]; [|replace m with 0%nat by lia; by rewrite app_nil_r].
    rewrite (block_bytes_prefix _ _ b), bind_some by done. unfold DRM_ELD_CEA_SAD. rewrite <- Hlen. apply eld_put_sads; [lia|done].
  - destruct (b.2) as [|x p] eqn:Ep; [done|]. replace (1 <=? Z.of_nat (length (x :: p))) with true by (simpl; lia).
    rewrite (ba_get cea i b 0 Hb), Ep by (rewrite Ep; simpl; lia). cbn [mbind option_bind lookup list_lookup hd].
    assert (is_u8 x) as Hx by (pose proof (ba_u8 _ _ _ Hb) as Hu; rewrite Ep in Hu; by inversion Hu).
    cbn. by rewrite (u8_small x).
  - rewrite (hdmi_block_ok _ _ _ Hb), bind_some. destruct (hdmi_block b) eqn:Eh; cbn [negb]; [|by destruct s].
    by rewrite (vsdb_audio_ok _ _ _ _ Hb Eh Hs), bind_some.
  - replace (hdmi_block b) with false by (unfold hdmi_block; by rewrite Ev). done.
Qed.

End Eld.

(** The whole audio formats of a block. *)
Definition audio_bytes (b : Z * list Z) : list Z := if b.1 =? AUDIO_BLOCK then take (length b.2 / 3 * 3) b.2 else [].
Definition speakers (x : Z) (b : Z * list Z) : Z := if b.1 =? SPEAKER_BLOCK then hd x b.2 else x.
Definition av_latencies (c : drm_av) (b : Z * list Z) : drm_av := if hdmi_block b then latencies b c else c.

Lemma collect_parts b s : (collect b s).1 = false /\
  ep_spk (collect b s).2 = speakers (ep_spk s) b /\ ep_av (collect b s).2 = av_latencies (ep_av s) b /\
  ep_sads (collect b s).2 = ep_sads s ++ take ((15 - ep_count s) * 3) (audio_bytes b).
Proof.
  unfold collect, speakers, av_latencies, audio_bytes, hdmi_block. cbn [fst snd].
  destruct (Z.eqb_spec b.1 AUDIO_BLOCK) as [->|]; [|destruct (Z.eqb_spec b.1 SPEAKER_BLOCK) as [->|]]; cbn.
  - split; [done|]. split; [done|]. split; [done|]. f_equal. rewrite take_take. f_equal. lia.
  - split; [done|]. split; [done|]. split; [done|]. by rewrite take_nil, app_nil_r.
  - rewrite take_nil, app_nil_r. by destruct (_ && _ && _).
Qed.

(** What the loop collects from the blocks. *)
Lemma run_collect bs : forall s, Forall (fun b => Forall is_u8 b.2) bs -> parts_ok s ->
  ep_sads (run_blocks collect bs s) = take 45 (ep_sads s ++ concat (map audio_bytes bs)) /\
  ep_spk (run_blocks collect bs s) = foldl speakers (ep_spk s) bs /\
  ep_av (run_blocks collect bs s) = foldl av_latencies (ep_av s) bs.
Proof.
  induction bs as [|b bs IH]; intros s Hok Hs.
  - cbn. split; [|done]. rewrite app_nil_r, take_ge; [done|]. rewrite (po_len _ Hs). pose proof (po_count _ Hs). lia.
  - cbn [run_blocks]. destruct (collect_parts b s) as (-> & Esp & Eav & Esa).
    inversion_clear Hok as [|? ? Hb Hbs]. assert (parts_ok (collect b s).2) as Hs' by by apply collect_ok.
    destruct (IH (collect b s).2) as (-> & -> & ->); [done..|].
    rewrite Esp, Eav, Esa. split; [|done]. cbn [map concat]. rewrite <- app_assoc.
    pose proof (po_len _ Hs) as Hl. pose proof (po_count _ Hs) as Hc.
    rewrite !(take_app_ge (ep_sads s)) by lia. f_equal. set (n := (45 - length (ep_sads s))%nat).
    replace ((15 - ep_count s) * 3)%nat with n by lia.
    destruct (Nat.le_gt_cases (length (audio_bytes b)) n) as [Hle|Hgt]; [by rewrite (take_ge (audio_bytes b)) by lia|].
    rewrite take_app_ge by (rewrite length_take; lia). rewrite (take_app_le (audio_bytes b)) by lia.
    replace (n - length (take n (audio_bytes b)))%nat with 0%nat by (rewrite length_take; lia). by rewrite take_0, app_nil_r.
Qed.

(** Reading the header back. *)
Lemma mnl_back rev n : is_u8 rev -> (n <= 13)%nat ->
  Z.shiftr (Z.land (u8 (Z.lor (u8 (Z.shiftl rev 5)) (Z.of_nat n))) 0x1f) 0 = Z.of_nat n.
Proof.
  intros Hr Hn. unfold is_u8 in Hr.
  assert (below 256 (fun r => below 14 (fun n => Z.shiftr (Z.land (u8 (Z.lor (u8 (Z.shiftl r 5)) n)) 0x1f) 0 =? n)) = true) as H by eval_bits.
  pose proof (below_spec _ _ (below_spec _ _ H rev ltac:(lia)) (Z.of_nat n) ltac:(lia)) as E. lia.
Qed.

Lemma conn_back f k n : f = 0 \/ f = 2 -> k = 0 \/ k = 4 -> (n <= 15)%nat ->
  Z.shiftr (Z.land (u8 (Z.lor (u8 (Z.lor f (Z.shiftl (Z.of_nat n) 4))) k)) 0xf0) 4 = Z.of_nat n /\
  Z.land (u8 (Z.lor (u8 (Z.lor f (Z.shiftl (Z.of_nat n) 4))) k)) (Z.shiftl 3 2) = k.
Proof.
  intros Hf Hk Hn.
  assert (forallb (fun f => forallb (fun k => below 16 (fun n =>
    (Z.shiftr (Z.land (u8 (Z.lor (u8 (Z.lor f (Z.shiftl n 4))) k)) 0xf0) 4 =? n) &&
    (Z.land (u8 (Z.lor (u8 (Z.lor f (Z.shiftl n 4))) k)) (Z.shiftl 3 2) =? k))) [0; 4]) [0; 2] = true) as H by eval_bits.
  rewrite forallb_forall in H. assert (In f [0; 2]) as Hfi by (simpl; lia). specialize (H f Hfi). rewrite forallb_forall in H.
  assert (In k [0; 4]) as Hki by (simpl; lia). pose proof (below_spec _ _ (H k Hki) (Z.of_nat n) ltac:(lia)) as E. lia.
Qed.

Definition is_dp (connector_type : Z) : bool :=
  (connector_type =? DRM_MODE_CONNECTOR_DisplayPort) || (connector_type =? DRM_MODE_CONNECTOR_eDP).

(** The ELD with its length. *)
Definition eld_done (mnl_byte conn spk : Z) (ids name sads : list Z) (len : Z) : list Z :=
  <[2%nat := len]> (eld_bytes mnl_byte conn spk ids name sads).

(** The ELD before the blocks are read. *)
Lemma eld_start rev ids name : length ids = 4%nat -> Forall is_u8 ids -> (length name <= 13)%nat -> Forall is_u8 name ->
  (e ← puts DRM_ELD_MONITOR_NAME_STRING name (eld clear_eld);
   e ← put DRM_ELD_CEA_EDID_VER_MNL (Z.shiftl rev DRM_ELD_CEA_EDID_VER_SHIFT) e;
   e ← put_or DRM_ELD_CEA_EDID_VER_MNL (Z.of_nat (length name)) e;
   e ← put DRM_ELD_VER DRM_ELD_VER_CEA861D e;
   puts DRM_ELD_MANUFACTURER_NAME0 ids e) =
  Some (eld_bytes (u8 (Z.lor (u8 (Z.shiftl rev 5)) (Z.of_nat (length name)))) 0 0 ids name []).
Proof.
  intros Hi Ui Hn Un. unfold DRM_ELD_MONITOR_NAME_STRING, clear_eld, MAX_ELD_BYTES. cbn [eld].
  replace (replicate 128 0) with (replicate 20 0 ++ replicate (length name) 0 ++ replicate (108 - length name) 0)
    by (rewrite <- !replicate_add; f_equal; lia).
  rewrite puts_app, bind_some by by rewrite length_replicate. rewrite map_u8_small by done. cbn [replicate app].
  do 3 (cbn; rewrite ?bind_some). destruct ids as [|i1 [|i2 [|i3 [|i4 [|? ?]]]]]; simplify_eq/=.
  pose proof (map_u8_small _ Ui) as E. simpl in E. injection E as E1 E2 E3 E4. rewrite E1, E2, E3, E4.
  unfold eld_bytes. cbn. do 20 f_equal. by rewrite Nat.sub_0_r.
Qed.

Definition start_parts : eld_parts := {| ep_av := clear_eld; ep_flags := 0; ep_spk := 0; ep_sads := []; ep_count := 0 |}.

Lemma start_parts_ok : parts_ok start_parts.
Proof. split; cbn; [by left|unfold is_u8; lia|done|lia|done]. Qed.

(** The blocks that [drm_edid_to_eld] reads. *)
Definition eld_blocks (cea : list Z) : list (Z * list Z) :=
  match cea_revision cea with Some rev => if 3 <=? rev then blocks_of cea else [] | None => [] end.

Lemma eld_blocks_u8 cea : cea_ok cea -> Forall (fun b => Forall is_u8 b.2) (eld_blocks cea).
Proof. intros Hc. unfold eld_blocks. destruct (cea_revision cea) as [rev|]; [|done]. destruct (3 <=? rev); [by apply blocks_of_u8|done]. Qed.

Lemma eld_loop_ok cea rev mnl_byte ids name : cea_ok cea -> cea_revision cea = Some rev -> length ids = 4%nat -> (length name <= 13)%nat ->
  (if 3 <=? rev then
     o ← cea_db_offsets cea;
     for_each_cea_db cea (default (0, 0)%nat o) (eld_block cea (length name)) (to_av mnl_byte ids name start_parts)
   else Some (to_av mnl_byte ids name start_parts)) =
    Some (to_av mnl_byte ids name (run_blocks collect (eld_blocks cea) start_parts)) /\
  parts_ok (run_blocks collect (eld_blocks cea) start_parts).
Proof.
  intros Hc Hrev Hids Hname. unfold eld_blocks. rewrite Hrev. pose proof start_parts_ok as Hs0.
  destruct (3 <=? rev); [|done]. destruct (cea_offsets_ok cea Hc) as (o & Eo & _). rewrite Eo, bind_some.
  destruct o as [range|].
  - apply (for_each_blocks (to_av mnl_byte ids name) parts_ok); [done..| |done]. intros i b s Hb Hs.
    split; [by apply eld_block_ok|apply collect_ok; [apply Hb|done]].
  - unfold blocks_of. rewrite Eo. done.
Qed.

(** What is stored after the loop. *)
Lemma eld_finish mnl_byte ids name s connector_type n : length ids = 4%nat -> (length name <= 13)%nat -> parts_ok s ->
  Z.shiftr (Z.land mnl_byte 0x1f) 0 = Z.of_nat (length name) ->
  n = Z.of_nat (20 + length name + 3 * ep_count s) ->
  (e ← put_or DRM_ELD_SAD_COUNT_CONN_TYPE (Z.shiftl (Z.of_nat (ep_count s)) DRM_ELD_SAD_COUNT_SHIFT) (eld (to_av mnl_byte ids name s).1);
   e ← put_or DRM_ELD_SAD_COUNT_CONN_TYPE (if is_dp connector_type then DRM_ELD_CONN_TYPE_DP else DRM_ELD_CONN_TYPE_HDMI) e;
   n ← drm_eld_calc_baseline_block_size e;
   put DRM_ELD_BASELINE_ELD_LEN ((n + 4 - 1) / 4) e) =
  Some (eld_done mnl_byte (u8 (Z.lor (u8 (Z.lor (ep_flags s) (Z.shiftl (Z.of_nat (ep_count s)) 4))) (if is_dp connector_type then 4 else 0)))
          (ep_spk s) ids name (ep_sads s) ((n - 1) / 4)).
Proof.
  intros Hids Hname Hs Hm ->. destruct (conn_back (ep_flags s) (if is_dp connector_type then 4 else 0) (ep_count s)) as [Ec _];
    [apply Hs|destruct (is_dp _); lia|apply Hs|].
  assert ((if is_dp connector_type then DRM_ELD_CONN_TYPE_DP else DRM_ELD_CONN_TYPE_HDMI) = (if is_dp connector_type then 4 else 0)) as -> by done.
  unfold to_av. cbn [fst eld set_eld]. unfold put_or, DRM_ELD_SAD_COUNT_CONN_TYPE, DRM_ELD_SAD_COUNT_SHIFT, DRM_ELD_BASELINE_ELD_LEN.
  unfold eld_bytes at 1 2. cbn [lookup list_lookup app insert list_insert mbind option_bind].
  unfold drm_eld_calc_baseline_block_size, drm_eld_mnl, drm_eld_sad_count, DRM_ELD_CEA_EDID_VER_MNL, DRM_ELD_SAD_COUNT_CONN_TYPE, DRM_ELD_SAD_COUNT_SHIFT.
  cbn [lookup list_lookup mbind option_bind]. rewrite Hm, Ec. unfold put. cbn [lookup list_lookup].
  pose proof (po_count _ Hs) as Hcnt. unfold eld_done, eld_bytes. cbn [app insert list_insert]. rewrite u8_small.
  - do 4 f_equal. f_equal. lia.
  - unfold is_u8. split; [apply Z.div_pos; lia|]. apply Z.div_lt_upper_bound; lia.
Qed.

Lemma cea_head cea : cea_ok cea -> exists rev, cea_revision cea = Some rev /\ is_u8 rev.
Proof.
  intros [Hl Hu]. destruct (lookup_lt_is_Some_2 cea 1) as [rev Hrev]; [lia|]. exists rev. split; [done|].
  exact (proj1 (Forall_lookup _ _) Hu _ _ Hrev).
Qed.

Lemma edid_ids edid : edid_blocks edid -> exists ids, bytes_at 8 4 edid = Some ids /\ length ids = 4%nat /\ Forall is_u8 ids.
Proof.
  intros (Hu & n & _ & Hl). unfold EDID_LENGTH in Hl. unfold bytes_at. rewrite (proj2 (Nat.leb_le _ _)) by lia. eexists. split; [done|].
  split; [rewrite length_take, length_drop; lia|by apply Forall_take, Forall_drop].
Qed.

(** [drm_edid_to_eld] step by step. *)
Lemma eld_built edid cea connector_type name rev ids s :
  let mb := u8 (Z.lor (u8 (Z.shiftl rev 5)) (Z.of_nat (length name))) in
  drm_find_cea_extension (Some edid) = Some (Some cea) -> get_monitor_name edid = Some name -> cea_revision cea = Some rev ->
  bytes_at 8 4 edid = Some ids -> length ids = 4%nat -> Forall is_u8 ids -> (length name <= 13)%nat -> Forall is_u8 name ->
  (if 3 <=? rev then
     o ← cea_db_offsets cea;
     for_each_cea_db cea (default (0, 0)%nat o) (eld_block cea (length name)) (to_av mb ids name start_parts)
   else Some (to_av mb ids name start_parts)) = Some (to_av mb ids name s) -> parts_ok s ->
  Z.shiftr (Z.land mb 0x1f) 0 = Z.of_nat (length name) ->
  drm_edid_to_eld connector_type (Some edid) =
  Some (set_eld (eld_done mb (u8 (Z.lor (u8 (Z.lor (ep_flags s) (Z.shiftl (Z.of_nat (ep_count s)) 4))) (if is_dp connector_type then 4 else 0)))
          (ep_spk s) ids name (ep_sads s) ((Z.of_nat (20 + length name + 3 * ep_count s) - 1) / 4)) (ep_av s)).
Proof.
  intros mb Hf En Hrev Eids Hids Uids Hname Uname Hloop Hs Hmb. unfold drm_edid_to_eld. rewrite Hf, bind_some, En, bind_some.
  pose proof (eld_start rev ids name Hids Uids Hname Uname) as Hst. fold mb in Hst.
  revert Hst. destruct (puts DRM_ELD_MONITOR_NAME_STRING name (eld clear_eld)) as [e1|]; [|by intros [=]]. rewrite !bind_some, Hrev, bind_some.
  destruct (put DRM_ELD_CEA_EDID_VER_MNL _ e1) as [e2|]; [|by intros [=]]. rewrite !bind_some.
  destruct (put_or DRM_ELD_CEA_EDID_VER_MNL _ e2) as [e3|]; [|by intros [=]]. rewrite !bind_some.
  destruct (put DRM_ELD_VER _ e3) as [e4|]; [|by intros [=]]. rewrite !bind_some. intros Hst. rewrite Eids, bind_some, Hst, bind_some.
  change (set_eld (eld_bytes mb 0 0 ids name []) clear_eld, 0%nat) with (to_av mb ids name start_parts). rewrite Hloop, bind_some.
  pose proof (eld_finish mb ids name s connector_type _ Hids Hname Hs Hmb eq_refl) as Hfin. unfold is_dp in *. unfold to_av in *. cbn [fst] in Hfin.
  revert Hfin. destruct (put_or DRM_ELD_SAD_COUNT_CONN_TYPE _ _) as [e5|]; [|by intros [=]]. rewrite !bind_some.
  destruct (put_or DRM_ELD_SAD_COUNT_CONN_TYPE _ e5) as [e6|]; [|by intros [=]]. rewrite !bind_some.
  destruct (drm_eld_calc_baseline_block_size e6) as [n|]; [|by intros [=]]. rewrite !bind_some. intros ->. by rewrite bind_some.
Qed.

(** Reading a finished ELD. *)
Lemma eld_done_reads mnl_byte conn spk ids name sads len : length ids = 4%nat -> (length name <= 13)%nat -> (length sads <= 45)%nat ->
  let e := eld_done mnl_byte conn spk ids name sads len in
  length e = MAX_ELD_BYTES /\ e !! 0%nat = Some DRM_ELD_VER_CEA861D /\ e !! 2%nat = Some len /\ e !! 4%nat = Some mnl_byte /\ e !! 5%nat = Some conn /\
  e !! 7%nat = Some spk /\ bytes_at 16 4 e = Some ids /\ bytes_at 20 (length name) e = Some name /\
  bytes_at (20 + length name) (length sads) e = Some sads.
Proof.
  intros Hids Hname Hsads e.
  assert (length e = MAX_ELD_BYTES) as Hl by (unfold e, eld_done; rewrite length_insert; by apply eld_bytes_length).
  split; [done|]. do 5 (split; [done|]).
  assert (forall pre a post, e = pre ++ a ++ post -> bytes_at (length pre) (length a) e = Some a) as Hat.
  { intros pre a post ->. unfold bytes_at. rewrite !length_app, (proj2 (Nat.leb_le _ _)) by lia.
    by rewrite drop_app_length, take_app_length. }
  set (h := [DRM_ELD_VER_CEA861D; 0; len; 0; mnl_byte; conn; 0; spk; 0; 0; 0; 0; 0; 0; 0; 0]).
  set (z := replicate (108 - length name - length sads) 0). assert (e = h ++ ids ++ name ++ sads ++ z) as He by done. clearbody z.
  split; [pose proof (Hat h ids (name ++ sads ++ z) He) as Hx; rewrite Hids in Hx; exact Hx|]. split.
  - replace 20%nat with (length (h ++ ids)) by (rewrite length_app, Hids; done). apply (Hat _ _ (sads ++ z)). rewrite He. by app_norm.
  - replace (20 + length name)%nat with (length (h ++ ids ++ name)) by (rewrite !length_app, Hids; simpl; lia).
    apply (Hat _ _ z). rewrite He. by app_norm.
Qed.

(** C29: the ELD of an EDID with a CEA extension is always built, inside its 128 bytes; reading it with the functions for the
    sound driver gives the name of the monitor, the first fifteen audio formats of the
    data blocks, the speakers of the last speaker block, the kind of connection, and a size that covers it all; the
    latencies are those of the HDMI blocks. *)
Theorem drm_edid_to_eld_reads_back edid cea connector_type :
  edid_blocks edid -> drm_find_cea_extension (Some edid) = Some (Some cea) ->
  exists name c, get_monitor_name edid = Some name /\ drm_edid_to_eld connector_type (Some edid) = Some c /\
    let sads := take 45 (concat (map audio_bytes (eld_blocks cea))) in
    length (eld c) = MAX_ELD_BYTES /\
    drm_eld_mnl (eld c) = Some (Z.of_nat (length name)) /\ bytes_at 20 (length name) (eld c) = Some name /\
    drm_eld_sad (eld c) = Some (Some (20 + length name)%nat) /\ bytes_at (20 + length name) (length sads) (eld c) = Some sads /\
    (exists n, drm_eld_sad_count (eld c) = Some (Z.of_nat n) /\ length sads = (3 * n)%nat) /\
    drm_eld_get_spk_alloc (eld c) = Some (Z.land (foldl speakers 0 (eld_blocks cea)) 0x7f) /\
    drm_eld_get_conn_type (eld c) = Some (if is_dp connector_type then DRM_ELD_CONN_TYPE_DP else DRM_ELD_CONN_TYPE_HDMI) /\
    bytes_at 16 4 (eld c) = bytes_at 8 4 edid /\
    (exists size, drm_eld_size (eld c) = Some size /\ size mod 4 = 0 /\ Z.of_nat (20 + length name + length sads) <= size <= 128) /\
    set_eld [] c = set_eld [] (foldl av_latencies clear_eld (eld_blocks cea)).
Proof.
  intros He Hf. destruct (find_cea_ok edid He) as (r & Er & Hr). rewrite Hf in Er. simplify_eq. destruct (Hr cea eq_refl) as [Hc _].
  destruct (get_monitor_name_ok edid He) as (name & En & Hname & Uname).
  destruct (cea_head cea Hc) as (rev & Hrev & Urev). destruct (edid_ids edid He) as (ids & Eids & Hids & Uids).
  set (mb := u8 (Z.lor (u8 (Z.shiftl rev 5)) (Z.of_nat (length name)))).
  pose proof (mnl_back rev (length name) Urev Hname) as Hmb. fold mb in Hmb.
  destruct (eld_loop_ok cea rev mb ids name Hc Hrev Hids Hname) as [Hloop Hs].
  destruct (run_collect (eld_blocks cea) start_parts (eld_blocks_u8 cea Hc) start_parts_ok) as (Esads & Espk & Eav).
  set (s := run_blocks collect (eld_blocks cea) start_parts) in *. cbn [app ep_sads ep_spk ep_av start_parts] in Esads, Espk, Eav.
  set (conn := u8 (Z.lor (u8 (Z.lor (ep_flags s) (Z.shiftl (Z.of_nat (ep_count s)) 4))) (if is_dp connector_type then 4 else 0))).
  set (n := Z.of_nat (20 + length name + 3 * ep_count s)).
  exists name, (set_eld (eld_done mb conn (ep_spk s) ids name (ep_sads s) ((n - 1) / 4)) (ep_av s)).
  split; [done|]. split; [exact (eld_built edid cea connector_type name rev ids s Hf En Hrev Eids Hids Uids Hname Uname Hloop Hs Hmb)|].
  pose proof (po_len _ Hs) as Hlen. pose proof (po_count _ Hs) as Hcnt. rewrite <- Esads, <- Espk, <- Eav. cbn zeta. cbn [eld set_eld].
  destruct (eld_done_reads mb conn (ep_spk s) ids name (ep_sads s) ((n - 1) / 4) Hids Hname ltac:(lia))
    as (R1 & R2 & R3 & R4 & R5 & R6 & R7 & R8 & R9).
  destruct (conn_back (ep_flags s) (if is_dp connector_type then 4 else 0) (ep_count s)) as [Ec Ek];
    [apply Hs|destruct (is_dp _); lia|done|]. fold conn in Ec, Ek.
  assert (drm_eld_mnl (eld_done mb conn (ep_spk s) ids name (ep_sads s) ((n - 1) / 4)) = Some (Z.of_nat (length name))) as Emnl
    by (unfold drm_eld_mnl, DRM_ELD_CEA_EDID_VER_MNL; by rewrite R4, bind_some, Hmb).
  split; [done|]. split; [done|]. split; [done|]. split; [|split; [done|]].
  { unfold drm_eld_sad, DRM_ELD_VER. rewrite R2, bind_some. cbn [negb andb]. rewrite Emnl. simpl.
    destruct (Z.ltb_spec 16 (Z.of_nat (length name))); [lia|]. unfold DRM_ELD_CEA_SAD. do 2 f_equal. lia. }
  unfold drm_eld_sad_count, drm_eld_get_spk_alloc, drm_eld_get_conn_type, drm_eld_size, DRM_ELD_SAD_COUNT_CONN_TYPE, DRM_ELD_SPEAKER,
    DRM_ELD_BASELINE_ELD_LEN, DRM_ELD_SAD_COUNT_SHIFT. rewrite R3, R5, R6, R7, Eids, !bind_some.
  split; [exists (ep_count s); by rewrite Ec|]. split; [done|]. split; [by rewrite Ek|]. split; [done|]. split; [|by destruct (ep_av s)].
  eexists. split; [done|]. subst n. lia.
Qed.

(** ** Display information *)

(** More deep colour modes. *)
Definition or_dc (x : Z) (info : drm_display_info) : drm_display_info :=
  match info with
  | Build_drm_display_info w h b c r m d i dc s q p l y t n => Build_drm_display_info w h b c r m d i (Z.lor dc x) s q p l y t n
  end.

Lemma lor_swap a b c : Z.lor (Z.lor a b) c = Z.lor (Z.lor a c) b.
Proof. by rewrite <- !Z.lor_assoc, (Z.lor_comm b c). Qed.

Lemma add_dc_or x m info : add_dc m (or_dc x info) = or_dc x (add_dc m info).
Proof. destruct info. unfold add_dc, set_edid_hdmi_dc_modes. cbn. f_equal. apply lor_swap. Qed.

Lemma set_bpc_or x v i : set_bpc v (or_dc x i) = or_dc x (set_bpc v i).
Proof. by destruct i. Qed.
Lemma set_color_formats_or x v i : set_color_formats v (or_dc x i) = or_dc x (set_color_formats v i).
Proof. by destruct i. Qed.
Lemma set_cea_rev_or x v i : set_cea_rev v (or_dc x i) = or_dc x (set_cea_rev v i).
Proof. by destruct i. Qed.
Lemma set_max_tmds_clock_or x v i : set_max_tmds_clock v (or_dc x i) = or_dc x (set_max_tmds_clock v i).
Proof. by destruct i. Qed.
Lemma set_dvi_dual_or x v i : set_dvi_dual v (or_dc x i) = or_dc x (set_dvi_dual v i).
Proof. by destruct i. Qed.
Lemma set_has_hdmi_infoframe_or x v i : set_has_hdmi_infoframe v (or_dc x i) = or_dc x (set_has_hdmi_infoframe v i).
Proof. by destruct i. Qed.
Lemma set_scdc_supported_or x v i : set_scdc_supported v (or_dc x i) = or_dc x (set_scdc_supported v i).
Proof. by destruct i. Qed.
Lemma set_read_request_or x v i : set_read_request v (or_dc x i) = or_dc x (set_read_request v i).
Proof. by destruct i. Qed.
Lemma set_scrambling_supported_or x v i : set_scrambling_supported v (or_dc x i) = or_dc x (set_scrambling_supported v i).
Proof. by destruct i. Qed.
Lemma set_low_rates_or x v i : set_low_rates v (or_dc x i) = or_dc x (set_low_rates v i).
Proof. by destruct i. Qed.
Lemma set_y420_dc_modes_or x v i : set_y420_dc_modes v (or_dc x i) = or_dc x (set_y420_dc_modes v i).
Proof. by destruct i. Qed.
Lemma set_y420_cmdb_map_or x v i : set_y420_cmdb_map v (or_dc x i) = or_dc x (set_y420_cmdb_map v i).
Proof. by destruct i. Qed.
Lemma set_non_desktop_or x v i : set_non_desktop v (or_dc x i) = or_dc x (set_non_desktop v i).
Proof. by destruct i. Qed.
Lemma set_width_mm_or x v i : set_width_mm v (or_dc x i) = or_dc x (set_width_mm v i).
Proof. by destruct i. Qed.
Lemma set_height_mm_or x v i : set_height_mm v (or_dc x i) = or_dc x (set_height_mm v i).
Proof. by destruct i. Qed.
Lemma add_color_or x c i : add_color c (or_dc x i) = or_dc x (add_color c i).
Proof. by destruct i. Qed.
Lemma scdc_supported_or x i : scdc_supported (or_dc x i) = scdc_supported i.
Proof. by destruct i. Qed.
Lemma y420_dc_modes_or x i : y420_dc_modes (or_dc x i) = y420_dc_modes i.
Proof. by destruct i. Qed.
Lemma bpc_or x i : bpc (or_dc x i) = bpc i.
Proof. by destruct i. Qed.

Create Rewrite HintDb or_dc.
#[export] Hint Rewrite add_dc_or add_color_or scdc_supported_or y420_dc_modes_or bpc_or set_bpc_or set_color_formats_or set_cea_rev_or set_max_tmds_clock_or set_dvi_dual_or set_has_hdmi_infoframe_or set_scdc_supported_or set_read_request_or set_scrambling_supported_or set_low_rates_or set_y420_dc_modes_or set_y420_cmdb_map_or set_non_desktop_or set_width_mm_or set_height_mm_or : or_dc.
#[local] Opaque or_dc add_dc add_color scdc_supported y420_dc_modes bpc set_edid_hdmi_dc_modes set_bpc set_color_formats set_cea_rev set_max_tmds_clock set_dvi_dual set_has_hdmi_infoframe set_scdc_supported set_read_request set_scrambling_supported set_low_rates set_y420_dc_modes set_y420_cmdb_map set_non_desktop set_width_mm set_height_mm.

(** Moves [or_dc] outwards through assignments. *)
Ltac or_dc_out := rewrite ?bind_some; cbn [fmap option_fmap option_map]; autorewrite with or_dc; reflexivity.

Lemma deep_color_or cea db x info :
  drm_parse_hdmi_deep_color_info cea db (or_dc x info) = or_dc x <$> drm_parse_hdmi_deep_color_info cea db info.
Proof.
  unfold drm_parse_hdmi_deep_color_info. destruct (cea_db_payload_len cea db) as [len|]; [|done]. rewrite !bind_some.
  destruct (len <? 6); [or_dc_out|]. destruct (cea !! (db + 6)%nat) as [b6|]; [|done]. rewrite !bind_some.
  destruct (has b6 DRM_EDID_HDMI_DC_30), (has b6 DRM_EDID_HDMI_DC_36), (has b6 DRM_EDID_HDMI_DC_48), (has b6 DRM_EDID_HDMI_DC_Y444);
    cbn [Z.eqb]; or_dc_out.
Qed.

Lemma vsdb_video_or cea db x info :
  drm_parse_hdmi_vsdb_video cea db (or_dc x info) = or_dc x <$> drm_parse_hdmi_vsdb_video cea db info.
Proof.
  unfold drm_parse_hdmi_vsdb_video. destruct (cea_db_payload_len cea db) as [len|]; [|done]. rewrite !bind_some.
  assert (forall info,
    ((if 7 <=? len then b ← cea !! (db + 7)%nat; Some (set_max_tmds_clock (b * 5000) (or_dc x info)) else Some (or_dc x info))
       ≫= drm_parse_hdmi_deep_color_info cea db) =
    or_dc x <$> ((if 7 <=? len then b ← cea !! (db + 7)%nat; Some (set_max_tmds_clock (b * 5000) info) else Some info)
       ≫= drm_parse_hdmi_deep_color_info cea db)) as H7.
  { intros i. destruct (7 <=? len); [destruct (cea !! (db + 7)%nat) as [b7|]; [|done]|]; rewrite !bind_some, ?set_max_tmds_clock_or; apply deep_color_or. }
  destruct (6 <=? len); [destruct (cea !! (db + 6)%nat) as [b6|]; [|done]|]; rewrite !bind_some, ?set_dvi_dual_or; apply H7.
Qed.

Lemma forum_or cea db x info :
  drm_parse_hdmi_forum_vsdb cea db (or_dc x info) = or_dc x <$> drm_parse_hdmi_forum_vsdb cea db info.
Proof.
  unfold drm_parse_hdmi_forum_vsdb, drm_parse_ycbcr420_deep_color_info.
  destruct (cea !! (db + 6)%nat) as [b6|]; [|done]. destruct (cea !! (db + 5)%nat) as [b5|]; [|done]. rewrite !bind_some.
  destruct (cea !! (db + 7)%nat) as [b7|]; [|done]. rewrite !bind_some.
  destruct (has b6 0x80), (has b6 0x40), (negb (b5 =? 0)), (340000 <? b5 * 5000), (has b6 0x8);
    cbn [fmap option_fmap option_map]; autorewrite with or_dc; try reflexivity.
  all: destruct (scdc_supported _); or_dc_out.
Qed.

Lemma cmdb_or cea db x info :
  drm_parse_y420cmdb_bitmap cea db (or_dc x info) = or_dc x <$> drm_parse_y420cmdb_bitmap cea db info.
Proof.
  unfold drm_parse_y420cmdb_bitmap. destruct (cea_db_payload_len cea db) as [len|]; [|done]. rewrite !bind_some.
  destruct (u8 (len - 1) =? 0); [or_dc_out|]. destruct (read_map _ _ _ _ _) as [m|]; [|done]. rewrite !bind_some.
  destruct (negb (m =? 0)); or_dc_out.
Qed.

(** The first of two steps may be done with more modes. *)
Lemma bind_or {A} (f : drm_display_info -> option drm_display_info) (g : drm_display_info -> option A) (h : A -> A) x info :
  (forall i, f (or_dc x i) = or_dc x <$> f i) -> (forall i, g (or_dc x i) = h <$> g i) ->
  (f (or_dc x info) ≫= g) = h <$> (f info ≫= g).
Proof. intros Hf Hg. rewrite Hf. destruct (f info) as [i|]; [|done]. cbn. apply Hg. Qed.

Definition or_dc_step (x : Z) (r : bool * drm_display_info) : bool * drm_display_info := (r.1, or_dc x r.2).

Lemma cea_block_or cea db x info : parse_cea_block cea db (or_dc x info) = or_dc_step x <$> parse_cea_block cea db info.
Proof.
  unfold parse_cea_block. destruct (cea_db_is_hdmi_vsdb cea db) as [h|]; [|done]. rewrite !bind_some.
  rewrite (bind_or (fun i => if h then drm_parse_hdmi_vsdb_video cea db i else Some i) _ (or_dc_step x) x); [done| |].
  - intros i. destruct h; [apply vsdb_video_or|done].
  - intros i. destruct (cea_db_is_hdmi_forum_vsdb cea db) as [f|]; [|done]. rewrite !bind_some.
    rewrite (bind_or (fun i => if f then drm_parse_hdmi_forum_vsdb cea db i else Some i) _ (or_dc_step x) x); [done| |].
    + intros j. destruct f; [apply forum_or|done].
    + intros j. destruct (cea_db_is_y420cmdb cea db) as [y|]; [|done]. rewrite !bind_some.
      rewrite (bind_or (fun i => if y then drm_parse_y420cmdb_bitmap cea db i else Some i) _ (or_dc_step x) x); [done| |done].
      intros k. destruct y; [apply cmdb_or|done].
Qed.

Lemma cea_loop_or cea end_ x fuel : forall i info,
  cea_db_loop fuel cea i end_ (parse_cea_block cea) (or_dc x info) = or_dc x <$> cea_db_loop fuel cea i end_ (parse_cea_block cea) info.
Proof.
  induction fuel as [|fuel IH]; intros i info; cbn [cea_db_loop]; [done|]. destruct (i <? end_)%nat; [|done].
  destruct (cea_db_payload_len cea i) as [len|]; [|done]. rewrite !bind_some. destruct (_ <? _)%nat; [|done].
  rewrite cea_block_or. destruct (parse_cea_block cea i info) as [[stop info']|]; [|done]. cbn. destruct stop; [done|]. apply IH.
Qed.

Lemma cea_ext_or edid x info : drm_parse_cea_ext edid (or_dc x info) = or_dc x <$> drm_parse_cea_ext edid info.
Proof.
  unfold drm_parse_cea_ext. destruct (drm_find_cea_extension (Some edid)) as [[ext|]|]; [|done..]. rewrite !bind_some.
  destruct (ext !! 1%nat) as [rev|]; [|done]. destruct (ext !! 3%nat) as [b3|]; [|done]. rewrite !bind_some.
  destruct (cea_db_offsets ext) as [[range|]|]; [| |done]; rewrite !bind_some; destruct (has b3 (Z.shiftl 1 5)), (has b3 (Z.shiftl 1 4));
    autorewrite with or_dc; first [reflexivity|apply cea_loop_or].
Qed.

Lemma read_map_total cea p n : forall count m, (forall k, (k < n)%nat -> exists x, cea !! (p + count + k)%nat = Some x) ->
  exists r, read_map n cea p count m = Some r.
Proof.
  induction n as [|n IH]; intros count m Hr; cbn [read_map]; [by eexists|].
  destruct (Hr 0%nat ltac:(lia)) as [x Hx]. rewrite Nat.add_0_r in Hx. rewrite Hx, bind_some. apply IH.
  intros k Hk. replace (p + S count + k)%nat with (p + count + S k)%nat by lia. apply Hr. lia.
Qed.

(** Each block can be read. *)
Lemma vsdb_video_total cea i b info : block_at cea i b -> exists r, drm_parse_hdmi_vsdb_video cea i info = Some r.
Proof.
  intros Hb. unfold drm_parse_hdmi_vsdb_video, drm_parse_hdmi_deep_color_info. rewrite (ba_len _ _ _ Hb), !bind_some.
  assert (forall k, (k < length b.2)%nat -> exists x, cea !! (i + S k)%nat = Some x) as Hr
    by (intros k Hk; destruct (ba_get1 _ _ _ k Hb Hk) as (x & Hx & _); by exists x).
  destruct (Z.leb_spec 6 (Z.of_nat (length b.2))) as [H6|H6];
    [destruct (Hr 5%nat ltac:(lia)) as [b6 E6]; rewrite E6|]; rewrite !bind_some;
    (destruct (Z.leb_spec 7 (Z.of_nat (length b.2))) as [H7|H7];
      [destruct (Hr 6%nat ltac:(lia)) as [b7 ->]|]); rewrite !bind_some;
    destruct (Z.ltb_spec (Z.of_nat (length b.2)) 6); try (by eexists); try lia;
    destruct (has b6 DRM_EDID_HDMI_DC_30), (has b6 DRM_EDID_HDMI_DC_36), (has b6 DRM_EDID_HDMI_DC_48); by eexists.
Qed.

Lemma cea_block_total cea i b info : block_at cea i b -> exists r, parse_cea_block cea i info = Some r.
Proof.
  intros Hb. unfold parse_cea_block. rewrite (hdmi_block_ok _ _ _ Hb), !bind_some.
  assert (exists i1, (if hdmi_block b then drm_parse_hdmi_vsdb_video cea i info else Some info) = Some i1) as [i1 ->]
    by (destruct (hdmi_block b); [by eapply vsdb_video_total|by eexists]).
  rewrite bind_some, (forum_block_ok _ _ _ Hb), !bind_some.
  assert (exists i2, (if forum_block b then drm_parse_hdmi_forum_vsdb cea i i1 else Some i1) = Some i2) as [i2 ->].
  { destruct (forum_block b) eqn:Ef; [|by eexists]. unfold forum_block in Ef.
    assert (7 <= length b.2)%nat as Hl by lia. unfold drm_parse_hdmi_forum_vsdb, drm_parse_ycbcr420_deep_color_info.
    destruct (ba_get1 _ _ _ 5 Hb) as (x6 & -> & _); [lia|]. destruct (ba_get1 _ _ _ 4 Hb) as (x5 & -> & _); [lia|].
    destruct (ba_get1 _ _ _ 6 Hb) as (x7 & -> & _); [lia|]. rewrite !bind_some. by eexists. }
  rewrite bind_some, (y420cmdb_block_ok _ _ _ Hb), !bind_some.
  assert (exists i3, (if extended_block EXT_VIDEO_CAP_BLOCK_Y420CMDB b then drm_parse_y420cmdb_bitmap cea i i2 else Some i2) = Some i3) as [i3 ->];
    [|by eexists].
  destruct (extended_block _ b) eqn:Ee; [|by eexists]. unfold extended_block in Ee.
  assert (1 <= length b.2)%nat as Hl by (destruct (b.2); [rewrite bool_decide_false in Ee; [lia|done]|simpl; lia]).
  pose proof (ba_short _ _ _ Hb) as Hs. unfold drm_parse_y420cmdb_bitmap. rewrite (ba_len _ _ _ Hb), bind_some.
  rewrite u8_small by (unfold is_u8; lia). destruct (Z.eqb_spec (Z.of_nat (length b.2) - 1) 0); [by eexists|].
  match goal with |- context [read_map ?n _ _ _ _] => destruct (read_map_total cea (i + 2) n 0 0) as [m ->] end; [|rewrite bind_some; by eexists].
  intros k Hk. assert (1 + k < length b.2)%nat as Hk' by (revert Hk; destruct (Z.ltb_spec 8 (Z.of_nat (length b.2) - 1)); lia).
  destruct (ba_get1 _ _ _ (1 + k) Hb Hk') as (x & Hx & _). exists x.
  by replace (i + 2 + 0 + k)%nat with (i + S (1 + k))%nat by lia.
Qed.

Lemma cea_ext_total edid info : edid_blocks edid -> exists r, drm_parse_cea_ext edid info = Some r.
Proof.
  intros He. unfold drm_parse_cea_ext. destruct (find_cea_ok edid He) as (r & -> & Hr). rewrite bind_some.
  destruct r as [ext|]; [|by eexists]. destruct (Hr ext eq_refl) as [Hc _].
  destruct (lookup_lt_is_Some_2 ext 1) as [rev ->]; [destruct Hc; lia|]. destruct (lookup_lt_is_Some_2 ext 3) as [b3 ->]; [destruct Hc; lia|].
  destruct (cea_offsets_ok ext Hc) as (o & -> & Ho). rewrite !bind_some. destruct o as [[st e]|]; [|by eexists].
  destruct (Ho st e eq_refl) as [-> Hle]. apply cea_db_loop_total; [done|cbn [snd]; lia| |cbn [fst snd]; lia].
  intros i b s Hb. by eapply cea_block_total.
Qed.

Lemma find_quirk_total edid l : edid_blocks edid -> exists q, find_quirk edid l = Some q.
Proof.
  intros (Hu & n & Hn & Hl). unfold EDID_LENGTH in Hl. induction l as [|q l IH]; cbn [find_quirk]; [by eexists|]. unfold edid_vendor, EDID_PRODUCT_ID.
  destruct (lookup_lt_is_Some_2 edid 8) as [m0 ->]; [lia|]. destruct (lookup_lt_is_Some_2 edid 9) as [m1 ->]; [lia|].
  destruct (lookup_lt_is_Some_2 edid 10) as [p0 ->]; [lia|]. destruct (lookup_lt_is_Some_2 edid 11) as [p1 ->]; [lia|].
  rewrite !bind_some. destruct (_ && _); [by eexists|done].
Qed.

(** A connector before it has seen a monitor. *)
Definition fresh_info : drm_display_info :=
  Build_drm_display_info 0 0 0 0 0 0 false false 0 false false false false 0 0 false.

Lemma reset_or info : drm_reset_display_info info = or_dc (edid_hdmi_dc_modes info) (drm_reset_display_info fresh_info).
Proof. reflexivity. Qed.

Lemma add_display_or edid info : drm_add_display_info edid info =
  (fun r => (r.1, or_dc (edid_hdmi_dc_modes info) r.2)) <$> drm_add_display_info edid fresh_info.
Proof.
  unfold drm_add_display_info. rewrite (reset_or info). set (i0 := drm_reset_display_info fresh_info). clearbody i0.
  destruct (edid_get_quirks edid) as [q|]; [|done]. rewrite !bind_some.
  destruct (edid !! 21%nat) as [w|]; [|done]. rewrite !bind_some. destruct (edid !! 22%nat) as [h|]; [|done]. rewrite !bind_some.
  destruct (edid !! 19%nat) as [rev|]; [|done]. rewrite !bind_some. destruct (edid !! 20%nat) as [input|]; [|done]. rewrite !bind_some.
  destruct (edid !! 24%nat) as [features|]; [|done]. rewrite !bind_some.
  destruct (rev <? 3); [or_dc_out|]. destruct (negb (has input (Z.shiftl 1 7))); [or_dc_out|]. autorewrite with or_dc. rewrite cea_ext_or.
  destruct (drm_parse_cea_ext edid _) as [r1|]; [|done]. cbn [fmap option_fmap option_map mbind option_bind]. autorewrite with or_dc.
  destruct ((bpc r1 =? 0) && (rev <? 4) && has input 1), (rev <? 4), (has features (Z.shiftl 1 3)), (has features (Z.shiftl 2 3)); or_dc_out.
Qed.

Lemma add_display_total edid : edid_blocks edid -> exists r, drm_add_display_info edid fresh_info = Some r.
Proof.
  intros He. destruct (find_quirk_total edid edid_quirk_list He) as [q Hq]. unfold drm_add_display_info, edid_get_quirks. rewrite Hq.
  pose proof He as (_ & n & _ & Hl). unfold EDID_LENGTH in Hl.
  destruct (lookup_lt_is_Some_2 edid 21) as [w ->]; [lia|]. destruct (lookup_lt_is_Some_2 edid 22) as [h ->]; [lia|].
  destruct (lookup_lt_is_Some_2 edid 19) as [rev ->]; [lia|]. destruct (lookup_lt_is_Some_2 edid 20) as [input ->]; [lia|].
  destruct (lookup_lt_is_Some_2 edid 24) as [features ->]; [lia|]. rewrite !bind_some.
  destruct (rev <? 3); [by eexists|]. destruct (negb (has input (Z.shiftl 1 7))); [by eexists|].
  match goal with |- context [drm_parse_cea_ext edid ?i] => destruct (cea_ext_total edid i He) as [r1 ->] end. rewrite bind_some.
  destruct (rev <? 4); by eexists.
Qed.

(** C30: the display information of a connector is computed from every EDID with as many blocks as it announces, and depends
    on nothing but the EDID, with one exception: the deep colour modes of monitors that were connected
    before are kept and those of the new monitor are added. *)
Theorem drm_add_display_info_history edid : edid_blocks edid ->
  exists q r, drm_add_display_info edid fresh_info = Some (q, r) /\
    forall info, drm_add_display_info edid info = Some (q, or_dc (edid_hdmi_dc_modes info) r).
Proof.
  intros He. destruct (add_display_total edid He) as [[q r] E]. exists q, r. split; [done|].
  intros info. by rewrite add_display_or, E.
Qed.

(** ** Sample monitors *)

(** A base block of a digital monitor with one extension and the detailed timing [t]. *)
Definition monitor_base (t : list Z) : list Z :=
  with_checksum (edid_header ++ replicate 10 0 ++ [1; 3; 0x80] ++ replicate 33 0 ++ t ++ replicate 54 0 ++ [1]).

(** A CEA extension with data blocks. *)
Definition cea_of (bs : list (Z * list Z)) : list Z :=
  let data := concat (map encode_block bs) in
  with_checksum ([0x02; 3; Z.of_nat (4 + length data); 0] ++ data ++ replicate (123 - length data) 0).

(** The name "LCD" as a detailed timing. *)
Definition name_timing : list Z := [0; 0; 0; 0xfc; 0; 0x4c; 0x43; 0x44; 0x0a] ++ replicate 9 0x20.

(** A monitor with two audio formats, speakers, and deep colour modes of 30 and 36 bits, and one without deep colour. *)
Definition deep_blocks : list (Z * list Z) :=
  [(AUDIO_BLOCK, [0x09; 0x07; 0x07; 0x15; 0x07; 0x50]); (SPEAKER_BLOCK, [0x01; 0; 0]); (VENDOR_BLOCK, [0x03; 0x0c; 0x00; 0x10; 0x00; 0xb0])].
Definition deep_monitor : list Z := monitor_base name_timing ++ cea_of deep_blocks.
Definition plain_monitor : list Z := monitor_base name_timing ++ cea_of [(VENDOR_BLOCK, [0x03; 0x0c; 0x00; 0x10; 0x00])].

Lemma sample_edid_blocks e n : forallb (fun x => (0 <=? x) && (x <? 256)) e = true -> e !! 0x7e%nat = Some n ->
  length e = ((Z.to_nat n + 1) * EDID_LENGTH)%nat -> edid_blocks e.
Proof.
  intros Hu Hn Hl. split; [|by exists n]. apply Stdlib.Lists.List.Forall_forall. intros x Hx.
  rewrite forallb_forall in Hu. specialize (Hu x Hx). unfold is_u8. lia.
Qed.

Lemma deep_monitor_blocks : edid_blocks deep_monitor.
Proof. apply (sample_edid_blocks _ 1); vm_compute; reflexivity. Qed.

Lemma deep_blocks_valid : Forall valid_block deep_blocks.
Proof.
  unfold deep_blocks, AUDIO_BLOCK, SPEAKER_BLOCK, VENDOR_BLOCK.
  repeat (apply Forall_cons_2; [split; cbn; lia|]). apply Forall_nil_2.
Qed.

Lemma cea_queries_read_blocks_witness :
  drm_detect_hdmi_monitor (Some deep_monitor) = Some true /\
  drm_edid_to_sad true (Some deep_monitor) =
    Some (Ok [{| format := 1; channels := 1; freq := 7; byte2 := 7 |}; {| format := 2; channels := 5; freq := 7; byte2 := 0x50 |}]) /\
  blocks_of (cea_of deep_blocks) = deep_blocks.
Proof.
  destruct (cea_queries_read_blocks deep_monitor (cea_of deep_blocks) (4, 22)%nat) as (H1 & _ & _ & H4 & H5).
  - exact deep_monitor_blocks.
  - vm_compute. reflexivity.
  - vm_compute. reflexivity.
  - split; [rewrite H1; vm_compute; reflexivity|]. split.
    + destruct (H4 3) as [H6 _]; [vm_compute; reflexivity|lia|]. rewrite H6. vm_compute. reflexivity.
    + apply (H5 deep_blocks); [exact deep_blocks_valid|vm_compute; reflexivity].
Defined.

Lemma drm_edid_to_eld_reads_back_witness :
  exists c, drm_edid_to_eld DRM_MODE_CONNECTOR_DisplayPort (Some deep_monitor) = Some c /\
    drm_eld_mnl (eld c) = Some 3 /\ bytes_at 20 3 (eld c) = Some [0x4c; 0x43; 0x44].
Proof.
  destruct (drm_edid_to_eld_reads_back deep_monitor (cea_of deep_blocks) DRM_MODE_CONNECTOR_DisplayPort) as (name & c & Hn & Hc & _ & H1 & H2 & _).
  - exact deep_monitor_blocks.
  - vm_compute. reflexivity.
  - assert (get_monitor_name deep_monitor = Some [0x4c; 0x43; 0x44]) as En by (vm_compute; reflexivity).
    rewrite Hn in En. injection En as ->. exists c. split; [exact Hc|]. split; [exact H1|exact H2].
Defined.

Lemma drm_add_display_info_history_witness :
  exists q r, drm_add_display_info deep_monitor fresh_info = Some (q, r) /\ edid_hdmi_dc_modes r = 0x30.
Proof.
  destruct (drm_add_display_info_history deep_monitor deep_monitor_blocks) as (q & r & H & _). exists q, r. split; [exact H|].
  assert (option_map (fun p => edid_hdmi_dc_modes (snd p)) (drm_add_display_info deep_monitor fresh_info) = Some 0x30) as E by (vm_compute; reflexivity).
  rewrite H in E. simpl in E. by injection E.
Defined.

(** A monitor without deep colour, connected after one with deep colour, is taken to have its modes. *)
Theorem drm_add_display_info_stale :
  option_map (fun p => edid_hdmi_dc_modes p.2) (drm_add_display_info plain_monitor fresh_info) = Some 0 /\
  option_map (fun p => edid_hdmi_dc_modes p.2)
    (r ← drm_add_display_info deep_monitor fresh_info; drm_add_display_info plain_monitor r.2) = Some 0x30.
Proof. split; vm_compute; reflexivity. Qed.

(** A real timing (148.5 MHz, 1920 pixels, horizontal blanking of 252) whose fourth byte happens to be that of a
    monitor name is taken for the name. *)
Definition real_timing : list Z := [0x02; 0x3a; 0x80; 0xfc; 0x70; 0x38; 0x2d; 0x40; 0x58; 0x2c; 0x45; 0; 0xba; 0x88; 0x21; 0; 0; 0x1e].

Theorem get_monitor_name_misread :
  get_monitor_name (monitor_base real_timing ++ cea_of []) = Some (drop 5 real_timing).
Proof. vm_compute. reflexivity. Qed.
