(* ===== verification/EdidTables.v ===== *)
(** * The mode tables of [drm_edid.c]

    The modes of the DMT and CEA standards, the established timings of EDIDs, the modes of
    the HDMI vendor block, and the sizes that are looked up or generated.  A CEA mode comes with its
    picture aspect ratio.

    Theorems: the modes of all tables pass validation, their names are their sizes, and the refresh
    rates noted in the tables are those of their timings. *)

From S2P Require Import Prelude Rect Modes ModeGen.
From stdpp Require Import base gmap list option strings.
From Stdlib Require Import ZArith Lia Ascii.

#[local] Open Scope Z_scope.

Declare Scope flags_scope.
Delimit Scope flags_scope with flags.
Notation "a ||| b" := (Z.lor a b) (at level 50, left associativity) : flags_scope.
#[local] Open Scope flags_scope.

Definition DRM_MODE_TYPE_DRIVER : Z := Z.shiftl 1 6.
Definition DRM_MODE_FLAG_DBLCLK : Z := Z.shiftl 1 12.

Definition HDMI_PICTURE_ASPECT_NONE : Z := 0.
Definition HDMI_PICTURE_ASPECT_4_3 : Z := 1.
Definition HDMI_PICTURE_ASPECT_16_9 : Z := 2.
Definition HDMI_PICTURE_ASPECT_64_27 : Z := 3.
Definition HDMI_PICTURE_ASPECT_256_135 : Z := 4.

Definition chars (s : string) : list Z := map (fun a => Z.of_N (N_of_ascii a)) (String.list_ascii_of_string s).

Definition no_crtc : crtc_timings :=
  {| crtc_clock := 0; crtc_hdisplay := 0; crtc_hblank_start := 0; crtc_hblank_end := 0;
     crtc_hsync_start := 0; crtc_hsync_end := 0; crtc_htotal := 0; crtc_hskew := 0;
     crtc_vdisplay := 0; crtc_vblank_start := 0; crtc_vblank_end := 0;
     crtc_vsync_start := 0; crtc_vsync_end := 0; crtc_vtotal := 0 |}.

Definition DRM_MODE (nm : string) (t c hd hss hse ht hsk vd vss vse vt vs f : Z) : drm_display_mode :=
  {| name := chars nm; status := MODE_OK; type_ := t; clock := c;
     hdisplay := hd; hsync_start := hss; hsync_end := hse; htotal := ht; hskew := hsk;
     vdisplay := vd; vsync_start := vss; vsync_end := vse; vtotal := vt; vscan := vs;
     flags := f; vrefresh := 0; hsync := 0; crtc := no_crtc |}.

(** The empty entry at index 0 of the tables that are indexed by identification codes. *)
Definition no_mode : drm_display_mode := DRM_MODE "" 0 0 0 0 0 0 0 0 0 0 0 0 0.

Definition with_vrefresh (v : Z) (p : drm_display_mode) : drm_display_mode :=
  {| name := name p; status := status p; type_ := type_ p; clock := clock p;
     hdisplay := hdisplay p; hsync_start := hsync_start p; hsync_end := hsync_end p;
     htotal := htotal p; hskew := hskew p; vdisplay := vdisplay p; vsync_start := vsync_start p;
     vsync_end := vsync_end p; vtotal := vtotal p; vscan := vscan p; flags := flags p;
     vrefresh := v; hsync := hsync p; crtc := crtc p |}.

(** [struct minimode] *)
Record minimode := minimode_of { mm_w : Z; mm_h : Z; mm_r : Z; mm_rb : bool }.

Definition drm_dmt_modes : list drm_display_mode := [
  DRM_MODE "640x350" DRM_MODE_TYPE_DRIVER 31500 640 672 736 832 0 350 382 385 445 0 (DRM_MODE_FLAG_PHSYNC ||| DRM_MODE_FLAG_NVSYNC);
  DRM_MODE "640x400" DRM_MODE_TYPE_DRIVER 31500 640 672 736 832 0 400 401 404 445 0 (DRM_MODE_FLAG_NHSYNC ||| DRM_MODE_FLAG_PVSYNC);
  DRM_MODE "720x400" DRM_MODE_TYPE_DRIVER 35500 720 756 828 936 0 400 401 404 446 0 (DRM_MODE_FLAG_NHSYNC ||| DRM_MODE_FLAG_PVSYNC);
  DRM_MODE "640x480" DRM_MODE_TYPE_DRIVER 25175 640 656 752 800 0 480 490 492 525 0 (DRM_MODE_FLAG_NHSYNC ||| DRM_MODE_FLAG_NVSYNC);
  DRM_MODE "640x480" DRM_MODE_TYPE_DRIVER 31500 640 664 704 832 0 480 489 492 520 0 (DRM_MODE_FLAG_NHSYNC ||| DRM_MODE_FLAG_NVSYNC);
  DRM_MODE "640x480" DRM_MODE_TYPE_DRIVER 31500 640 656 720 840 0 480 481 484 500 0 (DRM_MODE_FLAG_NHSYNC ||| DRM_MODE_FLAG_NVSYNC);
  DRM_MODE "640x480" DRM_MODE_TYPE_DRIVER 36000 640 696 752 832 0 480 481 484 509 0 (DRM_MODE_FLAG_NHSYNC ||| DRM_MODE_FLAG_NVSYNC);
  DRM_MODE "800x600" DRM_MODE_TYPE_DRIVER 36000 800 824 896 1024 0 600 601 603 625 0 (DRM_MODE_FLAG_PHSYNC ||| DRM_MODE_FLAG_PVSYNC);
  DRM_MODE "800x600" DRM_MODE_TYPE_DRIVER 40000 800 840 968 1056 0 600 601 605 628 0 (DRM_MODE_FLAG_PHSYNC ||| DRM_MODE_FLAG_PVSYNC);
  DRM_MODE "800x600" DRM_MODE_TYPE_DRIVER 50000 800 856 976 1040 0 600 637 643 666 0 (DRM_MODE_FLAG_PHSYNC ||| DRM_MODE_FLAG_PVSYNC);
  DRM_MODE "800x600" DRM_MODE_TYPE_DRIVER 49500 800 816 896 1056 0 600 601 604 625 0 (DRM_MODE_FLAG_PHSYNC ||| DRM_MODE_FLAG_PVSYNC);
  DRM_MODE "800x600" DRM_MODE_TYPE_DRIVER 56250 800 832 896 1048 0 600 601 604 631 0 (DRM_MODE_FLAG_PHSYNC ||| DRM_MODE_FLAG_PVSYNC);
  DRM_MODE "800x600" DRM_MODE_TYPE_DRIVER 73250 800 848 880 960 0 600 603 607 636 0 (DRM_MODE_FLAG_PHSYNC ||| DRM_MODE_FLAG_NVSYNC);
  DRM_MODE "848x480" DRM_MODE_TYPE_DRIVER 33750 848 864 976 1088 0 480 486 494 517 0 (DRM_MODE_FLAG_PHSYNC ||| DRM_MODE_FLAG_PVSYNC);
  DRM_MODE "1024x768i" DRM_MODE_TYPE_DRIVER 44900 1024 1032 1208 1264 0 768 768 776 817 0 (DRM_MODE_FLAG_PHSYNC ||| DRM_MODE_FLAG_PVSYNC ||| DRM_MODE_FLAG_INTERLACE);
  DRM_MODE "1024x768" DRM_MODE_TYPE_DRIVER 65000 1024 1048 1184 1344 0 768 771 777 806 0 (DRM_MODE_FLAG_NHSYNC ||| DRM_MODE_FLAG_NVSYNC);
  DRM_MODE "1024x768" DRM_MODE_TYPE_DRIVER 75000 1024 1048 1184 1328 0 768 771 777 806 0 (DRM_MODE_FLAG_NHSYNC ||| DRM_MODE_FLAG_NVSYNC);
  DRM_MODE "1024x768" DRM_MODE_TYPE_DRIVER 78750 1024 1040 1136 1312 0 768 769 772 800 0 (DRM_MODE_FLAG_PHSYNC ||| DRM_MODE_FLAG_PVSYNC);
  DRM_MODE "1024x768" DRM_MODE_TYPE_DRIVER 94500 1024 1072 1168 1376 0 768 769 772 808 0 (DRM_MODE_FLAG_PHSYNC ||| DRM_MODE_FLAG_PVSYNC);
  DRM_MODE "1024x768" DRM_MODE_TYPE_DRIVER 115500 1024 1072 1104 1184 0 768 771 775 813 0 (DRM_MODE_FLAG_PHSYNC ||| DRM_MODE_FLAG_NVSYNC);
  DRM_MODE "1152x864" DRM_MODE_TYPE_DRIVER 108000 1152 1216 1344 1600 0 864 865 868 900 0 (DRM_MODE_FLAG_PHSYNC ||| DRM_MODE_FLAG_PVSYNC);
  DRM_MODE "1280x720" DRM_MODE_TYPE_DRIVER 74250 1280 1390 1430 1650 0 720 725 730 750 0 (DRM_MODE_FLAG_PHSYNC ||| DRM_MODE_FLAG_PVSYNC);
  DRM_MODE "1280x768" DRM_MODE_TYPE_DRIVER 68250 1280 1328 1360 1440 0 768 771 778 790 0 (DRM_MODE_FLAG_PHSYNC ||| DRM_MODE_FLAG_NVSYNC);
  DRM_MODE "1280x768" DRM_MODE_TYPE_DRIVER 79500 1280 1344 1472 1664 0 768 771 778 798 0 (DRM_MODE_FLAG_NHSYNC ||| DRM_MODE_FLAG_PVSYNC);
  DRM_MODE "1280x768" DRM_MODE_TYPE_DRIVER 102250 1280 1360 1488 1696 0 768 771 778 805 0 (DRM_MODE_FLAG_NHSYNC ||| DRM_MODE_FLAG_PVSYNC);
  DRM_MODE "1280x768" DRM_MODE_TYPE_DRIVER 117500 1280 1360 1496 1712 0 768 771 778 809 0 (DRM_MODE_FLAG_NHSYNC ||| DRM_MODE_FLAG_PVSYNC);
  DRM_MODE "1280x768" DRM_MODE_TYPE_DRIVER 140250 1280 1328 1360 1440 0 768 771 778 813 0 (DRM_MODE_FLAG_PHSYNC ||| DRM_MODE_FLAG_NVSYNC);
  DRM_MODE "1280x800" DRM_MODE_TYPE_DRIVER 71000 1280 1328 1360 1440 0 800 803 809 823 0 (DRM_MODE_FLAG_PHSYNC ||| DRM_MODE_FLAG_NVSYNC);
  DRM_MODE "1280x800" DRM_MODE_TYPE_DRIVER 83500 1280 1352 1480 1680 0 800 803 809 831 0 (DRM_MODE_FLAG_NHSYNC ||| DRM_MODE_FLAG_PVSYNC);
  DRM_MODE "1280x800" DRM_MODE_TYPE_DRIVER 106500 1280 1360 1488 1696 0 800 803 809 838 0 (DRM_MODE_FLAG_NHSYNC ||| DRM_MODE_FLAG_PVSYNC);
  DRM_MODE "1280x800" DRM_MODE_TYPE_DRIVER 122500 1280 1360 1496 1712 0 800 803 809 843 0 (DRM_MODE_FLAG_NHSYNC ||| DRM_MODE_FLAG_PVSYNC);
  DRM_MODE "1280x800" DRM_MODE_TYPE_DRIVER 146250 1280 1328 1360 1440 0 800 803 809 847 0 (DRM_MODE_FLAG_PHSYNC ||| DRM_MODE_FLAG_NVSYNC);
  DRM_MODE "1280x960" DRM_MODE_TYPE_DRIVER 108000 1280 1376 1488 1800 0 960 961 964 1000 0 (DRM_MODE_FLAG_PHSYNC ||| DRM_MODE_FLAG_PVSYNC);
  DRM_MODE "1280x960" DRM_MODE_TYPE_DRIVER 148500 1280 1344 1504 1728 0 960 961 964 1011 0 (DRM_MODE_FLAG_PHSYNC ||| DRM_MODE_FLAG_PVSYNC);
  DRM_MODE "1280x960" DRM_MODE_TYPE_DRIVER 175500 1280 1328 1360 1440 0 960 963 967 1017 0 (DRM_MODE_FLAG_PHSYNC ||| DRM_MODE_FLAG_NVSYNC);
  DRM_MODE "1280x1024" DRM_MODE_TYPE_DRIVER 108000 1280 1328 1440 1688 0 1024 1025 1028 1066 0 (DRM_MODE_FLAG_PHSYNC ||| DRM_MODE_FLAG_PVSYNC);
  DRM_MODE "1280x1024" DRM_MODE_TYPE_DRIVER 135000 1280 1296 1440 1688 0 1024 1025 1028 1066 0 (DRM_MODE_FLAG_PHSYNC ||| DRM_MODE_FLAG_PVSYNC);
  DRM_MODE "1280x1024" DRM_MODE_TYPE_DRIVER 157500 1280 1344 1504 1728 0 1024 1025 1028 1072 0 (DRM_MODE_FLAG_PHSYNC ||| DRM_MODE_FLAG_PVSYNC);
  DRM_MODE "1280x1024" DRM_MODE_TYPE_DRIVER 187250 1280 1328 1360 1440 0 1024 1027 1034 1084 0 (DRM_MODE_FLAG_PHSYNC ||| DRM_MODE_FLAG_NVSYNC);
  DRM_MODE "1360x768" DRM_MODE_TYPE_DRIVER 85500 1360 1424 1536 1792 0 768 771 777 795 0 (DRM_MODE_FLAG_PHSYNC ||| DRM_MODE_FLAG_PVSYNC);
  DRM_MODE "1360x768" DRM_MODE_TYPE_DRIVER 148250 1360 1408 1440 1520 0 768 771 776 813 0 (DRM_MODE_FLAG_PHSYNC ||| DRM_MODE_FLAG_NVSYNC);
  DRM_MODE "1366x768" DRM_MODE_TYPE_DRIVER 85500 1366 1436 1579 1792 0 768 771 774 798 0 (DRM_MODE_FLAG_PHSYNC ||| DRM_MODE_FLAG_PVSYNC);
  DRM_MODE "1366x768" DRM_MODE_TYPE_DRIVER 72000 1366 1380 1436 1500 0 768 769 772 800 0 (DRM_MODE_FLAG_PHSYNC ||| DRM_MODE_FLAG_PVSYNC);
  DRM_MODE "1400x1050" DRM_MODE_TYPE_DRIVER 101000 1400 1448 1480 1560 0 1050 1053 1057 1080 0 (DRM_MODE_FLAG_PHSYNC ||| DRM_MODE_FLAG_NVSYNC);
  DRM_MODE "1400x1050" DRM_MODE_TYPE_DRIVER 121750 1400 1488 1632 1864 0 1050 1053 1057 1089 0 (DRM_MODE_FLAG_NHSYNC ||| DRM_MODE_FLAG_PVSYNC);
  DRM_MODE "1400x1050" DRM_MODE_TYPE_DRIVER 156000 1400 1504 1648 1896 0 1050 1053 1057 1099 0 (DRM_MODE_FLAG_NHSYNC ||| DRM_MODE_FLAG_PVSYNC);
  DRM_MODE "1400x1050" DRM_MODE_TYPE_DRIVER 179500 1400 1504 1656 1912 0 1050 1053 1057 1105 0 (DRM_MODE_FLAG_NHSYNC ||| DRM_MODE_FLAG_PVSYNC);
  DRM_MODE "1400x1050" DRM_MODE_TYPE_DRIVER 208000 1400 1448 1480 1560 0 1050 1053 1057 1112 0 (DRM_MODE_FLAG_PHSYNC ||| DRM_MODE_FLAG_NVSYNC);
  DRM_MODE "1440x900" DRM_MODE_TYPE_DRIVER 88750 1440 1488 1520 1600 0 900 903 909 926 0 (DRM_MODE_FLAG_PHSYNC ||| DRM_MODE_FLAG_NVSYNC);
  DRM_MODE "1440x900" DRM_MODE_TYPE_DRIVER 106500 1440 1520 1672 1904 0 900 903 909 934 0 (DRM_MODE_FLAG_NHSYNC ||| DRM_MODE_FLAG_PVSYNC);
  DRM_MODE "1440x900" DRM_MODE_TYPE_DRIVER 136750 1440 1536 1688 1936 0 900 903 909 942 0 (DRM_MODE_FLAG_NHSYNC ||| DRM_MODE_FLAG_PVSYNC);
  DRM_MODE "1440x900" DRM_MODE_TYPE_DRIVER 157000 1440 1544 1696 1952 0 900 903 909 948 0 (DRM_MODE_FLAG_NHSYNC ||| DRM_MODE_FLAG_PVSYNC);
  DRM_MODE "1440x900" DRM_MODE_TYPE_DRIVER 182750 1440 1488 1520 1600 0 900 903 909 953 0 (DRM_MODE_FLAG_PHSYNC ||| DRM_MODE_FLAG_NVSYNC);
  DRM_MODE "1600x900" DRM_MODE_TYPE_DRIVER 108000 1600 1624 1704 1800 0 900 901 904 1000 0 (DRM_MODE_FLAG_PHSYNC ||| DRM_MODE_FLAG_PVSYNC);
  DRM_MODE "1600x1200" DRM_MODE_TYPE_DRIVER 162000 1600 1664 1856 2160 0 1200 1201 1204 1250 0 (DRM_MODE_FLAG_PHSYNC ||| DRM_MODE_FLAG_PVSYNC);
  DRM_MODE "1600x1200" DRM_MODE_TYPE_DRIVER 175500 1600 1664 1856 2160 0 1200 1201 1204 1250 0 (DRM_MODE_FLAG_PHSYNC ||| DRM_MODE_FLAG_PVSYNC);
  DRM_MODE "1600x1200" DRM_MODE_TYPE_DRIVER 189000 1600 1664 1856 2160 0 1200 1201 1204 1250 0 (DRM_MODE_FLAG_PHSYNC ||| DRM_MODE_FLAG_PVSYNC);
  DRM_MODE "1600x1200" DRM_MODE_TYPE_DRIVER 202500 1600 1664 1856 2160 0 1200 1201 1204 1250 0 (DRM_MODE_FLAG_PHSYNC ||| DRM_MODE_FLAG_PVSYNC);
  DRM_MODE "1600x1200" DRM_MODE_TYPE_DRIVER 229500 1600 1664 1856 2160 0 1200 1201 1204 1250 0 (DRM_MODE_FLAG_PHSYNC ||| DRM_MODE_FLAG_PVSYNC);
  DRM_MODE "1600x1200" DRM_MODE_TYPE_DRIVER 268250 1600 1648 1680 1760 0 1200 1203 1207 1271 0 (DRM_MODE_FLAG_PHSYNC ||| DRM_MODE_FLAG_NVSYNC);
  DRM_MODE "1680x1050" DRM_MODE_TYPE_DRIVER 119000 1680 1728 1760 1840 0 1050 1053 1059 1080 0 (DRM_MODE_FLAG_PHSYNC ||| DRM_MODE_FLAG_NVSYNC);
  DRM_MODE "1680x1050" DRM_MODE_TYPE_DRIVER 146250 1680 1784 1960 2240 0 1050 1053 1059 1089 0 (DRM_MODE_FLAG_NHSYNC ||| DRM_MODE_FLAG_PVSYNC);
  DRM_MODE "1680x1050" DRM_MODE_TYPE_DRIVER 187000 1680 1800 1976 2272 0 1050 1053 1059 1099 0 (DRM_MODE_FLAG_NHSYNC ||| DRM_MODE_FLAG_PVSYNC);
  DRM_MODE "1680x1050" DRM_MODE_TYPE_DRIVER 214750 1680 1808 1984 2288 0 1050 1053 1059 1105 0 (DRM_MODE_FLAG_NHSYNC ||| DRM_MODE_FLAG_PVSYNC);
  DRM_MODE "1680x1050" DRM_MODE_TYPE_DRIVER 245500 1680 1728 1760 1840 0 1050 1053 1059 1112 0 (DRM_MODE_FLAG_PHSYNC ||| DRM_MODE_FLAG_NVSYNC);
  DRM_MODE "1792x1344" DRM_MODE_TYPE_DRIVER 204750 1792 1920 2120 2448 0 1344 1345 1348 1394 0 (DRM_MODE_FLAG_NHSYNC ||| DRM_MODE_FLAG_PVSYNC);
  DRM_MODE "1792x1344" DRM_MODE_TYPE_DRIVER 261000 1792 1888 2104 2456 0 1344 1345 1348 1417 0 (DRM_MODE_FLAG_NHSYNC ||| DRM_MODE_FLAG_PVSYNC);
  DRM_MODE "1792x1344" DRM_MODE_TYPE_DRIVER 333250 1792 1840 1872 1952 0 1344 1347 1351 1423 0 (DRM_MODE_FLAG_PHSYNC ||| DRM_MODE_FLAG_NVSYNC);
  DRM_MODE "1856x1392" DRM_MODE_TYPE_DRIVER 218250 1856 1952 2176 2528 0 1392 1393 1396 1439 0 (DRM_MODE_FLAG_NHSYNC ||| DRM_MODE_FLAG_PVSYNC);
  DRM_MODE "1856x1392" DRM_MODE_TYPE_DRIVER 288000 1856 1984 2208 2560 0 1392 1393 1396 1500 0 (DRM_MODE_FLAG_NHSYNC ||| DRM_MODE_FLAG_PVSYNC);
  DRM_MODE "1856x1392" DRM_MODE_TYPE_DRIVER 356500 1856 1904 1936 2016 0 1392 1395 1399 1474 0 (DRM_MODE_FLAG_PHSYNC ||| DRM_MODE_FLAG_NVSYNC);
  DRM_MODE "1920x1080" DRM_MODE_TYPE_DRIVER 148500 1920 2008 2052 2200 0 1080 1084 1089 1125 0 (DRM_MODE_FLAG_NHSYNC ||| DRM_MODE_FLAG_NVSYNC);
  DRM_MODE "1920x1200" DRM_MODE_TYPE_DRIVER 154000 1920 1968 2000 2080 0 1200 1203 1209 1235 0 (DRM_MODE_FLAG_PHSYNC ||| DRM_MODE_FLAG_NVSYNC);
  DRM_MODE "1920x1200" DRM_MODE_TYPE_DRIVER 193250 1920 2056 2256 2592 0 1200 1203 1209 1245 0 (DRM_MODE_FLAG_NHSYNC ||| DRM_MODE_FLAG_PVSYNC);
  DRM_MODE "1920x1200" DRM_MODE_TYPE_DRIVER 245250 1920 2056 2264 2608 0 1200 1203 1209 1255 0 (DRM_MODE_FLAG_NHSYNC ||| DRM_MODE_FLAG_PVSYNC);
  DRM_MODE "1920x1200" DRM_MODE_TYPE_DRIVER 281250 1920 2064 2272 2624 0 1200 1203 1209 1262 0 (DRM_MODE_FLAG_NHSYNC ||| DRM_MODE_FLAG_PVSYNC);
  DRM_MODE "1920x1200" DRM_MODE_TYPE_DRIVER 317000 1920 1968 2000 2080 0 1200 1203 1209 1271 0 (DRM_MODE_FLAG_PHSYNC ||| DRM_MODE_FLAG_NVSYNC);
  DRM_MODE "1920x1440" DRM_MODE_TYPE_DRIVER 234000 1920 2048 2256 2600 0 1440 1441 1444 1500 0 (DRM_MODE_FLAG_NHSYNC ||| DRM_MODE_FLAG_PVSYNC);
  DRM_MODE "1920x1440" DRM_MODE_TYPE_DRIVER 297000 1920 2064 2288 2640 0 1440 1441 1444 1500 0 (DRM_MODE_FLAG_NHSYNC ||| DRM_MODE_FLAG_PVSYNC);
  DRM_MODE "1920x1440" DRM_MODE_TYPE_DRIVER 380500 1920 1968 2000 2080 0 1440 1443 1447 1525 0 (DRM_MODE_FLAG_PHSYNC ||| DRM_MODE_FLAG_NVSYNC);
  DRM_MODE "2048x1152" DRM_MODE_TYPE_DRIVER 162000 2048 2074 2154 2250 0 1152 1153 1156 1200 0 (DRM_MODE_FLAG_PHSYNC ||| DRM_MODE_FLAG_PVSYNC);
  DRM_MODE "2560x1600" DRM_MODE_TYPE_DRIVER 268500 2560 2608 2640 2720 0 1600 1603 1609 1646 0 (DRM_MODE_FLAG_PHSYNC ||| DRM_MODE_FLAG_NVSYNC);
  DRM_MODE "2560x1600" DRM_MODE_TYPE_DRIVER 348500 2560 2752 3032 3504 0 1600 1603 1609 1658 0 (DRM_MODE_FLAG_NHSYNC ||| DRM_MODE_FLAG_PVSYNC);
  DRM_MODE "2560x1600" DRM_MODE_TYPE_DRIVER 443250 2560 2768 3048 3536 0 1600 1603 1609 1672 0 (DRM_MODE_FLAG_NHSYNC ||| DRM_MODE_FLAG_PVSYNC);
  DRM_MODE "2560x1600" DRM_MODE_TYPE_DRIVER 505250 2560 2768 3048 3536 0 1600 1603 1609 1682 0 (DRM_MODE_FLAG_NHSYNC ||| DRM_MODE_FLAG_PVSYNC);
  DRM_MODE "2560x1600" DRM_MODE_TYPE_DRIVER 552750 2560 2608 2640 2720 0 1600 1603 1609 1694 0 (DRM_MODE_FLAG_PHSYNC ||| DRM_MODE_FLAG_NVSYNC);
  DRM_MODE "4096x2160" DRM_MODE_TYPE_DRIVER 556744 4096 4104 4136 4176 0 2160 2208 2216 2222 0 (DRM_MODE_FLAG_PHSYNC ||| DRM_MODE_FLAG_NVSYNC);
  DRM_MODE "4096x2160" DRM_MODE_TYPE_DRIVER 556188 4096 4104 4136 4176 0 2160 2208 2216 2222 0 (DRM_MODE_FLAG_PHSYNC ||| DRM_MODE_FLAG_NVSYNC)].

Definition edid_est_modes : list drm_display_mode := [
  DRM_MODE "800x600" DRM_MODE_TYPE_DRIVER 40000 800 840 968 1056 0 600 601 605 628 0 (DRM_MODE_FLAG_PHSYNC ||| DRM_MODE_FLAG_PVSYNC);
  DRM_MODE "800x600" DRM_MODE_TYPE_DRIVER 36000 800 824 896 1024 0 600 601 603 625 0 (DRM_MODE_FLAG_PHSYNC ||| DRM_MODE_FLAG_PVSYNC);
  DRM_MODE "640x480" DRM_MODE_TYPE_DRIVER 31500 640 656 720 840 0 480 481 484 500 0 (DRM_MODE_FLAG_NHSYNC ||| DRM_MODE_FLAG_NVSYNC);
  DRM_MODE "640x480" DRM_MODE_TYPE_DRIVER 31500 640 664 704 832 0 480 489 492 520 0 (DRM_MODE_FLAG_NHSYNC ||| DRM_MODE_FLAG_NVSYNC);
  DRM_MODE "640x480" DRM_MODE_TYPE_DRIVER 30240 640 704 768 864 0 480 483 486 525 0 (DRM_MODE_FLAG_NHSYNC ||| DRM_MODE_FLAG_NVSYNC);
  DRM_MODE "640x480" DRM_MODE_TYPE_DRIVER 25175 640 656 752 800 0 480 490 492 525 0 (DRM_MODE_FLAG_NHSYNC ||| DRM_MODE_FLAG_NVSYNC);
  DRM_MODE "720x400" DRM_MODE_TYPE_DRIVER 35500 720 738 846 900 0 400 421 423 449 0 (DRM_MODE_FLAG_NHSYNC ||| DRM_MODE_FLAG_NVSYNC);
  DRM_MODE "720x400" DRM_MODE_TYPE_DRIVER 28320 720 738 846 900 0 400 412 414 449 0 (DRM_MODE_FLAG_NHSYNC ||| DRM_MODE_FLAG_PVSYNC);
  DRM_MODE "1280x1024" DRM_MODE_TYPE_DRIVER 135000 1280 1296 1440 1688 0 1024 1025 1028 1066 0 (DRM_MODE_FLAG_PHSYNC ||| DRM_MODE_FLAG_PVSYNC);
  DRM_MODE "1024x768" DRM_MODE_TYPE_DRIVER 78750 1024 1040 1136 1312 0 768 769 772 800 0 (DRM_MODE_FLAG_PHSYNC ||| DRM_MODE_FLAG_PVSYNC);
  DRM_MODE "1024x768" DRM_MODE_TYPE_DRIVER 75000 1024 1048 1184 1328 0 768 771 777 806 0 (DRM_MODE_FLAG_NHSYNC ||| DRM_MODE_FLAG_NVSYNC);
  DRM_MODE "1024x768" DRM_MODE_TYPE_DRIVER 65000 1024 1048 1184 1344 0 768 771 777 806 0 (DRM_MODE_FLAG_NHSYNC ||| DRM_MODE_FLAG_NVSYNC);
  DRM_MODE "1024x768i" DRM_MODE_TYPE_DRIVER 44900 1024 1032 1208 1264 0 768 768 776 817 0 (DRM_MODE_FLAG_PHSYNC ||| DRM_MODE_FLAG_PVSYNC ||| DRM_MODE_FLAG_INTERLACE);
  DRM_MODE "832x624" DRM_MODE_TYPE_DRIVER 57284 832 864 928 1152 0 624 625 628 667 0 (DRM_MODE_FLAG_NHSYNC ||| DRM_MODE_FLAG_NVSYNC);
  DRM_MODE "800x600" DRM_MODE_TYPE_DRIVER 49500 800 816 896 1056 0 600 601 604 625 0 (DRM_MODE_FLAG_PHSYNC ||| DRM_MODE_FLAG_PVSYNC);
  DRM_MODE "800x600" DRM_MODE_TYPE_DRIVER 50000 800 856 976 1040 0 600 637 643 666 0 (DRM_MODE_FLAG_PHSYNC ||| DRM_MODE_FLAG_PVSYNC);
  DRM_MODE "1152x864" DRM_MODE_TYPE_DRIVER 108000 1152 1216 1344 1600 0 864 865 868 900 0 (DRM_MODE_FLAG_PHSYNC ||| DRM_MODE_FLAG_PVSYNC)].

Definition est3_modes : list minimode := [
  minimode_of 640 350 85 false;
  minimode_of 640 400 85 false;
  minimode_of 720 400 85 false;
  minimode_of 640 480 85 false;
  minimode_of 848 480 60 false;
  minimode_of 800 600 85 false;
  minimode_of 1024 768 85 false;
  minimode_of 1152 864 75 false;
  minimode_of 1280 768 60 true;
  minimode_of 1280 768 60 false;
  minimode_of 1280 768 75 false;
  minimode_of 1280 768 85 false;
  minimode_of 1280 960 60 false;
  minimode_of 1280 960 85 false;
  minimode_of 1280 1024 60 false;
  minimode_of 1280 1024 85 false;
  minimode_of 1360 768 60 false;
  minimode_of 1440 900 60 true;
  minimode_of 1440 900 60 false;
  minimode_of 1440 900 75 false;
  minimode_of 1440 900 85 false;
  minimode_of 1400 1050 60 true;
  minimode_of 1400 1050 60 false;
  minimode_of 1400 1050 75 false;
  minimode_of 1400 1050 85 false;
  minimode_of 1680 1050 60 true;
  minimode_of 1680 1050 60 false;
  minimode_of 1680 1050 75 false;
  minimode_of 1680 1050 85 false;
  minimode_of 1600 1200 60 false;
  minimode_of 1600 1200 65 false;
  minimode_of 1600 1200 70 false;
  minimode_of 1600 1200 75 false;
  minimode_of 1600 1200 85 false;
  minimode_of 1792 1344 60 false;
  minimode_of 1792 1344 75 false;
  minimode_of 1856 1392 60 false;
  minimode_of 1856 1392 75 false;
  minimode_of 1920 1200 60 true;
  minimode_of 1920 1200 60 false;
  minimode_of 1920 1200 75 false;
  minimode_of 1920 1200 85 false;
  minimode_of 1920 1440 60 false;
  minimode_of 1920 1440 75 false].

Definition extra_modes : list minimode := [
  minimode_of 1024 576 60 false;
  minimode_of 1366 768 60 false;
  minimode_of 1600 900 60 false;
  minimode_of 1680 945 60 false;
  minimode_of 1920 1080 60 false;
  minimode_of 2048 1152 60 false;
  minimode_of 2048 1536 60 false].

Definition edid_cea_modes : list (drm_display_mode * Z) := [
  (no_mode, HDMI_PICTURE_ASPECT_NONE);
  (with_vrefresh 60 (DRM_MODE "640x480" DRM_MODE_TYPE_DRIVER 25175 640 656 752 800 0 480 490 492 525 0 (DRM_MODE_FLAG_NHSYNC ||| DRM_MODE_FLAG_NVSYNC)), HDMI_PICTURE_ASPECT_4_3);
  (with_vrefresh 60 (DRM_MODE "720x480" DRM_MODE_TYPE_DRIVER 27000 720 736 798 858 0 480 489 495 525 0 (DRM_MODE_FLAG_NHSYNC ||| DRM_MODE_FLAG_NVSYNC)), HDMI_PICTURE_ASPECT_4_3);
  (with_vrefresh 60 (DRM_MODE "720x480" DRM_MODE_TYPE_DRIVER 27000 720 736 798 858 0 480 489 495 525 0 (DRM_MODE_FLAG_NHSYNC ||| DRM_MODE_FLAG_NVSYNC)), HDMI_PICTURE_ASPECT_16_9);
  (with_vrefresh 60 (DRM_MODE "1280x720" DRM_MODE_TYPE_DRIVER 74250 1280 1390 1430 1650 0 720 725 730 750 0 (DRM_MODE_FLAG_PHSYNC ||| DRM_MODE_FLAG_PVSYNC)), HDMI_PICTURE_ASPECT_16_9);
  (with_vrefresh 60 (DRM_MODE "1920x1080i" DRM_MODE_TYPE_DRIVER 74250 1920 2008 2052 2200 0 1080 1084 1094 1125 0 (DRM_MODE_FLAG_PHSYNC ||| DRM_MODE_FLAG_PVSYNC ||| DRM_MODE_FLAG_INTERLACE)), HDMI_PICTURE_ASPECT_16_9);
  (with_vrefresh 60 (DRM_MODE "720x480i" DRM_MODE_TYPE_DRIVER 13500 720 739 801 858 0 480 488 494 525 0 (DRM_MODE_FLAG_NHSYNC ||| DRM_MODE_FLAG_NVSYNC ||| DRM_MODE_FLAG_INTERLACE ||| DRM_MODE_FLAG_DBLCLK)), HDMI_PICTURE_ASPECT_4_3);
  (with_vrefresh 60 (DRM_MODE "720x480i" DRM_MODE_TYPE_DRIVER 13500 720 739 801 858 0 480 488 494 525 0 (DRM_MODE_FLAG_NHSYNC ||| DRM_MODE_FLAG_NVSYNC ||| DRM_MODE_FLAG_INTERLACE ||| DRM_MODE_FLAG_DBLCLK)), HDMI_PICTURE_ASPECT_16_9);
  (with_vrefresh 60 (DRM_MODE "720x240" DRM_MODE_TYPE_DRIVER 13500 720 739 801 858 0 240 244 247 262 0 (DRM_MODE_FLAG_NHSYNC ||| DRM_MODE_FLAG_NVSYNC ||| DRM_MODE_FLAG_DBLCLK)), HDMI_PICTURE_ASPECT_4_3);
  (with_vrefresh 60 (DRM_MODE "720x240" DRM_MODE_TYPE_DRIVER 13500 720 739 801 858 0 240 244 247 262 0 (DRM_MODE_FLAG_NHSYNC ||| DRM_MODE_FLAG_NVSYNC ||| DRM_MODE_FLAG_DBLCLK)), HDMI_PICTURE_ASPECT_16_9);
  (with_vrefresh 60 (DRM_MODE "2880x480i" DRM_MODE_TYPE_DRIVER 54000 2880 2956 3204 3432 0 480 488 494 525 0 (DRM_MODE_FLAG_NHSYNC ||| DRM_MODE_FLAG_NVSYNC ||| DRM_MODE_FLAG_INTERLACE)), HDMI_PICTURE_ASPECT_4_3);
  (with_vrefresh 60 (DRM_MODE "2880x480i" DRM_MODE_TYPE_DRIVER 54000 2880 2956 3204 3432 0 480 488 494 525 0 (DRM_MODE_FLAG_NHSYNC ||| DRM_MODE_FLAG_NVSYNC ||| DRM_MODE_FLAG_INTERLACE)), HDMI_PICTURE_ASPECT_16_9);
  (with_vrefresh 60 (DRM_MODE "2880x240" DRM_MODE_TYPE_DRIVER 54000 2880 2956 3204 3432 0 240 244 247 262 0 (DRM_MODE_FLAG_NHSYNC ||| DRM_MODE_FLAG_NVSYNC)), HDMI_PICTURE_ASPECT_4_3);
  (with_vrefresh 60 (DRM_MODE "2880x240" DRM_MODE_TYPE_DRIVER 54000 2880 2956 3204 3432 0 240 244 247 262 0 (DRM_MODE_FLAG_NHSYNC ||| DRM_MODE_FLAG_NVSYNC)), HDMI_PICTURE_ASPECT_16_9);
  (with_vrefresh 60 (DRM_MODE "1440x480" DRM_MODE_TYPE_DRIVER 54000 1440 1472 1596 1716 0 480 489 495 525 0 (DRM_MODE_FLAG_NHSYNC ||| DRM_MODE_FLAG_NVSYNC)), HDMI_PICTURE_ASPECT_4_3);
  (with_vrefresh 60 (DRM_MODE "1440x480" DRM_MODE_TYPE_DRIVER 54000 1440 1472 1596 1716 0 480 489 495 525 0 (DRM_MODE_FLAG_NHSYNC ||| DRM_MODE_FLAG_NVSYNC)), HDMI_PICTURE_ASPECT_16_9);
  (with_vrefresh 60 (DRM_MODE "1920x1080" DRM_MODE_TYPE_DRIVER 148500 1920 2008 2052 2200 0 1080 1084 1089 1125 0 (DRM_MODE_FLAG_PHSYNC ||| DRM_MODE_FLAG_PVSYNC)), HDMI_PICTURE_ASPECT_16_9);
  (with_vrefresh 50 (DRM_MODE "720x576" DRM_MODE_TYPE_DRIVER 27000 720 732 796 864 0 576 581 586 625 0 (DRM_MODE_FLAG_NHSYNC ||| DRM_MODE_FLAG_NVSYNC)), HDMI_PICTURE_ASPECT_4_3);
  (with_vrefresh 50 (DRM_MODE "720x576" DRM_MODE_TYPE_DRIVER 27000 720 732 796 864 0 576 581 586 625 0 (DRM_MODE_FLAG_NHSYNC ||| DRM_MODE_FLAG_NVSYNC)), HDMI_PICTURE_ASPECT_16_9);
  (with_vrefresh 50 (DRM_MODE "1280x720" DRM_MODE_TYPE_DRIVER 74250 1280 1720 1760 1980 0 720 725 730 750 0 (DRM_MODE_FLAG_PHSYNC ||| DRM_MODE_FLAG_PVSYNC)), HDMI_PICTURE_ASPECT_16_9);
  (with_vrefresh 50 (DRM_MODE "1920x1080i" DRM_MODE_TYPE_DRIVER 74250 1920 2448 2492 2640 0 1080 1084 1094 1125 0 (DRM_MODE_FLAG_PHSYNC ||| DRM_MODE_FLAG_PVSYNC ||| DRM_MODE_FLAG_INTERLACE)), HDMI_PICTURE_ASPECT_16_9);
  (with_vrefresh 50 (DRM_MODE "720x576i" DRM_MODE_TYPE_DRIVER 13500 720 732 795 864 0 576 580 586 625 0 (DRM_MODE_FLAG_NHSYNC ||| DRM_MODE_FLAG_NVSYNC ||| DRM_MODE_FLAG_INTERLACE ||| DRM_MODE_FLAG_DBLCLK)), HDMI_PICTURE_ASPECT_4_3);
  (with_vrefresh 50 (DRM_MODE "720x576i" DRM_MODE_TYPE_DRIVER 13500 720 732 795 864 0 576 580 586 625 0 (DRM_MODE_FLAG_NHSYNC ||| DRM_MODE_FLAG_NVSYNC ||| DRM_MODE_FLAG_INTERLACE ||| DRM_MODE_FLAG_DBLCLK)), HDMI_PICTURE_ASPECT_16_9);
  (with_vrefresh 50 (DRM_MODE "720x288" DRM_MODE_TYPE_DRIVER 13500 720 732 795 864 0 288 290 293 312 0 (DRM_MODE_FLAG_NHSYNC ||| DRM_MODE_FLAG_NVSYNC ||| DRM_MODE_FLAG_DBLCLK)), HDMI_PICTURE_ASPECT_4_3);
  (with_vrefresh 50 (DRM_MODE "720x288" DRM_MODE_TYPE_DRIVER 13500 720 732 795 864 0 288 290 293 312 0 (DRM_MODE_FLAG_NHSYNC ||| DRM_MODE_FLAG_NVSYNC ||| DRM_MODE_FLAG_DBLCLK)), HDMI_PICTURE_ASPECT_16_9);
  (with_vrefresh 50 (DRM_MODE "2880x576i" DRM_MODE_TYPE_DRIVER 54000 2880 2928 3180 3456 0 576 580 586 625 0 (DRM_MODE_FLAG_NHSYNC ||| DRM_MODE_FLAG_NVSYNC ||| DRM_MODE_FLAG_INTERLACE)), HDMI_PICTURE_ASPECT_4_3);
  (with_vrefresh 50 (DRM_MODE "2880x576i" DRM_MODE_TYPE_DRIVER 54000 2880 2928 3180 3456 0 576 580 586 625 0 (DRM_MODE_FLAG_NHSYNC ||| DRM_MODE_FLAG_NVSYNC ||| DRM_MODE_FLAG_INTERLACE)), HDMI_PICTURE_ASPECT_16_9);
  (with_vrefresh 50 (DRM_MODE "2880x288" DRM_MODE_TYPE_DRIVER 54000 2880 2928 3180 3456 0 288 290 293 312 0 (DRM_MODE_FLAG_NHSYNC ||| DRM_MODE_FLAG_NVSYNC)), HDMI_PICTURE_ASPECT_4_3);
  (with_vrefresh 50 (DRM_MODE "2880x288" DRM_MODE_TYPE_DRIVER 54000 2880 2928 3180 3456 0 288 290 293 312 0 (DRM_MODE_FLAG_NHSYNC ||| DRM_MODE_FLAG_NVSYNC)), HDMI_PICTURE_ASPECT_16_9);
  (with_vrefresh 50 (DRM_MODE "1440x576" DRM_MODE_TYPE_DRIVER 54000 1440 1464 1592 1728 0 576 581 586 625 0 (DRM_MODE_FLAG_NHSYNC ||| DRM_MODE_FLAG_NVSYNC)), HDMI_PICTURE_ASPECT_4_3);
  (with_vrefresh 50 (DRM_MODE "1440x576" DRM_MODE_TYPE_DRIVER 54000 1440 1464 1592 1728 0 576 581 586 625 0 (DRM_MODE_FLAG_NHSYNC ||| DRM_MODE_FLAG_NVSYNC)), HDMI_PICTURE_ASPECT_16_9);
  (with_vrefresh 50 (DRM_MODE "1920x1080" DRM_MODE_TYPE_DRIVER 148500 1920 2448 2492 2640 0 1080 1084 1089 1125 0 (DRM_MODE_FLAG_PHSYNC ||| DRM_MODE_FLAG_PVSYNC)), HDMI_PICTURE_ASPECT_16_9);
  (with_vrefresh 24 (DRM_MODE "1920x1080" DRM_MODE_TYPE_DRIVER 74250 1920 2558 2602 2750 0 1080 1084 1089 1125 0 (DRM_MODE_FLAG_PHSYNC ||| DRM_MODE_FLAG_PVSYNC)), HDMI_PICTURE_ASPECT_16_9);
  (with_vrefresh 25 (DRM_MODE "1920x1080" DRM_MODE_TYPE_DRIVER 74250 1920 2448 2492 2640 0 1080 1084 1089 1125 0 (DRM_MODE_FLAG_PHSYNC ||| DRM_MODE_FLAG_PVSYNC)), HDMI_PICTURE_ASPECT_16_9);
  (with_vrefresh 30 (DRM_MODE "1920x1080" DRM_MODE_TYPE_DRIVER 74250 1920 2008 2052 2200 0 1080 1084 1089 1125 0 (DRM_MODE_FLAG_PHSYNC ||| DRM_MODE_FLAG_PVSYNC)), HDMI_PICTURE_ASPECT_16_9);
  (with_vrefresh 60 (DRM_MODE "2880x480" DRM_MODE_TYPE_DRIVER 108000 2880 2944 3192 3432 0 480 489 495 525 0 (DRM_MODE_FLAG_NHSYNC ||| DRM_MODE_FLAG_NVSYNC)), HDMI_PICTURE_ASPECT_4_3);
  (with_vrefresh 60 (DRM_MODE "2880x480" DRM_MODE_TYPE_DRIVER 108000 2880 2944 3192 3432 0 480 489 495 525 0 (DRM_MODE_FLAG_NHSYNC ||| DRM_MODE_FLAG_NVSYNC)), HDMI_PICTURE_ASPECT_16_9);
  (with_vrefresh 50 (DRM_MODE "2880x576" DRM_MODE_TYPE_DRIVER 108000 2880 2928 3184 3456 0 576 581 586 625 0 (DRM_MODE_FLAG_NHSYNC ||| DRM_MODE_FLAG_NVSYNC)), HDMI_PICTURE_ASPECT_4_3);
  (with_vrefresh 50 (DRM_MODE "2880x576" DRM_MODE_TYPE_DRIVER 108000 2880 2928 3184 3456 0 576 581 586 625 0 (DRM_MODE_FLAG_NHSYNC ||| DRM_MODE_FLAG_NVSYNC)), HDMI_PICTURE_ASPECT_16_9);
  (with_vrefresh 50 (DRM_MODE "1920x1080i" DRM_MODE_TYPE_DRIVER 72000 1920 1952 2120 2304 0 1080 1126 1136 1250 0 (DRM_MODE_FLAG_PHSYNC ||| DRM_MODE_FLAG_NVSYNC ||| DRM_MODE_FLAG_INTERLACE)), HDMI_PICTURE_ASPECT_16_9);
  (with_vrefresh 100 (DRM_MODE "1920x1080i" DRM_MODE_TYPE_DRIVER 148500 1920 2448 2492 2640 0 1080 1084 1094 1125 0 (DRM_MODE_FLAG_PHSYNC ||| DRM_MODE_FLAG_PVSYNC ||| DRM_MODE_FLAG_INTERLACE)), HDMI_PICTURE_ASPECT_16_9);
  (with_vrefresh 100 (DRM_MODE "1280x720" DRM_MODE_TYPE_DRIVER 148500 1280 1720 1760 1980 0 720 725 730 750 0 (DRM_MODE_FLAG_PHSYNC ||| DRM_MODE_FLAG_PVSYNC)), HDMI_PICTURE_ASPECT_16_9);
  (with_vrefresh 100 (DRM_MODE "720x576" DRM_MODE_TYPE_DRIVER 54000 720 732 796 864 0 576 581 586 625 0 (DRM_MODE_FLAG_NHSYNC ||| DRM_MODE_FLAG_NVSYNC)), HDMI_PICTURE_ASPECT_4_3);
  (with_vrefresh 100 (DRM_MODE "720x576" DRM_MODE_TYPE_DRIVER 54000 720 732 796 864 0 576 581 586 625 0 (DRM_MODE_FLAG_NHSYNC ||| DRM_MODE_FLAG_NVSYNC)), HDMI_PICTURE_ASPECT_16_9);
  (with_vrefresh 100 (DRM_MODE "720x576i" DRM_MODE_TYPE_DRIVER 27000 720 732 795 864 0 576 580 586 625 0 (DRM_MODE_FLAG_NHSYNC ||| DRM_MODE_FLAG_NVSYNC ||| DRM_MODE_FLAG_INTERLACE ||| DRM_MODE_FLAG_DBLCLK)), HDMI_PICTURE_ASPECT_4_3);
  (with_vrefresh 100 (DRM_MODE "720x576i" DRM_MODE_TYPE_DRIVER 27000 720 732 795 864 0 576 580 586 625 0 (DRM_MODE_FLAG_NHSYNC ||| DRM_MODE_FLAG_NVSYNC ||| DRM_MODE_FLAG_INTERLACE ||| DRM_MODE_FLAG_DBLCLK)), HDMI_PICTURE_ASPECT_16_9);
  (with_vrefresh 120 (DRM_MODE "1920x1080i" DRM_MODE_TYPE_DRIVER 148500 1920 2008 2052 2200 0 1080 1084 1094 1125 0 (DRM_MODE_FLAG_PHSYNC ||| DRM_MODE_FLAG_PVSYNC ||| DRM_MODE_FLAG_INTERLACE)), HDMI_PICTURE_ASPECT_16_9);
  (with_vrefresh 120 (DRM_MODE "1280x720" DRM_MODE_TYPE_DRIVER 148500 1280 1390 1430 1650 0 720 725 730 750 0 (DRM_MODE_FLAG_PHSYNC ||| DRM_MODE_FLAG_PVSYNC)), HDMI_PICTURE_ASPECT_16_9);
  (with_vrefresh 120 (DRM_MODE "720x480" DRM_MODE_TYPE_DRIVER 54000 720 736 798 858 0 480 489 495 525 0 (DRM_MODE_FLAG_NHSYNC ||| DRM_MODE_FLAG_NVSYNC)), HDMI_PICTURE_ASPECT_4_3);
  (with_vrefresh 120 (DRM_MODE "720x480" DRM_MODE_TYPE_DRIVER 54000 720 736 798 858 0 480 489 495 525 0 (DRM_MODE_FLAG_NHSYNC ||| DRM_MODE_FLAG_NVSYNC)), HDMI_PICTURE_ASPECT_16_9);
  (with_vrefresh 120 (DRM_MODE "720x480i" DRM_MODE_TYPE_DRIVER 27000 720 739 801 858 0 480 488 494 525 0 (DRM_MODE_FLAG_NHSYNC ||| DRM_MODE_FLAG_NVSYNC ||| DRM_MODE_FLAG_INTERLACE ||| DRM_MODE_FLAG_DBLCLK)), HDMI_PICTURE_ASPECT_4_3);
  (with_vrefresh 120 (DRM_MODE "720x480i" DRM_MODE_TYPE_DRIVER 27000 720 739 801 858 0 480 488 494 525 0 (DRM_MODE_FLAG_NHSYNC ||| DRM_MODE_FLAG_NVSYNC ||| DRM_MODE_FLAG_INTERLACE ||| DRM_MODE_FLAG_DBLCLK)), HDMI_PICTURE_ASPECT_16_9);
  (with_vrefresh 200 (DRM_MODE "720x576" DRM_MODE_TYPE_DRIVER 108000 720 732 796 864 0 576 581 586 625 0 (DRM_MODE_FLAG_NHSYNC ||| DRM_MODE_FLAG_NVSYNC)), HDMI_PICTURE_ASPECT_4_3);
  (with_vrefresh 200 (DRM_MODE "720x576" DRM_MODE_TYPE_DRIVER 108000 720 732 796 864 0 576 581 586 625 0 (DRM_MODE_FLAG_NHSYNC ||| DRM_MODE_FLAG_NVSYNC)), HDMI_PICTURE_ASPECT_16_9);
  (with_vrefresh 200 (DRM_MODE "720x576i" DRM_MODE_TYPE_DRIVER 54000 720 732 795 864 0 576 580 586 625 0 (DRM_MODE_FLAG_NHSYNC ||| DRM_MODE_FLAG_NVSYNC ||| DRM_MODE_FLAG_INTERLACE ||| DRM_MODE_FLAG_DBLCLK)), HDMI_PICTURE_ASPECT_4_3);
  (with_vrefresh 200 (DRM_MODE "720x576i" DRM_MODE_TYPE_DRIVER 54000 720 732 795 864 0 576 580 586 625 0 (DRM_MODE_FLAG_NHSYNC ||| DRM_MODE_FLAG_NVSYNC ||| DRM_MODE_FLAG_INTERLACE ||| DRM_MODE_FLAG_DBLCLK)), HDMI_PICTURE_ASPECT_16_9);
  (with_vrefresh 240 (DRM_MODE "720x480" DRM_MODE_TYPE_DRIVER 108000 720 736 798 858 0 480 489 495 525 0 (DRM_MODE_FLAG_NHSYNC ||| DRM_MODE_FLAG_NVSYNC)), HDMI_PICTURE_ASPECT_4_3);
  (with_vrefresh 240 (DRM_MODE "720x480" DRM_MODE_TYPE_DRIVER 108000 720 736 798 858 0 480 489 495 525 0 (DRM_MODE_FLAG_NHSYNC ||| DRM_MODE_FLAG_NVSYNC)), HDMI_PICTURE_ASPECT_16_9);
  (with_vrefresh 240 (DRM_MODE "720x480i" DRM_MODE_TYPE_DRIVER 54000 720 739 801 858 0 480 488 494 525 0 (DRM_MODE_FLAG_NHSYNC ||| DRM_MODE_FLAG_NVSYNC ||| DRM_MODE_FLAG_INTERLACE ||| DRM_MODE_FLAG_DBLCLK)), HDMI_PICTURE_ASPECT_4_3);
  (with_vrefresh 240 (DRM_MODE "720x480i" DRM_MODE_TYPE_DRIVER 54000 720 739 801 858 0 480 488 494 525 0 (DRM_MODE_FLAG_NHSYNC ||| DRM_MODE_FLAG_NVSYNC ||| DRM_MODE_FLAG_INTERLACE ||| DRM_MODE_FLAG_DBLCLK)), HDMI_PICTURE_ASPECT_16_9);
  (with_vrefresh 24 (DRM_MODE "1280x720" DRM_MODE_TYPE_DRIVER 59400 1280 3040 3080 3300 0 720 725 730 750 0 (DRM_MODE_FLAG_PHSYNC ||| DRM_MODE_FLAG_PVSYNC)), HDMI_PICTURE_ASPECT_16_9);
  (with_vrefresh 25 (DRM_MODE "1280x720" DRM_MODE_TYPE_DRIVER 74250 1280 3700 3740 3960 0 720 725 730 750 0 (DRM_MODE_FLAG_PHSYNC ||| DRM_MODE_FLAG_PVSYNC)), HDMI_PICTURE_ASPECT_16_9);
  (with_vrefresh 30 (DRM_MODE "1280x720" DRM_MODE_TYPE_DRIVER 74250 1280 3040 3080 3300 0 720 725 730 750 0 (DRM_MODE_FLAG_PHSYNC ||| DRM_MODE_FLAG_PVSYNC)), HDMI_PICTURE_ASPECT_16_9);
  (with_vrefresh 120 (DRM_MODE "1920x1080" DRM_MODE_TYPE_DRIVER 297000 1920 2008 2052 2200 0 1080 1084 1089 1125 0 (DRM_MODE_FLAG_PHSYNC ||| DRM_MODE_FLAG_PVSYNC)), HDMI_PICTURE_ASPECT_16_9);
  (with_vrefresh 100 (DRM_MODE "1920x1080" DRM_MODE_TYPE_DRIVER 297000 1920 2448 2492 2640 0 1080 1084 1089 1125 0 (DRM_MODE_FLAG_PHSYNC ||| DRM_MODE_FLAG_PVSYNC)), HDMI_PICTURE_ASPECT_16_9);
  (with_vrefresh 24 (DRM_MODE "1280x720" DRM_MODE_TYPE_DRIVER 59400 1280 3040 3080 3300 0 720 725 730 750 0 (DRM_MODE_FLAG_PHSYNC ||| DRM_MODE_FLAG_PVSYNC)), HDMI_PICTURE_ASPECT_64_27);
  (with_vrefresh 25 (DRM_MODE "1280x720" DRM_MODE_TYPE_DRIVER 74250 1280 3700 3740 3960 0 720 725 730 750 0 (DRM_MODE_FLAG_PHSYNC ||| DRM_MODE_FLAG_PVSYNC)), HDMI_PICTURE_ASPECT_64_27);
  (with_vrefresh 30 (DRM_MODE "1280x720" DRM_MODE_TYPE_DRIVER 74250 1280 3040 3080 3300 0 720 725 730 750 0 (DRM_MODE_FLAG_PHSYNC ||| DRM_MODE_FLAG_PVSYNC)), HDMI_PICTURE_ASPECT_64_27);
  (with_vrefresh 50 (DRM_MODE "1280x720" DRM_MODE_TYPE_DRIVER 74250 1280 1720 1760 1980 0 720 725 730 750 0 (DRM_MODE_FLAG_PHSYNC ||| DRM_MODE_FLAG_PVSYNC)), HDMI_PICTURE_ASPECT_64_27);
  (with_vrefresh 60 (DRM_MODE "1280x720" DRM_MODE_TYPE_DRIVER 74250 1280 1390 1430 1650 0 720 725 730 750 0 (DRM_MODE_FLAG_PHSYNC ||| DRM_MODE_FLAG_PVSYNC)), HDMI_PICTURE_ASPECT_64_27);
  (with_vrefresh 100 (DRM_MODE "1280x720" DRM_MODE_TYPE_DRIVER 148500 1280 1720 1760 1980 0 720 725 730 750 0 (DRM_MODE_FLAG_PHSYNC ||| DRM_MODE_FLAG_PVSYNC)), HDMI_PICTURE_ASPECT_64_27);
  (with_vrefresh 120 (DRM_MODE "1280x720" DRM_MODE_TYPE_DRIVER 148500 1280 1390 1430 1650 0 720 725 730 750 0 (DRM_MODE_FLAG_PHSYNC ||| DRM_MODE_FLAG_PVSYNC)), HDMI_PICTURE_ASPECT_64_27);
  (with_vrefresh 24 (DRM_MODE "1920x1080" DRM_MODE_TYPE_DRIVER 74250 1920 2558 2602 2750 0 1080 1084 1089 1125 0 (DRM_MODE_FLAG_PHSYNC ||| DRM_MODE_FLAG_PVSYNC)), HDMI_PICTURE_ASPECT_64_27);
  (with_vrefresh 25 (DRM_MODE "1920x1080" DRM_MODE_TYPE_DRIVER 74250 1920 2448 2492 2640 0 1080 1084 1089 1125 0 (DRM_MODE_FLAG_PHSYNC ||| DRM_MODE_FLAG_PVSYNC)), HDMI_PICTURE_ASPECT_64_27);
  (with_vrefresh 30 (DRM_MODE "1920x1080" DRM_MODE_TYPE_DRIVER 74250 1920 2008 2052 2200 0 1080 1084 1089 1125 0 (DRM_MODE_FLAG_PHSYNC ||| DRM_MODE_FLAG_PVSYNC)), HDMI_PICTURE_ASPECT_64_27);
  (with_vrefresh 50 (DRM_MODE "1920x1080" DRM_MODE_TYPE_DRIVER 148500 1920 2448 2492 2640 0 1080 1084 1089 1125 0 (DRM_MODE_FLAG_PHSYNC ||| DRM_MODE_FLAG_PVSYNC)), HDMI_PICTURE_ASPECT_64_27);
  (with_vrefresh 60 (DRM_MODE "1920x1080" DRM_MODE_TYPE_DRIVER 148500 1920 2008 2052 2200 0 1080 1084 1089 1125 0 (DRM_MODE_FLAG_PHSYNC ||| DRM_MODE_FLAG_PVSYNC)), HDMI_PICTURE_ASPECT_64_27);
  (with_vrefresh 100 (DRM_MODE "1920x1080" DRM_MODE_TYPE_DRIVER 297000 1920 2448 2492 2640 0 1080 1084 1089 1125 0 (DRM_MODE_FLAG_PHSYNC ||| DRM_MODE_FLAG_PVSYNC)), HDMI_PICTURE_ASPECT_64_27);
  (with_vrefresh 120 (DRM_MODE "1920x1080" DRM_MODE_TYPE_DRIVER 297000 1920 2008 2052 2200 0 1080 1084 1089 1125 0 (DRM_MODE_FLAG_PHSYNC ||| DRM_MODE_FLAG_PVSYNC)), HDMI_PICTURE_ASPECT_64_27);
  (with_vrefresh 24 (DRM_MODE "1680x720" DRM_MODE_TYPE_DRIVER 59400 1680 3040 3080 3300 0 720 725 730 750 0 (DRM_MODE_FLAG_PHSYNC ||| DRM_MODE_FLAG_PVSYNC)), HDMI_PICTURE_ASPECT_64_27);
  (with_vrefresh 25 (DRM_MODE "1680x720" DRM_MODE_TYPE_DRIVER 59400 1680 2908 2948 3168 0 720 725 730 750 0 (DRM_MODE_FLAG_PHSYNC ||| DRM_MODE_FLAG_PVSYNC)), HDMI_PICTURE_ASPECT_64_27);
  (with_vrefresh 30 (DRM_MODE "1680x720" DRM_MODE_TYPE_DRIVER 59400 1680 2380 2420 2640 0 720 725 730 750 0 (DRM_MODE_FLAG_PHSYNC ||| DRM_MODE_FLAG_PVSYNC)), HDMI_PICTURE_ASPECT_64_27);
  (with_vrefresh 50 (DRM_MODE "1680x720" DRM_MODE_TYPE_DRIVER 82500 1680 1940 1980 2200 0 720 725 730 750 0 (DRM_MODE_FLAG_PHSYNC ||| DRM_MODE_FLAG_PVSYNC)), HDMI_PICTURE_ASPECT_64_27);
  (with_vrefresh 60 (DRM_MODE "1680x720" DRM_MODE_TYPE_DRIVER 99000 1680 1940 1980 2200 0 720 725 730 750 0 (DRM_MODE_FLAG_PHSYNC ||| DRM_MODE_FLAG_PVSYNC)), HDMI_PICTURE_ASPECT_64_27);
  (with_vrefresh 100 (DRM_MODE "1680x720" DRM_MODE_TYPE_DRIVER 165000 1680 1740 1780 2000 0 720 725 730 825 0 (DRM_MODE_FLAG_PHSYNC ||| DRM_MODE_FLAG_PVSYNC)), HDMI_PICTURE_ASPECT_64_27);
  (with_vrefresh 120 (DRM_MODE "1680x720" DRM_MODE_TYPE_DRIVER 198000 1680 1740 1780 2000 0 720 725 730 825 0 (DRM_MODE_FLAG_PHSYNC ||| DRM_MODE_FLAG_PVSYNC)), HDMI_PICTURE_ASPECT_64_27);
  (with_vrefresh 24 (DRM_MODE "2560x1080" DRM_MODE_TYPE_DRIVER 99000 2560 3558 3602 3750 0 1080 1084 1089 1100 0 (DRM_MODE_FLAG_PHSYNC ||| DRM_MODE_FLAG_PVSYNC)), HDMI_PICTURE_ASPECT_64_27);
  (with_vrefresh 25 (DRM_MODE "2560x1080" DRM_MODE_TYPE_DRIVER 90000 2560 3008 3052 3200 0 1080 1084 1089 1125 0 (DRM_MODE_FLAG_PHSYNC ||| DRM_MODE_FLAG_PVSYNC)), HDMI_PICTURE_ASPECT_64_27);
  (with_vrefresh 30 (DRM_MODE "2560x1080" DRM_MODE_TYPE_DRIVER 118800 2560 3328 3372 3520 0 1080 1084 1089 1125 0 (DRM_MODE_FLAG_PHSYNC ||| DRM_MODE_FLAG_PVSYNC)), HDMI_PICTURE_ASPECT_64_27);
  (with_vrefresh 50 (DRM_MODE "2560x1080" DRM_MODE_TYPE_DRIVER 185625 2560 3108 3152 3300 0 1080 1084 1089 1125 0 (DRM_MODE_FLAG_PHSYNC ||| DRM_MODE_FLAG_PVSYNC)), HDMI_PICTURE_ASPECT_64_27);
  (with_vrefresh 60 (DRM_MODE "2560x1080" DRM_MODE_TYPE_DRIVER 198000 2560 2808 2852 3000 0 1080 1084 1089 1100 0 (DRM_MODE_FLAG_PHSYNC ||| DRM_MODE_FLAG_PVSYNC)), HDMI_PICTURE_ASPECT_64_27);
  (with_vrefresh 100 (DRM_MODE "2560x1080" DRM_MODE_TYPE_DRIVER 371250 2560 2778 2822 2970 0 1080 1084 1089 1250 0 (DRM_MODE_FLAG_PHSYNC ||| DRM_MODE_FLAG_PVSYNC)), HDMI_PICTURE_ASPECT_64_27);
  (with_vrefresh 120 (DRM_MODE "2560x1080" DRM_MODE_TYPE_DRIVER 495000 2560 3108 3152 3300 0 1080 1084 1089 1250 0 (DRM_MODE_FLAG_PHSYNC ||| DRM_MODE_FLAG_PVSYNC)), HDMI_PICTURE_ASPECT_64_27);
  (with_vrefresh 24 (DRM_MODE "3840x2160" DRM_MODE_TYPE_DRIVER 297000 3840 5116 5204 5500 0 2160 2168 2178 2250 0 (DRM_MODE_FLAG_PHSYNC ||| DRM_MODE_FLAG_PVSYNC)), HDMI_PICTURE_ASPECT_16_9);
  (with_vrefresh 25 (DRM_MODE "3840x2160" DRM_MODE_TYPE_DRIVER 297000 3840 4896 4984 5280 0 2160 2168 2178 2250 0 (DRM_MODE_FLAG_PHSYNC ||| DRM_MODE_FLAG_PVSYNC)), HDMI_PICTURE_ASPECT_16_9);
  (with_vrefresh 30 (DRM_MODE "3840x2160" DRM_MODE_TYPE_DRIVER 297000 3840 4016 4104 4400 0 2160 2168 2178 2250 0 (DRM_MODE_FLAG_PHSYNC ||| DRM_MODE_FLAG_PVSYNC)), HDMI_PICTURE_ASPECT_16_9);
  (with_vrefresh 50 (DRM_MODE "3840x2160" DRM_MODE_TYPE_DRIVER 594000 3840 4896 4984 5280 0 2160 2168 2178 2250 0 (DRM_MODE_FLAG_PHSYNC ||| DRM_MODE_FLAG_PVSYNC)), HDMI_PICTURE_ASPECT_16_9);
  (with_vrefresh 60 (DRM_MODE "3840x2160" DRM_MODE_TYPE_DRIVER 594000 3840 4016 4104 4400 0 2160 2168 2178 2250 0 (DRM_MODE_FLAG_PHSYNC ||| DRM_MODE_FLAG_PVSYNC)), HDMI_PICTURE_ASPECT_16_9);
  (with_vrefresh 24 (DRM_MODE "4096x2160" DRM_MODE_TYPE_DRIVER 297000 4096 5116 5204 5500 0 2160 2168 2178 2250 0 (DRM_MODE_FLAG_PHSYNC ||| DRM_MODE_FLAG_PVSYNC)), HDMI_PICTURE_ASPECT_256_135);
  (with_vrefresh 25 (DRM_MODE "4096x2160" DRM_MODE_TYPE_DRIVER 297000 4096 5064 5152 5280 0 2160 2168 2178 2250 0 (DRM_MODE_FLAG_PHSYNC ||| DRM_MODE_FLAG_PVSYNC)), HDMI_PICTURE_ASPECT_256_135);
  (with_vrefresh 30 (DRM_MODE "4096x2160" DRM_MODE_TYPE_DRIVER 297000 4096 4184 4272 4400 0 2160 2168 2178 2250 0 (DRM_MODE_FLAG_PHSYNC ||| DRM_MODE_FLAG_PVSYNC)), HDMI_PICTURE_ASPECT_256_135);
  (with_vrefresh 50 (DRM_MODE "4096x2160" DRM_MODE_TYPE_DRIVER 594000 4096 5064 5152 5280 0 2160 2168 2178 2250 0 (DRM_MODE_FLAG_PHSYNC ||| DRM_MODE_FLAG_PVSYNC)), HDMI_PICTURE_ASPECT_256_135);
  (with_vrefresh 60 (DRM_MODE "4096x2160" DRM_MODE_TYPE_DRIVER 594000 4096 4184 4272 4400 0 2160 2168 2178 2250 0 (DRM_MODE_FLAG_PHSYNC ||| DRM_MODE_FLAG_PVSYNC)), HDMI_PICTURE_ASPECT_256_135);
  (with_vrefresh 24 (DRM_MODE "3840x2160" DRM_MODE_TYPE_DRIVER 297000 3840 5116 5204 5500 0 2160 2168 2178 2250 0 (DRM_MODE_FLAG_PHSYNC ||| DRM_MODE_FLAG_PVSYNC)), HDMI_PICTURE_ASPECT_64_27);
  (with_vrefresh 25 (DRM_MODE "3840x2160" DRM_MODE_TYPE_DRIVER 297000 3840 4896 4984 5280 0 2160 2168 2178 2250 0 (DRM_MODE_FLAG_PHSYNC ||| DRM_MODE_FLAG_PVSYNC)), HDMI_PICTURE_ASPECT_64_27);
  (with_vrefresh 30 (DRM_MODE "3840x2160" DRM_MODE_TYPE_DRIVER 297000 3840 4016 4104 4400 0 2160 2168 2178 2250 0 (DRM_MODE_FLAG_PHSYNC ||| DRM_MODE_FLAG_PVSYNC)), HDMI_PICTURE_ASPECT_64_27);
  (with_vrefresh 50 (DRM_MODE "3840x2160" DRM_MODE_TYPE_DRIVER 594000 3840 4896 4984 5280 0 2160 2168 2178 2250 0 (DRM_MODE_FLAG_PHSYNC ||| DRM_MODE_FLAG_PVSYNC)), HDMI_PICTURE_ASPECT_64_27);
  (with_vrefresh 60 (DRM_MODE "3840x2160" DRM_MODE_TYPE_DRIVER 594000 3840 4016 4104 4400 0 2160 2168 2178 2250 0 (DRM_MODE_FLAG_PHSYNC ||| DRM_MODE_FLAG_PVSYNC)), HDMI_PICTURE_ASPECT_64_27)].

Definition edid_4k_modes : list drm_display_mode := [
  no_mode;
  with_vrefresh 30 (DRM_MODE "3840x2160" DRM_MODE_TYPE_DRIVER 297000 3840 4016 4104 4400 0 2160 2168 2178 2250 0 (DRM_MODE_FLAG_PHSYNC ||| DRM_MODE_FLAG_PVSYNC));
  with_vrefresh 25 (DRM_MODE "3840x2160" DRM_MODE_TYPE_DRIVER 297000 3840 4896 4984 5280 0 2160 2168 2178 2250 0 (DRM_MODE_FLAG_PHSYNC ||| DRM_MODE_FLAG_PVSYNC));
  with_vrefresh 24 (DRM_MODE "3840x2160" DRM_MODE_TYPE_DRIVER 297000 3840 5116 5204 5500 0 2160 2168 2178 2250 0 (DRM_MODE_FLAG_PHSYNC ||| DRM_MODE_FLAG_PVSYNC));
  with_vrefresh 24 (DRM_MODE "4096x2160" DRM_MODE_TYPE_DRIVER 297000 4096 5116 5204 5500 0 2160 2168 2178 2250 0 (DRM_MODE_FLAG_PHSYNC ||| DRM_MODE_FLAG_PVSYNC))].

(** ** The tables are well formed *)

Definition mode_ok (m : drm_display_mode) : bool :=
  bool_decide (drm_mode_validate_basic m = MODE_OK) &&
  bool_decide (name m = mode_name (hdisplay m) (vdisplay m) (has_flag (flags m) DRM_MODE_FLAG_INTERLACE)) &&
  ((vrefresh m =? 0) || (vrefresh m =? drm_mode_vrefresh (with_vrefresh 0 m))) &&
  (type_ m =? DRM_MODE_TYPE_DRIVER).

Lemma mode_ok_spec m : mode_ok m = true ->
  drm_mode_validate_basic m = MODE_OK /\
  name m = mode_name (hdisplay m) (vdisplay m) (has_flag (flags m) DRM_MODE_FLAG_INTERLACE) /\
  (vrefresh m = 0 \/ vrefresh m = drm_mode_vrefresh (with_vrefresh 0 m)) /\ type_ m = DRM_MODE_TYPE_DRIVER.
Proof.
  unfold mode_ok. rewrite !andb_true_iff, orb_true_iff, !Z.eqb_eq, !bool_decide_eq_true. tauto.
Qed.

(** All modes of the tables. *)
Definition table_modes : list drm_display_mode :=
  drm_dmt_modes ++ edid_est_modes ++ tail edid_cea_modes.*1 ++ tail edid_4k_modes.

Lemma table_modes_ok : forallb mode_ok table_modes = true.
Proof. vm_compute. reflexivity. Qed.

Lemma in_tables m : m ∈ table_modes -> mode_ok m = true.
Proof. intros Hm. pose proof table_modes_ok as H. rewrite forallb_forall in H. apply H. by apply list_elem_of_In. Qed.

(** Every mode of the DMT, established, CEA and HDMI tables passes validation, is named by its size, and if the
    table gives it a refresh rate it is the rate of its timings. *)
Theorem edid_tables_valid m : m ∈ drm_dmt_modes \/ m ∈ edid_est_modes \/ m ∈ tail edid_cea_modes.*1 \/ m ∈ tail edid_4k_modes ->
  drm_mode_validate_basic m = MODE_OK /\
  name m = mode_name (hdisplay m) (vdisplay m) (has_flag (flags m) DRM_MODE_FLAG_INTERLACE) /\
  (vrefresh m = 0 \/ vrefresh m = drm_mode_vrefresh (with_vrefresh 0 m)) /\ type_ m = DRM_MODE_TYPE_DRIVER.
Proof.
  intros Hm. apply mode_ok_spec, in_tables. unfold table_modes. rewrite !elem_of_app. tauto.
Qed.

Lemma edid_tables_valid_witness : exists m, edid_est_modes !! 0%nat = Some m /\ drm_mode_validate_basic m = MODE_OK.
Proof.
  eexists. split; [reflexivity|]. apply edid_tables_valid. right. left. left.
Defined.
