(* ===== verification/EdidModes.v ===== *)
(** * Display modes from EDIDs ([drm_edid.c])

    Matching modes against the CEA and HDMI tables, detailed timings, standard timings,
    established timings and CVT codes, and the lists of modes they add to a connector.

    The probed modes of a connector are a list; a new mode goes to its end.  [None] is a division by
    zero or an access outside of the EDID; allocations are taken to succeed.

    Theorems: [drm_match_cea_mode] finds the first CEA mode with the timings, whichever of
    its clocks and of the allowed front porches is used; detailed timings are decoded into
    what was encoded, and every mode they give is valid; adjusting a clock to a standard mode
    moves it by at most 5 kHz.  EDIDs that make the kernel divide by zero are shown. *)

From S2P Require Import Prelude Bytes Rect Modes ModeGen Edid EdidTables.
From stdpp Require Import base gmap list option.
From Stdlib Require Import ZArith Lia ZifyBool.

#[local] Set Warnings "-clear-no-such-hyp".

#[local] Open Scope Z_scope.

(** ** CEA and HDMI modes *)

(** [DIV_ROUND_CLOSEST] on unsigned numbers *)
Definition DIV_ROUND_CLOSEST (x divisor : Z) : Z := u32 (x + divisor / 2) / divisor.

Definition cea_mode_alternate_clock (cea_mode : drm_display_mode) : Z :=
  let c := u32 (clock cea_mode) in
  if negb (Z.rem (vrefresh cea_mode) 6 =? 0) then c
  else if (vdisplay cea_mode =? 240) || (vdisplay cea_mode =? 480) then DIV_ROUND_CLOSEST (u32 (c * 1001)) 1000
  else DIV_ROUND_CLOSEST (u32 (c * 1000)) 1001.

(** The mode with [k] lines more in front of the vertical sync. *)
Definition shift_lines (k : Z) (p : drm_display_mode) : drm_display_mode :=
  {| name := name p; status := status p; type_ := type_ p; clock := clock p;
     hdisplay := hdisplay p; hsync_start := hsync_start p; hsync_end := hsync_end p;
     htotal := htotal p; hskew := hskew p; vdisplay := vdisplay p; vsync_start := vsync_start p + k;
     vsync_end := vsync_end p + k; vtotal := vtotal p + k; vscan := vscan p; flags := flags p;
     vrefresh := vrefresh p; hsync := hsync p; crtc := crtc p |}.

Definition cea_mode_alternate_timings (vic : Z) (mode : drm_display_mode) : bool * drm_display_mode :=
  if (((vic =? 8) || (vic =? 9) || (vic =? 12) || (vic =? 13)) && (vtotal mode <? 263)) ||
     (((vic =? 23) || (vic =? 24) || (vic =? 27) || (vic =? 28)) && (vtotal mode <? 314))
  then (true, shift_lines 1 mode) else (false, mode).

(** The inner loop of the matching functions.  Each turn adds a line, up to 314 of them. *)
Fixpoint match_variants (fuel : nat) (vic : Z) (to_match cea_mode : drm_display_mode) : option bool :=
  match fuel with
  | O => None
  | S fuel' =>
    if drm_mode_equal_no_clocks_no_stereo to_match cea_mode then Some true
    else
      let '(again, cea_mode) := cea_mode_alternate_timings vic cea_mode in
      if again then match_variants fuel' vic to_match cea_mode else Some false
  end.

Definition variants_fuel (cea_mode : drm_display_mode) : nat := S (Z.to_nat (314 - vtotal cea_mode)).

(** The outer loop: the first table entry, from number [vic] on, that passes the test; 0 if there is none. *)
Fixpoint first_vic (test : Z -> drm_display_mode -> option bool) (vic : Z) (modes : list drm_display_mode) : option Z :=
  match modes with
  | [] => Some 0
  | m :: modes' =>
    b ← test vic m;
    if (b : bool) then Some vic else first_vic test (u8 (vic + 1)) modes'
  end.

Definition near_clock (tolerance clock1 clock2 : Z) (m : drm_display_mode) : bool :=
  negb ((tolerance <? Z.abs (s32 (clock m - clock1))) && (tolerance <? Z.abs (s32 (clock m - clock2)))).

(** Whether the period of a mode is that of one of two clocks; [None]: a division by zero. *)
Definition same_period (clock1 clock2 : Z) (m : drm_display_mode) : option bool :=
  if (clock m =? 0) || (clock1 =? 0) then None
  else if KHZ2PICOS (u64 (clock m)) =? KHZ2PICOS clock1 then Some true
  else if clock2 =? 0 then None else Some (KHZ2PICOS (u64 (clock m)) =? KHZ2PICOS clock2).

Definition cea_modes : list drm_display_mode := edid_cea_modes.*1.

Definition drm_match_cea_mode_clock_tolerance (to_match : drm_display_mode) (clock_tolerance : Z) : option Z :=
  if clock to_match =? 0 then Some 0
  else
    first_vic (fun vic cea_mode =>
      if near_clock clock_tolerance (u32 (clock cea_mode)) (cea_mode_alternate_clock cea_mode) to_match
      then match_variants (variants_fuel cea_mode) vic to_match cea_mode else Some false) 1 (tail cea_modes).

Definition drm_match_cea_mode (to_match : drm_display_mode) : option Z :=
  if clock to_match =? 0 then Some 0
  else
    first_vic (fun vic cea_mode =>
      p ← same_period (u32 (clock cea_mode)) (cea_mode_alternate_clock cea_mode) to_match;
      if (p : bool)
      then match_variants (variants_fuel cea_mode) vic to_match cea_mode else Some false) 1 (tail cea_modes).

Definition drm_valid_cea_vic (vic : Z) : bool := (0 <? vic) && (vic <? Z.of_nat (length edid_cea_modes)).

Definition drm_get_cea_aspect_ratio (video_code : Z) : option Z :=
  e ← edid_cea_modes !! Z.to_nat video_code; Some e.2.

Definition hdmi_mode_alternate_clock (hdmi_mode : drm_display_mode) : Z :=
  if (vdisplay hdmi_mode =? 4096) && (hdisplay hdmi_mode =? 2160) then u32 (clock hdmi_mode)
  else cea_mode_alternate_clock hdmi_mode.

Definition drm_match_hdmi_mode_clock_tolerance (to_match : drm_display_mode) (clock_tolerance : Z) : option Z :=
  if clock to_match =? 0 then Some 0
  else
    first_vic (fun vic hdmi_mode =>
      Some (near_clock clock_tolerance (u32 (clock hdmi_mode)) (hdmi_mode_alternate_clock hdmi_mode) to_match &&
            drm_mode_equal_no_clocks to_match hdmi_mode)) 1 (tail edid_4k_modes).

Definition drm_match_hdmi_mode (to_match : drm_display_mode) : option Z :=
  if clock to_match =? 0 then Some 0
  else
    first_vic (fun vic hdmi_mode =>
      p ← same_period (u32 (clock hdmi_mode)) (hdmi_mode_alternate_clock hdmi_mode) to_match;
      Some (p && drm_mode_equal_no_clocks_no_stereo to_match hdmi_mode)) 1 (tail edid_4k_modes).

Definition drm_valid_hdmi_vic (vic : Z) : bool := (0 <? vic) && (vic <? Z.of_nat (length edid_4k_modes)).

Definition HDMI_QUANTIZATION_RANGE_LIMITED : Z := 1.
Definition HDMI_QUANTIZATION_RANGE_FULL : Z := 2.

Definition drm_default_rgb_quant_range (mode : drm_display_mode) : option Z :=
  vic ← drm_match_cea_mode mode;
  Some (if 1 <? vic then HDMI_QUANTIZATION_RANGE_LIMITED else HDMI_QUANTIZATION_RANGE_FULL).

Definition with_clock (c : Z) (p : drm_display_mode) : drm_display_mode :=
  {| name := name p; status := status p; type_ := type_ p; clock := c;
     hdisplay := hdisplay p; hsync_start := hsync_start p; hsync_end := hsync_end p;
     htotal := htotal p; hskew := hskew p; vdisplay := vdisplay p; vsync_start := vsync_start p;
     vsync_end := vsync_end p; vtotal := vtotal p; vscan := vscan p; flags := flags p;
     vrefresh := vrefresh p; hsync := hsync p; crtc := crtc p |}.

(** The clock that is closest. *)
Definition pick_clock (clock1 clock2 : Z) (mode : drm_display_mode) : drm_display_mode :=
  with_clock (if Z.abs (s32 (clock mode - clock1)) <? Z.abs (s32 (clock mode - clock2)) then clock1 else clock2) mode.

Definition fixup_detailed_cea_mode_clock (mode : drm_display_mode) : option drm_display_mode :=
  vic ← drm_match_cea_mode_clock_tolerance mode 5;
  if drm_valid_cea_vic vic then
    cea_mode ← cea_modes !! Z.to_nat vic;
    Some (pick_clock (s32 (clock cea_mode)) (s32 (cea_mode_alternate_clock cea_mode)) mode)
  else
    vic ← drm_match_hdmi_mode_clock_tolerance mode 5;
    if drm_valid_hdmi_vic vic then
      cea_mode ← edid_4k_modes !! Z.to_nat vic;
      Some (pick_clock (s32 (clock cea_mode)) (s32 (hdmi_mode_alternate_clock cea_mode)) mode)
    else Some mode.

Definition svd_to_vic (svd : Z) : Z :=
  if ((1 <=? svd) && (svd <=? 64)) || ((129 <=? svd) && (svd <=? 192)) then Z.land svd 127 else svd.

(** [video_db]: the payload of the video block. *)
Definition drm_display_mode_from_vic_index (video_db : list Z) (video_index : nat) : option (option drm_display_mode) :=
  if (length video_db <=? video_index)%nat then Some None
  else
    svd ← video_db !! video_index;
    let vic := svd_to_vic svd in
    if negb (drm_valid_cea_vic vic) then Some None
    else m ← cea_modes !! Z.to_nat vic; Some (Some (with_vrefresh 0 m)).

(** ** Detailed timings *)

Definition DRM_EDID_PT_HSYNC_POSITIVE : Z := Z.shiftl 1 1.
Definition DRM_EDID_PT_VSYNC_POSITIVE : Z := Z.shiftl 1 2.
Definition DRM_EDID_PT_STEREO : Z := Z.shiftl 1 5.
Definition DRM_EDID_PT_INTERLACED : Z := Z.shiftl 1 7.

Definition cea_interlaced : list (Z * Z) :=
  [(1920, 1080); (720, 480); (1440, 480); (2880, 480); (720, 576); (1440, 576); (2880, 576)].

(** The vertical timings of a mode given as fields. *)
Definition drm_mode_do_interlace_quirk (hd misc : Z) (v : vtimes) : bool * vtimes :=
  if negb (has_flag misc DRM_EDID_PT_INTERLACED) then (false, v)
  else
    (true,
     foldl (fun (v : vtimes) wh =>
       let '(vd, vs, ve, vt) := v in
       if (hd =? wh.1) && (vd =? wh.2 / 2) then (vd * 2, vs * 2, ve * 2, Z.lor (vt * 2) 1) else v) v cea_interlaced).

(** A detailed timing as its fields. *)
Record detailed_fields := {
  df_clock : Z; df_hactive : Z; df_hblank : Z; df_vactive : Z; df_vblank : Z;
  df_hsync_offset : Z; df_hsync_pulse_width : Z; df_vsync_offset : Z; df_vsync_pulse_width : Z;
  df_width_mm : Z; df_height_mm : Z; df_misc : Z
}.

Definition detailed_fields_of (timing : list Z) : option detailed_fields :=
  match timing with
  | [c0; c1; hactive_lo; hblank_lo; hactive_hblank_hi; vactive_lo; vblank_lo; vactive_vblank_hi; hsync_offset_lo;
     hsync_pulse_width_lo; vsync_offset_pulse_width_lo; hsync_vsync_offset_pulse_width_hi; width_mm_lo; height_mm_lo;
     width_height_mm_hi; hborder; vborder; misc] =>
    Some {| df_clock := Z.lor c0 (Z.shiftl c1 8);
            df_hactive := Z.lor (Z.shiftl (Z.land hactive_hblank_hi 0xf0) 4) hactive_lo;
            df_vactive := Z.lor (Z.shiftl (Z.land vactive_vblank_hi 0xf0) 4) vactive_lo;
            df_hblank := Z.lor (Z.shiftl (Z.land hactive_hblank_hi 0xf) 8) hblank_lo;
            df_vblank := Z.lor (Z.shiftl (Z.land vactive_vblank_hi 0xf) 8) vblank_lo;
            df_hsync_offset := Z.lor (Z.shiftl (Z.land hsync_vsync_offset_pulse_width_hi 0xc0) 2) hsync_offset_lo;
            df_hsync_pulse_width := Z.lor (Z.shiftl (Z.land hsync_vsync_offset_pulse_width_hi 0x30) 4) hsync_pulse_width_lo;
            df_vsync_offset :=
              Z.lor (Z.shiftl (Z.land hsync_vsync_offset_pulse_width_hi 0xc) 2) (Z.shiftr vsync_offset_pulse_width_lo 4);
            df_vsync_pulse_width :=
              Z.lor (Z.shiftl (Z.land hsync_vsync_offset_pulse_width_hi 0x3) 4) (Z.land vsync_offset_pulse_width_lo 0xf);
            df_width_mm := Z.lor width_mm_lo (Z.shiftl (Z.land width_height_mm_hi 0xf0) 4);
            df_height_mm := Z.lor height_mm_lo (Z.shiftl (Z.land width_height_mm_hi 0xf) 8);
            df_misc := misc |}
  | _ => None
  end.

(** The mode of a detailed timing, before its size is set; sizes have at most 12 bits, so that no
    sum wraps around. *)
Definition detailed_mode (f : detailed_fields) (c misc : Z) : drm_display_mode :=
  let hd := df_hactive f in
  let hss := hd + df_hsync_offset f in
  let hse := hss + df_hsync_pulse_width f in
  let ht := hd + df_hblank f in
  let vd := df_vactive f in
  let vss := vd + df_vsync_offset f in
  let vse := vss + df_vsync_pulse_width f in
  let vt := vd + df_vblank f in
  let ht := if ht <? hse then hse + 1 else ht in
  let vt := if vt <? vse then vse + 1 else vt in
  let '(interlaced, (vd, vss, vse, vt)) := drm_mode_do_interlace_quirk hd (df_misc f) (vd, vss, vse, vt) in
  let fl := if interlaced then DRM_MODE_FLAG_INTERLACE else 0 in
  let fl := Z.lor fl (if has_flag misc DRM_EDID_PT_HSYNC_POSITIVE then DRM_MODE_FLAG_PHSYNC else DRM_MODE_FLAG_NHSYNC) in
  let fl := Z.lor fl (if has_flag misc DRM_EDID_PT_VSYNC_POSITIVE then DRM_MODE_FLAG_PVSYNC else DRM_MODE_FLAG_NVSYNC) in
  {| name := []; status := MODE_OK; type_ := 0; clock := c;
     hdisplay := hd; hsync_start := hss; hsync_end := hse; htotal := ht; hskew := 0;
     vdisplay := vd; vsync_start := vss; vsync_end := vse; vtotal := vt; vscan := 0;
     flags := fl; vrefresh := 0; hsync := 0; crtc := no_crtc |}.

(** The end of [drm_mode_detailed]: the mode, its width and its height in millimetres. *)
Definition set_size (edid : list Z) (f : detailed_fields) (quirks : Z) (mode : drm_display_mode)
    : option (drm_display_mode * Z * Z) :=
  let '(w, h) := (df_width_mm f, df_height_mm f) in
  let '(w, h) := if has_flag quirks EDID_QUIRK_DETAILED_IN_CM then (w * 10, h * 10) else (w, h) in
  wh ← (if has_flag quirks EDID_QUIRK_DETAILED_USE_MAXIMUM_SIZE
        then w ← edid !! 21%nat; h ← edid !! 22%nat; Some (w * 10, h * 10) else Some (w, h));
  let mode := with_type DRM_MODE_TYPE_DRIVER mode in
  let mode := with_vrefresh (drm_mode_vrefresh mode) mode in
  Some (drm_mode_set_name mode, wh.1, wh.2).

(** Also returns the timing, which two of the quirks change in the EDID itself. *)
Definition drm_mode_detailed (edid timing : list Z) (quirks : Z) : option (option (drm_display_mode * Z * Z) * list Z) :=
  f ← detailed_fields_of timing;
  if (df_hactive f <? 64) || (df_vactive f <? 64) then Some (None, timing)
  else if has_flag (df_misc f) DRM_EDID_PT_STEREO then Some (None, timing)
  else if (df_hsync_pulse_width f =? 0) || (df_vsync_pulse_width f =? 0) then Some (None, timing)
  else if has_flag quirks EDID_QUIRK_FORCE_REDUCED_BLANKING then
    mode ← drm_cvt_mode (df_hactive f) (df_vactive f) 60 true false false;
    r ← set_size edid f quirks mode; Some (Some r, timing)
  else
    let '(clk, timing) :=
      if has_flag quirks EDID_QUIRK_135_CLOCK_TOO_HIGH then (1088, [0x40; 0x04] ++ drop 2 timing) else (df_clock f, timing) in
    let '(misc, timing) :=
      if has_flag quirks EDID_QUIRK_DETAILED_SYNC_PP
      then let misc := Z.lor (df_misc f) (Z.lor DRM_EDID_PT_HSYNC_POSITIVE DRM_EDID_PT_VSYNC_POSITIVE) in
           (misc, take 17 timing ++ [misc])
      else (df_misc f, timing) in
    r ← set_size edid f quirks (detailed_mode f (clk * 10) misc);
    Some (Some r, timing).

(** ** The modes of a connector *)

(** [drm_mode_probed_add] *)
Definition drm_mode_probed_add (probed_modes : list drm_display_mode) (mode : drm_display_mode) : list drm_display_mode :=
  probed_modes ++ [mode].

(** The state of a walk over detailed timings: the modes so far, the number of modes that were added, and whether
    the next one is preferred. *)
Record mode_closure := { mc_modes : list drm_display_mode; mc_added : Z; mc_preferred : bool }.

Definition add_mode (m : drm_display_mode) (c : mode_closure) : mode_closure :=
  {| mc_modes := drm_mode_probed_add (mc_modes c) m; mc_added := mc_added c + 1; mc_preferred := mc_preferred c |}.

(** Runs the callback [cb] over the timings of the walk. *)
Fixpoint each_detailed {A} (cb : list Z -> A -> option A) (ts : list (nat * list Z)) (c : A) : option A :=
  match ts with
  | [] => Some c
  | t :: ts' => c ← cb t.2 c; each_detailed cb ts' c
  end.

Definition version_greater (edid : list Z) (maj min : Z) : option bool :=
  v ← edid !! 18%nat; r ← edid !! 19%nat; Some ((maj <? v) || ((v =? maj) && (min <? r))).

(** [timing->pixel_clock] *)
Definition pixel_clock (timing : list Z) : option Z :=
  c0 ← timing !! 0%nat; c1 ← timing !! 1%nat; Some (Z.lor c0 (Z.shiftl c1 8)).

Definition do_detailed_mode (edid : list Z) (quirks : Z) (timing : list Z) (c : mode_closure) : option mode_closure :=
  clk ← pixel_clock timing;
  if clk =? 0 then Some c
  else
    r ← drm_mode_detailed edid timing quirks;
    match r.1 with
    | None => Some c
    | Some (newmode, _, _) =>
      let newmode := if mc_preferred c then with_type (Z.lor (type_ newmode) DRM_MODE_TYPE_PREFERRED) newmode else newmode in
      newmode ← fixup_detailed_cea_mode_clock newmode;
      Some {| mc_modes := drm_mode_probed_add (mc_modes c) newmode; mc_added := mc_added c + 1; mc_preferred := false |}
    end.

(** The changes that quirks make to timings are not seen again by this walk: the timings
    it visits are disjoint, unless an extension announces an offset below 4. *)
Definition add_detailed_modes (edid : list Z) (quirks : Z) (probed_modes : list drm_display_mode) : option mode_closure :=
  features ← edid !! 24%nat;
  g ← version_greater edid 1 3;
  let preferred := if negb g then has_flag features (Z.shiftl 1 1) else true in
  ts ← drm_for_each_detailed_block edid;
  each_detailed (do_detailed_mode edid quirks) ts {| mc_modes := probed_modes; mc_added := 0; mc_preferred := preferred |}.

(** ** Standard timings *)

Definition mode_is_rb (mode : drm_display_mode) : bool :=
  (htotal mode - hdisplay mode =? 160) && (hsync_end mode - hdisplay mode =? 80) &&
  (hsync_end mode - hsync_start mode =? 32) && (vsync_start mode - vdisplay mode =? 3).

Definition drm_mode_find_dmt (hsize vsize fresh : Z) (rb : bool) : option drm_display_mode :=
  List.find (fun ptr => (hsize =? hdisplay ptr) && (vsize =? vdisplay ptr) && (fresh =? drm_mode_vrefresh ptr) &&
                        Bool.eqb rb (mode_is_rb ptr)) drm_dmt_modes.

Definition EDID_DETAIL_MONITOR_RANGE : Z := 0xfd.
Definition DRM_EDID_INPUT_DIGITAL : Z := Z.shiftl 1 7.

Definition is_rb (t : list Z) (data : bool) : option bool :=
  r3 ← t !! 3%nat;
  if r3 =? EDID_DETAIL_MONITOR_RANGE then r15 ← t !! 15%nat; Some (has_flag r15 0x10 || data) else Some data.

Definition drm_monitor_supports_rb (edid : list Z) : option bool :=
  revision ← edid !! 19%nat;
  if 4 <=? revision then ts ← drm_for_each_detailed_block edid; each_detailed is_rb ts false
  else input ← edid !! 20%nat; Some (has_flag input DRM_EDID_INPUT_DIGITAL).

Definition find_gtf2 (t : list Z) (data : option (list Z)) : option (option (list Z)) :=
  r3 ← t !! 3%nat; r10 ← t !! 10%nat;
  Some (if (r3 =? EDID_DETAIL_MONITOR_RANGE) && (r10 =? 0x02) then Some t else data).

(** The functions [drm_gtf2_*]: the range descriptor with the secondary curve, and its parameters. *)
Definition gtf2_range (edid : list Z) : option (option (list Z)) :=
  ts ← drm_for_each_detailed_block edid; each_detailed find_gtf2 ts None.

Definition gtf2_byte (k : nat) (r : option (list Z)) : option Z :=
  match r with Some t => t !! k | None => Some 0 end.

Definition drm_gtf2_hbreak (edid : list Z) : option Z := r ← gtf2_range edid; b ← gtf2_byte 12 r; Some (b * 2).
Definition drm_gtf2_2c (edid : list Z) : option Z := r ← gtf2_range edid; gtf2_byte 13 r.
Definition drm_gtf2_m (edid : list Z) : option Z :=
  r ← gtf2_range edid; hi ← gtf2_byte 15 r; lo ← gtf2_byte 14 r; Some (Z.shiftl hi 8 + lo).
Definition drm_gtf2_k (edid : list Z) : option Z := r ← gtf2_range edid; gtf2_byte 16 r.
Definition drm_gtf2_2j (edid : list Z) : option Z := r ← gtf2_range edid; gtf2_byte 17 r.

Inductive timing_level := LEVEL_DMT | LEVEL_GTF | LEVEL_GTF2 | LEVEL_CVT.

Definition standard_timing_level (edid : list Z) : option timing_level :=
  revision ← edid !! 19%nat;
  features ← edid !! 24%nat;
  if 2 <=? revision then
    if (4 <=? revision) && has_flag features (Z.shiftl 1 0) then Some LEVEL_CVT
    else hbreak ← drm_gtf2_hbreak edid; Some (if negb (hbreak =? 0) then LEVEL_GTF2 else LEVEL_GTF)
  else Some LEVEL_DMT.

Definition bad_std_timing (a b : Z) : bool :=
  ((a =? 0x00) && (b =? 0x00)) || ((a =? 0x01) && (b =? 0x01)) || ((a =? 0x20) && (b =? 0x20)).

(** The size and the refresh rate of a standard timing. *)
Definition std_size (revision hsize_byte vfreq_aspect : Z) : Z * Z * Z :=
  let aspect_ratio := Z.shiftr (Z.land vfreq_aspect 0xc0) 6 in
  let vfreq := Z.shiftr (Z.land vfreq_aspect 0x3f) 0 in
  let hsize := hsize_byte * 8 + 248 in
  let vrefresh_rate := vfreq + 60 in
  let vsize :=
    if aspect_ratio =? 0 then if revision <? 3 then hsize else hsize * 10 / 16
    else if aspect_ratio =? 1 then hsize * 3 / 4
    else if aspect_ratio =? 2 then hsize * 4 / 5
    else hsize * 9 / 16 in
  if (vrefresh_rate =? 60) && (((hsize =? 1360) && (vsize =? 765)) || ((hsize =? 1368) && (vsize =? 769)))
  then (1366, 768, vrefresh_rate) else (hsize, vsize, vrefresh_rate).

Definition with_hsync (hd hss hse : Z) (p : drm_display_mode) : drm_display_mode :=
  {| name := name p; status := status p; type_ := type_ p; clock := clock p;
     hdisplay := hd; hsync_start := hss; hsync_end := hse;
     htotal := htotal p; hskew := hskew p; vdisplay := vdisplay p; vsync_start := vsync_start p;
     vsync_end := vsync_end p; vtotal := vtotal p; vscan := vscan p; flags := flags p;
     vrefresh := vrefresh p; hsync := hsync p; crtc := crtc p |}.

(** The part of [drm_mode_std] that generates a mode. *)
Definition std_generate (edid : list Z) (level : timing_level) (hsize vsize rate : Z) : option (option drm_display_mode) :=
  match level with
  | LEVEL_DMT => Some None
  | LEVEL_GTF => m ← drm_gtf_mode hsize vsize rate false 0; Some (Some m)
  | LEVEL_GTF2 =>
    m ← drm_gtf_mode hsize vsize rate false 0;
    hs ← drm_mode_hsync m;
    hbreak ← drm_gtf2_hbreak edid;
    if hbreak <? hs then
      gm ← drm_gtf2_m edid; g2c ← drm_gtf2_2c edid; gk ← drm_gtf2_k edid; g2j ← drm_gtf2_2j edid;
      m ← drm_gtf_mode_complex hsize vsize rate false 0 gm g2c gk g2j;
      Some (Some m)
    else Some (Some m)
  | LEVEL_CVT => m ← drm_cvt_mode hsize vsize rate false false false; Some (Some m)
  end.

Definition drm_mode_std (edid : list Z) (probed_modes : list drm_display_mode) (hsize_byte vfreq_aspect : Z)
    : option (option drm_display_mode) :=
  level ← standard_timing_level edid;
  if bad_std_timing hsize_byte vfreq_aspect then Some None
  else
    revision ← edid !! 19%nat;
    let '(hsize, vsize, rate) := std_size revision hsize_byte vfreq_aspect in
    if existsb (fun m => (hdisplay m =? hsize) && (vdisplay m =? vsize) && (drm_mode_vrefresh m =? rate)) probed_modes
    then Some None
    else if (hsize =? 1366) && (vsize =? 768) && (rate =? 60) then
      mode ← drm_cvt_mode 1366 768 rate false false false;
      Some (Some (with_hsync 1366 (hsync_start mode - 1) (hsync_end mode - 1) mode))
    else
      rb ← drm_monitor_supports_rb edid;
      match (if (rb : bool) then drm_mode_find_dmt hsize vsize rate true else None) with
      | Some mode => Some (Some mode)
      | None =>
        match drm_mode_find_dmt hsize vsize rate false with
        | Some mode => Some (Some mode)
        | None => std_generate edid level hsize vsize rate
        end
      end.

(** [n] standard timings from byte [p] of [bytes] on. *)
Fixpoint add_std (n : nat) (edid bytes : list Z) (p : nat) (c : mode_closure) : option mode_closure :=
  match n with
  | O => Some c
  | S n' =>
    a ← bytes !! p; b ← bytes !! (p + 1)%nat;
    m ← drm_mode_std edid (mc_modes c) a b;
    add_std n' edid bytes (p + 2)%nat (match m with Some m => add_mode m c | None => c end)
  end.

Definition EDID_STD_TIMINGS : nat := 8.
Definition EDID_DETAIL_STD_MODES : Z := 0xfa.

Definition do_standard_modes (edid : list Z) (timing : list Z) (c : mode_closure) : option mode_closure :=
  type ← timing !! 3%nat;
  if type =? EDID_DETAIL_STD_MODES then add_std 6 edid timing 5 c else Some c.

Definition add_standard_modes (edid : list Z) (probed_modes : list drm_display_mode) : option mode_closure :=
  c ← add_std EDID_STD_TIMINGS edid edid 38 {| mc_modes := probed_modes; mc_added := 0; mc_preferred := false |};
  g ← version_greater edid 1 0;
  if (g : bool) then ts ← drm_for_each_detailed_block edid; each_detailed (do_standard_modes edid) ts c else Some c.

(** ** Established timings *)

Definition EDID_DETAIL_EST_TIMINGS : Z := 0xf7.

(** The bits of byte [i] of the established timings III, from bit [j - 1] down. *)
Fixpoint est3_byte (j : nat) (i : nat) (byte : Z) (c : mode_closure) : option mode_closure :=
  match j with
  | O => Some c
  | S j' =>
    match est3_modes !! (i * 8 + (7 - j'))%nat with
    | None => Some c
    | Some mm =>
      est3_byte j' i byte
        (if has_flag byte (Z.shiftl 1 (Z.of_nat j')) then
           match drm_mode_find_dmt (mm_w mm) (mm_h mm) (mm_r mm) (mm_rb mm) with Some m => add_mode m c | None => c end
         else c)
    end
  end.

Fixpoint est3_loop (n i : nat) (timing : list Z) (c : mode_closure) : option mode_closure :=
  match n with
  | O => Some c
  | S n' => b ← timing !! (6 + i)%nat; c ← est3_byte 8 i b c; est3_loop n' (S i) timing c
  end.

Definition drm_est3_modes (timing : list Z) (c : mode_closure) : option mode_closure := est3_loop 6 0 timing c.

Definition do_established_modes (timing : list Z) (c : mode_closure) : option mode_closure :=
  type ← timing !! 3%nat;
  if type =? EDID_DETAIL_EST_TIMINGS then drm_est3_modes timing c else Some c.

Definition EDID_EST_TIMINGS : nat := 16.

Fixpoint est_loop (n i : nat) (est_bits : Z) (c : mode_closure) : option mode_closure :=
  match n with
  | O => Some c
  | S n' =>
    c ← (if has_flag est_bits (Z.shiftl 1 (Z.of_nat i)) then m ← edid_est_modes !! i; Some (add_mode m c) else Some c);
    est_loop n' (S i) est_bits c
  end.

Definition add_established_modes (edid : list Z) (probed_modes : list drm_display_mode) : option mode_closure :=
  t1 ← edid !! 35%nat; t2 ← edid !! 36%nat; rsvd ← edid !! 37%nat;
  let est_bits := Z.lor (Z.lor t1 (Z.shiftl t2 8)) (Z.shiftl (Z.land rsvd 0x80) 9) in
  c ← est_loop (S EDID_EST_TIMINGS) 0 est_bits {| mc_modes := probed_modes; mc_added := 0; mc_preferred := false |};
  g ← version_greater edid 1 0;
  if (g : bool) then ts ← drm_for_each_detailed_block edid; each_detailed do_established_modes ts c else Some c.

(** ** CVT codes *)

Definition EDID_DETAIL_CVT_3BYTE : Z := 0xf8.
Definition cvt_rates : list Z := [60; 85; 75; 60; 50].

(** The rates of one code, [n] of them from number [j] on. *)
Fixpoint cvt_code_rates (n j : nat) (width height code2 : Z) (c : mode_closure) : option mode_closure :=
  match n with
  | O => Some c
  | S n' =>
    c ← (if has_flag code2 (Z.shiftl 1 (Z.of_nat j)) then
           rate ← cvt_rates !! j;
           m ← drm_cvt_mode width height rate (Nat.eqb j 0) false false;
           Some (add_mode m c)
         else Some c);
    cvt_code_rates n' (S j) width height code2 c
  end.

Fixpoint cvt_codes (n i : nat) (timing : list Z) (c : mode_closure) : option mode_closure :=
  match n with
  | O => Some c
  | S n' =>
    c0 ← timing !! (5 + 3 * i)%nat; c1 ← timing !! (6 + 3 * i)%nat; c2 ← timing !! (7 + 3 * i)%nat;
    c ← (if (c0 =? 0) && (c1 =? 0) && (c2 =? 0) then Some c
         else
           let height := (c0 + Z.shiftl (Z.land c1 0xf0) 4 + 1) * 2 in
           let aspect := Z.land c1 0x0c in
           let width := if aspect =? 0 then height * 4 / 3 else if aspect =? 0x04 then height * 16 / 9
                        else if aspect =? 0x08 then height * 16 / 10 else height * 15 / 9 in
           cvt_code_rates 4 1 width height c2 c);
    cvt_codes n' (S i) timing c
  end.

Definition drm_cvt_modes (timing : list Z) (c : mode_closure) : option mode_closure := cvt_codes 4 0 timing c.

Definition do_cvt_mode (timing : list Z) (c : mode_closure) : option mode_closure :=
  type ← timing !! 3%nat;
  if type =? EDID_DETAIL_CVT_3BYTE then drm_cvt_modes timing c else Some c.

Definition add_cvt_modes (edid : list Z) (probed_modes : list drm_display_mode) : option mode_closure :=
  g ← version_greater edid 1 2;
  let c := {| mc_modes := probed_modes; mc_added := 0; mc_preferred := false |} in
  if (g : bool) then ts ← drm_for_each_detailed_block edid; each_detailed do_cvt_mode ts c else Some c.

(** ** Matching CEA modes *)

(** The lines by which the front porch of a CEA mode may be longer than in the table. *)
Definition extra_lines (vic : Z) : list Z :=
  if (vic =? 8) || (vic =? 9) || (vic =? 12) || (vic =? 13) then [0; 1]
  else if (vic =? 23) || (vic =? 24) || (vic =? 27) || (vic =? 28) then [0; 1; 2]
  else [0].

Definition cea_timings_match (to_match : drm_display_mode) (vic : Z) (m : drm_display_mode) : bool :=
  existsb (fun k => drm_mode_equal_no_clocks_no_stereo to_match (shift_lines k m)) (extra_lines vic).

(** The heights of the modes with extra lines. *)
Definition vtotal_ok (vic : Z) (m : drm_display_mode) : bool :=
  if (vic =? 8) || (vic =? 9) || (vic =? 12) || (vic =? 13) then vtotal m =? 262
  else if (vic =? 23) || (vic =? 24) || (vic =? 27) || (vic =? 28) then vtotal m =? 312
  else true.

Lemma equal_shift0 a m : drm_mode_equal_no_clocks_no_stereo a (shift_lines 0 m) = drm_mode_equal_no_clocks_no_stereo a m.
Proof. unfold drm_mode_equal_no_clocks_no_stereo, shift_lines. simpl. by rewrite !Z.add_0_r. Qed.

Lemma equal_shift_shift a j k m : drm_mode_equal_no_clocks_no_stereo a (shift_lines j (shift_lines k m)) =
  drm_mode_equal_no_clocks_no_stereo a (shift_lines (k + j) m).
Proof. unfold drm_mode_equal_no_clocks_no_stereo, shift_lines. simpl. by rewrite !Z.add_assoc. Qed.

Lemma match_variants_step fuel vic a m again m' : cea_mode_alternate_timings vic m = (again, m') ->
  match_variants (S fuel) vic a m =
  if drm_mode_equal_no_clocks_no_stereo a m then Some true else if again then match_variants fuel vic a m' else Some false.
Proof. intros E. cbn [match_variants]. by rewrite E. Qed.

(** The inner loop ends and looks at the variants of the mode. *)
Lemma match_variants_ok vic a m : vtotal_ok vic m = true ->
  match_variants (variants_fuel m) vic a m = Some (cea_timings_match a vic m).
Proof.
  unfold vtotal_ok, cea_timings_match, extra_lines, variants_fuel. intros Hv.
  assert (forall p, cea_mode_alternate_timings vic p = (
    (((vic =? 8) || (vic =? 9) || (vic =? 12) || (vic =? 13)) && (vtotal p <? 263)) ||
    (((vic =? 23) || (vic =? 24) || (vic =? 27) || (vic =? 28)) && (vtotal p <? 314)),
    (cea_mode_alternate_timings vic p).2)) as Halt by (intros p; unfold cea_mode_alternate_timings; match goal with |- context [if ?b then _ else _] => by destruct b end).
  assert (forall p, (cea_mode_alternate_timings vic p).1 = true -> cea_mode_alternate_timings vic p = (true, shift_lines 1 p)) as Hyes
    by (intros p; unfold cea_mode_alternate_timings; match goal with |- context [if ?b then _ else _] => by destruct b end).
  destruct ((vic =? 8) || (vic =? 9) || (vic =? 12) || (vic =? 13)) eqn:E1;
    [|destruct ((vic =? 23) || (vic =? 24) || (vic =? 27) || (vic =? 28)) eqn:E2].
  - apply Z.eqb_eq in Hv. replace (Z.to_nat (314 - vtotal m)) with 52%nat by lia. cbn [existsb].
    rewrite (match_variants_step _ _ _ _ true (shift_lines 1 m)) by (apply Hyes; rewrite Halt; cbn [fst]; lia).
    rewrite (match_variants_step _ _ _ _ _ _ (Halt _)). cbn [vtotal shift_lines]. rewrite equal_shift0, orb_false_r.
    destruct (drm_mode_equal_no_clocks_no_stereo a m); [done|]. cbn [orb].
    destruct (drm_mode_equal_no_clocks_no_stereo a (shift_lines 1 m)); [done|].
    match goal with |- (if ?b then _ else _) = _ => replace b with false by lia end. done.
  - apply Z.eqb_eq in Hv. replace (Z.to_nat (314 - vtotal m)) with 2%nat by lia. cbn [existsb].
    rewrite (match_variants_step _ _ _ _ true (shift_lines 1 m)) by (apply Hyes; rewrite Halt; cbn [fst]; lia).
    rewrite (match_variants_step _ _ _ _ true (shift_lines 1 (shift_lines 1 m)))
      by (apply Hyes; rewrite Halt; cbn [fst vtotal shift_lines]; lia).
    rewrite (match_variants_step _ _ _ _ _ _ (Halt _)). cbn [vtotal shift_lines]. rewrite equal_shift0, equal_shift_shift, orb_false_r.
    change (1 + 1) with 2. destruct (drm_mode_equal_no_clocks_no_stereo a m); [done|]. cbn [orb].
    destruct (drm_mode_equal_no_clocks_no_stereo a (shift_lines 1 m)); [done|].
    destruct (drm_mode_equal_no_clocks_no_stereo a (shift_lines 2 m)); [done|].
    match goal with |- (if ?b then _ else _) = _ => replace b with false by lia end. done.
  - rewrite (match_variants_step _ _ _ _ _ _ (Halt _)). cbn [existsb]. rewrite equal_shift0, orb_false_r.
    by destruct (drm_mode_equal_no_clocks_no_stereo a m).
Qed.

(** The first table entry, from number [vic] on, that passes a test. *)
Fixpoint least_vic (test : Z -> drm_display_mode -> bool) (vic : Z) (modes : list drm_display_mode) : Z :=
  match modes with [] => 0 | m :: modes' => if test vic m then vic else least_vic test (vic + 1) modes' end.

Lemma first_vic_least test f modes : forall vic, 0 <= vic -> vic + Z.of_nat (length modes) <= 255 ->
  (forall i m, modes !! i = Some m -> test (vic + Z.of_nat i) m = Some (f (vic + Z.of_nat i) m)) ->
  first_vic test vic modes = Some (least_vic f vic modes).
Proof.
  induction modes as [|m modes IH]; intros vic H0 Hb Ht; [done|]. cbn [first_vic least_vic].
  pose proof (Ht 0%nat m eq_refl) as E. rewrite Z.add_0_r in E. rewrite E, bind_some. destruct (f vic m); [done|].
  simpl in Hb. rewrite u8_small by (unfold is_u8; lia). apply IH; [lia..|]. intros i m' Hi.
  specialize (Ht (S i) m' Hi). by replace (vic + 1 + Z.of_nat i) with (vic + Z.of_nat (S i)) by lia.
Qed.

Lemma least_vic_spec f modes : forall vic, 0 < vic ->
  (least_vic f vic modes = 0 /\ forall i m, modes !! i = Some m -> f (vic + Z.of_nat i) m = false) \/
  (exists i m, least_vic f vic modes = vic + Z.of_nat i /\ modes !! i = Some m /\ f (vic + Z.of_nat i) m = true /\
    forall j m', (j < i)%nat -> modes !! j = Some m' -> f (vic + Z.of_nat j) m' = false).
Proof.
  induction modes as [|m modes IH]; intros vic H0; [left; split; [done|]; intros i m Hi; by rewrite lookup_nil in Hi|]. cbn [least_vic].
  destruct (f vic m) eqn:Ef; [right; exists 0%nat, m; rewrite Z.add_0_r; split; [done|]; split; [done|]; split; [done|lia]|].
  destruct (IH (vic + 1) ltac:(lia)) as [[E H]|(i & m' & E & Hi & Hf & Hl)]; [left|right].
  - split; [done|]. intros [|i] m' Hm; simpl in Hm; [injection Hm as <-; by rewrite Z.add_0_r|].
    replace (vic + Z.of_nat (S i)) with (vic + 1 + Z.of_nat i) by lia. by apply H.
  - exists (S i), m'. replace (vic + Z.of_nat (S i)) with (vic + 1 + Z.of_nat i) by lia. do 3 (split; [done|]).
    intros [|j] m2 Hj Hm; simpl in Hm; [injection Hm as <-; by rewrite Z.add_0_r|].
    replace (vic + Z.of_nat (S j)) with (vic + 1 + Z.of_nat j) by lia. apply Hl; [lia|done].
Qed.

Lemma cea_vtotals : forallb (fun p => vtotal_ok (1 + Z.of_nat p.1) p.2) (combine (seq 0 107) (tail cea_modes)) = true.
Proof. vm_compute. reflexivity. Qed.

Lemma cea_vtotal i m : tail cea_modes !! i = Some m -> vtotal_ok (1 + Z.of_nat i) m = true.
Proof.
  intros Hi. pose proof cea_vtotals as H. rewrite forallb_forall in H. apply (H (i, m)). apply list_elem_of_In, list_elem_of_lookup.
  exists i. pose proof (lookup_lt_Some _ _ _ Hi) as Hl. assert (length (tail cea_modes) = 107%nat) as E by (vm_compute; reflexivity).
  rewrite E in Hl. apply lookup_zip_with_Some. exists i, m. split; [done|]. split; [|done]. apply lookup_seq. lia.
Qed.

(** The period of a mode is that of one of two clocks. *)
Definition has_period (clock1 clock2 : Z) (m : drm_display_mode) : bool :=
  (KHZ2PICOS (u64 (clock m)) =? KHZ2PICOS clock1) || (KHZ2PICOS (u64 (clock m)) =? KHZ2PICOS clock2).

Lemma same_period_ok clock1 clock2 m : clock m <> 0 -> clock1 <> 0 -> clock2 <> 0 -> same_period clock1 clock2 m = Some (has_period clock1 clock2 m).
Proof.
  intros H0 H1 H2. unfold same_period, has_period. destruct (Z.eqb_spec (clock m) 0), (Z.eqb_spec clock1 0), (Z.eqb_spec clock2 0); try lia. cbn [orb].
  by destruct (_ =? KHZ2PICOS clock1).
Qed.

(** No table entry has a clock of 0, nor an alternate clock. *)
Definition clocks_set (alternate : drm_display_mode -> Z) (m : drm_display_mode) : bool := negb (u32 (clock m) =? 0) && negb (alternate m =? 0).

Lemma table_clocks_set : forallb (clocks_set cea_mode_alternate_clock) (tail cea_modes) && forallb (clocks_set hdmi_mode_alternate_clock) (tail edid_4k_modes) = true.
Proof. vm_compute. reflexivity. Qed.

Lemma period_of_table alternate (modes : list drm_display_mode) a i m : forallb (clocks_set alternate) modes = true -> modes !! i = Some m -> clock a <> 0 ->
  same_period (u32 (clock m)) (alternate m) a = Some (has_period (u32 (clock m)) (alternate m) a).
Proof.
  intros Hall Hi Ha. rewrite forallb_forall in Hall. specialize (Hall m (proj1 (list_elem_of_In _ _) (list_elem_of_lookup_2 _ _ _ Hi))).
  unfold clocks_set in Hall. apply same_period_ok; [done|lia..].
Qed.

(** Whether a mode has the timings and one of the clocks of CEA mode [vic]. *)
Definition is_cea_mode (a : drm_display_mode) (vic : Z) (m : drm_display_mode) : bool :=
  has_period (u32 (clock m)) (cea_mode_alternate_clock m) a && cea_timings_match a vic m.

Lemma match_cea_least a : clock a <> 0 -> drm_match_cea_mode a = Some (least_vic (is_cea_mode a) 1 (tail cea_modes)).
Proof.
  intros Hc. unfold drm_match_cea_mode. destruct (Z.eqb_spec (clock a) 0); [done|].
  apply first_vic_least; [lia|vm_compute; discriminate|]. intros i m Hi. unfold is_cea_mode.
  rewrite (period_of_table _ (tail cea_modes) a i) by (done||apply (proj1 (proj1 (andb_true_iff _ _) table_clocks_set))). rewrite bind_some.
  destruct (has_period _ _ _); [|done]. apply match_variants_ok. by apply cea_vtotal.
Qed.

(** Whether a mode has the timings and one of the clocks of an HDMI mode. *)
Definition is_hdmi_mode (a : drm_display_mode) (vic : Z) (m : drm_display_mode) : bool :=
  has_period (u32 (clock m)) (hdmi_mode_alternate_clock m) a && drm_mode_equal_no_clocks_no_stereo a m.

Lemma match_hdmi_least a : clock a <> 0 -> drm_match_hdmi_mode a = Some (least_vic (is_hdmi_mode a) 1 (tail edid_4k_modes)).
Proof.
  intros Hc. unfold drm_match_hdmi_mode. destruct (Z.eqb_spec (clock a) 0); [done|].
  apply first_vic_least; [lia|vm_compute; discriminate|]. intros i m Hi.
  by rewrite (period_of_table _ (tail edid_4k_modes) a i) by (done||apply (proj2 (proj1 (andb_true_iff _ _) table_clocks_set))).
Qed.

Lemma cea_tail i m : tail cea_modes !! i = Some m <-> cea_modes !! S i = Some m.
Proof. unfold cea_modes. by destruct edid_cea_modes. Qed.

Lemma valid_vic i m : tail cea_modes !! i = Some m -> drm_valid_cea_vic (1 + Z.of_nat i) = true.
Proof.
  intros Hi. apply lookup_lt_Some in Hi. assert (length (tail cea_modes) = 107%nat) as E by (vm_compute; reflexivity). rewrite E in Hi.
  unfold drm_valid_cea_vic. assert (length edid_cea_modes = 108%nat) as -> by (vm_compute; reflexivity). lia.
Qed.

Lemma match_cea_first a : clock a <> 0 ->
  exists vic, drm_match_cea_mode a = Some vic /\
    ((vic = 0 /\ forall v m, 0 < v -> cea_modes !! Z.to_nat v = Some m -> is_cea_mode a v m = false) \/
     (drm_valid_cea_vic vic = true /\ (exists m, cea_modes !! Z.to_nat vic = Some m /\ is_cea_mode a vic m = true) /\
      forall v m, 0 < v < vic -> cea_modes !! Z.to_nat v = Some m -> is_cea_mode a v m = false)).
Proof.
  intros Hc. rewrite (match_cea_least a Hc). eexists. split; [done|].
  assert (forall v m, 0 < v -> cea_modes !! Z.to_nat v = Some m -> exists i, v = 1 + Z.of_nat i /\ tail cea_modes !! i = Some m) as Hidx.
  { intros v m Hv Hm. exists (Z.to_nat (v - 1)). split; [lia|]. apply cea_tail. by replace (S (Z.to_nat (v - 1))) with (Z.to_nat v) by lia. }
  destruct (least_vic_spec (is_cea_mode a) (tail cea_modes) 1 ltac:(lia)) as [[-> H]|(i & m & -> & Hi & Hf & Hl)]; [left|right].
  - split; [done|]. intros v m Hv Hm. destruct (Hidx v m Hv Hm) as (i & -> & Hi). by apply H.
  - split; [by eapply valid_vic|]. split.
    + exists m. split; [|done]. apply cea_tail in Hi. by replace (Z.to_nat (1 + Z.of_nat i)) with (S i) by lia.
    + intros v m' Hv Hm'. destruct (Hidx v m' ltac:(lia) Hm') as (j & -> & Hj). apply (Hl j m'); [lia|done].
Qed.

(** C35: [drm_match_cea_mode] always returns, without a division by zero and within the lines that the standard allows: for a mode without a
    clock 0, and for every other mode the first CEA mode that has its timings, with an allowed front porch, and the period of
    one of its two clocks, or 0 exactly when there is none. *)
Theorem drm_match_cea_mode_first a :
  exists vic, drm_match_cea_mode a = Some vic /\
    if clock a =? 0 then vic = 0
    else
      (vic = 0 /\ forall v m, 0 < v -> cea_modes !! Z.to_nat v = Some m -> is_cea_mode a v m = false) \/
      (drm_valid_cea_vic vic = true /\ (exists m, cea_modes !! Z.to_nat vic = Some m /\ is_cea_mode a vic m = true) /\
       forall v m, 0 < v < vic -> cea_modes !! Z.to_nat v = Some m -> is_cea_mode a v m = false).
Proof.
  destruct (Z.eqb_spec (clock a) 0) as [E|E]; [|by apply match_cea_first]. exists 0. split; [|done]. unfold drm_match_cea_mode. by rewrite E.
Qed.

(** ** Adjusted clocks *)

(** The clocks of the tables are numbers of 30 bits. *)
Definition clocks_small (alternate : drm_display_mode -> Z) (m : drm_display_mode) : bool :=
  (0 <=? clock m) && (clock m <? 2 ^ 30) && (0 <=? alternate m) && (alternate m <? 2 ^ 30).

Lemma cea_clocks m : m ∈ cea_modes -> clocks_small cea_mode_alternate_clock m = true.
Proof.
  intros Hm. assert (forallb (clocks_small cea_mode_alternate_clock) cea_modes = true) as H by (vm_compute; reflexivity).
  rewrite forallb_forall in H. apply H. by apply list_elem_of_In.
Qed.

Lemma hdmi_clocks m : m ∈ edid_4k_modes -> clocks_small hdmi_mode_alternate_clock m = true.
Proof.
  intros Hm. assert (forallb (clocks_small hdmi_mode_alternate_clock) edid_4k_modes = true) as H by (vm_compute; reflexivity).
  rewrite forallb_forall in H. apply H. by apply list_elem_of_In.
Qed.

Lemma pick_near alternate a m : clocks_small alternate m = true -> 0 <= clock a < 2 ^ 30 ->
  near_clock 5 (u32 (clock m)) (alternate m) a = true ->
  Z.abs (clock (pick_clock (s32 (clock m)) (s32 (alternate m)) a) - clock a) <= 5.
Proof.
  unfold clocks_small, near_clock, pick_clock. intros Hs Ha. cbn [clock with_clock].
  rewrite (u32_small (clock m)) by (unfold is_u32; lia).
  rewrite (s32_small (clock m)), (s32_small (alternate m)), !s32_small by (unfold is_s32; lia). intros Hn.
  destruct (Z.ltb_spec (Z.abs (clock a - clock m)) (Z.abs (clock a - alternate m))); lia.
Qed.

Lemma match_cea_near a : clock a <> 0 -> drm_match_cea_mode_clock_tolerance a 5 =
  Some (least_vic (fun vic m => near_clock 5 (u32 (clock m)) (cea_mode_alternate_clock m) a && cea_timings_match a vic m) 1 (tail cea_modes)).
Proof.
  intros Hc. unfold drm_match_cea_mode_clock_tolerance. destruct (Z.eqb_spec (clock a) 0); [done|].
  apply first_vic_least; [lia|vm_compute; discriminate|]. intros i m Hi. destruct (near_clock _ _ _ _); [|done].
  apply match_variants_ok. by apply cea_vtotal.
Qed.

Lemma match_hdmi_near a : clock a <> 0 -> drm_match_hdmi_mode_clock_tolerance a 5 =
  Some (least_vic (fun _ m => near_clock 5 (u32 (clock m)) (hdmi_mode_alternate_clock m) a && drm_mode_equal_no_clocks a m) 1 (tail edid_4k_modes)).
Proof.
  intros Hc. unfold drm_match_hdmi_mode_clock_tolerance. destruct (Z.eqb_spec (clock a) 0); [done|].
  apply first_vic_least; [lia|vm_compute; discriminate|]. done.
Qed.

Lemma hdmi_tail i m : tail edid_4k_modes !! i = Some m <-> edid_4k_modes !! S i = Some m.
Proof. by destruct edid_4k_modes. Qed.

(** Adjusting the clock changes nothing but the clock, by at most 5 kHz. *)
Lemma fixup_near a : 0 < clock a < 2 ^ 30 ->
  exists c, fixup_detailed_cea_mode_clock a = Some (with_clock c a) /\ Z.abs (c - clock a) <= 5.
Proof.
  intros Ha. unfold fixup_detailed_cea_mode_clock. rewrite match_cea_near, bind_some by lia.
  destruct (least_vic_spec (fun vic m => near_clock 5 (u32 (clock m)) (cea_mode_alternate_clock m) a && cea_timings_match a vic m)
    (tail cea_modes) 1 ltac:(lia)) as [[-> _]|(i & m & -> & Hi & Hf & _)].
  - cbn [drm_valid_cea_vic Z.ltb Z.compare andb]. rewrite match_hdmi_near, bind_some by lia.
    destruct (least_vic_spec (fun _ m => near_clock 5 (u32 (clock m)) (hdmi_mode_alternate_clock m) a && drm_mode_equal_no_clocks a m)
      (tail edid_4k_modes) 1 ltac:(lia)) as [[-> _]|(i & m & -> & Hi & Hf & _)].
    + exists (clock a). split; [by destruct a|lia].
    + apply andb_prop in Hf as [Hn _]. pose proof (proj1 (hdmi_tail i m) Hi) as Hm. pose proof (lookup_lt_Some _ _ _ Hm) as Hl.
      assert (length edid_4k_modes = 5%nat) as E5 by (vm_compute; reflexivity). rewrite E5 in Hl. unfold drm_valid_hdmi_vic. rewrite E5.
      replace ((0 <? 1 + Z.of_nat i) && (1 + Z.of_nat i <? Z.of_nat 5)) with true by lia.
      replace (Z.to_nat (1 + Z.of_nat i)) with (S i) by lia. rewrite Hm, bind_some. eexists. split; [done|].
      apply (pick_near hdmi_mode_alternate_clock a m); [|lia|done]. apply hdmi_clocks, list_elem_of_lookup. by exists (S i).
  - apply andb_prop in Hf as [Hn _]. rewrite (valid_vic i m Hi). replace (Z.to_nat (1 + Z.of_nat i)) with (S i) by lia.
    pose proof (proj1 (cea_tail i m) Hi) as Hm. rewrite Hm, bind_some. eexists. split; [done|].
    apply (pick_near cea_mode_alternate_clock a m); [|lia|done]. apply cea_clocks, list_elem_of_lookup. by exists (S i).
Qed.

(** ** Detailed timings *)

(** The fields of a timing as the standard packs them. *)
Definition encode_detailed (f : detailed_fields) (hborder vborder : Z) : list Z :=
  [df_clock f mod 256; df_clock f / 256;
   df_hactive f mod 256; df_hblank f mod 256; df_hactive f / 256 * 16 + df_hblank f / 256;
   df_vactive f mod 256; df_vblank f mod 256; df_vactive f / 256 * 16 + df_vblank f / 256;
   df_hsync_offset f mod 256; df_hsync_pulse_width f mod 256;
   df_vsync_offset f mod 16 * 16 + df_vsync_pulse_width f mod 16;
   df_hsync_offset f / 256 * 64 + df_hsync_pulse_width f / 256 * 16 + df_vsync_offset f / 16 * 4 + df_vsync_pulse_width f / 16;
   df_width_mm f mod 256; df_height_mm f mod 256; df_width_mm f / 256 * 16 + df_height_mm f / 256;
   hborder; vborder; df_misc f].

(** Fields that fit. *)
Record fields_fit (f : detailed_fields) : Prop := {
  ff_clock : 0 <= df_clock f < 65536;
  ff_hactive : 0 <= df_hactive f < 4096; ff_hblank : 0 <= df_hblank f < 4096;
  ff_vactive : 0 <= df_vactive f < 4096; ff_vblank : 0 <= df_vblank f < 4096;
  ff_hso : 0 <= df_hsync_offset f < 1024; ff_hsw : 0 <= df_hsync_pulse_width f < 1024;
  ff_vso : 0 <= df_vsync_offset f < 64; ff_vsw : 0 <= df_vsync_pulse_width f < 64;
  ff_width : 0 <= df_width_mm f < 4096; ff_height : 0 <= df_height_mm f < 4096
}.

Lemma hi_lo x : 0 <= x -> Z.lor (Z.shiftl (x / 256) 8) (x mod 256) = x.
Proof.
  intros Hx. rewrite Z.lor_comm, lor_shiftl by (try apply Z.mod_pos_bound; lia). rewrite (Z.div_mod x 256) at 3 by lia. lia.
Qed.

Lemma nibbles a c : 0 <= a < 16 -> 0 <= c < 16 ->
  Z.shiftl (Z.land (a * 16 + c) 0xf0) 4 = Z.shiftl a 8 /\ Z.land (a * 16 + c) 0xf = c /\ Z.shiftr (a * 16 + c) 4 = a.
Proof.
  intros Ha Hc.
  assert (below 16 (fun a => below 16 (fun c => (Z.shiftl (Z.land (a * 16 + c) 0xf0) 4 =? Z.shiftl a 8) &&
    (Z.land (a * 16 + c) 0xf =? c) && (Z.shiftr (a * 16 + c) 4 =? a))) = true) as H by eval_bits.
  pose proof (below_spec _ _ (below_spec _ _ H a ltac:(lia)) c ltac:(lia)) as E. lia.
Qed.

Lemma pairs p q r s : 0 <= p < 4 -> 0 <= q < 4 -> 0 <= r < 4 -> 0 <= s < 4 ->
  Z.shiftl (Z.land (p * 64 + q * 16 + r * 4 + s) 0xc0) 2 = Z.shiftl p 8 /\
  Z.shiftl (Z.land (p * 64 + q * 16 + r * 4 + s) 0x30) 4 = Z.shiftl q 8 /\
  Z.shiftl (Z.land (p * 64 + q * 16 + r * 4 + s) 0xc) 2 = Z.shiftl r 4 /\
  Z.land (p * 64 + q * 16 + r * 4 + s) 0x3 = s.
Proof.
  intros Hp Hq Hr Hs.
  assert (below 4 (fun p => below 4 (fun q => below 4 (fun r => below 4 (fun s =>
    (Z.shiftl (Z.land (p * 64 + q * 16 + r * 4 + s) 0xc0) 2 =? Z.shiftl p 8) &&
    (Z.shiftl (Z.land (p * 64 + q * 16 + r * 4 + s) 0x30) 4 =? Z.shiftl q 8) &&
    (Z.shiftl (Z.land (p * 64 + q * 16 + r * 4 + s) 0xc) 2 =? Z.shiftl r 4) &&
    (Z.land (p * 64 + q * 16 + r * 4 + s) 0x3 =? s))))) = true) as H by eval_bits.
  pose proof (below_spec _ _ (below_spec _ _ (below_spec _ _ (below_spec _ _ H p ltac:(lia)) q ltac:(lia)) r ltac:(lia)) s ltac:(lia)) as E.
  lia.
Qed.

Lemma hi_lo16 x : 0 <= x -> Z.lor (Z.shiftl (x / 16) 4) (x mod 16) = x.
Proof.
  intros Hx. rewrite Z.lor_comm, lor_shiftl by (try apply Z.mod_pos_bound; lia). rewrite (Z.div_mod x 16) at 3 by lia. lia.
Qed.

Lemma div_range x n m : 0 < n -> 0 <= x < n * m -> 0 <= x / n < m.
Proof. intros Hn Hx. split; [apply Z.div_pos; lia|apply Z.div_lt_upper_bound; lia]. Qed.

Lemma detailed_round_trip f hborder vborder : fields_fit f -> detailed_fields_of (encode_detailed f hborder vborder) = Some f.
Proof.
  intros []. unfold encode_detailed, detailed_fields_of. destruct f. cbn in *.
  destruct (nibbles (df_hactive0 / 256) (df_hblank0 / 256)) as (-> & -> & _); [apply div_range; lia..|].
  destruct (nibbles (df_vactive0 / 256) (df_vblank0 / 256)) as (-> & -> & _); [apply div_range; lia..|].
  destruct (nibbles (df_width_mm0 / 256) (df_height_mm0 / 256)) as (-> & -> & _); [apply div_range; lia..|].
  destruct (nibbles (df_vsync_offset0 mod 16) (df_vsync_pulse_width0 mod 16)) as (_ & -> & ->); [apply Z.mod_pos_bound; lia..|].
  destruct (pairs (df_hsync_offset0 / 256) (df_hsync_pulse_width0 / 256) (df_vsync_offset0 / 16) (df_vsync_pulse_width0 / 16))
    as (-> & -> & -> & ->); [apply div_range; lia..|].
  rewrite (Z.lor_comm (_ mod _) (Z.shiftl (df_clock0 / 256) 8)), (Z.lor_comm (df_width_mm0 mod 256)), (Z.lor_comm (df_height_mm0 mod 256)).
  rewrite !hi_lo, !hi_lo16 by lia. done.
Qed.

(** Every timing has fields, none of them negative, and a clock if its first two bytes are not both zero. *)
Lemma fields_total t : length t = 18%nat -> Forall is_u8 t ->
  exists f, detailed_fields_of t = Some f /\ pixel_clock t = Some (df_clock f) /\ 0 <= df_clock f < 65536 /\
    0 <= df_hblank f /\ 0 <= df_vblank f /\ 0 <= df_hsync_offset f /\ 0 <= df_hsync_pulse_width f /\
    0 <= df_vsync_offset f /\ 0 <= df_vsync_pulse_width f.
Proof.
  intros Hl Hu. do 19 (destruct t as [|? t]; simpl in Hl; try lia).
  repeat match goal with H : Forall _ (_ :: _) |- _ => inversion_clear H end. unfold is_u8 in *.
  eexists. split; [done|]. cbn [df_clock df_hblank df_vblank df_hsync_offset df_hsync_pulse_width df_vsync_offset df_vsync_pulse_width].
  split; [done|]. split; [rewrite lor_shiftl by lia; lia|].
  repeat split; apply Z.lor_nonneg; split; try lia; try (apply Z.shiftl_nonneg, Z.land_nonneg; lia);
    first [apply Z.shiftr_nonneg; lia|apply Z.land_nonneg; lia].
Qed.

Definition vordered (v : vtimes) : Prop := let '(vd, vs, ve, vt) := v in 0 < vd <= vs /\ vs <= ve <= vt.

Lemma interlace_ordered hd misc v : vordered v -> vordered (drm_mode_do_interlace_quirk hd misc v).2.
Proof.
  intros Hv. unfold drm_mode_do_interlace_quirk. destruct (negb _); [done|]. cbn [snd].
  assert (forall l v, vordered v -> vordered (foldl (fun (v : vtimes) wh => let '(vd, vs, ve, vt) := v in
    if (hd =? wh.1) && (vd =? wh.2 / 2) then (vd * 2, vs * 2, ve * 2, Z.lor (vt * 2) 1) else v) v l)) as H; [|by apply H].
  clear v Hv. induction l as [|wh l IH]; intros [[[vd vs] ve] vt] Hv; [done|]. cbn [foldl]. apply IH.
  destruct (_ && _); [|done]. unfold vordered in *. rewrite Z.lor_comm.
  replace (vt * 2) with (Z.shiftl vt 1) by (rewrite Z.shiftl_mul_pow2 by lia; lia). rewrite lor_shiftl by lia. lia.
Qed.

Lemma validate_ok m : clock m <> 0 -> 0 < hdisplay m <= hsync_start m -> hsync_start m <= hsync_end m <= htotal m ->
  vordered (vdisplay m, vsync_start m, vsync_end m, vtotal m) -> drm_mode_validate_basic m = MODE_OK.
Proof.
  intros Hc Hh1 Hh2 (Hv1 & Hv2). unfold drm_mode_validate_basic.
  destruct (Z.eqb_spec (clock m) 0); [done|].
  match goal with |- (if ?b then _ else _) = _ => replace b with false by lia end.
  match goal with |- (if ?b then _ else _) = _ => replace b with false by lia end. done.
Qed.

Lemma detailed_mode_valid f c misc : c <> 0 -> 0 < df_hactive f -> 0 < df_vactive f ->
  0 <= df_hblank f -> 0 <= df_vblank f -> 0 <= df_hsync_offset f -> 0 <= df_hsync_pulse_width f ->
  0 <= df_vsync_offset f -> 0 <= df_vsync_pulse_width f ->
  drm_mode_validate_basic (detailed_mode f c misc) = MODE_OK /\ clock (detailed_mode f c misc) = c.
Proof.
  intros Hc H1 H2 H3 H4 H5 H6 H7 H8. unfold detailed_mode.
  set (vt := if df_vactive f + df_vblank f <? df_vactive f + df_vsync_offset f + df_vsync_pulse_width f then _ else _).
  assert (vordered (df_vactive f, df_vactive f + df_vsync_offset f, df_vactive f + df_vsync_offset f + df_vsync_pulse_width f, vt)) as Hv.
  { unfold vordered, vt. destruct (Z.ltb_spec (df_vactive f + df_vblank f) (df_vactive f + df_vsync_offset f + df_vsync_pulse_width f)); lia. }
  apply (interlace_ordered (df_hactive f) (df_misc f)) in Hv.
  destruct (drm_mode_do_interlace_quirk _ _ _) as [il [[[vd vs] ve] vt']]. split; [|done]. apply validate_ok; [done|cbn; lia| |done].
  cbn. destruct (Z.ltb_spec (df_hactive f + df_hblank f) (df_hactive f + df_hsync_offset f + df_hsync_pulse_width f)); lia.
Qed.

(** Validation looks at the clock and the timings alone. *)
Lemma validate_same a b : clock a = clock b -> hdisplay a = hdisplay b -> hsync_start a = hsync_start b -> hsync_end a = hsync_end b ->
  htotal a = htotal b -> vdisplay a = vdisplay b -> vsync_start a = vsync_start b -> vsync_end a = vsync_end b -> vtotal a = vtotal b ->
  drm_mode_validate_basic a = drm_mode_validate_basic b.
Proof. intros E1 E2 E3 E4 E5 E6 E7 E8 E9. unfold drm_mode_validate_basic. by rewrite E1, E2, E3, E4, E5, E6, E7, E8, E9. Qed.

Lemma set_size_ok edid f quirks m : (23 <= length edid)%nat ->
  exists m' w h, set_size edid f quirks m = Some (m', w, h) /\ drm_mode_validate_basic m' = drm_mode_validate_basic m /\ clock m' = clock m.
Proof.
  intros Hl. unfold set_size. destruct (has_flag quirks EDID_QUIRK_DETAILED_IN_CM), (has_flag quirks EDID_QUIRK_DETAILED_USE_MAXIMUM_SIZE);
    try (destruct (lookup_lt_is_Some_2 edid 21) as [w ->]; [lia|]; destruct (lookup_lt_is_Some_2 edid 22) as [h ->]; [lia|]);
    (eexists _, _, _; split; [done|]; split; [by apply validate_same|done]).
Qed.

(** A detailed timing with a clock gives a valid mode or none. *)
Lemma drm_mode_detailed_valid edid t quirks f : (23 <= length edid)%nat -> length t = 18%nat -> Forall is_u8 t ->
  has_flag quirks EDID_QUIRK_FORCE_REDUCED_BLANKING = false -> pixel_clock t = Some f -> f <> 0 ->
  exists r t', drm_mode_detailed edid t quirks = Some (r, t') /\
    forall m w h, r = Some (m, w, h) -> drm_mode_validate_basic m = MODE_OK /\ 10 <= clock m <= 655350.
Proof.
  intros Hl Ht Hu Hq Hp Hf. destruct (fields_total t Ht Hu) as (fs & Ef & Ep & Hc & H1 & H2 & H3 & H4 & H5 & H6).
  rewrite Hp in Ep. injection Ep as ->. unfold drm_mode_detailed. rewrite Ef, bind_some, Hq.
  destruct ((df_hactive fs <? 64) || (df_vactive fs <? 64)) eqn:E64; [by eexists _, _|].
  destruct (has_flag (df_misc fs) DRM_EDID_PT_STEREO); [by eexists _, _|].
  destruct ((df_hsync_pulse_width fs =? 0) || (df_vsync_pulse_width fs =? 0)); [by eexists _, _|].
  assert (forall clk misc (t' : list Z), 1 <= clk <= 65535 -> exists r t'', (r ← set_size edid fs quirks (detailed_mode fs (clk * 10) misc); Some (Some r, t')) = Some (r, t'') /\
    forall m w h, r = Some (m, w, h) -> drm_mode_validate_basic m = MODE_OK /\ 10 <= clock m <= 655350) as Hend.
  { intros clk misc t' Hclk. destruct (set_size_ok edid fs quirks (detailed_mode fs (clk * 10) misc) Hl) as (m & w & h & -> & Em & Ec).
    rewrite bind_some. eexists _, _. split; [done|]. intros m' w' h' [= -> _ _].
    destruct (detailed_mode_valid fs (clk * 10) misc) as [Hv Hk]; [lia..|]. rewrite Em, Ec, Hk. split; [done|lia]. }
  destruct (has_flag quirks EDID_QUIRK_135_CLOCK_TOO_HIGH), (has_flag quirks EDID_QUIRK_DETAILED_SYNC_PP); apply Hend; lia.
Qed.

(** Valid modes are added. *)
Definition adds_valid (c c' : mode_closure) : Prop :=
  exists new, mc_modes c' = mc_modes c ++ new /\ mc_added c' = mc_added c + Z.of_nat (length new) /\
    Forall (fun m => drm_mode_validate_basic m = MODE_OK) new.

Lemma adds_refl c : adds_valid c c.
Proof. exists []. rewrite app_nil_r. split; [done|]. split; [simpl; lia|done]. Qed.

Lemma adds_trans a b c : adds_valid a b -> adds_valid b c -> adds_valid a c.
Proof.
  intros (n1 & E1 & A1 & V1) (n2 & E2 & A2 & V2). exists (n1 ++ n2). rewrite E2, E1, A2, A1, length_app.
  split; [by rewrite app_assoc|]. split; [lia|by apply Forall_app].
Qed.

Lemma adds_mode c m : drm_mode_validate_basic m = MODE_OK -> adds_valid c (add_mode m c).
Proof. intros Hm. exists [m]. split; [done|]. split; [done|by constructor]. Qed.

(** A callback whose steps are in a preorder is run over all timings. *)
Lemma each_steps {A} (R : A -> A -> Prop) `{!PreOrder R} cb ts : Forall (fun t => length t.2 = 18%nat /\ Forall is_u8 t.2) ts ->
  (forall t c, length t = 18%nat -> Forall is_u8 t -> exists c', cb t c = Some c' /\ R c c') ->
  forall c, exists c', each_detailed cb ts c = Some c' /\ R c c'.
Proof.
  intros Hts Hcb. induction Hts as [|t ts [Ht Hu] Hts IH]; intros c; cbn [each_detailed]; [by exists c|].
  destruct (Hcb t.2 c Ht Hu) as (c1 & -> & H1). rewrite bind_some. destruct (IH c1) as (c2 & -> & H2).
  exists c2. split; [done|by transitivity c1].
Qed.

#[global] Instance adds_valid_preorder : PreOrder adds_valid.
Proof. split; [intros c; apply adds_refl|intros a b c; apply adds_trans]. Qed.

Lemma do_detailed_adds edid quirks t c : (23 <= length edid)%nat -> has_flag quirks EDID_QUIRK_FORCE_REDUCED_BLANKING = false ->
  length t = 18%nat -> Forall is_u8 t -> exists c', do_detailed_mode edid quirks t c = Some c' /\ adds_valid c c'.
Proof.
  intros Hl Hq Ht Hu. destruct (fields_total t Ht Hu) as (f & _ & Ep & Hc & _). unfold do_detailed_mode. rewrite Ep, bind_some.
  destruct (Z.eqb_spec (df_clock f) 0) as [|Hne]; [exists c; split; [done|apply adds_refl]|].
  destruct (drm_mode_detailed_valid edid t quirks (df_clock f) Hl Ht Hu Hq Ep Hne) as (r & t' & -> & Hr). rewrite bind_some. cbn [fst].
  destruct r as [[[m w] h]|]; [|exists c; split; [done|apply adds_refl]]. destruct (Hr m w h eq_refl) as [Hv Hcl].
  set (m1 := if mc_preferred c then _ else m). assert (clock m1 = clock m /\ drm_mode_validate_basic m1 = MODE_OK) as [Ec1 Ev1]
    by (unfold m1; destruct (mc_preferred c); [split; [done|by rewrite <- Hv; apply validate_same]|done]).
  destruct (fixup_near m1) as (k & -> & Hk); [lia|]. rewrite !bind_some. eexists. split; [done|].
  exists [with_clock k m1]. split; [done|]. split; [done|]. constructor; [|done].
  assert (k <> 0) as Hk0 by lia. unfold drm_mode_validate_basic in *. cbn [clock with_clock hdisplay hsync_start hsync_end htotal vdisplay vsync_start vsync_end vtotal].
  destruct (Z.eqb_spec k 0); [done|]. destruct (clock m1 =? 0); [discriminate|done].
Qed.

(** C34: from every EDID with as many blocks as it announces the modes of the detailed timings are read without an access outside
    of it, and every mode that is added to the connector is valid and counted, whatever the timings contain. *)
Theorem add_detailed_modes_valid edid n quirks probed_modes :
  edid !! 0x7e%nat = Some n -> length edid = ((Z.to_nat n + 1) * EDID_LENGTH)%nat -> Forall is_u8 edid ->
  has_flag quirks EDID_QUIRK_FORCE_REDUCED_BLANKING = false ->
  exists c new, add_detailed_modes edid quirks probed_modes = Some c /\ mc_modes c = probed_modes ++ new /\
    mc_added c = Z.of_nat (length new) /\ Forall (fun m => drm_mode_validate_basic m = MODE_OK) new.
Proof.
  intros Hn Hl Hu Hq. unfold add_detailed_modes, version_greater. assert (128 <= length edid)%nat as Hlen by (unfold EDID_LENGTH in Hl; lia).
  destruct (lookup_lt_is_Some_2 edid 24) as [features ->]; [lia|]. destruct (lookup_lt_is_Some_2 edid 18) as [v ->]; [lia|].
  destruct (lookup_lt_is_Some_2 edid 19) as [r ->]; [lia|]. rewrite !bind_some.
  destruct (timings_bytes edid n Hn Hl Hu) as (ts & -> & Hts). rewrite bind_some.
  match goal with |- context [each_detailed ?cb ts ?c0] => destruct (each_steps adds_valid cb ts Hts) with (c := c0) as (c & -> & new & E1 & E2 & E3) end.
  - intros t c Ht Hut. apply do_detailed_adds; [lia|done..].
  - exists c, new. cbn [mc_modes mc_added] in *. split; [done|]. split; [done|]. split; [lia|done].
Qed.

(** A detailed timing packed by the rules of the standard is decoded into the same clock, sizes, sync pulses and physical size;
    only a total that ends before the sync pulse is corrected, and interlaced timings given as fields become frames. *)
Theorem drm_mode_detailed_decodes edid f hborder vborder :
  fields_fit f -> 64 <= df_hactive f -> 64 <= df_vactive f -> 0 < df_hsync_pulse_width f -> 0 < df_vsync_pulse_width f ->
  has_flag (df_misc f) DRM_EDID_PT_STEREO = false ->
  exists m, drm_mode_detailed edid (encode_detailed f hborder vborder) 0 =
      Some (Some (m, df_width_mm f, df_height_mm f), encode_detailed f hborder vborder) /\
    clock m = df_clock f * 10 /\ hdisplay m = df_hactive f /\ hsync_start m = df_hactive f + df_hsync_offset f /\
    hsync_end m = hsync_start m + df_hsync_pulse_width f /\
    htotal m = (if hsync_end m <=? df_hactive f + df_hblank f then df_hactive f + df_hblank f else hsync_end m + 1) /\
    has_flag (flags m) DRM_MODE_FLAG_INTERLACE = has_flag (df_misc f) DRM_EDID_PT_INTERLACED /\
    (has_flag (df_misc f) DRM_EDID_PT_INTERLACED = false ->
     vdisplay m = df_vactive f /\ vsync_start m = df_vactive f + df_vsync_offset f /\ vsync_end m = vsync_start m + df_vsync_pulse_width f /\
     vtotal m = (if vsync_end m <=? df_vactive f + df_vblank f then df_vactive f + df_vblank f else vsync_end m + 1)).
Proof.
  intros Hf Hh Hv Hhw Hvw Hs. unfold drm_mode_detailed. rewrite detailed_round_trip, bind_some, Hs by done.
  replace ((df_hactive f <? 64) || (df_vactive f <? 64)) with false by lia.
  replace ((df_hsync_pulse_width f =? 0) || (df_vsync_pulse_width f =? 0)) with false by lia.
  replace (has_flag 0 EDID_QUIRK_FORCE_REDUCED_BLANKING) with false by done. unfold set_size.
  replace (has_flag 0 EDID_QUIRK_135_CLOCK_TOO_HIGH) with false by done. replace (has_flag 0 EDID_QUIRK_DETAILED_SYNC_PP) with false by done.
  replace (has_flag 0 EDID_QUIRK_DETAILED_IN_CM) with false by done. replace (has_flag 0 EDID_QUIRK_DETAILED_USE_MAXIMUM_SIZE) with false by done.
  rewrite !bind_some. eexists. split; [done|]. unfold detailed_mode, drm_mode_do_interlace_quirk.
  assert (forall a b : Z, (if a <? b then b + 1 else a) = (if b <=? a then a else b + 1)) as Htot
    by (intros a b; destruct (Z.ltb_spec a b), (Z.leb_spec b a); [lia|done|done|lia]).
  destruct (has_flag (df_misc f) DRM_EDID_PT_INTERLACED) eqn:Ei; cbn [negb].
  - destruct (foldl _ _ _) as [[[vd vs] ve] vt]. cbn. rewrite Htot. do 5 (split; [done|]). split; [|done].
    by destruct (has_flag (df_misc f) DRM_EDID_PT_HSYNC_POSITIVE), (has_flag (df_misc f) DRM_EDID_PT_VSYNC_POSITIVE).
  - cbn. rewrite !Htot. do 5 (split; [done|]). split; [|done].
    by destruct (has_flag (df_misc f) DRM_EDID_PT_HSYNC_POSITIVE), (has_flag (df_misc f) DRM_EDID_PT_VSYNC_POSITIVE).
Qed.

(** ** Examples *)

(** The mode 1920x1080 at 60 Hz with the clock that detailed timings give it. *)
Definition sample_fields : detailed_fields :=
  {| df_clock := 14835; df_hactive := 1920; df_hblank := 280; df_vactive := 1080; df_vblank := 45;
     df_hsync_offset := 88; df_hsync_pulse_width := 44; df_vsync_offset := 4; df_vsync_pulse_width := 5;
     df_width_mm := 527; df_height_mm := 296; df_misc := 0x1e |}.

Lemma sample_fit : fields_fit sample_fields.
Proof. constructor; vm_compute; repeat split; discriminate. Qed.

(** An EDID of version 1, revision [revision], with a feature byte, a standard timing and two descriptors. *)
Definition sample_edid (revision features : Z) (std d1 d2 : list Z) : list Z :=
  with_checksum (edid_header ++ replicate 10 0 ++ [1; revision; 0; 0; 0; 0; features] ++ replicate 13 0 ++
                 std ++ replicate 14 0 ++ d1 ++ d2 ++ replicate 36 0 ++ [0]).

Lemma drm_mode_detailed_decodes_witness :
  exists m, drm_mode_detailed [] (encode_detailed sample_fields 0 0) 0 = Some (Some (m, 527, 296), encode_detailed sample_fields 0 0) /\
    clock m = 148350 /\ htotal m = 2200.
Proof.
  destruct (drm_mode_detailed_decodes [] sample_fields 0 0 sample_fit) as (m & E & Ec & Hd & Hs & He & Ht & _);
    [vm_compute; discriminate..|reflexivity|reflexivity|reflexivity|].
  exists m. split; [exact E|]. split; [exact Ec|]. rewrite Ht, He, Hs. vm_compute. reflexivity.
Defined.

Lemma add_detailed_modes_valid_witness :
  exists c new, add_detailed_modes (sample_edid 3 2 [1; 1] (encode_detailed sample_fields 0 0) (replicate 18 0)) 0 [] = Some c /\
    mc_modes c = [] ++ new /\ mc_added c = Z.of_nat (length new) /\ Forall (fun m => drm_mode_validate_basic m = MODE_OK) new.
Proof.
  apply (add_detailed_modes_valid _ 0); [vm_compute; reflexivity..| |reflexivity].
  vm_compute. repeat constructor; discriminate.
Defined.

(** The mode is found, and its clock is corrected to the one of the table. *)
Example sample_detailed :
  option_map (fun c => map (fun m => (hdisplay m, vdisplay m, clock m)) (mc_modes c))
    (add_detailed_modes (sample_edid 3 2 [1; 1] (encode_detailed sample_fields 0 0) (replicate 18 0)) 0 []) = Some [(1920, 1080, 148352)].
Proof. vm_compute. reflexivity. Qed.

(** A mode of the table with one line more, at the alternate clock. *)
Definition sample_match : drm_display_mode :=
  with_clock 13514 (shift_lines 1 (default no_mode (cea_modes !! 8%nat))).

Example sample_match_found : drm_match_cea_mode sample_match = Some 8 /\ drm_match_cea_mode (with_clock 0 sample_match) = Some 0.
Proof. split; vm_compute; reflexivity. Qed.

(** ** What the code does not do *)

(** HDMI mode 4, 4096x2160 at 24 Hz, has an alternate clock: the test for it compares the height with the width. *)
Lemma hdmi_vic4_alternate : exists m, edid_4k_modes !! 4%nat = Some m /\ hdisplay m = 4096 /\ vdisplay m = 2160 /\
  hdmi_mode_alternate_clock m = 296703 /\ clock m = 297000 /\ drm_match_hdmi_mode (with_clock 296703 m) = Some 4.
Proof. eexists. split; [reflexivity|]. repeat split; vm_compute; reflexivity. Qed.

(** A range descriptor with a secondary curve: start frequency, 2C, M, K and 2J. *)
Definition gtf2_descriptor (hbreak c2 m_lo m_hi k j2 : Z) : list Z :=
  [0; 0; 0; EDID_DETAIL_MONITOR_RANGE; 0; 0; 0; 0; 0; 0; 2; 0; hbreak; c2; m_lo; m_hi; k; j2].

(** An EDID with a blanking of 100% in its secondary curve makes a standard timing divide by zero. *)
Lemma gtf2_divides_by_zero :
  let edid := sample_edid 3 0 [0xd9; 0x43] (gtf2_descriptor 1 200 0 0 0 200) (replicate 18 0) in
  Forall is_u8 edid /\ length edid = 128%nat /\ drm_edid_block_checksum edid = Some 0 /\
  drm_mode_std edid [] 0xd9 0x43 = None /\ add_standard_modes edid [] = None.
Proof.
  split; [vm_compute; repeat constructor; discriminate|]. repeat split; vm_compute; reflexivity.
Qed.

(** No CVT code asks for reduced blanking: the bit for it is bit 0 of the rates, which is not looked at. *)
Lemma cvt_reduced_ignored width height rates c : cvt_code_rates 4 1 width height (Z.lor rates 1) c = cvt_code_rates 4 1 width height rates c.
Proof.
  assert (forall k, 1 <= k -> has_flag (Z.lor rates 1) (Z.shiftl 1 k) = has_flag rates (Z.shiftl 1 k)) as E.
  { intros k Hk. unfold has_flag. do 2 f_equal. rewrite Z.land_lor_distr_l. replace (Z.land 1 (Z.shiftl 1 k)) with 0; [apply Z.lor_0_r|].
    symmetry. apply Z.bits_inj. intros n. rewrite Z.land_spec, Z.bits_0, Z.shiftl_1_l, Z.pow2_bits_eqb by lia.
    destruct (Z.eqb_spec k n) as [<-|]; [|apply andb_false_r]. rewrite (Z.bits_above_log2 1 k) by (cbn; lia). done. }
  assert (forall n j c, (1 <= j)%nat -> cvt_code_rates n j width height (Z.lor rates 1) c = cvt_code_rates n j width height rates c) as H.
  { induction n as [|n IH]; intros j c' Hj; [done|]. cbn [cvt_code_rates]. rewrite E by lia.
    destruct (has_flag rates (Z.shiftl 1 (Z.of_nat j))); [|rewrite !bind_some; apply IH; lia].
    destruct (cvt_rates !! j); [|done]. rewrite !bind_some. destruct (drm_cvt_mode _ _ _ _ _ _); [|done].
    rewrite !bind_some. apply IH. lia. }
  apply H. lia.
Qed.
