(* ===== verification/EdidHdmi.v ===== *)
(** * Display modes from CEA extensions ([drm_edid.c])

    The modes that a CEA extension lists: by number, by number for YCbCr 4:2:0 only, in the HDMI vendor
    block, stereo modes, and the modes with the other clock.

    A data block is its place in the extension, as in [EdidCea]; the payload of the last video block is a list.
    [None] is an access behind the EDID; allocations are taken to succeed.

    Theorems: whatever a monitor sends, no byte behind a data block is read, and the modes that are added and
    counted are exactly those that the payloads of the video and HDMI blocks list, in their order; the alternate
    modes are the CEA modes with the other clock. *)

From S2P Require Import Prelude Bytes Rect Modes ModeGen Edid EdidCea EdidTables EdidModes.
From stdpp Require Import base gmap list option.
From Stdlib Require Import ZArith Lia ZifyBool ZifyNat.

#[local] Set Warnings "-clear-no-such-hyp".

#[local] Open Scope Z_scope.

Definition VIDEO_BLOCK : Z := 0x02.
Definition DRM_MODE_FLAG_3D_TOP_AND_BOTTOM : Z := Z.shiftl 7 14.

(** ** Connectors *)

(** The fields of a connector that are used: the probed modes, the display information, the two maps of YCbCr 4:2:0 modes, and what
    the sound driver reads, the ELD and the latencies. *)
Record hdmi_connector := {
  probed_modes : list drm_display_mode; display_info : drm_display_info; y420_vdb_modes : Z; y420_cmdb_modes : Z; sound : drm_av
}.

Definition set_probed (l : list drm_display_mode) (c : hdmi_connector) : hdmi_connector :=
  {| probed_modes := l; display_info := display_info c; y420_vdb_modes := y420_vdb_modes c; y420_cmdb_modes := y420_cmdb_modes c; sound := sound c |}.
Definition set_info (i : drm_display_info) (c : hdmi_connector) : hdmi_connector :=
  {| probed_modes := probed_modes c; display_info := i; y420_vdb_modes := y420_vdb_modes c; y420_cmdb_modes := y420_cmdb_modes c; sound := sound c |}.
Definition set_vdb (m : Z) (c : hdmi_connector) : hdmi_connector :=
  {| probed_modes := probed_modes c; display_info := display_info c; y420_vdb_modes := m; y420_cmdb_modes := y420_cmdb_modes c; sound := sound c |}.
Definition set_cmdb (m : Z) (c : hdmi_connector) : hdmi_connector :=
  {| probed_modes := probed_modes c; display_info := display_info c; y420_vdb_modes := y420_vdb_modes c; y420_cmdb_modes := m; sound := sound c |}.
Definition set_sound (a : drm_av) (c : hdmi_connector) : hdmi_connector :=
  {| probed_modes := probed_modes c; display_info := display_info c; y420_vdb_modes := y420_vdb_modes c; y420_cmdb_modes := y420_cmdb_modes c; sound := a |}.

(** [drm_mode_probed_add] and the count of new modes. *)
Definition probed_add (m : drm_display_mode) (s : Z * hdmi_connector) : Z * hdmi_connector :=
  (s.1 + 1, set_probed (drm_mode_probed_add (probed_modes s.2) m) s.2).

(** [bitmap_set(map, nr, 1)] *)
Definition bitmap_set1 (map nr : Z) : Z := Z.lor map (Z.shiftl 1 nr).

Definition with_flags (f : Z) (p : drm_display_mode) : drm_display_mode :=
  {| name := name p; status := status p; type_ := type_ p; clock := clock p;
     hdisplay := hdisplay p; hsync_start := hsync_start p; hsync_end := hsync_end p;
     htotal := htotal p; hskew := hskew p; vdisplay := vdisplay p; vsync_start := vsync_start p;
     vsync_end := vsync_end p; vtotal := vtotal p; vscan := vscan p; flags := f;
     vrefresh := vrefresh p; hsync := hsync p; crtc := crtc p |}.

(** [mode->flags |= f] *)
Definition add_flags (f : Z) (p : drm_display_mode) : drm_display_mode := with_flags (Z.lor (flags p) f) p.

(** ** Modes with the other clock *)

(** The body of the first loop of [add_alternate_cea_modes]. *)
Definition alternate_mode (mode : drm_display_mode) : option (option drm_display_mode) :=
  vic ← drm_match_cea_mode mode;
  found ← (if drm_valid_cea_vic vic then
             cea_mode ← cea_modes !! Z.to_nat vic; Some (Some (cea_mode, cea_mode_alternate_clock cea_mode))
           else
             vic ← drm_match_hdmi_mode mode;
             if drm_valid_hdmi_vic vic then
               cea_mode ← edid_4k_modes !! Z.to_nat vic; Some (Some (cea_mode, hdmi_mode_alternate_clock cea_mode))
             else Some None);
  match found with
  | None => Some None
  | Some (cea_mode, clock2) =>
    let clock1 := u32 (clock cea_mode) in
    let c := u32 (clock mode) in
    if clock1 =? clock2 then Some None
    else if negb (c =? clock1) && negb (c =? clock2) then Some None
    else
      let newmode := add_flags (Z.land (flags mode) DRM_MODE_FLAG_3D_MASK) cea_mode in
      Some (Some (with_clock (s32 (if negb (c =? clock1) then clock1 else clock2)) newmode))
  end.

(** Returns the number of new modes and the modes of the connector. *)
Definition add_alternate_cea_modes (edid : list Z) (probed_modes : list drm_display_mode) : option (Z * list drm_display_mode) :=
  ext ← drm_find_cea_extension (Some edid);
  match ext with
  | None => Some (0, probed_modes)
  | Some _ =>
    l ← mapM alternate_mode probed_modes;
    Some (foldl (fun (s : Z * list drm_display_mode) mode => (s.1 + 1, drm_mode_probed_add s.2 mode)) (0, probed_modes) (omap id l))
  end.

(** ** Video blocks *)

(** The loop of [do_y420vdb_modes]. *)
Fixpoint y420vdb_loop (svds : list Z) (s : Z * hdmi_connector) : option (Z * hdmi_connector) :=
  match svds with
  | [] => Some s
  | svd :: svds' =>
    let vic := svd_to_vic svd in
    if negb (drm_valid_cea_vic vic) then y420vdb_loop svds' s
    else
      newmode ← cea_modes !! Z.to_nat vic;
      y420vdb_loop svds' (probed_add newmode (s.1, set_vdb (bitmap_set1 (y420_vdb_modes s.2) vic) s.2))
  end.

Definition do_y420vdb_modes (svds : list Z) (c : hdmi_connector) : option (Z * hdmi_connector) :=
  s ← y420vdb_loop svds (0, c);
  Some (s.1, if 0 <? s.1 then set_info (add_color DRM_COLOR_FORMAT_YCRCB420 (display_info s.2)) s.2 else s.2).

Definition drm_add_cmdb_modes (svd : Z) (c : hdmi_connector) : hdmi_connector :=
  let vic := svd_to_vic svd in
  if negb (drm_valid_cea_vic vic) then c else set_cmdb (bitmap_set1 (y420_cmdb_modes c) vic) c.

(** The loop of [do_cea_modes], [n] numbers from [i] on. *)
Fixpoint cea_modes_loop (n i : nat) (db : list Z) (s : Z * hdmi_connector) : option (Z * hdmi_connector) :=
  match n with
  | O => Some s
  | S n' =>
    mode ← drm_display_mode_from_vic_index db i;
    s ← (match mode with
         | None => Some s
         | Some mode =>
           svd ← db !! i;
           let c := if (i <? 64)%nat && has (y420_cmdb_map (display_info s.2)) (Z.shiftl 1 (Z.of_nat i))
                    then drm_add_cmdb_modes svd s.2 else s.2 in
           Some (probed_add mode (s.1, c))
         end);
    cea_modes_loop n' (S i) db s
  end.

Definition do_cea_modes (db : list Z) (c : hdmi_connector) : option (Z * hdmi_connector) :=
  cea_modes_loop (length db) 0 db (0, c).

(** ** Stereo modes *)

Record stereo_mandatory_mode := { sm_width : Z; sm_height : Z; sm_vrefresh : Z; sm_flags : Z }.

Definition stereo_mandatory_modes : list stereo_mandatory_mode := [
  Build_stereo_mandatory_mode 1920 1080 24 DRM_MODE_FLAG_3D_TOP_AND_BOTTOM;
  Build_stereo_mandatory_mode 1920 1080 24 DRM_MODE_FLAG_3D_FRAME_PACKING;
  Build_stereo_mandatory_mode 1920 1080 50 (Z.lor DRM_MODE_FLAG_INTERLACE DRM_MODE_FLAG_3D_SIDE_BY_SIDE_HALF);
  Build_stereo_mandatory_mode 1920 1080 60 (Z.lor DRM_MODE_FLAG_INTERLACE DRM_MODE_FLAG_3D_SIDE_BY_SIDE_HALF);
  Build_stereo_mandatory_mode 1280 720 50 DRM_MODE_FLAG_3D_TOP_AND_BOTTOM;
  Build_stereo_mandatory_mode 1280 720 50 DRM_MODE_FLAG_3D_FRAME_PACKING;
  Build_stereo_mandatory_mode 1280 720 60 DRM_MODE_FLAG_3D_TOP_AND_BOTTOM;
  Build_stereo_mandatory_mode 1280 720 60 DRM_MODE_FLAG_3D_FRAME_PACKING].

Definition stereo_match_mandatory (mode : drm_display_mode) (stereo_mode : stereo_mandatory_mode) : bool :=
  let interlaced := Z.land (flags mode) DRM_MODE_FLAG_INTERLACE in
  (hdisplay mode =? sm_width stereo_mode) && (vdisplay mode =? sm_height stereo_mode) &&
  (interlaced =? Z.land (sm_flags stereo_mode) DRM_MODE_FLAG_INTERLACE) && (drm_mode_vrefresh mode =? sm_vrefresh stereo_mode).

(** The stereo modes of one mode. *)
Definition mandatory_of (mode : drm_display_mode) : list drm_display_mode :=
  map (fun mandatory => add_flags (sm_flags mandatory) mode)
    (List.filter (stereo_match_mandatory mode) stereo_mandatory_modes).

Definition add_hdmi_mandatory_stereo_modes (c : hdmi_connector) : Z * hdmi_connector :=
  let stereo_modes := concat (map mandatory_of (probed_modes c)) in
  (Z.of_nat (length stereo_modes), set_probed (probed_modes c ++ stereo_modes) c).

(** ** The HDMI vendor block *)

Definition add_hdmi_mode (vic : Z) (s : Z * hdmi_connector) : option (Z * hdmi_connector) :=
  if negb (drm_valid_hdmi_vic vic) then Some s
  else newmode ← edid_4k_modes !! Z.to_nat vic; Some (probed_add newmode s).

(** A mode of the video block with more flags. *)
Definition add_vic_mode (video_db : list Z) (video_index : nat) (newflag : Z) (s : Z * hdmi_connector) : option (Z * hdmi_connector) :=
  newmode ← drm_display_mode_from_vic_index video_db video_index;
  Some (match newmode with Some newmode => probed_add (add_flags newflag newmode) s | None => s end).

Definition add_3d_struct_modes (structure : Z) (video_db : list Z) (video_index : nat) (s : Z * hdmi_connector) : option (Z * hdmi_connector) :=
  s ← (if has structure (Z.shiftl 1 0) then add_vic_mode video_db video_index DRM_MODE_FLAG_3D_FRAME_PACKING s else Some s);
  s ← (if has structure (Z.shiftl 1 6) then add_vic_mode video_db video_index DRM_MODE_FLAG_3D_TOP_AND_BOTTOM s else Some s);
  (if has structure (Z.shiftl 1 8) then add_vic_mode video_db video_index DRM_MODE_FLAG_3D_SIDE_BY_SIDE_HALF s else Some s).

(** The loop over the numbers of HDMI modes, [n] of them from byte [p] of the extension on; [avail] are left in the block. *)
Fixpoint hdmi_vic_loop (n : nat) (cea : list Z) (p avail : nat) (s : Z * hdmi_connector) : option (Z * hdmi_connector) :=
  match n, avail with
  | S n', S avail' => vic ← cea !! p; s ← add_hdmi_mode vic s; hdmi_vic_loop n' cea (S p) avail' s
  | _, _ => Some s
  end.

(** The loop over the mask, [n] bits from bit [i] on. *)
Fixpoint mask_loop (n i : nat) (mask structure_all : Z) (video_db : list Z) (s : Z * hdmi_connector) : option (Z * hdmi_connector) :=
  match n with
  | O => Some s
  | S n' =>
    s ← (if has mask (Z.shiftl 1 (Z.of_nat i)) then add_3d_struct_modes structure_all video_db i s else Some s);
    mask_loop n' (S i) mask structure_all video_db s
  end.

(** The loop over the stereo modes of single modes, from byte [p] of the extension on: [n] bytes are left.  Each turn
    uses a byte or two. *)
Fixpoint stereo_loop (fuel n : nat) (cea : list Z) (p : nat) (video_db : list Z) (s : Z * hdmi_connector) : option (Z * hdmi_connector) :=
  match fuel, n with
  | _, O => Some s
  | O, S _ => None
  | S fuel', S n' =>
    b ← cea !! p;
    let detail_present := 7 <? Z.land b 0x0f in
    if detail_present && (n =? 1)%nat then Some s
    else
      let vic_index := Z.to_nat (Z.shiftr b 4) in
      let structure := Z.land b 0x0f in
      newflag ← (if structure =? 0 then Some DRM_MODE_FLAG_3D_FRAME_PACKING
                 else if structure =? 6 then Some DRM_MODE_FLAG_3D_TOP_AND_BOTTOM
                 else if structure =? 8 then
                   d ← cea !! (p + 1)%nat; Some (if Z.shiftr d 4 =? 1 then DRM_MODE_FLAG_3D_SIDE_BY_SIDE_HALF else 0)
                 else Some 0);
      s ← (if negb (newflag =? 0) then add_vic_mode video_db vic_index newflag s else Some s);
      if detail_present then stereo_loop fuel' (n - 2) cea (p + 2) video_db s else stereo_loop fuel' n' cea (p + 1) video_db s
  end.

(** [do_hdmi_vsdb_modes] from the modes with numbers on; [offset]: the byte of the two lengths is byte [8 + offset] of the block. *)
Definition vsdb_lists (cea : list Z) (db len offset : nat) (video_db : list Z) (multi_present : Z) (s : Z * hdmi_connector)
    : option (Z * hdmi_connector) :=
  b ← cea !! (db + 8 + offset)%nat;
  let vic_len := Z.to_nat (Z.shiftr b 5) in
  let hdmi_3d_len := Z.to_nat (Z.land b 0x1f) in
  s ← hdmi_vic_loop vic_len cea (db + 9 + offset) (len + 1 - (9 + offset)) s;
  let offset := (offset + 1 + vic_len)%nat in
  let multi_len := if multi_present =? 1 then 2%nat else if multi_present =? 2 then 4%nat else 0%nat in
  if (len + 1 <? 8 + offset + hdmi_3d_len)%nat then Some s
  else if (hdmi_3d_len <? multi_len)%nat then Some s
  else
    s ← (if (multi_present =? 1) || (multi_present =? 2) then
           b0 ← cea !! (db + 8 + offset)%nat; b1 ← cea !! (db + 9 + offset)%nat;
           let structure_all := Z.lor (Z.shiftl b0 8) b1 in
           mask ← (if multi_present =? 2
                   then b2 ← cea !! (db + 10 + offset)%nat; b3 ← cea !! (db + 11 + offset)%nat; Some (Z.lor (Z.shiftl b2 8) b3)
                   else Some 0xffff);
           mask_loop 16 0 mask structure_all video_db s
         else Some s);
    let n := (hdmi_3d_len - multi_len)%nat in
    stereo_loop n n cea (db + 8 + offset + multi_len) video_db s.

(** [do_hdmi_vsdb_modes] up to its label. *)
Definition vsdb_modes (cea : list Z) (db len : nat) (video_db : list Z) (c : hdmi_connector) : option (Z * hdmi_connector) :=
  if (len <? 8)%nat then Some (0, c)
  else
    b8 ← cea !! (db + 8)%nat;
    if negb (has b8 (Z.shiftl 1 5)) then Some (0, c)
    else
      let offset := if has b8 (Z.shiftl 1 7) then 2%nat else 0%nat in
      let offset := if has b8 (Z.shiftl 1 6) then (offset + 2)%nat else offset in
      if (len <? 8 + offset + 2)%nat then Some (0, c)
      else
        let offset := (offset + 1)%nat in
        b ← cea !! (db + 8 + offset)%nat;
        let '(s, multi_present) :=
          if has b (Z.shiftl 1 7) then (add_hdmi_mandatory_stereo_modes c, Z.shiftr (Z.land b 0x60) 5) else ((0, c), 0) in
        vsdb_lists cea db len (offset + 1) video_db multi_present s.

Definition do_hdmi_vsdb_modes (cea : list Z) (db len : nat) (video_db : list Z) (c : hdmi_connector) : option (Z * hdmi_connector) :=
  s ← vsdb_modes cea db len video_db c;
  Some (s.1, if 0 <? s.1 then set_info (set_has_hdmi_infoframe true (display_info s.2)) s.2 else s.2).

(** ** The whole extension *)

(** The variables of the loop of [add_cea_modes]. *)
Record cea_walk := { cw_modes : Z; cw_connector : hdmi_connector; cw_hdmi : option (nat * nat); cw_video : list Z }.

Definition add_cea_block (cea : list Z) (db : nat) (w : cea_walk) : option (bool * cea_walk) :=
  dbl ← cea_db_payload_len cea db;
  tag ← cea_db_tag cea db;
  if tag =? VIDEO_BLOCK then
    video ← bytes_at (db + 1) (Z.to_nat dbl) cea;
    s ← do_cea_modes video (cw_connector w);
    Some (false, {| cw_modes := cw_modes w + s.1; cw_connector := s.2; cw_hdmi := cw_hdmi w; cw_video := video |})
  else
    h ← cea_db_is_hdmi_vsdb cea db;
    if (h : bool) then
      Some (false, {| cw_modes := cw_modes w; cw_connector := cw_connector w; cw_hdmi := Some (db, Z.to_nat dbl); cw_video := cw_video w |})
    else
      y ← cea_db_is_y420vdb cea db;
      if (y : bool) then
        vdb420 ← bytes_at (db + 2) (Z.to_nat (dbl - 1)) cea;
        s ← do_y420vdb_modes vdb420 (cw_connector w);
        Some (false, {| cw_modes := cw_modes w + s.1; cw_connector := s.2; cw_hdmi := cw_hdmi w; cw_video := cw_video w |})
      else Some (false, w).

Definition add_cea_modes (edid : list Z) (c : hdmi_connector) : option (Z * hdmi_connector) :=
  ext ← drm_find_cea_extension (Some edid);
  match ext with
  | None => Some (0, c)
  | Some cea =>
    rev ← cea_revision cea;
    if rev <? 3 then Some (0, c)
    else
      o ← cea_db_offsets cea;
      match o with
      | None => Some (0, c)
      | Some range =>
        w ← for_each_cea_db cea range (add_cea_block cea) {| cw_modes := 0; cw_connector := c; cw_hdmi := None; cw_video := [] |};
        match cw_hdmi w with
        | None => Some (cw_modes w, cw_connector w)
        | Some (hdmi, hdmi_len) =>
          s ← do_hdmi_vsdb_modes cea hdmi hdmi_len (cw_video w) (cw_connector w);
          Some (cw_modes w + s.1, s.2)
        end
      end
  end.

(** ** Modes are added *)

Abbreviation valid_mode m := (drm_mode_validate_basic m = MODE_OK).

(** The modes [new] are added at the end and counted; the fields for the sound driver are as before. *)
Definition added (new : list drm_display_mode) (s s' : Z * hdmi_connector) : Prop :=
  probed_modes s'.2 = probed_modes s.2 ++ new /\ s'.1 = s.1 + Z.of_nat (length new) /\ sound s'.2 = sound s.2.

Lemma added_none s : added [] s s.
Proof. split; [by rewrite app_nil_r|]. split; [simpl; lia|done]. Qed.

Lemma added_one m s : added [m] s (probed_add m s).
Proof. by split. Qed.

Lemma added_trans n1 n2 a b c : added n1 a b -> added n2 b c -> added (n1 ++ n2) a c.
Proof. intros (E1 & A1 & S1) (E2 & A2 & S2). unfold added. rewrite E2, E1, A2, A1, S2, S1, length_app, app_assoc. split; [done|]. split; [lia|done]. Qed.

(** A call that ends and adds [new]. *)
Definition adds (new : list drm_display_mode) (s : Z * hdmi_connector) (r : option (Z * hdmi_connector)) : Prop :=
  exists s', r = Some s' /\ added new s s'.

Lemma adds_none s : adds [] s (Some s).
Proof. exists s. split; [done|apply added_none]. Qed.

Lemma adds_if (b : bool) new s r : adds new s r -> adds (if b then new else []) s (if b then r else Some s).
Proof. destruct b; [done|]. intros _. apply adds_none. Qed.

Lemma adds_bind new1 new2 s r f : adds new1 s r -> (forall s', adds new2 s' (f s')) -> adds (new1 ++ new2) s (r ≫= f).
Proof. intros (s1 & -> & A1) Hf. destruct (Hf s1) as (s2 & E & A2). exists s2. rewrite bind_some. split; [exact E|by eapply added_trans]. Qed.

Lemma add_flags_valid f m : valid_mode m -> valid_mode (add_flags f m).
Proof. intros <-. by apply validate_same. Qed.

Lemma with_vrefresh_valid v m : valid_mode m -> valid_mode (with_vrefresh v m).
Proof. intros <-. by apply validate_same. Qed.

(** The tables hold valid modes. *)
Lemma cea_lookup vic : drm_valid_cea_vic vic = true -> exists m, cea_modes !! Z.to_nat vic = Some m /\ valid_mode m.
Proof.
  intros Hv. unfold drm_valid_cea_vic in Hv. assert (length edid_cea_modes = length cea_modes) as El by (unfold cea_modes; by rewrite length_fmap).
  destruct (lookup_lt_is_Some_2 cea_modes (Z.to_nat vic)) as [m Hm]; [lia|]. exists m. split; [done|].
  apply (mode_ok_spec m), in_tables. unfold table_modes. rewrite !elem_of_app. right. right. left. fold cea_modes.
  apply list_elem_of_lookup. exists (Z.to_nat (vic - 1)). apply cea_tail. by replace (S (Z.to_nat (vic - 1))) with (Z.to_nat vic) by lia.
Qed.

Lemma hdmi_lookup vic : drm_valid_hdmi_vic vic = true -> exists m, edid_4k_modes !! Z.to_nat vic = Some m /\ valid_mode m.
Proof.
  intros Hv. unfold drm_valid_hdmi_vic in Hv.
  destruct (lookup_lt_is_Some_2 edid_4k_modes (Z.to_nat vic)) as [m Hm]; [lia|]. exists m. split; [done|].
  apply (mode_ok_spec m), in_tables. unfold table_modes. rewrite !elem_of_app. right. right. right.
  apply list_elem_of_lookup. exists (Z.to_nat (vic - 1)). apply hdmi_tail. by replace (S (Z.to_nat (vic - 1))) with (Z.to_nat vic) by lia.
Qed.

(** ** What the data blocks list

    The modes as a function of the payloads of the blocks, without places, lengths and counters. *)

(** The mode with a number in a video block. *)
Definition svd_mode (svd : Z) : option drm_display_mode :=
  if drm_valid_cea_vic (svd_to_vic svd) then with_vrefresh 0 <$> cea_modes !! Z.to_nat (svd_to_vic svd) else None.

(** A mode for YCbCr 4:2:0 only. *)
Definition svd_mode420 (svd : Z) : option drm_display_mode :=
  if drm_valid_cea_vic (svd_to_vic svd) then cea_modes !! Z.to_nat (svd_to_vic svd) else None.

(** An HDMI mode by its number. *)
Definition hdmi_vic_mode (vic : Z) : option drm_display_mode := if drm_valid_hdmi_vic vic then edid_4k_modes !! Z.to_nat vic else None.

(** The modes that a data block lists by itself. *)
Definition block_modes (b : Z * list Z) : list drm_display_mode :=
  if b.1 =? VIDEO_BLOCK then omap svd_mode b.2
  else if extended_block EXT_VIDEO_DATA_BLOCK_420 b then omap svd_mode420 (tail b.2) else [].

Section Stereo.

(** The payload of the video block. *)
Context (video : list Z).

(** Entry [i] of the video block in a stereo layout. *)
Definition stereo_mode (i : nat) (layout : Z) : list drm_display_mode := option_list (add_flags layout <$> (video !! i ≫= svd_mode)).

(** Entry [i] in every layout of the map [structure]. *)
Definition structure_modes (structure : Z) (i : nat) : list drm_display_mode :=
  (if has structure (Z.shiftl 1 0) then stereo_mode i DRM_MODE_FLAG_3D_FRAME_PACKING else []) ++
  (if has structure (Z.shiftl 1 6) then stereo_mode i DRM_MODE_FLAG_3D_TOP_AND_BOTTOM else []) ++
  (if has structure (Z.shiftl 1 8) then stereo_mode i DRM_MODE_FLAG_3D_SIDE_BY_SIDE_HALF else []).

(** All entries of [mask] from entry [i] on. *)
Definition mask_modes (mask structure : Z) (i n : nat) : list drm_display_mode :=
  concat (map (fun i => if has mask (Z.shiftl 1 (Z.of_nat i)) then structure_modes structure i else []) (seq i n)).

(** The layout of a single entry: frame packing, top and bottom, side by side in the half resolution, or one that is not supported. *)
Definition stereo_layout (structure detail : Z) : Z :=
  if structure =? 0 then DRM_MODE_FLAG_3D_FRAME_PACKING
  else if structure =? 6 then DRM_MODE_FLAG_3D_TOP_AND_BOTTOM
  else if (structure =? 8) && (Z.shiftr detail 4 =? 1) then DRM_MODE_FLAG_3D_SIDE_BY_SIDE_HALF else 0.

Definition entry_modes (i : nat) (layout : Z) : list drm_display_mode := if negb (layout =? 0) then stereo_mode i layout else [].

(** The list of single entries: a byte each, and a second one from structure 8 on. *)
Fixpoint entries_modes (l : list Z) : list drm_display_mode :=
  match l with
  | [] => []
  | b :: l' =>
    if 7 <? Z.land b 0x0f then
      match l' with
      | [] => []
      | detail :: l'' => entry_modes (Z.to_nat (Z.shiftr b 4)) (stereo_layout (Z.land b 0x0f) detail) ++ entries_modes l''
      end
    else entry_modes (Z.to_nat (Z.shiftr b 4)) (stereo_layout (Z.land b 0x0f) 0) ++ entries_modes l'
  end.

(** The stereo part of the block: a map of layouts for all entries, or for those of a mask, and the list. *)
Definition stereo_part (multi_present : Z) (l : list Z) : list drm_display_mode :=
  if multi_present =? 1 then
    match l with b0 :: b1 :: l => mask_modes 0xffff (Z.lor (Z.shiftl b0 8) b1) 0 16 ++ entries_modes l | _ => [] end
  else if multi_present =? 2 then
    match l with
    | b0 :: b1 :: b2 :: b3 :: l => mask_modes (Z.lor (Z.shiftl b2 8) b3) (Z.lor (Z.shiftl b0 8) b1) 0 16 ++ entries_modes l
    | _ => []
    end
  else entries_modes l.

(** The two lengths and what follows: HDMI modes by number, and the stereo part unless it is cut off. *)
Definition lists_modes (multi_present : Z) (l : list Z) : list drm_display_mode :=
  match l with
  | [] => []
  | b :: l =>
    let vic_len := Z.to_nat (Z.shiftr b 5) in
    let hdmi_3d_len := Z.to_nat (Z.land b 0x1f) in
    omap hdmi_vic_mode (take vic_len l) ++
    (if (length l <? vic_len + hdmi_3d_len)%nat then [] else stereo_part multi_present (take hdmi_3d_len (drop vic_len l)))
  end.

(** The modes of an HDMI block with payload [p], if the connector has the modes [probed]. *)
Definition hdmi_modes (p : list Z) (probed : list drm_display_mode) : list drm_display_mode :=
  match drop 7 p with
  | b8 :: l =>
    if negb (has b8 (Z.shiftl 1 5)) then []
    else
      match drop ((if has b8 (Z.shiftl 1 7) then 2 else 0) + (if has b8 (Z.shiftl 1 6) then 2 else 0)) l with
      | b :: l =>
        if bool_decide (l = []) then []
        else if has b (Z.shiftl 1 7) then concat (map mandatory_of probed) ++ lists_modes (Z.shiftr (Z.land b 0x60) 5) l
        else lists_modes 0 l
      | [] => []
      end
  | [] => []
  end.

End Stereo.

(** What the extension of an EDID lists. *)
Definition cea_blocks (edid : list Z) : list (Z * list Z) :=
  match drm_find_cea_extension (Some edid) with
  | Some (Some cea) => if 3 <=? default 0 (cea_revision cea) then blocks_of cea else []
  | _ => []
  end.

(** The last HDMI block counts, and the last video block in front of the end. *)
Definition last_hdmi (l : list (Z * list Z)) : option (list Z) := list.last (map snd (List.filter hdmi_block l)).
Definition last_video (l : list (Z * list Z)) : list Z := default [] (list.last (map snd (List.filter (fun b => b.1 =? VIDEO_BLOCK) l))).

(** The modes of the blocks [l] for a connector with the modes [probed]. *)
Definition blocks_modes (l : list (Z * list Z)) (probed : list drm_display_mode) : list drm_display_mode :=
  let listed := concat (map block_modes l) in
  listed ++ match last_hdmi l with Some p => hdmi_modes (last_video l) p (probed ++ listed) | None => [] end.

(** *** They are valid *)

Abbreviation all_valid l := (Forall (fun m => valid_mode m) l).

Lemma svd_mode_valid svd m : svd_mode svd = Some m -> valid_mode m.
Proof.
  unfold svd_mode. destruct (drm_valid_cea_vic (svd_to_vic svd)) eqn:Ev; [|done]. destruct (cea_lookup _ Ev) as (m' & -> & Hm).
  intros [= <-]. by apply with_vrefresh_valid.
Qed.

Lemma svd_mode420_valid svd m : svd_mode420 svd = Some m -> valid_mode m.
Proof.
  unfold svd_mode420. destruct (drm_valid_cea_vic (svd_to_vic svd)) eqn:Ev; [|done]. destruct (cea_lookup _ Ev) as (m' & -> & Hm).
  by intros [= <-].
Qed.

Lemma hdmi_vic_mode_valid vic m : hdmi_vic_mode vic = Some m -> valid_mode m.
Proof. unfold hdmi_vic_mode. destruct (drm_valid_hdmi_vic vic) eqn:Ev; [|done]. destruct (hdmi_lookup _ Ev) as (m' & -> & Hm). by intros [= <-]. Qed.

Lemma omap_valid f l : (forall x m, f x = Some m -> valid_mode m) -> all_valid (omap (f : Z -> option drm_display_mode) l).
Proof. intros Hf. apply Forall_forall. intros m Hm%list_elem_of_In. apply list_elem_of_omap in Hm as (x & _ & Hx). by eapply Hf. Qed.

Lemma block_modes_valid b : all_valid (block_modes b).
Proof.
  unfold block_modes. destruct (_ =? _); [apply omap_valid, svd_mode_valid|].
  destruct (extended_block _ _); [apply omap_valid, svd_mode420_valid|done].
Qed.

Lemma if_valid (b : bool) l : all_valid l -> all_valid (if b then l else []).
Proof. by destruct b. Qed.

Lemma concat_map_valid {A} (f : A -> list drm_display_mode) l : (forall x, all_valid (f x)) -> all_valid (concat (map f l)).
Proof. intros Hf. apply Forall_concat, Forall_map, Forall_forall. intros x _. apply Hf. Qed.

Lemma stereo_mode_valid video i layout : all_valid (stereo_mode video i layout).
Proof.
  unfold stereo_mode. destruct (video !! i) as [svd|]; [|done]. rewrite bind_some. destruct (svd_mode svd) as [m|] eqn:E; [|done].
  repeat constructor. by eapply add_flags_valid, svd_mode_valid.
Qed.

Lemma mask_modes_valid video mask structure i n : all_valid (mask_modes video mask structure i n).
Proof. apply concat_map_valid. intros j. apply if_valid. unfold structure_modes. rewrite !Forall_app. repeat split; apply if_valid, stereo_mode_valid. Qed.

Lemma entries_modes_valid video n : forall l, (length l <= n)%nat -> all_valid (entries_modes video l).
Proof.
  induction n as [|n IH]; intros [|b l] Hl; simpl in Hl; [done|lia|done|]. cbn [entries_modes].
  destruct (_ <? _); [destruct l as [|d l]; [done|]|]; (apply Forall_app; split; [apply if_valid, stereo_mode_valid|apply IH; simpl in Hl; lia]).
Qed.

Lemma lists_modes_valid video multi l : all_valid (lists_modes video multi l).
Proof.
  destruct l as [|b l]; [done|]. cbn [lists_modes]. apply Forall_app. split; [apply omap_valid, hdmi_vic_mode_valid|].
  destruct (_ <? _)%nat; [done|]. generalize (take (Z.to_nat (Z.land b 0x1f)) (drop (Z.to_nat (Z.shiftr b 5)) l)). clear. intros l.
  pose proof (fun l => entries_modes_valid video (length l) l ltac:(lia)) as He. unfold stereo_part.
  destruct (_ =? 1); [destruct l as [|b0 [|b1 l]]; try done; by apply Forall_app; split; [apply mask_modes_valid|]|].
  destruct (_ =? 2); [destruct l as [|b0 [|b1 [|b2 [|b3 l]]]]; try done; by apply Forall_app; split; [apply mask_modes_valid|]|done].
Qed.

Lemma mandatory_valid probed : all_valid probed -> all_valid (concat (map mandatory_of probed)).
Proof.
  intros Hv. apply Forall_concat, Forall_map. revert Hv. apply Forall_impl. intros m Hm. apply Forall_map, Forall_forall. intros sm _.
  by apply add_flags_valid.
Qed.

Lemma hdmi_modes_valid video p probed : all_valid probed -> all_valid (hdmi_modes video p probed).
Proof.
  intros Hv. unfold hdmi_modes. destruct (drop 7 p) as [|b8 l]; [done|]. destruct (negb _); [done|]. destruct (drop _ l) as [|b l']; [done|].
  case_bool_decide; [done|]. destruct (has b _); [apply Forall_app; split; [by apply mandatory_valid|]|]; apply lists_modes_valid.
Qed.

Lemma blocks_modes_valid l probed : all_valid probed -> all_valid (blocks_modes l probed).
Proof.
  intros Hv. assert (all_valid (concat (map block_modes l))) as Hl by (apply concat_map_valid, block_modes_valid).
  apply Forall_app. split; [done|]. destruct (last_hdmi l); [|done]. apply hdmi_modes_valid. by apply Forall_app.
Qed.

(** *** The code adds them *)

Lemma vic_index_mode db i : drm_display_mode_from_vic_index db i = Some (db !! i ≫= svd_mode).
Proof.
  unfold drm_display_mode_from_vic_index. destruct (Nat.leb_spec (length db) i) as [Hl|Hl]; [by rewrite lookup_ge_None_2|].
  destruct (lookup_lt_is_Some_2 db i Hl) as [svd ->]. rewrite !bind_some. unfold svd_mode.
  destruct (drm_valid_cea_vic (svd_to_vic svd)) eqn:Ev; [|done]. destruct (cea_lookup _ Ev) as (m & -> & _). done.
Qed.

Lemma add_vic_ok video i f s : adds (stereo_mode video i f) s (add_vic_mode video i f s).
Proof.
  unfold add_vic_mode, stereo_mode. rewrite vic_index_mode, bind_some. eexists. split; [done|].
  destruct (video !! i ≫= svd_mode); [apply added_one|apply added_none].
Qed.

Lemma add_3d_ok structure video i s : adds (structure_modes video structure i) s (add_3d_struct_modes structure video i s).
Proof.
  apply adds_bind; [apply adds_if, add_vic_ok|]. intros s1. apply adds_bind; [apply adds_if, add_vic_ok|]. intros s2. apply adds_if, add_vic_ok.
Qed.

Lemma mask_loop_ok mask structure video n : forall i s, adds (mask_modes video mask structure i n) s (mask_loop n i mask structure video s).
Proof.
  induction n as [|n IH]; intros i s; [apply adds_none|]. apply adds_bind; [apply adds_if, add_3d_ok|]. intros s'. apply IH.
Qed.

(** The bytes [l] are at place [p] of the extension. *)
Definition bytes_from (cea : list Z) (p : nat) (l : list Z) : Prop := forall k x, l !! k = Some x -> cea !! (p + k)%nat = Some x.

Lemma bytes_from_cons cea p x l : bytes_from cea p (x :: l) -> cea !! p = Some x /\ bytes_from cea (p + 1) l.
Proof.
  intros H. split; [specialize (H 0%nat x eq_refl); by rewrite Nat.add_0_r in H|].
  intros k y Hy. specialize (H (S k) y Hy). by replace (p + 1 + k)%nat with (p + S k)%nat by lia.
Qed.

Lemma bytes_from_drop cea p n l : bytes_from cea p l -> bytes_from cea (p + n) (drop n l).
Proof. intros H k x Hx. rewrite lookup_drop in Hx. rewrite <- (H _ _ Hx). f_equal. lia. Qed.

Lemma bytes_from_take cea p n l : bytes_from cea p l -> bytes_from cea p (take n l).
Proof. intros H k x Hx. apply lookup_take_Some in Hx as [Hx _]. by apply H. Qed.

Lemma block_bytes_from cea db b : block_at cea db b -> bytes_from cea (db + 1) b.2.
Proof. intros Hb k x Hx. rewrite <- Hx. apply (ba_bytes _ _ _ Hb). by eapply lookup_lt_Some. Qed.

Lemma add_hdmi_ok vic s : adds (option_list (hdmi_vic_mode vic)) s (add_hdmi_mode vic s).
Proof.
  unfold add_hdmi_mode, hdmi_vic_mode. destruct (drm_valid_hdmi_vic vic) eqn:Ev; [|apply adds_none].
  destruct (hdmi_lookup _ Ev) as (m & -> & _). eexists. split; [done|apply added_one].
Qed.

Lemma hdmi_vic_loop_ok cea l : forall n p s, bytes_from cea p l -> adds (omap hdmi_vic_mode (take n l)) s (hdmi_vic_loop n cea p (length l) s).
Proof.
  induction l as [|vic l IH]; intros [|n] p s Hl; [apply adds_none..|]. apply bytes_from_cons in Hl as [Hp Hl]. cbn [hdmi_vic_loop length take].
  rewrite Hp, bind_some.
  replace (omap hdmi_vic_mode (vic :: take n l)) with (option_list (hdmi_vic_mode vic) ++ omap hdmi_vic_mode (take n l))
    by (cbn [omap list_omap]; by destruct (hdmi_vic_mode vic)).
  apply adds_bind; [apply add_hdmi_ok|]. intros s'. apply IH. by replace (S p) with (p + 1)%nat by lia.
Qed.

(** The stereo list is read to its end, and not beyond. *)
Lemma stereo_loop_ok cea video fuel : forall l p s, (length l <= fuel)%nat -> bytes_from cea p l ->
  adds (entries_modes video l) s (stereo_loop fuel (length l) cea p video s).
Proof.
  induction fuel as [|fuel IH]; intros [|b l] p s Hn Hl; [apply adds_none|simpl in Hn; lia|apply adds_none|].
  apply bytes_from_cons in Hl as [Hp Hl]. cbn [stereo_loop length entries_modes]. rewrite Hp, bind_some.
  set (structure := Z.land b 0x0f). destruct (Z.ltb_spec 7 structure) as [H7|H7]; cbn [andb].
  - destruct l as [|d l]; [apply adds_none|]. apply bytes_from_cons in Hl as [Hd Hl].
    change (S (length (d :: l)) =? 1)%nat with false. cbn iota. rewrite Hd. unfold stereo_layout, entry_modes.
    replace (S (length (d :: l)) - 2)%nat with (length l) by (simpl; lia). replace (p + 2)%nat with (p + 1 + 1)%nat by lia.
    destruct (Z.eqb_spec structure 0); [lia|]. destruct (Z.eqb_spec structure 6); [lia|].
    destruct (structure =? 8); cbn [andb]; rewrite ?bind_some;
      (apply adds_bind; [apply adds_if, add_vic_ok|]; intros s'; apply IH; [simpl in Hn; lia|done]).
  - unfold stereo_layout, entry_modes. destruct (Z.eqb_spec structure 8); [lia|]. cbn [andb].
    destruct (structure =? 0); [|destruct (structure =? 6)]; rewrite ?bind_some;
      (apply adds_bind; [apply adds_if, add_vic_ok|]; intros s'; apply IH; [simpl in Hn; lia|done]).
Qed.

(** The mask and the list, the code of the stereo part. *)
Lemma stereo_part_ok cea video multi p l s : bytes_from cea p l ->
  let ml := if multi =? 1 then 2%nat else if multi =? 2 then 4%nat else 0%nat in
  adds (stereo_part video multi l) s
    (if (length l <? ml)%nat then Some s
     else
       s ← (if (multi =? 1) || (multi =? 2) then
              b0 ← cea !! p; b1 ← cea !! (p + 1)%nat;
              mask ← (if multi =? 2 then b2 ← cea !! (p + 2)%nat; b3 ← cea !! (p + 3)%nat; Some (Z.lor (Z.shiftl b2 8) b3) else Some 0xffff);
              mask_loop 16 0 mask (Z.lor (Z.shiftl b0 8) b1) video s
            else Some s);
       stereo_loop (length l - ml) (length l - ml) cea (p + ml) video s).
Proof.
  intros Hl. cbv zeta. unfold stereo_part. destruct (Z.eqb_spec multi 1) as [->|H1]; cbn [orb].
  - destruct l as [|b0 [|b1 l]]; [apply adds_none..|]. apply bytes_from_cons in Hl as [H0 Hl]. apply bytes_from_cons in Hl as [H1 Hl].
    rewrite H0, H1, !bind_some. change (1 =? 2) with false. cbn iota. rewrite bind_some. replace (length (b0 :: b1 :: l) <? 2)%nat with false by (simpl; lia).
    apply adds_bind; [apply mask_loop_ok|]. intros s'. replace (length (b0 :: b1 :: l) - 2)%nat with (length l) by (simpl; lia).
    replace (p + 2)%nat with (p + 1 + 1)%nat by lia. by apply stereo_loop_ok.
  - destruct (Z.eqb_spec multi 2) as [->|H2].
    + destruct l as [|b0 [|b1 [|b2 [|b3 l]]]]; [apply adds_none..|]. apply bytes_from_cons in Hl as [H0 Hl]. apply bytes_from_cons in Hl as [H1' Hl].
      apply bytes_from_cons in Hl as [H2 Hl]. apply bytes_from_cons in Hl as [H3 Hl]. replace (p + 1 + 1)%nat with (p + 2)%nat in * by lia.
      replace (p + 2 + 1)%nat with (p + 3)%nat in * by lia. rewrite H0, H1', H2, H3, !bind_some.
      replace (length (b0 :: b1 :: b2 :: b3 :: l) <? 4)%nat with false by (simpl; lia).
      apply adds_bind; [apply mask_loop_ok|]. intros s'. replace (length (b0 :: b1 :: b2 :: b3 :: l) - 4)%nat with (length l) by (simpl; lia).
      replace (p + 4)%nat with (p + 3 + 1)%nat by lia. by apply stereo_loop_ok.
    + rewrite Nat.sub_0_r, Nat.add_0_r, bind_some. destruct (Nat.ltb_spec (length l) 0); [lia|]. by apply stereo_loop_ok.
Qed.

Lemma vsdb_lists_ok cea db len offset video multi l s : bytes_from cea (db + 8 + offset) l -> l <> [] -> (8 + offset + length l = len + 1)%nat ->
  adds (lists_modes video multi l) s (vsdb_lists cea db len offset video multi s).
Proof.
  intros Hl Hne Hlen. destruct l as [|b l]; [done|]. apply bytes_from_cons in Hl as [Hb Hl]. simpl length in Hlen. unfold vsdb_lists. cbn [lists_modes].
  rewrite Hb, bind_some. set (vic_len := Z.to_nat (Z.shiftr b 5)). set (n3d := Z.to_nat (Z.land b 0x1f)).
  replace (len + 1 - (9 + offset))%nat with (length l) by lia. replace (db + 9 + offset)%nat with (db + 8 + offset + 1)%nat by lia.
  apply adds_bind; [by apply hdmi_vic_loop_ok|]. intros s1.
  replace (len + 1 <? 8 + (offset + 1 + vic_len) + n3d)%nat with (length l <? vic_len + n3d)%nat by lia.
  destruct (Nat.ltb_spec (length l) (vic_len + n3d)) as [|Hfit]; [apply adds_none|].
  pose proof (bytes_from_take _ _ n3d _ (bytes_from_drop _ _ vic_len _ Hl)) as H3. set (l3 := take n3d (drop vic_len l)) in *.
  assert (length l3 = n3d) as E3 by (unfold l3; rewrite length_take, length_drop; lia). clearbody l3 n3d. subst n3d.
  set (p := (db + 8 + offset + 1 + vic_len)%nat) in *. replace (db + 8 + (offset + 1 + vic_len))%nat with p by lia.
  replace (db + 9 + (offset + 1 + vic_len))%nat with (p + 1)%nat by lia. replace (db + 10 + (offset + 1 + vic_len))%nat with (p + 2)%nat by lia.
  replace (db + 11 + (offset + 1 + vic_len))%nat with (p + 3)%nat by lia. exact (stereo_part_ok cea video multi p l3 s1 H3).
Qed.

Lemma stereo_adds c : added (concat (map mandatory_of (probed_modes c))) (0, c) (add_hdmi_mandatory_stereo_modes c).
Proof. by split. Qed.

(** The HDMI block is read without leaving it. *)
Lemma hdmi_vsdb_ok cea db b video c : block_at cea db b ->
  adds (hdmi_modes video b.2 (probed_modes c)) (0, c) (do_hdmi_vsdb_modes cea db (length b.2) video c).
Proof.
  intros Hb. unfold do_hdmi_vsdb_modes.
  assert (adds (hdmi_modes video b.2 (probed_modes c)) (0, c) (vsdb_modes cea db (length b.2) video c)) as (s & -> & A1 & A2 & A3).
  2:{ rewrite bind_some. eexists. split; [done|]. cbn [snd fst] in *. by destruct (0 <? s.1). }
  apply block_bytes_from in Hb. unfold vsdb_modes, hdmi_modes. destruct (drop 7 b.2) as [|b8 l] eqn:E7.
  { apply (f_equal length) in E7. rewrite length_drop in E7. destruct (Nat.ltb_spec (length b.2) 8); [apply adds_none|simpl in E7; lia]. }
  assert (length b.2 = 8 + length l)%nat as El by (apply (f_equal length) in E7; rewrite length_drop in E7; simpl in E7; lia).
  apply (bytes_from_drop _ _ 7) in Hb. rewrite E7 in Hb. apply bytes_from_cons in Hb as [H8 Hl].
  replace (db + 1 + 7)%nat with (db + 8)%nat in * by lia. rewrite H8, bind_some. destruct (Nat.ltb_spec (length b.2) 8); [lia|].
  destruct (negb _); [apply adds_none|].
  set (o1 := if has b8 (Z.shiftl 1 7) then 2%nat else 0%nat). set (o := if has b8 (Z.shiftl 1 6) then (o1 + 2)%nat else o1).
  replace (o1 + (if has b8 (Z.shiftl 1 6) then 2 else 0))%nat with o by (unfold o; destruct (has b8 (Z.shiftl 1 6)); lia).
  apply (bytes_from_drop _ _ o) in Hl. pose proof (length_drop l o) as Eo. destruct (drop o l) as [|x l'] eqn:Ed.
  { simpl in Eo. destruct (Nat.ltb_spec (length b.2) (8 + o + 2)); [apply adds_none|lia]. }
  apply bytes_from_cons in Hl as [Hx Hl]. simpl in Eo. case_bool_decide as Hn.
  { subst l'. simpl in Eo. destruct (Nat.ltb_spec (length b.2) (8 + o + 2)); [apply adds_none|lia]. }
  assert (length l' <> 0)%nat as Hn' by (by destruct l'). destruct (Nat.ltb_spec (length b.2) (8 + o + 2)); [lia|].
  replace (db + 8 + (o + 1))%nat with (db + 8 + 1 + o)%nat by lia. rewrite Hx, bind_some.
  replace (db + 8 + 1 + o + 1)%nat with (db + 8 + (o + 1 + 1))%nat in Hl by lia.
  destruct (has x (Z.shiftl 1 7)); [|apply vsdb_lists_ok; [done..|lia]].
  destruct (vsdb_lists_ok cea db (length b.2) (o + 1 + 1) video (Z.shiftr (Z.land x 0x60) 5) l' (add_hdmi_mandatory_stereo_modes c)) as (s & -> & A);
    [done..|lia|]. exists s. split; [done|]. eapply added_trans; [apply stereo_adds|done].
Qed.

Lemma cea_modes_loop_ok db n : forall i s, (i + n = length db)%nat -> adds (omap svd_mode (drop i db)) s (cea_modes_loop n i db s).
Proof.
  induction n as [|n IH]; intros i s Hi; cbn [cea_modes_loop]; [rewrite drop_ge by lia; apply adds_none|].
  destruct (lookup_lt_is_Some_2 db i) as [svd Hs]; [lia|]. rewrite vic_index_mode, Hs, !bind_some, (drop_S _ _ _ Hs). cbn [omap list_omap].
  destruct (svd_mode svd) as [m|]; rewrite !bind_some; [|apply IH; lia].
  match goal with |- context [cea_modes_loop n (S i) db ?s1] => destruct (IH (S i) s1) as (s2 & -> & H2); [lia|] end.
  exists s2. split; [done|]. refine (added_trans [m] _ _ _ _ _ H2). unfold added, drm_add_cmdb_modes. destruct (_ && _); [|done]. by destruct (negb _).
Qed.

Lemma do_cea_modes_ok db c : adds (omap svd_mode db) (0, c) (do_cea_modes db c).
Proof. apply (cea_modes_loop_ok db (length db) 0). lia. Qed.

Lemma y420vdb_loop_ok svds : forall s, adds (omap svd_mode420 svds) s (y420vdb_loop svds s).
Proof.
  induction svds as [|svd svds IH]; intros s; cbn [y420vdb_loop omap list_omap]; [apply adds_none|].
  unfold svd_mode420 at 1. destruct (drm_valid_cea_vic (svd_to_vic svd)) eqn:Ev; cbn [negb]; [|apply IH].
  destruct (cea_lookup _ Ev) as (m & -> & _). rewrite bind_some.
  match goal with |- context [y420vdb_loop svds ?s1] => destruct (IH s1) as (s2 & -> & H2) end.
  exists s2. split; [done|]. by refine (added_trans [m] _ _ _ _ _ H2).
Qed.

Lemma do_y420vdb_ok svds c : adds (omap svd_mode420 svds) (0, c) (do_y420vdb_modes svds c).
Proof.
  unfold do_y420vdb_modes. destruct (y420vdb_loop_ok svds (0, c)) as (s & -> & H). rewrite bind_some. eexists. split; [done|].
  destruct H as (H1 & H2 & H3). by destruct (0 <? s.1).
Qed.

(** What the loop knows after the blocks [l]. *)
Record walk_inv (cea : list Z) (c : hdmi_connector) (l : list (Z * list Z)) (w : cea_walk) : Prop := {
  wi_added : added (concat (map block_modes l)) (0, c) (cw_modes w, cw_connector w);
  wi_video : cw_video w = last_video l;
  wi_hdmi : match cw_hdmi w with
            | None => last_hdmi l = None
            | Some (db, len) => exists b, last_hdmi l = Some b.2 /\ block_at cea db b /\ len = length b.2
            end
}.

Lemma last_filter_snoc (f : Z * list Z -> bool) l b :
  list.last (map snd (List.filter f (l ++ [b]))) = if f b then Some b.2 else list.last (map snd (List.filter f l)).
Proof. rewrite List.filter_app, map_app. cbn [List.filter]. destruct (f b); cbn [map]; [apply list.last_snoc|by rewrite app_nil_r]. Qed.

(** A block that is none of them, or adds modes only. *)
Lemma walk_other cea c l w b m c' : walk_inv cea c l w -> hdmi_block b = false -> added (block_modes b) (0, cw_connector w) (m, c') ->
  walk_inv cea c (l ++ [b])
    {| cw_modes := cw_modes w + m; cw_connector := c'; cw_hdmi := cw_hdmi w; cw_video := if b.1 =? VIDEO_BLOCK then b.2 else cw_video w |}.
Proof.
  intros [Ha Ev Hh] Hb (A1 & A2 & A3). cbn [fst snd] in *. split; cbn [cw_modes cw_connector cw_video cw_hdmi].
  - rewrite map_app, concat_app. eapply added_trans; [exact Ha|]. cbn [map concat]. rewrite app_nil_r. split; [exact A1|]. cbn [fst snd]. split; [lia|done].
  - unfold last_video. rewrite last_filter_snoc. destruct (b.1 =? VIDEO_BLOCK); [done|exact Ev].
  - unfold last_hdmi in *. rewrite last_filter_snoc, Hb. exact Hh.
Qed.

Lemma tail_bytes cea i b : block_at cea i b -> (1 <= length b.2)%nat ->
  bytes_at (i + 2) (Z.to_nat (Z.of_nat (length b.2) - 1)) cea = Some (tail b.2).
Proof.
  intros Hb Hl. pose proof (block_bytes_prefix _ _ b (length b.2) Hb ltac:(lia)) as E. unfold bytes_at in *.
  destruct (Nat.leb_spec (i + 1 + length b.2) (length cea)); [|done]. rewrite firstn_all in E. injection E as E.
  rewrite (proj2 (Nat.leb_le _ _)) by lia. f_equal. rewrite <- E at 2. replace (length b.2) with (S (length b.2 - 1)) at 2 by lia.
  replace (i + 2)%nat with (S (i + 1)) by lia. destruct (lookup_lt_is_Some_2 cea (i + 1)) as [y Hy]; [lia|].
  rewrite (drop_S _ _ _ Hy). cbn [take tail]. f_equal. lia.
Qed.

Lemma walk_step cea c i b l w : block_at cea i b -> walk_inv cea c l w ->
  exists w', add_cea_block cea i w = Some (false, w') /\ walk_inv cea c (l ++ [b]) w'.
Proof.
  intros Hb Hw. pose proof (walk_other cea c l w b) as Hother. unfold add_cea_block. rewrite (ba_len _ _ _ Hb), (ba_tag _ _ _ Hb), !bind_some, Nat2Z.id.
  destruct (Z.eqb_spec b.1 VIDEO_BLOCK) as [Et|Et].
  - assert (hdmi_block b = false) as Eh by (unfold hdmi_block; rewrite Et; done).
    assert (block_modes b = omap svd_mode b.2) as Em by (unfold block_modes; by rewrite Et).
    rewrite (block_bytes_prefix _ _ b), firstn_all, bind_some by done. destruct (do_cea_modes_ok b.2 (cw_connector w)) as ([m c'] & -> & Hs).
    rewrite bind_some. eexists. split; [done|]. apply Hother; [done..|]. by rewrite Em.
  - rewrite (hdmi_block_ok _ _ _ Hb), bind_some. destruct (hdmi_block b) eqn:Eh.
    + eexists. split; [done|]. destruct Hw as [Ha Ev Hh].
      assert (block_modes b = []) as Em by (unfold block_modes, hdmi_block, extended_block in *; destruct (Z.eqb_spec b.1 VENDOR_BLOCK) as [->|]; done).
      split; cbn [cw_modes cw_connector cw_video cw_hdmi].
      * rewrite map_app, concat_app. cbn [map concat]. by rewrite Em, !app_nil_r.
      * unfold last_video. rewrite last_filter_snoc. destruct (Z.eqb_spec b.1 VIDEO_BLOCK); [done|exact Ev].
      * exists b. unfold last_hdmi. by rewrite last_filter_snoc, Eh.
    + assert (forall m c', block_modes b = m -> added m (0, cw_connector w) c' -> walk_inv cea c (l ++ [b])
        {| cw_modes := cw_modes w + c'.1; cw_connector := c'.2; cw_hdmi := cw_hdmi w; cw_video := cw_video w |}) as Hnext.
      { intros m [k c'] <- Hm. exact (Hother k c' Hw eq_refl Hm). }
      rewrite (y420vdb_block_ok _ _ _ Hb), bind_some. unfold block_modes in Hnext. destruct (Z.eqb_spec b.1 VIDEO_BLOCK); [done|].
      destruct (extended_block EXT_VIDEO_DATA_BLOCK_420 b) eqn:Ey.
      * assert (1 <= length b.2)%nat as Hl by (unfold extended_block in Ey; destruct (b.2); [rewrite bool_decide_false in Ey; [lia|done]|simpl; lia]).
        rewrite (tail_bytes _ _ _ Hb Hl), bind_some. destruct (do_y420vdb_ok (tail b.2) (cw_connector w)) as (s & -> & Hs). rewrite bind_some.
        eexists. split; [done|]. by eapply Hnext.
      * eexists. split; [done|]. specialize (Hnext [] (0, cw_connector w) eq_refl (added_none _)). cbn [fst snd] in Hnext.
        rewrite Z.add_0_r in Hnext. by destruct w.
Qed.

Lemma add_cea_adds edid c : edid_blocks edid -> adds (blocks_modes (cea_blocks edid) (probed_modes c)) (0, c) (add_cea_modes edid c).
Proof.
  intros He. unfold add_cea_modes, cea_blocks. destruct (find_cea_ok edid He) as (r & -> & Hr). rewrite bind_some.
  destruct r as [cea|]; [|apply adds_none]. destruct (Hr cea eq_refl) as [Hc _]. unfold cea_revision.
  destruct (lookup_lt_is_Some_2 cea 1) as [rev ->]; [destruct Hc; lia|]. rewrite bind_some. change (default 0 (Some rev)) with rev.
  destruct (Z.ltb_spec rev 3), (Z.leb_spec 3 rev); [lia|apply adds_none| |lia]. destruct (cea_offsets_ok cea Hc) as (o & Eo & Ho).
  destruct o as [range|]; [|unfold blocks_of; rewrite Eo, bind_some; apply adds_none]. rewrite Eo, bind_some.
  destruct (for_each_history cea range (walk_inv cea c) (add_cea_block cea)
    {| cw_modes := 0; cw_connector := c; cw_hdmi := None; cw_video := [] |} Hc Eo) as (w & -> & [HA Ev Hh]).
  - intros i b l s. apply walk_step.
  - split; [apply added_none|done..].
  - rewrite bind_some. unfold blocks_modes. set (listed := concat (map block_modes (blocks_of cea))) in *.
    destruct (cw_hdmi w) as [[db len]|]; [|rewrite Hh, app_nil_r; by eexists]. destruct Hh as (b & Eb & Hb & ->). rewrite Eb, <- Ev.
    replace (probed_modes c ++ listed) with (probed_modes (cw_connector w)) by exact (proj1 HA).
    destruct (hdmi_vsdb_ok cea db b (cw_video w) (cw_connector w) Hb) as (s & -> & F1 & F2 & F3).
    rewrite bind_some. eexists. split; [done|]. eapply added_trans; [exact HA|]. split; [exact F1|]. cbn [fst snd] in *. split; [lia|done].
Qed.

(** C32: in an EDID with as many blocks as it announces, whatever data blocks its CEA extension has, its modes are read without an access
    outside of the extension, and the connector gets exactly the modes that the payloads of the blocks list, in their order: those of the video blocks, and then, if there is an HDMI
    block, those of the last one: the mandatory stereo modes of every mode the connector has by then, HDMI modes by number,
    entries of the last video block in the layouts of the map for all or for masked entries, and single entries with their own layout.
    Their number is returned and the fields for the sound driver are kept.  If the modes the connector had before are valid, which
    the stereo copies of them need, all the new modes are valid.  Allocations succeed. *)
Theorem add_cea_modes_correct edid c : edid_blocks edid ->
  exists c', let new := blocks_modes (cea_blocks edid) (probed_modes c) in
    add_cea_modes edid c = Some (Z.of_nat (length new), c') /\ probed_modes c' = probed_modes c ++ new /\ sound c' = sound c /\
    (Forall (fun m => valid_mode m) (probed_modes c) -> Forall (fun m => valid_mode m) new).
Proof.
  intros He. destruct (add_cea_adds edid c He) as ([n c'] & E & A1 & A2 & A3). exists c'. cbn [fst snd] in *.
  rewrite Z.add_0_l in A2. subst n. do 3 (split; [done|]). apply blocks_modes_valid.
Qed.

(** ** Alternate clocks *)

#[global] Instance crtc_timings_eq_dec : EqDecision crtc_timings.
Proof. solve_decision. Defined.
#[global] Instance drm_display_mode_eq_dec : EqDecision drm_display_mode.
Proof. solve_decision. Defined.

(** Stereo flags do not matter to the comparison. *)
Lemma equal_stereo f a b : drm_mode_equal_no_clocks_no_stereo (add_flags (Z.land f DRM_MODE_FLAG_3D_MASK) a) b = drm_mode_equal_no_clocks_no_stereo a b.
Proof.
  unfold drm_mode_equal_no_clocks_no_stereo, add_flags. cbn. do 2 f_equal. apply Z.bits_inj. intros n.
  rewrite !Z.ldiff_spec, Z.lor_spec, Z.land_spec. destruct (Z.testbit (flags a) n), (Z.testbit f n), (Z.testbit DRM_MODE_FLAG_3D_MASK n); done.
Qed.

Lemma is_cea_stereo f k t v m : is_cea_mode (with_clock k (add_flags (Z.land f DRM_MODE_FLAG_3D_MASK) t)) v m = is_cea_mode (with_clock k t) v m.
Proof.
  unfold is_cea_mode, cea_timings_match. f_equal. induction (extra_lines v) as [|j l IH]; [done|]. cbn [existsb]. rewrite IH. f_equal.
  exact (equal_stereo f (with_clock k t) (shift_lines j m)).
Qed.

(** The same entry with a smaller number: for the other aspect ratio. *)
Definition earlier_entry (i : nat) (t : drm_display_mode) : bool :=
  existsb (fun j => bool_decide (cea_modes !! j = Some t) && bool_decide (extra_lines (Z.of_nat j) = extra_lines (Z.of_nat i))) (seq 1 (i - 1)).

(** Every entry is found with both of its clocks, unless it is there before. *)
Lemma entries_found : forallb (fun p => let '(i, t) := p in
  earlier_entry i t ||
  ((least_vic (is_cea_mode (with_clock (clock t) t)) 1 (tail cea_modes) =? Z.of_nat i) &&
   (least_vic (is_cea_mode (with_clock (cea_mode_alternate_clock t) t)) 1 (tail cea_modes) =? Z.of_nat i)))
  (combine (seq 1 107) (tail cea_modes)) = true.
Proof. vm_compute. reflexivity. Qed.

Lemma least_vic_ext f g modes : (forall v m, f v m = g v m) -> forall vic, least_vic f vic modes = least_vic g vic modes.
Proof. intros E. induction modes as [|m modes IH]; intros vic; [done|]. cbn [least_vic]. by rewrite E, IH. Qed.

(** A CEA mode that was found is found again with each of its clocks and any stereo flags. *)
Lemma match_again a vic t k f : clock a <> 0 -> drm_match_cea_mode a = Some vic -> drm_valid_cea_vic vic = true ->
  cea_modes !! Z.to_nat vic = Some t -> k = clock t \/ k = cea_mode_alternate_clock t -> k <> 0 ->
  drm_match_cea_mode (with_clock k (add_flags (Z.land f DRM_MODE_FLAG_3D_MASK) t)) = Some vic.
Proof.
  intros Ha Hm Hv Ht Hk Hk0. rewrite match_cea_least in Hm by done. apply (inj Some) in Hm. rewrite match_cea_least by done. f_equal.
  rewrite (least_vic_ext _ (is_cea_mode (with_clock k t))) by (intros; apply is_cea_stereo).
  destruct (least_vic_spec (is_cea_mode a) (tail cea_modes) 1 ltac:(lia)) as [[E _]|(i & t' & E & Hi & Hf & Hl)].
  { rewrite E in Hm. subst vic. done. }
  rewrite E in Hm. subst vic. replace (Z.to_nat (1 + Z.of_nat i)) with (S i) in Ht by lia.
  pose proof (proj1 (cea_tail i t') Hi) as Et. rewrite Ht in Et. apply (inj Some) in Et. subst t'.
  pose proof entries_found as Hall. rewrite forallb_forall in Hall.
  assert (In (S i, t) (combine (seq 1 107) (tail cea_modes))) as Hin.
  { apply list_elem_of_In, list_elem_of_lookup. exists i. pose proof (lookup_lt_Some _ _ _ Hi) as Hlt.
    assert (length (tail cea_modes) = 107%nat) as El by (vm_compute; reflexivity). rewrite El in Hlt.
    apply lookup_zip_with_Some. exists (S i), t. split; [done|]. split; [|done]. rewrite lookup_seq. lia. }
  specialize (Hall _ Hin). cbn beta iota in Hall. apply orb_prop in Hall as [He|Hfound].
  - exfalso. unfold earlier_entry in He. apply existsb_exists in He as (j & Hj & He). apply in_seq in Hj.
    apply andb_prop in He as [E1 E2]. apply bool_decide_eq_true in E1, E2. destruct j as [|j]; [lia|].
    specialize (Hl j t ltac:(lia) (proj2 (cea_tail j t) E1)). unfold is_cea_mode, cea_timings_match in Hf, Hl.
    replace (1 + Z.of_nat j) with (Z.of_nat (S j)) in Hl by lia. replace (1 + Z.of_nat i) with (Z.of_nat (S i)) in Hf by lia.
    rewrite E2, Hf in Hl. discriminate.
  - replace (1 + Z.of_nat i) with (Z.of_nat (S i)) by lia. destruct Hk as [->| ->]; lia.
Qed.

(** The HDMI modes are CEA modes. *)
Lemma hdmi_in_cea : forallb (fun t => existsb (fun j => bool_decide (cea_modes !! j = Some t) &&
  (hdmi_mode_alternate_clock t =? cea_mode_alternate_clock t) && bool_decide (extra_lines (Z.of_nat j) = [0])) (seq 1 107)) (tail edid_4k_modes) = true.
Proof. vm_compute. reflexivity. Qed.

Lemma no_hdmi_match a : clock a <> 0 -> drm_match_cea_mode a = Some 0 -> drm_match_hdmi_mode a = Some 0.
Proof.
  intros Ha Hm. rewrite match_cea_least in Hm by done. apply (inj Some) in Hm. rewrite match_hdmi_least by done. f_equal.
  match goal with |- least_vic ?f _ _ = _ => destruct (least_vic_spec f (tail edid_4k_modes) 1 ltac:(lia)) as [[E _]|(i & t & _ & Hi & Hf & _)] end; [done|].
  exfalso. pose proof hdmi_in_cea as Hall. rewrite forallb_forall in Hall.
  specialize (Hall t (proj1 (list_elem_of_In _ _) (list_elem_of_lookup_2 _ _ _ Hi))). apply existsb_exists in Hall as (j & Hj & He).
  apply in_seq in Hj. rewrite !andb_true_iff, !bool_decide_eq_true, Z.eqb_eq in He. destruct He as [[E1 E2] E3]. destruct j as [|j]; [lia|].
  destruct (least_vic_spec (is_cea_mode a) (tail cea_modes) 1 ltac:(lia)) as [[_ H0]|(i' & t' & E & _)]; [|lia].
  specialize (H0 j t (proj2 (cea_tail j t) E1)). unfold is_cea_mode, cea_timings_match in H0. unfold is_hdmi_mode in Hf. rewrite E2 in Hf.
  replace (1 + Z.of_nat j) with (Z.of_nat (S j)) in H0 by lia. rewrite E3 in H0. cbn [existsb] in H0. rewrite equal_shift0, orb_false_r in H0. congruence.
Qed.

Lemma cea_clocks_positive : forallb (fun t => (0 <? clock t) && (0 <? cea_mode_alternate_clock t)) (tail cea_modes) = true.
Proof. vm_compute. reflexivity. Qed.

Lemma cea_clock_ranges vic t : drm_valid_cea_vic vic = true -> cea_modes !! Z.to_nat vic = Some t ->
  0 < clock t < 2 ^ 30 /\ 0 < cea_mode_alternate_clock t < 2 ^ 30.
Proof.
  intros Hv Ht. unfold drm_valid_cea_vic in Hv.
  pose proof (cea_clocks t (list_elem_of_lookup_2 _ _ _ Ht)) as Hs. unfold clocks_small in Hs.
  pose proof cea_clocks_positive as Hp. rewrite forallb_forall in Hp. specialize (Hp t). cbn beta in Hp.
  assert (In t (tail cea_modes)) as Hin.
  { apply list_elem_of_In, list_elem_of_lookup. exists (Z.to_nat (vic - 1)). apply cea_tail.
    by replace (S (Z.to_nat (vic - 1))) with (Z.to_nat vic) by lia. }
  specialize (Hp Hin). lia.
Qed.

(** [a'] is the CEA mode of [a] with the other one of its clocks. *)
Definition alternate_pair (a a' : drm_display_mode) : Prop :=
  exists vic t, drm_match_cea_mode a = Some vic /\ drm_match_cea_mode a' = Some vic /\ cea_modes !! Z.to_nat vic = Some t /\
    ((clock a = clock t /\ clock a' = cea_mode_alternate_clock t) \/ (clock a = cea_mode_alternate_clock t /\ clock a' = clock t)) /\
    clock a <> clock a' /\ drm_mode_equal_no_clocks_no_stereo a' t = true.

Lemma equal_refl t : drm_mode_equal_no_clocks_no_stereo t t = true.
Proof. unfold drm_mode_equal_no_clocks_no_stereo. by rewrite !Z.eqb_refl. Qed.

Lemma alternate_mode_spec a : 0 < clock a < 2 ^ 31 -> exists r, alternate_mode a = Some r /\
  (forall a', r = Some a' -> valid_mode a' /\ alternate_pair a a') /\
  (forall vic t, drm_match_cea_mode a = Some vic -> drm_valid_cea_vic vic = true -> cea_modes !! Z.to_nat vic = Some t ->
    clock t <> cea_mode_alternate_clock t -> clock a = clock t \/ clock a = cea_mode_alternate_clock t -> r <> None).
Proof.
  intros Ha. unfold alternate_mode. destruct (match_cea_first a) as (vic & Em & Hvic); [lia|]. rewrite Em, bind_some.
  destruct Hvic as [[-> _]|(Hv & _ & _)].
  { change (drm_valid_cea_vic 0) with false. rewrite no_hdmi_match, !bind_some by (done||lia). change (drm_valid_hdmi_vic 0) with false.
    cbn. exists None. split; [done|]. split; [done|]. intros vic t [= <-]. done. }
  rewrite Hv. destruct (cea_lookup vic Hv) as (t & Ht & Hval). rewrite Ht, !bind_some. destruct (cea_clock_ranges vic t Hv Ht) as [H1 H2].
  rewrite (u32_small (clock t)), (u32_small (clock a)) by (unfold is_u32; lia).
  assert (forall k, k <> 0 -> valid_mode (with_clock k (add_flags (Z.land (flags a) DRM_MODE_FLAG_3D_MASK) t))) as Hvalid.
  { intros k Hk. apply (add_flags_valid (Z.land (flags a) DRM_MODE_FLAG_3D_MASK)) in Hval.
    unfold drm_mode_validate_basic in *. cbn in *. destruct (Z.eqb_spec k 0); [done|]. destruct (clock t =? 0); [discriminate|done]. }
  assert (forall k, k = clock t \/ k = cea_mode_alternate_clock t ->
    drm_match_cea_mode (with_clock k (add_flags (Z.land (flags a) DRM_MODE_FLAG_3D_MASK) t)) = Some vic) as Hagain
    by (intros k Hk; apply (match_again a); [lia|done..|lia]).
  assert (forall k, drm_mode_equal_no_clocks_no_stereo (with_clock k (add_flags (Z.land (flags a) DRM_MODE_FLAG_3D_MASK) t)) t = true) as Heq
    by (intros k; rewrite <- (equal_refl t), <- (equal_stereo (flags a) t t); done).
  destruct (Z.eqb_spec (clock t) (cea_mode_alternate_clock t)) as [E|Hne].
  { exists None. split; [done|]. split; [done|]. intros vic' t' [= <-] _ Ht'. rewrite Ht in Ht'. apply (inj Some) in Ht' as ->. done. }
  destruct (negb (clock a =? clock t) && negb (clock a =? cea_mode_alternate_clock t)) eqn:Ec.
  { exists None. split; [done|]. split; [done|]. intros vic' t' [= <-] _ Ht'. rewrite Ht in Ht'. apply (inj Some) in Ht' as ->. lia. }
  eexists. split; [done|]. split; [|done]. intros a' [= <-].
  destruct (Z.eqb_spec (clock a) (clock t)) as [Ek|Ek]; cbn [negb];
    (rewrite s32_small by (unfold is_s32; lia); split; [apply Hvalid; lia|]; exists vic, t; do 3 (split; [done||(apply Hagain; tauto)|])).
  - split; [left; split; [done|done]|]. split; [cbn; lia|done].
  - split; [right; split; [lia|done]|]. split; [cbn; lia|done].
Qed.

Lemma foldl_append l : forall n ms, foldl (fun (s : Z * list drm_display_mode) mode => (s.1 + 1, drm_mode_probed_add s.2 mode)) (n, ms) l =
  (n + Z.of_nat (length l), ms ++ l).
Proof.
  induction l as [|m l IH]; intros n ms; cbn [foldl]; [rewrite app_nil_r; f_equal; simpl; lia|].
  rewrite IH. unfold drm_mode_probed_add. cbn [fst snd length]. rewrite <- app_assoc. f_equal. lia.
Qed.

(** For every probed mode that is a CEA mode at one of its two clocks the same CEA mode with the other clock is added, and nothing else; what is
    added is valid and is recognised as the same CEA mode. *)
Theorem add_alternate_cea_modes_correct edid cea probed : drm_find_cea_extension (Some edid) = Some (Some cea) ->
  Forall (fun m => 0 < clock m < 2 ^ 31) probed ->
  exists new, add_alternate_cea_modes edid probed = Some (Z.of_nat (length new), probed ++ new) /\
    (forall a', a' ∈ new -> valid_mode a' /\ exists a, a ∈ probed /\ alternate_pair a a') /\
    (forall a vic t, a ∈ probed -> drm_match_cea_mode a = Some vic -> drm_valid_cea_vic vic = true -> cea_modes !! Z.to_nat vic = Some t ->
      clock t <> cea_mode_alternate_clock t -> clock a = clock t \/ clock a = cea_mode_alternate_clock t ->
      exists a', a' ∈ new /\ alternate_pair a a').
Proof.
  intros Hext Hc. unfold add_alternate_cea_modes. rewrite Hext, bind_some.
  assert (exists l, mapM alternate_mode probed = Some l /\
    (forall a', Some a' ∈ l -> valid_mode a' /\ exists a, a ∈ probed /\ alternate_pair a a') /\
    (forall a, a ∈ probed -> exists r, r ∈ l /\ alternate_mode a = Some r)) as (l & -> & Hl & Hall).
  { induction Hc as [|a probed Ha Hc IH]; [exists []; split; [done|]; split; intros ? H; by apply elem_of_nil in H|].
    destruct IH as (l & El & Hl & Hall). destruct (alternate_mode_spec a Ha) as (r & Er & Hr & _). exists (r :: l).
    cbn [mapM]. rewrite Er, El. split; [done|]. split.
    - intros a' [E|Hin]%elem_of_cons; [destruct (Hr a' (eq_sym E)) as [V P]; split; [done|]; exists a; split; [left|done]|].
      destruct (Hl a' Hin) as (V & a0 & H0 & P). split; [done|]. exists a0. split; [by right|done].
    - intros b [->|Hin]%elem_of_cons; [exists r; split; [left|done]|]. destruct (Hall b Hin) as (r0 & H0 & E0). exists r0. split; [by right|done]. }
  rewrite bind_some, foldl_append. exists (omap id l). split; [done|]. split.
  - intros a' (x & Hx & E)%list_elem_of_omap. cbn in E. subst x. by apply Hl.
  - intros a vic t Hin Em Hv Ht Hne Hk. destruct (Hall a Hin) as (r & Hr & Er).
    destruct (alternate_mode_spec a) as (r' & Er' & Hpair & Hsome); [by apply (proj1 (Forall_forall _ _) Hc a), list_elem_of_In|].
    rewrite Er in Er'. apply (inj Some) in Er' as <-. destruct r as [a'|]; [|by destruct (Hsome vic t Em Hv Ht Hne Hk)].
    exists a'. split; [apply list_elem_of_omap; by exists (Some a')|]. by apply Hpair.
Qed.

(** ** Examples *)

(** An EDID with one CEA extension, which holds data blocks. *)
Definition sample_ext_blocks (bs : list (Z * list Z)) : list Z :=
  let bytes := concat (map encode_block bs) in
  with_checksum ([0x02; 3; Z.of_nat (4 + length bytes); 0] ++ bytes ++ replicate (123 - length bytes) 0).

(** Modes 1, 16 and 95, and an HDMI block with 3D modes and HDMI mode 1. *)
Definition sample_hdmi_edid : list Z :=
  sample_base 1 ++ sample_ext_blocks
    [(VIDEO_BLOCK, [1; 0x90; 95]);
     (VENDOR_BLOCK, [0x03; 0x0c; 0x00; 0x10; 0x00; 0; 0; 0x20; 0xc0; 0x26; 1; 0x00; 0x40; 0x00; 0x02; 0x18; 0x10])].

Definition new_connector : hdmi_connector :=
  {| probed_modes := []; display_info := fresh_info; y420_vdb_modes := 0; y420_cmdb_modes := 0; sound := clear_eld |}.

(** The modes as width, height, clock and stereo layout. *)
Definition show (m : drm_display_mode) : Z * Z * Z * Z := (hdisplay m, vdisplay m, clock m, Z.land (flags m) DRM_MODE_FLAG_3D_MASK).

Example sample_hdmi_modes : option_map (fun s => map show (probed_modes s.2)) (add_cea_modes sample_hdmi_edid new_connector) =
  Some [(640, 480, 25175, 0); (1920, 1080, 148500, 0); (3840, 2160, 297000, 0); (3840, 2160, 297000, 0);
        (1920, 1080, 148500, DRM_MODE_FLAG_3D_TOP_AND_BOTTOM); (1920, 1080, 148500, DRM_MODE_FLAG_3D_SIDE_BY_SIDE_HALF)].
Proof. vm_compute. reflexivity. Qed.

Lemma sample_hdmi_blocks : edid_blocks sample_hdmi_edid.
Proof.
  split; [apply Forall_app; split; vm_compute; repeat constructor; discriminate|]. exists 1. split; vm_compute; reflexivity.
Qed.

Lemma add_cea_modes_correct_witness :
  exists c', add_cea_modes sample_hdmi_edid new_connector = Some (6, c') /\
    map show (probed_modes c') =
      [(640, 480, 25175, 0); (1920, 1080, 148500, 0); (3840, 2160, 297000, 0); (3840, 2160, 297000, 0);
       (1920, 1080, 148500, DRM_MODE_FLAG_3D_TOP_AND_BOTTOM); (1920, 1080, 148500, DRM_MODE_FLAG_3D_SIDE_BY_SIDE_HALF)] /\
    Forall (fun m => valid_mode m) (probed_modes c').
Proof.
  destruct (add_cea_modes_correct sample_hdmi_edid new_connector sample_hdmi_blocks) as (c' & E1 & E2 & _ & E3).
  exists c'. split; [rewrite E1; vm_compute; reflexivity|]. change (probed_modes new_connector) with (@nil drm_display_mode) in E2.
  rewrite E2. split; [vm_compute; reflexivity|]. apply E3. constructor.
Defined.

(** A connector with CEA mode 16 at 60 Hz. *)
Definition sample_probed : list drm_display_mode := [default no_mode (cea_modes !! 16%nat)].

Lemma add_alternate_cea_modes_correct_witness :
  exists new, add_alternate_cea_modes sample_hdmi_edid sample_probed = Some (Z.of_nat (length new), sample_probed ++ new) /\
    map clock new = [148352].
Proof.
  destruct (drm_find_cea_extension (Some sample_hdmi_edid)) as [[cea|]|] eqn:Ec; [|vm_compute in Ec; discriminate..].
  destruct (add_alternate_cea_modes_correct sample_hdmi_edid cea sample_probed Ec) as (new & E & _).
  - constructor; [vm_compute; split; reflexivity|constructor].
  - exists new. split; [exact E|].
    assert (option_map (fun p => map clock (drop 1 (snd p))) (add_alternate_cea_modes sample_hdmi_edid sample_probed) = Some [148352]) as Em
      by (vm_compute; reflexivity).
    rewrite E in Em. apply (inj Some) in Em. exact Em.
Defined.
