(* ===== verification/DisplayId.v ===== *)
(** * DisplayID extensions and tile groups ([drm_edid.c], [drm_displayid.h], [drm_connector.c])

    A DisplayID extension holds data blocks with detailed timings and the description of tiled monitors.  Connectors to the
    tiles of one monitor share a tile group, which counts its references.

    An extension is the list of bytes from its start to the end of the EDID; [None] is an access behind the EDID or
    the use of an error pointer.  The [idr] of the tile groups is the list of them in the order of their numbers; allocation of
    a group is a parameter.

    Theorems: the walk over the blocks ends and stays inside the extension; detailed timings are decoded into what was encoded;
    after any sequence of changed monitors and removed connectors every tile group has as many references as connectors use it, and connectors
    share a group exactly when their monitors say so; what goes wrong with tile blocks that are too
    short and with failed allocations. *)

From S2P Require Import Prelude Bytes Rect Modes ModeGen Edid EdidCea EdidTables EdidModes.
From stdpp Require Import base gmap list option.
From Stdlib Require Import ZArith Lia ZifyBool ZifyNat.

#[local] Set Warnings "-clear-no-such-hyp".

#[local] Open Scope Z_scope.

Definition DISPLAYID_EXT : Z := 0x70.
Definition DATA_BLOCK_TYPE_1_DETAILED_TIMING : Z := 0x03.
Definition DATA_BLOCK_TILED_DISPLAY : Z := 0x12.

Definition drm_find_displayid_extension (edid : option (list Z)) : option (option (list Z)) :=
  drm_find_edid_extension edid DISPLAYID_EXT.

(** ** Blocks *)

(** [true]: the section is valid; [false]: [-EINVAL]. *)
Definition validate_displayid (displayid : list Z) (length idx : nat) : option bool :=
  bytes ← displayid !! (idx + 1)%nat;
  if Z.of_nat length - Z.of_nat idx <? bytes + 5 then Some false
  else
    bs ← bytes_at idx (Z.to_nat bytes + 5 + 1 - idx) displayid;
    Some (foldl (fun csum x => u8 (csum + x)) 0 bs =? 0).

(** The loop over the blocks from byte [idx] on: [body] gets the place of a block and the variables of the loop and tells
    whether to leave it.  The place grows by at least four in each turn. *)
Fixpoint displayid_loop {A} (fuel : nat) (displayid : list Z) (idx length : nat) (body : nat -> A -> option (bool * A)) (s : A) : option A :=
  match fuel with
  | O => None
  | S fuel' =>
    if (idx + 3 <=? length)%nat then
      num_bytes ← displayid !! (idx + 2)%nat;
      if (idx + 3 + Z.to_nat num_bytes <=? length)%nat && (0 <? num_bytes) then
        r ← body idx s;
        if r.1 : bool then Some r.2 else displayid_loop fuel' displayid (idx + (Z.to_nat num_bytes + 3)) length body r.2
      else Some s
    else Some s
  end.

(** ** Detailed timings *)

(** [struct displayid_detailed_timings_1] as numbers. *)
Record displayid_fields := {
  di_clock : Z; di_flags : Z; di_hactive : Z; di_hblank : Z; di_hsync : Z; di_hsw : Z;
  di_vactive : Z; di_vblank : Z; di_vsync : Z; di_vsw : Z; di_hpositive : bool; di_vpositive : bool
}.

Definition displayid_fields_of (timings : list Z) : option displayid_fields :=
  match timings with
  | [c0; c1; c2; f; ha0; ha1; hb0; hb1; hs0; hs1; hw0; hw1; va0; va1; vb0; vb1; vs0; vs1; vw0; vw1] =>
    Some {| di_clock := Z.lor (Z.lor c0 (Z.shiftl c1 8)) (Z.shiftl c2 16); di_flags := f;
            di_hactive := Z.lor ha0 (Z.shiftl ha1 8) + 1; di_hblank := Z.lor hb0 (Z.shiftl hb1 8) + 1;
            di_hsync := Z.lor hs0 (Z.shiftl (Z.land hs1 0x7f) 8) + 1; di_hsw := Z.lor hw0 (Z.shiftl hw1 8) + 1;
            di_vactive := Z.lor va0 (Z.shiftl va1 8) + 1; di_vblank := Z.lor vb0 (Z.shiftl vb1 8) + 1;
            di_vsync := Z.lor vs0 (Z.shiftl (Z.land vs1 0x7f) 8) + 1; di_vsw := Z.lor vw0 (Z.shiftl vw1 8) + 1;
            di_hpositive := has_flag (Z.shiftr hs1 7) 0x1; di_vpositive := has_flag (Z.shiftr vs1 7) 0x1 |}
  | _ => None
  end.

(** The mode with these timings. *)
Definition displayid_mode (t : displayid_fields) : drm_display_mode :=
  let hss := di_hactive t + di_hsync t in
  let vss := di_vactive t + di_vsync t in
  let fl := Z.lor (if di_hpositive t then DRM_MODE_FLAG_PHSYNC else DRM_MODE_FLAG_NHSYNC)
                  (if di_vpositive t then DRM_MODE_FLAG_PVSYNC else DRM_MODE_FLAG_NVSYNC) in
  let mode :=
    {| name := []; status := MODE_OK;
       type_ := if has_flag (di_flags t) 0x80 then Z.lor DRM_MODE_TYPE_DRIVER DRM_MODE_TYPE_PREFERRED else DRM_MODE_TYPE_DRIVER;
       clock := di_clock t * 10;
       hdisplay := di_hactive t; hsync_start := hss; hsync_end := hss + di_hsw t; htotal := di_hactive t + di_hblank t; hskew := 0;
       vdisplay := di_vactive t; vsync_start := vss; vsync_end := vss + di_vsw t; vtotal := di_vactive t + di_vblank t; vscan := 0;
       flags := fl; vrefresh := 0; hsync := 0; crtc := no_crtc |} in
  drm_mode_set_name (with_vrefresh (drm_mode_vrefresh mode) mode).

Definition drm_mode_displayid_detailed (timings : list Z) : option drm_display_mode :=
  t ← displayid_fields_of timings; Some (displayid_mode t).

(** [n] timings from byte [p] on. *)
Fixpoint displayid_timings (n : nat) (displayid : list Z) (p : nat) (c : mode_closure) : option mode_closure :=
  match n with
  | O => Some c
  | S n' =>
    t ← bytes_at p 20 displayid;
    m ← drm_mode_displayid_detailed t;
    displayid_timings n' displayid (p + 20) (add_mode m c)
  end.

Definition add_displayid_detailed_1_modes (displayid : list Z) (block : nat) (c : mode_closure) : option mode_closure :=
  num_bytes ← displayid !! (block + 2)%nat;
  if negb (num_bytes mod 20 =? 0) then Some c
  else displayid_timings (Z.to_nat (num_bytes / 20)) displayid (block + 3) c.

(** The body of the loop of [add_displayid_detailed_modes]. *)
Definition add_displayid_block (displayid : list Z) (block : nat) (c : mode_closure) : option (bool * mode_closure) :=
  tag ← displayid !! block;
  if tag =? DATA_BLOCK_TYPE_1_DETAILED_TIMING
  then c ← add_displayid_detailed_1_modes displayid block c; Some (false, c)
  else Some (false, c).

Definition add_displayid_detailed_modes (edid : list Z) (probed_modes : list drm_display_mode) : option mode_closure :=
  let c := {| mc_modes := probed_modes; mc_added := 0; mc_preferred := false |} in
  ext ← drm_find_displayid_extension (Some edid);
  match ext with
  | None => Some c
  | Some displayid =>
    ok ← validate_displayid displayid EDID_LENGTH 1;
    if negb ok then Some c
    else displayid_loop EDID_LENGTH displayid 5 EDID_LENGTH (add_displayid_block displayid) c
  end.

(** ** Tile groups *)

(** [struct drm_tile_group]; the [idr] is the list of groups by growing [id]. *)
Record drm_tile_group := { tg_id : Z; tg_refcount : Z; tg_data : list Z }.

(** A pointer that [drm_mode_create_tile_group] returns. *)
Inductive tile_ref := TileGroup (id : Z) | TileErr (e : errno).

#[global] Instance tile_ref_eq_dec : EqDecision tile_ref.
Proof. solve_decision. Defined.

(** The fields of [struct drm_connector] for tiles. *)
Record tile_connector := {
  has_tile : bool; tile_group : option tile_ref; tile_is_single_monitor : bool;
  num_h_tile : Z; num_v_tile : Z; tile_h_loc : Z; tile_v_loc : Z; tile_h_size : Z; tile_v_size : Z
}.

Definition set_tile_group (g : option tile_ref) (c : tile_connector) : tile_connector :=
  {| has_tile := has_tile c; tile_group := g; tile_is_single_monitor := tile_is_single_monitor c;
     num_h_tile := num_h_tile c; num_v_tile := num_v_tile c; tile_h_loc := tile_h_loc c; tile_v_loc := tile_v_loc c;
     tile_h_size := tile_h_size c; tile_v_size := tile_v_size c |}.

Definition set_has_tile (b : bool) (c : tile_connector) : tile_connector :=
  {| has_tile := b; tile_group := tile_group c; tile_is_single_monitor := tile_is_single_monitor c;
     num_h_tile := num_h_tile c; num_v_tile := num_v_tile c; tile_h_loc := tile_h_loc c; tile_v_loc := tile_v_loc c;
     tile_h_size := tile_h_size c; tile_v_size := tile_v_size c |}.

(** [kref_put] with [drm_tile_group_free]; a group that is not there, or an error pointer, is a fault. *)
Fixpoint put_group (id : Z) (groups : list drm_tile_group) : option (list drm_tile_group) :=
  match groups with
  | [] => None
  | g :: groups' =>
    if tg_id g =? id then
      Some (if tg_refcount g =? 1 then groups'
            else {| tg_id := tg_id g; tg_refcount := tg_refcount g - 1; tg_data := tg_data g |} :: groups')
    else r ← put_group id groups'; Some (g :: r)
  end.

Definition drm_mode_put_tile_group (tg : tile_ref) (groups : list drm_tile_group) : option (list drm_tile_group) :=
  match tg with TileGroup id => put_group id groups | TileErr _ => None end.

(** The first group with the topology; it gets a reference. *)
Fixpoint drm_mode_get_tile_group (topology : list Z) (groups : list drm_tile_group) : option Z * list drm_tile_group :=
  match groups with
  | [] => (None, [])
  | g :: groups' =>
    if bool_decide (tg_data g = topology) then
      (Some (tg_id g), {| tg_id := tg_id g; tg_refcount := tg_refcount g + 1; tg_data := tg_data g |} :: groups')
    else let '(r, groups') := drm_mode_get_tile_group topology groups' in (r, g :: groups')
  end.

Fixpoint idr_insert (g : drm_tile_group) (groups : list drm_tile_group) : list drm_tile_group :=
  match groups with
  | [] => [g]
  | h :: groups' => if tg_id g <? tg_id h then g :: groups else h :: idr_insert g groups'
  end.

Section Tiles.

(** The number of a new group, or the error of one of the two allocations. *)
Variable tile_alloc : list drm_tile_group -> result Z.

Definition drm_mode_create_tile_group (topology : list Z) (groups : list drm_tile_group) : tile_ref * list drm_tile_group :=
  match tile_alloc groups with
  | Ok id => (TileGroup id, idr_insert {| tg_id := id; tg_refcount := 1; tg_data := topology |} groups)
  | Err e => (TileErr e, groups)
  end.

(** The fields of a tile block. *)
Definition set_tile (cap t0 t1 t2 s0 s1 s2 s3 : Z) (c : tile_connector) : tile_connector :=
  let w := u16 (Z.lor s0 (Z.shiftl s1 8)) in
  let h := u16 (Z.lor s2 (Z.shiftl s3 8)) in
  let num_v := Z.lor (Z.land t0 0xf) (Z.land t2 0x30) in
  let num_h := Z.lor (Z.shiftr t0 4) (Z.land (Z.shiftr t2 2) 0x30) in
  let v_loc := Z.lor (Z.land t1 0xf) (Z.shiftl (Z.land t2 0x3) 4) in
  let h_loc := Z.lor (Z.shiftr t1 4) (Z.shiftl (Z.land (Z.shiftr t2 2) 0x3) 4) in
  {| has_tile := true; tile_group := tile_group c;
     tile_is_single_monitor := if has cap 0x80 then true else tile_is_single_monitor c;
     num_h_tile := u8 (num_h + 1); num_v_tile := u8 (num_v + 1); tile_h_loc := h_loc; tile_v_loc := v_loc;
     tile_h_size := u16 (w + 1); tile_v_size := u16 (h + 1) |}.

(** The reference of the connector changes to [tg]. *)
Definition switch_group (tg : tile_ref) (c : tile_connector) (groups : list drm_tile_group) : option (tile_connector * list drm_tile_group) :=
  if bool_decide (tile_group c = Some tg) then groups ← drm_mode_put_tile_group tg groups; Some (c, groups)
  else
    groups ← (match tile_group c with Some old => drm_mode_put_tile_group old groups | None => Some groups end);
    Some (set_tile_group (Some tg) c, groups).

Definition drm_parse_tiled_block (displayid : list Z) (block : nat) (s : tile_connector * list drm_tile_group)
    : option (tile_connector * list drm_tile_group) :=
  let '(c, groups) := s in
  bs ← bytes_at (block + 3) 21 displayid;
  match bs with
  | cap :: t0 :: t1 :: t2 :: s0 :: s1 :: s2 :: s3 :: _ :: _ :: _ :: _ :: _ :: topology =>
    let c := set_tile cap t0 t1 t2 s0 s1 s2 s3 c in
    let '(r, groups) := drm_mode_get_tile_group topology groups in
    let '(tg, groups) := match r with Some id => (TileGroup id, groups) | None => drm_mode_create_tile_group topology groups end in
    switch_group tg c groups
  | _ => None
  end.

(** The body of the loop of [drm_parse_display_id]: an error of [drm_parse_tiled_block] does not occur, since its pointer is never [NULL]. *)
Definition parse_displayid_block (displayid : list Z) (block : nat) (s : tile_connector * list drm_tile_group)
    : option (bool * (tile_connector * list drm_tile_group)) :=
  tag ← displayid !! block;
  if tag =? DATA_BLOCK_TILED_DISPLAY then s ← drm_parse_tiled_block displayid block s; Some (false, s) else Some (false, s).

(** [false]: an error. *)
Definition drm_parse_display_id (displayid : list Z) (length : nat) (is_edid_extension : bool) (s : tile_connector * list drm_tile_group)
    : option (bool * (tile_connector * list drm_tile_group)) :=
  let idx := if is_edid_extension then 1%nat else 0%nat in
  ok ← validate_displayid displayid length idx;
  if negb ok then Some (false, s)
  else s ← displayid_loop length displayid (idx + 4) length (parse_displayid_block displayid) s; Some (true, s).

(** The end of [drm_get_displayid]. *)
Definition drop_tile_group (s : tile_connector * list drm_tile_group) : option (tile_connector * list drm_tile_group) :=
  match tile_group s.1 with
  | None => Some s
  | Some tg => groups ← drm_mode_put_tile_group tg s.2; Some (set_tile_group None s.1, groups)
  end.

Definition drm_get_displayid (edid : list Z) (s : tile_connector * list drm_tile_group) : option (tile_connector * list drm_tile_group) :=
  let s := (set_has_tile false s.1, s.2) in
  ext ← drm_find_displayid_extension (Some edid);
  match ext with
  | None => drop_tile_group s
  | Some displayid =>
    r ← drm_parse_display_id displayid EDID_LENGTH true s;
    let '(ok, s) := (r : bool * (tile_connector * list drm_tile_group)) in
    if negb ok then drop_tile_group s
    else if negb (has_tile s.1) then drop_tile_group s
    else Some s
  end.

(** Monitors are probed on connectors, and connectors go away. *)
Inductive tile_op := Probe (i : nat) (edid : list Z) | Cleanup (i : nat).

Definition tile_step (op : tile_op) (s : list tile_connector * list drm_tile_group) : option (list tile_connector * list drm_tile_group) :=
  let '(i, run) := match op with Probe i edid => (i, drm_get_displayid edid) | Cleanup i => (i, drop_tile_group) end in
  match s.1 !! i with
  | None => Some s
  | Some c => r ← run (c, s.2); Some (<[i := r.1]> s.1, r.2)
  end.

Fixpoint tile_run (ops : list tile_op) (s : list tile_connector * list drm_tile_group) : option (list tile_connector * list drm_tile_group) :=
  match ops with
  | [] => Some s
  | op :: ops' => s ← tile_step op s; tile_run ops' s
  end.

End Tiles.

(** ** The blocks of a section *)

(** The blocks from byte [idx] on, as tags and payloads. *)
Fixpoint did_blocks (fuel : nat) (displayid : list Z) (idx length : nat) : list (Z * list Z) :=
  match fuel with
  | O => []
  | S fuel' =>
    let n := Z.to_nat (default 0 (displayid !! (idx + 2)%nat)) in
    if (idx + 3 + n <=? length)%nat && (0 <? n)%nat
    then (default 0 (displayid !! idx), take n (drop (idx + 3) displayid)) :: did_blocks fuel' displayid (idx + (n + 3)) length
    else []
  end.

(** Block [b] at place [i]. *)
Record did_at (displayid : list Z) (i : nat) (b : Z * list Z) : Prop := {
  da_tag : displayid !! i = Some b.1;
  da_len : displayid !! (i + 2)%nat = Some (Z.of_nat (length b.2));
  da_bytes : b.2 = take (length b.2) (drop (i + 3) displayid);
  da_u8 : Forall is_u8 b.2
}.

Section Walk.
Context {A : Type} (displayid : list Z) (len : nat) (Hd : cea_ok displayid) (Hlen : (len <= 128)%nat).

(** The loop is at its end or at a block. *)
Lemma displayid_loop_cases fuel idx : (len - idx < fuel)%nat ->
  (did_blocks fuel displayid idx len = [] /\ forall (body : nat -> A -> option (bool * A)) s, displayid_loop fuel displayid idx len body s = Some s) \/
  (exists fuel' b idx', fuel = S fuel' /\ did_at displayid idx b /\ (idx' = idx + (length b.2 + 3))%nat /\ (idx < len)%nat /\ (0 < length b.2)%nat /\
    did_blocks fuel displayid idx len = b :: did_blocks fuel' displayid idx' len /\
    forall (body : nat -> A -> option (bool * A)) s, displayid_loop fuel displayid idx len body s =
      r ← body idx s; if r.1 : bool then Some r.2 else displayid_loop fuel' displayid idx' len body r.2).
Proof.
  destruct Hd as [Hl Hu]. intros Hf. destruct fuel as [|fuel]; [lia|]. cbn [did_blocks displayid_loop].
  destruct (Nat.leb_spec (idx + 3) len) as [H3|H3].
  2:{ left. split; [|done]. destruct (Nat.leb_spec (idx + 3 + Z.to_nat (default 0 (displayid !! (idx + 2)%nat))) len); [lia|done]. }
  destruct (lookup_lt_is_Some_2 displayid (idx + 2)) as [n Hn]; [lia|]. rewrite Hn. pose proof (proj1 (Forall_lookup _ _) Hu _ _ Hn) as Un. unfold is_u8 in Un.
  change (default 0 (Some n)) with n. destruct ((idx + 3 + Z.to_nat n <=? len)%nat && (0 <? Z.to_nat n)%nat) eqn:E.
  - right. destruct (lookup_lt_is_Some_2 displayid idx) as [tag Ht]; [lia|]. rewrite Ht. change (default 0 (Some tag)) with tag.
    assert (length (take (Z.to_nat n) (drop (idx + 3) displayid)) = Z.to_nat n) as El by (rewrite length_take, length_drop; lia).
    exists fuel, (tag, take (Z.to_nat n) (drop (idx + 3) displayid)), (idx + (Z.to_nat n + 3))%nat. split; [done|]. split.
    + split; cbn [fst snd]; rewrite ?El; [done|rewrite Hn; f_equal; lia|done|by apply Forall_take, Forall_drop].
    + cbn [snd]. rewrite El. do 3 (split; [lia|]). split; [done|]. intros body s. rewrite bind_some.
      replace ((idx + 3 + Z.to_nat n <=? len)%nat && (0 <? n)) with true by lia. done.
  - left. split; [done|]. intros body s. rewrite bind_some. replace ((idx + 3 + Z.to_nat n <=? len)%nat && (0 <? n)) with false by lia. done.
Qed.

(** An invariant of the blocks so far and of the variables. *)
Lemma displayid_loop_history (Inv : list (Z * list Z) -> A -> Prop) (P : Z * list Z -> Prop) body :
  (forall i b l s, did_at displayid i b -> (i + 3 + length b.2 <= length displayid)%nat -> P b -> Inv l s -> exists s', body i s = Some (false, s') /\ Inv (l ++ [b]) s') ->
  forall fuel idx l s, (len - idx < fuel)%nat -> Forall P (did_blocks fuel displayid idx len) -> Inv l s ->
  exists s', displayid_loop fuel displayid idx len body s = Some s' /\ Inv (l ++ did_blocks fuel displayid idx len) s'.
Proof.
  intros Hbody. induction fuel as [|fuel IH]; intros idx l s Hf HP HI; [lia|].
  destruct (displayid_loop_cases (S fuel) idx Hf) as [[E ->]|(fuel' & b & idx' & [= <-] & Hb & -> & Hi & H0 & E & ->)]; rewrite E in *;
    [exists s; by rewrite app_nil_r|].
  inversion_clear HP as [|? ? HPb HPs].
  assert (idx + 3 + length b.2 <= length displayid)%nat as Hin.
  { destruct (Nat.le_gt_cases (length b.2) (length displayid - (idx + 3))) as [|Hgt]; [|pose proof (f_equal length (da_bytes _ _ _ Hb)) as El;
      rewrite length_take, length_drop in El; lia].
    destruct Hd as [Hl _]. lia. }
  destruct (Hbody idx b l s Hb Hin HPb HI) as (s' & -> & HI'). rewrite bind_some. cbn [fst snd].
  destruct (IH (idx + (length b.2 + 3))%nat (l ++ [b]) s') as (s'' & -> & HI''); [lia|done..|].
  exists s''. by rewrite <- app_assoc in HI''.
Qed.

End Walk.

(** ** Detailed timings are read as written *)

(** A timing as the standard packs it. *)
Definition encode_timing (t : displayid_fields) : list Z :=
  let lo x := (x - 1) mod 256 in
  let hi x := (x - 1) / 256 in
  [di_clock t mod 256; di_clock t / 256 mod 256; di_clock t / 65536; di_flags t;
   lo (di_hactive t); hi (di_hactive t); lo (di_hblank t); hi (di_hblank t);
   lo (di_hsync t); hi (di_hsync t) + (if di_hpositive t then 128 else 0); lo (di_hsw t); hi (di_hsw t);
   lo (di_vactive t); hi (di_vactive t); lo (di_vblank t); hi (di_vblank t);
   lo (di_vsync t); hi (di_vsync t) + (if di_vpositive t then 128 else 0); lo (di_vsw t); hi (di_vsw t)].

(** Timings that fit. *)
Record timing_fits (t : displayid_fields) : Prop := {
  df_clock_ok : 0 <= di_clock t < 2 ^ 24; df_flags_ok : is_u8 (di_flags t);
  df_ha : 1 <= di_hactive t <= 65536; df_hb : 1 <= di_hblank t <= 65536;
  df_hs : 1 <= di_hsync t <= 32768; df_hw : 1 <= di_hsw t <= 65536;
  df_va : 1 <= di_vactive t <= 65536; df_vb : 1 <= di_vblank t <= 65536;
  df_vs : 1 <= di_vsync t <= 32768; df_vw : 1 <= di_vsw t <= 65536
}.

Lemma lo_hi x : 0 <= x -> Z.lor (x mod 256) (Z.shiftl (x / 256) 8) = x.
Proof. intros Hx. rewrite Z.lor_comm. by apply hi_lo. Qed.

Lemma sync_bits h (pos : bool) : 0 <= h < 128 ->
  Z.land (h + (if pos then 128 else 0)) 0x7f = h /\ has_flag (Z.shiftr (h + (if pos then 128 else 0)) 7) 0x1 = pos.
Proof.
  intros Hh. assert (below 128 (fun h => (Z.land (h + 128) 0x7f =? h) && has_flag (Z.shiftr (h + 128) 7) 0x1 &&
    (Z.land (h + 0) 0x7f =? h) && negb (has_flag (Z.shiftr (h + 0) 7) 0x1)) = true) as H by eval_bits.
  pose proof (below_spec _ _ H h ltac:(lia)) as E. cbn beta in E. rewrite !andb_true_iff, !Z.eqb_eq, negb_true_iff in E. destruct pos; tauto.
Qed.

Lemma encode_timing_length t : length (encode_timing t) = 20%nat.
Proof. done. Qed.

Lemma timing_round_trip t : timing_fits t -> displayid_fields_of (encode_timing t) = Some t.
Proof.
  intros []. unfold encode_timing, displayid_fields_of. destruct t as [ck fl ha hb hs hw va vb vs vw hp vp]. cbn in *.
  destruct (sync_bits ((hs - 1) / 256) hp) as [-> ->]; [apply div_range; lia|].
  destruct (sync_bits ((vs - 1) / 256) vp) as [-> ->]; [apply div_range; lia|].
  rewrite !lo_hi by lia. f_equal. f_equal; try lia.
  pose proof (Z.mod_pos_bound ck 256 ltac:(lia)). pose proof (Z.mod_pos_bound (ck / 256) 256 ltac:(lia)).
  rewrite (lor_shiftl (ck mod 256)), lor_shiftl by lia.
  change 65536 with (256 * 256). rewrite <- (Z.div_div ck 256 256) by lia.
  pose proof (Z.div_mod ck 256 ltac:(lia)). pose proof (Z.div_mod (ck / 256) 256 ltac:(lia)). lia.
Qed.

(** The modes in [n] timings. *)
Fixpoint timings_of (n : nat) (payload : list Z) : list drm_display_mode :=
  match n with
  | O => []
  | S n' => match drm_mode_displayid_detailed (take 20 payload) with Some m => m :: timings_of n' (drop 20 payload) | None => [] end
  end.

Definition did_modes (b : Z * list Z) : list drm_display_mode :=
  if (b.1 =? DATA_BLOCK_TYPE_1_DETAILED_TIMING) && (Z.of_nat (length b.2) mod 20 =? 0)
  then timings_of (Z.to_nat (Z.of_nat (length b.2) / 20)) b.2 else [].

(** What is added to a list of modes. *)
Definition adds_modes (new : list drm_display_mode) (c c' : mode_closure) : Prop :=
  mc_modes c' = mc_modes c ++ new /\ mc_added c' = mc_added c + Z.of_nat (length new) /\ mc_preferred c' = mc_preferred c.

Lemma adds_modes_trans n1 n2 a b c : adds_modes n1 a b -> adds_modes n2 b c -> adds_modes (n1 ++ n2) a c.
Proof. intros (E1 & A1 & P1) (E2 & A2 & P2). unfold adds_modes. rewrite E2, E1, A2, A1, P2, P1, length_app, app_assoc. split; [done|]. split; [lia|done]. Qed.

Lemma adds_nothing c : adds_modes [] c c.
Proof. split; [by rewrite app_nil_r|]. split; [simpl; lia|done]. Qed.

Lemma fields_of_20 t : length t = 20%nat -> exists f, displayid_fields_of t = Some f.
Proof. intros Hl. do 21 (destruct t as [|? t]; simpl in Hl; try lia). by eexists. Qed.

Lemma displayid_timings_ok displayid n : forall p c, (p + 20 * n <= length displayid)%nat ->
  exists c', displayid_timings n displayid p c = Some c' /\ adds_modes (timings_of n (take (20 * n) (drop p displayid))) c c'.
Proof.
  induction n as [|n IH]; intros p c Hp; [exists c; split; [done|apply adds_nothing]|].
  cbn [displayid_timings timings_of]. unfold bytes_at. rewrite (proj2 (Nat.leb_le _ _)), bind_some by lia.
  rewrite take_take, Nat.min_l by lia. destruct (fields_of_20 (take 20 (drop p displayid))) as [f Ef]; [rewrite length_take, length_drop; lia|].
  unfold drm_mode_displayid_detailed. rewrite Ef, !bind_some. destruct (IH (p + 20)%nat (add_mode (displayid_mode f) c)) as (c' & -> & H); [lia|].
  exists c'. split; [done|]. replace (20 * S n)%nat with (20 + 20 * n)%nat by lia. rewrite <- take_drop_commute, drop_drop.
  refine (adds_modes_trans [displayid_mode f] _ _ _ _ _ H). done.
Qed.

Lemma displayid_block_ok displayid i b c : did_at displayid i b -> (i + 3 + length b.2 <= length displayid)%nat ->
  exists c', add_displayid_block displayid i c = Some (false, c') /\ adds_modes (did_modes b) c c'.
Proof.
  intros Hb Hin. unfold add_displayid_block, did_modes. rewrite (da_tag _ _ _ Hb), bind_some.
  destruct (b.1 =? DATA_BLOCK_TYPE_1_DETAILED_TIMING); [|exists c; split; [done|apply adds_nothing]]. cbn [andb].
  unfold add_displayid_detailed_1_modes. rewrite (da_len _ _ _ Hb), bind_some.
  destruct (Z.eqb_spec (Z.of_nat (length b.2) mod 20) 0) as [E|]; cbn [negb]; [|exists c; split; [done|apply adds_nothing]].
  set (n := Z.to_nat (Z.of_nat (length b.2) / 20)). assert (length b.2 = 20 * n)%nat as En by (unfold n; lia).
  destruct (displayid_timings_ok displayid n (i + 3) c) as (c' & -> & H); [lia|]. rewrite bind_some. exists c'. split; [done|].
  rewrite <- En, <- (da_bytes _ _ _ Hb) in H. done.
Qed.

(** The blocks of a section of 128 bytes. *)
Definition section_blocks (displayid : list Z) : list (Z * list Z) := did_blocks EDID_LENGTH displayid 5 EDID_LENGTH.

Lemma displayid_modes_ok displayid c : cea_ok displayid ->
  exists c', displayid_loop EDID_LENGTH displayid 5 EDID_LENGTH (add_displayid_block displayid) c = Some c' /\
    adds_modes (concat (map did_modes (section_blocks displayid))) c c'.
Proof.
  intros Hd. unfold section_blocks.
  assert (EDID_LENGTH <= 128)%nat as Hle by done. assert (EDID_LENGTH - 5 < EDID_LENGTH)%nat as Hf by (unfold EDID_LENGTH; lia).
  revert Hle Hf. generalize EDID_LENGTH. intros n Hle Hf.
  destruct (displayid_loop_history displayid n Hd Hle (fun l c' => adds_modes (concat (map did_modes l)) c c') (fun _ => True)
    (add_displayid_block displayid)) with (fuel := n) (idx := 5%nat) (l := @nil (Z * list Z)) (s := c) as (c' & E & H).
  - intros i b l s Hb Hin _ Hl. destruct (displayid_block_ok displayid i b s Hb Hin) as (s' & E & H). exists s'. split; [done|].
    rewrite map_app, concat_app. eapply adds_modes_trans; [done|]. cbn [map concat]. by rewrite app_nil_r.
  - done.
  - by apply Forall_forall.
  - apply adds_nothing.
  - exists c'. split; [done|exact H].
Qed.

(** ** Sections in the format *)

(** A block as a tag and a payload, with the revision [rev]. *)
Definition encode_did (b : Z * list Z) : list Z := [b.1; 0; Z.of_nat (length b.2)] ++ b.2.

(** The section with these blocks, filled up to the checksum [x] of the EDID block. *)
Definition encode_section (prod_id : Z) (bs : list (Z * list Z)) (x : Z) : list Z :=
  let body := concat (map encode_did bs) in
  let hdr := [0x12; Z.of_nat (length body); prod_id; 0] ++ body in
  [DISPLAYID_EXT] ++ hdr ++ [u8 (- sum hdr)] ++ replicate (121 - length body) 0 ++ [x].

Definition did_ok (b : Z * list Z) : Prop := (0 < length b.2)%nat /\ Forall is_u8 (b.1 :: b.2).

Lemma encode_did_length b : length (encode_did b) = (length b.2 + 3)%nat.
Proof. unfold encode_did. rewrite length_app. simpl. lia. Qed.

(** Blocks in the format are read one by one. *)
Lemma did_blocks_cons fuel pre b rest len : did_ok b -> (length pre + length b.2 + 3 <= len)%nat ->
  did_blocks (S fuel) (pre ++ encode_did b ++ rest) (length pre) len =
  b :: did_blocks fuel (pre ++ encode_did b ++ rest) (length (pre ++ encode_did b)) len.
Proof.
  intros [H0 _] Hl. cbn [did_blocks].
  assert (forall k, (pre ++ encode_did b ++ rest) !! (length pre + k)%nat = (encode_did b ++ rest) !! k) as Hget
    by (intros k; rewrite lookup_app_r by lia; f_equal; lia).
  assert ((pre ++ encode_did b ++ rest) !! length pre = Some b.1) as -> by (rewrite <- (Nat.add_0_r (length pre)); by rewrite Hget).
  assert ((pre ++ encode_did b ++ rest) !! (length pre + 2)%nat = Some (Z.of_nat (length b.2))) as -> by (by rewrite Hget).
  change (default 0 (Some b.1)) with b.1. change (default 0 (Some (Z.of_nat (length b.2)))) with (Z.of_nat (length b.2)). rewrite Nat2Z.id.
  replace ((length pre + 3 + length b.2 <=? len)%nat && (0 <? length b.2)%nat) with true by lia.
  assert (drop (length pre + 3) (pre ++ encode_did b ++ rest) = b.2 ++ rest) as ->.
  { rewrite <- drop_drop, drop_app_length. unfold encode_did. done. }
  rewrite take_app_length, length_app, encode_did_length. by destruct b.
Qed.

Lemma did_blocks_encode post len bs : forall pre fuel, Forall did_ok bs ->
  (length pre + length (concat (map encode_did bs)) <= len)%nat ->
  did_blocks (fuel + length bs) (pre ++ concat (map encode_did bs) ++ post) (length pre) len =
  bs ++ did_blocks fuel (pre ++ concat (map encode_did bs) ++ post) (length pre + length (concat (map encode_did bs))) len.
Proof.
  induction bs as [|b bs IH]; intros pre fuel Hok Hlen; [by rewrite !Nat.add_0_r|].
  inversion_clear Hok as [|? ? Hb Hoks]. cbn [map concat length] in *. rewrite length_app, encode_did_length in Hlen. rewrite <- app_assoc.
  replace (fuel + S (length bs))%nat with (S (fuel + length bs)) by lia. rewrite did_blocks_cons by (done||lia).
  rewrite (app_assoc pre), IH by (done||(rewrite length_app, encode_did_length; lia)). cbn [app]. do 2 f_equal.
  f_equal. rewrite !length_app. lia.
Qed.

Lemma encode_bs_length bs : (4 * length bs <= length (concat (map encode_did bs)))%nat \/ ~ Forall did_ok bs.
Proof.
  destruct (decide (Forall (fun b => 0 < length b.2)%nat bs)) as [H|H].
  - left. induction H as [|b bs Hb H IH]; [done|]. cbn [map concat]. rewrite length_app, encode_did_length. simpl. lia.
  - right. intros Hok. apply H. revert Hok. apply Forall_impl. by intros b [Hb _].
Qed.

Section Section_format.
Context (prod_id x : Z) (bs : list (Z * list Z)) (more : list Z).
Hypothesis bs_ok : Forall did_ok bs.
Let L := length (concat (map encode_did bs)).
Hypothesis fits : (L <= 121)%nat.

Let whole := encode_section prod_id bs x ++ more.
Let pre := [DISPLAYID_EXT; 0x12; Z.of_nat L; prod_id; 0].
Let hdr := [0x12; Z.of_nat L; prod_id; 0] ++ concat (map encode_did bs).

Lemma whole_parts : whole = pre ++ concat (map encode_did bs) ++ ([u8 (- sum hdr)] ++ replicate (121 - L) 0 ++ [x] ++ more).
Proof. unfold whole, encode_section, pre, hdr. fold L. by rewrite <- !app_assoc. Qed.

Lemma section_blocks_encode : section_blocks whole = bs.
Proof.
  destruct (encode_bs_length bs) as [Hn|]; [|done]. fold L in Hn. unfold section_blocks.
  replace (did_blocks EDID_LENGTH whole 5 EDID_LENGTH) with (did_blocks (S (127 - length bs) + length bs) whole (length pre) 128)
    by (f_equal; unfold EDID_LENGTH; lia).
  rewrite whole_parts, did_blocks_encode by (done||(fold L; simpl; lia)). rewrite <- whole_parts. fold L.
  replace (did_blocks (S (127 - length bs)) whole (length pre + L) 128) with (@nil (Z * list Z)); [by rewrite app_nil_r|].
  cbn [did_blocks]. set (n := Z.to_nat (default 0 (whole !! (length pre + L + 2)%nat))).
  assert ((length pre + L + 3 + n <=? 128)%nat && (0 <? n)%nat = false) as ->; [|done].
  destruct (Nat.le_gt_cases L 119) as [H|H]; [|simpl; lia].
  assert (n = 0%nat) as ->; [|simpl; lia]. unfold n. rewrite whole_parts, lookup_app_r by (simpl; lia).
  rewrite lookup_app_r by (fold L; simpl; lia). fold L. replace (length pre + L + 2 - length pre - L)%nat with 2%nat by lia.
  cbn [app]. replace (121 - L)%nat with (S (S (119 - L))) by lia. done.
Qed.

Lemma section_valid : validate_displayid whole EDID_LENGTH 1 = Some true.
Proof.
  unfold validate_displayid. assert (whole !! (1 + 1)%nat = Some (Z.of_nat L)) as -> by (by rewrite whole_parts).
  rewrite bind_some. unfold EDID_LENGTH. replace (Z.of_nat 128 - Z.of_nat 1 <? Z.of_nat L + 5) with false by lia. rewrite Nat2Z.id.
  assert (bytes_at 1 (L + 5 + 1 - 1) whole = Some (hdr ++ [u8 (- sum hdr)])) as ->.
  { unfold bytes_at. rewrite whole_parts. assert (length hdr = L + 4)%nat as Eh by (unfold hdr; rewrite length_app; fold L; simpl; lia).
    match goal with |- context [drop 1 (pre ++ ?a ++ [?c] ++ ?r)] =>
      replace (drop 1 (pre ++ a ++ [c] ++ r)) with ((hdr ++ [c]) ++ r) by (unfold hdr, pre; rewrite <- !app_assoc; done) end.
    rewrite take_app_length' by (rewrite length_app, Eh; simpl; lia).
    rewrite (proj2 (Nat.leb_le _ _)); [done|]. rewrite !length_app. fold L. rewrite length_replicate. simpl. lia. }
  rewrite bind_some. f_equal. change 0 with (u8 0) at 1. rewrite foldl_u8_sum, sum_app. apply Z.eqb_eq.
  assert (forall c, sum [c] = c) as -> by (intros c; unfold sum; simpl; lia).
  unfold u8. rewrite Z.add_0_l, Zplus_mod_idemp_r. by rewrite Z.add_opp_diag_r.
Qed.

End Section_format.

(** The blocks of a section: detailed timings and others. *)
Inductive did_content := DidTimings (ts : list displayid_fields) | DidOther (b : Z * list Z).

Definition content_block (d : did_content) : Z * list Z :=
  match d with DidTimings ts => (DATA_BLOCK_TYPE_1_DETAILED_TIMING, concat (map encode_timing ts)) | DidOther b => b end.

Definition content_ok (d : did_content) : Prop :=
  match d with
  | DidTimings ts => ts <> [] /\ Forall timing_fits ts
  | DidOther b => did_ok b /\ b.1 <> DATA_BLOCK_TYPE_1_DETAILED_TIMING
  end.

Definition content_modes (d : did_content) : list drm_display_mode :=
  match d with DidTimings ts => map displayid_mode ts | DidOther _ => [] end.

Lemma timings_length ts : length (concat (map encode_timing ts)) = (20 * length ts)%nat.
Proof. induction ts as [|t ts IH]; [done|]. cbn [map concat]. rewrite length_app, IH, encode_timing_length. simpl. lia. Qed.

Lemma timings_of_encode ts : Forall timing_fits ts -> timings_of (length ts) (concat (map encode_timing ts)) = map displayid_mode ts.
Proof.
  induction 1 as [|t ts Ht Hts IH]; [done|]. cbn [length map concat timings_of].
  rewrite take_app_length', drop_app_length' by done. unfold drm_mode_displayid_detailed. rewrite timing_round_trip, bind_some by done. by rewrite IH.
Qed.

Lemma encode_timing_u8 t : timing_fits t -> Forall is_u8 (encode_timing t).
Proof.
  intros []. unfold encode_timing, is_u8 in *.
  assert (forall x m, 1 <= x <= m * 256 -> 0 <= (x - 1) / 256 < m) as Hhi by (intros x m Hx; apply div_range; lia).
  pose proof (Hhi (di_hsync t) 128). pose proof (Hhi (di_vsync t) 128).
  pose proof (Z.div_lt_upper_bound (di_clock t) 65536 256). pose proof (Z.div_pos (di_clock t) 65536).
  repeat constructor; cbn beta; try (apply Z.mod_pos_bound; lia); try (apply (Hhi _ 256); lia); try lia; try (destruct (di_hpositive t); lia); destruct (di_vpositive t); lia.
Qed.

Lemma content_did_ok d : content_ok d -> did_ok (content_block d).
Proof.
  destruct d as [ts|b]; [|by intros [? _]]. intros [Hne Hf]. split; cbn [content_block snd fst].
  - rewrite timings_length. destruct ts; [done|simpl; lia].
  - constructor; [done|]. apply Forall_concat, Forall_map. revert Hf. apply Forall_impl. intros t. apply encode_timing_u8.
Qed.

Lemma contents_ok ds : Forall content_ok ds -> Forall did_ok (map content_block ds).
Proof. intros H. apply Forall_map. revert H. apply Forall_impl, content_did_ok. Qed.

Lemma content_did_modes d : content_ok d -> did_modes (content_block d) = content_modes d.
Proof.
  unfold did_modes. destruct d as [ts|b]; cbn [content_block content_ok content_modes].
  - intros [_ Hf]. cbn [fst snd]. rewrite timings_length. replace (Z.of_nat (20 * length ts) mod 20 =? 0) with true by lia.
    change (DATA_BLOCK_TYPE_1_DETAILED_TIMING =? DATA_BLOCK_TYPE_1_DETAILED_TIMING) with true. cbn [andb].
    replace (Z.to_nat (Z.of_nat (20 * length ts) / 20)) with (length ts) by lia. by apply timings_of_encode.
  - intros [_ Hne]. by destruct (Z.eqb_spec b.1 DATA_BLOCK_TYPE_1_DETAILED_TIMING).
Qed.

Lemma find_displayid_ok edid : edid_blocks edid ->
  exists r, drm_find_displayid_extension (Some edid) = Some r /\ forall ext, r = Some ext -> cea_ok ext.
Proof.
  intros (Hu & n & Hn & Hl). unfold drm_find_displayid_extension, drm_find_edid_extension. rewrite Hn, bind_some. destruct (n =? 0); [by eexists|].
  destruct (find_extension_ok edid DISPLAYID_EXT Hu (Z.to_nat n) 0) as (r & -> & Hr); [unfold EDID_LENGTH in *; lia|].
  exists r. split; [done|]. intros ext E. by apply Hr.
Qed.

Lemma validate_total did : cea_ok did -> exists ok, validate_displayid did EDID_LENGTH 1 = Some ok.
Proof.
  intros [Hdl Hdu]. unfold validate_displayid. destruct (lookup_lt_is_Some_2 did (1 + 1)) as [b Hb]; [lia|]. rewrite Hb, bind_some.
  destruct (Z.ltb_spec (Z.of_nat EDID_LENGTH - Z.of_nat 1) (b + 5)); [by eexists|]. unfold bytes_at.
  rewrite (proj2 (Nat.leb_le _ _)) by (unfold EDID_LENGTH in *; lia). by eexists.
Qed.

(** Whatever a DisplayID extension contains, the walk over its blocks ends without an access outside of the EDID and counts the
    modes it adds; if the extension is in the format, the modes are those of its detailed timings, in their order. *)
Theorem add_displayid_detailed_modes_correct edid probed : edid_blocks edid ->
  exists new, add_displayid_detailed_modes edid probed =
      Some {| mc_modes := probed ++ new; mc_added := Z.of_nat (length new); mc_preferred := false |} /\
    forall prod_id ds x more,
      drm_find_displayid_extension (Some edid) = Some (Some (encode_section prod_id (map content_block ds) x ++ more)) ->
      Forall content_ok ds -> (length (concat (map encode_did (map content_block ds))) <= 121)%nat -> new = concat (map content_modes ds).
Proof.
  intros He. unfold add_displayid_detailed_modes. destruct (find_displayid_ok edid He) as (r & Er & Hr).
  rewrite Er, bind_some. destruct r as [did|]; [|exists []; rewrite app_nil_r; split; [done|]; intros ? ? ? ? [=]].
  pose proof (Hr did eq_refl) as Hd. destruct (validate_total did Hd) as [ok Ev].
  rewrite Ev, bind_some. destruct ok; cbn [negb].
  - destruct (displayid_modes_ok did {| mc_modes := probed; mc_added := 0; mc_preferred := false |} Hd) as (c & -> & H1 & H2 & H3).
    exists (concat (map did_modes (section_blocks did))). cbn [mc_modes mc_added] in *. split; [destruct c as [cm ca cp]; cbn [EdidModes.mc_modes EdidModes.mc_added EdidModes.mc_preferred] in *; rewrite H1, H2, H3, Z.add_0_l; reflexivity|].
    intros prod_id ds x more E Hds Hfit. apply (inj Some), (inj Some) in E. subst did. rewrite (section_blocks_encode prod_id x (map content_block ds) more (contents_ok ds Hds) Hfit).
    rewrite map_map. f_equal. apply map_ext_Forall. revert Hds. apply Forall_impl. apply content_did_modes.
  - exists []. rewrite app_nil_r. split; [done|]. intros prod_id ds x more E Hds Hfit. apply (inj Some), (inj Some) in E. subst did.
    rewrite (section_valid prod_id x (map content_block ds) more Hfit) in Ev. discriminate.
Qed.

(** ** Tile groups *)

(** Whether a connector uses a group, and how many do. *)
Definition points (id : Z) (c : tile_connector) : Z := if decide (tile_group c = Some (TileGroup id)) then 1 else 0.
Definition refs (id : Z) (conns : list tile_connector) : Z := foldr Z.add 0 (map (points id) conns).

Lemma refs_update id i c c' : forall conns, conns !! i = Some c -> refs id (<[i := c']> conns) = refs id conns - points id c + points id c'.
Proof.
  induction i as [|i IH]; intros [|d conns] H; try done.
  - injection H as ->. unfold refs. simpl. lia.
  - specialize (IH conns H). unfold refs in *. simpl. lia.
Qed.

Lemma points_range id c : 0 <= points id c <= 1.
Proof. unfold points. case_decide; lia. Qed.

Lemma refs_nonneg id conns : 0 <= refs id conns.
Proof. unfold refs. induction conns as [|c conns IH]; simpl; [done|]. pose proof (points_range id c). lia. Qed.

Lemma refs_lookup id i c conns : conns !! i = Some c -> points id c <= refs id conns.
Proof.
  revert i. induction conns as [|d conns IH]; intros [|i] H; [done..| |].
  - injection H as ->. pose proof (refs_nonneg id conns). unfold refs in *. simpl. lia.
  - specialize (IH i H). pose proof (points_range id d). unfold refs in *. simpl. lia.
Qed.

Definition with_ref (r : Z) (g : drm_tile_group) : drm_tile_group := {| tg_id := tg_id g; tg_refcount := r; tg_data := tg_data g |}.

(** Groups with the number [id] are replaced by those of [new]. *)
Definition replaced (id : Z) (new : list drm_tile_group) (gs gs' : list drm_tile_group) : Prop :=
  NoDup (map tg_id gs') /\ forall h, h ∈ gs' <-> (h ∈ gs /\ tg_id h <> id) \/ h ∈ new.

Lemma id_fresh id gs : id ∉ map tg_id gs -> forall h, h ∈ gs -> tg_id h <> id.
Proof. intros Hn h Hh E. apply Hn. rewrite <- E. apply list_elem_of_In, in_map. by apply list_elem_of_In. Qed.

Lemma put_group_ok id gs : NoDup (map tg_id gs) -> forall g, g ∈ gs -> tg_id g = id ->
  exists gs', put_group id gs = Some gs' /\
    replaced id (if tg_refcount g =? 1 then [] else [with_ref (tg_refcount g - 1) g]) gs gs'.
Proof.
  induction gs as [|h gs IH]; intros Hn g Hg Ei; [by apply elem_of_nil in Hg|]. cbn [map] in Hn. apply list.NoDup_cons in Hn as [Hh Hn]. cbn [put_group].
  apply elem_of_cons in Hg. destruct (Z.eqb_spec (tg_id h) id) as [E|E].
  - assert (g = h) as -> by (destruct Hg as [|Hg]; [done|]; exfalso; apply (id_fresh _ _ Hh g Hg); congruence).
    pose proof (id_fresh _ _ Hh) as Hne. eexists. split; [done|]. destruct (tg_refcount h =? 1); split.
    + done.
    + intros k. rewrite elem_of_cons, elem_of_nil. split; [intros Hk; left; split; [by right|rewrite <- E; by apply Hne]|].
      intros [[[->|Hk] Hki]|[]]; [done|done].
    + cbn [map]. by apply list.NoDup_cons.
    + intros k. rewrite !elem_of_cons, elem_of_nil. unfold with_ref. split.
      * intros [->|Hk]; [right; by left|left; split; [by right|rewrite <- E; by apply Hne]].
      * intros [[[->|Hk] Hki]|[->|[]]]; [done|by right|by left].
  - destruct Hg as [->|Hg]; [done|]. destruct (IH Hn g Hg Ei) as (gs' & -> & Hn' & Hr). rewrite bind_some. eexists. split; [done|]. split.
    + cbn [map]. apply list.NoDup_cons. split; [|done]. intros Hin. apply list_elem_of_In, in_map_iff in Hin as (k & Ek & Hk%list_elem_of_In).
      apply Hr in Hk as [[Hk _]|Hk]; [by apply (id_fresh _ _ Hh k Hk)|].
      destruct (tg_refcount g =? 1); [by apply elem_of_nil in Hk|]. apply list_elem_of_singleton in Hk as ->. cbn in Ek. congruence.
    + intros k. rewrite !elem_of_cons, Hr. split.
      * intros [->|[[Hk Hki]|Hk]]; [left; split; [by left|done]|left; split; [by right|done]|by right].
      * intros [[[->|Hk] Hki]|Hk]; [by left|right; left; done|right; by right].
Qed.

Lemma get_group_ok topology gs : NoDup (map tg_id gs) ->
  match drm_mode_get_tile_group topology gs with
  | (None, gs') => gs' = gs /\ forall g, g ∈ gs -> tg_data g <> topology
  | (Some id, gs') => exists g, g ∈ gs /\ tg_id g = id /\ tg_data g = topology /\ replaced id [with_ref (tg_refcount g + 1) g] gs gs'
  end.
Proof.
  induction gs as [|h gs IH]; intros Hn; cbn [drm_mode_get_tile_group]; [split; [done|]; intros g Hg; by apply elem_of_nil in Hg|].
  cbn [map] in Hn. apply list.NoDup_cons in Hn as [Hh Hn]. pose proof (id_fresh _ _ Hh) as Hne. case_bool_decide as Ed.
  - exists h. split; [left|]. do 2 (split; [done|]). split; [cbn [map]; by apply list.NoDup_cons|]. intros k. rewrite !elem_of_cons, elem_of_nil. split.
    + intros [->|Hk]; [right; by left|left; split; [by right|by apply Hne]].
    + intros [[[->|Hk] Hki]|[->|[]]]; [done|by right|by left].
  - specialize (IH Hn). destruct (drm_mode_get_tile_group topology gs) as [[id|] gs'].
    + destruct IH as (g & Hg & Ei & Et & Hn' & Hr). exists g. split; [by right|]. do 2 (split; [done|]). split.
      * cbn [map]. apply list.NoDup_cons. split; [|done]. intros Hin. apply list_elem_of_In, in_map_iff in Hin as (k & Ek & Hk%list_elem_of_In).
        apply Hr in Hk as [[Hk _]|Hk]; [by apply (Hne k Hk)|]. apply list_elem_of_singleton in Hk as ->. cbn in Ek. apply (Hne g Hg). congruence.
      * intros k. rewrite elem_of_cons, Hr, (elem_of_cons gs k h). split.
        -- intros [->|[[Hk Hki]|Hk]]; [left|left; split; [by right|done]|by right]. split; [by left|]. intros E. apply (Hne g Hg). congruence.
        -- intros [[[->|Hk] Hki]|Hk]; [by left|right; left; done|right; by right].
    + destruct IH as [-> IH]. split; [done|]. intros g [->|Hg]%elem_of_cons; [done|by apply IH].
Qed.

Lemma idr_insert_ok g gs : NoDup (map tg_id gs) -> tg_id g ∉ map tg_id gs ->
  NoDup (map tg_id (idr_insert g gs)) /\ forall h, h ∈ idr_insert g gs <-> h = g \/ h ∈ gs.
Proof.
  induction gs as [|h gs IH]; intros Hn Hg; cbn [idr_insert].
  - split; [cbn; apply NoDup_singleton|]. intros k. rewrite list_elem_of_singleton, elem_of_nil. tauto.
  - destruct (tg_id g <? tg_id h); [split; [cbn [map] in *; by apply list.NoDup_cons|]; intros k; by rewrite elem_of_cons|].
    cbn [map] in *. apply list.NoDup_cons in Hn as [Hh Hn]. rewrite not_elem_of_cons in Hg. destruct Hg as [Hgh Hg].
    destruct (IH Hn Hg) as [Hn' Hin]. split.
    + apply list.NoDup_cons. split; [|done]. intros H. apply list_elem_of_In, in_map_iff in H as (k & Ek & Hk%list_elem_of_In).
      apply Hin in Hk as [->|Hk]; [done|]. apply (id_fresh _ _ Hh k Hk). done.
    + intros k. rewrite !elem_of_cons, Hin. tauto.
Qed.

(** The group of a connector is the one of its topology. *)
Definition in_group (gs : list drm_tile_group) (c : tile_connector) (t : option (list Z)) : Prop :=
  match t with
  | None => tile_group c = None
  | Some d => exists g, g ∈ gs /\ tg_data g = d /\ tile_group c = Some (TileGroup (tg_id g))
  end.

(** Groups, connectors and their topologies fit together; [extra]: a group with a reference that no connector holds. *)
Record tiles_ok (extra : option Z) (conns : list tile_connector) (topos : list (option (list Z))) (gs : list drm_tile_group) : Prop := {
  to_ids : NoDup (map tg_id gs);
  to_data : forall g g', g ∈ gs -> g' ∈ gs -> tg_data g = tg_data g' -> g = g';
  to_refs : forall g, g ∈ gs -> tg_refcount g = refs (tg_id g) conns + (if decide (extra = Some (tg_id g)) then 1 else 0) /\ 0 < tg_refcount g;
  to_conns : Forall2 (in_group gs) conns topos
}.

Lemma same_id gs g h : NoDup (map tg_id gs) -> g ∈ gs -> h ∈ gs -> tg_id g = tg_id h -> g = h.
Proof.
  induction gs as [|k gs IH]; intros Hn Hg Hh E; [by apply elem_of_nil in Hg|]. cbn [map] in Hn. apply list.NoDup_cons in Hn as [Hk Hn].
  apply elem_of_cons in Hg as [->|Hg], Hh as [->|Hh]; [done| | |by apply IH].
  - exfalso. by apply (id_fresh _ _ Hk h Hh).
  - exfalso. by apply (id_fresh _ _ Hk g Hg).
Qed.

(** A group of a connector keeps its data when its count changes. *)
Lemma in_group_mono gs gs' c t : (forall g, g ∈ gs -> tile_group c = Some (TileGroup (tg_id g)) ->
    exists g', g' ∈ gs' /\ tg_id g' = tg_id g /\ tg_data g' = tg_data g) -> in_group gs c t -> in_group gs' c t.
Proof.
  intros H. destruct t as [d|]; [|done]. intros (g & Hg & Ed & Ec). destruct (H g Hg Ec) as (g' & Hg' & E1 & E2).
  exists g'. split; [done|]. split; [congruence|]. by rewrite E1.
Qed.

(** Taking a reference on the group of a topology, or making one. *)
Lemma take_group tile_alloc topology conns topos gs tg gs' :
  (forall gs, exists id, tile_alloc gs = Ok id /\ id ∉ map tg_id gs) -> tiles_ok None conns topos gs ->
  (let '(r, gs1) := drm_mode_get_tile_group topology gs in
   match r with Some id => (TileGroup id, gs1) | None => drm_mode_create_tile_group tile_alloc topology gs1 end) = (tg, gs') ->
  exists id, tg = TileGroup id /\ tiles_ok (Some id) conns topos gs' /\ exists g, g ∈ gs' /\ tg_id g = id /\ tg_data g = topology.
Proof.
  intros Halloc [Hn Hd Hr Hc] E. pose proof (get_group_ok topology gs Hn) as Hget.
  destruct (drm_mode_get_tile_group topology gs) as [[id|] gs1].
  - destruct Hget as (g & Hg & Ei & Et & Hn' & Hin). injection E as <- <-. exists id. split; [done|].
    split; [|exists (with_ref (tg_refcount g + 1) g); split; [apply Hin; right; by left|done]]. split; [done|..].
    + intros a b Ha Hb E. apply Hin in Ha, Hb. rewrite list_elem_of_singleton in Ha, Hb.
      destruct Ha as [[Ha Hai]| ->], Hb as [[Hb Hbi]| ->]; [by apply Hd|..|done]; exfalso.
      * apply Hai. rewrite <- Ei. f_equal. by apply Hd.
      * apply Hbi. rewrite <- Ei. f_equal. by apply Hd.
    + intros a Ha. apply Hin in Ha. rewrite list_elem_of_singleton in Ha. destruct Ha as [[Ha Hai]| ->].
      * destruct (Hr a Ha) as [-> H0]. rewrite decide_False by done. rewrite decide_False by congruence. split; [done|]. by destruct (Hr a Ha).
      * destruct (Hr g Hg) as [E1 H0]. cbn. rewrite decide_True by congruence. rewrite decide_False in E1 by done. lia.
    + revert Hc. apply Forall2_impl. intros c t. apply in_group_mono. intros h Hh _. destruct (decide (tg_id h = id)) as [Eh|Eh].
      * assert (h = g) as -> by (apply (same_id gs); [done..|congruence]). exists (with_ref (tg_refcount g + 1) g). split; [apply Hin; right; by left|done].
      * exists h. split; [apply Hin; by left|done].
  - destruct Hget as [-> Hno]. unfold drm_mode_create_tile_group in E. destruct (Halloc gs) as (id & Ea & Hfresh). rewrite Ea in E. injection E as <- <-.
    exists id. split; [done|]. destruct (idr_insert_ok {| tg_id := id; tg_refcount := 1; tg_data := topology |} gs Hn Hfresh) as [Hn' Hin].
    split; [|eexists; split; [apply Hin; by left|done]]. split; [done|..].
    + intros a b Ha Hb E. apply Hin in Ha as [->|Ha], Hb as [->|Hb]; [done|..|by apply Hd]; exfalso; cbn in E.
      * by apply (Hno b Hb).
      * by apply (Hno a Ha).
    + intros a Ha. apply Hin in Ha as [->|Ha]; cbn.
      * rewrite decide_True by done. assert (refs id conns = 0) as ->; [|lia].
        assert (forall c, c ∈ conns -> points id c = 0) as Hp.
        { intros c Hc'. apply list_elem_of_lookup in Hc' as [i Hi]. destruct (Forall2_lookup_l _ _ _ _ _ Hc Hi) as (t & _ & Ht). unfold points.
          rewrite decide_False; [done|]. intros Ec. destruct t as [d|]; [|cbn in Ht; congruence]. destruct Ht as (g & Hg & _ & Eg).
          rewrite Ec in Eg. injection Eg as Eg. apply (id_fresh _ _ Hfresh g Hg). done. }
        clear -Hp. unfold refs. induction conns as [|c conns IH]; [done|]. simpl. rewrite Hp by left. rewrite IH; [done|]. intros d Hd'. apply Hp. by right.
      * pose proof (id_fresh _ _ Hfresh a Ha) as Hne. destruct (Hr a Ha) as [-> H0]. rewrite !decide_False by (done||congruence). split; [done|]. by destruct (Hr a Ha).
    + revert Hc. apply Forall2_impl. intros c t. apply in_group_mono. intros h Hh _. exists h. split; [apply Hin; by right|done].
Qed.

(** Dropping the one reference of group [id] that no connector holds. *)
Lemma put_releases id conns topos gs : NoDup (map tg_id gs) ->
  (forall g g', g ∈ gs -> g' ∈ gs -> tg_data g = tg_data g' -> g = g') ->
  (forall g, g ∈ gs -> tg_refcount g = refs (tg_id g) conns + (if decide (tg_id g = id) then 1 else 0) /\ 0 < tg_refcount g) ->
  Forall2 (in_group gs) conns topos -> (exists g, g ∈ gs /\ tg_id g = id) ->
  exists gs', put_group id gs = Some gs' /\ tiles_ok None conns topos gs'.
Proof.
  intros Hn Hd Hr Hc (g & Hg & Ei). destruct (put_group_ok id gs Hn g Hg Ei) as (gs' & Eput & Hn' & Hin). exists gs'. split; [done|].
  destruct (Hr g Hg) as [Er H0]. rewrite decide_True in Er by done.
  assert (forall h, h ∈ gs' -> exists h0, h0 ∈ gs /\ tg_id h0 = tg_id h /\ tg_data h0 = tg_data h /\ tg_refcount h = refs (tg_id h) conns /\ 0 < tg_refcount h) as Hback.
  { intros h Hh. apply Hin in Hh as [[Hh Hne]|Hh].
    - exists h. destruct (Hr h Hh) as [E E0]. rewrite decide_False in E by done. repeat split; [done|lia|done].
    - destruct (Z.eqb_spec (tg_refcount g) 1); [by apply elem_of_nil in Hh|]. apply list_elem_of_singleton in Hh as ->. exists g. cbn. repeat split; [done|lia|lia]. }
  split; [done|..].
  - intros a b Ha Hb E. destruct (Hback a Ha) as (a0 & Ha0 & Ia & Da & _), (Hback b Hb) as (b0 & Hb0 & Ib & Db & _).
    apply (same_id gs'); [done..|]. assert (a0 = b0) by (apply Hd; [done..|congruence]). congruence.
  - intros h Hh. destruct (Hback h Hh) as (_ & _ & _ & _ & E & E0). rewrite decide_False by done. split; [lia|done].
  - assert (forall c, c ∈ conns -> forall t, in_group gs c t -> in_group gs' c t) as Hkeep.
    { intros c Hcin t. apply in_group_mono. intros h Hh Ec. destruct (decide (tg_id h = id)) as [Eh|Eh]; [|exists h; split; [apply Hin; by left|done]].
      assert (h = g) as -> by (apply (same_id gs); [done..|congruence]). apply list_elem_of_lookup in Hcin as [i Hi].
      pose proof (refs_lookup (tg_id g) i c conns Hi) as Hp. unfold points in Hp. rewrite decide_True in Hp by done.
      exists (with_ref (tg_refcount g - 1) g). split; [|done]. apply Hin. right. destruct (Z.eqb_spec (tg_refcount g) 1); [lia|by left]. }
    apply Forall2_same_length_lookup. split; [by eapply Forall2_length|]. intros i c t Hi Ht. apply Hkeep; [apply list_elem_of_lookup; by exists i|].
    destruct (Forall2_lookup_l _ _ _ _ _ Hc Hi) as (t' & Ht' & H). by simplify_eq.
Qed.

Lemma points_group id c g : tile_group c = g -> points id c = if decide (g = Some (TileGroup id)) then 1 else 0.
Proof. by intros <-. Qed.

(** Dropping the group of a connector. *)
Lemma drop_ok conns topos gs i c : tiles_ok None conns topos gs -> conns !! i = Some c ->
  exists c' gs', drop_tile_group (c, gs) = Some (c', gs') /\ tiles_ok None (<[i := c']> conns) (<[i := None]> topos) gs'.
Proof.
  intros [Hn Hd Hr Hc] Hi. unfold drop_tile_group. cbn [fst snd]. destruct (Forall2_lookup_l _ _ _ _ _ Hc Hi) as (t & Ht & Hct).
  destruct t as [d|].
  - destruct Hct as (g & Hg & Ed & Ec). rewrite Ec. cbn [drm_mode_put_tile_group].
    destruct (put_releases (tg_id g) (<[i := set_tile_group None c]> conns) (<[i := None]> topos) gs) as (gs' & -> & H); [done..| | |by exists g|].
    + intros h Hh. destruct (Hr h Hh) as [E E0]. rewrite decide_False in E by done. split; [|done]. rewrite (refs_update _ _ c _ _ Hi), (points_group _ c _ Ec).
      unfold points. cbn [set_tile_group tile_group]. rewrite (decide_False (P := None = Some (TileGroup (tg_id h)))) by done.
      destruct (decide (tg_id h = tg_id g)) as [Eh|Eh]; [rewrite Eh, decide_True by done; rewrite Eh in E; lia|rewrite decide_False by congruence; lia].
    + by apply Forall2_insert.
    + rewrite bind_some. eexists _, _. split; [done|exact H].
  - cbn in Hct. rewrite Hct. exists c, gs. split; [done|]. rewrite !list_insert_id by done. done.
Qed.

(** Moving a connector to a group on which a reference has been taken. *)
Lemma switch_ok conns topos gs i c g : tiles_ok (Some (tg_id g)) conns topos gs -> conns !! i = Some c -> g ∈ gs ->
  exists c' gs', switch_group (TileGroup (tg_id g)) c gs = Some (c', gs') /\ has_tile c' = has_tile c /\
    tiles_ok None (<[i := c']> conns) (<[i := Some (tg_data g)]> topos) gs'.
Proof.
  intros [Hn Hd Hr Hc] Hi Hg. unfold switch_group. destruct (Forall2_lookup_l _ _ _ _ _ Hc Hi) as (t & Ht & Hct).
  assert (forall g1, Some (tg_id g) = Some (tg_id g1) <-> tg_id g1 = tg_id g) as Hsome by (intros g1; split; [intros [= ->]|intros ->]; done).
  destruct (decide (tile_group c = Some (TileGroup (tg_id g)))) as [Ec|Ec].
  - rewrite bool_decide_true by done. cbn [drm_mode_put_tile_group].
    destruct (put_releases (tg_id g) conns topos gs) as (gs' & -> & H); [done..| |done|by exists g|].
    + intros h Hh. destruct (Hr h Hh) as [E E0]. split; [|done]. rewrite E. f_equal. by apply decide_ext.
    + rewrite bind_some. exists c, gs'. split; [done|]. split; [done|]. rewrite (list_insert_id conns) by done.
      destruct t as [d|]; [|cbn in Hct; congruence]. destruct Hct as (g1 & Hg1 & Ed & Ec1).
      assert (g1 = g) as -> by (apply (same_id gs); [done..|congruence]). rewrite Ed, (list_insert_id topos) by done. exact H.
  - rewrite bool_decide_false by done. set (c' := set_tile_group (Some (TileGroup (tg_id g))) c).
    assert (in_group gs c' (Some (tg_data g))) as Hnew by (exists g; done).
    assert (forall h, h ∈ gs -> refs (tg_id h) (<[i := c']> conns) = refs (tg_id h) conns - points (tg_id h) c + (if decide (tg_id h = tg_id g) then 1 else 0)) as Hrefs.
    { intros h Hh. rewrite (refs_update _ _ c _ _ Hi). f_equal. unfold points, c'. cbn [set_tile_group tile_group].
      apply decide_ext. split; [by intros [= ->]|by intros ->]. }
    destruct t as [d|].
    + destruct Hct as (g1 & Hg1 & Ed & Ec1). rewrite Ec1. cbn [drm_mode_put_tile_group].
      destruct (put_releases (tg_id g1) (<[i := c']> conns) (<[i := Some (tg_data g)]> topos) gs) as (gs' & -> & H); [done..| | |by exists g1|].
      * intros h Hh. destruct (Hr h Hh) as [E E0]. split; [|done]. rewrite (Hrefs h Hh), E, (points_group _ c _ Ec1).
        rewrite (decide_ext _ _ _ _ (Hsome h)). assert (Some (TileGroup (tg_id g1)) = Some (TileGroup (tg_id h)) <-> tg_id h = tg_id g1) as Hx
          by (split; [by intros [= ->]|by intros ->]). rewrite (decide_ext _ _ _ _ Hx). lia.
      * by apply Forall2_insert.
      * rewrite bind_some. eexists _, _. split; [done|]. split; [done|exact H].
    + cbn in Hct. rewrite Hct, bind_some. eexists _, _. split; [done|]. split; [done|]. split; [done..| |by apply Forall2_insert].
      intros h Hh. destruct (Hr h Hh) as [E E0]. split; [|done]. rewrite decide_False by done. fold c'. rewrite (Hrefs h Hh), E, (points_group _ c _ Hct).
      rewrite (decide_ext _ _ _ _ (Hsome h)), (decide_False (P := None = Some (TileGroup (tg_id h)))) by done. lia.
Qed.

(** Fields other than the group do not matter. *)
Lemma tiles_ok_same extra conns topos gs i c c' : tiles_ok extra conns topos gs -> conns !! i = Some c -> tile_group c' = tile_group c ->
  tiles_ok extra (<[i := c']> conns) topos gs.
Proof.
  intros [Hn Hd Hr Hc] Hi E. destruct (Forall2_lookup_l _ _ _ _ _ Hc Hi) as (t & Ht & Hct). split; [done..| |].
  - intros g Hg. rewrite (refs_update _ _ c _ _ Hi). unfold points. rewrite E. destruct (Hr g Hg) as [E1 E2]. split; [lia|done].
  - rewrite <- (list_insert_id topos i t Ht). apply Forall2_insert; [done|]. unfold in_group in *. by rewrite E.
Qed.

(** The topology in the payload of a tile block. *)
Definition tile_of (b : Z * list Z) : option (list Z) := if b.1 =? DATA_BLOCK_TILED_DISPLAY then Some (take 8 (drop 13 b.2)) else None.

(** Tile blocks with all of their fields. *)
Definition tile_long (b : Z * list Z) : Prop := b.1 = DATA_BLOCK_TILED_DISPLAY -> (21 <= length b.2)%nat.

(** The topology of the monitor: the last one of its section. *)
Definition tile_topology (edid : list Z) : option (list Z) :=
  match drm_find_displayid_extension (Some edid) with
  | Some (Some did) => match validate_displayid did EDID_LENGTH 1 with Some true => list.last (omap tile_of (section_blocks did)) | _ => None end
  | _ => None
  end.

Definition tiles_long (edid : list Z) : Prop :=
  edid_blocks edid /\ forall did, drm_find_displayid_extension (Some edid) = Some (Some did) -> Forall tile_long (section_blocks did).

Section Tile_groups.

Context (tile_alloc : list drm_tile_group -> result Z).
Hypothesis alloc_fresh : forall gs, exists id, tile_alloc gs = Ok id /\ id ∉ map tg_id gs.

Lemma parse_tiled_ok did place b i c conns topos gs : did_at did place b -> (place + 3 + length b.2 <= length did)%nat -> (21 <= length b.2)%nat ->
  tiles_ok None conns topos gs -> conns !! i = Some c ->
  exists c' gs', drm_parse_tiled_block tile_alloc did place (c, gs) = Some (c', gs') /\ has_tile c' = true /\
    tiles_ok None (<[i := c']> conns) (<[i := Some (take 8 (drop 13 b.2))]> topos) gs'.
Proof.
  intros Hb Hin Hl Hok Hi. unfold drm_parse_tiled_block.
  assert (bytes_at (place + 3) 21 did = Some (take 21 b.2)) as ->.
  { unfold bytes_at. rewrite (proj2 (Nat.leb_le _ _)) by lia. f_equal. rewrite (da_bytes _ _ _ Hb), take_take. f_equal. lia. }
  rewrite bind_some. destruct (b.2) as [|cap p] eqn:Ep; [simpl in Hl; lia|]. do 12 (destruct p as [|? p]; [simpl in Hl; lia|]). cbn [take drop].
  set (c1 := set_tile _ _ _ _ _ _ _ _ c). assert (tile_group c1 = tile_group c) as Ec1 by done.
  pose proof (tiles_ok_same None conns topos gs i c c1 Hok Hi Ec1) as Hok1.
  destruct (let '(r, gs1) := drm_mode_get_tile_group (take 8 p) gs in
    match r with Some id => (TileGroup id, gs1) | None => drm_mode_create_tile_group tile_alloc (take 8 p) gs1 end) as [tg gs1] eqn:Etake.
  destruct (take_group tile_alloc (take 8 p) _ _ _ _ _ alloc_fresh Hok1 Etake) as (id & -> & Hok2 & g & Hg & <- & Ed).
  destruct (drm_mode_get_tile_group (take 8 p) gs) as [r gs0]. rewrite Etake.
  destruct (switch_ok _ _ _ i c1 g Hok2 ltac:(apply list_lookup_insert_eq; by eapply lookup_lt_Some) Hg) as (c' & gs' & Esw & Eh & Hok3).
  exists c', gs'. split; [exact Esw|]. split; [by rewrite Eh|]. rewrite list_insert_insert_eq, Ed in Hok3. exact Hok3.
Qed.

(** What holds after the blocks [l] of a section. *)
Definition tile_inv (conns : list tile_connector) (topos : list (option (list Z))) (i : nat) (l : list (Z * list Z)) (s : tile_connector * list drm_tile_group) : Prop :=
  has_tile s.1 = bool_decide (is_Some (list.last (omap tile_of l))) /\
  exists topos', tiles_ok None (<[i := s.1]> conns) topos' s.2 /\
    topos' = match list.last (omap tile_of l) with Some d => <[i := Some d]> topos | None => topos end.

Lemma tile_inv_step did conns topos i place b l s : (i < length conns)%nat -> did_at did place b -> (place + 3 + length b.2 <= length did)%nat -> tile_long b ->
  tile_inv conns topos i l s -> exists s', parse_displayid_block tile_alloc did place s = Some (false, s') /\ tile_inv conns topos i (l ++ [b]) s'.
Proof.
  intros Hi Hb Hin Hlong [Hh (topos' & Hok & Et)]. unfold parse_displayid_block. rewrite (da_tag _ _ _ Hb), bind_some. unfold tile_inv.
  rewrite omap_app. cbn [omap list_omap]. destruct (Z.eqb_spec b.1 DATA_BLOCK_TILED_DISPLAY) as [Eb|Eb].
  - assert (tile_of b = Some (take 8 (drop 13 b.2))) as -> by (unfold tile_of; by rewrite Eb). destruct s as [c gs]. cbn [fst snd] in *.
    destruct (parse_tiled_ok did place b i c _ _ _ Hb Hin (Hlong Eb) Hok) as (c' & gs' & -> & Hh' & Hok');
      [by apply list_lookup_insert_eq|]. rewrite bind_some. exists (c', gs'). split; [done|]. cbn [fst snd]. rewrite list.last_snoc. split; [done|].
    eexists. split; [|done]. rewrite list_insert_insert_eq in Hok'. subst topos'. destruct (list.last (omap tile_of l)); [|done].
    by rewrite list_insert_insert_eq in Hok'.
  - assert (tile_of b = None) as -> by (unfold tile_of; by destruct (Z.eqb_spec b.1 DATA_BLOCK_TILED_DISPLAY)).
    exists s. split; [done|]. rewrite app_nil_r. split; [done|]. by exists topos'.
Qed.

Lemma tile_loop_ok did conns topos i s : (i < length conns)%nat -> cea_ok did -> Forall tile_long (section_blocks did) ->
  tile_inv conns topos i [] s ->
  exists s', displayid_loop EDID_LENGTH did (1 + 4) EDID_LENGTH (parse_displayid_block tile_alloc did) s = Some s' /\
    tile_inv conns topos i (section_blocks did) s'.
Proof.
  intros Hi Hd. unfold section_blocks. change (1 + 4)%nat with 5%nat.
  assert (EDID_LENGTH <= 128)%nat as Hle by done. assert (EDID_LENGTH - 5 < EDID_LENGTH)%nat as Hf by (unfold EDID_LENGTH; lia).
  revert Hle Hf. generalize EDID_LENGTH. intros n Hle Hf Hlong Hinv.
  destruct (displayid_loop_history did n Hd Hle (tile_inv conns topos i) tile_long (parse_displayid_block tile_alloc did)) with
    (fuel := n) (idx := 5%nat) (l := @nil (Z * list Z)) (s := s) as (s' & E & H).
  - intros place b l s1 Hb Hin HP HI. by apply tile_inv_step.
  - done.
  - done.
  - done.
  - by exists s'.
Qed.

(** A monitor is probed. *)
Lemma probe_ok edid conns topos gs i c : tiles_long edid -> tiles_ok None conns topos gs -> conns !! i = Some c ->
  exists c' gs', drm_get_displayid tile_alloc edid (c, gs) = Some (c', gs') /\
    tiles_ok None (<[i := c']> conns) (<[i := tile_topology edid]> topos) gs'.
Proof.
  intros [He Hlong] Hok Hi. pose proof (lookup_lt_Some _ _ _ Hi) as Hlt. unfold drm_get_displayid, tile_topology. cbn [fst snd].
  pose proof (tiles_ok_same None conns topos gs i c (set_has_tile false c) Hok Hi eq_refl) as Hok1.
  assert (<[i := set_has_tile false c]> conns !! i = Some (set_has_tile false c)) as Hi1 by (by apply list_lookup_insert_eq).
  assert (forall c1 gs1 topos1, tiles_ok None (<[i := c1]> conns) topos1 gs1 -> (topos1 = topos \/ exists t, topos1 = <[i := t]> topos) ->
    exists c' gs', drop_tile_group (c1, gs1) = Some (c', gs') /\ tiles_ok None (<[i := c']> conns) (<[i := None]> topos) gs') as Hdrop.
  { intros c1 gs1 topos1 H1 Ht. destruct (drop_ok _ _ _ i c1 H1 ltac:(by apply list_lookup_insert_eq)) as (c' & gs' & E & H2). exists c', gs'. split; [done|].
    rewrite list_insert_insert_eq in H2. destruct Ht as [->|[t ->]]; [done|]. by rewrite list_insert_insert_eq in H2. }
  destruct (find_displayid_ok edid He) as (r & Er & Hr).
  rewrite Er, bind_some. destruct r as [did|]; [|apply (Hdrop _ _ topos); [done|by left]].
  pose proof (Hr did eq_refl) as Hd. unfold drm_parse_display_id. destruct (validate_total did Hd) as [ok Ev]. rewrite Ev, bind_some.
  destruct ok; cbn [negb]; [|rewrite bind_some; apply (Hdrop _ _ topos); [done|by left]].
  destruct (tile_loop_ok did conns topos i (set_has_tile false c, gs) Hlt Hd (Hlong did Er)) as ([c1 gs1] & -> & Hh & topos' & Hok2 & Et);
    [split; [done|]; by exists topos|]. rewrite !bind_some. cbn [fst snd negb] in *. rewrite Hh.
  destruct (list.last (omap tile_of (section_blocks did))) as [d|].
  - rewrite bool_decide_true by (by eexists). exists c1, gs1. split; [done|]. by subst topos'.
  - rewrite bool_decide_false by (by intros []). apply (Hdrop _ _ topos'); [done|by left].
Qed.

(** The topology of each connector's monitor. *)
Definition topo_step (topos : list (option (list Z))) (op : tile_op) : list (option (list Z)) :=
  match op with Probe i edid => <[i := tile_topology edid]> topos | Cleanup i => <[i := None]> topos end.

Definition op_ok (op : tile_op) : Prop := match op with Probe _ edid => tiles_long edid | Cleanup _ => True end.

Lemma tile_step_ok op conns topos gs : op_ok op -> tiles_ok None conns topos gs ->
  exists conns' gs', tile_step tile_alloc op (conns, gs) = Some (conns', gs') /\ length conns' = length conns /\
    tiles_ok None conns' (topo_step topos op) gs'.
Proof.
  intros Hop Hok. unfold tile_step. pose proof (Forall2_length (to_conns _ _ _ _ Hok)) as Hlen.
  assert (forall i t, conns !! i = None -> tiles_ok None conns (<[i := t]> topos) gs) as Hout
    by (intros i t Hi; by rewrite list_insert_ge by (rewrite <- Hlen; by apply lookup_ge_None)).
  destruct op as [i edid|i]; cbn [fst snd topo_step]; destruct (conns !! i) as [c|] eqn:Hi.
  - destruct (probe_ok edid conns topos gs i c Hop Hok Hi) as (c' & gs' & -> & H). rewrite bind_some. eexists _, _. split; [done|].
    split; [by rewrite length_insert|exact H].
  - exists conns, gs. split; [done|]. split; [done|]. by apply Hout.
  - destruct (drop_ok conns topos gs i c Hok Hi) as (c' & gs' & -> & H). rewrite bind_some. eexists _, _. split; [done|].
    split; [by rewrite length_insert|exact H].
  - exists conns, gs. split; [done|]. split; [done|]. by apply Hout.
Qed.

Lemma tile_run_ok ops : forall conns topos gs, Forall op_ok ops -> tiles_ok None conns topos gs ->
  exists conns' gs', tile_run tile_alloc ops (conns, gs) = Some (conns', gs') /\ length conns' = length conns /\
    tiles_ok None conns' (foldl topo_step topos ops) gs'.
Proof.
  induction ops as [|op ops IH]; intros conns topos gs Hops Hok; [by exists conns, gs|].
  inversion_clear Hops as [|? ? Hop Hops']. cbn [tile_run foldl].
  destruct (tile_step_ok op conns topos gs Hop Hok) as (conns1 & gs1 & -> & Hl1 & Hok1). rewrite bind_some.
  destruct (IH _ _ _ Hops' Hok1) as (conns2 & gs2 & -> & Hl2 & Hok2). exists conns2, gs2. split; [done|]. split; [congruence|done].
Qed.

End Tile_groups.

(** A connector before the first monitor. *)
Definition fresh_tile : tile_connector :=
  {| has_tile := false; tile_group := None; tile_is_single_monitor := false; num_h_tile := 0; num_v_tile := 0;
     tile_h_loc := 0; tile_v_loc := 0; tile_h_size := 0; tile_v_size := 0 |}.

Lemma tiles_start n : tiles_ok None (replicate n fresh_tile) (replicate n None) [].
Proof.
  split; [constructor|intros g g' Hg; by apply elem_of_nil in Hg|intros g Hg; by apply elem_of_nil in Hg|].
  induction n; [done|]. simpl. by constructor.
Qed.

(** C33: on [n] connectors, after any sequence of probed monitors, whose tile blocks are complete, and removed connectors, provided
    every allocation of a group succeeds with an unused number: every tile group has as many references as connectors point to it
    and at least one; a connector has no group if its monitor announces no topology, and otherwise points to an existing group
    that holds the topology its monitor announced; two connectors share a group exactly if their monitors announce the same. *)
Theorem drm_tile_groups_consistent tile_alloc n ops :
  (forall gs, exists id, tile_alloc gs = Ok id /\ id ∉ map tg_id gs) -> Forall op_ok ops ->
  exists conns gs, tile_run tile_alloc ops (replicate n fresh_tile, []) = Some (conns, gs) /\ length conns = n /\
    (forall g, g ∈ gs -> tg_refcount g = refs (tg_id g) conns /\ 0 < tg_refcount g) /\
    (forall i c, conns !! i = Some c -> exists t, foldl topo_step (replicate n None) ops !! i = Some t /\
      match t with
      | None => tile_group c = None
      | Some topology => exists g, g ∈ gs /\ tg_data g = topology /\ tile_group c = Some (TileGroup (tg_id g))
      end) /\
    (forall i j ci cj, conns !! i = Some ci -> conns !! j = Some cj ->
      (tile_group ci = tile_group cj <-> foldl topo_step (replicate n None) ops !! i = foldl topo_step (replicate n None) ops !! j)).
Proof.
  intros Ha Hops. destruct (tile_run_ok tile_alloc Ha ops _ _ _ Hops (tiles_start n)) as (conns & gs & E & Hl & [Hn Hd Hr Hc]).
  exists conns, gs. split; [done|]. split; [by rewrite Hl, length_replicate|]. split; [|split].
  - intros g Hg. destruct (Hr g Hg) as [E1 E2]. rewrite decide_False in E1 by done. split; [lia|done].
  - intros i c Hi. destruct (Forall2_lookup_l _ _ _ _ _ Hc Hi) as (t & Ht & H). by exists t.
  - intros i j ci cj Hi Hj. destruct (Forall2_lookup_l _ _ _ _ _ Hc Hi) as (ti & Hti & Hci), (Forall2_lookup_l _ _ _ _ _ Hc Hj) as (tj & Htj & Hcj).
    rewrite Hti, Htj. destruct ti as [di|], tj as [dj|]; cbn in Hci, Hcj.
    + destruct Hci as (gi & Hgi & <- & ->), Hcj as (gj & Hgj & <- & ->). split.
      * intros [= Eg]. by rewrite (same_id gs gi gj).
      * intros [= Eg]. by rewrite (Hd gi gj).
    + destruct Hci as (gi & _ & _ & ->). by rewrite Hcj.
    + destruct Hcj as (gj & _ & _ & ->). by rewrite Hci.
    + by rewrite Hci, Hcj.
Qed.

(** ** Examples *)

Definition sample_timing : displayid_fields :=
  {| di_clock := 53325; di_flags := 0x88; di_hactive := 3840; di_hblank := 160; di_hsync := 48; di_hsw := 32;
     di_vactive := 2160; di_vblank := 62; di_vsync := 3; di_vsw := 5; di_hpositive := true; di_vpositive := false |}.

Lemma sample_timing_fits : timing_fits sample_timing.
Proof. constructor; vm_compute; repeat split; discriminate. Qed.

Definition sample_contents : list did_content := [DidOther (0x01, replicate 12 0); DidTimings [sample_timing; sample_timing]].

Definition sample_did (bs : list (Z * list Z)) : list Z := sample_base 1 ++ encode_section 2 bs 0.

Lemma sample_did_blocks bs : forallb (fun x => (0 <=? x) && (x <? 256)) (sample_did bs) = true -> length (sample_did bs) = 256%nat ->
  sample_did bs !! 0x7e%nat = Some 1 -> edid_blocks (sample_did bs).
Proof.
  intros Hu Hl Hn. split; [|by exists 1]. apply Forall_forall. intros x Hx. rewrite forallb_forall in Hu. specialize (Hu x Hx). unfold is_u8. lia.
Qed.

Lemma add_displayid_detailed_modes_correct_witness :
  exists new, add_displayid_detailed_modes (sample_did (map content_block sample_contents)) [] =
      Some {| mc_modes := [] ++ new; mc_added := Z.of_nat (length new); mc_preferred := false |} /\
    new = [displayid_mode sample_timing; displayid_mode sample_timing].
Proof.
  destruct (add_displayid_detailed_modes_correct (sample_did (map content_block sample_contents)) []) as (new & E & H);
    [apply sample_did_blocks; vm_compute; reflexivity|].
  exists new. split; [exact E|]. rewrite (H 2 sample_contents 0 []); [reflexivity| | |].
  - rewrite app_nil_r. vm_compute. reflexivity.
  - repeat constructor; try discriminate; try apply sample_timing_fits.
  - apply Nat.leb_le. vm_compute. reflexivity.
Defined.

(** A tile block: capabilities and topology. *)
Definition sample_tile (cap top : Z) : Z * list Z :=
  (DATA_BLOCK_TILED_DISPLAY, [cap; 0x10; 0x10; 0; 0x7f; 0x07; 0x37; 0x08] ++ replicate 5 0 ++ replicate 8 top).

(** The smallest number above all others. *)
Definition next_id (gs : list drm_tile_group) : result Z := Ok (1 + foldr Z.max 0 (map tg_id gs)).

Lemma next_id_fresh gs : exists id, next_id gs = Ok id /\ id ∉ map tg_id gs.
Proof.
  eexists. split; [done|]. intros Hin. assert (forall x l, x ∈ l -> x <= foldr Z.max 0 l) as H.
  { intros x l. induction l as [|y l IH]; intros Hx; [by apply elem_of_nil in Hx|]. simpl. apply elem_of_cons in Hx as [->|Hx]; [lia|]. specialize (IH Hx). lia. }
  specialize (H _ _ Hin). lia.
Qed.

Lemma sample_tile_long cap top : (cap =? 0) || (cap =? 128) = true -> (top =? 5) || (top =? 6) = true -> tiles_long (sample_did [sample_tile cap top]).
Proof.
  intros Hc Ht.
  assert (drm_find_displayid_extension (Some (sample_did [sample_tile cap top])) = Some (Some (encode_section 2 [sample_tile cap top] 0 ++ [])) /\
    edid_blocks (sample_did [sample_tile cap top]) /\ did_ok (sample_tile cap top)) as (Ef & He & Hok).
  { assert (cap = 0 \/ cap = 128) as [-> | ->] by lia; (assert (top = 5 \/ top = 6) as [-> | ->] by lia);
      (split; [vm_compute; reflexivity|]; split; [apply sample_did_blocks; vm_compute; reflexivity|];
       split; [apply Nat.ltb_lt; reflexivity|vm_compute; repeat constructor; discriminate]). }
  split; [done|]. intros did E. rewrite Ef in E. apply (inj Some), (inj Some) in E. subst did.
  rewrite section_blocks_encode; [|by constructor|apply Nat.leb_le; reflexivity]. constructor; [|done]. intros _. apply Nat.leb_le. reflexivity.
Qed.

Lemma drm_tile_groups_consistent_witness :
  exists conns gs, tile_run next_id [Probe 0 (sample_did [sample_tile 0 5]); Probe 1 (sample_did [sample_tile 0 5]); Probe 2 (sample_did [sample_tile 128 6]); Cleanup 0]
      (replicate 3 fresh_tile, []) = Some (conns, gs) /\ length conns = 3%nat /\
    (forall g, g ∈ gs -> tg_refcount g = refs (tg_id g) conns /\ 0 < tg_refcount g) /\ map tg_refcount gs = [1; 1] /\
    exists c g, conns !! 1%nat = Some c /\ g ∈ gs /\ tg_data g = take 8 (drop 13 (sample_tile 0 5).2) /\ tile_group c = Some (TileGroup (tg_id g)).
Proof.
  destruct (drm_tile_groups_consistent next_id 3
    [Probe 0 (sample_did [sample_tile 0 5]); Probe 1 (sample_did [sample_tile 0 5]); Probe 2 (sample_did [sample_tile 128 6]); Cleanup 0] next_id_fresh)
    as (conns & gs & E & Hl & Hr & Hd & _).
  - do 3 (constructor; [apply sample_tile_long; reflexivity|]). repeat constructor.
  - exists conns, gs. split; [exact E|]. split; [exact Hl|]. split; [exact Hr|].
    assert (option_map (fun s => map tg_refcount (snd s)) (tile_run next_id
      [Probe 0 (sample_did [sample_tile 0 5]); Probe 1 (sample_did [sample_tile 0 5]); Probe 2 (sample_did [sample_tile 128 6]); Cleanup 0]
      (replicate 3 fresh_tile, [])) = Some [1; 1]) as Em by (vm_compute; reflexivity).
    rewrite E in Em. apply (inj Some) in Em. split; [exact Em|]. destruct (lookup_lt_is_Some_2 conns 1) as [c Hc]; [lia|].
    destruct (Hd 1%nat c Hc) as (t & Et & Ht). exists c. vm_compute in Et. injection Et as <-. destruct Ht as (g & Hg). exists g. split; [exact Hc|exact Hg].
Defined.

(** ** What goes wrong *)

(** A tile block that announces one byte at the end of the last extension is read behind the end of the EDID. *)
Lemma short_tile_overrun : edid_blocks (sample_did [(1, replicate 105 0); (DATA_BLOCK_TILED_DISPLAY, [0])]) /\
  drm_get_displayid next_id (sample_did [(1, replicate 105 0); (DATA_BLOCK_TILED_DISPLAY, [0])]) (fresh_tile, []) = None.
Proof. split; [apply sample_did_blocks; vm_compute; reflexivity|]. vm_compute. reflexivity. Qed.

(** An allocation that fails leaves an error pointer in the connector, which is dereferenced when the connector goes away. *)
Lemma tile_error_pointer : option_map (fun s => map tile_group (fst s))
    (tile_run (fun _ => Err ENOMEM) [Probe 0 (sample_did [sample_tile 0 5])] ([fresh_tile], [])) = Some [Some (TileErr ENOMEM)] /\
  tile_run (fun _ => Err ENOMEM) [Probe 0 (sample_did [sample_tile 0 5]); Cleanup 0] ([fresh_tile], []) = None.
Proof. split; vm_compute; reflexivity. Qed.

(** Once a monitor was a single one, all monitors on the connector are. *)
Lemma tile_single_monitor_stale : option_map (fun s => map tile_is_single_monitor (fst s))
    (tile_run next_id [Probe 0 (sample_did [sample_tile 128 5]); Probe 0 (sample_did [sample_tile 0 6])] ([fresh_tile], [])) = Some [true].
Proof. vm_compute. reflexivity. Qed.
