(* ===== verification/EdidAdd.v ===== *)
(** * All modes of an EDID ([drm_edid.c])

    [drm_add_edid_modes] puts everything together: the sound and display information, detailed, CVT, standard and established
    timings, the modes of the CEA and DisplayID extensions, and the modes inferred from the ranges of the monitor; it picks the
    preferred mode.  Without an EDID a connector gets standard modes.

    An EDID is changed while it is read: its header is repaired, and two quirks change detailed timings.
    [None] is a division by zero or an access outside of the EDID; allocations are taken to succeed.

    Theorems: for every EDID without a secondary GTF curve all modes are found without a fault, and their number is returned; the
    preferred mode is the only one, the largest, and the one closest to the wanted rate; without an EDID the modes are those within
    the limits. *)

From S2P Require Import Prelude Bytes Rect Modes ModeGen Edid EdidCea EdidTables EdidModes EdidHdmi DisplayId.
From stdpp Require Import base gmap list option.
From Stdlib Require Import ZArith Lia ZifyBool ZifyNat.

#[local] Set Warnings "-clear-no-such-hyp".

#[local] Open Scope Z_scope.

(** ** Ranges *)

(** [t[4] & bit ? 255 : 0] from revision 4 on. *)
Definition range_offset (revision t4 bit : Z) : Z := if 4 <=? revision then if has_flag t4 bit then 255 else 0 else 0.

Definition mode_in_hsync_range (mode : drm_display_mode) (revision : Z) (t : list Z) : option bool :=
  t4 ← t !! 4%nat; t7 ← t !! 7%nat; t8 ← t !! 8%nat;
  let hmin := t7 + range_offset revision t4 0x04 in
  let hmax := t8 + range_offset revision t4 0x08 in
  hsync ← drm_mode_hsync mode;
  Some ((hsync <=? hmax) && (hmin <=? hsync)).

Definition mode_in_vsync_range (mode : drm_display_mode) (revision : Z) (t : list Z) : option bool :=
  t4 ← t !! 4%nat; t5 ← t !! 5%nat; t6 ← t !! 6%nat;
  let vmin := t5 + range_offset revision t4 0x01 in
  let vmax := t6 + range_offset revision t4 0x02 in
  let vsync := drm_mode_vrefresh mode in
  Some ((vsync <=? vmax) && (vmin <=? vsync)).

Definition range_pixel_clock (revision : Z) (t : list Z) : option Z :=
  t9 ← t !! 9%nat; t10 ← t !! 10%nat; t12 ← t !! 12%nat;
  Some (if (t9 =? 0) || (t9 =? 255) then 0
        else if (4 <=? revision) && (t10 =? 0x04) then u32 (t9 * 10000 - Z.shiftr t12 2 * 250)
        else t9 * 10000 + 5001).

Definition mode_in_range (mode : drm_display_mode) (edid t : list Z) : option bool :=
  revision ← edid !! 19%nat;
  h ← mode_in_hsync_range mode revision t;
  if negb h then Some false
  else
    v ← mode_in_vsync_range mode revision t;
    if negb v then Some false
    else
      max_clock ← range_pixel_clock revision t;
      if negb (max_clock =? 0) && (max_clock <? u32 (clock mode)) then Some false
      else
        t10 ← t !! 10%nat; t12 ← t !! 12%nat; t13 ← t !! 13%nat;
        if (4 <=? revision) && (t10 =? 0x04) && negb (t13 =? 0) && (8 * (t13 + 256 * Z.land t12 0x3) <? hdisplay mode) then Some false
        else if mode_is_rb mode then drm_monitor_supports_rb edid else Some true.

Definition same_mode (mode m : drm_display_mode) : bool :=
  (hdisplay mode =? hdisplay m) && (vdisplay mode =? vdisplay m) && (drm_mode_vrefresh mode =? drm_mode_vrefresh m).

(** The loop of [valid_inferred_mode]. *)
Fixpoint inferred_loop (mode : drm_display_mode) (probed_modes : list drm_display_mode) (ok : bool) : bool :=
  match probed_modes with
  | [] => ok
  | m :: probed_modes' =>
    if same_mode mode m then false
    else inferred_loop mode probed_modes' (if (hdisplay mode <=? hdisplay m) && (vdisplay mode <=? vdisplay m) then true else ok)
  end.

Definition valid_inferred_mode (probed_modes : list drm_display_mode) (mode : drm_display_mode) : bool := inferred_loop mode probed_modes false.

(** A mode that is in the range and not yet there is added. *)
Definition add_inferred (edid timing : list Z) (m : drm_display_mode) (c : mode_closure) : option mode_closure :=
  r ← mode_in_range m edid timing;
  Some (if (r : bool) && valid_inferred_mode (mc_modes c) m then add_mode m c else c).

Fixpoint add_inferred_list (edid timing : list Z) (ms : list drm_display_mode) (c : mode_closure) : option mode_closure :=
  match ms with
  | [] => Some c
  | m :: ms' => c ← add_inferred edid timing m c; add_inferred_list edid timing ms' c
  end.

Definition drm_dmt_modes_for_range (edid timing : list Z) (c : mode_closure) : option mode_closure :=
  add_inferred_list edid timing drm_dmt_modes c.

Definition drm_mode_fixup_1366x768 (mode : drm_display_mode) : drm_display_mode :=
  if (hdisplay mode =? 1368) && (vdisplay mode =? 768)
  then drm_mode_set_name (with_hsync 1366 (hsync_start mode - 1) (hsync_end mode - 1) mode) else mode.

Definition drm_gtf_modes_for_range (edid timing : list Z) (c : mode_closure) : option mode_closure :=
  ms ← mapM (fun m => drm_gtf_mode (mm_w m) (mm_h m) (mm_r m) false 0) extra_modes;
  add_inferred_list edid timing (map drm_mode_fixup_1366x768 ms) c.

Definition drm_cvt_modes_for_range (edid timing : list Z) (c : mode_closure) : option mode_closure :=
  rb ← drm_monitor_supports_rb edid;
  ms ← mapM (fun m => drm_cvt_mode (mm_w m) (mm_h m) (mm_r m) rb false false) extra_modes;
  add_inferred_list edid timing (map drm_mode_fixup_1366x768 ms) c.

Definition do_inferred_modes (edid timing : list Z) (c : mode_closure) : option mode_closure :=
  type ← timing !! 3%nat;
  if negb (type =? EDID_DETAIL_MONITOR_RANGE) then Some c
  else
    c ← drm_dmt_modes_for_range edid timing c;
    g11 ← version_greater edid 1 1;
    if negb g11 then Some c
    else
      range_flags ← timing !! 10%nat;
      if (range_flags =? 0x02) || (range_flags =? 0x00) then drm_gtf_modes_for_range edid timing c
      else if range_flags =? 0x04 then
        g13 ← version_greater edid 1 3;
        if negb g13 then Some c else drm_cvt_modes_for_range edid timing c
      else Some c.

Definition add_inferred_modes (edid : list Z) (probed_modes : list drm_display_mode) : option mode_closure :=
  let c := {| mc_modes := probed_modes; mc_added := 0; mc_preferred := false |} in
  g ← version_greater edid 1 0;
  if (g : bool) then ts ← drm_for_each_detailed_block edid; each_detailed (do_inferred_modes edid) ts c else Some c.

(** ** The preferred mode *)

Definition MODE_SIZE (m : drm_display_mode) : Z := s32 (hdisplay m * vdisplay m).
Definition MODE_REFRESH_DIFF (c t : Z) : Z := Z.abs (c - t).

(** [mode->vrefresh ? mode->vrefresh : drm_mode_vrefresh(mode)] *)
Definition mode_rate (m : drm_display_mode) : Z := if negb (vrefresh m =? 0) then vrefresh m else drm_mode_vrefresh m.

(** The loop of [edid_fixup_preferred], over the modes from number [i] on; the preferred mode is a number and a mode. *)
Fixpoint preferred_loop (target_refresh : Z) (i : nat) (modes : list drm_display_mode) (preferred : nat * drm_display_mode) : nat * drm_display_mode :=
  match modes with
  | [] => preferred
  | cur :: modes' =>
    if (i =? preferred.1)%nat then preferred_loop target_refresh (S i) modes' preferred
    else
      let preferred := if MODE_SIZE preferred.2 <? MODE_SIZE cur then (i, cur) else preferred in
      let preferred :=
        if (MODE_SIZE cur =? MODE_SIZE preferred.2) &&
           (MODE_REFRESH_DIFF (mode_rate cur) target_refresh <? MODE_REFRESH_DIFF (mode_rate preferred.2) target_refresh)
        then (i, cur) else preferred in
      preferred_loop target_refresh (S i) modes' preferred
  end.

Definition clear_preferred (m : drm_display_mode) : drm_display_mode := with_type (Z.ldiff (type_ m) DRM_MODE_TYPE_PREFERRED) m.
Definition mark_preferred (m : drm_display_mode) : drm_display_mode := with_type (Z.lor (type_ m) DRM_MODE_TYPE_PREFERRED) m.

Definition target_refresh (quirks : Z) : Z :=
  let t := if has_flag quirks EDID_QUIRK_PREFER_LARGE_60 then 60 else 0 in
  if has_flag quirks EDID_QUIRK_PREFER_LARGE_75 then 75 else t.

Definition edid_fixup_preferred (quirks : Z) (probed_modes : list drm_display_mode) : list drm_display_mode :=
  match probed_modes with
  | [] => []
  | first :: _ =>
    let preferred := preferred_loop (target_refresh quirks) 0 probed_modes (0%nat, first) in
    alter mark_preferred preferred.1 (map clear_preferred probed_modes)
  end.

(** ** All modes *)

(** The EDID after [add_detailed_modes]: each detailed timing as [drm_mode_detailed] leaves it. *)
Fixpoint patch_timings (edid : list Z) (quirks : Z) (ts : list (nat * list Z)) : option (list Z) :=
  match ts with
  | [] => Some edid
  | t :: ts' =>
    clk ← pixel_clock t.2;
    if clk =? 0 then patch_timings edid quirks ts'
    else r ← drm_mode_detailed edid t.2 quirks; e ← puts t.1 r.2 edid; patch_timings e quirks ts'
  end.

Definition patched_edid (edid : list Z) (quirks : Z) : option (list Z) :=
  ts ← drm_for_each_detailed_block edid; patch_timings edid quirks ts.

Section Add.

(** The module parameter and the type of the connector. *)
Variable edid_fixup : Z.
Variable connector_type : Z.

(** A step that returns a number of modes and a list of modes. *)
Definition run_closure (f : list drm_display_mode -> option mode_closure) (s : Z * hdmi_connector) : option (Z * hdmi_connector) :=
  c ← f (probed_modes s.2); Some (s.1 + mc_added c, set_probed (mc_modes c) s.2).

(** The calls that add modes, for an EDID and its quirks. *)
Definition add_all_modes (edid : list Z) (quirks : Z) (c : hdmi_connector) : option (Z * hdmi_connector) :=
  s ← run_closure (add_detailed_modes edid quirks) (0, c);
  edid ← patched_edid edid quirks;
  s ← run_closure (add_cvt_modes edid) s;
  s ← run_closure (add_standard_modes edid) s;
  s ← run_closure (add_established_modes edid) s;
  r ← add_cea_modes edid s.2;
  let s := (s.1 + r.1, r.2) in
  r ← add_alternate_cea_modes edid (probed_modes s.2);
  let s := (s.1 + r.1, set_probed r.2 s.2) in
  s ← run_closure (add_displayid_detailed_modes edid) s;
  features ← edid !! 24%nat;
  if has_flag features (Z.shiftl 1 0) then run_closure (add_inferred_modes edid) s else Some s.

(** The colour depth of monitors with quirks. *)
Definition force_bpc (quirks : Z) (info : drm_display_info) : drm_display_info :=
  let info := if has_flag quirks EDID_QUIRK_FORCE_6BPC then set_bpc 6 info else info in
  let info := if has_flag quirks EDID_QUIRK_FORCE_8BPC then set_bpc 8 info else info in
  let info := if has_flag quirks EDID_QUIRK_FORCE_10BPC then set_bpc 10 info else info in
  if has_flag quirks EDID_QUIRK_FORCE_12BPC then set_bpc 12 info else info.

(** Returns the number of modes and the connector. *)
Definition drm_add_edid_modes (edid : option (list Z)) (c : hdmi_connector) : option (Z * hdmi_connector) :=
  match edid with
  | None => Some (0, set_sound clear_eld c)
  | Some edid =>
    v ← drm_edid_is_valid edid_fixup edid;
    let '(ok, edid) := (v : bool * list Z) in
    if negb ok then Some (0, set_sound clear_eld c)
    else
      av ← drm_edid_to_eld connector_type (Some edid);
      let c := set_sound av c in
      q ← drm_add_display_info edid (display_info c);
      let '(quirks, info) := (q : Z * drm_display_info) in
      let c := set_cmdb 0 (set_vdb 0 (set_info info c)) in
      s ← add_all_modes edid quirks c;
      let c := s.2 in
      let c := if has_flag quirks (Z.lor EDID_QUIRK_PREFER_LARGE_60 EDID_QUIRK_PREFER_LARGE_75)
               then set_probed (edid_fixup_preferred quirks (probed_modes c)) c else c in
      Some (s.1, set_info (force_bpc quirks (display_info c)) c)
  end.

End Add.

(** ** Without an EDID *)

Fixpoint noedid_loop (hd vd : Z) (modes : list drm_display_mode) (s : Z * list drm_display_mode) : Z * list drm_display_mode :=
  match modes with
  | [] => s
  | ptr :: modes' =>
    if negb (hd =? 0) && negb (vd =? 0) && ((hd <? hdisplay ptr) || (vd <? vdisplay ptr)) then noedid_loop hd vd modes' s
    else if 61 <? drm_mode_vrefresh ptr then noedid_loop hd vd modes' s
    else noedid_loop hd vd modes' (s.1 + 1, drm_mode_probed_add s.2 ptr)
  end.

Definition drm_add_modes_noedid (hd vd : Z) (probed_modes : list drm_display_mode) : Z * list drm_display_mode :=
  let hd := if hd <? 0 then 0 else hd in
  let vd := if vd <? 0 then 0 else vd in
  noedid_loop hd vd drm_dmt_modes (0, probed_modes).

Definition drm_set_preferred_mode (hpref vpref : Z) (probed_modes : list drm_display_mode) : list drm_display_mode :=
  map (fun mode => if (hdisplay mode =? hpref) && (vdisplay mode =? vpref) then mark_preferred mode else mode) probed_modes.

(** ** Modes are added and counted *)

Definition grew (c c' : mode_closure) : Prop :=
  exists new, mc_modes c' = mc_modes c ++ new /\ mc_added c' = mc_added c + Z.of_nat (length new).

#[global] Instance grew_preorder : PreOrder grew.
Proof.
  split.
  - intros c. exists []. rewrite app_nil_r. split; [done|simpl; lia].
  - intros a b c (n1 & E1 & A1) (n2 & E2 & A2). exists (n1 ++ n2). rewrite E2, E1, A2, A1, length_app, app_assoc. split; [done|lia].
Qed.

Lemma grew_mode m c : grew c (add_mode m c).
Proof. by exists [m]. Qed.

Lemma grew_any m c : grew c (match m with Some m => add_mode m c | None => c end).
Proof. destruct m; [apply grew_mode|done]. Qed.

#[global] Instance always_preorder {A} : PreOrder (fun _ _ : A => True).
Proof. by split. Qed.

(** The first bytes of an EDID can be read. *)
Lemma edid_byte edid k : edid_blocks edid -> (k < 128)%nat -> exists x, edid !! k = Some x /\ is_u8 x.
Proof.
  intros (Hu & n & Hn & Hl) Hk. destruct (lookup_lt_is_Some_2 edid k) as [x Hx]; [unfold EDID_LENGTH in Hl; lia|]. exists x. split; [done|].
  exact (proj1 (Forall_lookup _ _) Hu _ _ Hx).
Qed.

Lemma timing_byte t k : length t = 18%nat -> Forall is_u8 t -> (k < 18)%nat -> exists x, t !! k = Some x /\ is_u8 x.
Proof. intros Hl Hu Hk. destruct (lookup_lt_is_Some_2 t k) as [x Hx]; [lia|]. exists x. split; [done|]. exact (proj1 (Forall_lookup _ _) Hu _ _ Hx). Qed.

Lemma version_total edid maj min : edid_blocks edid -> exists b, version_greater edid maj min = Some b.
Proof.
  intros He. unfold version_greater. destruct (edid_byte edid 18 He) as (v & -> & _); [lia|]. destruct (edid_byte edid 19 He) as (r & -> & _); [lia|]. by eexists.
Qed.

Section Walks.
Context (edid : list Z) (He : edid_blocks edid).

Lemma walk_steps {A} (R : A -> A -> Prop) `{!PreOrder R} cb c :
  (forall t c, length t = 18%nat -> Forall is_u8 t -> exists c', cb t c = Some c' /\ R c c') ->
  exists c', (ts ← drm_for_each_detailed_block edid; each_detailed cb ts c) = Some c' /\ R c c'.
Proof.
  intros Hcb. destruct He as (Hu & n & Hn & Hl). destruct (timings_bytes edid n Hn Hl Hu) as (ts & -> & Hts). rewrite bind_some. by apply each_steps.
Qed.

(** A walk that is made from some version of EDIDs on. *)
Lemma versioned_steps {A} (R : A -> A -> Prop) `{!PreOrder R} cb c maj min :
  (forall t c, length t = 18%nat -> Forall is_u8 t -> exists c', cb t c = Some c' /\ R c c') ->
  exists c', (g ← version_greater edid maj min; if (g : bool) then ts ← drm_for_each_detailed_block edid; each_detailed cb ts c else Some c) = Some c' /\ R c c'.
Proof.
  intros Hcb. destruct (version_total edid maj min He) as [g ->]. rewrite bind_some. destruct g; [by apply walk_steps|by exists c].
Qed.

Lemma supports_rb_total : exists b, drm_monitor_supports_rb edid = Some b.
Proof.
  unfold drm_monitor_supports_rb. destruct (edid_byte edid 19 He) as (r & -> & _); [lia|]. rewrite bind_some.
  destruct (4 <=? r); [|destruct (edid_byte edid 20 He) as (i & -> & _); [lia|]; by eexists].
  destruct (walk_steps (fun _ _ => True) is_rb false) as (b & -> & _); [|by eexists].
  intros t c Ht Hu. unfold is_rb. destruct (timing_byte t 3 Ht Hu) as (r3 & -> & _); [lia|]. rewrite bind_some.
  destruct (r3 =? EDID_DETAIL_MONITOR_RANGE); [|by eexists]. destruct (timing_byte t 15 Ht Hu) as (r15 & -> & _); [lia|]. by eexists.
Qed.

(** ** Standard and CVT timings *)

Hypothesis no_gtf2 : gtf2_range edid = Some None.

Lemma level_total : exists l, standard_timing_level edid = Some l /\ l <> LEVEL_GTF2.
Proof.
  unfold standard_timing_level, drm_gtf2_hbreak. destruct (edid_byte edid 19 He) as (r & -> & _); [lia|].
  destruct (edid_byte edid 24 He) as (f & -> & _); [lia|]. rewrite !bind_some, no_gtf2, bind_some. cbn.
  destruct (2 <=? r); [|by eexists]. destruct (_ && _); by eexists.
Qed.

Lemma std_size_range revision a b : is_u8 a -> is_u8 b -> let '(h, v, r) := std_size revision a b in 0 <= h <= 16384 /\ 1 <= v <= 8192 /\ 50 <= r <= 255.
Proof.
  unfold is_u8, std_size. intros Ha Hb. rewrite Z.shiftr_0_r.
  assert (0 <= Z.land b 0x3f <= 63) as Hf.
  { assert (below 256 (fun b => (0 <=? Z.land b 0x3f) && (Z.land b 0x3f <=? 63)) = true) as H by eval_bits.
    pose proof (below_spec _ _ H b ltac:(lia)) as H1. cbn beta in H1. lia. }
  set (aspect := Z.shiftr _ 6). clearbody aspect. set (f := Z.land b 0x3f) in *. clearbody f. set (h := a * 8 + 248).
  assert (248 <= h <= 2288) as Hh by (unfold h; lia). clearbody h.
  set (v := if aspect =? 0 then _ else _). assert (1 <= v <= 2288) as Hv by (unfold v; repeat case_match; lia). clearbody v.
  destruct (_ && _); lia.
Qed.

Lemma drm_mode_std_total probed a b : is_u8 a -> is_u8 b -> exists r, drm_mode_std edid probed a b = Some r.
Proof.
  intros Ha Hb. unfold drm_mode_std. destruct level_total as (l & -> & Hl). rewrite bind_some. destruct (bad_std_timing a b); [by eexists|].
  destruct (edid_byte edid 19 He) as (revision & -> & _); [lia|]. rewrite bind_some.
  pose proof (std_size_range revision a b Ha Hb) as Hr. destruct (std_size revision a b) as [[h v] r]. destruct Hr as (Hh & Hv & Hr).
  destruct (existsb _ _); [by eexists|]. destruct (_ && _) eqn:E1366.
  - destruct (drm_cvt_mode_total 1366 768 r false) as [m ->]; [lia..|]. by eexists.
  - destruct supports_rb_total as [rb ->]. rewrite bind_some. destruct (if rb then _ else None); [by eexists|].
    destruct (drm_mode_find_dmt h v r false); [by eexists|]. unfold std_generate. destruct l; [by eexists|..|done|].
    + destruct (drm_gtf_mode_total h v r Hv Hr) as [m ->]. by eexists.
    + destruct (drm_cvt_mode_total h v r false Hh Hv Hr) as [m ->]. by eexists.
Qed.

Lemma add_std_grew bytes n : Forall is_u8 bytes -> forall p c, (p + 2 * n <= length bytes)%nat -> exists c', add_std n edid bytes p c = Some c' /\ grew c c'.
Proof.
  intros Hu. induction n as [|n IH]; intros p c Hp; cbn [add_std]; [by exists c|].
  destruct (lookup_lt_is_Some_2 bytes p) as [a Ha]; [lia|]. destruct (lookup_lt_is_Some_2 bytes (p + 1)) as [b Hb]; [lia|]. rewrite Ha, Hb, !bind_some.
  destruct (drm_mode_std_total (mc_modes c) a b) as [r ->];
    [exact (proj1 (Forall_lookup _ _) Hu _ _ Ha)|exact (proj1 (Forall_lookup _ _) Hu _ _ Hb)|]. rewrite bind_some.
  destruct (IH (p + 2)%nat (match r with Some m => add_mode m c | None => c end)) as (c' & -> & H); [lia|]. exists c'. split; [done|].
  transitivity (match r with Some m => add_mode m c | None => c end); [apply grew_any|done].
Qed.

Lemma add_standard_grew probed : exists c, add_standard_modes edid probed = Some c /\ grew {| mc_modes := probed; mc_added := 0; mc_preferred := false |} c.
Proof.
  unfold add_standard_modes. set (c0 := {| mc_modes := probed; mc_added := 0; mc_preferred := false |}).
  assert (128 <= length edid)%nat as Hl by (destruct He as (_ & n & _ & Hl); unfold EDID_LENGTH in Hl; lia).
  destruct (add_std_grew edid EDID_STD_TIMINGS (proj1 He) 38 c0) as (c1 & -> & H1); [unfold EDID_STD_TIMINGS; lia|]. rewrite bind_some.
  destruct (versioned_steps grew (do_standard_modes edid) c1 1 0) as (c2 & -> & H2).
  - intros t c Ht Hu. unfold do_standard_modes. destruct (timing_byte t 3 Ht Hu) as (ty & -> & _); [lia|]. rewrite bind_some.
    destruct (ty =? EDID_DETAIL_STD_MODES); [|by exists c]. apply add_std_grew; [done|lia].
  - exists c2. split; [done|by transitivity c1].
Qed.

End Walks.

Abbreviation start probed := {| mc_modes := probed; mc_added := 0; mc_preferred := false |}.

Lemma cvt_rates_grew w h code2 n : 0 <= w <= 16384 -> 1 <= h <= 8192 -> forall j c, (j + n <= 5)%nat ->
  exists c', cvt_code_rates n j w h code2 c = Some c' /\ grew c c'.
Proof.
  intros Hw Hh. induction n as [|n IH]; intros j c Hj; cbn [cvt_code_rates]; [by exists c|].
  assert (exists c1, (if has_flag code2 (Z.shiftl 1 (Z.of_nat j)) then rate ← cvt_rates !! j; m ← drm_cvt_mode w h rate (Nat.eqb j 0) false false;
    Some (add_mode m c) else Some c) = Some c1 /\ grew c c1) as (c1 & -> & H1).
  { destruct (has_flag _ _); [|by exists c].
    assert (exists rate, cvt_rates !! j = Some rate /\ 50 <= rate <= 255) as (rate & -> & Hr)
      by (do 5 (destruct j as [|j]; [eexists; split; [done|lia]|]); lia).
    rewrite bind_some. destruct (drm_cvt_mode_total w h rate (Nat.eqb j 0)) as [m ->]; [done..|]. rewrite bind_some. eexists. split; [done|apply grew_mode]. }
  rewrite bind_some. destruct (IH (S j) c1) as (c2 & -> & H2); [lia|]. exists c2. split; [done|by transitivity c1].
Qed.

Lemma cvt_height c0 c1 : is_u8 c0 -> is_u8 c1 -> 2 <= (c0 + Z.shiftl (Z.land c1 0xf0) 4 + 1) * 2 <= 8192.
Proof.
  unfold is_u8. intros H0 H1. assert (below 256 (fun x => (0 <=? Z.shiftl (Z.land x 0xf0) 4) && (Z.shiftl (Z.land x 0xf0) 4 <=? 3840)) = true) as H by eval_bits.
  pose proof (below_spec _ _ H c1 ltac:(lia)) as E. cbn beta in E. lia.
Qed.

Lemma cvt_codes_grew t n : length t = 18%nat -> Forall is_u8 t -> forall i c, (i + n <= 4)%nat -> exists c', cvt_codes n i t c = Some c' /\ grew c c'.
Proof.
  intros Ht Hu. induction n as [|n IH]; intros i c Hi; cbn [cvt_codes]; [by exists c|].
  destruct (timing_byte t (5 + 3 * i) Ht Hu) as (c0 & -> & U0); [lia|]. destruct (timing_byte t (6 + 3 * i) Ht Hu) as (c1 & -> & U1); [lia|].
  destruct (timing_byte t (7 + 3 * i) Ht Hu) as (c2 & -> & U2); [lia|]. rewrite !bind_some.
  match goal with |- exists c', (?e ≫= _) = _ /\ _ => assert (exists c3, e = Some c3 /\ grew c c3) as (c3 & -> & H3) end.
  { destruct (_ && _); [by exists c|]. pose proof (cvt_height c0 c1 U0 U1) as Hh. set (h := (c0 + _ + 1) * 2) in *. clearbody h.
    apply cvt_rates_grew; [|lia|lia]. repeat case_match; lia. }
  rewrite bind_some. destruct (IH (S i) c3) as (c4 & -> & H4); [lia|]. exists c4. split; [done|by transitivity c3].
Qed.

Lemma est3_byte_grew i byte j : forall c, exists c', est3_byte j i byte c = Some c' /\ grew c c'.
Proof.
  induction j as [|j IH]; intros c; cbn [est3_byte]; [by exists c|]. destruct (est3_modes !! _) as [mm|]; [|by exists c].
  match goal with |- context [est3_byte j i byte ?c1] => destruct (IH c1) as (c2 & -> & H2); assert (grew c c1) as H1 end.
  { destruct (has_flag _ _); [apply grew_any|done]. }
  exists c2. split; [done|]. by etransitivity.
Qed.

Lemma est3_grew t n : length t = 18%nat -> Forall is_u8 t -> forall i c, (i + n <= 6)%nat -> exists c', est3_loop n i t c = Some c' /\ grew c c'.
Proof.
  intros Ht Hu. induction n as [|n IH]; intros i c Hi; cbn [est3_loop]; [by exists c|].
  destruct (timing_byte t (6 + i) Ht Hu) as (b & -> & _); [lia|]. rewrite bind_some. destruct (est3_byte_grew i b 8 c) as (c1 & -> & H1). rewrite bind_some.
  destruct (IH (S i) c1) as (c2 & -> & H2); [lia|]. exists c2. split; [done|by transitivity c1].
Qed.

Lemma est_loop_grew bits n : forall i c, (i + n <= 17)%nat -> exists c', est_loop n i bits c = Some c' /\ grew c c'.
Proof.
  induction n as [|n IH]; intros i c Hi; cbn [est_loop]; [by exists c|].
  destruct (lookup_lt_is_Some_2 edid_est_modes i) as [m Hm]; [assert (length edid_est_modes = 17%nat) as -> by (vm_compute; reflexivity); lia|].
  assert (exists c1, (if has_flag bits (Z.shiftl 1 (Z.of_nat i)) then m ← edid_est_modes !! i; Some (add_mode m c) else Some c) = Some c1 /\ grew c c1) as (c1 & -> & H1)
    by (destruct (has_flag _ _); [rewrite Hm, bind_some; eexists; split; [done|apply grew_mode]|by exists c]).
  rewrite bind_some. destruct (IH (S i) c1) as (c2 & -> & H2); [lia|]. exists c2. split; [done|by transitivity c1].
Qed.

Lemma add_established_grew edid probed : edid_blocks edid -> exists c, add_established_modes edid probed = Some c /\ grew (start probed) c.
Proof.
  intros He. unfold add_established_modes. destruct (edid_byte edid 35 He) as (t1 & -> & _); [lia|].
  destruct (edid_byte edid 36 He) as (t2 & -> & _); [lia|]. destruct (edid_byte edid 37 He) as (t3 & -> & _); [lia|]. rewrite !bind_some.
  match goal with |- context [est_loop ?n ?i ?bits ?c] => destruct (est_loop_grew bits n i c) as (c1 & -> & H1) end; [unfold EDID_EST_TIMINGS; lia|].
  rewrite bind_some. destruct (versioned_steps edid He grew do_established_modes c1 1 0) as (c2 & -> & H2).
  - intros t c Ht Hu. unfold do_established_modes, drm_est3_modes. destruct (timing_byte t 3 Ht Hu) as (ty & -> & _); [lia|]. rewrite bind_some.
    destruct (ty =? EDID_DETAIL_EST_TIMINGS); [|by exists c]. apply est3_grew; [done..|lia].
  - exists c2. split; [done|by transitivity c1].
Qed.

Lemma add_cvt_grew edid probed : edid_blocks edid -> exists c, add_cvt_modes edid probed = Some c /\ grew (start probed) c.
Proof.
  intros He. unfold add_cvt_modes. apply (versioned_steps edid He grew do_cvt_mode (start probed) 1 2).
  intros t c Ht Hu. unfold do_cvt_mode, drm_cvt_modes. destruct (timing_byte t 3 Ht Hu) as (ty & -> & _); [lia|]. rewrite bind_some.
  destruct (ty =? EDID_DETAIL_CVT_3BYTE); [|by exists c]. apply cvt_codes_grew; [done..|lia].
Qed.

(** ** Detailed timings, with any quirk *)

Lemma fixup_total a : exists c, fixup_detailed_cea_mode_clock a = Some (with_clock c a).
Proof.
  assert (with_clock (clock a) a = a) as Esame by (by destruct a). unfold fixup_detailed_cea_mode_clock.
  destruct (decide (clock a = 0)) as [E0|Hne].
  { exists (clock a). rewrite Esame. unfold drm_match_cea_mode_clock_tolerance, drm_match_hdmi_mode_clock_tolerance.
    destruct (Z.eqb_spec (clock a) 0); [|done]. rewrite bind_some. done. }
  rewrite match_cea_near, bind_some by done.
  destruct (drm_valid_cea_vic _) eqn:Ev; [destruct (cea_lookup _ Ev) as (m & -> & _); rewrite bind_some; by eexists|].
  rewrite match_hdmi_near, bind_some by done.
  destruct (drm_valid_hdmi_vic _) eqn:Eh; [destruct (hdmi_lookup _ Eh) as (m & -> & _); rewrite bind_some; by eexists|].
  exists (clock a). by rewrite Esame.
Qed.

Lemma active_range x lo : is_u8 x -> is_u8 lo -> 0 <= Z.lor (Z.shiftl (Z.land x 0xf0) 4) lo <= 4095.
Proof.
  unfold is_u8. intros Hx Hl. assert (below 256 (fun x => (Z.shiftl (Z.land x 0xf0) 4 =? Z.shiftl (Z.shiftr x 4) 8) && (0 <=? Z.shiftr x 4) &&
    (Z.shiftr x 4 <? 16)) = true) as H by eval_bits.
  pose proof (below_spec _ _ H x ltac:(lia)) as E. cbn beta in E. apply andb_true_iff in E as [E E3]. apply andb_true_iff in E as [E1 E2].
  apply Z.eqb_eq in E1. rewrite E1, Z.lor_comm, lor_shiftl by lia. lia.
Qed.

Lemma sync_pp_u8 m : is_u8 m -> is_u8 (Z.lor m (Z.lor DRM_EDID_PT_HSYNC_POSITIVE DRM_EDID_PT_VSYNC_POSITIVE)).
Proof.
  unfold is_u8. intros Hm. assert (below 256 (fun m => (0 <=? Z.lor m 6) && (Z.lor m 6 <? 256)) = true) as H by eval_bits.
  pose proof (below_spec _ _ H m ltac:(lia)) as E. cbn beta in E. change (Z.lor DRM_EDID_PT_HSYNC_POSITIVE DRM_EDID_PT_VSYNC_POSITIVE) with 6. lia.
Qed.

(** A detailed timing never faults, and what is left in the EDID are 18 bytes. *)
Lemma drm_mode_detailed_total edid t quirks : (23 <= length edid)%nat -> length t = 18%nat -> Forall is_u8 t ->
  exists r t', drm_mode_detailed edid t quirks = Some (r, t') /\ length t' = 18%nat /\ Forall is_u8 t'.
Proof.
  intros Hl Ht Hu. unfold drm_mode_detailed.
  assert (exists f, detailed_fields_of t = Some f /\ 0 <= df_hactive f <= 4095 /\ 0 <= df_vactive f <= 4095 /\ is_u8 (df_misc f)) as (f & -> & Hh & Hv & Hm).
  { clear Hl. do 19 (destruct t as [|? t]; simpl in Ht; try lia).
    repeat match goal with H : Forall _ (_ :: _) |- _ => inversion_clear H end.
    eexists. split; [done|]. cbn [df_hactive df_vactive df_misc]. split; [by apply active_range|]. split; [by apply active_range|done]. }
  rewrite bind_some. destruct ((df_hactive f <? 64) || (df_vactive f <? 64)) eqn:E64; [by eexists _, _|].
  destruct (has_flag (df_misc f) DRM_EDID_PT_STEREO); [by eexists _, _|].
  destruct ((df_hsync_pulse_width f =? 0) || (df_vsync_pulse_width f =? 0)); [by eexists _, _|].
  destruct (has_flag quirks EDID_QUIRK_FORCE_REDUCED_BLANKING).
  { destruct (drm_cvt_mode_total (df_hactive f) (df_vactive f) 60 true) as [m ->]; [lia..|]. rewrite bind_some.
    destruct (set_size_ok edid f quirks m Hl) as (m' & w & h & -> & _). rewrite bind_some. by eexists _, _. }
  set (p1 := if has_flag quirks EDID_QUIRK_135_CLOCK_TOO_HIGH then _ else (df_clock f, t)).
  assert (length p1.2 = 18%nat /\ Forall is_u8 p1.2) as [L1 U1].
  { unfold p1. destruct (has_flag _ _); [|done]. cbn [snd]. rewrite length_app, length_drop. split; [simpl; lia|].
    apply Forall_app. split; [repeat constructor; done|by apply Forall_drop]. }
  destruct p1 as [clk t1]. cbn [snd] in *.
  set (p2 := if has_flag quirks EDID_QUIRK_DETAILED_SYNC_PP then _ else (df_misc f, t1)).
  assert (length p2.2 = 18%nat /\ Forall is_u8 p2.2) as [L2 U2].
  { unfold p2. destruct (has_flag _ _); [|done]. cbn [snd]. rewrite length_app, length_take. rewrite L1. split; [done|].
    apply Forall_app. split; [by apply Forall_take|]. constructor; [by apply sync_pp_u8|done]. }
  destruct p2 as [misc t2]. cbn [snd] in *.
  destruct (set_size_ok edid f quirks (detailed_mode f (clk * 10) misc) Hl) as (m & w & h & -> & _). rewrite bind_some. by eexists _, _.
Qed.

Lemma add_detailed_grew edid quirks probed : edid_blocks edid ->
  exists c, add_detailed_modes edid quirks probed = Some c /\ exists new, mc_modes c = probed ++ new /\ mc_added c = Z.of_nat (length new).
Proof.
  intros He. unfold add_detailed_modes. destruct (edid_byte edid 24 He) as (f & -> & _); [lia|]. destruct (version_total edid 1 3 He) as [g ->]. rewrite !bind_some.
  assert (23 <= length edid)%nat as Hl by (destruct He as (_ & n & _ & Hl); unfold EDID_LENGTH in Hl; lia).
  match goal with |- context [each_detailed ?cb _ ?c0] => destruct (walk_steps edid He grew cb c0) as (c & -> & new & E1 & E2) end.
  - intros t c Ht Hu. unfold do_detailed_mode. destruct (fields_total t Ht Hu) as (fs & _ & -> & _). rewrite bind_some.
    destruct (df_clock fs =? 0); [by exists c|]. destruct (drm_mode_detailed_total edid t quirks Hl Ht Hu) as (r & t' & -> & _). rewrite bind_some. cbn [fst].
    destruct r as [[[m w] h]|]; [|by exists c].
    match goal with |- context [fixup_detailed_cea_mode_clock ?a] => destruct (fixup_total a) as [k ->] end. rewrite bind_some.
    eexists. split; [done|]. eexists [_]. done.
  - exists c. split; [done|]. exists new. split; [done|exact E2].
Qed.

(** ** The EDID after the quirks *)

Lemma patch_ok n quirks ts : forall e, Forall is_u8 e -> e !! 0x7e%nat = Some n -> length e = ((Z.to_nat n + 1) * EDID_LENGTH)%nat ->
  Forall (fun t => length t.2 = 18%nat /\ Forall is_u8 t.2 /\
    exists block o, t.1 = (block * EDID_LENGTH + o)%nat /\ (o + 18 <= timing_area block)%nat /\ ((block + 1) * EDID_LENGTH <= length e)%nat) ts ->
  exists e', patch_timings e quirks ts = Some e' /\ edid_blocks e'.
Proof.
  induction ts as [|t ts IH]; intros e Hu Hn Hl Hts; cbn [patch_timings]; [exists e; split; [done|]; split; [done|by exists n]|].
  apply list.Forall_cons in Hts as [(Lt & Ut & block & o & Ep & Ho & Hb) Hts']. destruct (fields_total t.2 Lt Ut) as (f & _ & -> & _). rewrite bind_some.
  destruct (df_clock f =? 0); [by apply IH|]. unfold EDID_LENGTH in *.
  destruct (drm_mode_detailed_total e t.2 quirks) as (r & t' & -> & Lt' & Ut'); [lia|done..|]. rewrite bind_some. cbn [snd].
  assert (timing_area block <= 127)%nat as Ha by (destruct block; simpl; lia).
  assert (e = take t.1 e ++ take 18 (drop t.1 e) ++ drop (t.1 + 18) e) as Esplit.
  { rewrite <- (list.drop_drop e 18 t.1). by rewrite (take_drop 18), take_drop. }
  assert (puts t.1 t' e = Some (take t.1 e ++ t' ++ drop (t.1 + 18) e)) as ->.
  { rewrite Esplit at 1. rewrite puts_app by (rewrite ?length_take, ?length_drop; lia). do 2 f_equal. f_equal.
    clear -Ut'. induction Ut' as [|x l Hx Hl IH]; [done|]. cbn [map]. by rewrite IH, u8_small. }
  rewrite bind_some. assert (length (take t.1 e ++ t' ++ drop (t.1 + 18) e) = length e) as El
    by (rewrite !length_app, length_take, length_drop; lia).
  apply IH.
  - apply Forall_app. split; [by apply Forall_take|]. apply Forall_app. split; [done|by apply Forall_drop].
  - destruct block as [|block]; cbn [timing_area] in Ho.
    + rewrite !lookup_app_r by (rewrite ?length_take; lia). rewrite length_take, lookup_drop, <- Hn. f_equal. lia.
    + rewrite lookup_app_l by (rewrite length_take; lia). by rewrite lookup_take_lt by lia.
  - rewrite El. done.
  - rewrite El. done.
Qed.

Lemma patched_total edid quirks : edid_blocks edid -> exists e, patched_edid edid quirks = Some e /\ edid_blocks e.
Proof.
  intros (Hu & n & Hn & Hl). unfold patched_edid. destruct (walk_inside edid n Hn Hl Hu) as (ts & -> & Hts & _). rewrite bind_some.
  apply (patch_ok n); [done..|]. revert Hts. apply Forall_impl. intros t (block & o & Ep & Ho & Hb & Et & Lt). split; [done|].
  split; [rewrite Et; by apply Forall_take, Forall_drop|]. by exists block, o.
Qed.

(** ** The extensions *)

Lemma match_hdmi_total a : exists v, drm_match_hdmi_mode a = Some v.
Proof. destruct (Z.eqb_spec (clock a) 0) as [E|E]; [exists 0; unfold drm_match_hdmi_mode; by rewrite E|]. rewrite match_hdmi_least by done. by eexists. Qed.

Lemma match_cea_total a : exists v, drm_match_cea_mode a = Some v.
Proof.
  destruct (Z.eqb_spec (clock a) 0) as [E|E]; [exists 0; unfold drm_match_cea_mode; by rewrite E|]. destruct (match_cea_first a E) as (v & -> & _). by eexists.
Qed.

Lemma alternate_total a : exists r, alternate_mode a = Some r.
Proof.
  unfold alternate_mode. destruct (match_cea_total a) as [v ->]. rewrite bind_some.
  match goal with |- context [?e ≫= _] => assert (exists f, e = Some f) as [f ->] end.
  { destruct (drm_valid_cea_vic v) eqn:Ev; [destruct (cea_lookup _ Ev) as (m & -> & _); by eexists|].
    destruct (match_hdmi_total a) as [w ->]. rewrite bind_some.
    destruct (drm_valid_hdmi_vic w) eqn:Ew; [destruct (hdmi_lookup _ Ew) as (m & -> & _); by eexists|by eexists]. }
  rewrite bind_some. destruct f as [[m c]|]; [|by eexists]. repeat case_match; by eexists.
Qed.

Lemma add_alternate_grew edid probed : edid_blocks edid ->
  exists new, add_alternate_cea_modes edid probed = Some (Z.of_nat (length new), probed ++ new).
Proof.
  intros He. unfold add_alternate_cea_modes. destruct (find_cea_ok edid He) as (r & -> & _). rewrite bind_some.
  destruct r as [cea|]; [|exists []; by rewrite app_nil_r].
  assert (exists l, mapM alternate_mode probed = Some l) as [l ->].
  { induction probed as [|a probed IH]; [by eexists|]. destruct IH as [l El]. destruct (alternate_total a) as [r Er]. exists (r :: l). cbn [mapM].
    by rewrite Er, El. }
  rewrite bind_some, foldl_append. by eexists.
Qed.

Lemma add_cea_grew edid c : edid_blocks edid ->
  exists new c', add_cea_modes edid c = Some (Z.of_nat (length new), c') /\ probed_modes c' = probed_modes c ++ new /\ sound c' = sound c.
Proof.
  intros He. destruct (add_cea_adds edid c He) as ([n c'] & -> & A1 & A2 & A3). cbn [fst snd] in *. rewrite Z.add_0_l in A2. subst n. by eexists _, c'.
Qed.

Lemma add_displayid_grew edid probed : edid_blocks edid -> exists c, add_displayid_detailed_modes edid probed = Some c /\ grew (start probed) c.
Proof.
  intros He. unfold add_displayid_detailed_modes. destruct (find_displayid_ok edid He) as (r & -> & Hr). rewrite bind_some.
  destruct r as [did|]; [|by eexists]. pose proof (Hr did eq_refl) as Hd. destruct (validate_total did Hd) as [ok ->]. rewrite bind_some.
  destruct ok; [|by eexists]. destruct (displayid_modes_ok did (start probed) Hd) as (c & Ec & H1 & H2 & _). exists c. split; [exact Ec|]. by eexists.
Qed.

(** ** Modes of the range *)

Lemma mode_in_range_total m edid t : edid_blocks edid -> length t = 18%nat -> Forall is_u8 t -> htotal m <> 0 -> exists b, mode_in_range m edid t = Some b.
Proof.
  intros He Ht Hu Hm. unfold mode_in_range, mode_in_hsync_range, mode_in_vsync_range, range_pixel_clock.
  destruct (edid_byte edid 19 He) as (r & -> & _); [lia|]. rewrite bind_some.
  do 19 (destruct t as [|? t]; [try discriminate Ht|]; try discriminate Ht). cbn [lookup list_lookup].
  rewrite !bind_some. assert (exists h, drm_mode_hsync m = Some h) as [h ->].
  { unfold drm_mode_hsync. destruct (negb _); [by eexists|]. destruct (_ <? _); [by eexists|]. destruct (Z.eqb_spec (htotal m) 0); [done|by eexists]. }
  rewrite !bind_some. destruct (supports_rb_total edid He) as [rb Erb].
  rewrite Erb. repeat match goal with |- context [if ?b then Some false else _] => destruct b; [by eexists|] end. destruct (mode_is_rb m); by eexists.
Qed.

Definition has_htotal (m : drm_display_mode) : bool := negb (htotal m =? 0).

Lemma inferred_list_grew edid t ms : edid_blocks edid -> length t = 18%nat -> Forall is_u8 t -> forallb has_htotal ms = true ->
  forall c, exists c', add_inferred_list edid t ms c = Some c' /\ grew c c'.
Proof.
  intros He Ht Hu. induction ms as [|m ms IH]; intros Hms c; cbn [add_inferred_list]; [by exists c|]. cbn [forallb] in Hms.
  apply andb_true_iff in Hms as [Hm Hms]. unfold add_inferred. destruct (mode_in_range_total m edid t He Ht Hu) as [b ->]; [unfold has_htotal in Hm; lia|].
  rewrite !bind_some. match goal with |- context [add_inferred_list edid t ms ?c1] => destruct (IH Hms c1) as (c2 & -> & H2); assert (grew c c1) as H1 end.
  { destruct (_ && _); [apply grew_mode|done]. }
  exists c2. split; [done|]. by etransitivity.
Qed.

(** The modes that are generated from the sizes of [extra_modes] exist. *)
Lemma extra_modes_generated (gtf rb : bool) :
  exists ms, mapM (fun m => if gtf then drm_gtf_mode (mm_w m) (mm_h m) (mm_r m) false 0 else drm_cvt_mode (mm_w m) (mm_h m) (mm_r m) rb false false) extra_modes = Some ms /\
    forallb has_htotal (map drm_mode_fixup_1366x768 ms) = true.
Proof.
  match goal with |- exists ms, ?e = _ /\ _ => assert (match e with Some ms => forallb has_htotal (map drm_mode_fixup_1366x768 ms) | None => false end = true) as H end.
  { destruct gtf, rb; vm_compute; reflexivity. }
  match goal with |- exists ms, ?e = _ /\ _ => destruct e as [ms|] end; [by exists ms|done].
Qed.

Lemma add_inferred_grew edid probed : edid_blocks edid -> exists c, add_inferred_modes edid probed = Some c /\ grew (start probed) c.
Proof.
  intros He. apply (versioned_steps edid He grew (do_inferred_modes edid) (start probed) 1 0).
  intros t c Ht Hu. unfold do_inferred_modes. destruct (timing_byte t 3 Ht Hu) as (ty & -> & _); [lia|]. rewrite bind_some.
  destruct (negb _); [by exists c|]. unfold drm_dmt_modes_for_range.
  destruct (inferred_list_grew edid t drm_dmt_modes He Ht Hu ltac:(vm_compute; reflexivity) c) as (c1 & -> & H1). rewrite bind_some.
  destruct (version_total edid 1 1 He) as [g ->]. rewrite bind_some. destruct g; [|by exists c1]. cbn [negb].
  destruct (timing_byte t 10 Ht Hu) as (fl & -> & _); [lia|]. rewrite bind_some. destruct (_ || _).
  { unfold drm_gtf_modes_for_range. destruct (extra_modes_generated true false) as (ms & -> & Hms). rewrite bind_some.
    destruct (inferred_list_grew edid t _ He Ht Hu Hms c1) as (c2 & -> & H2). exists c2. split; [done|]. by etransitivity. }
  destruct (fl =? 4); [|by exists c1]. destruct (version_total edid 1 3 He) as [g ->]. rewrite bind_some. destruct g; [|by exists c1]. cbn [negb].
  unfold drm_cvt_modes_for_range. destruct (supports_rb_total edid He) as [rb ->]. rewrite bind_some.
  destruct (extra_modes_generated false rb) as (ms & -> & Hms). rewrite bind_some.
  destruct (inferred_list_grew edid t _ He Ht Hu Hms c1) as (c2 & -> & H2). exists c2. split; [done|]. by etransitivity.
Qed.

(** ** The whole EDID *)

Lemma eld_total connector_type edid : edid_blocks edid -> exists av, drm_edid_to_eld connector_type (Some edid) = Some av.
Proof.
  intros He. destruct (find_cea_ok edid He) as (r & Er & Hr). destruct r as [cea|]; [|unfold drm_edid_to_eld; rewrite Er; by eexists].
  destruct (Hr cea eq_refl) as [Hc _]. destruct (get_monitor_name_ok edid He) as (name & En & Hname & Uname).
  destruct (cea_head cea Hc) as (rev & Hrev & Urev). destruct (edid_ids edid He) as (ids & Eids & Hids & Uids).
  pose proof (mnl_back rev (length name) Urev Hname) as Hmb.
  destruct (eld_loop_ok cea rev (u8 (Z.lor (u8 (Z.shiftl rev 5)) (Z.of_nat (length name)))) ids name Hc Hrev Hids Hname) as [Hloop Hs].
  eexists. exact (eld_built edid cea connector_type name rev ids _ Er En Hrev Eids Hids Uids Hname Uname Hloop Hs Hmb).
Qed.

Lemma header_score_total header : forall raw, (length header <= length raw)%nat -> exists s, header_score raw header = Some s.
Proof.
  induction header as [|h header IH]; intros raw Hl; [exists 0; by destruct raw|]. destruct raw as [|x raw]; simpl in Hl; [lia|].
  destruct (IH raw) as [s Hs]; [lia|]. cbn [header_score]. rewrite Hs. by eexists.
Qed.

Lemma block_repair_total edid_fixup raw i : (EDID_LENGTH <= length raw)%nat ->
  exists ok raw' k, drm_edid_block_valid edid_fixup raw i = Some (ok, raw', k) /\ (raw' = raw \/ i = 0%nat /\ raw' = edid_header ++ drop 8 raw).
Proof.
  unfold EDID_LENGTH. intros Hl. unfold drm_edid_block_valid, drm_edid_header_is_valid.
  match goal with |- context [?e ≫= _] => assert (exists go raw' k, e = Some (go, raw', k) /\ (raw' = raw \/ i = 0%nat /\ raw' = edid_header ++ drop 8 raw))
    as (go & raw' & k & -> & Hraw) end.
  { destruct i; [|eexists _, _, _; split; [done|by left]]. destruct (header_score_total edid_header raw) as [s ->]; [simpl; lia|]. rewrite bind_some.
    destruct (s =? 8); [eexists _, _, _; split; [done|by left]|]. destruct (_ <=? s); eexists _, _, _; (split; [done|]); [right|left]; done. }
  rewrite bind_some. assert (128 <= length raw')%nat as Hl' by (destruct Hraw as [->|[_ ->]]; [done|rewrite length_app, length_drop; simpl length; lia]).
  destruct go; [|eexists _, _, _; done]. cbn [negb]. unfold drm_edid_block_checksum, bytes_at, EDID_LENGTH. rewrite (proj2 (Nat.leb_le _ _)) by lia. rewrite !bind_some.
  destruct (lookup_lt_is_Some_2 raw' 0) as [b0 ->]; [lia|]. destruct (lookup_lt_is_Some_2 raw' 18) as [v ->]; [lia|]. rewrite !bind_some.
  destruct (_ && negb (b0 =? _)); [eexists _, _, _; done|]. destruct (_ && _); eexists _, _, _; done.
Qed.

Lemma edid_header_blocks edid : edid_blocks edid -> edid_blocks (edid_header ++ drop 8 edid).
Proof.
  intros (Hu & n & Hn & Hl). split.
  - apply Forall_app. split; [repeat constructor; unfold is_u8; lia|by apply Forall_drop].
  - exists n. split; [rewrite lookup_app_r by (simpl; lia); rewrite lookup_drop; exact Hn|]. rewrite length_app, length_drop. unfold EDID_LENGTH in *. simpl length. lia.
Qed.

Lemma valid_loop_total edid_fixup k : forall i edid, edid_blocks edid -> ((i + k) * EDID_LENGTH <= length edid)%nat ->
  exists ok edid', valid_loop edid_fixup k i edid = Some (ok, edid') /\ edid_blocks edid'.
Proof.
  unfold EDID_LENGTH. induction k as [|k IH]; intros i edid He Hl; cbn [valid_loop]; [by eexists _, _|].
  destruct (block_repair_total edid_fixup (drop (i * EDID_LENGTH) edid) i) as (ok & raw & c & -> & Hraw); [rewrite length_drop; unfold EDID_LENGTH; lia|].
  rewrite bind_some. set (edid' := take (i * EDID_LENGTH) edid ++ raw).
  assert (edid_blocks edid' /\ length edid' = length edid) as [He' El].
  { unfold edid'. destruct Hraw as [->|[-> ->]]; [by rewrite take_drop|]. change (0 * EDID_LENGTH)%nat with 0%nat. rewrite drop_0.
    rewrite take_0, (app_nil_l (A := Z)). split; [by apply edid_header_blocks|].
    rewrite length_app, length_drop. simpl length. lia. }
  destruct ok; [|by eexists _, _]. apply IH; [done|]. rewrite El. lia.
Qed.

Lemma edid_is_valid_total edid_fixup edid : edid_blocks edid ->
  exists ok edid', drm_edid_is_valid edid_fixup edid = Some (ok, edid') /\ edid_blocks edid'.
Proof.
  intros He. pose proof He as (Hu & n & Hn & Hl). unfold drm_edid_is_valid. rewrite Hn, bind_some. apply valid_loop_total; [done|]. lia.
Qed.

(** Modes are added and counted, and nothing happens to the fields for the sound driver. *)
Definition counted (s s' : Z * hdmi_connector) : Prop := exists new, added new s s'.

#[global] Instance counted_preorder : PreOrder counted.
Proof.
  split.
  - intros s. exists []. apply added_none.
  - intros a b c (n1 & A1) (n2 & A2). exists (n1 ++ n2). by eapply added_trans.
Qed.

Lemma run_closure_counted f s : (forall probed, exists c, f probed = Some c /\ grew (start probed) c) ->
  exists s', run_closure f s = Some s' /\ counted s s'.
Proof.
  intros Hf. unfold run_closure. destruct (Hf (probed_modes s.2)) as (c & -> & new & E1 & E2). rewrite bind_some. eexists. split; [done|].
  exists new. split; [exact E1|]. cbn [mc_added] in E2. split; [cbn [fst]; lia|done].
Qed.

Lemma add_all_counted edid quirks c : edid_blocks edid -> (forall e, patched_edid edid quirks = Some e -> gtf2_range e = Some None) ->
  exists s, add_all_modes edid quirks c = Some s /\ counted (0, c) s.
Proof.
  intros He Hg. unfold add_all_modes.
  destruct (run_closure_counted (add_detailed_modes edid quirks) (0, c)) as (s1 & -> & H1).
  { intros probed. destruct (add_detailed_grew edid quirks probed He) as (c1 & -> & new & E1 & E2). exists c1. split; [done|]. exists new. by split. }
  rewrite bind_some. destruct (patched_total edid quirks He) as (e & Ee & He'). specialize (Hg e Ee). rewrite Ee, bind_some. clear He Ee edid.
  destruct (run_closure_counted (add_cvt_modes e) s1) as (s2 & -> & H2); [intros; by apply add_cvt_grew|]. rewrite bind_some.
  destruct (run_closure_counted (add_standard_modes e) s2) as (s3 & -> & H3); [intros; by apply add_standard_grew|]. rewrite bind_some.
  destruct (run_closure_counted (add_established_modes e) s3) as (s4 & -> & H4); [intros; by apply add_established_grew|]. rewrite bind_some.
  destruct (add_cea_grew e s4.2 He') as (n5 & c5 & -> & E5 & S5). rewrite bind_some. cbn [fst snd].
  destruct (add_alternate_grew e (probed_modes c5) He') as (n6 & ->). rewrite bind_some. cbn [fst snd].
  set (s6 := (s4.1 + Z.of_nat (length n5) + Z.of_nat (length n6), set_probed (probed_modes c5 ++ n6) c5)).
  assert (counted s4 s6) as H6.
  { exists (n5 ++ n6). unfold s6, added. cbn [fst snd set_probed probed_modes sound]. rewrite E5, length_app, app_assoc. split; [done|]. split; [lia|done]. }
  destruct (run_closure_counted (add_displayid_detailed_modes e) s6) as (s7 & -> & H7); [intros; by apply add_displayid_grew|]. rewrite bind_some.
  destruct (edid_byte e 24 He') as (f & -> & _); [lia|]. rewrite bind_some.
  assert (counted (0, c) s7) as H by (transitivity s1; [done|]; transitivity s2; [done|]; transitivity s3; [done|]; transitivity s4; [done|]; by transitivity s6).
  destruct (has_flag _ _); [|by exists s7].
  destruct (run_closure_counted (add_inferred_modes e) s7) as (s8 & -> & H8); [intros; by apply add_inferred_grew|]. exists s8. split; [done|]. by transitivity s7.
Qed.

(** ** The preferred mode *)

(** Mode [m] is as good as [m']: larger, or as large and as close to the rate. *)
Definition preferable (target : Z) (m m' : drm_display_mode) : Prop :=
  MODE_SIZE m' < MODE_SIZE m \/
  MODE_SIZE m' = MODE_SIZE m /\ MODE_REFRESH_DIFF (mode_rate m) target <= MODE_REFRESH_DIFF (mode_rate m') target.

Lemma preferable_trans target a b c : preferable target a b -> preferable target b c -> preferable target a c.
Proof. unfold preferable. lia. Qed.

(** The best of the modes, the first one of those that are equally good. *)
Definition best_mode (target : Z) (modes : list drm_display_mode) (p : nat * drm_display_mode) : Prop :=
  modes !! p.1 = Some p.2 /\
  forall j m, modes !! j = Some m -> preferable target p.2 m /\ (preferable target m p.2 -> (p.1 <= j)%nat).

Lemma best_step target pre cur p : best_mode target pre p ->
  best_mode target (pre ++ [cur])
    (let q := if MODE_SIZE p.2 <? MODE_SIZE cur then (length pre, cur) else p in
     if (MODE_SIZE cur =? MODE_SIZE q.2) && (MODE_REFRESH_DIFF (mode_rate cur) target <? MODE_REFRESH_DIFF (mode_rate q.2) target)
     then (length pre, cur) else q).
Proof.
  intros [Hp Hb]. pose proof (lookup_lt_Some _ _ _ Hp) as Hlt.
  assert (preferable target cur cur) as Hrefl by (unfold preferable; lia).
  assert (forall P : drm_display_mode -> nat -> Prop, P cur (length pre) -> (forall j m, pre !! j = Some m -> P m j) ->
    forall j m, (pre ++ [cur]) !! j = Some m -> P m j) as Hsnoc.
  { intros P Hcur Hpre j m Hj. apply lookup_app_Some in Hj as [Hj|[Hle Hj]]; [by apply Hpre|]. apply list_lookup_singleton_Some in Hj as [Hj <-].
    by replace j with (length pre) by lia. }
  assert (preferable target cur p.2 -> ~ preferable target p.2 cur -> best_mode target (pre ++ [cur]) (length pre, cur)) as Hnew.
  { intros H1 H2. split; [cbn [fst snd]; by rewrite lookup_app_r, Nat.sub_diag|]. cbn [fst snd]. apply (Hsnoc (fun m j => _)); [done|].
    intros j m Hj. destruct (Hb j m Hj) as [H3 _]. split; [by eapply preferable_trans|]. intros H4. destruct H2. by eapply preferable_trans. }
  assert (preferable target p.2 cur -> best_mode target (pre ++ [cur]) p) as Hold.
  { intros H1. split; [by rewrite lookup_app_l|]. apply (Hsnoc (fun m j => _)); [split; [done|lia]|]. exact Hb. }
  cbv zeta. unfold preferable in Hnew, Hold. destruct (Z.ltb_spec (MODE_SIZE p.2) (MODE_SIZE cur)); cbn [snd].
  - destruct (_ && _); apply Hnew; lia.
  - destruct (Z.eqb_spec (MODE_SIZE cur) (MODE_SIZE p.2)); cbn [andb]; [|apply Hold; lia].
    destruct (Z.ltb_spec (MODE_REFRESH_DIFF (mode_rate cur) target) (MODE_REFRESH_DIFF (mode_rate p.2) target)); [apply Hnew; lia|apply Hold; lia].
Qed.

Lemma preferred_loop_best target modes : forall pre p, best_mode target pre p ->
  best_mode target (pre ++ modes) (preferred_loop target (length pre) modes p).
Proof.
  induction modes as [|cur modes IH]; intros pre p Hp; cbn [preferred_loop]; [by rewrite app_nil_r|].
  pose proof (lookup_lt_Some _ _ _ (proj1 Hp)) as Hlt. destruct (Nat.eqb_spec (length pre) p.1); [lia|].
  replace (pre ++ cur :: modes) with ((pre ++ [cur]) ++ modes) by (by rewrite <- app_assoc).
  replace (S (length pre)) with (length (pre ++ [cur])) by (rewrite length_app; simpl; lia). apply IH. by apply best_step.
Qed.

Lemma clear_no_flag m : has_flag (type_ (clear_preferred m)) DRM_MODE_TYPE_PREFERRED = false.
Proof.
  unfold has_flag, clear_preferred. cbn [type_ with_type]. apply negb_false_iff, Z.eqb_eq. apply Z.bits_inj'. intros k Hk.
  rewrite Z.land_spec, Z.ldiff_spec, Z.bits_0. destruct (Z.testbit DRM_MODE_TYPE_PREFERRED k); [by rewrite andb_false_r|apply andb_false_r].
Qed.

Lemma mark_flag m : has_flag (type_ (mark_preferred m)) DRM_MODE_TYPE_PREFERRED = true.
Proof.
  unfold has_flag, mark_preferred. cbn [type_ with_type]. apply negb_true_iff, Z.eqb_neq. rewrite Z.land_lor_distr_l. intros E.
  apply Z.lor_eq_0_iff in E as [_ E]. discriminate E.
Qed.

Lemma clear_clear m : clear_preferred (clear_preferred m) = clear_preferred m.
Proof.
  unfold clear_preferred, with_type. cbn. f_equal. apply Z.bits_inj'. intros k Hk. rewrite !Z.ldiff_spec. by destruct (Z.testbit _ k), (Z.testbit _ k).
Qed.

Lemma clear_mark m : clear_preferred (mark_preferred m) = clear_preferred m.
Proof.
  unfold clear_preferred, mark_preferred, with_type. cbn. f_equal. apply Z.bits_inj'. intros k Hk. rewrite !Z.ldiff_spec, Z.lor_spec.
  by destruct (Z.testbit _ k), (Z.testbit _ k).
Qed.

(** Nothing but the mark is changed. *)
Lemma fixup_marks quirks modes : map clear_preferred (edid_fixup_preferred quirks modes) = map clear_preferred modes.
Proof.
  destruct modes as [|first modes]; [done|]. unfold edid_fixup_preferred. generalize (preferred_loop (target_refresh quirks) 0 (first :: modes) (0%nat, first)).
  intros [i m]. cbn [fst]. generalize (first :: modes). clear. intros all. apply list_eq. intros j. rewrite !list_lookup_fmap. destruct (decide (j = i)) as [->|Hji].
  - rewrite list_lookup_alter_eq, list_lookup_fmap. destruct (all !! i) as [mi|]; [|done]. cbn [fmap option_fmap option_map]. by rewrite clear_mark, clear_clear.
  - rewrite list_lookup_alter_ne, list_lookup_fmap by done. destruct (all !! j) as [mj|]; [|done]. cbn [fmap option_fmap option_map]. by rewrite clear_clear.
Qed.

(** Of the modes exactly one is preferred in the end, the largest one, of several such the one whose rate is closest to what the quirk asks for,
    and of several such the first; nothing but the mark of the modes is changed. *)
Theorem edid_fixup_preferred_best quirks modes : modes <> [] ->
  exists i m, best_mode (target_refresh quirks) modes (i, m) /\
    (forall j m', edid_fixup_preferred quirks modes !! j = Some m' -> has_flag (type_ m') DRM_MODE_TYPE_PREFERRED = true <-> j = i) /\
    map clear_preferred (edid_fixup_preferred quirks modes) = map clear_preferred modes.
Proof.
  intros Hne. pose proof (fixup_marks quirks modes) as Hmarks. destruct modes as [|first modes]; [done|]. revert Hmarks.
  unfold edid_fixup_preferred. cbn [preferred_loop fst Nat.eqb].
  set (r := preferred_loop (target_refresh quirks) 1 modes (0%nat, first)).
  assert (best_mode (target_refresh quirks) (first :: modes) r) as Hr.
  { apply (preferred_loop_best (target_refresh quirks) modes [first]). split; [done|]. intros [|j] m Hj; [|discriminate Hj]. apply (inj Some) in Hj as <-.
    cbn [fst snd]. unfold preferable. lia. }
  clearbody r. set (all := first :: modes) in *. clearbody all. clear first modes Hne. destruct r as [i m]. exists i, m. split; [done|]. cbn [fst] in *. split; [|done].
  intros j m' Hj. destruct (decide (j = i)) as [->|Hji].
  - rewrite list_lookup_alter_eq, list_lookup_fmap in Hj. destruct (all !! i); [|done]. apply (inj Some) in Hj as <-. split; [done|]. intros _. apply mark_flag.
  - rewrite list_lookup_alter_ne, list_lookup_fmap in Hj by done. destruct (all !! j) as [mj|]; [|done]. apply (inj Some) in Hj as <-. by rewrite clear_no_flag.
Qed.

(** ** All together *)

Lemma display_info_total edid info : edid_blocks edid ->
  exists quirks info', drm_add_display_info edid info = Some (quirks, info') /\ edid_get_quirks edid = Some quirks.
Proof.
  intros He. destruct (add_display_total edid He) as [[q r] E]. rewrite add_display_or, E. exists q, (or_dc (edid_hdmi_dc_modes info) r). split; [done|].
  revert E. unfold drm_add_display_info. destruct (edid_get_quirks edid) as [q'|]; [|discriminate]. rewrite bind_some.
  do 5 (match goal with |- context [edid !! ?k] => destruct (edid_byte edid k He) as (? & -> & _) end; [lia|]). rewrite !bind_some.
  destruct (_ <? 3); [by intros [= -> _]|]. destruct (negb _); [by intros [= -> _]|].
  destruct (drm_parse_cea_ext _ _); [rewrite bind_some|discriminate]. destruct (_ <? 4); by intros [= -> _].
Qed.

(** [edid'] is what the probe of an EDID works on after the detailed timings: the header repaired, the timings of monitors with quirks changed. *)
Definition probed_as (edid_fixup : Z) (edid edid' : list Z) : Prop :=
  exists e quirks, drm_edid_is_valid edid_fixup edid = Some (true, e) /\ edid_get_quirks e = Some quirks /\ patched_edid e quirks = Some edid'.

(** C31: for every EDID with as many blocks as it announces and without a secondary GTF curve, whatever else it contains, the
    probe ends without a fault.  An invalid EDID, like no EDID, adds no modes and changes nothing but the ELD and the latencies,
    which are cleared.  For a valid one the number that is returned is the number of modes added behind those of the connector,
    of which only the preferred mark may change, and the ELD and the latencies are those that the EDID describes.
    Allocations succeed. *)
Theorem drm_add_edid_modes_counts edid_fixup connector_type edid c : edid_blocks edid ->
  (forall edid', probed_as edid_fixup edid edid' -> gtf2_range edid' = Some None) ->
  exists n c' ok e, drm_add_edid_modes edid_fixup connector_type (Some edid) c = Some (n, c') /\
    drm_edid_is_valid edid_fixup edid = Some (ok, e) /\
    (if ok then
      exists new, n = Z.of_nat (length new) /\
        map clear_preferred (probed_modes c') = map clear_preferred (probed_modes c ++ new) /\
        drm_edid_to_eld connector_type (Some e) = Some (sound c')
    else n = 0 /\ c' = set_sound clear_eld c).
Proof.
  intros He Hg. unfold drm_add_edid_modes. destruct (edid_is_valid_total edid_fixup edid He) as (ok & e & Ev & He'). rewrite Ev, bind_some.
  destruct ok; cbn [negb]; [|by eexists 0, _, false, e].
  destruct (eld_total connector_type e He') as [av Eav]. rewrite Eav, bind_some.
  destruct (display_info_total e (display_info (set_sound av c)) He') as (quirks & info & -> & Hq). rewrite bind_some.
  set (c0 := set_cmdb 0 (set_vdb 0 (set_info info (set_sound av c)))).
  destruct (add_all_counted e quirks c0 He') as (s & -> & new & E1 & E2 & E3); [intros e' Ee'; apply Hg; by exists e, quirks|]. rewrite bind_some.
  eexists _, _, true, e. split; [done|]. split; [done|]. exists new. cbn [fst snd] in *. split; [lia|].
  change (probed_modes c0) with (probed_modes c) in E1. change (sound c0) with av in E3. rewrite <- E1, Eav.
  destruct (has_flag quirks _); cbn [set_info probed_modes set_probed sound]; rewrite E3; (split; [|done]); [apply fixup_marks|done].
Qed.

(** ** Without an EDID *)

(** Whether a mode is offered: within the limits, if there are any, and at most 61 Hz. *)
Definition offered (hd vd : Z) (m : drm_display_mode) : bool :=
  negb ((0 <? hd) && (0 <? vd) && ((hd <? hdisplay m) || (vd <? vdisplay m))) && (drm_mode_vrefresh m <=? 61).

Lemma noedid_loop_ok hd vd modes : 0 <= hd -> 0 <= vd -> forall n probed,
  noedid_loop hd vd modes (n, probed) = (n + Z.of_nat (length (List.filter (offered hd vd) modes)), probed ++ List.filter (offered hd vd) modes).
Proof.
  intros Hh Hv. induction modes as [|m modes IH]; intros n probed; cbn [noedid_loop List.filter]; [rewrite app_nil_r; f_equal; simpl; lia|].
  assert (offered hd vd m = negb (negb (hd =? 0) && negb (vd =? 0) && ((hd <? hdisplay m) || (vd <? vdisplay m))) && (drm_mode_vrefresh m <=? 61)) as ->
    by (unfold offered; do 3 f_equal; lia).
  destruct (negb (hd =? 0) && negb (vd =? 0) && _); cbn [negb andb]; [apply IH|].
  destruct (Z.ltb_spec 61 (drm_mode_vrefresh m)), (Z.leb_spec (drm_mode_vrefresh m) 61); try lia; [apply IH|].
  rewrite IH. cbn [fst snd length]. unfold drm_mode_probed_add. rewrite <- app_assoc. f_equal. lia.
Qed.

(** Without an EDID a connector gets the standard modes that fit, in the order of the table. *)
Theorem drm_add_modes_noedid_offers hd vd probed :
  drm_add_modes_noedid hd vd probed =
    (Z.of_nat (length (List.filter (offered hd vd) drm_dmt_modes)), probed ++ List.filter (offered hd vd) drm_dmt_modes).
Proof.
  unfold drm_add_modes_noedid. rewrite noedid_loop_ok by (destruct (_ <? 0) eqn:?; lia).
  assert (List.filter (offered (if hd <? 0 then 0 else hd) (if vd <? 0 then 0 else vd)) drm_dmt_modes = List.filter (offered hd vd) drm_dmt_modes) as ->.
  { apply filter_ext. intros m. unfold offered. destruct (Z.ltb_spec hd 0), (Z.ltb_spec vd 0); f_equal; f_equal; lia. }
  by rewrite Z.add_0_l.
Qed.

(** ** Examples *)

(** A monitor with a detailed timing, a standard timing and ranges for CVT. *)
Definition range_monitor : list Z :=
  sample_edid 4 1 [0x81; 0x80] (encode_detailed sample_fields 0 0) [0; 0; 0; 0xfd; 0; 50; 76; 30; 83; 17; 4; 0x11; 0; 0; 0; 0; 0; 0].

Lemma range_monitor_blocks : edid_blocks range_monitor.
Proof. split; [vm_compute; repeat constructor; discriminate|]. exists 0. by vm_compute. Qed.

Lemma drm_add_edid_modes_counts_witness :
  exists c', drm_add_edid_modes 6 DRM_MODE_CONNECTOR_DisplayPort (Some range_monitor) new_connector = Some (31, c') /\
    length (probed_modes c') = 31%nat /\ drm_edid_to_eld DRM_MODE_CONNECTOR_DisplayPort (Some range_monitor) = Some (sound c').
Proof.
  assert (drm_edid_is_valid 6 range_monitor = Some (true, range_monitor)) as Ev by (vm_compute; reflexivity).
  destruct (drm_add_edid_modes_counts 6 DRM_MODE_CONNECTOR_DisplayPort range_monitor new_connector range_monitor_blocks) as (n & c' & ok & e & E & Eok & H).
  { intros edid' (e & quirks & E1 & E2 & E3).
    rewrite Ev in E1. apply (inj Some) in E1. apply (f_equal snd) in E1. cbn [snd] in E1. subst e.
    assert (edid_get_quirks range_monitor = Some 0) as Eq by (vm_compute; reflexivity). rewrite Eq in E2. apply (inj Some) in E2 as <-.
    assert (patched_edid range_monitor 0 = Some range_monitor) as Ep by (vm_compute; reflexivity). rewrite Ep in E3. apply (inj Some) in E3 as <-.
    vm_compute. reflexivity. }
  rewrite Ev in Eok. injection Eok as <- <-. destruct H as (new & -> & Em & Es).
  exists c'. assert (option_map fst (drm_add_edid_modes 6 DRM_MODE_CONNECTOR_DisplayPort (Some range_monitor) new_connector) = Some 31) as En
    by (vm_compute; reflexivity).
  rewrite E in En. apply (inj Some) in En. cbn [fst] in En. rewrite E, En. split; [reflexivity|]. split; [|exact Es].
  apply (f_equal length) in Em. rewrite !length_map in Em. rewrite Em. cbn [new_connector probed_modes app]. lia.
Defined.

(** Three modes: 1280x720, and 1920x1080 at 60 and 50 Hz. *)
Definition sample_modes : list drm_display_mode := map (fun i => default no_mode (cea_modes !! i)) [4; 16; 31]%nat.

Lemma edid_fixup_preferred_best_witness :
  exists i m, best_mode (target_refresh EDID_QUIRK_PREFER_LARGE_60) sample_modes (i, m) /\
    (forall j m', edid_fixup_preferred EDID_QUIRK_PREFER_LARGE_60 sample_modes !! j = Some m' -> has_flag (type_ m') DRM_MODE_TYPE_PREFERRED = true <-> j = i) /\
    map (fun m => has_flag (type_ m) DRM_MODE_TYPE_PREFERRED) (edid_fixup_preferred EDID_QUIRK_PREFER_LARGE_60 sample_modes) = [false; true; false].
Proof.
  destruct (edid_fixup_preferred_best EDID_QUIRK_PREFER_LARGE_60 sample_modes) as (i & m & H1 & H2 & _); [vm_compute; discriminate|].
  exists i, m. split; [exact H1|]. split; [exact H2|]. vm_compute. reflexivity.
Defined.
