(* ===== verification/Framebuffer.v ===== *)
(** * Pixel formats and framebuffers ([drm_fourcc.c], [drm_framebuffer.c], [drm_dumb_buffers.c])

    The table of pixel formats, the checks every framebuffer and dumb buffer
    request from user space passes before a driver sees it, and the check of
    source coordinates.  Driver callbacks are parameters.  [None] is a [NULL]
    dereference or an array access out of range.

    Theorems: the table is consistent; an accepted framebuffer describes, plane
    by plane, memory that 32-bit arithmetic addresses without overflow; a
    big-endian request dereferences [NULL]; source coordinates are accepted
    exactly when they lie inside the framebuffer; an accepted dumb buffer has a
    size that does not wrap around. *)

From S2P Require Import Prelude Rect.
From stdpp Require Import base gmap list option sets sorting.
From Stdlib Require Import ZArith Lia.

#[local] Set Warnings "-clear-no-such-hyp".

#[local] Open Scope Z_scope.

(** ** Formats *)

Definition fourcc_code (a b c d : Z) : Z :=
  Z.lor (Z.lor (Z.lor a (Z.shiftl b 8)) (Z.shiftl c 16)) (Z.shiftl d 24).

Definition DRM_FORMAT_BIG_ENDIAN : Z := 2 ^ 31.

Definition DRM_FORMAT_C8 : Z := fourcc_code 67 56 32 32.
Definition DRM_FORMAT_RGB332 : Z := fourcc_code 82 71 66 56.
Definition DRM_FORMAT_BGR233 : Z := fourcc_code 66 71 82 56.
Definition DRM_FORMAT_XRGB4444 : Z := fourcc_code 88 82 49 50.
Definition DRM_FORMAT_XBGR4444 : Z := fourcc_code 88 66 49 50.
Definition DRM_FORMAT_RGBX4444 : Z := fourcc_code 82 88 49 50.
Definition DRM_FORMAT_BGRX4444 : Z := fourcc_code 66 88 49 50.
Definition DRM_FORMAT_ARGB4444 : Z := fourcc_code 65 82 49 50.
Definition DRM_FORMAT_ABGR4444 : Z := fourcc_code 65 66 49 50.
Definition DRM_FORMAT_RGBA4444 : Z := fourcc_code 82 65 49 50.
Definition DRM_FORMAT_BGRA4444 : Z := fourcc_code 66 65 49 50.
Definition DRM_FORMAT_XRGB1555 : Z := fourcc_code 88 82 49 53.
Definition DRM_FORMAT_XBGR1555 : Z := fourcc_code 88 66 49 53.
Definition DRM_FORMAT_RGBX5551 : Z := fourcc_code 82 88 49 53.
Definition DRM_FORMAT_BGRX5551 : Z := fourcc_code 66 88 49 53.
Definition DRM_FORMAT_ARGB1555 : Z := fourcc_code 65 82 49 53.
Definition DRM_FORMAT_ABGR1555 : Z := fourcc_code 65 66 49 53.
Definition DRM_FORMAT_RGBA5551 : Z := fourcc_code 82 65 49 53.
Definition DRM_FORMAT_BGRA5551 : Z := fourcc_code 66 65 49 53.
Definition DRM_FORMAT_RGB565 : Z := fourcc_code 82 71 49 54.
Definition DRM_FORMAT_BGR565 : Z := fourcc_code 66 71 49 54.
Definition DRM_FORMAT_RGB888 : Z := fourcc_code 82 71 50 52.
Definition DRM_FORMAT_BGR888 : Z := fourcc_code 66 71 50 52.
Definition DRM_FORMAT_XRGB8888 : Z := fourcc_code 88 82 50 52.
Definition DRM_FORMAT_XBGR8888 : Z := fourcc_code 88 66 50 52.
Definition DRM_FORMAT_RGBX8888 : Z := fourcc_code 82 88 50 52.
Definition DRM_FORMAT_BGRX8888 : Z := fourcc_code 66 88 50 52.
Definition DRM_FORMAT_RGB565_A8 : Z := fourcc_code 82 53 65 56.
Definition DRM_FORMAT_BGR565_A8 : Z := fourcc_code 66 53 65 56.
Definition DRM_FORMAT_XRGB2101010 : Z := fourcc_code 88 82 51 48.
Definition DRM_FORMAT_XBGR2101010 : Z := fourcc_code 88 66 51 48.
Definition DRM_FORMAT_RGBX1010102 : Z := fourcc_code 82 88 51 48.
Definition DRM_FORMAT_BGRX1010102 : Z := fourcc_code 66 88 51 48.
Definition DRM_FORMAT_ARGB2101010 : Z := fourcc_code 65 82 51 48.
Definition DRM_FORMAT_ABGR2101010 : Z := fourcc_code 65 66 51 48.
Definition DRM_FORMAT_RGBA1010102 : Z := fourcc_code 82 65 51 48.
Definition DRM_FORMAT_BGRA1010102 : Z := fourcc_code 66 65 51 48.
Definition DRM_FORMAT_ARGB8888 : Z := fourcc_code 65 82 50 52.
Definition DRM_FORMAT_ABGR8888 : Z := fourcc_code 65 66 50 52.
Definition DRM_FORMAT_RGBA8888 : Z := fourcc_code 82 65 50 52.
Definition DRM_FORMAT_BGRA8888 : Z := fourcc_code 66 65 50 52.
Definition DRM_FORMAT_RGB888_A8 : Z := fourcc_code 82 56 65 56.
Definition DRM_FORMAT_BGR888_A8 : Z := fourcc_code 66 56 65 56.
Definition DRM_FORMAT_XRGB8888_A8 : Z := fourcc_code 88 82 65 56.
Definition DRM_FORMAT_XBGR8888_A8 : Z := fourcc_code 88 66 65 56.
Definition DRM_FORMAT_RGBX8888_A8 : Z := fourcc_code 82 88 65 56.
Definition DRM_FORMAT_BGRX8888_A8 : Z := fourcc_code 66 88 65 56.
Definition DRM_FORMAT_YUV410 : Z := fourcc_code 89 85 86 57.
Definition DRM_FORMAT_YVU410 : Z := fourcc_code 89 86 85 57.
Definition DRM_FORMAT_YUV411 : Z := fourcc_code 89 85 49 49.
Definition DRM_FORMAT_YVU411 : Z := fourcc_code 89 86 49 49.
Definition DRM_FORMAT_YUV420 : Z := fourcc_code 89 85 49 50.
Definition DRM_FORMAT_YVU420 : Z := fourcc_code 89 86 49 50.
Definition DRM_FORMAT_YUV422 : Z := fourcc_code 89 85 49 54.
Definition DRM_FORMAT_YVU422 : Z := fourcc_code 89 86 49 54.
Definition DRM_FORMAT_YUV444 : Z := fourcc_code 89 85 50 52.
Definition DRM_FORMAT_YVU444 : Z := fourcc_code 89 86 50 52.
Definition DRM_FORMAT_NV12 : Z := fourcc_code 78 86 49 50.
Definition DRM_FORMAT_NV21 : Z := fourcc_code 78 86 50 49.
Definition DRM_FORMAT_NV16 : Z := fourcc_code 78 86 49 54.
Definition DRM_FORMAT_NV61 : Z := fourcc_code 78 86 54 49.
Definition DRM_FORMAT_NV24 : Z := fourcc_code 78 86 50 52.
Definition DRM_FORMAT_NV42 : Z := fourcc_code 78 86 52 50.
Definition DRM_FORMAT_YUYV : Z := fourcc_code 89 85 89 86.
Definition DRM_FORMAT_YVYU : Z := fourcc_code 89 86 89 85.
Definition DRM_FORMAT_UYVY : Z := fourcc_code 85 89 86 89.
Definition DRM_FORMAT_VYUY : Z := fourcc_code 86 89 85 89.
Definition DRM_FORMAT_AYUV : Z := fourcc_code 65 89 85 86.

(** [struct drm_format_info] *)
Record drm_format_info_t := {
  fi_format : Z; fi_depth : Z; fi_num_planes : Z; fi_cpp : list Z; fi_hsub : Z; fi_vsub : Z;
}.

Definition fmt_info (f d n : Z) (c : list Z) (h v : Z) : drm_format_info_t :=
  {| fi_format := f; fi_depth := d; fi_num_planes := n; fi_cpp := c; fi_hsub := h; fi_vsub := v |}.

Definition formats : list drm_format_info_t :=
  [
   fmt_info DRM_FORMAT_C8 8 1 [1; 0; 0] 1 1;
   fmt_info DRM_FORMAT_RGB332 8 1 [1; 0; 0] 1 1;
   fmt_info DRM_FORMAT_BGR233 8 1 [1; 0; 0] 1 1;
   fmt_info DRM_FORMAT_XRGB4444 0 1 [2; 0; 0] 1 1;
   fmt_info DRM_FORMAT_XBGR4444 0 1 [2; 0; 0] 1 1;
   fmt_info DRM_FORMAT_RGBX4444 0 1 [2; 0; 0] 1 1;
   fmt_info DRM_FORMAT_BGRX4444 0 1 [2; 0; 0] 1 1;
   fmt_info DRM_FORMAT_ARGB4444 0 1 [2; 0; 0] 1 1;
   fmt_info DRM_FORMAT_ABGR4444 0 1 [2; 0; 0] 1 1;
   fmt_info DRM_FORMAT_RGBA4444 0 1 [2; 0; 0] 1 1;
   fmt_info DRM_FORMAT_BGRA4444 0 1 [2; 0; 0] 1 1;
   fmt_info DRM_FORMAT_XRGB1555 15 1 [2; 0; 0] 1 1;
   fmt_info DRM_FORMAT_XBGR1555 15 1 [2; 0; 0] 1 1;
   fmt_info DRM_FORMAT_RGBX5551 15 1 [2; 0; 0] 1 1;
   fmt_info DRM_FORMAT_BGRX5551 15 1 [2; 0; 0] 1 1;
   fmt_info DRM_FORMAT_ARGB1555 15 1 [2; 0; 0] 1 1;
   fmt_info DRM_FORMAT_ABGR1555 15 1 [2; 0; 0] 1 1;
   fmt_info DRM_FORMAT_RGBA5551 15 1 [2; 0; 0] 1 1;
   fmt_info DRM_FORMAT_BGRA5551 15 1 [2; 0; 0] 1 1;
   fmt_info DRM_FORMAT_RGB565 16 1 [2; 0; 0] 1 1;
   fmt_info DRM_FORMAT_BGR565 16 1 [2; 0; 0] 1 1;
   fmt_info DRM_FORMAT_RGB888 24 1 [3; 0; 0] 1 1;
   fmt_info DRM_FORMAT_BGR888 24 1 [3; 0; 0] 1 1;
   fmt_info DRM_FORMAT_XRGB8888 24 1 [4; 0; 0] 1 1;
   fmt_info DRM_FORMAT_XBGR8888 24 1 [4; 0; 0] 1 1;
   fmt_info DRM_FORMAT_RGBX8888 24 1 [4; 0; 0] 1 1;
   fmt_info DRM_FORMAT_BGRX8888 24 1 [4; 0; 0] 1 1;
   fmt_info DRM_FORMAT_RGB565_A8 24 2 [2; 1; 0] 1 1;
   fmt_info DRM_FORMAT_BGR565_A8 24 2 [2; 1; 0] 1 1;
   fmt_info DRM_FORMAT_XRGB2101010 30 1 [4; 0; 0] 1 1;
   fmt_info DRM_FORMAT_XBGR2101010 30 1 [4; 0; 0] 1 1;
   fmt_info DRM_FORMAT_RGBX1010102 30 1 [4; 0; 0] 1 1;
   fmt_info DRM_FORMAT_BGRX1010102 30 1 [4; 0; 0] 1 1;
   fmt_info DRM_FORMAT_ARGB2101010 30 1 [4; 0; 0] 1 1;
   fmt_info DRM_FORMAT_ABGR2101010 30 1 [4; 0; 0] 1 1;
   fmt_info DRM_FORMAT_RGBA1010102 30 1 [4; 0; 0] 1 1;
   fmt_info DRM_FORMAT_BGRA1010102 30 1 [4; 0; 0] 1 1;
   fmt_info DRM_FORMAT_ARGB8888 32 1 [4; 0; 0] 1 1;
   fmt_info DRM_FORMAT_ABGR8888 32 1 [4; 0; 0] 1 1;
   fmt_info DRM_FORMAT_RGBA8888 32 1 [4; 0; 0] 1 1;
   fmt_info DRM_FORMAT_BGRA8888 32 1 [4; 0; 0] 1 1;
   fmt_info DRM_FORMAT_RGB888_A8 32 2 [3; 1; 0] 1 1;
   fmt_info DRM_FORMAT_BGR888_A8 32 2 [3; 1; 0] 1 1;
   fmt_info DRM_FORMAT_XRGB8888_A8 32 2 [4; 1; 0] 1 1;
   fmt_info DRM_FORMAT_XBGR8888_A8 32 2 [4; 1; 0] 1 1;
   fmt_info DRM_FORMAT_RGBX8888_A8 32 2 [4; 1; 0] 1 1;
   fmt_info DRM_FORMAT_BGRX8888_A8 32 2 [4; 1; 0] 1 1;
   fmt_info DRM_FORMAT_YUV410 0 3 [1; 1; 1] 4 4;
   fmt_info DRM_FORMAT_YVU410 0 3 [1; 1; 1] 4 4;
   fmt_info DRM_FORMAT_YUV411 0 3 [1; 1; 1] 4 1;
   fmt_info DRM_FORMAT_YVU411 0 3 [1; 1; 1] 4 1;
   fmt_info DRM_FORMAT_YUV420 0 3 [1; 1; 1] 2 2;
   fmt_info DRM_FORMAT_YVU420 0 3 [1; 1; 1] 2 2;
   fmt_info DRM_FORMAT_YUV422 0 3 [1; 1; 1] 2 1;
   fmt_info DRM_FORMAT_YVU422 0 3 [1; 1; 1] 2 1;
   fmt_info DRM_FORMAT_YUV444 0 3 [1; 1; 1] 1 1;
   fmt_info DRM_FORMAT_YVU444 0 3 [1; 1; 1] 1 1;
   fmt_info DRM_FORMAT_NV12 0 2 [1; 2; 0] 2 2;
   fmt_info DRM_FORMAT_NV21 0 2 [1; 2; 0] 2 2;
   fmt_info DRM_FORMAT_NV16 0 2 [1; 2; 0] 2 1;
   fmt_info DRM_FORMAT_NV61 0 2 [1; 2; 0] 2 1;
   fmt_info DRM_FORMAT_NV24 0 2 [1; 2; 0] 1 1;
   fmt_info DRM_FORMAT_NV42 0 2 [1; 2; 0] 1 1;
   fmt_info DRM_FORMAT_YUYV 0 1 [2; 0; 0] 2 1;
   fmt_info DRM_FORMAT_YVYU 0 1 [2; 0; 0] 2 1;
   fmt_info DRM_FORMAT_UYVY 0 1 [2; 0; 0] 2 1;
   fmt_info DRM_FORMAT_VYUY 0 1 [2; 0; 0] 2 1;
   fmt_info DRM_FORMAT_AYUV 0 1 [4; 0; 0] 1 1].

(** The search of [__drm_format_info] over the static table. *)
Fixpoint find_format (format : Z) (l : list drm_format_info_t) : option drm_format_info_t :=
  match l with
  | [] => None
  | i :: l' => if fi_format i =? format then Some i else find_format format l'
  end.

Definition __drm_format_info (format : Z) : option drm_format_info_t := find_format format formats.

(** [drm_format_info] warns about an unknown format and returns what it found. *)
Definition drm_format_info (format : Z) : option drm_format_info_t := __drm_format_info format.

Definition drm_mode_legacy_fb_format (bpp depth : Z) : Z :=
  if bpp =? 8 then DRM_FORMAT_C8
  else if bpp =? 16 then if depth =? 15 then DRM_FORMAT_XRGB1555 else DRM_FORMAT_RGB565
  else if bpp =? 24 then DRM_FORMAT_RGB888
  else if bpp =? 32 then
    if depth =? 24 then DRM_FORMAT_XRGB8888
    else if depth =? 30 then DRM_FORMAT_XRGB2101010
    else DRM_FORMAT_ARGB8888
  else DRM_FORMAT_XRGB8888.

Definition drm_format_num_planes (format : Z) : Z :=
  match drm_format_info format with Some info => fi_num_planes info | None => 1 end.

(** A negative plane index would read before the array. *)
Definition drm_format_plane_cpp (format plane : Z) : option Z :=
  match drm_format_info format with
  | None => Some 0
  | Some info =>
    if fi_num_planes info <=? plane then Some 0
    else if plane <? 0 then None else fi_cpp info !! Z.to_nat plane
  end.

Definition drm_format_horz_chroma_subsampling (format : Z) : Z :=
  match drm_format_info format with Some info => fi_hsub info | None => 1 end.

Definition drm_format_vert_chroma_subsampling (format : Z) : Z :=
  match drm_format_info format with Some info => fi_vsub info | None => 1 end.

Definition drm_format_plane_width (width format plane : Z) : Z :=
  match drm_format_info format with
  | None => 0
  | Some info =>
    if fi_num_planes info <=? plane then 0
    else if plane =? 0 then width else Z.quot width (fi_hsub info)
  end.

Definition drm_format_plane_height (height format plane : Z) : Z :=
  match drm_format_info format with
  | None => 0
  | Some info =>
    if fi_num_planes info <=? plane then 0
    else if plane =? 0 then height else Z.quot height (fi_vsub info)
  end.

(** ** Framebuffer requests *)

Definition fourcc_mod_code (vendor val : Z) : Z := Z.lor (Z.shiftl vendor 56) (Z.land val 0x00ffffffffffffff).
Definition DRM_FORMAT_MOD_VENDOR_INTEL : Z := 0x01.
Definition I915_FORMAT_MOD_Y_TILED_CCS : Z := fourcc_mod_code DRM_FORMAT_MOD_VENDOR_INTEL 4.
Definition I915_FORMAT_MOD_Yf_TILED_CCS : Z := fourcc_mod_code DRM_FORMAT_MOD_VENDOR_INTEL 5.

Definition DRM_MODE_FB_INTERLACED : Z := Z.shiftl 1 0.
Definition DRM_MODE_FB_MODIFIERS : Z := Z.shiftl 1 1.
Definition DRM_FORMAT_MOD_SAMSUNG_64_32_TILE : Z := Z.lor (Z.shiftl 0x04 56) 1.

Record drm_mode_fb_cmd2 := {
  fb_id : Z; fb_width : Z; fb_height : Z; pixel_format : Z; fb_flags : Z;
  handles : list Z; pitches : list Z; offsets : list Z; modifier : list Z;
}.

(** The arrays have four entries. *)
Definition at4 (l : list Z) (i : nat) : Z := default 0 (l !! i).

(** [DIV_ROUND_UP] on [int] *)
Definition DIV_ROUND_UP (x n : Z) : Z := Z.quot (s32 (x + s32 (n - 1))) n.

Definition fb_plane_width (width : Z) (format : drm_format_info_t) (plane : nat) : Z :=
  match plane with O => width | _ => DIV_ROUND_UP width (fi_hsub format) end.

Definition fb_plane_height (height : Z) (format : drm_format_info_t) (plane : nat) : Z :=
  match plane with O => height | _ => DIV_ROUND_UP height (fi_vsub format) end.

Definition drm_framebuffer_plane_width (width : Z) (format : drm_format_info_t) (plane : nat) : Z :=
  if fi_num_planes format <=? Z.of_nat plane then 0 else fb_plane_width width format plane.

Definition drm_framebuffer_plane_height (height : Z) (format : drm_format_info_t) (plane : nat) : Z :=
  if fi_num_planes format <=? Z.of_nat plane then 0 else fb_plane_height height format plane.

Section Device.

(** [dev->mode_config.funcs->get_format_info], [NULL] for most drivers. *)
Variable get_format_info : option (drm_mode_fb_cmd2 -> option drm_format_info_t).

Definition drm_get_format_info (mode_cmd : drm_mode_fb_cmd2) : option drm_format_info_t :=
  let info := match get_format_info with Some f => f mode_cmd | None => None end in
  match info with Some i => Some i | None => drm_format_info (pixel_format mode_cmd) end.

(** *** The hook of the i915 driver: an image with a plane of compression state *)

Definition ccs_formats : list drm_format_info_t :=
  [fmt_info DRM_FORMAT_XRGB8888 24 2 [4; 1; 0] 8 16;
   fmt_info DRM_FORMAT_XBGR8888 24 2 [4; 1; 0] 8 16;
   fmt_info DRM_FORMAT_ARGB8888 32 2 [4; 1; 0] 8 16;
   fmt_info DRM_FORMAT_ABGR8888 32 2 [4; 1; 0] 8 16].

(** [lookup_format_info] is the same search as that of the format table. *)
Definition lookup_format_info (formats : list drm_format_info_t) (format : Z) : option drm_format_info_t := find_format format formats.

Definition intel_get_format_info (cmd : drm_mode_fb_cmd2) : option drm_format_info_t :=
  if (at4 (modifier cmd) 0 =? I915_FORMAT_MOD_Y_TILED_CCS) || (at4 (modifier cmd) 0 =? I915_FORMAT_MOD_Yf_TILED_CCS)
  then lookup_format_info ccs_formats (pixel_format cmd) else None.

(** The checks of one used plane, in the order of the code. *)
Definition check_plane (r : drm_mode_fb_cmd2) (info : drm_format_info_t) (i : nat)
    : option (result unit) :=
  let width := u32 (fb_plane_width (s32 (fb_width r)) info i) in
  let height := u32 (fb_plane_height (s32 (fb_height r)) info i) in
  cpp ← fi_cpp info !! i;
  Some (
    if at4 (handles r) i =? 0 then Err EINVAL
    else if U32_MAX <? u64 (width * cpp) then Err ERANGE
    else if U32_MAX <? u64 (height * at4 (pitches r) i + at4 (offsets r) i) then Err ERANGE
    else if at4 (pitches r) i <? u32 (width * cpp) then Err EINVAL
    else if negb (at4 (modifier r) i =? 0) && negb (has_flag (fb_flags r) DRM_MODE_FB_MODIFIERS)
    then Err EINVAL
    else if has_flag (fb_flags r) DRM_MODE_FB_MODIFIERS
            && negb (at4 (modifier r) i =? at4 (modifier r) 0) then Err EINVAL
    else if (at4 (modifier r) i =? DRM_FORMAT_MOD_SAMSUNG_64_32_TILE)
            && (negb (pixel_format r =? DRM_FORMAT_NV12) || negb (width mod 128 =? 0)
                || negb (height mod 32 =? 0) || negb (at4 (pitches r) i mod 128 =? 0))
    then Err EINVAL
    else Ok tt).

(** The first loop: the planes from [i] on. *)
Fixpoint check_planes (r : drm_mode_fb_cmd2) (info : drm_format_info_t) (i n : nat)
    : option (result unit) :=
  match n with
  | O => Some (Ok tt)
  | S n' =>
    match check_plane r info i with
    | Some (Ok _) => check_planes r info (S i) n'
    | x => x
    end
  end.

(** The checks of one unused plane. *)
Definition check_unused (r : drm_mode_fb_cmd2) (i : nat) : result unit :=
  if negb (at4 (modifier r) i =? 0) then Err EINVAL
  else if negb (has_flag (fb_flags r) DRM_MODE_FB_MODIFIERS) then Ok tt
  else if negb (at4 (handles r) i =? 0) then Err EINVAL
  else if negb (at4 (pitches r) i =? 0) then Err EINVAL
  else if negb (at4 (offsets r) i =? 0) then Err EINVAL
  else Ok tt.

Fixpoint check_rest (r : drm_mode_fb_cmd2) (l : list nat) : result unit :=
  match l with
  | [] => Ok tt
  | i :: l' => match check_unused r i with Ok _ => check_rest r l' | e => e end
  end.

Definition framebuffer_check (r : drm_mode_fb_cmd2) : option (result unit) :=
  match __drm_format_info (Z.ldiff (pixel_format r) DRM_FORMAT_BIG_ENDIAN) with
  | None => Some (Err EINVAL)
  | Some _ =>
    let info := drm_get_format_info r in
    if fb_width r =? 0 then Some (Err EINVAL)
    else if fb_height r =? 0 then Some (Err EINVAL)
    else
      info ← info;
      let n := Z.to_nat (fi_num_planes info) in
      match check_planes r info 0 n with
      | Some (Ok _) => Some (check_rest r (seq n (4 - n)))
      | x => x
      end
  end.

(** The limits of [struct drm_mode_config] *)
Record drm_mode_config := {
  min_width : Z; max_width : Z; min_height : Z; max_height : Z; allow_fb_modifiers : bool;
}.

(** [dev->mode_config.funcs->fb_create] *)
Context {FB : Type}.
Variable fb_create : drm_mode_fb_cmd2 -> result FB.

Definition drm_internal_framebuffer_create (config : drm_mode_config) (r : drm_mode_fb_cmd2)
    : option (result FB) :=
  if negb (Z.ldiff (fb_flags r) (Z.lor DRM_MODE_FB_INTERLACED DRM_MODE_FB_MODIFIERS) =? 0)
  then Some (Err EINVAL)
  else if (fb_width r <? u32 (min_width config)) || (u32 (max_width config) <? fb_width r)
  then Some (Err EINVAL)
  else if (fb_height r <? u32 (min_height config)) || (u32 (max_height config) <? fb_height r)
  then Some (Err EINVAL)
  else if has_flag (fb_flags r) DRM_MODE_FB_MODIFIERS && negb (allow_fb_modifiers config)
  then Some (Err EINVAL)
  else
    match framebuffer_check r with
    | Some (Ok _) => Some (fb_create r)
    | Some (Err e) => Some (Err e)
    | None => None
    end.

(** [struct drm_mode_fb_cmd] *)
Record drm_mode_fb_cmd := {
  or_fb_id : Z; or_width : Z; or_height : Z; or_pitch : Z; or_bpp : Z; or_depth : Z; or_handle : Z;
}.

(** The request [drm_mode_addfb] makes of a legacy one. *)
Definition addfb_request (prefer_xbgr : bool) (or : drm_mode_fb_cmd) : drm_mode_fb_cmd2 :=
  let f := drm_mode_legacy_fb_format (or_bpp or) (or_depth or) in
  {| fb_id := or_fb_id or; fb_width := or_width or; fb_height := or_height or;
     pixel_format := if (f =? DRM_FORMAT_XRGB2101010) && prefer_xbgr then DRM_FORMAT_XBGR2101010 else f;
     fb_flags := 0; handles := [or_handle or; 0; 0; 0]; pitches := [or_pitch or; 0; 0; 0];
     offsets := [0; 0; 0; 0]; modifier := [0; 0; 0; 0] |}.

(** [drm_mode_addfb2] up to the publication of the framebuffer in the file. *)
Definition drm_mode_addfb2 (modeset : bool) (config : drm_mode_config) (r : drm_mode_fb_cmd2)
    : option (result FB) :=
  if negb modeset then Some (Err EINVAL) else drm_internal_framebuffer_create config r.

Definition drm_mode_addfb (modeset prefer_xbgr : bool) (config : drm_mode_config) (or : drm_mode_fb_cmd)
    : option (result FB) :=
  drm_mode_addfb2 modeset config (addfb_request prefer_xbgr or).

End Device.

(** [drm_framebuffer_check_src_coords]: coordinates in 16.16 fixed point *)
Definition drm_framebuffer_check_src_coords (src_x src_y src_w src_h width height : Z) : result unit :=
  let fb_width := u32 (Z.shiftl width 16) in
  let fb_height := u32 (Z.shiftl height 16) in
  if (fb_width <? src_w) || (u32 (fb_width - src_w) <? src_x)
     || (fb_height <? src_h) || (u32 (fb_height - src_h) <? src_y)
  then Err ENOSPC else Ok tt.

(** [struct drm_mode_create_dumb] *)
Record drm_mode_create_dumb := {
  db_height : Z; db_width : Z; db_bpp : Z; db_flags : Z; db_handle : Z; db_pitch : Z; db_size : Z;
}.

(** [drm_mode_create_dumb_ioctl]: [PAGE_ALIGN] and the driver's [dumb_create] are parameters. *)
Definition drm_mode_create_dumb_ioctl {A} (PAGE_ALIGN : Z -> Z)
    (dumb_create : option (drm_mode_create_dumb -> result A)) (args : drm_mode_create_dumb) : result A :=
  match dumb_create with
  | None => Err ENOSYS
  | Some create =>
    if (db_width args =? 0) || (db_height args =? 0) || (db_bpp args =? 0) then Err EINVAL
    else if U32_MAX - 8 <? db_bpp args then Err EINVAL
    else
      let cpp := u32 (u32 (db_bpp args + 7) / 8) in
      if U32_MAX / db_width args <? cpp then Err EINVAL
      else
        let stride := u32 (cpp * db_width args) in
        if U32_MAX / stride <? db_height args then Err EINVAL
        else
          let size := u32 (db_height args * stride) in
          if PAGE_ALIGN size =? 0 then Err EINVAL
          else create {| db_height := db_height args; db_width := db_width args; db_bpp := db_bpp args;
                         db_flags := db_flags args; db_handle := 0; db_pitch := 0; db_size := 0 |}
  end.

(** ** The format table *)

(** A format description is usable: one to three planes, and for each of them a pixel size of a byte that is not 0, and subsampling by a
    byte that is not 0. *)
Definition usable_info (i : drm_format_info_t) : bool :=
  let n := fi_num_planes i in
  (1 <=? n) && (n <=? 3) && (1 <=? fi_hsub i) && (fi_hsub i <? 256) && (1 <=? fi_vsub i) && (fi_vsub i <? 256)
  && (Z.to_nat n <=? length (fi_cpp i))%nat && forallb (fun c => (1 <=? c) && (c <? 256)) (take (Z.to_nat n) (fi_cpp i)).

(** Those of the table have a code without the endianness bit, too. *)
Definition info_ok (i : drm_format_info_t) : bool := usable_info i && (0 <=? fi_format i) && (fi_format i <? 2 ^ 31).

Lemma formats_ok : forallb info_ok formats = true.
Proof. vm_compute. reflexivity. Qed.

Lemma find_format_in f l i : find_format f l = Some i -> i ∈ l /\ fi_format i = f.
Proof.
  induction l as [|j l IH]; simpl; [done|]. destruct (fi_format j =? f) eqn:E.
  - intros [= ->]. split; [by left|lia].
  - intros H. destruct (IH H). split; [by right|done].
Qed.

Lemma drm_format_info_ok f i : drm_format_info f = Some i -> info_ok i = true /\ fi_format i = f.
Proof.
  intros H. apply find_format_in in H as [Hi Hf]. split; [|done].
  pose proof formats_ok as Ht. rewrite forallb_forall in Ht. apply Ht. by apply list_elem_of_In.
Qed.

Lemma info_ok_usable i : info_ok i = true -> usable_info i = true /\ 0 <= fi_format i < 2 ^ 31.
Proof. unfold info_ok. intros H. destruct (usable_info i); [|done]. lia. Qed.

Lemma usable_planes i : usable_info i = true ->
  1 <= fi_num_planes i <= 3 /\ 1 <= fi_hsub i < 256 /\ 1 <= fi_vsub i < 256 /\
  forall k, (k < Z.to_nat (fi_num_planes i))%nat -> exists c, fi_cpp i !! k = Some c /\ 0 < c < 256.
Proof.
  unfold usable_info. cbv zeta. intros H. apply andb_prop in H as [H Hc]. apply andb_prop in H as [H Hl%Nat.leb_le]. split; [lia|]. split; [lia|]. split; [lia|]. intros k Hk.
  destruct (lookup_lt_is_Some_2 (fi_cpp i) k) as [c Ec]; [lia|]. exists c. split; [done|]. rewrite forallb_forall in Hc. specialize (Hc c).
  assert (In c (take (Z.to_nat (fi_num_planes i)) (fi_cpp i))) as Hin
    by (apply list_elem_of_In, list_elem_of_lookup; exists k; by rewrite lookup_take_lt).
  specialize (Hc Hin). lia.
Qed.

(** The descriptions of the pairs of bits per pixel and depth that legacy clients use: the
    format chosen for them exists, has one plane, and has this depth and pixel size. *)
Lemma drm_mode_legacy_fb_format_ok bpp depth :
  (bpp, depth) ∈ [(8, 8); (16, 15); (16, 16); (24, 24); (32, 24); (32, 30); (32, 32)] ->
  let f := drm_mode_legacy_fb_format bpp depth in
  exists info cpp, drm_format_info f = Some info /\ fi_depth info = depth /\
    drm_format_num_planes f = 1 /\ drm_format_plane_cpp f 0 = Some cpp /\ 8 * cpp = bpp.
Proof.
  intros H. repeat (apply elem_of_cons in H as [H|H]; [injection H as -> ->; vm_compute; eauto 10|]).
  by apply elem_of_nil in H.
Qed.

Lemma drm_mode_legacy_fb_format_ok_witness :
  exists info cpp, drm_format_info (drm_mode_legacy_fb_format 32 30) = Some info /\ fi_depth info = 30 /\
    drm_format_num_planes (drm_mode_legacy_fb_format 32 30) = 1 /\
    drm_format_plane_cpp (drm_mode_legacy_fb_format 32 30) 0 = Some cpp /\ 8 * cpp = 32.
Proof. apply (drm_mode_legacy_fb_format_ok 32 30). apply (bool_decide_unpack _). vm_compute. exact I. Defined.

(** ** Accepted framebuffers *)

Definition all_u32 (l : list Z) : Prop := length l = 4%nat /\ Forall is_u32 l.

(** A request as it arrives: every field has its C type. *)
Record cmd_ok (r : drm_mode_fb_cmd2) : Prop := {
  ck_width : is_u32 (fb_width r); ck_height : is_u32 (fb_height r);
  ck_format : is_u32 (pixel_format r);
  ck_handles : all_u32 (handles r); ck_pitches : all_u32 (pitches r); ck_offsets : all_u32 (offsets r);
}.

(** The size of plane [i] in samples: subsampled, rounded up. *)
Definition plane_size (x sub : Z) (i : nat) : Z :=
  match i with O => x | _ => (x + sub - 1) / sub end.

Lemma at4_u32 l i : all_u32 l -> is_u32 (at4 l i).
Proof.
  intros [_ H]. unfold at4. destruct (l !! i) eqn:E; simpl.
  - by eapply Forall_lookup in H.
  - unfold is_u32. lia.
Qed.

Lemma div_round_up_eq x n : 0 <= x <= 2 ^ 30 -> 1 <= n < 256 ->
  DIV_ROUND_UP x n = (x + n - 1) / n.
Proof.
  intros Hx Hn. unfold DIV_ROUND_UP. rewrite !s32_small by (unfold is_s32; rewrite ?s32_small; unfold is_s32; lia).
  rewrite Z.quot_div_nonneg by lia. f_equal. lia.
Qed.

Lemma plane_width_eq x info i : 0 <= x <= 2 ^ 30 -> usable_info info = true ->
  u32 (fb_plane_width (s32 x) info i) = plane_size x (fi_hsub info) i /\
  u32 (fb_plane_height (s32 x) info i) = plane_size x (fi_vsub info) i /\
  0 <= plane_size x (fi_hsub info) i <= 2 ^ 30 /\ 0 <= plane_size x (fi_vsub info) i <= 2 ^ 30.
Proof.
  intros Hx Hi. apply usable_planes in Hi as (_ & Hh & Hv & _).
  rewrite s32_small by (unfold is_s32; lia).
  assert (forall n, 1 <= n < 256 -> 0 <= (x + n - 1) / n <= 2 ^ 30) as Hb.
  { intros n Hn. split; [apply Z.div_pos; lia|]. apply Z.div_le_upper_bound; nia. }
  destruct i; cbn [fb_plane_width fb_plane_height plane_size].
  - rewrite u32_small by (unfold is_u32; lia). lia.
  - rewrite !div_round_up_eq by done. pose proof (Hb _ Hh). pose proof (Hb _ Hv).
    rewrite !u32_small by (unfold is_u32; lia). done.
Qed.

(** What [check_plane] has established about a plane it accepts. *)
Record plane_ok (r : drm_mode_fb_cmd2) (info : drm_format_info_t) (i : nat) (cpp : Z) : Prop := {
  pk_handle : at4 (handles r) i <> 0;
  pk_pitch : plane_size (fb_width r) (fi_hsub info) i * cpp <= at4 (pitches r) i;
  pk_end : at4 (offsets r) i + plane_size (fb_height r) (fi_vsub info) i * at4 (pitches r) i <= U32_MAX;
}.

Lemma check_plane_ok r info i cpp :
  cmd_ok r -> fb_width r <= 2 ^ 30 -> fb_height r <= 2 ^ 30 -> usable_info info = true ->
  fi_cpp info !! i = Some cpp -> 0 < cpp < 256 ->
  check_plane r info i = Some (Ok tt) -> plane_ok r info i cpp.
Proof.
  intros Hr Hw Hh Hi Hc Hcpp. unfold check_plane.
  destruct (plane_width_eq (fb_width r) info i) as (-> & _ & Hpw & _); [destruct Hr; unfold is_u32 in *; lia|done|].
  destruct (plane_width_eq (fb_height r) info i) as (_ & -> & _ & Hph); [destruct Hr; unfold is_u32 in *; lia|done|].
  rewrite Hc. cbn [mbind option_bind].
  pose proof (at4_u32 _ i (ck_pitches r Hr)) as Hp. pose proof (at4_u32 _ i (ck_offsets r Hr)) as Ho.
  unfold is_u32, U32_MAX in *.
  set (w := plane_size (fb_width r) (fi_hsub info) i) in *. set (h := plane_size (fb_height r) (fi_vsub info) i) in *.
  assert (0 <= w * cpp <= 2 ^ 30 * 255) by nia.
  assert (0 <= h * at4 (pitches r) i <= 2 ^ 30 * (2 ^ 32 - 1)) by nia.
  rewrite !u64_small by (unfold is_u64; lia).
  intros Hres. repeat (case_match; [done|]).
  rewrite u32_small in * by (unfold is_u32; lia). split; [lia..|]. unfold U32_MAX. lia.
Qed.

Lemma check_planes_ok r info n : forall i,
  check_planes r info i n = Some (Ok tt) ->
  forall k, (i <= k < i + n)%nat -> check_plane r info k = Some (Ok tt).
Proof.
  induction n as [|n IH]; intros i H k Hk; [lia|]. simpl in H.
  destruct (check_plane r info i) as [[[]|e]|] eqn:E; try done.
  destruct (decide (k = i)) as [->|]; [done|]. apply (IH (S i) H). lia.
Qed.

(** What the hook of i915 describes is usable. *)
Lemma intel_hook_ok f r i : Some intel_get_format_info = Some f -> f r = Some i -> usable_info i = true.
Proof.
  intros [= <-]. unfold intel_get_format_info. destruct (_ || _); [|done]. intros H. apply find_format_in in H as [Hi _].
  assert (forallb usable_info ccs_formats = true) as Ht by (vm_compute; reflexivity). rewrite forallb_forall in Ht. apply Ht. by apply list_elem_of_In.
Qed.

Section Created.
Variable get_format_info : option (drm_mode_fb_cmd2 -> option drm_format_info_t).

(** Descriptions from the driver, if it has any of its own, are usable, like those of the table. *)
Hypothesis hook_ok : forall f r i, get_format_info = Some f -> f r = Some i -> usable_info i = true.

Lemma get_format_info_ok r i : drm_get_format_info get_format_info r = Some i -> usable_info i = true.
Proof.
  unfold drm_get_format_info. destruct get_format_info as [f|] eqn:Ef.
  - destruct (f r) eqn:E; [|intros H; by destruct (drm_format_info_ok _ _ H) as [[]%info_ok_usable _]]. intros [= ->].
    by apply (hook_ok f r).
  - intros H. by destruct (drm_format_info_ok _ _ H) as [[]%info_ok_usable _].
Qed.

Lemma framebuffer_check_ok r :
  cmd_ok r -> fb_width r <= 2 ^ 30 -> fb_height r <= 2 ^ 30 ->
  framebuffer_check get_format_info r = Some (Ok tt) ->
  fb_width r <> 0 /\ fb_height r <> 0 /\
  exists info, drm_get_format_info get_format_info r = Some info /\
    forall i, (i < Z.to_nat (fi_num_planes info))%nat ->
      exists cpp, fi_cpp info !! i = Some cpp /\ 0 < cpp /\ plane_ok r info i cpp.
Proof.
  intros Hr Hw Hh. unfold framebuffer_check.
  destruct (__drm_format_info _); [|done].
  destruct (fb_width r =? 0) eqn:Ew; [done|]. destruct (fb_height r =? 0) eqn:Eh; [done|].
  destruct (drm_get_format_info get_format_info r) as [info|] eqn:Ei; [|done]. cbn [mbind option_bind].
  destruct (check_planes r info 0 _) as [[[]|e]|] eqn:Ec; [|done..]. intros _.
  split; [lia|]. split; [lia|]. exists info. split; [done|]. intros i Hi.
  pose proof (get_format_info_ok r info Ei) as Hok.
  destruct (usable_planes info Hok) as (_ & _ & _ & Hcpp). destruct (Hcpp i Hi) as (c & Hc & Hcb).
  exists c. split; [done|]. split; [lia|]. apply check_plane_ok; try done.
  apply (check_planes_ok r info _ 0 Ec). lia.
Qed.

(** C36: on a device that limits framebuffers to 2^30 pixels in each direction, and whose own format descriptions, if it has any, have one to
    three planes with a pixel size of 1 to 255 bytes and a subsampling of 1 to 255: a framebuffer that the driver is asked to create
    has a handle for every plane, rows that fit the pitch, and each of its bytes, at
    [offset + y * pitch + x * cpp + b], has a 32-bit address inside the plane's [height * pitch] bytes: nothing in the
    size computation has wrapped around, whatever the user sent. *)
Theorem drm_framebuffer_create_bounds {FB} (fb_create : drm_mode_fb_cmd2 -> result FB) config r fb :
  cmd_ok r -> 0 <= max_width config <= 2 ^ 30 -> 0 <= max_height config <= 2 ^ 30 ->
  drm_internal_framebuffer_create get_format_info fb_create config r = Some (Ok fb) ->
  fb_create r = Ok fb /\ exists info, drm_get_format_info get_format_info r = Some info /\
    forall i, (i < Z.to_nat (fi_num_planes info))%nat ->
      exists cpp, fi_cpp info !! i = Some cpp /\ at4 (handles r) i <> 0 /\
        let w := plane_size (fb_width r) (fi_hsub info) i in
        let h := plane_size (fb_height r) (fi_vsub info) i in
        let addr x y b := at4 (offsets r) i + y * at4 (pitches r) i + x * cpp + b in
        0 < w /\ 0 < h /\
        forall x y b, 0 <= x < w -> 0 <= y < h -> 0 <= b < cpp ->
          at4 (offsets r) i + y * at4 (pitches r) i <= addr x y b /\
          addr x y b < at4 (offsets r) i + (y + 1) * at4 (pitches r) i /\ addr x y b < 2 ^ 32.
Proof.
  intros Hr Hmw Hmh. unfold drm_internal_framebuffer_create. case_match; [done|].
  destruct (_ || _) eqn:Ew; [done|]. destruct (_ || _) eqn:Eh in |- *; [done|]. case_match; [done|].
  rewrite (u32_small (max_width config)) in Ew by (unfold is_u32; lia).
  rewrite (u32_small (max_height config)) in Eh by (unfold is_u32; lia).
  destruct (framebuffer_check get_format_info r) as [[[]|e]|] eqn:Ec; [|done..]. intros [= Hf].
  split; [done|]. destruct (framebuffer_check_ok r Hr) as (Hw0 & Hh0 & info & Hinfo & Hp); [lia..|done|].
  exists info. split; [done|]. intros i Hi. destruct (Hp i Hi) as (cpp & Hc & Hcpp & [Hhd Hpi Hend]).
  exists cpp. split; [done|]. split; [done|]. cbv zeta.
  destruct (usable_planes info (get_format_info_ok r info Hinfo)) as (_ & Hh & Hv & _).
  destruct Hr as [Hrw Hrh _ _ Hrp _]. pose proof (at4_u32 _ i Hrp) as Hpu. unfold is_u32, U32_MAX in *.
  assert (forall x sub, 0 < x -> 1 <= sub < 256 -> 0 < plane_size x sub i) as Hpos.
  { intros x sub Hx Hs. destruct i; simpl; [done|]. apply Z.div_str_pos. lia. }
  split; [apply Hpos; [lia|done]|]. split; [apply Hpos; [lia|done]|].
  intros x y b Hx Hy Hb. split; [nia|]. split; nia.
Qed.

End Created.

(** ** Big-endian requests *)

Lemma ldiff_bit31 x : is_u32 x -> Z.ldiff x DRM_FORMAT_BIG_ENDIAN = x mod 2 ^ 31.
Proof.
  intros Hx. unfold DRM_FORMAT_BIG_ENDIAN. rewrite <- Z.land_ones by lia.
  apply Z.bits_inj'. intros n Hn. rewrite Z.ldiff_spec, Z.land_spec, Z.pow2_bits_eqb by lia.
  rewrite Z.testbit_ones_nonneg by lia. destruct (31 =? n) eqn:E31; simpl.
  - replace (n <? 31) with false by lia. by rewrite !andb_false_r.
  - destruct (n <? 31) eqn:E; [done|]. rewrite andb_true_r, andb_false_r.
    unfold is_u32 in Hx. rewrite <- (Z.mod_small x (2 ^ 32)) by lia. apply Z.mod_pow2_bits_high. lia.
Qed.

Lemma testbit31 x : is_u32 x -> Z.testbit x 31 = (2 ^ 31 <=? x).
Proof.
  intros Hx. unfold is_u32 in Hx. destruct (2 ^ 31 <=? x) eqn:E.
  - apply Z.testbit_true; [lia|]. replace (x / 2 ^ 31) with 1 by (Z.div_mod_to_equations; lia). done.
  - apply Z.testbit_false; [lia|]. rewrite Z.div_small by lia. done.
Qed.

Lemma check_planes_some r info n : forall i,
  (forall k, (i <= k < i + n)%nat -> is_Some (fi_cpp info !! k)) -> is_Some (check_planes r info i n).
Proof.
  induction n as [|n IH]; intros i H; simpl; [eauto|].
  unfold check_plane at 1. destruct (H i) as [c ->]; [lia|]. cbn [mbind option_bind].
  match goal with |- is_Some (match ?x with _ => _ end) => destruct x as [[]|e] end; [|eauto].
  apply IH. intros k Hk. apply H. lia.
Qed.

(** For a driver without its own format descriptions, [framebuffer_check] of a request with
    non-zero size and a supported format dereferences a null pointer exactly when the request
    sets the big-endian bit: the bit is masked out for the first lookup only. *)
Theorem framebuffer_check_null_iff_big_endian r info :
  cmd_ok r -> fb_width r <> 0 -> fb_height r <> 0 ->
  __drm_format_info (Z.ldiff (pixel_format r) DRM_FORMAT_BIG_ENDIAN) = Some info ->
  framebuffer_check None r = None <-> Z.testbit (pixel_format r) 31 = true.
Proof.
  intros Hr Hw Hh Hf. pose proof (ck_format r Hr) as Hu. rewrite testbit31 by done.
  unfold framebuffer_check. rewrite Hf. replace (fb_width r =? 0) with false by lia.
  replace (fb_height r =? 0) with false by lia. unfold drm_get_format_info.
  rewrite ldiff_bit31 in Hf by done. unfold is_u32 in Hu. destruct (2 ^ 31 <=? pixel_format r) eqn:E.
  - destruct (drm_format_info (pixel_format r)) as [j|] eqn:Ej; [|done].
    destruct (drm_format_info_ok _ _ Ej) as [Hj Hjf]. apply info_ok_usable in Hj as [_ Hj]. lia.
  - rewrite Z.mod_small in Hf by lia. change (__drm_format_info) with drm_format_info in Hf. rewrite Hf. cbn [mbind option_bind].
    destruct (drm_format_info_ok _ _ Hf) as [Hi _]. apply info_ok_usable in Hi as [Hi _]. apply usable_planes in Hi as (_ & _ & _ & Hc).
    destruct (check_planes_some r info (Z.to_nat (fi_num_planes info)) 0) as [res ->].
    { intros k Hk. destruct (Hc k) as (c & -> & _); [lia|eauto]. }
    split; [|done]. by destruct res as [[]|].
Qed.

(** ** Source coordinates *)

(** For a framebuffer of less than 65536 x 65536 pixels the source rectangle is accepted
    exactly when it lies inside the framebuffer, also when its coordinates would overflow. *)
Theorem drm_framebuffer_check_src_coords_exact x y w h width height :
  is_u32 x -> is_u32 y -> is_u32 w -> is_u32 h -> is_u16 width -> is_u16 height ->
  drm_framebuffer_check_src_coords x y w h width height =
  if decide (x + w <= width * 2 ^ 16 /\ y + h <= height * 2 ^ 16) then Ok tt else Err ENOSPC.
Proof.
  unfold is_u32, is_u16, drm_framebuffer_check_src_coords. intros Hx Hy Hw Hh Hfw Hfh.
  rewrite !Z.shiftl_mul_pow2 by lia. rewrite !(u32_small (_ * _)) by (unfold is_u32; lia).
  destruct (width * 2 ^ 16 <? w) eqn:E1; simpl; [case_decide; [lia|done]|].
  rewrite (u32_small (width * 2 ^ 16 - w)) by (unfold is_u32; lia).
  destruct (height * 2 ^ 16 <? h) eqn:E2; simpl.
  { rewrite orb_true_r. simpl. case_decide; [lia|done]. }
  rewrite (u32_small (height * 2 ^ 16 - h)) by (unfold is_u32; lia). rewrite orb_false_r.
  destruct (_ || _) eqn:E; case_decide; (done || lia).
Qed.

(** ** Dumb buffers *)

(** Whenever the driver is asked to create a dumb buffer, the line length and the size that
    32-bit arithmetic computes are the true ones, the page-aligned size is not zero, and the
    output fields are cleared. *)
Theorem drm_mode_create_dumb_no_wrap {A} PAGE_ALIGN (create : drm_mode_create_dumb -> result A) args a :
  is_u32 (db_width args) -> is_u32 (db_height args) -> is_u32 (db_bpp args) ->
  drm_mode_create_dumb_ioctl PAGE_ALIGN (Some create) args = Ok a ->
  let cpp := (db_bpp args + 7) / 8 in
  let size := db_height args * (cpp * db_width args) in
  0 < size <= U32_MAX /\ PAGE_ALIGN size <> 0 /\ db_bpp args <= 8 * cpp < db_bpp args + 8 /\
  exists args', create args' = Ok a /\ db_width args' = db_width args /\ db_height args' = db_height args /\
    db_bpp args' = db_bpp args /\ db_handle args' = 0 /\ db_pitch args' = 0 /\ db_size args' = 0.
Proof.
  unfold is_u32, drm_mode_create_dumb_ioctl, U32_MAX. intros Hw Hh Hb.
  destruct (_ || _) eqn:E0; [done|]. destruct (_ <? db_bpp args) eqn:E1; [done|].
  rewrite (u32_small (db_bpp args + 7)) by (unfold is_u32; lia).
  assert (0 < (db_bpp args + 7) / 8 < 2 ^ 32) as Hc by (Z.div_mod_to_equations; lia).
  assert (db_bpp args <= 8 * ((db_bpp args + 7) / 8) < db_bpp args + 8) as Hc8 by (Z.div_mod_to_equations; lia).
  rewrite (u32_small (_ / 8)) by (unfold is_u32; lia). set (cpp := (db_bpp args + 7) / 8) in *.
  assert (forall a b, 0 < a -> 0 <= b <= (2 ^ 32 - 1) / a -> a * b <= 2 ^ 32 - 1) as Hdiv.
  { intros p q Hp Hq. pose proof (Z.mul_div_le (2 ^ 32 - 1) p Hp). nia. }
  destruct (_ <? cpp) eqn:E2; [done|]. pose proof (Hdiv (db_width args) cpp ltac:(lia) ltac:(lia)) as H1.
  rewrite (u32_small (cpp * db_width args)) by (unfold is_u32; nia).
  destruct (_ <? db_height args) eqn:E3; [done|].
  pose proof (Hdiv (cpp * db_width args) (db_height args) ltac:(nia) ltac:(lia)) as H2.
  rewrite (u32_small (db_height args * _)) by (unfold is_u32; nia).
  destruct (PAGE_ALIGN _ =? 0) eqn:E4; [done|]. intros Hcr. cbv zeta. split; [nia|]. split; [lia|]. split; [done|].
  eexists; split; [exact Hcr|]. done.
Qed.

(** ** Instances *)

(** Bounds on closed terms. *)
Ltac word_eval := split; vm_compute; (reflexivity || discriminate).

Lemma sample_cmd_ok pf : is_u32 pf -> cmd_ok
  {| fb_id := 0; fb_width := 1921; fb_height := 1080; pixel_format := pf; fb_flags := 0;
     handles := [5; 5; 0; 0]; pitches := [2048; 2048; 0; 0]; offsets := [0; 2211840; 0; 0];
     modifier := [0; 0; 0; 0] |}.
Proof.
  intros H. split; [word_eval|word_eval|exact H|..];
    (split; [reflexivity|repeat first [apply Forall_nil_2 | apply Forall_cons_2; [word_eval|]]]).
Qed.

(** A 1920 x 1080 image in tiles of i915 with its compression state. *)
Definition sample_ccs : drm_mode_fb_cmd2 :=
  {| fb_id := 0; fb_width := 1920; fb_height := 1080; pixel_format := DRM_FORMAT_XRGB8888; fb_flags := DRM_MODE_FB_MODIFIERS;
     handles := [5; 5; 0; 0]; pitches := [7680; 256; 0; 0]; offsets := [0; 8355840; 0; 0];
     modifier := [I915_FORMAT_MOD_Y_TILED_CCS; I915_FORMAT_MOD_Y_TILED_CCS; 0; 0] |}.

Definition modifier_config : drm_mode_config :=
  {| min_width := 0; max_width := 8192; min_height := 0; max_height := 8192; allow_fb_modifiers := true |}.

Lemma drm_framebuffer_create_bounds_witness :
  exists info cpp, drm_get_format_info (Some intel_get_format_info) sample_ccs = Some info /\ fi_cpp info !! 1%nat = Some cpp /\
    at4 (handles sample_ccs) 1 <> 0 /\ plane_size 1920 (fi_hsub info) 1 = 240 /\ plane_size 1080 (fi_vsub info) 1 = 68 /\
    at4 (offsets sample_ccs) 1 + 67 * at4 (pitches sample_ccs) 1 + 239 * cpp < 2 ^ 32.
Proof.
  destruct (drm_framebuffer_create_bounds (Some intel_get_format_info) intel_hook_ok (fun _ => Ok tt) modifier_config
    sample_ccs tt) as (_ & info & Hi & Hp).
  - split; [word_eval|word_eval|word_eval|..];
      (split; [reflexivity|repeat first [apply Forall_nil_2 | apply Forall_cons_2; [word_eval|]]]).
  - word_eval.
  - word_eval.
  - vm_compute. reflexivity.
  - pose proof Hi as Hi'. vm_compute in Hi'. injection Hi' as <-.
    destruct (Hp 1%nat) as (cpp & Hc & Hh & _ & _ & Hb); [apply (bool_decide_unpack _); vm_compute; exact I|].
    eexists _, cpp. split; [exact Hi|]. split; [exact Hc|]. split; [exact Hh|]. split; [vm_compute; reflexivity|]. split; [vm_compute; reflexivity|].
    destruct (Hb 239 67 0) as (_ & _ & H); [split; vm_compute; (discriminate||reflexivity)..| |rewrite Z.add_0_r in H; exact H].
    cbn in Hc. injection Hc as <-. lia.
Defined.

Lemma framebuffer_check_null_iff_big_endian_witness :
  framebuffer_check None
    {| fb_id := 0; fb_width := 1921; fb_height := 1080;
       pixel_format := Z.lor DRM_FORMAT_NV12 DRM_FORMAT_BIG_ENDIAN; fb_flags := 0;
       handles := [5; 5; 0; 0]; pitches := [2048; 2048; 0; 0]; offsets := [0; 2211840; 0; 0];
       modifier := [0; 0; 0; 0] |} = None.
Proof.
  eapply framebuffer_check_null_iff_big_endian.
  - apply sample_cmd_ok. word_eval.
  - discriminate.
  - discriminate.
  - vm_compute. reflexivity.
  - vm_compute. reflexivity.
Defined.

Lemma drm_framebuffer_check_src_coords_exact_witness :
  drm_framebuffer_check_src_coords (2 ^ 32 - 65536) 0 131072 65536 1920 1080 = Err ENOSPC.
Proof. rewrite drm_framebuffer_check_src_coords_exact by word_eval. vm_compute. reflexivity. Defined.

Lemma drm_mode_create_dumb_no_wrap_witness :
  0 < 1080 * ((32 + 7) / 8 * 1920) <= U32_MAX.
Proof.
  apply (drm_mode_create_dumb_no_wrap (fun x => (x + 4095) / 4096 * 4096) (fun _ => Ok tt)
    {| db_height := 1080; db_width := 1920; db_bpp := 32; db_flags := 0; db_handle := 9; db_pitch := 9;
       db_size := 9 |} tt).
  - word_eval.
  - word_eval.
  - word_eval.
  - vm_compute. reflexivity.
Defined.
