(* ===== verification/Hashtab.v ===== *)
(** * The hash table ([drm_hashtab.c], [linux/hash.h])

    Chained hashing with each chain sorted by key.  An item is an identifier (a
    C pointer) together with the key stored in it; a chain is the list of its
    items.  [hash32_buf] is the host kernel's hash function, a parameter that
    returns a 32-bit number.  [None] is an access to a table that is not
    allocated or outside it.

    Theorems: the table implements a finite map from keys to items, for any
    sequence of operations, including the search for an unused key; and the
    hash function of this port puts every key into the same chain. *)

From S2P Require Import Prelude.
From stdpp Require Import base gmap list option sets sorting.
From Stdlib Require Import ZArith Lia.

#[local] Set Warnings "-clear-no-such-hyp".

#[local] Open Scope Z_scope.

Section Hashtab.

(** [hash32_buf(&val, sizeof(val), bits)] of the host kernel *)
Variable hash32_buf : Z -> Z -> Z.
Hypothesis hash32_buf_u32 : forall val bits, is_u32 (hash32_buf val bits).

Definition hash_64 (val bits : Z) : Z := Z.shiftr (hash32_buf val bits) (64 - bits).

(** [BITS_PER_LONG == 64] *)
Definition hash_long (val bits : Z) : Z := hash_64 val bits.

(** An item in a chain, with its key. *)
Definition entry : Type := nat * Z.

Record drm_open_hash := { ht_order : Z; ht_table : option (list (list entry)) }.

(** [oom]: the allocation fails. *)
Definition drm_ht_create (oom : bool) (order : Z) : result drm_open_hash :=
  let size := u32 (Z.shiftl 1 order) in
  if oom then Err ENOMEM
  else Ok {| ht_order := u8 order; ht_table := Some (replicate (Z.to_nat size) []) |}.

Definition h_list (ht : drm_open_hash) (key : Z) : option (list entry) :=
  table ← ht_table ht; table !! Z.to_nat (hash_long key (ht_order ht)).

Definition set_h_list (ht : drm_open_hash) (key : Z) (l : list entry) : drm_open_hash :=
  {| ht_order := ht_order ht;
     ht_table := table ← ht_table ht; Some (<[Z.to_nat (hash_long key (ht_order ht)) := l]> table) |}.

(** The loop of [drm_ht_find_key] and [drm_ht_find_key_rcu] *)
Fixpoint find_in (key : Z) (l : list entry) : option nat :=
  match l with
  | [] => None
  | (i, k) :: l' => if k =? key then Some i else if key <? k then None else find_in key l'
  end.

Definition drm_ht_find_key (ht : drm_open_hash) (key : Z) : option (option nat) :=
  l ← h_list ht key; Some (find_in key l).

Definition drm_ht_find_item (ht : drm_open_hash) (key : Z) : option (result nat) :=
  r ← drm_ht_find_key ht key;
  Some match r with Some i => Ok i | None => Err EINVAL end.

(** The walk of [drm_ht_insert_item]: behind the last smaller key. *)
Fixpoint insert_in (item : nat) (key : Z) (l : list entry) : result (list entry) :=
  match l with
  | [] => Ok [(item, key)]
  | (i, k) :: l' =>
    if k =? key then Err EINVAL
    else if key <? k then Ok ((item, key) :: l)
    else match insert_in item key l' with Ok r => Ok ((i, k) :: r) | Err e => Err e end
  end.

Definition drm_ht_insert_item (item : nat) (key : Z) (ht : drm_open_hash) : option (result drm_open_hash) :=
  l ← h_list ht key;
  Some match insert_in item key l with Ok l' => Ok (set_h_list ht key l') | Err e => Err e end.

(** The [do ... while] of [drm_ht_just_insert_please]; the key space has [2 ^ bits] elements. *)
Fixpoint please_loop (fuel : nat) (item : nat) (unshifted_key first mask shift add : Z)
    (ht : drm_open_hash) : option (result (Z * drm_open_hash)) :=
  match fuel with
  | O => None
  | S fuel' =>
    let key := u64 (u64 (Z.shiftl unshifted_key shift) + add) in
    match drm_ht_insert_item item key ht with
    | None => None
    | Some (Ok ht') => Some (Ok (key, ht'))
    | Some (Err _) =>
      let unshifted_key := Z.land (u64 (unshifted_key + 1)) mask in
      if unshifted_key =? first then Some (Err EINVAL)
      else please_loop fuel' item unshifted_key first mask shift add ht
    end
  end.

Definition drm_ht_just_insert_please (item : nat) (seed bits shift add : Z) (ht : drm_open_hash)
    : option (result (Z * drm_open_hash)) :=
  let mask := u64 (u64 (Z.shiftl 1 bits) - 1) in
  let first := hash_long seed bits in
  please_loop (Z.to_nat (2 ^ bits)) item first first mask shift add ht.

(** [hlist_del_init_rcu] of an item in a chain *)
Definition hlist_del (item : nat) (l : list entry) : list entry := filter (fun e => e.1 <> item) l.

Definition drm_ht_remove_key (key : Z) (ht : drm_open_hash) : option (result drm_open_hash) :=
  r ← drm_ht_find_key ht key;
  match r with
  | Some item => l ← h_list ht key; Some (Ok (set_h_list ht key (hlist_del item l)))
  | None => Some (Err EINVAL)
  end.

(** The item unlinks itself from whatever chain it is in. *)
Definition drm_ht_remove_item (item : nat) (ht : drm_open_hash) : drm_open_hash :=
  {| ht_order := ht_order ht; ht_table := table ← ht_table ht; Some (map (hlist_del item) table) |}.

Definition drm_ht_remove (ht : drm_open_hash) : drm_open_hash :=
  {| ht_order := ht_order ht; ht_table := None |}.

(** ** The hash function *)

Lemma hash_long_range val bits : 0 < bits <= 64 -> 0 <= hash_long val bits < 2 ^ bits.
Proof.
  intros Hb. unfold hash_long, hash_64. pose proof (hash32_buf_u32 val bits) as Hh. unfold is_u32 in Hh.
  rewrite Z.shiftr_div_pow2 by lia. split; [apply Z.div_pos; lia|].
  apply Z.div_lt_upper_bound; [lia|]. rewrite <- Z.pow_add_r by lia.
  replace (64 - bits + bits) with 64 by lia. lia.
Qed.

(** The hash function of this port widens a 32-bit hash to 64 bits and keeps the top bits,
    which are zero: for every table of up to [2 ^ 32] chains all keys fall into chain 0. *)
Theorem hash_long_degenerate key order : 0 < order <= 32 -> hash_long key order = 0.
Proof.
  intros Ho. unfold hash_long, hash_64. pose proof (hash32_buf_u32 key order) as Hh. unfold is_u32 in Hh.
  rewrite Z.shiftr_div_pow2 by lia. apply Z.div_small. split; [lia|].
  eapply Z.lt_le_trans; [apply Hh|]. apply Z.pow_le_mono_r; lia.
Qed.

(** ** Chains *)

Definition keys_sorted (l : list entry) : Prop := StronglySorted (fun a b => a.2 < b.2) l.

Lemma find_in_spec key l i : keys_sorted l -> find_in key l = Some i <-> (i, key) ∈ l.
Proof.
  induction l as [|[j k] l IH]; intros Hs; simpl.
  { split; [done|]. by intros ?%elem_of_nil. }
  apply StronglySorted_inv in Hs as [Hs Hk]. rewrite Forall_forall in Hk. rewrite elem_of_cons.
  destruct (k =? key) eqn:E1.
  - assert (k = key) as -> by lia. split; [intros [= ->]; by left|].
    intros [[= ->]|H]; [done|]. apply Hk in H. simpl in H. lia.
  - destruct (key <? k) eqn:E2.
    + split; [done|]. intros [[= -> ->]|H]; [lia|]. apply Hk in H. simpl in H. lia.
    + rewrite IH by done. split; [by right|]. intros [[= -> ->]|H]; [lia|done].
Qed.

Lemma insert_in_spec item key l : keys_sorted l ->
  match insert_in item key l with
  | Ok l' => find_in key l = None /\ keys_sorted l' /\ l' ≡ₚ (item, key) :: l
  | Err e => e = EINVAL /\ exists i, find_in key l = Some i
  end.
Proof.
  induction l as [|[j k] l IH]; intros Hs; simpl.
  { split; [done|]. split; [by repeat constructor|done]. }
  apply StronglySorted_inv in Hs as [Hs Hk].
  destruct (k =? key) eqn:E1; [by eauto|]. destruct (key <? k) eqn:E2.
  - split; [done|]. split; [|done]. constructor; [by constructor|]. constructor; [simpl; lia|].
    eapply Forall_impl; [exact Hk|]. intros [] ?; simpl in *; lia.
  - specialize (IH Hs). destruct (insert_in item key l) as [l'|e]; [|done].
    destruct IH as (Hf & Hs' & Hp). split; [done|]. split.
    + constructor; [done|]. rewrite Hp. constructor; [simpl; lia|done].
    + rewrite Hp. by apply perm_swap.
Qed.

(** ** The table as a finite map *)

Definition bucket (order key : Z) : nat := Z.to_nat (hash_long key order).

Record chain_ok (order : Z) (i : nat) (l : list entry) : Prop := {
  ch_sorted : keys_sorted l;
  ch_hash : forall e, e ∈ l -> bucket order e.2 = i;
}.

Record ht_rel (ht : drm_open_hash) (M : gmap Z nat) : Prop := {
  hr_order : 0 < ht_order ht <= 30;
  hr_table : exists t, ht_table ht = Some t /\ length t = Z.to_nat (2 ^ ht_order ht) /\
    (forall i l, t !! i = Some l -> chain_ok (ht_order ht) i l) /\
    (forall k i, M !! k = Some i <-> exists l, t !! bucket (ht_order ht) k = Some l /\ (i, k) ∈ l);
  hr_inj : forall k k' i, M !! k = Some i -> M !! k' = Some i -> k = k';
}.

Lemma bucket_range order key : 0 < order <= 30 -> (bucket order key < Z.to_nat (2 ^ order))%nat.
Proof. intros Ho. unfold bucket. pose proof (hash_long_range key order ltac:(lia)). lia. Qed.

(** The chain of a key exists, and its search is the lookup of the map. *)
Lemma h_list_spec ht M key : ht_rel ht M ->
  exists l, h_list ht key = Some l /\ keys_sorted l /\ find_in key l = M !! key.
Proof.
  intros [Ho (t & Ht & Hlen & Hch & HM) _]. unfold h_list. rewrite Ht. cbn [mbind option_bind].
  fold (bucket (ht_order ht) key). pose proof (bucket_range _ key Ho) as Hb.
  destruct (t !! bucket (ht_order ht) key) as [l|] eqn:E; [|apply lookup_ge_None in E; lia].
  exists l. destruct (Hch _ _ E) as [Hs _]. split; [done|]. split; [done|].
  apply option_eq. intros i. rewrite find_in_spec by done. rewrite HM. split; [eauto|].
  intros (l' & E' & Hi). by simplify_eq.
Qed.

(** Replacing the chain of [key] by one with the entries of the map [M']. *)
Lemma set_h_list_rel ht M M' key l l' :
  ht_rel ht M -> h_list ht key = Some l -> chain_ok (ht_order ht) (bucket (ht_order ht) key) l' ->
  (forall k i, bucket (ht_order ht) k = bucket (ht_order ht) key -> M' !! k = Some i <-> (i, k) ∈ l') ->
  (forall k, bucket (ht_order ht) k <> bucket (ht_order ht) key -> M' !! k = M !! k) ->
  (forall k k' i, M' !! k = Some i -> M' !! k' = Some i -> k = k') ->
  ht_rel (set_h_list ht key l') M'.
Proof.
  intros [Ho (t & Ht & Hlen & Hch & HM) Hinj] Hl Hc Hin Hout Hinj'.
  unfold h_list in Hl. rewrite Ht in Hl. cbn [mbind option_bind] in Hl.
  split; [done| |done]. exists (<[bucket (ht_order ht) key := l']> t). unfold set_h_list. rewrite Ht. simpl.
  split; [done|]. split; [by rewrite length_insert|]. split.
  - intros i m Hi. destruct (decide (i = bucket (ht_order ht) key)) as [->|Hne].
    + rewrite list_lookup_insert_eq in Hi by (by apply lookup_lt_Some in Hl). by simplify_eq.
    + rewrite list_lookup_insert_ne in Hi by done. by apply Hch.
  - intros k i. destruct (decide (bucket (ht_order ht) k = bucket (ht_order ht) key)) as [E|Hne].
    + rewrite Hin by done. rewrite E, list_lookup_insert_eq by (by apply lookup_lt_Some in Hl).
      split; [eauto|]. intros (? & [= <-] & ?). done.
    + rewrite Hout, HM by done. by rewrite list_lookup_insert_ne by done.
Qed.

Lemma chain_of ht M key l : ht_rel ht M -> h_list ht key = Some l ->
  chain_ok (ht_order ht) (bucket (ht_order ht) key) l /\
  forall k i, bucket (ht_order ht) k = bucket (ht_order ht) key -> M !! k = Some i <-> (i, k) ∈ l.
Proof.
  intros [Ho (t & Ht & Hlen & Hch & HM) _] Hl. unfold h_list in Hl. rewrite Ht in Hl. cbn [mbind option_bind] in Hl.
  split; [by apply Hch|]. intros k i E. rewrite HM, E. unfold bucket at 1. rewrite Hl.
  split; [|eauto]. by intros (? & [= <-] & ?).
Qed.

Lemma insert_item_ok ht M item key : ht_rel ht M -> (forall k, M !! k <> Some item) ->
  exists r, drm_ht_insert_item item key ht = Some r /\
    match M !! key, r with
    | None, Ok ht' => ht_rel ht' (<[key := item]> M)
    | Some _, Err e => e = EINVAL
    | _, _ => False
    end.
Proof.
  intros HR Hfr. destruct (h_list_spec ht M key HR) as (l & Hl & Hs & Hf).
  unfold drm_ht_insert_item. rewrite Hl. cbn [mbind option_bind]. eexists; split; [done|].
  pose proof (insert_in_spec item key l Hs) as Hi. rewrite Hf in Hi.
  destruct (insert_in item key l) as [l'|e].
  - destruct Hi as (E & Hs' & Hp). rewrite E. destruct (chain_of ht M key l HR Hl) as [[_ Hh] HM].
    eapply set_h_list_rel; [done|done|..].
    + split; [done|]. intros e. rewrite Hp, elem_of_cons. intros [-> |He]; [done|by apply Hh].
    + intros k i Ek. rewrite Hp, elem_of_cons. destruct (decide (k = key)) as [->|Hne].
      * rewrite lookup_insert_eq. split; [intros [= ->]; by left|].
        intros [[= ->]|Hi]; [done|]. apply HM in Hi; [|done]. by rewrite E in Hi.
      * rewrite lookup_insert_ne by done. rewrite HM by done. split; [by right|].
        intros [[= -> ->]|Hi]; done.
    + intros k Hk. by rewrite lookup_insert_ne by (intros ->; done).
    + intros k k' i. rewrite !lookup_insert_Some. intros [[E1 E2]|[_ H1]] [[E3 E4]|[_ H2]]; subst.
      * done.
      * by destruct (Hfr k').
      * by destruct (Hfr k).
      * by apply (hr_inj _ _ HR k k' i).
  - destruct Hi as (-> & i & ->). done.
Qed.

Lemma hlist_del_ok order i item l : chain_ok order i l -> chain_ok order i (hlist_del item l).
Proof.
  intros [Hs Hh]. split.
  - eapply sorted_sublist; [|done]. apply sublist_filter.
  - intros e [_ He]%list_elem_of_filter. by apply Hh.
Qed.

Definition drop_item (item : nat) (M : gmap Z nat) : gmap Z nat := filter (fun p => p.2 <> item) M.

Lemma drop_item_lookup item M k i : drop_item item M !! k = Some i <-> M !! k = Some i /\ i <> item.
Proof. unfold drop_item. rewrite map_lookup_filter_Some. done. Qed.

Lemma remove_item_ok ht M item : ht_rel ht M -> ht_rel (drm_ht_remove_item item ht) (drop_item item M).
Proof.
  intros [Ho (t & Ht & Hlen & Hch & HM) Hinj]. split; [done| |].
  - exists (map (hlist_del item) t). unfold drm_ht_remove_item. rewrite Ht. simpl.
    split; [done|]. split; [by rewrite length_map|]. split.
    + intros i l. rewrite list_lookup_fmap. destruct (t !! i) as [l0|] eqn:E; [|done]. intros [= <-].
      by apply hlist_del_ok, Hch.
    + intros k i. rewrite drop_item_lookup, HM, list_lookup_fmap. split.
      * intros [(l & -> & Hl) Hne]. exists (hlist_del item l). split; [done|]. by apply list_elem_of_filter.
      * intros (l & El & Hl). destruct (t !! _) as [l0|]; [|done]. injection El as <-.
        apply list_elem_of_filter in Hl as [Hne Hl]. eauto.
  - intros k k' i [H1 _]%drop_item_lookup [H2 _]%drop_item_lookup. by apply (Hinj k k' i).
Qed.

Lemma remove_key_ok ht M key : ht_rel ht M ->
  exists r, drm_ht_remove_key key ht = Some r /\
    match M !! key, r with
    | Some _, Ok ht' => ht_rel ht' (delete key M)
    | None, Err e => e = EINVAL
    | _, _ => False
    end.
Proof.
  intros HR. destruct (h_list_spec ht M key HR) as (l & Hl & Hs & Hf).
  unfold drm_ht_remove_key, drm_ht_find_key. rewrite Hl. cbn [mbind option_bind]. rewrite Hf.
  destruct (M !! key) as [item|] eqn:E; [|by exists (Err EINVAL)]. eexists; split; [done|]. cbv beta iota.
  destruct (chain_of ht M key l HR Hl) as [Hc HM].
  eapply set_h_list_rel; [done|done|by apply hlist_del_ok|..].
  - intros k i Ek. rewrite lookup_delete_Some, HM by done. unfold hlist_del. rewrite list_elem_of_filter. simpl.
    split; intros [H1 H2]; (split; [|done]).
    + intros ->. apply H1. apply (hr_inj _ _ HR key k item); [done|]. by apply HM.
    + intros <-. apply HM in H2; [|done]. by simplify_eq.
  - intros k Hk. by rewrite lookup_delete_ne by (intros ->; done).
  - intros k k' i [_ H1]%lookup_delete_Some [_ H2]%lookup_delete_Some. by apply (hr_inj _ _ HR k k' i).
Qed.

(** The [j]-th key [drm_ht_just_insert_please] tries. *)
Definition key_at (seed bits shift add j : Z) : Z :=
  u64 (u64 (Z.shiftl ((hash_long seed bits + j) mod 2 ^ bits) shift) + add).

Lemma please_mask bits : 0 < bits < 64 -> u64 (u64 (Z.shiftl 1 bits) - 1) = Z.ones bits.
Proof.
  intros Hb. rewrite Z.shiftl_mul_pow2, Z.mul_1_l, Z.ones_equiv by lia.
  assert (2 ^ bits <= 2 ^ 63) by (apply Z.pow_le_mono_r; lia). pose proof (Z.pow_pos_nonneg 2 bits ltac:(lia) ltac:(lia)).
  rewrite (u64_small (2 ^ bits)) by (unfold is_u64; lia). rewrite u64_small by (unfold is_u64; lia). lia.
Qed.

Lemma please_loop_ok ht M item seed bits shift add :
  ht_rel ht M -> (forall k, M !! k <> Some item) -> 0 < bits < 64 ->
  forall fuel j, 0 <= j < 2 ^ bits -> 2 ^ bits - j <= Z.of_nat fuel ->
  (forall j', 0 <= j' < j -> is_Some (M !! key_at seed bits shift add j')) ->
  exists r, please_loop fuel item ((hash_long seed bits + j) mod 2 ^ bits) (hash_long seed bits)
              (Z.ones bits) shift add ht = Some r /\
    match r with
    | Ok (key, ht') => exists n, 0 <= n < 2 ^ bits /\ key = key_at seed bits shift add n /\ M !! key = None /\
        (forall j', 0 <= j' < n -> is_Some (M !! key_at seed bits shift add j')) /\
        ht_rel ht' (<[key := item]> M)
    | Err e => e = EINVAL /\ forall j', 0 <= j' < 2 ^ bits -> is_Some (M !! key_at seed bits shift add j')
    end.
Proof.
  intros HR Hfr Hb. pose proof (hash_long_range seed bits ltac:(lia)) as Hh.
  assert (2 ^ bits <= 2 ^ 63) as H63 by (apply Z.pow_le_mono_r; lia).
  induction fuel as [|fuel IH]; intros j Hj Hfu Hused; [lia|]. cbn [please_loop]. fold (key_at seed bits shift add j).
  destruct (insert_item_ok ht M item (key_at seed bits shift add j) HR Hfr) as (r & -> & Hr).
  destruct (M !! key_at seed bits shift add j) as [i|] eqn:E, r as [ht'|e]; try done.
  2: { eexists; split; [done|]. simpl. exists j. done. }
  assert (forall j', 0 <= j' < j + 1 -> is_Some (M !! key_at seed bits shift add j')) as Hused'.
  { intros j' Hj'. destruct (decide (j' = j)) as [->|]; [eauto|]. apply Hused. lia. }
  pose proof (Z.mod_pos_bound (hash_long seed bits + j) (2 ^ bits) ltac:(lia)) as Hm.
  rewrite (u64_small (_ + 1)), Z.land_ones by (unfold is_u64; lia).
  rewrite Zplus_mod_idemp_l, <- Z.add_assoc.
  destruct (decide (j + 1 = 2 ^ bits)) as [Ej|Ej].
  - rewrite Ej. replace (hash_long seed bits + 2 ^ bits) with (hash_long seed bits + 1 * 2 ^ bits) by lia.
    rewrite Z.mod_add, Z.mod_small, Z.eqb_refl by lia. eexists; split; [done|].
    split; [done|]. intros j' Hj'. apply Hused'. lia.
  - destruct (_ =? hash_long seed bits) eqn:Eq; [|apply IH; [lia|lia|done]].
    exfalso. apply Z.eqb_eq in Eq. destruct (Z.lt_ge_cases (hash_long seed bits + (j + 1)) (2 ^ bits)) as [Hlt|Hge].
    + rewrite Z.mod_small in Eq by lia. lia.
    + rewrite <- (Z.mod_unique_pos _ (2 ^ bits) 1 (hash_long seed bits + (j + 1) - 2 ^ bits)) in Eq by lia. lia.
Qed.

Lemma just_insert_ok ht M item seed bits shift add :
  ht_rel ht M -> (forall k, M !! k <> Some item) -> 0 < bits < 64 ->
  exists r, drm_ht_just_insert_please item seed bits shift add ht = Some r /\
    match r with
    | Ok (key, ht') => exists n, 0 <= n < 2 ^ bits /\ key = key_at seed bits shift add n /\ M !! key = None /\
        (forall j', 0 <= j' < n -> is_Some (M !! key_at seed bits shift add j')) /\
        ht_rel ht' (<[key := item]> M)
    | Err e => e = EINVAL /\ forall j', 0 <= j' < 2 ^ bits -> is_Some (M !! key_at seed bits shift add j')
    end.
Proof.
  intros HR Hfr Hb. unfold drm_ht_just_insert_please. rewrite please_mask by done.
  pose proof (hash_long_range seed bits ltac:(lia)) as Hh.
  destruct (please_loop_ok ht M item seed bits shift add HR Hfr Hb (Z.to_nat (2 ^ bits)) 0) as (r & E & Hr);
    [lia|lia|intros; lia|].
  rewrite Z.add_0_r, Z.mod_small in E by lia. eauto.
Qed.

(** ** Sequences of operations *)

Inductive ht_op :=
| HInsert (item : nat) (key : Z)
| HPlease (item : nat) (seed bits shift add : Z)
| HFind (key : Z)
| HRemoveKey (key : Z)
| HRemoveItem (item : nat).

(** What an operation tells its caller. *)
Inductive ht_out := HDone | HFail | HItem (item : nat) | HKey (key : Z).

Definition ht_exec (o : ht_op) (ht : drm_open_hash) : option (ht_out * drm_open_hash) :=
  match o with
  | HInsert item key =>
    r ← drm_ht_insert_item item key ht;
    Some match r with Ok ht' => (HDone, ht') | Err _ => (HFail, ht) end
  | HPlease item seed bits shift add =>
    r ← drm_ht_just_insert_please item seed bits shift add ht;
    Some match r with Ok (key, ht') => (HKey key, ht') | Err _ => (HFail, ht) end
  | HFind key =>
    r ← drm_ht_find_item ht key;
    Some match r with Ok item => (HItem item, ht) | Err _ => (HFail, ht) end
  | HRemoveKey key =>
    r ← drm_ht_remove_key key ht;
    Some match r with Ok ht' => (HDone, ht') | Err _ => (HFail, ht) end
  | HRemoveItem item => Some (HDone, drm_ht_remove_item item ht)
  end.

Fixpoint ht_run (ops : list ht_op) (ht : drm_open_hash) : option (list ht_out * drm_open_hash) :=
  match ops with
  | [] => Some ([], ht)
  | o :: ops' => '(out, ht) ← ht_exec o ht; '(outs, ht) ← ht_run ops' ht; Some (out :: outs, ht)
  end.

(** An item is inserted only while it is in no chain, and keys are searched in a space of
    [2 ^ bits] numbers. *)
Definition linked (item : nat) (ht : drm_open_hash) : bool :=
  existsb (existsb (fun e => Nat.eqb e.1 item)) (default [] (ht_table ht)).

Definition ht_pre (o : ht_op) (ht : drm_open_hash) : bool :=
  match o with
  | HInsert item _ => negb (linked item ht)
  | HPlease item _ bits _ _ => negb (linked item ht) && (0 <? bits) && (bits <? 64)
  | _ => true
  end.

Fixpoint ht_calls_ok (ops : list ht_op) (ht : drm_open_hash) : bool :=
  match ops with
  | [] => true
  | o :: ops' => ht_pre o ht && match ht_exec o ht with Some (_, ht') => ht_calls_ok ops' ht' | None => true end
  end.

(** The map the table stands for, and what each operation does to it. *)
Inductive ht_spec : ht_op -> gmap Z nat -> ht_out -> gmap Z nat -> Prop :=
| hs_insert item key M : M !! key = None -> ht_spec (HInsert item key) M HDone (<[key := item]> M)
| hs_insert_used item key M : is_Some (M !! key) -> ht_spec (HInsert item key) M HFail M
| hs_please item seed bits shift add M n :
    0 <= n < 2 ^ bits -> M !! key_at seed bits shift add n = None ->
    (forall j, 0 <= j < n -> is_Some (M !! key_at seed bits shift add j)) ->
    ht_spec (HPlease item seed bits shift add) M (HKey (key_at seed bits shift add n))
      (<[key_at seed bits shift add n := item]> M)
| hs_please_full item seed bits shift add M :
    (forall j, 0 <= j < 2 ^ bits -> is_Some (M !! key_at seed bits shift add j)) ->
    ht_spec (HPlease item seed bits shift add) M HFail M
| hs_find key item M : M !! key = Some item -> ht_spec (HFind key) M (HItem item) M
| hs_find_none key M : M !! key = None -> ht_spec (HFind key) M HFail M
| hs_remove key M : is_Some (M !! key) -> ht_spec (HRemoveKey key) M HDone (delete key M)
| hs_remove_none key M : M !! key = None -> ht_spec (HRemoveKey key) M HFail M
| hs_remove_item item M : ht_spec (HRemoveItem item) M HDone (drop_item item M).

Inductive ht_spec_run : list ht_op -> gmap Z nat -> list ht_out -> gmap Z nat -> Prop :=
| hsr_nil M : ht_spec_run [] M [] M
| hsr_cons o ops M out M' outs M'' :
    ht_spec o M out M' -> ht_spec_run ops M' outs M'' -> ht_spec_run (o :: ops) M (out :: outs) M''.

Lemma unlinked_free ht M item : ht_rel ht M -> linked item ht = false -> forall k, M !! k <> Some item.
Proof.
  intros [_ (t & Ht & _ & _ & HM) _] Hl k (l & El & Hi)%HM. unfold linked in Hl. rewrite Ht in Hl. simpl in Hl.
  apply not_true_iff_false in Hl. apply Hl. apply existsb_exists. exists l.
  split; [by apply list_elem_of_In, (list_elem_of_lookup_2 _ _ _ El)|]. apply existsb_exists. exists (item, k).
  split; [by apply list_elem_of_In|]. apply Nat.eqb_refl.
Qed.

#[local] Hint Constructors ht_spec ht_spec_run : core.

Lemma exec_refines_map o ht M : ht_rel ht M -> ht_pre o ht = true ->
  exists out ht' M', ht_exec o ht = Some (out, ht') /\ ht_spec o M out M' /\ ht_rel ht' M'.
Proof.
  intros HR Hpre. destruct o as [item key|item seed bits shift add|key|key|item]; simpl in *.
  - destruct (insert_item_ok ht M item key HR) as (r & -> & Hr).
    { apply (unlinked_free ht); [done|by apply negb_true_iff]. }
    destruct (M !! key) eqn:E, r; try done; simpl; eauto 10.
  - apply andb_true_iff in Hpre as [[Hl Hb]%andb_true_iff Hb'].
    destruct (just_insert_ok ht M item seed bits shift add HR) as (r & -> & Hr); [|lia|].
    { apply (unlinked_free ht); [done|by apply negb_true_iff]. }
    destruct r as [[key ht']|e].
    + destruct Hr as (n & Hn & -> & Hf & Hu & HR'). simpl. eauto 10.
    + destruct Hr as [_ Hr]. simpl. eauto 10.
  - destruct (h_list_spec ht M key HR) as (l & Hl & Hs & Hf).
    unfold drm_ht_find_item, drm_ht_find_key. rewrite Hl. simpl. rewrite Hf.
    destruct (M !! key) eqn:E; simpl; eauto 10.
  - destruct (remove_key_ok ht M key HR) as (r & -> & Hr).
    destruct (M !! key) eqn:E, r; try done; simpl; eauto 10.
  - pose proof (remove_item_ok ht M item HR). eauto 10.
Qed.

Lemma run_refines_map ops : forall ht M, ht_rel ht M -> ht_calls_ok ops ht = true ->
  exists outs ht' M', ht_run ops ht = Some (outs, ht') /\ ht_spec_run ops M outs M' /\ ht_rel ht' M'.
Proof.
  induction ops as [|o ops IH]; intros ht M HR Hc; simpl in *; [eauto 10|].
  apply andb_true_iff in Hc as [Hp Hc].
  destruct (exec_refines_map o ht M HR Hp) as (out & ht1 & M1 & E & Hs & HR1). rewrite E in Hc |- *. simpl.
  destruct (IH ht1 M1 HR1 Hc) as (outs & ht2 & M2 & -> & Hs2 & HR2). simpl. eauto 10.
Qed.

Lemma create_rel order ht : 0 < order <= 30 -> drm_ht_create false order = Ok ht -> ht_rel ht ∅.
Proof.
  intros Ho [= <-].
  assert (2 ^ order <= 2 ^ 30) by (apply Z.pow_le_mono_r; lia). pose proof (Z.pow_pos_nonneg 2 order ltac:(lia) ltac:(lia)).
  rewrite Z.shiftl_mul_pow2, Z.mul_1_l, u32_small by (unfold is_u32; lia).
  assert (u8 order = order) as E by (unfold u8; apply Z.mod_small; lia).
  split; simpl; rewrite ?E; [lia| |].
  - eexists. split; [done|]. rewrite length_replicate. split; [done|]. split.
    + intros i l [-> _]%lookup_replicate. split; [constructor|]. by intros e ?%elem_of_nil.
    + intros k i. rewrite lookup_empty. split; [done|]. by intros (l & [-> _]%lookup_replicate & ?%elem_of_nil).
  - intros k k' i. by rewrite lookup_empty.
Qed.

(** C38: from an empty table, any sequence of insertions, key searches, lookups and removals
    behaves like a finite map from keys to items: it never leaves the table, a lookup finds
    exactly the item stored under the key, an insertion fails exactly when the key is used,
    and the search for an unused key takes the first free one in its cyclic order and fails
    exactly when none of the [2 ^ bits] keys is free. *)
Theorem drm_ht_refines_map order ht ops :
  0 < order <= 30 -> drm_ht_create false order = Ok ht -> ht_calls_ok ops ht = true ->
  exists outs ht' M, ht_run ops ht = Some (outs, ht') /\ ht_spec_run ops ∅ outs M /\ ht_rel ht' M.
Proof. intros Ho Hc Hops. apply run_refines_map; [by eapply create_rel|done]. Qed.

End Hashtab.

(** ** Instances *)

Definition sample_hash (val bits : Z) : Z := u32 (val * 2654435761 + bits).

Lemma sample_hash_u32 val bits : is_u32 (sample_hash val bits).
Proof. apply u32_range. Qed.

Lemma hash_long_degenerate_witness : hash_long sample_hash 77 12 = 0.
Proof. apply (hash_long_degenerate sample_hash sample_hash_u32 77 12). word_const. Defined.

Definition sample_ops : list ht_op :=
  [HInsert 1 40; HInsert 2 7; HInsert 3 40; HPlease 4 5 2 3 0; HPlease 5 5 2 3 0; HFind 7; HRemoveKey 40;
   HRemoveItem 4; HFind 40].

Lemma drm_ht_refines_map_witness :
  exists outs ht' M, ht_run sample_hash sample_ops
      {| ht_order := 3; ht_table := Some (replicate 8 []) |} = Some (outs, ht') /\
    ht_spec_run sample_hash sample_ops ∅ outs M /\ ht_rel sample_hash ht' M.
Proof.
  apply (drm_ht_refines_map sample_hash sample_hash_u32 3).
  - word_const.
  - vm_compute. reflexivity.
  - vm_compute. reflexivity.
Defined.
