(* ===== verification/Lock.v ===== *)
(** * The legacy hardware lock ([drm_lock.c])

    A lock word shared by clients and kernel, changed by [cmpxchg], and the
    bookkeeping of [struct drm_lock_data].  Each function is split at the points
    where another thread can run: between sections under the spinlock, around
    a successful [cmpxchg], which is one atomic step, and around the store of the
    owning file, which is outside of the spinlock.  The system is the
    transition relation [step] over the lock data, the control point of every
    client context and the number of kernel threads at each control point.
    The kernel checks neither that a client that unlocks holds the lock nor the
    size of a context: clients are taken to unlock only what they hold and to use
    contexts below 2^30.

    Theorems: with such clients the lock is never held twice and the lock word
    names its holder; without them it can be (the two lemmas after that theorem); and
    a release that races with [drm_legacy_idlelock_take] leaves the lock free
    while the kernel waits for it. *)

From S2P Require Import Prelude Rect.
From stdpp Require Import base gmap list option sets sorting.
From Stdlib Require Import ZArith Lia.

#[local] Set Warnings "-clear-no-such-hyp".

#[local] Open Scope Z_scope.

Definition DRM_KERNEL_CONTEXT : Z := 0.
Definition _DRM_LOCK_HELD : Z := 0x80000000.
Definition _DRM_LOCK_CONT : Z := 0x40000000.
Definition _DRM_LOCK_IS_HELD (lock : Z) : bool := has_flag lock _DRM_LOCK_HELD.

(** [lock & ~(_DRM_LOCK_HELD|_DRM_LOCK_CONT)] on 32 bits *)
Definition _DRM_LOCKING_CONTEXT (lock : Z) : Z := Z.land lock 0x3fffffff.

(** [struct drm_lock_data] with the word of its [hw_lock] *)
Record drm_lock_data := {
  lock_word : Z; lock_file : option Z; kernel_waiters : Z; user_waiters : Z; idle_has_lock : bool;
}.

Definition set_word (w : Z) (d : drm_lock_data) : drm_lock_data :=
  {| lock_word := w; lock_file := lock_file d; kernel_waiters := kernel_waiters d;
     user_waiters := user_waiters d; idle_has_lock := idle_has_lock d |}.

Definition set_file (f : option Z) (d : drm_lock_data) : drm_lock_data :=
  {| lock_word := lock_word d; lock_file := f; kernel_waiters := kernel_waiters d;
     user_waiters := user_waiters d; idle_has_lock := idle_has_lock d |}.

Definition set_waiters (k u : Z) (d : drm_lock_data) : drm_lock_data :=
  {| lock_word := lock_word d; lock_file := lock_file d; kernel_waiters := k;
     user_waiters := u; idle_has_lock := idle_has_lock d |}.

Definition set_idle (b : bool) (d : drm_lock_data) : drm_lock_data :=
  {| lock_word := lock_word d; lock_file := lock_file d; kernel_waiters := kernel_waiters d;
     user_waiters := user_waiters d; idle_has_lock := b |}.

(** [drm_lock_take]: the word when [cmpxchg] succeeds, and the result. *)
Definition drm_lock_take (context : Z) (d : drm_lock_data) : bool * drm_lock_data :=
  let old := lock_word d in
  let new :=
    if _DRM_LOCK_IS_HELD old then Z.lor old _DRM_LOCK_CONT
    else Z.lor (Z.lor context _DRM_LOCK_HELD)
           (if 1 <? u32 (user_waiters d + kernel_waiters d) then _DRM_LOCK_CONT else 0) in
  let ret :=
    if (_DRM_LOCKING_CONTEXT old =? context) && _DRM_LOCK_IS_HELD old then false
    else (_DRM_LOCKING_CONTEXT new =? context) && _DRM_LOCK_IS_HELD new in
  (ret, set_word new d).

Definition drm_lock_transfer (context : Z) (d : drm_lock_data) : drm_lock_data :=
  set_word (Z.lor context _DRM_LOCK_HELD) (set_file None d).

(** [drm_legacy_lock_free] up to the end of its section under the spinlock: [true] if the
    lock was handed to the kernel and the function returns. *)
Definition lock_free_begin (d : drm_lock_data) : bool * drm_lock_data :=
  if negb (kernel_waiters d =? 0) then (true, set_idle true (drm_lock_transfer 0 d))
  else (false, d).

(** The rest of [drm_legacy_lock_free] *)
Definition lock_free_end (d : drm_lock_data) : drm_lock_data :=
  set_word (_DRM_LOCKING_CONTEXT (lock_word d)) d.

(** [drm_legacy_idlelock_take] under its first spinlock section: [true] if it goes on to call
    [drm_lock_take]. *)
Definition idlelock_take_begin (d : drm_lock_data) : bool * drm_lock_data :=
  (negb (idle_has_lock d), set_waiters (u32 (kernel_waiters d + 1)) (user_waiters d) d).

(** Its last section, when [drm_lock_take] returned 1 *)
Definition idlelock_take_end (d : drm_lock_data) : drm_lock_data := set_idle true d.

Definition drm_legacy_idlelock_release (d : drm_lock_data) : drm_lock_data :=
  let d := set_waiters (u32 (kernel_waiters d - 1)) (user_waiters d) d in
  if (kernel_waiters d =? 0) && idle_has_lock d
  then set_idle false (set_word DRM_KERNEL_CONTEXT d) else d.

(** [drm_legacy_i_have_hw_lock] of a file whose [lock_count] is [count] *)
Definition drm_legacy_i_have_hw_lock (count file : Z) (d : drm_lock_data) : bool :=
  negb (count =? 0) && _DRM_LOCK_IS_HELD (lock_word d) && bool_decide (lock_file d = Some file).

(** ** The system *)

(** A client in [drm_legacy_lock] waits; after [drm_lock_take] it has the lock, first before the store of its file, then
    after it and before the last spinlock section; inside the locked region it is critical; in
    [drm_legacy_lock_free], after the spinlock section, it is freeing. *)
Inductive upc := UIdle | UWait | UTook | UStored | UCrit | UFree.

#[global] Instance upc_eq_dec : EqDecision upc.
Proof. solve_decision. Defined.

(** The lock data, the clients, and the kernel threads: about to call [drm_lock_take], with a
    successful [drm_lock_take] not yet recorded, and between take and release. *)
Record sys := { sd : drm_lock_data; su : Z -> upc; k_take : nat; k_took : nat; k_in : nat }.

Definition upd (c : Z) (p : upc) (f : Z -> upc) : Z -> upc := fun x => if decide (x = c) then p else f x.

Definition kernel_threads (s : sys) : nat := (k_take s + k_took s + k_in s)%nat.

(** The contexts that clients use. *)
Definition valid_context (c : Z) : Prop := 0 < c < 2 ^ 30.

Inductive step : sys -> sys -> Prop :=
| st_request c d f a b n : valid_context c -> f c = UIdle ->
    step {| sd := d; su := f; k_take := a; k_took := b; k_in := n |}
         {| sd := set_waiters (kernel_waiters d) (u32 (user_waiters d + 1)) d; su := upd c UWait f;
            k_take := a; k_took := b; k_in := n |}
| st_took c d d' f a b n : valid_context c -> f c = UWait -> drm_lock_take c d = (true, d') ->
    step {| sd := d; su := f; k_take := a; k_took := b; k_in := n |}
         {| sd := d'; su := upd c UTook f; k_take := a; k_took := b; k_in := n |}
| st_store c d f a b n : valid_context c -> f c = UTook ->
    step {| sd := d; su := f; k_take := a; k_took := b; k_in := n |}
         {| sd := set_file (Some c) d; su := upd c UStored f; k_take := a; k_took := b; k_in := n |}
| st_lock c d f a b n : valid_context c -> f c = UStored ->
    step {| sd := d; su := f; k_take := a; k_took := b; k_in := n |}
         {| sd := set_waiters (kernel_waiters d) (u32 (user_waiters d - 1)) d;
            su := upd c UCrit f; k_take := a; k_took := b; k_in := n |}
| st_contend c d d' f a b n : valid_context c -> f c = UWait -> drm_lock_take c d = (false, d') ->
    step {| sd := d; su := f; k_take := a; k_took := b; k_in := n |}
         {| sd := d'; su := f; k_take := a; k_took := b; k_in := n |}
| st_interrupt c d f a b n : valid_context c -> f c = UWait ->
    step {| sd := d; su := f; k_take := a; k_took := b; k_in := n |}
         {| sd := set_waiters (kernel_waiters d) (u32 (user_waiters d - 1)) d; su := upd c UIdle f;
            k_take := a; k_took := b; k_in := n |}
| st_unlock_kernel c d d' f a b n : valid_context c -> f c = UCrit -> lock_free_begin d = (true, d') ->
    step {| sd := d; su := f; k_take := a; k_took := b; k_in := n |}
         {| sd := d'; su := upd c UIdle f; k_take := a; k_took := b; k_in := n |}
| st_unlock c d d' f a b n : valid_context c -> f c = UCrit -> lock_free_begin d = (false, d') ->
    step {| sd := d; su := f; k_take := a; k_took := b; k_in := n |}
         {| sd := d'; su := upd c UFree f; k_take := a; k_took := b; k_in := n |}
| st_free c d f a b n : valid_context c -> f c = UFree ->
    step {| sd := d; su := f; k_take := a; k_took := b; k_in := n |}
         {| sd := lock_free_end d; su := upd c UIdle f; k_take := a; k_took := b; k_in := n |}
| st_idle_take d d' f a b n : Z.of_nat (a + b + n) < U32_MAX -> idlelock_take_begin d = (true, d') ->
    step {| sd := d; su := f; k_take := a; k_took := b; k_in := n |}
         {| sd := d'; su := f; k_take := S a; k_took := b; k_in := n |}
| st_idle_have d d' f a b n : Z.of_nat (a + b + n) < U32_MAX -> idlelock_take_begin d = (false, d') ->
    step {| sd := d; su := f; k_take := a; k_took := b; k_in := n |}
         {| sd := d'; su := f; k_take := a; k_took := b; k_in := S n |}
| st_idle_took d d' f a b n : drm_lock_take DRM_KERNEL_CONTEXT d = (true, d') ->
    step {| sd := d; su := f; k_take := S a; k_took := b; k_in := n |}
         {| sd := d'; su := f; k_take := a; k_took := S b; k_in := n |}
| st_idle_missed d d' f a b n : drm_lock_take DRM_KERNEL_CONTEXT d = (false, d') ->
    step {| sd := d; su := f; k_take := S a; k_took := b; k_in := n |}
         {| sd := d'; su := f; k_take := a; k_took := b; k_in := S n |}
| st_idle_record d f a b n :
    step {| sd := d; su := f; k_take := a; k_took := S b; k_in := n |}
         {| sd := idlelock_take_end d; su := f; k_take := a; k_took := b; k_in := S n |}
| st_idle_release d f a b n :
    step {| sd := d; su := f; k_take := a; k_took := b; k_in := S n |}
         {| sd := drm_legacy_idlelock_release d; su := f; k_take := a; k_took := b; k_in := n |}.

Definition init : sys :=
  {| sd := {| lock_word := 0; lock_file := None; kernel_waiters := 0; user_waiters := 0; idle_has_lock := false |};
     su := fun _ => UIdle; k_take := 0; k_took := 0; k_in := 0 |}.

Definition reachable (s : sys) : Prop := rtc step init s.

(** ** The lock word *)

#[local] Abbreviation held := _DRM_LOCK_IS_HELD.
#[local] Abbreviation ctx := _DRM_LOCKING_CONTEXT.

Lemma held_testbit w : held w = Z.testbit w 31.
Proof.
  unfold _DRM_LOCK_IS_HELD, has_flag. destruct (Z.testbit w 31) eqn:E.
  - destruct (Z.land w _DRM_LOCK_HELD =? 0) eqn:Z0; [|done]. apply Z.eqb_eq in Z0. exfalso.
    assert (Z.testbit (Z.land w _DRM_LOCK_HELD) 31 = true) as H by (rewrite Z.land_spec, E; done).
    by rewrite Z0 in H.
  - replace (Z.land w _DRM_LOCK_HELD) with 0; [done|]. symmetry. change _DRM_LOCK_HELD with (2 ^ 31).
    apply Z.bits_inj'. intros n Hn. rewrite Z.land_spec, Z.bits_0, Z.pow2_bits_eqb by lia.
    destruct (31 =? n) eqn:En; [|by rewrite andb_false_r]. apply Z.eqb_eq in En. subst n. by rewrite E.
Qed.

Lemma ctx_small c : 0 <= c < 2 ^ 30 -> ctx c = c.
Proof.
  intros Hc. unfold _DRM_LOCKING_CONTEXT. change 0x3fffffff with (Z.ones 30).
  rewrite Z.land_ones by lia. by apply Z.mod_small.
Qed.

Lemma ctx_lor w f : Z.land f 0x3fffffff = 0 -> ctx (Z.lor w f) = ctx w.
Proof. intros H. unfold _DRM_LOCKING_CONTEXT. by rewrite Z.land_lor_distr_l, H, Z.lor_0_r. Qed.

Lemma held_lor w f : held (Z.lor w f) = held w || held f.
Proof. by rewrite !held_testbit, Z.lor_spec. Qed.

Lemma held_ctx w : held (ctx w) = false.
Proof. rewrite held_testbit. unfold _DRM_LOCKING_CONTEXT. rewrite Z.land_spec. by rewrite andb_false_r. Qed.

Lemma ctx_range w : 0 <= ctx w < 2 ^ 30.
Proof.
  unfold _DRM_LOCKING_CONTEXT. change 0x3fffffff with (Z.ones 30). rewrite Z.land_ones by lia.
  apply Z.mod_pos_bound. lia.
Qed.

(** [drm_lock_take] succeeds exactly on a free lock and then makes [c] its holder; otherwise it
    leaves the holder alone. *)
Lemma take_spec c d ret d' : 0 <= c < 2 ^ 30 -> drm_lock_take c d = (ret, d') ->
  exists w, d' = set_word w d /\ held w = true /\ ret = negb (held (lock_word d)) /\
    ctx w = if ret then c else ctx (lock_word d).
Proof.
  intros Hc. unfold drm_lock_take. intros [= <- <-]. eexists; split; [done|].
  destruct (held (lock_word d)) eqn:E.
  - rewrite held_lor, E, (ctx_lor _ _DRM_LOCK_CONT eq_refl). simpl. rewrite andb_true_r.
    destruct (ctx (lock_word d) =? c) eqn:Ec; simpl; done.
  - rewrite andb_false_r.
    assert (forall f, f = _DRM_LOCK_CONT \/ f = 0 ->
      held (Z.lor (Z.lor c _DRM_LOCK_HELD) f) = true /\ ctx (Z.lor (Z.lor c _DRM_LOCK_HELD) f) = c) as H.
    { intros f Hf. rewrite !held_lor, (ctx_lor _ f), (ctx_lor _ _DRM_LOCK_HELD eq_refl), ctx_small; try done.
      - by rewrite orb_true_r.
      - by destruct Hf; subst. }
    destruct (1 <? _); (destruct H with (f := _DRM_LOCK_CONT) as [H1 H2]; [by left|];
      destruct H with (f := 0) as [H3 H4]; [by right|]).
    + rewrite H1, H2, Z.eqb_refl. done.
    + rewrite H3, H4, Z.eqb_refl. done.
Qed.

(** ** The invariant *)

Definition in_lock (p : upc) : bool := match p with UTook | UStored | UCrit | UFree => true | _ => false end.

(** The client has stored its file. *)
Definition filed (p : upc) : bool := match p with UStored | UCrit => true | _ => false end.

(** The kernel holds the lock: recorded, or taken and about to be recorded. *)
Definition kernel_holds (s : sys) : Prop := idle_has_lock (sd s) = true \/ (0 < k_took s)%nat.

Record inv (s : sys) : Prop := {
  iv_waiters : kernel_waiters (sd s) = Z.of_nat (kernel_threads s) /\ Z.of_nat (kernel_threads s) <= U32_MAX;
  iv_user : forall c, in_lock (su s c) = true ->
    valid_context c /\ held (lock_word (sd s)) = true /\ ctx (lock_word (sd s)) = c;
  iv_file : forall c, filed (su s c) = true -> lock_file (sd s) = Some c;
  iv_kernel : kernel_holds s -> held (lock_word (sd s)) = true /\ ctx (lock_word (sd s)) = 0;
  iv_once : (k_took s <= (if idle_has_lock (sd s) then 0 else 1))%nat;
  iv_owner : held (lock_word (sd s)) = true ->
    kernel_holds s \/ exists c, in_lock (su s c) = true /\ ctx (lock_word (sd s)) = c;
  iv_wanted : idle_has_lock (sd s) = true -> (0 < kernel_threads s)%nat;
}.

Lemma upd_eq c p f : upd c p f c = p.
Proof. unfold upd. by case_decide. Qed.

Lemma upd_ne c c' p f : c' <> c -> upd c p f c' = f c'.
Proof. intros H. unfold upd. by case_decide. Qed.

Lemma upd_in_lock c p f c' : in_lock p = false -> in_lock (upd c p f c') = true -> c' <> c /\ in_lock (f c') = true.
Proof. unfold upd. intros Hp. case_decide; [by rewrite Hp|done]. Qed.

(** Steps that change neither the word nor who holds the lock. *)
Lemma inv_waits s d f : inv s ->
  lock_word d = lock_word (sd s) -> lock_file d = lock_file (sd s) -> idle_has_lock d = idle_has_lock (sd s) ->
  kernel_waiters d = kernel_waiters (sd s) ->
  (forall c, in_lock (f c) = in_lock (su s c)) -> (forall c, filed (f c) = true -> filed (su s c) = true) ->
  inv {| sd := d; su := f; k_take := k_take s; k_took := k_took s; k_in := k_in s |}.
Proof.
  intros [H1 H2 H3 H4 H5 H6 H7] Ew Ef Ei Ek Hf Hc. split; simpl; unfold kernel_holds in *; simpl;
    rewrite ?Ew, ?Ef, ?Ei, ?Ek; try done.
  - intros c. rewrite Hf. apply H2.
  - intros c Hc'. apply H3, Hc, Hc'.
  - intros Hh. destruct (H6 Hh) as [|(c & Hi & E)]; [by left|right]. exists c. by rewrite Hf.
Qed.

Lemma in_lock_upd_same c p f : in_lock p = in_lock (f c) -> forall c', in_lock (upd c p f c') = in_lock (f c').
Proof. intros H c'. unfold upd. case_decide; [by subst|done]. Qed.

Lemma upd_filed c p f c' : (filed p = true -> filed (f c) = true) -> filed (upd c p f c') = true -> filed (f c') = true.
Proof. unfold upd. intros Hp. case_decide; [by subst|done]. Qed.

Lemma filed_in p : filed p = true -> in_lock p = true.
Proof. by destruct p. Qed.

(** A failed [drm_lock_take] changes only the contention bit. *)
Lemma inv_contend s d' a n : inv s -> held (lock_word (sd s)) = true ->
  (exists w, d' = set_word w (sd s) /\ held w = true /\ ctx w = ctx (lock_word (sd s))) ->
  (a + n = k_take s + k_in s)%nat ->
  inv {| sd := d'; su := su s; k_take := a; k_took := k_took s; k_in := n |}.
Proof.
  intros [H1 H2 H3 H4 H5 H6 H7] Hh (w & -> & Hw & Hc) Ek.
  assert (kernel_threads {| sd := set_word w (sd s); su := su s; k_take := a; k_took := k_took s; k_in := n |}
          = kernel_threads s) as Et by (unfold kernel_threads; simpl; lia).
  split; rewrite ?Et; simpl; unfold kernel_holds in *; simpl; rewrite ?Hw, ?Hc; try done.
  - intros c Hin. destruct (H2 c Hin) as (? & ? & ?). done.
  - intros Hk. split; [done|]. by apply H4.
  - intros _. destruct (H6 Hh) as [|(c & Hi & E)]; [by left|right; eauto].
Qed.

(** Nobody holds a free lock. *)
Lemma inv_free s : inv s -> held (lock_word (sd s)) = false ->
  (forall c, in_lock (su s c) = false) /\ idle_has_lock (sd s) = false /\ k_took s = 0%nat.
Proof.
  intros [H1 H2 H3 H4 H5 H6 H7] Hh. split_and!.
  - intros c. destruct (in_lock (su s c)) eqn:E; [|done]. destruct (H2 c E) as (_ & E' & _). congruence.
  - destruct (idle_has_lock (sd s)) eqn:E; [|done]. destruct H4 as [E' _]; [by left|]. congruence.
  - destruct (k_took s) eqn:E; [done|]. destruct H4 as [E' _]; [right; lia|]. congruence.
Qed.

(** The holder is the only client in the lock, and the kernel does not hold it. *)
Lemma inv_holder s c : inv s -> in_lock (su s c) = true ->
  (forall c', in_lock (su s c') = true -> c' = c) /\ idle_has_lock (sd s) = false /\ k_took s = 0%nat.
Proof.
  intros [H1 H2 H3 H4 H5 H6 H7] Hc. destruct (H2 c Hc) as (Hv & _ & Ec). unfold valid_context in Hv. split_and!.
  - intros c' Hc'. destruct (H2 c' Hc') as (_ & _ & E). congruence.
  - destruct (idle_has_lock (sd s)) eqn:E; [|done]. destruct H4 as [_ E']; [by left|]. lia.
  - destruct (k_took s) eqn:E; [done|]. destruct H4 as [_ E']; [right; lia|]. lia.
Qed.

Lemma inv_took s c d' : inv s -> valid_context c -> drm_lock_take c (sd s) = (true, d') ->
  inv {| sd := d'; su := upd c UTook (su s); k_take := k_take s; k_took := k_took s; k_in := k_in s |}.
Proof.
  intros Hi Hv Ht. unfold valid_context in Hv. destruct (take_spec c _ _ _ ltac:(lia) Ht) as (w & -> & Hw & Hr & Hc).
  symmetry in Hr. apply negb_true_iff in Hr. destruct (inv_free s Hi Hr) as (Hn & Eid & Ek).
  destruct Hi as [H1 H2 H3 H4 H5 H6 H7]. split; simpl; unfold kernel_holds; simpl; try done.
  - intros c' Hin. unfold upd in Hin. case_decide as Ed; [rewrite Ed, Hw, Hc; done|]. by rewrite Hn in Hin.
  - intros c' Hcr. unfold upd in Hcr. case_decide as Ed; [done|]. apply filed_in in Hcr. by rewrite Hn in Hcr.
  - rewrite Eid, Ek. intros [|]; [done|lia].
  - intros _. right. exists c. by rewrite upd_eq.
Qed.

Lemma inv_store s c : inv s -> su s c = UTook ->
  inv {| sd := set_file (Some c) (sd s); su := upd c UStored (su s); k_take := k_take s; k_took := k_took s; k_in := k_in s |}.
Proof.
  intros Hi Hc. destruct (inv_holder s c Hi) as (Hu & Eid & Ek); [by rewrite Hc|].
  assert (forall c', in_lock (upd c UStored (su s) c') = in_lock (su s c')) as Hin by (apply in_lock_upd_same; by rewrite Hc).
  destruct Hi as [H1 H2 H3 H4 H5 H6 H7]. split; simpl; unfold kernel_holds in *; simpl; try done.
  - intros c'. rewrite Hin. apply H2.
  - intros c' Hf%filed_in. rewrite Hin in Hf. by rewrite (Hu c' Hf).
  - intros Hh. destruct (H6 Hh) as [|(c' & Hi & E)]; [by left|right]. exists c'. by rewrite Hin.
Qed.

Lemma inv_unlock_kernel s c d' : inv s -> su s c = UCrit -> lock_free_begin (sd s) = (true, d') ->
  inv {| sd := d'; su := upd c UIdle (su s); k_take := k_take s; k_took := k_took s; k_in := k_in s |}.
Proof.
  intros Hi Hc. unfold lock_free_begin. destruct (kernel_waiters (sd s) =? 0) eqn:E; simpl; [done|]. intros [= <-].
  destruct (inv_holder s c Hi) as (Hu & Eid & Ek); [by rewrite Hc|].
  destruct Hi as [H1 H2 H3 H4 H5 H6 H7]. split; simpl; unfold kernel_holds, kernel_threads in *; simpl; try done.
  - intros c' [Hne Hin]%upd_in_lock; [|done]. by apply Hu in Hin.
  - intros c' Hcr. unfold upd in Hcr. case_decide; [done|]. assert (c' = c); [|done]. by apply Hu, filed_in.
  - rewrite Ek. lia.
  - intros _. left. by left.
  - intros _. lia.
Qed.

Lemma inv_freed s c : inv s -> su s c = UFree ->
  inv {| sd := lock_free_end (sd s); su := upd c UIdle (su s); k_take := k_take s; k_took := k_took s; k_in := k_in s |}.
Proof.
  intros Hi Hc. destruct (inv_holder s c Hi) as (Hu & Eid & Ek); [by rewrite Hc|].
  destruct Hi as [H1 H2 H3 H4 H5 H6 H7]. split; simpl; unfold kernel_holds in *; simpl; rewrite ?held_ctx; try done.
  - intros c' [Hne Hin]%upd_in_lock; [|done]. by apply Hu in Hin.
  - intros c' Hcr. unfold upd in Hcr. case_decide; [done|]. assert (c' = c); [|done]. by apply Hu, filed_in.
  - rewrite Eid, Ek. intros [|]; [done|lia].
Qed.

Lemma inv_release d f a b n : inv {| sd := d; su := f; k_take := a; k_took := b; k_in := S n |} ->
  inv {| sd := drm_legacy_idlelock_release d; su := f; k_take := a; k_took := b; k_in := n |}.
Proof.
  intros [H1 H2 H3 H4 H5 H6 H7]. unfold kernel_holds, kernel_threads, U32_MAX in *. simpl in *.
  unfold drm_legacy_idlelock_release. simpl.
  assert (u32 (kernel_waiters d - 1) = Z.of_nat (a + b + n)) as -> by (rewrite u32_small; unfold is_u32; lia).
  destruct (Z.eqb_spec (Z.of_nat (a + b + n)) 0) as [E|E]; cbn [andb].
  2: { split; simpl; unfold kernel_holds, kernel_threads, U32_MAX; simpl; (done || lia). }
  assert (a = 0 /\ b = 0 /\ n = 0)%nat as (-> & -> & ->) by lia.
  destruct (idle_has_lock d) eqn:Ei.
  2: { split; simpl; unfold kernel_holds, kernel_threads, U32_MAX; simpl; rewrite ?Ei; (done || lia). }
  destruct H4 as [_ E0]; [by left|]. split; simpl; unfold kernel_holds, kernel_threads, U32_MAX; simpl; try (done || lia).
  intros c Hin. destruct (H2 c Hin) as (Hv & _ & Ec). unfold valid_context in Hv. lia.
Qed.

Lemma step_inv s s' : step s s' -> inv s -> inv s'.
Proof.
  intros Hs Hi. destruct Hs.
  - apply (inv_waits _ _ _ Hi); simpl; try done; [apply in_lock_upd_same; by rewrite H0|].
    intros c'. by apply upd_filed.
  - by apply (inv_took _ _ _ Hi).
  - by apply (inv_store _ _ Hi).
  - apply (inv_waits _ _ _ Hi); simpl; try done; [apply in_lock_upd_same; by rewrite H0|].
    intros c'. apply upd_filed. by rewrite H0.
  - destruct (take_spec c d false d') as (w & -> & Hw & Hr & Hc); [unfold valid_context in *; lia|done|].
    symmetry in Hr. apply negb_false_iff in Hr. eapply (inv_contend _ _ _ _ Hi); simpl; eauto.
  - apply (inv_waits _ _ _ Hi); simpl; try done; [apply in_lock_upd_same; by rewrite H0|].
    intros c'. by apply upd_filed.
  - by apply (inv_unlock_kernel _ _ _ Hi).
  - unfold lock_free_begin in H1. destruct (negb _); [done|]. injection H1 as <-.
    apply (inv_waits _ _ _ Hi); simpl; try done; [apply in_lock_upd_same; by rewrite H0|].
    intros c'. by apply upd_filed.
  - by apply (inv_freed _ _ Hi).
  - injection H0 as Hid <-. destruct Hi as [H1 H2 H3 H4 H5 H6 H7].
    unfold kernel_holds, kernel_threads, U32_MAX in *. simpl in *.
    split; simpl; unfold kernel_holds, kernel_threads, U32_MAX; simpl; try (done || lia).
    rewrite u32_small; unfold is_u32; lia.
  - injection H0 as Hid <-. destruct Hi as [H1 H2 H3 H4 H5 H6 H7].
    unfold kernel_holds, kernel_threads, U32_MAX in *. simpl in *.
    split; simpl; unfold kernel_holds, kernel_threads, U32_MAX; simpl; try (done || lia).
    rewrite u32_small; unfold is_u32; lia.
  - destruct (take_spec DRM_KERNEL_CONTEXT d true d') as (w & -> & Hw & Hr & Hc); [unfold DRM_KERNEL_CONTEXT; lia|done|].
    symmetry in Hr. apply negb_true_iff in Hr. destruct (inv_free _ Hi Hr) as (Hn & Eid & Ek). simpl in *. subst b.
    destruct Hi as [H1 H2 H3 H4 H5 H6 H7]. unfold kernel_holds, kernel_threads in *. simpl in *.
    split; simpl; unfold kernel_holds, kernel_threads; simpl; rewrite ?Eid, ?Hw, ?Hc; try (done || lia).
    intros c Hin. by rewrite Hn in Hin.
  - destruct (take_spec DRM_KERNEL_CONTEXT d false d') as (w & -> & Hw & Hr & Hc); [unfold DRM_KERNEL_CONTEXT; lia|done|].
    symmetry in Hr. apply negb_false_iff in Hr. eapply (inv_contend _ _ _ _ Hi); simpl; eauto with lia.
  - destruct Hi as [H1 H2 H3 H4 H5 H6 H7]. unfold kernel_holds, kernel_threads in *. simpl in *.
    split; simpl; unfold kernel_holds, kernel_threads; simpl; try (done || lia).
    + intros _. apply H4. right. lia.
    + destruct (idle_has_lock d); lia.
  - by apply inv_release.
Qed.

Lemma reachable_inv s : reachable s -> inv s.
Proof.
  intros Hr. unfold reachable in Hr. remember init as s0 eqn:E.
  assert (inv s0) as H0.
  { subst. split; simpl; unfold kernel_holds, kernel_threads, U32_MAX; simpl; (done || lia). }
  clear E. induction Hr; eauto using step_inv.
Qed.

(** C39: as long as clients unlock only a lock they hold and use contexts from 1 to below 2^30, and there are fewer than 2^32 kernel threads, in
    every state the clients and kernel threads can reach the lock is held at most once:
    two clients are never inside together, no client is inside while the kernel holds the lock,
    the word is marked held exactly while somebody holds it and then names the holder, and a
    client that holds the lock is recognised as the holder when its file is closed. *)
Theorem drm_lock_mutual_exclusion s :
  reachable s ->
  (forall c c', in_lock (su s c) = true -> in_lock (su s c') = true -> c = c') /\
  (forall c, in_lock (su s c) = true -> ~ kernel_holds s) /\
  (_DRM_LOCK_IS_HELD (lock_word (sd s)) = true <->
     kernel_holds s \/ exists c, in_lock (su s c) = true) /\
  (forall c, in_lock (su s c) = true -> _DRM_LOCKING_CONTEXT (lock_word (sd s)) = c) /\
  (kernel_holds s -> _DRM_LOCKING_CONTEXT (lock_word (sd s)) = DRM_KERNEL_CONTEXT) /\
  (forall c count, su s c = UCrit -> count <> 0 -> drm_legacy_i_have_hw_lock count c (sd s) = true).
Proof.
  intros Hr. pose proof (reachable_inv s Hr) as Hi. split_and!.
  - intros c c' Hc Hc'. symmetry. by apply (inv_holder s c Hi Hc).
  - intros c Hc. destruct (inv_holder s c Hi Hc) as (_ & E1 & E2). intros [|]; [congruence|lia].
  - split.
    + intros Hh. destruct (iv_owner s Hi Hh) as [|(c & Hc & _)]; eauto.
    + intros [Hk|(c & Hc)]; [by apply (iv_kernel s Hi)|by apply (iv_user s Hi c)].
  - intros c Hc. by apply (iv_user s Hi c).
  - intros Hk. by apply (iv_kernel s Hi).
  - intros c count Hc Hn. unfold drm_legacy_i_have_hw_lock.
    destruct (iv_user s Hi c) as (_ & -> & _); [by rewrite Hc|]. rewrite (iv_file s Hi c) by (by rewrite Hc).
    rewrite bool_decide_eq_true_2 by done. destruct (count =? 0) eqn:E; [lia|done].
Qed.

(** A client asks for the free lock and gets it. *)
Lemma client_run : exists s, reachable s /\ su s 5 = UCrit.
Proof.
  eexists. split.
  - unfold reachable, init.
    eapply rtc_l; [apply (st_request 5); [unfold valid_context; lia|done]|].
    eapply rtc_l; [eapply (st_took 5); [unfold valid_context; lia|apply upd_eq|vm_compute; reflexivity]|].
    eapply rtc_l; [eapply (st_store 5); [unfold valid_context; lia|apply upd_eq]|].
    eapply rtc_l; [eapply (st_lock 5); [unfold valid_context; lia|apply upd_eq]|].
    apply rtc_refl.
  - apply upd_eq.
Qed.

Lemma drm_lock_mutual_exclusion_witness :
  exists s, reachable s /\ su s 5 = UCrit /\ _DRM_LOCKING_CONTEXT (lock_word (sd s)) = 5 /\ ~ kernel_holds s.
Proof.
  destruct client_run as (s & Hr & Hc). exists s. split; [exact Hr|]. split; [exact Hc|].
  destruct (drm_lock_mutual_exclusion s Hr) as (_ & Hk & _ & Hctx & _).
  split; [apply Hctx|apply (Hk 5)]; rewrite Hc; reflexivity.
Defined.

(** ** What clients can do *)

(** A context with bit 30 set, which the ioctl does not refuse, marks a free lock as held but is not told that it has it: nobody does. *)
Lemma drm_lock_take_large_context c d : 2 ^ 30 <= c < 2 ^ 32 -> held (lock_word d) = false ->
  exists d', drm_lock_take c d = (false, d') /\ held (lock_word d') = true.
Proof.
  intros Hc Hh. unfold drm_lock_take. rewrite Hh, andb_false_r. eexists. split.
  - f_equal. destruct (Z.eqb_spec (ctx (Z.lor (Z.lor c _DRM_LOCK_HELD) (if 1 <? u32 (user_waiters d + kernel_waiters d) then _DRM_LOCK_CONT else 0))) c) as [E|]; [|done].
    match type of E with ctx ?w = _ => pose proof (ctx_range w) end. lia.
  - cbn [set_word lock_word]. rewrite !held_lor. by rewrite (orb_comm (held c)).
Qed.

(** Whoever calls unlock frees the lock: afterwards the word is not held, or the kernel has it, whatever client was inside. *)
Lemma drm_legacy_unlock_any d :
  match lock_free_begin d with
  | (true, d') => idle_has_lock d' = true /\ ctx (lock_word d') = DRM_KERNEL_CONTEXT
  | (false, d') => held (lock_word (lock_free_end d')) = false
  end.
Proof. unfold lock_free_begin. destruct (negb _); [done|]. apply held_ctx. Qed.

(** ** A lost hand-over *)

(** The promise in the comment of [drm_legacy_idlelock_take], that the kernel gets the lock
    when it is released, fails when the request falls between the two parts of
    [drm_legacy_lock_free]: a state is reachable in which the lock is free, no call is in
    progress, a kernel thread waits for the lock and the lock has not been handed to it. *)
Theorem drm_idlelock_lost_handover : exists s, reachable s /\
  _DRM_LOCK_IS_HELD (lock_word (sd s)) = false /\ (forall c, su s c = UIdle) /\
  k_take s = 0%nat /\ k_took s = 0%nat /\ k_in s = 1%nat /\
  idle_has_lock (sd s) = false /\ kernel_waiters (sd s) = 1.
Proof.
  eexists. split.
  - unfold reachable, init.
    eapply rtc_l; [apply (st_request 5); [unfold valid_context; lia|done]|].
    eapply rtc_l; [eapply (st_took 5); [unfold valid_context; lia|apply upd_eq|vm_compute; reflexivity]|].
    eapply rtc_l; [eapply (st_store 5); [unfold valid_context; lia|apply upd_eq]|].
    eapply rtc_l; [eapply (st_lock 5); [unfold valid_context; lia|apply upd_eq]|].
    eapply rtc_l; [eapply (st_unlock 5); [unfold valid_context; lia|apply upd_eq|vm_compute; reflexivity]|].
    eapply rtc_l; [eapply st_idle_take; [vm_compute; reflexivity|vm_compute; reflexivity]|].
    eapply rtc_l; [eapply st_idle_missed; vm_compute; reflexivity|].
    eapply rtc_l; [eapply (st_free 5); [unfold valid_context; lia|apply upd_eq]|].
    apply rtc_refl.
  - simpl. split_and!; try reflexivity. intros c. unfold upd. by repeat case_decide.
Qed.
