(* ===== verification/Vblank.v ===== *)
(** * Vertical blanking: counters, interrupts and events ([drm_vblank.c])

    Each pipe of a device has a software counter of its vertical blanks, which is brought up to date from a hardware counter or from
    time stamps when an interrupt arrives and when the interrupt is switched on or off; references that keep the interrupt on; and events that
    are sent when the counter reaches a number.  A function that runs under [event_lock] or [vbl_lock] is one definition; where a
    function drops its locks in between it is a composition of such definitions.  What the hardware and the clock answer is an argument
    ([reads]), as is whether the driver can switch the interrupt on; [DIV_ROUND_CLOSEST_ULL] and the settings of the driver are in [vblank_config].

    Theorems about these definitions are in [VblankFacts]. *)

From S2P Require Import Prelude Rect Modes.
From stdpp Require Import base gmap list option sets.
From Stdlib Require Import ZArith Lia.

#[local] Open Scope Z_scope.

(** ** Data *)

(** What does not change: [max_vblank_count], [drm_vblank_offdelay], whether there is [get_vblank_timestamp], [drm_timestamp_precision],
    [DRIVER_ATOMIC], and the rounding division of the host kernel. *)
Record vblank_config := {
  c_max : Z; c_offdelay : Z; c_hook : bool; c_precision : Z; c_atomic : bool; c_closest : Z -> Z -> Z
}.

(** [struct drm_vblank_crtc]; [v_timer] tells whether [disable_timer] is armed, [v_irq] whether the hardware delivers interrupts. *)
Record drm_vblank_crtc := {
  v_count : Z; v_time : Z; v_refcount : Z; v_last : Z; v_inmodeset : Z; v_framedur_ns : Z; v_linedur_ns : Z;
  v_hwmode : crtc_timings; v_enabled : bool; v_timer : bool; v_irq : bool
}.

Definition with_count (count time last : Z) (v : drm_vblank_crtc) : drm_vblank_crtc :=
  {| v_count := count; v_time := time; v_refcount := v_refcount v; v_last := last; v_inmodeset := v_inmodeset v;
     v_framedur_ns := v_framedur_ns v; v_linedur_ns := v_linedur_ns v; v_hwmode := v_hwmode v;
     v_enabled := v_enabled v; v_timer := v_timer v; v_irq := v_irq v |}.
Definition with_refcount (n : Z) (v : drm_vblank_crtc) : drm_vblank_crtc :=
  {| v_count := v_count v; v_time := v_time v; v_refcount := n; v_last := v_last v; v_inmodeset := v_inmodeset v;
     v_framedur_ns := v_framedur_ns v; v_linedur_ns := v_linedur_ns v; v_hwmode := v_hwmode v;
     v_enabled := v_enabled v; v_timer := v_timer v; v_irq := v_irq v |}.
Definition with_inmodeset (n : Z) (v : drm_vblank_crtc) : drm_vblank_crtc :=
  {| v_count := v_count v; v_time := v_time v; v_refcount := v_refcount v; v_last := v_last v; v_inmodeset := n;
     v_framedur_ns := v_framedur_ns v; v_linedur_ns := v_linedur_ns v; v_hwmode := v_hwmode v;
     v_enabled := v_enabled v; v_timer := v_timer v; v_irq := v_irq v |}.
Definition with_mode (framedur linedur : Z) (m : crtc_timings) (v : drm_vblank_crtc) : drm_vblank_crtc :=
  {| v_count := v_count v; v_time := v_time v; v_refcount := v_refcount v; v_last := v_last v; v_inmodeset := v_inmodeset v;
     v_framedur_ns := framedur; v_linedur_ns := linedur; v_hwmode := m;
     v_enabled := v_enabled v; v_timer := v_timer v; v_irq := v_irq v |}.
Definition with_enabled (b : bool) (v : drm_vblank_crtc) : drm_vblank_crtc :=
  {| v_count := v_count v; v_time := v_time v; v_refcount := v_refcount v; v_last := v_last v; v_inmodeset := v_inmodeset v;
     v_framedur_ns := v_framedur_ns v; v_linedur_ns := v_linedur_ns v; v_hwmode := v_hwmode v;
     v_enabled := b; v_timer := v_timer v; v_irq := v_irq v |}.
Definition with_timer (b : bool) (v : drm_vblank_crtc) : drm_vblank_crtc :=
  {| v_count := v_count v; v_time := v_time v; v_refcount := v_refcount v; v_last := v_last v; v_inmodeset := v_inmodeset v;
     v_framedur_ns := v_framedur_ns v; v_linedur_ns := v_linedur_ns v; v_hwmode := v_hwmode v;
     v_enabled := v_enabled v; v_timer := b; v_irq := v_irq v |}.
Definition with_irq (b : bool) (v : drm_vblank_crtc) : drm_vblank_crtc :=
  {| v_count := v_count v; v_time := v_time v; v_refcount := v_refcount v; v_last := v_last v; v_inmodeset := v_inmodeset v;
     v_framedur_ns := v_framedur_ns v; v_linedur_ns := v_linedur_ns v; v_hwmode := v_hwmode v;
     v_enabled := v_enabled v; v_timer := v_timer v; v_irq := b |}.

Inductive event_type := DRM_EVENT_VBLANK | DRM_EVENT_FLIP_COMPLETE | DRM_EVENT_CRTC_SEQUENCE.

(** [struct drm_pending_vblank_event] *)
Record vblank_event := { e_pipe : nat; e_sequence : Z; e_type : event_type; e_user_data : Z; e_file : Z }.

(** What user space reads: [struct drm_event_vblank] and [struct drm_event_crtc_sequence]. *)
Inductive vblank_message :=
| VblankMessage (file user_data tv_sec tv_usec sequence : Z)
| SequenceMessage (file user_data time_ns sequence : Z).

(** The device: its pipes, the events that wait, what was sent, and the space that files have left for events. *)
Record vblank_device := {
  d_vblank : list drm_vblank_crtc; d_immediate : bool; d_events : list vblank_event; d_sent : list vblank_message; d_space : gmap Z Z
}.

Definition set_pipe (pipe : nat) (v : drm_vblank_crtc) (dev : vblank_device) : vblank_device :=
  {| d_vblank := <[pipe := v]> (d_vblank dev); d_immediate := d_immediate dev; d_events := d_events dev;
     d_sent := d_sent dev; d_space := d_space dev |}.
Definition set_events (l : list vblank_event) (dev : vblank_device) : vblank_device :=
  {| d_vblank := d_vblank dev; d_immediate := d_immediate dev; d_events := l; d_sent := d_sent dev; d_space := d_space dev |}.
Definition add_sent (m : vblank_message) (dev : vblank_device) : vblank_device :=
  {| d_vblank := d_vblank dev; d_immediate := d_immediate dev; d_events := d_events dev; d_sent := d_sent dev ++ [m]; d_space := d_space dev |}.
Definition set_space (m : gmap Z Z) (dev : vblank_device) : vblank_device :=
  {| d_vblank := d_vblank dev; d_immediate := d_immediate dev; d_events := d_events dev; d_sent := d_sent dev; d_space := m |}.

Definition no_timings : crtc_timings :=
  {| crtc_clock := 0; crtc_hdisplay := 0; crtc_hblank_start := 0; crtc_hblank_end := 0; crtc_hsync_start := 0; crtc_hsync_end := 0;
     crtc_htotal := 0; crtc_hskew := 0; crtc_vdisplay := 0; crtc_vblank_start := 0; crtc_vblank_end := 0; crtc_vsync_start := 0;
     crtc_vsync_end := 0; crtc_vtotal := 0 |}.

Definition fresh_vblank : drm_vblank_crtc :=
  {| v_count := 0; v_time := 0; v_refcount := 0; v_last := 0; v_inmodeset := 0; v_framedur_ns := 0; v_linedur_ns := 0;
     v_hwmode := no_timings; v_enabled := false; v_timer := false; v_irq := false |}.

(** [num_crtcs] is the length of [d_vblank]. *)
Definition drm_vblank_init (cfg : vblank_config) (num_crtcs : nat) (immediate : bool) : vblank_device :=
  {| d_vblank := replicate num_crtcs fresh_vblank; d_immediate := immediate && c_hook cfg; d_events := []; d_sent := []; d_space := ∅ |}.

(** ** Time stamps *)

(** One try at the counter and the time of the last blank: the counter, the driver's time stamp if it has one, the clock, and the counter again. *)
Record sample := { s_cur : Z; s_hook : option Z; s_now : Z; s_again : Z }.

Abbreviation reads := (nat -> sample).

Definition DRM_TIMESTAMP_MAXRETRIES : nat := 3.

Definition drm_get_last_vbltimestamp (cfg : vblank_config) (s : sample) : bool * Z :=
  let max_error := s32 (s32 (c_precision cfg) * 1000) in
  if c_hook cfg && (0 <? max_error) then
    match s_hook s with Some t => (true, t) | None => (false, s_now s) end
  else (false, s_now s).

(** [do ... while (cur_vblank != __get_vblank_counter(dev, pipe) && --count > 0)] *)
Fixpoint query (count : nat) (env : reads) : sample :=
  let s := env O in
  if s_cur s =? s_again s then s
  else match count with O | S O => s | S c => query c (fun i => env (S i)) end.

(** One query of the scan-out position: line, pixel, and the clock before and after it. *)
Record scanout := { so_vpos : Z; so_hpos : Z; so_stime : Z; so_etime : Z }.

Fixpoint scanout_loop (count : nat) (max_error : Z) (env : nat -> option scanout) : option scanout :=
  match env O with
  | None => None
  | Some q =>
    if s32 (so_etime q - so_stime q) <=? max_error then Some q
    else match count with O | S O => Some q | S c => scanout_loop c max_error (fun i => env (S i)) end
  end.

(** Result: [max_error] and the time; the outer option is a division by zero. *)
Definition drm_calc_vbltimestamp_from_scanoutpos (mode : crtc_timings) (max_error : Z) (env : nat -> option scanout) : option (Z * Z) :=
  if crtc_clock mode =? 0 then None
  else
    match scanout_loop DRM_TIMESTAMP_MAXRETRIES max_error env with
    | None => None
    | Some q =>
      let delta_ns := s32 (Z.quot (1000000 * s32 (so_vpos q * crtc_htotal mode + so_hpos q)) (crtc_clock mode)) in
      Some (s32 (so_etime q - so_stime q), s64 (so_etime q - delta_ns))
    end.

Definition drm_calc_timestamping_constants (pipe : nat) (mode : drm_display_mode) (dev : vblank_device) : vblank_device :=
  match d_vblank dev !! pipe with
  | None => dev
  | Some v =>
    let c := crtc mode in
    let dotclock := crtc_clock c in
    let frame_size := s32 (crtc_htotal c * crtc_vtotal c) in
    let linedur_ns := if 0 <? dotclock then s32 (u64 (u64 (crtc_htotal c) * 1000000) / dotclock) else 0 in
    let framedur_ns := if 0 <? dotclock then s32 (u64 (u64 frame_size * 1000000) / dotclock) else 0 in
    let framedur_ns := if has_flag (flags mode) DRM_MODE_FLAG_INTERLACE then Z.quot framedur_ns 2 else framedur_ns in
    set_pipe pipe (with_mode framedur_ns linedur_ns c v) dev
  end.

(** ** The counter *)

Definition store_vblank (inc t_vblank last : Z) (v : drm_vblank_crtc) : drm_vblank_crtc := with_count (u64 (v_count v + inc)) t_vblank last v.

Definition drm_reset_vblank_timestamp (cfg : vblank_config) (env : reads) (v : drm_vblank_crtc) : drm_vblank_crtc :=
  let s := query DRM_TIMESTAMP_MAXRETRIES env in
  let '(rc, t_vblank) := drm_get_last_vbltimestamp cfg s in
  store_vblank 1 (if rc then t_vblank else 0) (s_cur s) v.

Definition missed_vblanks (cfg : vblank_config) (in_irq rc : bool) (cur_vblank t_vblank : Z) (v : drm_vblank_crtc) : Z :=
  let diff :=
    if negb (c_max cfg =? 0) then Z.land (u32 (cur_vblank - v_last v)) (c_max cfg)
    else if rc && negb (v_framedur_ns v =? 0) then u32 (c_closest cfg (u64 (t_vblank - v_time v)) (v_framedur_ns v))
    else if in_irq then 1 else 0 in
  if (1 <? diff) && has_flag (v_inmodeset v) 0x2 then 1 else diff.

Definition drm_update_vblank_count (cfg : vblank_config) (in_irq : bool) (env : reads) (v : drm_vblank_crtc) : drm_vblank_crtc :=
  let s := query DRM_TIMESTAMP_MAXRETRIES env in
  let '(rc, t_vblank) := drm_get_last_vbltimestamp cfg s in
  let diff := missed_vblanks cfg in_irq rc (s_cur s) t_vblank v in
  if diff =? 0 then v
  else store_vblank diff (if negb rc && negb in_irq then 0 else t_vblank) (s_cur s) v.

Definition drm_vblank_disable_and_save (cfg : vblank_config) (env : reads) (v : drm_vblank_crtc) : drm_vblank_crtc :=
  let v := if v_enabled v then with_enabled false (with_irq false v) else v in
  drm_update_vblank_count cfg false env v.

Definition vblank_disable_fn (cfg : vblank_config) (env : reads) (v : drm_vblank_crtc) : drm_vblank_crtc :=
  if (v_refcount v =? 0) && v_enabled v then drm_vblank_disable_and_save cfg env v else v.

(** ** References *)

(** [ans] is the driver's error, if it has one. *)
Definition drm_vblank_enable (cfg : vblank_config) (ans : option errno) (env : reads) (v : drm_vblank_crtc) : result unit * drm_vblank_crtc :=
  if negb (v_enabled v) then
    match ans with
    | Some e => (Err e, with_refcount (s32 (v_refcount v - 1)) v)
    | None => (Ok tt, with_enabled true (drm_update_vblank_count cfg false env (with_irq true v)))
    end
  else (Ok tt, v).

Definition vblank_get (cfg : vblank_config) (ans : option errno) (env : reads) (v : drm_vblank_crtc) : result unit * drm_vblank_crtc :=
  let v := with_refcount (s32 (v_refcount v + 1)) v in
  if v_refcount v =? 1 then drm_vblank_enable cfg ans env v
  else if negb (v_enabled v) then (Err EINVAL, with_refcount (s32 (v_refcount v - 1)) v)
  else (Ok tt, v).

Definition drm_vblank_get (cfg : vblank_config) (ans : option errno) (env : reads) (pipe : nat) (dev : vblank_device) : result unit * vblank_device :=
  match d_vblank dev !! pipe with
  | None => (Err EINVAL, dev)
  | Some v => let '(r, v) := vblank_get cfg ans env v in (r, set_pipe pipe v dev)
  end.

Definition vblank_put (cfg : vblank_config) (immediate : bool) (env : reads) (v : drm_vblank_crtc) : drm_vblank_crtc :=
  if v_refcount v =? 0 then v
  else
    let v := with_refcount (s32 (v_refcount v - 1)) v in
    if v_refcount v =? 0 then
      if c_offdelay cfg =? 0 then v
      else if c_offdelay cfg <? 0 then vblank_disable_fn cfg env v
      else if negb immediate then with_timer true v
      else v
    else v.

Definition drm_vblank_put (cfg : vblank_config) (env : reads) (pipe : nat) (dev : vblank_device) : vblank_device :=
  match d_vblank dev !! pipe with
  | None => dev
  | Some v => set_pipe pipe (vblank_put cfg (d_immediate dev) env v) dev
  end.

(** [disable_timer] expires. *)
Definition disable_timer (cfg : vblank_config) (env : reads) (pipe : nat) (dev : vblank_device) : vblank_device :=
  match d_vblank dev !! pipe with
  | None => dev
  | Some v => set_pipe pipe (vblank_disable_fn cfg env (with_timer false v)) dev
  end.

Definition drm_vblank_count (pipe : nat) (dev : vblank_device) : Z := match d_vblank dev !! pipe with Some v => v_count v | None => 0 end.

Definition drm_vblank_count_and_time (pipe : nat) (dev : vblank_device) : Z * Z :=
  match d_vblank dev !! pipe with Some v => (v_count v, v_time v) | None => (0, 0) end.

Definition drm_crtc_accurate_vblank_count (cfg : vblank_config) (env : reads) (pipe : nat) (dev : vblank_device) : Z * vblank_device :=
  match d_vblank dev !! pipe with
  | None => (0, dev)
  | Some v => let dev := set_pipe pipe (drm_update_vblank_count cfg false env v) dev in (drm_vblank_count pipe dev, dev)
  end.

(** ** Events *)

Definition NSEC_PER_SEC : Z := 1000000000.

(** [ktime_to_timespec64] and the fields of the message *)
Definition vblank_message_of (e : vblank_event) (seq now : Z) : vblank_message :=
  match e_type e with
  | DRM_EVENT_VBLANK | DRM_EVENT_FLIP_COMPLETE =>
    VblankMessage (e_file e) (e_user_data e) (u32 (now / NSEC_PER_SEC)) (u32 (now mod NSEC_PER_SEC / 1000)) (u32 seq)
  | DRM_EVENT_CRTC_SEQUENCE => SequenceMessage (e_file e) (e_user_data e) now (if seq =? 0 then 0 else seq)
  end.

Definition send_vblank_event (e : vblank_event) (seq now : Z) (dev : vblank_device) : vblank_device := add_sent (vblank_message_of e seq now) dev.

Definition drm_crtc_send_vblank_event (now : Z) (pipe : nat) (e : vblank_event) (dev : vblank_device) : vblank_device :=
  let '(seq, now) := if (0 <? length (d_vblank dev))%nat then drm_vblank_count_and_time pipe dev else (0, now) in
  send_vblank_event e seq now dev.

(** The event carries a reference of the caller. *)
Definition drm_crtc_arm_vblank_event (cfg : vblank_config) (env : reads) (pipe : nat) (e : vblank_event) (dev : vblank_device) : vblank_device :=
  let '(count, dev) := drm_crtc_accurate_vblank_count cfg env pipe dev in
  let e := {| e_pipe := pipe; e_sequence := u64 (count + 1); e_type := e_type e; e_user_data := e_user_data e; e_file := e_file e |} in
  set_events (d_events dev ++ [e]) dev.

Definition vblank_passed (seq ref : Z) : bool := u64 (seq - ref) <=? Z.shiftl 1 23.

(** The loops over [vblank_event_list] of [drm_handle_vblank_events] and [drm_crtc_vblank_off]: events of the pipe for which [due] holds are
    taken out, their references put, and sent; the result also has the events that stay. *)
Fixpoint send_loop (cfg : vblank_config) (env : reads) (pipe : nat) (due : Z -> bool) (seq now : Z) (l : list vblank_event) (dev : vblank_device)
    : list vblank_event * vblank_device :=
  match l with
  | [] => ([], dev)
  | e :: l =>
    if (e_pipe e =? pipe)%nat && due (e_sequence e) then
      send_loop cfg env pipe due seq now l (send_vblank_event e seq now (drm_vblank_put cfg env pipe dev))
    else
      let '(keep, dev) := send_loop cfg env pipe due seq now l dev in (e :: keep, dev)
  end.

Definition drm_handle_vblank_events (cfg : vblank_config) (env : reads) (pipe : nat) (dev : vblank_device) : vblank_device :=
  let '(seq, now) := drm_vblank_count_and_time pipe dev in
  let '(keep, dev) := send_loop cfg env pipe (vblank_passed seq) seq now (d_events dev) dev in
  set_events keep dev.

(** [drm_handle_vblank] under [event_lock]: what it returns, and whether it then calls [vblank_disable_fn] *)
Definition handle_vblank_locked (cfg : vblank_config) (env env_put : reads) (pipe : nat) (dev : vblank_device) : bool * bool * vblank_device :=
  match d_vblank dev !! pipe with
  | None => (false, false, dev)
  | Some v =>
    if negb (v_enabled v) then (false, false, dev)
    else
      let v := drm_update_vblank_count cfg true env v in
      let disable_irq := d_immediate dev && (0 <? c_offdelay cfg) && (v_refcount v =? 0) in
      (true, disable_irq, drm_handle_vblank_events cfg env_put pipe (set_pipe pipe v dev))
  end.

Definition drm_handle_vblank (cfg : vblank_config) (env env_put env_off : reads) (pipe : nat) (dev : vblank_device) : bool * vblank_device :=
  let '(ret, disable_irq, dev) := handle_vblank_locked cfg env env_put pipe dev in
  if disable_irq then
    match d_vblank dev !! pipe with
    | Some v => (ret, set_pipe pipe (vblank_disable_fn cfg env_off v) dev)
    | None => (ret, dev)
    end
  else (ret, dev).

(** ** Switching a pipe off and on *)

Definition bump_inmodeset (v : drm_vblank_crtc) : drm_vblank_crtc :=
  if v_inmodeset v =? 0 then with_inmodeset 1 (with_refcount (s32 (v_refcount v + 1)) v) else v.

Definition drm_crtc_vblank_off (cfg : vblank_config) (env env_put : reads) (pipe : nat) (dev : vblank_device) : vblank_device :=
  match d_vblank dev !! pipe with
  | None => dev
  | Some v =>
    let v := if c_atomic cfg || (v_inmodeset v =? 0) then drm_vblank_disable_and_save cfg env v else v in
    let dev := set_pipe pipe (bump_inmodeset v) dev in
    let '(seq, now) := drm_vblank_count_and_time pipe dev in
    let '(keep, dev) := send_loop cfg env_put pipe (fun _ => true) seq now (d_events dev) dev in
    let dev := set_events keep dev in
    match d_vblank dev !! pipe with
    | Some v =>
      let m := v_hwmode v in
      let m := {| crtc_clock := 0; crtc_hdisplay := crtc_hdisplay m; crtc_hblank_start := crtc_hblank_start m; crtc_hblank_end := crtc_hblank_end m;
                  crtc_hsync_start := crtc_hsync_start m; crtc_hsync_end := crtc_hsync_end m; crtc_htotal := crtc_htotal m; crtc_hskew := crtc_hskew m;
                  crtc_vdisplay := crtc_vdisplay m; crtc_vblank_start := crtc_vblank_start m; crtc_vblank_end := crtc_vblank_end m;
                  crtc_vsync_start := crtc_vsync_start m; crtc_vsync_end := crtc_vsync_end m; crtc_vtotal := crtc_vtotal m |} in
      set_pipe pipe (with_mode (v_framedur_ns v) (v_linedur_ns v) m v) dev
    | None => dev
    end
  end.

(** [None]: the index is not checked. *)
Definition drm_crtc_vblank_reset (pipe : nat) (dev : vblank_device) : option vblank_device :=
  v ← d_vblank dev !! pipe; Some (set_pipe pipe (bump_inmodeset v) dev).

Definition vblank_on (cfg : vblank_config) (ans : option errno) (env env_enable : reads) (v : drm_vblank_crtc) : drm_vblank_crtc :=
  let v := if negb (v_inmodeset v =? 0) then with_inmodeset 0 (with_refcount (s32 (v_refcount v - 1)) v) else v in
  let v := drm_reset_vblank_timestamp cfg env v in
  if negb (v_refcount v =? 0) || (c_offdelay cfg =? 0) then snd (drm_vblank_enable cfg ans env_enable v) else v.

Definition drm_crtc_vblank_on (cfg : vblank_config) (ans : option errno) (env env_enable : reads) (pipe : nat) (dev : vblank_device) : vblank_device :=
  match d_vblank dev !! pipe with
  | None => dev
  | Some v => set_pipe pipe (vblank_on cfg ans env env_enable v) dev
  end.

Definition drm_legacy_vblank_pre_modeset (cfg : vblank_config) (ans : option errno) (env : reads) (pipe : nat) (dev : vblank_device) : vblank_device :=
  match d_vblank dev !! pipe with
  | None => dev
  | Some v =>
    if v_inmodeset v =? 0 then
      let '(r, v) := vblank_get cfg ans env (with_inmodeset 0x1 v) in
      set_pipe pipe (if is_ok r then with_inmodeset (Z.lor (v_inmodeset v) 0x2) v else v) dev
    else dev
  end.

Definition drm_legacy_vblank_post_modeset (cfg : vblank_config) (env env_put : reads) (pipe : nat) (dev : vblank_device) : vblank_device :=
  match d_vblank dev !! pipe with
  | None => dev
  | Some v =>
    if negb (v_inmodeset v =? 0) then
      let v := drm_reset_vblank_timestamp cfg env v in
      let v := if has_flag (v_inmodeset v) 0x2 then vblank_put cfg (d_immediate dev) env_put v else v in
      set_pipe pipe (with_inmodeset 0 v) dev
    else dev
  end.

Definition _DRM_PRE_MODESET : Z := 1.
Definition _DRM_POST_MODESET : Z := 2.

Definition drm_legacy_modeset_ctl_ioctl (cfg : vblank_config) (legacy : bool) (ans : option errno) (env env_put : reads) (pipe : nat) (cmd : Z)
    (dev : vblank_device) : result unit * vblank_device :=
  if (length (d_vblank dev) =? 0)%nat || negb legacy then (Ok tt, dev)
  else if (length (d_vblank dev) <=? pipe)%nat then (Err EINVAL, dev)
  else if cmd =? _DRM_PRE_MODESET then (Ok tt, drm_legacy_vblank_pre_modeset cfg ans env pipe dev)
  else if cmd =? _DRM_POST_MODESET then (Ok tt, drm_legacy_vblank_post_modeset cfg env env_put pipe dev)
  else (Err EINVAL, dev).

(** ** Requests *)

(** [union drm_wait_vblank]: [signal] of a request and [tval_sec] of a reply are the same memory. *)
Record drm_wait_vblank := { w_type : Z; w_sequence : Z; w_signal : Z; w_tval_usec : Z }.

Definition _DRM_VBLANK_RELATIVE : Z := 0x1.
Definition _DRM_VBLANK_HIGH_CRTC_MASK : Z := 0x3e.
Definition _DRM_VBLANK_HIGH_CRTC_SHIFT : Z := 1.
Definition _DRM_VBLANK_EVENT : Z := 0x4000000.
Definition _DRM_VBLANK_NEXTONMISS : Z := 0x10000000.
Definition _DRM_VBLANK_SECONDARY : Z := 0x20000000.
Definition _DRM_VBLANK_SIGNAL : Z := 0x40000000.
Definition _DRM_VBLANK_TYPES_MASK : Z := 0x1.
Definition _DRM_VBLANK_FLAGS_MASK : Z :=
  Z.lor (Z.lor _DRM_VBLANK_EVENT _DRM_VBLANK_SIGNAL) (Z.lor _DRM_VBLANK_SECONDARY _DRM_VBLANK_NEXTONMISS).

(** [sizeof] both event structures *)
Definition event_length : Z := 32.

Definition drm_event_reserve_init_locked (file : Z) (dev : vblank_device) : option vblank_device :=
  let space := default 0 (d_space dev !! file) in
  if space <? event_length then None else Some (set_space (<[file := space - event_length]> (d_space dev)) dev).

(** [drm_queue_vblank_event] and the end of [drm_crtc_queue_sequence_ioctl] under [event_lock]: [seq] and [now] are what the count and time
    are taken to be; result: the sequence that is returned. *)
Definition queue_locked (cfg : vblank_config) (env : reads) (seq now : Z) (e : vblank_event) (dev : vblank_device) : result Z * vblank_device :=
  let pipe := e_pipe e in
  match d_vblank dev !! pipe with
  | None => (Err EINVAL, dev)
  | Some v =>
    if negb (v_enabled v) then (Err EINVAL, drm_vblank_put cfg env pipe dev)
    else
      match drm_event_reserve_init_locked (e_file e) dev with
      | None => (Err ENOMEM, drm_vblank_put cfg env pipe dev)
      | Some dev =>
        if vblank_passed seq (e_sequence e) then (Ok seq, send_vblank_event e seq now (drm_vblank_put cfg env pipe dev))
        else (Ok (e_sequence e), set_events (d_events dev ++ [e]) dev)
      end
  end.

Definition set_sequence (s : Z) (w : drm_wait_vblank) : drm_wait_vblank :=
  {| w_type := w_type w; w_sequence := u32 s; w_signal := w_signal w; w_tval_usec := w_tval_usec w |}.

Definition clear_type (bits : Z) (w : drm_wait_vblank) : drm_wait_vblank :=
  {| w_type := Z.ldiff (w_type w) bits; w_sequence := w_sequence w; w_signal := w_signal w; w_tval_usec := w_tval_usec w |}.

(** [alloc]: whether there is memory for the event *)
Definition drm_queue_vblank_event (cfg : vblank_config) (alloc : bool) (env : reads) (pipe : nat) (req_seq : Z) (w : drm_wait_vblank) (file : Z)
    (dev : vblank_device) : result unit * drm_wait_vblank * vblank_device :=
  if negb alloc then (Err ENOMEM, w, drm_vblank_put cfg env pipe dev)
  else
    let e := {| e_pipe := pipe; e_sequence := req_seq; e_type := DRM_EVENT_VBLANK; e_user_data := w_signal w; e_file := file |} in
    let '(seq, now) := drm_vblank_count_and_time pipe dev in
    match queue_locked cfg env seq now e dev with
    | (Ok s, dev) => (Ok tt, set_sequence s w, dev)
    | (Err r, dev) => (Err r, w, dev)
    end.

Definition drm_wait_vblank_is_query (w : drm_wait_vblank) : bool :=
  (w_sequence w =? 0) &&
  (Z.land (w_type w) (Z.lor _DRM_VBLANK_TYPES_MASK (Z.lor _DRM_VBLANK_EVENT _DRM_VBLANK_NEXTONMISS)) =? _DRM_VBLANK_RELATIVE).

Definition widen_32_to_64 (narrow near : Z) : Z := u64 (near + s32 (narrow - near)).

Definition drm_wait_vblank_reply (pipe : nat) (w : drm_wait_vblank) (dev : vblank_device) : drm_wait_vblank :=
  let '(seq, now) := drm_vblank_count_and_time pipe dev in
  {| w_type := w_type w; w_sequence := u32 seq; w_signal := u32 (now / NSEC_PER_SEC); w_tval_usec := now mod NSEC_PER_SEC / 1000 |}.

(** The pipe of the [pipe_index]-th CRTC that the file holds a lease for. *)
Fixpoint lease_pipe (held : list bool) (pipe_index : Z) : nat :=
  match held with
  | [] => O
  | true :: held => if pipe_index =? 0 then O else S (lease_pipe held (pipe_index - 1))
  | false :: held => S (lease_pipe held pipe_index)
  end.

Definition wait_pipe (modeset : option (list bool)) (type : Z) : nat :=
  let high_pipe := Z.land type _DRM_VBLANK_HIGH_CRTC_MASK in
  let pipe_index :=
    if negb (high_pipe =? 0) then Z.shiftr high_pipe _DRM_VBLANK_HIGH_CRTC_SHIFT
    else if has_flag type _DRM_VBLANK_SECONDARY then 1 else 0 in
  match modeset with Some held => lease_pipe held pipe_index | None => Z.to_nat pipe_index end.

(** The number that is waited for, and the request as it is then. *)
Definition wait_target (seq : Z) (w : drm_wait_vblank) : Z * drm_wait_vblank :=
  let nextonmiss := has_flag (w_type w) _DRM_VBLANK_NEXTONMISS in
  let '(req_seq, w) :=
    if Z.land (w_type w) _DRM_VBLANK_TYPES_MASK =? _DRM_VBLANK_RELATIVE then
      let req_seq := u64 (seq + w_sequence w) in (req_seq, clear_type _DRM_VBLANK_RELATIVE (set_sequence req_seq w))
    else (widen_32_to_64 (w_sequence w) seq, w) in
  if nextonmiss && vblank_passed seq req_seq then
    let req_seq := u64 (seq + 1) in (req_seq, set_sequence req_seq (clear_type _DRM_VBLANK_NEXTONMISS w))
  else (req_seq, w).

Inductive wait_state :=
| WaitReturned (r : result unit)
| WaitBlocked (pipe : nat) (req_seq : Z).    (* waits on the queue of the pipe *)

Definition wait_supported : Z := Z.lor (Z.lor _DRM_VBLANK_TYPES_MASK _DRM_VBLANK_FLAGS_MASK) _DRM_VBLANK_HIGH_CRTC_MASK.

(** [drm_wait_vblank_ioctl] after the wait; [interrupted]: by a signal *)
Definition wait_vblank_finish (cfg : vblank_config) (interrupted timeout : bool) (env : reads) (pipe : nat) (w : drm_wait_vblank) (dev : vblank_device)
    : result unit * drm_wait_vblank * vblank_device :=
  let w := if interrupted then w else drm_wait_vblank_reply pipe w dev in
  (if interrupted then Err EINTR else if timeout then Err EBUSY else Ok tt, w, drm_vblank_put cfg env pipe dev).

(** [drm_wait_vblank_ioctl] until it returns or waits *)
Definition drm_wait_vblank_ioctl (cfg : vblank_config) (irq_enabled : bool) (modeset : option (list bool)) (ans : option errno) (alloc : bool)
    (env env_put : reads) (file : Z) (w : drm_wait_vblank) (dev : vblank_device) : wait_state * drm_wait_vblank * vblank_device :=
  if negb irq_enabled then (WaitReturned (Err EINVAL), w, dev)
  else if has_flag (w_type w) _DRM_VBLANK_SIGNAL then (WaitReturned (Err EINVAL), w, dev)
  else if negb (Z.ldiff (w_type w) wait_supported =? 0) then (WaitReturned (Err EINVAL), w, dev)
  else
    let pipe := wait_pipe modeset (w_type w) in
    match d_vblank dev !! pipe with
    | None => (WaitReturned (Err EINVAL), w, dev)
    | Some v =>
      if d_immediate dev && drm_wait_vblank_is_query w && v_enabled v then (WaitReturned (Ok tt), drm_wait_vblank_reply pipe w dev, dev)
      else
        let events := has_flag (w_type w) _DRM_VBLANK_EVENT in
        match drm_vblank_get cfg ans env pipe dev with
        | (Err e, dev) => (WaitReturned (Err e), w, dev)
        | (Ok _, dev) =>
          let seq := drm_vblank_count pipe dev in
          let '(req_seq, w) := wait_target seq w in
          if events then
            let '(r, w, dev) := drm_queue_vblank_event cfg alloc env_put pipe req_seq w file dev in (WaitReturned r, w, dev)
          else if negb (req_seq =? seq) then (WaitBlocked pipe req_seq, w, dev)
          else let '(r, w, dev) := wait_vblank_finish cfg false false env_put pipe w dev in (WaitReturned r, w, dev)
        end
    end.

(** When a blocked wait goes on. *)
Definition wait_over (pipe : nat) (req_seq : Z) (dev : vblank_device) : bool :=
  match d_vblank dev !! pipe with Some v => vblank_passed (v_count v) req_seq || negb (v_enabled v) | None => true end.

Definition drm_crtc_get_sequence_ioctl (cfg : vblank_config) (modeset irq_enabled : bool) (ans : option errno) (env env_put : reads) (crtc : option nat)
    (dev : vblank_device) : result (Z * Z) * vblank_device :=
  if negb modeset then (Err EINVAL, dev)
  else if negb irq_enabled then (Err EINVAL, dev)
  else
    match crtc with
    | None => (Err ENOENT, dev)
    | Some pipe =>
      let enabled := d_immediate dev && match d_vblank dev !! pipe with Some v => v_enabled v | None => false end in
      let '(r, dev) := if negb enabled then drm_vblank_get cfg ans env pipe dev else (Ok tt, dev) in
      match r with
      | Err e => (Err e, dev)
      | Ok _ =>
        let reply := drm_vblank_count_and_time pipe dev in
        (Ok reply, if negb enabled then drm_vblank_put cfg env_put pipe dev else dev)
      end
    end.

Definition DRM_CRTC_SEQUENCE_RELATIVE : Z := 0x1.
Definition DRM_CRTC_SEQUENCE_NEXT_ON_MISS : Z := 0x2.

Definition sequence_target (flags seq sequence : Z) : Z :=
  let req_seq := if has_flag flags DRM_CRTC_SEQUENCE_RELATIVE then u64 (sequence + seq) else sequence in
  if has_flag flags DRM_CRTC_SEQUENCE_NEXT_ON_MISS && vblank_passed seq req_seq then u64 (seq + 1) else req_seq.

(** [drm_crtc_queue_sequence_ioctl] before it takes [event_lock]: the event and the count and time it has read *)
Definition queue_sequence_begin (cfg : vblank_config) (modeset irq_enabled : bool) (ans : option errno) (alloc : bool) (env : reads) (crtc : option nat)
    (flags sequence user_data file : Z) (dev : vblank_device) : result (vblank_event * Z * Z) * vblank_device :=
  if negb modeset then (Err EINVAL, dev)
  else if negb irq_enabled then (Err EINVAL, dev)
  else
    match crtc with
    | None => (Err ENOENT, dev)
    | Some pipe =>
      if negb (Z.ldiff flags (Z.lor DRM_CRTC_SEQUENCE_RELATIVE DRM_CRTC_SEQUENCE_NEXT_ON_MISS) =? 0) then (Err EINVAL, dev)
      else if negb alloc then (Err ENOMEM, dev)
      else
        match drm_vblank_get cfg ans env pipe dev with
        | (Err e, dev) => (Err e, dev)
        | (Ok _, dev) =>
          let '(seq, now) := drm_vblank_count_and_time pipe dev in
          (Ok ({| e_pipe := pipe; e_sequence := sequence_target flags seq sequence; e_type := DRM_EVENT_CRTC_SEQUENCE;
                  e_user_data := user_data; e_file := file |}, seq, now), dev)
        end
    end.

Definition drm_crtc_queue_sequence_ioctl (cfg : vblank_config) (modeset irq_enabled : bool) (ans : option errno) (alloc : bool) (env env_put : reads)
    (crtc : option nat) (flags sequence user_data file : Z) (dev : vblank_device) : result Z * vblank_device :=
  match queue_sequence_begin cfg modeset irq_enabled ans alloc env crtc flags sequence user_data file dev with
  | (Err e, dev) => (Err e, dev)
  | (Ok (e, seq, now), dev) => queue_locked cfg env_put seq now e dev
  end.
