(* ===== verification/VblankFacts.v ===== *)
(** * Vertical blanking: theorems ([Vblank])

    Hardware with a frame counter is a register that holds the number of frames modulo a power of two.  All operations of a device interleave, with frames
    passing before and during each of them, as long as a counter is read before it has wrapped around once.

    Theorems: the software counter counts every frame exactly once, across interrupts that are switched off and on and across wrap-around, and
    switching a pipe on adds one; references are never lost, and whoever holds one has the interrupt on; an interrupt sends exactly the events that are
    due, in order; the number a wait is for is the closest that matches; without a hardware counter the
    missed frames are found from time stamps.  And three behaviours that differ from what is meant. *)

From S2P Require Import Prelude Rect Modes Vblank.
From stdpp Require Import base gmap list option sets relations.
From Stdlib Require Import ZArith Lia ZifyBool.

#[local] Open Scope Z_scope.

(** ** Hardware *)

(** A moment at which the driver looks at the hardware: the number of frames so far, and a bit later. *)
Record moment := { m_frame : Z; m_hook : option Z; m_now : Z; m_again : Z }.

Definition reading (cfg : vblank_config) (m : moment) : sample :=
  {| s_cur := m_frame m mod (c_max cfg + 1); s_hook := m_hook m; s_now := m_now m; s_again := m_again m mod (c_max cfg + 1) |}.

Definition hw_reads (cfg : vblank_config) (env : nat -> moment) : reads := fun i => reading cfg (env i).

(** The register has at most 32 bits. *)
Definition counter_ok (cfg : vblank_config) : Prop := exists k, 0 < k <= 32 /\ c_max cfg = 2 ^ k - 1.

(** The frame whose counter a query takes. *)
Fixpoint picked (cfg : vblank_config) (count : nat) (env : nat -> moment) : Z :=
  if m_frame (env O) mod (c_max cfg + 1) =? m_again (env O) mod (c_max cfg + 1) then m_frame (env O)
  else match count with O | S O => m_frame (env O) | S c => picked cfg c (fun i => env (S i)) end.

Definition frame_of (cfg : vblank_config) (env : nat -> moment) : Z := picked cfg DRM_TIMESTAMP_MAXRETRIES env.

Definition between (lo hi : Z) (env : nat -> moment) : Prop := forall i, lo <= m_frame (env i) <= hi.

Lemma query_picked cfg count env : s_cur (query count (hw_reads cfg env)) = picked cfg count env mod (c_max cfg + 1).
Proof.
  revert env. induction count as [|c IH]; intros env; cbn [query picked]; unfold hw_reads at 1; cbn [s_cur s_again reading];
    destruct (_ =? _); try done. destruct c as [|c]; [done|]. exact (IH (fun i => env (S i))).
Qed.

Lemma picked_between cfg count lo hi env : between lo hi env -> lo <= picked cfg count env <= hi.
Proof.
  revert env. induction count as [|c IH]; intros env H; cbn [picked]; destruct (_ =? _); try apply H.
  destruct c as [|c]; [apply H|]. apply IH. intros i. apply H.
Qed.

Lemma frame_between cfg lo hi env : between lo hi env -> lo <= frame_of cfg env <= hi.
Proof. apply picked_between. Qed.

(** ** One pipe *)

(** The count of a pipe is [off] more than the number of frames at the last look at the hardware. *)
Record count_ok (cfg : vblank_config) (off hw : Z) (v : drm_vblank_crtc) : Prop := {
  cv_last : v_last v = (v_count v - off) mod (c_max cfg + 1);
  cv_seen : v_count v - off <= hw;
  cv_count : is_u64 (v_count v);
  cv_mode : v_inmodeset v = 0 \/ v_inmodeset v = 1
}.

(** [held] references are held besides the one that keeps a pipe that is off from being used. *)
Record refs_ok (held : Z) (v : drm_vblank_crtc) : Prop := {
  rv_refs : v_refcount v = held + v_inmodeset v;
  rv_held : 0 <= held;
  rv_small : v_refcount v < 2 ^ 31;
  rv_on : v_inmodeset v = 0 -> 0 < held -> v_enabled v = true;
  rv_irq : v_irq v = v_enabled v
}.

Definition crtc_ok (cfg : vblank_config) (off hw held : Z) (v : drm_vblank_crtc) : Prop := count_ok cfg off hw v /\ refs_ok held v.

(** From the last look on, the hardware counter has not wrapped around by frame [hi], and the count will not. *)
Definition in_time (cfg : vblank_config) (off hi : Z) (v : drm_vblank_crtc) : Prop := hi - (v_count v - off) <= c_max cfg /\ off + hi < 2 ^ 64.

Lemma count_later cfg off lo hi v : count_ok cfg off lo v -> lo <= hi -> count_ok cfg off hi v.
Proof. intros [] ?. split; auto; lia. Qed.

Lemma refcount_ok held held' v n : refs_ok held v -> n = held' + v_inmodeset v -> 0 <= held' -> n < 2 ^ 31 ->
  (v_inmodeset v = 0 -> 0 < held' -> v_enabled v = true) -> refs_ok held' (with_refcount n v).
Proof. intros []; by split. Qed.

Lemma put_refs held v : refs_ok held v -> 0 < held -> refs_ok (held - 1) (with_refcount (v_refcount v - 1) v).
Proof. intros [? ? ? Hon ?] H. split; cbn; [lia..| |done]. intros Hm _. by apply Hon. Qed.

Lemma mode_fields_ok cfg off hw held v f l m : crtc_ok cfg off hw held v -> crtc_ok cfg off hw held (with_mode f l m v).
Proof. intros [[] []]. by split. Qed.

Section OnePipe.
Context (cfg : vblank_config) (Hcfg : counter_ok cfg).

Lemma counter_range : 0 < c_max cfg /\ c_max cfg + 1 <= 2 ^ 32.
Proof.
  destruct Hcfg as (k & Hk & ->). pose proof (Z.pow_gt_1 2 k). pose proof (Z.pow_le_mono_r 2 k 32). lia.
Qed.

Lemma land_counter x : Z.land (u32 x) (c_max cfg) = x mod (c_max cfg + 1).
Proof.
  destruct Hcfg as (k & Hk & ->). replace (2 ^ k - 1) with (Z.ones k) by (rewrite Z.ones_equiv; lia). rewrite Z.land_ones by lia.
  rewrite Z.ones_equiv. replace (Z.pred (2 ^ k) + 1) with (2 ^ k) by lia. unfold u32. replace 32 with (k + (32 - k)) by lia.
  rewrite Z.pow_add_r by lia. rewrite Z.rem_mul_r by (try apply Z.pow_nonzero; lia). rewrite (Z.mul_comm (2 ^ k)), Z.mod_add by (apply Z.pow_nonzero; lia).
  apply Z.mod_mod, Z.pow_nonzero; lia.
Qed.

Lemma missed_exact in_irq rc t v seen frame : v_last v = seen mod (c_max cfg + 1) -> v_inmodeset v = 0 \/ v_inmodeset v = 1 ->
  0 <= frame - seen <= c_max cfg -> missed_vblanks cfg in_irq rc (frame mod (c_max cfg + 1)) t v = frame - seen.
Proof.
  intros Hl Hm Hf. pose proof counter_range. unfold missed_vblanks. destruct (Z.eqb_spec (c_max cfg) 0) as [|_]; [lia|]. cbn [negb].
  rewrite land_counter, Hl, <- Zminus_mod, Z.mod_small by lia. destruct Hm as [-> | ->]; cbn; by rewrite andb_false_r.
Qed.

(** An update changes only count, time and last reading. *)
Lemma update_shape in_irq env v : exists c t l, drm_update_vblank_count cfg in_irq env v = with_count c t l v.
Proof.
  unfold drm_update_vblank_count. destruct (drm_get_last_vbltimestamp _ _) as [rc t]. destruct (_ =? 0); [|by eexists _, _, _].
  exists (v_count v), (v_time v), (v_last v). by destruct v.
Qed.

Lemma update_refs held in_irq env v : refs_ok held v -> refs_ok held (drm_update_vblank_count cfg in_irq env v).
Proof. destruct (update_shape in_irq env v) as (c & t & l & ->). by intros []. Qed.

Section Moment.
Context (off lo hi : Z) (env : nat -> moment) (Hb : between lo hi env).

Lemma between_le : lo <= hi.
Proof. specialize (Hb O). lia. Qed.

(** The count after an update is that of the frame it has looked at. *)
Lemma update_counts in_irq v : count_ok cfg off lo v -> in_time cfg off hi v ->
  let v' := drm_update_vblank_count cfg in_irq (hw_reads cfg env) v in v_count v' = off + frame_of cfg env /\ count_ok cfg off hi v'.
Proof.
  intros [Hl Hs Hc Hm] [Ht1 Ht2]. cbv zeta. unfold drm_update_vblank_count, frame_of. rewrite query_picked.
  pose proof (picked_between cfg DRM_TIMESTAMP_MAXRETRIES lo hi env Hb) as Hp. unfold is_u64 in Hc.
  destruct (drm_get_last_vbltimestamp _ _) as [rc t]. rewrite (missed_exact in_irq rc t v (v_count v - off) _ Hl Hm) by lia.
  destruct (Z.eqb_spec (picked cfg DRM_TIMESTAMP_MAXRETRIES env - (v_count v - off)) 0) as [E|E]; [split; [lia|by split; auto; lia]|].
  unfold store_vblank. rewrite u64_small by (unfold is_u64; lia). split; [cbn; lia|].
  split; cbn [v_last v_count v_inmodeset with_count]; [f_equal; lia|lia|unfold is_u64; lia|done].
Qed.

(** It does not go back. *)
Lemma update_mono in_irq v : count_ok cfg off lo v -> in_time cfg off hi v -> v_count v <= v_count (drm_update_vblank_count cfg in_irq (hw_reads cfg env) v).
Proof.
  intros Hc Ht. destruct (update_counts in_irq v Hc Ht) as [-> _]. pose proof (frame_between cfg lo hi env Hb). pose proof (cv_seen _ _ _ _ Hc). lia.
Qed.

Lemma disable_mono v : count_ok cfg off lo v -> in_time cfg off hi v -> v_count v <= v_count (drm_vblank_disable_and_save cfg (hw_reads cfg env) v).
Proof.
  intros Hc Ht. unfold drm_vblank_disable_and_save. destruct (v_enabled v); [|by apply update_mono].
  by apply (update_mono false (with_enabled false (with_irq false v))); [destruct Hc|].
Qed.

Lemma update_ok held in_irq v : crtc_ok cfg off lo held v -> in_time cfg off hi v ->
  crtc_ok cfg off hi held (drm_update_vblank_count cfg in_irq (hw_reads cfg env) v).
Proof. intros [Hc Hr] Ht. split; [by apply update_counts|by apply update_refs]. Qed.

Lemma disable_count v : count_ok cfg off lo v -> in_time cfg off hi v -> count_ok cfg off hi (drm_vblank_disable_and_save cfg (hw_reads cfg env) v).
Proof. intros Hc Ht. unfold drm_vblank_disable_and_save. apply update_counts; destruct (v_enabled v); try done. by destruct Hc. Qed.

Lemma disable_fn_ok held v : crtc_ok cfg off lo held v -> in_time cfg off hi v -> crtc_ok cfg off hi held (vblank_disable_fn cfg (hw_reads cfg env) v).
Proof.
  intros [Hc Hr] Ht. unfold vblank_disable_fn. destruct (_ && _) eqn:E; [|split; [by apply (count_later _ _ lo), between_le|done]].
  split; [by apply disable_count|]. unfold drm_vblank_disable_and_save. apply update_refs. destruct (v_enabled v); [|done].
  destruct Hr as [H ? ? ? ?]. split; cbn; auto. lia.
Qed.

(** Switching the interrupt on for one who already has a reference. *)
Lemma enable_ok held v : count_ok cfg off lo v -> refs_ok held (with_enabled true (with_irq true v)) -> v_irq v = v_enabled v -> in_time cfg off hi v ->
  crtc_ok cfg off hi held (snd (drm_vblank_enable cfg None (hw_reads cfg env) v)).
Proof.
  intros Hc Hr Ei Ht. unfold drm_vblank_enable. destruct (v_enabled v) eqn:Ev; cbn [negb snd].
  - split; [by apply (count_later _ _ lo), between_le|]. destruct v. cbn in *. by subst.
  - split.
    + destruct (update_counts false (with_irq true v)) as [_ H]; [by destruct Hc|done|]. by destruct H.
    + destruct (update_shape false (hw_reads cfg env) (with_irq true v)) as (c & t & l & ->). by destruct Hr.
Qed.

Lemma get_ok ans held v : crtc_ok cfg off lo held v -> v_refcount v + 1 < 2 ^ 31 -> in_time cfg off hi v ->
  let '(r, v') := vblank_get cfg ans (hw_reads cfg env) v in crtc_ok cfg off hi (if is_ok r then held + 1 else held) v'.
Proof.
  intros [Hc Hrf] Hs Ht. pose proof between_le as Hle. pose proof (cv_mode _ _ _ _ Hc) as Hm. pose proof Hrf as [Hr Hh _ Hon Hi].
  pose proof (count_later _ _ _ _ _ Hc Hle) as Hc'. unfold vblank_get. rewrite s32_small by (unfold is_s32; lia). cbn [v_refcount with_refcount v_enabled].
  replace (v_refcount v + 1 - 1) with (v_refcount v) by lia.
  assert (crtc_ok cfg off hi held (with_refcount (s32 (v_refcount v)) (with_refcount (v_refcount v + 1) v))) as Hback.
  { rewrite s32_small by (unfold is_s32; lia). by destruct v. }
  assert (v_enabled v = true -> crtc_ok cfg off hi (held + 1) (with_refcount (v_refcount v + 1) v)) as Hmore.
  { intros Hv. split; [by destruct Hc'|]. apply (refcount_ok held); [done|lia..|done]. }
  destruct (Z.eqb_spec (v_refcount v + 1) 1) as [E|E]; [|by destruct (v_enabled v); cbn [negb is_ok]; [apply Hmore|]].
  assert (v_inmodeset v = 0 /\ held = 0) as [Em ->] by lia.
  destruct (drm_vblank_enable _ _ _ _) as [r v'] eqn:Ee. unfold drm_vblank_enable in Ee. destruct ans as [e|].
  - cbn [v_enabled v_refcount with_refcount] in Ee. replace (v_refcount v + 1 - 1) with (v_refcount v) in Ee by lia.
    destruct (v_enabled v); cbn [negb] in Ee; injection Ee as <- <-; cbn [is_ok]; [by apply Hmore|done].
  - assert (r = Ok tt) as -> by (destruct (negb _); by injection Ee as <- <-). cbn [is_ok].
    replace v' with (snd (drm_vblank_enable cfg None (hw_reads cfg env) (with_refcount (v_refcount v + 1) v))) by (unfold drm_vblank_enable; by rewrite Ee).
    apply enable_ok; [by destruct Hc| |exact Hi|exact Ht]. split; cbn; auto; lia.
Qed.

(** A put that is not the last only lowers the number. *)
Lemma put_small immediate v : 1 < v_refcount v < 2 ^ 31 -> vblank_put cfg immediate (hw_reads cfg env) v = with_refcount (v_refcount v - 1) v.
Proof.
  intros H. unfold vblank_put. rewrite s32_small by (unfold is_s32; lia). cbn [v_refcount with_refcount].
  destruct (Z.eqb_spec (v_refcount v) 0); [lia|]. destruct (Z.eqb_spec (v_refcount v - 1) 0); [lia|done].
Qed.

Lemma put_ok immediate held v : crtc_ok cfg off lo held v -> 0 < held -> in_time cfg off hi v ->
  crtc_ok cfg off hi (held - 1) (vblank_put cfg immediate (hw_reads cfg env) v).
Proof.
  intros [Hc Hr] H0 Ht. pose proof (put_refs held v Hr H0) as Hd. pose proof (count_later _ _ _ _ _ Hc between_le) as Hc'. pose proof (cv_mode _ _ _ _ Hc) as Hm.
  destruct Hr as [Hr _ Hs _ _]. destruct (decide (1 < v_refcount v)) as [H1|H1]; [rewrite put_small by lia; split; [by destruct Hc'|done]|].
  unfold vblank_put. rewrite s32_small by (unfold is_s32; lia). cbn [v_refcount with_refcount].
  destruct (Z.eqb_spec (v_refcount v) 0); [lia|]. destruct (Z.eqb_spec (v_refcount v - 1) 0) as [_|]; [|lia].
  destruct (_ =? 0); [split; [by destruct Hc'|done]|]. destruct (_ <? 0); [apply disable_fn_ok; [split; [by destruct Hc|done]|done]|].
  destruct (negb immediate); (split; [by destruct Hc'|by destruct Hd]).
Qed.

(** Putting the references of [n] events one after the other. *)
Lemma puts_small immediate n v : Z.of_nat n < v_refcount v < 2 ^ 31 ->
  Nat.iter n (vblank_put cfg immediate (hw_reads cfg env)) v = with_refcount (v_refcount v - Z.of_nat n) v.
Proof.
  induction n as [|n IH]; intros H; [cbn; rewrite Z.sub_0_r; by destruct v|].
  rewrite Nat.iter_succ, IH by lia. rewrite put_small by (cbn; lia). unfold with_refcount. cbn. f_equal. lia.
Qed.

Lemma puts_ok immediate n held v : crtc_ok cfg off lo held v -> Z.of_nat n <= held -> in_time cfg off hi v ->
  crtc_ok cfg off hi (held - Z.of_nat n) (Nat.iter n (vblank_put cfg immediate (hw_reads cfg env)) v).
Proof.
  intros [Hc Hr] Hn Ht. destruct n as [|n]; [cbn; rewrite Z.sub_0_r; split; [by apply (count_later _ _ lo), between_le|done]|].
  pose proof (cv_mode _ _ _ _ Hc) as Hm. pose proof Hr as [Hrf _ Hs Hon _].
  rewrite Nat.iter_succ, puts_small by lia. replace (held - Z.of_nat (S n)) with (held - Z.of_nat n - 1) by lia.
  apply put_ok; [split; [by destruct Hc|]|lia|exact Ht]. apply (refcount_ok held); [done|lia..|]. intros Hm0 _. apply (Hon Hm0). lia.
Qed.

(** A pipe that is switched off; [held] does not change. *)
Lemma off_ok atomic held v : crtc_ok cfg off lo held v -> v_refcount v + 1 < 2 ^ 31 -> in_time cfg off hi v ->
  crtc_ok cfg off hi held (bump_inmodeset (if atomic || (v_inmodeset v =? 0) then drm_vblank_disable_and_save cfg (hw_reads cfg env) v else v)).
Proof.
  intros [Hc [Hr Hh Hs Hon Hi]] Hs1 Ht. set (v1 := if atomic || (v_inmodeset v =? 0) then drm_vblank_disable_and_save cfg (hw_reads cfg env) v else v).
  assert (count_ok cfg off hi v1) as Hc1.
  { subst v1. destruct (_ || _); [by apply disable_count|by apply (count_later _ _ lo), between_le]. }
  assert (v_inmodeset v1 = v_inmodeset v /\ v_refcount v1 = v_refcount v /\ v_irq v1 = v_enabled v1) as (Hm1 & Hr1 & Hi1).
  { subst v1. destruct (_ || _); [|done]. unfold drm_vblank_disable_and_save.
    destruct (update_shape false (hw_reads cfg env) (if v_enabled v then with_enabled false (with_irq false v) else v)) as (c & t & l & ->).
    by destruct (v_enabled v) eqn:Ev; cbn; rewrite ?Hi. }
  pose proof (cv_mode _ _ _ _ Hc) as Hm. unfold bump_inmodeset. rewrite Hm1, Hr1. rewrite s32_small by (unfold is_s32; lia).
  destruct (Z.eqb_spec (v_inmodeset v) 0) as [E|E].
  - split; [destruct Hc1; split; cbn; auto|split; cbn; auto; lia].
  - split; [done|]. split; rewrite ?Hm1, ?Hr1; auto; lia.
Qed.

End Moment.

(** A pipe that is switched on. *)
Lemma on_ok off lo hi hi' env env_enable held v : crtc_ok cfg off lo held v -> between lo hi env -> between hi hi' env_enable -> hi' - lo <= c_max cfg ->
  let off' := v_count v + 1 - frame_of cfg env in off' + hi' < 2 ^ 64 ->
  crtc_ok cfg off' hi' held (vblank_on cfg None (hw_reads cfg env) (hw_reads cfg env_enable) v).
Proof.
  cbv zeta. intros [Hc [Hr Hh Hs Hon Hi]] Hb Hb' Hw Ht. pose proof (frame_between cfg lo hi env Hb) as Hf.
  pose proof (cv_mode _ _ _ _ Hc) as Hm. pose proof (cv_count _ _ _ _ Hc) as Hu. unfold is_u64 in Hu.
  assert (hi <= hi') as Hle by (specialize (Hb' O); lia).
  unfold vblank_on. set (v1 := if negb (v_inmodeset v =? 0) then with_inmodeset 0 (with_refcount (s32 (v_refcount v - 1)) v) else v).
  assert (v_count v1 = v_count v /\ v_inmodeset v1 = 0 /\ v_refcount v1 = held /\ v_enabled v1 = v_enabled v /\ v_irq v1 = v_irq v) as (C1 & M1 & R1 & E1 & I1).
  { subst v1. destruct (Z.eqb_spec (v_inmodeset v) 0); cbn; [repeat split; auto; lia|].
    rewrite s32_small by (unfold is_s32; lia). repeat split; auto; lia. }
  set (v2 := drm_reset_vblank_timestamp _ _ _).
  assert (v_count v2 = v_count v + 1 /\ v_last v2 = frame_of cfg env mod (c_max cfg + 1) /\ v_inmodeset v2 = 0 /\ v_refcount v2 = held /\
    v_enabled v2 = v_enabled v /\ v_irq v2 = v_irq v) as (C2 & L2 & M2 & R2 & E2 & I2).
  { subst v2. unfold drm_reset_vblank_timestamp, frame_of. rewrite query_picked. destruct (drm_get_last_vbltimestamp _ _) as [rc t]. cbn.
    rewrite C1, u64_small by (unfold is_u64; lia). by repeat split. }
  clearbody v1 v2.
  assert (count_ok cfg (v_count v + 1 - frame_of cfg env) hi v2) as Hc2.
  { split; rewrite ?C2, ?L2, ?M2; [f_equal; lia|lia|unfold is_u64; lia|by left]. }
  rewrite R2. destruct (negb (held =? 0) || (c_offdelay cfg =? 0)) eqn:Eg.
  - apply enable_ok with (lo := hi); [done|done| | |split; rewrite ?C2; lia].
    + split; cbn; rewrite ?M2; auto; lia.
    + by rewrite E2, I2.
  - split; [by apply (count_later _ _ hi)|]. split; rewrite ?M2, ?I2, ?E2; auto; lia.
Qed.

End OnePipe.

(** ** The loops over events *)

Definition selected (pipe : nat) (due : Z -> bool) (e : vblank_event) : bool := (e_pipe e =? pipe)%nat && due (e_sequence e).

Lemma send_loop_spec cfg env pipe due seq now l dev v : d_vblank dev !! pipe = Some v ->
  send_loop cfg env pipe due seq now l dev =
    (List.filter (fun e => negb (selected pipe due e)) l,
     {| d_vblank := <[pipe := Nat.iter (length (List.filter (selected pipe due) l)) (vblank_put cfg (d_immediate dev) env) v]> (d_vblank dev);
        d_immediate := d_immediate dev; d_events := d_events dev;
        d_sent := d_sent dev ++ map (fun e => vblank_message_of e seq now) (List.filter (selected pipe due) l); d_space := d_space dev |}).
Proof.
  revert dev v. induction l as [|e l IH]; intros dev v Hv; cbn [send_loop List.filter length map].
  - rewrite app_nil_r. cbn [Nat.iter nat_rect]. rewrite list_insert_id by done. by destruct dev.
  - fold (selected pipe due e). destruct (selected pipe due e) eqn:Es; cbn [negb length map].
    + unfold drm_vblank_put. rewrite Hv. erewrite IH by (cbn; by apply list_lookup_insert_eq, (lookup_lt_Some _ _ _ Hv)).
      cbn. rewrite list_insert_insert_eq, <- Nat.iter_succ_r, <- app_assoc. done.
    + by rewrite (IH _ v Hv).
Qed.

Definition due_events (pipe : nat) (due : Z -> bool) (dev : vblank_device) : list vblank_event := List.filter (selected pipe due) (d_events dev).

(** The device after the events that are due are sent. *)
Definition after_events (cfg : vblank_config) (env : reads) (pipe : nat) (due : Z -> bool) (v : drm_vblank_crtc) (dev : vblank_device) : vblank_device :=
  {| d_vblank := <[pipe := Nat.iter (length (due_events pipe due dev)) (vblank_put cfg (d_immediate dev) env) v]> (d_vblank dev);
     d_immediate := d_immediate dev; d_events := List.filter (fun e => negb (selected pipe due e)) (d_events dev);
     d_sent := d_sent dev ++ map (fun e => vblank_message_of e (v_count v) (v_time v)) (due_events pipe due dev); d_space := d_space dev |}.

Lemma handle_events_spec cfg env pipe v dev : d_vblank dev !! pipe = Some v ->
  drm_handle_vblank_events cfg env pipe dev = after_events cfg env pipe (vblank_passed (v_count v)) v dev.
Proof. intros Hv. unfold drm_handle_vblank_events, drm_vblank_count_and_time. rewrite Hv. by rewrite (send_loop_spec _ _ _ _ _ _ _ _ v Hv). Qed.

(** ** All operations of a device *)

(** How many events wait for a pipe. *)
Definition on_pipe (pipe : nat) (e : vblank_event) : bool := (e_pipe e =? pipe)%nat.
Definition waiting (pipe : nat) (l : list vblank_event) : Z := Z.of_nat (length (List.filter (on_pipe pipe) l)).

Lemma waiting_nonneg pipe l : 0 <= waiting pipe l.
Proof. unfold waiting. lia. Qed.

Lemma waiting_rest pipe due l : waiting pipe (List.filter (fun e => negb (selected pipe due e)) l) = waiting pipe l - Z.of_nat (length (List.filter (selected pipe due) l)).
Proof.
  unfold waiting, selected, on_pipe. induction l as [|e l IH]; [done|]. cbn [List.filter].
  destruct (e_pipe e =? pipe)%nat eqn:Ep; cbn [andb negb]; [destruct (due (e_sequence e)); cbn [negb]|]; cbn [List.filter length]; rewrite ?Ep; cbn [length]; lia.
Qed.

Lemma waiting_other pipe due q l : q <> pipe -> waiting q (List.filter (fun e => negb (selected pipe due e)) l) = waiting q l.
Proof.
  intros Hq. unfold waiting, selected, on_pipe. f_equal. induction l as [|e l IH]; [done|]. cbn [List.filter].
  destruct (Nat.eqb_spec (e_pipe e) pipe) as [E|E]; cbn [andb negb].
  - assert ((e_pipe e =? q)%nat = false) as Eq by (apply Nat.eqb_neq; congruence). rewrite Eq. destruct (due _); cbn [negb List.filter]; by rewrite ?Eq.
  - cbn [List.filter]. destruct (e_pipe e =? q)%nat; cbn [length]; [by f_equal|done].
Qed.

Lemma waiting_snoc pipe l e : waiting pipe (l ++ [e]) = waiting pipe l + (if on_pipe pipe e then 1 else 0).
Proof. unfold waiting. rewrite List.filter_app, length_app. cbn. destruct (on_pipe pipe e); cbn; lia. Qed.

(** Of each pipe: frames so far, count minus frames, and the references that callers hold. *)
Record pipe_state := { p_hw : Z; p_off : Z; p_users : Z }.

Record vblank_sys := { y_dev : vblank_device; y_pipes : list pipe_state }.

Definition at_pipe (pipe : nat) (y : vblank_sys) (v : drm_vblank_crtc) (ps : pipe_state) : Prop :=
  d_vblank (y_dev y) !! pipe = Some v /\ y_pipes y !! pipe = Some ps.

(** The operation looks at the hardware from now until frame [hi]. *)
Definition looks (cfg : vblank_config) (ps : pipe_state) (v : drm_vblank_crtc) (hi : Z) (env : nat -> moment) : Prop :=
  between (p_hw ps) hi env /\ in_time cfg (p_off ps) hi v.

Definition next (pipe : nat) (dev : vblank_device) (hi off users : Z) (y : vblank_sys) : vblank_sys :=
  {| y_dev := dev; y_pipes := <[pipe := {| p_hw := hi; p_off := off; p_users := users |}]> (y_pipes y) |}.

Section System.
Context (cfg : vblank_config).
Let hw := hw_reads cfg.

(** One operation of a KMS driver, with the frames that pass meanwhile.  Callers put and hand over only references they have; there is room for one
    more reference; the register is read before it has wrapped around since the last look; and when a pipe is switched on, enabling its interrupt succeeds.
    [DRM_IOCTL_MODESET_CTL], the only way to [drm_legacy_vblank_pre_modeset] and [drm_legacy_vblank_post_modeset], reaches them on legacy drivers only,
    which have no CRTCs to switch on and off. *)
Inductive vblank_step (y : vblank_sys) : vblank_sys -> Prop :=
| step_frames p v ps hi : at_pipe p y v ps -> p_hw ps <= hi -> vblank_step y (next p (y_dev y) hi (p_off ps) (p_users ps) y)
| step_irq p v ps mid hi env env_put r disable dev' : at_pipe p y v ps -> looks cfg ps v mid env -> between mid hi env_put -> in_time cfg (p_off ps) hi v ->
    handle_vblank_locked cfg (hw env) (hw env_put) p (y_dev y) = (r, disable, dev') -> vblank_step y (next p dev' hi (p_off ps) (p_users ps) y)
| step_disable p v ps hi env : at_pipe p y v ps -> looks cfg ps v hi env ->
    vblank_step y (next p (disable_timer cfg (hw env) p (y_dev y)) hi (p_off ps) (p_users ps) y)
| step_get p v ps hi env ans r dev' : at_pipe p y v ps -> looks cfg ps v hi env -> v_refcount v + 1 < 2 ^ 31 ->
    drm_vblank_get cfg ans (hw env) p (y_dev y) = (r, dev') -> vblank_step y (next p dev' hi (p_off ps) (if is_ok r then p_users ps + 1 else p_users ps) y)
| step_put p v ps hi env : at_pipe p y v ps -> looks cfg ps v hi env -> 0 < p_users ps ->
    vblank_step y (next p (drm_vblank_put cfg (hw env) p (y_dev y)) hi (p_off ps) (p_users ps - 1) y)
| step_accurate p v ps hi env c dev' : at_pipe p y v ps -> looks cfg ps v hi env ->
    drm_crtc_accurate_vblank_count cfg (hw env) p (y_dev y) = (c, dev') -> vblank_step y (next p dev' hi (p_off ps) (p_users ps) y)
| step_arm p v ps hi env e : at_pipe p y v ps -> looks cfg ps v hi env -> 0 < p_users ps ->
    vblank_step y (next p (drm_crtc_arm_vblank_event cfg (hw env) p e (y_dev y)) hi (p_off ps) (p_users ps - 1) y)
| step_queue p v ps hi env seq now e r dev' : at_pipe p y v ps -> looks cfg ps v hi env -> 0 < p_users ps -> e_pipe e = p ->
    queue_locked cfg (hw env) seq now e (y_dev y) = (r, dev') -> vblank_step y (next p dev' hi (p_off ps) (p_users ps - 1) y)
| step_off p v ps mid hi env env_put : at_pipe p y v ps -> looks cfg ps v mid env -> between mid hi env_put -> in_time cfg (p_off ps) hi v ->
    v_refcount v + 1 < 2 ^ 31 -> vblank_step y (next p (drm_crtc_vblank_off cfg (hw env) (hw env_put) p (y_dev y)) hi (p_off ps) (p_users ps) y)
| step_reset p v ps dev' : at_pipe p y v ps -> v_refcount v + 1 < 2 ^ 31 -> drm_crtc_vblank_reset p (y_dev y) = Some dev' ->
    vblank_step y (next p dev' (p_hw ps) (p_off ps) (p_users ps) y)
| step_on p v ps mid hi env env_enable : at_pipe p y v ps -> between (p_hw ps) mid env -> between mid hi env_enable -> hi - p_hw ps <= c_max cfg ->
    v_count v + 1 - frame_of cfg env + hi < 2 ^ 64 ->
    vblank_step y (next p (drm_crtc_vblank_on cfg None (hw env) (hw env_enable) p (y_dev y)) hi (v_count v + 1 - frame_of cfg env) (p_users ps) y)
| step_constants p v ps mode : at_pipe p y v ps ->
    vblank_step y (next p (drm_calc_timestamping_constants p mode (y_dev y)) (p_hw ps) (p_off ps) (p_users ps) y)
| step_modeset_ctl p v ps ans env env_put pipe cmd r dev' : at_pipe p y v ps ->
    drm_legacy_modeset_ctl_ioctl cfg false ans (hw env) (hw env_put) pipe cmd (y_dev y) = (r, dev') -> vblank_step y (next p dev' (p_hw ps) (p_off ps) (p_users ps) y).

(** A device with [n] pipes and the space [space] of files for events. *)
Definition vblank_start (n : nat) (immediate : bool) (space : gmap Z Z) : vblank_sys :=
  {| y_dev := set_space space (drm_vblank_init cfg n immediate); y_pipes := replicate n {| p_hw := 0; p_off := 0; p_users := 0 |} |}.

Definition vblank_reachable (y : vblank_sys) : Prop := exists n immediate space, rtc vblank_step (vblank_start n immediate space) y.

Definition sys_ok (y : vblank_sys) : Prop := forall p v ps, at_pipe p y v ps ->
  crtc_ok cfg (p_off ps) (p_hw ps) (p_users ps + waiting p (d_events (y_dev y))) v /\ 0 <= p_users ps.

Context (Hcfg : counter_ok cfg).

(** A step of pipe [p] that changes nothing else. *)
Lemma next_ok p v ps dev' v' hi off users y : sys_ok y -> at_pipe p y v ps -> d_vblank dev' = <[p := v']> (d_vblank (y_dev y)) ->
  (forall q, q <> p -> waiting q (d_events dev') = waiting q (d_events (y_dev y))) ->
  crtc_ok cfg off hi (users + waiting p (d_events dev')) v' -> 0 <= users -> sys_ok (next p dev' hi off users y).
Proof.
  intros Hy [Hv Hp] Ed Ew Hc Hu q w qs [Hq1 Hq2]. cbn [y_dev y_pipes next] in *. rewrite Ed in Hq1. destruct (decide (q = p)) as [->|Hne].
  - rewrite list_lookup_insert_eq in Hq1 by (by apply (lookup_lt_Some _ _ _ Hv)). rewrite list_lookup_insert_eq in Hq2 by (by apply (lookup_lt_Some _ _ _ Hp)).
    apply (inj Some) in Hq1 as <-, Hq2 as <-. cbn. done.
  - rewrite list_lookup_insert_ne in Hq1 by done. rewrite list_lookup_insert_ne in Hq2 by done. rewrite Ew by done. apply Hy. by split.
Qed.

Lemma iter_puts_ok p (due : Z -> bool) l off lo hi env immediate users v : between lo hi env -> 0 <= users ->
  crtc_ok cfg off lo (users + waiting p l) v -> in_time cfg off hi v ->
  crtc_ok cfg off hi (users + waiting p (List.filter (fun e => negb (selected p due e)) l))
    (Nat.iter (length (List.filter (selected p due) l)) (vblank_put cfg immediate (hw env)) v).
Proof.
  intros Hb Hu Hc Ht. pose proof (waiting_rest p due l) as Hw. pose proof (waiting_nonneg p (List.filter (fun e => negb (selected p due e)) l)) as Hn.
  replace (users + waiting p (List.filter _ l)) with (users + waiting p l - Z.of_nat (length (List.filter (selected p due) l))) by lia.
  apply (puts_ok cfg Hcfg off lo hi env Hb); [done|lia|done].
Qed.

Lemma in_time_more off hi v v' : in_time cfg off hi v -> v_count v <= v_count v' -> in_time cfg off hi v'.
Proof. intros [? ?] ?. split; lia. Qed.

(** A pipe whose waiting events do not change. *)
Lemma next_same p v ps dev' v' hi off users y : sys_ok y -> at_pipe p y v ps -> d_vblank dev' = <[p := v']> (d_vblank (y_dev y)) ->
  d_events dev' = d_events (y_dev y) -> crtc_ok cfg off hi (users + waiting p (d_events (y_dev y))) v' -> 0 <= users -> sys_ok (next p dev' hi off users y).
Proof. intros Hy Hat Ed Ee Hc Hu. apply (next_ok p v ps dev' v'); rewrite ?Ee; auto. Qed.

Lemma irq_step_ok p v ps mid hi env env_put r disable dev' y : sys_ok y -> at_pipe p y v ps -> looks cfg ps v mid env -> between mid hi env_put ->
  in_time cfg (p_off ps) hi v -> handle_vblank_locked cfg (hw env) (hw env_put) p (y_dev y) = (r, disable, dev') ->
  sys_ok (next p dev' hi (p_off ps) (p_users ps) y).
Proof.
  intros Hy Hat [Hb Ht] Hb2 Ht2 E. destruct (Hy p v ps Hat) as [Hc Hu]. pose proof (between_le _ _ _ Hb) as Hle. pose proof (between_le _ _ _ Hb2) as Hle2.
  pose proof Hat as [Hv Hp]. unfold handle_vblank_locked in E. rewrite Hv in E. destruct (v_enabled v); cbn [negb] in E; injection E as <- <- <-.
  - set (w := drm_update_vblank_count cfg true (hw env) v) in *.
    assert (d_vblank (set_pipe p w (y_dev y)) !! p = Some w) as Hw by (by apply list_lookup_insert_eq, (lookup_lt_Some _ _ _ Hv)).
    rewrite (handle_events_spec _ _ _ w _ Hw). eapply next_ok; [done|done|apply list_insert_insert_eq| | |done].
    + intros q Hq. by apply waiting_other.
    + apply (iter_puts_ok p _ _ _ mid hi); [done|done|by apply (update_ok cfg Hcfg (p_off ps) (p_hw ps) mid env)|].
      apply (in_time_more _ _ v); [done|]. by apply (update_mono cfg Hcfg (p_off ps) (p_hw ps) mid env Hb true v), Ht; destruct Hc.
  - apply (next_same p v ps _ v); [done|done|by rewrite list_insert_id|done| |done]. destruct Hc as [Hc Hr]. split; [|done].
    apply (count_later _ _ (p_hw ps)); [done|lia].
Qed.

Lemma off_step_ok p v ps mid hi env env_put y : sys_ok y -> at_pipe p y v ps -> looks cfg ps v mid env -> between mid hi env_put ->
  in_time cfg (p_off ps) hi v -> v_refcount v + 1 < 2 ^ 31 ->
  sys_ok (next p (drm_crtc_vblank_off cfg (hw env) (hw env_put) p (y_dev y)) hi (p_off ps) (p_users ps) y).
Proof.
  intros Hy Hat [Hb Ht] Hb2 Ht2 Hs. destruct (Hy p v ps Hat) as [Hc Hu]. pose proof Hat as [Hv Hp].
  unfold drm_crtc_vblank_off. rewrite Hv. pose proof (off_ok cfg Hcfg (p_off ps) (p_hw ps) mid env Hb (c_atomic cfg) _ v Hc Hs Ht) as Ho.
  assert (v_count v <= v_count (if c_atomic cfg || (v_inmodeset v =? 0) then drm_vblank_disable_and_save cfg (hw env) v else v)) as Hm.
  { destruct (_ || _); [|lia]. by apply (disable_mono cfg Hcfg (p_off ps) (p_hw ps) mid env Hb v), Ht; destruct Hc. }
  fold hw in Ho. set (u := if c_atomic cfg || (v_inmodeset v =? 0) then drm_vblank_disable_and_save cfg (hw env) v else v) in *.
  assert (d_vblank (set_pipe p (bump_inmodeset u) (y_dev y)) !! p = Some (bump_inmodeset u)) as Hw by (by apply list_lookup_insert_eq, (lookup_lt_Some _ _ _ Hv)).
  unfold drm_vblank_count_and_time. rewrite Hw, (send_loop_spec _ _ _ _ _ _ _ _ _ Hw). cbn [set_events set_pipe d_vblank].
  rewrite list_lookup_insert_eq by (rewrite length_insert; by apply (lookup_lt_Some _ _ _ Hv)).
  eapply next_ok; [done|done|by cbn; rewrite !list_insert_insert_eq| | |done].
  - intros q Hq. by apply waiting_other.
  - apply mode_fields_ok, (iter_puts_ok p _ _ _ mid hi); [done..|]. apply (in_time_more _ _ v); [done|].
    unfold bump_inmodeset. destruct (v_inmodeset u =? 0); exact Hm.
Qed.

Lemma queue_step_ok p v ps hi env seq now e r dev' y : sys_ok y -> at_pipe p y v ps -> looks cfg ps v hi env -> 0 < p_users ps -> e_pipe e = p ->
  queue_locked cfg (hw env) seq now e (y_dev y) = (r, dev') -> sys_ok (next p dev' hi (p_off ps) (p_users ps - 1) y).
Proof.
  intros Hy Hat [Hb Ht] Hu <- E. destruct (Hy _ v ps Hat) as [Hc _]. pose proof Hat as [Hv Hp].
  pose proof (put_ok cfg Hcfg (p_off ps) (p_hw ps) hi env Hb (d_immediate (y_dev y)) _ v Hc) as Hput.
  pose proof (waiting_nonneg (e_pipe e) (d_events (y_dev y))) as Hn.
  assert (crtc_ok cfg (p_off ps) hi (p_users ps - 1 + waiting (e_pipe e) (d_events (y_dev y))) (vblank_put cfg (d_immediate (y_dev y)) (hw env) v)) as Hok.
  { replace (p_users ps - 1 + waiting _ _) with (p_users ps + waiting (e_pipe e) (d_events (y_dev y)) - 1) by lia. apply Hput; [lia|done]. }
  unfold queue_locked, drm_event_reserve_init_locked, drm_vblank_put in E. rewrite Hv in E.
  destruct (v_enabled v); cbn [negb] in E; [|injection E as <- <-; by eapply next_same; [done|done|done|done|exact Hok|lia]].
  destruct (_ <? event_length); [injection E as <- <-; by eapply next_same; [done|done|done|done|exact Hok|lia]|].
  destruct (vblank_passed seq (e_sequence e)); cbn [set_space d_vblank d_immediate] in E; rewrite ?Hv in E; injection E as <- <-;
    [by eapply next_same; [done|done|done|done|exact Hok|lia]|].
  apply (next_ok _ v ps _ v); [done|done|by rewrite list_insert_id| | |lia]; cbn [set_events set_space d_events].
  - intros q Hq. rewrite waiting_snoc. unfold on_pipe. destruct (Nat.eqb_spec (e_pipe e) q); [congruence|lia].
  - rewrite waiting_snoc. unfold on_pipe. rewrite Nat.eqb_refl. replace (p_users ps - 1 + (waiting _ _ + 1)) with (p_users ps + waiting (e_pipe e) (d_events (y_dev y))) by lia.
    destruct Hc as [Hc Hr]. split; [|done]. by apply (count_later _ _ (p_hw ps)), (between_le _ _ _ Hb).
Qed.

Lemma arm_step_ok p v ps hi env e y : sys_ok y -> at_pipe p y v ps -> looks cfg ps v hi env -> 0 < p_users ps ->
  sys_ok (next p (drm_crtc_arm_vblank_event cfg (hw env) p e (y_dev y)) hi (p_off ps) (p_users ps - 1) y).
Proof.
  intros Hy Hat [Hb Ht] Hu. destruct (Hy _ v ps Hat) as [Hc _]. pose proof Hat as [Hv Hp].
  unfold drm_crtc_arm_vblank_event, drm_crtc_accurate_vblank_count. rewrite Hv.
  eapply next_ok; [done|done|done| | |lia]; cbn [set_events set_pipe d_events].
  - intros q Hq. rewrite waiting_snoc. unfold on_pipe. cbn [e_pipe]. destruct (Nat.eqb_spec p q); [congruence|lia].
  - rewrite waiting_snoc. unfold on_pipe. cbn [e_pipe]. rewrite Nat.eqb_refl. replace (p_users ps - 1 + (waiting _ _ + 1)) with (p_users ps + waiting p (d_events (y_dev y))) by lia.
    by apply (update_ok cfg Hcfg (p_off ps) (p_hw ps) hi env Hb).
Qed.

Lemma vblank_step_ok y y' : sys_ok y -> vblank_step y y' -> sys_ok y'.
Proof.
  intros Hy Hst. destruct Hst as [p v ps hi Hat Hhi|p v ps mid hi env env_put r dis dev' Hat Hl Hb2 Ht2 E|p v ps hi env Hat [Hb Ht]|p v ps hi env ans r dev' Hat [Hb Ht] Hs E
    |p v ps hi env Hat [Hb Ht] Hu|p v ps hi env c dev' Hat [Hb Ht] E|p v ps hi env e Hat Hl Hu|p v ps hi env seq now e r dev' Hat Hl Hu He E|p v ps mid hi env env_put Hat Hl Hb2 Ht2 Hs
    |p v ps dev' Hat Hs E|p v ps mid hi env env_en Hat Hb Hb2 Hw Ht|p v ps mode Hat|p v ps ans env env_put pipe cmd r dev' Hat E];
  destruct (Hy p v ps Hat) as [Hc Hu0]; pose proof Hat as [Hv Hp].
  - apply (next_same p v ps _ v); [done|done|by rewrite list_insert_id|done| |done]. destruct Hc as [Hc Hr]. split; [|done]. by apply (count_later _ _ (p_hw ps)).
  - by apply (irq_step_ok p v ps mid hi env env_put r dis).
  - unfold disable_timer. rewrite Hv. eapply next_same; [done|done|done|done| |done]. apply (disable_fn_ok cfg Hcfg (p_off ps) (p_hw ps) hi env Hb); [|done].
    destruct Hc as [[] []]. by split.
  - pose proof (get_ok cfg Hcfg (p_off ps) (p_hw ps) hi env Hb ans _ v Hc Hs Ht) as Hg. unfold drm_vblank_get in E. rewrite Hv in E. fold hw in Hg.
    destruct (vblank_get cfg ans (hw env) v) as [r0 w]. injection E as <- <-. eapply next_same; [done|done|done|done| |destruct (is_ok r0); lia].
    destruct (is_ok r0); [|done]. by replace (p_users ps + 1 + waiting _ _) with (p_users ps + waiting p (d_events (y_dev y)) + 1) by lia.
  - unfold drm_vblank_put. rewrite Hv. eapply next_same; [done|done|done|done| |lia].
    replace (p_users ps - 1 + waiting _ _) with (p_users ps + waiting p (d_events (y_dev y)) - 1) by lia. pose proof (waiting_nonneg p (d_events (y_dev y))).
    apply (put_ok cfg Hcfg (p_off ps) (p_hw ps) hi env Hb); [done|lia|done].
  - unfold drm_crtc_accurate_vblank_count in E. rewrite Hv in E. injection E as <- <-. eapply next_same; [done|done|done|done| |done].
    by apply (update_ok cfg Hcfg (p_off ps) (p_hw ps) hi env Hb).
  - by apply (arm_step_ok p v).
  - by apply (queue_step_ok p v ps hi env seq now e r).
  - by apply (off_step_ok p v ps mid).
  - unfold drm_crtc_vblank_reset in E. rewrite Hv in E. injection E as <-. eapply next_same; [done|done|done|done| |done]. destruct Hc as [[] []].
    unfold bump_inmodeset. destruct (Z.eqb_spec (v_inmodeset v) 0); [|by split]. rewrite s32_small by (unfold is_s32; lia).
    split; split; cbn; auto; lia.
  - unfold drm_crtc_vblank_on. rewrite Hv. eapply next_same; [done|done|done|done| |done]. by apply (on_ok cfg Hcfg (p_off ps) (p_hw ps) mid).
  - unfold drm_calc_timestamping_constants. rewrite Hv. eapply next_same; [done|done|done|done| |done]. by apply mode_fields_ok.
  - unfold drm_legacy_modeset_ctl_ioctl in E. rewrite orb_true_r in E. injection E as <- <-. apply (next_same p v ps _ v); [done|done|by rewrite list_insert_id|done|done|done].
Qed.

Lemma vblank_reachable_ok y : vblank_reachable y -> sys_ok y.
Proof.
  intros (n & imm & sp & Hr). assert (sys_ok (vblank_start n imm sp)) as H0.
  { intros p v ps [Hv Hp]. cbn in Hv, Hp. apply lookup_replicate in Hv as [-> _], Hp as [-> _]. cbn. split; [|done]. split; split; cbn; (done || lia || by left). }
  induction Hr as [|y1 y2 y3 H12 _ IH]; [done|]. apply IH. by apply (vblank_step_ok y1).
Qed.

End System.

(** ** The counter *)

Lemma on_count cfg off lo mid hi env env_enable v : counter_ok cfg -> count_ok cfg off lo v -> between lo mid env -> between mid hi env_enable -> hi - lo <= c_max cfg ->
  v_count v + 1 - frame_of cfg env + hi < 2 ^ 64 -> v_count v + 1 <= v_count (vblank_on cfg None (hw_reads cfg env) (hw_reads cfg env_enable) v).
Proof.
  intros Hcfg [Hl Hs Hu Hm] Hb Hb2 Hw Ht. pose proof (frame_between cfg _ _ _ Hb) as Hf. pose proof (between_le _ _ _ Hb2) as Hle. unfold is_u64 in Hu.
  unfold vblank_on. set (v1 := if negb (v_inmodeset v =? 0) then with_inmodeset 0 (with_refcount (s32 (v_refcount v - 1)) v) else v).
  assert (v_count v1 = v_count v /\ v_inmodeset v1 = 0) as [C1 M1] by (subst v1; destruct (Z.eqb_spec (v_inmodeset v) 0); by cbn). clearbody v1.
  set (v2 := drm_reset_vblank_timestamp cfg (hw_reads cfg env) v1).
  assert (v_count v2 = v_count v + 1 /\ count_ok cfg (v_count v + 1 - frame_of cfg env) mid v2) as [C2 K2].
  { subst v2. unfold drm_reset_vblank_timestamp, frame_of in *. rewrite query_picked. destruct (drm_get_last_vbltimestamp _ _) as [rc t].
    unfold store_vblank. rewrite C1, u64_small by (unfold is_u64; lia). split; [done|].
    split; cbn [v_last v_count v_inmodeset with_count]; [f_equal; lia|lia|unfold is_u64; lia|by left]. }
  clearbody v2. destruct (_ || _); [|lia]. unfold drm_vblank_enable. destruct (negb (v_enabled v2)); cbn [snd]; [|lia].
  pose proof (update_mono cfg Hcfg (v_count v + 1 - frame_of cfg env) mid hi env_enable Hb2 false (with_irq true v2)) as H. cbn [v_count with_irq with_enabled] in *.
  rewrite C2 in H. apply H; [by destruct K2|split; cbn [v_count with_irq]; rewrite ?C2; lia].
Qed.

(** C16: on a KMS driver with a hardware frame counter, as long as the counter is read before it has wrapped around since the last look and enabling
    the interrupt succeeds when a pipe is switched on: however operations, interrupts and frames interleave and however often the interrupt is switched
    off and on, the count of a pipe differs from the number of frames at its last look at the hardware by a constant, which only switching the pipe on changes; an
    accurate query gives the exact number, across wrap-around of the register; and switching a pipe on raises the count by at least one. *)
Theorem drm_vblank_counts_frames cfg y p v ps : counter_ok cfg -> vblank_reachable cfg y -> at_pipe p y v ps ->
  (exists seen, seen <= p_hw ps /\ v_count v = p_off ps + seen /\ v_last v = seen mod (c_max cfg + 1)) /\
  (forall hi env, looks cfg ps v hi env -> fst (drm_crtc_accurate_vblank_count cfg (hw_reads cfg env) p (y_dev y)) = p_off ps + frame_of cfg env) /\
  (forall mid hi env env_enable, between (p_hw ps) mid env -> between mid hi env_enable -> hi - p_hw ps <= c_max cfg ->
    v_count v + 1 - frame_of cfg env + hi < 2 ^ 64 ->
    v_count v + 1 <= drm_vblank_count p (drm_crtc_vblank_on cfg None (hw_reads cfg env) (hw_reads cfg env_enable) p (y_dev y))).
Proof.
  intros Hcfg Hr Hat. destruct (vblank_reachable_ok cfg Hcfg y Hr p v ps Hat) as [[Hc _] _]. pose proof Hat as [Hv _].
  assert (forall w, d_vblank (set_pipe p w (y_dev y)) !! p = Some w) as Hw by (intros w; by apply list_lookup_insert_eq, (lookup_lt_Some _ _ _ Hv)).
  split; [|split].
  - exists (v_count v - p_off ps). destruct Hc. split; [done|split; [lia|done]].
  - intros hi env [Hb Ht]. unfold drm_crtc_accurate_vblank_count. rewrite Hv. cbn [fst]. unfold drm_vblank_count. rewrite Hw.
    by apply (update_counts cfg Hcfg (p_off ps) (p_hw ps) hi env Hb false v Hc).
  - intros mid hi env env_en Hb Hb2 Hwr Ht. unfold drm_vblank_count, drm_crtc_vblank_on. rewrite Hv, Hw. by apply (on_count cfg (p_off ps) (p_hw ps) mid hi).
Qed.

(** C17: on a KMS driver with a hardware frame counter that is read before it wraps around, where callers put only references they have and enabling the
    interrupt succeeds when a pipe is switched on ([vblank_step]): the reference count of a pipe is the number of references that callers hold and that waiting events carry, and one more while the pipe is switched off;
    while a reference is held and the pipe is on, its interrupt is enabled, in the hardware too; a pipe that is switched
    off and whose interrupt is disabled refuses new references. *)
Theorem drm_vblank_references_held cfg y p v ps : counter_ok cfg -> vblank_reachable cfg y -> at_pipe p y v ps ->
  let held := p_users ps + waiting p (d_events (y_dev y)) in
  v_refcount v = held + v_inmodeset v /\ 0 <= p_users ps /\
  (v_inmodeset v = 0 \/ v_inmodeset v = 1) /\
  (0 < held -> v_inmodeset v = 0 -> v_enabled v = true /\ v_irq v = true) /\
  (v_inmodeset v = 1 -> v_enabled v = false -> forall ans env, v_refcount v + 1 < 2 ^ 31 -> drm_vblank_get cfg ans env p (y_dev y) = (Err EINVAL, y_dev y)).
Proof.
  intros Hcfg Hr Hat. destruct (vblank_reachable_ok cfg Hcfg y Hr p v ps Hat) as [[Hc [Hrf Hh Hs Hon Hi]] Hu]. cbv zeta. pose proof Hat as [Hv _].
  split; [done|]. split; [done|]. split; [apply (cv_mode _ _ _ _ Hc)|]. split; [intros H0 Hm; rewrite Hi; by rewrite (Hon Hm H0)|].
  intros Hm He ans env Hsm. unfold drm_vblank_get, vblank_get. rewrite Hv. rewrite s32_small by (unfold is_s32; lia). cbn [v_refcount with_refcount v_enabled].
  destruct (Z.eqb_spec (v_refcount v + 1) 1); [lia|]. rewrite He. cbn [negb]. rewrite s32_small by (unfold is_s32; lia).
  replace (with_refcount _ _) with v by (destruct v; unfold with_refcount; cbn; f_equal; lia). unfold set_pipe. rewrite list_insert_id by done. by destruct (y_dev y).
Qed.

(** ** Events *)



Lemma passed_iff seq ref : 0 <= seq < 2 ^ 63 -> 0 <= ref < 2 ^ 63 -> vblank_passed seq ref = true <-> ref <= seq <= ref + 2 ^ 23.
Proof.
  intros H1 H2. unfold vblank_passed. change (Z.shiftl 1 23) with (2 ^ 23). destruct (decide (ref <= seq)) as [H|H].
  - rewrite u64_small by (unfold is_u64; lia). lia.
  - rewrite u64_sub_wrap by lia. lia.
Qed.

Lemma passed_test seq ref : 0 <= seq < 2 ^ 63 -> 0 <= ref < 2 ^ 63 -> vblank_passed seq ref = (ref <=? seq) && (seq <=? ref + 2 ^ 23).
Proof. intros H1 H2. pose proof (passed_iff seq ref H1 H2). destruct (vblank_passed seq ref); lia. Qed.


(** ** What a request waits for *)

Lemma widen_closest narrow near : is_u32 narrow -> 2 ^ 31 <= near < 2 ^ 63 ->
  widen_32_to_64 narrow near mod 2 ^ 32 = narrow /\ - 2 ^ 31 <= widen_32_to_64 narrow near - near < 2 ^ 31.
Proof.
  intros Hn Hr. unfold widen_32_to_64. pose proof (s32_range (narrow - near)) as Hs. unfold is_s32 in Hs. rewrite u64_small by (unfold is_u64; lia). split; [|lia].
  unfold s32. replace (near + ((narrow - near + 2 ^ 31) mod 2 ^ 32 - 2 ^ 31)) with ((narrow - near + 2 ^ 31) mod 2 ^ 32 + (near - 2 ^ 31)) by lia.
  rewrite Zplus_mod_idemp_l. replace (narrow - near + 2 ^ 31 + (near - 2 ^ 31)) with narrow by lia. by apply Z.mod_small.
Qed.

(** No other number with these 32 bits is closer. *)
Lemma closest_unique narrow near t x : t mod 2 ^ 32 = narrow -> x mod 2 ^ 32 = narrow -> - 2 ^ 31 <= t - near < 2 ^ 31 -> Z.abs (t - near) <= Z.abs (x - near).
Proof.
  intros Ht Hx H. assert ((x - t) mod 2 ^ 32 = 0) as Hd by (rewrite Zminus_mod, Ht, Hx, Z.sub_diag; done).
  apply Z.mod_divide in Hd as [k Hk]; [|lia]. destruct (decide (k = 0)) as [->|]; [lia|]. nia.
Qed.

(** A relative request waits for the count plus its number; an absolute request, which has only 32 bits, for the number with these bits that is closest
    to the count; with the flag for missed frames, for the next frame instead of one that has passed.  The request is told the lower half of the
    number. *)
Theorem wait_target_closest seq w : is_u32 (w_sequence w) -> 2 ^ 31 <= seq < 2 ^ 62 ->
  exists t, (if Z.land (w_type w) _DRM_VBLANK_TYPES_MASK =? _DRM_VBLANK_RELATIVE then t = seq + w_sequence w
             else t mod 2 ^ 32 = w_sequence w /\ forall x, x mod 2 ^ 32 = w_sequence w -> Z.abs (t - seq) <= Z.abs (x - seq)) /\
    let '(req, w') := wait_target seq w in
    req = (if has_flag (w_type w) _DRM_VBLANK_NEXTONMISS && (t <=? seq) && (seq <=? t + 2 ^ 23) then seq + 1 else t) /\ w_sequence w' = u32 req.
Proof.
  intros Hw Hs. unfold wait_target. destruct (_ =? _DRM_VBLANK_RELATIVE) eqn:E; unfold is_u32 in Hw.
  - exists (seq + w_sequence w). split; [done|]. rewrite u64_small by (unfold is_u64; lia). rewrite passed_test by lia. rewrite <- andb_assoc.
    destruct (has_flag _ _ && _); [|done]. by rewrite u64_small by (unfold is_u64; lia).
  - destruct (widen_closest (w_sequence w) seq) as [Hm Hd]; [done|lia|]. set (t := widen_32_to_64 _ _) in *. exists t. split.
    + split; [done|]. intros x Hx. by apply (closest_unique (w_sequence w)).
    + rewrite passed_test by lia. rewrite <- andb_assoc. destruct (has_flag _ _ && _); [|split; [done|]; unfold u32; by rewrite Hm].
      by rewrite u64_small by (unfold is_u64; lia).
Qed.

(** ** Missed frames from time stamps *)

(** Division rounded to the closest quotient. *)
Definition rounds (cfg : vblank_config) : Prop := forall x d, 0 <= x -> 0 < d -> Z.abs (2 * (x - d * c_closest cfg x d)) <= d.

(** Without a hardware counter, when the driver has precise time stamps and the time since the last count is [n] frames up to less than half a
    frame, an update adds exactly [n] and stores the time stamp. *)
Theorem missed_vblanks_from_time cfg in_irq env v t n : rounds cfg -> c_max cfg = 0 -> c_hook cfg = true -> 0 < c_precision cfg * 1000 < 2 ^ 31 ->
  has_flag (v_inmodeset v) 0x2 = false -> 0 < v_framedur_ns v ->
  s_hook (query DRM_TIMESTAMP_MAXRETRIES env) = Some t -> 0 <= t - v_time v < 2 ^ 63 -> Z.abs (2 * (t - v_time v - n * v_framedur_ns v)) < v_framedur_ns v ->
  0 < n < 2 ^ 32 -> 0 <= v_count v -> v_count v + n < 2 ^ 64 ->
  let v' := drm_update_vblank_count cfg in_irq env v in v_count v' = v_count v + n /\ v_time v' = t.
Proof.
  intros Hr Hm Hh Hp Hi Hf Ht Htime Hn Hn2 Hc0 Hc. cbv zeta. unfold drm_update_vblank_count, drm_get_last_vbltimestamp. rewrite Hh, Ht.
  assert (s32 (s32 (c_precision cfg) * 1000) = c_precision cfg * 1000) as -> by (rewrite (s32_small (c_precision cfg)), s32_small by (unfold is_s32; lia); done).
  destruct (Z.ltb_spec 0 (c_precision cfg * 1000)); [|lia]. cbn [andb].
  assert (missed_vblanks cfg in_irq true (s_cur (query DRM_TIMESTAMP_MAXRETRIES env)) t v = n) as ->.
  { unfold missed_vblanks. rewrite Hm, Hi, andb_false_r. cbn [negb Z.eqb andb]. destruct (Z.eqb_spec (v_framedur_ns v) 0); [lia|]. cbn [negb].
    rewrite u64_small by (unfold is_u64; lia). specialize (Hr (t - v_time v) (v_framedur_ns v) ltac:(lia) Hf).
    set (q := c_closest cfg _ _) in *. assert (q = n) as -> by nia. apply u32_small. unfold is_u32. lia. }
  destruct (Z.eqb_spec n 0); [lia|]. cbn [negb andb]. unfold store_vblank. rewrite u64_small by (unfold is_u64; lia). done.
Qed.

(** The stored frame duration is the exact one rounded down to nanoseconds. *)
Theorem drm_calc_timestamping_constants_exact pipe mode dev v : d_vblank dev !! pipe = Some v ->
  let c := crtc mode in
  0 < crtc_clock c -> 0 < crtc_htotal c -> 0 < crtc_vtotal c -> crtc_htotal c * crtc_vtotal c < 2 ^ 31 ->
  crtc_htotal c * crtc_vtotal c * 1000000 / crtc_clock c < 2 ^ 31 -> has_flag (flags mode) DRM_MODE_FLAG_INTERLACE = false ->
  exists w, d_vblank (drm_calc_timestamping_constants pipe mode dev) !! pipe = Some w /\
    v_framedur_ns w = crtc_htotal c * crtc_vtotal c * 1000000 / crtc_clock c /\ v_linedur_ns w = crtc_htotal c * 1000000 / crtc_clock c.
Proof.
  intros Hv. cbv zeta. set (c := crtc mode). intros Hc Hh Hvt Hs Hf Hi. unfold drm_calc_timestamping_constants. rewrite Hv. fold c. rewrite Hi.
  destruct (Z.ltb_spec 0 (crtc_clock c)); [|lia]. rewrite (s32_small (crtc_htotal c * crtc_vtotal c)) by (unfold is_s32; nia).
  assert (crtc_htotal c <= crtc_htotal c * crtc_vtotal c) by nia.
  rewrite (u64_small (crtc_htotal c * crtc_vtotal c)), (u64_small (crtc_htotal c)) by (unfold is_u64; lia).
  rewrite !u64_small by (unfold is_u64; lia). eexists. split; [by apply list_lookup_insert_eq, (lookup_lt_Some _ _ _ Hv)|]. cbn [v_framedur_ns v_linedur_ns with_mode].
  assert (crtc_htotal c * 1000000 / crtc_clock c <= crtc_htotal c * crtc_vtotal c * 1000000 / crtc_clock c) as Hlf by (apply Z.div_le_mono; lia).
  pose proof (Z.div_pos (crtc_htotal c * 1000000) (crtc_clock c) ltac:(lia) Hc) as Hl.
  set (line := crtc_htotal c * 1000000 / crtc_clock c) in *. set (frame := crtc_htotal c * crtc_vtotal c * 1000000 / crtc_clock c) in *. clearbody line frame. rewrite (s32_small frame), (s32_small line) by (unfold is_s32; lia). done.
Qed.

(** The time stamp computed from the scan-out position is the start of scan-out, to a nanosecond. *)
Theorem drm_calc_vbltimestamp_exact mode max_error env q : 0 < crtc_clock mode -> 0 < crtc_htotal mode ->
  scanout_loop DRM_TIMESTAMP_MAXRETRIES max_error env = Some q -> let pixels := so_vpos q * crtc_htotal mode + so_hpos q in
  is_s32 pixels -> - 2 ^ 31 < 1000000 * pixels / crtc_clock mode < 2 ^ 31 - 1 -> 0 <= so_etime q < 2 ^ 62 ->
  exists error time, drm_calc_vbltimestamp_from_scanoutpos mode max_error env = Some (error, time) /\
    Z.abs ((so_etime q - time) * crtc_clock mode - 1000000 * pixels) < crtc_clock mode.
Proof.
  intros Hc Hh Eq. cbv zeta. intros Hp Hd He. unfold drm_calc_vbltimestamp_from_scanoutpos. destruct (Z.eqb_spec (crtc_clock mode) 0); [lia|]. rewrite Eq.
  rewrite (s32_small (_ + _)) by done. set (x := 1000000 * _) in *. pose proof (Z.quot_rem x (crtc_clock mode) ltac:(lia)) as Hq. pose proof (Z.rem_bound_abs x (crtc_clock mode) ltac:(lia)) as Hb.
  set (d := Z.quot x (crtc_clock mode)) in *. pose proof (Z.div_mod x (crtc_clock mode) ltac:(lia)). pose proof (Z.mod_pos_bound x (crtc_clock mode) Hc).
  assert (- 2 ^ 31 <= d < 2 ^ 31) as Hd2 by nia. rewrite (s32_small d) by done. eexists _, _. split; [reflexivity|]. rewrite s64_small by lia. nia.
Qed.

(** ** Examples and behaviour that differs from what is meant *)

Definition example_cfg (max offdelay : Z) (hook : bool) : vblank_config :=
  {| c_max := max; c_offdelay := offdelay; c_hook := hook; c_precision := 20; c_atomic := true; c_closest := fun x d => (x + d / 2) / d |}.

(** The hardware while it shows frame [f]. *)
Definition still (f : Z) : nat -> moment := fun _ => {| m_frame := f; m_hook := None; m_now := 1000 * f; m_again := f |}.

Definition cfg8 : vblank_config := example_cfg 255 5000 false.

Definition example_event (seq : Z) : vblank_event := {| e_pipe := 0; e_sequence := seq; e_type := DRM_EVENT_CRTC_SEQUENCE; e_user_data := 7; e_file := 1 |}.

(** A pipe is switched on at frame 3 and used at frame 258, when its eight-bit counter has wrapped around; an event is queued for count 257, and one for 300. *)
Definition example_on : vblank_sys :=
  next 0 (drm_crtc_vblank_on cfg8 None (hw_reads cfg8 (still 3)) (hw_reads cfg8 (still 3)) 0 (y_dev (vblank_start cfg8 1 false {[1 := 4096]}))) 3 (-2) 0
    (vblank_start cfg8 1 false {[1 := 4096]}).
Definition example_get (f users : Z) (y : vblank_sys) : vblank_sys :=
  next 0 (snd (drm_vblank_get cfg8 None (hw_reads cfg8 (still f)) 0 (y_dev y))) f (-2) users y.
Definition example_queue (f seq users : Z) (y : vblank_sys) : vblank_sys :=
  next 0 (snd (queue_locked cfg8 (hw_reads cfg8 (still f)) 256 0 (example_event seq) (y_dev y))) f (-2) users y.
Definition example_used : vblank_sys := example_queue 258 300 0 (example_queue 258 257 1 (example_get 258 2 (example_get 258 1 example_on))).

Ltac calc := first [apply Z.leb_le | apply Z.ltb_lt]; vm_compute; reflexivity.
Ltac still_looks := split; [intros i; cbn; lia|split; calc].

Lemma example_cfg_ok : counter_ok cfg8.
Proof. exists 8. split; [lia|reflexivity]. Qed.

Lemma example_get_step f users y v ps : at_pipe 0 y v ps -> p_off ps = -2 -> p_users ps = users - 1 -> looks cfg8 ps v f (still f) -> v_refcount v + 1 < 2 ^ 31 ->
  is_ok (fst (drm_vblank_get cfg8 None (hw_reads cfg8 (still f)) 0 (y_dev y))) = true -> vblank_step cfg8 y (example_get f users y).
Proof.
  intros Hat Ho Hu Hl Hs Hr. pose proof (step_get cfg8 y 0 v ps f (still f) None _ _ Hat Hl Hs (surjective_pairing _)) as H. rewrite Hr, Ho, Hu in H.
  by replace (users - 1 + 1) with users in H by lia.
Qed.

Lemma example_queue_step f seq users y v ps : at_pipe 0 y v ps -> p_off ps = -2 -> p_users ps = users + 1 -> looks cfg8 ps v f (still f) -> 0 < p_users ps ->
  vblank_step cfg8 y (example_queue f seq users y).
Proof.
  intros Hat Ho Hu Hl H0. pose proof (step_queue cfg8 y 0 v ps f (still f) 256 0 (example_event seq) _ _ Hat Hl H0 eq_refl (surjective_pairing _)) as H. rewrite Ho, Hu in H.
  by replace (users + 1 - 1) with users in H by lia.
Qed.

Lemma example_reachable : vblank_reachable cfg8 example_used.
Proof.
  exists 1%nat, false, {[1 := 4096]}. unfold example_used.
  eapply rtc_l; [|eapply rtc_l; [|eapply rtc_l; [|eapply rtc_l; [|apply rtc_once]]]].
  - apply (step_on cfg8 _ 0 fresh_vblank {| p_hw := 0; p_off := 0; p_users := 0 |} 3 3 (still 3) (still 3)); [split; reflexivity|intros i; cbn; lia|intros i; cbn; lia|calc|calc].
  - eapply (example_get_step 258 1); [split; reflexivity|reflexivity|reflexivity|still_looks|calc|reflexivity].
  - eapply (example_get_step 258 2); [split; reflexivity|reflexivity|reflexivity|still_looks|calc|reflexivity].
  - eapply (example_queue_step 258 257 1); [split; reflexivity|reflexivity|reflexivity|still_looks|calc].
  - eapply (example_queue_step 258 300 0); [split; reflexivity|reflexivity|reflexivity|still_looks|calc].
Qed.

Definition example_crtc : drm_vblank_crtc :=
  {| v_count := 256; v_time := 0; v_refcount := 2; v_last := 2; v_inmodeset := 0; v_framedur_ns := 0; v_linedur_ns := 0; v_hwmode := no_timings;
     v_enabled := true; v_timer := false; v_irq := true |}.

Lemma example_at : at_pipe 0 example_used example_crtc {| p_hw := 258; p_off := -2; p_users := 0 |}.
Proof. split; vm_compute; reflexivity. Qed.

Lemma drm_vblank_counts_frames_witness :
  fst (drm_crtc_accurate_vblank_count cfg8 (hw_reads cfg8 (still 270)) 0 (y_dev example_used)) = 268 /\
  example_crtc.(v_count) + 1 <= drm_vblank_count 0 (drm_crtc_vblank_on cfg8 None (hw_reads cfg8 (still 258)) (hw_reads cfg8 (still 258)) 0 (y_dev example_used)).
Proof.
  destruct (drm_vblank_counts_frames cfg8 example_used 0 _ _ example_cfg_ok example_reachable example_at) as (_ & H1 & H2). split.
  - rewrite (H1 270 (still 270)); [reflexivity|still_looks].
  - apply (H2 258 258 (still 258) (still 258)); [intros i; cbn; lia|intros i; cbn; lia|calc|calc].
Defined.

Lemma drm_vblank_references_held_witness : v_refcount example_crtc = 0 + waiting 0 (d_events (y_dev example_used)) + 0 /\ v_irq example_crtc = true.
Proof.
  destruct (drm_vblank_references_held cfg8 example_used 0 _ _ example_cfg_ok example_reachable example_at) as (H1 & _ & _ & H2 & _). split; [exact H1|].
  apply H2; [calc|reflexivity].
Defined.


Lemma wait_target_closest_witness :
  is_u32 5 /\ fst (wait_target (2 ^ 32 - 3) {| w_type := _DRM_VBLANK_NEXTONMISS; w_sequence := 5; w_signal := 0; w_tval_usec := 0 |}) = 2 ^ 32 + 5.
Proof.
  assert (is_u32 5) as H5 by (unfold is_u32; lia). split; [exact H5|].
  destruct (wait_target_closest (2 ^ 32 - 3) {| w_type := _DRM_VBLANK_NEXTONMISS; w_sequence := 5; w_signal := 0; w_tval_usec := 0 |} H5 ltac:(lia)) as (t & [Hm Hc] & Hr).
  specialize (Hc (2 ^ 32 + 5) eq_refl). cbn [w_sequence] in Hm. assert (t = 2 ^ 32 + 5) as ->.
  { pose proof (Z.div_mod t (2 ^ 32) ltac:(lia)). lia. }
  destruct (wait_target _ _) as [req w']. destruct Hr as [-> _]. reflexivity.
Defined.

Definition cfg_time : vblank_config := example_cfg 0 5000 true.

Lemma missed_vblanks_from_time_witness :
  rounds cfg_time /\ let v := with_mode 16666666 15000 no_timings fresh_vblank in
  v_count (drm_update_vblank_count cfg_time true (fun _ => {| s_cur := 0; s_hook := Some 50001000; s_now := 0; s_again := 0 |}) v) = 3.
Proof.
  assert (rounds cfg_time) as Hr.
  { intros x d Hx Hd. cbn [c_closest cfg_time example_cfg]. pose proof (Z.div_mod (x + d / 2) d ltac:(lia)). pose proof (Z.mod_pos_bound (x + d / 2) d Hd).
    pose proof (Z.div_mod d 2 ltac:(lia)). pose proof (Z.mod_pos_bound d 2 ltac:(lia)). lia. }
  split; [exact Hr|]. cbv zeta.
  apply (missed_vblanks_from_time cfg_time true _ (with_mode 16666666 15000 no_timings fresh_vblank) 50001000 3 Hr); cbn; lia || reflexivity.
Defined.

(** When the driver cannot enable the interrupt of a pipe that is switched on, a reference that somebody else holds is dropped: with one user left the count is zero, and
    with the interrupt always on it becomes negative. *)
Theorem drm_crtc_vblank_on_drops_reference :
  let env : reads := fun _ => {| s_cur := 0; s_hook := None; s_now := 0; s_again := 0 |} in
  let dev := drm_vblank_init cfg8 1 false in
  let used := drm_crtc_vblank_off cfg8 env env 0 (snd (drm_vblank_get cfg8 None env 0 dev)) in
  (exists v, d_vblank (drm_crtc_vblank_on cfg8 (Some EIO) env env 0 used) !! 0%nat = Some v /\ v_refcount v = 0) /\
  (exists v, d_vblank (drm_crtc_vblank_on (example_cfg 255 0 false) (Some EIO) env env 0 dev) !! 0%nat = Some v /\ v_refcount v = -1).
Proof. cbv zeta. split; eexists; (split; [vm_compute; reflexivity|reflexivity]). Qed.

(** An event for a number more than [2^23] frames ago is not sent, now or later: it waits until the pipe is switched off. *)
Theorem old_sequence_never_passes seq count : 0 <= seq -> seq + 2 ^ 23 < count -> count < 2 ^ 63 -> vblank_passed count seq = false.
Proof. intros H1 H2 H3. pose proof (passed_iff count seq ltac:(lia) ltac:(lia)). destruct (vblank_passed count seq); [lia|done]. Qed.

(** [drm_crtc_queue_sequence_ioctl] takes the count before it takes [event_lock]: an interrupt in between brings the count to the number asked for, and the event is
    queued although it is due. *)
Theorem queue_sequence_misses_frame :
  let at_frame f : reads := fun _ => {| s_cur := f; s_hook := None; s_now := 0; s_again := f |} in
  let dev := set_space {[1 := 4096]} (drm_vblank_init cfg8 1 false) in
  exists e seq now dev1 dev2 dev3, queue_sequence_begin cfg8 true true None true (at_frame 0) (Some 0%nat) DRM_CRTC_SEQUENCE_RELATIVE 1 7 1 dev = (Ok (e, seq, now), dev1) /\
    drm_handle_vblank cfg8 (at_frame 1) (at_frame 1) (at_frame 1) 0 dev1 = (true, dev2) /\
    queue_locked cfg8 (at_frame 1) seq now e dev2 = (Ok 1, dev3) /\
    d_sent dev3 = [] /\ d_events dev3 = [e] /\ e_sequence e = drm_vblank_count 0 dev3.
Proof.
  cbv zeta. eexists _, _, _, _, _, _. split; [vm_compute; reflexivity|]. split; [vm_compute; reflexivity|]. split; [vm_compute; reflexivity|].
  split; [reflexivity|]. split; reflexivity.
Qed.
