(* ===== verification/Spsc.v ===== *)
(** * The job queue of the GPU scheduler ([spsc_queue.h])

    A queue for one producer and one consumer without a lock: a list of nodes linked by [next], whose end is the
    location [tail] at which the next link is stored.  Every read, write, exchange and compare-and-exchange of shared memory is one
    step, and the steps of [spsc_queue_push] and [spsc_queue_pop] interleave; memory is sequentially consistent, which the
    barriers and atomic operations of the source stand for.  A node belongs to the queue from the call of
    push until pop returns it; an access to a node that does not belong to the queue is a fault ([None]).

    Theorems: under every interleaving there is no fault, and pushes and pops behave as those of a first-in-first-out
    queue, each taking effect at one instant between call and return; push reports exactly whether the queue was empty; pop
    waits only for a push that has exchanged the tail and not yet stored its link. *)

From S2P Require Import Prelude.
From stdpp Require Import base gmap list option sets.
From Stdlib Require Import ZArith Lia.

#[local] Set Warnings "-clear-no-such-hyp".

#[local] Open Scope Z_scope.

(** ** Memory *)

(** A place that holds a link: [&queue->head] or [&node->next]. *)
Inductive link := Head | Next (node : nat).

#[global] Instance link_eq_dec : EqDecision link.
Proof. solve_decision. Defined.

(** [struct spsc_queue], and [next] of the nodes that belong to it; [None] is [NULL]. *)
Record spsc_queue := { q_head : option nat; q_tail : link; q_count : Z; q_next : gmap nat (option nat) }.

Definition set_head (v : option nat) (s : spsc_queue) : spsc_queue :=
  {| q_head := v; q_tail := q_tail s; q_count := q_count s; q_next := q_next s |}.
Definition set_tail (l : link) (s : spsc_queue) : spsc_queue :=
  {| q_head := q_head s; q_tail := l; q_count := q_count s; q_next := q_next s |}.
Definition set_count (n : Z) (s : spsc_queue) : spsc_queue :=
  {| q_head := q_head s; q_tail := q_tail s; q_count := n; q_next := q_next s |}.
Definition set_nexts (m : gmap nat (option nat)) (s : spsc_queue) : spsc_queue :=
  {| q_head := q_head s; q_tail := q_tail s; q_count := q_count s; q_next := m |}.

(** Reading and writing a link. *)
Definition get (l : link) (s : spsc_queue) : option (option nat) :=
  match l with Head => Some (q_head s) | Next n => q_next s !! n end.

Definition store (l : link) (v : option nat) (s : spsc_queue) : option spsc_queue :=
  match l with
  | Head => Some (set_head v s)
  | Next n => _ ← q_next s !! n; Some (set_nexts (<[n := v]> (q_next s)) s)
  end.

Definition spsc_queue_init : spsc_queue := {| q_head := None; q_tail := Head; q_count := 0; q_next := ∅ |}.
Definition spsc_queue_peek (s : spsc_queue) : option nat := q_head s.
Definition spsc_queue_count (s : spsc_queue) : Z := q_count s.

(** ** The two threads *)

(** What takes effect: a push of a node with the value it returns, and a pop with what it returns. *)
Inductive event := Pushed (node : nat) (first : bool) | Popped (r : option nat).

(** The next access of [spsc_queue_push]. *)
Inductive push_pc :=
| PushIdle
| PushClear (node : nat)                  (* node->next = NULL *)
| PushXchg (node : nat)                   (* tail = atomic_long_xchg *)
| PushLink (node : nat) (tail : link)     (* WRITE_ONCE( *tail, node) *)
| PushCount (node : nat) (tail : link).   (* atomic_inc *)

(** One access of the producer, with what takes effect. *)
Definition spsc_queue_push (pc : push_pc) (s : spsc_queue) : option (push_pc * spsc_queue * list event) :=
  match pc with
  | PushIdle => None
  | PushClear node => s ← store (Next node) None s; Some (PushXchg node, s, [])
  | PushXchg node => Some (PushLink node (q_tail s), set_tail (Next node) s, [])
  | PushLink node tail => s ← store tail (Some node) s; Some (PushCount node tail, s, [Pushed node (bool_decide (tail = Head))])
  | PushCount node tail => Some (PushIdle, set_count (s32 (q_count s + 1)) s, [])
  end.

(** The next access of [spsc_queue_pop]. *)
Inductive pop_pc :=
| PopIdle
| PopHead                                          (* node = READ_ONCE(queue->head) *)
| PopNext (node : nat)                             (* next = READ_ONCE(node->next) *)
| PopStore (node : nat) (next : option nat)        (* WRITE_ONCE(queue->head, next) *)
| PopCas (node : nat)                              (* atomic_long_cmpxchg *)
| PopSpin (node : nat)                             (* READ_ONCE(node->next) in the loop *)
| PopSpinStore (node : nat) (next : option nat)    (* queue->head = ... in the loop *)
| PopCount (node : nat).                           (* atomic_dec, return node *)

(** One access of the consumer; with its return a node leaves the queue. *)
Definition spsc_queue_pop (pc : pop_pc) (s : spsc_queue) : option (pop_pc * spsc_queue * list event) :=
  match pc with
  | PopIdle => None
  | PopHead =>
    match q_head s with
    | None => Some (PopIdle, s, [Popped None])
    | Some node => Some (PopNext node, s, [])
    end
  | PopNext node => next ← get (Next node) s; Some (PopStore node next, s, [])
  | PopStore node next =>
    match next with
    | Some _ => Some (PopCount node, set_head next s, [Popped (Some node)])
    | None => Some (PopCas node, set_head next s, [])
    end
  | PopCas node =>
    if bool_decide (q_tail s = Next node) then Some (PopCount node, set_tail Head s, [Popped (Some node)])
    else Some (PopSpin node, s, [])
  | PopSpin node => next ← get (Next node) s; Some (PopSpinStore node next, s, [])
  | PopSpinStore node next =>
    match next with
    | Some _ => Some (PopCount node, set_head next s, [Popped (Some node)])
    | None => Some (PopSpin node, set_head next s, [])
    end
  | PopCount node => Some (PopIdle, set_count (s32 (q_count s - 1)) (set_nexts (delete node (q_next s)) s), [])
  end.

(** ** All interleavings *)

Record spsc_state := { st_queue : spsc_queue; st_push : push_pc; st_pop : pop_pc }.

Definition spsc_start : spsc_state := {| st_queue := spsc_queue_init; st_push := PushIdle; st_pop := PopIdle |}.

(** A step of the two threads.  A push may start with any node that is not in the queue, whatever its [next] holds. *)
Inductive spsc_step : spsc_state -> list event -> spsc_state -> Prop :=
| step_push_call s c node junk : q_next s !! node = None ->
    spsc_step {| st_queue := s; st_push := PushIdle; st_pop := c |} []
              {| st_queue := set_nexts (<[node := junk]> (q_next s)) s; st_push := PushClear node; st_pop := c |}
| step_push s p c s' p' ev : spsc_queue_push p s = Some (p', s', ev) ->
    spsc_step {| st_queue := s; st_push := p; st_pop := c |} ev {| st_queue := s'; st_push := p'; st_pop := c |}
| step_pop_call s p :
    spsc_step {| st_queue := s; st_push := p; st_pop := PopIdle |} [] {| st_queue := s; st_push := p; st_pop := PopHead |}
| step_pop s p c s' c' ev : spsc_queue_pop c s = Some (c', s', ev) ->
    spsc_step {| st_queue := s; st_push := p; st_pop := c |} ev {| st_queue := s'; st_push := p; st_pop := c' |}.

(** States that can be reached, with what has taken effect. *)
Inductive spsc_reachable : list event -> spsc_state -> Prop :=
| spsc_reach_start : spsc_reachable [] spsc_start
| spsc_reach_step evs st ev st' : spsc_reachable evs st -> spsc_step st ev st' -> spsc_reachable (evs ++ ev) st'.

(** ** The queue that is promised *)

Definition fifo_step (q : list nat) (e : event) : option (list nat) :=
  match e, q with
  | Pushed node first, _ => if bool_decide (first = bool_decide (q = [])) then Some (q ++ [node]) else None
  | Popped None, [] => Some []
  | Popped (Some node), node' :: q' => if (node =? node')%nat then Some q' else None
  | Popped _, _ => None
  end.

Definition fifo_run (q : list nat) (evs : list event) : option (list nat) := foldl (fun q e => q ← q; fifo_step q e) (Some q) evs.

(** ** Chains of links *)

(** From link [l] the links lead through the nodes [q] to the link [e]. *)
Fixpoint chain (s : spsc_queue) (l : link) (q : list nat) (e : link) : Prop :=
  match q with
  | [] => l = e
  | n :: q' => get l s = Some (Some n) /\ chain s (Next n) q' e
  end.

Lemma chain_end s l q e : chain s l q e -> e ∈ l :: map Next q.
Proof.
  revert l. induction q as [|n q IH]; intros l H; cbn [chain map] in *; [subst; left|]. destruct H as [_ H]. right. by apply IH.
Qed.

(** A chain depends on the links before its end only. *)
Lemma chain_frame s s' l q e : chain s l q e -> NoDup (l :: map Next q) ->
  (forall k, k ∈ l :: map Next q -> k <> e -> get k s' = get k s) -> chain s' l q e.
Proof.
  revert l. induction q as [|n q IH]; intros l H Hnd Hk; cbn [chain map] in *; [done|]. destruct H as [H1 H2].
  apply list.NoDup_cons in Hnd as [Hl Hnd]. split.
  - rewrite Hk; [done|left|]. intros ->. by apply chain_end in H2.
  - apply IH; [done..|]. intros k Hin Hne. apply Hk; [by right|done].
Qed.

Lemma chain_snoc s l q e n : chain s l q e -> get e s = Some (Some n) -> chain s l (q ++ [n]) (Next n).
Proof.
  revert l. induction q as [|m q IH]; intros l H He; cbn [chain app] in *; [by subst|]. destruct H as [H1 H2]. split; [done|by apply IH].
Qed.

Lemma chain_loop s l q : chain s l q l -> NoDup (l :: map Next q) -> q = [].
Proof.
  destruct q as [|n q]; [done|]. cbn [chain map]. intros [_ H] Hnd. apply chain_end in H. apply list.NoDup_cons in Hnd as [Hl _]. done.
Qed.

#[global] Instance next_inj : Inj (=) (=) Next.
Proof. by intros ? ? [=]. Qed.

Lemma nodup_links l : NoDup l -> NoDup (map Next l).
Proof. apply (NoDup_fmap_2 Next). Qed.

Lemma links_elem n q : Next n ∈ map Next q <-> n ∈ q.
Proof. rewrite list_elem_of_fmap. split; [by intros (m & [= ->] & H)|intros H; by exists n]. Qed.

Lemma head_link q : Head ∉ map Next q.
Proof. by intros (m & [=] & _)%list_elem_of_fmap. Qed.

(** The same for chains that start at the head or at a node. *)
Lemma head_nodup q : NoDup q -> NoDup (Head :: map Next q).
Proof. intros H. apply list.NoDup_cons. split; [apply head_link|by apply nodup_links]. Qed.

Lemma node_nodup n q : NoDup (n :: q) -> NoDup (Next n :: map Next q).
Proof. apply (nodup_links (n :: q)). Qed.

(** ** The invariant *)

(** The link at the end of the list: the tail, except while a push has exchanged it and not stored its link. *)
Definition end_link (p : push_pc) (s : spsc_queue) : link := match p with PushLink _ tail => tail | _ => q_tail s end.

(** The node that is pushed, until it is linked, and the node that is popped, from there until the return. *)
Definition pending (p : push_pc) : list nat := match p with PushClear n | PushXchg n | PushLink n _ => [n] | _ => [] end.
Definition held (c : pop_pc) : list nat := match c with PopCount n => [n] | _ => [] end.

(** A node that is linked and not yet counted. *)
Definition uncounted (p : push_pc) : Z := match p with PushCount _ _ => 1 | _ => 0 end.

Definition push_ok (p : push_pc) (s : spsc_queue) : Prop :=
  match p with
  | PushXchg n => q_next s !! n = Some None
  | PushLink n _ => q_next s !! n = Some None /\ q_tail s = Next n
  | _ => True
  end.

(** What the consumer has read is still there. *)
Definition seen (n : nat) (next : option nat) (s : spsc_queue) : Prop := forall m, next = Some m -> q_next s !! n = Some (Some m).

(** The list as the consumer sees it, ending at [e]. *)
Definition pop_ok (c : pop_pc) (s : spsc_queue) (q : list nat) (e : link) : Prop :=
  match c with
  | PopIdle | PopHead | PopCount _ => chain s Head q e
  | PopNext n => exists q', q = n :: q' /\ chain s Head q e
  | PopStore n next => exists q', q = n :: q' /\ chain s Head q e /\ seen n next s
  | PopCas n => exists q', q = n :: q' /\ chain s (Next n) q' e /\ q_head s = None
  | PopSpin n => exists q', q = n :: q' /\ chain s (Next n) q' e /\ q_tail s <> Next n
  | PopSpinStore n next => exists q', q = n :: q' /\ chain s (Next n) q' e /\ q_tail s <> Next n /\ seen n next s
  end.

Record spsc_inv (q : list nat) (s : spsc_queue) (p : push_pc) (c : pop_pc) : Prop := {
  si_nodup : NoDup (held c ++ q ++ pending p);
  si_nodes : forall n, is_Some (q_next s !! n) <-> n ∈ held c ++ q ++ pending p;
  si_end : get (end_link p s) s = Some None;
  si_push : push_ok p s;
  si_pop : pop_ok c s q (end_link p s);
  si_count : q_count s = s32 (Z.of_nat (length q) - uncounted p + Z.of_nat (length (held c)))
}.

(** The links of the queue, from where the consumer is. *)
Lemma pop_links c s q e : pop_ok c s q e -> NoDup q ->
  exists l q', chain s l q' e /\ NoDup (l :: map Next q') /\ (forall k, k ∈ l :: map Next q' -> k = Head \/ exists n, n ∈ q /\ k = Next n) /\
    (e = Head <-> q = []).
Proof.
  intros H Hnd.
  assert (forall q, chain s Head q e -> NoDup q -> (forall k, k ∈ Head :: map Next q -> k = Head \/ exists n, n ∈ q /\ k = Next n) /\ (e = Head <-> q = [])) as Hhead.
  { clear. intros q H Hnd. split.
    - intros k [->|Hk]%elem_of_cons; [by left|]. right. apply list_elem_of_fmap in Hk as (n & -> & Hn). by exists n.
    - split; [|intros ->; by cbn in H]. intros ->. apply (chain_loop s Head); [done|by apply head_nodup]. }
  assert (forall n q', q = n :: q' -> chain s (Next n) q' e ->
    (forall k, k ∈ Next n :: map Next q' -> k = Head \/ exists m, m ∈ q /\ k = Next m) /\ (e = Head <-> q = [])) as Hnode.
  { clear. intros n q' -> H. split.
    - intros k Hk. right. change (Next n :: map Next q') with (map Next (n :: q')) in Hk. apply list_elem_of_fmap in Hk as (m & -> & Hm). by exists m.
    - split; [|done]. intros ->. apply chain_end in H. exfalso. change (Next n :: map Next q') with (map Next (n :: q')) in H. by apply head_link in H. }
  destruct c as [| |n|n nx|n|n|n nx|n]; cbn [pop_ok] in H.
  1,2,8: exists Head, q; destruct (Hhead q H Hnd); split; [done|]; split; [by apply head_nodup|done].
  1: destruct H as (q' & _ & H); exists Head, q; destruct (Hhead q H Hnd); split; [done|]; split; [by apply head_nodup|done].
  1: destruct H as (q' & _ & H & _); exists Head, q; destruct (Hhead q H Hnd); split; [done|]; split; [by apply head_nodup|done].
  all: destruct H as (q' & E & H & _); exists (Next n), q'; destruct (Hnode n q' E H); split; [done|]; split; [apply node_nodup; by rewrite <- E|done].
Qed.

(** The consumer's view does not change if links change that are neither of the list nor the head, nor one it has read. *)
Lemma pop_frame c s s' q e e' : pop_ok c s q e -> NoDup q -> e' = e ->
  (forall k, k = Head \/ (exists n, n ∈ q /\ k = Next n) -> get k s' = get k s) ->
  (forall n, n ∈ q -> q_tail s <> Next n -> q_tail s' <> Next n) -> pop_ok c s' q e'.
Proof.
  intros H Hnd -> Hk Ht.
  assert (forall q0, (forall n, n ∈ q0 -> n ∈ q) -> NoDup q0 -> chain s Head q0 e -> chain s' Head q0 e) as Hhead.
  { intros q0 Hq0 Hn0 H0. apply (chain_frame s); [done|by apply head_nodup|]. intros k Hin _. apply Hk.
    apply elem_of_cons in Hin as [->|Hin]; [by left|]. right. apply list_elem_of_fmap in Hin as (n & -> & Hn). exists n. auto. }
  assert (forall n q', q = n :: q' -> chain s (Next n) q' e -> chain s' (Next n) q' e) as Hnode.
  { intros n q' -> H0. apply (chain_frame s); [done|by apply node_nodup|]. intros k Hin _. apply Hk. right.
    change (Next n :: map Next q') with (map Next (n :: q')) in Hin. apply list_elem_of_fmap in Hin as (m & -> & Hm). by exists m. }
  assert (forall n q' nx, q = n :: q' -> seen n nx s -> seen n nx s') as Hseen.
  { intros n q' nx -> Hs m Hm. rewrite <- (Hs m Hm). apply (Hk (Next n)). right. exists n. split; [left|done]. }
  destruct c as [| |n|n nx|n|n|n nx|n]; cbn [pop_ok] in *; auto.
  - destruct H as (q' & E & H). exists q'. auto.
  - destruct H as (q' & E & H & Hs). exists q'. split; [done|]. split; [auto|by eapply Hseen].
  - destruct H as (q' & E & H & Hh). exists q'. split; [done|]. split; [by apply Hnode|]. pose proof (Hk Head (or_introl eq_refl)) as E1. cbn in E1. congruence.
  - destruct H as (q' & E & H & Hh). exists q'. split; [done|]. split; [by apply Hnode|]. apply Ht; [subst; left|done].
  - destruct H as (q' & E & H & Hh & Hs). exists q'. split; [done|]. split; [by apply Hnode|]. split; [apply Ht; [subst; left|done]|by eapply Hseen].
Qed.

(** ** Stores *)

Lemma store_total l v s x : get l s = Some x -> exists s', store l v s = Some s' /\ get l s' = Some v /\ (forall k, k <> l -> get k s' = get k s) /\
  q_tail s' = q_tail s /\ q_count s' = q_count s /\ (forall n, is_Some (q_next s' !! n) <-> is_Some (q_next s !! n)).
Proof.
  destruct l as [|n]; cbn [get store]; intros H; [|rewrite H; cbn [mbind option_bind]]; eexists; (split; [done|]).
  - split; [done|]. split; [by intros [|m]|done].
  - split; [cbn; apply lookup_insert_eq|]. split.
    + intros [|m] Hne; [done|]. cbn. apply lookup_insert_ne. congruence.
    + split; [done|]. split; [done|]. intros m. cbn. destruct (decide (m = n)) as [->|Hne]; [|by rewrite lookup_insert_ne].
      rewrite lookup_insert_eq, H. split; by eexists.
Qed.

(** A node is linked behind the last one. *)
Lemma pop_extend c s s' q e n : pop_ok c s q e -> NoDup q -> get e s = Some None -> get e s' = Some (Some n) ->
  (forall k, k <> e -> get k s' = get k s) -> q_tail s' = q_tail s -> pop_ok c s' (q ++ [n]) (Next n).
Proof.
  intros H Hnd He He' Hk Ht.
  assert (forall l q0, NoDup (l :: map Next q0) -> chain s l q0 e -> chain s' l (q0 ++ [n]) (Next n)) as Hext.
  { intros l q0 Hn0 H0. apply chain_snoc with e; [|done]. apply (chain_frame s); [done..|]. intros k _ Hne. by apply Hk. }
  assert (forall m nx, seen m nx s -> seen m nx s') as Hseen.
  { intros m nx Hs m' Em. specialize (Hs m' Em). rewrite <- Hs. apply (Hk (Next m)). intros <-. cbn in He. congruence. }
  destruct c as [| |m|m nx|m|m|m nx|m]; cbn [pop_ok] in *.
  1,2,8: apply Hext; [by apply head_nodup|done].
  - destruct H as (q' & -> & H). exists (q' ++ [n]). split; [done|]. apply Hext; [by apply head_nodup|done].
  - destruct H as (q' & -> & H & Hs). exists (q' ++ [n]). split; [done|]. split; [apply Hext; [by apply head_nodup|done]|by apply Hseen].
  - destruct H as (q' & -> & H & Hh). exists (q' ++ [n]). split; [done|]. split; [apply Hext; [by apply node_nodup|done]|].
    pose proof (chain_end _ _ _ _ H) as Hin. assert (Head <> e) as Hne.
    { intros <-. change (Next m :: map Next q') with (map Next (m :: q')) in Hin. by apply head_link in Hin. }
    pose proof (Hk Head Hne) as E. cbn in E. congruence.
  - destruct H as (q' & -> & H & Hh). exists (q' ++ [n]). split; [done|]. split; [apply Hext; [by apply node_nodup|done]|congruence].
  - destruct H as (q' & -> & H & Hh & Hs). exists (q' ++ [n]). split; [done|]. split; [apply Hext; [by apply node_nodup|done]|].
    split; [congruence|by apply Hseen].
Qed.

Lemma s32_add x y : s32 (s32 x + y) = s32 (x + y).
Proof.
  unfold s32. f_equal. replace ((x + 2 ^ 31) mod 2 ^ 32 - 2 ^ 31 + y + 2 ^ 31) with ((x + 2 ^ 31) mod 2 ^ 32 + y) by lia.
  rewrite Zplus_mod_idemp_l. f_equal. lia.
Qed.

Lemma inv_queue_nodup q s p c : spsc_inv q s p c -> NoDup q /\ (forall n, n ∈ pending p -> n ∉ q) /\ (forall n, n ∈ held c -> n ∉ q).
Proof.
  intros H. pose proof (si_nodup _ _ _ _ H) as H0. apply NoDup_app in H0 as (_ & H1 & H0). apply NoDup_app in H0 as (Hq & H2 & _).
  split; [done|]. split; [intros n Hn Hin; by apply (H2 n)|]. intros n Hn Hin. apply (H1 n Hn), elem_of_app. by left.
Qed.

(** The end of the list is the head or a node of the list. *)
Lemma end_in_queue c s q e : pop_ok c s q e -> NoDup q -> e = Head \/ exists n, n ∈ q /\ e = Next n.
Proof.
  intros H Hnd. destruct (pop_links c s q e H Hnd) as (l & q' & Hc & _ & Hin & _). apply Hin. by eapply chain_end.
Qed.

(** ** Every step keeps the invariant *)

Lemma push_call_inv q s c n junk : spsc_inv q s PushIdle c -> q_next s !! n = None ->
  spsc_inv q (set_nexts (<[n := junk]> (q_next s)) s) (PushClear n) c.
Proof.
  intros HI Hn. destruct (inv_queue_nodup _ _ _ _ HI) as (Hq & _). pose proof (si_nodes _ _ _ _ HI) as Hdom.
  assert (n ∉ held c ++ q) as Hfresh.
  { intros Hin. destruct (proj2 (Hdom n)) as [x Hx]; [cbn; rewrite app_nil_r; done|congruence]. }
  assert (forall k, k = Head \/ (exists m, m ∈ q /\ k = Next m) -> get k (set_nexts (<[n := junk]> (q_next s)) s) = get k s) as Hk.
  { intros k [->|(m & Hm & ->)]; [done|]. cbn. apply lookup_insert_ne. intros <-. apply Hfresh, elem_of_app. by right. }
  constructor.
  - pose proof (si_nodup _ _ _ _ HI) as H. cbn [pending] in *. rewrite app_nil_r in H. rewrite app_assoc. apply NoDup_app. split; [done|].
    split; [|apply NoDup_singleton]. intros m Hm ->%list_elem_of_singleton. done.
  - intros m. cbn [pending set_nexts q_next] in *. specialize (Hdom m). rewrite app_nil_r in Hdom. rewrite app_assoc, elem_of_app, <- Hdom, list_elem_of_singleton.
    destruct (decide (m = n)) as [->|Hne]; [rewrite lookup_insert_eq; split; [by right|by eexists]|]. rewrite lookup_insert_ne by done. tauto.
  - pose proof (end_in_queue c s q _ (si_pop _ _ _ _ HI) Hq) as He. cbn [end_link] in *. change (q_tail (set_nexts _ s)) with (q_tail s). rewrite Hk by done. apply HI.
  - done.
  - apply (pop_frame c s _ q (q_tail s)); [apply (si_pop _ _ _ _ HI)|done|done|done|done].
  - apply (si_count _ _ _ _ HI).
Qed.

Lemma push_inv q s p c p' s' ev : spsc_inv q s p c -> spsc_queue_push p s = Some (p', s', ev) ->
  exists q', fifo_run q ev = Some q' /\ spsc_inv q' s' p' c.
Proof.
  intros HI Hs. destruct (inv_queue_nodup _ _ _ _ HI) as (Hq & Hpend & _). pose proof (end_in_queue c s q _ (si_pop _ _ _ _ HI) Hq) as Hend.
  pose proof (si_end _ _ _ _ HI) as Hnull. pose proof (si_pop _ _ _ _ HI) as Hpop. pose proof (si_push _ _ _ _ HI) as Hpush.
  destruct p as [|n|n|n t|n t]; cbn [spsc_queue_push] in Hs; [done| | | |].
  - destruct (proj2 (si_nodes _ _ _ _ HI n)) as [x Hx]; [cbn; set_solver|].
    destruct (store_total (Next n) None s x Hx) as (s1 & E1 & G1 & G2 & T & K & D). rewrite E1 in Hs. cbn in Hs. injection Hs as <- <- <-. exists q. split; [done|].
    cbn [end_link] in *. assert (forall k, k = Head \/ (exists m, m ∈ q /\ k = Next m) -> get k s1 = get k s) as Hk.
    { intros k [->|(m & Hm & ->)]; apply G2; [done|]. intros [= ->]. apply (Hpend n); [left|done]. }
    constructor; cbn [end_link push_ok].
    + apply HI.
    + intros m. rewrite D. apply HI.
    + rewrite T, Hk by done. done.
    + exact G1.
    + apply (pop_frame c s _ q (q_tail s)); [done|done|by rewrite T|done|by rewrite T].
    + rewrite K. apply HI.
  - injection Hs as <- <- <-. exists q. split; [done|]. cbn [end_link] in *. constructor; cbn [end_link push_ok].
    + apply HI.
    + apply (si_nodes _ _ _ _ HI).
    + exact Hnull.
    + split; [exact Hpush|done].
    + apply (pop_frame c s _ q (q_tail s)); [done|done|done|by intros [|m]|]. intros m Hm _. cbn. intros [= ->]. apply (Hpend m); [left|done].
    + apply HI.
  - cbn [end_link push_ok] in *. destruct Hpush as [Hn Ht]. destruct (store_total t (Some n) s None Hnull) as (s1 & E1 & G1 & G2 & T & K & D).
    rewrite E1 in Hs. cbn in Hs. injection Hs as <- <- <-. exists (q ++ [n]).
    destruct (pop_links c s q t Hpop Hq) as (_ & _ & _ & _ & _ & Hempty). split.
    { cbn. rewrite bool_decide_true; [done|]. by apply bool_decide_ext. }
    assert (Next n <> t) as Hnt by (intros <-; destruct Hend as [|(m & Hm & [= ->])]; [done|]; apply (Hpend m); [left|done]).
    constructor; cbn [end_link push_ok pending].
    + pose proof (si_nodup _ _ _ _ HI) as H. cbn [pending] in H. by rewrite app_nil_r.
    + intros m. rewrite D. pose proof (si_nodes _ _ _ _ HI m) as H. cbn [pending] in H. by rewrite app_nil_r.
    + rewrite T, Ht, G2 by done. exact Hn.
    + done.
    + rewrite T, Ht. apply (pop_extend c s s1 q t n); [done..|by rewrite T].
    + rewrite K. rewrite (si_count _ _ _ _ HI). f_equal. rewrite length_app. cbn [uncounted length]. lia.
  - injection Hs as <- <- <-. exists q. split; [done|]. cbn [end_link] in *. constructor; cbn [end_link push_ok].
    + apply HI.
    + apply (si_nodes _ _ _ _ HI).
    + exact Hnull.
    + done.
    + apply (pop_frame c s _ q (q_tail s)); [done|done|done|by intros [|m]|done].
    + cbn [q_count set_count]. rewrite (si_count _ _ _ _ HI), s32_add. f_equal. cbn [uncounted]. lia.
Qed.

(** Links of nodes do not depend on the head. *)
Lemma chain_set_head s n q e v : chain s (Next n) q e -> chain (set_head v s) (Next n) q e.
Proof.
  revert n. induction q as [|m q IH]; intros n H; cbn [chain] in *; [done|]. destruct H as [H1 H2]. split; [done|by apply IH].
Qed.

(** The head is moved behind node [n]. *)
Lemma move_head s n q m e : chain s (Next n) q e -> q_next s !! n = Some (Some m) -> get e s = Some None -> chain (set_head (Some m) s) Head q e.
Proof.
  destruct q as [|m' q]; cbn [chain].
  - intros <- H He. cbn in He. congruence.
  - intros [H1 H2] H _. cbn in H1. rewrite H in H1. injection H1 as <-. split; [done|by apply chain_set_head].
Qed.

Lemma end_set_head s n q e v : chain s (Next n) q e -> get e (set_head v s) = get e s.
Proof.
  intros H. apply chain_end in H. change (Next n :: map Next q) with (map Next (n :: q)) in H. apply list_elem_of_fmap in H as (m & -> & _). done.
Qed.

(** The node that is popped leaves the queue. *)
Lemma take_inv q n s p c l m : spsc_inv (n :: q) s p c -> held c = [] -> chain s (Next n) q (end_link p s) ->
  l = Some m -> q_next s !! n = Some l -> spsc_inv q (set_head l s) p (PopCount n).
Proof.
  intros HI Hh Hc -> Hn. pose proof (si_nodup _ _ _ _ HI) as Hnd. pose proof (si_nodes _ _ _ _ HI) as Hdom. rewrite Hh in Hnd, Hdom.
  assert (end_link p (set_head (Some m) s) = end_link p s) as Ee by (by destruct p). constructor; cbn [held].
  - done.
  - done.
  - rewrite Ee, (end_set_head s n q) by done. apply HI.
  - pose proof (si_push _ _ _ _ HI) as H. by destruct p.
  - cbn [pop_ok]. rewrite Ee. apply (move_head s n); [done..|apply HI].
  - change (q_count (set_head _ s)) with (q_count s). rewrite (si_count _ _ _ _ HI), Hh. f_equal. cbn [length]. lia.
Qed.

(** Reading a link, or moving to another point, changes nothing. *)
Lemma same_inv q s p c c' : spsc_inv q s p c -> held c = held c' -> pop_ok c' s q (end_link p s) -> spsc_inv q s p c'.
Proof. intros HI Hh Hp. destruct HI. rewrite Hh in *. by constructor. Qed.

Lemma head_stored_inv q n s p c c' v : spsc_inv (n :: q) s p c -> held c = held c' -> chain s (Next n) q (end_link p s) ->
  pop_ok c' (set_head v s) (n :: q) (end_link p s) -> spsc_inv (n :: q) (set_head v s) p c'.
Proof.
  intros HI Hh Hc Hp. assert (end_link p (set_head v s) = end_link p s) as Ee by (by destruct p). constructor.
  - rewrite <- Hh. apply HI.
  - rewrite <- Hh. apply (si_nodes _ _ _ _ HI).
  - rewrite Ee, (end_set_head s n q) by done. apply HI.
  - pose proof (si_push _ _ _ _ HI) as H. by destruct p.
  - by rewrite Ee.
  - rewrite <- Hh. apply (si_count _ _ _ _ HI).
Qed.

Lemma fifo_take n q : fifo_run (n :: q) [Popped (Some n)] = Some q.
Proof. cbn. by rewrite Nat.eqb_refl. Qed.

Lemma cas_inv q n s p : spsc_inv (n :: q) s p (PopCas n) -> chain s (Next n) q (end_link p s) -> q_head s = None -> q_tail s = Next n ->
  q = [] /\ spsc_inv [] (set_tail Head s) p (PopCount n).
Proof.
  intros HI Hc Hhead Ht. destruct (inv_queue_nodup _ _ _ _ HI) as (Hnd & Hpend & _).
  assert (forall x t, p <> PushLink x t) as Hp.
  { intros x t ->. destruct (si_push _ _ _ _ HI) as [_ Ht']. rewrite Ht in Ht'. injection Ht' as <-. apply (Hpend n); left. }
  assert (end_link p s = Next n) as Ee by (rewrite <- Ht; destruct p; [done..|by destruct (Hp node tail)|done]).
  rewrite Ee in Hc. apply chain_loop in Hc as ->; [|by apply node_nodup]. split; [done|].
  assert (end_link p (set_tail Head s) = Head) as Ee' by (destruct p; [done..|by destruct (Hp node tail)|done]). constructor; cbn [held].
  - apply (si_nodup _ _ _ _ HI).
  - apply (si_nodes _ _ _ _ HI).
  - rewrite Ee'. cbn. by rewrite Hhead.
  - pose proof (si_push _ _ _ _ HI) as H. destruct p; [done..|by destruct (Hp node tail)|done].
  - cbn. by rewrite Ee'.
  - change (q_count (set_tail _ s)) with (q_count s). rewrite (si_count _ _ _ _ HI). f_equal. cbn [held length]. lia.
Qed.

Lemma return_inv q n s p : spsc_inv q s p (PopCount n) ->
  spsc_inv q (set_count (s32 (q_count s - 1)) (set_nexts (delete n (q_next s)) s)) p PopIdle.
Proof.
  intros HI. destruct (inv_queue_nodup _ _ _ _ HI) as (Hq & Hpend & Hheld). pose proof (si_nodup _ _ _ _ HI) as Hnd. cbn [held app] in Hnd.
  apply list.NoDup_cons in Hnd as [Hn Hnd]. set (s' := set_count _ _).
  assert (forall k, k = Head \/ (exists m, m ∈ q /\ k = Next m) -> get k s' = get k s) as Hk.
  { intros k [->|(m & Hm & ->)]; [done|]. cbn. apply lookup_delete_ne. intros <-. apply Hn, elem_of_app. by left. }
  assert (end_link p s' = end_link p s) as Ee by (by destruct p). constructor; cbn [held app].
  - done.
  - intros m. pose proof (si_nodes _ _ _ _ HI m) as Hm. cbn [held app] in Hm. rewrite elem_of_cons in Hm. cbn.
    destruct (decide (m = n)) as [->|Hne]; [|rewrite lookup_delete_ne by done; tauto]. rewrite lookup_delete_eq. split; [by intros [? [=]]|done].
  - rewrite Ee, Hk by (by eapply end_in_queue; [apply (si_pop _ _ _ _ HI)|]). apply HI.
  - pose proof (si_push _ _ _ _ HI) as H. assert (forall x, x ∈ pending p -> q_next s' !! x = q_next s !! x) as Hx.
    { intros x Hx. cbn. apply lookup_delete_ne. intros <-. apply Hn, elem_of_app. by right. }
    destruct p; cbn [push_ok pending] in *; [done..| | |done]; rewrite Hx; [done|left|done|left].
  - rewrite Ee. apply (pop_frame PopIdle s _ q (end_link p s)); [apply (si_pop _ _ _ _ HI)|done|done|done|done].
  - cbn [q_count s' set_count]. rewrite (si_count _ _ _ _ HI). replace (s32 _ - 1) with (s32 (Z.of_nat (length q) - uncounted p + Z.of_nat (length (held (PopCount n)))) + -1) by lia.
    rewrite s32_add. f_equal. cbn [held length]. lia.
Qed.

Lemma pop_inv q s p c c' s' ev : spsc_inv q s p c -> spsc_queue_pop c s = Some (c', s', ev) ->
  exists q', fifo_run q ev = Some q' /\ spsc_inv q' s' p c'.
Proof.
  intros HI Hs. pose proof (si_pop _ _ _ _ HI) as Hp. pose proof (si_end _ _ _ _ HI) as He.
  destruct c as [| |n|n nx|n|n|n nx|n]; cbn [spsc_queue_pop pop_ok] in *; [done| | | | | | |].
  - destruct q as [|n q]; cbn [chain] in Hp.
    + rewrite <- Hp in He. cbn in He. injection He as He. rewrite He in Hs. injection Hs as <- <- <-. exists []. split; [done|].
      by apply (same_inv _ _ _ PopHead).
    + destruct Hp as [H1 H2]. injection H1 as H1. rewrite H1 in Hs. injection Hs as <- <- <-. exists (n :: q). split; [done|].
      apply (same_inv _ _ _ PopHead); [done..|]. exists q. split; [done|]. split; [cbn; by rewrite H1|done].
  - destruct Hp as (q' & -> & H1 & H2). cbn [get] in Hs. destruct (q_next s !! n) as [nx|] eqn:En; [|done]. cbn in Hs. injection Hs as <- <- <-.
    exists (n :: q'). split; [done|]. apply (same_inv _ _ _ (PopNext n)); [done..|]. exists q'. split; [done|]. split; [done|]. intros m ->. done.
  - destruct Hp as (q' & -> & [H1 H2] & Hseen). destruct nx as [m|]; injection Hs as <- <- <-.
    + exists q'. split; [apply fifo_take|]. apply (take_inv q' n s p (PopStore n (Some m)) _ m); [done..|by apply Hseen].
    + exists (n :: q'). split; [done|]. apply (head_stored_inv q' n s p (PopStore n None)); [done..|]. exists q'. split; [done|].
      split; [by apply chain_set_head|done].
  - destruct Hp as (q' & -> & H2 & Hh). destruct (bool_decide_reflect (q_tail s = Next n)) as [Ht|Ht]; injection Hs as <- <- <-.
    + destruct (cas_inv q' n s p HI H2 Hh Ht) as [-> HI']. exists []. split; [apply fifo_take|done].
    + exists (n :: q'). split; [done|]. apply (same_inv _ _ _ (PopCas n)); [done..|]. by exists q'.
  - destruct Hp as (q' & -> & H2 & Ht). cbn [get] in Hs. destruct (q_next s !! n) as [nx|] eqn:En; [|done]. cbn in Hs. injection Hs as <- <- <-.
    exists (n :: q'). split; [done|]. apply (same_inv _ _ _ (PopSpin n)); [done..|]. exists q'. split; [done|]. split; [done|]. split; [done|]. intros m ->. done.
  - destruct Hp as (q' & -> & H2 & Ht & Hseen). destruct nx as [m|]; injection Hs as <- <- <-.
    + exists q'. split; [apply fifo_take|]. apply (take_inv q' n s p (PopSpinStore n (Some m)) _ m); [done..|by apply Hseen].
    + exists (n :: q'). split; [done|]. apply (head_stored_inv q' n s p (PopSpinStore n None)); [done..|]. exists q'. split; [done|].
      split; [by apply chain_set_head|done].
  - injection Hs as <- <- <-. exists q. split; [done|]. by apply return_inv.
Qed.

Lemma empty_queue_inv : spsc_inv [] spsc_queue_init PushIdle PopIdle.
Proof. constructor; cbn; [apply NoDup_nil_2| |done..]. intros n. rewrite lookup_empty. split; [by intros [? [=]]|by intros ?%elem_of_nil]. Qed.

Lemma fifo_run_app q q1 evs ev : fifo_run q evs = Some q1 -> fifo_run q (evs ++ ev) = fifo_run q1 ev.
Proof. unfold fifo_run. rewrite foldl_app. by intros ->. Qed.

Lemma spsc_reachable_inv evs st : spsc_reachable evs st -> exists q, fifo_run [] evs = Some q /\ spsc_inv q (st_queue st) (st_push st) (st_pop st).
Proof.
  induction 1 as [|evs st ev st' _ (q & Eq & HI) Hs]; [exists []; split; [done|apply empty_queue_inv]|].
  assert (exists q', fifo_run q ev = Some q' /\ spsc_inv q' (st_queue st') (st_push st') (st_pop st')) as (q' & E' & HI').
  { destruct Hs as [s c n junk Hn|s p c s' p' ev Hs|s p|s p c s' c' ev Hs]; cbn [st_queue st_push st_pop] in *.
    - exists q. split; [done|]. by apply push_call_inv.
    - by eapply push_inv.
    - exists q. split; [done|]. apply (same_inv _ _ _ PopIdle); [done..|]. apply (si_pop _ _ _ _ HI).
    - by eapply pop_inv. }
  exists q'. split; [|done]. by rewrite (fifo_run_app _ q).
Qed.

(** ** Theorems *)

Lemma push_total q s p c : spsc_inv q s p c -> p <> PushIdle -> is_Some (spsc_queue_push p s).
Proof.
  intros HI Hp. destruct p as [|n|n|n t|n t]; cbn [spsc_queue_push]; [done| |by eexists| |by eexists].
  - destruct (proj2 (si_nodes _ _ _ _ HI n)) as [x Hx]; [cbn; set_solver|]. destruct (store_total (Next n) None s x Hx) as (s1 & -> & _). by eexists.
  - destruct (store_total t (Some n) s None (si_end _ _ _ _ HI)) as (s1 & -> & _). by eexists.
Qed.

Lemma pop_total q s p c : spsc_inv q s p c -> c <> PopIdle -> is_Some (spsc_queue_pop c s).
Proof.
  intros HI Hc. pose proof (si_pop _ _ _ _ HI) as Hp.
  assert (forall n q', q = n :: q' -> is_Some (q_next s !! n)) as Hq.
  { intros n q' ->. apply HI. apply elem_of_app. right. apply elem_of_app. left. left. }
  destruct c as [| |n|n nx|n|n|n nx|n]; cbn [spsc_queue_pop pop_ok get] in *; [done|destruct (q_head s); by eexists| | | | | |by eexists].
  - destruct Hp as (q' & E & _). destruct (Hq n q' E) as [x ->]. by eexists.
  - destruct nx; by eexists.
  - destruct (bool_decide _); by eexists.
  - destruct Hp as (q' & E & _). destruct (Hq n q' E) as [x ->]. by eexists.
  - destruct nx; by eexists.
Qed.

(** C13: whatever the interleaving of the producer and the consumer, neither touches a node that is not in the queue; what
    takes effect is a run of a first-in-first-out queue, and push returns true exactly when it found the queue empty; between the
    calls the counter is the number of nodes. *)
Theorem spsc_queue_refines_fifo evs st : spsc_reachable evs st ->
  exists q, fifo_run [] evs = Some q /\
    (st_push st <> PushIdle -> is_Some (spsc_queue_push (st_push st) (st_queue st))) /\
    (st_pop st <> PopIdle -> is_Some (spsc_queue_pop (st_pop st) (st_queue st))) /\
    (st_push st = PushIdle -> st_pop st = PopIdle ->
      spsc_queue_count (st_queue st) = s32 (Z.of_nat (length q)) /\ spsc_queue_peek (st_queue st) = hd_error q).
Proof.
  intros Hr. destruct (spsc_reachable_inv evs st Hr) as (q & Eq & HI). exists q. split; [done|].
  split; [by eapply push_total|]. split; [by eapply pop_total|]. intros Ep Ec. rewrite Ep, Ec in HI. split.
  - unfold spsc_queue_count. rewrite (si_count _ _ _ _ HI). f_equal. cbn. lia.
  - unfold spsc_queue_peek. pose proof (si_pop _ _ _ _ HI) as Hp. pose proof (si_end _ _ _ _ HI) as He. cbn [pop_ok end_link] in *.
    destruct q as [|n q]; cbn [chain] in Hp; [rewrite <- Hp in He; cbn in *; congruence|]. destruct Hp as [H _]. cbn in *. congruence.
Qed.

(** Accesses of the consumer without steps of the producer between them, at most [k], until it returns. *)
Fixpoint pop_alone (k : nat) (c : pop_pc) (s : spsc_queue) : option (pop_pc * spsc_queue) :=
  match c, k with
  | PopIdle, _ => Some (PopIdle, s)
  | _, O => Some (c, s)
  | _, S k' => r ← spsc_queue_pop c s; let '(c', s', _) := (r : pop_pc * spsc_queue * list event) in pop_alone k' c' s'
  end.

(** How far the consumer is from its return. *)
Definition pop_rank (c : pop_pc) : nat :=
  match c with
  | PopIdle => 0 | PopHead => 7 | PopNext _ => 6 | PopStore _ None => 5 | PopStore _ (Some _) => 2 | PopCas _ => 4
  | PopSpin _ => 3 | PopSpinStore _ None => 4 | PopSpinStore _ (Some _) => 2 | PopCount _ => 1
  end.

Lemma pop_closer q s p c : spsc_inv q s p c -> (forall n t, p <> PushLink n t) -> c <> PopIdle ->
  exists c' s' ev, spsc_queue_pop c s = Some (c', s', ev) /\ (pop_rank c' < pop_rank c)%nat.
Proof.
  intros HI Hp Hc. destruct (pop_total q s p c HI Hc) as [[[c' s'] ev] E]. exists c', s', ev. split; [done|]. pose proof (si_pop _ _ _ _ HI) as Hpop.
  assert (end_link p s = q_tail s) as Ee by (destruct p; [done..|by destruct (Hp node tail)|done]). rewrite Ee in Hpop.
  destruct c as [| |n|n nx|n|n|n nx|n]; cbn [spsc_queue_pop get pop_ok] in *; [done| | | | | | |].
  - destruct (q_head s); injection E as <- <- <-; simpl; lia.
  - destruct (q_next s !! n) as [nx|]; [|done]. injection E as <- <- <-. simpl. destruct nx; lia.
  - destruct nx; injection E as <- <- <-; simpl; lia.
  - destruct (bool_decide _); injection E as <- <- <-; simpl; lia.
  - destruct Hpop as (q' & -> & H & Ht). destruct q' as [|m q']; cbn [chain] in H; [congruence|]. destruct H as [H _]. cbn in H. rewrite H in E.
    injection E as <- <- <-. simpl. lia.
  - destruct nx; injection E as <- <- <-; simpl; lia.
  - injection E as <- <- <-. simpl. lia.
Qed.

Lemma pop_alone_returns k : forall q s p c, spsc_inv q s p c -> (forall n t, p <> PushLink n t) -> (pop_rank c <= k)%nat ->
  exists s', pop_alone k c s = Some (PopIdle, s').
Proof.
  induction k as [|k IH]; intros q s p c HI Hp Hk.
  - assert (c = PopIdle) as -> by (destruct c as [| | |? []| | |? []|]; simpl in Hk; [done|lia..]). by exists s.
  - destruct (decide (pop_rank c = 0%nat)) as [E0|Hne].
    { assert (c = PopIdle) as -> by (destruct c as [| | |? []| | |? []|]; simpl in E0; [done|lia..]). by exists s. }
    assert (c <> PopIdle) as Hc by (by intros ->). destruct (pop_closer q s p c HI Hp Hc) as (c' & s' & ev & E & Hlt).
    destruct (pop_inv q s p c c' s' ev HI E) as (q' & _ & HI'). destruct (IH q' s' p c' HI' Hp ltac:(lia)) as [s2 E2].
    exists s2. destruct c; [done|cbn [pop_alone]; rewrite E; exact E2..].
Qed.

(** Pop waits for nothing but a push that has exchanged the tail and not stored its link: otherwise it returns after at most
    seven accesses of its own, and after one step of such a push it does too. *)
Theorem spsc_queue_pop_returns evs st : spsc_reachable evs st ->
  ((forall n t, st_push st <> PushLink n t) -> exists s, pop_alone 7 (st_pop st) (st_queue st) = Some (PopIdle, s)) /\
  (forall n t, st_push st = PushLink n t ->
    exists s1 ev s, spsc_queue_push (PushLink n t) (st_queue st) = Some (PushCount n t, s1, ev) /\ pop_alone 7 (st_pop st) s1 = Some (PopIdle, s)).
Proof.
  intros Hr. destruct (spsc_reachable_inv evs st Hr) as (q & _ & HI).
  assert (forall c, (pop_rank c <= 7)%nat) as H7 by (intros [| | |? []| | |? []|]; simpl; lia). split.
  - intros Hp. by eapply pop_alone_returns.
  - intros n t Et. rewrite Et in HI. destruct (push_total q _ _ _ HI ltac:(done)) as [[[p1 s1] ev] E1].
    destruct (push_inv q _ _ _ p1 s1 ev HI E1) as (q1 & _ & HI1).
    assert (p1 = PushCount n t) as -> by (revert E1; cbn; destruct (store t (Some n) (st_queue st)); cbn; [by intros [= <- _ _]|done]).
    destruct (pop_alone_returns 7 q1 s1 _ (st_pop st) HI1) as [s Es]; [done|apply H7|]. by exists s1, ev, s.
Qed.

(** ** Examples *)

(** A schedule: calls of push and pop, and single accesses. *)
Inductive action := CallPush (node : nat) | StepPush | CallPop | StepPop.

Definition act (a : action) (st : spsc_state) (evs : list event) : option (spsc_state * list event) :=
  match a, st_push st, st_pop st with
  | CallPush n, PushIdle, c =>
    if bool_decide (q_next (st_queue st) !! n = None)
    then Some ({| st_queue := set_nexts (<[n := None]> (q_next (st_queue st))) (st_queue st); st_push := PushClear n; st_pop := c |}, evs) else None
  | StepPush, p, c => r ← spsc_queue_push p (st_queue st); Some ({| st_queue := r.1.2; st_push := r.1.1; st_pop := c |}, evs ++ r.2)
  | CallPop, p, PopIdle => Some ({| st_queue := st_queue st; st_push := p; st_pop := PopHead |}, evs)
  | StepPop, p, c => r ← spsc_queue_pop c (st_queue st); Some ({| st_queue := r.1.2; st_push := p; st_pop := r.1.1 |}, evs ++ r.2)
  | _, _, _ => None
  end.

Fixpoint schedule (l : list action) (st : spsc_state) (evs : list event) : option (spsc_state * list event) :=
  match l with [] => Some (st, evs) | a :: l' => r ← act a st evs; schedule l' r.1 r.2 end.

Lemma act_reach a st evs st' evs' : spsc_reachable evs st -> act a st evs = Some (st', evs') -> spsc_reachable evs' st'.
Proof.
  intros Hr E. destruct st as [s p c]. destruct a as [n| | |]; cbn [act st_push st_pop st_queue] in E.
  - destruct p; try done. destruct (bool_decide_reflect (q_next s !! n = None)); [|done]. injection E as <- <-.
    rewrite <- (app_nil_r evs). eapply spsc_reach_step; [exact Hr|]. by apply step_push_call.
  - assert ((r ← spsc_queue_push p s; Some ({| st_queue := r.1.2; st_push := r.1.1; st_pop := c |}, evs ++ r.2)) = Some (st', evs')) as E1 by (by destruct p).
    destruct (spsc_queue_push p s) as [[[p1 s1] ev]|] eqn:E2; [|done]. injection E1 as <- <-. eapply spsc_reach_step; [exact Hr|]. by apply step_push.
  - destruct c; [|by destruct p..]. assert (Some ({| st_queue := s; st_push := p; st_pop := PopHead |}, evs) = Some (st', evs')) as E1 by (by destruct p). injection E1 as <- <-.
    rewrite <- (app_nil_r evs). eapply spsc_reach_step; [exact Hr|]. apply step_pop_call.
  - assert ((r ← spsc_queue_pop c s; Some ({| st_queue := r.1.2; st_push := p; st_pop := r.1.1 |}, evs ++ r.2)) = Some (st', evs')) as E1 by (by destruct p, c).
    destruct (spsc_queue_pop c s) as [[[c1 s1] ev]|] eqn:E2; [|done]. injection E1 as <- <-. eapply spsc_reach_step; [exact Hr|]. by apply step_pop.
Qed.

Lemma schedule_reach l : forall st evs st' evs', spsc_reachable evs st -> schedule l st evs = Some (st', evs') -> spsc_reachable evs' st'.
Proof.
  induction l as [|a l IH]; intros st evs st' evs' Hr E; cbn [schedule] in E; [by injection E as <- <-|].
  destruct (act a st evs) as [[st1 evs1]|] eqn:E1; [|done]. eapply IH; [|exact E]. by eapply act_reach.
Qed.

(** The only node is popped while another one is pushed: the consumer waits for the link. *)
Definition sample_schedule : list action :=
  [CallPush 5; StepPush; StepPush; StepPush; StepPush; CallPop; StepPop; StepPop; StepPop; CallPush 6; StepPush; StepPush; StepPop].

Definition sample_events : list event := [Pushed 5 true].
Definition sample_state : spsc_state :=
  {| st_queue := {| q_head := None; q_tail := Next 6; q_count := 1; q_next := <[6%nat := None]> {[ 5%nat := None ]} |};
     st_push := PushLink 6 (Next 5); st_pop := PopSpin 5 |}.

Lemma sample_reachable : spsc_reachable sample_events sample_state.
Proof. apply (schedule_reach sample_schedule spsc_start []); [constructor|]. vm_compute. reflexivity. Qed.

Lemma spsc_queue_refines_fifo_witness : exists q, fifo_run [] sample_events = Some q /\
    is_Some (spsc_queue_push (st_push sample_state) (st_queue sample_state)) /\ is_Some (spsc_queue_pop (st_pop sample_state) (st_queue sample_state)) /\ q = [5%nat].
Proof.
  destruct (spsc_queue_refines_fifo _ _ sample_reachable) as (q & Eq & H1 & H2 & _). exists q. split; [exact Eq|].
  split; [apply H1; discriminate|]. split; [apply H2; discriminate|]. vm_compute in Eq. apply (inj Some) in Eq. symmetry. exact Eq.
Defined.

Lemma spsc_queue_pop_returns_witness :
  exists s1 ev s, spsc_queue_push (PushLink 6 (Next 5)) (st_queue sample_state) = Some (PushCount 6 (Next 5), s1, ev) /\
    pop_alone 7 (PopSpin 5) s1 = Some (PopIdle, s).
Proof. exact (proj2 (spsc_queue_pop_returns _ _ sample_reachable) 6%nat (Next 5) eq_refl). Defined.
