(* ===== verification/Gem.v ===== *)
(** * GEM objects, handles and names ([drm_gem.c])

    Buffer objects are counted: each object has references, and handles of files; all its handles together hold one reference.
    Files map handles to objects, the device maps global names to objects, and an object counts how many
    handles let a file map it ([VmaManager]).  Threads interleave: a function is split where it takes or drops a lock or calls the driver, so that each step is a
    section under [table_lock] or [object_name_lock], or one atomic operation on a counter.  An object is removed from memory when its last
    reference is dropped, and an access to an object that is not there is a fault ([None]).
    [idr_alloc] and the driver's [gem_open_object] answer as they like; an error answer makes the code undo what it did.  Exported buffers
    (PRIME) and closing a file are not modelled.

    What the calls return to user space is not part of the state.

    Theorems: as long as user space closes only handles it was given, there is no fault; an
    object lives exactly as long as somebody has a reference or a handle; the handle count is the number of handles; a
    file may map exactly the objects it has handles for.  And two races: opening a name reads the size of an object whose reference it has dropped, and closing
    a handle while it is created frees an object that another file has a handle for. *)

From S2P Require Import Prelude Bytes RbTree VmaManager.
From stdpp Require Import base gmap list option sets.
From Stdlib Require Import ZArith Lia ZifyBool.

#[local] Set Warnings "-clear-no-such-hyp".

#[local] Open Scope Z_scope.

(** ** Objects, files and names *)

(** [struct drm_gem_object]: the fields that are used here; [o_vma] is the list of files of [vma_node]. *)
Record drm_gem_object := { o_refcount : Z; o_handle_count : Z; o_name : Z; o_size : Z; o_vma : vm_access }.

Definition set_refcount (n : Z) (o : drm_gem_object) : drm_gem_object :=
  {| o_refcount := n; o_handle_count := o_handle_count o; o_name := o_name o; o_size := o_size o; o_vma := o_vma o |}.
Definition set_handle_count (n : Z) (o : drm_gem_object) : drm_gem_object :=
  {| o_refcount := o_refcount o; o_handle_count := n; o_name := o_name o; o_size := o_size o; o_vma := o_vma o |}.
Definition set_name (n : Z) (o : drm_gem_object) : drm_gem_object :=
  {| o_refcount := o_refcount o; o_handle_count := o_handle_count o; o_name := n; o_size := o_size o; o_vma := o_vma o |}.
Definition set_vma (v : vm_access) (o : drm_gem_object) : drm_gem_object :=
  {| o_refcount := o_refcount o; o_handle_count := o_handle_count o; o_name := o_name o; o_size := o_size o; o_vma := v |}.

(** The objects in memory, [object_idr] of all files (by file and handle; [None] is an entry that holds [NULL]), and of the
    device [object_name_idr] and whether [object_name_lock] is taken. *)
Record gem_device := { g_objects : gmap nat drm_gem_object; g_handles : gmap (Z * Z) (option nat); g_names : gmap Z nat; g_locked : bool }.

Definition set_objects (m : gmap nat drm_gem_object) (d : gem_device) : gem_device :=
  {| g_objects := m; g_handles := g_handles d; g_names := g_names d; g_locked := g_locked d |}.
Definition set_handles (m : gmap (Z * Z) (option nat)) (d : gem_device) : gem_device :=
  {| g_objects := g_objects d; g_handles := m; g_names := g_names d; g_locked := g_locked d |}.
Definition set_names (m : gmap Z nat) (d : gem_device) : gem_device :=
  {| g_objects := g_objects d; g_handles := g_handles d; g_names := m; g_locked := g_locked d |}.
Definition set_locked (b : bool) (d : gem_device) : gem_device :=
  {| g_objects := g_objects d; g_handles := g_handles d; g_names := g_names d; g_locked := b |}.

(** The driver allocates objects zeroed, so that there is no name. *)
Definition drm_gem_private_object_init (size : Z) : drm_gem_object :=
  {| o_refcount := 1; o_handle_count := 0; o_name := 0; o_size := size; o_vma := drm_vma_node_reset |}.

(** A change of an object. *)
Definition change (o : nat) (f : drm_gem_object -> drm_gem_object) (d : gem_device) : option gem_device :=
  ob ← g_objects d !! o; Some (set_objects (<[o := f ob]> (g_objects d)) d).

Definition drm_gem_object_get (o : nat) (d : gem_device) : option gem_device := change o (fun ob => set_refcount (o_refcount ob + 1) ob) d.

(** [kref_put] with [drm_gem_object_free] *)
Definition drm_gem_object_put_unlocked (o : nat) (d : gem_device) : option gem_device :=
  ob ← g_objects d !! o;
  Some (if o_refcount ob =? 1 then set_objects (delete o (g_objects d)) d
        else set_objects (<[o := set_refcount (o_refcount ob - 1) ob]> (g_objects d)) d).

Definition drm_gem_object_handle_free (o : nat) (ob : drm_gem_object) (d : gem_device) : gem_device :=
  if negb (o_name ob =? 0) then set_objects (<[o := set_name 0 ob]> (g_objects d)) (set_names (delete (o_name ob) (g_names d)) d) else d.

(** ** Threads *)

(** What a function does after it has put a handle or an object. *)
Inductive after :=
| Return
| RemoveEntry (f h : Z)         (* the end of [drm_gem_handle_delete] *)
| PutOpened (o : nat)           (* [drm_gem_open_ioctl] without a handle *)
| ReadSize (f h : Z) (o : nat). (* [drm_gem_open_ioctl] with a handle *)

(** The next section of a thread.  [opening]: [drm_gem_handle_create_tail] was called by [drm_gem_open_ioctl]. *)
Inductive gem_pc :=
| GIdle
| TailCount (f : Z) (o : nat) (opening : bool)
| TailAlloc (f : Z) (o : nat) (opening : bool)
| TailAllow (f : Z) (o : nat) (h : Z) (opening : bool)
| TailOpen (f : Z) (o : nat) (h : Z) (opening : bool)
| TailRevoke (f : Z) (o : nat) (h : Z) (opening : bool)
| TailRemove (f : Z) (o : nat) (h : Z) (opening : bool)
| HandleTest (o : nat) (a : after)
| HandlePut (o : nat) (a : after)
| ObjectPut (o : nat) (a : after)
| DeleteClose (f h : Z) (o : nat)
| DeleteRemove (f h : Z)
| FlinkName (o : nat)
| OpenSize (f h : Z) (o : nat).

Definition resume (a : after) : gem_pc :=
  match a with
  | Return => GIdle
  | RemoveEntry f h => DeleteRemove f h
  | PutOpened o => ObjectPut o Return
  | ReadSize f h o => OpenSize f h o
  end.

Definition tail_failed (o : nat) (opening : bool) : after := if opening then PutOpened o else Return.

(** Answers of what is called: [idr_alloc], whether memory for the permission is short, and the driver's [gem_open_object]. *)
Record gem_answer := { a_alloc : option Z; a_oom : bool; a_open : bool }.

(** ** [drm_gem_handle_create_tail] *)

Definition tail_count (f : Z) (o : nat) (opening : bool) (d : gem_device) : option (gem_pc * gem_device) :=
  ob ← g_objects d !! o;
  d ← change o (fun ob => set_handle_count (u32 (o_handle_count ob + 1)) ob) d;
  d ← (if o_handle_count ob =? 0 then drm_gem_object_get o d else Some d);
  Some (TailAlloc f o opening, d).

Definition tail_alloc (alloc : option Z) (f : Z) (o : nat) (opening : bool) (d : gem_device) : gem_pc * gem_device :=
  match alloc with
  | Some h => (TailAllow f o h opening, set_locked false (set_handles (<[(f, h) := Some o]> (g_handles d)) d))
  | None => (HandleTest o (tail_failed o opening), set_locked false d)
  end.

Definition tail_allow (oom : bool) (f : Z) (o : nat) (h : Z) (opening : bool) (d : gem_device) : option (gem_pc * gem_device) :=
  ob ← g_objects d !! o;
  r ← drm_vma_node_allow oom f (o_vma ob);
  match r with
  | Ok v => d ← change o (set_vma v) d; Some (TailOpen f o h opening, d)
  | Err _ => Some (TailRemove f o h opening, d)
  end.

Definition gem_revoke (f : Z) (o : nat) (d : gem_device) : option gem_device :=
  ob ← g_objects d !! o; v ← drm_vma_node_revoke f (o_vma ob); change o (set_vma v) d.

(** [drm_gem_object_handle_put_unlocked]: the test before the lock, and the section under [object_name_lock] *)
Definition handle_test (o : nat) (a : after) (d : gem_device) : option (gem_pc * gem_device) :=
  ob ← g_objects d !! o; Some (if o_handle_count ob =? 0 then resume a else HandlePut o a, d).

Definition handle_put (o : nat) (a : after) (d : gem_device) : option (gem_pc * gem_device) :=
  ob ← g_objects d !! o;
  let ob := set_handle_count (u32 (o_handle_count ob - 1)) ob in
  let d := set_objects (<[o := ob]> (g_objects d)) d in
  Some (if o_handle_count ob =? 0 then (ObjectPut o a, drm_gem_object_handle_free o ob d) else (resume a, d)).

(** [drm_gem_flink_ioctl] under [object_name_lock] *)
Definition flink_name (alloc : option Z) (o : nat) (d : gem_device) : option (gem_pc * gem_device) :=
  ob ← g_objects d !! o;
  if o_handle_count ob =? 0 then Some (ObjectPut o Return, d)
  else if negb (o_name ob =? 0) then Some (ObjectPut o Return, d)
  else
    match alloc with
    | Some n => Some (ObjectPut o Return, set_objects (<[o := set_name n ob]> (g_objects d)) (set_names (<[n := o]> (g_names d)) d))
    | None => Some (ObjectPut o Return, d)
    end.

(** One section of a thread. *)
Definition gem_section (ans : gem_answer) (pc : gem_pc) (d : gem_device) : option (gem_pc * gem_device) :=
  match pc with
  | GIdle => Some (GIdle, d)
  | TailCount f o opening => tail_count f o opening d
  | TailAlloc f o opening => Some (tail_alloc (a_alloc ans) f o opening d)
  | TailAllow f o h opening => tail_allow (a_oom ans) f o h opening d
  | TailOpen f o h opening =>
    Some (if a_open ans then (if opening then ObjectPut o (ReadSize f h o) else GIdle) else TailRevoke f o h opening, d)
  | TailRevoke f o h opening => d ← gem_revoke f o d; Some (TailRemove f o h opening, d)
  | TailRemove f o h opening => Some (HandleTest o (tail_failed o opening), set_handles (delete (f, h) (g_handles d)) d)
  | HandleTest o a => handle_test o a d
  | HandlePut o a => handle_put o a d
  | ObjectPut o a => d ← drm_gem_object_put_unlocked o d; Some (resume a, d)
  | DeleteClose f h o => d ← gem_revoke f o d; Some (HandleTest o (RemoveEntry f h), d)
  | DeleteRemove f h => Some (GIdle, set_handles (delete (f, h) (g_handles d)) d)
  | FlinkName o => flink_name (a_alloc ans) o d
  | OpenSize f h o => _ ← g_objects d !! o; Some (GIdle, d)
  end.

(** ** Calls *)

Inductive gem_call :=
| NewObject (o : nat) (size : Z)    (* the driver makes an object *)
| DropObject (o : nat)              (* the driver puts a reference it has *)
| HandleCreate (f : Z) (o : nat)
| HandleDelete (f h : Z)
| Lookup (f h : Z)
| Flink (f h : Z)
| OpenName (f n : Z).

Fixpoint remove_one (o : nat) (l : list nat) : list nat :=
  match l with [] => [] | x :: l' => if (x =? o)%nat then l' else x :: remove_one o l' end.

(** The first section of a call, by a thread whose references are [mine]. *)
Definition gem_begin (call : gem_call) (mine : list nat) (d : gem_device) : option (gem_pc * list nat * gem_device) :=
  match call with
  | NewObject o size => Some (GIdle, o :: mine, set_objects (<[o := drm_gem_private_object_init size]> (g_objects d)) d)
  | DropObject o => Some (ObjectPut o Return, remove_one o mine, d)
  | HandleCreate f o => Some (TailCount f o false, mine, set_locked true d)
  | HandleDelete f h =>
    match g_handles d !! (f, h) with
    | Some (Some o) => Some (DeleteClose f h o, mine, set_handles (<[(f, h) := None]> (g_handles d)) d)
    | _ => Some (GIdle, mine, d)
    end
  | Lookup f h =>
    match g_handles d !! (f, h) with
    | Some (Some o) => d ← drm_gem_object_get o d; Some (GIdle, o :: mine, d)
    | _ => Some (GIdle, mine, d)
    end
  | Flink f h =>
    match g_handles d !! (f, h) with
    | Some (Some o) => d ← drm_gem_object_get o d; Some (FlinkName o, mine, d)
    | _ => Some (GIdle, mine, d)
    end
  | OpenName f n =>
    match g_names d !! n with
    | Some o => d ← drm_gem_object_get o d; Some (TailCount f o true, mine, set_locked true d)
    | None => Some (GIdle, mine, d)
    end
  end.

(** ** All interleavings *)

(** A thread: where it is, and the references it got and has not put. *)
Record gem_thread := { th_pc : gem_pc; th_refs : list nat }.

Record gem_state := { gs_device : gem_device; gs_threads : list gem_thread }.

(** When a section can run, and what its answers can be: it may need [object_name_lock], [idr_alloc] gives a positive number that is not in use, and
    no object has [2^32] handles or lets a file in [2^64] times. *)
Definition section_ok (ans : gem_answer) (pc : gem_pc) (d : gem_device) : Prop :=
  match pc with
  | TailCount f o _ => forall ob, g_objects d !! o = Some ob -> o_handle_count ob + 1 < 2 ^ 32
  | TailAlloc f _ _ => forall h, a_alloc ans = Some h -> 0 < h /\ g_handles d !! (f, h) = None
  | TailAllow f o _ _ => forall ob, g_objects d !! o = Some ob -> VmaManager.refs (o_vma ob) f + 1 < 2 ^ 64
  | HandlePut _ _ => g_locked d = false
  | FlinkName _ => g_locked d = false /\ forall n, a_alloc ans = Some n -> 0 < n /\ g_names d !! n = None
  | _ => True
  end.

(** When a call can be made. *)
Definition call_ok (call : gem_call) (mine : list nat) (d : gem_device) : Prop :=
  match call with
  | NewObject o _ => g_objects d !! o = None
  | DropObject o => o ∈ mine
  | HandleCreate _ o => o ∈ mine /\ g_locked d = false
  | OpenName _ _ => g_locked d = false
  | _ => True
  end.

(** The handle that a thread is making and has not returned. *)
Definition making (pc : gem_pc) (f h : Z) : bool :=
  match pc with
  | TailAllow f' _ h' _ | TailOpen f' _ h' _ | TailRevoke f' _ h' _ | TailRemove f' _ h' _
  | HandleTest _ (ReadSize f' h' _) | HandlePut _ (ReadSize f' h' _) | ObjectPut _ (ReadSize f' h' _) | OpenSize f' h' _ => (f =? f') && (h =? h')
  | _ => false
  end.

(** User space closes only handles it was given. *)
Definition polite (call : gem_call) (threads : list gem_thread) : Prop :=
  match call with HandleDelete f h => Forall (fun t => making (th_pc t) f h = false) threads | _ => True end.

(** A section of thread [i], or a call by it; [only_polite] restricts the calls. *)
Inductive gem_step (only_polite : bool) : gem_state -> gem_state -> Prop :=
| gem_step_section d ths i pc mine ans pc' d' :
    ths !! i = Some {| th_pc := pc; th_refs := mine |} -> section_ok ans pc d -> gem_section ans pc d = Some (pc', d') ->
    gem_step only_polite {| gs_device := d; gs_threads := ths |}
      {| gs_device := d'; gs_threads := <[i := {| th_pc := pc'; th_refs := mine |}]> ths |}
| gem_step_call d ths i mine call pc' mine' d' :
    ths !! i = Some {| th_pc := GIdle; th_refs := mine |} -> call_ok call mine d -> (only_polite = true -> polite call ths) ->
    gem_begin call mine d = Some (pc', mine', d') ->
    gem_step only_polite {| gs_device := d; gs_threads := ths |}
      {| gs_device := d'; gs_threads := <[i := {| th_pc := pc'; th_refs := mine' |}]> ths |}.

Definition gem_start (n : nat) : gem_state :=
  {| gs_device := {| g_objects := ∅; g_handles := ∅; g_names := ∅; g_locked := false |};
     gs_threads := replicate n {| th_pc := GIdle; th_refs := [] |} |}.

Definition gem_reachable (only_polite : bool) (n : nat) : gem_state -> Prop := rtc (gem_step only_polite) (gem_start n).

(** ** Sums over threads and handles *)

Definition tot {A} (w : A -> Z) (l : list A) : Z := foldr (fun t n => w t + n) 0 l.

Lemma tot_update {A} (w : A -> Z) l i t t' : l !! i = Some t -> tot w (<[i := t']> l) = tot w l - w t + w t'.
Proof.
  revert i. induction l as [|x l IH]; intros [|i] H; [done|done| |].
  - injection H as ->. cbn. lia.
  - change (w x + tot w (<[i := t']> l) = w x + tot w l - w t + w t'). rewrite (IH i H). lia.
Qed.

Lemma tot_ext {A} (w w' : A -> Z) l : (forall t, w t = w' t) -> tot w l = tot w' l.
Proof. intros H. unfold tot. induction l as [|t l IH]; [done|]. cbn. by rewrite IH, H. Qed.

Lemma tot_add {A} (w w' : A -> Z) l : tot (fun t => w t + w' t) l = tot w l + tot w' l.
Proof. unfold tot. induction l as [|t l IH]; [done|]. cbn. lia. Qed.

Lemma tot_nonneg {A} (w : A -> Z) l : (forall t, 0 <= w t) -> 0 <= tot w l.
Proof. intros H. unfold tot. induction l as [|t l IH]; cbn; [done|]. specialize (H t). lia. Qed.

Lemma tot_ge {A} (w : A -> Z) l i t : (forall t, 0 <= w t) -> l !! i = Some t -> w t <= tot w l.
Proof.
  intros H. revert i. induction l as [|x l IH]; intros [|i] E; [done|done| |].
  - injection E as ->. cbn. pose proof (tot_nonneg w l H) as Hn. unfold tot in Hn. lia.
  - specialize (IH i E). cbn. specialize (H x). unfold tot in IH. lia.
Qed.

Lemma tot_zero {A} (w : A -> Z) l : (forall t, t ∈ l -> w t = 0) -> tot w l = 0.
Proof.
  intros H. unfold tot. induction l as [|t l IH]; [done|]. cbn. rewrite IH; [|intros t' Ht'; apply H; by right]. rewrite H by left. done.
Qed.

Abbreviation handle_table := (gmap (Z * Z) (option nat)).

Definition entries (w : Z * Z -> option nat -> Z) (m : handle_table) : Z := map_fold (fun k v n => w k v + n) 0 m.

Lemma entries_insert (w : Z * Z -> option nat -> Z) (m : handle_table) k v : m !! k = None -> entries w (<[k := v]> m) = w k v + entries w m.
Proof. intros H. unfold entries. rewrite map_fold_insert_L; [done| |done]. intros. lia. Qed.

Lemma entries_delete (w : Z * Z -> option nat -> Z) (m : handle_table) k v : m !! k = Some v -> entries w m = w k v + entries w (delete k m).
Proof. intros H. unfold entries. rewrite (map_fold_delete_L _ _ k v); [done| |done]. intros. lia. Qed.

Lemma entries_replace (w : Z * Z -> option nat -> Z) (m : handle_table) k v v' : m !! k = Some v -> entries w (<[k := v']> m) = entries w m - w k v + w k v'.
Proof.
  intros H. rewrite (entries_delete w m k v H). rewrite <- (insert_delete_eq m k v'), entries_insert by apply lookup_delete_eq. lia.
Qed.

Lemma entries_nonneg (w : Z * Z -> option nat -> Z) (m : handle_table) : (forall k v, 0 <= w k v) -> 0 <= entries w m.
Proof.
  intros H. unfold entries. apply (map_fold_weak_ind (fun n _ => 0 <= n)); [done|]. intros k v m' n _ Hn. specialize (H k v). lia.
Qed.

Lemma entries_ge (w : Z * Z -> option nat -> Z) (m : handle_table) k v : (forall k v, 0 <= w k v) -> m !! k = Some v -> w k v <= entries w m.
Proof. intros H Hk. rewrite (entries_delete w m k v Hk). pose proof (entries_nonneg w (delete k m) H). lia. Qed.

Lemma entries_le (w w' : Z * Z -> option nat -> Z) (m : handle_table) : (forall k v, w k v <= w' k v) -> entries w m <= entries w' m.
Proof.
  intros H. induction m as [|k v m Hk IH] using map_ind; [done|]. rewrite !entries_insert by done. specialize (H k v). lia.
Qed.

(** ** The invariant *)

Definition one (o x : nat) : Z := if (o =? x)%nat then 1 else 0.

(** References to object [x] that a thread has to put, handles it has counted and not stored or still to put, and the difference between the
    permissions of file [f] and its handles. *)
Definition after_refs (a : after) (x : nat) : Z := match a with PutOpened o => one o x | _ => 0 end.

Definition pc_refs (pc : gem_pc) (x : nat) : Z :=
  match pc with
  | TailCount _ o opening | TailAlloc _ o opening | TailAllow _ o _ opening | TailOpen _ o _ opening | TailRevoke _ o _ opening
  | TailRemove _ o _ opening => if opening then one o x else 0
  | HandleTest o a | HandlePut o a => after_refs a x
  | ObjectPut o a => one o x + after_refs a x
  | FlinkName o => one o x
  | _ => 0
  end.

Definition pc_handles (pc : gem_pc) (x : nat) : Z :=
  match pc with TailAlloc _ o _ | HandleTest o _ | HandlePut o _ | DeleteClose _ _ o => one o x | _ => 0 end.

Definition pc_access (pc : gem_pc) (f : Z) (x : nat) : Z :=
  match pc with
  | TailAllow f' o _ _ | TailRemove f' o _ _ => if f =? f' then - one o x else 0
  | DeleteClose f' _ o => if f =? f' then one o x else 0
  | _ => 0
  end.

Definition pc_lock (pc : gem_pc) : Z := match pc with TailCount _ _ _ | TailAlloc _ _ _ => 1 | _ => 0 end.

(** The table entry that only this thread changes. *)
Definition after_claim (a : after) : option (Z * Z * option nat) :=
  match a with RemoveEntry f h => Some (f, h, None) | ReadSize f h o => Some (f, h, Some o) | _ => None end.

Definition claim (pc : gem_pc) : option (Z * Z * option nat) :=
  match pc with
  | TailAllow f o h _ | TailOpen f o h _ | TailRevoke f o h _ | TailRemove f o h _ => Some (f, h, Some o)
  | HandleTest _ a | HandlePut _ a | ObjectPut _ a => after_claim a
  | DeleteClose f h _ | DeleteRemove f h => Some (f, h, None)
  | OpenSize f h o => Some (f, h, Some o)
  | _ => None
  end.

Definition entry_weight (x : nat) (k : Z * Z) (v : option nat) : Z := match v with Some o => one o x | None => 0 end.
Definition file_weight (f : Z) (x : nat) (k : Z * Z) (v : option nat) : Z := if f =? k.1 then entry_weight x k v else 0.

Definition thread_refs (x : nat) (t : gem_thread) : Z := pc_refs (th_pc t) x + tot (fun o => one o x) (th_refs t).

(** References, handles and permissions there should be. *)
Definition refs_of (ths : list gem_thread) (x : nat) : Z := tot (thread_refs x) ths.
Definition handles_of (d : gem_device) (ths : list gem_thread) (x : nat) : Z :=
  entries (entry_weight x) (g_handles d) + tot (fun t => pc_handles (th_pc t) x) ths.
Definition access_of (d : gem_device) (ths : list gem_thread) (f : Z) (x : nat) : Z :=
  entries (file_weight f x) (g_handles d) + tot (fun t => pc_access (th_pc t) f x) ths.

(** What is in memory about object [x] agrees with that. *)
Definition object_ok (d : gem_device) (ths : list gem_thread) (x : nat) : Prop :=
  match g_objects d !! x with
  | Some ob =>
    o_handle_count ob = handles_of d ths x /\ is_u32 (o_handle_count ob) /\
    o_refcount ob = (if 0 <? handles_of d ths x then 1 else 0) + refs_of ths x /\ 0 < o_refcount ob /\
    access_ok (o_vma ob) /\ forall f, VmaManager.refs (o_vma ob) f = access_of d ths f x
  | None => handles_of d ths x = 0 /\ refs_of ths x = 0
  end.

Definition names_ok (d : gem_device) : Prop :=
  (forall n o, g_names d !! n = Some o -> exists ob, g_objects d !! o = Some ob /\ o_name ob = n /\ n <> 0) /\
  (forall o ob, g_objects d !! o = Some ob -> o_name ob <> 0 -> g_names d !! o_name ob = Some o /\ o_handle_count ob <> 0).

Record claims_ok (d : gem_device) (ths : list gem_thread) : Prop := {
  cl_entry i t f h v : ths !! i = Some t -> claim (th_pc t) = Some (f, h, v) -> g_handles d !! (f, h) = Some v;
  cl_unique i j t u f h v v' : ths !! i = Some t -> ths !! j = Some u -> claim (th_pc t) = Some (f, h, v) ->
    claim (th_pc u) = Some (f, h, v') -> i = j
}.

Record gem_inv (d : gem_device) (ths : list gem_thread) : Prop := {
  gi_objects x : object_ok d ths x;
  gi_names : names_ok d;
  gi_claims : claims_ok d ths;
  gi_lock : tot (fun t => pc_lock (th_pc t)) ths = if g_locked d then 1 else 0;
  gi_mine i f o mine : ths !! i = Some {| th_pc := TailCount f o false; th_refs := mine |} -> o ∈ mine
}.

(** ** Sums after a step *)

Lemma one_nonneg o x : 0 <= one o x.
Proof. unfold one. destruct (_ =? _)%nat; lia. Qed.

Lemma one_same o : one o o = 1.
Proof. unfold one. by rewrite Nat.eqb_refl. Qed.

Lemma one_other o x : x <> o -> one o x = 0.
Proof. intros H. unfold one. destruct (Nat.eqb_spec o x); [congruence|done]. Qed.

Lemma entry_weight_nonneg x k v : 0 <= entry_weight x k v.
Proof. destruct v; cbn; [apply one_nonneg|done]. Qed.

Lemma file_weight_nonneg f x k v : 0 <= file_weight f x k v.
Proof. unfold file_weight. destruct (_ =? _); [apply entry_weight_nonneg|done]. Qed.

Lemma pc_handles_nonneg pc x : 0 <= pc_handles pc x.
Proof. destruct pc; cbn; try apply one_nonneg; done. Qed.

Lemma after_refs_nonneg a x : 0 <= after_refs a x.
Proof. destruct a; cbn; try apply one_nonneg; done. Qed.

Lemma pc_refs_nonneg pc x : 0 <= pc_refs pc x.
Proof.
  destruct pc as [|f o []|f o []|f o h []|f o h []|f o h []|f o h []|o a|o a|o a|f h o|f h|o|f h o]; cbn;
    auto using one_nonneg, after_refs_nonneg, Z.add_nonneg_nonneg with zarith.
Qed.

Lemma thread_refs_nonneg x t : 0 <= thread_refs x t.
Proof.
  unfold thread_refs. pose proof (pc_refs_nonneg (th_pc t) x). pose proof (tot_nonneg (fun o => one o x) (th_refs t) (fun o => one_nonneg o x)). lia.
Qed.

Section Updates.
Context (d d' : gem_device) (ths : list gem_thread) (i : nat) (t t' : gem_thread) (Hi : ths !! i = Some t).

Lemma handles_update x : handles_of d' (<[i := t']> ths) x =
  handles_of d ths x + (entries (entry_weight x) (g_handles d') - entries (entry_weight x) (g_handles d)) + (pc_handles (th_pc t') x - pc_handles (th_pc t) x).
Proof. unfold handles_of. rewrite (tot_update _ ths i t t' Hi). lia. Qed.

Lemma access_update f x : access_of d' (<[i := t']> ths) f x =
  access_of d ths f x + (entries (file_weight f x) (g_handles d') - entries (file_weight f x) (g_handles d)) + (pc_access (th_pc t') f x - pc_access (th_pc t) f x).
Proof. unfold access_of. rewrite (tot_update _ ths i t t' Hi). lia. Qed.

Lemma thread_refs_update x : refs_of (<[i := t']> ths) x = refs_of ths x + (thread_refs x t' - thread_refs x t).
Proof. unfold refs_of. rewrite (tot_update _ ths i t t' Hi). lia. Qed.

(** Only object [o] is affected. *)
Record only (o : nat) : Prop := {
  on_object x : x <> o -> g_objects d' !! x = g_objects d !! x;
  on_refs x : x <> o -> thread_refs x t' = thread_refs x t;
  on_handles x : x <> o -> pc_handles (th_pc t') x = pc_handles (th_pc t) x;
  on_access x f : x <> o -> pc_access (th_pc t') f x = pc_access (th_pc t) f x;
  on_entries x : x <> o -> entries (entry_weight x) (g_handles d') = entries (entry_weight x) (g_handles d);
  on_files x f : x <> o -> entries (file_weight f x) (g_handles d') = entries (file_weight f x) (g_handles d)
}.

Lemma object_ok_other o x : only o -> x <> o -> object_ok d ths x -> object_ok d' (<[i := t']> ths) x.
Proof.
  intros [H1 H2 H3 H4 H5 H6] Hx. unfold object_ok. rewrite (H1 x Hx).
  assert (handles_of d' (<[i := t']> ths) x = handles_of d ths x) as -> by (rewrite handles_update, (H3 x Hx), (H5 x Hx); lia).
  assert (refs_of (<[i := t']> ths) x = refs_of ths x) as -> by (rewrite thread_refs_update, (H2 x Hx); lia).
  destruct (g_objects d !! x) as [ob|]; [|done]. intros (? & ? & ? & ? & ? & Ha). repeat (split; [done|]). intros f.
  rewrite Ha, access_update, (H4 x f Hx), (H6 x f Hx). lia.
Qed.

(** No other thread claims the entry [k]. *)
Definition free_entry (k : Z * Z) : Prop := forall j u v, j <> i -> ths !! j = Some u -> claim (th_pc u) <> Some (k, v).

Lemma own_entry k v : claims_ok d ths -> claim (th_pc t) = Some (k, v) -> free_entry k.
Proof. intros [_ Hu] Hc j u v' Hj Hju Hc'. destruct k as [f h]. apply Hj. symmetry. by eapply (Hu i j t u f h). Qed.

Lemma unused_entry k : claims_ok d ths -> g_handles d !! k = None -> free_entry k.
Proof. intros [He _] Hk j u v Hj Hju Hc. destruct k as [f h]. rewrite (He j u f h v Hju Hc) in Hk. done. Qed.

Lemma claims_update : claims_ok d ths -> (forall k, g_handles d' !! k <> g_handles d !! k -> free_entry k) ->
  (forall k v, claim (th_pc t') = Some (k, v) -> g_handles d' !! k = Some v /\ free_entry k) -> claims_ok d' (<[i := t']> ths).
Proof.
  intros [He Hu] Hk Hnew. pose proof (lookup_lt_Some _ _ _ Hi) as Hlt. split.
  - intros j u f h v Hj Hc. destruct (decide (j = i)) as [->|Hji].
    + rewrite list_lookup_insert_eq in Hj by done. injection Hj as <-. by apply Hnew.
    + rewrite list_lookup_insert_ne in Hj by done. specialize (He j u f h v Hj Hc).
      destruct (decide (g_handles d' !! (f, h) = g_handles d !! (f, h))) as [->|Hne]; [done|]. by destruct (Hk (f, h) Hne j u v).
  - intros j l u u' f h v v' Hj Hl Hc Hc'. destruct (decide (j = i)) as [->|Hji], (decide (l = i)) as [->|Hli]; [done| | |].
    + rewrite list_lookup_insert_eq in Hj by done. injection Hj as <-. rewrite list_lookup_insert_ne in Hl by done.
      destruct (Hnew (f, h) v Hc) as [_ Hf]. by destruct (Hf l u' v').
    + rewrite list_lookup_insert_eq in Hl by done. injection Hl as <-. rewrite list_lookup_insert_ne in Hj by done.
      destruct (Hnew (f, h) v' Hc') as [_ Hf]. by destruct (Hf j u v).
    + rewrite list_lookup_insert_ne in Hj, Hl by done. by eapply Hu.
Qed.

Definition lock_weight (d : gem_device) : Z := if g_locked d then 1 else 0.

Lemma inv_step o : gem_inv d ths -> only o -> object_ok d' (<[i := t']> ths) o -> names_ok d' -> claims_ok d' (<[i := t']> ths) ->
  pc_lock (th_pc t') - pc_lock (th_pc t) = lock_weight d' - lock_weight d ->
  (forall f o, th_pc t' = TailCount f o false -> o ∈ th_refs t') -> gem_inv d' (<[i := t']> ths).
Proof.
  intros HI Ho Hobj Hn Hc Hl Hm. constructor; [|done|done| |].
  - intros x. destruct (decide (x = o)) as [->|Hx]; [done|]. apply (object_ok_other o); [done..|]. apply HI.
  - rewrite (tot_update _ ths i t t' Hi), (gi_lock _ _ HI). unfold lock_weight in Hl. lia.
  - intros j f o' mine Hj. destruct (decide (j = i)) as [->|Hji].
    + rewrite list_lookup_insert_eq in Hj by (by eapply lookup_lt_Some). injection Hj as E. destruct t' as [pc m]. injection E as -> ->. by apply (Hm f).
    + rewrite list_lookup_insert_ne in Hj by done. by eapply (gi_mine _ _ HI).
Qed.

End Updates.

(** ** What the invariant gives a thread *)

Lemma handles_of_nonneg d ths x : 0 <= handles_of d ths x.
Proof.
  unfold handles_of. pose proof (entries_nonneg (entry_weight x) (g_handles d) (entry_weight_nonneg x)).
  pose proof (tot_nonneg (fun t => pc_handles (th_pc t) x) ths (fun t => pc_handles_nonneg (th_pc t) x)). lia.
Qed.

Lemma thread_handles d ths i t x : ths !! i = Some t -> pc_handles (th_pc t) x <= handles_of d ths x.
Proof.
  intros Hi. unfold handles_of. pose proof (entries_nonneg (entry_weight x) (g_handles d) (entry_weight_nonneg x)).
  pose proof (tot_ge (fun t => pc_handles (th_pc t) x) ths i t (fun t => pc_handles_nonneg (th_pc t) x) Hi) as H1. cbn beta in H1. lia.
Qed.

Lemma entry_handles d ths k x : g_handles d !! k = Some (Some x) -> 1 <= handles_of d ths x.
Proof.
  intros Hk. unfold handles_of. pose proof (entries_ge (entry_weight x) (g_handles d) k _ (entry_weight_nonneg x) Hk) as H. cbn in H. rewrite one_same in H.
  pose proof (tot_nonneg (fun t => pc_handles (th_pc t) x) ths (fun t => pc_handles_nonneg (th_pc t) x)). lia.
Qed.

Lemma thread_refs_le ths i t x : ths !! i = Some t -> thread_refs x t <= refs_of ths x.
Proof. intros Hi. by apply (tot_ge (thread_refs x) ths i t (thread_refs_nonneg x)). Qed.

Lemma refs_of_nonneg ths x : 0 <= refs_of ths x.
Proof. apply tot_nonneg, thread_refs_nonneg. Qed.

Lemma held_present d ths x : object_ok d ths x -> 0 < handles_of d ths x \/ 0 < refs_of ths x -> exists ob, g_objects d !! x = Some ob.
Proof. unfold object_ok. destruct (g_objects d !! x) as [ob|]; [by exists ob|]. lia. Qed.

(** Claims are entries, and no two threads claim the same. *)
Definition claimed (w : Z * Z -> option nat -> Z) (t : gem_thread) : Z := match claim (th_pc t) with Some (k, v) => w k v | None => 0 end.

Lemma claims_le (w : Z * Z -> option nat -> Z) ths : (forall k v, 0 <= w k v) -> forall m : handle_table,
  (forall i t k v, ths !! i = Some t -> claim (th_pc t) = Some (k, v) -> m !! k = Some v) ->
  (forall i j t u k v v', ths !! i = Some t -> ths !! j = Some u -> claim (th_pc t) = Some (k, v) -> claim (th_pc u) = Some (k, v') -> i = j) ->
  tot (claimed w) ths <= entries w m.
Proof.
  intros Hw. induction ths as [|t ths IH]; intros m He Hu; [by apply entries_nonneg|]. change (claimed w t + tot (claimed w) ths <= entries w m).
  assert (forall i j u u' k v v', ths !! i = Some u -> ths !! j = Some u' -> claim (th_pc u) = Some (k, v) -> claim (th_pc u') = Some (k, v') -> i = j) as Hu'.
  { intros i j u u' k v v' H1 H2 H3 H4. specialize (Hu (S i) (S j) u u' k v v' H1 H2 H3 H4). congruence. }
  unfold claimed at 1. destruct (claim (th_pc t)) as [[k v]|] eqn:Et.
  - pose proof (He 0%nat t k v eq_refl Et) as Hk. rewrite (entries_delete w m k v Hk). enough (tot (claimed w) ths <= entries w (delete k m)) by lia.
    apply IH; [|done]. intros i u k' v' H1 H2. rewrite lookup_delete_ne; [by apply (He (S i) u)|].
    intros <-. specialize (Hu 0%nat (S i) t u k v v' eq_refl H1 Et H2). done.
  - pose proof (IH m (fun i u k v H1 H2 => He (S i) u k v H1 H2) Hu'). lia.
Qed.

Lemma access_room d ths f x : claims_ok d ths -> tot (fun t => claimed (file_weight f x) t + pc_access (th_pc t) f x) ths <= access_of d ths f x.
Proof.
  intros [He Hu]. rewrite tot_add. unfold access_of. enough (tot (claimed (file_weight f x)) ths <= entries (file_weight f x) (g_handles d)) by lia.
  apply claims_le; [apply file_weight_nonneg| |].
  - intros i t [f' h] v. apply He.
  - intros i j t u [f' h] v v'. apply Hu.
Qed.

Lemma claimed_access f x t : 0 <= claimed (file_weight f x) t + pc_access (th_pc t) f x.
Proof.
  unfold claimed. destruct (claim (th_pc t)) as [[k v]|] eqn:Ec.
  - pose proof (file_weight_nonneg f x k v) as Hn. destruct (th_pc t); cbn [claim pc_access] in *; try lia; injection Ec as <- <-; unfold file_weight in *; cbn [fst entry_weight] in *;
      destruct (f =? f0); pose proof (one_nonneg o x); lia.
  - destruct (th_pc t); cbn [claim pc_access] in *; try done.
Qed.

Lemma thread_access d ths i t f x : claims_ok d ths -> ths !! i = Some t -> claimed (file_weight f x) t + pc_access (th_pc t) f x <= access_of d ths f x.
Proof.
  intros Hc Hi. etransitivity; [|by apply access_room]. apply (tot_ge (fun t => claimed (file_weight f x) t + pc_access (th_pc t) f x) ths i t); [|done].
  intros u. apply claimed_access.
Qed.

(** An object without handles can be mapped by no file. *)
Lemma no_access d ths f x : claims_ok d ths -> handles_of d ths x = 0 -> access_of d ths f x = 0.
Proof.
  intros Hc H0. pose proof (entries_nonneg (entry_weight x) (g_handles d) (entry_weight_nonneg x)) as E1.
  pose proof (tot_nonneg (fun t => pc_handles (th_pc t) x) ths (fun t => pc_handles_nonneg (th_pc t) x)) as T1. pose proof H0 as Hsum. unfold handles_of in Hsum.
  assert (entries (file_weight f x) (g_handles d) <= entries (entry_weight x) (g_handles d)) as E2.
  { apply entries_le. intros k v. unfold file_weight. pose proof (entry_weight_nonneg x k v). destruct (_ =? _); lia. }
  pose proof (entries_nonneg (file_weight f x) (g_handles d) (file_weight_nonneg f x)) as E3.
  unfold access_of. replace (entries _ _) with 0 by lia. rewrite tot_zero; [done|]. intros t Ht. apply list_elem_of_lookup in Ht as [i Hi].
  pose proof (thread_handles d ths i t x Hi) as Hh. rewrite H0 in Hh. pose proof (pc_handles_nonneg (th_pc t) x) as Hn.
  assert (forall f' h o, claim (th_pc t) = Some (f', h, Some o) -> one o x = 0) as Hcl.
  { intros f' h o Hcl. apply one_other. intros ->. pose proof (cl_entry _ _ Hc i t f' h _ Hi Hcl) as Hk. apply (entry_handles d ths) in Hk. lia. }
  destruct (th_pc t) eqn:Ep; cbn [pc_access pc_handles claim] in *; try done; destruct (f =? f0); try done.
  - by rewrite (Hcl _ _ _ eq_refl).
  - by rewrite (Hcl _ _ _ eq_refl).
  - lia.
Qed.

(** Object [o] after a step, from the differences. *)
Lemma object_step d d' ths i t t' o ob ob' : ths !! i = Some t -> object_ok d ths o -> g_objects d !! o = Some ob -> g_objects d' !! o = Some ob' ->
  o_handle_count ob' = o_handle_count ob + (entries (entry_weight o) (g_handles d') - entries (entry_weight o) (g_handles d)) +
    (pc_handles (th_pc t') o - pc_handles (th_pc t) o) -> is_u32 (o_handle_count ob') ->
  o_refcount ob' = o_refcount ob + ((if 0 <? o_handle_count ob' then 1 else 0) - (if 0 <? o_handle_count ob then 1 else 0)) +
    (thread_refs o t' - thread_refs o t) -> 0 < o_refcount ob' -> access_ok (o_vma ob') ->
  (forall f, VmaManager.refs (o_vma ob') f = VmaManager.refs (o_vma ob) f + (entries (file_weight f o) (g_handles d') - entries (file_weight f o) (g_handles d)) +
    (pc_access (th_pc t') f o - pc_access (th_pc t) f o)) -> object_ok d' (<[i := t']> ths) o.
Proof.
  intros Hi Hob Eo Eo' Hc Hu Hr Hpos Hacc Hall. unfold object_ok in *. rewrite Eo in Hob. rewrite Eo'. destruct Hob as (Hc0 & _ & Hr0 & _ & _ & Ha0).
  assert (o_handle_count ob' = handles_of d' (<[i := t']> ths) o) as Hc' by (rewrite (handles_update d d' ths i t t' Hi); lia).
  split; [done|]. split; [done|]. split; [|split; [done|split; [done|]]].
  - rewrite <- Hc', (thread_refs_update ths i t t' Hi). rewrite Hc0 in Hr. lia.
  - intros f. rewrite Hall, Ha0, (access_update d d' ths i t t' Hi). lia.
Qed.

(** ** Every section keeps the invariant *)

(** Nothing but object [o] is concerned. *)
Ltac only_this :=
  constructor; intros; unfold thread_refs; cbn [th_pc th_refs pc_refs pc_handles pc_access g_objects g_handles set_objects set_handles set_names set_locked resume after_refs tail_failed];
  rewrite ?lookup_insert_ne, ?lookup_delete_ne by done; repeat case_match; cbn [after_refs tail_failed]; rewrite ?one_other by done; try done.

(** Claims stay as they are. *)
Ltac same_claims HI :=
  eapply claims_update; [eassumption|apply (gi_claims _ _ HI)|by intros k []|];
  let Hc := fresh in intros k v Hc; split;
  [destruct k; eapply (cl_entry _ _ (gi_claims _ _ HI)); [eassumption|exact Hc]|eapply own_entry; [eassumption|apply (gi_claims _ _ HI)|exact Hc]].

Section Sections.
Context (d : gem_device) (ths : list gem_thread) (i : nat) (mine : list nat) (HI : gem_inv d ths).

(** Names do not change if names and handle counts of the objects do not. *)
Lemma names_same o ob ob' d' : names_ok d -> g_objects d !! o = Some ob -> g_names d' = g_names d -> g_objects d' = <[o := ob']> (g_objects d) ->
  o_name ob' = o_name ob -> (o_name ob <> 0 -> o_handle_count ob' <> 0) -> names_ok d'.
Proof.
  intros [H1 H2] Ho En Eo Hn Hc. split; rewrite En, Eo.
  - intros n o' Hno. destruct (H1 n o' Hno) as (ob1 & E1 & E2). destruct (decide (o' = o)) as [->|Hne]; [|exists ob1; by rewrite lookup_insert_ne].
    exists ob'. rewrite lookup_insert_eq. split; [done|congruence].
  - intros o' ob1 E1 Hn1. destruct (decide (o' = o)) as [->|Hne]; [|rewrite lookup_insert_ne in E1 by done; by apply H2].
    rewrite lookup_insert_eq in E1. injection E1 as <-. rewrite Hn in *. split; [by apply (H2 o ob)|by apply Hc].
Qed.

Lemma names_unchanged d' : names_ok d -> g_objects d' = g_objects d -> g_names d' = g_names d -> names_ok d'.
Proof. unfold names_ok. by intros H -> ->. Qed.

Lemma tail_count_inv f o opening ans : ths !! i = Some {| th_pc := TailCount f o opening; th_refs := mine |} ->
  section_ok ans (TailCount f o opening) d ->
  exists pc' d', tail_count f o opening d = Some (pc', d') /\ gem_inv d' (<[i := {| th_pc := pc'; th_refs := mine |}]> ths).
Proof.
  intros Hi Hs. pose proof (thread_refs_le ths i _ o Hi) as Hr.
  assert (1 <= refs_of ths o) as Hr1.
  { unfold thread_refs in Hr. cbn [th_pc th_refs pc_refs] in Hr. destruct opening; [rewrite one_same in Hr; pose proof (tot_nonneg (fun o' => one o' o) mine (fun o' => one_nonneg o' o)); lia|].
    pose proof (gi_mine _ _ HI i f o mine Hi) as Hin. apply list_elem_of_lookup in Hin as [j Hj].
    pose proof (tot_ge (fun o' => one o' o) mine j o (fun o' => one_nonneg o' o) Hj) as H1. cbn beta in H1. rewrite one_same in H1. lia. }
  destruct (held_present d ths o (gi_objects _ _ HI o)) as [ob Eo]; [lia|]. specialize (Hs ob Eo).
  pose proof (gi_objects _ _ HI o) as Hob. unfold object_ok in Hob. rewrite Eo in Hob. destruct Hob as (Hc & Hu & Href & Hpos & Hacc & Hall).
  unfold is_u32 in Hu. set (ob' := {| o_refcount := o_refcount ob + (if o_handle_count ob =? 0 then 1 else 0); o_handle_count := o_handle_count ob + 1;
    o_name := o_name ob; o_size := o_size ob; o_vma := o_vma ob |}).
  exists (TailAlloc f o opening), (set_objects (<[o := ob']> (g_objects d)) d). split.
  { unfold tail_count, change, drm_gem_object_get, change. rewrite Eo, !bind_some. rewrite u32_small by (unfold is_u32; lia).
    destruct (Z.eqb_spec (o_handle_count ob) 0) as [E0|E0]; rewrite ?bind_some; cbn [g_objects set_objects].
    - rewrite lookup_insert_eq, !bind_some. cbn [g_objects set_objects]. rewrite insert_insert_eq. unfold ob'. by rewrite E0.
    - unfold ob', set_handle_count. destruct (o_handle_count ob =? 0) eqn:E1; [lia|]. by rewrite Z.add_0_r. }
  apply (inv_step d _ ths i {| th_pc := TailCount f o opening; th_refs := mine |} _ Hi o); [done|only_this| | |same_claims HI|cbn; unfold lock_weight; cbn; lia|done].
  - apply (object_step d _ ths i _ _ o ob ob' Hi (gi_objects _ _ HI o) Eo); [apply lookup_insert_eq|..]; unfold thread_refs;
      cbn [th_pc th_refs pc_handles pc_refs pc_access g_handles set_objects o_handle_count o_refcount ob' o_vma]; rewrite ?one_same; unfold is_u32; [lia|lia| | |done|intros; lia].
    + destruct (Z.ltb_spec 0 (o_handle_count ob + 1)), (Z.ltb_spec 0 (o_handle_count ob)), (Z.eqb_spec (o_handle_count ob) 0); lia.
    + destruct (_ =? 0); lia.
  - apply (names_same o ob ob'); [apply HI|done..|]. intros _. cbn. lia.
Qed.

Lemma present o : 0 < handles_of d ths o \/ 0 < refs_of ths o ->
  exists ob, g_objects d !! o = Some ob /\ o_handle_count ob = handles_of d ths o /\ is_u32 (o_handle_count ob) /\
    o_refcount ob = (if 0 <? o_handle_count ob then 1 else 0) + refs_of ths o /\ 0 < o_refcount ob /\
    access_ok (o_vma ob) /\ forall f, VmaManager.refs (o_vma ob) f = access_of d ths f o.
Proof.
  intros H. destruct (held_present d ths o (gi_objects _ _ HI o) H) as [ob Eo]. exists ob. pose proof (gi_objects _ _ HI o) as Hob. unfold object_ok in Hob.
  rewrite Eo in Hob. destruct Hob as (Hc & Hob). by rewrite <- Hc in Hob.
Qed.

(** A step that only moves the thread. *)
Lemma move_inv o ob pc pc' : ths !! i = Some {| th_pc := pc; th_refs := mine |} -> g_objects d !! o = Some ob ->
  (forall x, pc_refs pc' x = pc_refs pc x) -> (forall x, pc_handles pc' x = pc_handles pc x) -> (forall f x, pc_access pc' f x = pc_access pc f x) ->
  claim pc' = claim pc \/ claim pc' = None -> pc_lock pc' = pc_lock pc -> (forall f o, pc' <> TailCount f o false) ->
  gem_inv d (<[i := {| th_pc := pc'; th_refs := mine |}]> ths).
Proof.
  intros Hi Eo Hr Hh Ha Hc Hl Hne.
  apply (inv_step d d ths i {| th_pc := pc; th_refs := mine |} {| th_pc := pc'; th_refs := mine |} Hi o); [done| | |apply HI| |cbn [th_pc]; lia|].
  - constructor; intros; unfold thread_refs; cbn [th_pc th_refs]; rewrite ?Hr, ?Hh, ?Ha; done.
  - pose proof (gi_objects _ _ HI o) as Hob. pose proof Hob as Hob'. unfold object_ok in Hob'. rewrite Eo in Hob'. destruct Hob' as (_ & ? & ? & ? & ? & _).
    apply (object_step d d ths i _ _ o ob ob Hi Hob Eo Eo); unfold thread_refs; cbn [th_pc th_refs]; rewrite ?Hr, ?Hh; [lia|done|lia|done|done|].
    intros f. rewrite Ha. lia.
  - eapply claims_update; [exact Hi|apply (gi_claims _ _ HI)|by intros k []|]. cbn [th_pc]. intros k v Hk. destruct Hc as [Hc|Hc]; [|congruence]. rewrite Hc in Hk. split.
    + destruct k. by eapply (cl_entry _ _ (gi_claims _ _ HI) i _ _ _ _ Hi).
    + eapply own_entry; [exact Hi|apply (gi_claims _ _ HI)|exact Hk].
  - intros f o' E. by destruct (Hne f o').
Qed.

(** Only the permissions of object [o] change. *)
Lemma vma_inv o ob v pc pc' : ths !! i = Some {| th_pc := pc; th_refs := mine |} -> g_objects d !! o = Some ob -> access_ok v ->
  (forall f, VmaManager.refs v f = VmaManager.refs (o_vma ob) f + (pc_access pc' f o - pc_access pc f o)) ->
  (forall f x, x <> o -> pc_access pc' f x = pc_access pc f x) ->
  (forall x, pc_refs pc' x = pc_refs pc x) -> (forall x, pc_handles pc' x = pc_handles pc x) ->
  claim pc' = claim pc -> pc_lock pc' = pc_lock pc -> (forall f o, pc' <> TailCount f o false) ->
  gem_inv (set_objects (<[o := set_vma v ob]> (g_objects d)) d) (<[i := {| th_pc := pc'; th_refs := mine |}]> ths).
Proof.
  intros Hi Eo Hv Hvr Ha Hr Hh Hc Hl Hne. set (d' := set_objects _ d).
  apply (inv_step d d' ths i {| th_pc := pc; th_refs := mine |} {| th_pc := pc'; th_refs := mine |} Hi o); [done| | | | |cbn [th_pc]; unfold lock_weight; cbn; lia|].
  - constructor; intros; unfold thread_refs; cbn [th_pc th_refs]; rewrite ?Hr, ?Hh; try done; [cbn; by rewrite lookup_insert_ne|by apply Ha].
  - pose proof (gi_objects _ _ HI o) as Hob. pose proof Hob as Hob'. unfold object_ok in Hob'. rewrite Eo in Hob'. destruct Hob' as (_ & ? & ? & ? & ? & _).
    apply (object_step d d' ths i _ _ o ob (set_vma v ob) Hi Hob Eo (lookup_insert_eq _ _ _)); unfold thread_refs; cbn [th_pc th_refs g_handles d' set_objects]; rewrite ?Hr, ?Hh;
      cbn [o_handle_count o_refcount o_vma set_vma]; [lia|done|lia|done|done|]. intros f. rewrite Hvr. lia.
  - apply (names_same o ob (set_vma v ob)); [apply HI|done..|]. intros Hn. by apply (proj2 (gi_names _ _ HI) o ob).
  - eapply claims_update; [exact Hi|apply (gi_claims _ _ HI)|by intros k []|]. cbn [th_pc]. rewrite Hc. intros k w Hk. split.
    + destruct k. by eapply (cl_entry _ _ (gi_claims _ _ HI) i _ _ _ _ Hi).
    + eapply own_entry; [exact Hi|apply (gi_claims _ _ HI)|exact Hk].
  - intros f o' E. by destruct (Hne f o').
Qed.

Lemma claim_entry k v pc : ths !! i = Some {| th_pc := pc; th_refs := mine |} -> claim pc = Some (k, v) -> g_handles d !! k = Some v.
Proof. intros Hi Hk. destruct k. by eapply (cl_entry _ _ (gi_claims _ _ HI) i _ _ _ _ Hi). Qed.

(** The permission of a file is withdrawn. *)
Lemma revoke_inv f o pc pc' : ths !! i = Some {| th_pc := pc; th_refs := mine |} -> 0 < handles_of d ths o -> 1 <= access_of d ths f o ->
  (forall f' x, pc_access pc' f' x = pc_access pc f' x - if f' =? f then one o x else 0) ->
  (forall x, pc_refs pc' x = pc_refs pc x) -> (forall x, pc_handles pc' x = pc_handles pc x) ->
  claim pc' = claim pc -> pc_lock pc' = pc_lock pc -> (forall f o, pc' <> TailCount f o false) ->
  exists d', gem_revoke f o d = Some d' /\ gem_inv d' (<[i := {| th_pc := pc'; th_refs := mine |}]> ths).
Proof.
  intros Hi Hh H1 Ha Hr Hph Hc Hl Hne. destruct (present o (or_introl Hh)) as (ob & Eo & _ & _ & _ & _ & Hok & Hacc).
  destruct (revoke_ok (o_vma ob) f Hok) as (v & Ev & Hv & Hvr). unfold gem_revoke, change. rewrite Eo, !bind_some, Ev, !bind_some. eexists. split; [done|].
  apply (vma_inv o ob v pc pc' Hi Eo Hv); [| |done..].
  - intros f'. rewrite Hvr, Ha, one_same. destruct (decide (f' = f)) as [->|Hf]; [rewrite Z.eqb_refl, Hacc; lia|]. destruct (Z.eqb_spec f' f); [done|lia].
  - intros f' x Hx. rewrite Ha, one_other by done. destruct (_ =? _); lia.
Qed.

(** The thread has counted a handle, so the object is there. *)
Lemma my_handle o pc : ths !! i = Some {| th_pc := pc; th_refs := mine |} -> 0 < pc_handles pc o -> 0 < handles_of d ths o.
Proof. intros Hi H. pose proof (thread_handles d ths i _ o Hi) as H1. cbn [th_pc] in H1. lia. Qed.

Lemma my_entry o k pc : ths !! i = Some {| th_pc := pc; th_refs := mine |} -> claim pc = Some (k, Some o) -> 0 < handles_of d ths o.
Proof. intros Hi Hc. pose proof (entry_handles d ths k o (claim_entry k _ pc Hi Hc)). lia. Qed.

Lemma file_entry f f' x h o : file_weight f x (f', h) (Some o) = if f =? f' then one o x else 0.
Proof. reflexivity. Qed.

Lemma tail_alloc_inv f o opening alloc : ths !! i = Some {| th_pc := TailAlloc f o opening; th_refs := mine |} ->
  (forall h, alloc = Some h -> 0 < h /\ g_handles d !! (f, h) = None) ->
  gem_inv (tail_alloc alloc f o opening d).2 (<[i := {| th_pc := (tail_alloc alloc f o opening d).1; th_refs := mine |}]> ths).
Proof.
  intros Hi Hal. assert (0 < handles_of d ths o) as Hh by (eapply my_handle; [exact Hi|cbn; rewrite one_same; lia]).
  destruct (present o (or_introl Hh)) as (ob & Eo & Hc & Hu & Hr & Hp & Hok & Hacc).
  assert (g_locked d = true) as Hl.
  { pose proof (gi_lock _ _ HI) as H. assert (1 <= tot (fun t => pc_lock (th_pc t)) ths) as H1; [|destruct (g_locked d); [done|lia]].
    apply (tot_ge (fun t => pc_lock (th_pc t)) ths i _ ltac:(by intros [[] ?]) Hi). }
  destruct alloc as [h|]; cbn [tail_alloc fst snd].
  - destruct (Hal h eq_refl) as [_ Hfree]. set (d' := set_locked _ _).
    assert (forall w, entries w (g_handles d') = w (f, h) (Some o) + entries w (g_handles d)) as He by (intros w; by apply entries_insert).
    apply (inv_step d d' ths i _ _ Hi o); [done| | |by apply (names_unchanged d' (gi_names _ _ HI))| |cbn [th_pc pc_lock]; unfold lock_weight; rewrite Hl; cbn; lia|done].
    + constructor; intros; unfold thread_refs; cbn [th_pc th_refs pc_refs pc_handles pc_access]; rewrite ?He, ?file_entry; cbn [entry_weight]; rewrite ?one_other by done;
        try done; destruct (_ =? _); done.
    + apply (object_step d d' ths i _ _ o ob ob Hi (gi_objects _ _ HI o) Eo Eo); unfold thread_refs; cbn [th_pc th_refs pc_refs pc_handles pc_access]; rewrite ?He; cbn [entry_weight];
        rewrite ?one_same; [lia|done|lia|done|done|]. intros f'. rewrite He, file_entry, one_same. destruct (_ =? _); lia.
    + eapply claims_update; [exact Hi|apply (gi_claims _ _ HI)| |].
      * intros k Hk. destruct (decide (k = (f, h))) as [->|Hne]; [eapply unused_entry; [apply (gi_claims _ _ HI)|done]|]. destruct Hk. cbn. by apply lookup_insert_ne.
      * cbn [th_pc claim]. intros k v [= <- <-]. split; [apply lookup_insert_eq|]. eapply unused_entry; [apply (gi_claims _ _ HI)|done].
  - set (d' := set_locked _ _).
    apply (inv_step d d' ths i _ _ Hi o); [done| | |by apply (names_unchanged d' (gi_names _ _ HI))| |cbn [th_pc pc_lock]; unfold lock_weight; rewrite Hl; cbn; lia|done].
    + only_this.
    + apply (object_step d d' ths i _ _ o ob ob Hi (gi_objects _ _ HI o) Eo Eo); unfold thread_refs; cbn [th_pc th_refs pc_refs pc_handles pc_access g_handles d' set_locked];
        [lia|done| |done|done|intros; lia]. destruct opening; cbn [tail_failed after_refs]; lia.
    + eapply claims_update; [exact Hi|apply (gi_claims _ _ HI)|by intros k []|]. cbn [th_pc claim]. intros k v Hk. by destruct opening.
Qed.

Lemma tail_allow_inv f o h opening oom : ths !! i = Some {| th_pc := TailAllow f o h opening; th_refs := mine |} ->
  (forall ob, g_objects d !! o = Some ob -> VmaManager.refs (o_vma ob) f + 1 < 2 ^ 64) ->
  exists pc' d', tail_allow oom f o h opening d = Some (pc', d') /\ gem_inv d' (<[i := {| th_pc := pc'; th_refs := mine |}]> ths).
Proof.
  intros Hi Hlt. assert (0 < handles_of d ths o) as Hh by (eapply my_entry; [exact Hi|done]).
  destruct (present o (or_introl Hh)) as (ob & Eo & Hc & Hu & Hr & Hp & Hok & Hacc). destruct (allow_ok (o_vma ob) f Hok (Hlt ob Eo)) as (v & Ev & Hv & Hvr).
  unfold tail_allow, change. rewrite Eo, !bind_some. unfold drm_vma_node_allow in *.
  assert (exists pc' d', Some (TailOpen f o h opening, set_objects (<[o := set_vma v ob]> (g_objects d)) d) = Some (pc', d') /\
    gem_inv d' (<[i := {| th_pc := pc'; th_refs := mine |}]> ths)) as Hgood.
  { eexists _, _. split; [done|]. apply (vma_inv o ob v (TailAllow f o h opening)); [done..| | |done|done|done|done|done].
    - intros f'. rewrite Hvr. cbn. rewrite one_same. destruct (decide (f' = f)) as [->|Hf]; [rewrite Z.eqb_refl; lia|]. destruct (Z.eqb_spec f' f); [done|lia].
    - intros f' x Hx. cbn. rewrite one_other by done. destruct (_ =? _); lia. }
  destruct (find_tag f (vm_files (o_vma ob))); [rewrite bind_some; injection Ev as ->; rewrite bind_some; exact Hgood|].
  destruct oom; [|rewrite Ev, bind_some, bind_some; exact Hgood]. rewrite bind_some. eexists _, _. split; [done|].
  apply (move_inv o ob (TailAllow f o h opening)); [done..|by left|done|done].
Qed.

Lemma tail_open_inv f o h opening ok : ths !! i = Some {| th_pc := TailOpen f o h opening; th_refs := mine |} ->
  gem_inv d (<[i := {| th_pc := if (ok : bool) then (if opening then ObjectPut o (ReadSize f h o) else GIdle) else TailRevoke f o h opening; th_refs := mine |}]> ths).
Proof.
  intros Hi. assert (0 < handles_of d ths o) as Hh by (eapply my_entry; [exact Hi|done]). destruct (present o (or_introl Hh)) as (ob & Eo & _).
  destruct ok; [|apply (move_inv o ob (TailOpen f o h opening) _ Hi Eo); try done; by left].
  destruct opening; apply (move_inv o ob (TailOpen f o h _) _ Hi Eo); try done; [|by left|by right]. intros x. cbn. lia.
Qed.

(** A table entry is removed. *)
Lemma remove_inv k v pc pc' : ths !! i = Some {| th_pc := pc; th_refs := mine |} -> claim pc = Some (k, v) ->
  (forall x, pc_handles pc' x = pc_handles pc x + entry_weight x k v) -> (forall f x, pc_access pc' f x = pc_access pc f x + file_weight f x k v) ->
  (forall x, pc_refs pc' x = pc_refs pc x) -> claim pc' = None -> pc_lock pc' = pc_lock pc -> (forall f o, pc' <> TailCount f o false) ->
  gem_inv (set_handles (delete k (g_handles d)) d) (<[i := {| th_pc := pc'; th_refs := mine |}]> ths).
Proof.
  intros Hi Hk Hh Ha Hr Hc Hl Hne. pose proof (claim_entry k v pc Hi Hk) as Ek. set (d' := set_handles _ d).
  assert (forall w, entries w (g_handles d') = entries w (g_handles d) - w k v) as He by (intros w; rewrite (entries_delete w _ k v Ek); cbn; lia).
  assert (forall x, object_ok d' (<[i := {| th_pc := pc'; th_refs := mine |}]> ths) x) as Hobj.
  { intros x. pose proof (gi_objects _ _ HI x) as Hx. pose proof Hx as Hx'. unfold object_ok in Hx'. destruct (g_objects d !! x) as [obx|] eqn:Ex.
    - destruct Hx' as (_ & ? & ? & ? & ? & _).
      apply (object_step d d' ths i _ _ x obx obx Hi Hx Ex Ex); unfold thread_refs; cbn [th_pc th_refs]; rewrite ?He, ?Hh, ?Hr; [lia|done|lia|done|done|]. intros f. rewrite He, Ha. lia.
    - unfold object_ok. change (g_objects d' !! x) with (g_objects d !! x). rewrite Ex, (handles_update d d' ths i _ _ Hi), (thread_refs_update ths i _ _ Hi). unfold thread_refs.
      cbn [th_pc th_refs]. rewrite He, Hh, Hr. lia. }
  constructor.
  - exact Hobj.
  - by apply (names_unchanged d' (gi_names _ _ HI)).
  - eapply claims_update; [exact Hi|apply (gi_claims _ _ HI)| |by cbn [th_pc]; rewrite Hc].
    intros k' Hk'. destruct (decide (k' = k)) as [->|Hne']; [eapply own_entry; [exact Hi|apply (gi_claims _ _ HI)|exact Hk]|]. destruct Hk'. cbn. by apply lookup_delete_ne.
  - rewrite (tot_update _ ths i _ _ Hi), (gi_lock _ _ HI). cbn [th_pc g_locked d' set_handles]. lia.
  - intros j f o' m Hj. destruct (decide (j = i)) as [->|Hji].
    + rewrite list_lookup_insert_eq in Hj by (by eapply lookup_lt_Some). injection Hj as E _. by destruct (Hne f o').
    + rewrite list_lookup_insert_ne in Hj by done. by eapply (gi_mine _ _ HI).
Qed.

Lemma resume_weights a : (forall x, pc_refs (resume a) x = after_refs a x) /\ (forall x, pc_handles (resume a) x = 0) /\ (forall f x, pc_access (resume a) f x = 0) /\
  claim (resume a) = after_claim a /\ pc_lock (resume a) = 0 /\ (forall f o, resume a <> TailCount f o false).
Proof. destruct a; cbn; (split; [intros; lia|done]). Qed.

Lemma handle_test_inv o a : ths !! i = Some {| th_pc := HandleTest o a; th_refs := mine |} ->
  handle_test o a d = Some (HandlePut o a, d) /\ gem_inv d (<[i := {| th_pc := HandlePut o a; th_refs := mine |}]> ths).
Proof.
  intros Hi. assert (0 < handles_of d ths o) as Hh by (eapply my_handle; [exact Hi|cbn; rewrite one_same; lia]).
  destruct (present o (or_introl Hh)) as (ob & Eo & Hc & _). split; [|by apply (move_inv o ob (HandleTest o a) _ Hi Eo); try done; left].
  unfold handle_test. rewrite Eo, bind_some. destruct (Z.eqb_spec (o_handle_count ob) 0); [lia|done].
Qed.

(** The section under the lock, for an object that keeps or loses its last handle. *)
Lemma handle_put_inv o a : ths !! i = Some {| th_pc := HandlePut o a; th_refs := mine |} ->
  exists pc' d', handle_put o a d = Some (pc', d') /\ gem_inv d' (<[i := {| th_pc := pc'; th_refs := mine |}]> ths).
Proof.
  intros Hi. assert (0 < handles_of d ths o) as Hh by (eapply my_handle; [exact Hi|cbn; rewrite one_same; lia]).
  destruct (present o (or_introl Hh)) as (ob & Eo & Hc & Hu & Hr & Hp & Hok & Hacc). unfold is_u32 in Hu.
  destruct (resume_weights a) as (Wr & Wh & Wa & Wc & Wl & Wt).
  unfold handle_put. rewrite Eo, bind_some, u32_small by (unfold is_u32; lia). cbn [o_handle_count set_handle_count].
  set (ob1 := set_handle_count (o_handle_count ob - 1) ob). destruct (Z.eqb_spec (o_handle_count ob - 1) 0) as [E0|E0]; eexists _, _; (split; [done|]).
  - unfold drm_gem_object_handle_free. change (o_name ob1) with (o_name ob). set (ob2 := set_name 0 ob1).
    set (d1 := set_objects _ d). set (d2 := if negb _ then _ else _).
    assert (g_objects d2 = <[o := ob2]> (g_objects d) /\ g_handles d2 = g_handles d /\ g_locked d2 = g_locked d) as (Eo2 & Et2 & El2).
    { unfold d2. destruct (Z.eqb_spec (o_name ob) 0) as [En|En]; cbn [negb]; [|cbn; by rewrite insert_insert_eq]. split; [|done]. cbn. f_equal.
      unfold ob2, ob1, set_name, set_handle_count. cbn. by rewrite En. }
    apply (inv_step d d2 ths i _ _ Hi o); [done| | | | |cbn [th_pc pc_lock]; unfold lock_weight; rewrite El2; lia|done].
    + constructor; intros; rewrite ?Eo2, ?Et2; unfold thread_refs; cbn [th_pc th_refs pc_refs pc_handles pc_access]; rewrite ?one_other by done; try done. by rewrite lookup_insert_ne.
    + apply (object_step d d2 ths i _ _ o ob ob2 Hi (gi_objects _ _ HI o) Eo); [by rewrite Eo2, lookup_insert_eq|..]; unfold thread_refs; rewrite ?Et2;
        cbn [th_pc th_refs pc_refs pc_handles pc_access o_handle_count o_refcount o_vma ob2 ob1 set_name set_handle_count]; rewrite ?one_same; unfold is_u32; [lia|lia| |lia|done|intros; lia].
      destruct (Z.ltb_spec 0 (o_handle_count ob - 1)), (Z.ltb_spec 0 (o_handle_count ob)); lia.
    + destruct (gi_names _ _ HI) as [N1 N2]. split.
      * intros n o' Hn. rewrite Eo2. assert (g_names d !! n = Some o' /\ (o' = o -> o_name ob = 0)) as [Hn' Hne].
        { revert Hn. unfold d2. destruct (Z.eqb_spec (o_name ob) 0) as [En|En]; cbn [negb]; [by intros Hn; split|]. cbn. intros Hn.
          apply lookup_delete_Some in Hn as [Hne Hn]. split; [done|]. intros ->. destruct (N1 n o Hn) as (ob' & E' & <- & _). congruence. }
        destruct (N1 n o' Hn') as (ob' & E' & En'). destruct (decide (o' = o)) as [->|Hoo].
        -- destruct En' as [<- Hn0]. rewrite Eo in E'. injection E' as <-. by destruct Hn0; apply Hne.
        -- exists ob'. by rewrite lookup_insert_ne.
      * intros o' ob' E' Hn'. rewrite Eo2 in E'. destruct (decide (o' = o)) as [->|Hoo]; [rewrite lookup_insert_eq in E'; injection E' as <-; done|].
        rewrite lookup_insert_ne in E' by done. destruct (N2 o' ob' E' Hn') as [G1 G2]. split; [|done]. unfold d2.
        destruct (Z.eqb_spec (o_name ob) 0) as [En|En]; cbn [negb]; [done|]. cbn. rewrite lookup_delete_ne; [done|]. intros Ex. destruct (N2 o ob Eo En) as [G3 _]. congruence.
    + eapply claims_update; [exact Hi|apply (gi_claims _ _ HI)|by intros k; rewrite Et2|]. cbn [th_pc claim]. rewrite Et2. intros k v Hk. split.
      * by apply (claim_entry k v (HandlePut o a) Hi).
      * eapply own_entry; [exact Hi|apply (gi_claims _ _ HI)|exact Hk].
  - set (d1 := set_objects _ d). apply (inv_step d d1 ths i _ _ Hi o); [done| | | | |cbn [th_pc pc_lock]; rewrite Wl; unfold lock_weight; cbn; lia|by intros f o' E; destruct (Wt f o')].
    + constructor; intros; unfold thread_refs; cbn [th_pc th_refs pc_refs pc_handles pc_access g_handles d1 set_objects]; rewrite ?Wr, ?Wh, ?Wa, ?one_other by done; try done. cbn. by rewrite lookup_insert_ne.
    + apply (object_step d d1 ths i _ _ o ob ob1 Hi (gi_objects _ _ HI o) Eo (lookup_insert_eq _ _ _)); unfold thread_refs;
        cbn [th_pc th_refs pc_refs pc_handles pc_access g_handles d1 set_objects o_handle_count o_refcount o_vma ob1 set_handle_count]; rewrite ?Wr, ?Wh, ?one_same; unfold is_u32;
        [lia|lia| |lia|done|intros; rewrite Wa; lia]. destruct (Z.ltb_spec 0 (o_handle_count ob - 1)), (Z.ltb_spec 0 (o_handle_count ob)); lia.
    + apply (names_same o ob ob1); [apply HI|done..].
    + eapply claims_update; [exact Hi|apply (gi_claims _ _ HI)|by intros k []|]. cbn [th_pc]. rewrite Wc. intros k v Hk. split.
      * by apply (claim_entry k v (HandlePut o a) Hi).
      * eapply own_entry; [exact Hi|apply (gi_claims _ _ HI)|exact Hk].
Qed.

Lemma object_put_inv o a : ths !! i = Some {| th_pc := ObjectPut o a; th_refs := mine |} ->
  exists d', drm_gem_object_put_unlocked o d = Some d' /\ gem_inv d' (<[i := {| th_pc := resume a; th_refs := mine |}]> ths).
Proof.
  intros Hi. pose proof (thread_refs_le ths i _ o Hi) as Hle. unfold thread_refs in Hle. cbn [th_pc th_refs pc_refs] in Hle. rewrite one_same in Hle.
  pose proof (after_refs_nonneg a o) as Ha0. pose proof (tot_nonneg (fun o' => one o' o) mine (fun o' => one_nonneg o' o)) as Ht0.
  destruct (present o) as (ob & Eo & Hc & Hu & Hr & Hp & Hok & Hacc); [lia|]. destruct (resume_weights a) as (Wr & Wh & Wa & Wc & Wl & Wt).
  unfold drm_gem_object_put_unlocked. rewrite Eo, bind_some. eexists. split; [done|].
  match goal with |- gem_inv ?x _ => set (d' := x) end.
  assert (g_handles d' = g_handles d /\ g_names d' = g_names d /\ g_locked d' = g_locked d) as (Et & En & El) by (unfold d'; by destruct (_ =? _)).
  assert (forall x, x <> o -> g_objects d' !! x = g_objects d !! x) as Hother.
  { intros x Hx. unfold d'. destruct (_ =? _); cbn; [by rewrite lookup_delete_ne|by rewrite lookup_insert_ne]. }
  apply (inv_step d d' ths i _ _ Hi o); [done| | | | |cbn [th_pc pc_lock]; rewrite Wl; unfold lock_weight; rewrite El; lia|by intros f o' E; destruct (Wt f o')].
  - constructor; intros; unfold thread_refs; cbn [th_pc th_refs pc_refs pc_handles pc_access]; rewrite ?Wr, ?Wh, ?Wa, ?Et, ?one_other by done; try done. by apply Hother.
  - destruct (Z.eqb_spec (o_refcount ob) 1) as [E1|E1].
    + assert (g_objects d' !! o = None) as Eo' by (unfold d'; cbn; apply lookup_delete_eq).
      unfold object_ok. rewrite Eo', (handles_update d d' ths i _ _ Hi), (thread_refs_update ths i _ _ Hi). unfold thread_refs. cbn [th_pc th_refs pc_refs pc_handles]. rewrite Wr, Wh, Et, one_same.
      destruct (Z.ltb_spec 0 (o_handle_count ob)); [lia|]. unfold is_u32 in Hu. lia.
    + apply (object_step d d' ths i _ _ o ob (set_refcount (o_refcount ob - 1) ob) Hi (gi_objects _ _ HI o) Eo); [unfold d'; cbn; apply lookup_insert_eq|..]; unfold thread_refs; rewrite ?Et;
        cbn [th_pc th_refs pc_refs pc_handles pc_access o_handle_count o_refcount o_vma set_refcount]; rewrite ?Wr, ?Wh, ?one_same; [lia|done|lia|lia|done|].
      intros f. rewrite Wa. lia.
  - destruct (gi_names _ _ HI) as [N1 N2]. unfold d'. destruct (Z.eqb_spec (o_refcount ob) 1) as [E1|E1].
    + split; cbn.
      * intros n o' Hn. destruct (N1 n o' Hn) as (ob' & E' & En'). exists ob'. rewrite lookup_delete_ne; [done|]. intros <-. rewrite Eo in E'. injection E' as <-.
        destruct En' as [<- Hn0]. destruct (N2 o ob Eo Hn0) as [_ G]. destruct (Z.ltb_spec 0 (o_handle_count ob)); unfold is_u32 in Hu; lia.
      * intros o' ob' E' Hn'. apply lookup_delete_Some in E' as [_ E']. by apply N2.
    + apply (names_same o ob (set_refcount (o_refcount ob - 1) ob)); [apply HI|done..|]. intros Hn. by apply (N2 o ob).
  - eapply claims_update; [exact Hi|apply (gi_claims _ _ HI)|by intros k; rewrite Et|]. cbn [th_pc]. rewrite Wc, Et. intros k v Hk. split.
    + by apply (claim_entry k v (ObjectPut o a) Hi).
    + eapply own_entry; [exact Hi|apply (gi_claims _ _ HI)|exact Hk].
Qed.

Lemma flink_inv o alloc : ths !! i = Some {| th_pc := FlinkName o; th_refs := mine |} ->
  (forall n, alloc = Some n -> 0 < n /\ g_names d !! n = None) ->
  exists pc' d', flink_name alloc o d = Some (pc', d') /\ gem_inv d' (<[i := {| th_pc := pc'; th_refs := mine |}]> ths).
Proof.
  intros Hi Hal. pose proof (thread_refs_le ths i _ o Hi) as Hle. unfold thread_refs in Hle. cbn [th_pc th_refs pc_refs] in Hle. rewrite one_same in Hle.
  pose proof (tot_nonneg (fun o' => one o' o) mine (fun o' => one_nonneg o' o)) as Ht0.
  destruct (present o) as (ob & Eo & Hc & Hu & Hr & Hp & Hok & Hacc); [lia|].
  assert (gem_inv d (<[i := {| th_pc := ObjectPut o Return; th_refs := mine |}]> ths)) as Hsame.
  { apply (move_inv o ob (FlinkName o)); try done; [intros x; cbn; lia|by left]. }
  unfold flink_name. rewrite Eo, bind_some. destruct (Z.eqb_spec (o_handle_count ob) 0) as [E0|E0]; [by eexists _, _|].
  destruct (Z.eqb_spec (o_name ob) 0) as [En|En]; cbn [negb]; [|by eexists _, _]. destruct alloc as [n|]; [|by eexists _, _].
  destruct (Hal n eq_refl) as [Hn Hfree]. eexists _, _. split; [done|]. set (d' := set_objects _ _).
  apply (inv_step d d' ths i _ _ Hi o); [done|subst d'; only_this| | | |cbn; unfold lock_weight; cbn; lia|done].
  - apply (object_step d d' ths i _ _ o ob (set_name n ob) Hi (gi_objects _ _ HI o) Eo (lookup_insert_eq _ _ _)); unfold thread_refs;
      cbn [th_pc th_refs pc_refs pc_handles pc_access after_refs g_handles d' set_objects set_names o_handle_count o_refcount o_vma set_name]; [lia|done|lia|done|done|intros; lia].
  - destruct (gi_names _ _ HI) as [N1 N2]. split; cbn.
    + intros m o' Hm. destruct (decide (m = n)) as [->|Hmn].
      * rewrite lookup_insert_eq in Hm. injection Hm as <-. exists (set_name n ob). rewrite lookup_insert_eq. split; [done|]. split; [done|lia].
      * rewrite lookup_insert_ne in Hm by done. destruct (N1 m o' Hm) as (ob' & E' & Em & Hm0). exists ob'. rewrite lookup_insert_ne; [done|]. intros <-. congruence.
    + intros o' ob' E' Hn'. destruct (decide (o' = o)) as [->|Hoo].
      * rewrite lookup_insert_eq in E'. injection E' as <-. split; [apply lookup_insert_eq|done].
      * rewrite lookup_insert_ne in E' by done. destruct (N2 o' ob' E' Hn') as [G1 G2]. split; [|done]. rewrite lookup_insert_ne; [done|]. intros Ex. congruence.
  - same_claims HI.
Qed.

(** All sections. *)
Lemma section_inv ans pc : ths !! i = Some {| th_pc := pc; th_refs := mine |} -> section_ok ans pc d ->
  exists pc' d', gem_section ans pc d = Some (pc', d') /\ gem_inv d' (<[i := {| th_pc := pc'; th_refs := mine |}]> ths).
Proof.
  intros Hi Hs. destruct pc as [|f o op|f o op|f o h op|f o h op|f o h op|f o h op|o a|o a|o a|f h o|f h|o|f h o]; cbn [gem_section section_ok] in *.
  - eexists _, _. split; [done|]. by rewrite list_insert_id.
  - by apply (tail_count_inv f o op ans).
  - eexists _, _. split; [apply f_equal, surjective_pairing|]. by apply tail_alloc_inv.
  - by apply tail_allow_inv.
  - eexists _, _. split; [done|]. by apply tail_open_inv.
  - assert (0 < handles_of d ths o) as Hh by (eapply my_entry; [exact Hi|done]).
    pose proof (thread_access d ths i _ f o (gi_claims _ _ HI) Hi) as Ha. cbn [claimed th_pc claim pc_access] in Ha. unfold claimed in Ha. cbn [th_pc claim] in Ha.
    rewrite file_entry, Z.eqb_refl, one_same in Ha.
    destruct (revoke_inv f o (TailRevoke f o h op) (TailRemove f o h op) Hi Hh) as (d' & -> & H); try done; [intros f' x; cbn; destruct (_ =? _); lia|].
    rewrite bind_some. by eexists _, _.
  - eexists _, _. split; [done|]. apply (remove_inv (f, h) (Some o) (TailRemove f o h op) _ Hi); try done.
    + intros f' x. rewrite file_entry. cbn. destruct (_ =? _); lia.
    + intros x. by destruct op.
    + by destruct op.
  - destruct (handle_test_inv o a Hi) as [-> H]. by eexists _, _.
  - by apply handle_put_inv.
  - destruct (object_put_inv o a Hi) as (d' & -> & H). rewrite bind_some. by eexists _, _.
  - assert (0 < handles_of d ths o) as Hh by (eapply my_handle; [exact Hi|cbn; rewrite one_same; lia]).
    pose proof (thread_access d ths i _ f o (gi_claims _ _ HI) Hi) as Ha. unfold claimed in Ha. cbn [th_pc claim pc_access] in Ha.
    rewrite Z.eqb_refl, one_same in Ha. pose proof (file_weight_nonneg f o (f, h) None) as Hw.
    destruct (revoke_inv f o (DeleteClose f h o) (HandleTest o (RemoveEntry f h)) Hi Hh) as (d' & -> & H); try done; [lia|intros f' x; cbn; destruct (_ =? _); lia|].
    rewrite bind_some. by eexists _, _.
  - eexists _, _. split; [done|]. apply (remove_inv (f, h) None (DeleteRemove f h) _ Hi); try done. intros f' x. unfold file_weight. cbn. by destruct (_ =? _).
  - destruct Hs as [_ Hs]. by apply flink_inv.
  - assert (0 < handles_of d ths o) as Hh by (eapply my_entry; [exact Hi|done]). destruct (present o (or_introl Hh)) as (ob & Eo & _).
    rewrite Eo, bind_some. eexists _, _. split; [done|]. apply (move_inv o ob (OpenSize f h o) _ Hi Eo); try done. by right.
Qed.

End Sections.

(** ** Every call keeps the invariant *)

Lemma tot_remove (w : nat -> Z) o l : o ∈ l -> tot w l = w o + tot w (remove_one o l).
Proof.
  induction l as [|x l IH]; [by intros ?%elem_of_nil|]. intros Hin. cbn [remove_one]. destruct (Nat.eqb_spec x o) as [->|Hne]; [done|].
  change (w x + tot w l = w o + (w x + tot w (remove_one o l))). rewrite IH; [lia|]. by apply elem_of_cons in Hin as [->|Hin].
Qed.

Section Calls.
Context (d : gem_device) (ths : list gem_thread) (i : nat) (mine : list nat) (HI : gem_inv d ths).
Context (Hi : ths !! i = Some {| th_pc := GIdle; th_refs := mine |}).

Lemma idle_inv : gem_inv d (<[i := {| th_pc := GIdle; th_refs := mine |}]> ths).
Proof. by rewrite list_insert_id. Qed.

Lemma new_claims t' d' : g_handles d' = g_handles d -> claim (th_pc t') = None -> claims_ok d' (<[i := t']> ths).
Proof. intros Et Hc. eapply claims_update; [exact Hi|apply (gi_claims _ _ HI)|by intros k; rewrite Et|by rewrite Hc]. Qed.

(** An idle thread gets a reference to an object that is there. *)
Lemma get_inv o ob t' locked : g_objects d !! o = Some ob ->
  (forall x, thread_refs x t' = one o x + thread_refs x {| th_pc := GIdle; th_refs := mine |}) -> (forall x, pc_handles (th_pc t') x = 0) ->
  (forall f x, pc_access (th_pc t') f x = 0) -> claim (th_pc t') = None -> pc_lock (th_pc t') = (if (locked : bool) then 1 else 0) - lock_weight d ->
  (forall f o, th_pc t' <> TailCount f o false) ->
  exists d', drm_gem_object_get o d = Some d' /\ gem_inv (set_locked locked d') (<[i := t']> ths).
Proof.
  intros Eo Hr Hh Ha Hc Hl Hne. unfold drm_gem_object_get, change. rewrite Eo, bind_some. eexists. split; [done|]. set (ob' := set_refcount _ ob). set (d' := set_locked _ _).
  pose proof (gi_objects _ _ HI o) as Hob. pose proof Hob as Hob'. unfold object_ok in Hob'. rewrite Eo in Hob'. destruct Hob' as (_ & ? & ? & ? & ? & _).
  apply (inv_step d d' ths i _ t' Hi o); [done| | | |by apply new_claims|cbn [th_pc pc_lock]; rewrite Hl; unfold lock_weight at 2; cbn; unfold lock_weight; lia|by intros f o' E; destruct (Hne f o')].
  - constructor; intros; rewrite ?Hr, ?Hh, ?Ha, ?one_other by done; cbn [th_pc pc_handles pc_access]; try done. cbn. by rewrite lookup_insert_ne.
  - apply (object_step d d' ths i _ t' o ob ob' Hi Hob Eo (lookup_insert_eq _ _ _)); rewrite ?Hr, ?Hh, ?one_same; cbn [th_pc pc_handles pc_access g_handles d' set_locked set_objects];
      cbn [o_handle_count o_refcount o_vma ob' set_refcount]; [lia|done|lia|lia|done|]. intros f. rewrite Ha. lia.
  - apply (names_same d o ob ob'); [apply HI|done..|]. intros Hn. by apply (proj2 (gi_names _ _ HI) o ob).
Qed.

Lemma new_object_inv o size : g_objects d !! o = None ->
  gem_inv (set_objects (<[o := drm_gem_private_object_init size]> (g_objects d)) d) (<[i := {| th_pc := GIdle; th_refs := o :: mine |}]> ths).
Proof.
  intros Eo. pose proof (gi_objects _ _ HI o) as Hob. unfold object_ok in Hob. rewrite Eo in Hob. destruct Hob as [H0 Hr0]. set (d' := set_objects _ d).
  apply (inv_step d d' ths i _ _ Hi o); [done| | | |by apply new_claims|by cbn; unfold lock_weight; cbn; lia|done].
  - constructor; intros; unfold thread_refs; cbn [th_pc th_refs pc_refs pc_handles pc_access]; try done; [cbn; by rewrite lookup_insert_ne|].
    change (tot (fun o0 => one o0 x) (o :: mine)) with (one o x + tot (fun o0 => one o0 x) mine). rewrite one_other by done. lia.
  - unfold object_ok. rewrite (lookup_insert_eq (g_objects d) o _ : g_objects d' !! o = _). rewrite (handles_update d d' ths i _ _ Hi), (thread_refs_update ths i _ _ Hi), H0, Hr0. unfold thread_refs.
    cbn [th_pc th_refs pc_refs pc_handles g_handles d' set_objects drm_gem_private_object_init o_handle_count o_refcount o_vma].
    change (tot (fun o0 => one o0 o) (o :: mine)) with (one o o + tot (fun o0 => one o0 o) mine). rewrite one_same, Z.sub_diag. unfold is_u32. cbn [Z.add Z.sub Z.opp Z.ltb Z.compare].
    change (0 <? 0 + 0 + (0 - 0)) with false.
    split; [done|]. split; [lia|]. split; [lia|]. split; [lia|]. split; [apply node_reset_ok|]. intros f.
    rewrite (access_update d d' ths i _ _ Hi), (no_access d ths f o (gi_claims _ _ HI) H0). cbn [th_pc pc_access g_handles d' set_objects]. unfold refs. cbn [vm_count drm_vma_node_reset]. rewrite lookup_empty. cbn [default]. lia.
  - destruct (gi_names _ _ HI) as [N1 N2]. split; cbn.
    + intros n o' Hn. destruct (N1 n o' Hn) as (ob' & E' & En). exists ob'. rewrite lookup_insert_ne; [done|]. intros <-. congruence.
    + intros o' ob' E' Hn. destruct (decide (o' = o)) as [->|Hne]; [rewrite lookup_insert_eq in E'; by injection E' as <-|]. rewrite lookup_insert_ne in E' by done. by apply N2.
Qed.

Lemma drop_inv o : o ∈ mine -> gem_inv d (<[i := {| th_pc := ObjectPut o Return; th_refs := remove_one o mine |}]> ths).
Proof.
  intros Hin. assert (forall x, thread_refs x {| th_pc := ObjectPut o Return; th_refs := remove_one o mine |} = thread_refs x {| th_pc := GIdle; th_refs := mine |}) as Hr.
  { intros x. unfold thread_refs. cbn [th_pc th_refs pc_refs after_refs]. rewrite (tot_remove (fun o0 => one o0 x) o mine Hin). lia. }
  constructor; [|apply HI|by apply new_claims| |].
  - intros x. pose proof (gi_objects _ _ HI x) as Hx. unfold object_ok in *. rewrite (handles_update d d ths i _ _ Hi), (thread_refs_update ths i _ _ Hi), Hr. cbn [th_pc pc_handles].
    rewrite !Z.sub_diag, !Z.add_0_r. destruct (g_objects d !! x); [|done]. destruct Hx as (? & ? & ? & ? & ? & Ha). repeat (split; [done|]). intros f.
    rewrite Ha, (access_update d d ths i _ _ Hi). cbn [th_pc pc_access]. lia.
  - rewrite (tot_update _ ths i _ _ Hi), (gi_lock _ _ HI). cbn. lia.
  - intros j f o' m Hj. destruct (decide (j = i)) as [->|Hji]; [rewrite list_lookup_insert_eq in Hj by (by eapply lookup_lt_Some); by injection Hj|].
    rewrite list_lookup_insert_ne in Hj by done. by eapply (gi_mine _ _ HI).
Qed.

Lemma create_inv f o : o ∈ mine -> g_locked d = false -> gem_inv (set_locked true d) (<[i := {| th_pc := TailCount f o false; th_refs := mine |}]> ths).
Proof.
  intros Hin Hl. constructor; [|apply (names_unchanged d _ (gi_names _ _ HI)); done|by apply new_claims| |].
  - intros x. pose proof (gi_objects _ _ HI x) as Hx. unfold object_ok in *. change (g_objects (set_locked true d) !! x) with (g_objects d !! x).
    rewrite (handles_update d (set_locked true d) ths i _ _ Hi), (thread_refs_update ths i _ _ Hi). unfold thread_refs. cbn [th_pc th_refs pc_handles pc_refs g_handles set_locked].
    rewrite !Z.sub_diag, !Z.add_0_r. destruct (g_objects d !! x); [|done]. destruct Hx as (? & ? & ? & ? & ? & Ha). repeat (split; [done|]). intros f'.
    rewrite Ha, (access_update d (set_locked true d) ths i _ _ Hi). cbn [th_pc pc_access g_handles set_locked]. lia.
  - rewrite (tot_update _ ths i _ _ Hi), (gi_lock _ _ HI), Hl. cbn. lia.
  - intros j f' o' m Hj. destruct (decide (j = i)) as [->|Hji]; [rewrite list_lookup_insert_eq in Hj by (by eapply lookup_lt_Some); injection Hj as <- <- <-; done|].
    rewrite list_lookup_insert_ne in Hj by done. by eapply (gi_mine _ _ HI).
Qed.

Lemma delete_inv f h o : g_handles d !! (f, h) = Some (Some o) -> Forall (fun t => making (th_pc t) f h = false) ths ->
  gem_inv (set_handles (<[(f, h) := None]> (g_handles d)) d) (<[i := {| th_pc := DeleteClose f h o; th_refs := mine |}]> ths).
Proof.
  intros Hk Hpol. pose proof (entry_handles d ths (f, h) o Hk) as Hh. destruct (held_present d ths o (gi_objects _ _ HI o)) as [ob Eo]; [lia|].
  pose proof (gi_objects _ _ HI o) as Hob. pose proof Hob as Hob'. unfold object_ok in Hob'. rewrite Eo in Hob'. destruct Hob' as (_ & ? & ? & ? & ? & _). set (d' := set_handles _ d).
  assert (forall w, entries w (g_handles d') = entries w (g_handles d) - w (f, h) (Some o) + w (f, h) None) as He by (intros w; by apply entries_replace).
  assert (free_entry ths i (f, h)) as Hfree.
  { intros j u v Hj Hu Hc. assert (v = Some o) as -> by (pose proof (cl_entry _ _ (gi_claims _ _ HI) j u f h v Hu Hc); congruence).
    pose proof (proj1 (Forall_lookup _ _) Hpol j u Hu) as Hm. cbn beta in Hm.
    destruct (th_pc u) as [| | | | | | |? []|? []|? []| | | |]; cbn [claim after_claim making] in *; try done; injection Hc as -> -> _; by rewrite !Z.eqb_refl in Hm. }
  assert (forall f' x, file_weight f' x (f, h) None = 0) as Hn by (intros f' x; unfold file_weight; cbn; by destruct (_ =? _)).
  apply (inv_step d d' ths i _ _ Hi o); [done| | |by apply (names_unchanged d _ (gi_names _ _ HI))| |by cbn; unfold lock_weight; cbn; lia|done].
  - constructor; intros; unfold thread_refs; cbn [th_pc th_refs pc_refs pc_handles pc_access]; rewrite ?He, ?Hn, ?file_entry; cbn [entry_weight]; rewrite ?one_other by done; try done;
      [by destruct (_ =? _)|lia|]. destruct (_ =? _); lia.
  - apply (object_step d d' ths i _ _ o ob ob Hi Hob Eo Eo); unfold thread_refs; cbn [th_pc th_refs pc_refs pc_handles pc_access]; rewrite ?He; cbn [entry_weight]; rewrite ?one_same;
      [lia|done|lia|done|done|]. intros f'. rewrite He, Hn, file_entry, one_same. destruct (_ =? _); lia.
  - eapply claims_update; [exact Hi|apply (gi_claims _ _ HI)| |].
    + intros k Hne. destruct (decide (k = (f, h))) as [->|Hkk]; [done|]. destruct Hne. cbn. by apply lookup_insert_ne.
    + cbn [th_pc claim]. intros k v [= <- <-]. split; [apply lookup_insert_eq|done].
Qed.

Lemma call_inv call : call_ok call mine d -> polite call ths ->
  exists pc' mine' d', gem_begin call mine d = Some (pc', mine', d') /\ gem_inv d' (<[i := {| th_pc := pc'; th_refs := mine' |}]> ths).
Proof.
  intros Hok Hpol. assert (forall k o, g_handles d !! k = Some (Some o) -> exists ob, g_objects d !! o = Some ob) as Hent.
  { intros k o Hk. apply (held_present d ths o (gi_objects _ _ HI o)). left. pose proof (entry_handles d ths k o Hk). lia. }
  pose proof idle_inv as Hidle.
  destruct call as [o size|o|f o|f h|f h|f h|f n]; cbn [gem_begin call_ok polite] in *.
  - eexists _, _, _. split; [done|]. by apply new_object_inv.
  - eexists _, _, _. split; [done|]. by apply drop_inv.
  - destruct Hok as [Hin Hl]. eexists _, _, _. split; [done|]. by apply create_inv.
  - destruct (g_handles d !! (f, h)) as [[o|]|] eqn:Ek; [|by eexists _, _, _..]. eexists _, _, _. split; [done|]. by apply delete_inv.
  - destruct (g_handles d !! (f, h)) as [[o|]|] eqn:Ek; [|by eexists _, _, _..]. destruct (Hent _ o Ek) as [ob Eo].
    destruct (get_inv o ob {| th_pc := GIdle; th_refs := o :: mine |} (g_locked d) Eo) as (d1 & E1 & H1); try done;
      [cbn; unfold lock_weight; lia|].
    rewrite E1, bind_some. eexists _, _, _. split; [done|]. assert (set_locked (g_locked d) d1 = d1) as Es; [|by rewrite Es in H1].
    revert E1. unfold drm_gem_object_get, change. rewrite Eo, bind_some. by intros [= <-].
  - destruct (g_handles d !! (f, h)) as [[o|]|] eqn:Ek; [|by eexists _, _, _..]. destruct (Hent _ o Ek) as [ob Eo].
    destruct (get_inv o ob {| th_pc := FlinkName o; th_refs := mine |} (g_locked d) Eo) as (d1 & E1 & H1); try done;
      [cbn; unfold lock_weight; lia|].
    rewrite E1, bind_some. eexists _, _, _. split; [done|]. assert (set_locked (g_locked d) d1 = d1) as Es; [|by rewrite Es in H1].
    revert E1. unfold drm_gem_object_get, change. rewrite Eo, bind_some. by intros [= <-].
  - destruct (g_names d !! n) as [o|] eqn:En; [|by eexists _, _, _]. destruct (proj1 (gi_names _ _ HI) n o En) as (ob & Eo & _).
    destruct (get_inv o ob {| th_pc := TailCount f o true; th_refs := mine |} true Eo) as (d1 & -> & H1); try done;
      [cbn; unfold lock_weight; rewrite Hok; lia|]. rewrite bind_some. by eexists _, _, _.
Qed.

End Calls.

(** ** Theorems *)

Lemma gem_start_inv n : gem_inv (gs_device (gem_start n)) (gs_threads (gem_start n)).
Proof.
  assert (forall i t, replicate n {| th_pc := GIdle; th_refs := [] |} !! i = Some t -> t = {| th_pc := GIdle; th_refs := [] |}) as Hidle
    by (intros i t H; by apply lookup_replicate in H as [-> _]).
  assert (forall w : gem_thread -> Z, w {| th_pc := GIdle; th_refs := [] |} = 0 -> tot w (replicate n {| th_pc := GIdle; th_refs := [] |}) = 0) as H0.
  { intros w Hw. apply tot_zero. intros t Ht. apply list_elem_of_lookup in Ht as [i Hi]. by rewrite (Hidle i t Hi). }
  constructor; cbn [gs_device gs_threads gem_start].
  - intros x. unfold object_ok, handles_of, refs_of. cbn [g_objects g_handles]. rewrite lookup_empty, !H0 by done. by split.
  - split; cbn; intros *; by rewrite lookup_empty.
  - split; intros *; [intros H1 H2|intros H1 _ H2 _]; apply Hidle in H1 as ->; done.
  - by apply H0.
  - intros i f o mine H. by apply Hidle in H.
Qed.

Lemma gem_step_inv st st' : gem_step true st st' -> gem_inv (gs_device st) (gs_threads st) -> gem_inv (gs_device st') (gs_threads st').
Proof.
  intros Hs IH. destruct Hs as [d ths i pc mine ans pc' d' Hi Hs E|d ths i mine call pc' mine' d' Hi Hok Hpol E]; cbn [gs_device gs_threads] in *.
  - destruct (section_inv d ths i mine IH ans pc Hi Hs) as (pc2 & d2 & E2 & H). rewrite E in E2. by injection E2 as <- <-.
  - destruct (call_inv d ths i mine IH Hi call Hok (Hpol eq_refl)) as (pc2 & m2 & d2 & E2 & H). rewrite E in E2. by injection E2 as <- <- <-.
Qed.

Lemma gem_reachable_inv n st : gem_reachable true n st -> gem_inv (gs_device st) (gs_threads st).
Proof.
  unfold gem_reachable. intros Hr. pose proof (gem_start_inv n) as H0. revert H0. induction Hr as [|st1 st2 st3 H12 _ IH]; [done|].
  intros H1. by apply IH, (gem_step_inv st1).
Qed.

(** C14: as long as user space closes only handles it was given, no interleaving of threads accesses an object that is not there; an
    object is in memory exactly while a thread has a reference or somebody has a handle. *)
Theorem drm_gem_no_fault n st : gem_reachable true n st ->
  (forall i t ans, gs_threads st !! i = Some t -> section_ok ans (th_pc t) (gs_device st) -> is_Some (gem_section ans (th_pc t) (gs_device st))) /\
  (forall i mine call, gs_threads st !! i = Some {| th_pc := GIdle; th_refs := mine |} -> call_ok call mine (gs_device st) -> polite call (gs_threads st) ->
    is_Some (gem_begin call mine (gs_device st))) /\
  (forall x, is_Some (g_objects (gs_device st) !! x) <-> 0 < handles_of (gs_device st) (gs_threads st) x \/ 0 < refs_of (gs_threads st) x).
Proof.
  intros Hr. pose proof (gem_reachable_inv n st Hr) as HI. destruct st as [d ths]. cbn [gs_device gs_threads] in *. split; [|split].
  - intros i [pc mine] ans Hi Hs. destruct (section_inv d ths i mine HI ans pc Hi Hs) as (pc' & d' & E & _). by eexists.
  - intros i mine call Hi Hok Hpol. destruct (call_inv d ths i mine HI Hi call Hok Hpol) as (pc' & m' & d' & E & _). by eexists.
  - intros x. split; [|intros H; destruct (held_present d ths x (gi_objects _ _ HI x) H) as [ob ->]; by eexists].
    intros [ob Eo]. pose proof (gi_objects _ _ HI x) as Hob. unfold object_ok in Hob. rewrite Eo in Hob. destruct Hob as (_ & _ & Hr' & Hp & _).
    destruct (Z.ltb_spec 0 (handles_of d ths x)); [by left|right; lia].
Qed.

Lemma entries_pos (w : Z * Z -> option nat -> Z) (m : handle_table) : (forall k v, 0 <= w k v) -> 0 < entries w m <-> exists k v, m !! k = Some v /\ 0 < w k v.
Proof.
  intros Hw. split; [|intros (k & v & Hk & Hpos); pose proof (entries_ge w m k v Hw Hk); lia].
  induction m as [|k v m Hk IH] using map_ind; [done|]. rewrite entries_insert by done. intros H. destruct (Z.ltb_spec 0 (w k v)) as [Hpos|Hle].
  - exists k, v. by rewrite lookup_insert_eq.
  - destruct IH as (k' & v' & Hk' & Hpos); [specialize (Hw k v); lia|]. exists k', v'. rewrite lookup_insert_ne; [done|]. intros ->. congruence.
Qed.

(** C15: as long as user space closes only handles it was given ([gem_reachable true]): when no call is running, the handle count of an object is the number of its handles, a file may map exactly the objects it has handles
    for, and the global names are exactly the names of objects, each of which has a handle. *)
Theorem drm_gem_counts_handles n st : gem_reachable true n st -> Forall (fun t => th_pc t = GIdle) (gs_threads st) ->
  let d := gs_device st in
  (forall x ob, g_objects d !! x = Some ob ->
    o_handle_count ob = entries (entry_weight x) (g_handles d) /\
    (forall f, drm_vma_node_is_allowed f (o_vma ob) = true <-> exists h, g_handles d !! (f, h) = Some (Some x)) /\
    (forall nm, nm <> 0 -> o_name ob = nm <-> g_names d !! nm = Some x) /\ (o_name ob <> 0 -> exists k, g_handles d !! k = Some (Some x))) /\
  (forall k x, g_handles d !! k = Some (Some x) -> is_Some (g_objects d !! x)) /\ g_locked d = false.
Proof.
  intros Hr Hidle. pose proof (gem_reachable_inv n st Hr) as HI. destruct st as [d ths]. cbn [gs_device gs_threads] in *. cbv zeta.
  assert (forall w : gem_pc -> Z, w GIdle = 0 -> tot (fun t => w (th_pc t)) ths = 0) as H0.
  { intros w Hw. apply tot_zero. intros t Ht. apply list_elem_of_lookup in Ht as [i Hi]. by rewrite (proj1 (Forall_lookup _ _) Hidle i t Hi). }
  assert (forall x v (k : Z * Z), 0 < entry_weight x k v -> v = Some x) as Hw.
  { intros x [o|] k H; [|done]. cbn in H. unfold one in H. destruct (Nat.eqb_spec o x); [by subst|lia]. }
  split; [|split].
  - intros x ob Eo. pose proof (gi_objects _ _ HI x) as Hob. unfold object_ok in Hob. rewrite Eo in Hob. destruct Hob as (Hc & _ & _ & _ & Hok & Ha).
    assert (handles_of d ths x = entries (entry_weight x) (g_handles d)) as Hh by (unfold handles_of; rewrite (H0 (fun pc => pc_handles pc x)) by done; lia).
    split; [lia|]. split; [|split].
    + intros f. rewrite refs_allowed by done. rewrite Ha. unfold access_of. rewrite (H0 (fun pc => pc_access pc f x)), Z.add_0_r by done.
      rewrite entries_pos by apply file_weight_nonneg. split.
      * intros ([f' h] & v & Hk & Hpos). unfold file_weight in Hpos. cbn [fst] in Hpos. destruct (Z.eqb_spec f f') as [->|]; [|done]. apply Hw in Hpos as ->. by exists h.
      * intros [h Hk]. exists (f, h), (Some x). split; [done|]. by rewrite file_entry, Z.eqb_refl, one_same.
    + intros nm Hnm. destruct (gi_names _ _ HI) as [N1 N2]. split; [intros <-; by apply (N2 x ob)|]. intros Hn. destruct (N1 nm x Hn) as (ob' & E' & <- & _). congruence.
    + intros Hn. destruct (proj2 (gi_names _ _ HI) x ob Eo Hn) as [_ G]. destruct (proj1 (entries_pos (entry_weight x) (g_handles d) (entry_weight_nonneg x))) as (k & v & Hk & Hpos).
      { pose proof (handles_of_nonneg d ths x). lia. }
      apply Hw in Hpos as ->. by exists k.
  - intros k x Hk. destruct (held_present d ths x (gi_objects _ _ HI x)) as [ob ->]; [left; pose proof (entry_handles d ths k x Hk); lia|by eexists].
  - pose proof (gi_lock _ _ HI) as Hl. rewrite (H0 pc_lock) in Hl by done. by destruct (g_locked d).
Qed.

(** ** Examples *)

(** A schedule: calls and sections of threads. *)
Inductive gem_action := Call (i : nat) (call : gem_call) | Run (i : nat) (ans : gem_answer).

Definition section_okb (ans : gem_answer) (pc : gem_pc) (d : gem_device) : bool :=
  match pc with
  | TailCount f o _ => match g_objects d !! o with Some ob => o_handle_count ob + 1 <? 2 ^ 32 | None => true end
  | TailAlloc f _ _ => match a_alloc ans with Some h => (0 <? h) && bool_decide (g_handles d !! (f, h) = None) | None => true end
  | TailAllow f o _ _ => match g_objects d !! o with Some ob => VmaManager.refs (o_vma ob) f + 1 <? 2 ^ 64 | None => true end
  | HandlePut _ _ => negb (g_locked d)
  | FlinkName _ => negb (g_locked d) && match a_alloc ans with Some n => (0 <? n) && bool_decide (g_names d !! n = None) | None => true end
  | _ => true
  end.

Definition call_okb (call : gem_call) (mine : list nat) (d : gem_device) : bool :=
  match call with
  | NewObject o _ => match g_objects d !! o with Some _ => false | None => true end
  | DropObject o => bool_decide (o ∈ mine)
  | HandleCreate _ o => bool_decide (o ∈ mine) && negb (g_locked d)
  | OpenName _ _ => negb (g_locked d)
  | _ => true
  end.

Definition politeb (call : gem_call) (ths : list gem_thread) : bool :=
  match call with HandleDelete f h => forallb (fun t => negb (making (th_pc t) f h)) ths | _ => true end.

Definition gem_act (only_polite : bool) (a : gem_action) (st : gem_state) : option gem_state :=
  let d := gs_device st in
  match a with
  | Run i ans =>
    t ← gs_threads st !! i;
    if section_okb ans (th_pc t) d
    then r ← gem_section ans (th_pc t) d; Some {| gs_device := r.2; gs_threads := <[i := {| th_pc := r.1; th_refs := th_refs t |}]> (gs_threads st) |}
    else None
  | Call i call =>
    t ← gs_threads st !! i;
    match th_pc t with
    | GIdle =>
      if call_okb call (th_refs t) d && (negb only_polite || politeb call (gs_threads st))
      then r ← gem_begin call (th_refs t) d; Some {| gs_device := r.2; gs_threads := <[i := {| th_pc := r.1.1; th_refs := r.1.2 |}]> (gs_threads st) |}
      else None
    | _ => None
    end
  end.

Definition gem_schedule (only_polite : bool) (l : list gem_action) (st : gem_state) : option gem_state :=
  foldl (fun st a => st ← st; gem_act only_polite a st) (Some st) l.

Lemma section_okb_ok ans pc d : section_okb ans pc d = true -> section_ok ans pc d.
Proof.
  destruct pc; cbn [section_okb section_ok]; try done.
  - intros H ob E. rewrite E in H. lia.
  - intros H h E. rewrite E in H. apply andb_true_iff in H as [H1 H2]. apply bool_decide_eq_true in H2. split; [lia|done].
  - intros H ob E. rewrite E in H. lia.
  - intros H. by destruct (g_locked d).
  - intros [H1 H]%andb_true_iff. split; [by destruct (g_locked d)|]. intros n E. rewrite E in H. apply andb_true_iff in H as [H2 H3].
    apply bool_decide_eq_true in H3. split; [lia|done].
Qed.

Lemma call_okb_ok call mine d : call_okb call mine d = true -> call_ok call mine d.
Proof.
  destruct call; cbn [call_okb call_ok]; try done.
  - by destruct (g_objects d !! o).
  - apply bool_decide_eq_true.
  - intros [H1 H2]%andb_true_iff. apply bool_decide_eq_true in H1. split; [done|by destruct (g_locked d)].
  - by destruct (g_locked d).
Qed.

Lemma politeb_ok call ths : politeb call ths = true -> polite call ths.
Proof.
  destruct call; cbn [politeb polite]; try done. intros H. apply Forall_forall. intros t Ht. apply list_elem_of_In, (proj1 (forallb_forall _ _) H) in Ht. by apply negb_true_iff in Ht.
Qed.

Lemma gem_act_step only_polite a st st' : gem_act only_polite a st = Some st' -> gem_step only_polite st st'.
Proof.
  destruct st as [d ths]. unfold gem_act. cbn [gs_device gs_threads]. destruct a as [i call|i ans]; destruct (ths !! i) as [[pc mine]|] eqn:Hi; try done; rewrite bind_some; cbn [th_pc th_refs].
  - destruct pc; try done. destruct (call_okb call mine d && _) eqn:Eg; [|done]. apply andb_true_iff in Eg as [G1 G2].
    destruct (gem_begin call mine d) as [[[pc' mine'] d']|] eqn:Eb; [|done]. rewrite bind_some. intros [= <-].
    apply (gem_step_call only_polite d ths i mine call); [done|by apply call_okb_ok| |done]. intros ->. by apply politeb_ok.
  - destruct (section_okb ans pc d) eqn:Eg; [|done]. destruct (gem_section ans pc d) as [[pc' d']|] eqn:Es; [|done]. rewrite bind_some. intros [= <-].
    apply (gem_step_section only_polite d ths i pc mine ans); [done|by apply section_okb_ok|done].
Qed.

Lemma gem_schedule_reach only_polite n l st : gem_schedule only_polite l (gem_start n) = Some st -> gem_reachable only_polite n st.
Proof.
  unfold gem_reachable, gem_schedule. generalize (gem_start n). induction l as [|a l IH]; intros st0 E; cbn [foldl] in E; [injection E as <-; apply rtc_refl|].
  rewrite bind_some in E. destruct (gem_act only_polite a st0) as [st1|] eqn:E1; [|exfalso; clear -E; induction l; done].
  eapply rtc_l; [by apply (gem_act_step only_polite a)|by apply IH].
Qed.

Definition yes : gem_answer := {| a_alloc := Some 1; a_oom := false; a_open := true |}.

(** Thread 0 makes object 7 with a handle of file 1, and gives it the name 5. *)
Definition make_named : list gem_action :=
  [Call 0 (NewObject 7 4096); Call 0 (HandleCreate 1 7); Run 0 yes; Run 0 yes; Run 0 yes; Run 0 yes; Call 0 (Flink 1 1);
   Run 0 {| a_alloc := Some 5; a_oom := false; a_open := true |}; Run 0 yes].

Lemma drm_gem_no_fault_witness : exists st, gem_schedule true make_named (gem_start 2) = Some st /\
  is_Some (g_objects (gs_device st) !! 7%nat) /\ is_Some (gem_begin (OpenName 2 5) [] (gs_device st)).
Proof.
  destruct (gem_schedule true make_named (gem_start 2)) as [st|] eqn:E; [|vm_compute in E; discriminate]. exists st. split; [reflexivity|].
  destruct (drm_gem_no_fault 2 st (gem_schedule_reach _ _ _ _ E)) as (_ & H2 & H3). vm_compute in E. apply (inj Some) in E. split.
  - apply H3. left. rewrite <- E. vm_compute. reflexivity.
  - apply (H2 1%nat); rewrite <- E; vm_compute; [reflexivity|reflexivity|exact I].
Defined.

Lemma drm_gem_counts_handles_witness : exists st ob, gem_schedule true make_named (gem_start 2) = Some st /\ g_objects (gs_device st) !! 7%nat = Some ob /\
  drm_vma_node_is_allowed 1 (o_vma ob) = true /\ o_handle_count ob = 1.
Proof.
  destruct (gem_schedule true make_named (gem_start 2)) as [st|] eqn:E; [|vm_compute in E; discriminate].
  destruct (drm_gem_counts_handles 2 st (gem_schedule_reach _ _ _ _ E)) as (H & _).
  - vm_compute in E. apply (inj Some) in E. rewrite <- E. repeat constructor.
  - destruct (g_objects (gs_device st) !! 7%nat) as [ob|] eqn:Eo; [|vm_compute in E; apply (inj Some) in E; subst st; discriminate]. exists st, ob. split; [reflexivity|]. split; [exact Eo|].
    destruct (H 7%nat ob Eo) as (Hc & Ha & _). split.
    + apply Ha. exists 1. vm_compute in E. apply (inj Some) in E. subst st. reflexivity.
    + rewrite Hc. vm_compute in E. apply (inj Some) in E. subst st. vm_compute. reflexivity.
Defined.

(** Thread 0 opens the name for file 2; before it has put its reference, thread 1 closes the new handle, which it has guessed, and the old one. *)
Definition open_race : list gem_action :=
  make_named ++ [Call 0 (DropObject 7); Run 0 yes; Call 0 (OpenName 2 5); Run 0 yes; Run 0 yes; Run 0 yes; Run 0 yes;
    Call 1 (HandleDelete 2 1); Run 1 yes; Run 1 yes; Run 1 yes; Run 1 yes;
    Call 1 (HandleDelete 1 1); Run 1 yes; Run 1 yes; Run 1 yes; Run 1 yes; Run 1 yes; Run 0 yes].

(** [drm_gem_open_ioctl] reads the size of an object after it has put it, when the object can be gone. *)
Theorem drm_gem_open_use_after_free : exists st t, gem_reachable false 2 st /\ gs_threads st !! 0%nat = Some t /\ th_pc t = OpenSize 2 1 7 /\
  gem_section yes (th_pc t) (gs_device st) = None.
Proof.
  destruct (gem_schedule false open_race (gem_start 2)) as [st|] eqn:E; [|vm_compute in E; discriminate].
  pose proof (gem_schedule_reach _ _ _ _ E) as Hr. vm_compute in E. apply (inj Some) in E. subst st.
  eexists _, _. split; [exact Hr|]. split; [reflexivity|]. split; [reflexivity|]. vm_compute. reflexivity.
Qed.

(** File 2 gets a handle while thread 1 closes it, and the permission fails for want of memory: the handle is put twice. *)
Definition create_race : list gem_action :=
  make_named ++ [Call 0 (HandleCreate 2 7); Run 0 yes; Run 0 yes; Call 1 (HandleDelete 2 1); Run 1 yes; Run 1 yes; Run 1 yes; Run 1 yes;
    Run 0 {| a_alloc := None; a_oom := true; a_open := true |}; Run 0 yes; Run 0 yes; Run 0 yes; Run 0 yes; Call 0 (DropObject 7); Run 0 yes].

(** After the race the handle of file 1 leads to memory that was freed. *)
Theorem drm_gem_create_use_after_free : exists st, gem_reachable false 2 st /\ Forall (fun t => th_pc t = GIdle) (gs_threads st) /\
  g_handles (gs_device st) !! (1, 1) = Some (Some 7%nat) /\ gem_begin (Lookup 1 1) [] (gs_device st) = None.
Proof.
  destruct (gem_schedule false create_race (gem_start 2)) as [st|] eqn:E; [|vm_compute in E; discriminate].
  pose proof (gem_schedule_reach _ _ _ _ E) as Hr. vm_compute in E. apply (inj Some) in E. subst st.
  eexists. split; [exact Hr|]. split; [repeat constructor|]. split; vm_compute; reflexivity.
Qed.
