(* ===== verification/Syncmap.v ===== *)
(** * The map of synchronisation points of i915 ([i915_syncmap.c])

    A radix tree of 64-bit context ids with 16 slots per layer that remembers the last sequence number synchronised with.  Layers with only one
    way down are left out, layers point to their parents, and the map is a pointer to the leaf that was used last: a search
    climbs from there to a layer that covers the id and descends again.  Memory is a finite map from addresses to layers, so that parent and child
    pointers are two sides that have to agree; an access to an address that is not there is a fault ([None]).  [kmalloc] answers with a fresh address or
    fails, and what a new leaf contains is arbitrary.

    Theorems: any sequence of the operations behaves as a finite map from ids to sequence numbers, also when memory runs out half-way through an
    insertion, never follows a wrong pointer and always ends; freeing returns every layer. *)

From S2P Require Import Prelude Bytes.
From stdpp Require Import base gmap list option sets relations.
From Stdlib Require Import ZArith Lia ZifyBool.

#[local] Open Scope Z_scope.

(** ** Layers *)

Definition KSYNCMAP : nat := 16.
Definition SHIFT : Z := 4.
Definition MASK : Z := 15.

(** The array that follows the header: sequence numbers in a leaf, else children. *)
Inductive layer_slots := Seqnos (l : list Z) | Children (l : list (option nat)).

Record i915_syncmap := { prefix : Z; height : Z; bitmap : Z; parent : option nat; slots : layer_slots }.

Abbreviation heap := (gmap nat i915_syncmap).

Record syncmap := { sm_heap : heap; sm_root : option nat }.

Definition i915_syncmap_init : syncmap := {| sm_heap := ∅; sm_root := None |}.

Definition set_parent (q : option nat) (p : i915_syncmap) : i915_syncmap :=
  {| prefix := prefix p; height := height p; bitmap := bitmap p; parent := q; slots := slots p |}.
Definition set_slots (b : Z) (s : layer_slots) (p : i915_syncmap) : i915_syncmap :=
  {| prefix := prefix p; height := height p; bitmap := b; parent := parent p; slots := s |}.

Definition __sync_seqno (p : i915_syncmap) : option (list Z) := match slots p with Seqnos l => Some l | Children _ => None end.
Definition __sync_child (p : i915_syncmap) : option (list (option nat)) := match slots p with Children l => Some l | Seqnos _ => None end.

Definition __sync_branch_idx (p : i915_syncmap) (id : Z) : nat := Z.to_nat (Z.land (Z.shiftr id (height p)) MASK).
Definition __sync_leaf_idx (id : Z) : nat := Z.to_nat (Z.land id MASK).
Definition __sync_branch_prefix (p : i915_syncmap) (id : Z) : Z := Z.shiftr (Z.shiftr id (height p)) SHIFT.
Definition __sync_leaf_prefix (id : Z) : Z := Z.shiftr id SHIFT.

Definition seqno_later (a b : Z) : bool := 0 <=? s32 (a - b).

Definition BIT (i : nat) : Z := Z.shiftl 1 (Z.of_nat i).

(** ** Lookup *)

(** Heights are multiples of 4 up to 60. *)
Definition max_layers : nat := 17.

(** The climb: the first layer above [p] that covers [id]. *)
Fixpoint climb (fuel : nat) (h : heap) (p : nat) (id : Z) : option (option nat) :=
  match fuel with
  | O => None
  | S fuel =>
    n ← h !! p;
    match parent n with
    | None => Some None
    | Some q => m ← h !! q; if __sync_branch_prefix m id =? prefix m then Some (Some q) else climb fuel h q id
    end
  end.

(** The descent to a leaf. *)
Fixpoint descend_leaf (fuel : nat) (h : heap) (p : nat) (id : Z) : option (option nat) :=
  match fuel with
  | O => None
  | S fuel =>
    n ← h !! p;
    if height n =? 0 then Some (Some p)
    else
      l ← __sync_child n;
      c ← l !! __sync_branch_idx n id;
      match c with
      | None => Some None
      | Some q => m ← h !! q; if __sync_branch_prefix m id =? prefix m then descend_leaf fuel h q id else Some None
      end
  end.

(** [found:] the slot of the leaf *)
Definition leaf_later (h : heap) (p : nat) (id seqno : Z) : option bool :=
  n ← h !! p;
  if negb (Z.testbit (bitmap n) (Z.of_nat (__sync_leaf_idx id))) then Some false
  else l ← __sync_seqno n; s ← l !! __sync_leaf_idx id; Some (seqno_later s seqno).

Definition i915_syncmap_is_later (id seqno : Z) (st : syncmap) : option (bool * syncmap) :=
  match sm_root st with
  | None => Some (false, st)
  | Some p =>
    n ← sm_heap st !! p;
    if __sync_leaf_prefix id =? prefix n then r ← leaf_later (sm_heap st) p id seqno; Some (r, st)
    else
      up ← climb max_layers (sm_heap st) p id;
      match up with
      | None => Some (false, st)
      | Some q =>
        down ← descend_leaf max_layers (sm_heap st) q id;
        match down with
        | None => Some (false, st)
        | Some l => r ← leaf_later (sm_heap st) l id seqno; Some (r, {| sm_heap := sm_heap st; sm_root := Some l |})
        end
      end
  end.

(** ** Insertion *)

(** What [kmalloc] answers for a leaf and for a join, and what the sequence numbers of a new leaf contain. *)
Record answers := { an_leaf : option nat; an_join : option nat; an_junk : list Z }.

Definition __sync_alloc_leaf (ans : answers) (par : option nat) (id : Z) (h : heap) : option (nat * heap) :=
  match an_leaf ans with
  | None => None
  | Some a => Some (a, <[a := {| prefix := __sync_leaf_prefix id; height := 0; bitmap := 0; parent := par; slots := Seqnos (an_junk ans) |}]> h)
  end.

Definition __sync_set_seqno (id seqno : Z) (p : nat) (h : heap) : option heap :=
  n ← h !! p; l ← __sync_seqno n; _ ← l !! __sync_leaf_idx id;
  Some (<[p := set_slots (Z.lor (bitmap n) (BIT (__sync_leaf_idx id))) (Seqnos (<[__sync_leaf_idx id := seqno]> l)) n]> h).

(** [__sync_child(p)[idx] = child], and with the bit *)
Definition put_child (p idx : nat) (child : nat) (h : heap) : option heap :=
  n ← h !! p; l ← __sync_child n; _ ← l !! idx; Some (<[p := set_slots (bitmap n) (Children (<[idx := Some child]> l)) n]> h).
Definition __sync_set_child (p idx : nat) (child : nat) (h : heap) : option heap :=
  n ← h !! p; l ← __sync_child n; _ ← l !! idx; Some (<[p := set_slots (Z.lor (bitmap n) (BIT idx)) (Children (<[idx := Some child]> l)) n]> h).

Definition fls64 (x : Z) : Z := if x =? 0 then 0 else Z.log2 x + 1.
Definition round_up (x y : Z) : Z := (x + y - 1) / y * y.

(** A join [a] above layer [p] *)
Definition insert_join (a p : nat) (id : Z) (h : heap) : option heap :=
  n ← h !! p;
  let above := round_up (fls64 (Z.lxor (__sync_branch_prefix n id) (prefix n))) SHIFT in
  let next := {| prefix := 0; height := above + height n; bitmap := 0; parent := None; slots := Children (replicate KSYNCMAP None) |} in
  let next := {| prefix := __sync_branch_prefix next id; height := above + height n; bitmap := 0; parent := parent n; slots := slots next |} in
  let h := <[a := next]> h in
  h ← match parent n with
      | Some b => m ← h !! b; put_child b (__sync_branch_idx m id) a h
      | None => Some h
      end;
  h ← __sync_set_child a (Z.to_nat (Z.land (Z.shiftr (prefix n) (above - SHIFT)) MASK)) p h;
  n ← h !! p;
  Some (<[p := set_parent (Some a) n]> h).

(** The loop of [__sync_set]; the result is a leaf, and memory as it is then. *)
Fixpoint set_loop (fuel : nat) (ans : answers) (p : nat) (id : Z) (h : heap) : option (result nat * heap) :=
  match fuel with
  | O => None
  | S fuel =>
    let next_layer p h :=
      n ← h !! p;
      l ← __sync_child n;
      c ← l !! __sync_branch_idx n id;
      match c with
      | None =>
        match __sync_alloc_leaf ans (Some p) id h with
        | None => Some (Err ENOMEM, h)
        | Some (a, h) => h ← __sync_set_child p (__sync_branch_idx n id) a h; Some (Ok a, h)
        end
      | Some q => set_loop fuel ans q id h
      end in
    n ← h !! p;
    if negb (__sync_branch_prefix n id =? prefix n) then
      match an_join ans with
      | None => Some (Err ENOMEM, h)
      | Some a => h ← insert_join a p id h; next_layer a h
      end
    else if height n =? 0 then Some (Ok p, h)
    else next_layer p h
  end.

(** The climb of [__sync_set]: the first layer above [p] that covers [id], or the top. *)
Fixpoint climb_top (fuel : nat) (h : heap) (p : nat) (id : Z) : option nat :=
  match fuel with
  | O => None
  | S fuel =>
    n ← h !! p;
    match parent n with
    | None => Some p
    | Some q => m ← h !! q; if __sync_branch_prefix m id =? prefix m then Some q else climb_top fuel h q id
    end
  end.

Definition __sync_set (ans : answers) (id seqno : Z) (st : syncmap) : option (result unit * syncmap) :=
  r ← match sm_root st with
      | None => Some (match __sync_alloc_leaf ans None id (sm_heap st) with None => (Err ENOMEM, sm_heap st) | Some (a, h) => (Ok a, h) end)
      | Some p => q ← climb_top max_layers (sm_heap st) p id; set_loop max_layers ans q id (sm_heap st)
      end;
  match r with
  | (Ok l, h) => h ← __sync_set_seqno id seqno l h; Some (Ok tt, {| sm_heap := h; sm_root := Some l |})
  | (Err e, h) => Some (Err e, {| sm_heap := h; sm_root := sm_root st |})
  end.

Definition i915_syncmap_set (ans : answers) (id seqno : Z) (st : syncmap) : option (result unit * syncmap) :=
  match sm_root st with
  | Some p =>
    n ← sm_heap st !! p;
    if __sync_leaf_prefix id =? prefix n then
      h ← __sync_set_seqno id seqno p (sm_heap st); Some (Ok tt, {| sm_heap := h; sm_root := Some p |})
    else __sync_set ans id seqno st
  | None => __sync_set ans id seqno st
  end.

(** ** Freeing *)

(** The loop over the bits of [bitmap] goes from the lowest up. *)
Fixpoint __sync_free (fuel : nat) (h : heap) (p : nat) : option heap :=
  match fuel with
  | O => None
  | S fuel =>
    n ← h !! p;
    h ← (if height n =? 0 then Some h
         else
           l ← __sync_child n;
           foldl (fun h i => h ← h; if Z.testbit (bitmap n) (Z.of_nat i) then c ← l !! i; q ← c; __sync_free fuel h q else Some h)
             (Some h) (seq 0 KSYNCMAP));
    Some (delete p h)
  end.

Fixpoint find_top (fuel : nat) (h : heap) (p : nat) : option nat :=
  match fuel with
  | O => None
  | S fuel => n ← h !! p; match parent n with None => Some p | Some q => find_top fuel h q end
  end.

Definition i915_syncmap_free (st : syncmap) : option syncmap :=
  match sm_root st with
  | None => Some st
  | Some p => q ← find_top max_layers (sm_heap st) p; h ← __sync_free max_layers (sm_heap st) q; Some {| sm_heap := h; sm_root := None |}
  end.

(** ** Arithmetic of prefixes *)

Definition covers (p : i915_syncmap) (id : Z) : Prop := id / 2 ^ (height p + 4) = prefix p.

Definition is_height (k : Z) : Prop := 0 <= k <= 60 /\ k mod 4 = 0.

Lemma branch_prefix_div p id : 0 <= height p -> __sync_branch_prefix p id = id / 2 ^ (height p + 4).
Proof. intros H. unfold __sync_branch_prefix, SHIFT. rewrite Z.shiftr_shiftr by lia. apply Z.shiftr_div_pow2. lia. Qed.

Lemma leaf_prefix_div id : __sync_leaf_prefix id = id / 2 ^ 4.
Proof. by apply Z.shiftr_div_pow2. Qed.

Lemma land_mask x : Z.land x MASK = x mod 16.
Proof. change MASK with (Z.ones 4). by rewrite Z.land_ones. Qed.

Lemma branch_idx_mod p id : 0 <= height p -> Z.of_nat (__sync_branch_idx p id) = (id / 2 ^ height p) mod 16.
Proof.
  intros H. unfold __sync_branch_idx. rewrite land_mask, Z.shiftr_div_pow2 by done. pose proof (Z.mod_pos_bound (id / 2 ^ height p) 16). lia.
Qed.

Lemma branch_idx_lt p id : 0 <= height p -> (__sync_branch_idx p id < 16)%nat.
Proof. intros H. pose proof (branch_idx_mod p id H). pose proof (Z.mod_pos_bound (id / 2 ^ height p) 16). lia. Qed.

Lemma leaf_idx_lt id : (__sync_leaf_idx id < 16)%nat.
Proof. unfold __sync_leaf_idx. rewrite land_mask. pose proof (Z.mod_pos_bound id 16). lia. Qed.

(** A leaf index and a leaf prefix make an id. *)
Lemma leaf_split id id' : __sync_leaf_prefix id = __sync_leaf_prefix id' -> __sync_leaf_idx id = __sync_leaf_idx id' -> id = id'.
Proof.
  rewrite !leaf_prefix_div. unfold __sync_leaf_idx. rewrite !land_mask. change (2 ^ 4) with 16. intros H1 H2.
  pose proof (Z.div_mod id 16). pose proof (Z.div_mod id' 16). pose proof (Z.mod_pos_bound id 16). pose proof (Z.mod_pos_bound id' 16). lia.
Qed.

Lemma covers_test p id : 0 <= height p -> (__sync_branch_prefix p id =? prefix p) = true <-> covers p id.
Proof. intros H. rewrite branch_prefix_div by done. unfold covers. lia. Qed.

(** Layer [m] is below slot [i] of layer [n]. *)
Definition under (m n : i915_syncmap) (i : nat) : Prop :=
  height m + 4 <= height n /\ prefix m / 2 ^ (height n - height m - 4) = prefix n * 16 + Z.of_nat i.

Lemma under_covers m n i id : 0 <= height m -> (i < 16)%nat -> under m n i -> covers m id -> covers n id /\ __sync_branch_idx n id = i.
Proof.
  intros Hm Hi [Hh Hu] Hc. unfold covers in *. assert (id / 2 ^ height n = prefix n * 16 + Z.of_nat i) as E.
  { rewrite <- Hu, <- Hc, Z.div_div by (try apply Z.pow_nonzero; try apply Z.pow_pos_nonneg; lia). rewrite <- Z.pow_add_r by lia. do 2 f_equal. lia. }
  split.
  - rewrite Z.pow_add_r by lia. rewrite <- Z.div_div by (try apply Z.pow_nonzero; lia). rewrite E. change (2 ^ 4) with 16. rewrite Z.add_comm, Z.div_add by lia.
    rewrite Z.div_small by lia. lia.
  - pose proof (branch_idx_mod n id ltac:(lia)) as Hx. rewrite E, Z.add_comm, Z.mod_add, Z.mod_small in Hx by lia. lia.
Qed.

(** Two layers that cover the same id, one above the other. *)
Lemma covers_under m n id : 0 <= height m -> height m + 4 <= height n -> covers m id -> covers n id -> 0 <= id -> under m n (__sync_branch_idx n id).
Proof.
  intros Hm Hh Hc Hn H0. split; [done|]. unfold covers in *. rewrite branch_idx_mod by lia. rewrite <- Hc, <- Hn.
  rewrite Z.div_div by (try apply Z.pow_nonzero; try apply Z.pow_pos_nonneg; lia). rewrite <- Z.pow_add_r by lia.
  replace (height m + 4 + (height n - height m - 4)) with (height n) by lia.
  rewrite Z.pow_add_r, <- Z.div_div by (try apply Z.pow_nonzero; lia). change (2 ^ 4) with 16. pose proof (Z.div_mod (id / 2 ^ height n) 16). lia.
Qed.

(** The height at which two prefixes part. *)
Definition parting (x q : Z) : Z := round_up (fls64 (Z.lxor x q)) SHIFT.

Lemma shifted_apart x q d : 0 <= d -> x / 2 ^ d = q / 2 ^ d <-> Z.lxor x q / 2 ^ d = 0.
Proof.
  intros Hd. rewrite <- !Z.shiftr_div_pow2 by done. rewrite Z.shiftr_lxor. symmetry. apply Z.lxor_eq_0_iff.
Qed.

Lemma parting_spec x q : 0 <= x -> 0 <= q -> x <> q ->
  let a := parting x q in 4 <= a /\ a mod 4 = 0 /\ x / 2 ^ a = q / 2 ^ a /\ (x / 2 ^ (a - 4)) mod 16 <> (q / 2 ^ (a - 4)) mod 16 /\
    (forall d, 0 <= d -> d mod 4 = 0 -> x / 2 ^ d = q / 2 ^ d -> a <= d).
Proof.
  intros Hx Hq Hne. cbv zeta. assert (0 < Z.lxor x q) as Hy.
  { assert (Z.lxor x q <> 0) by (intros E; apply (proj1 (Z.lxor_eq_0_iff _ _)) in E; lia). assert (0 <= Z.lxor x q) by (apply Z.lxor_nonneg; split; lia). lia. }
  unfold parting, round_up, fls64, SHIFT. destruct (Z.eqb_spec (Z.lxor x q) 0); [lia|]. pose proof (Z.log2_nonneg (Z.lxor x q)) as HL. pose proof (Z.log2_spec _ Hy) as HLs.
  set (L := Z.log2 (Z.lxor x q)) in *. set (a := (L + 1 + 4 - 1) / 4 * 4).
  assert (a mod 4 = 0 /\ L + 1 <= a < L + 5) as [Ha4 Ha] by (subst a; split; [by apply Z.mod_mul|]; pose proof (Z.div_mod (L + 1 + 4 - 1) 4); pose proof (Z.mod_pos_bound (L + 1 + 4 - 1) 4); lia).
  assert (4 <= a) as Ha0 by (pose proof (Z.div_mod a 4); lia). clearbody a.
  assert (x / 2 ^ a = q / 2 ^ a) as Eq.
  { apply shifted_apart; [lia|]. apply Z.div_small. split; [lia|]. apply Z.lt_le_trans with (2 ^ (Z.succ L)); [lia|]. apply Z.pow_le_mono_r; lia. }
  split; [done|]. split; [done|]. split; [done|]. split.
  - intros Em. assert (x / 2 ^ (a - 4) = q / 2 ^ (a - 4)) as E.
    { assert (forall z, z / 2 ^ a = z / 2 ^ (a - 4) / 16) as Hz.
      { intros z. change 16 with (2 ^ 4). rewrite Z.div_div by (try apply Z.pow_nonzero; lia). rewrite <- Z.pow_add_r by lia. do 2 f_equal. lia. }
      rewrite !Hz in Eq. rewrite (Z.div_mod (x / 2 ^ (a - 4)) 16), (Z.div_mod (q / 2 ^ (a - 4)) 16), Eq, Em by lia. done. }
    apply shifted_apart in E; [|lia]. apply Z.div_small_iff in E; [|apply Z.pow_nonzero; lia].
    pose proof (Z.pow_le_mono_r 2 (a - 4) L). destruct E; lia.
  - intros d Hd Hd4 E. apply shifted_apart in E; [|done]. apply Z.div_small_iff in E; [|apply Z.pow_nonzero; lia].
    assert (L < d) by (apply (Z.pow_lt_mono_r_iff 2); lia). pose proof (Z.div_mod a 4). pose proof (Z.div_mod d 4). lia.
Qed.

(** ** The tree *)

Definition child_of (p : i915_syncmap) (i : nat) : option nat := match slots p with Children l => mjoin (l !! i) | Seqnos _ => None end.

Record layer_ok (n : i915_syncmap) : Prop := {
  lo_height : is_height (height n);
  lo_prefix : 0 <= prefix n < 2 ^ (60 - height n);
  lo_slots : match slots n with
             | Seqnos l => height n = 0 /\ length l = 16%nat
             | Children l => 0 < height n /\ length l = 16%nat
             end;
  lo_bitmap i : (i < 16)%nat -> 0 < height n -> Z.testbit (bitmap n) (Z.of_nat i) = true <-> is_Some (child_of n i)
}.

(** Parents and children agree, a child covers a part of its slot, and there is one top. *)
Record tree_ok (h : heap) : Prop := {
  tk_layer a n : h !! a = Some n -> layer_ok n;
  tk_down a n i c : h !! a = Some n -> child_of n i = Some c -> exists m, h !! c = Some m /\ parent m = Some a /\ under m n i;
  tk_up a n b : h !! a = Some n -> parent n = Some b -> exists m i, h !! b = Some m /\ child_of m i = Some a;
  tk_top a b n m : h !! a = Some n -> h !! b = Some m -> parent n = None -> parent m = None -> a = b
}.

Lemma child_lt n i c : layer_ok n -> child_of n i = Some c -> (i < 16)%nat /\ 0 < height n.
Proof.
  intros [_ _ Hs _] H. unfold child_of in H. destruct (slots n) as [l|l]; [done|]. destruct Hs as [Hh Hl]. split; [|done].
  rewrite <- Hl. destruct (l !! i) eqn:E; [|done]. by apply lookup_lt_Some in E.
Qed.

Lemma child_slots n : layer_ok n -> 0 < height n -> exists l, __sync_child n = Some l /\ length l = 16%nat /\ forall i, child_of n i = mjoin (l !! i).
Proof.
  intros [_ _ Hs _] Hh. unfold __sync_child, child_of. destruct (slots n) as [l|l]; [lia|]. exists l. destruct Hs. auto.
Qed.

Section Tree.
Context (h : heap) (Hok : tree_ok h).

Lemma layer_height a n : h !! a = Some n -> 0 <= height n <= 60.
Proof. intros H. by destruct (lo_height _ (tk_layer _ Hok a n H)). Qed.

(** A layer covers what its children cover. *)
Lemma up_covers a n b id : h !! a = Some n -> covers n id -> parent n = Some b ->
  exists m, h !! b = Some m /\ covers m id /\ child_of m (__sync_branch_idx m id) = Some a /\ height n + 4 <= height m.
Proof.
  intros Ha Hc Hp. destruct (tk_up _ Hok a n b Ha Hp) as (m & i & Hb & Hi). destruct (tk_down _ Hok b m i a Hb Hi) as (n' & Ha' & _ & Hu).
  rewrite Ha in Ha'. apply (inj Some) in Ha' as <-. destruct (child_lt m i a (tk_layer _ Hok b m Hb) Hi) as [Hi16 _].
  pose proof (layer_height a n Ha) as Hh. destruct (under_covers n m i id ltac:(lia) Hi16 Hu Hc) as [Hcm <-]. exists m. destruct Hu. auto.
Qed.

(** Down the tree along an id. *)
Definition down (id : Z) (a c : nat) : Prop := exists n, h !! a = Some n /\ child_of n (__sync_branch_idx n id) = Some c.

Lemma down_det id a c c' : down id a c -> down id a c' -> c = c'.
Proof. intros (n & Hn & E) (n' & Hn' & E'). congruence. Qed.

Lemma paths_meet id a b c : rtc (down id) a b -> rtc (down id) a c -> rtc (down id) b c \/ rtc (down id) c b.
Proof.
  intros H. revert c. induction H as [a|a x b Hax Hxb IH]; intros c Hc; [by left|]. inversion Hc as [|? y ? Hay Hyc]; subst.
  - right. by eapply rtc_l.
  - rewrite (down_det id a x y Hax Hay) in *. by apply IH.
Qed.

Lemma path_covers id a b n m : rtc (down id) a b -> h !! a = Some n -> h !! b = Some m -> covers m id -> covers n id.
Proof.
  intros H. revert n. induction H as [a|a x b (n0 & Hn0 & Hx) Hxb IH]; intros n Ha Hb Hc; [congruence|].
  rewrite Ha in Hn0. apply (inj Some) in Hn0 as <-. destruct (tk_down _ Hok a n _ x Ha Hx) as (w & Hw & Hp & _). specialize (IH w Hw Hb Hc).
  destruct (up_covers x w a id Hw IH Hp) as (n' & Hn' & Hcn & _). congruence.
Qed.

(** Every layer that covers an id is on the way down from the top, which covers it. *)
Lemma top_path id a n : h !! a = Some n -> covers n id -> exists t m, h !! t = Some m /\ parent m = None /\ covers m id /\ rtc (down id) t a.
Proof.
  remember (Z.to_nat (60 - height n)) as k eqn:Hk. revert a n Hk. induction k as [k IH] using lt_wf_ind. intros a n -> Ha Hc.
  destruct (parent n) as [b|] eqn:Hp; [|exists a, n; repeat split; auto; apply rtc_refl].
  destruct (up_covers a n b id Ha Hc Hp) as (m & Hb & Hcm & Hch & Hh). pose proof (layer_height b m Hb).
  destruct (IH (Z.to_nat (60 - height m)) ltac:(lia) b m eq_refl Hb Hcm) as (t & w & Ht & Hpt & Hct & Hr). exists t, w. repeat split; auto.
  eapply rtc_r; [done|]. by exists m.
Qed.

Lemma top_exists a n : h !! a = Some n -> exists t m, h !! t = Some m /\ parent m = None.
Proof.
  intros Ha. assert (0 <= prefix n) by apply (lo_prefix _ (tk_layer _ Hok a n Ha)). pose proof (layer_height a n Ha).
  destruct (top_path (prefix n * 2 ^ (height n + 4)) a n Ha) as (t & m & Ht & Hp & _); [|by exists t, m].
  apply Z.div_mul, Z.pow_nonzero; lia.
Qed.

Lemma leaf_no_down id a n c : h !! a = Some n -> height n = 0 -> ~ down id a c.
Proof.
  intros Ha H0 (n' & Hn' & Hc). rewrite Ha in Hn'. apply (inj Some) in Hn' as <-. destruct (child_lt n _ c (tk_layer _ Hok a n Ha) Hc). lia.
Qed.

(** From a layer that covers an id the way leads to its leaf. *)
Lemma path_to_leaf id a n b m : h !! a = Some n -> covers n id -> h !! b = Some m -> covers m id -> height m = 0 -> rtc (down id) a b.
Proof.
  intros Ha Hca Hb Hcb H0. destruct (top_path id a n Ha Hca) as (t & w & Ht & Hpt & _ & Hra). destruct (top_path id b m Hb Hcb) as (t' & w' & Ht' & Hpt' & _ & Hrb).
  assert (t' = t) as -> by (by eapply tk_top). destruct (paths_meet id t a b Hra Hrb) as [H|H]; [done|].
  inversion H as [|? x ? Hx _]; subst; [apply rtc_refl|]. by destruct (leaf_no_down id b m x Hb H0).
Qed.

Lemma leaf_unique id a n b m : h !! a = Some n -> covers n id -> height n = 0 -> h !! b = Some m -> covers m id -> height m = 0 -> a = b.
Proof.
  intros Ha Hca Ha0 Hb Hcb Hb0. pose proof (path_to_leaf id a n b m Ha Hca Hb Hcb Hb0) as H.
  inversion H as [|? x ? Hx _]; subst; [done|]. by destruct (leaf_no_down id a n x Ha Ha0).
Qed.

(** An id that the top does not cover is in no layer. *)
Lemma top_covers_all id t m : h !! t = Some m -> parent m = None -> ~ covers m id -> forall a n, h !! a = Some n -> ~ covers n id.
Proof.
  intros Ht Hp Hn a n Ha Hc. destruct (top_path id a n Ha Hc) as (t' & m' & Ht' & Hp' & Hc' & _).
  assert (t' = t) as -> by (by eapply tk_top). congruence.
Qed.

(** ** Searches *)

Lemma climb_top_spec fuel p n id : h !! p = Some n -> ~ covers n id -> 60 - height n < 4 * Z.of_nat fuel ->
  exists q m, climb_top fuel h p id = Some q /\ h !! q = Some m /\ (covers m id /\ 0 < height m \/ parent m = None /\ ~ covers m id).
Proof.
  revert p n. induction fuel as [|fuel IH]; intros p n Hp Hn Hf; [pose proof (layer_height p n Hp); lia|].
  cbn [climb_top]. rewrite Hp. cbn. destruct (parent n) as [q|] eqn:Eq; [|by exists p, n; auto].
  destruct (tk_up _ Hok p n q Hp Eq) as (m & i & Hq & Hi). rewrite Hq. cbn. destruct (tk_down _ Hok q m i p Hq Hi) as (n' & Hn' & _ & [Hh _]).
  rewrite Hp in Hn'. apply (inj Some) in Hn' as <-. pose proof (layer_height p n Hp). pose proof (covers_test m id ltac:(lia)) as Ht.
  destruct (_ =? _) eqn:Ec.
  - exists q, m. split; [done|]. split; [done|]. left. split; [by apply Ht|lia].
  - apply (IH q m Hq); [intros Hc; apply Ht in Hc; congruence|lia].
Qed.

Lemma climb_spec fuel p n id : h !! p = Some n -> ~ covers n id -> 60 - height n < 4 * Z.of_nat fuel ->
  exists r, climb fuel h p id = Some r /\ match r with
    | Some q => exists m, h !! q = Some m /\ covers m id
    | None => forall a m, h !! a = Some m -> ~ covers m id
    end.
Proof.
  revert p n. induction fuel as [|fuel IH]; intros p n Hp Hn Hf; [pose proof (layer_height p n Hp); lia|].
  cbn [climb]. rewrite Hp. cbn. destruct (parent n) as [q|] eqn:Eq; [|exists None; split; [done|by apply (top_covers_all id p n)]].
  destruct (tk_up _ Hok p n q Hp Eq) as (m & i & Hq & Hi). rewrite Hq. cbn. destruct (tk_down _ Hok q m i p Hq Hi) as (n' & Hn' & _ & [Hh _]).
  rewrite Hp in Hn'. apply (inj Some) in Hn' as <-. pose proof (layer_height p n Hp). pose proof (covers_test m id ltac:(lia)) as Ht.
  destruct (_ =? _) eqn:Ec.
  - exists (Some q). split; [done|]. exists m. split; [done|]. by apply Ht.
  - apply (IH q m Hq); [intros Hc; apply Ht in Hc; congruence|lia].
Qed.

Lemma descend_leaf_spec fuel p n id : h !! p = Some n -> covers n id -> height n < 4 * Z.of_nat fuel ->
  exists r, descend_leaf fuel h p id = Some r /\ match r with
    | Some l => exists m, h !! l = Some m /\ height m = 0 /\ covers m id
    | None => forall a m, h !! a = Some m -> height m = 0 -> ~ covers m id
    end.
Proof.
  revert p n. induction fuel as [|fuel IH]; intros p n Hp Hc Hf; [pose proof (layer_height p n Hp); lia|].
  cbn [descend_leaf]. rewrite Hp. cbn. pose proof (layer_height p n Hp) as Hh. destruct (Z.eqb_spec (height n) 0) as [E0|E0]; [by exists (Some p); split; [done|exists n]|].
  destruct (child_slots n (tk_layer _ Hok p n Hp) ltac:(lia)) as (l & -> & Hl & Hch). cbn.
  destruct (lookup_lt_is_Some_2 l (__sync_branch_idx n id)) as [c Hlc]; [rewrite Hl; apply branch_idx_lt; lia|]. rewrite Hlc. cbn.
  assert (child_of n (__sync_branch_idx n id) = c) as Hcn by (by rewrite Hch, Hlc).
  assert (forall a m, h !! a = Some m -> height m = 0 -> covers m id -> exists q, c = Some q /\ rtc (down id) q a) as Hway.
  { intros a m Ha H0 Hca. pose proof (path_to_leaf id p n a m Hp Hc Ha Hca H0) as Hr. inversion Hr as [|? x ? Hx Hxa]; subst; [congruence|].
    destruct Hx as (n' & Hn' & Hx). rewrite Hp in Hn'. apply (inj Some) in Hn' as <-. exists x. by split; [congruence|]. }
  destruct c as [q|]; [|exists None; split; [done|]; intros a m Ha H0 Hca; by destruct (Hway a m Ha H0 Hca) as (? & ? & _)].
  destruct (tk_down _ Hok p n _ q Hp Hcn) as (w & Hq & _ & [Hhw _]). rewrite Hq. cbn. pose proof (layer_height q w Hq). pose proof (covers_test w id ltac:(lia)) as Ht.
  destruct (_ =? _) eqn:Ec; [apply (IH q w Hq); [by apply Ht|lia]|].
  exists None. split; [done|]. intros a m Ha H0 Hca. destruct (Hway a m Ha H0 Hca) as (q' & [= <-] & Hr).
  pose proof (path_covers id q a w m Hr Hq Ha Hca) as Hcw. apply Ht in Hcw. congruence.
Qed.

End Tree.

(** ** Contents *)

(** The sequence number of an id. *)
Definition holds (h : heap) (id s : Z) : Prop :=
  exists a n l, h !! a = Some n /\ height n = 0 /\ covers n id /\ Z.testbit (bitmap n) (Z.of_nat (__sync_leaf_idx id)) = true /\
    slots n = Seqnos l /\ l !! __sync_leaf_idx id = Some s.

Definition root_ok (st : syncmap) : Prop :=
  match sm_root st with None => sm_heap st = ∅ | Some p => exists n, sm_heap st !! p = Some n /\ height n = 0 end.

Record sync_ok (m : gmap Z Z) (st : syncmap) : Prop := {
  sk_tree : tree_ok (sm_heap st);
  sk_root : root_ok st;
  sk_map id s : m !! id = Some s <-> holds (sm_heap st) id s
}.

Lemma leaf_covers n id : height n = 0 -> covers n id <-> __sync_leaf_prefix id = prefix n.
Proof. intros H. unfold covers. by rewrite H, leaf_prefix_div. Qed.

Lemma leaf_slots n : layer_ok n -> height n = 0 -> exists l, slots n = Seqnos l /\ length l = 16%nat.
Proof. intros [_ _ Hs _] H0. destruct (slots n) as [l|l]; [by exists l; destruct Hs|lia]. Qed.

(** What a lookup should find. *)
Definition later (m : gmap Z Z) (id seqno : Z) : bool := match m !! id with Some s => seqno_later s seqno | None => false end.

Lemma leaf_later_ok (m : gmap Z Z) h p n id seqno : tree_ok h -> (forall id s, m !! id = Some s <-> holds h id s) -> h !! p = Some n -> height n = 0 -> covers n id ->
  leaf_later h p id seqno = Some (later m id seqno).
Proof.
  intros Hok Hm Hp H0 Hc. unfold leaf_later, later. rewrite Hp. cbn. destruct (leaf_slots n (tk_layer _ Hok p n Hp) H0) as (l & Hs & Hl).
  destruct (lookup_lt_is_Some_2 l (__sync_leaf_idx id)) as [s Es]; [rewrite Hl; apply leaf_idx_lt|].
  destruct (Z.testbit (bitmap n) _) eqn:Eb; cbn [negb].
  - assert (m !! id = Some s) as -> by (apply Hm; exists p, n, l; by repeat (split; [done|])). unfold __sync_seqno. rewrite Hs. cbn. by rewrite Es.
  - destruct (m !! id) as [s'|] eqn:Em; [|done]. apply Hm in Em as (a & n' & l' & Ha & Ha0 & Hca & Hb & _).
    assert (a = p) as -> by (by eapply leaf_unique). congruence.
Qed.

Lemma absent_none (m : gmap Z Z) h id : (forall id s, m !! id = Some s <-> holds h id s) -> (forall a n, h !! a = Some n -> height n = 0 -> ~ covers n id) -> m !! id = None.
Proof. intros Hm Ha. destruct (m !! id) eqn:E; [|done]. apply Hm in E as (a & n & l & H1 & H2 & H3 & _). by destruct (Ha a n H1 H2). Qed.

(** ** Lookup is right *)

Lemma is_later_ok m st id seqno : sync_ok m st -> exists st', i915_syncmap_is_later id seqno st = Some (later m id seqno, st') /\ sync_ok m st' /\ sm_heap st' = sm_heap st.
Proof.
  intros [Hok Hr Hm]. unfold i915_syncmap_is_later, root_ok in *. destruct (sm_root st) as [p|] eqn:Er.
  2:{ exists st. assert (m !! id = None) as E by (apply (absent_none m (sm_heap st)); [done|]; rewrite Hr; intros a n Ha; by rewrite lookup_empty in Ha).
      unfold later. rewrite E. split; [done|]. split; [|done]. split; [done|by unfold root_ok; rewrite Er|done]. }
  destruct Hr as (n & Hp & H0). rewrite Hp, bind_some. pose proof (leaf_covers n id H0) as Hc.
  assert (sync_ok m st) as Hst by (split; [done|unfold root_ok; rewrite Er; by exists n|done]).
  destruct (Z.eqb_spec (__sync_leaf_prefix id) (prefix n)) as [E|E].
  { exists st. rewrite (leaf_later_ok m (sm_heap st) p n id seqno Hok Hm Hp H0 (proj2 Hc E)). done. }
  assert (~ covers n id) as Hnc by (intros H; by apply Hc in H).
  destruct (climb_spec _ Hok max_layers p n id Hp Hnc ltac:(unfold max_layers; lia)) as (r & -> & Hcl). rewrite bind_some. destruct r as [q|].
  2:{ exists st. unfold later. rewrite (absent_none m (sm_heap st)); [done|done|]. intros a w Ha _. by apply (Hcl a). }
  destruct Hcl as (w & Hq & Hcw). destruct (descend_leaf_spec _ Hok max_layers q w id Hq Hcw) as (r & -> & Hd).
  { pose proof (layer_height _ Hok q w Hq). unfold max_layers. lia. }
  rewrite bind_some. destruct r as [l|]; [|exists st; unfold later; by rewrite (absent_none m (sm_heap st))].
  destruct Hd as (v & Hl & Hv0 & Hcv). rewrite (leaf_later_ok m _ l v) by done. rewrite bind_some. eexists. split; [done|]. split; [|done].
  split; [done|by exists v|done].
Qed.

(** ** Storing a number in a leaf *)

Lemma testbit_BIT i j : Z.testbit (BIT i) (Z.of_nat j) = (i =? j)%nat.
Proof.
  unfold BIT. rewrite Z.shiftl_1_l. destruct (Nat.eqb_spec i j) as [->|]; [apply Z.pow2_bits_true; lia|apply Z.pow2_bits_false; lia].
Qed.

Lemma replace_leaf h p n n' : tree_ok h -> h !! p = Some n -> height n = 0 -> height n' = 0 -> prefix n' = prefix n -> parent n' = parent n ->
  (exists l, slots n' = Seqnos l /\ length l = 16%nat) -> tree_ok (<[p := n']> h).
Proof.
  intros Hok Hp H0 H0' Epre Epar (l & Es & El). pose proof (tk_layer _ Hok p n Hp) as Hn.
  assert (forall i, child_of n' i = None) as Hno by (intros i; unfold child_of; by rewrite Es).
  assert (forall i, child_of n i = None) as Hno0 by (intros i; destruct (child_of n i) eqn:E; [|done]; destruct (child_lt n i _ Hn E); lia).
  split.
  - intros a m Ha. destruct (decide (a = p)) as [->|Hne]; [|rewrite lookup_insert_ne in Ha by done; by apply (tk_layer _ Hok a)].
    rewrite lookup_insert_eq in Ha. apply (inj Some) in Ha as <-. destruct Hn as [Hh Hpr _ _]. rewrite H0 in Hh, Hpr.
    split; rewrite ?H0', ?Epre; [done|done|by rewrite Es|lia].
  - intros a m i c Ha Hc. destruct (decide (a = p)) as [->|Hne]; [rewrite lookup_insert_eq in Ha; apply (inj Some) in Ha as <-; by rewrite Hno in Hc|].
    rewrite lookup_insert_ne in Ha by done. destruct (tk_down _ Hok a m i c Ha Hc) as (w & Hw & Hpw & Hu). destruct (decide (c = p)) as [->|Hnc].
    + rewrite Hp in Hw. apply (inj Some) in Hw as <-. exists n'. rewrite lookup_insert_eq. split; [done|]. split; [congruence|].
      unfold under in *. by rewrite H0', Epre, <- H0.
    + exists w. by rewrite lookup_insert_ne.
  - intros a m b Ha Hpa. assert (exists m0, h !! a = Some m0 /\ parent m0 = Some b) as (m0 & Ha0 & Hpa0).
    { destruct (decide (a = p)) as [->|Hne]; [rewrite lookup_insert_eq in Ha; apply (inj Some) in Ha as <-; exists n; by rewrite <- Epar|].
      rewrite lookup_insert_ne in Ha by done. by exists m. }
    destruct (tk_up _ Hok a m0 b Ha0 Hpa0) as (w & i & Hw & Hi). exists w, i. split; [|done]. rewrite lookup_insert_ne; [done|]. intros <-. congruence.
  - intros a b m w Ha Hb Hpa Hpb.
    assert (forall x y, <[p := n']> h !! x = Some y -> parent y = None -> exists z, h !! x = Some z /\ parent z = None) as Hx.
    { intros x y Hx Hy. destruct (decide (x = p)) as [->|Hne]; [rewrite lookup_insert_eq in Hx; apply (inj Some) in Hx as <-; exists n; by rewrite <- Epar|].
      rewrite lookup_insert_ne in Hx by done. by exists y. }
    destruct (Hx a m Ha Hpa) as (? & ? & ?), (Hx b w Hb Hpb) as (? & ? & ?). by eapply tk_top.
Qed.

Lemma set_seqno_ok (m : gmap Z Z) h p n id s : tree_ok h -> (forall id s, m !! id = Some s <-> holds h id s) -> h !! p = Some n -> height n = 0 -> covers n id ->
  exists h', __sync_set_seqno id s p h = Some h' /\ sync_ok (<[id := s]> m) {| sm_heap := h'; sm_root := Some p |}.
Proof.
  intros Hok Hm Hp H0 Hc. unfold __sync_set_seqno. rewrite Hp, bind_some. destruct (leaf_slots n (tk_layer _ Hok p n Hp) H0) as (l & Hs & Hl).
  unfold __sync_seqno. rewrite Hs, bind_some. destruct (lookup_lt_is_Some_2 l (__sync_leaf_idx id)) as [s0 Es0]; [rewrite Hl; apply leaf_idx_lt|]. rewrite Es0, bind_some.
  set (n' := set_slots _ _ n). eexists. split; [done|]. cbn [sm_heap sm_root].
  assert (tree_ok (<[p := n']> h)) as Hok' by (apply (replace_leaf h p n n'); auto; eexists; split; [done|by rewrite length_insert]).
  split; cbn [sm_heap]; [done|unfold root_ok; cbn [sm_root sm_heap]; exists n'; by rewrite lookup_insert_eq|].
  assert (forall id', covers n' id' <-> covers n id') as Hcc by done.
  intros id' s'. split.
  - destruct (decide (id' = id)) as [->|Hne].
    + rewrite lookup_insert_eq. intros [= <-]. exists p, n', (<[__sync_leaf_idx id := s]> l). rewrite lookup_insert_eq. repeat (split; [done|]). split; [|split; [done|]].
      * cbn. by rewrite Z.lor_spec, testbit_BIT, Nat.eqb_refl, orb_true_r.
      * apply list_lookup_insert_eq. rewrite Hl. apply leaf_idx_lt.
    + rewrite lookup_insert_ne by done. intros (a & w & l' & Ha & Ha0 & Hca & Hb & Hs' & Hl')%Hm. destruct (decide (a = p)) as [->|Hna].
      * rewrite Hp in Ha. apply (inj Some) in Ha as <-. rewrite Hs in Hs'. injection Hs' as <-. exists p, n', (<[__sync_leaf_idx id := s]> l). rewrite lookup_insert_eq.
        repeat (split; [done|]). split; [cbn; by rewrite Z.lor_spec, Hb|]. split; [done|]. rewrite list_lookup_insert_ne; [done|].
        intros E. apply Hne, leaf_split; [|done]. apply (leaf_covers n) in Hca, Hc; [congruence|done..].
      * exists a, w, l'. rewrite lookup_insert_ne by done. by repeat (split; [done|]).
  - intros (a & w & l' & Ha & Ha0 & Hca & Hb & Hs' & Hl'). destruct (decide (a = p)) as [->|Hna].
    + rewrite lookup_insert_eq in Ha. apply (inj Some) in Ha as <-. injection Hs' as <-. destruct (decide (id' = id)) as [->|Hne].
      * rewrite list_lookup_insert_eq in Hl' by (rewrite Hl; apply leaf_idx_lt). rewrite lookup_insert_eq. done.
      * rewrite lookup_insert_ne by done. apply Hm. assert (__sync_leaf_idx id <> __sync_leaf_idx id') as Hi.
        { intros E. apply Hne, leaf_split; [|done]. apply (leaf_covers n) in Hca, Hc; [congruence|done..]. }
        rewrite list_lookup_insert_ne in Hl' by done. exists p, n, l. repeat (split; [done|]). split; [|done].
        cbn in Hb. rewrite Z.lor_spec, testbit_BIT in Hb. destruct (Nat.eqb_spec (__sync_leaf_idx id) (__sync_leaf_idx id')); [done|]. by rewrite orb_false_r in Hb.
    + rewrite lookup_insert_ne in Ha by done. destruct (decide (id' = id)) as [->|Hne].
      * destruct Hna. symmetry. by apply (leaf_unique h Hok id p n a w).
      * rewrite lookup_insert_ne by done. apply Hm. exists a, w, l'. by repeat (split; [done|]).
Qed.

(** ** New layers *)

(** The same leaf but for its parent. *)
Definition alike (n n' : i915_syncmap) : Prop := height n' = height n /\ prefix n' = prefix n /\ bitmap n' = bitmap n /\ slots n' = slots n.

(** All leaves of [h] are in [h'], and other leaves of [h'] are empty. *)
Record same_leaves (h h' : heap) : Prop := {
  sl_kept x n : h !! x = Some n -> height n = 0 -> exists n', h' !! x = Some n' /\ alike n n';
  sl_new x n' : h' !! x = Some n' -> height n' = 0 -> bitmap n' = 0 \/ exists n, h !! x = Some n /\ alike n n'
}.

Lemma same_leaves_refl h : same_leaves h h.
Proof. split; intros x n H _; [|right]; exists n; by repeat split. Qed.

Lemma same_leaves_trans h1 h2 h3 : same_leaves h1 h2 -> same_leaves h2 h3 -> same_leaves h1 h3.
Proof.
  intros [K1 N1] [K2 N2]. split.
  - intros x n Hx H0. destruct (K1 x n Hx H0) as (n2 & Hx2 & E1 & E2 & E3 & E4). destruct (K2 x n2 Hx2 ltac:(congruence)) as (n3 & Hx3 & F1 & F2 & F3 & F4).
    exists n3. unfold alike. repeat split; congruence.
  - intros x n3 Hx H0. destruct (N2 x n3 Hx H0) as [E|(n2 & Hx2 & F1 & F2 & F3 & F4)]; [by left|].
    destruct (N1 x n2 Hx2 ltac:(congruence)) as [E|(n & Hx1 & E1 & E2 & E3 & E4)]; [left; congruence|]. right. exists n. unfold alike. repeat split; congruence.
Qed.

Lemma same_leaves_holds h h' : same_leaves h h' -> forall id s, holds h' id s <-> holds h id s.
Proof.
  intros [K N] id s. split.
  - intros (a & n' & l & Ha & H0 & Hc & Hb & Hs & Hl). destruct (N a n' Ha H0) as [E|(n & Hn & E1 & E2 & E3 & E4)]; [by rewrite E, Z.bits_0 in Hb|].
    exists a, n, l. unfold covers in *. rewrite <- E1, <- E2, <- E3, <- E4. by repeat (split; [done|]).
  - intros (a & n & l & Ha & H0 & Hc & Hb & Hs & Hl). destruct (K a n Ha H0) as (n' & Hn & E1 & E2 & E3 & E4).
    exists a, n', l. unfold covers in *. rewrite E1, E2, E3, E4. by repeat (split; [done|]).
Qed.

Lemma child_insert n l b i c j : __sync_child n = Some l -> length l = 16%nat -> (i < 16)%nat ->
  child_of (set_slots b (Children (<[i := Some c]> l)) n) j = if decide (j = i) then Some c else child_of n j.
Proof.
  intros Hl Hlen Hi. unfold child_of, __sync_child in *. cbn [slots set_slots]. destruct (slots n) as [|l0]; [done|]. injection Hl as ->.
  destruct (decide (j = i)) as [->|Hne]; [by rewrite list_lookup_insert_eq by lia|by rewrite list_lookup_insert_ne].
Qed.

(** A layer with a child in slot [i]. *)
Lemma child_layer_ok n l b i c : layer_ok n -> __sync_child n = Some l -> length l = 16%nat -> (i < 16)%nat ->
  (forall j, Z.testbit b (Z.of_nat j) = Z.testbit (bitmap n) (Z.of_nat j) || (i =? j)%nat) -> layer_ok (set_slots b (Children (<[i := Some c]> l)) n).
Proof.
  intros [Hh Hp Hs Hb] Hl Hlen Hi Hbits. split; cbn [height prefix slots bitmap set_slots]; [done|done| |].
  - unfold __sync_child in Hl. destruct (slots n) as [|l0]; [done|]. rewrite length_insert. by destruct Hs.
  - intros j Hj H0. rewrite (child_insert n l b i c j Hl Hlen Hi), Hbits. destruct (decide (j = i)) as [->|Hne].
    + rewrite Nat.eqb_refl, orb_true_r. split; [by eexists|done].
    + destruct (Nat.eqb_spec i j); [congruence|]. rewrite orb_false_r. by apply Hb.
Qed.

Lemma more_bits b i j : Z.testbit (Z.lor b (BIT i)) (Z.of_nat j) = Z.testbit b (Z.of_nat j) || (i =? j)%nat.
Proof. by rewrite Z.lor_spec, testbit_BIT. Qed.

(** Memory [h'] is tree [h] with a new layer [a]: layers of [h'] are layers of [h] in which child pointers to [a] were added and parents may have become [a]. *)
Section NewLayer.
Context (h h' : heap) (Hok : tree_ok h) (a : nat) (new : i915_syncmap) (La : h' !! a = Some new).

(** The layer that was at an address before. *)
Definition was (w0 w : i915_syncmap) : Prop := height w = height w0 /\ prefix w = prefix w0 /\ forall j c, child_of w j = Some c -> c <> a -> child_of w0 j = Some c.

Context (Hold : forall x w, h' !! x = Some w -> x <> a -> exists w0, h !! x = Some w0 /\ was w0 w /\ (parent w = parent w0 \/ parent w = Some a)).

(** It remains to look at the new layer. *)
Lemma new_layer_ok :
  (forall x w, h' !! x = Some w -> layer_ok w) ->
  (forall i c, child_of new i = Some c -> exists m, h' !! c = Some m /\ parent m = Some a /\ under m new i) ->
  (forall x w i, h' !! x = Some w -> child_of w i = Some a -> x <> a -> parent new = Some x /\ under new w i) ->
  (forall x w, h' !! x = Some w -> parent w = Some a -> exists i, child_of new i = Some x) ->
  (forall b, parent new = Some b -> exists w i, h' !! b = Some w /\ child_of w i = Some a) ->
  (forall x w0 i c, h !! x = Some w0 -> child_of w0 i = Some c -> exists w m, h' !! x = Some w /\ h' !! c = Some m /\
    (child_of w i = Some c /\ parent m = Some x \/ child_of w i = Some a /\ parent m = Some a)) ->
  (parent new = None -> forall x w, h' !! x = Some w -> parent w = None -> x = a) ->
  tree_ok h'.
Proof.
  intros H1 H2 H3 H4 H5 H6 H7. split.
  - done.
  - intros x w i c Hx Hc. destruct (decide (x = a)) as [->|Hxa]; [rewrite La in Hx; apply (inj Some) in Hx as <-; by apply H2|].
    destruct (decide (c = a)) as [->|Hca]; [exists new; split; [done|]; by apply (H3 x w i)|].
    destruct (Hold x w Hx Hxa) as (w0 & Hx0 & (Eh & Ep & Ec) & _). specialize (Ec i c Hc Hca). destruct (H6 x w0 i c Hx0 Ec) as (w' & m & Hw' & Hm & Hcase).
    rewrite Hx in Hw'. apply (inj Some) in Hw' as <-. destruct Hcase as [[_ Hp]|[E _]]; [|congruence]. exists m. split; [done|]. split; [done|].
    destruct (tk_down _ Hok x w0 i c Hx0 Ec) as (m0 & Hm0 & _ & Hu). destruct (Hold c m Hm Hca) as (m1 & Hm1 & (Fh & Fp & _) & _).
    rewrite Hm0 in Hm1. apply (inj Some) in Hm1 as <-. unfold under in *. by rewrite Eh, Ep, Fh, Fp.
  - intros x w b Hx Hp. destruct (decide (x = a)) as [->|Hxa]; [rewrite La in Hx; apply (inj Some) in Hx as <-; by apply H5|].
    destruct (decide (b = a)) as [->|Hba]; [destruct (H4 x w Hx Hp) as [i Hi]; by exists new, i|].
    destruct (Hold x w Hx Hxa) as (w0 & Hx0 & _ & [E|E]); [|congruence]. rewrite E in Hp. destruct (tk_up _ Hok x w0 b Hx0 Hp) as (m0 & i & Hb & Hi).
    destruct (H6 b m0 i x Hb Hi) as (m & w' & Hm & Hw' & Hcase). rewrite Hx in Hw'. apply (inj Some) in Hw' as <-.
    destruct Hcase as [[Hc _]|[_ Hpa]]; [by exists m, i|congruence].
  - intros x y w w' Hx Hy Hw Hw'. destruct (parent new) as [b|] eqn:En; [|by rewrite (H7 eq_refl x w Hx Hw), (H7 eq_refl y w' Hy Hw')].
    assert (forall z u, h' !! z = Some u -> parent u = None -> exists u0, h !! z = Some u0 /\ parent u0 = None) as Hz.
    { intros z u Hz Hu. assert (z <> a) as Hza by congruence. destruct (Hold z u Hz Hza) as (u0 & Hz0 & _ & [E|E]); [|congruence]. exists u0. by rewrite <- E. }
    destruct (Hz x w Hx Hw) as (? & ? & ?), (Hz y w' Hy Hw') as (? & ? & ?). by eapply tk_top.
Qed.

End NewLayer.

Lemma fresh_child h a x w i : tree_ok h -> h !! a = None -> h !! x = Some w -> child_of w i = Some a -> False.
Proof. intros Hok Ha Hx Hc. destruct (tk_down _ Hok x w i a Hx Hc) as (m & Hm & _). congruence. Qed.

Lemma fresh_parent h a x w : tree_ok h -> h !! a = None -> h !! x = Some w -> parent w = Some a -> False.
Proof. intros Hok Ha Hx Hp. destruct (tk_up _ Hok x w a Hx Hp) as (m & i & Hm & _). congruence. Qed.

(** *** A leaf below a layer that covers its id *)

Section AddLeaf.
Context (h : heap) (Hok : tree_ok h) (p : nat) (n : i915_syncmap) (Hp : h !! p = Some n) (id : Z) (Hid : 0 <= id < 2 ^ 64) (Hc : covers n id) (Hh : 0 < height n).
Context (Hno : child_of n (__sync_branch_idx n id) = None) (a : nat) (Ha : h !! a = None) (junk : list Z) (Hj : length junk = 16%nat).

Let leaf := {| prefix := __sync_leaf_prefix id; height := 0; bitmap := 0; parent := Some p; slots := Seqnos junk |}.

Lemma leaf_layer_ok par : layer_ok {| prefix := __sync_leaf_prefix id; height := 0; bitmap := 0; parent := par; slots := Seqnos junk |}.
Proof.
  split; cbn [height prefix slots]; [by split| |done|lia]. rewrite leaf_prefix_div. split; [apply Z.div_pos; lia|]. apply Z.div_lt_upper_bound; lia.
Qed.

Lemma add_leaf_ok : exists h', __sync_set_child p (__sync_branch_idx n id) a (<[a := leaf]> h) = Some h' /\ tree_ok h' /\ h' !! a = Some leaf /\ same_leaves h h'.
Proof.
  assert (a <> p) as Hap by congruence. pose proof (tk_layer _ Hok p n Hp) as Hn. set (i := __sync_branch_idx n id) in *. assert (i < 16)%nat as Hi by (apply branch_idx_lt; lia).
  destruct (child_slots n Hn Hh) as (l & El & Hl & Hch). unfold __sync_set_child. rewrite lookup_insert_ne, Hp, bind_some, El, bind_some by done.
  destruct (lookup_lt_is_Some_2 l i) as [c0 Hc0]; [by rewrite Hl|]. rewrite Hc0, bind_some. set (b := Z.lor (bitmap n) (BIT i)).
  pose proof (fun j => child_insert n l b i a j El Hl Hi) as Hci. pose proof (child_layer_ok n l b i a Hn El Hl Hi (more_bits _ _)) as Hn'.
  set (n' := set_slots b _ n) in *. eexists. split; [done|]. set (h' := <[p := n']> _).
  assert (h' !! a = Some leaf) as La by (subst h'; rewrite lookup_insert_ne, lookup_insert_eq by done; done).
  assert (h' !! p = Some n') as Lp by apply lookup_insert_eq.
  assert (forall x, x <> a -> x <> p -> h' !! x = h !! x) as Lx by (intros x ? ?; subst h'; by rewrite !lookup_insert_ne).
  clearbody h'. assert (forall x w, h' !! x = Some w -> x = a /\ w = leaf \/ x = p /\ w = n' \/ x <> a /\ x <> p /\ h !! x = Some w) as Hcase.
  { intros x w Hx. destruct (decide (x = a)) as [->|]; [left; split; [done|congruence]|]. destruct (decide (x = p)) as [->|]; [right; left; split; [done|congruence]|].
    right; right. by rewrite <- Lx. }
  split; [|split; [done|]].
  - apply (new_layer_ok h h' Hok a leaf La).
    + intros x w Hx Hxa. destruct (Hcase x w Hx) as [[? _]|[[-> ->]|(_ & _ & Hx0)]]; [done| |exists w; by repeat split; auto].
      exists n. split; [done|]. split; [|by left]. split; [done|]. split; [done|]. intros j c Hcj Hca. rewrite Hci in Hcj. by destruct (decide (j = i)); simplify_eq.
    + intros x w Hx. destruct (Hcase x w Hx) as [[_ ->]|[[_ ->]|(_ & _ & Hx0)]]; [apply leaf_layer_ok|done|by apply (tk_layer _ Hok x)].
    + done.
    + intros x w j Hx Hcw Hxa. destruct (Hcase x w Hx) as [[? _]|[[-> ->]|(_ & _ & Hx0)]]; [done| |by destruct (fresh_child h a x w j Hok Ha Hx0 Hcw)].
      split; [done|]. rewrite Hci in Hcw. destruct (decide (j = i)) as [->|]; [|by destruct (fresh_child h a p n j Hok Ha Hp Hcw)].
      destruct (lo_height _ Hn) as [_ H4]. pose proof (Z.div_mod (height n) 4). apply (covers_under leaf n id); [done|cbn; lia|by apply leaf_covers|done|lia].
    + intros x w Hx Hpw. destruct (Hcase x w Hx) as [[_ ->]|[[_ ->]|(_ & _ & Hx0)]]; [cbn in Hpw; congruence|by destruct (fresh_parent h a p n Hok Ha Hp)|by destruct (fresh_parent h a x w Hok Ha Hx0)].
    + intros b' [= <-]. exists n', i. split; [done|]. by rewrite Hci, decide_True.
    + intros x w0 j c Hx0 Hcj. destruct (tk_down _ Hok x w0 j c Hx0 Hcj) as (m & Hm & Hpm & _).
      assert (exists m', h' !! c = Some m' /\ parent m' = parent m) as (m' & Hm' & Em).
      { destruct (decide (c = p)) as [->|Hcp]; [exists n'; split; [done|]; rewrite Hp in Hm; by simplify_eq|exists m; by rewrite Lx by congruence]. }
      destruct (decide (x = p)) as [->|Hxp]; [|exists w0, m'; rewrite Lx by congruence; repeat split; auto; left; by split; [|congruence]].
      exists n', m'. rewrite Hp in Hx0. simplify_eq. repeat split; auto. left. split; [|congruence]. rewrite Hci, decide_False; [done|congruence].
    + done.
  - split.
    + intros x w Hx H0. exists w. split; [|by repeat split]. rewrite Lx; [done|congruence|]. intros ->. rewrite Hp in Hx. simplify_eq. lia.
    + intros x w Hx H0. destruct (Hcase x w Hx) as [[_ ->]|[[_ ->]|(_ & _ & Hx0)]]; [by left|cbn in H0; lia|right; exists w; by repeat split].
Qed.

End AddLeaf.

(** A child's slot is determined by its prefix. *)
Lemma slot_unique h x m i j c : tree_ok h -> h !! x = Some m -> child_of m i = Some c -> child_of m j = Some c -> i = j.
Proof.
  intros Hok Hx Hi Hj. destruct (tk_down _ Hok x m i c Hx Hi) as (w & Hw & _ & [_ U1]). destruct (tk_down _ Hok x m j c Hx Hj) as (w' & Hw' & _ & [_ U2]). simplify_eq. lia.
Qed.

(** *** A join above a layer that does not cover the id *)

Section Join.
Context (h : heap) (Hok : tree_ok h) (p : nat) (n : i915_syncmap) (Hp : h !! p = Some n) (id : Z) (Hid : 0 <= id < 2 ^ 64) (Hnc : ~ covers n id).
Context (a : nat) (Ha : h !! a = None).
Context (Hpar : forall b, parent n = Some b -> exists m, h !! b = Some m /\ covers m id /\ child_of m (__sync_branch_idx m id) = Some p).

Let above := parting (id / 2 ^ (height n + 4)) (prefix n).
Let slot := Z.to_nat (Z.land (Z.shiftr (prefix n) (above - SHIFT)) MASK).
Let next := {| prefix := id / 2 ^ (above + height n + 4); height := above + height n; bitmap := BIT slot; parent := parent n;
               slots := Children (<[slot := Some p]> (replicate KSYNCMAP None)) |}.

Lemma join_n : layer_ok n /\ 0 <= height n <= 60 /\ height n mod 4 = 0 /\ 0 <= id / 2 ^ (height n + 4) < 2 ^ (60 - height n).
Proof.
  pose proof (tk_layer _ Hok p n Hp) as Hn. destruct (lo_height _ Hn) as [Hh H4].
  split; [done|]. split; [lia|]. split; [done|]. split; [apply Z.div_pos; lia|].
  apply Z.div_lt_upper_bound; [lia|]. rewrite <- Z.pow_add_r by lia. replace (height n + 4 + (60 - height n)) with 64 by lia. lia.
Qed.

Lemma join_parting : 4 <= above /\ above mod 4 = 0 /\ above + height n <= 60 /\
  id / 2 ^ (above + height n + 4) = prefix n / 2 ^ above /\ (id / 2 ^ (above + height n)) mod 16 <> (prefix n / 2 ^ (above - 4)) mod 16 /\
  forall d, 0 <= d -> d mod 4 = 0 -> id / 2 ^ (height n + 4 + d) = prefix n / 2 ^ d -> above <= d.
Proof.
  destruct join_n as (Hn & Hh & H4 & Hx). pose proof (lo_prefix _ Hn) as Hq.
  assert (forall d, 0 <= d -> id / 2 ^ (height n + 4 + d) = id / 2 ^ (height n + 4) / 2 ^ d) as Hd.
  { intros d Hd. rewrite Z.div_div by (try apply Z.pow_nonzero; try apply Z.pow_pos_nonneg; lia). by rewrite <- Z.pow_add_r by lia. }
  destruct (parting_spec (id / 2 ^ (height n + 4)) (prefix n) ltac:(lia) ltac:(lia)) as (P1 & P2 & P3 & P4 & P5); [exact Hnc|]. fold above in P1, P2, P3, P4, P5.
  split; [done|]. split; [done|]. split.
  - enough (above <= 60 - height n) by lia. apply P5; [lia| |].
    + pose proof (Z.div_mod (height n) 4). replace (60 - height n) with ((15 - height n / 4) * 4) by lia. by apply Z.mod_mul.
    + rewrite !Z.div_small by lia. done.
  - split; [rewrite <- P3, <- Hd by lia; do 2 f_equal; lia|]. split; [|intros d H0 Hd4 E; apply P5; [done..|]; by rewrite <- Hd].
    rewrite <- Hd in P4 by lia. by replace (height n + 4 + (above - 4)) with (above + height n) in P4 by lia.
Qed.

Lemma slot_mod : Z.of_nat slot = (prefix n / 2 ^ (above - 4)) mod 16 /\ (slot < 16)%nat.
Proof.
  destruct join_parting as (P1 & _). subst slot. rewrite land_mask. unfold SHIFT. rewrite Z.shiftr_div_pow2 by lia. pose proof (Z.mod_pos_bound (prefix n / 2 ^ (above - 4)) 16). lia.
Qed.

Lemma next_child j : child_of next j = if decide (j = slot) then Some p else None.
Proof.
  destruct slot_mod as [_ Hs]. unfold child_of. cbn [slots next]. destruct (decide (j = slot)) as [->|Hne].
  - by rewrite list_lookup_insert_eq by (by rewrite length_replicate).
  - rewrite list_lookup_insert_ne by done. destruct (_ !! j) as [o|] eqn:E; [|done]. by apply lookup_replicate in E as [-> _].
Qed.

Lemma next_layer_ok : layer_ok next.
Proof.
  destruct join_n as (Hn & Hh & H4 & _). destruct join_parting as (P1 & P2 & P3 & _). destruct slot_mod as [_ Hs]. split; cbn [height prefix slots bitmap next].
  - split; [lia|]. rewrite Z.add_mod, P2, H4 by lia. done.
  - split; [apply Z.div_pos; lia|]. apply Z.div_lt_upper_bound; [lia|]. rewrite <- Z.pow_add_r by lia. replace (above + height n + 4 + (60 - (above + height n))) with 64 by lia. lia.
  - split; [lia|]. by rewrite length_insert, length_replicate.
  - intros i Hi _. rewrite testbit_BIT, next_child. destruct (Nat.eqb_spec slot i) as [<-|Hne]; [by rewrite decide_True; [split; [by eexists|]|]|].
    rewrite decide_False by congruence. split; [done|by intros [? ?]].
Qed.

Lemma next_covers : covers next id /\ child_of next (__sync_branch_idx next id) = None.
Proof.
  split; [done|]. rewrite next_child, decide_False; [done|]. intros E. destruct join_n as (_ & Hh & _). destruct join_parting as (P1 & _ & _ & _ & P5 & _). destruct slot_mod as [Hs _].
  apply P5. rewrite <- Hs, <- E. symmetry. apply branch_idx_mod. cbn. lia.
Qed.

(** The old layer is below the join, and the join below the old parent. *)
Lemma under_next : under n next slot.
Proof.
  destruct join_parting as (P1 & _ & _ & P4 & _). destruct slot_mod as [Hs _]. split; cbn [height prefix next]; [lia|].
  rewrite P4, Hs. replace (above + height n - height n - 4) with (above - 4) by lia.
  assert (prefix n / 2 ^ above = prefix n / 2 ^ (above - 4) / 16) as ->.
  { change 16 with (2 ^ 4). rewrite Z.div_div by (try apply Z.pow_nonzero; lia). rewrite <- Z.pow_add_r by lia. do 2 f_equal. lia. }
  pose proof (Z.div_mod (prefix n / 2 ^ (above - 4)) 16). lia.
Qed.

Lemma next_under b m : h !! b = Some m -> covers m id -> child_of m (__sync_branch_idx m id) = Some p -> under next m (__sync_branch_idx m id).
Proof.
  intros Hb Hcm Hch. destruct join_n as (_ & Hh & H4 & _). destruct join_parting as (P1 & P2 & _ & _ & _ & P6).
  destruct (tk_down _ Hok b m _ p Hb Hch) as (n' & Hn' & _ & [Hle Hu]). rewrite Hp in Hn'. apply (inj Some) in Hn' as <-.
  destruct (lo_height _ (tk_layer _ Hok b m Hb)) as [Hhm Hm4].
  apply covers_under; cbn [height next]; [lia| |done|done|lia]. enough (above <= height m - height n - 4) by lia. apply P6; [lia| |].
  - pose proof (Z.div_mod (height n) 4). pose proof (Z.div_mod (height m) 4). replace (height m - height n - 4) with ((height m / 4 - height n / 4 - 1) * 4) by lia. by apply Z.mod_mul.
  - rewrite Hu. replace (height n + 4 + (height m - height n - 4)) with (height m) by lia. unfold covers in Hcm. rewrite branch_idx_mod, <- Hcm by lia.
    rewrite Z.pow_add_r, <- Z.div_div by (try apply Z.pow_nonzero; lia). change (2 ^ 4) with 16. pose proof (Z.div_mod (id / 2 ^ height m) 16). lia.
Qed.

(** Memory with the join. *)
Definition joined (h' : heap) : Prop :=
  h' !! a = Some next /\ h' !! p = Some (set_parent (Some a) n) /\
  (forall b m l, parent n = Some b -> h !! b = Some m -> __sync_child m = Some l ->
    h' !! b = Some (set_slots (bitmap m) (Children (<[__sync_branch_idx m id := Some a]> l)) m)) /\
  (forall x, x <> a -> x <> p -> parent n <> Some x -> h' !! x = h !! x).

Lemma parent_other b m : h !! b = Some m -> child_of m (__sync_branch_idx m id) = Some p -> b <> p /\ b <> a.
Proof.
  intros Hb Hch. split; [|congruence]. intros ->. destruct (tk_down _ Hok p m _ p Hb Hch) as (m' & Hm' & _ & [Hle _]). rewrite Hb in Hm'. simplify_eq. lia.
Qed.

Lemma insert_join_joined : exists h', insert_join a p id h = Some h' /\ joined h'.
Proof.
  assert (a <> p) as Hap by congruence. destruct join_n as (Hn & Hh & _). destruct slot_mod as [_ Hs]. pose proof join_parting as (P1 & _).
  unfold insert_join. rewrite Hp, bind_some. rewrite branch_prefix_div by lia. fold (parting (id / 2 ^ (height n + 4)) (prefix n)). fold above. cbv zeta.
  cbn [slots]. set (next0 := Build_i915_syncmap _ (above + height n) _ (parent n) _).
  assert (next = set_slots (Z.lor (bitmap next0) (BIT slot)) (Children (<[slot := Some p]> (replicate KSYNCMAP None))) next0) as Enext.
  { subst next next0. unfold set_slots. cbn [prefix height bitmap parent slots]. by rewrite branch_prefix_div by (cbn; lia). }
  assert (forall h1, h1 !! a = Some next0 -> h1 !! p = Some n -> (h2 ← __sync_set_child a slot p h1; n0 ← h2 !! p; Some (<[p := set_parent (Some a) n0]> h2)) =
    Some (<[p := set_parent (Some a) n]> (<[a := next]> h1))) as Htail.
  { intros h1 H1 H2. unfold __sync_set_child. rewrite H1, bind_some. cbn [__sync_child slots next0]. rewrite bind_some.
    rewrite (lookup_replicate_2 KSYNCMAP None slot Hs), bind_some, bind_some, lookup_insert_ne, H2, bind_some by done. by rewrite Enext. }
  assert ((exists b, parent n = Some b) \/ parent n = None) as [[b Epar]|Epar] by (destruct (parent n); eauto); rewrite Epar.
  - destruct (Hpar b Epar) as (m & Hb & Hcm & Hch). destruct (parent_other b m Hb Hch) as [Hbp Hba].
    rewrite lookup_insert_ne, Hb, bind_some by done. unfold put_child. rewrite lookup_insert_ne, Hb, bind_some by done.
    destruct (child_lt m _ p (tk_layer _ Hok b m Hb) Hch) as [Hi Hmh]. destruct (child_slots m (tk_layer _ Hok b m Hb) Hmh) as (l & El & Hl & _).
    rewrite El, bind_some. destruct (lookup_lt_is_Some_2 l (__sync_branch_idx m id)) as [c0 ->]; [by rewrite Hl|]. rewrite bind_some, bind_some. fold slot.
    rewrite Htail; [|rewrite lookup_insert_ne, lookup_insert_eq by done; done|rewrite !lookup_insert_ne by done; done].
    eexists. split; [done|]. split; [by rewrite lookup_insert_ne, lookup_insert_eq|]. split; [by rewrite lookup_insert_eq|]. split.
    + intros b' m' l' Epar' Hb' El'. assert (b' = b) as -> by congruence. rewrite Hb in Hb'. simplify_eq. rewrite !lookup_insert_ne, lookup_insert_eq by done. done.
    + intros x Hxa Hxp Hxb. rewrite !lookup_insert_ne by congruence. done.
  - rewrite bind_some. fold slot. rewrite Htail by (rewrite ?lookup_insert_eq, ?lookup_insert_ne by done; done). eexists. split; [done|].
    split; [by rewrite lookup_insert_ne, lookup_insert_eq|]. split; [by rewrite lookup_insert_eq|].
    split; [intros b m l E; congruence|]. intros x Hxa Hxp _. by rewrite !lookup_insert_ne.
Qed.

(** What a layer of the joined memory was. *)
Lemma joined_cases h' x w : joined h' -> h' !! x = Some w ->
  x = a /\ w = next \/ x = p /\ w = set_parent (Some a) n \/
  (exists m l, parent n = Some x /\ h !! x = Some m /\ covers m id /\ child_of m (__sync_branch_idx m id) = Some p /\ layer_ok m /\ __sync_child m = Some l /\ length l = 16%nat /\
    w = set_slots (bitmap m) (Children (<[__sync_branch_idx m id := Some a]> l)) m) \/
  x <> a /\ x <> p /\ parent n <> Some x /\ h !! x = Some w.
Proof.
  intros (Ja & Jp & Jb & Jx) Hx. destruct (decide (x = a)) as [->|Hxa]; [left; split; [done|congruence]|].
  destruct (decide (x = p)) as [->|Hxp]; [right; left; split; [done|congruence]|]. right; right. destruct (decide (parent n = Some x)) as [Ep|Ep].
  - left. destruct (Hpar x Ep) as (m & Hm & Hcm & Hch). pose proof (tk_layer _ Hok x m Hm) as Hlm. destruct (child_lt m _ p Hlm Hch) as [_ Hh].
    destruct (child_slots m Hlm Hh) as (l & El & Hl & _). exists m, l. rewrite (Jb x m l Ep Hm El) in Hx. by simplify_eq.
  - right. by rewrite <- Jx.
Qed.

Lemma parent_child m l j : layer_ok m -> child_of m (__sync_branch_idx m id) = Some p -> __sync_child m = Some l -> length l = 16%nat ->
  child_of (set_slots (bitmap m) (Children (<[__sync_branch_idx m id := Some a]> l)) m) j = if decide (j = __sync_branch_idx m id) then Some a else child_of m j.
Proof. intros Hm Hch El Hl. destruct (child_lt m _ p Hm Hch) as [Hi _]. by apply child_insert. Qed.

Lemma joined_old h' x w : joined h' -> h' !! x = Some w -> x <> a -> exists w0, h !! x = Some w0 /\ was a w0 w /\ (parent w = parent w0 \/ parent w = Some a).
Proof.
  intros J Hx Hxa. destruct (joined_cases h' x w J Hx) as [[? _]|[[-> ->]|[(m & l & _ & Hm & _ & Hch & Hlm & El & Hl & ->)|(_ & _ & _ & Hx0)]]]; [done| | |].
  - exists n. by repeat split; auto.
  - exists m. split; [done|]. split; [|by left]. split; [done|]. split; [done|]. intros j c Hj Hca. rewrite (parent_child m l j Hlm Hch El Hl) in Hj.
    by destruct (decide _); simplify_eq.
  - exists w. by repeat split; auto.
Qed.

Lemma joined_links h' : joined h' -> forall x w0 i c, h !! x = Some w0 -> child_of w0 i = Some c -> exists w m, h' !! x = Some w /\ h' !! c = Some m /\
    (child_of w i = Some c /\ parent m = Some x \/ child_of w i = Some a /\ parent m = Some a).
Proof.
  intros (Ja & Jp & Jb & Jx) x w0 i c Hx Hc. destruct (tk_down _ Hok x w0 i c Hx Hc) as (m0 & Hm0 & Hpm & _).
  assert (forall y u, h !! y = Some u -> y <> p -> exists u', h' !! y = Some u' /\ parent u' = parent u /\
    forall j d, child_of u j = Some d -> d <> p -> child_of u' j = Some d) as Hother.
  { intros y u Hy Hyp. destruct (decide (parent n = Some y)) as [Ep|Ep]; [|exists u; rewrite Jx by congruence; by auto].
    destruct (Hpar y Ep) as (m & Hm & _ & Hch). rewrite Hy in Hm. apply (inj Some) in Hm as ->. pose proof (tk_layer _ Hok y m Hy) as Hlm. destruct (child_lt m _ p Hlm Hch) as [_ Hh].
    destruct (child_slots m Hlm Hh) as (l & El & Hl & _). eexists. split; [by apply (Jb y m l)|]. split; [done|]. intros j d Hj Hd.
    rewrite (parent_child m l j Hlm Hch El Hl), decide_False; [done|]. congruence. }
  destruct (decide (c = p)) as [->|Hcp].
  - rewrite Hp in Hm0. apply (inj Some) in Hm0 as <-. destruct (Hpar x Hpm) as (m & Hm & _ & Hch). rewrite Hx in Hm. apply (inj Some) in Hm as ->. pose proof (tk_layer _ Hok x m Hx) as Hlm. destruct (child_lt m _ p Hlm Hch) as [_ Hh].
    destruct (child_slots m Hlm Hh) as (l & El & Hl & _). eexists _, _. split; [by apply (Jb x m l)|]. split; [done|]. right. split; [|done].
    rewrite (slot_unique h x m i _ p Hok Hx Hc Hch). by rewrite (parent_child m l _ Hlm Hch El Hl), decide_True.
  - destruct (Hother c m0 Hm0 Hcp) as (m' & Hm' & Em & _). destruct (decide (x = p)) as [->|Hxp].
    + rewrite Hp in Hx. apply (inj Some) in Hx as <-. eexists _, m'. split; [done|]. split; [done|]. left. split; [done|congruence].
    + destruct (Hother x w0 Hx Hxp) as (w' & Hw' & _ & Ec). exists w', m'. split; [done|]. split; [done|]. left. split; [by apply Ec|congruence].
Qed.

Lemma joined_leaves h' : joined h' -> same_leaves h h'.
Proof.
  intros J. pose proof J as (Ja & Jp & Jb & Jx). destruct join_n as (_ & Hh & _). pose proof join_parting as (P1 & _). split.
  - intros x w Hx H0. destruct (decide (x = p)) as [->|Hxp]; [rewrite Hp in Hx; apply (inj Some) in Hx as <-; by eexists; split; [exact Jp|repeat split]|]. exists w. split; [|by repeat split].
    rewrite Jx; [done|congruence|done|]. intros Ep. destruct (Hpar x Ep) as (m & Hm & _ & Hch). destruct (child_lt m _ p (tk_layer _ Hok x m Hm) Hch). rewrite Hx in Hm. apply (inj Some) in Hm as ->. lia.
  - intros x w Hx H0. destruct (joined_cases h' x w J Hx) as [[_ ->]|[[-> ->]|[(m & l & _ & Hm & _ & Hch & Hlm & _ & _ & ->)|(_ & _ & _ & Hx0)]]].
    + cbn in H0. lia.
    + right. exists n. by repeat split.
    + destruct (child_lt m _ p Hlm Hch). cbn in H0. lia.
    + right. exists w. by repeat split.
Qed.

Lemma joined_tree h' : joined h' -> tree_ok h'.
Proof.
  intros J. pose proof J as (Ja & Jp & Jb & Jx). apply (new_layer_ok h h' Hok a next Ja (fun x w => joined_old h' x w J)).
  - intros x w Hx. destruct (joined_cases h' x w J Hx) as [[_ ->]|[[_ ->]|[(m & l & _ & Hm & _ & Hch & Hlm & El & Hl & ->)|(_ & _ & _ & Hx0)]]].
    + apply next_layer_ok.
    + destruct (tk_layer _ Hok p n Hp). by split.
    + destruct (child_lt m _ p Hlm Hch) as [Hi Hh]. apply child_layer_ok; auto. intros j. destruct (Nat.eqb_spec (__sync_branch_idx m id) j) as [<-|]; [|by rewrite orb_false_r].
      rewrite orb_true_r. apply (lo_bitmap _ Hlm); [done|done|]. by eexists.
    + by apply (tk_layer _ Hok x).
  - intros i c Hc. rewrite next_child in Hc. destruct (decide (i = slot)) as [->|]; [|done]. apply (inj Some) in Hc as <-. exists (set_parent (Some a) n). split; [done|]. split; [done|]. apply under_next.
  - intros x w i Hx Hc Hxa. destruct (joined_cases h' x w J Hx) as [[? _]|[[-> ->]|[(m & l & Ep & Hm & Hcm & Hch & Hlm & El & Hl & ->)|(_ & _ & _ & Hx0)]]]; [done| | |].
    + by destruct (fresh_child h a p n i Hok Ha Hp Hc).
    + split; [done|]. rewrite (parent_child m l i Hlm Hch El Hl) in Hc. destruct (decide _) as [->|]; [|by destruct (fresh_child h a x m i Hok Ha Hm Hc)]. by apply (next_under x m).
    + by destruct (fresh_child h a x w i Hok Ha Hx0 Hc).
  - intros x w Hx Hpw. destruct (joined_cases h' x w J Hx) as [[_ ->]|[[-> ->]|[(m & l & _ & Hm & _ & _ & _ & _ & _ & ->)|(_ & _ & _ & Hx0)]]].
    + by destruct (fresh_parent h a p n Hok Ha Hp).
    + exists slot. by rewrite next_child, decide_True.
    + by destruct (fresh_parent h a x m Hok Ha Hm).
    + by destruct (fresh_parent h a x w Hok Ha Hx0).
  - intros b Hb. destruct (Hpar b Hb) as (m & Hm & _ & Hch). pose proof (tk_layer _ Hok b m Hm) as Hlm. destruct (child_lt m _ p Hlm Hch) as [_ Hh].
    destruct (child_slots m Hlm Hh) as (l & El & Hl & _). eexists _, (__sync_branch_idx m id). split; [by apply (Jb b m l)|]. by rewrite (parent_child m l _ Hlm Hch El Hl), decide_True.
  - apply (joined_links h' J).
  - intros Hn x w Hx Hw. destruct (joined_cases h' x w J Hx) as [[-> _]|[[_ ->]|[(m & l & Ep & _)|(_ & Hxp & _ & Hx0)]]]; [done|done|cbn in Hn; congruence|].
    destruct Hxp. by apply (tk_top _ Hok x p w n).
Qed.

End Join.

(** ** Insertion is right *)

(** New layers get addresses that are not in use. *)
Record answers_ok (ans : answers) (h : heap) : Prop := {
  ak_leaf a : an_leaf ans = Some a -> h !! a = None;
  ak_join a : an_join ans = Some a -> h !! a = None;
  ak_differ a : an_leaf ans = Some a -> an_join ans <> Some a;
  ak_junk : length (an_junk ans) = 16%nat
}.

(** A leaf for the id was found or made, or memory was short; nothing was lost. *)
Definition found (ans : answers) (id : Z) (h : heap) (r : result nat) (h' : heap) : Prop :=
  tree_ok h' /\ same_leaves h h' /\
  match r with
  | Ok l => exists n, h' !! l = Some n /\ height n = 0 /\ covers n id
  | Err e => e = ENOMEM /\ (an_leaf ans = None \/ an_join ans = None)
  end.

Lemma alloc_below ans id p n h : tree_ok h -> h !! p = Some n -> covers n id -> 0 < height n -> child_of n (__sync_branch_idx n id) = None ->
  0 <= id < 2 ^ 64 -> (forall a, an_leaf ans = Some a -> h !! a = None) -> length (an_junk ans) = 16%nat ->
  exists r h', match __sync_alloc_leaf ans (Some p) id h with
               | None => Some (Err ENOMEM, h)
               | Some (a, h1) => h2 ← __sync_set_child p (__sync_branch_idx n id) a h1; Some (Ok a, h2)
               end = Some (r, h') /\ found ans id h r h'.
Proof.
  intros Hok Hp Hc Hh Hno Hid Hfresh Hj. unfold __sync_alloc_leaf. destruct (an_leaf ans) as [a|] eqn:Ea.
  - destruct (add_leaf_ok h Hok p n Hp id Hid Hc Hh Hno a (Hfresh a eq_refl) (an_junk ans) Hj) as (h' & E & Hok' & Hl & Hs). cbv zeta in E. rewrite E, bind_some.
    exists (Ok a), h'. split; [done|]. split; [done|]. split; [done|]. eexists. split; [exact Hl|]. split; [done|]. by apply leaf_covers.
  - exists (Err ENOMEM), h. split; [done|]. split; [done|]. split; [apply same_leaves_refl|]. split; [done|by left].
Qed.

Lemma set_loop_ok fuel ans id h p n : tree_ok h -> answers_ok ans h -> 0 <= id < 2 ^ 64 -> h !! p = Some n -> height n < 4 * Z.of_nat fuel ->
  (~ covers n id -> forall b, parent n = Some b -> exists m, h !! b = Some m /\ covers m id /\ child_of m (__sync_branch_idx m id) = Some p) ->
  exists r h', set_loop fuel ans p id h = Some (r, h') /\ found ans id h r h'.
Proof.
  intros Hok [Hal Haj Had Hj] Hid. revert p n. induction fuel as [|fuel IH]; intros p n Hp Hf Hpar; [pose proof (layer_height h Hok p n Hp); lia|].
  cbn [set_loop]. cbv zeta. rewrite Hp, bind_some. pose proof (layer_height h Hok p n Hp) as Hh. pose proof (covers_test n id ltac:(lia)) as Ht.
  destruct (_ =? _) eqn:Ec; cbn [negb].
  - pose proof (proj1 Ht eq_refl) as Hc. destruct (Z.eqb_spec (height n) 0) as [H0|H0].
    { exists (Ok p), h. split; [done|]. split; [done|]. split; [apply same_leaves_refl|]. by exists n. }
    rewrite bind_some. pose proof (tk_layer _ Hok p n Hp) as Hn. destruct (child_slots n Hn ltac:(lia)) as (l & -> & Hl & Hch). rewrite bind_some.
    destruct (lookup_lt_is_Some_2 l (__sync_branch_idx n id)) as [c Hlc]; [rewrite Hl; apply branch_idx_lt; lia|]. rewrite Hlc, bind_some.
    assert (child_of n (__sync_branch_idx n id) = c) as Hcn by (by rewrite Hch, Hlc). destruct c as [q|]; [|apply alloc_below; auto; lia].
    destruct (tk_down _ Hok p n _ q Hp Hcn) as (m & Hq & Hpm & [Hle _]). apply (IH q m Hq); [lia|]. intros _ b Eb. rewrite Hpm in Eb. injection Eb as <-. by exists n.
  - assert (~ covers n id) as Hnc by (intros H; apply Ht in H; congruence). specialize (Hpar Hnc). destruct (an_join ans) as [a|] eqn:Ea.
    2:{ exists (Err ENOMEM), h. split; [done|]. split; [done|]. split; [apply same_leaves_refl|]. split; [done|by right]. }
    destruct (insert_join_joined h Hok p n Hp id Hid Hnc a (Haj a eq_refl) Hpar) as (h' & -> & J). rewrite bind_some.
    pose proof (joined_tree h Hok p n Hp id Hid Hnc a (Haj a eq_refl) Hpar h' J) as Hok'. pose proof (joined_leaves h Hok p n Hp id Hid Hnc a (Haj a eq_refl) Hpar h' J) as Hsl.
    destruct (next_covers h Hok p n Hp id Hid Hnc) as [Hcx Hnx]. pose proof (next_layer_ok h Hok p n Hp id Hid Hnc) as Hlx. destruct J as (Ja & _ & _ & Jx).
    set (nx := Build_i915_syncmap _ _ _ _ _) in *. rewrite Ja, bind_some. assert (0 < height nx) as Hhx by (pose proof (join_parting h Hok p n Hp id Hid Hnc); cbn; lia).
    destruct (child_slots nx Hlx Hhx) as (l & -> & Hl & Hch). rewrite bind_some.
    destruct (lookup_lt_is_Some_2 l (__sync_branch_idx nx id)) as [c Hlc]; [rewrite Hl; apply branch_idx_lt; lia|]. rewrite Hlc, bind_some.
    assert (c = None) as -> by (rewrite Hch, Hlc in Hnx; exact Hnx).
    destruct (alloc_below ans id a nx h' Hok' Ja Hcx Hhx Hnx Hid) as (r & h2 & -> & Hok2 & Hsl2 & Hr); [|done|].
    { intros x Hx. pose proof (Hal x Hx) as Hxn. rewrite Jx; [done|intros ->; by destruct (Had a Hx)|congruence|]. intros E. destruct (Hpar x E) as (? & ? & _). congruence. }
    exists r, h2. split; [done|]. split; [done|]. split; [by eapply same_leaves_trans|]. destruct r; exact Hr.
Qed.

Lemma set_ok m st ans id s : sync_ok m st -> answers_ok ans (sm_heap st) -> 0 <= id < 2 ^ 64 ->
  exists r st', i915_syncmap_set ans id s st = Some (r, st') /\
    match r with Ok _ => sync_ok (<[id := s]> m) st' | Err e => e = ENOMEM /\ (an_leaf ans = None \/ an_join ans = None) /\ sync_ok m st' end.
Proof.
  intros [Hok Hr Hm] Hans Hid. unfold i915_syncmap_set, __sync_set, root_ok in *. destruct (sm_root st) as [p|] eqn:Er.
  - destruct Hr as (n & Hp & H0). rewrite Hp, bind_some. pose proof (leaf_covers n id H0) as Hc. destruct (Z.eqb_spec (__sync_leaf_prefix id) (prefix n)) as [E|E].
    { destruct (set_seqno_ok m (sm_heap st) p n id s Hok Hm Hp H0 (proj2 Hc E)) as (h' & -> & Hs). rewrite bind_some. by eexists (Ok tt), _. }
    destruct (climb_top_spec _ Hok max_layers p n id Hp) as (q & w & -> & Hq & Hcase); [by intros H; apply Hc in H|unfold max_layers; lia|]. rewrite bind_some.
    pose proof (layer_height _ Hok q w Hq). destruct (set_loop_ok max_layers ans id (sm_heap st) q w Hok Hans Hid Hq) as (r & h' & -> & Hok' & Hsl & Hr).
    { unfold max_layers. lia. }
    { intros Hnc b Eb. destruct Hcase as [[Hcw _]|[Ep _]]; [done|congruence]. }
    rewrite bind_some. pose proof (same_leaves_holds _ _ Hsl) as Hh. destruct r as [l|e].
    + destruct Hr as (v & Hl & Hv0 & Hcv). destruct (set_seqno_ok m h' l v id s Hok') as (h2 & -> & Hs); [intros; by rewrite Hm, Hh|done..|]. rewrite bind_some. by eexists (Ok tt), _.
    + eexists (Err e), _. split; [done|]. destruct Hr as [-> Hr]. split; [done|]. split; [done|]. split; cbn [sm_heap]; [done| |intros; by rewrite Hm, Hh].
      unfold root_ok. cbn [sm_root sm_heap]. destruct (sl_kept _ _ Hsl p n Hp H0) as (n' & Hn' & E1 & _). exists n'. split; [done|congruence].
  - unfold __sync_alloc_leaf. destruct (an_leaf ans) as [a|] eqn:Ea; rewrite bind_some.
    + set (leaf := Build_i915_syncmap _ _ _ _ _). rewrite Hr. pose proof (leaf_layer_ok id Hid (an_junk ans) (ak_junk _ _ Hans) None) as Hlok. fold leaf in Hlok.
      assert (forall x w, (<[a := leaf]> ∅ : heap) !! x = Some w -> x = a /\ w = leaf) as Hone by (intros x w Hx; apply lookup_insert_Some in Hx as [[<- <-]|[_ Hx]]; [done|by rewrite lookup_empty in Hx]).
      assert (tree_ok (<[a := leaf]> ∅)) as Hok'.
      { split; [intros x w [_ ->]%Hone; done|intros x w i c [_ ->]%Hone; done|intros x w b [_ ->]%Hone; done|intros x y w w' [-> _]%Hone [-> _]%Hone; done]. }
      destruct (set_seqno_ok m (<[a := leaf]> ∅) a leaf id s Hok') as (h' & -> & Hs); [|apply lookup_insert_eq|done|by apply leaf_covers|rewrite bind_some; by eexists (Ok tt), _].
      intros id' s'. rewrite Hm, Hr. split; [intros (x & w & l & Hx & _); by rewrite lookup_empty in Hx|].
      intros (x & w & l & [_ ->]%Hone & _ & _ & Hb & _). by rewrite Z.bits_0 in Hb.
    + eexists (Err ENOMEM), _. split; [done|]. split; [done|]. split; [by left|]. split; [done|by unfold root_ok; rewrite <- Er; destruct st; cbn in *; rewrite Er|done].
Qed.

(** ** Freeing is complete *)

Section Free.
Context (h0 : heap) (Hok : tree_ok h0).

Definition kid (a c : nat) : Prop := exists n i, h0 !! a = Some n /\ child_of n i = Some c.

Lemma kid_parent a c : kid a c -> exists n m, h0 !! a = Some n /\ h0 !! c = Some m /\ parent m = Some a /\ height m + 4 <= height n.
Proof. intros (n & i & Hn & Hi). destruct (tk_down _ Hok a n i c Hn Hi) as (m & Hm & Hp & [Hle _]). by exists n, m. Qed.

Lemma kid_height a x n m : rtc kid a x -> h0 !! a = Some n -> h0 !! x = Some m -> height m <= height n.
Proof.
  intros H. revert n. induction H as [a|a c x Hac Hcx IH]; intros n Ha Hx; [simplify_eq; lia|].
  destruct (kid_parent a c Hac) as (n' & w & Ha' & Hc & _ & Hle). simplify_eq. specialize (IH w Hc Hx). lia.
Qed.

(** Ancestors of a layer are on one line. *)
Lemma ancestors_meet a b x : rtc kid a x -> rtc kid b x -> rtc kid a b \/ rtc kid b a.
Proof.
  intros Ha. revert x Ha b. apply (rtc_ind_r (fun x => forall b, rtc kid b x -> rtc kid a b \/ rtc kid b a) a); [by right|].
  intros c x Hac Hcx IH b Hb.
  apply rtc_inv_r in Hb as [<-|(y & Hby & Hyx)]; [left; by eapply rtc_r|].
  destruct (kid_parent c x Hcx) as (_ & m & _ & Hm & Hp & _), (kid_parent y x Hyx) as (_ & m' & _ & Hm' & Hp' & _). simplify_eq. by apply IH.
Qed.

(** Different children have nothing in common. *)
Lemma kids_apart p c c' x : kid p c -> kid p c' -> rtc kid c x -> rtc kid c' x -> c = c'.
Proof.
  assert (forall c c', kid p c -> kid p c' -> rtc kid c c' -> c = c') as H.
  { intros u u' Hu Hu' Hr. apply rtc_inv_r in Hr as [?|(y & Huy & Hyu)]; [done|]. exfalso.
    destruct (kid_parent p u Hu) as (n & m & Hn & Hm & _ & Hle), (kid_parent p u' Hu') as (n1 & m' & Hn1 & Hm' & Hp' & _), (kid_parent y u' Hyu) as (n2 & m2 & Hn2 & Hm2 & Hp2 & _).
    simplify_eq. pose proof (kid_height u p m n Huy Hm Hn). lia. }
  intros Hc Hc' H1 H2. destruct (ancestors_meet c c' x H1 H2); [by apply H|symmetry; by apply H].
Qed.

(** [h] has the layers below [p] that the tree had; [h'] is [h] without them. *)
Definition intact (p : nat) (h : heap) : Prop := forall x, rtc kid p x -> h !! x = h0 !! x.
Definition without (p : nat) (h h' : heap) : Prop := (forall x, rtc kid p x -> h' !! x = None) /\ (forall x, ~ rtc kid p x -> h' !! x = h !! x).

Lemma free_children_ok fuel p n l : h0 !! p = Some n -> __sync_child n = Some l -> (forall i, child_of n i = mjoin (l !! i)) ->
  (forall i, (i < 16)%nat -> Z.testbit (bitmap n) (Z.of_nat i) = true <-> is_Some (child_of n i)) ->
  (forall c h, kid p c -> intact c h -> exists h', __sync_free fuel h c = Some h' /\ without c h h') ->
  forall idxs h, NoDup idxs -> (forall i, i ∈ idxs -> (i < 16)%nat) -> (forall i c, i ∈ idxs -> child_of n i = Some c -> intact c h) ->
  exists h', foldl (fun h i => h ← h; if Z.testbit (bitmap n) (Z.of_nat i) then c ← l !! i; q ← c; __sync_free fuel h q else Some h) (Some h) idxs = Some h' /\
    (forall i c x, i ∈ idxs -> child_of n i = Some c -> rtc kid c x -> h' !! x = None) /\
    (forall x, (forall i c, i ∈ idxs -> child_of n i = Some c -> ~ rtc kid c x) -> h' !! x = h !! x).
Proof.
  intros Hp El Hch Hbits Hfree idxs. induction idxs as [|i idxs IH]; intros h Hnd Hlt Hin.
  { exists h. split; [done|]. split; [intros i c x Hi; inversion Hi|done]. }
  apply list.NoDup_cons in Hnd as [Hni Hnd]. cbn [foldl]. rewrite bind_some. specialize (Hbits i ltac:(apply Hlt; left)) as Hbi.
  destruct (Z.testbit (bitmap n) (Z.of_nat i)) eqn:Eb.
  - destruct (proj1 Hbi eq_refl) as [c Hc]. assert (l !! i = Some (Some c)) as Hli by (rewrite Hch in Hc; destruct (l !! i) as [o|]; [by cbn in Hc; subst|done]). rewrite Hli, bind_some, bind_some.
    assert (kid p c) as Hkc by (by exists n, i). destruct (Hfree c h Hkc (Hin i c ltac:(left) Hc)) as (h1 & -> & Hw1 & Hw2).
    assert (forall j c', j ∈ idxs -> child_of n j = Some c' -> forall x, rtc kid c' x -> ~ rtc kid c x) as Hap.
    { intros j c' Hj Hc' x Hx Hx'. assert (kid p c') as Hk by (by exists n, j). rewrite (kids_apart p c' c x Hk Hkc Hx Hx') in Hc'.
      apply Hni. by rewrite (slot_unique h0 p n i j c Hok Hp Hc Hc'). }
    destruct (IH h1 Hnd) as (h' & E & Hnone & Hsame); [intros j Hj; apply Hlt; by right| |].
    { intros j c' Hj Hc' x Hx. rewrite Hw2 by (by eapply Hap). apply (Hin j c' ltac:(by right) Hc' x Hx). }
    exists h'. split; [done|]. split.
    + intros j c' x Hj Hc' Hx. apply elem_of_cons in Hj as [->|Hj]; [|by apply (Hnone j c')]. simplify_eq. rewrite Hsame; [by apply Hw1|].
      intros j' c'' Hj' Hc'' Hx''. by apply (Hap j' c'' Hj' Hc'' x Hx'').
    + intros x Hx. rewrite Hsame by (intros j c' Hj; apply Hx; by right). apply Hw2, (Hx i c); [left|done].
  - assert (child_of n i = None) as Hc by (destruct (child_of n i) eqn:E; [|done]; destruct Hbi as [_ Hbi]; specialize (Hbi ltac:(by eexists)); done).
    destruct (IH h Hnd) as (h' & E & Hnone & Hsame); [intros j Hj; apply Hlt; by right|intros j c' Hj; apply Hin; by right|]. exists h'. split; [done|]. split.
    + intros j c' x Hj Hc' Hx. apply elem_of_cons in Hj as [->|Hj]; [congruence|by apply (Hnone j c')].
    + intros x Hx. apply Hsame. intros j c' Hj. apply Hx. by right.
Qed.

Lemma free_ok fuel p n h : h0 !! p = Some n -> height n < 4 * Z.of_nat fuel -> intact p h -> exists h', __sync_free fuel h p = Some h' /\ without p h h'.
Proof.
  revert p n h. induction fuel as [|fuel IH]; intros p n h Hp Hf Hin; [pose proof (layer_height h0 Hok p n Hp); lia|].
  cbn [__sync_free]. rewrite (Hin p) by apply rtc_refl. rewrite Hp, bind_some. pose proof (tk_layer _ Hok p n Hp) as Hn. pose proof (layer_height h0 Hok p n Hp) as Hh.
  destruct (Z.eqb_spec (height n) 0) as [H0|H0].
  - rewrite bind_some. eexists. split; [done|]. assert (forall x, rtc kid p x -> x = p) as Hleaf.
    { intros x Hx. inversion Hx as [|? y ? (n' & i & Hn' & Hi) _]; subst; [done|]. simplify_eq. destruct (child_lt _ i y Hn Hi). lia. }
    split; intros x Hx; [by rewrite (Hleaf x Hx), lookup_delete_eq|]. rewrite lookup_delete_ne; [done|]. intros <-. by apply Hx.
  - destruct (child_slots n Hn ltac:(lia)) as (l & El & Hl & Hch). rewrite El, bind_some.
    destruct (free_children_ok fuel p n l Hp El Hch) with (idxs := seq 0 KSYNCMAP) (h := h) as (h' & -> & Hnone & Hsame).
    + intros i Hi. apply (lo_bitmap _ Hn); [done|lia].
    + intros c h1 Hkc Hic. destruct (kid_parent p c Hkc) as (n' & m & Hn' & Hm & _ & Hle). simplify_eq. apply (IH c m); [done|lia|done].
    + apply NoDup_seq.
    + intros i Hi. apply elem_of_seq in Hi. unfold KSYNCMAP in Hi. lia.
    + intros i c Hi Hc x Hx. apply Hin. eapply rtc_l; [by exists n, i|done].
    + rewrite bind_some. eexists. split; [done|]. split; intros x Hx.
      * destruct (decide (x = p)) as [->|Hxp]; [apply lookup_delete_eq|]. rewrite lookup_delete_ne by done. inversion Hx as [|? c ? (n' & i & Hn' & Hi) Hcx]; subst; [done|]. simplify_eq.
        destruct (child_lt _ i c Hn Hi) as [Hi16 _]. apply (Hnone i c x); [|done|done]. apply elem_of_seq. unfold KSYNCMAP. lia.
      * rewrite lookup_delete_ne by (intros <-; by apply Hx). apply Hsame. intros i c _ Hi Hcx. apply Hx. eapply rtc_l; [by exists n, i|done].
Qed.

Lemma find_top_ok fuel p n : h0 !! p = Some n -> 60 - height n < 4 * Z.of_nat fuel -> exists t m, find_top fuel h0 p = Some t /\ h0 !! t = Some m /\ parent m = None.
Proof.
  revert p n. induction fuel as [|fuel IH]; intros p n Hp Hf; [pose proof (layer_height h0 Hok p n Hp); lia|]. cbn [find_top]. rewrite Hp, bind_some.
  destruct (parent n) as [q|] eqn:Eq; [|by exists p, n]. destruct (tk_up _ Hok p n q Hp Eq) as (m & i & Hq & Hi).
  destruct (kid_parent q p) as (m' & n' & Hm' & Hn' & _ & Hle); [by exists m, i|]. simplify_eq. eapply IH; [exact Hq|lia].
Qed.

(** Everything is below the top. *)
Lemma all_below_top t m x w : h0 !! t = Some m -> parent m = None -> h0 !! x = Some w -> rtc kid t x.
Proof.
  intros Ht Hp Hx. pose proof (tk_layer _ Hok x w Hx) as Hw. pose proof (layer_height h0 Hok x w Hx) as Hh.
  destruct (top_path h0 Hok (prefix w * 2 ^ (height w + 4)) x w Hx) as (t' & m' & Ht' & Hp' & _ & Hr); [apply Z.div_mul, Z.pow_nonzero; lia|].
  rewrite (tk_top _ Hok t t' m m' Ht Ht' Hp Hp'). eapply rtc_subrel; [|exact Hr]. intros a c (n & Hn & Hc). by eexists n, _.
Qed.

End Free.

Lemma syncmap_free_ok m st : sync_ok m st -> i915_syncmap_free st = Some i915_syncmap_init.
Proof.
  intros [Hok Hr _]. unfold i915_syncmap_free, root_ok in *. destruct (sm_root st) as [p|] eqn:Er; [|by destruct st; cbn in *; subst].
  destruct Hr as (n & Hp & H0). destruct (find_top_ok _ Hok max_layers p n Hp ltac:(unfold max_layers; lia)) as (t & w & -> & Ht & Hpt). rewrite bind_some.
  destruct (free_ok _ Hok max_layers t w (sm_heap st) Ht) as (h' & -> & Hnone & Hsame); [pose proof (layer_height _ Hok t w Ht); unfold max_layers; lia|done|].
  rewrite bind_some. unfold i915_syncmap_init. do 2 f_equal. apply map_eq. intros x. rewrite lookup_empty. destruct (sm_heap st !! x) as [v|] eqn:Ex; [apply Hnone; by apply (all_below_top _ Hok t w x v)|].
  rewrite Hsame; [done|]. intros Hx. apply rtc_inv_r in Hx as [->|(y & _ & Hyx)]; [congruence|]. destruct (kid_parent _ Hok y x Hyx) as (_ & v & _ & Hv & _). congruence.
Qed.

(** ** Refinement of a finite map *)

Inductive sync_op := OpSet (ans : answers) (id seqno : Z) | OpIsLater (id seqno : Z) | OpFree.
Inductive sync_reply := ReplySet (r : result unit) | ReplyLater (b : bool) | ReplyFree.

Definition sync_exec (op : sync_op) (st : syncmap) : option (sync_reply * syncmap) :=
  match op with
  | OpSet ans id seqno => '(r, st) ← i915_syncmap_set ans id seqno st; Some (ReplySet r, st)
  | OpIsLater id seqno => '(b, st) ← i915_syncmap_is_later id seqno st; Some (ReplyLater b, st)
  | OpFree => st ← i915_syncmap_free st; Some (ReplyFree, st)
  end.

Definition op_ok (op : sync_op) (st : syncmap) : Prop := match op with OpSet ans id _ => answers_ok ans (sm_heap st) /\ 0 <= id < 2 ^ 64 | _ => True end.

(** A history of calls with their replies. *)
Inductive sync_run : list (sync_op * sync_reply) -> syncmap -> Prop :=
| run_init : sync_run [] i915_syncmap_init
| run_op tr st op r st' : sync_run tr st -> op_ok op st -> sync_exec op st = Some (r, st') -> sync_run (tr ++ [(op, r)]) st'.

(** The numbers that were set successfully and not freed. *)
Definition spec_op (m : gmap Z Z) (e : sync_op * sync_reply) : gmap Z Z :=
  match e with
  | (OpSet _ id seqno, ReplySet (Ok _)) => <[id := seqno]> m
  | (OpFree, _) => ∅
  | _ => m
  end.
Definition spec_map (tr : list (sync_op * sync_reply)) : gmap Z Z := foldl spec_op ∅ tr.

Lemma syncmap_init_ok : sync_ok ∅ i915_syncmap_init.
Proof.
  split; cbn [sm_heap i915_syncmap_init]; [split; intros *; rewrite lookup_empty; done|done|].
  intros id s. rewrite lookup_empty. split; [done|]. intros (a & n & l & Ha & _). by rewrite lookup_empty in Ha.
Qed.

Lemma exec_ok m op st : sync_ok m st -> op_ok op st -> exists r st', sync_exec op st = Some (r, st') /\ sync_ok (spec_op m (op, r)) st'.
Proof.
  intros Hs Ho. destruct op as [ans id s|id s|]; cbn [sync_exec op_ok] in *.
  - destruct Ho as [Ha Hid]. destruct (set_ok m st ans id s Hs Ha Hid) as (r & st' & -> & Hr). rewrite bind_some. eexists _, _. split; [done|]. by destruct r; [|destruct Hr as (_ & _ & Hr)].
  - destruct (is_later_ok m st id s Hs) as (st' & -> & Hs' & _). rewrite bind_some. by eexists _, _.
  - rewrite (syncmap_free_ok m st Hs), bind_some. eexists _, _. split; [done|]. apply syncmap_init_ok.
Qed.

Lemma run_ok tr st : sync_run tr st -> sync_ok (spec_map tr) st.
Proof.
  induction 1 as [|tr st op r st' _ IH Ho E]; [apply syncmap_init_ok|]. destruct (exec_ok _ op st IH Ho) as (r' & st'' & E' & Hs). rewrite E in E'. simplify_eq.
  unfold spec_map. by rewrite foldl_app.
Qed.

(** C19: after any history of calls the map answers as a finite map of the numbers that were set: a lookup tells whether the number last set for the id is at
    or after the one asked for; an insertion succeeds, or fails for want of memory and then changes nothing; freeing gives back every layer.  No call
    follows a pointer to a layer that is not there, and every call returns. *)
Theorem i915_syncmap_refines_map tr st : sync_run tr st ->
  (forall id seqno, exists st', i915_syncmap_is_later id seqno st = Some (match spec_map tr !! id with Some s => 0 <=? s32 (s - seqno) | None => false end, st')) /\
  (forall ans id seqno, answers_ok ans (sm_heap st) -> 0 <= id < 2 ^ 64 -> exists r st', i915_syncmap_set ans id seqno st = Some (r, st') /\
    (r = Ok tt \/ r = Err ENOMEM /\ (an_leaf ans = None \/ an_join ans = None))) /\
  i915_syncmap_free st = Some i915_syncmap_init.
Proof.
  intros Hr. pose proof (run_ok tr st Hr) as Hs. split; [|split].
  - intros id seqno. destruct (is_later_ok _ st id seqno Hs) as (st' & E & _). by exists st'.
  - intros ans id seqno Ha Hid. destruct (set_ok _ st ans id seqno Hs Ha Hid) as (r & st' & E & Hc). exists r, st'. split; [done|].
    destruct r as [[]|e]; [by left|]. right. destruct Hc as (-> & Hc & _). done.
  - apply (syncmap_free_ok _ st Hs).
Qed.

(** An example: three ids in different parts of the tree. *)
Definition example_answers (leaf join : nat) : answers := {| an_leaf := Some leaf; an_join := Some join; an_junk := replicate 16 77 |}.
Definition example_ops : list sync_op :=
  [OpSet (example_answers 1 2) 0x500001 10; OpSet (example_answers 3 4) 0x11 20; OpSet (example_answers 5 6) (14 * 2 ^ 60) 30; OpSet (example_answers 7 8) 0x500000 40].

Fixpoint exec_all (ops : list sync_op) (tr : list (sync_op * sync_reply)) (st : syncmap) : option (list (sync_op * sync_reply) * syncmap) :=
  match ops with [] => Some (tr, st) | op :: ops => '(r, st) ← sync_exec op st; exec_all ops (tr ++ [(op, r)]) st end.

Lemma example_run tr st leaf join id s r st' : sync_run tr st -> sync_exec (OpSet (example_answers leaf join) id s) st = Some (r, st') ->
  sm_heap st !! leaf = None -> sm_heap st !! join = None -> leaf <> join -> 0 <= id < 2 ^ 64 -> sync_run (tr ++ [(OpSet (example_answers leaf join) id s, r)]) st'.
Proof. intros Hr E H1 H2 H3 Hid. apply (run_op tr st); [done| |done]. split; [|done]. split; cbn; congruence || done. Qed.

Lemma i915_syncmap_refines_map_witness : exists tr st, exec_all example_ops [] i915_syncmap_init = Some (tr, st) /\
  spec_map tr !! 0x11 = Some 20 /\ exists st', i915_syncmap_is_later 0x11 20 st = Some (true, st').
Proof.
  destruct (exec_all example_ops [] i915_syncmap_init) as [[tr st]|] eqn:E; [|vm_compute in E; discriminate]. exists tr, st. split; [reflexivity|].
  assert (sync_run tr st) as Hr.
  { unfold example_ops in E. cbn [exec_all] in E.
    destruct (sync_exec _ i915_syncmap_init) as [[r1 s1]|] eqn:E1; [|done]. rewrite bind_some in E.
    pose proof (example_run _ _ _ _ _ _ _ _ run_init E1 eq_refl eq_refl ltac:(lia) ltac:(lia)) as R1. vm_compute in E1. injection E1 as <- <-.
    destruct (sync_exec _ _) as [[r2 s2]|] eqn:E2 in E; [|done]. rewrite bind_some in E.
    pose proof (example_run _ _ _ _ _ _ _ _ R1 E2 eq_refl eq_refl ltac:(lia) ltac:(lia)) as R2. vm_compute in E2. injection E2 as <- <-.
    destruct (sync_exec _ _) as [[r3 s3]|] eqn:E3 in E; [|done]. rewrite bind_some in E.
    pose proof (example_run _ _ _ _ _ _ _ _ R2 E3 eq_refl eq_refl ltac:(lia) ltac:(lia)) as R3. vm_compute in E3. injection E3 as <- <-.
    destruct (sync_exec _ _) as [[r4 s4]|] eqn:E4 in E; [|done]. rewrite bind_some in E. injection E as <- <-.
    exact (example_run _ _ _ _ _ _ _ _ R3 E4 eq_refl eq_refl ltac:(lia) ltac:(lia)). }
  destruct (i915_syncmap_refines_map tr st Hr) as (H & _ & _). assert (spec_map tr !! 0x11 = Some 20) as Em.
  { vm_compute in E. injection E as <- <-. vm_compute. reflexivity. }
  split; [exact Em|]. specialize (H 0x11 20). rewrite Em in H. exact H.
Defined.
