(* ===== verification/TtmLock.v ===== *)
(** * The TTM lock ([ttm/ttm_lock.c], [ttm_lock.h])

    A lock with four modes: shared (read), exclusive (write), virtual terminal
    and suspend.  Every attempt to take it is one section under the spinlock
    ([__ttm_read_lock] and its siblings), repeated by [wait_event] until it
    succeeds.  A call is a task with a control point; the system interleaves the
    sections of all tasks, the wait queue with its wake-ups, and signals.

    Theorems: the modes exclude each other as documented and no [BUG_ON] is
    reached, for any interleaving in which virtual terminal and suspend callers
    do not overlap with their own kind; whenever nobody holds the lock and
    somebody wants it, a task that is awake can take it.  Without the
    restrictions both fail, which two runs show. *)

From S2P Require Import Prelude.
From stdpp Require Import base gmap list option.
From Stdlib Require Import ZArith Lia.

#[local] Set Warnings "-clear-no-such-hyp".

#[local] Open Scope Z_scope.

Definition TTM_WRITE_LOCK_PENDING : Z := Z.shiftl 1 0.
Definition TTM_VT_LOCK_PENDING : Z := Z.shiftl 1 1.
Definition TTM_SUSPEND_LOCK_PENDING : Z := Z.shiftl 1 2.
Definition TTM_VT_LOCK : Z := Z.shiftl 1 3.
Definition TTM_SUSPEND_LOCK : Z := Z.shiftl 1 4.

Definition SIGKILL : Z := 9.

(** [struct ttm_lock]; the base object belongs to the object file that took the
    lock in virtual terminal mode. *)
Record ttm_lock := { rw : Z; flags : Z; kill_takers : bool; signal : Z; vt_holder : option nat }.

Definition set_rw (n : Z) (l : ttm_lock) : ttm_lock :=
  {| rw := n; flags := flags l; kill_takers := kill_takers l; signal := signal l; vt_holder := vt_holder l |}.
Definition set_flags (f : Z) (l : ttm_lock) : ttm_lock :=
  {| rw := rw l; flags := f; kill_takers := kill_takers l; signal := signal l; vt_holder := vt_holder l |}.
Definition set_vt_holder (h : option nat) (l : ttm_lock) : ttm_lock :=
  {| rw := rw l; flags := flags l; kill_takers := kill_takers l; signal := signal l; vt_holder := h |}.

(** [flags &= ~bit] and [flags |= bit] *)
Definition clear_flag (bit : Z) (l : ttm_lock) : ttm_lock := set_flags (Z.ldiff (flags l) bit) l.
Definition set_flag (bit : Z) (l : ttm_lock) : ttm_lock := set_flags (Z.lor (flags l) bit) l.

Definition ttm_lock_init : ttm_lock :=
  {| rw := 0; flags := 0; kill_takers := false; signal := SIGKILL; vt_holder := None |}.

Definition ttm_lock_set_kill (val : bool) (sig : Z) (l : ttm_lock) : ttm_lock :=
  {| rw := rw l; flags := flags l; kill_takers := val; signal := if val then sig else signal l;
     vt_holder := vt_holder l |}.

(** What one attempt does: the signal it sends to the caller, the value it
    returns to [wait_event], whether the lock was taken, and the lock. *)
Record attempt := { a_sig : option Z; a_ret : bool; a_locked : bool; a_lock : ttm_lock }.

Definition killed (l : ttm_lock) : attempt := {| a_sig := Some (signal l); a_ret := false; a_locked := false; a_lock := l |}.
Definition took (l : ttm_lock) : attempt := {| a_sig := None; a_ret := true; a_locked := true; a_lock := l |}.
Definition must_wait (l : ttm_lock) : attempt := {| a_sig := None; a_ret := false; a_locked := false; a_lock := l |}.
Definition is_busy (l : ttm_lock) : attempt := {| a_sig := None; a_ret := true; a_locked := false; a_lock := l |}.

Definition __ttm_read_lock (l : ttm_lock) : attempt :=
  if kill_takers l then killed l
  else if (0 <=? rw l) && (flags l =? 0) then took (set_rw (s32 (rw l + 1)) l)
  else must_wait l.

Definition __ttm_read_trylock (l : ttm_lock) : attempt :=
  if kill_takers l then killed l
  else if (0 <=? rw l) && (flags l =? 0) then took (set_rw (s32 (rw l + 1)) l)
  else if flags l =? 0 then is_busy l
  else must_wait l.

Definition __ttm_write_lock (l : ttm_lock) : attempt :=
  if kill_takers l then killed l
  else if (rw l =? 0) && (Z.ldiff (flags l) TTM_WRITE_LOCK_PENDING =? 0)
  then took (clear_flag TTM_WRITE_LOCK_PENDING (set_rw (-1) l))
  else must_wait (set_flag TTM_WRITE_LOCK_PENDING l).

Definition __ttm_vt_lock (l : ttm_lock) : attempt :=
  if rw l =? 0 then took (set_flag TTM_VT_LOCK (clear_flag TTM_VT_LOCK_PENDING l))
  else must_wait (set_flag TTM_VT_LOCK_PENDING l).

Definition __ttm_suspend_lock (l : ttm_lock) : attempt :=
  if rw l =? 0 then took (set_flag TTM_SUSPEND_LOCK (clear_flag TTM_SUSPEND_LOCK_PENDING l))
  else must_wait (set_flag TTM_SUSPEND_LOCK_PENDING l).

(** [__ttm_vt_unlock]: the result, and the lock *)
Definition __ttm_vt_unlock (l : ttm_lock) : result unit * ttm_lock :=
  (if Z.land (flags l) TTM_VT_LOCK =? 0 then Err EINVAL else Ok tt, clear_flag TTM_VT_LOCK l).

(** ** Tasks *)

(** [MVt tfile] registers with the object file [tfile]. *)
Inductive mode := MRead | MTry | MWrite | MVt (tfile : nat) | MSuspend.

#[global] Instance mode_eq_dec : EqDecision mode.
Proof. solve_decision. Defined.

(** Inside [wait_event]: before its first test of the condition, on the queue
    and running, or asleep. *)
Inductive waiting := First | Queued | Asleep.

Inductive pc :=
| Waiting (m : mode) (interruptible : bool) (w : waiting)
| Interrupted (m : mode) (locked : bool)
| VtTaken (tfile : nat)
| Holding (m : mode)
| Done (r : result unit).

Record sys := { lk : ttm_lock; tasks : gmap nat pc; sent : list (nat * Z); bug : bool }.

Definition set_lk (l : ttm_lock) (s : sys) : sys := {| lk := l; tasks := tasks s; sent := sent s; bug := bug s |}.
Definition set_task (t : nat) (p : pc) (s : sys) : sys :=
  {| lk := lk s; tasks := <[t := p]> (tasks s); sent := sent s; bug := bug s |}.
Definition BUG_ON (c : bool) (s : sys) : sys := {| lk := lk s; tasks := tasks s; sent := sent s; bug := bug s || c |}.
Definition send_sig (t : nat) (o : option Z) (s : sys) : sys :=
  {| lk := lk s; tasks := tasks s; sent := match o with Some n => sent s ++ [(t, n)] | None => sent s end; bug := bug s |}.

Definition wake (p : pc) : pc := match p with Waiting m i Asleep => Waiting m i Queued | _ => p end.
Definition wake_up_all (s : sys) : sys := {| lk := lk s; tasks := wake <$> tasks s; sent := sent s; bug := bug s |}.

(** The condition each kind of call passes to [wait_event] *)
Definition attempt_of (m : mode) : ttm_lock -> attempt :=
  match m with
  | MRead => __ttm_read_lock
  | MTry => __ttm_read_trylock
  | MWrite => __ttm_write_lock
  | MVt _ => __ttm_vt_lock
  | MSuspend => __ttm_suspend_lock
  end.

(** Where a call continues when its condition came true *)
Definition after_wait (m : mode) (locked : bool) : pc :=
  match m with
  | MVt f => VtTaken f
  | MTry => if locked then Holding MTry else Done (Err EBUSY)
  | _ => Holding m
  end.

(** One turn of the loop of [wait_event]: [sigpending] says that a signal was
    pending when the task put itself on the queue. *)
Definition wait_turn (t : nat) (sigpending : bool) (s : sys) : option sys :=
  match tasks s !! t with
  | Some (Waiting m i w) =>
      let a := attempt_of m (lk s) in
      let s1 := send_sig t (a_sig a) (set_lk (a_lock a) s) in
      if a_ret a then match w with Asleep => None | _ => Some (set_task t (after_wait m (a_locked a)) s1) end
      else match w with
           | First => Some (set_task t (Waiting m i Queued) s1)
           | Queued => Some (set_task t (if i && sigpending then Interrupted m (a_locked a) else Waiting m i Asleep) s1)
           | Asleep => None
           end
  | _ => None
  end.

(** The end of an interrupted call: [ttm_read_lock], [ttm_read_trylock],
    [ttm_write_lock], [ttm_vt_lock] after [wait_event_interruptible] failed *)
Definition interrupted_end (t : nat) (s : sys) : option sys :=
  match tasks s !! t with
  | Some (Interrupted m locked) =>
      let s1 := set_task t (Done (Err ERESTARTSYS)) s in
      match m with
      | MRead => Some s1
      | MTry => Some (BUG_ON locked s1)
      | MWrite => Some (wake_up_all (set_lk (clear_flag TTM_WRITE_LOCK_PENDING (lk s)) s1))
      | MVt _ => Some (wake_up_all (set_lk (clear_flag TTM_VT_LOCK_PENDING (lk s)) s1))
      | MSuspend => None
      end
  | _ => None
  end.

(** The rest of [ttm_vt_lock]: [registered] is the answer of [ttm_base_object_init]. *)
Definition ttm_vt_lock_register (t : nat) (registered : result unit) (s : sys) : option sys :=
  match tasks s !! t with
  | Some (VtTaken f) =>
      match registered with
      | Ok _ => Some (set_task t (Holding (MVt f)) (set_lk (set_vt_holder (Some f) (lk s)) s))
      | Err e => Some (wake_up_all (set_task t (Done (Err e)) (set_lk (__ttm_vt_unlock (lk s)).2 s)))
      end
  | _ => None
  end.

Definition ttm_read_unlock (s : sys) : sys :=
  let l := set_rw (s32 (rw (lk s) - 1)) (lk s) in
  if rw l =? 0 then wake_up_all (set_lk l s) else set_lk l s.

Definition ttm_write_unlock (s : sys) : sys := wake_up_all (set_lk (set_rw 0 (lk s)) s).

Definition ttm_suspend_unlock (s : sys) : sys := wake_up_all (set_lk (clear_flag TTM_SUSPEND_LOCK (lk s)) s).

(** Runs when the last reference to the base object goes, by [ttm_vt_unlock] or
    because the client died. *)
Definition ttm_vt_lock_remove (s : sys) : sys :=
  let (ret, l) := __ttm_vt_unlock (lk s) in BUG_ON (negb (is_ok ret)) (wake_up_all (set_lk l s)).

Definition unlock (t : nat) (s : sys) : option sys :=
  match tasks s !! t with
  | Some (Holding m) =>
      let s1 := set_task t (Done (Ok tt)) s in
      Some match m with
           | MRead | MTry => ttm_read_unlock s1
           | MWrite => ttm_write_unlock s1
           | MVt _ => ttm_vt_lock_remove s1
           | MSuspend => ttm_suspend_unlock s1
           end
  | _ => None
  end.

Definition is_done (o : option pc) : bool := match o with None | Some (Done _) => true | _ => false end.

(** A call starts: [ttm_suspend_lock] has no interruptible form. *)
Definition call (t : nat) (m : mode) (i : bool) (s : sys) : option sys :=
  if is_done (tasks s !! t) && negb (match m with MSuspend => i | _ => false end)
  then Some (set_task t (Waiting m i First) s) else None.

(** A signal makes a task leave its interruptible sleep. *)
Definition deliver (t : nat) (s : sys) : option sys :=
  match tasks s !! t with Some (Waiting m true Asleep) => Some (set_task t (Waiting m true Queued) s) | _ => None end.

Inductive event :=
| Call (t : nat) (m : mode) (i : bool) | Run (t : nat) (sigpending : bool) | Signal (t : nat) | Leave (t : nat)
| Register (t : nat) (r : result unit) | Unlock (t : nat) | SetKill (val : bool) (sig : Z).

Definition step (e : event) (s : sys) : option sys :=
  match e with
  | Call t m i => call t m i s
  | Run t sp => wait_turn t sp s
  | Signal t => deliver t s
  | Leave t => interrupted_end t s
  | Register t r => ttm_vt_lock_register t r s
  | Unlock t => unlock t s
  | SetKill v n => Some (set_lk (ttm_lock_set_kill v n (lk s)) s)
  end.

Definition boot : sys := {| lk := ttm_lock_init; tasks := ∅; sent := []; bug := false |}.

(** ** Runs

    [orderly] asks that a virtual terminal (suspend) call starts only when no
    other such call is in progress; [kill_lasts] that [kill_takers], once set, stays. *)
Definition vt_pending (p : pc) : Z := match p with Waiting (MVt _) _ _ | Interrupted (MVt _) _ => 1 | _ => 0 end.
Definition vt_owner (p : pc) : Z := match p with VtTaken _ | Holding (MVt _) => 1 | _ => 0 end.
Definition su_pending (p : pc) : Z := match p with Waiting MSuspend _ _ | Interrupted MSuspend _ => 1 | _ => 0 end.
Definition su_owner (p : pc) : Z := match p with Holding MSuspend => 1 | _ => 0 end.
Definition reader (p : pc) : Z := match p with Holding (MRead | MTry) => 1 | _ => 0 end.
Definition writer (p : pc) : Z := match p with Holding MWrite => 1 | _ => 0 end.

Definition orderly (e : event) (s : sys) : bool :=
  match e with
  | Call _ (MVt _) _ => tally vt_pending (tasks s) + tally vt_owner (tasks s) =? 0
  | Call _ MSuspend _ => tally su_pending (tasks s) + tally su_owner (tasks s) =? 0
  | _ => true
  end.

Definition kill_lasts (e : event) (s : sys) : bool := match e with SetKill v _ => v | _ => true end.

(** The events in order; [None] when one is not possible or not [ok]. *)
Fixpoint exec (ok : event -> sys -> bool) (es : list event) (s : sys) : option sys :=
  match es with
  | [] => Some s
  | e :: es => if ok e s then match step e s with Some s1 => exec ok es s1 | None => None end else None
  end.

Lemma tally_wake w (ts : gmap nat pc) : (forall p, w (wake p) = w p) -> tally w (wake <$> ts) = tally w ts.
Proof. apply tally_fmap. Qed.

(** ** The flags word *)
Definition word (wp vp sp vt su : bool) : Z :=
  Z.b2z wp + 2 * Z.b2z vp + 4 * Z.b2z sp + 8 * Z.b2z vt + 16 * Z.b2z su.

Section Word.
Context (wp vp sp vt su : bool).

Ltac bits := destruct wp, vp, sp, vt, su; reflexivity.

Lemma clear_wp : Z.ldiff (word wp vp sp vt su) TTM_WRITE_LOCK_PENDING = word false vp sp vt su.
Proof. bits. Qed.

Lemma clear_vp : Z.ldiff (word wp vp sp vt su) TTM_VT_LOCK_PENDING = word wp false sp vt su.
Proof. bits. Qed.

Lemma clear_sp : Z.ldiff (word wp vp sp vt su) TTM_SUSPEND_LOCK_PENDING = word wp vp false vt su.
Proof. bits. Qed.

Lemma clear_vt : Z.ldiff (word wp vp sp vt su) TTM_VT_LOCK = word wp vp sp false su.
Proof. bits. Qed.

Lemma clear_su : Z.ldiff (word wp vp sp vt su) TTM_SUSPEND_LOCK = word wp vp sp vt false.
Proof. bits. Qed.

Lemma set_wp : Z.lor (word wp vp sp vt su) TTM_WRITE_LOCK_PENDING = word true vp sp vt su.
Proof. bits. Qed.

Lemma set_vp : Z.lor (word wp vp sp vt su) TTM_VT_LOCK_PENDING = word wp true sp vt su.
Proof. bits. Qed.

Lemma set_sp : Z.lor (word wp vp sp vt su) TTM_SUSPEND_LOCK_PENDING = word wp vp true vt su.
Proof. bits. Qed.

Lemma set_vt : Z.lor (word wp vp sp vt su) TTM_VT_LOCK = word wp vp sp true su.
Proof. bits. Qed.

Lemma set_su : Z.lor (word wp vp sp vt su) TTM_SUSPEND_LOCK = word wp vp sp vt true.
Proof. bits. Qed.

Lemma has_vt : (Z.land (word wp vp sp vt su) TTM_VT_LOCK =? 0) = negb vt.
Proof. bits. Qed.

Lemma no_flags : (word wp vp sp vt su =? 0) = negb (wp || vp || sp || vt || su).
Proof. bits. Qed.

End Word.

Create Rewrite HintDb ttm_word.
#[export] Hint Rewrite clear_wp clear_vp clear_sp clear_vt clear_su set_wp set_vp set_sp set_vt set_su has_vt no_flags : ttm_word.

(** ** The invariant *)
Definition w_wait (p : pc) : Z := match p with Waiting MWrite _ (Queued | Asleep) | Interrupted MWrite _ => 1 | _ => 0 end.
Definition v_wait (p : pc) : Z := match p with Waiting (MVt _) _ (Queued | Asleep) | Interrupted (MVt _) _ => 1 | _ => 0 end.
Definition s_wait (p : pc) : Z := match p with Waiting MSuspend _ (Queued | Asleep) | Interrupted MSuspend _ => 1 | _ => 0 end.

(** An interrupted task does not have the lock; suspend callers sleep uninterruptibly. *)
Definition pc_ok (p : pc) : Prop :=
  match p with Interrupted m locked => locked = false /\ m <> MSuspend | Waiting MSuspend i _ => i = false | _ => True end.

(** The lock word tells who has the lock: [R] readers, [W] writers; a mode bit is
    set while its owner exists, a pending bit only while somebody waits. *)
Record flags_ok (l : ttm_lock) (ts : gmap nat pc) (wp vp sp vt su : bool) : Prop := {
  fo_word : flags l = word wp vp sp vt su;
  fo_rw : rw l = tally reader ts - tally writer ts;
  fo_writer : tally writer ts <= 1;
  fo_excl : tally writer ts = 1 -> tally reader ts = 0;
  fo_vt : tally vt_owner ts = Z.b2z vt;
  fo_su : tally su_owner ts = Z.b2z su;
  fo_vt1 : tally vt_pending ts + tally vt_owner ts <= 1;
  fo_su1 : tally su_pending ts + tally su_owner ts <= 1;
  fo_modes : rw l <> 0 -> vt = false /\ su = false;
  fo_wp : wp = true -> 0 < tally w_wait ts;
  fo_vp : vp = true -> 0 < tally v_wait ts;
  fo_sp : sp = true -> 0 < tally s_wait ts }.

Definition bits_ok (l : ttm_lock) (ts : gmap nat pc) : Prop := exists wp vp sp vt su, flags_ok l ts wp vp sp vt su.

Record safe (s : sys) : Prop := {
  sf_flags : bits_ok (lk s) (tasks s);
  sf_pc : map_Forall (fun _ p => pc_ok p) (tasks s);
  sf_bug : bug s = false }.

Ltac weight := let q := fresh in intros q; destruct q as [[] [] []| [] | | [] | ]; simpl; lia.

(** What the task [t] at [p] contributes to each count *)
Lemma counts_ge ts t p : ts !! t = Some p ->
  reader p <= tally reader ts /\ writer p <= tally writer ts /\ vt_owner p <= tally vt_owner ts /\
  su_owner p <= tally su_owner ts /\ vt_pending p <= tally vt_pending ts /\ su_pending p <= tally su_pending ts /\
  w_wait p <= tally w_wait ts /\ v_wait p <= tally v_wait ts /\ s_wait p <= tally s_wait ts.
Proof. intros H. repeat split; apply tally_ge with t; (done || weight). Qed.

Lemma counts_nonneg ts :
  0 <= tally reader ts /\ 0 <= tally writer ts /\ 0 <= tally vt_owner ts /\ 0 <= tally su_owner ts /\
  0 <= tally vt_pending ts /\ 0 <= tally su_pending ts /\ 0 <= tally w_wait ts /\ 0 <= tally v_wait ts /\ 0 <= tally s_wait ts.
Proof. repeat split; apply tally_nonneg; weight. Qed.

Lemma flags_ok_wake l ts wp vp sp vt su : flags_ok l ts wp vp sp vt su -> flags_ok l (wake <$> ts) wp vp sp vt su.
Proof.
  intros []. constructor; rewrite ?tally_wake by (intros [[] ? []| | | |]; reflexivity); assumption.
Qed.

Lemma safe_wake s : safe s -> safe (wake_up_all s).
Proof.
  intros [(wp & vp & sp & vt & su & H) Hp Hb]. constructor; [|simpl|done].
  - exists wp, vp, sp, vt, su. by apply flags_ok_wake.
  - intros t p. rewrite lookup_fmap. destruct (tasks s !! t) as [q|] eqn:E; [|done]. intros [= <-].
    apply Hp in E. by destruct q as [[] [] []| | | |].
Qed.

(** Opens the counts after the move of [t]: linear facts over the old ones. *)
Ltac counts Ht :=
  let H1 := fresh in let H2 := fresh in
  pose proof (counts_ge _ _ _ Ht) as H1; pose proof (counts_nonneg) as H2;
  match type of Ht with ?ts !! _ = _ => specialize (H2 ts) end;
  rewrite ?(tally_set _ _ _ _ _ Ht) in *; simpl in *.

Ltac bools := repeat match goal with b : bool |- _ => destruct b end; simpl in *.

Lemma fits ts : Z.of_nat (size ts) < 2 ^ 31 -> tally reader ts < 2 ^ 31.
Proof. intros H. pose proof (tally_le_size reader ts ltac:(weight)). lia. Qed.

Lemma read_attempt_flags l ts t i w m wp vp sp vt su :
  m = MRead \/ m = MTry -> Z.of_nat (size ts) < 2 ^ 31 -> ts !! t = Some (Waiting m i w) ->
  flags_ok l ts wp vp sp vt su -> rw l >= 0 -> flags l = 0 ->
  flags_ok (set_rw (s32 (rw l + 1)) l) (<[t := Holding m]> ts) wp vp sp vt su.
Proof.
  intros Hm Hs Ht H Hr Hf.
  assert (tally reader ts < 2 ^ 31 - 1) as Hb.
  { pose proof (tally_le_size reader (<[t := Holding MRead]> ts) ltac:(weight)) as Hle.
    rewrite map_size_insert_Some in Hle by eauto. rewrite (tally_set _ _ _ _ _ Ht) in Hle.
    destruct Hm as [-> | ->]; simpl in Hle; lia. }
  assert ((word wp vp sp vt su =? 0) = true) as Hw by (rewrite <- (fo_word _ _ _ _ _ _ _ H); lia).
  rewrite no_flags in Hw. destruct H.
  assert (s32 (rw l + 1) = rw l + 1) as Es.
  { apply s32_small. unfold is_s32. pose proof (counts_nonneg ts). lia. }
  rewrite Es. constructor; simpl; [done|..];
    (destruct Hm as [-> | ->]; counts Ht; bools; try done; try lia; intuition lia).
Qed.

(** Closes the fields of [flags_ok] after a move. *)
Ltac flags_close Ht := constructor; simpl; autorewrite with ttm_word; [reflexivity|..]; counts Ht; bools; try done; try lia; intuition lia.

Lemma write_attempt_flags l ts t i w wp vp sp vt su :
  ts !! t = Some (Waiting MWrite i w) -> flags_ok l ts wp vp sp vt su ->
  rw l = 0 -> Z.ldiff (flags l) TTM_WRITE_LOCK_PENDING = 0 ->
  flags_ok (clear_flag TTM_WRITE_LOCK_PENDING (set_rw (-1) l)) (<[t := Holding MWrite]> ts) false false false false false.
Proof.
  intros Ht H Hr Hf. destruct H. rewrite fo_word0, clear_wp in Hf.
  assert ((word false vp sp vt su =? 0) = true) as Hw by lia. rewrite no_flags in Hw.
  unfold clear_flag, set_flags. simpl. rewrite fo_word0, clear_wp.
  destruct vp, sp, vt, su; try done. flags_close Ht.
Qed.

Lemma vt_attempt_flags l ts t i w f wp vp sp vt su :
  ts !! t = Some (Waiting (MVt f) i w) -> flags_ok l ts wp vp sp vt su -> rw l = 0 ->
  flags_ok (set_flag TTM_VT_LOCK (clear_flag TTM_VT_LOCK_PENDING l)) (<[t := VtTaken f]> ts) wp false sp true su.
Proof.
  intros Ht H Hr. destruct H. unfold set_flag, clear_flag, set_flags. simpl.
  rewrite fo_word0. flags_close Ht.
Qed.

Lemma suspend_attempt_flags l ts t i w wp vp sp vt su :
  ts !! t = Some (Waiting MSuspend i w) -> flags_ok l ts wp vp sp vt su -> rw l = 0 ->
  flags_ok (set_flag TTM_SUSPEND_LOCK (clear_flag TTM_SUSPEND_LOCK_PENDING l)) (<[t := Holding MSuspend]> ts) wp vp false vt true.
Proof.
  intros Ht H Hr. destruct H. unfold set_flag, clear_flag, set_flags. simpl.
  rewrite fo_word0. flags_close Ht.
Qed.

(** A task that stays in its wait, or leaves it by a signal *)
Definition still_waiting (m : mode) (i : bool) (p : pc) : Prop :=
  p = Waiting m i Queued \/ p = Waiting m i Asleep \/ p = Interrupted m false.

(** [p] and [p'] own the same and [p'] waits for at least as much. *)
Definition same_claims (p p' : pc) : Prop :=
  reader p' = reader p /\ writer p' = writer p /\ vt_owner p' = vt_owner p /\ su_owner p' = su_owner p /\
  vt_pending p' = vt_pending p /\ su_pending p' = su_pending p /\
  w_wait p <= w_wait p' /\ v_wait p <= v_wait p' /\ s_wait p <= s_wait p'.

Lemma same_claims_flags l ts t p p' wp vp sp vt su :
  ts !! t = Some p -> same_claims p p' -> flags_ok l ts wp vp sp vt su -> flags_ok l (<[t := p']> ts) wp vp sp vt su.
Proof.
  intros Ht (E1 & E2 & E3 & E4 & E5 & E6 & L1 & L2 & L3) [].
  constructor; rewrite ?(tally_set _ _ _ _ _ Ht); try done; try lia;
    intros Hx; match goal with F : _ -> _ |- _ => specialize (F Hx); lia end.
Qed.

Lemma still_waiting_claims m i w p' : still_waiting m i p' -> same_claims (Waiting m i w) p'.
Proof. intros [-> | [-> | ->]]; destruct m, w; cbv; intuition congruence. Qed.

(** Pending bits may be set while somebody waits. *)
Lemma set_pending_flags l ts wp vp sp vt su : flags_ok l ts wp vp sp vt su ->
  (0 < tally w_wait ts -> flags_ok (set_flag TTM_WRITE_LOCK_PENDING l) ts true vp sp vt su) /\
  (0 < tally v_wait ts -> flags_ok (set_flag TTM_VT_LOCK_PENDING l) ts wp true sp vt su) /\
  (0 < tally s_wait ts -> flags_ok (set_flag TTM_SUSPEND_LOCK_PENDING l) ts wp vp true vt su).
Proof.
  intros []. unfold set_flag, set_flags. rewrite fo_word0.
  repeat split; simpl; autorewrite with ttm_word; try done; by apply fo_modes0.
Qed.

Lemma bits_ok_intro l ts wp vp sp vt su : flags_ok l ts wp vp sp vt su -> bits_ok l ts.
Proof. intros H. by exists wp, vp, sp, vt, su. Qed.

(** The attempt of a waiting task keeps the invariant, when it succeeds and when it does not. *)
Lemma attempt_took l ts t m i w : bits_ok l ts -> Z.of_nat (size ts) < 2 ^ 31 -> ts !! t = Some (Waiting m i w) ->
  a_ret (attempt_of m l) = true ->
  bits_ok (a_lock (attempt_of m l)) (<[t := after_wait m (a_locked (attempt_of m l))]> ts).
Proof.
  intros (wp & vp & sp & vt & su & H) Hs Ht. destruct m; simpl.
  - unfold __ttm_read_lock. destruct (kill_takers l); [done|]. destruct (_ && _) eqn:E; [|done]. intros _.
    eapply bits_ok_intro, read_attempt_flags; eauto; lia.
  - unfold __ttm_read_trylock. destruct (kill_takers l); [done|]. destruct (_ && _) eqn:E; simpl.
    + intros _. eapply bits_ok_intro, read_attempt_flags; eauto; lia.
    + destruct (flags l =? 0); [|done]. intros _. eapply bits_ok_intro, same_claims_flags; eauto.
      destruct w; cbv; intuition congruence.
  - unfold __ttm_write_lock. destruct (kill_takers l); [done|]. destruct (_ && _) eqn:E; [|done]. intros _.
    eapply bits_ok_intro, write_attempt_flags; eauto; lia.
  - unfold __ttm_vt_lock. destruct (rw l =? 0) eqn:E; [|done]. intros _.
    eapply bits_ok_intro, vt_attempt_flags; eauto; lia.
  - unfold __ttm_suspend_lock. destruct (rw l =? 0) eqn:E; [|done]. intros _.
    eapply bits_ok_intro, suspend_attempt_flags; eauto; lia.
Qed.

Lemma attempt_waits l ts t m i w p' : bits_ok l ts -> ts !! t = Some (Waiting m i w) ->
  a_ret (attempt_of m l) = false -> still_waiting m i p' ->
  bits_ok (a_lock (attempt_of m l)) (<[t := p']> ts) /\ a_locked (attempt_of m l) = false.
Proof.
  intros (wp & vp & sp & vt & su & H) Ht Hr Hp.
  pose proof (same_claims_flags _ _ _ _ _ _ _ _ _ _ Ht (still_waiting_claims m i w p' Hp) H) as H'.
  pose proof (set_pending_flags _ _ _ _ _ _ _ H') as (Hw & Hv & Hu).
  pose proof (counts_ge (<[t := p']> ts) t p' (lookup_insert_eq _ _ _)) as Hc.
  assert (match m with MWrite => w_wait p' = 1 | MVt _ => v_wait p' = 1 | MSuspend => s_wait p' = 1 | _ => True end) as Hm
    by (destruct Hp as [-> | [-> | ->]]; by destruct m).
  destruct m; simpl in *;
    unfold __ttm_read_lock, __ttm_read_trylock, __ttm_write_lock, __ttm_vt_lock, __ttm_suspend_lock in *;
    repeat case_match; try done; (split; [|done]); eapply bits_ok_intro; simpl; try exact H';
    first [apply Hw; lia | apply Hv; lia | apply Hu; lia].
Qed.

Lemma wait_turn_safe t sp s s' :
  safe s -> Z.of_nat (size (tasks s)) < 2 ^ 31 -> wait_turn t sp s = Some s' -> safe s'.
Proof.
  intros [Hf Hp Hb] Hs. unfold wait_turn. destruct (tasks s !! t) as [[m i w| | | |]|] eqn:Ht; try done.
  destruct (a_ret (attempt_of m (lk s))) eqn:Ha.
  - destruct w; try done; intros [= <-]; (constructor; simpl; [by eapply attempt_took| |done]);
      apply map_Forall_insert_2; try done; by destruct m, (a_locked _).
  - pose proof (fun p' => attempt_waits _ _ _ _ _ _ p' Hf Ht Ha) as Hw.
    apply Hp in Ht as Hi.
    destruct w; try done; intros [= <-].
    + constructor; simpl; [apply Hw; by left| |done]. by apply map_Forall_insert_2.
    + destruct (Hw _ (or_introl eq_refl)) as [_ El]. rewrite El.
      constructor; simpl; [apply Hw; unfold still_waiting; destruct (i && sp); auto| |done].
      apply map_Forall_insert_2; [|done]. destruct i, sp; simpl; try done. by destruct m.
Qed.

(** A task of any kind starts with nothing. *)
Lemma tally_start w ts t p : w (Done (Ok tt)) = 0 -> (forall r, w (Done r) = w (Done (Ok tt))) -> is_done (ts !! t) = true ->
  tally w (<[t := p]> ts) = tally w ts + w p.
Proof.
  intros H0 Hr. destruct (ts !! t) as [q|] eqn:Ht; simpl; intros Hd.
  - destruct q; try done. rewrite (tally_set _ _ _ _ _ Ht), Hr, H0. lia.
  - rewrite tally_insert by done. lia.
Qed.

Lemma call_safe t m i s s' : safe s -> orderly (Call t m i) s = true -> call t m i s = Some s' -> safe s'.
Proof.
  intros [(wp & vp & sp & vt & su & H) Hp Hb] Ho. unfold call. destruct (_ && _) eqn:E; [|done]. intros [= <-].
  apply andb_true_iff in E as [Hd Hi]. constructor; simpl; [| |done].
  - apply bits_ok_intro with wp vp sp vt su. destruct H. pose proof (counts_nonneg (tasks s)).
    constructor; rewrite ?tally_start by done; try done;
      destruct m; simpl in *; try lia; intros Hx; match goal with F : _ -> _ |- _ => specialize (F Hx); lia end.
  - apply map_Forall_insert_2; [|done]. destruct m; try done. by destruct i.
Qed.

(** ** Giving the lock back *)

Lemma interrupted_end_safe t s s' : safe s -> interrupted_end t s = Some s' -> safe s'.
Proof.
  intros [(wp & vp & sp & vt & su & H) Hp Hb]. unfold interrupted_end.
  destruct (tasks s !! t) as [[| m b| | |]|] eqn:Ht; try done.
  destruct (Hp _ _ Ht) as [-> Hm]. intros E.
  assert (map_Forall (fun _ p => pc_ok p) (<[t := Done (Err ERESTARTSYS)]> (tasks s))) as Hp' by by apply map_Forall_insert_2.
  destruct m; try done; injection E as <-.
  1-2: constructor; simpl; [|done|by rewrite Hb]; eapply bits_ok_intro, same_claims_flags; eauto; cbv; intuition congruence.
  - apply safe_wake. constructor; simpl; [|done|done]. apply bits_ok_intro with false vp sp vt su.
    destruct H. unfold clear_flag, set_flags. rewrite fo_word0. flags_close Ht.
  - apply safe_wake. constructor; simpl; [|done|done]. apply bits_ok_intro with wp false sp vt su.
    destruct H. unfold clear_flag, set_flags. rewrite fo_word0. flags_close Ht.
Qed.

Lemma register_safe t r s s' : safe s -> ttm_vt_lock_register t r s = Some s' -> safe s'.
Proof.
  intros [(wp & vp & sp & vt & su & H) Hp Hb]. unfold ttm_vt_lock_register.
  destruct (tasks s !! t) as [[| | f| |]|] eqn:Ht; try done. destruct r as [u|e]; intros [= <-].
  - constructor; simpl; [|by apply map_Forall_insert_2|done].
    apply bits_ok_intro with wp vp sp vt su.
    assert (flags_ok (lk s) (<[t := Holding (MVt f)]> (tasks s)) wp vp sp vt su) as []
      by (eapply same_claims_flags; eauto; cbv; intuition congruence). by constructor.
  - apply safe_wake. constructor; simpl; [|by apply map_Forall_insert_2|done].
    apply bits_ok_intro with wp vp sp false su.
    destruct H. unfold clear_flag, set_flags. rewrite fo_word0. flags_close Ht.
Qed.

Lemma read_unlock_flags l ts t m wp vp sp vt su :
  m = MRead \/ m = MTry -> Z.of_nat (size ts) < 2 ^ 31 -> ts !! t = Some (Holding m) -> flags_ok l ts wp vp sp vt su ->
  flags_ok (set_rw (s32 (rw l - 1)) l) (<[t := Done (Ok tt)]> ts) wp vp sp vt su.
Proof.
  intros Hm Hs Ht H. pose proof (fits ts Hs) as Hb. pose proof (counts_ge _ _ _ Ht) as Hc. pose proof (counts_nonneg ts) as Hn.
  assert (reader (Holding m) = 1) as E1 by (by destruct Hm as [-> | ->]). destruct H.
  assert (s32 (rw l - 1) = rw l - 1) as Es by (apply s32_small; unfold is_s32; lia).
  rewrite Es. constructor; simpl; [done|..]; (destruct Hm as [-> | ->]; counts Ht; try done; try lia);
    intros Hx; first [apply fo_modes0; lia | match goal with F : _ -> _ |- _ => specialize (F Hx); lia end].
Qed.

Lemma unlock_safe t s s' : safe s -> Z.of_nat (size (tasks s)) < 2 ^ 31 -> unlock t s = Some s' -> safe s'.
Proof.
  intros [(wp & vp & sp & vt & su & H) Hp Hb] Hs. unfold unlock.
  destruct (tasks s !! t) as [[| | | m|]|] eqn:Ht; try done. intros [= <-].
  assert (map_Forall (fun _ p => pc_ok p) (<[t := Done (Ok tt)]> (tasks s))) as Hp' by by apply map_Forall_insert_2.
  assert (m = MRead \/ m = MTry -> safe (ttm_read_unlock (set_task t (Done (Ok tt)) s))) as Hr.
  { intros Hm. unfold ttm_read_unlock.
    assert (safe (set_lk (set_rw (s32 (rw (lk s) - 1)) (lk s)) (set_task t (Done (Ok tt)) s))) as Hs'.
    { constructor; simpl; [|done|done]. by eapply bits_ok_intro, read_unlock_flags. }
    case_match; [by apply safe_wake|done]. }
  destruct m as [| | |f|]; [by apply Hr; left|by apply Hr; right|..].
  - apply safe_wake. constructor; simpl; [|done|done]. apply bits_ok_intro with wp vp sp vt su.
    destruct H. constructor; simpl; [done|..]; counts Ht; try done; try lia;
      intros Hx; match goal with F : _ -> _ |- _ => specialize (F Hx); lia end.
  - unfold ttm_vt_lock_remove, __ttm_vt_unlock. simpl.
    assert (vt = true) as ->.
    { pose proof (counts_ge _ _ _ Ht) as Hc. simpl in Hc. destruct H. destruct vt; [done|]. simpl in fo_vt0. lia. }
    rewrite (fo_word _ _ _ _ _ _ _ H), has_vt. simpl.
    destruct (safe_wake (set_lk (clear_flag TTM_VT_LOCK (lk s)) (set_task t (Done (Ok tt)) s))) as [Hf' Hp'' Hb''].
    { constructor; simpl; [|done|done]. apply bits_ok_intro with wp vp sp false su.
      destruct H. unfold clear_flag, set_flags. rewrite fo_word0. flags_close Ht. }
    constructor; [exact Hf'|exact Hp''|]. simpl in *. by rewrite Hb''.
  - apply safe_wake. constructor; simpl; [|done|done]. apply bits_ok_intro with wp vp sp vt false.
    destruct H. unfold clear_flag, set_flags. rewrite fo_word0. flags_close Ht.
Qed.

Lemma deliver_safe t s s' : safe s -> deliver t s = Some s' -> safe s'.
Proof.
  intros [(wp & vp & sp & vt & su & H) Hp Hb]. unfold deliver.
  destruct (tasks s !! t) as [[m [] []| | | |]|] eqn:Ht; try done. intros [= <-]. apply Hp in Ht as Hi.
  constructor; simpl; [|by apply map_Forall_insert_2|done].
  eapply bits_ok_intro, same_claims_flags; eauto. apply still_waiting_claims. by left.
Qed.

Lemma step_safe e s s' :
  safe s -> orderly e s = true -> Z.of_nat (size (tasks s)) < 2 ^ 31 -> step e s = Some s' -> safe s'.
Proof.
  intros Hs Ho Hz. destruct e; simpl; intros E.
  - by eapply call_safe.
  - by eapply wait_turn_safe.
  - by eapply deliver_safe.
  - by eapply interrupted_end_safe.
  - by eapply register_safe.
  - by eapply unlock_safe.
  - injection E as <-. destruct Hs as [(wp & vp & sp & vt & su & []) Hp Hb].
    constructor; [|done|done]. exists wp, vp, sp, vt, su. by constructor.
Qed.

Lemma step_size e s s' : step e s = Some s' -> (size (tasks s) <= size (tasks s'))%nat.
Proof.
  destruct e as [t m i|t sp|t|t|t r|t|v n]; simpl;
    unfold call, wait_turn, deliver, interrupted_end, ttm_vt_lock_register, unlock, ttm_read_unlock;
    intros E; repeat case_match; simplify_eq; simpl; rewrite ?map_size_fmap; try apply size_insert_le; done.
Qed.

Lemma exec_size ok es s s' : exec ok es s = Some s' -> (size (tasks s) <= size (tasks s'))%nat.
Proof.
  revert s. induction es as [|e es IH]; intros s; simpl; [by intros [= <-]|].
  destruct (ok e s); [|done]. destruct (step e s) as [s1|] eqn:E; [|done]. intros H.
  apply step_size in E. apply IH in H. lia.
Qed.

(** Rule induction on runs, for invariants that need the bound on the number of tasks *)
Lemma ttm_exec_inv (I : sys -> Prop) ok es s s' :
  (forall e a b, I a -> ok e a = true -> Z.of_nat (size (tasks a)) < 2 ^ 31 -> step e a = Some b -> I b) ->
  I s -> exec ok es s = Some s' -> Z.of_nat (size (tasks s')) < 2 ^ 31 -> I s'.
Proof.
  intros Hstep. revert s. induction es as [|e es IH]; intros s Hi; simpl; [by intros [= <-]|].
  destruct (ok e s) eqn:Ho; [|done]. destruct (step e s) as [s1|] eqn:E; [|done]. intros H Hz.
  apply exec_size in H as Hz1. apply step_size in E as Hz2. apply IH with s1; [|done|done].
  eapply Hstep; eauto. lia.
Qed.

Lemma boot_safe : safe boot.
Proof. constructor; [|apply map_Forall_empty|done]. exists false, false, false, false, false. by constructor. Qed.

(** ** No sleeper is forgotten

    A task asleep cannot take the lock: whatever makes that possible wakes it. *)
Definition can_take (m : mode) (l : ttm_lock) : bool :=
  match m with
  | MRead | MTry => negb (kill_takers l) && (0 <=? rw l) && (flags l =? 0)
  | MWrite => negb (kill_takers l) && (rw l =? 0) && (Z.ldiff (flags l) TTM_WRITE_LOCK_PENDING =? 0)
  | MVt _ | MSuspend => rw l =? 0
  end.

Lemma can_take_attempt m l : a_locked (attempt_of m l) = can_take m l.
Proof.
  destruct m; simpl; unfold __ttm_read_lock, __ttm_read_trylock, __ttm_write_lock, __ttm_vt_lock, __ttm_suspend_lock;
    destruct (kill_takers l); simpl; repeat case_match; simpl in *; congruence.
Qed.

Definition watched (s : sys) : Prop :=
  forall t m i, tasks s !! t = Some (Waiting m i Asleep) -> can_take m (lk s) = false.

(** [l'] lets nobody in whom [l] kept out. *)
Definition no_easier (l l' : ttm_lock) : Prop := forall m, can_take m l = false -> can_take m l' = false.

Lemma wake_watched s : watched (wake_up_all s).
Proof. intros t m i. simpl. rewrite lookup_fmap. destruct (tasks s !! t) as [[? ? []| | | |]|]; done. Qed.

Lemma set_task_watched t p s s' : watched s -> no_easier (lk s) (lk s') -> tasks s' = <[t := p]> (tasks s) ->
  (forall m i, p = Waiting m i Asleep -> can_take m (lk s) = false) -> watched s'.
Proof.
  intros Hw Hl Et Hp t' m i. rewrite Et. destruct (decide (t' = t)) as [->|Hne].
  - rewrite lookup_insert_eq. intros [= ->]. by eapply Hl, Hp.
  - rewrite lookup_insert_ne by done. intros H. by eapply Hl, Hw.
Qed.

Lemma no_easier_refl l : no_easier l l.
Proof. by intros m. Qed.

Lemma attempt_no_easier l ts m : bits_ok l ts -> Z.of_nat (size ts) < 2 ^ 31 -> no_easier l (a_lock (attempt_of m l)).
Proof.
  intros (wp & vp & sp & vt & su & []) Hs m'. pose proof (fits ts Hs) as Hb. pose proof (counts_nonneg ts) as Hn.
  assert (s32 (rw l + 1) = rw l + 1 \/ s32 (rw l + 1) <> 0 /\ rw l = 2 ^ 31 - 1) as Es.
  { destruct (decide (rw l = 2 ^ 31 - 1)) as [->|]; [right; by compute|left; apply s32_small; unfold is_s32; lia]. }
  destruct m, m'; simpl;
    unfold __ttm_read_lock, __ttm_read_trylock, __ttm_write_lock, __ttm_vt_lock, __ttm_suspend_lock;
    rewrite ?fo_word0; destruct (kill_takers l) eqn:Ek; repeat case_match; simpl; rewrite ?Ek, ?fo_word0; simpl;
    autorewrite with ttm_word in *; try lia; try done; try congruence; bools; lia.
Qed.

Lemma step_watched e s s' : safe s -> watched s -> kill_lasts e s = true -> Z.of_nat (size (tasks s)) < 2 ^ 31 ->
  step e s = Some s' -> watched s'.
Proof.
  intros Hs Hw Hk Hz. destruct e as [t m i|t sp|t|t|t r|t|v n]; simpl.
  - unfold call. case_match; [|done]. intros [= <-]. eapply set_task_watched; eauto using no_easier_refl; done.
  - unfold wait_turn. destruct (tasks s !! t) as [[m i w| | | |]|] eqn:Ht; try done.
    pose proof (attempt_no_easier _ _ m (sf_flags _ Hs) Hz) as Hl.
    destruct (a_ret (attempt_of m (lk s))) eqn:Ha.
    + destruct w; try done; intros [= <-]; eapply set_task_watched; eauto; intros m' i' E; by destruct m, (a_locked _).
    + destruct (attempt_waits _ _ _ _ _ _ _ (sf_flags _ Hs) Ht Ha (or_introl eq_refl)) as [_ Hn].
      rewrite can_take_attempt in Hn.
      destruct w; try done; intros [= <-]; (eapply set_task_watched; [exact Hw|exact Hl|done|]); [done|].
      intros m' i' E. destruct (i && sp); [done|]. by injection E as <- <-.
  - unfold deliver. repeat case_match; try done. intros [= <-]. eapply set_task_watched; eauto using no_easier_refl; done.
  - unfold interrupted_end. repeat case_match; try done; intros [= <-]; try apply wake_watched;
      eapply set_task_watched; eauto using no_easier_refl; done.
  - unfold ttm_vt_lock_register. repeat case_match; try done; intros [= <-]; try apply wake_watched.
    eapply set_task_watched; eauto; [|done]. by intros [].
  - unfold unlock. destruct (tasks s !! t) as [[| | | m|]|] eqn:Ht; try done. intros [= <-].
    assert (m = MRead \/ m = MTry -> watched (ttm_read_unlock (set_task t (Done (Ok tt)) s))) as Hr.
    { intros Hm. unfold ttm_read_unlock. case_match eqn:E0; [apply wake_watched|].
      eapply set_task_watched; eauto; [|done]. destruct Hs as [(wp & vp & sp & vt & su & []) _ _].
      pose proof (fits _ Hz). pose proof (counts_ge _ _ _ Ht) as Hc. pose proof (counts_nonneg (tasks s)) as Hn.
      assert (reader (Holding m) = 1) as E1 by (by destruct Hm as [-> | ->]).
      simpl in E0 |- *. rewrite s32_small in * by (unfold is_s32; lia).
      assert ((0 <=? rw (lk s) - 1) = (0 <=? rw (lk s)) /\ (rw (lk s) =? 0) = false) as [E2 E3] by lia.
      intros m'. destruct m'; simpl; rewrite ?E0, ?E2, ?E3; done. }
    destruct m; [by apply Hr; left|by apply Hr; right|..]; try apply wake_watched.
  - intros [= <-]. simpl in Hk. subst v. intros t m i Ht. apply Hw in Ht. destruct m; simpl in *; done.
Qed.

Definition disciplined (e : event) (s : sys) : bool := orderly e s && kill_lasts e s.

Lemma run_safe es s : exec orderly es boot = Some s -> Z.of_nat (size (tasks s)) < 2 ^ 31 -> safe s.
Proof. apply (ttm_exec_inv safe); [|exact boot_safe]. intros e a b Ha Ho Hz. by apply step_safe. Qed.

Lemma run_watched es s : exec disciplined es boot = Some s -> Z.of_nat (size (tasks s)) < 2 ^ 31 -> safe s /\ watched s.
Proof.
  apply (ttm_exec_inv (fun s => safe s /\ watched s)); [|split; [exact boot_safe|done]].
  intros e a b [Ha Hw] Ho Hz E. apply andb_true_iff in Ho as [Ho Hk]. split; [by eapply step_safe|by eapply step_watched].
Qed.

(** The mode in which a task has the lock *)
Definition owns (p : pc) : option mode := match p with Holding m => Some m | VtTaken f => Some (MVt f) | _ => None end.

(** Two tasks may have the lock together: readers, or the two modes that protect against all other users *)
Definition compatible (m m' : mode) : bool :=
  match m, m' with
  | (MRead | MTry), (MRead | MTry) => true
  | MVt _, MSuspend | MSuspend, MVt _ => true
  | _, _ => false
  end.

(** C25: modes of the TTM lock exclude each other.  After any interleaving of
    lock attempts, wake-ups, signals, failed registrations, releases and changes
    of [kill_takers] (with one virtual terminal and one suspend caller at a time
    and fewer than 2^31 tasks) two tasks have the lock together only if both read,
    or one is the virtual terminal and the other the suspend owner; the counter
    tells the readers or the writer; no [BUG_ON] was reached. *)
Theorem ttm_lock_excludes es s :
  exec orderly es boot = Some s -> Z.of_nat (size (tasks s)) < 2 ^ 31 ->
  bug s = false /\ rw (lk s) = tally reader (tasks s) - tally writer (tasks s) /\
  forall t t' p p' m m', t <> t' -> tasks s !! t = Some p -> tasks s !! t' = Some p' ->
    owns p = Some m -> owns p' = Some m' -> compatible m m' = true.
Proof.
  intros He Hz. destruct (run_safe _ _ He Hz) as [(wp & vp & sp & vt & su & []) _ Hb].
  split; [done|]. split; [done|]. intros t t' p p' m m' Hne Ht Ht' Hm Hm'.
  pose proof (counts_ge _ _ _ Ht) as H1. pose proof (counts_ge _ _ _ Ht') as H2. pose proof (counts_nonneg (tasks s)) as H0.
  pose proof (tally_ge2 writer _ _ _ _ _ ltac:(weight) Hne Ht Ht') as H3.
  pose proof (tally_ge2 vt_owner _ _ _ _ _ ltac:(weight) Hne Ht Ht') as H4.
  pose proof (tally_ge2 su_owner _ _ _ _ _ ltac:(weight) Hne Ht Ht') as H5.
  assert (rw (lk s) <> 0 -> tally vt_owner (tasks s) = 0 /\ tally su_owner (tasks s) = 0) as Hmod
    by (intros Hr; destruct (fo_modes0 Hr); subst; done).
  clear He Hz Hb Ht Ht'. destruct p, p'; try done; injection Hm as <-; injection Hm' as <-;
    repeat match goal with m : mode |- _ => destruct m end; simpl in *; try done; exfalso; lia.
Qed.

(** Two readers in, a writer waiting, then a reader that must queue behind it *)
Definition sample_run : list event :=
  [Call 1 MRead false; Run 1 false; Call 2 MTry true; Run 2 false; Call 3 MWrite true; Run 3 false; Run 3 false;
   Call 4 MRead false; Run 4 false; Run 4 false; Call 5 (MVt 7) false; Run 5 false; Unlock 1; Unlock 2].

Lemma ttm_lock_excludes_witness : exists s, exec orderly sample_run boot = Some s /\
  bug s = false /\ rw (lk s) = 0 /\ flags (lk s) = 3.
Proof.
  destruct (exec orderly sample_run boot) as [s|] eqn:E; [|vm_compute in E; discriminate].
  assert (Z.of_nat (size (tasks s)) < 2 ^ 31) as Hz by (vm_compute in E; injection E as <-; vm_compute; reflexivity).
  destruct (ttm_lock_excludes _ _ E Hz) as (Hb & Hr & _). exists s. split; [reflexivity|]. split; [exact Hb|].
  rewrite Hr. vm_compute in E. injection E as <-. vm_compute. split; reflexivity.
Defined.

(** A task that can take the lock is awake, and its next turn takes it. *)
Definition takes_next (t : nat) (s : sys) : Prop :=
  exists m i w, tasks s !! t = Some (Waiting m i w) /\
    forall sigpending, exists s' p, wait_turn t sigpending s = Some s' /\ tasks s' !! t = Some p /\ owns p = Some m.

Lemma can_take_next t m i w s : watched s -> tasks s !! t = Some (Waiting m i w) -> can_take m (lk s) = true -> takes_next t s.
Proof.
  intros Hw Ht Hc. exists m, i, w. split; [done|]. intros sp. unfold wait_turn. rewrite Ht.
  assert (w <> Asleep) as Ha by (intros ->; apply Hw in Ht; congruence).
  rewrite <- can_take_attempt in Hc.
  assert (a_ret (attempt_of m (lk s)) = true) as Hr.
  { revert Hc. destruct m; simpl;
      unfold __ttm_read_lock, __ttm_read_trylock, __ttm_write_lock, __ttm_vt_lock, __ttm_suspend_lock; repeat case_match; done. }
  rewrite Hr, Hc. destruct w; try done; (do 2 eexists; split; [done|]; simpl; rewrite lookup_insert_eq; split; [done|]; by destruct m).
Qed.

Definition wants (p : pc) : bool := match p with Waiting _ _ _ => true | _ => false end.
Definition leaving (p : pc) : bool := match p with Interrupted _ _ => true | _ => false end.

Lemma nobody_owns ts : map_Forall (fun _ p => owns p = None) ts ->
  tally reader ts = 0 /\ tally writer ts = 0 /\ tally vt_owner ts = 0 /\ tally su_owner ts = 0.
Proof.
  intros H. assert (forall w, (forall p, owns p = None -> w p = 0) -> tally w ts = 0) as Hz.
  { intros w Hw. induction ts as [|t p ts Hts IH] using map_ind; [done|]. rewrite tally_insert by done.
    apply map_Forall_insert in H as [Hp H]; [|done]. rewrite (Hw p Hp), IH by done. done. }
  repeat split; apply Hz; intros [| | | |]; simpl; done.
Qed.

Lemma waiter_next (w : pc -> Z) s :
  watched s -> map_Forall (fun _ q => owns q = None /\ leaving q = false) (tasks s) -> 0 < tally w (tasks s) ->
  (forall q, 0 < w q -> leaving q = false -> exists m i x, q = Waiting m i x /\ can_take m (lk s) = true) ->
  exists t, takes_next t s.
Proof.
  intros Hw Hn Hp Hc. apply tally_pos in Hp as (t & q & Hq & Hwq). destruct (Hn _ _ Hq) as [_ Hl].
  destruct (Hc q Hwq Hl) as (m & i & x & -> & Hm). exists t. by eapply can_take_next.
Qed.

(** C26: the TTM lock does not deadlock.  After any interleaving (as before, and
    with [kill_takers] never taken back): when no task has the lock, none is about
    to leave after a signal, takers are not killed and some task waits, then some
    waiting task is awake and its next attempt takes the lock, however the pending
    bits stand.  So no wake-up is lost and no pending bit outlives its waiter. *)
Theorem ttm_lock_no_deadlock es s t p :
  exec disciplined es boot = Some s -> Z.of_nat (size (tasks s)) < 2 ^ 31 ->
  map_Forall (fun _ q => owns q = None /\ leaving q = false) (tasks s) -> kill_takers (lk s) = false ->
  tasks s !! t = Some p -> wants p = true -> exists t', takes_next t' s.
Proof.
  intros He Hz Hn Hk Ht Hp. destruct (run_watched _ _ He Hz) as [[(wp & vp & sp & vt & su & []) _ _] Hw].
  destruct (nobody_owns (tasks s)) as (Er & Ew & Ev & Es); [intros t' q Hq; apply (Hn _ _ Hq)|].
  assert (vt = false /\ su = false) as [-> ->] by (destruct vt, su; simpl in *; lia).
  assert (rw (lk s) = 0) as E0 by lia.
  destruct vp; [apply (waiter_next v_wait); eauto; intros [[] i x| | | |] ? ?; simpl in *; try done; do 3 eexists; split; [done|]; simpl; lia|].
  destruct sp; [apply (waiter_next s_wait); eauto; intros [[] i x| | | |] ? ?; simpl in *; try done; do 3 eexists; split; [done|]; simpl; lia|].
  destruct wp; [apply (waiter_next w_wait); eauto; intros [[] i x| | | |] ? ?; simpl in *; try done; do 3 eexists; split; [done|]; simpl;
                by rewrite Hk, E0, fo_word0|].
  destruct p as [m i x| | | |]; try done. exists t. eapply can_take_next; eauto.
  destruct m; simpl; rewrite ?Hk, ?E0, ?fo_word0; done.
Qed.

Lemma ttm_lock_no_deadlock_witness : exists s, exec disciplined sample_run boot = Some s /\ exists t, takes_next t s.
Proof.
  destruct (exec disciplined sample_run boot) as [s|] eqn:E; [|vm_compute in E; discriminate].
  exists s. split; [reflexivity|]. pose proof E as E'. vm_compute in E'. injection E' as E'.
  apply (ttm_lock_no_deadlock sample_run s 3%nat (Waiting MWrite true Queued) E); subst s; try (vm_compute; reflexivity).
  apply (bool_decide_unpack _). vm_compute. exact I.
Defined.

(** ** Where the restrictions matter *)

(** [ttm_read_trylock] sleeps while the lock is held in write mode, when it last
    looked before the waiting writer got it. *)
Theorem ttm_read_trylock_sleeps_on_writer : exists es s,
  exec disciplined es boot = Some s /\ tasks s !! 1%nat = Some (Holding MWrite) /\ tasks s !! 2%nat = Some (Waiting MTry true Asleep).
Proof.
  exists [Call 0 MRead false; Run 0 false; Call 1 MWrite false; Run 1 false; Run 1 false; Call 2 MTry true; Run 2 false; Run 2 false;
          Unlock 0; Run 2 false; Run 1 false].
  eexists. split; [vm_compute; reflexivity|]. split; reflexivity.
Qed.

(** Two virtual terminal callers: both take the lock, the first release lets a
    reader in beside the second owner, whose release then reaches the [BUG_ON]. *)
Theorem ttm_vt_lock_not_exclusive : exists es s s',
  exec (fun _ _ => true) es boot = Some s /\ tasks s !! 1%nat = Some (Holding (MVt 1)) /\ tasks s !! 2%nat = Some (Holding MRead) /\
  step (Unlock 1) s = Some s' /\ bug s' = true.
Proof.
  exists [Call 0 (MVt 0) false; Run 0 false; Register 0 (Ok tt); Call 1 (MVt 1) false; Run 1 false; Register 1 (Ok tt);
          Unlock 0; Call 2 MRead false; Run 2 false].
  do 2 eexists. split; [vm_compute; reflexivity|]. split; [reflexivity|]. split; [reflexivity|].
  split; [vm_compute; reflexivity|reflexivity].
Qed.

(** [ttm_lock_set_kill] wakes nobody: a task that met [kill_takers] sleeps on
    after it was cleared, with the lock free. *)
Theorem ttm_lock_set_kill_strands : exists es s,
  exec orderly es boot = Some s /\ tasks s !! 0%nat = Some (Waiting MRead false Asleep) /\ size (tasks s) = 1%nat /\
  can_take MRead (lk s) = true.
Proof.
  exists [SetKill true 15; Call 0 MRead false; Run 0 false; Run 0 false; SetKill false 15].
  eexists. split; [vm_compute; reflexivity|]. split; [reflexivity|]. split; reflexivity.
Qed.
