(* ===== verification/Fence.v ===== *)
(** * Fences ([linuxkpi/gplv2/include/linux/dma-fence.h])

    A fence has a SIGNALED and an ENABLE_SIGNAL bit, set by atomic operations,
    and a list of callbacks under a spinlock.  Signalling runs the callbacks;
    this implementation drops the lock around each of them.  A call is a thread
    with a control point; steps are the accesses to the bits, the sections under
    the lock up to the next access to a bit, the calls of the driver (answers are
    inputs of the step) and of the callbacks.  The callback of a waiting thread
    is [dma_fence_default_wait_cb], which wakes it; the others are named only.

    Theorems: a callback runs at most once, only after the fence was signalled
    and never after its removal; once the fence is signalled and nobody is still
    signalling, no callback is left; a wait that reports time left ends on a
    signalled fence; some thread can always go on.  Because the lock is dropped,
    a callback may still run after a call that took it off the list has returned. *)

From S2P Require Import Prelude.
From stdpp Require Import base gmap list option sets.
From Stdlib Require Import ZArith Lia.

#[local] Set Warnings "-clear-no-such-hyp".

#[local] Open Scope Z_scope.

(** [struct dma_fence]: the flag bits, the callbacks, the holder of the lock *)
Record dma_fence := {
  f_signaled : bool; f_stamped : bool; f_enabled : bool; f_timestamp : Z; f_error : Z; f_cbs : list nat; f_lock : option nat }.

Definition set_signaled (f : dma_fence) : dma_fence :=
  {| f_signaled := true; f_stamped := f_stamped f; f_enabled := f_enabled f; f_timestamp := f_timestamp f; f_error := f_error f;
     f_cbs := f_cbs f; f_lock := f_lock f |}.
Definition set_stamp (now : Z) (f : dma_fence) : dma_fence :=
  {| f_signaled := f_signaled f; f_stamped := true; f_enabled := f_enabled f; f_timestamp := now; f_error := f_error f;
     f_cbs := f_cbs f; f_lock := f_lock f |}.
Definition set_enabled (f : dma_fence) : dma_fence :=
  {| f_signaled := f_signaled f; f_stamped := f_stamped f; f_enabled := true; f_timestamp := f_timestamp f; f_error := f_error f;
     f_cbs := f_cbs f; f_lock := f_lock f |}.
Definition set_cbs (l : list nat) (f : dma_fence) : dma_fence :=
  {| f_signaled := f_signaled f; f_stamped := f_stamped f; f_enabled := f_enabled f; f_timestamp := f_timestamp f; f_error := f_error f;
     f_cbs := l; f_lock := f_lock f |}.
Definition set_lock (o : option nat) (f : dma_fence) : dma_fence :=
  {| f_signaled := f_signaled f; f_stamped := f_stamped f; f_enabled := f_enabled f; f_timestamp := f_timestamp f; f_error := f_error f;
     f_cbs := f_cbs f; f_lock := o |}.
Definition dma_fence_set_error (e : Z) (f : dma_fence) : dma_fence :=
  {| f_signaled := f_signaled f; f_stamped := f_stamped f; f_enabled := f_enabled f; f_timestamp := f_timestamp f; f_error := e;
     f_cbs := f_cbs f; f_lock := f_lock f |}.

Definition dma_fence_init : dma_fence :=
  {| f_signaled := false; f_stamped := false; f_enabled := false; f_timestamp := 0; f_error := 0; f_cbs := []; f_lock := None |}.

(** What a thread returns when it is through with the callbacks: a value, or the
    status of the fence *)
Inductive after := Return (r : result Z) | Status.

(** Control points, named after the function and numbered in its order.  A number
    [c] is the callback of the call. *)
Inductive pc :=
| Signal0 (fresh again : result Z)   (** [dma_fence_signal]: the results if it sets the bit or finds it set *)
| Signal1 (r : result Z)             (** time stamp, test of ENABLE_SIGNAL *)
| Signal2 (r : result Z)             (** before the lock *)
| SignalLocked0                      (** [dma_fence_signal_locked] of a driver, before its lock *)
| SignalLocked1                      (** the lock is held *)
| Sub (k : after)                    (** [dma_fence_signal_locked_sub], lock held *)
| Func (c : nat) (k : after)         (** lock dropped, [c] is called *)
| Relock (k : after)
| Add0 (c : nat) | Add1 (c : nat) | Add2 (c : nat) | Add3 (c : nat) (was_set : bool) | Add4 (c : nat) | Add5 (c : nat)
| Remove0 (c : nat)
| Enable0 | Enable1 | Enable2 | Enable3
| IsSignaled0 | IsSignaled1
| Status0 | Status1 | Status2
| Wait0 (c : nat) (intr : bool) (timeout : Z) | Wait1 (c : nat) (intr : bool) (timeout : Z) | Wait2 (c : nat) (intr : bool) (timeout : Z)
| Wait3 (c : nat) (intr : bool) (timeout : Z) (was_set : bool) | Wait4 (c : nat) (intr : bool) (timeout : Z)
| Wait5 (c : nat) (intr : bool) (timeout : Z)
| WaitLoop (c : nat) (intr : bool) (ret : Z) | WaitSleep (c : nat) (intr : bool) (ret : Z) (woken : bool)
| WaitRelock (c : nat) (intr : bool) (ret : Z)
| Done (r : result Z).

(** What happened to callbacks: a call; an addition that returned 0; a removal
    that returned true, or the waiter's own; an addition that was refused *)
Inductive ev := Ran (c : nat) | Added (c : nat) | Removed (c : nat) | Refused (c : nat).

Record sys := { fc : dma_fence; thr : gmap nat pc; used : gset nat; ready : gset nat; log : list ev }.

Definition set_fc (f : dma_fence) (s : sys) : sys := {| fc := f; thr := thr s; used := used s; ready := ready s; log := log s |}.
Definition go (t : nat) (p : pc) (s : sys) : sys := {| fc := fc s; thr := <[t := p]> (thr s); used := used s; ready := ready s; log := log s |}.
Definition note (e : ev) (s : sys) : sys := {| fc := fc s; thr := thr s; used := used s; ready := ready s; log := log s ++ [e] |}.
Definition mark_ready (c : nat) (s : sys) : sys := {| fc := fc s; thr := thr s; used := used s; ready := {[c]} ∪ ready s; log := log s |}.

Definition spin_lock (t : nat) (s : sys) : option sys :=
  match f_lock (fc s) with None => Some (set_fc (set_lock (Some t) (fc s)) s) | Some _ => None end.
Definition spin_unlock (s : sys) : sys := set_fc (set_lock None (fc s)) s.

(** [dma_fence_default_wait_cb]: the waiter whose callback is [c] is made runnable. *)
Definition wake_waiter (c : nat) (p : pc) : pc :=
  match p with WaitSleep c' i r _ => if decide (c' = c) then WaitSleep c' i r true else p | _ => p end.
Definition call_func (c : nat) (s : sys) : sys :=
  note (Ran c) {| fc := fc s; thr := wake_waiter c <$> thr s; used := used s; ready := ready s; log := log s |}.

(** [dma_fence_get_status_locked] of a signalled fence: [error ?: 1] *)
Definition status_of (f : dma_fence) : Z := if f_error f =? 0 then 1 else f_error f.
Definition result_of (k : after) (f : dma_fence) : result Z := match k with Return r => r | Status => Ok (status_of f) end.

(** [dma_fence_signal_locked] up to the callbacks: whether the bit was already set *)
Definition signal_bit (now : Z) (f : dma_fence) : bool * dma_fence :=
  if f_signaled f then (true, f) else (false, set_stamp now (set_signaled f)).

(** Inputs of a step: the answer of [enable_signaling], [signaled] or
    [signal_pending], the clock, the value of [schedule_timeout] *)
Record input := { i_yes : bool; i_now : Z; i_left : Z }.

(** [-ERESTARTSYS] *)
Definition RESTARTSYS : Z := -512.

(** ** The functions, one step at a time *)

(** [dma_fence_signal_locked_sub] and the end of its caller, which drops the lock and returns *)
Definition dma_fence_signal_locked_sub (t : nat) (p : pc) (s : sys) : option sys :=
  match p with
  | Sub k =>
      match f_cbs (fc s) with
      | [] => Some (go t (Done (result_of k (fc s))) (spin_unlock s))
      | c :: l => Some (go t (Func c k) (spin_unlock (set_fc (set_cbs l (fc s)) s)))
      end
  | Func c k => Some (go t (Relock k) (call_func c s))
  | Relock k => s ← spin_lock t s; Some (go t (Sub k) s)
  | _ => None
  end.

Definition dma_fence_signal_locked (t : nat) (i : input) (p : pc) (s : sys) : option sys :=
  match p with
  | SignalLocked0 => s ← spin_lock t s; Some (go t SignalLocked1 s)
  | SignalLocked1 =>
      let (was, f) := signal_bit (i_now i) (fc s) in
      Some (go t (Sub (Return (if was then Err EINVAL else Ok 0))) (set_fc f s))
  | _ => None
  end.

Definition dma_fence_signal (t : nat) (i : input) (p : pc) (s : sys) : option sys :=
  match p with
  | Signal0 fresh again =>
      if f_signaled (fc s) then Some (go t (Done again) s) else Some (go t (Signal1 fresh) (set_fc (set_signaled (fc s)) s))
  | Signal1 r =>
      let s := set_fc (set_stamp (i_now i) (fc s)) s in
      if f_enabled (fc s) then Some (go t (Signal2 r) s) else Some (go t (Done r) s)
  | Signal2 r => s ← spin_lock t s; Some (go t (Sub (Return r)) s)
  | _ => None
  end.

Definition dma_fence_enable_sw_signaling (t : nat) (i : input) (p : pc) (s : sys) : option sys :=
  match p with
  | Enable0 => Some (go t (if f_enabled (fc s) then Done (Ok 0) else Enable1) (set_fc (set_enabled (fc s)) s))
  | Enable1 => Some (go t (if f_signaled (fc s) then Done (Ok 0) else Enable2) s)
  | Enable2 => s ← spin_lock t s; Some (go t Enable3 s)
  | Enable3 =>
      if i_yes i then Some (go t (Done (Ok 0)) (spin_unlock s))
      else Some (go t (Sub (Return (Ok 0))) (set_fc (signal_bit (i_now i) (fc s)).2 s))
  | _ => None
  end.

Definition dma_fence_is_signaled (t : nat) (i : input) (p : pc) (s : sys) : option sys :=
  match p with
  | IsSignaled0 => Some (go t (if f_signaled (fc s) then Done (Ok 1) else IsSignaled1) s)
  | IsSignaled1 => Some (go t (if i_yes i then Signal0 (Ok 1) (Ok 1) else Done (Ok 0)) s)
  | _ => None
  end.

(** [dma_fence_get_status] with [dma_fence_get_status_locked] and [dma_fence_is_signaled_locked] *)
Definition dma_fence_get_status (t : nat) (i : input) (p : pc) (s : sys) : option sys :=
  match p with
  | Status0 => s ← spin_lock t s; Some (go t Status1 s)
  | Status1 =>
      if f_signaled (fc s) then Some (go t (Done (Ok (status_of (fc s)))) (spin_unlock s)) else Some (go t Status2 s)
  | Status2 =>
      if i_yes i then Some (go t (Sub Status) (set_fc (signal_bit (i_now i) (fc s)).2 s))
      else Some (go t (Done (Ok 0)) (spin_unlock s))
  | _ => None
  end.

(** An addition that does not take place *)
Definition refuse (c : nat) (s : sys) : sys := mark_ready c (note (Refused c) s).

Definition dma_fence_add_callback (t : nat) (i : input) (p : pc) (s : sys) : option sys :=
  match p with
  | Add0 c => if f_signaled (fc s) then Some (go t (Done (Err ENOENT)) (refuse c s)) else Some (go t (Add1 c) s)
  | Add1 c => s ← spin_lock t s; Some (go t (Add2 c) s)
  | Add2 c => Some (go t (Add3 c (f_enabled (fc s))) (set_fc (set_enabled (fc s)) s))
  | Add3 c was_set =>
      if f_signaled (fc s) then Some (go t (Done (Err ENOENT)) (spin_unlock (refuse c s)))
      else Some (go t (if was_set then Add5 c else Add4 c) s)
  | Add4 c =>
      if i_yes i then Some (go t (Add5 c) s)
      else Some (go t (Sub (Return (Err ENOENT))) (refuse c (set_fc (signal_bit (i_now i) (fc s)).2 s)))
  | Add5 c =>
      Some (go t (Done (Ok 0)) (spin_unlock (mark_ready c (note (Added c) (set_fc (set_cbs (f_cbs (fc s) ++ [c]) (fc s)) s)))))
  | _ => None
  end.

(** [list_del_init]: the list without [c] *)
Definition unlink (c : nat) (l : list nat) : list nat := filter (fun x => x <> c) l.

(** Takes [c] off the list if it is there. *)
Definition unlink_cb (c : nat) (s : sys) : sys :=
  if decide (c ∈ f_cbs (fc s)) then note (Removed c) (set_fc (set_cbs (unlink c (f_cbs (fc s))) (fc s)) s) else s.

Definition dma_fence_remove_callback (t : nat) (p : pc) (s : sys) : option sys :=
  match p with
  | Remove0 c =>
      match f_lock (fc s) with
      | None => Some (go t (Done (Ok (if decide (c ∈ f_cbs (fc s)) then 1 else 0))) (unlink_cb c s))
      | Some _ => None
      end
  | _ => None
  end.

Definition dma_fence_default_wait (t : nat) (i : input) (p : pc) (s : sys) : option sys :=
  match p with
  | Wait0 c intr timeout => if f_signaled (fc s) then Some (go t (Done (Ok timeout)) (refuse c s)) else Some (go t (Wait1 c intr timeout) s)
  | Wait1 c intr timeout => s ← spin_lock t s; Some (go t (Wait2 c intr timeout) s)
  | Wait2 c intr timeout =>
      if intr && i_yes i then Some (go t (Done (Err ERESTARTSYS)) (spin_unlock (refuse c s)))
      else Some (go t (Wait3 c intr timeout (f_enabled (fc s))) (set_fc (set_enabled (fc s)) s))
  | Wait3 c intr timeout was_set =>
      if f_signaled (fc s) then Some (go t (Done (Ok timeout)) (spin_unlock (refuse c s)))
      else Some (go t (if was_set then Wait5 c intr timeout else Wait4 c intr timeout) s)
  | Wait4 c intr timeout =>
      if i_yes i then Some (go t (Wait5 c intr timeout) s)
      else Some (go t (Sub (Return (Ok timeout))) (refuse c (set_fc (signal_bit (i_now i) (fc s)).2 s)))
  | Wait5 c intr timeout =>
      Some (go t (WaitLoop c intr timeout) (mark_ready c (note (Added c) (set_fc (set_cbs (c :: f_cbs (fc s)) (fc s)) s))))
  | WaitLoop c intr ret =>
      if negb (f_signaled (fc s)) && (0 <? ret) then Some (go t (WaitSleep c intr ret false) (spin_unlock s))
      else Some (go t (Done (if ret =? RESTARTSYS then Err ERESTARTSYS else Ok ret)) (spin_unlock (unlink_cb c s)))
  | WaitSleep c intr ret woken =>
      if (i_left i =? 0) || ((woken || i_yes i) && (0 <? i_left i) && (i_left i <=? ret))
      then Some (go t (WaitRelock c intr (i_left i)) s) else None
  | WaitRelock c intr ret =>
      s ← spin_lock t s; Some (go t (WaitLoop c intr (if (0 <? ret) && intr && i_yes i then RESTARTSYS else ret)) s)
  | _ => None
  end.

Definition step (t : nat) (i : input) (s : sys) : option sys :=
  p ← thr s !! t;
  match p with
  | Signal0 _ _ | Signal1 _ | Signal2 _ => dma_fence_signal t i p s
  | SignalLocked0 | SignalLocked1 => dma_fence_signal_locked t i p s
  | Sub _ | Func _ _ | Relock _ => dma_fence_signal_locked_sub t p s
  | Add0 _ | Add1 _ | Add2 _ | Add3 _ _ | Add4 _ | Add5 _ => dma_fence_add_callback t i p s
  | Remove0 _ => dma_fence_remove_callback t p s
  | Enable0 | Enable1 | Enable2 | Enable3 => dma_fence_enable_sw_signaling t i p s
  | IsSignaled0 | IsSignaled1 => dma_fence_is_signaled t i p s
  | Status0 | Status1 | Status2 => dma_fence_get_status t i p s
  | Wait0 _ _ _ | Wait1 _ _ _ | Wait2 _ _ _ | Wait3 _ _ _ _ | Wait4 _ _ _ | Wait5 _ _ _
  | WaitLoop _ _ _ | WaitSleep _ _ _ _ | WaitRelock _ _ _ => dma_fence_default_wait t i p s
  | Done _ => None
  end.

(** Calls; a callback structure is used for one addition, and removed when its addition has returned *)
Inductive op := OSignal | OSignalLocked | OAdd (c : nat) | ORemove (c : nat) | OEnable | OIsSignaled | OStatus
| OWaitTimeout (c : nat) (intr : bool) (timeout : Z).

(** [dma_fence_wait_timeout] *)
Definition dma_fence_wait_timeout (c : nat) (intr : bool) (timeout : Z) : pc :=
  let timeout := s32 timeout in
  if timeout <? 0 then Done (Err EINVAL) else if timeout =? 0 then IsSignaled0 else Wait0 c intr timeout.

Definition entry_point (o : op) : pc :=
  match o with
  | OSignal => Signal0 (Ok 0) (Err EINVAL)
  | OSignalLocked => SignalLocked0
  | OAdd c => Add0 c
  | ORemove c => Remove0 c
  | OEnable => Enable0
  | OIsSignaled => IsSignaled0
  | OStatus => Status0
  | OWaitTimeout c intr timeout => dma_fence_wait_timeout c intr timeout
  end.

(** The callback a call brings with it *)
Definition brings (p : pc) : option nat := match p with Add0 c | Wait0 c _ _ => Some c | _ => None end.

Definition call (t : nat) (o : op) (s : sys) : option sys :=
  let p := entry_point o in
  if match thr s !! t with None | Some (Done _) => true | _ => false end
     && match o with ORemove c => bool_decide (c ∈ ready s) | _ => true end
  then match brings p with
       | Some c =>
           if decide (c ∈ used s) then None
           else Some (go t p {| fc := fc s; thr := thr s; used := {[c]} ∪ used s; ready := ready s; log := log s |})
       | None => Some (go t p s)
       end
  else None.

Inductive event := Call (t : nat) (o : op) | Step (t : nat) (i : input) | SetError (e : Z).

Definition next (e : event) (s : sys) : option sys :=
  match e with
  | Call t o => call t o s
  | Step t i => step t i s
  | SetError e => Some (set_fc (dma_fence_set_error e (fc s)) s)
  end.

Fixpoint exec (es : list event) (s : sys) : option sys :=
  match es with [] => Some s | e :: es => s1 ← next e s; exec es s1 end.

Definition boot : sys := {| fc := dma_fence_init; thr := ∅; used := ∅; ready := ∅; log := [] |}.

(** ** The invariant *)

(** The lock is held at these points. *)
Definition holds (p : pc) : bool :=
  match p with
  | SignalLocked1 | Sub _ | Add2 _ | Add3 _ _ | Add4 _ | Add5 _ | Enable3 | Status1 | Status2
  | Wait2 _ _ _ | Wait3 _ _ _ _ | Wait4 _ _ _ | Wait5 _ _ _ | WaitLoop _ _ _ => true
  | _ => false
  end.

(** The callback [c] is in the hands of a thread: being added, or about to be called. *)
Definition adding (c : nat) (p : pc) : Z :=
  match p with
  | Add0 x | Add1 x | Add2 x | Add3 x _ | Add4 x | Add5 x | Wait0 x _ _ | Wait1 x _ _ | Wait2 x _ _ | Wait3 x _ _ _
  | Wait4 x _ _ | Wait5 x _ _ => one c x
  | _ => 0
  end.
Definition calling (c : nat) (p : pc) : Z := match p with Func x _ => one c x | _ => 0 end.

(** ENABLE_SIGNAL was set by this thread; it found SIGNALED clear afterwards and is going to add its callback. *)
Definition past_enable (p : pc) : Z := match p with Add3 _ _ | Add4 _ | Add5 _ | Wait3 _ _ _ _ | Wait4 _ _ _ | Wait5 _ _ _ => 1 | _ => 0 end.
Definition committed (p : pc) : Z := match p with Add4 _ | Add5 _ | Wait4 _ _ _ | Wait5 _ _ _ => 1 | _ => 0 end.

(** This thread is going to look at the callbacks of the signalled fence. *)
Definition signalling (p : pc) : Z := match p with Signal1 _ | Signal2 _ | Sub _ | Func _ _ | Relock _ => 1 | _ => 0 end.

Definition ran (c : nat) (e : ev) : Z := match e with Ran x => one c x | _ => 0 end.
Definition added (c : nat) (e : ev) : Z := match e with Added x => one c x | _ => 0 end.
Definition removed (c : nat) (e : ev) : Z := match e with Removed x => one c x | _ => 0 end.
Definition refused (c : nat) (e : ev) : Z := match e with Refused x => one c x | _ => 0 end.

Record inv (s : sys) : Prop := {
  iv_lock : forall t p, thr s !! t = Some p -> holds p = true -> f_lock (fc s) = Some t;
  iv_holder : forall t, f_lock (fc s) = Some t -> exists p, thr s !! t = Some p /\ holds p = true;
  (** every callback that came in is in one place *)
  iv_one : forall c, tally (adding c) (thr s) + tally (calling c) (thr s) + lsum (one c) (f_cbs (fc s)) + lsum (ran c) (log s)
    + lsum (removed c) (log s) + lsum (refused c) (log s) = if decide (c ∈ used s) then 1 else 0;
  (** what was added is on the list, called or removed *)
  iv_added : forall c, lsum (added c) (log s) =
    lsum (one c) (f_cbs (fc s)) + tally (calling c) (thr s) + lsum (ran c) (log s) + lsum (removed c) (log s);
  iv_enabled : f_cbs (fc s) <> [] \/ 0 < tally past_enable (thr s) -> f_enabled (fc s) = true;
  iv_signalling : f_signaled (fc s) = true -> f_cbs (fc s) <> [] \/ 0 < tally committed (thr s) -> 0 < tally signalling (thr s);
  iv_signaled : forall t p, thr s !! t = Some p -> signalling p = 1 -> f_signaled (fc s) = true;
  iv_ran : forall c, 0 < lsum (ran c) (log s) -> f_signaled (fc s) = true }.

(** The state after thread [t] went from [p] to [p'], the fence became [f] and [es] was noted *)
Definition moved (t : nat) (p' : pc) (f : dma_fence) (es : list ev) (s s' : sys) : Prop :=
  fc s' = f /\ thr s' = <[t := p']> (thr s) /\ used s' = used s /\ log s' = log s ++ es.

(** The conditions on such a move *)
Record fair (t : nat) (p p' : pc) (f : dma_fence) (es : list ev) (s : sys) : Prop := {
  fr_lock : f_lock f = (if holds p' then Some t else if holds p then None else f_lock (fc s));
  fr_take : holds p = false -> holds p' = true -> f_lock (fc s) = None;
  fr_one : forall c, adding c p' + calling c p' + lsum (one c) (f_cbs f) + lsum (ran c) es + lsum (removed c) es + lsum (refused c) es
    = adding c p + calling c p + lsum (one c) (f_cbs (fc s));
  fr_added : forall c, lsum (added c) es + lsum (one c) (f_cbs (fc s)) + calling c p
    = lsum (one c) (f_cbs f) + calling c p' + lsum (ran c) es + lsum (removed c) es;
  fr_enabled : f_enabled f = true \/
    f_enabled f = f_enabled (fc s) /\ past_enable p' <= past_enable p /\ (f_cbs (fc s) = [] -> f_cbs f = []);
  fr_signalling : f_signaled f = true -> signalling p' = 1 \/ f_cbs f = [] /\ tally committed (<[t := p']> (thr s)) = 0
    \/ f_signaled (fc s) = true /\ signalling p = 0 /\ committed p' <= committed p /\
       (f_cbs (fc s) = [] -> committed p = 0 -> f_cbs f = []);
  fr_signaled : f_signaled (fc s) = true -> f_signaled f = true;
  fr_mine : signalling p' = 1 -> f_signaled f = true;
  fr_ran : forall c, 0 < lsum (ran c) es -> f_signaled f = true }.

Lemma inv_moved t p p' f es s s' : inv s -> thr s !! t = Some p -> moved t p' f es s s' -> fair t p p' f es s -> inv s'.
Proof.
  intros H Ht (Ef & Eth & Eu & El) F. destruct H, F. constructor; rewrite ?Ef, ?Eth, ?Eu, ?El.
  - intros t' q Hq Hh. destruct (decide (t' = t)) as [->|Hne].
    + rewrite lookup_insert_eq in Hq. injection Hq as ->. by rewrite fr_lock0, Hh.
    + rewrite lookup_insert_ne in Hq by done. pose proof (iv_lock0 _ _ Hq Hh) as E. rewrite fr_lock0.
      destruct (holds p') eqn:E'; [destruct (holds p) eqn:Ep|destruct (holds p) eqn:Ep; [|done]].
      * pose proof (iv_lock0 _ _ Ht Ep). congruence.
      * rewrite (fr_take0 eq_refl eq_refl) in E. done.
      * pose proof (iv_lock0 _ _ Ht Ep). congruence.
  - intros t'. rewrite fr_lock0. destruct (holds p') eqn:E'; [intros [= <-]; exists p'; by rewrite lookup_insert_eq|].
    destruct (holds p) eqn:Ep; [done|]. intros E. destruct (iv_holder0 _ E) as (q & Hq & Hh). exists q.
    rewrite lookup_insert_ne; [done|]. intros ->. congruence.
  - intros c. rewrite !(tally_set _ _ _ _ _ Ht), !lsum_app. specialize (iv_one0 c). specialize (fr_one0 c). lia.
  - intros c. rewrite !(tally_set _ _ _ _ _ Ht), !lsum_app. specialize (iv_added0 c). specialize (fr_added0 c). lia.
  - intros Hc. destruct fr_enabled0 as [?|(E & Hp & Hl)]; [done|]. rewrite E. apply iv_enabled0.
    rewrite (tally_set _ _ _ _ _ Ht) in Hc. destruct Hc as [Hc|Hc]; [left; intros E0; by apply Hc, Hl|right; lia].
  - intros Hs Hc. pose proof (tally_nonneg signalling (thr s) ltac:(intros []; simpl; lia)).
    pose proof (tally_ge signalling _ _ _ ltac:(intros []; simpl; lia) Ht).
    destruct (fr_signalling0 Hs) as [E|[[E1 E2]|(E1 & E2 & E3 & E4)]].
    + rewrite (tally_set _ _ _ _ _ Ht), E. lia.
    + rewrite E2 in Hc. destruct Hc; [done|lia].
    + rewrite (tally_set signalling _ _ _ _ Ht). rewrite (tally_set committed _ _ _ _ Ht) in Hc. pose proof (tally_ge committed _ _ _ ltac:(intros []; simpl; lia) Ht).
      assert (signalling p' >= 0) by (destruct p'; simpl; lia).
      enough (0 < tally signalling (thr s)) by lia. apply iv_signalling0; [done|].
      destruct Hc as [Hc|Hc]; [|right; lia]. destruct (f_cbs (fc s)) as [|x l] eqn:El0; [|by left]. right.
      destruct (decide (committed p = 0)) as [E0|E0]; [by destruct Hc; apply E4|destruct p; simpl in *; lia].
  - intros t' q Hq Hp. destruct (decide (t' = t)) as [->|Hne].
    + rewrite lookup_insert_eq in Hq. injection Hq as ->. by apply fr_mine0.
    + rewrite lookup_insert_ne in Hq by done. by eapply fr_signaled0, iv_signaled0.
  - intros c. rewrite lsum_app. intros Hc. destruct (decide (0 < lsum (ran c) es)) as [Hr|Hr]; [by apply (fr_ran0 c)|].
    apply fr_signaled0, (iv_ran0 c). lia.
Qed.

(** Threads that sleep have no part in the invariant. *)
Lemma inv_wake c s : inv s -> inv {| fc := fc s; thr := wake_waiter c <$> thr s; used := used s; ready := ready s; log := log s |}.
Proof.
  assert (forall p, holds (wake_waiter c p) = holds p /\ signalling (wake_waiter c p) = signalling p) as Hw
    by (intros []; simpl; try done; by destruct (decide _)).
  assert (forall w : pc -> Z, (forall c' i r b b', w (WaitSleep c' i r b) = w (WaitSleep c' i r b')) ->
    tally w (wake_waiter c <$> thr s) = tally w (thr s)) as Ht.
  { intros w E. apply tally_fmap. intros []; simpl; try done. destruct (decide _); [apply E|done]. }
  assert (forall t q, (wake_waiter c <$> thr s) !! t = Some q -> exists p, thr s !! t = Some p /\ q = wake_waiter c p) as Hl.
  { intros t q. rewrite lookup_fmap. destruct (thr s !! t) as [p|]; [|done]. intros [= <-]. by exists p. }
  intros []. constructor; simpl; rewrite ?Ht by done; try (intros c'; rewrite ?Ht by done); auto.
  - intros q Hq Hh. destruct (Hl _ _ Hq) as (p & Hp & ->). destruct (Hw p) as [E _]. rewrite E in Hh. by eapply iv_lock0.
  - intros E. destruct (iv_holder0 _ E) as (p & Hp & Hh). exists (wake_waiter c p).
    rewrite lookup_fmap, Hp. destruct (Hw p) as [E' _]. by rewrite E'.
  - intros q Hq Hp. destruct (Hl _ _ Hq) as (p & Hp' & ->). destruct (Hw p) as [_ E]. rewrite E in Hp. by eapply iv_signaled0.
  - apply iv_ran0.
Qed.

(** Closes the conditions of a move. *)
Ltac fair_tac :=
  constructor; simpl; intros; rewrite ?lsum_app; simpl;
  try done; try lia; try (left; done); try (left; lia); try congruence;
  try (right; split; [reflexivity|split; [lia|(done || (intros; congruence))]]);
  try (right; right; split; [(done || congruence)|split; [reflexivity|split; [lia|(done || (intros; congruence))]]]).

Ltac moved_tac := unfold moved; simpl; rewrite ?app_nil_r; done.

(** [moves es] for a step that notes [es] *)
Ltac moves H Ht es :=
  match goal with |- inv (go _ ?p' ?s1) =>
    eapply (inv_moved _ _ p' (fc s1) es _ _ H Ht); [moved_tac|]; unfold signal_bit in *; fair_tac end.

(** The lock at a control point that holds it *)
Ltac holder H Ht := pose proof (iv_lock _ H _ _ Ht eq_refl) as Hlock.

Lemma spin_lock_some t s s' : spin_lock t s = Some s' -> f_lock (fc s) = None /\ s' = set_fc (set_lock (Some t) (fc s)) s.
Proof. unfold spin_lock. destruct (f_lock (fc s)); [done|]. by intros [= <-]. Qed.

Ltac take_lock :=
  let s1 := fresh "s1" in let E := fresh "E" in
  intros (s1 & E & [= <-])%bind_Some; apply spin_lock_some in E as [? ->].

Lemma nobody_commits s t p : inv s -> thr s !! t = Some p -> committed p = 0 -> holds p = true -> tally committed (thr s) = 0.
Proof.
  intros H Ht Hc Hh. destruct (decide (0 < tally committed (thr s))) as [Hp|Hp].
  - apply tally_pos in Hp as (t' & q & Hq & Hw). assert (holds q = true) as Hq' by (by destruct q).
    pose proof (iv_lock _ H _ _ Ht Hh). pose proof (iv_lock _ H _ _ Hq Hq'). assert (t' = t) as -> by congruence.
    rewrite Ht in Hq. injection Hq as ->. lia.
  - pose proof (tally_nonneg committed (thr s) ltac:(intros []; simpl; lia)). lia.
Qed.

Lemma not_enabled s : inv s -> f_enabled (fc s) = false -> f_cbs (fc s) = [] /\ tally committed (thr s) = 0.
Proof.
  intros H He. destruct (f_cbs (fc s)) as [|x l] eqn:El.
  - split; [done|]. destruct (decide (0 < tally committed (thr s))) as [Hp|Hp].
    + apply tally_pos in Hp as (t & q & Hq & Hw).
      assert (past_enable q = 1) as Hq' by (by destruct q).
      pose proof (tally_ge past_enable _ _ _ ltac:(intros []; simpl; lia) Hq).
      rewrite (iv_enabled _ H) in He; [done|right; lia].
    + pose proof (tally_nonneg committed (thr s) ltac:(intros []; simpl; lia)). lia.
  - rewrite (iv_enabled _ H) in He; [done|left; congruence].
Qed.

Lemma past_enabled s t p : inv s -> thr s !! t = Some p -> past_enable p = 1 -> f_enabled (fc s) = true.
Proof.
  intros H Ht Hp. apply (iv_enabled _ H). right.
  pose proof (tally_ge past_enable _ _ _ ltac:(intros []; simpl; lia) Ht). lia.
Qed.

Lemma signal_inv t i p s s' : inv s -> thr s !! t = Some p -> dma_fence_signal t i p s = Some s' -> inv s'.
Proof.
  intros H Ht. destruct p; try done; simpl.
  - destruct (f_signaled (fc s)) eqn:Es; intros [= <-]; moves H Ht (@nil ev).
  - pose proof (iv_signaled _ H _ _ Ht eq_refl) as Es. destruct (f_enabled (fc s)) eqn:Ee; intros [= <-]; moves H Ht (@nil ev).
    destruct (not_enabled _ H Ee) as [E1 E2]. right. left. rewrite (tally_set _ _ _ _ _ Ht). simpl. split; [done|lia].
  - pose proof (iv_signaled _ H _ _ Ht eq_refl) as Es. take_lock. moves H Ht (@nil ev).
Qed.

Lemma sub_inv t p s s' : inv s -> thr s !! t = Some p -> dma_fence_signal_locked_sub t p s = Some s' -> inv s'.
Proof.
  intros H Ht. destruct p as [| | | | | k|c k|k| | | | | | | | | | | | | | | | | | | | | | | | | |]; try done; simpl;
    pose proof (iv_signaled _ H _ _ Ht eq_refl) as Es.
  - holder H Ht. pose proof (nobody_commits _ _ _ H Ht eq_refl eq_refl) as Hc.
    destruct (f_cbs (fc s)) as [|c l] eqn:El; intros [= <-]; moves H Ht (@nil ev); rewrite ?El in *; simpl; try lia;
      try (right; split; [reflexivity|split; [lia|done]]).
    right. left. rewrite (tally_set _ _ _ _ _ Ht). simpl. split; [done|lia].
  - intros [= <-]. apply (inv_wake c) in H.
    assert (thr {| fc := fc s; thr := wake_waiter c <$> thr s; used := used s; ready := ready s; log := log s |} !! t = Some (Func c k))
      as Ht' by (simpl; by rewrite lookup_fmap, Ht). unfold call_func. moves H Ht' [Ran c].
  - take_lock. moves H Ht (@nil ev).
Qed.

Lemma signal_locked_inv t i p s s' : inv s -> thr s !! t = Some p -> dma_fence_signal_locked t i p s = Some s' -> inv s'.
Proof.
  intros H Ht. destruct p; try done; simpl.
  - take_lock. moves H Ht (@nil ev).
  - holder H Ht. unfold signal_bit. destruct (f_signaled (fc s)) eqn:Es; intros [= <-]; moves H Ht (@nil ev).
Qed.

Lemma fence_enable_inv t i p s s' : inv s -> thr s !! t = Some p -> dma_fence_enable_sw_signaling t i p s = Some s' -> inv s'.
Proof.
  intros H Ht. destruct p; try done; simpl.
  - destruct (f_enabled (fc s)) eqn:Ee; intros [= <-]; moves H Ht (@nil ev).
  - destruct (f_signaled (fc s)) eqn:Es; intros [= <-]; moves H Ht (@nil ev).
  - take_lock. moves H Ht (@nil ev).
  - holder H Ht. unfold signal_bit. destruct (i_yes i), (f_signaled (fc s)) eqn:Es; intros [= <-]; moves H Ht (@nil ev).
Qed.

Lemma is_signaled_inv t i p s s' : inv s -> thr s !! t = Some p -> dma_fence_is_signaled t i p s = Some s' -> inv s'.
Proof.
  intros H Ht. destruct p; try done; simpl.
  - destruct (f_signaled (fc s)) eqn:Es; intros [= <-]; moves H Ht (@nil ev).
  - destruct (i_yes i); intros [= <-]; moves H Ht (@nil ev).
Qed.

Lemma status_inv t i p s s' : inv s -> thr s !! t = Some p -> dma_fence_get_status t i p s = Some s' -> inv s'.
Proof.
  intros H Ht. destruct p; try done; simpl.
  - take_lock. moves H Ht (@nil ev).
  - holder H Ht. destruct (f_signaled (fc s)) eqn:Es; intros [= <-]; moves H Ht (@nil ev).
  - holder H Ht. unfold signal_bit. destruct (i_yes i), (f_signaled (fc s)) eqn:Es; intros [= <-]; moves H Ht (@nil ev).
Qed.

Lemma add_inv t i p s s' : inv s -> thr s !! t = Some p -> dma_fence_add_callback t i p s = Some s' -> inv s'.
Proof.
  intros H Ht. destruct p; try done; simpl.
  - destruct (f_signaled (fc s)) eqn:Es; intros [= <-]; [moves H Ht [Refused c]|moves H Ht (@nil ev)].
  - take_lock. moves H Ht (@nil ev).
  - holder H Ht. intros [= <-]. moves H Ht (@nil ev).
  - holder H Ht. destruct (f_signaled (fc s)) eqn:Es; [|destruct was_set]; intros [= <-];
      [moves H Ht [Refused c]|moves H Ht (@nil ev)..].
  - holder H Ht. unfold signal_bit. destruct (i_yes i); [|destruct (f_signaled (fc s)) eqn:Es]; intros [= <-];
      [moves H Ht (@nil ev)|moves H Ht [Refused c]..].
  - holder H Ht. pose proof (past_enabled _ _ _ H Ht eq_refl). intros [= <-]. moves H Ht [Added c].
Qed.

(** The list holds every callback at most once. *)
Lemma lsum_unlink c x l : lsum (one x) (unlink c l) = if decide (x = c) then 0 else lsum (one x) l.
Proof.
  unfold unlink. induction l as [|y l IH]; simpl; [by destruct (decide _)|].
  rewrite filter_cons. destruct (decide (y <> c)) as [Hy|Hy]; simpl; rewrite IH; unfold one; repeat destruct (decide _); subst; try done; lia.
Qed.

Lemma logged_nonneg s c : 0 <= lsum (ran c) (log s) /\ 0 <= lsum (removed c) (log s) /\ 0 <= lsum (refused c) (log s)
  /\ 0 <= tally (adding c) (thr s) /\ 0 <= tally (calling c) (thr s) /\ 0 <= lsum (one c) (f_cbs (fc s)).
Proof.
  assert (forall x, 0 <= one c x) as Ho by apply one_ge0.
  split_and!; try (apply lsum_nonneg; intros []; simpl; auto; lia); try (apply tally_nonneg; intros []; simpl; auto; lia).
Qed.

Lemma on_list_once s c : inv s -> c ∈ f_cbs (fc s) -> lsum (one c) (f_cbs (fc s)) = 1.
Proof.
  intros H Hc. apply lsum_one in Hc. pose proof (iv_one _ H c) as E. pose proof (logged_nonneg s c).
  destruct (decide (c ∈ used s)); lia.
Qed.

Definition unlinked (c : nat) (s : sys) : list ev := if decide (c ∈ f_cbs (fc s)) then [Removed c] else [].

Lemma unlink_counts c s x : inv s ->
  lsum (one x) (f_cbs (fc (unlink_cb c s))) + lsum (removed x) (unlinked c s) = lsum (one x) (f_cbs (fc s)).
Proof.
  intros H. unfold unlink_cb, unlinked. destruct (decide (c ∈ f_cbs (fc s))) as [Hc|Hc]; simpl; [|lia].
  rewrite lsum_unlink. unfold one at 2. destruct (decide (x = c)) as [->|Hx]; [rewrite on_list_once by done|];
    destruct (decide _); try done; lia.
Qed.

Lemma unlink_same c s :
  f_lock (fc (unlink_cb c s)) = f_lock (fc s) /\ f_enabled (fc (unlink_cb c s)) = f_enabled (fc s) /\
  f_signaled (fc (unlink_cb c s)) = f_signaled (fc s) /\ thr (unlink_cb c s) = thr s /\ used (unlink_cb c s) = used s /\
  log (unlink_cb c s) = log s ++ unlinked c s /\ (f_cbs (fc s) = [] -> f_cbs (fc (unlink_cb c s)) = []).
Proof.
  unfold unlink_cb, unlinked. destruct (decide _) as [Hc|Hc]; simpl; rewrite ?app_nil_r; split_and!; try done.
  intros E. by rewrite E.
Qed.

Lemma unlinked_events c s x : lsum (ran x) (unlinked c s) = 0 /\ lsum (added x) (unlinked c s) = 0 /\ lsum (refused x) (unlinked c s) = 0.
Proof. unfold unlinked. by destruct (decide _). Qed.

(** A call takes its callback off the list and returns; [f] is the fence it leaves. *)
Lemma unlink_inv t c p r f s s' :
  inv s -> thr s !! t = Some p -> (forall x, adding x p = 0 /\ calling x p = 0) -> signalling p = 0 ->
  f = set_lock (if holds p then None else f_lock (fc s)) (fc (unlink_cb c s)) ->
  moved t (Done r) f (unlinked c s) s s' -> inv s'.
Proof.
  intros H Ht Hp Hs -> Hm. eapply inv_moved; [exact H|exact Ht|exact Hm|].
  destruct (unlink_same c s) as (E1 & E2 & E3 & E4 & E5 & E6 & E7).
  constructor; simpl; try done.
  - intros x. destruct (Hp x) as [-> ->]. pose proof (unlink_counts c s x H). destruct (unlinked_events c s x) as (-> & _ & ->). lia.
  - intros x. destruct (Hp x) as [_ ->]. pose proof (unlink_counts c s x H). destruct (unlinked_events c s x) as (-> & -> & _). lia.
  - right. split; [done|]. split; [destruct p; simpl; lia|done].
  - intros Hf. right. right. rewrite E3 in Hf. split; [done|]. split; [done|]. split; [destruct p; simpl; lia|auto].
  - congruence.
  - intros x. destruct (unlinked_events c s x) as (-> & _). lia.
Qed.

Lemma fence_remove_inv t p s s' : inv s -> thr s !! t = Some p -> dma_fence_remove_callback t p s = Some s' -> inv s'.
Proof.
  intros H Ht. destruct p; try done; simpl. destruct (f_lock (fc s)) as [x|] eqn:El; [done|]. intros [= <-].
  destruct (unlink_same c s) as (E1 & E2 & E3 & E4 & E5 & E6 & E7).
  eapply (unlink_inv t c); [exact H|exact Ht|done|done|reflexivity|]. split_and!; simpl; [|by rewrite E4|done|done].
  rewrite El, <- El, <- E1. by destruct (fc (unlink_cb c s)).
Qed.

Lemma wait_inv t i p s s' : inv s -> thr s !! t = Some p -> dma_fence_default_wait t i p s = Some s' -> inv s'.
Proof.
  intros H Ht. destruct p; try done; simpl.
  - destruct (f_signaled (fc s)) eqn:Es; intros [= <-]; [moves H Ht [Refused c]|moves H Ht (@nil ev)].
  - take_lock. moves H Ht (@nil ev).
  - holder H Ht. destruct (intr && i_yes i); intros [= <-]; [moves H Ht [Refused c]|moves H Ht (@nil ev)].
  - holder H Ht. destruct (f_signaled (fc s)) eqn:Es; [|destruct was_set]; intros [= <-];
      [moves H Ht [Refused c]|moves H Ht (@nil ev)..].
  - holder H Ht. unfold signal_bit. destruct (i_yes i); [|destruct (f_signaled (fc s)) eqn:Es]; intros [= <-];
      [moves H Ht (@nil ev)|moves H Ht [Refused c]..].
  - holder H Ht. pose proof (past_enabled _ _ _ H Ht eq_refl). intros [= <-]. moves H Ht [Added c].
  - holder H Ht. destruct (_ && _); intros [= <-]; [moves H Ht (@nil ev)|].
    destruct (unlink_same c s) as (E1 & E2 & E3 & E4 & E5 & E6 & E7).
    eapply (unlink_inv t c); [exact H|exact Ht|done|done|reflexivity|].
    by split_and!; simpl; [|rewrite E4|..].
  - destruct (_ || _); [|done]. intros [= <-]. moves H Ht (@nil ev).
  - take_lock. moves H Ht (@nil ev).
Qed.

(** ** All runs *)

Lemma inv_start s t p u : inv s -> match thr s !! t with None | Some (Done _) => true | _ => false end = true ->
  holds p = false -> signalling p = 0 -> past_enable p = 0 -> (forall c, calling c p = 0) ->
  (forall c, adding c p + (if decide (c ∈ used s) then 1 else 0) = if decide (c ∈ u) then 1 else 0) ->
  inv (go t p {| fc := fc s; thr := thr s; used := u; ready := ready s; log := log s |}).
Proof.
  intros H Hd Hh Hs Hp Hc Ha.
  assert (forall w : pc -> Z, (forall r, w (Done r) = 0) -> tally w (<[t := p]> (thr s)) = tally w (thr s) + w p) as Hw.
  { intros w Hw. destruct (thr s !! t) as [q|] eqn:E; [destruct q; try done|].
    - rewrite (tally_set _ _ _ _ _ E), Hw. lia.
    - rewrite tally_insert by done. lia. }
  assert (committed p = 0) as Hcm by (destruct p; simpl in *; lia).
  destruct H. constructor; simpl; try intros c0; rewrite ?Hw by done; rewrite ?Hc, ?Hs, ?Hp, ?Hcm, ?Z.add_0_r; auto.
  - intros q. destruct (decide (c0 = t)) as [->|Hne]; [rewrite lookup_insert_eq; intros [= <-]; congruence|].
    rewrite lookup_insert_ne by done. apply iv_lock0.
  - intros E. destruct (iv_holder0 _ E) as (q & Hq & Hh'). exists q. rewrite lookup_insert_ne; [done|].
    intros ->. rewrite Hq in Hd. by destruct q.
  - specialize (iv_one0 c0). specialize (Ha c0). lia.
  - apply iv_enabled0. by rewrite Hw, Hp, Z.add_0_r in c0 by done.
  - intros q. destruct (decide (c0 = t)) as [->|Hne]; [rewrite lookup_insert_eq; intros [= <-]; lia|].
    rewrite lookup_insert_ne by done. apply iv_signaled0.
  - apply iv_ran0.
Qed.

Lemma fence_call_inv t o s s' : inv s -> call t o s = Some s' -> inv s'.
Proof.
  intros H. unfold call. destruct (_ && _) eqn:Hd; [|done]. apply andb_true_iff in Hd as [Hd _].
  assert (holds (entry_point o) = false /\ signalling (entry_point o) = 0 /\ past_enable (entry_point o) = 0 /\ (forall c, calling c (entry_point o) = 0))
    as (E1 & E2 & E3 & E4) by (destruct o; simpl; try done; unfold dma_fence_wait_timeout; by repeat case_match).
  assert (forall x, adding x (entry_point o) = match brings (entry_point o) with Some c => one x c | None => 0 end) as Ea
    by (intros x; destruct o; simpl; try done; unfold dma_fence_wait_timeout;
        destruct (s32 timeout <? 0); [done|]; by destruct (s32 timeout =? 0)).
  destruct (brings (entry_point o)) as [c|].
  - destruct (decide (c ∈ used s)) as [|Hc]; [done|]. intros [= <-]. apply inv_start; try done.
    intros x. rewrite Ea. unfold one. repeat destruct (decide _); try lia; set_solver.
  - intros [= <-]. pose proof (inv_start s t (entry_point o) (used s) H Hd E1 E2 E3 E4) as Hi. destruct s. apply Hi.
    intros x. by rewrite Ea.
Qed.

Lemma fence_next_inv e s s' : inv s -> next e s = Some s' -> inv s'.
Proof.
  intros H. destruct e as [t o|t i|e]; simpl; [by apply fence_call_inv| |].
  - unfold step. destruct (thr s !! t) as [p|] eqn:Ht; [|done]. cbn [mbind option_bind]. intros E. destruct p; [..|done];
      lazymatch type of E with
      | dma_fence_signal _ _ _ _ = _ => exact (signal_inv _ _ _ _ _ H Ht E)
      | dma_fence_signal_locked _ _ _ _ = _ => exact (signal_locked_inv _ _ _ _ _ H Ht E)
      | dma_fence_signal_locked_sub _ _ _ = _ => exact (sub_inv _ _ _ _ H Ht E)
      | dma_fence_add_callback _ _ _ _ = _ => exact (add_inv _ _ _ _ _ H Ht E)
      | dma_fence_remove_callback _ _ _ = _ => exact (fence_remove_inv _ _ _ _ H Ht E)
      | dma_fence_enable_sw_signaling _ _ _ _ = _ => exact (fence_enable_inv _ _ _ _ _ H Ht E)
      | dma_fence_is_signaled _ _ _ _ = _ => exact (is_signaled_inv _ _ _ _ _ H Ht E)
      | dma_fence_get_status _ _ _ _ = _ => exact (status_inv _ _ _ _ _ H Ht E)
      | dma_fence_default_wait _ _ _ _ = _ => exact (wait_inv _ _ _ _ _ H Ht E)
      end.
  - intros [= <-]. destruct H. by constructor.
Qed.

Lemma boot_inv : inv boot.
Proof.
  constructor; simpl; try done.
  intros [?|Hp]; [done|]. by vm_compute in Hp.
Qed.

Lemma exec_reach (P : sys -> Prop) es s s' :
  (forall e a b, P a -> next e a = Some b -> P b) -> P s -> exec es s = Some s' -> P s'.
Proof.
  intros Hn. revert s. induction es as [|e es IH]; intros s Hs; simpl; [by intros [= <-]|].
  intros (s1 & E & H)%bind_Some. exact (IH s1 (Hn _ _ _ Hs E) H).
Qed.

Lemma run_inv es s : exec es boot = Some s -> inv s.
Proof. apply (exec_reach inv); [intros e a b; apply fence_next_inv|exact boot_inv]. Qed.

Lemma log_count c s : Added c ∈ log s -> 0 < lsum (added c) (log s).
Proof.
  intros H. apply (lsum_elem (added c)) in H; [|intros []; simpl; try lia; apply one_ge0].
  simpl in H. unfold one in H. destruct (decide (c = c)); [lia|done].
Qed.

(** C20: callbacks of a fence.  After any interleaving of calls: a callback is
    called, taken off by a removal or refused at most once, and only one of these;
    it is called only when the fence is signalled; and when the fence is signalled
    and no thread is still signalling, the list is empty and every callback whose
    addition returned 0 has been called or removed. *)
Theorem dma_fence_callbacks_once es s c : exec es boot = Some s ->
  lsum (ran c) (log s) + lsum (removed c) (log s) + lsum (refused c) (log s) <= 1 /\
  (0 < lsum (ran c) (log s) -> f_signaled (fc s) = true) /\
  (f_signaled (fc s) = true -> tally signalling (thr s) = 0 ->
   f_cbs (fc s) = [] /\ (Added c ∈ log s -> lsum (ran c) (log s) + lsum (removed c) (log s) = 1)).
Proof.
  intros H%run_inv. pose proof (logged_nonneg s c) as Hn. pose proof (iv_one _ H c) as E.
  split; [destruct (decide (c ∈ used s)); lia|]. split; [apply (iv_ran _ H c)|]. intros Hs Hq.
  assert (f_cbs (fc s) = []) as El.
  { destruct (f_cbs (fc s)) as [|x l] eqn:El; [done|]. pose proof (iv_signalling _ H Hs) as Hp. rewrite El in Hp.
    specialize (Hp ltac:(by left)). lia. }
  split; [done|]. intros Ha%log_count. pose proof (iv_added _ H c) as Ea. rewrite El in *. simpl in *.
  assert (tally (calling c) (thr s) = 0) as E0.
  { destruct (decide (0 < tally (calling c) (thr s))) as [(t & p & Ht & Hp)%tally_pos|]; [|lia].
    assert (signalling p = 1) as Hsp by (by destruct p).
    pose proof (tally_ge signalling _ _ _ ltac:(intros []; simpl; lia) Ht). lia. }
  destruct (decide (c ∈ used s)); lia.
Qed.

Definition yes : input := {| i_yes := true; i_now := 5; i_left := 0 |}.
Definition no : input := {| i_yes := false; i_now := 5; i_left := 0 |}.

(** A callback is added, a waiter sleeps, the fence is signalled and both are called. *)
Definition sample_run : list event :=
  [Call 1 (OAdd 10)] ++ repeat (Step 1 yes) 6 ++ [Call 2 (OWaitTimeout 20 true 100)] ++ repeat (Step 2 no) 6 ++
  [Call 3 OSignal] ++ repeat (Step 3 no) 10 ++ repeat (Step 2 no) 3.

Lemma dma_fence_callbacks_once_witness : exists s, exec sample_run boot = Some s /\ Added 10 ∈ log s /\
  lsum (ran 10) (log s) + lsum (removed 10) (log s) = 1.
Proof.
  destruct (exec sample_run boot) as [s|] eqn:E; [|vm_compute in E; discriminate].
  exists s. split; [reflexivity|].
  assert (f_signaled (fc s) = true /\ tally signalling (thr s) = 0 /\ Added 10 ∈ log s) as (H1 & H2 & H3).
  { vm_compute in E. injection E as <-. split; [reflexivity|]. split; [reflexivity|]. left. }
  split; [exact H3|]. apply (dma_fence_callbacks_once _ _ 10 E); assumption.
Defined.

(** A step of the thread that holds the lock is always possible. *)
Lemma holder_steps t i p s : thr s !! t = Some p -> holds p = true -> is_Some (step t i s).
Proof.
  intros Ht Hh. unfold step. rewrite Ht. destruct p; try done; simpl; unfold signal_bit; repeat case_match; eauto.
Qed.

Lemma free_steps t p s : thr s !! t = Some p -> f_lock (fc s) = None -> (forall r, p <> Done r) -> is_Some (step t no s).
Proof.
  intros Ht Hl Hd. unfold step, spin_lock. rewrite Ht.
  destruct p; simpl; unfold spin_lock; rewrite ?Hl; simpl; unfold signal_bit; repeat case_match; eauto; by edestruct Hd.
Qed.

(** C24: calls on a fence do not block each other for ever, and a wait tells the
    truth.  In every reachable state, if some call has not returned then some
    thread can take a step; and a call other than a removal that returns a
    positive number (a wait with time left, a query, a status) leaves the fence
    signalled. *)
Theorem dma_fence_wait_truthful es s t p : exec es boot = Some s -> thr s !! t = Some p -> (forall r, p <> Done r) ->
  (exists t' i s', step t' i s = Some s') /\
  forall i s' v, (forall c, p <> Remove0 c) -> step t i s = Some s' -> thr s' !! t = Some (Done (Ok v)) -> 0 < v ->
    f_signaled (fc s') = true.
Proof.
  intros H%run_inv Ht Hd. split.
  - destruct (f_lock (fc s)) as [h|] eqn:El.
    + destruct (iv_holder _ H _ El) as (q & Hq & Hh). destruct (holder_steps h no q s Hq Hh) as [s' E]. by exists h, no, s'.
    + destruct (free_steps t p s Ht El Hd) as [s' E]. by exists t, no, s'.
  - intros i s' v Hr. unfold step. rewrite Ht. pose proof (iv_signaled _ H _ _ Ht) as Hs. clear Hd.
    destruct p; try done; cbn [mbind option_bind]; try by destruct (Hr c).
    all: try specialize (Hs eq_refl); simpl; unfold signal_bit, spin_lock; intros E Hv Hpos.
    all: repeat case_match; simplify_eq; simpl in *; rewrite ?lookup_insert_eq in Hv; simplify_eq; try done; try lia.
    all: destruct (f_signaled (fc s)) eqn:Es; simpl in *; try rewrite lookup_insert_eq in Hv; try done; try lia.
    destruct (unlink_same c s) as (_ & _ & -> & _). done.
Qed.

Lemma dma_fence_wait_truthful_witness : exists s, exec (take 19 sample_run) boot = Some s /\
  exists t i s', step t i s = Some s'.
Proof.
  destruct (exec (take 19 sample_run) boot) as [s|] eqn:E; [|vm_compute in E; discriminate].
  exists s. split; [reflexivity|].
  assert (thr s !! 2%nat = Some (WaitSleep 20 true 100 false)) as Ht by (vm_compute in E; injection E as <-; reflexivity).
  apply (dma_fence_wait_truthful _ s 2%nat _ E Ht); discriminate.
Defined.

(** ** Callbacks that come late

    [dma_fence_remove_callback] answers false, which says that the callback was
    called, while another thread is still about to call it. *)
Theorem callback_after_removal : exists es s s',
  exec es boot = Some s /\ thr s !! 3%nat = Some (Done (Ok 0)) /\ log s = [Added 10] /\
  step 2 no s = Some s' /\ log s' = [Added 10; Ran 10].
Proof.
  exists ([Call 1 (OAdd 10)] ++ repeat (Step 1 yes) 6 ++ [Call 2 OSignal] ++ repeat (Step 2 no) 4 ++ [Call 3 (ORemove 10); Step 3 no]).
  do 2 eexists. split; [vm_compute; reflexivity|]. split; [reflexivity|]. split; [reflexivity|]. split; [vm_compute; reflexivity|reflexivity].
Qed.

(** A waiter whose time is over returns while the signalling thread is about to
    call its callback, a local variable of the wait. *)
Theorem waiter_gone_before_callback : exists es s s',
  exec es boot = Some s /\ thr s !! 1%nat = Some (Done (Ok 0)) /\ step 2 no s = Some s' /\ log s' = [Added 10; Ran 10].
Proof.
  exists ([Call 1 (OWaitTimeout 10 false 3)] ++ repeat (Step 1 yes) 6 ++ [Step 1 no] ++ [Call 2 OSignal] ++ repeat (Step 2 no) 4
          ++ repeat (Step 1 no) 3).
  do 2 eexists. split; [vm_compute; reflexivity|]. split; [reflexivity|]. split; [vm_compute; reflexivity|reflexivity].
Qed.
