(* ===== verification/FenceArray.v ===== *)
(** * Fence arrays ([linuxkpi/gplv2/src/linux_dmafence.c])

    A fence that stands for several: it is signalled when all of them are, or
    when the first of them is.  [dma_fence_array_enable_signaling] adds a callback
    to each; the callbacks and the loop count [num_pending] down and whoever
    reaches zero signals the array.  Members are fences with the contract proved
    in [Fence]: an addition is refused when the member is signalled (or its driver
    makes it so), else the callback is called once, after the member was signalled.

    Theorem: the array is signalled only when enough members are, it is when all
    calls are over, and its reference count is what callbacks and creator hold. *)

From S2P Require Import Prelude Fence.
From stdpp Require Import base gmap list option.
From Stdlib Require Import ZArith Lia.

#[local] Set Warnings "-clear-no-such-hyp".

#[local] Open Scope Z_scope.

(** [dma_fence_context_alloc]: the first of [num] new contexts, and the counter *)
Definition dma_fence_context_alloc (num counter : Z) : Z * Z := (u64 (u64 (counter + num) - num), u64 (counter + num)).

(** [dma_fence_is_later] on sequence numbers of one context *)
Definition dma_fence_is_later (context1 seqno1 context2 seqno2 : Z) : bool :=
  if context1 =? context2 then seqno2 <? seqno1 else false.

(** The callback of a member: not yet added, on its list, called and before the
    count, before [dma_fence_signal], before [dma_fence_put], through; or refused:
    before the count, through *)
Inductive cb_state := Fresh | Listed | Counting | Signalling | Putting | Gone | Refusing | RefusedGone.

Record member := { m_signaled : bool; m_cb : cb_state }.

(** [dma_fence_array_enable_signaling], called with the lock of the array: before
    the call, at the member [i], returned; [EnFalse] is before the caller's
    [dma_fence_signal_locked]. *)
Inductive enabling := EnIdle | EnAt (i : nat) | EnDec (i : nat) | EnFalse | EnDone.

(** [struct dma_fence_array] with its members *)
Record dma_fence_array := {
  num_fences : nat; num_pending : Z; fences : gmap nat member; base_signaled : bool; refcount : Z; en : enabling }.

Definition set_member (i : nat) (m : member) (a : dma_fence_array) : dma_fence_array :=
  {| num_fences := num_fences a; num_pending := num_pending a; fences := <[i := m]> (fences a); base_signaled := base_signaled a;
     refcount := refcount a; en := en a |}.
Definition set_en (e : enabling) (a : dma_fence_array) : dma_fence_array :=
  {| num_fences := num_fences a; num_pending := num_pending a; fences := fences a; base_signaled := base_signaled a;
     refcount := refcount a; en := e |}.
Definition add_ref (n : Z) (a : dma_fence_array) : dma_fence_array :=
  {| num_fences := num_fences a; num_pending := num_pending a; fences := fences a; base_signaled := base_signaled a;
     refcount := refcount a + n; en := en a |}.
Definition signal_base (a : dma_fence_array) : dma_fence_array :=
  {| num_fences := num_fences a; num_pending := num_pending a; fences := fences a; base_signaled := true;
     refcount := refcount a; en := en a |}.

(** [atomic_dec_and_test(&array->num_pending)] *)
Definition dec_and_test (a : dma_fence_array) : bool * dma_fence_array :=
  let n := s32 (num_pending a - 1) in
  (n =? 0, {| num_fences := num_fences a; num_pending := n; fences := fences a; base_signaled := base_signaled a;
              refcount := refcount a; en := en a |}).

(** Members given by their SIGNALED bits *)
Definition dma_fence_array_create (bits : list bool) (signal_on_any : bool) : dma_fence_array :=
  {| num_fences := length bits; num_pending := if signal_on_any then 1 else Z.of_nat (length bits);
     fences := list_to_map (zip (seq 0 (length bits)) ((fun b => {| m_signaled := b; m_cb := Fresh |}) <$> bits));
     base_signaled := false; refcount := 1; en := EnIdle |}.

Definition dma_fence_array_signaled (a : dma_fence_array) : bool := num_pending a <=? 0.

(** One step of [dma_fence_array_cb_func] of member [i] *)
Definition dma_fence_array_cb_func (i : nat) (a : dma_fence_array) : option dma_fence_array :=
  m ← fences a !! i;
  let at_ c := set_member i {| m_signaled := m_signaled m; m_cb := c |} in
  match m_cb m with
  | Counting => let (zero, a) := dec_and_test a in Some (at_ (if zero then Signalling else Putting) a)
  | Signalling => Some (at_ Putting (signal_base a))
  | Putting => Some (at_ Gone (add_ref (-1) a))
  | _ => None
  end.

(** One step of [dma_fence_array_enable_signaling]: [refuses] says that the driver
    of the member does not enable signalling, which signals the member. *)
Definition dma_fence_array_enable_signaling (refuses : bool) (a : dma_fence_array) : option dma_fence_array :=
  match en a with
  | EnIdle => Some (set_en (EnAt 0) a)
  | EnAt i =>
      if (i <? num_fences a)%nat then
        m ← fences a !! i;
        let a := add_ref 1 a in
        if m_signaled m || refuses
        then Some (set_en (EnDec i) (add_ref (-1) (set_member i {| m_signaled := true; m_cb := Refusing |} a)))
        else Some (set_en (EnAt (S i)) (set_member i {| m_signaled := m_signaled m; m_cb := Listed |} a))
      else Some (set_en EnDone a)
  | EnDec i =>
      m ← fences a !! i;
      let (zero, a) := dec_and_test (set_member i {| m_signaled := m_signaled m; m_cb := RefusedGone |} a) in
      Some (set_en (if zero then EnFalse else EnAt (S i)) a)
  | EnFalse => Some (set_en EnDone (signal_base a))
  | EnDone => None
  end.

(** A member is signalled; its callback is called. *)
Definition member_signal (i : nat) (a : dma_fence_array) : option dma_fence_array :=
  m ← fences a !! i; Some (set_member i {| m_signaled := true; m_cb := m_cb m |} a).
Definition member_call (i : nat) (a : dma_fence_array) : option dma_fence_array :=
  m ← fences a !! i;
  if m_signaled m && match m_cb m with Listed => true | _ => false end
  then Some (set_member i {| m_signaled := true; m_cb := Counting |} a) else None.

Inductive event := Enable (refuses : bool) | Member (i : nat) | CallMember (i : nat) | Func (i : nat).

Definition next (e : event) (a : dma_fence_array) : option dma_fence_array :=
  match e with
  | Enable r => dma_fence_array_enable_signaling r a
  | Member i => member_signal i a
  | CallMember i => member_call i a
  | Func i => dma_fence_array_cb_func i a
  end.

Fixpoint exec (es : list event) (a : dma_fence_array) : option dma_fence_array :=
  match es with [] => Some a | e :: es => a1 ← next e a; exec es a1 end.

(** ** Counting *)

(** The member was counted; the member is signalled; its callback has a reference. *)
Definition counted (m : member) : Z := match m_cb m with Signalling | Putting | Gone | RefusedGone => 1 | _ => 0 end.
Definition signaled (m : member) : Z := if m_signaled m then 1 else 0.
Definition has_ref (m : member) : Z := match m_cb m with Listed | Counting | Signalling | Putting => 1 | _ => 0 end.
Definition to_signal (m : member) : Z := match m_cb m with Signalling => 1 | _ => 0 end.

(** A callback that was called has a signalled member. *)
Definition member_ok (m : member) : Prop := match m_cb m with Fresh | Listed => True | _ => m_signaled m = true end.

(** The loop passed the members below its position. *)
Definition visited (e : enabling) (i : nat) (m : member) : Prop :=
  match e with
  | EnIdle => m_cb m = Fresh
  | EnAt j => m_cb m = Fresh <-> (j <= i)%nat
  | EnDec j => (m_cb m = Fresh <-> (j < i)%nat) /\ (m_cb m = Refusing <-> i = j)
  | EnFalse | EnDone => True
  end /\ (m_cb m = Refusing -> e = EnDec i).

(** [need]: how many members the array waits for *)
Record inv (need : Z) (a : dma_fence_array) : Prop := {
  iv_need : 0 <= need <= Z.of_nat (num_fences a) \/ need = 1;
  iv_small : Z.of_nat (num_fences a) < 2 ^ 31;
  iv_dom : forall i, is_Some (fences a !! i) <-> (i < num_fences a)%nat;
  iv_pending : num_pending a = need - tally counted (fences a);
  iv_members : map_Forall (fun i m => member_ok m /\ visited (en a) i m) (fences a);
  iv_base : base_signaled a = true -> need <= tally counted (fences a);
  iv_signal : 0 < need -> need <= tally counted (fences a) ->
    base_signaled a = true \/ 0 < tally to_signal (fences a) \/ en a = EnFalse;
  iv_justified : 0 < tally to_signal (fences a) \/ en a = EnFalse -> need <= tally counted (fences a);
  iv_done : en a = EnDone -> base_signaled a = true \/ forall i m, fences a !! i = Some m -> m_cb m <> Fresh;
  iv_ref : refcount a = 1 + tally has_ref (fences a) }.

Lemma member_counts a i m : fences a !! i = Some m ->
  counted m <= tally counted (fences a) /\ to_signal m <= tally to_signal (fences a) /\
  0 <= tally counted (fences a) /\ 0 <= tally to_signal (fences a).
Proof.
  intros H. split_and!; first [apply tally_ge with i|apply tally_nonneg]; try done; intros [? []]; simpl; unfold counted, to_signal; simpl; lia.
Qed.

Lemma inv_size need a : inv need a -> Z.of_nat (size (fences a)) = Z.of_nat (num_fences a).
Proof.
  intros H. rewrite <- size_dom.
  assert (dom (fences a) = set_seq 0 (num_fences a)) as ->; [|by rewrite size_set_seq].
  apply set_eq. intros i. rewrite elem_of_dom, elem_of_set_seq, (iv_dom _ _ H). lia.
Qed.

Lemma counted_bound need a : inv need a -> 0 <= tally counted (fences a) <= Z.of_nat (num_fences a).
Proof.
  intros H. rewrite <- (inv_size _ _ H). split.
  - apply tally_nonneg. intros [? []]; unfold counted; simpl; lia.
  - apply tally_le_size. intros [? []]; unfold counted; simpl; lia.
Qed.

(** The array after member [i] became [m'] *)
Lemma inv_member need a a' i m m' : inv need a -> fences a !! i = Some m ->
  num_fences a' = num_fences a -> fences a' = <[i := m']> (fences a) ->
  num_pending a' = num_pending a - (counted m' - counted m) ->
  member_ok m' -> visited (en a') i m' -> (forall j q, j <> i -> fences a !! j = Some q -> visited (en a) j q -> visited (en a') j q) ->
  refcount a' = refcount a + has_ref m' - has_ref m ->
  (base_signaled a' = true -> need <= tally counted (fences a')) ->
  (0 < need -> need <= tally counted (fences a') -> base_signaled a' = true \/ 0 < tally to_signal (fences a') \/ en a' = EnFalse) ->
  (0 < tally to_signal (fences a') \/ en a' = EnFalse -> need <= tally counted (fences a')) ->
  (en a' = EnDone -> base_signaled a' = true \/ forall j q, fences a' !! j = Some q -> m_cb q <> Fresh) ->
  inv need a'.
Proof.
  intros H Hm En Ef Ep Ho Hv Hvo Er Hb Hs Hj Hd. pose proof (inv_size _ _ H). destruct H. constructor; try done; try by rewrite En.
  - intros j. rewrite En, Ef, <- iv_dom0. destruct (decide (j = i)) as [->|Hne].
    + rewrite lookup_insert_eq, Hm. split; eauto.
    + by rewrite lookup_insert_ne.
  - rewrite Ep, Ef, (tally_set _ _ _ _ _ Hm), iv_pending0. lia.
  - intros j q. rewrite Ef. destruct (decide (j = i)) as [->|Hne]; [rewrite lookup_insert_eq; by intros [= <-]|].
    rewrite lookup_insert_ne by done. intros Hq. destruct (iv_members0 _ _ Hq). split; [done|]. by apply Hvo.
  - rewrite Er, Ef, (tally_set _ _ _ _ _ Hm), iv_ref0. lia.
Qed.

(** [atomic_dec_and_test] does not wrap around. *)
Lemma dec_and_test_small need a : inv need a -> s32 (num_pending a - 1) = num_pending a - 1.
Proof.
  intros H. pose proof (counted_bound _ _ H). destruct H. apply s32_small. unfold is_s32. lia.
Qed.

Lemma not_fresh_after need a a' i m m' : inv need a -> fences a !! i = Some m -> en a' = en a -> base_signaled a' = base_signaled a ->
  fences a' = <[i := m']> (fences a) -> (m_cb m <> Fresh -> m_cb m' <> Fresh) ->
  en a' = EnDone -> base_signaled a' = true \/ forall j q, fences a' !! j = Some q -> m_cb q <> Fresh.
Proof.
  intros H Hm Ee Eb Ef Hf Hd. rewrite Eb, Ef. rewrite Ee in Hd. destruct (iv_done _ _ H Hd) as [?|Hn]; [by left|right].
  intros j q. destruct (decide (j = i)) as [->|Hne]; [rewrite lookup_insert_eq; intros [= <-]; eauto|rewrite lookup_insert_ne by done; eauto].
Qed.

(** Closes the conditions of [inv_member] from the old ones. *)
Ltac keeps H Hm :=
  let H1 := fresh in let H2 := fresh in let H3 := fresh in let H4 := fresh in
  pose proof (iv_base _ _ H) as H1; pose proof (iv_signal _ _ H) as H2; pose proof (iv_justified _ _ H) as H3;
  pose proof (member_counts _ _ _ Hm) as H4; let H5 := fresh in pose proof (iv_pending _ _ H) as H5; revert H5;
  simpl; rewrite ?(tally_set _ _ _ _ _ Hm); revert H1 H2 H3 H4;
  match type of H with inv _ ?a => generalize (tally counted (fences a)) (tally to_signal (fences a)) end;
  unfold counted, to_signal, has_ref, member_ok in *; simpl in *; intros; try lia;
  repeat match goal with F : ?P -> _ |- _ => let h := fresh in assert P as h by lia; specialize (F h) end; intuition (try lia).

Lemma member_signal_inv need i a a' : inv need a -> member_signal i a = Some a' -> inv need a'.
Proof.
  intros H (m & Hm & [= <-])%bind_Some. pose proof (iv_members _ _ H _ _ Hm) as [Ho Hv].
  eapply (inv_member need a _ i m); [done|done|done|done| | | |done| | | | |by eapply (not_fresh_after need a (set_member i _ a) i m)];
    [|revert Ho; unfold member_ok; simpl; by destruct (m_cb m)|exact Hv|..]; destruct m as [sg []]; keeps H Hm.
Qed.

(** The loop sees no difference between callbacks that were added. *)
Lemma visited_change e i sg sg' c c' : visited e i {| m_signaled := sg; m_cb := c |} ->
  c <> Fresh -> c <> Refusing -> c' <> Fresh -> c' <> Refusing -> visited e i {| m_signaled := sg'; m_cb := c' |}.
Proof.
  unfold visited. simpl. intros [Hv _] H1 H2 H3 H4. split; [|done]. destruct e; intuition congruence.
Qed.

Lemma member_call_inv need i a a' : inv need a -> member_call i a = Some a' -> inv need a'.
Proof.
  intros H (m & Hm & E)%bind_Some. destruct (_ && _) eqn:Eb in E; [|done]. injection E as <-.
  apply andb_true_iff in Eb as [Es Ec]. pose proof (iv_members _ _ H _ _ Hm) as [Ho Hv].
  destruct m as [sg cb]. simpl in *. subst sg. destruct cb; try done.
  eapply (inv_member need a _ i _); [done|exact Hm|done|done| | | |done| | | | |by eapply (not_fresh_after need a (set_member i _ a) i)];
    [|done|by eapply visited_change|..]; keeps H Hm.
Qed.

Lemma cb_func_inv need i a a' : inv need a -> dma_fence_array_cb_func i a = Some a' -> inv need a'.
Proof.
  intros H (m & Hm & E)%bind_Some. pose proof (iv_members _ _ H _ _ Hm) as [Ho Hv]. destruct m as [sg cb]. simpl in *.
  assert (sg = true) as -> by (destruct cb; done).
  destruct cb; try done.
  - unfold dec_and_test in E. rewrite (dec_and_test_small _ _ H) in E. destruct (num_pending a - 1 =? 0) eqn:Ez; injection E as <-;
      (eapply (inv_member need a _ i _); [done|exact Hm|done|done| |done|by eapply visited_change|done| | | | |
         by eapply (not_fresh_after need a _ i)]); keeps H Hm.
  - injection E as <-. eapply (inv_member need a _ i _); [done|exact Hm|done|done| |done|by eapply visited_change|done| | | | |by left]; keeps H Hm.
  - injection E as <-. eapply (inv_member need a _ i _); [done|exact Hm|done|done| |done|by eapply visited_change|done| | | | |
         by eapply (not_fresh_after need a (set_member i _ (add_ref (-1) a)) i)]; keeps H Hm.
Qed.

(** How the loop moves on *)
Lemma visited_next i j q : j <> i -> visited (EnAt i) j q -> visited (EnDec i) j q /\ visited (EnAt (S i)) j q.
Proof.
  intros Hne [Hj Hr]. assert (m_cb q <> Refusing) as Hn by (intros E; by apply Hr in E).
  unfold visited. split; (split; [|done]); [split; [rewrite Hj; lia|]; split; done|rewrite Hj; lia].
Qed.

Lemma visited_after i j q : j <> i -> visited (EnDec i) j q -> visited (EnAt (S i)) j q /\ visited EnFalse j q.
Proof.
  intros Hne [[Hj Hi] Hr]. assert (m_cb q <> Refusing) as Hn by (intros E; by apply Hi in E).
  unfold visited. split; (split; [|done]); [rewrite Hj; lia|done].
Qed.

Lemma visited_self i sg c : c <> Fresh -> c <> Refusing ->
  visited (EnAt (S i)) i {| m_signaled := sg; m_cb := c |} /\ visited EnFalse i {| m_signaled := sg; m_cb := c |}.
Proof. intros H1 H2. unfold visited. simpl. split; (split; [|done]); [split; [done|lia]|done]. Qed.

(** Only the control point of the loop changes, or the array is signalled. *)
Lemma inv_en need a a' : inv need a -> num_fences a' = num_fences a -> num_pending a' = num_pending a -> fences a' = fences a ->
  refcount a' = refcount a ->
  map_Forall (fun i m => visited (en a) i m -> visited (en a') i m) (fences a) ->
  (base_signaled a' = true -> need <= tally counted (fences a)) ->
  (base_signaled a = true \/ en a = EnFalse -> base_signaled a' = true) -> en a' <> EnFalse ->
  (en a' = EnDone -> base_signaled a' = true \/ forall i m, fences a !! i = Some m -> m_cb m <> Fresh) -> inv need a'.
Proof.
  intros [] En Ep Ef Er Hv Hb Hs Hn Hd. constructor; rewrite ?En, ?Ep, ?Ef, ?Er; try done.
  - intros i m Hm. destruct (iv_members0 _ _ Hm). split; [done|]. by apply (Hv _ _ Hm).
  - intros H1 H2. destruct (iv_signal0 H1 H2) as [?|[?|?]]; auto.
  - intros [?|?]; [auto|done].
Qed.

Lemma array_enable_inv need r a a' : inv need a -> dma_fence_array_enable_signaling r a = Some a' -> inv need a'.
Proof.
  intros H. unfold dma_fence_array_enable_signaling. destruct (en a) as [|i|i| |] eqn:Ee; try done.
  - intros [= <-]. eapply inv_en; simpl; try done; [|apply (iv_base _ _ H)|intros [?|?]; congruence].
    intros j m Hm. rewrite Ee. intros [Hv Hr]. split; [split; [lia|done]|]. intros E. congruence.
  - destruct (i <? num_fences a)%nat eqn:El.
    + intros (m & Hm & E)%bind_Some. pose proof (iv_members _ _ H _ _ Hm) as [_ [Hv _]]. rewrite Ee in Hv.
      assert (m_cb m = Fresh) as Hf by (apply Hv; lia). destruct m as [sg cb]. simpl in *. subst cb.
      destruct (sg || r); injection E as <-.
      * eapply (inv_member need a _ i _); [done|exact Hm|done|done| |done| | | | | | |done];
          [|split; [split; split; (done || (simpl; lia))|done]|intros j q Hne _; rewrite Ee; by apply visited_next|..]; keeps H Hm; congruence.
      * eapply (inv_member need a _ i _); [done|exact Hm|done|done| |done| | | | | | |done];
          [|by apply visited_self|intros j q Hne _; rewrite Ee; by apply visited_next|..]; keeps H Hm; congruence.
    + intros [= <-]. eapply inv_en; simpl; try done; [|apply (iv_base _ _ H)|intros [?|?]; congruence|].
      * intros j m Hm. rewrite Ee. intros [Hv Hr]. split; [done|]. intros E. by apply Hr in E.
      * intros _. right. intros j m Hm Hf. destruct (iv_members _ _ H _ _ Hm) as [_ [Hv _]]. rewrite Ee in Hv. apply Hv in Hf.
        assert (j < num_fences a)%nat by (apply (iv_dom _ _ H); eauto).
        apply Nat.ltb_ge in El. lia.
  - intros (m & Hm & E)%bind_Some. pose proof (iv_members _ _ H _ _ Hm) as [Ho [Hv _]].
    rewrite Ee in Hv. destruct Hv as [_ Hv]. assert (m_cb m = Refusing) as Hf by by apply Hv.
    destruct m as [sg cb]. simpl in *. subst cb. assert (sg = true) as -> by done.
    unfold dec_and_test in E. simpl in E. rewrite (dec_and_test_small _ _ H) in E.
    destruct (num_pending a - 1 =? 0) eqn:Ez; injection E as <-;
      (eapply (inv_member need a _ i _); [done|exact Hm|done|done| |done|by apply visited_self
         |intros j q Hne _; rewrite Ee; by apply visited_after| | | | |done]); keeps H Hm; congruence.
  - intros [= <-]. pose proof (iv_justified _ _ H (or_intror Ee)). eapply inv_en; simpl; try done; [|by left].
    intros j m Hm. rewrite Ee. intros [Hv Hr]. split; [done|]. intros E. by apply Hr in E.
Qed.

Lemma array_next_inv need e a a' : inv need a -> next e a = Some a' -> inv need a'.
Proof.
  intros H. destruct e; simpl; [by apply array_enable_inv|by apply member_signal_inv|by apply member_call_inv|by apply cb_func_inv].
Qed.

(** How many signalled members the array waits for *)
Definition needed (bits : list bool) (signal_on_any : bool) : Z := if signal_on_any then 1 else Z.of_nat (length bits).

Lemma create_lookup bits any i : fences (dma_fence_array_create bits any) !! i = (fun b => {| m_signaled := b; m_cb := Fresh |}) <$> bits !! i.
Proof.
  unfold dma_fence_array_create. simpl. set (f := fun b => {| m_signaled := b; m_cb := Fresh |}).
  enough (forall k, (list_to_map (zip (seq k (length bits)) (f <$> bits)) : gmap nat member) !! (k + i)%nat = f <$> bits !! i) as H by apply (H 0%nat).
  revert i. induction bits as [|b bits IH]; intros i k; simpl; [done|]. destruct i as [|i]; simpl.
  - rewrite Nat.add_0_r. by rewrite lookup_insert_eq.
  - rewrite lookup_insert_ne by lia. replace (k + S i)%nat with (S k + i)%nat by lia. apply IH.
Qed.

Lemma array_create_inv bits any : Z.of_nat (length bits) < 2 ^ 31 -> inv (needed bits any) (dma_fence_array_create bits any).
Proof.
  intros Hl. assert (forall w : member -> Z, (forall b, w {| m_signaled := b; m_cb := Fresh |} = 0) ->
    tally w (fences (dma_fence_array_create bits any)) = 0) as Hw.
  { intros w Hw. unfold dma_fence_array_create. simpl. generalize 0%nat. clear Hl. induction bits as [|b bits IH]; intros k; simpl; [done|].
    rewrite tally_insert; [rewrite Hw, IH; lia|]. apply not_elem_of_list_to_map_1. rewrite fst_zip by (rewrite length_seq, length_fmap; lia).
    rewrite elem_of_seq. lia. }
  constructor; rewrite ?Hw by done; try done.
  - unfold needed. simpl. destruct any; [by right|left; lia].
  - intros i. rewrite create_lookup, fmap_is_Some, lookup_lt_is_Some. done.
  - simpl. unfold needed. destruct any; lia.
  - intros i m. rewrite create_lookup. destruct (bits !! i) as [b|]; [|done]. intros [= <-]. by split.
  - lia.
  - intros [?|?]; [lia|done].
Qed.

(** No callback of the array is on its way: what was called or refused is
    through, and members with a listed callback are not signalled. *)
Definition at_rest (m : member) : Prop :=
  match m_cb m with Listed => m_signaled m = false | Fresh | Gone | RefusedGone => True | _ => False end.

#[global] Instance at_rest_dec m : Decision (at_rest m).
Proof. unfold at_rest. destruct (m_cb m); apply _. Defined.

(** C23: a fence array is signalled exactly when enough members are.  For any
    interleaving of the enabling loop, member signals and callbacks: the array is
    signalled only when all members are (or one, with [signal_on_any]); once the
    enabling call has returned and no callback is on its way, a non-empty array is
    signalled if enough members are; and its reference count is one plus the
    callbacks that hold a reference. *)
Theorem dma_fence_array_signals bits any es a :
  Z.of_nat (length bits) < 2 ^ 31 -> exec es (dma_fence_array_create bits any) = Some a ->
  (base_signaled a = true -> needed bits any <= tally signaled (fences a)) /\
  (en a = EnDone -> map_Forall (fun _ m => at_rest m) (fences a) -> 0 < needed bits any ->
   needed bits any <= tally signaled (fences a) -> base_signaled a = true) /\
  refcount a = 1 + tally has_ref (fences a).
Proof.
  intros Hl He. assert (inv (needed bits any) a) as H.
  { revert He. generalize (array_create_inv bits any Hl). generalize (dma_fence_array_create bits any).
    induction es as [|e es IH]; intros a0 H0; simpl; [by intros [= <-]|]. intros (a1 & E & H1)%bind_Some.
    exact (IH a1 (array_next_inv _ _ _ _ H0 E) H1). }
  split; [|split; [|apply (iv_ref _ _ H)]].
  - intros Hb%(iv_base _ _ H). etrans; [exact Hb|]. apply tally_mono. intros i m Hm.
    destruct (iv_members _ _ H _ _ Hm) as [Ho _]. unfold member_ok, counted, signaled in *. destruct m as [[] []]; simpl in *; done.
  - intros Ed Hr Hn Hs. destruct (iv_done _ _ H Ed) as [?|Hf]; [done|].
    assert (tally signaled (fences a) <= tally counted (fences a)) as Hle.
    { apply tally_mono. intros i m Hm. specialize (Hf _ _ Hm). specialize (Hr _ _ Hm).
      unfold at_rest, counted, signaled in *. destruct m as [[] []]; simpl in *; try done; congruence. }
    destruct (iv_signal _ _ H Hn ltac:(lia)) as [?|[Ht|?]]; [done| |congruence].
    apply tally_pos in Ht as (i & m & Hm & Hp). specialize (Hr _ _ Hm). unfold at_rest, to_signal in *. by destruct (m_cb m).
Qed.

(** Two members, the first already signalled *)
Definition sample_events : list event :=
  [Enable false; Enable false; Enable false; Enable false; Member 1; CallMember 1; Enable false; Func 1; Func 1; Func 1].

Lemma dma_fence_array_signals_witness : exists a,
  exec sample_events (dma_fence_array_create [true; false] false) = Some a /\ base_signaled a = true /\ refcount a = 1.
Proof.
  destruct (exec sample_events (dma_fence_array_create [true; false] false)) as [a|] eqn:E; [|vm_compute in E; discriminate].
  exists a. split; [reflexivity|].
  assert (Z.of_nat (length [true; false]) < 2 ^ 31) as Hl by (vm_compute; reflexivity).
  destruct (dma_fence_array_signals _ _ _ _ Hl E) as (_ & Hs & Hr). rewrite Hr.
  vm_compute in E. injection E as <-. split; [|vm_compute; reflexivity].
  apply Hs; [reflexivity| |vm_compute; reflexivity|vm_compute; discriminate].
  apply (bool_decide_unpack _). vm_compute. exact I.
Defined.

(** [dma_fence_is_later] does not allow for the wrap-around of sequence numbers:
    the fence after 2^32 - 1 is not later. *)
Theorem dma_fence_is_later_wraps : dma_fence_is_later 3 0 3 (2 ^ 32 - 1) = false /\ u32 (2 ^ 32 - 1 + 1) = 0.
Proof. split; reflexivity. Qed.
