(* ===== verification/Reservation.v ===== *)
(** * Reservation objects ([linuxkpi/gplv2/src/linux_reservation.c], [reservation.h])

    A buffer carries the fences of its users: one exclusive fence, or shared
    fences, at most one for each context.  Writers hold the lock of the object
    and announce changes with a sequence counter; readers take no lock
    ([ReservationRcu]).  A writer is translated to the list of its accesses to
    shared memory ([access]), so that it can run alone, as here, or one access at
    a time between those of readers.

    Theorem: over any history of calls that respects the rules the object holds the fences its abstract
    description says, keeps at most one shared fence per context, never stores
    outside of an array or reaches the [BUG_ON], and holds exactly one reference
    to every fence in it; copying to an object that has shared fences leaks those. *)

From S2P Require Import Prelude.
From stdpp Require Import base gmap list option sets.
From Stdlib Require Import ZArith Lia.

#[local] Set Warnings "-clear-no-such-hyp".

#[local] Open Scope Z_scope.

(** [shared_count] and [shared_max] are [u32]: what is stored in them is taken
    modulo [2^32]. *)
Definition u32n (n : nat) : nat := Z.to_nat (u32 (Z.of_nat n)).

(** [struct reservation_object_list]; an entry that was never written is [None]. *)
Record rlist := { shared_count : nat; shared_max : nat; shared : list (option nat) }.

(** [struct reservation_object]: lists and fences by name; [seq] is the [unsigned]
    sequence counter. *)
Record robj := { seq : Z; fence_excl : option nat; fence : option nat; staged : option nat }.

(** The object, the lists, and the reference count of every fence *)
Record mem := { obj : robj; lists : gmap nat rlist; kref : nat -> Z }.

Definition set_obj (o : robj) (m : mem) : mem := {| obj := o; lists := lists m; kref := kref m |}.
Definition set_list (l : nat) (r : rlist) (m : mem) : mem := {| obj := obj m; lists := <[l := r]> (lists m); kref := kref m |}.
Definition add_kref (f : nat) (n : Z) (m : mem) : mem :=
  {| obj := obj m; lists := lists m; kref := fun g => if decide (g = f) then kref m g + n else kref m g |}.

Definition set_seq (n : Z) (o : robj) : robj := {| seq := n; fence_excl := fence_excl o; fence := fence o; staged := staged o |}.
Definition set_excl (e : option nat) (o : robj) : robj := {| seq := seq o; fence_excl := e; fence := fence o; staged := staged o |}.
Definition set_fence (l : option nat) (o : robj) : robj := {| seq := seq o; fence_excl := fence_excl o; fence := l; staged := staged o |}.
Definition set_staged (l : option nat) (o : robj) : robj := {| seq := seq o; fence_excl := fence_excl o; fence := fence o; staged := l |}.

Definition reservation_object_init : robj := {| seq := 0; fence_excl := None; fence := None; staged := None |}.

(** ** Accesses of writers *)

Inductive access :=
| Get (f : nat)                         (** [dma_fence_get] *)
| Put (f : nat)                         (** [dma_fence_put] *)
| Begin | End                           (** [write_seqcount_begin], [write_seqcount_end] *)
| SetShared (l i f : nat)               (** [list->shared[i] = f] *)
| SetCount (l n : nat)                  (** [list->shared_count = n] *)
| SetExcl (e : option nat)
| SetFence (l : option nat).

(** [None]: a store outside of the array, or a count that was zero *)
Definition do (a : access) (m : mem) : option mem :=
  match a with
  | Get f => if 0 <? kref m f then Some (add_kref f 1 m) else None
  | Put f => if 0 <? kref m f then Some (add_kref f (-1) m) else None
  | Begin | End => Some (set_obj (set_seq (u32 (seq (obj m) + 1)) (obj m)) m)
  | SetShared l i f =>
      r ← lists m !! l;
      if (i <? shared_max r)%nat
      then Some (set_list l {| shared_count := shared_count r; shared_max := shared_max r; shared := <[i := Some f]> (shared r) |} m)
      else None
  | SetCount l n => r ← lists m !! l; Some (set_list l {| shared_count := n; shared_max := shared_max r; shared := shared r |} m)
  | SetExcl e => Some (set_obj (set_excl e (obj m)) m)
  | SetFence l => Some (set_obj (set_fence l (obj m)) m)
  end.

Fixpoint run (p : list access) (m : mem) : option mem :=
  match p with [] => Some m | a :: p => m1 ← do a m; run p m1 end.

(** [reservation_object_get_list], [reservation_object_get_excl] *)
Definition reservation_object_get_list (m : mem) : option (nat * rlist) := l ← fence (obj m); r ← lists m !! l; Some (l, r).
Definition reservation_object_get_excl (m : mem) : option nat := fence_excl (obj m).

Definition new_list (max : nat) : rlist := {| shared_count := 0; shared_max := max; shared := replicate max None |}.

Section Writers.
(** The context of a fence, fixed when it is made *)
Context (context : nat -> Z).

(** [got]: the list [krealloc] returns, if it does *)
Definition reservation_object_reserve_shared (got : option nat) (m : mem) : result mem :=
  let stage (max : nat) :=
    match got with
    | None => Err ENOMEM
    | Some n => Ok (set_list n (new_list max) (set_obj (set_staged (Some n) (obj m)) m))
    end in
  match reservation_object_get_list m with
  | Some (_, old) =>
      if (shared_max old =? 0)%nat then stage 4%nat
      else if (shared_count old <? shared_max old)%nat then Ok (set_obj (set_staged None (obj m)) m)
      else stage (u32n (shared_max old * 2))
  | None => stage 4%nat
  end.

(** The loop of [reservation_object_add_shared_inplace] from index [i]: the place
    and the fence of the same context, if there is one *)
Fixpoint find_context (f : nat) (i : nat) (entries : list (option nat)) : option (nat * nat) :=
  match entries with
  | Some g :: entries => if context g =? context f then Some (i, g) else find_context f (S i) entries
  | _ => None
  end.

Definition reservation_object_add_shared_inplace (l : nat) (r : rlist) (f : nat) : list access :=
  [Get f; Begin] ++
  match find_context f 0 (take (shared_count r) (shared r)) with
  | Some (i, old_fence) => [SetShared l i f; End; Put old_fence]
  | None => [SetShared l (shared_count r) f; SetCount l (u32n (shared_count r + 1)); End]
  end.

(** The loop of [reservation_object_add_shared_replace]: the stores, and [old_fence] *)
Fixpoint replace_loop (n f : nat) (i : nat) (old_fence : option nat) (entries : list (option nat)) : list access * option nat :=
  match entries with
  | Some check :: entries =>
      match old_fence with
      | None =>
          if context check =? context f then
            let (p, o) := replace_loop n f (S i) (Some check) entries in (SetShared n i f :: p, o)
          else let (p, o) := replace_loop n f (S i) None entries in (SetShared n i check :: p, o)
      | Some _ => let (p, o) := replace_loop n f (S i) old_fence entries in (SetShared n i check :: p, o)
      end
  | _ => ([], old_fence)
  end.

(** The old list goes to [kfree_rcu]: readers may still look at it. *)
Definition reservation_object_add_shared_replace (old : option rlist) (n f : nat) : list access :=
  match old with
  | None => [Get f; SetShared n 0 f; SetCount n 1; Begin; SetFence (Some n); End]
  | Some r =>
      let (p, old_fence) := replace_loop n f 0 None (take (shared_count r) (shared r)) in
      [Get f; SetCount n (shared_count r)] ++ p ++
      match old_fence with
      | None => [SetShared n (shared_count r) f; SetCount n (u32n (shared_count r + 1))]
      | Some _ => []
      end ++
      [Begin; SetFence (Some n); End] ++ match old_fence with Some g => [Put g] | None => [] end
  end.

(** The accesses, and the object with [staged] cleared; [None]: no list at all, or the [BUG_ON] *)
Definition reservation_object_add_shared_fence (f : nat) (m : mem) : option (list access * mem) :=
  let m1 := set_obj (set_staged None (obj m)) m in
  match staged (obj m), reservation_object_get_list m with
  | None, Some (l, r) =>
      if (shared_max r <=? shared_count r)%nat then None else Some (reservation_object_add_shared_inplace l r f, m1)
  | None, None => None
  | Some n, old => Some (reservation_object_add_shared_replace (snd <$> old) n f, m1)
  end.

(** [dma_fence_put] of the entries, from the last to the first *)
Definition put_all (entries : list (option nat)) : list access :=
  rev (omap (fun o => Put <$> o) entries).

Definition reservation_object_add_excl_fence (f : option nat) (m : mem) : list access :=
  let old := reservation_object_get_list m in
  match f with Some f => [Get f] | None => [] end ++
  [Begin; SetExcl f] ++ match old with Some (l, _) => [SetCount l 0] | None => [] end ++ [End] ++
  match old with Some (_, r) => put_all (take (shared_count r) (shared r)) | None => [] end ++
  match reservation_object_get_excl m with Some g => [Put g] | None => [] end.

(** [reservation_object_copy_fences]: the source has the exclusive fence
    [src_excl] and, if it has a list, the fences [src_shared]; [got] is what
    [kmalloc] returns. *)
Definition reservation_object_copy_fences (src_excl : option nat) (src_shared : option (list nat)) (got : option nat) (m : mem)
  : result (list access * mem) :=
  let finish (new_list : option nat) (gets : list access) (m : mem) :=
    Ok (gets ++ match src_excl with Some f => [Get f] | None => [] end ++ [Begin; SetExcl src_excl; SetFence new_list; End] ++
        match reservation_object_get_excl m with Some g => [Put g] | None => [] end,
        set_obj (set_staged None (obj m)) m) in
  match src_shared with
  | None => finish None [] m
  | Some fs =>
      match got with
      | None => Err ENOMEM
      | Some n =>
          finish (Some n) (Get <$> fs)
            (set_list n {| shared_count := length fs; shared_max := length fs; shared := Some <$> fs |} m)
      end
  end.

(** [reservation_object_fini] *)
Definition reservation_object_fini (m : mem) : list access :=
  match reservation_object_get_excl m with Some g => [Put g] | None => [] end ++
  match reservation_object_get_list m with Some (_, r) => rev (put_all (take (shared_count r) (shared r))) | None => [] end.
End Writers.

(** ** What an object holds *)

Lemma u32n_small n : Z.of_nat n < 2 ^ 32 -> u32n n = n.
Proof. intros H. unfold u32n. rewrite u32_small by (unfold is_u32; lia). apply Nat2Z.id. Qed.

Lemma u32n_width n : Z.of_nat (u32n n) < 2 ^ 32.
Proof. unfold u32n, u32. pose proof (Z.mod_pos_bound (Z.of_nat n) (2 ^ 32) ltac:(lia)). lia. Qed.

(** Wrapping around does not change whether the sequence counter is even. *)
Lemma even_u32 n : Z.even (u32 n) = Z.even n.
Proof.
  unfold u32. rewrite (Z.div_mod n (2 ^ 32)) at 2 by lia. rewrite Z.even_add, Z.even_mul.
  change (Z.even (2 ^ 32)) with true. cbn [orb eqb]. by destruct (Z.even (n mod 2 ^ 32)).
Qed.

Lemma even_two n : Z.even (u32 (u32 (n + 1) + 1)) = Z.even n.
Proof. rewrite even_u32, Z.even_add, even_u32, Z.even_add. by destruct (Z.even n). Qed.

(** The list [r] holds the fences [fs]. *)
Definition list_ok (r : rlist) (fs : list nat) : Prop :=
  length (shared r) = shared_max r /\ shared_count r = length fs /\ take (length fs) (shared r) = Some <$> fs.

Definition holds (m : mem) (excl : option nat) (fs : list nat) : Prop :=
  fence_excl (obj m) = excl /\
  match fence (obj m) with None => fs = [] | Some l => exists r, lists m !! l = Some r /\ list_ok r fs end.

(** How often the fence [x] is held *)
Definition occ (x : nat) (excl : option nat) (fs : list nat) : Z := match excl with Some e => one x e | None => 0 end + lsum (one x) fs.

Lemma occ_nonneg x e fs : 0 <= occ x e fs.
Proof. unfold occ. pose proof (lsum_nonneg (one x) fs (one_ge0 x)). destruct e as [e|]; [pose proof (one_ge0 x e)|]; lia. Qed.

Lemma one_self x : one x x = 1.
Proof. unfold one. by destruct (decide (x = x)). Qed.

Lemma add_one x f a n : (if decide (x = f) then a + n else a) = a + n * one x f.
Proof. unfold one. repeat destruct (decide _); subst; try done; lia. Qed.

Lemma list_ok_max r fs : list_ok r fs -> (length fs <= shared_max r)%nat.
Proof. intros (E1 & E2 & E3). rewrite <- E1. apply (f_equal length) in E3. rewrite length_take, length_fmap in E3. lia. Qed.

Lemma run_accesses p q m : run (p ++ q) m = m1 ← run p m; run q m1.
Proof.
  revert m. induction p as [|a p IH]; intros m; [done|]. cbn [run app]. destruct (do a m) as [m1|]; [apply IH|done].
Qed.

(** The size of a list is fixed. *)
Lemma run_keeps_max p m m' l r r' : run p m = Some m' -> lists m !! l = Some r -> lists m' !! l = Some r' -> shared_max r' = shared_max r.
Proof.
  revert m r. induction p as [|a p IH]; intros m r; cbn [run]; [intros [= <-]; congruence|].
  intros (m1 & E & R)%bind_Some Hr Hr'.
  enough (exists r1, lists m1 !! l = Some r1 /\ shared_max r1 = shared_max r) as (r1 & Hr1 & <-) by exact (IH _ _ R Hr1 Hr').
  destruct a; simpl in E; repeat case_match; simplify_eq; simpl; eauto;
    apply bind_Some in E as (r0 & E0 & E); repeat case_match; simplify_eq; simpl;
    (destruct (decide (l = l0)) as [->|Hne]; [rewrite lookup_insert_eq; eexists; split; [done|]; simpl; congruence|rewrite lookup_insert_ne by done; eauto]).
Qed.

(** No access makes a list or changes a size. *)
Lemma run_width p m m' : run p m = Some m' -> (forall l r, lists m !! l = Some r -> Z.of_nat (shared_max r) < 2 ^ 32) ->
  forall l r, lists m' !! l = Some r -> Z.of_nat (shared_max r) < 2 ^ 32.
Proof.
  revert m. induction p as [|a p IH]; intros m; cbn [run]; [intros [= <-]; done|].
  intros (m1 & E & R)%bind_Some H. apply (IH _ R). clear IH R.
  destruct a; simpl in E; repeat case_match; simplify_eq; simpl; eauto;
    apply bind_Some in E as (r0 & E0 & E); repeat case_match; simplify_eq; simpl;
    intros l1 r1; rewrite lookup_insert_Some; intros [[<- <-]|[_ H1]]; simpl; eauto.
Qed.

Lemma run_put_all fs m : (forall x, lsum (one x) fs <= kref m x) -> exists m', run (put_all (Some <$> fs)) m = Some m' /\
  obj m' = obj m /\ lists m' = lists m /\ forall x, kref m' x = kref m x - lsum (one x) fs.
Proof.
  unfold put_all. revert m. induction fs as [|f fs IH] using rev_ind; intros m Hk; simpl.
  - exists m. split_and!; try done. intros x. lia.
  - rewrite fmap_app, omap_app, rev_app_distr. simpl.
    assert (0 < kref m f) as Hf by (specialize (Hk f); rewrite lsum_app in Hk; simpl in Hk; rewrite one_self in Hk;
      pose proof (lsum_nonneg (one f) fs (one_ge0 f)); lia).
    rewrite (proj2 (Z.ltb_lt _ _) Hf). simpl.
    destruct (IH (add_kref f (-1) m)) as (m' & E & E1 & E2 & E3).
    { intros x. specialize (Hk x). rewrite lsum_app in Hk. simpl in *. rewrite add_one. lia. }
    exists m'. split_and!; try done. intros x. rewrite E3, lsum_app. simpl. rewrite add_one. lia.
Qed.

Section Updates.
Context (context : nat -> Z).

(** The shared fences after [f] was added: it takes the place of the fence of its context. *)
Fixpoint put_shared (f : nat) (fs : list nat) : list nat :=
  match fs with [] => [f] | g :: fs => if context g =? context f then f :: fs else g :: put_shared f fs end.

Lemma find_context_spec f fs i :
  match find_context context f i (Some <$> fs) with
  | Some (j, g) => exists pre post, fs = pre ++ g :: post /\ j = (i + length pre)%nat /\ put_shared f fs = pre ++ f :: post
  | None => put_shared f fs = fs ++ [f]
  end.
Proof.
  revert i. induction fs as [|g fs IH]; intros i; [done|]. rewrite fmap_cons. cbn [find_context put_shared].
  destruct (context g =? context f) eqn:E; [exists [], fs; simpl; split_and!; (done || lia)|].
  specialize (IH (S i)). destruct (find_context context f (S i) (Some <$> fs)) as [[j h]|]; [|by rewrite IH].
  destruct IH as (pre & post & -> & -> & ->). exists (g :: pre), post. simpl. split_and!; (done || lia).
Qed.

Lemma put_shared_elem f fs c : c ∈ context <$> put_shared f fs -> c = context f \/ c ∈ context <$> fs.
Proof.
  induction fs as [|g fs IH]; cbn [put_shared]; [set_solver|]. destruct (context g =? context f); rewrite !fmap_cons; [set_solver|].
  rewrite !elem_of_cons. intros [->|Hc]; [by right; left|]. destruct (IH Hc); auto.
Qed.

(** One fence per context *)
Lemma put_shared_nodup f fs : NoDup (context <$> fs) -> NoDup (context <$> put_shared f fs).
Proof.
  induction fs as [|g fs IH]; cbn [put_shared]; [intros _; apply NoDup_singleton|].
  rewrite fmap_cons. intros [Hg Hn]%NoDup_cons. destruct (context g =? context f) eqn:E; rewrite fmap_cons; apply NoDup_cons.
  - replace (context f) with (context g) by lia. done.
  - split; [|by apply IH]. intros [Hc|Hc]%put_shared_elem; [lia|done].
Qed.

(** Updating a list in place *)
Lemma list_ok_store r fs i f : list_ok r fs -> (i < length fs)%nat ->
  list_ok {| shared_count := shared_count r; shared_max := shared_max r; shared := <[i := Some f]> (shared r) |} (<[i := f]> fs).
Proof.
  intros (E1 & E2 & E3) Hi. unfold list_ok. simpl. rewrite !length_insert. split_and!; [done|done|].
  rewrite take_insert_lt by done. by rewrite E3, list_fmap_insert.
Qed.

Lemma list_ok_append r fs f : list_ok r fs -> (shared_count r < shared_max r)%nat ->
  list_ok {| shared_count := shared_count r + 1; shared_max := shared_max r; shared := <[shared_count r := Some f]> (shared r) |} (fs ++ [f]).
Proof.
  intros (E1 & E2 & E3) Hm. unfold list_ok. simpl. rewrite length_insert, length_app, E2. split_and!; [done|simpl; lia|].
  rewrite fmap_app. simpl. rewrite <- E3. rewrite Nat.add_1_r. rewrite (take_S_r _ _ (Some f)) by (apply list_lookup_insert_eq; lia).
  by rewrite take_insert_ge by lia.
Qed.

(** The object [m'] after an update of [m]: contents, sequence counter and references *)
Definition updated (m m' : mem) (e e' : option nat) (fs fs' : list nat) : Prop :=
  holds m' e' fs' /\ Z.even (seq (obj m')) = Z.even (seq (obj m)) /\ staged (obj m') = staged (obj m) /\
  forall x, kref m' x = kref m x - occ x e fs + occ x e' fs'.

(** Every fence held has a reference. *)
Definition backed (m : mem) (e : option nat) (fs : list nat) : Prop := forall x, occ x e fs <= kref m x.

Lemma backed_elem m e fs g n f : backed m e fs -> g ∈ fs -> 0 <= n -> 0 < (if decide (g = f) then kref m g + n else kref m g).
Proof.
  intros Hb Hg Hn. specialize (Hb g). unfold occ in Hb. apply (lsum_elem (one g)) in Hg; [|apply one_ge0]. rewrite one_self in Hg.
  assert (0 <= match e with Some e => one g e | None => 0 end) by (destruct e; [apply one_ge0|lia]). destruct (decide _); lia.
Qed.

Lemma add_inplace_run l r f m e fs :
  holds m e fs -> fence (obj m) = Some l -> lists m !! l = Some r -> (shared_count r < shared_max r)%nat ->
  Z.of_nat (shared_max r) < 2 ^ 32 -> 0 < kref m f -> backed m e fs ->
  exists m', run (reservation_object_add_shared_inplace context l r f) m = Some m' /\ updated m m' e e fs (put_shared f fs).
Proof.
  intros [He Hf] El Er Hm Hw Hk Hb. rewrite El in Hf. destruct Hf as (r' & Er' & Hok). assert (r' = r) as -> by congruence. clear Er'.
  pose proof Hok as (E1 & E2 & E3). unfold reservation_object_add_shared_inplace. rewrite E2, E3.
  pose proof (find_context_spec f fs 0) as Hs. destruct (find_context context f 0 (Some <$> fs)) as [[j g]|].
  - destruct Hs as (pre & post & -> & -> & Hs). simpl. rewrite (proj2 (Z.ltb_lt _ _) Hk). simpl. rewrite Er. simpl.
    assert (length pre < shared_max r)%nat as Hj by (pose proof (list_ok_max _ _ Hok) as Hx; rewrite length_app in Hx; simpl in Hx; lia).
    rewrite (proj2 (Nat.ltb_lt _ _) Hj). simpl.
    assert (0 < (if decide (g = f) then kref m g + 1 else kref m g)) as Hg.
    { eapply backed_elem; [exact Hb|set_solver|lia]. }
    rewrite (proj2 (Z.ltb_lt _ _) Hg). simpl. eexists. split; [done|]. split_and!; simpl; [|apply even_two|done|].
    + unfold holds. simpl. rewrite El. split; [done|]. eexists. split; [apply lookup_insert_eq|]. rewrite Hs.
      replace (pre ++ f :: post) with (<[length pre := f]> (pre ++ g :: post)) by (rewrite insert_app_r_alt, Nat.sub_diag by lia; done).
      apply list_ok_store; [done|]. rewrite length_app. simpl. lia.
    + intros x. rewrite Hs. unfold occ. rewrite !lsum_app. simpl. rewrite !add_one. lia.
  - simpl. rewrite (proj2 (Z.ltb_lt _ _) Hk). simpl. rewrite Er. simpl. rewrite E2 in Hm. rewrite (proj2 (Nat.ltb_lt _ _) Hm). simpl.
    rewrite lookup_insert_eq. simpl. rewrite u32n_small by lia. eexists. split; [done|]. split_and!; simpl; [|apply even_two|done|].
    + unfold holds. simpl. rewrite El. split; [done|]. eexists. split; [apply lookup_insert_eq|]. simpl. rewrite Hs, <- E2. apply list_ok_append; [done|lia].
    + intros x. rewrite Hs. unfold occ. rewrite !lsum_app. simpl. rewrite !add_one. lia.
Qed.

(** *** The new list *)
Fixpoint stores (n i : nat) (gs : list nat) : list access :=
  match gs with [] => [] | g :: gs => SetShared n i g :: stores n (S i) gs end.

(** The array [a] after the stores *)
Definition stored (i : nat) (gs : list nat) (a : list (option nat)) : list (option nat) :=
  take i a ++ (Some <$> gs) ++ drop (i + length gs) a.

Lemma set_list_twice n r r' m : set_list n r' (set_list n r m) = set_list n r' m.
Proof. unfold set_list. simpl. by rewrite insert_insert_eq. Qed.

Lemma stored_cons i g gs a : (i < length a)%nat -> stored (S i) gs (<[i := Some g]> a) = stored i (g :: gs) a.
Proof.
  intros Hi. unfold stored. rewrite fmap_cons. rewrite drop_insert_lt by lia.
  rewrite (take_S_r _ _ (Some g)) by (apply list_lookup_insert_eq; lia). rewrite take_insert_ge by lia.
  rewrite <- app_assoc. simpl. by replace (i + S (length gs))%nat with (S (i + length gs)) by lia.
Qed.

Lemma stores_run n i gs m r : lists m !! n = Some r -> length (shared r) = shared_max r -> (i + length gs <= shared_max r)%nat ->
  run (stores n i gs) m = Some (set_list n {| shared_count := shared_count r; shared_max := shared_max r; shared := stored i gs (shared r) |} m).
Proof.
  revert i m r. induction gs as [|g gs IH]; intros i m r Hr Hl Hi; simpl in *.
  - unfold stored, set_list. simpl. rewrite Nat.add_0_r, take_drop. destruct r; simpl. rewrite insert_id by done. by destruct m.
  - rewrite Hr. simpl. rewrite (proj2 (Nat.ltb_lt _ _)) by lia. simpl.
    rewrite (IH (S i) _ {| shared_count := shared_count r; shared_max := shared_max r; shared := <[i := Some g]> (shared r) |}); simpl;
      [|apply lookup_insert_eq|by rewrite length_insert|lia].
    by rewrite set_list_twice, stored_cons by lia.
Qed.

Lemma replace_loop_found n f i h fs : replace_loop context n f i (Some h) (Some <$> fs) = (stores n i fs, Some h).
Proof. revert i. induction fs as [|g fs IH]; intros i; [done|]. rewrite fmap_cons. cbn [replace_loop stores]. by rewrite IH. Qed.

Lemma replace_loop_spec n f i fs : exists gs o, replace_loop context n f i None (Some <$> fs) = (stores n i gs, o) /\
  match o with
  | Some g => put_shared f fs = gs /\ exists pre post, fs = pre ++ g :: post /\ gs = pre ++ f :: post
  | None => gs = fs /\ put_shared f fs = fs ++ [f]
  end.
Proof.
  revert i. induction fs as [|g fs IH]; intros i; [by exists [], None|]. rewrite fmap_cons. cbn [replace_loop put_shared].
  destruct (context g =? context f).
  - exists (f :: fs), (Some g). rewrite replace_loop_found. split; [done|]. split; [done|]. by exists [], fs.
  - destruct (IH (S i)) as (gs & o & -> & Ho). exists (g :: gs), o. split; [done|].
    destruct o as [h|]; destruct Ho as [E1 E2]; [|by rewrite E1, E2]. rewrite E1.
    split; [done|]. destruct E2 as (pre & post & -> & ->). by exists (g :: pre), post.
Qed.

Lemma stored_ok gs a : (length gs <= length a)%nat -> length (stored 0 gs a) = length a /\ take (length gs) (stored 0 gs a) = Some <$> gs.
Proof.
  intros Hl. unfold stored. simpl. rewrite length_app, length_fmap, length_drop. split; [lia|].
  rewrite take_app_length' by (by rewrite length_fmap). done.
Qed.

(** The references of the old fence and of the new one change hands. *)
Lemma occ_replace x e pre g f post : occ x e (pre ++ f :: post) = occ x e (pre ++ g :: post) - one x g + one x f.
Proof. unfold occ. rewrite !lsum_app. simpl. lia. Qed.

Lemma occ_snoc x e fs f : occ x e (fs ++ [f]) = occ x e fs + one x f.
Proof. unfold occ. rewrite lsum_app. simpl. lia. Qed.

Lemma add_replace_run n s f m e fs :
  holds m e fs -> lists m !! n = Some s -> fence (obj m) <> Some n -> length (shared s) = shared_max s -> (length fs < shared_max s)%nat ->
  Z.of_nat (shared_max s) < 2 ^ 32 -> 0 < kref m f -> backed m e fs ->
  exists m', run (reservation_object_add_shared_replace context (snd <$> reservation_object_get_list m) n f) m = Some m' /\
    updated m m' e e fs (put_shared f fs).
Proof.
  intros [He Hf] En Hne Hl Hmax Hw Hk Hb. unfold reservation_object_get_list, updated.
  destruct (fence (obj m)) as [l|] eqn:El; simpl.
  - destruct Hf as (r & Er & E1 & E2 & E3). rewrite Er. simpl. rewrite E2, E3.
    destruct (replace_loop_spec n f 0 fs) as (gs & o & -> & Ho). cbn [run do app]. rewrite (proj2 (Z.ltb_lt _ _) Hk). cbn [mbind option_bind run do].
    simpl. rewrite En. cbn [mbind option_bind]. simpl.
    assert (length gs = length fs) as Hlen.
    { destruct o as [g|]; [destruct Ho as (_ & pre & post & -> & ->); by rewrite !length_app|by destruct Ho as [-> _]]. }
    rewrite run_accesses. rewrite (stores_run n 0 gs _ _ (lookup_insert_eq _ _ _)); simpl; [|done|lia].
    destruct (stored_ok gs (shared s)) as [L1 L2]; [lia|].
    destruct o as [g|].
    + destruct Ho as (Eg & pre & post & Efs & Egs). simpl.
      assert (0 < (if decide (g = f) then kref m g + 1 else kref m g)) as Hg.
      { eapply backed_elem; [exact Hb|rewrite Efs; set_solver|lia]. }
      rewrite (proj2 (Z.ltb_lt _ _) Hg). simpl. eexists. split; [done|]. split_and!; simpl; [|apply even_two|done|].
      * split; [done|]. simpl. eexists. split; [apply lookup_insert_eq|]. rewrite Eg. split_and!; simpl; [by rewrite L1|by rewrite Hlen|done].
      * intros x. rewrite Eg, Egs, Efs, (occ_replace x e pre g f post), !add_one. lia.
    + destruct Ho as (-> & Ep). simpl. rewrite lookup_insert_eq. simpl. rewrite (proj2 (Nat.ltb_lt _ _) Hmax). simpl.
      rewrite lookup_insert_eq. simpl. rewrite u32n_small by lia. eexists. split; [done|]. split_and!; simpl; [|apply even_two|done|].
      * split; [done|]. simpl. eexists. split; [apply lookup_insert_eq|]. rewrite Ep.
        apply (list_ok_append {| shared_count := length fs; shared_max := shared_max s; shared := stored 0 fs (shared s) |} fs f); [|done].
        split_and!; simpl; [by rewrite L1|done|done].
      * intros x. rewrite Ep, occ_snoc, !add_one. lia.
  - subst fs. simpl in *. rewrite (proj2 (Z.ltb_lt _ _) Hk). simpl. rewrite En. simpl. rewrite (proj2 (Nat.ltb_lt _ _) Hmax). simpl.
    rewrite lookup_insert_eq. simpl. eexists. split; [done|]. split_and!; simpl; [|apply even_two|done|].
    + split; [done|]. simpl. eexists. split; [apply lookup_insert_eq|].
      apply (list_ok_append {| shared_count := 0; shared_max := shared_max s; shared := shared s |} [] f); [|done]. by split_and!.
    + intros x. unfold occ. simpl. rewrite !add_one. lia.
Qed.

(** *** Exclusive fences and copies *)

(** [dma_fence_put] of an optional fence that is held *)
Lemma put_option_run e m : (forall x, occ x e [] <= kref m x) -> exists m',
  run (match e with Some g => [Put g] | None => [] end) m = Some m' /\ obj m' = obj m /\ lists m' = lists m /\
  forall x, kref m' x = kref m x - occ x e [].
Proof.
  intros Hk. destruct e as [g|]; simpl.
  - pose proof (Hk g) as Hg. unfold occ in Hg. rewrite one_self in Hg. simpl in Hg. rewrite (proj2 (Z.ltb_lt _ _)) by lia. simpl.
    eexists. split_and!; try done. intros x. simpl. rewrite add_one. unfold occ. simpl. lia.
  - exists m. split_and!; try done. intros x. unfold occ. simpl. lia.
Qed.

Lemma get_option_run f m : (forall g, f = Some g -> 0 < kref m g) -> exists m',
  run (match f with Some g => [Get g] | None => [] end) m = Some m' /\ obj m' = obj m /\ lists m' = lists m /\
  forall x, kref m' x = kref m x + occ x f [].
Proof.
  intros Hk. destruct f as [g|]; simpl.
  - rewrite (proj2 (Z.ltb_lt _ _) (Hk g eq_refl)). simpl. eexists. split_and!; try done. intros x. simpl. rewrite add_one. unfold occ. simpl. lia.
  - exists m. split_and!; try done. intros x. unfold occ. simpl. lia.
Qed.

Lemma gets_run fs m : (forall g, g ∈ fs -> 0 < kref m g) -> exists m',
  run (Get <$> fs) m = Some m' /\ obj m' = obj m /\ lists m' = lists m /\ forall x, kref m' x = kref m x + lsum (one x) fs.
Proof.
  revert m. induction fs as [|f fs IH]; intros m Hk; simpl; [exists m; split_and!; try done; intros x; lia|].
  rewrite (proj2 (Z.ltb_lt _ _)) by (apply Hk; left). simpl. destruct (IH (add_kref f 1 m)) as (m' & E & E1 & E2 & E3).
  { intros g Hg. simpl. rewrite add_one. pose proof (one_ge0 g f). specialize (Hk g ltac:(by right)). lia. }
  exists m'. split_and!; try done. intros x. rewrite E3. simpl. rewrite add_one. lia.
Qed.

Lemma puts_run fs m : (forall x, lsum (one x) fs <= kref m x) -> exists m',
  run (Put <$> fs) m = Some m' /\ obj m' = obj m /\ lists m' = lists m /\ forall x, kref m' x = kref m x - lsum (one x) fs.
Proof.
  revert m. induction fs as [|f fs IH]; intros m Hk; simpl; [exists m; split_and!; try done; intros x; lia|].
  pose proof (Hk f) as Hf. simpl in Hf. rewrite one_self in Hf. pose proof (lsum_nonneg (one f) fs (one_ge0 f)).
  rewrite (proj2 (Z.ltb_lt _ _)) by lia. simpl. destruct (IH (add_kref f (-1) m)) as (m' & E & E1 & E2 & E3).
  { intros x. simpl. rewrite add_one. specialize (Hk x). simpl in Hk. lia. }
  exists m'. split_and!; try done. intros x. rewrite E3. simpl. rewrite add_one. lia.
Qed.

Lemma occ_split x e fs : occ x e fs = occ x e [] + lsum (one x) fs.
Proof. unfold occ. simpl. lia. Qed.

Lemma add_excl_run f m e fs : holds m e fs -> (forall g, f = Some g -> 0 < kref m g) -> backed m e fs ->
  exists m', run (reservation_object_add_excl_fence f m) m = Some m' /\ updated m m' e f fs [] /\ fence (obj m') = fence (obj m) /\
    forall n, fence (obj m) <> Some n -> lists m' !! n = lists m !! n.
Proof.
  intros [He Hf] Hk Hb. unfold reservation_object_add_excl_fence, reservation_object_get_list, reservation_object_get_excl. rewrite He.
  destruct (get_option_run f m Hk) as (m1 & R1 & O1 & L1 & K1). rewrite run_accesses, R1. cbn [mbind option_bind].
  assert (forall x, occ x e fs <= kref m1 x) as Hb1.
  { intros x. rewrite K1. specialize (Hb x). pose proof (occ_nonneg x f []). lia. }
  destruct (fence (obj m)) as [l|] eqn:El; cbn [mbind option_bind].
  - destruct Hf as (r & Er & E1 & E2 & E3). rewrite Er. cbn [mbind option_bind]. rewrite E2, E3. cbn [app run do mbind option_bind].
    simpl. rewrite L1, Er. cbn [mbind option_bind]. simpl. rewrite run_accesses.
    match goal with |- context [run (put_all _) ?mm] => destruct (run_put_all fs mm) as (m2 & R2 & O2 & L2 & K2) end.
    { intros x. simpl. specialize (Hb1 x). rewrite occ_split in Hb1. pose proof (occ_nonneg x e []). lia. }
    rewrite R2. cbn [mbind option_bind].
    destruct (put_option_run e m2) as (m3 & R3 & O3 & L3 & K3).
    { intros x. rewrite K2. simpl. specialize (Hb1 x). rewrite occ_split in Hb1. lia. }
    rewrite R3. exists m3. split; [done|]. unfold updated, holds. rewrite O3, L3, O2, L2. simpl. rewrite ?O1, ?L1, El. split_and!; try done; try lia; try apply even_two.
    + eexists. split; [apply lookup_insert_eq|]. by split_and!.
    + intros x. rewrite K3, K2. simpl. rewrite K1, (occ_split x e fs). lia.
    + intros n Hn. by rewrite lookup_insert_ne by congruence.
  - subst fs. cbn [app run do mbind option_bind].
    match goal with |- context [run _ ?mm] => destruct (put_option_run e mm) as (m3 & R3 & O3 & L3 & K3) end; [done|].
    rewrite R3. exists m3. split; [done|]. unfold updated, holds. rewrite O3, L3. simpl. rewrite O1, L1, El. split_and!; try done; try lia; try apply even_two.
    intros x. rewrite K3. simpl. rewrite K1. lia.
Qed.

(** A copy gives the references of the old shared fences to nobody. *)
Lemma copy_run e' ss got m e fs p m0 : holds m e fs -> backed m e fs -> (forall g, e' = Some g -> 0 < kref m g) ->
  (forall l, ss = Some l -> forall g, g ∈ l -> 0 < kref m g) ->
  reservation_object_copy_fences e' ss got m = Ok (p, m0) ->
  exists m', run p m0 = Some m' /\ holds m' e' (default [] ss) /\ Z.even (seq (obj m')) = Z.even (seq (obj m)) /\ staged (obj m') = None /\
    forall x, kref m' x = kref m x - occ x e [] + occ x e' (default [] ss).
Proof.
  intros [He Hf] Hb He' Hss. unfold reservation_object_copy_fences, reservation_object_get_excl. destruct ss as [l|].
  - destruct got as [n|]; [|done]. intros [= <- <-]. simpl. rewrite He, run_accesses.
    match goal with |- context [run (Get <$> l) ?mm] => destruct (gets_run l mm) as (m1 & R1 & O1 & L1 & K1) end; [by apply Hss|].
    rewrite R1. cbn [mbind option_bind]. rewrite run_accesses.
    destruct (get_option_run e' m1) as (m2 & R2 & O2 & L2 & K2).
    { intros g E. rewrite K1. simpl. pose proof (lsum_nonneg (one g) l (one_ge0 g)). specialize (He' g E). lia. }
    rewrite R2. cbn [mbind option_bind app run do].
    match goal with |- context [run _ ?mm] => destruct (put_option_run e mm) as (m3 & R3 & O3 & L3 & K3) end.
    { intros x. simpl. rewrite K2, K1. simpl. specialize (Hb x). rewrite occ_split in Hb.
      pose proof (lsum_nonneg (one x) fs (one_ge0 x)). pose proof (lsum_nonneg (one x) l (one_ge0 x)). pose proof (occ_nonneg x e' []). lia. }
    rewrite R3. exists m3. split; [done|]. unfold holds. rewrite O3, L3. simpl. rewrite O2, O1, L2, L1. simpl. split_and!; try done; try lia; try apply even_two.
    + eexists. split; [apply lookup_insert_eq|]. split_and!; simpl; [by rewrite length_fmap|done|]. by rewrite <- (length_fmap Some), firstn_all.
    + intros x. rewrite K3. simpl. rewrite K2, K1. simpl. rewrite (occ_split x e' l). lia.
  - intros [= <- <-]. simpl. rewrite He, run_accesses.
    match goal with |- context [run (match e' with _ => _ end) ?mm] => destruct (get_option_run e' mm) as (m2 & R2 & O2 & L2 & K2) end; [done|].
    rewrite R2. cbn [mbind option_bind app run do].
    match goal with |- context [run _ ?mm] => destruct (put_option_run e mm) as (m3 & R3 & O3 & L3 & K3) end.
    { intros x. simpl. rewrite K2. simpl. specialize (Hb x). rewrite occ_split in Hb.
      pose proof (lsum_nonneg (one x) fs (one_ge0 x)). pose proof (occ_nonneg x e' []). lia. }
    rewrite R3. exists m3. split; [done|]. unfold holds. rewrite O3, L3. simpl. rewrite ?O2. simpl. split_and!; try done; try lia; try apply even_two.
    intros x. rewrite K3. simpl. rewrite K2. simpl. lia.
Qed.

(** ** Histories

    What callers do: make fences, take and give back references of their own
    ([s_ext]), reserve room and add.  A shared fence is added only after a
    successful reservation ([s_room]), and callers hold the fences they pass. *)
Inductive op :=
| New (f : nat) | Hold (f : nat) | Drop (f : nat) | Reserve (got : option nat) | AddShared (f : nat) | AddExcl (f : option nat)
| Copy (e : option nat) (ss : option (list nat)) (got : option nat).

(** The abstract object: contents, whether room was reserved, references of
    callers, references that were lost *)
Record spec := { s_excl : option nat; s_shared : list nat; s_room : bool; s_ext : nat -> Z; s_leak : nat -> Z }.

Definition bump (x : nat) (n : Z) (g : nat -> Z) (y : nat) : Z := if decide (y = x) then g y + n else g y.

Definition spec_step (o : op) (ok : bool) (sp : spec) : spec :=
  match o with
  | New f | Hold f =>
      {| s_excl := s_excl sp; s_shared := s_shared sp; s_room := s_room sp; s_ext := bump f 1 (s_ext sp); s_leak := s_leak sp |}
  | Drop f =>
      {| s_excl := s_excl sp; s_shared := s_shared sp; s_room := s_room sp; s_ext := bump f (-1) (s_ext sp); s_leak := s_leak sp |}
  | Reserve _ => {| s_excl := s_excl sp; s_shared := s_shared sp; s_room := s_room sp || ok; s_ext := s_ext sp; s_leak := s_leak sp |}
  | AddShared f =>
      {| s_excl := s_excl sp; s_shared := put_shared f (s_shared sp); s_room := false; s_ext := s_ext sp; s_leak := s_leak sp |}
  | AddExcl f => {| s_excl := f; s_shared := []; s_room := s_room sp; s_ext := s_ext sp; s_leak := s_leak sp |}
  | Copy e ss _ =>
      if ok then {| s_excl := e; s_shared := default [] ss; s_room := false; s_ext := s_ext sp;
                    s_leak := fun x => s_leak sp x + lsum (one x) (s_shared sp) |}
      else sp
  end.

Definition alive (sp : spec) (f : nat) : bool := 0 <? s_ext sp f.

(** What callers must respect; memory that is handed out is not in use; the object has fewer than [2^31] shared fences when
    room is reserved, and a source of copies has a [u32] number of fences. *)
Definition allowed (o : op) (m : mem) (sp : spec) : bool :=
  match o with
  | New f => (kref m f =? 0) && (s_ext sp f =? 0)
  | Hold f | Drop f | AddExcl (Some f) => alive sp f
  | AddExcl None => true
  | Reserve None => Z.of_nat (length (s_shared sp)) <? 2 ^ 31
  | Reserve (Some n) => (Z.of_nat (length (s_shared sp)) <? 2 ^ 31) && (bool_decide (lists m !! n = None) || bool_decide (staged (obj m) = Some n))
  | AddShared f => s_room sp && alive sp f
  | Copy e ss got =>
      match e with Some f => alive sp f | None => true end && forallb (alive sp) (default [] ss) &&
      bool_decide (NoDup (context <$> default [] ss)) && (Z.of_nat (length (default [] ss)) <? 2 ^ 32) && match got with Some n => bool_decide (lists m !! n = None) | None => true end
  end.

Inductive outcome := Misuse | Fault | Fine (m : mem) (sp : spec).

Definition step (o : op) (m : mem) (sp : spec) : outcome :=
  if negb (allowed o m sp) then Misuse
  else
    let done (ok : bool) (r : option mem) := match r with Some m' => Fine m' (spec_step o ok sp) | None => Fault end in
    match o with
    | New f => done true (Some (add_kref f 1 m))
    | Hold f => done true (do (Get f) m)
    | Drop f => done true (do (Put f) m)
    | Reserve got => match reservation_object_reserve_shared got m with Ok m' => done true (Some m') | Err _ => done false (Some m) end
    | AddShared f =>
        match reservation_object_add_shared_fence context f m with Some (p, m0) => done true (run p m0) | None => Fault end
    | AddExcl f => done true (run (reservation_object_add_excl_fence f m) m)
    | Copy e ss got => match reservation_object_copy_fences e ss got m with Ok (p, m0) => done true (run p m0) | Err _ => done false (Some m) end
    end.

Fixpoint exec (os : list op) (m : mem) (sp : spec) : outcome :=
  match os with [] => Fine m sp | o :: os => match step o m sp with Fine m' sp' => exec os m' sp' | r => r end end.

Definition init_mem : mem := {| obj := reservation_object_init; lists := ∅; kref := fun _ => 0 |}.
Definition init_spec : spec := {| s_excl := None; s_shared := []; s_room := false; s_ext := fun _ => 0; s_leak := fun _ => 0 |}.

Record inv (m : mem) (sp : spec) : Prop := {
  iv_holds : holds m (s_excl sp) (s_shared sp);
  iv_nodup : NoDup (context <$> s_shared sp);
  iv_refs : forall x, kref m x = s_ext sp x + occ x (s_excl sp) (s_shared sp) + s_leak sp x;
  iv_pos : forall x, 0 <= s_ext sp x /\ 0 <= s_leak sp x;
  iv_even : Z.even (seq (obj m)) = true;
  iv_width : forall l r, lists m !! l = Some r -> Z.of_nat (shared_max r) < 2 ^ 32;
  iv_staged : forall n, staged (obj m) = Some n -> fence (obj m) <> Some n /\
    exists s, lists m !! n = Some s /\ length (shared s) = shared_max s /\ (length (s_shared sp) < shared_max s)%nat;
  iv_room : s_room sp = true -> staged (obj m) = None ->
    exists l r, fence (obj m) = Some l /\ lists m !! l = Some r /\ (shared_count r < shared_max r)%nat }.

Lemma inv_backed m sp : inv m sp -> backed m (s_excl sp) (s_shared sp).
Proof. intros H x. rewrite (iv_refs _ _ H). pose proof (iv_pos _ _ H x). lia. Qed.

Lemma inv_alive m sp f : inv m sp -> alive sp f = true -> 0 < kref m f.
Proof.
  intros H Ha. unfold alive in Ha. rewrite (iv_refs _ _ H). pose proof (iv_pos _ _ H f). pose proof (occ_nonneg f (s_excl sp) (s_shared sp)). lia.
Qed.

Lemma bump_one x n g y : bump x n g y = g y + n * one y x.
Proof. unfold bump. apply add_one. Qed.


(** References of callers do not touch the object. *)
Lemma inv_refs_only m sp f n : inv m sp -> 0 <= s_ext sp f + n ->
  inv (add_kref f n m) {| s_excl := s_excl sp; s_shared := s_shared sp; s_room := s_room sp; s_ext := bump f n (s_ext sp); s_leak := s_leak sp |}.
Proof.
  intros [] Hn. constructor; simpl; try done.
  - intros x. rewrite add_one, bump_one, iv_refs0. lia.
  - intros x. rewrite bump_one. destruct (iv_pos0 x). unfold one. destruct (decide _) as [->|]; lia.
Qed.

Lemma new_list_ok n k : (k < n)%nat -> length (shared (new_list n)) = shared_max (new_list n) /\ (k < shared_max (new_list n))%nat.
Proof. intros H. simpl. by rewrite length_replicate. Qed.

Lemma reserve_inv got m sp : inv m sp -> allowed (Reserve got) m sp = true ->
  match reservation_object_reserve_shared got m with
  | Ok m' => inv m' (spec_step (Reserve got) true sp) | Err _ => inv m (spec_step (Reserve got) false sp)
  end.
Proof.
  intros H Ha. pose proof (iv_holds _ _ H) as [He Hf].
  assert (Z.of_nat (length (s_shared sp)) < 2 ^ 31) as Hsm.
  { destruct got; simpl in Ha; rewrite ?andb_true_iff in Ha; lia. }
  assert (forall max n, got = Some n -> (length (s_shared sp) < max)%nat -> Z.of_nat max < 2 ^ 32 ->
    inv (set_list n (new_list max) (set_obj (set_staged (Some n) (obj m)) m)) (spec_step (Reserve got) true sp)) as Hstage.
  { intros max n -> Hm Hw. simpl in Ha. apply andb_true_iff in Ha as [_ Ha].
    assert (fence (obj m) <> Some n) as Hne.
    { intros E. rewrite E in Hf. destruct Hf as (r & Er & _). apply orb_true_iff in Ha as [Ha%bool_decide_eq_true|Ha%bool_decide_eq_true]; [congruence|].
      by destruct (iv_staged _ _ H _ Ha). }
    destruct (new_list_ok max _ Hm) as [L1 L2].
    destruct H. constructor; simpl; try done.
    - split; [done|]. simpl. destruct (fence (obj m)) as [l|]; [|done]. destruct Hf as (r & Er & Hr). exists r.
      rewrite lookup_insert_ne by congruence. done.
    - intros l r. rewrite lookup_insert_Some. intros [[_ <-]|[_ Hr]]; [done|eauto].
    - intros n' [= <-]. split; [done|]. exists (new_list max). rewrite lookup_insert_eq. split; [done|]. by split. }
  unfold reservation_object_reserve_shared, reservation_object_get_list.
  assert (inv m (spec_step (Reserve got) false sp)) as Hfail.
  { destruct H. constructor; simpl; try done. by rewrite orb_false_r. }
  destruct (fence (obj m)) as [l|] eqn:El; cbn [mbind option_bind].
  - destruct Hf as (r & Er & Hok). rewrite Er. cbn [mbind option_bind]. pose proof (list_ok_max _ _ Hok) as Hm. destruct Hok as (E1 & E2 & E3).
    destruct (shared_max r =? 0)%nat eqn:Ez; [apply Nat.eqb_eq in Ez|apply Nat.eqb_neq in Ez; destruct (shared_count r <? shared_max r)%nat eqn:Ec].
    + destruct got as [n|]; [apply Hstage; [done|lia|lia]|done].
    + destruct H. constructor; simpl; try done.
      intros _ _. exists l, r. split_and!; try done. by apply Nat.ltb_lt.
    + apply Nat.ltb_ge in Ec. destruct got as [n|]; [|done]. rewrite u32n_small by lia. apply Hstage; [done|lia|lia].
  - destruct got as [n|]; [apply Hstage; [done|rewrite Hf; simpl; lia|lia]|done].
Qed.

Lemma add_shared_inv f m sp : inv m sp -> allowed (AddShared f) m sp = true ->
  exists p m0 m', reservation_object_add_shared_fence context f m = Some (p, m0) /\ run p m0 = Some m' /\ inv m' (spec_step (AddShared f) true sp).
Proof.
  intros H [Hr Ha]%andb_true_iff. pose proof (inv_backed _ _ H) as Hb. pose proof (inv_alive _ _ _ H Ha) as Hk.
  pose proof (iv_holds _ _ H) as Hh.
  assert (forall m0 m' p, m0 = set_obj (set_staged None (obj m)) m -> run p m0 = Some m' -> updated m0 m' (s_excl sp) (s_excl sp) (s_shared sp) (put_shared f (s_shared sp)) ->
    inv m' (spec_step (AddShared f) true sp)) as Hdone.
  { intros m0 m' p -> R (Hu & Hq & Hs & Hx). simpl in *. destruct H. constructor; simpl; try done.
    - by apply put_shared_nodup.
    - intros x. rewrite Hx, iv_refs0. lia.
    - by rewrite Hq.
    - by eapply run_width.
    - intros n. rewrite Hs. done. }
  unfold reservation_object_add_shared_fence. set (m0 := set_obj (set_staged None (obj m)) m) in *.
  destruct (staged (obj m)) as [n|] eqn:Es.
  - destruct (iv_staged _ _ H _ Es) as (Hn & s & Er & Hl & Hm).
    destruct (add_replace_run n s f m0 (s_excl sp) (s_shared sp)) as (m' & R & Hu); try done; [by apply (iv_width _ _ H n)|].
    do 3 eexists. split; [reflexivity|]. split; [exact R|]. by eapply Hdone.
  - destruct (iv_room _ _ H Hr Es) as (l & r & El & Er & Hc). unfold reservation_object_get_list. rewrite El. cbn [mbind option_bind]. rewrite Er.
    cbn [mbind option_bind]. rewrite (proj2 (Nat.leb_gt _ _) Hc).
    destruct (add_inplace_run l r f m0 (s_excl sp) (s_shared sp)) as (m' & R & Hu); try done; [by apply (iv_width _ _ H l)|].
    do 3 eexists. split; [reflexivity|]. split; [exact R|]. by eapply Hdone.
Qed.

Lemma add_excl_inv f m sp : inv m sp -> allowed (AddExcl f) m sp = true ->
  exists m', run (reservation_object_add_excl_fence f m) m = Some m' /\ inv m' (spec_step (AddExcl f) true sp).
Proof.
  intros H Ha. destruct (add_excl_run f m (s_excl sp) (s_shared sp) (iv_holds _ _ H)) as (m' & R & (Hu & Hq & Hs & Hx) & Ef & Hl);
    [|by apply inv_backed|].
  { intros g ->. by eapply inv_alive. }
  exists m'. split; [done|]. destruct H. constructor; simpl; try done.
  - apply NoDup_nil_2.
  - intros x. rewrite Hx, iv_refs0. lia.
  - by rewrite Hq.
  - by eapply run_width.
  - intros n. rewrite Hs, Ef. intros E. destruct (iv_staged0 n E) as (Hn & s & Er & H1 & H2). split; [done|]. exists s.
    rewrite Hl by done. split_and!; try done. lia.
  - rewrite Hs. intros Hr E. destruct (iv_room0 Hr E) as (l & r & El & Er & Hc). destruct Hu as [_ Hu]. rewrite Ef, El in *.
    destruct Hu as (r' & Er' & Hok). exists l, r'. split_and!; try done.
    destruct iv_holds0 as [_ Hh]. rewrite El in Hh. destruct Hh as (r0 & Er0 & Hok0).
    assert (shared_max r' = shared_max r) as ->; [|destruct Hok as (_ & -> & _); simpl; lia].
    revert R. unfold reservation_object_add_excl_fence, reservation_object_get_list. rewrite El. cbn [mbind option_bind]. rewrite Er. cbn [mbind option_bind].
    intros R. by eapply run_keeps_max.
Qed.

Lemma copy_inv e ss got m sp : inv m sp -> allowed (Copy e ss got) m sp = true ->
  match reservation_object_copy_fences e ss got m with
  | Ok (p, m0) => exists m', run p m0 = Some m' /\ inv m' (spec_step (Copy e ss got) true sp)
  | Err _ => inv m (spec_step (Copy e ss got) false sp)
  end.
Proof.
  intros H Ha. simpl in Ha. rewrite !andb_true_iff in Ha. destruct Ha as [[[[Ha1 Ha2] Ha3%bool_decide_eq_true] Ha4] _].
  destruct (reservation_object_copy_fences e ss got m) as [[p m0]|] eqn:E; [|done].
  destruct (copy_run e ss got m (s_excl sp) (s_shared sp) p m0 (iv_holds _ _ H) (inv_backed _ _ H)) as (m' & R & Hh & Hq & Hs & Hx); [| |done|].
  { intros g ->. by eapply inv_alive. }
  { intros l -> g Hg. eapply inv_alive; [done|]. simpl in Ha2. rewrite forallb_forall in Ha2. apply Ha2. by apply list_elem_of_In. }
  exists m'. split; [done|]. destruct H. constructor; simpl; try done.
  - intros x. rewrite Hx, iv_refs0, (occ_split x (s_excl sp) (s_shared sp)). lia.
  - intros x. destruct (iv_pos0 x). pose proof (lsum_nonneg (one x) (s_shared sp) (one_ge0 x)). lia.
  - by rewrite Hq.
  - eapply run_width; [exact R|]. unfold reservation_object_copy_fences in E.
    destruct ss as [fs|]; [destruct got as [n|]; [|done]|]; injection E as <- <-; simpl; [|done].
    intros l r. rewrite lookup_insert_Some. intros [[_ <-]|[_ Hr]]; simpl in *; [lia|eauto].
  - intros n. by rewrite Hs.
Qed.

Lemma reservation_step_inv o m sp : inv m sp -> match step o m sp with Fine m' sp' => inv m' sp' | Misuse => True | Fault => False end.
Proof.
  intros H. unfold step. destruct (allowed o m sp) eqn:Ha; [|done]. cbn [negb]. destruct o as [f|f|f|got|f|f|e ss got].
  - apply inv_refs_only; [done|]. pose proof (iv_pos _ _ H f). lia.
  - simpl in Ha. pose proof (inv_alive _ _ _ H Ha) as Hk. simpl. rewrite (proj2 (Z.ltb_lt _ _) Hk).
    apply inv_refs_only; [done|]. pose proof (iv_pos _ _ H f). lia.
  - simpl in Ha. pose proof (inv_alive _ _ _ H Ha) as Hk. simpl. rewrite (proj2 (Z.ltb_lt _ _) Hk).
    apply inv_refs_only; [done|]. unfold alive in Ha. lia.
  - pose proof (reserve_inv got m sp H Ha) as Hr. by destruct (reservation_object_reserve_shared got m).
  - destruct (add_shared_inv f m sp H Ha) as (p & m0 & m' & -> & -> & Hi). done.
  - destruct (add_excl_inv f m sp H Ha) as (m' & -> & Hi). done.
  - pose proof (copy_inv e ss got m sp H Ha) as Hc. destruct (reservation_object_copy_fences e ss got m) as [[p m0]|]; [|done].
    destruct Hc as (m' & -> & Hi). done.
Qed.

Lemma reservation_exec_inv os m sp : inv m sp -> match exec os m sp with Fine m' sp' => inv m' sp' | Misuse => True | Fault => False end.
Proof.
  revert m sp. induction os as [|o os IH]; intros m sp H; simpl; [done|]. pose proof (reservation_step_inv o m sp H) as Hs.
  destruct (step o m sp); [done|done|by apply IH].
Qed.

Lemma init_inv : inv init_mem init_spec.
Proof. constructor; simpl; try done. apply NoDup_nil_2. Qed.

(** [reservation_object_fini] gives back every reference of the object. *)
Lemma fini_releases m sp : inv m sp -> exists m', run (reservation_object_fini m) m = Some m' /\
  forall x, kref m' x = s_ext sp x + s_leak sp x.
Proof.
  intros H. pose proof (inv_backed _ _ H) as Hb. pose proof (iv_holds _ _ H) as [He Hf].
  unfold reservation_object_fini, reservation_object_get_excl, reservation_object_get_list. rewrite He, run_accesses.
  destruct (put_option_run (s_excl sp) m) as (m1 & R1 & O1 & L1 & K1).
  { intros x. specialize (Hb x). rewrite occ_split in Hb. pose proof (lsum_nonneg (one x) (s_shared sp) (one_ge0 x)). lia. }
  rewrite R1. cbn [mbind option_bind].
  assert (match (l ← fence (obj m); r ← lists m !! l; Some (l, r)) with
          | Some (_, r) => rev (put_all (take (shared_count r) (shared r))) | None => [] end = Put <$> s_shared sp) as ->.
  { destruct (fence (obj m)) as [l|]; [|by rewrite Hf]. destruct Hf as (r & Er & E1 & E2 & E3). cbn [mbind option_bind]. rewrite Er.
    cbn [mbind option_bind]. rewrite E2, E3. unfold put_all. rewrite rev_involutive. clear. induction (s_shared sp) as [|f fs IH]; [done|].
    rewrite !fmap_cons. simpl. by rewrite <- IH. }
  destruct (puts_run (s_shared sp) m1) as (m2 & R2 & _ & _ & K2).
  { intros x. rewrite K1. specialize (Hb x). rewrite occ_split in Hb. lia. }
  exists m2. split; [done|]. intros x. rewrite K2, K1, (iv_refs _ _ H), (occ_split x (s_excl sp) (s_shared sp)). lia.
Qed.

(** C21: a reservation object holds what was put into it.  For every history of
    calls that respects the rules (room reserved, with fewer than [2^31] shared
    fences in the object, before a shared fence is added; fences passed are alive;
    the source of a copy has at most one fence per context), failed allocations
    included: no access faults and
    the [BUG_ON] is not reached; the object holds the exclusive and shared fences
    of the abstract object, where a new shared fence takes the place of the one
    of its context; no context has two shared fences; and the reference count of
    every fence is what callers hold, one for each place in the object, and what
    copies over shared fences have lost; [reservation_object_fini] gives back the
    references of the object. *)
Theorem reservation_object_refines os :
  exec os init_mem init_spec <> Fault /\
  forall m sp, exec os init_mem init_spec = Fine m sp ->
    holds m (s_excl sp) (s_shared sp) /\ NoDup (context <$> s_shared sp) /\
    (forall x, kref m x = s_ext sp x + occ x (s_excl sp) (s_shared sp) + s_leak sp x) /\
    exists m', run (reservation_object_fini m) m = Some m' /\ forall x, kref m' x = s_ext sp x + s_leak sp x.
Proof.
  pose proof (reservation_exec_inv os _ _ init_inv) as H. split; [by destruct (exec os init_mem init_spec)|].
  intros m sp E. rewrite E in H. split; [apply (iv_holds _ _ H)|]. split; [apply (iv_nodup _ _ H)|].
  split; [apply (iv_refs _ _ H)|by apply fini_releases].
Qed.
End Updates.

(** Fences 10 to 19 belong to context 1, and so on. *)
Definition sample_context (f : nat) : Z := Z.of_nat (Nat.div f 10).

Definition sample_ops : list op :=
  [New 10; New 11; New 20; Reserve (Some 1%nat); AddShared 10; Reserve None; AddShared 20; Reserve None; AddShared 11; Drop 10].

Lemma reservation_object_refines_witness : exists m sp,
  exec sample_context sample_ops init_mem init_spec = Fine m sp /\ holds m None [11%nat; 20%nat] /\ kref m 10 = 0 /\ kref m 11 = 2.
Proof.
  destruct (exec sample_context sample_ops init_mem init_spec) as [| |m sp] eqn:E; [vm_compute in E; discriminate..|].
  exists m, sp. split; [reflexivity|]. destruct (proj2 (reservation_object_refines sample_context sample_ops) m sp E) as (Hh & _ & Hk & _).
  rewrite !Hk. clear Hk. vm_compute in E. injection E as _ <-. split; [exact Hh|]. split; vm_compute; reflexivity.
Defined.

(** After a copy over an object with a shared fence, a reference to that fence is left that nobody holds. *)
Theorem reservation_object_copy_leaks : exists m sp,
  exec sample_context [New 10; Reserve (Some 1%nat); AddShared 10; Drop 10; Copy None None None] init_mem init_spec = Fine m sp /\
  holds m None [] /\ s_ext sp 10 = 0 /\ kref m 10 = 1.
Proof. do 2 eexists. split; [vm_compute; reflexivity|]. split; [by vm_compute|]. split; vm_compute; reflexivity. Qed.
