(* ===== verification/ReservationRcu.v ===== *)
(** * Readers of reservation objects ([linux_reservation.c])

    [reservation_object_get_fences_rcu] takes no lock: it notes the sequence
    counter, copies pointers and the shared array word by word, reads the
    exclusive fence and starts again when the counter has changed; then it takes
    a reference to every fence unless its count is zero, in which case it gives
    the references back and starts again.  Any number of readers run between the
    single accesses of one writer, whose calls are those of [Reservation].  RCU
    keeps memory that readers may look at, so lists are never reused.

    Theorem: what a reader returns is the contents of the object at the moment of
    its last check, and the reader has a reference to every fence it returns; no
    access of writer or reader faults.  The counter is an [unsigned] that wraps
    around: a reader that is overtaken by [2^32] changes of it between noting and
    checking would be deceived, which the theorem excludes.  References of callers
    change between the calls of the writer. *)

From stdpp Require Import base gmap list option sets.
From Stdlib Require Import ZArith Lia.
From S2P Require Import Prelude Reservation.

#[local] Set Warnings "-clear-no-such-hyp".

#[local] Open Scope Z_scope.

(** Control points; [ex] is the local variable [fence_excl]. *)
Inductive rpc :=
| RStart (ex : option nat)
| RSeq (q : Z) (ex : option nat)                                         (** the counter is [q] *)
| RAlloc (q : Z) (l : nat) (ex : option nat)                             (** [fobj] is [l]; [krealloc] without waiting *)
| RSlow (ex : option nat)                                                (** [krealloc] with waiting *)
| RCopy (q : Z) (l max : nat) (acc : list (option nat)) (ex : option nat) (** [memcpy] *)
| RCount (q : Z) (l : nat) (acc : list (option nat)) (ex : option nat)
| RExcl (q : Z) (acc : list (option nat))
| RCheck (q : Z) (acc : list (option nat)) (e : option nat)
| RGetExcl (acc : list (option nat)) (e : option nat)
| RGet (acc : list (option nat)) (e : option nat) (i : nat)
| RUndo (acc : list (option nat)) (e : option nat) (i : nat)
| RDone (r : result (option nat * list (option nat)))
| RFault.

(** Object, remaining accesses of the writer, abstract object after its call, readers, and for each
    reader the contents of the object when its check succeeded.  For the theorem only: how often the
    counter was raised so far, and what that number was when a reader noted the counter. *)
Record sys := {
  wm : mem; prog : list access; sp : spec; rd : gmap nat rpc; checked : gmap nat (option nat * list (option nat));
  epoch : Z; since : gmap nat Z }.

Definition set_wm (m : mem) (s : sys) : sys :=
  {| wm := m; prog := prog s; sp := sp s; rd := rd s; checked := checked s; epoch := epoch s; since := since s |}.
Definition go (t : nat) (p : rpc) (s : sys) : sys :=
  {| wm := wm s; prog := prog s; sp := sp s; rd := <[t := p]> (rd s); checked := checked s; epoch := epoch s; since := since s |}.
Definition note (t : nat) (c : option nat * list (option nat)) (s : sys) : sys :=
  {| wm := wm s; prog := prog s; sp := sp s; rd := rd s; checked := <[t := c]> (checked s); epoch := epoch s; since := since s |}.
Definition mark (t : nat) (s : sys) : sys :=
  {| wm := wm s; prog := prog s; sp := sp s; rd := rd s; checked := checked s; epoch := epoch s; since := <[t := epoch s]> (since s) |}.

(** The fences of the object as they are in memory *)
Definition shared_content (m : mem) : list (option nat) :=
  match reservation_object_get_list m with Some (_, r) => take (shared_count r) (shared r) | None => [] end.
Definition content (m : mem) : option nat * list (option nat) := (fence_excl (obj m), shared_content m).

(** [dma_fence_get_rcu] *)
Definition dma_fence_get_rcu (f : nat) (m : mem) : option mem := if kref m f =? 0 then None else Some (add_kref f 1 m).

(** One step of [reservation_object_get_fences_rcu]; [got] answers allocations.
    [None]: the counter is odd and the reader waits, or the call is over. *)
Definition reservation_object_get_fences_rcu (t : nat) (got : bool) (s : sys) : option sys :=
  let m := wm s in
  p ← rd s !! t;
  match p with
  | RStart ex => if Z.even (seq (obj m)) then Some (mark t (go t (RSeq (seq (obj m)) ex) s)) else None
  | RSeq q ex => Some (go t (match fence (obj m) with Some l => RAlloc q l ex | None => RExcl q [] end) s)
  | RAlloc q l ex =>
      if got then Some (go t (match lists m !! l with Some r => RCopy q l (shared_max r) [] ex | None => RFault end) s)
      else Some (go t (RSlow ex) s)
  | RSlow ex => Some (go t (if got then RStart ex else RDone (Err ENOMEM)) s)
  | RCopy q l max acc ex =>
      if (length acc <? max)%nat then
        Some (go t (match lists m !! l with
                    | Some r => match shared r !! length acc with Some x => RCopy q l max (acc ++ [x]) ex | None => RFault end
                    | None => RFault
                    end) s)
      else Some (go t (RCount q l acc ex) s)
  | RCount q l acc ex => Some (go t (match lists m !! l with Some r => RExcl q (take (shared_count r) acc) | None => RFault end) s)
  | RExcl q acc => Some (go t (RCheck q acc (fence_excl (obj m))) s)
  | RCheck q acc e =>
      if seq (obj m) =? q then Some (note t (content m) (go t (RGetExcl acc e) s)) else Some (go t (RStart e) s)
  | RGetExcl acc e =>
      match e with
      | None => Some (go t (RGet acc e 0) s)
      | Some f => match dma_fence_get_rcu f m with Some m1 => Some (go t (RGet acc e 0) (set_wm m1 s)) | None => Some (go t (RStart e) s) end
      end
  | RGet acc e i =>
      match acc !! i with
      | Some (Some f) =>
          match dma_fence_get_rcu f m with Some m1 => Some (go t (RGet acc e (S i)) (set_wm m1 s)) | None => Some (go t (RUndo acc e i) s) end
      | Some None => Some (go t RFault s)
      | None => Some (go t (RDone (Ok (e, acc))) s)
      end
  | RUndo acc e i =>
      match i with
      | S i =>
          match acc !! i with
          | Some (Some f) => match do (Put f) m with Some m1 => Some (go t (RUndo acc e i) (set_wm m1 s)) | None => Some (go t RFault s) end
          | _ => Some (go t RFault s)
          end
      | O =>
          match e with
          | Some f => match do (Put f) m with Some m1 => Some (go t (RStart None) (set_wm m1 s)) | None => Some (go t RFault s) end
          | None => Some (go t (RStart None) s)
          end
      end
  | RDone _ | RFault => None
  end.

Section System.
Context (context : nat -> Z).

(** The writer starts a call: its accesses, and the memory after what it does to
    [staged] and to new lists. *)
Definition begin_op (o : op) (m : mem) : result (list access * mem) :=
  match o with
  | New f => Ok ([], add_kref f 1 m)
  | Hold f => Ok ([Get f], m)
  | Drop f => Ok ([Put f], m)
  | Reserve got => match reservation_object_reserve_shared got m with Ok m1 => Ok ([], m1) | Err e => Err e end
  | AddShared f => match reservation_object_add_shared_fence context f m with Some pm => Ok pm | None => Err EINVAL end
  | AddExcl f => Ok (reservation_object_add_excl_fence f m, m)
  | Copy e ss got => reservation_object_copy_fences e ss got m
  end.

(** The memory with the references of readers left out *)
Definition ideal (sp : spec) (m : mem) : mem :=
  {| obj := obj m; lists := lists m; kref := fun x => s_ext sp x + occ x (s_excl sp) (s_shared sp) + s_leak sp x |}.

(** New lists have new names, which no reader knows. *)
Definition fresh_name (o : op) (m : mem) : bool :=
  match o with Reserve (Some n) | Copy _ _ (Some n) => bool_decide (lists m !! n = None) | _ => true end.

Definition write_begin (o : op) (s : sys) : option sys :=
  match prog s with
  | [] =>
      if allowed context o (ideal (sp s) (wm s)) (sp s) && fresh_name o (wm s) && (match o with New f => kref (wm s) f =? 0 | _ => true end)
      then match begin_op o (wm s) with
           | Ok (p, m) =>
               Some {| wm := m; prog := p; sp := spec_step context o true (sp s); rd := rd s; checked := checked s;
                       epoch := epoch s; since := since s |}
           | Err _ =>
               Some {| wm := wm s; prog := []; sp := spec_step context o false (sp s); rd := rd s; checked := checked s;
                       epoch := epoch s; since := since s |}
           end
      else None
  | _ => None
  end.

(** Whether the access raises the counter *)
Definition tick (a : access) : Z := match a with Begin | End => 1 | _ => 0 end.

(** The next access of the writer *)
Definition write_step (s : sys) : option sys :=
  match prog s with
  | a :: p =>
      m ← do a (wm s);
      Some {| wm := m; prog := p; sp := sp s; rd := rd s; checked := checked s; epoch := epoch s + tick a; since := since s |}
  | [] => None
  end.

Inductive event := Write (o : op) | Access | NewReader (t : nat) | Read (t : nat) (got : bool).

Definition next (e : event) (s : sys) : option sys :=
  match e with
  | Write o => write_begin o s
  | Access => write_step s
  | NewReader t => match rd s !! t with None => Some (go t (RStart None) s) | Some _ => None end
  | Read t got => reservation_object_get_fences_rcu t got s
  end.

Fixpoint exec (es : list event) (s : sys) : option sys :=
  match es with [] => Some s | e :: es => s1 ← next e s; exec es s1 end.

(** If the reader checks the counter now, it was raised less than [2^32] times since the reader noted it. *)
Definition in_time (t : nat) (s : sys) : bool :=
  match rd s !! t with Some (RCheck _ _ _) => epoch s - default 0 (since s !! t) <? 2 ^ 32 | _ => true end.

(** Every check of a reader is in time. *)
Fixpoint timely (es : list event) (s : sys) : bool :=
  match es with
  | [] => true
  | e :: es =>
      match e with Read t _ => in_time t s | _ => true end &&
      match next e s with Some s1 => timely es s1 | None => true end
  end.

Definition boot : sys := {| wm := init_mem; prog := []; sp := init_spec; rd := ∅; checked := ∅; epoch := 0; since := ∅ |}.
End System.

(** ** The shape of writers

    Outside of the sections of the sequence counter a writer stores only to lists
    that are not published; [D] is the set of lists that exist. *)
Definition outside (pub : option nat) (a : access) : Prop :=
  match a with Get _ | Put _ => True | SetShared l _ _ | SetCount l _ => Some l <> pub | _ => False end.

Fixpoint bracketed (D : gset nat) (open : bool) (pub : option nat) (p : list access) : Prop :=
  match p with
  | [] => open = false
  | a :: p =>
      if open then
        match a with
        | SetShared _ _ _ | SetCount _ _ | SetExcl _ | SetFence None => bracketed D true pub p
        | SetFence (Some n) => n ∈ D /\ bracketed D true pub p
        | End => Forall (fun b => exists f, b = Put f) p
        | _ => False
        end
      else match a with Begin => bracketed D true pub p | _ => outside pub a /\ bracketed D false pub p end
  end.

Lemma bracketed_app D pub p q : Forall (outside pub) p -> bracketed D false pub q -> bracketed D false pub (p ++ q).
Proof. induction 1 as [|a p Ha _ IH]; intros Hq; [done|]. simpl. specialize (IH Hq). by destruct a. Qed.

Lemma bracketed_puts D pub p : Forall (fun b => exists f, b = Put f) p -> bracketed D false pub p.
Proof. induction 1 as [|a p [f ->] _ IH]; [done|]. by split. Qed.

Lemma puts_all entries : Forall (fun b => exists f, b = Put f) (put_all entries).
Proof.
  unfold put_all. apply Forall_rev. induction entries as [|[f|] entries IH]; simpl; [done| |done]. constructor; [by exists f|done].
Qed.

Lemma puts_option (e : option nat) : Forall (fun b => exists f, b = Put f) (match e with Some g => [Put g] | None => [] end).
Proof. destruct e as [g|]; [|done]. constructor; [by exists g|done]. Qed.

Section Shape.
Context (context : nat -> Z) (D : gset nat).

Lemma replace_loop_outside n f i o entries pub : Some n <> pub -> Forall (outside pub) (replace_loop context n f i o entries).1.
Proof.
  intros Hn. revert i o. induction entries as [|[g|] entries IH]; intros i o; simpl; try done.
  destruct o as [h|]; [|destruct (context g =? context f)];
    match goal with |- context [replace_loop context n f (S i) ?o' entries] =>
      specialize (IH (S i) o'); destruct (replace_loop context n f (S i) o' entries) end; by constructor.
Qed.

Lemma add_shared_shape f m p m0 : (forall n, staged (obj m) = Some n -> fence (obj m) <> Some n /\ n ∈ D) ->
  reservation_object_add_shared_fence context f m = Some (p, m0) ->
  bracketed D false (fence (obj m)) p /\ m0 = set_obj (set_staged None (obj m)) m.
Proof.
  intros Hs. unfold reservation_object_add_shared_fence. destruct (staged (obj m)) as [n|].
  - intros [= <- <-]. split; [|done]. destruct (Hs n eq_refl) as [Hn Hd]. assert (Some n <> fence (obj m)) as Hn' by congruence.
    unfold reservation_object_add_shared_replace. destruct (reservation_object_get_list m) as [[l r]|]; simpl; [|done].
    pose proof (replace_loop_outside n f 0 None (take (shared_count r) (shared r)) _ Hn') as Hr.
    destruct (replace_loop context n f 0 None _) as [q o]. simpl. split; [done|]. split; [done|]. apply bracketed_app; [exact Hr|].
    destruct o as [g|]; simpl; [split; [done|]; constructor; [by exists g|done]|done].
  - destruct (reservation_object_get_list m) as [[l r]|]; [|done]. case_match; [done|]. intros [= <- <-]. split; [|done].
    unfold reservation_object_add_shared_inplace. simpl. split; [done|].
    destruct (find_context context f 0 _) as [[j g]|]; simpl; [|done]. constructor; [by exists g|done].
Qed.

Lemma add_excl_shape f m : bracketed D false (fence (obj m)) (reservation_object_add_excl_fence f m).
Proof.
  unfold reservation_object_add_excl_fence. apply bracketed_app; [destruct f; [by constructor|done]|]. simpl.
  pose proof (puts_option (reservation_object_get_excl m)) as He.
  destruct (reservation_object_get_list m) as [[l r]|]; simpl; [|done]. apply Forall_app. split; [apply puts_all|done].
Qed.

Lemma copy_shape e ss got m p m0 : (forall n, ss <> None -> got = Some n -> n ∈ D) ->
  reservation_object_copy_fences e ss got m = Ok (p, m0) -> bracketed D false (fence (obj m)) p.
Proof.
  intros Hd. unfold reservation_object_copy_fences.
  assert (forall pub, Forall (outside pub) (match e with Some f => [Get f] | None => [] end)) as He by (intros pub; destruct e; by constructor).
  destruct ss as [fs|].
  - destruct got as [n|]; [|done]. intros [= <- <-]. rewrite app_assoc. apply bracketed_app.
    + apply Forall_app. split; [|apply He]. apply Forall_fmap, Forall_true. done.
    + simpl. split; [by apply Hd|]. apply puts_option.
  - intros [= <- <-]. simpl. apply bracketed_app; [apply He|]. simpl. apply puts_option.
Qed.
End Shape.

(** ** What an access changes *)

(** Nothing that a reader looks at has changed. *)
Definition same_pub (m m' : mem) : Prop :=
  seq (obj m') = seq (obj m) /\ fence (obj m') = fence (obj m) /\ fence_excl (obj m') = fence_excl (obj m) /\
  forall l, fence (obj m) = Some l -> lists m' !! l = lists m !! l.

(** Lists stay where they are and keep their size. *)
Definition grows (m m' : mem) : Prop :=
  forall l r, lists m !! l = Some r -> exists r', lists m' !! l = Some r' /\ shared_max r' = shared_max r /\ length (shared r') = length (shared r).

Lemma lists_grow_refl m m' : lists m' = lists m -> grows m m'.
Proof. intros E l r Hr. rewrite E. eauto. Qed.

Lemma do_grows a m m' : do a m = Some m' -> grows m m'.
Proof.
  assert (forall l r r', lists m !! l = Some r -> shared_max r' = shared_max r -> length (shared r') = length (shared r) -> grows m (set_list l r' m)) as Hs.
  { intros l r r' Hr E1 E2 l0 r0 Hr0. simpl. destruct (decide (l0 = l)) as [->|Hne]; [|rewrite lookup_insert_ne by done; eauto].
    rewrite lookup_insert_eq. assert (r0 = r) as -> by congruence. eauto. }
  destruct a; simpl; try (intros [= <-]; by apply lists_grow_refl); try (case_match; [|done]; intros [= <-]; by apply lists_grow_refl).
  - intros (r & Hr & E)%bind_Some. case_match; [|done]. injection E as <-. eapply Hs; [exact Hr|done|]. simpl. apply length_insert.
  - intros (r & Hr & [= <-])%bind_Some. by eapply Hs.
Qed.

Lemma do_dom a m m' : do a m = Some m' -> dom (lists m') = dom (lists m).
Proof.
  destruct a; simpl; try (intros [= <-]; done); try (case_match; [|done]; intros [= <-]; done).
  - intros (r & Hr & E)%bind_Some. case_match; [|done]. injection E as <-. simpl. rewrite dom_insert_lookup_L by eauto. done.
  - intros (r & Hr & [= <-])%bind_Some. simpl. rewrite dom_insert_lookup_L by eauto. done.
Qed.

(** An access of a writer: either readers see no change, or the counter is or becomes odd or moves on. *)
Lemma do_pub D open a p m m' : bracketed D open (fence (obj m)) (a :: p) -> do a m = Some m' ->
  (open = false /\ bracketed D false (fence (obj m')) p /\ same_pub m m' /\ tick a = 0) \/
  (open = false /\ bracketed D true (fence (obj m')) p /\ tick a = 1) \/
  (open = true /\ bracketed D true (fence (obj m')) p /\ tick a = 0) \/
  (open = true /\ Forall (fun b => exists f, b = Put f) p /\ tick a = 1).
Proof.
  assert (forall pub pub' q, bracketed D true pub q -> bracketed D true pub' q) as Hpub.
  { intros pub pub' q. induction q as [|b q IH]; simpl; [done|]. destruct b as [| | | | | | |[n|]]; try done. intros [? ?]. split; auto. }
  destruct open; simpl; intros Hb.
  - assert (a = End \/ bracketed D true (fence (obj m)) p) as Ha by (destruct a as [| | | | | | |[n|]]; try done; try (by left); right; try done; apply Hb).
    destruct a as [| | | | | | |x]; try done; simpl; intros E.
    1: injection E as <-; right; right; right; by split_and!.
    all: destruct Ha as [?|Ha]; [done|]; right; right; left; split; [done|].
    1: apply bind_Some in E as (r & Hr & E); destruct (_ <? _)%nat; [|done]; injection E as <-.
    2: apply bind_Some in E as (r & Hr & [= <-]).
    3-4: injection E as <-.
    all: split; [eapply Hpub; exact Ha|done].
  - destruct a; simpl in *; try (destruct Hb as [Ho Hb]); try done; intros E.
    1-2: destruct (0 <? _); [|done]; injection E as <-; left; by split_and!.
    1: injection E as <-; right; left; split_and!; try done; eapply Hpub; exact Hb.
    1: apply bind_Some in E as (r & Hr & E); destruct (_ <? _)%nat; [|done]; injection E as <-.
    2: apply bind_Some in E as (r & Hr & [= <-]).
    all: left; split; [done|]; split; [done|]; split; [|done]; unfold same_pub; simpl; split_and!; try done; intros l0 El; rewrite lookup_insert_ne; congruence.
Qed.

(** The counter is the number of times it was raised, modulo [2^32]. *)
Lemma do_seq a m m' n : do a m = Some m' -> seq (obj m) = u32 n -> seq (obj m') = u32 (n + tick a).
Proof.
  intros E Hn. destruct a; simpl in E |- *; rewrite ?Z.add_0_r;
    try (case_match; [|done]); try (apply bind_Some in E as (r & _ & E); repeat (case_match; [|done]));
    injection E as <-; simpl; try done; rewrite Hn; unfold u32; by rewrite Zplus_mod_idemp_l.
Qed.

(** ** The invariant of readers *)

(** A reader noted the even value [q] when the counter had been raised [n] times; by now it was [ep] times. *)
Definition noted (q ep n : Z) : Prop := n <= ep /\ q = u32 n /\ Z.even n = true.

(** What the reader at [p] knows; [c] is what its last successful check saw. *)
Definition reader_ok (ep n : Z) (m : mem) (c : option (option nat * list (option nat))) (p : rpc) : Prop :=
  match p with
  | RStart _ | RSlow _ | RDone (Err _) => True
  | RSeq q _ => noted q ep n
  | RAlloc q l _ => noted q ep n /\ is_Some (lists m !! l) /\ (ep = n -> fence (obj m) = Some l)
  | RCopy q l max acc _ => noted q ep n /\ exists r, lists m !! l = Some r /\ length (shared r) = max /\ (length acc <= max)%nat /\
      (ep = n -> fence (obj m) = Some l /\ acc = take (length acc) (shared r))
  | RCount q l acc _ => noted q ep n /\ exists r, lists m !! l = Some r /\ (ep = n -> fence (obj m) = Some l /\ acc = shared r)
  | RExcl q acc => noted q ep n /\ (ep = n -> acc = shared_content m)
  | RCheck q acc e => noted q ep n /\ (ep = n -> content m = (e, acc))
  | RGetExcl acc e => c = Some (e, acc) /\ exists fs, acc = Some <$> fs
  | RGet acc e i | RUndo acc e i => c = Some (e, acc) /\ (exists fs, acc = Some <$> fs) /\ (i <= length acc)%nat
  | RDone (Ok (e, acc)) => c = Some (e, acc) /\ exists fs, acc = Some <$> fs
  | RFault => False
  end.

Lemma shared_same m m' : same_pub m m' -> shared_content m' = shared_content m.
Proof.
  intros (E1 & E2 & E3 & E4). unfold shared_content, reservation_object_get_list. rewrite E2.
  destruct (fence (obj m)) as [l|]; [|done]. simpl. by rewrite (E4 l eq_refl).
Qed.

Lemma content_same m m' : same_pub m m' -> content m' = content m.
Proof. intros H. unfold content. rewrite (shared_same _ _ H). by destruct H as (_ & _ & -> & _). Qed.

(** Readers keep what they know when nothing they look at changes or the counter moves on. *)
Lemma reader_ok_stable ep ep' n m m' c p : reader_ok ep n m c p -> grows m m' -> same_pub m m' /\ ep' = ep \/ ep < ep' \/
    ep = ep' /\ Z.even ep = false -> reader_ok ep' n m' c p.
Proof.
  intros H Hg Hs.
  assert (ep <= ep') as Hle by lia.
  assert (forall q, noted q ep n -> noted q ep' n) as Hn by (intros q (? & ? & ?); split_and!; [lia|done|done]).
  assert (forall q, noted q ep n -> ep' = n -> same_pub m m' /\ ep = n) as Hq.
  { intros q (Hq & _ & He) E. destruct Hs as [[Hs ?]|[?|[E2 E3]]]; [split; [done|lia]|lia|congruence]. }
  destruct p as [| q ex|q l ex| |q l max acc ex|q l acc ex|q acc|q acc e| | | |[[e acc]|]|]; simpl in *; try done; auto.
  - destruct H as (H1 & [r Hr] & H3). split; [auto|]. split; [destruct (Hg _ _ Hr) as (r' & -> & _); eauto|].
    intros E. destruct (Hq _ H1 E) as [(_ & -> & _) E']. auto.
  - destruct H as (H1 & r & Hr & H2 & H3 & H4). split; [auto|]. destruct (Hg _ _ Hr) as (r' & Hr' & _ & El). exists r'. split_and!; try done; [congruence|].
    intros E. destruct (Hq _ H1 E) as [(_ & E1 & _ & E2) E']. destruct (H4 E') as [Hf Ha]. split; [congruence|].
    rewrite (E2 _ Hf), Hr in Hr'. congruence.
  - destruct H as (H1 & r & Hr & H4). split; [auto|]. destruct (Hg _ _ Hr) as (r' & Hr' & _). exists r'. split; [done|].
    intros E. destruct (Hq _ H1 E) as [(_ & E1 & _ & E2) E']. destruct (H4 E') as [Hf Ha]. split; [congruence|].
    rewrite (E2 _ Hf), Hr in Hr'. congruence.
  - destruct H as (H1 & H2). split; [auto|]. intros E. destruct (Hq _ H1 E) as [Hp E']. rewrite (shared_same _ _ Hp). auto.
  - destruct H as (H1 & H2). split; [auto|]. intros E. destruct (Hq _ H1 E) as [Hp E']. rewrite (content_same _ _ Hp). auto.
Qed.

(** The references a reader holds *)
Definition oone (x : nat) (o : option nat) : Z := match o with Some f => one x f | None => 0 end.
Definition rholds (x : nat) (p : rpc) : Z :=
  match p with
  | RGet acc e i | RUndo acc e i => oone x e + lsum (oone x) (take i acc)
  | RDone (Ok (e, acc)) => oone x e + lsum (oone x) acc
  | _ => 0
  end.

Lemma oone_nonneg x o : 0 <= oone x o.
Proof. destruct o as [f|]; simpl; [apply one_ge0|lia]. Qed.

Lemma rholds_nonneg x p : 0 <= rholds x p.
Proof.
  assert (forall l, 0 <= lsum (oone x) l) as Hl by (intros l; apply lsum_nonneg, oone_nonneg).
  destruct p as [| | | | | | | | |acc e i|acc e i|[[e acc]|]|]; simpl; try lia; pose proof (oone_nonneg x e);
    first [specialize (Hl (take i acc))|specialize (Hl acc)]; lia.
Qed.

(** Counts never become negative, whatever the writer still does. *)
Lemma run_nonneg p m m' f : run p m = Some m' -> (forall x, 0 <= kref m' x) -> 0 <= kref m f.
Proof.
  revert m. induction p as [|a p IH]; intros m; cbn [run]; [intros [= <-]; auto|]. intros (m1 & E & R)%bind_Some Hp.
  specialize (IH _ R Hp). destruct a; simpl in E; try (injection E as <-; exact IH).
  - destruct (0 <? kref m f0) eqn:Ek; [|done]. injection E as <-. simpl in IH. destruct (decide (f = f0)) as [->|]; lia.
  - destruct (0 <? kref m f0) eqn:Ek; [|done]. injection E as <-. simpl in IH. destruct (decide (f = f0)) as [->|]; lia.
  - apply bind_Some in E as (r & _ & E). destruct (_ <? _)%nat; [|done]. injection E as <-. exact IH.
  - apply bind_Some in E as (r & _ & [= <-]). exact IH.
Qed.

Section Invariant.
Context (context : nat -> Z).

(** [ir_plan]: the writer is in the middle of a bracketed call; [ir_future]: what
    is left of it, run alone, leads to the abstract object; reader references
    come on top; [ir_pub]: outside of sections the published list is in order. *)
Record rcu (s : sys) : Prop := {
  ir_epoch : seq (obj (wm s)) = u32 (epoch s);
  ir_plan : exists open, Z.even (epoch s) = negb open /\ bracketed (dom (lists (wm s))) open (fence (obj (wm s))) (prog s);
  ir_future : exists wk m1, obj wk = obj (wm s) /\ lists wk = lists (wm s) /\ run (prog s) wk = Some m1 /\ inv context m1 (sp s) /\
    forall x, kref (wm s) x = kref wk x + tally (rholds x) (rd s);
  ir_pub : Z.even (epoch s) = true -> exists e fs, holds (wm s) e fs;
  ir_dom : forall l, fence (obj (wm s)) = Some l -> l ∈ dom (lists (wm s));
  ir_lists : forall l r, lists (wm s) !! l = Some r -> length (shared r) = shared_max r;
  ir_readers : forall t p, rd s !! t = Some p -> reader_ok (epoch s) (default 0 (since s !! t)) (wm s) (checked s !! t) p }.

(** *** Reader steps *)

Lemma content_holds m e fs : holds m e fs -> content m = (e, Some <$> fs).
Proof.
  intros [He Hf]. unfold content, shared_content, reservation_object_get_list. rewrite He. destruct (fence (obj m)) as [l|]; [|by rewrite Hf].
  destruct Hf as (r & Er & E1 & E2 & E3). simpl. rewrite Er. simpl. by rewrite E2, E3.
Qed.

(** A reader moved, taking or giving back references. *)
Lemma rcu_move s t p p' m' c' n' : rcu s -> rd s !! t = Some p -> obj m' = obj (wm s) -> lists m' = lists (wm s) ->
  (forall x, kref m' x = kref (wm s) x - rholds x p + rholds x p') -> reader_ok (epoch s) (default 0 (n' !! t)) m' (c' !! t) p' ->
  (forall t', t' <> t -> c' !! t' = checked s !! t' /\ n' !! t' = since s !! t') ->
  rcu {| wm := m'; prog := prog s; sp := sp s; rd := <[t := p']> (rd s); checked := c'; epoch := epoch s; since := n' |}.
Proof.
  intros [] Ht Eo El Hk Hr Hc. constructor; simpl; rewrite ?Eo, ?El; try done.
  - destruct ir_future0 as (wk & m1 & H1 & H2 & H3 & H4 & H5). exists wk, m1. rewrite ?Eo, ?El. split_and!; try done.
    intros x. rewrite Hk, H5, (tally_set _ _ _ _ _ Ht). lia.
  - intros He. destruct (ir_pub0 He) as (e & fs & Hh). exists e, fs. unfold holds in *. by rewrite Eo, El.
  - intros t' q. destruct (decide (t' = t)) as [->|Hne]; [rewrite lookup_insert_eq; by intros [= <-]|].
    rewrite lookup_insert_ne by done. intros Hq. destruct (Hc t' Hne) as [-> ->]. eapply reader_ok_stable; [by apply ir_readers0| |].
    + intros l r Hlr. rewrite El. eauto.
    + left. split; [|done]. unfold same_pub. rewrite Eo, El. by split_and!.
Qed.

(** A reader that only looks *)
Lemma rcu_look s t p p' : rcu s -> rd s !! t = Some p -> (forall x, rholds x p' = rholds x p) -> reader_ok (epoch s) (default 0 (since s !! t)) (wm s) (checked s !! t) p' ->
  rcu (go t p' s).
Proof. intros H Ht Hh Hr. eapply (rcu_move s t p p' (wm s) (checked s) (since s)); try done. intros x. rewrite Hh. lia. Qed.

Lemma rcu_positive s t p f : rcu s -> rd s !! t = Some p -> 0 < rholds f p -> 0 < kref (wm s) f.
Proof.
  intros H Ht Hp. destruct (ir_future _ H) as (wk & m1 & H1 & H2 & H3 & H4 & H5). rewrite H5.
  pose proof (tally_ge (rholds f) _ _ _ (rholds_nonneg f) Ht). enough (0 <= kref wk f) by lia.
  eapply run_nonneg; [exact H3|]. intros x. pose proof (iv_refs _ _ _ H4 x). destruct (iv_pos _ _ _ H4 x).
  pose proof (occ_nonneg x (s_excl (sp s)) (s_shared (sp s))). lia.
Qed.

(** [dma_fence_get_rcu] of a reader *)
Lemma rcu_get s t p p' f m' : rcu s -> rd s !! t = Some p -> dma_fence_get_rcu f (wm s) = Some m' ->
  (forall x, rholds x p' = rholds x p + one x f) -> reader_ok (epoch s) (default 0 (since s !! t)) (wm s) (checked s !! t) p' -> rcu (go t p' (set_wm m' s)).
Proof.
  intros H Ht E Hh Hr. unfold dma_fence_get_rcu in E. destruct (kref (wm s) f =? 0); [done|]. injection E as <-.
  eapply (rcu_move s t p p' _ (checked s) (since s)); try done. intros x. simpl. rewrite add_one, Hh. lia.
Qed.

(** [dma_fence_put] of a reader *)
Lemma rcu_put s t p p' f : rcu s -> rd s !! t = Some p -> (forall x, rholds x p' = rholds x p - one x f) ->
  reader_ok (epoch s) (default 0 (since s !! t)) (wm s) (checked s !! t) p' -> exists m', do (Put f) (wm s) = Some m' /\ rcu (go t p' (set_wm m' s)).
Proof.
  intros H Ht Hh Hr. assert (0 < kref (wm s) f) as Hk.
  { eapply rcu_positive; [done|done|]. specialize (Hh f). rewrite one_self in Hh. pose proof (rholds_nonneg f p'). lia. }
  simpl. rewrite (proj2 (Z.ltb_lt _ _) Hk). eexists. split; [done|]. eapply (rcu_move s t p p' _ (checked s) (since s)); try done. intros x. simpl. rewrite add_one, Hh. lia.
Qed.

Lemma lsum_take_S x (l : list (option nat)) i f : l !! i = Some (Some f) -> lsum (oone x) (take (S i) l) = lsum (oone x) (take i l) + one x f.
Proof. intros H. rewrite (take_S_r _ _ _ H), lsum_app. simpl. lia. Qed.

(** Two numbers that differ by less than [2^32] have different counters. *)
Lemma counter_differs n ep : n <= ep -> ep - n < 2 ^ 32 -> u32 ep = u32 n -> ep = n.
Proof.
  unfold u32. intros H1 H2 E. pose proof (Z.div_mod ep (2 ^ 32) ltac:(lia)). pose proof (Z.div_mod n (2 ^ 32) ltac:(lia)).
  nia.
Qed.

Lemma read_inv t got s s' : rcu s -> in_time t s = true -> reservation_object_get_fences_rcu t got s = Some s' -> rcu s'.
Proof.
  intros H Htime (p & Ht & E)%bind_Some. unfold in_time in Htime. rewrite Ht in Htime. pose proof (ir_readers _ H _ _ Ht) as Hp.
  destruct p as [ex|q ex|q l ex|ex|q l max acc ex|q l acc ex|q acc|q acc e|acc e|acc e i|acc e i| |]; simpl in Hp.
  - destruct (Z.even (seq (obj (wm s)))) eqn:Ev; [|done]. injection E as <-.
    rewrite (ir_epoch _ H), even_u32 in Ev. eapply (rcu_move s t _ _ (wm s) (checked s)); try done.
    + intros x. simpl. lia.
    + rewrite lookup_insert_eq. simpl. split_and!; [lia|apply (ir_epoch _ H)|done].
    + intros t' Hne. by rewrite lookup_insert_ne.
  - injection E as <-. destruct (fence (obj (wm s))) as [l|] eqn:El; (eapply rcu_look; [done|exact Ht|done|]); simpl.
    + split_and!; try done. apply elem_of_dom. by apply (ir_dom _ H).
    + split; [done|]. intros _. unfold shared_content, reservation_object_get_list. by rewrite El.
  - destruct Hp as (Hn & [r Hr] & Hq). destruct got; injection E as <-; (eapply rcu_look; [done|exact Ht| |]); rewrite ?Hr; simpl; try done.
    split; [done|]. exists r. rewrite (ir_lists _ H _ _ Hr). split_and!; try done; [lia|]. intros Es. split; [auto|done].
  - injection E as <-. destruct got; (eapply rcu_look; [done|exact Ht|done|done]).
  - destruct Hp as (Hn & r & Hr & Hl & Hm & Hq). destruct (length acc <? max)%nat eqn:Elt; injection E as <-.
    + rewrite Hr. apply Nat.ltb_lt in Elt. destruct (lookup_lt_is_Some_2 (shared r) (length acc)) as [x Hx]; [lia|]. rewrite Hx.
      eapply rcu_look; [done|exact Ht|done|]. simpl. split; [done|]. exists r. rewrite length_app. simpl. split_and!; try done; [lia|].
      intros Es. destruct (Hq Es) as [Hf Ha]. split; [done|]. rewrite Nat.add_1_r, (take_S_r _ _ _ Hx). congruence.
    + apply Nat.ltb_ge in Elt. eapply rcu_look; [done|exact Ht|done|]. simpl. split; [done|]. exists r. split; [done|].
      intros Es. destruct (Hq Es) as [Hf Ha]. split; [done|]. rewrite Ha. rewrite firstn_all2 by lia. done.
  - destruct Hp as (Hn & r & Hr & Hq). injection E as <-. rewrite Hr. eapply rcu_look; [done|exact Ht|done|]. simpl. split; [done|].
    intros Es. destruct (Hq Es) as [Hf ->]. unfold shared_content, reservation_object_get_list. rewrite Hf. simpl. by rewrite Hr.
  - destruct Hp as (Hn & Hq). injection E as <-. eapply rcu_look; [done|exact Ht|done|]. simpl. split; [done|]. intros Es. unfold content. by rewrite (Hq Es).
  - destruct Hp as (Hn & Hq). destruct (seq (obj (wm s)) =? q) eqn:Eq; injection E as <-; [|by eapply rcu_look].
    apply Z.eqb_eq in Eq. destruct Hn as (Hle & Hu & He). rewrite (ir_epoch _ H), Hu in Eq.
    apply counter_differs in Eq; [|done|lia]. specialize (Hq Eq). eapply (rcu_move s t _ _ (wm s) _ (since s)); try done.
    + intros x. simpl. lia.
    + rewrite lookup_insert_eq, Hq. split; [done|]. rewrite <- Eq in He. destruct (ir_pub _ H He) as (e0 & fs & Hh).
      rewrite (content_holds _ _ _ Hh) in Hq. exists fs. congruence.
    + intros t' Hne. by rewrite lookup_insert_ne by done.
  - destruct Hp as (Hc & fs & Ha). assert (reader_ok (epoch s) (default 0 (since s !! t)) (wm s) (checked s !! t) (RGet acc e 0)) as Hr by (split_and!; [done|by exists fs|lia]).
    destruct e as [f|]; [|injection E as <-; eapply rcu_look; [done|exact Ht|done|done]].
    destruct (dma_fence_get_rcu f (wm s)) as [m1|] eqn:Eg; injection E as <-; [|by eapply rcu_look].
    eapply rcu_get; [done|exact Ht|exact Eg| |done]. intros x. simpl. lia.
  - destruct Hp as (Hc & [fs Ha] & Hi). destruct (acc !! i) as [[f|]|] eqn:Ei.
    + assert (reader_ok (epoch s) (default 0 (since s !! t)) (wm s) (checked s !! t) (RGet acc e (S i))) as Hr.
      { split_and!; [done|by exists fs|]. apply lookup_lt_Some in Ei. lia. }
      destruct (dma_fence_get_rcu f (wm s)) as [m1|] eqn:Eg; injection E as <-;
        [|eapply rcu_look; [done|exact Ht|done|by split_and!; [|exists fs|]]].
      eapply rcu_get; [done|exact Ht|exact Eg| |done]. intros x. simpl. rewrite (lsum_take_S _ _ _ _ Ei). lia.
    + exfalso. rewrite Ha, list_lookup_fmap in Ei. by destruct (fs !! i).
    + injection E as <-. apply lookup_ge_None in Ei. eapply rcu_look; [done|exact Ht| |by split; [|exists fs]].
      intros x. simpl. by rewrite firstn_all2 by lia.
  - destruct Hp as (Hc & [fs Ha] & Hi). destruct i as [|i].
    + destruct e as [f|]; [|injection E as <-; by eapply rcu_look; eauto].
      destruct (rcu_put s t _ (RStart None) f H Ht) as (m1 & Em & Hr); [intros x; simpl; lia|done|]. rewrite Em in E. injection E as <-. done.
    + destruct (lookup_lt_is_Some_2 acc i) as [o Ho]; [lia|]. assert (exists f, o = Some f) as [f ->].
      { rewrite Ha, list_lookup_fmap in Ho. destruct (fs !! i) as [f|]; [|done]. injection Ho as <-. by exists f. }
      rewrite Ho in E. destruct (rcu_put s t _ (RUndo acc e i) f H Ht) as (m1 & Em & Hr).
      * intros x. simpl. rewrite (lsum_take_S _ _ _ _ Ho). lia.
      * split_and!; [done|by exists fs|lia].
      * rewrite Em in E. injection E as <-. done.
  - done.
  - done.
Qed.

(** *** Writer steps *)

Lemma holds_same m m' e fs : same_pub m m' -> holds m e fs -> holds m' e fs.
Proof.
  intros (_ & E2 & E3 & E4) [He Hf]. split; [congruence|]. rewrite E2. destruct (fence (obj m)) as [l|]; [|done].
  destruct Hf as (r & Hr & Hok). exists r. by rewrite (E4 l eq_refl).
Qed.

Lemma inv_ext m m' sp : obj m' = obj m -> lists m' = lists m -> (forall x, kref m' x = kref m x) -> inv context m sp -> inv context m' sp.
Proof.
  intros Eo El Ek []. constructor; try done; rewrite ?Eo, ?El; try done.
  - unfold holds in *. by rewrite Eo, El.
  - intros x. by rewrite Ek.
Qed.

(** An access succeeds with more references than it needs, and leaves them. *)
Lemma do_shift a m n m' d : do a n = Some m' -> obj m = obj n -> lists m = lists n -> (forall x, 0 <= d x) ->
  (forall x, kref m x = kref n x + d x) -> exists m2, do a m = Some m2 /\ obj m2 = obj m' /\ lists m2 = lists m' /\
  forall x, kref m2 x = kref m' x + d x.
Proof.
  intros E Eo El Hd Hk. destruct a; simpl in *; rewrite ?Eo, ?El.
  1-2: destruct (0 <? kref n f) eqn:Ek; [|done]; injection E as <-; pose proof (Hk f); specialize (Hd f);
    rewrite (proj2 (Z.ltb_lt 0 (kref m f))) by lia; eexists; split_and!; [done|done|done|];
    intros x; simpl; specialize (Hk x); destruct (decide (x = f)); lia.
  3: apply bind_Some in E as (r & -> & E); cbn [mbind option_bind]; destruct (_ <? _)%nat; [|done].
  4: apply bind_Some in E as (r & -> & E); cbn [mbind option_bind].
  all: injection E as <-; eexists; split_and!; try done; simpl; congruence.
Qed.

Lemma write_step_some s : rcu s -> prog s <> [] -> exists s', write_step s = Some s' /\ rcu s'.
Proof.
  intros H Hp. unfold write_step. destruct (prog s) as [|a p] eqn:Ep; [done|].
  destruct (ir_future _ H) as (wk & m1 & H1 & H2 & H3 & H4 & H5). rewrite Ep in H3. cbn [run] in H3.
  apply bind_Some in H3 as (wk1 & Ea & H3).
  destruct (do_shift a (wm s) wk wk1 (fun x => tally (rholds x) (rd s)) Ea) as (m2 & E2 & Eo & El & Ek); [done|done| |done|].
  { intros x. apply tally_nonneg, rholds_nonneg. }
  rewrite E2. eexists. split; [done|]. pose proof (do_grows _ _ _ E2) as Hg. pose proof (do_dom _ _ _ E2) as Hd.
  destruct (ir_plan _ H) as (open & Hev & Hb). rewrite Ep in Hb. pose proof (do_pub _ _ _ _ _ _ Hb E2) as Hcase.
  assert (forall l, fence (obj m2) = Some l -> l ∈ dom (lists m2)) as Hdom.
  { rewrite Hd. intros l. pose proof (ir_dom _ H l) as Hl. destruct a as [| | | | | | |[n|]]; simpl in E2;
      try (repeat (case_match; [|done])); try (apply bind_Some in E2 as (r & _ & E2); repeat case_match; try done);
      injection E2 as <-; simpl; try done.
    intros [= <-]. destruct open; simpl in Hb; [apply Hb|by destruct Hb]. }
  assert (forall l r, lists m2 !! l = Some r -> length (shared r) = shared_max r) as Hls.
  { intros l r Hr. assert (l ∈ dom (lists (wm s))) as [r0 Hr0]%elem_of_dom by (rewrite <- Hd; apply elem_of_dom; eauto).
    destruct (Hg _ _ Hr0) as (r' & Hr' & E3 & E4). pose proof (ir_lists _ H _ _ Hr0). congruence. }
  constructor; simpl; try done.
  - by apply (do_seq _ _ _ _ E2), (ir_epoch _ H).
  - rewrite Hd. destruct Hcase as [(-> & Hb' & Hs & Htk)|[(-> & Hb' & Htk)|[(-> & Hb' & Htk)|(-> & Hb' & Htk)]]]; rewrite Htk, Z.even_add, Hev.
    + by exists false.
    + by exists true.
    + by exists true.
    + exists false. split; [done|]. by apply bracketed_puts.
  - exists wk1, m1. split_and!; try done.
  - intros He. destruct Hcase as [(-> & Hb' & Hs & Htk)|[(-> & Hb' & Htk)|[(-> & Hb' & Htk)|(-> & Hb' & Htk)]]]; rewrite Htk, Z.even_add, Hev in He.
    + destruct (ir_pub _ H Hev) as (e & fs & Hh). exists e, fs. by eapply holds_same.
    + done.
    + done.
    + assert (obj m1 = obj wk1 /\ lists m1 = lists wk1) as [O1 L1].
      { clear -Hb' H3. revert wk1 H3. induction Hb' as [|b p [f ->] _ IH]; intros w; [by intros [= <-]|]. cbn [run].
        intros (w1 & E & R)%bind_Some. destruct (IH _ R) as [-> ->]. simpl in E. case_match; [|done]. by injection E as <-. }
      exists (s_excl (sp s)), (s_shared (sp s)). pose proof (iv_holds _ _ _ H4) as Hh. unfold holds in *. by rewrite Eo, El, <- O1, <- L1.
  - intros t q Hq. eapply reader_ok_stable; [by apply (ir_readers _ H)|done|].
    destruct Hcase as [(-> & Hb' & Hs & Htk)|[(-> & Hb' & Htk)|[(-> & Hb' & Htk)|(-> & Hb' & Htk)]]]; rewrite Htk;
      [left; split; [done|lia]|right; left; lia|right; right; split; [lia|done]|right; left; lia].
Qed.

(** The calls of [Reservation], as plans *)
Lemma begin_inv o m sp : inv context m sp -> allowed context o m sp = true ->
  match begin_op context o m with
  | Ok (p, m0) => exists m1, run p m0 = Some m1 /\ inv context m1 (spec_step context o true sp)
  | Err _ => inv context m (spec_step context o false sp)
  end.
Proof.
  intros H Ha. pose proof (reservation_step_inv context o m sp H) as Hs. unfold step in Hs. rewrite Ha in Hs. cbn [negb] in Hs.
  destruct o as [f|f|f|got|f|f|e ss got]; simpl begin_op.
  - by eexists.
  - cbn [run]. destruct (do (Get f) m) as [m1|]; [|done]. by exists m1.
  - cbn [run]. destruct (do (Put f) m) as [m1|]; [|done]. by exists m1.
  - destruct (reservation_object_reserve_shared got m); [by eexists|done].
  - destruct (reservation_object_add_shared_fence context f m) as [[p m0]|]; [|done]. destruct (run p m0) as [m1|]; [|done]. by exists m1.
  - destruct (run (reservation_object_add_excl_fence f m) m) as [m1|] eqn:E; [|done]. exists m1. by split; [exact E|].
  - destruct (reservation_object_copy_fences e ss got m) as [[p m0]|]; [|done]. destruct (run p m0) as [m1|]; [|done]. by exists m1.
Qed.

(** The memory with other reference counts *)
Definition with_kref (k : nat -> Z) (m : mem) : mem := {| obj := obj m; lists := lists m; kref := k |}.

(** Plans do not look at reference counts. *)
Lemma begin_kref o k m : match o with New _ => False | _ => True end ->
  begin_op context o (with_kref k m) = match begin_op context o m with Ok (p, m0) => Ok (p, with_kref k m0) | Err e => Err e end /\
  match begin_op context o m with Ok (p, m0) => kref m0 = kref m | Err _ => True end.
Proof.
  intros Ho. destruct o as [f|f|f|got|f|f|e ss got]; try done; simpl.
  - unfold reservation_object_reserve_shared. change (reservation_object_get_list (with_kref k m)) with (reservation_object_get_list m).
    destruct (reservation_object_get_list m) as [[l r]|]; destruct got as [n|]; try done;
      destruct (shared_max r =? 0)%nat; try done; destruct (shared_count r <? shared_max r)%nat; done.
  - unfold reservation_object_add_shared_fence. change (reservation_object_get_list (with_kref k m)) with (reservation_object_get_list m). simpl.
    destruct (staged (obj m)); [done|]. destruct (reservation_object_get_list m) as [[l r]|]; [|done].
    by destruct (shared_max r <=? shared_count r)%nat.
  - unfold reservation_object_copy_fences. destruct ss; [destruct got|]; done.
Qed.

Lemma reserve_shape got m m0 : (match got with Some n => lists m !! n = None | None => True end) ->
  (forall l, fence (obj m) = Some l -> is_Some (lists m !! l)) -> (forall l r, lists m !! l = Some r -> length (shared r) = shared_max r) ->
  reservation_object_reserve_shared got m = Ok m0 ->
  same_pub m m0 /\ grows m m0 /\ forall l r, lists m0 !! l = Some r -> length (shared r) = shared_max r.
Proof.
  intros Hf Hd Hl.
  assert (forall n k, got = Some n -> let m1 := set_list n (new_list k) (set_obj (set_staged (Some n) (obj m)) m) in
    same_pub m m1 /\ grows m m1 /\ forall l r, lists m1 !! l = Some r -> length (shared r) = shared_max r) as Hst.
  { intros n k ->. simpl in *. split_and!.
    - split_and!; try done. simpl. intros l El. rewrite lookup_insert_ne; [done|]. intros ->. destruct (Hd _ El). congruence.
    - intros l r Hr. simpl. rewrite lookup_insert_ne by congruence. eauto.
    - intros l r. destruct (decide (l = n)) as [->|]; [rewrite lookup_insert_eq; intros [= <-]; simpl; by rewrite length_replicate|].
      rewrite lookup_insert_ne by done. apply Hl. }
  unfold reservation_object_reserve_shared. intros E.
  destruct (reservation_object_get_list m) as [[l r]|]; [destruct (shared_max r =? 0)%nat; [|destruct (shared_count r <? shared_max r)%nat]|].
  2: injection E as <-; split_and!; [by split_and!|by apply lists_grow_refl|done].
  all: destruct got as [n|]; [|done]; injection E as <-; by apply Hst.
Qed.

(** The start of a call changes nothing that readers look at, and its plan is bracketed. *)
Lemma begin_shape o m sp p m0 : inv context (ideal sp m) sp -> fresh_name o m = true ->
  (forall l r, lists m !! l = Some r -> length (shared r) = shared_max r) -> begin_op context o m = Ok (p, m0) ->
  same_pub m m0 /\ grows m m0 /\ (forall l r, lists m0 !! l = Some r -> length (shared r) = shared_max r) /\
  bracketed (dom (lists m0)) false (fence (obj m0)) p.
Proof.
  intros H Hf Hl E.
  assert (forall l, fence (obj m) = Some l -> is_Some (lists m !! l)) as Hd.
  { intros l El. destruct (iv_holds _ _ _ H) as [_ Hh]. simpl in Hh. rewrite El in Hh. destruct Hh as (r & Hr & _). eauto. }
  destruct o as [f|f|f|got|f|f|e ss got]; simpl in E.
  - injection E as <- <-. split_and!; [by split_and!|by apply lists_grow_refl|done|done].
  - injection E as <- <-. split_and!; [by split_and!|by apply lists_grow_refl|done|by split].
  - injection E as <- <-. split_and!; [by split_and!|by apply lists_grow_refl|done|by split].
  - destruct (reservation_object_reserve_shared got m) as [m1|] eqn:Er; [|done]. injection E as <- <-.
    destruct (reserve_shape got m m1) as (H1 & H2 & H3); [|done|done|done|by split_and!].
    destruct got as [n|]; [|done]. simpl in Hf. by apply bool_decide_eq_true in Hf.
  - destruct (reservation_object_add_shared_fence context f m) as [[q m1]|] eqn:Er; [|done]. injection E as <- <-.
    destruct (add_shared_shape context (dom (lists m)) f m q m1) as [Hb ->]; [|done|].
    { intros n En. destruct (iv_staged _ _ _ H n En) as (Hn & s & Hs & _). split; [done|]. apply elem_of_dom. eauto. }
    split_and!; [by split_and!|by apply lists_grow_refl|done|exact Hb].
  - injection E as <- <-. split_and!; [by split_and!|by apply lists_grow_refl|done|apply add_excl_shape].
  - assert (match got with Some n => lists m !! n = None | None => True end) as Hn.
    { destruct got as [n|]; [|done]. simpl in Hf. by apply bool_decide_eq_true in Hf. }
    unfold reservation_object_copy_fences in E. destruct ss as [fs|]; [destruct got as [n|]; [|done]|]; injection E as Ep <-; simpl.
    + assert (bracketed (dom (<[n := {| shared_count := length fs; shared_max := length fs; shared := Some <$> fs |}]> (lists m))) false
                (fence (obj m)) p) as Hb.
      { eapply (copy_shape _ e (Some fs) (Some n) m p); [|unfold reservation_object_copy_fences; by rewrite <- Ep].
        intros n' _ [= <-]. set_solver. }
      split_and!; [|intros l r Hr; simpl; rewrite lookup_insert_ne by congruence; eauto| |exact Hb].
      * split_and!; try done. simpl. intros l El. rewrite lookup_insert_ne; [done|]. intros ->. destruct (Hd _ El). congruence.
      * intros l r. destruct (decide (l = n)) as [->|]; [rewrite lookup_insert_eq; intros [= <-]; simpl; by rewrite length_fmap|].
        rewrite lookup_insert_ne by done. apply Hl.
    + split_and!; [by split_and!|by apply lists_grow_refl|done|].
      eapply (copy_shape _ e None got m p); [done|]. unfold reservation_object_copy_fences. by rewrite <- Ep.
Qed.

Lemma write_begin_inv o s s' : rcu s -> write_begin context o s = Some s' -> rcu s'.
Proof.
  intros H. unfold write_begin. destruct (prog s) as [|a p] eqn:Ep; [|done]. destruct (_ && _) eqn:Ha; [|done].
  apply andb_true_iff in Ha as [[Ha Hf]%andb_true_iff Hnew].
  destruct (ir_future _ H) as (wk & m1 & H1 & H2 & H3 & H4 & H5). rewrite Ep in H3. injection H3 as <-.
  assert (inv context (ideal (sp s) (wm s)) (sp s)) as Hi.
  { eapply inv_ext; [| | |exact H4]; try done. intros x. simpl. by rewrite (iv_refs _ _ _ H4). }
  assert (forall x, kref (wm s) x = kref (ideal (sp s) (wm s)) x + tally (rholds x) (rd s)) as Hk.
  { intros x. rewrite H5, (iv_refs _ _ _ H4). done. }
  pose proof (begin_inv o _ _ Hi Ha) as Hb.
  destruct (ir_plan _ H) as (open & Hev & Hbr). rewrite Ep in Hbr. simpl in Hbr. subst open.
  assert (begin_op context o (ideal (sp s) (wm s)) =
    match begin_op context o (wm s) with
    | Ok (p, m0) => Ok (p, match o with New f => add_kref f 1 (ideal (sp s) (wm s)) | _ => with_kref (kref (ideal (sp s) (wm s))) m0 end)
    | Err e => Err e end /\
    match begin_op context o (wm s) with Ok (p, m0) => match o with New f => m0 = add_kref f 1 (wm s) | _ => kref m0 = kref (wm s) end | Err _ => True end)
    as [Eb Ek].
  { destruct o as [f|f|f|got|f|f|e ss got]; [by split|..]; apply (begin_kref _ (kref (ideal (sp s) (wm s))) (wm s)); done. }
  rewrite Eb in Hb. destruct (begin_op context o (wm s)) as [[p m0]|e] eqn:E.
  - intros [= <-]. destruct (begin_shape o (wm s) (sp s) p m0 Hi Hf (ir_lists _ H) E) as (Hs & Hg & Hl & Hbk).
    destruct Hb as (m1 & R & Hi1). constructor; simpl; try done.
    + destruct Hs as (-> & _). apply (ir_epoch _ H).
    + by exists false.
    + eexists _, m1. split_and!; [| |exact R|exact Hi1|].
      * destruct o; try done. by rewrite Ek.
      * destruct o; try done. by rewrite Ek.
      * intros x. destruct o; try (simpl; rewrite Ek; apply Hk). rewrite Ek. simpl. specialize (Hk x). simpl in Hk. destruct (decide (x = f)); lia.
    + intros _. destruct (ir_pub _ H Hev) as (e & fs & Hh). exists e, fs. by eapply holds_same.
    + destruct Hs as (_ & -> & _ & _). intros l El. apply (ir_dom _ H) in El. apply elem_of_dom in El as [r Hr].
      destruct (Hg _ _ Hr) as (r' & Hr' & _). apply elem_of_dom. eauto.
    + intros t q Hq. eapply reader_ok_stable; [by apply (ir_readers _ H)|done|by left; split].
  - intros [= <-]. destruct H. constructor; simpl; try done; [by exists false|].
    exists (ideal (sp s) (wm s)), (ideal (sp s) (wm s)). by split_and!.
Qed.

Lemma rcu_next e s s' : rcu s -> match e with Read t _ => in_time t s | _ => true end = true -> next context e s = Some s' -> rcu s'.
Proof.
  intros H Htm. destruct e as [o| |t|t got]; simpl.
  - by apply write_begin_inv.
  - intros E. destruct (write_step_some s H) as (s1 & E1 & H1); [intros Ep; unfold write_step in E; by rewrite Ep in E|]. congruence.
  - destruct (rd s !! t) as [p|] eqn:Ht; [done|]. intros [= <-]. destruct H. constructor; simpl; try done.
    + destruct ir_future0 as (wk & m1 & H1 & H2 & H3 & H4 & H5). exists wk, m1. split_and!; try done.
      intros x. rewrite tally_insert by done. simpl. rewrite H5. lia.
    + intros t' q. destruct (decide (t' = t)) as [->|]; [rewrite lookup_insert_eq; by intros [= <-]|]. rewrite lookup_insert_ne by done. apply ir_readers0.
  - by apply read_inv.
Qed.

Lemma boot_rcu : rcu boot.
Proof.
  constructor; simpl; try done.
  - exists false. done.
  - exists init_mem, init_mem. split_and!; try done. apply init_inv.
  - intros _. exists None, []. done.
Qed.

Lemma exec_rcu es s s' : rcu s -> timely context es s = true -> exec context es s = Some s' -> rcu s'.
Proof.
  revert s. induction es as [|e es IH]; intros s H; cbn [exec timely]; [by intros _ [= <-]|].
  intros [Htm Hr]%andb_true_iff (s1 & E & R)%bind_Some. rewrite E in Hr. exact (IH s1 (rcu_next _ _ _ H Htm E) Hr R).
Qed.

Lemma exec_app es es' s : exec context (es ++ es') s = s1 ← exec context es s; exec context es' s1.
Proof.
  revert s. induction es as [|e es IH]; intros s; [done|]. cbn [exec app]. destruct (next context e s) as [s1|]; [apply IH|done].
Qed.

(** *** A reader that is not disturbed returns *)

(** With no call of a writer in progress, every fence of the object has a reference. *)
Lemma content_alive s e acc f : rcu s -> prog s = [] -> content (wm s) = (e, acc) -> e = Some f \/ Some f ∈ acc -> 0 < kref (wm s) f.
Proof.
  intros H Hp Ec Hf. destruct (ir_future _ H) as (wk & m1 & H1 & H2 & H3 & H4 & H5). rewrite Hp in H3. injection H3 as <-.
  pose proof (tally_nonneg (rholds f) (rd s) (rholds_nonneg f)). rewrite H5. enough (0 < kref wk f) by lia.
  assert (content (wm s) = (s_excl (sp s), Some <$> s_shared (sp s))) as E.
  { apply content_holds. pose proof (iv_holds _ _ _ H4) as Hh. unfold holds in *. by rewrite <- H1, <- H2. }
  rewrite E in Ec. injection Ec as Ee Ea. rewrite (iv_refs _ _ _ H4). destruct (iv_pos _ _ _ H4 f). unfold occ.
  pose proof (lsum_nonneg (one f) (s_shared (sp s)) (one_ge0 f)).
  assert (0 <= match s_excl (sp s) with Some e => one f e | None => 0 end) by (destruct (s_excl (sp s)); [apply one_ge0|lia]).
  destruct Hf as [Hf|Hf].
  - rewrite Ee, Hf in *. rewrite one_self in *. lia.
  - rewrite <- Ea in Hf. apply list_elem_of_fmap in Hf as (g & [= <-] & Hg). apply (lsum_elem (one f)) in Hg; [|apply one_ge0].
    rewrite one_self in Hg. lia.
Qed.

(** [t] gets from [s] to the control point [p] by reading alone. *)
Definition reads_to (t : nat) (s : sys) (P : sys -> Prop) : Prop := exists n s', exec context (repeat (Read t true) n) s = Some s' /\ P s'.

Lemma reads_to_step t s s1 P : reservation_object_get_fences_rcu t true s = Some s1 -> reads_to t s1 P -> reads_to t s P.
Proof. intros E (n & s' & R & Hp). exists (S n), s'. split; [|done]. cbn [repeat exec next]. by rewrite E. Qed.

Lemma reads_to_here t s (P : sys -> Prop) : P s -> reads_to t s P.
Proof. intros H. by exists 0%nat, s. Qed.

Lemma get_returns t s acc e i : rd s !! t = Some (RGet acc e i) -> Forall (fun o => exists f, o = Some f /\ 0 < kref (wm s) f) acc ->
  (i <= length acc)%nat -> reads_to t s (fun s' => rd s' !! t = Some (RDone (Ok (e, acc)))).
Proof.
  intros Ht Ha Hi. remember (length acc - i)%nat as n eqn:En. revert s i Ht Ha Hi En. induction n as [|n IH]; intros s i Ht Ha Hi En.
  - assert (acc !! i = None) as Ei by (apply lookup_ge_None; lia).
    eapply reads_to_step; [unfold reservation_object_get_fences_rcu; rewrite Ht; simpl; by rewrite Ei|].
    apply reads_to_here. simpl. by rewrite lookup_insert_eq.
  - destruct (lookup_lt_is_Some_2 acc i) as [o Ho]; [lia|]. rewrite Forall_lookup in Ha. destruct (Ha _ _ Ho) as (f & -> & Hk).
    eapply reads_to_step; [unfold reservation_object_get_fences_rcu, dma_fence_get_rcu; rewrite Ht; simpl; rewrite Ho;
      rewrite (proj2 (Z.eqb_neq (kref (wm s) f) 0)) by lia; reflexivity|].
    apply (IH _ (S i)); simpl; [by rewrite lookup_insert_eq| |apply lookup_lt_Some in Ho; lia|lia].
    apply Forall_lookup. intros j o Hj. destruct (Ha _ _ Hj) as (g & -> & Hg). exists g. split; [done|]. destruct (decide (g = f)); lia.
Qed.

Lemma fresh_in_time t s : since s !! t = Some (epoch s) -> in_time t s = true.
Proof. intros H. unfold in_time. rewrite H. simpl. repeat case_match; try done. apply Z.ltb_lt. lia. Qed.

Lemma check_returns t s q acc e : rcu s -> prog s = [] -> rd s !! t = Some (RCheck q acc e) -> since s !! t = Some (epoch s) ->
  reads_to t s (fun s' => rd s' !! t = Some (RDone (Ok (content (wm s))))).
Proof.
  intros H Hp Ht Hs. pose proof (ir_readers _ H _ _ Ht) as [Hn Hc]. rewrite Hs in Hn, Hc. specialize (Hc eq_refl). rewrite Hc.
  assert (seq (obj (wm s)) = q) as Hq by (destruct Hn as (_ & -> & _); apply (ir_epoch _ H)).
  assert (exists fs, acc = Some <$> fs) as [fs Ha].
  { destruct Hn as (_ & _ & He). destruct (ir_pub _ H He) as (e0 & fs & Hh). rewrite (content_holds _ _ _ Hh) in Hc. exists fs. congruence. }
  assert (forall f, e = Some f \/ Some f ∈ acc -> 0 < kref (wm s) f) as Hal by (intros f; by eapply content_alive).
  eapply reads_to_step; [unfold reservation_object_get_fences_rcu; rewrite Ht; simpl; by rewrite (proj2 (Z.eqb_eq _ _) Hq)|].
  assert (forall m, (forall x, kref (wm s) x <= kref m x) -> Forall (fun o => exists f, o = Some f /\ 0 < kref m f) acc) as Hall.
  { intros m Hm. apply Forall_forall. intros o Ho. rewrite Ha in Ho. apply list_elem_of_fmap in Ho as (f & -> & Hf). exists f. split; [done|].
    specialize (Hm f). specialize (Hal f). assert (Some f ∈ acc) by (rewrite Ha; by apply list_elem_of_fmap_2). intuition lia. }
  destruct e as [f|]; (eapply reads_to_step; [unfold reservation_object_get_fences_rcu; simpl; rewrite lookup_insert_eq; simpl|]).
  - unfold dma_fence_get_rcu. rewrite (proj2 (Z.eqb_neq (kref (wm s) f) 0)); [reflexivity|]. specialize (Hal f). intuition lia.
  - eapply get_returns; [simpl; by rewrite lookup_insert_eq| |lia].
    apply (Hall (add_kref f 1 (wm s))). intros x. simpl. destruct (decide (x = f)); lia.
  - reflexivity.
  - eapply get_returns; [simpl; by rewrite lookup_insert_eq| |lia].
    by apply (Hall (wm s)).
Qed.

Lemma excl_returns t s q acc : rcu s -> prog s = [] -> rd s !! t = Some (RExcl q acc) -> since s !! t = Some (epoch s) ->
  reads_to t s (fun s' => rd s' !! t = Some (RDone (Ok (content (wm s))))).
Proof.
  intros H Hp Ht Hq. assert (reservation_object_get_fences_rcu t true s = Some (go t (RCheck q acc (fence_excl (obj (wm s)))) s)) as E
    by (unfold reservation_object_get_fences_rcu; by rewrite Ht).
  eapply reads_to_step; [exact E|]. apply (check_returns t (go t _ s) q acc (fence_excl (obj (wm s)))); try done; [by apply (read_inv _ _ _ _ H (fresh_in_time _ _ Hq) E)|].
  simpl. by rewrite lookup_insert_eq.
Qed.

Lemma copy_returns t s q l max acc ex : rcu s -> prog s = [] -> rd s !! t = Some (RCopy q l max acc ex) -> since s !! t = Some (epoch s) ->
  reads_to t s (fun s' => rd s' !! t = Some (RDone (Ok (content (wm s))))).
Proof.
  intros H Hp Ht Hq. remember (max - length acc)%nat as n eqn:En. revert s acc H Hp Ht Hq En.
  induction n as [|n IH]; intros s acc H Hp Ht Hq En; pose proof (ir_readers _ H _ _ Ht) as (Hn & r & Hr & Hl & Hm & _).
  - assert (reservation_object_get_fences_rcu t true s = Some (go t (RCount q l acc ex) s)) as E.
    { unfold reservation_object_get_fences_rcu. rewrite Ht. simpl. by rewrite (proj2 (Nat.ltb_ge _ _)) by lia. }
    pose proof (read_inv _ _ _ _ H (fresh_in_time _ _ Hq) E) as H1. eapply reads_to_step; [exact E|].
    assert (reservation_object_get_fences_rcu t true (go t (RCount q l acc ex) s) = Some (go t (RExcl q (take (shared_count r) acc)) (go t (RCount q l acc ex) s))) as E2.
    { unfold reservation_object_get_fences_rcu. simpl. rewrite lookup_insert_eq. simpl. by rewrite Hr. }
    eapply reads_to_step; [exact E2|]. apply (excl_returns t (go t _ (go t _ s)) q (take (shared_count r) acc)); try done; [by apply (read_inv _ _ _ _ H1 (fresh_in_time t (go t _ s) Hq) E2)|].
    simpl. by rewrite lookup_insert_eq.
  - destruct (lookup_lt_is_Some_2 (shared r) (length acc)) as [x Hx]; [lia|].
    assert (reservation_object_get_fences_rcu t true s = Some (go t (RCopy q l max (acc ++ [x]) ex) s)) as E.
    { unfold reservation_object_get_fences_rcu. rewrite Ht. simpl. rewrite (proj2 (Nat.ltb_lt _ _)) by lia. by rewrite Hr, Hx. }
    eapply reads_to_step; [exact E|]. apply (IH (go t _ s) (acc ++ [x])); try done; [by apply (read_inv _ _ _ _ H (fresh_in_time _ _ Hq) E)|simpl; by rewrite lookup_insert_eq|].
    rewrite length_app. simpl. lia.
Qed.

Lemma start_returns t s ex : rcu s -> prog s = [] -> rd s !! t = Some (RStart ex) ->
  reads_to t s (fun s' => rd s' !! t = Some (RDone (Ok (content (wm s))))).
Proof.
  intros H Hp Ht. destruct (ir_plan _ H) as (open & Hev & Hb). rewrite Hp in Hb. simpl in Hb. subst open.
  assert (reservation_object_get_fences_rcu t true s = Some (mark t (go t (RSeq (seq (obj (wm s))) ex) s))) as E1
    by (unfold reservation_object_get_fences_rcu; rewrite Ht; simpl; by rewrite (ir_epoch _ H), even_u32, Hev).
  set (s1 := mark t (go t (RSeq (seq (obj (wm s))) ex) s)) in *. assert (in_time t s = true) as Hi0 by (unfold in_time; by rewrite Ht).
  pose proof (read_inv _ _ _ _ H Hi0 E1) as H1. eapply reads_to_step; [exact E1|].
  assert (rd s1 !! t = Some (RSeq (seq (obj (wm s))) ex)) as Ht1 by (simpl; by rewrite lookup_insert_eq).
  assert (since s1 !! t = Some (epoch s1)) as Hs1 by (simpl; by rewrite lookup_insert_eq).
  destruct (fence (obj (wm s))) as [l|] eqn:El.
  - assert (reservation_object_get_fences_rcu t true s1 = Some (go t (RAlloc (seq (obj (wm s))) l ex) s1)) as E2
      by (unfold reservation_object_get_fences_rcu; rewrite Ht1; simpl; by rewrite El).
    set (s2 := go t (RAlloc (seq (obj (wm s))) l ex) s1) in *. pose proof (read_inv _ _ _ _ H1 (fresh_in_time _ _ Hs1) E2) as H2. eapply reads_to_step; [exact E2|].
    assert (rd s2 !! t = Some (RAlloc (seq (obj (wm s))) l ex)) as Ht2 by (simpl; by rewrite lookup_insert_eq).
    pose proof (ir_dom _ H l El) as [r Hr]%elem_of_dom.
    assert (reservation_object_get_fences_rcu t true s2 = Some (go t (RCopy (seq (obj (wm s))) l (shared_max r) [] ex) s2)) as E3
      by (unfold reservation_object_get_fences_rcu; rewrite Ht2; simpl; by rewrite Hr).
    eapply reads_to_step; [exact E3|]. eapply (copy_returns t (go t _ s2)); try done; [by apply (read_inv _ _ _ _ H2 (fresh_in_time t s2 Hs1) E3)|simpl; by rewrite lookup_insert_eq].
  - assert (reservation_object_get_fences_rcu t true s1 = Some (go t (RExcl (seq (obj (wm s))) []) s1)) as E2
      by (unfold reservation_object_get_fences_rcu; rewrite Ht1; simpl; by rewrite El).
    eapply reads_to_step; [exact E2|]. eapply (excl_returns t (go t _ s1)); try done; [by apply (read_inv _ _ _ _ H1 (fresh_in_time _ _ Hs1) E2)|simpl; by rewrite lookup_insert_eq].
Qed.

(** C22: readers see the object as it was at one moment.  For any interleaving of
    any number of readers with the accesses of a writer that respects the rules
    of [Reservation.allowed], in which no reader is overtaken by [2^32] changes of
    the sequence counter between noting and checking it ([timely]): what
    [reservation_object_get_fences_rcu] returns is the contents of the object at
    the moment of its last check of the counter, the reader has a reference to
    every fence it returns, and no access of a reader or of the writer faults.  A
    reader that runs while no writer is at work and gets its memory returns the
    contents of the object. *)
Theorem reservation_get_fences_snapshot es s t : timely context es boot = true -> exec context es boot = Some s ->
  (forall e acc, rd s !! t = Some (RDone (Ok (e, acc))) -> checked s !! t = Some (e, acc) /\
     exists fs, acc = Some <$> fs /\ forall f, e = Some f \/ f ∈ fs -> 0 < kref (wm s) f) /\
  rd s !! t <> Some RFault /\ (prog s <> [] -> is_Some (write_step s)) /\
  (forall ex, rd s !! t = Some (RStart ex) -> prog s = [] ->
     exists n s', exec context (repeat (Read t true) n) s = Some s' /\ rd s' !! t = Some (RDone (Ok (content (wm s))))).
Proof.
  intros Htm H%(exec_rcu _ _ _ boot_rcu Htm). split_and!.
  - intros e acc Ht. pose proof (ir_readers _ H _ _ Ht) as (Hc & fs & Ha). split; [done|]. exists fs. split; [done|].
    intros f Hf. eapply rcu_positive; [done|exact Ht|]. simpl. rewrite Ha. pose proof (oone_nonneg f e).
    pose proof (lsum_nonneg (oone f) (Some <$> fs) (oone_nonneg f)). destruct Hf as [->|Hf]; [simpl in *; rewrite one_self in *; lia|].
    apply (list_elem_of_fmap_2 Some) in Hf. apply (lsum_elem (oone f)) in Hf; [|apply oone_nonneg]. simpl in Hf. rewrite one_self in Hf. lia.
  - intros Ht. by apply (ir_readers _ H) in Ht.
  - intros Hp. destruct (write_step_some s H Hp) as (s' & E & _). eauto.
  - intros ex Ht Hp. exact (start_returns t s ex H Hp Ht).
Qed.
End Invariant.

(** A reader starts while a shared fence is replaced, must begin anew, and returns both fences. *)
Definition sample_events : list event :=
  [Write (New 10); Write (New 11); Write (New 20); Write (Reserve (Some 1%nat)); Write (AddShared 10)] ++ repeat Access 6 ++
  [Write (Reserve None); Write (AddShared 20)] ++ repeat Access 5 ++
  [NewReader 5; Read 5 true; Read 5 true; Read 5 true; Write (Reserve None); Write (AddShared 11)] ++ repeat Access 3 ++
  repeat (Read 5 true) 8 ++ repeat Access 2 ++ repeat (Read 5 true) 15.

Lemma reservation_get_fences_snapshot_witness : exists s, exec sample_context sample_events boot = Some s /\
  checked s !! 5%nat = Some (None, [Some 11%nat; Some 20%nat]) /\ 0 < kref (wm s) 20.
Proof.
  destruct (exec sample_context sample_events boot) as [s|] eqn:E; [|vm_compute in E; discriminate].
  exists s. split; [reflexivity|].
  assert (rd s !! 5%nat = Some (RDone (Ok (None, [Some 11%nat; Some 20%nat])))) as Ht by (vm_compute in E; injection E as <-; reflexivity).
  destruct (proj1 (reservation_get_fences_snapshot sample_context sample_events s 5%nat ltac:(vm_compute; reflexivity) E) _ _ Ht) as (Hc & fs & Hf & Hk).
  split; [exact Hc|]. apply Hk. right. destruct fs as [|a [|b fs]]; try discriminate Hf. injection Hf as <- <- _. right. left.
Defined.
