(* ===== verification/Sort.v ===== *)
(** * Sorting ([linux_sort.c])

    The Bentley-McIlroy quicksort behind the [sort] of the port, on an array
    given as the list of its elements of [es] bytes: a pointer to an element is its index, and
    [swap] exchanges two elements.  Distances are numbers of bytes that the code keeps in an [int], and are
    truncated as there; a pointer computed from one must be that of an element.  The
    callbacks [cmp] and [swapfn] and the host kernel's [qsort], which sorts the
    left part, are parameters.  [None] is an access outside the array or beside its elements, a call
    through a [NULL] [swapfn], or exhausted fuel.

    Theorems: with a [swapfn] that exchanges blocks the function terminates, on an array of less than 2^31 bytes, with
    a sorted permutation of the array; without one, as all callers in this
    repository use it, it calls a [NULL] pointer on arrays of seven elements or
    more. *)

From S2P Require Import Prelude.
From stdpp Require Import base gmap list option sets sorting.
From Stdlib Require Import ZArith Lia.

#[local] Set Warnings "-clear-no-such-hyp".

#[local] Open Scope Z_scope.

Section Sort.

Context {A : Type}.

(** The size of an element. *)
Variable es : Z.

Variable cmp : A -> A -> Z.

(** [qsort(a, n, es, cmp)] of the host kernel *)
Variable qsort : list A -> list A.

(** [swapfn(a + i * es, a + j * es, r * es)]; [None] is [NULL]. *)
Variable swapfn : option (nat -> nat -> nat -> list A -> list A).

Definition CMP (l : list A) (i j : nat) : option Z :=
  x ← l !! i; y ← l !! j; Some (cmp x y).

Definition swap (l : list A) (i j : nat) : option (list A) :=
  x ← l !! i; y ← l !! j; Some (<[i := y]> (<[j := x]> l)).

(** The distance of an element from the start of the array, in bytes, and the element at a distance. *)
Definition bytes (i : nat) : Z := Z.of_nat i * es.
Definition elem_at (b : Z) : option nat := if (0 <=? b) && (b mod es =? 0) then Some (Z.to_nat (b / es)) else None.

(** [swapfn] for the element [i], the one at byte [j], and [r] bytes. *)
Definition vecswap (i : nat) (j r : Z) (l : list A) : option (list A) :=
  if 0 <? r then
    j ← elem_at j; r ← elem_at r;
    match swapfn with Some f => Some (f i j r l) | None => None end
  else Some l.

(** The inner loop of the insertion sort, from [pl] down. *)
Fixpoint insert_down (pl : nat) (l : list A) : option (list A) :=
  match pl with
  | O => Some l
  | S p =>
    r ← CMP l p pl;
    if 0 <? r then l ← swap l pl p; insert_down p l else Some l
  end.

(** The outer loop: [k] positions from [pm] on. *)
Fixpoint insertion_loop (k pm : nat) (l : list A) : option (list A) :=
  match k with
  | O => Some l
  | S k' => l ← insert_down pm l; insertion_loop k' (S pm) l
  end.

Definition insertion_sort (l : list A) : option (list A) := insertion_loop (length l - 1) 1 l.

Definition med3 (l : list A) (a b c : nat) : option nat :=
  ab ← CMP l a b; bc ← CMP l b c; ac ← CMP l a c;
  Some (if ab <? 0 then if bc <? 0 then b else if ac <? 0 then c else a
        else if 0 <? bc then b else if ac <? 0 then a else c).

(** The position of the pivot of an array of [n >= 7] elements. *)
Definition pivot (l : list A) : option nat :=
  let n := length l in
  let pm := (n / 2)%nat in
  if (7 <? n)%nat then
    let pl := O in
    let pn := (n - 1)%nat in
    if (40 <? n)%nat then
      let d := s32 (bytes (n / 8)) in
      pl1 ← elem_at (bytes pl + d); pl2 ← elem_at (bytes pl + s32 (2 * d));
      pl ← med3 l pl pl1 pl2;
      pm1 ← elem_at (bytes pm - d); pm2 ← elem_at (bytes pm + d);
      pm ← med3 l pm1 pm pm2;
      pn1 ← elem_at (bytes pn - s32 (2 * d)); pn2 ← elem_at (bytes pn - d);
      pn ← med3 l pn1 pn2 pn;
      med3 l pl pm pn
    else med3 l pl pm pn
  else Some pm.

(** The state of the partition. *)
Record part := { p_l : list A; pa : nat; pb : nat; pc : nat; pd : nat; swap_cnt : bool }.

(** [while (pb <= pc && (r = CMP(pb, a)) <= 0)] *)
Fixpoint scan_up (fuel : nat) (s : part) : option part :=
  if (pb s <=? pc s)%nat then
    r ← CMP (p_l s) (pb s) 0;
    if r <=? 0 then
      match fuel with
      | O => None
      | S fuel' =>
        if r =? 0 then
          l ← swap (p_l s) (pa s) (pb s);
          scan_up fuel' {| p_l := l; pa := S (pa s); pb := S (pb s); pc := pc s; pd := pd s; swap_cnt := true |}
        else
          scan_up fuel' {| p_l := p_l s; pa := pa s; pb := S (pb s); pc := pc s; pd := pd s; swap_cnt := swap_cnt s |}
      end
    else Some s
  else Some s.

(** [while (pb <= pc && (r = CMP(pc, a)) >= 0)] *)
Fixpoint scan_down (fuel : nat) (s : part) : option part :=
  if (pb s <=? pc s)%nat then
    r ← CMP (p_l s) (pc s) 0;
    if 0 <=? r then
      match fuel with
      | O => None
      | S fuel' =>
        if r =? 0 then
          l ← swap (p_l s) (pc s) (pd s);
          scan_down fuel' {| p_l := l; pa := pa s; pb := pb s; pc := pc s - 1; pd := pd s - 1; swap_cnt := true |}
        else
          scan_down fuel' {| p_l := p_l s; pa := pa s; pb := pb s; pc := pc s - 1; pd := pd s; swap_cnt := swap_cnt s |}
      end
    else Some s
  else Some s.

(** The [for (;;)] loop. *)
Fixpoint partition (fuel : nat) (s : part) : option part :=
  match fuel with
  | O => None
  | S fuel' =>
    s ← scan_up (length (p_l s)) s;
    s ← scan_down (length (p_l s)) s;
    if (pc s <? pb s)%nat then Some s
    else
      l ← swap (p_l s) (pb s) (pc s);
      partition fuel' {| p_l := l; pa := pa s; pb := S (pb s); pc := pc s - 1; pd := pd s; swap_cnt := true |}
  end.

(** [r > es], where [r] becomes a [size_t], and [r / es]. *)
Definition longer (r : Z) : bool := es <? u64 r.
Definition elements (r : Z) : Z := u64 r / es.

(** [__qsort]; the jump to [loop] sorts the right part.  In [pn - pd - es] the difference becomes a [size_t]. *)
Fixpoint __qsort (fuel : nat) (l : list A) : option (list A) :=
  match fuel with
  | O => None
  | S fuel' =>
    let n := length l in
    if (n <? 7)%nat then insertion_sort l
    else
      pm ← pivot l;
      l ← swap l 0 pm;
      s ← partition n {| p_l := l; pa := 1; pb := 1; pc := n - 1; pd := n - 1; swap_cnt := false |};
      if negb (swap_cnt s) then insertion_sort (p_l s)
      else
        let r := s32 (Z.min (bytes (pa s)) (bytes (pb s) - bytes (pa s))) in
        l ← vecswap 0 (bytes (pb s) - r) r (p_l s);
        let r := s32 (Z.min (u64 (bytes (pd s) - bytes (pc s))) (u64 (bytes n - bytes (pd s) - es))) in
        l ← vecswap (pb s) (bytes n - r) r l;
        let r := s32 (bytes (pb s) - bytes (pa s)) in
        l ← (if longer r then
               if elements r <=? Z.of_nat n
               then let k := Z.to_nat (elements r) in Some (qsort (take k l) ++ drop k l) else None
             else Some l);
        let r := s32 (bytes (pd s) - bytes (pc s)) in
        if longer r then
          a ← elem_at (bytes n - r);
          if Z.of_nat a + elements r =? Z.of_nat n then right ← __qsort fuel' (drop a l); Some (take a l ++ right) else None
        else Some l
  end.

(** [sort(base, num, size, cmp, swap)] *)
Definition sort (l : list A) : option (list A) := __qsort (S (length l)) l.

(** ** Elementary steps *)

Lemma lookup_two l1 l2 l3 (x y : A) :
  (l1 ++ x :: l2 ++ y :: l3) !! length l1 = Some x /\
  (l1 ++ x :: l2 ++ y :: l3) !! (length l1 + 1 + length l2)%nat = Some y.
Proof.
  split; [by apply list_lookup_middle|].
  replace (l1 ++ x :: l2 ++ y :: l3) with ((l1 ++ x :: l2) ++ y :: l3) by by app_norm.
  apply list_lookup_middle. rewrite length_app. simpl. lia.
Qed.

Lemma cmp_at l1 l2 l3 x y i j : i = length l1 -> j = (length l1 + 1 + length l2)%nat ->
  CMP (l1 ++ x :: l2 ++ y :: l3) i j = Some (cmp x y) /\ CMP (l1 ++ x :: l2 ++ y :: l3) j i = Some (cmp y x).
Proof. intros -> ->. unfold CMP. destruct (lookup_two l1 l2 l3 x y) as [-> ->]. done. Qed.

Lemma swap_at l1 l2 l3 x y i j : i = length l1 -> j = (length l1 + 1 + length l2)%nat ->
  swap (l1 ++ x :: l2 ++ y :: l3) i j = Some (l1 ++ y :: l2 ++ x :: l3) /\
  swap (l1 ++ x :: l2 ++ y :: l3) j i = Some (l1 ++ y :: l2 ++ x :: l3).
Proof.
  intros -> ->. unfold swap. destruct (lookup_two l1 l2 l3 x y) as [-> ->]. cbn [mbind option_bind].
  assert (forall a b c l, <[length l1 := a]> (l1 ++ b :: c ++ l) = l1 ++ a :: c ++ l) as H1.
  { intros. by rewrite insert_app_r_alt, Nat.sub_diag by lia. }
  assert (forall a b c, <[(length l1 + 1 + length l2)%nat := a]> (l1 ++ b :: l2 ++ c :: l3) = l1 ++ b :: l2 ++ a :: l3) as H2.
  { intros. rewrite insert_app_r_alt by lia. f_equal.
    replace (length l1 + 1 + length l2 - length l1)%nat with (S (length l2)) by lia. simpl. f_equal.
    by rewrite insert_app_r_alt, Nat.sub_diag by lia. }
  by rewrite H2, !H1, H2.
Qed.

Lemma swap_self l i x : l !! i = Some x -> swap l i i = Some l.
Proof.
  intros H. unfold swap. rewrite H. cbn [mbind option_bind].
  by rewrite (list_insert_id l i x H), (list_insert_id l i x H).
Qed.

Lemma split_two (l : list A) i j : (i < j < length l)%nat ->
  exists l1 l2 l3 x y, l = l1 ++ x :: l2 ++ y :: l3 /\ i = length l1 /\ j = (length l1 + 1 + length l2)%nat.
Proof.
  intros Hij. destruct (lookup_lt_is_Some_2 l i ltac:(lia)) as [x Ex].
  apply list_elem_of_split_length in Ex as (l1 & l' & -> & ->).
  rewrite length_app in Hij. simpl in Hij.
  destruct (lookup_lt_is_Some_2 l' (j - length l1 - 1) ltac:(lia)) as [y Ey].
  apply list_elem_of_split_length in Ey as (l2 & l3 & -> & Ej). exists l1, l2, l3, x, y. split; [done|]. lia.
Qed.

(** Any exchange of two elements inside the array permutes it. *)
Lemma swap_perm l i j : (i < length l)%nat -> (j < length l)%nat ->
  exists l', swap l i j = Some l' /\ l' ≡ₚ l.
Proof.
  intros Hi Hj. destruct (lookup_lt_is_Some_2 l i Hi) as [x Ex].
  assert (forall l1 l2 l3 (a b : A), l1 ++ a :: l2 ++ b :: l3 ≡ₚ l1 ++ b :: l2 ++ a :: l3) as Hp.
  { intros l1 l2 l3 a b. apply Permutation_app_head.
    rewrite <- !Permutation_middle. apply perm_swap. }
  destruct (Nat.lt_trichotomy i j) as [H|[<-|H]].
  - destruct (split_two l i j ltac:(lia)) as (l1 & l2 & l3 & a & b & -> & Ei & Ej).
    destruct (swap_at l1 l2 l3 a b i j Ei Ej) as [-> _]. eauto.
  - exists l. by rewrite (swap_self l i x).
  - destruct (split_two l j i ltac:(lia)) as (l1 & l2 & l3 & a & b & -> & Ei & Ej).
    destruct (swap_at l1 l2 l3 a b j i Ei Ej) as [_ ->]. eauto.
Qed.

(** ** Distances

    In an array of less than 2^31 bytes the distances are those of the elements. *)

Hypothesis es_pos : 0 < es.

Lemma bytes_sub i j : (j <= i)%nat -> bytes i - bytes j = bytes (i - j).
Proof. intros H. unfold bytes. rewrite Nat2Z.inj_sub by done. lia. Qed.

Lemma bytes_mono i j : (i <= j)%nat -> 0 <= bytes i <= bytes j.
Proof. intros H. unfold bytes. nia. Qed.

Lemma elem_at_bytes i : elem_at (bytes i) = Some i.
Proof.
  unfold elem_at, bytes. rewrite Z.mod_mul, Z.div_mul by lia. rewrite (proj2 (Z.leb_le _ _)) by nia. simpl. by rewrite Nat2Z.id.
Qed.

Lemma s32_bytes i n : (i <= n)%nat -> bytes n < 2 ^ 31 -> s32 (bytes i) = bytes i.
Proof. intros Hi Hn. pose proof (bytes_mono i n Hi). apply s32_small. unfold is_s32. lia. Qed.

Lemma u64_bytes i n : (i <= n)%nat -> bytes n < 2 ^ 31 -> u64 (bytes i) = bytes i.
Proof. intros Hi Hn. pose proof (bytes_mono i n Hi). apply u64_small. unfold is_u64. lia. Qed.

Lemma longer_bytes i n : (i <= n)%nat -> bytes n < 2 ^ 31 -> longer (bytes i) = (1 <? i)%nat /\ elements (bytes i) = Z.of_nat i.
Proof.
  intros Hi Hn. unfold longer, elements. rewrite (u64_bytes i n) by done. split.
  - unfold bytes. destruct (Nat.ltb_spec 1 i), (Z.ltb_spec es (Z.of_nat i * es)); try done; nia.
  - unfold bytes. by rewrite Z.div_mul by lia.
Qed.

Lemma min_bytes i j : Z.min (bytes i) (bytes j) = bytes (Nat.min i j).
Proof. unfold bytes. destruct (Nat.le_ge_cases i j); [rewrite Nat.min_l by done|rewrite Nat.min_r by done]; nia. Qed.

Lemma vecswap_bytes i j r l : (0 < r)%nat -> vecswap i (bytes j) (bytes r) l = match swapfn with Some f => Some (f i j r l) | None => None end.
Proof. intros Hr. unfold vecswap. rewrite !elem_at_bytes. assert (0 < bytes r) by (unfold bytes; nia). destruct (Z.ltb_spec 0 (bytes r)); [done|lia]. Qed.

Lemma vecswap_none i j l : vecswap i j (bytes 0) l = Some l.
Proof. done. Qed.

(** ** What the callbacks promise *)

Definition le (x y : A) : Prop := cmp x y <= 0.

(** The result of a correct sort. *)
Definition sorts (l l' : list A) : Prop := l' ≡ₚ l /\ StronglySorted le l'.

(** [swapfn] exchanges the two disjoint blocks of [r] elements it is given. *)
Definition swaps_blocks (f : nat -> nat -> nat -> list A -> list A) : Prop :=
  forall P X M Y Q r, length X = r -> length Y = r ->
  f (length P) (length P + r + length M)%nat r (P ++ X ++ M ++ Y ++ Q) = P ++ Y ++ M ++ X ++ Q.

Hypothesis cmp_anti : forall x y, Z.sgn (cmp y x) = - Z.sgn (cmp x y).
Hypothesis cmp_trans : forall x y z, le x y -> le y z -> le x z.

Lemma le_total x y : 0 < cmp x y -> le y x.
Proof. unfold le. specialize (cmp_anti x y). lia. Qed.

Lemma sorted_snoc s x :
  StronglySorted le (s ++ [x]) <-> StronglySorted le s /\ Forall (fun a => le a x) s.
Proof.
  rewrite StronglySorted_app, Forall_forall. split.
  - intros (H & ? & _). split; [done|]. intros a Ha. apply H; set_solver.
  - intros [? H]. split; [intros a b Ha ->%list_elem_of_singleton; auto|]. split; [done|]. repeat constructor.
Qed.

(** ** The insertion sort *)

Lemma insert_down_ok s x rest : StronglySorted le s ->
  exists s', insert_down (length s) (s ++ x :: rest) = Some (s' ++ rest) /\
             s' ≡ₚ s ++ [x] /\ StronglySorted le s'.
Proof.
  revert x rest. induction s as [|y s IH] using rev_ind; intros x rest Hs.
  { exists [x]. split; [done|]. split; [done|]. repeat constructor. }
  apply sorted_snoc in Hs as [Hs Hy].
  rewrite length_app, Nat.add_1_r. cbn [insert_down].
  replace ((s ++ [y]) ++ x :: rest) with (s ++ y :: [] ++ x :: rest) by by app_norm.
  destruct (cmp_at s [] rest y x (length s) (S (length s)) eq_refl ltac:(simpl; lia)) as [-> _].
  destruct (swap_at s [] rest y x (length s) (S (length s)) eq_refl ltac:(simpl; lia)) as [_ ->].
  cbn [mbind option_bind]. destruct (Z.ltb_spec 0 (cmp y x)) as [Hc|Hc].
  - destruct (IH x (y :: rest) Hs) as (s' & E & Hp & Hs'). exists (s' ++ [y]).
    simpl. rewrite E. split; [by app_norm|]. split.
    + rewrite Hp, <- !app_assoc. apply Permutation_app_head, perm_swap.
    + apply sorted_snoc. split; [done|]. rewrite Hp. apply Forall_app. split; [done|].
      constructor; [by apply le_total|done].
  - exists (s ++ [y] ++ [x]). split; [by app_norm|]. split; [by app_norm|].
    rewrite app_assoc. apply sorted_snoc. split; [by apply sorted_snoc|].
    apply Forall_app. split; [|by constructor].
    eapply Forall_impl; [exact Hy|]. intros a Ha. by apply (cmp_trans a y x).
Qed.

Lemma insertion_loop_ok k s rest : length rest = k -> StronglySorted le s ->
  exists l', insertion_loop k (length s) (s ++ rest) = Some l' /\ sorts (s ++ rest) l'.
Proof.
  revert s rest. induction k as [|k IH]; intros s rest Hk Hs.
  - destruct rest; [|done]. rewrite app_nil_r. by exists s.
  - destruct rest as [|x rest]; [done|]. simpl in Hk. cbn [insertion_loop].
    destruct (insert_down_ok s x rest Hs) as (s' & -> & Hp & Hs'). cbn [mbind option_bind].
    destruct (IH s' rest ltac:(lia) Hs') as (l' & E & Hp' & Hs'').
    assert (length s' = S (length s)) as Hl by (rewrite Hp, length_app; simpl; lia).
    rewrite Hl in E. exists l'. split; [done|]. split; [|done].
    rewrite Hp', Hp. by app_norm.
Qed.

Lemma insertion_sort_ok l : exists l', insertion_sort l = Some l' /\ sorts l l'.
Proof.
  unfold insertion_sort. destruct l as [|x l]; [exists []; split; [done|]; split; [done|constructor]|].
  apply (insertion_loop_ok _ [x] l); [simpl; lia|]. repeat constructor.
Qed.

(** ** The pivot *)

Lemma cmp_some l i j : (i < length l)%nat -> (j < length l)%nat -> exists r, CMP l i j = Some r.
Proof.
  intros Hi Hj. unfold CMP. destruct (lookup_lt_is_Some_2 l i Hi) as [x ->].
  destruct (lookup_lt_is_Some_2 l j Hj) as [y ->]. simpl. eauto.
Qed.

Lemma med3_ok l a b c : (a < length l)%nat -> (b < length l)%nat -> (c < length l)%nat ->
  exists m, med3 l a b c = Some m /\ (m < length l)%nat.
Proof.
  intros Ha Hb Hc. unfold med3.
  destruct (cmp_some l a b Ha Hb) as [ab ->], (cmp_some l b c Hb Hc) as [bc ->],
    (cmp_some l a c Ha Hc) as [ac ->].
  cbn [mbind option_bind]. eexists. split; [reflexivity|]. repeat case_match; done.
Qed.

Lemma pivot_ok l : (7 <= length l)%nat -> bytes (length l) < 2 ^ 31 -> exists m, pivot l = Some m /\ (m < length l)%nat.
Proof.
  intros Hn Hb. unfold pivot. set (n := length l) in *.
  pose proof (Nat.div_mod_eq n 2). pose proof (Nat.mod_upper_bound n 2).
  pose proof (Nat.div_mod_eq n 8). pose proof (Nat.mod_upper_bound n 8).
  destruct (7 <? n)%nat; [|exists (n / 2)%nat; split; [done|lia]].
  destruct (Nat.ltb_spec 40 n); [|apply med3_ok; lia].
  set (d := (n / 8)%nat) in *. rewrite (s32_bytes d n) by (done||lia).
  replace (2 * bytes d) with (bytes (2 * d)) by (unfold bytes; lia). rewrite (s32_bytes (2 * d) n) by (done||lia).
  rewrite !bytes_sub by lia.
  assert (forall i j, bytes i + bytes j = bytes (i + j)) as Hadd by (intros; unfold bytes; lia). rewrite !Hadd, !elem_at_bytes. cbn [mbind option_bind].
  destruct (med3_ok l 0 (0 + d) (0 + 2 * d)) as (pl & -> & Hpl); [lia..|]. cbn [mbind option_bind].
  destruct (med3_ok l (n / 2 - d) (n / 2) (n / 2 + d)) as (pm & -> & Hpm); [lia..|]. cbn [mbind option_bind].
  destruct (med3_ok l (n - 1 - 2 * d) (n - 1 - d) (n - 1)) as (pn & -> & Hpn); [lia..|]. cbn [mbind option_bind].
  by apply med3_ok.
Qed.

(** ** The partition *)

(** The array as the partition sees it: the pivot, the elements equal to it
    collected on the left, the smaller ones, the unseen ones, the larger ones
    and the equal ones collected on the right. *)
Record layout (s : part) (v : A) (E1 L U G E2 : list A) : Prop := {
  lay_l : p_l s = v :: E1 ++ L ++ U ++ G ++ E2;
  lay_pa : pa s = S (length E1);
  lay_pb : pb s = S (length E1 + length L);
  lay_pc : pc s = (length E1 + length L + length U)%nat;
  lay_pd : pd s = (length E1 + length L + length U + length G)%nat;
  lay_E1 : Forall (fun x => cmp x v = 0) E1;
  lay_L : Forall (fun x => cmp x v < 0) L;
  lay_G : Forall (fun x => cmp x v > 0) G;
  lay_E2 : Forall (fun x => cmp x v = 0) E2
}.

Lemma swap_same_perm l i j l' : swap l i j = Some l' -> l' ≡ₚ l.
Proof.
  intros E. unfold swap in E. destruct (l !! i) eqn:Ei; [|done]. destruct (l !! j) eqn:Ej; [|done].
  destruct (swap_perm l i j) as (l'' & E' & Hp); [by eapply lookup_lt_Some..|].
  unfold swap in E'. rewrite Ei, Ej in E'. simpl in *. by simplify_eq.
Qed.

Lemma cmp_pivot v l1 x l2 i : i = S (length l1) -> CMP (v :: l1 ++ x :: l2) i 0 = Some (cmp x v).
Proof.
  intros ->. unfold CMP. change ((v :: l1 ++ x :: l2) !! S (length l1)) with ((l1 ++ x :: l2) !! length l1).
  by rewrite list_lookup_middle.
Qed.

(** Moving an element across a block permutes the block. *)
Lemma swap_before P L u Q i j : i = length P -> j = (length P + length L)%nat ->
  exists L', swap (P ++ L ++ u :: Q) i j = Some (P ++ u :: L' ++ Q) /\ L' ≡ₚ L.
Proof.
  intros -> ->. destruct L as [|y L].
  - exists []. simpl. rewrite Nat.add_0_r, (swap_self _ _ u); [done|]. by apply list_lookup_middle.
  - exists (L ++ [y]). split; [|symmetry; apply Permutation_cons_append].
    destruct (swap_at P L Q y u (length P) (length P + length (y :: L)) eq_refl ltac:(simpl; lia)) as [E _].
    simpl in *. rewrite E. by app_norm.
Qed.

Lemma swap_after P G u Q i j : i = length P -> j = (length P + length G)%nat ->
  exists G', swap (P ++ u :: G ++ Q) i j = Some (P ++ G' ++ u :: Q) /\ G' ≡ₚ G.
Proof.
  intros -> ->. destruct G as [|g G _] using rev_ind.
  - exists []. simpl. rewrite Nat.add_0_r, (swap_self _ _ u); [done|]. by apply list_lookup_middle.
  - exists (g :: G). split; [|apply Permutation_cons_append].
    destruct (swap_at P G Q u g (length P) (length P + length (G ++ [g])) eq_refl) as [E _].
    { rewrite length_app. simpl. lia. }
    rewrite <- app_assoc. simpl in *. by rewrite E.
Qed.

(** Re-establishes a layout from the one in the context. *)
Ltac lay_solve :=
  match goal with H : layout _ _ _ _ _ _ _ |- layout _ _ _ _ _ _ _ =>
    destruct H as [HHl HHa HHb HHc HHd ? ? ? ?]; simpl in HHc, HHb, HHd;
    rewrite ?length_app in HHc; rewrite ?length_app in HHb; rewrite ?length_app in HHd; simpl in HHc, HHb, HHd;
    split; cbn [p_l pa pb pc pd];
    [try rewrite HHl; by app_norm
    |rewrite ?length_app; simpl; lia
    |rewrite ?length_app; simpl; lia
    |rewrite ?length_app; simpl; lia
    |rewrite ?length_app; simpl; lia
    |repeat first [done | apply Forall_app; split | constructor]..]
  end.

Lemma scan_up_ok U : forall fuel s v E1 L G E2, layout s v E1 L U G E2 -> (length U <= fuel)%nat ->
  exists s' E1' L' U', scan_up fuel s = Some s' /\ layout s' v E1' L' U' G E2 /\ p_l s' ≡ₚ p_l s /\
    (length U' <= length U)%nat /\ (forall u, head U' = Some u -> cmp u v > 0).
Proof.
  induction U as [|u U IH]; intros fuel s v E1 L G E2 H Hf.
  - exists s, E1, L, []. split; [|done].
    assert ((pb s <=? pc s)%nat = false) as Hle.
    { apply Nat.leb_gt. destruct H as [_ _ -> -> _ _ _ _ _]. simpl. lia. }
    destruct fuel; simpl; by rewrite Hle.
  - assert ((pb s <=? pc s)%nat = true) as Hle.
    { apply Nat.leb_le. destruct H as [_ _ -> -> _ _ _ _ _]. simpl. lia. }
    assert (CMP (p_l s) (pb s) 0 = Some (cmp u v)) as Hc.
    { destruct H as [-> _ -> _ _ _ _ _ _]. rewrite (app_assoc E1). apply cmp_pivot. by rewrite length_app. }
    destruct fuel as [|fuel]; simpl in Hf; [lia|]. cbn [scan_up]. rewrite Hle, Hc. cbn [mbind option_bind].
    destruct (Z.leb_spec (cmp u v) 0) as [Hr|Hr].
    2: { exists s, E1, L, (u :: U). split_and!; [done..|]. intros ? [= <-]. lia. }
    destruct (Z.eqb_spec (cmp u v) 0) as [Hz|Hz].
    + destruct (swap_before (v :: E1) L u (U ++ G ++ E2) (pa s) (pb s)) as (L' & Es & HL);
        [by destruct H|by destruct H; simpl; lia|].
      pose proof (lay_l _ _ _ _ _ _ _ H) as El. change (p_l s = (v :: E1) ++ L ++ u :: U ++ G ++ E2) in El.
      rewrite <- El in Es. rewrite Es. cbn [mbind option_bind].
      match goal with |- context [scan_up fuel ?t] =>
        destruct (IH fuel t v (E1 ++ [u]) L' G E2) as (s' & E1' & L'' & U' & E & Hlay & Hp & Hlen & Hhd) end;
        [|lia|rewrite E; exists s', E1', L'', U'].
      * pose proof (lay_L _ _ _ _ _ _ _ H) as HFL. rewrite <- HL in HFL.
        pose proof (Permutation_length HL). lay_solve.
      * split_and!; [done|exact Hlay|rewrite Hp; by eapply swap_same_perm|simpl; lia|done].
    + match goal with |- context [scan_up fuel ?t] =>
        destruct (IH fuel t v E1 (L ++ [u]) G E2) as (s' & E1' & L'' & U' & E & Hlay & Hp & Hlen & Hhd) end;
        [|lia|rewrite E; exists s', E1', L'', U'].
      * assert (cmp u v < 0) by lia. lay_solve.
      * split_and!; [done|exact Hlay|done|simpl; lia|done].
Qed.

Lemma scan_down_ok U : forall fuel s v E1 L G E2, layout s v E1 L U G E2 -> (length U <= fuel)%nat ->
  exists s' U' G' E2', scan_down fuel s = Some s' /\ layout s' v E1 L U' G' E2' /\ p_l s' ≡ₚ p_l s /\
    (exists W, U = U' ++ W) /\ (forall u, last U' = Some u -> cmp u v < 0).
Proof.
  induction U as [|u U IH] using rev_ind; intros fuel s v E1 L G E2 H Hf.
  - exists s, [], G, E2. split_and!; [|done|done|by exists []|done].
    assert ((pb s <=? pc s)%nat = false) as Hle.
    { apply Nat.leb_gt. destruct H as [_ _ -> -> _ _ _ _ _]. simpl. lia. }
    destruct fuel; simpl; by rewrite Hle.
  - rewrite length_app in Hf. simpl in Hf. destruct fuel as [|fuel]; [lia|].
    assert ((pb s <=? pc s)%nat = true) as Hle.
    { apply Nat.leb_le. destruct H as [_ _ -> -> _ _ _ _ _]. rewrite length_app. simpl. lia. }
    pose proof (lay_l _ _ _ _ _ _ _ H) as El.
    assert (CMP (p_l s) (pc s) 0 = Some (cmp u v)) as Hc.
    { rewrite El. destruct H as [_ _ _ -> _ _ _ _ _].
      replace (E1 ++ L ++ (U ++ [u]) ++ G ++ E2) with ((E1 ++ L ++ U) ++ u :: G ++ E2) by by app_norm.
      apply cmp_pivot. rewrite !length_app. simpl. lia. }
    cbn [scan_down]. rewrite Hle, Hc. cbn [mbind option_bind].
    destruct (Z.leb_spec 0 (cmp u v)) as [Hr|Hr].
    2: { exists s, (U ++ [u]), G, E2. split_and!; [done..|exists []; by rewrite app_nil_r|].
         intros w. rewrite last_snoc. intros [= <-]. lia. }
    destruct (Z.eqb_spec (cmp u v) 0) as [Hz|Hz].
    + destruct (swap_after (v :: E1 ++ L ++ U) G u E2 (pc s) (pd s)) as (G' & Es & HG);
        [destruct H as [_ _ _ -> _ _ _ _ _]; simpl; rewrite !length_app; simpl; lia
        |destruct H as [_ _ _ _ -> _ _ _ _]; simpl; rewrite !length_app; simpl; lia|].
      replace ((v :: E1 ++ L ++ U) ++ u :: G ++ E2) with (p_l s) in Es by (rewrite El; by app_norm).
      rewrite Es. cbn [mbind option_bind].
      match goal with |- context [scan_down fuel ?t] =>
        destruct (IH fuel t v E1 L G' (u :: E2)) as (s' & U' & G'' & E2' & E & Hlay & Hp & [W HW] & Hla) end;
        [|lia|rewrite E; exists s', U', G'', E2'].
      * pose proof (lay_G _ _ _ _ _ _ _ H) as HFG. rewrite <- HG in HFG.
        pose proof (Permutation_length HG). lay_solve.
      * split_and!; [done|exact Hlay|rewrite Hp; by eapply swap_same_perm|exists (W ++ [u]); rewrite HW; by app_norm|done].
    + match goal with |- context [scan_down fuel ?t] =>
        destruct (IH fuel t v E1 L (u :: G) E2) as (s' & U' & G'' & E2' & E & Hlay & Hp & [W HW] & Hla) end;
        [|lia|rewrite E; exists s', U', G'', E2'].
      * assert (cmp u v > 0) by lia. lay_solve.
      * split_and!; [done|exact Hlay|done|exists (W ++ [u]); rewrite HW; by app_norm|done].
Qed.

Lemma partition_ok fuel : forall s v E1 L U G E2, layout s v E1 L U G E2 -> (length U < fuel)%nat ->
  exists s' E1' L' G' E2', partition fuel s = Some s' /\ layout s' v E1' L' [] G' E2' /\ p_l s' ≡ₚ p_l s.
Proof.
  induction fuel as [|fuel IH]; intros s v E1 L U G E2 H Hf; [lia|]. cbn [partition].
  assert (forall s v E1 L U G E2, layout s v E1 L U G E2 -> (length U <= length (p_l s))%nat) as Hlen.
  { intros ??????? [-> _ _ _ _ _ _ _ _]. cbn [length]. rewrite !length_app. lia. }
  destruct (scan_up_ok U _ s v E1 L G E2 H (Hlen _ _ _ _ _ _ _ H)) as (s1 & E1' & L' & U1 & -> & H1 & Hp1 & Hl1 & Hh).
  cbn [mbind option_bind].
  destruct (scan_down_ok U1 _ s1 v E1' L' G E2 H1 (Hlen _ _ _ _ _ _ _ H1)) as (s2 & U2 & G' & E2' & -> & H2 & Hp2 & [W ->] & Hla).
  cbn [mbind option_bind]. destruct U2 as [|a U2].
  { exists s2, E1', L', G', E2'. split_and!; [|done|by rewrite Hp2].
    assert ((pc s2 <? pb s2)%nat = true) as ->; [|done].
    apply Nat.ltb_lt. destruct H2 as [_ _ -> -> _ _ _ _ _]. simpl. lia. }
  assert (cmp a v > 0) as Ha by by apply Hh.
  destruct U2 as [|b M _] using rev_ind; [specialize (Hla a eq_refl); lia|].
  assert (cmp b v < 0) as Hb by (apply Hla; by rewrite app_comm_cons, last_snoc).
  assert ((pc s2 <? pb s2)%nat = false) as ->.
  { apply Nat.ltb_ge. destruct H2 as [_ _ -> -> _ _ _ _ _]. simpl. lia. }
  destruct (swap_at (v :: E1' ++ L') M (G' ++ E2') a b (pb s2) (pc s2)) as [Es _].
  { destruct H2 as [_ _ -> _ _ _ _ _ _]. simpl. rewrite length_app. lia. }
  { destruct H2 as [_ _ _ -> _ _ _ _ _]. simpl. rewrite !length_app. simpl. lia. }
  pose proof (lay_l _ _ _ _ _ _ _ H2) as El.
  replace ((v :: E1' ++ L') ++ a :: M ++ b :: G' ++ E2') with (p_l s2) in Es by (rewrite El; by app_norm).
  rewrite Es. cbn [mbind option_bind].
  match goal with |- context [partition fuel ?t] =>
    destruct (IH t v E1' (L' ++ [b]) M (a :: G') E2') as (s' & E1'' & L'' & G'' & E2'' & -> & H' & Hp') end.
  - lay_solve.
  - rewrite !length_app in Hl1. simpl in Hl1. rewrite !length_app in Hl1. simpl in Hl1. lia.
  - exists s', E1'', L'', G'', E2''. split_and!; [done..|].
    rewrite Hp'. cbn [p_l]. rewrite (swap_same_perm _ _ _ _ Es), Hp2. done.
Qed.

(** ** The whole sort *)

Lemma sorted_parts v L E G : StronglySorted le L -> StronglySorted le G ->
  Forall (fun x => cmp x v < 0) L -> Forall (fun x => cmp x v = 0) E -> Forall (fun x => cmp x v > 0) G ->
  StronglySorted le (L ++ E ++ G).
Proof.
  intros HL HG FL FE FG. rewrite Forall_forall in FL, FE, FG.
  assert (forall x, x ∈ E -> le v x) as HvE.
  { intros x Hx. unfold le. specialize (FE x Hx). specialize (cmp_anti x v). lia. }
  assert (forall x, x ∈ G -> le v x) as HvG by (intros x Hx; apply le_total; specialize (FG x Hx); lia).
  assert (forall x, x ∈ L -> le x v) as HLv by (intros x Hx; unfold le; specialize (FL x Hx); lia).
  assert (forall x, x ∈ E -> le x v) as HEv by (intros x Hx; unfold le; specialize (FE x Hx); lia).
  apply StronglySorted_app. split_and!; [|done|apply StronglySorted_app; split_and!; [|clear FE FG|done]].
  - intros x y Hx Hy. apply (cmp_trans x v y); set_solver.
  - intros x y Hx Hy. apply (cmp_trans x v y); auto.
  - clear HL HG FL. induction E as [|e E IH]; constructor; [apply IH; set_solver|].
    apply Forall_forall. intros x Hx. apply (cmp_trans e v x); set_solver.
Qed.

(** The exchange of blocks around a border rotates the two blocks. *)
Lemma vecswap_rotate f P X Y Q i j r : swapfn = Some f -> swaps_blocks f ->
  i = length P -> r = Nat.min (length X) (length Y) -> j = (length P + length X + length Y - r)%nat ->
  exists X' Y', vecswap i (bytes j) (bytes r) (P ++ X ++ Y ++ Q) = Some (P ++ Y' ++ X' ++ Q) /\ X' ≡ₚ X /\ Y' ≡ₚ Y.
Proof.
  intros Ef Hf -> Hr Hj. destruct (Nat.ltb_spec 0 r) as [H0|H0]; [rewrite vecswap_bytes, Ef by done|].
  2: { replace r with 0%nat by lia. exists X, Y. split_and!; [|done..]. rewrite vecswap_none.
       destruct X as [|x X]; [done|]. destruct Y as [|y Y]; [done|]. simpl in Hr. lia. }
  destruct (Nat.le_gt_cases (length X) (length Y)) as [H|H].
  - set (m := (length Y - r)%nat). exists X, (drop m Y ++ take m Y). split_and!; [|done|].
    + rewrite <- (take_drop m Y) at 1. f_equal.
      pose proof (length_take Y m). pose proof (length_drop Y m).
      pose proof (Hf P X (take m Y) (drop m Y) Q r ltac:(lia) ltac:(lia)) as E.
      rewrite <- !app_assoc. rewrite <- E. f_equal. lia.
    + rewrite Permutation_app_comm. by rewrite take_drop.
  - exists (drop r X ++ take r X), Y. split_and!; [| |done].
    + rewrite <- (take_drop r X) at 1. f_equal.
      pose proof (length_take X r). pose proof (length_drop X r).
      pose proof (Hf P (take r X) (drop r X) Y Q r ltac:(lia) ltac:(lia)) as E.
      rewrite <- !app_assoc. rewrite <- E. f_equal. lia.
    + rewrite Permutation_app_comm. by rewrite take_drop.
Qed.

Hypothesis qsort_sorts : forall l, sorts l (qsort l).

(** The recursion on the two outer parts, the left one by the host's [qsort]. *)
Lemma recurse_ok fuel v L E G :
  Forall (fun x => cmp x v < 0) L -> Forall (fun x => cmp x v = 0) E -> Forall (fun x => cmp x v > 0) G ->
  bytes (length (L ++ E ++ G)) < 2 ^ 31 -> (exists G', __qsort fuel G = Some G' /\ sorts G G') ->
  let n := length (L ++ E ++ G) in
  exists l',
    (l ← (if longer (bytes (length L)) then
            if elements (bytes (length L)) <=? Z.of_nat n
            then let k := Z.to_nat (elements (bytes (length L))) in Some (qsort (take k (L ++ E ++ G)) ++ drop k (L ++ E ++ G)) else None
          else Some (L ++ E ++ G));
     if longer (bytes (length G)) then
       a ← elem_at (bytes n - bytes (length G));
       if Z.of_nat a + elements (bytes (length G)) =? Z.of_nat n then right ← __qsort fuel (drop a l); Some (take a l ++ right) else None
     else Some l) = Some l' /\
    sorts (L ++ E ++ G) l'.
Proof.
  intros FL FE FG Hb (G' & EG & HpG & HsG) n.
  assert (length L <= n /\ length G <= n)%nat as [HLn HGn] by (unfold n; rewrite !length_app; lia).
  destruct (longer_bytes (length L) n HLn Hb) as [-> ->], (longer_bytes (length G) n HGn Hb) as [-> ->].
  rewrite bytes_sub, elem_at_bytes by done. rewrite (proj2 (Z.leb_le (Z.of_nat (length L)) (Z.of_nat n))), Nat2Z.id by lia. cbv zeta.
  set (l := if (1 <? length L)%nat then qsort (take (length L) (L ++ E ++ G)) ++ drop (length L) (L ++ E ++ G) else L ++ E ++ G).
  replace (if (1 <? length L)%nat then Some _ else _) with (Some l) by (unfold l; by destruct (1 <? length L)%nat).
  cbn [mbind option_bind]. replace (Z.of_nat (n - length G) + Z.of_nat (length G) =? Z.of_nat n) with true by (symmetry; apply Z.eqb_eq; lia). set (k := (n - length G)%nat).
  assert (exists L', l = L' ++ E ++ G /\ sorts L L') as (L' & -> & HpL & HsL).
  { unfold l. destruct (Nat.ltb_spec 1 (length L)).
    - exists (qsort L). rewrite take_app_length, drop_app_length. auto.
    - exists L. split; [done|]. split; [done|]. destruct L as [|? [|]]; simpl in *; [constructor|repeat constructor|lia]. }
  assert (k = length (L' ++ E)) as -> by (unfold k, n; rewrite !length_app, HpL; lia).
  rewrite app_assoc, drop_app_length, take_app_length, EG. cbn [mbind option_bind].
  rewrite <- HpL in FL. destruct (Nat.ltb_spec 1 (length G)).
  - exists (L' ++ E ++ G'). split; [by rewrite <- app_assoc|]. split; [by rewrite HpL, HpG|].
    apply (sorted_parts v); [done..|by rewrite HpG].
  - exists (L' ++ E ++ G). split; [by rewrite <- app_assoc|]. split; [by rewrite HpL|].
    apply (sorted_parts v); [done| |done..]. destruct G as [|? [|]]; simpl in *; [constructor|repeat constructor|lia].
Qed.

Lemma partition_start l m : (m < length l)%nat -> (7 <= length l)%nat ->
  exists l0 v s E1 L G E2, swap l 0 m = Some l0 /\
    partition (length l) {| p_l := l0; pa := 1; pb := 1; pc := length l - 1; pd := length l - 1; swap_cnt := false |} = Some s /\
    layout s v E1 L [] G E2 /\ p_l s ≡ₚ l.
Proof.
  intros Hm Hn. destruct (swap_perm l 0 m ltac:(lia) Hm) as (l0 & Es & Hp).
  pose proof (Permutation_length Hp) as Hl. destruct l0 as [|v U]; [simpl in Hl; lia|]. simpl in Hl.
  edestruct (partition_ok (length l)
    {| p_l := v :: U; pa := 1; pb := 1; pc := length l - 1; pd := length l - 1; swap_cnt := false |}
    v [] [] U [] []) as (s & E1 & L & G & E2 & E & H & Hp').
  - split; cbn [p_l pa pb pc pd]; [by app_norm|simpl; lia..|constructor|constructor|constructor|constructor].
  - lia.
  - exists (v :: U), v, s, E1, L, G, E2. split_and!; [done..|]. by rewrite Hp'.
Qed.

Lemma qsort_ok f fuel l : swapfn = Some f -> swaps_blocks f -> (length l < fuel)%nat -> bytes (length l) < 2 ^ 31 ->
  exists l', __qsort fuel l = Some l' /\ sorts l l'.
Proof.
  intros Ef Hf. revert l. induction fuel as [|fuel IH]; intros l Hfuel Hbytes; [lia|]. cbn [__qsort].
  destruct (Nat.ltb_spec (length l) 7) as [H7|H7]; [by apply insertion_sort_ok|].
  destruct (pivot_ok l H7 Hbytes) as (m & -> & Hm). cbn [mbind option_bind].
  destruct (partition_start l m Hm H7) as (l0 & v & s & E1 & L & G & E2 & -> & Epart & H & Hp).
  cbn [mbind option_bind]. rewrite Epart. cbn [mbind option_bind].
  destruct (swap_cnt s); cbn [negb].
  2: { destruct (insertion_sort_ok (p_l s)) as (l' & -> & Hp' & Hs). exists l'. split; [done|]. split; [|done]. by rewrite Hp'. }
  pose proof (Permutation_length Hp) as Hn.
  destruct H as [El Ha Hb Hc Hd FE1 FL FG FE2]. rewrite El in Hn. simpl in *. rewrite !length_app in Hn.
  assert (pa s <= pb s /\ pb s <= length l /\ pc s <= pd s /\ pd s < length l)%nat as (Hab & Hbn & Hcd & Hdn) by lia.
  rewrite (bytes_sub (pb s) (pa s)), min_bytes, (bytes_sub (pd s) (pc s)) by done. rewrite (bytes_sub (length l) (pd s)) by lia.
  replace (bytes (length l - pd s) - es) with (bytes (length l - pd s - 1)) by (unfold bytes; lia).
  rewrite !(u64_bytes _ (length l)), min_bytes by (done||lia). rewrite !(s32_bytes _ (length l)) by (done||lia).
  rewrite (bytes_sub (pb s)), (bytes_sub (length l) (Nat.min (pd s - pc s) _)) by lia.
  destruct (vecswap_rotate f [] (v :: E1) L (G ++ E2) 0 (pb s - Nat.min (pa s) (pb s - pa s))
    (Nat.min (pa s) (pb s - pa s)) Ef Hf) as (EE & L' & EV1 & HEE & HL); [done|cbn [length]; lia..|].
  rewrite El. cbn [app] in EV1. rewrite EV1. cbn [mbind option_bind].
  pose proof (Permutation_length HEE) as HlE. pose proof (Permutation_length HL) as HlL. simpl in HlE.
  destruct (vecswap_rotate f (L' ++ EE) G E2 [] (pb s) (length l - Nat.min (pd s - pc s) (length l - pd s - 1))
    (Nat.min (pd s - pc s) (length l - pd s - 1)) Ef Hf) as (G' & EE2 & EV2 & HG & HE2);
    [rewrite length_app; lia|lia|rewrite length_app; lia|].
  rewrite !app_nil_r, <- !app_assoc in EV2. rewrite EV2. cbn [mbind option_bind].
  pose proof (Permutation_length HE2) as HlE2. pose proof (Permutation_length HG) as HlG.
  rewrite <- HL in FL. rewrite <- HG in FG. rewrite <- HE2 in FE2.
  assert (cmp v v = 0) as Hvv by (specialize (cmp_anti v v); lia).
  assert (Forall (fun x => cmp x v = 0) EE) as FE by (rewrite HEE; by constructor).
  assert (length (L' ++ (EE ++ EE2) ++ G') = length l) as Hlen by (rewrite !length_app; lia).
  destruct (recurse_ok fuel v L' (EE ++ EE2) G' FL ltac:(by apply Forall_app) FG) as (l' & E & Hp' & Hs);
    [by rewrite Hlen|apply IH; [lia|]; pose proof (bytes_mono (length G') (length l)); lia|].
  rewrite Hlen in E. rewrite <- !app_assoc in *.
  replace (pb s - pa s)%nat with (length L') by lia. replace (pd s - pc s)%nat with (length G') by lia.
  exists l'. split; [exact E|]. split; [|done].
  rewrite Hp', <- Hp, El, HL, HEE, HE2, HG. solve_Permutation.
Qed.

End Sort.

(** ** Theorems *)

(** C40: for a comparison that is a total preorder, a host [qsort] that sorts and a
    [swapfn] that exchanges blocks, [sort] terminates on every array of less than 2^31 bytes, whose
    distances fit the [int] of the code, with a sorted permutation of it; for fewer than seven elements it does so with any
    [swapfn], [NULL] included. *)
Theorem sort_correct {A} (es : Z) (cmp : A -> A -> Z) (qsort : list A -> list A)
    (swapfn : option (nat -> nat -> nat -> list A -> list A)) (l : list A) :
  0 < es -> Z.of_nat (length l) * es < 2 ^ 31 ->
  (forall x y, Z.sgn (cmp y x) = - Z.sgn (cmp x y)) ->
  (forall x y z, le cmp x y -> le cmp y z -> le cmp x z) ->
  (forall l, sorts cmp l (qsort l)) ->
  (exists f, swapfn = Some f /\ swaps_blocks f) \/ (length l < 7)%nat ->
  exists l', sort es cmp qsort swapfn l = Some l' /\ sorts cmp l l'.
Proof.
  intros He Hn Ha Ht Hq [(f & Ef & Hf)|Hl]; unfold sort.
  - by apply (qsort_ok es cmp qsort swapfn He Ha Ht Hq f); [..|lia|].
  - cbn [__qsort]. apply Nat.ltb_lt in Hl. rewrite Hl. by apply (insertion_sort_ok es).
Qed.

(** Without a [swapfn], which is how [drm_atomic_helper_crtc_normalize_zpos]
    and the i915 debug code call it, [sort] of a descending array of seven
    elements calls the [NULL] pointer, whatever the host's [qsort] does. *)
Theorem sort_null_swap (qsort : list Z -> list Z) :
  sort 4 Z.sub qsort None [7; 6; 5; 4; 3; 2; 1] = None.
Proof. reflexivity. Qed.

(** Exchanging the blocks of [r] elements at [i] and [j], [i + r <= j]. *)
Definition block_swap {A} (i j r : nat) (l : list A) : list A :=
  take i l ++ take r (drop j l) ++ take (j - i - r) (drop (i + r) l) ++ take r (drop i l) ++ drop (j + r) l.

Lemma block_swap_ok {A} : swaps_blocks (@block_swap A).
Proof.
  intros P X M Y Q r HX HY. unfold block_swap.
  assert (forall n (K K' : list A), n = length K -> take n (K ++ K') = K /\ drop n (K ++ K') = K') as Hs.
  { intros n K K' ->. by rewrite take_app_length, drop_app_length. }
  destruct (Hs (length P) P (X ++ M ++ Y ++ Q) eq_refl) as [-> ->].
  destruct (Hs r X (M ++ Y ++ Q) ltac:(done)) as [-> _].
  destruct (Hs (length P + r)%nat (P ++ X) (M ++ Y ++ Q) ltac:(rewrite length_app; lia)) as [_ E1].
  destruct (Hs (length P + r + length M)%nat (P ++ X ++ M) (Y ++ Q) ltac:(rewrite !length_app; lia)) as [_ E2].
  destruct (Hs (length P + r + length M + r)%nat (P ++ X ++ M ++ Y) Q ltac:(rewrite !length_app; lia)) as [_ E3].
  rewrite <- !app_assoc in E1. rewrite <- !app_assoc in E2. rewrite <- !app_assoc in E3. rewrite E1, E2, E3.
  destruct (Hs (length P + r + length M - length P - r)%nat M (Y ++ Q) ltac:(lia)) as [-> _].
  by destruct (Hs r Y Q ltac:(done)) as [-> _].
Qed.

(** In larger arrays an [int] is too short for the distances: seven elements of 2^29 bytes, five of them less than the pivot, make the number of
    bytes that are left to the host's [qsort] negative, and as a [size_t] it is far more than the array has. *)
Lemma sort_int_overflow (qsort : list Z -> list Z) : sort (2 ^ 29) Z.sub qsort (Some block_swap) [1; 2; 3; 9; 4; 5; 9] = None.
Proof. vm_compute. reflexivity. Qed.

Lemma merge_sort_sorts l : sorts Z.sub l (merge_sort Z.le l).
Proof.
  split; [apply merge_sort_Permutation|].
  assert (StronglySorted Z.le (merge_sort Z.le l)) as H.
  { apply StronglySorted_merge_sort; [intros ????? |intros ??]; lia. }
  induction H as [|x k Hk IH HF]; constructor; [done|].
  eapply Forall_impl; [exact HF|]. intros y Hy. unfold le. lia.
Qed.

Lemma sort_correct_witness : exists l',
  sort 4 Z.sub (merge_sort Z.le) (Some block_swap) [3; 9; 5; 1; 5; 5; 8; 5; 2] = Some l' /\
  sorts Z.sub [3; 9; 5; 1; 5; 5; 8; 5; 2] l'.
Proof.
  apply (sort_correct 4 Z.sub (merge_sort Z.le) (Some block_swap) [3; 9; 5; 1; 5; 5; 8; 5; 2]).
  - reflexivity.
  - reflexivity.
  - intros x y. lia.
  - unfold le. intros x y z. lia.
  - apply merge_sort_sorts.
  - left. exists block_swap. split; [done|]. apply block_swap_ok.
Defined.
